(* ===== verification/_CoqProject ===== *)
-Q . S2P
Prelude.v
CString.v
CStringSpec.v
Menu.v
Printf.v
PrintfSpec.v
LibProps.v
LongLong.v
QDivRem.v
QDivStep.v
QDivSpec.v
LongLongProps.v
CopyInOut.v
CopyInOutSpec.v
Execv.v
ExecvLaws.v
ExecvArgs.v
ExecvSpec.v
ExecvProps.v
KHeap.v
Bitmap.v
Array.v
Threadlist.v
VmState.v
Coremap.v
KPages.v
Kmalloc.v
KmallocInv.v
KmallocSpec.v
VmHeap.v
Swap.v
AddrSpace.v
SpaceInv.v
VmExample.v
KmallocProps.v
SpaceOps.v
SpaceCopy.v
VmInv.v
VmFault.v
Sbrk.v
Loading.v
VmSystem.v
ThreadState.v
Thread.v
Synch.v
ThreadSwitch.v
ThreadInv.v
SynchSpec.v
SynchSystem.v
SynchInv.v
ThreadExample.v
SynchProps.v
Balloon.v
BalloonInv.v
BalloonProps.v
KWorld.v
Uio.v
UserProps.v
RefWorld.v
PState.v
Files.v
FilesSpec.v
FilesCalls.v
Proc.v
ProcCalls.v
ProcTable.v
ProcInv.v
ProcOps.v
ProcDestroy.v
ProcFork.v
ProcWait.v
ProcExit.v
ProcSystem.v
Trap.v
ProcCheck.v
TrapProps.v
FilesProps.v
ProcProps.v
