(* ===== verification/Prelude.v ===== *)
(** * OS/161: a verification development for the kernel

    The repository is an OS/161 kernel (C, MIPS-161) with demand paging,
    fork/exec/wait/exit, file system calls and synchronisation primitives of
    its own, all under src/kern.  The development models its parts as
    executable functions on explicit states and proves what makes each part
    correct.

    ** Conventions

    An operation is a function [M S A := S -> outcome S A]: it ends with a
    value and a new state ([Done]), in a failed assertion or [panic]
    ([Panic]), in an access to memory that is not there or was never written
    ([Fault]), or it is not finished after its fuel ([NoFuel]).  [wp m Q s]
    is total correctness: [m] ends with [Done] and [Q] holds, so every theorem
    of the form [wp ...] also says that the operation terminates and neither
    panics nor touches freed memory.  [for_] runs a counted loop, [loop_] a
    [while] loop with fuel; the fuel is the number of objects on the list that
    is walked plus one, which the invariants show to be enough.  Machine
    integers are [Z] with the wrap-around written out ([u32], [s32], [s64]).
    An error code is the left part of [err A := Z + A].  Structures live in
    maps from their addresses, a freed structure is not in the map.

    ** Parts and files

    C library shared with user programs (common/libc, common/gcc-millicode).
    [CString], [CStringSpec]: memory as a map of bytes, mem* and str*
    functions, atoi, strtok_r.  [Menu]: the command line of main/menu.c.
    [Printf], [PrintfSpec]: __vprintf and snprintf, against the text a format
    stands for.  [LongLong], [QDivRem], [QDivStep], [QDivSpec]: 64-bit shifts,
    comparison, multiplication and division on 32-bit halves.  [LibProps],
    [LongLongProps]: the theorems.

    User memory (vm/copyinout.c, lib/uio.c).  [CopyInOut], [CopyInOutSpec],
    [Uio]: loads and stores that fault, the recovery function, the copies and
    uiomove.  [UserProps]: the theorems.

    Starting a program (sys_execv, syscall/runprogram.c).  [Execv]: the calls
    over an interface to heap, VFS, address spaces and loader, whose promises
    are the class [ExecEnv] of [ExecvLaws].  [ExecvArgs]: the arguments
    into kernel blocks and out to the new stack.  [ExecvSpec]: the call as a
    whole.  [ExecvProps]: a small kernel that keeps the promises, the theorems.

    Libraries of the kernel.  [KHeap]: the interface [KMalloc] that clients of
    kmalloc/kfree are proved against, with a reference heap.  [Bitmap]
    (lib/bitmap.c), [Array] (lib/array.c), [Threadlist]
    (thread/threadlist.c): every operation, against lists.

    The kernel heap (vm/kmalloc.c).  [KPages]: whole pages as an interface,
    which the coremap implements.  [Kmalloc]: pagerefs, their pages and roots,
    free lists inside pages.  [KmallocInv], [KmallocSpec]: the invariant, and
    what each function does to it.  [KmallocProps]: the theorems.

    Virtual memory (vm/vm.c, vm/addrspace.c, arch/mips/vm/ram.c, the sbrk call
    of syscall/proc_syscalls.c).  [VmState]: coremap, page tables, regions,
    TLB.  [Coremap]: the page allocators and booting.  [VmHeap], [Swap]: the
    heap and locks the VM system uses, swapping.  [AddrSpace]: operations on
    address spaces.  [SpaceInv], [SpaceOps], [SpaceCopy], [VmInv]: the
    invariant (who owns which page, block and
    lock) and that the operations keep it.  [VmFault], [Sbrk], [Loading]: the
    fault handler, the heap's end, setting up a program.  [VmExample]: a state
    to run.  [VmSystem]: the calls as steps of an abstract machine with one
    memory per address space.

    Threads (thread/thread.c, spinlock.c, spl.c, synch.c).  [ThreadState],
    [Thread], [Synch]: cpus, interrupt levels, spinlocks, run queues, wait
    channels, context switches, semaphores, locks, condition variables.
    [ThreadSwitch], [ThreadInv]: the spinlock discipline and
    where every thread is.  [SynchSpec], [SynchSystem], [SynchInv]: the
    operations as steps of an abstract machine, and what its runs satisfy.
    [ThreadExample], [SynchProps]: a state to run, the theorems.

    The balloon problem (synchprobs/airballoon.c).  [Balloon]: every thread as
    a program counter, the steps of all threads interleaved.  [BalloonInv],
    [BalloonProps]: the invariant, the theorems.

    Processes and files (proc/proc.c, syscall/proc_syscalls.c,
    syscall/file_syscalls.c, vfs/vfscwd.c).  [KWorld]: the class [World] of
    what these calls use of the rest of the kernel, with [RefWorld] as a world
    that keeps the promises.  [PState]: the data.  [Files], [Proc],
    [ProcCalls]: the calls.  [FilesSpec], [FilesCalls]: counts,
    locks and references of open files, and the specification every file call
    meets.  [ProcTable], [ProcInv]: who owns which block, the
    process table as a map, the invariant of families, threads, address spaces
    and waiting threads.  [ProcOps], [ProcDestroy], [ProcFork], [ProcWait],
    [ProcExit]: each operation keeps it.  [ProcSystem]: threads of all
    processes taking turns.  [ProcCheck]: the invariant decided
    on a given state, a booted system.  [FilesProps], [ProcProps]: the
    theorems.

    Traps and system calls (arch/mips/locore/trap.c,
    arch/mips/syscall/syscall.c).  [Trap]: the trap handler, the dispatch of
    system calls and the way into user mode, over the process system.
    [TrapProps]: the theorems.

    ** What the theorems show

    Every call of the VM system within its limits is a step of the abstract
    machine; in every reachable state no page is shared and the TLB maps only
    pages of the current space.  kmalloc and kfree act like an allocator of
    disjoint blocks.  The synchronisation operations end without
    endless spinning, locks exclude, no wakeup is lost, on any number of cpus;
    the threads of the balloon problem cut no rope twice, misuse no lock and
    can always come to their end.  The file calls do to the open-file tables what their specification says.
    In every run of forking, waiting and exiting processes each next step
    ends and keeps the invariant; a parent asleep in waitpid is woken by
    the exit of its child and gets its code; a user program gets through the
    trap exactly the answer of its call.  execv hands its arguments to the new
    program and gives back what it took.  The user copies, uiomove, the string
    functions, formatted output and the 64-bit arithmetic compute what they
    are for.

    The code does not do what it means to everywhere.  These cases are limits
    of the theorems above; of all of them but the failed fork a theorem
    shows what happens there, in every state of the kind.
    - A fault that gets a page table entry but no page leaves a freed entry
      linked ([VmFault]); [VmSystem] follows runs up to the call after which
      the table of the current space is broken.
    - After 256 failed calls of kmalloc, kfree of the last block of a page can
      panic ([KmallocProps], [stuck]).
    - The exit of a process whose parent exited first, and waitpid of a pid
      from 32 to PID_MAX, use memory that is not theirs ([ProcSystem], [lost]);
      close of an open file with several descriptors leaves them dangling
      ([FilesProps]), and runs of the process system leave it out
      ([permitted]).  A fork that fails half way breaks the families, and runs
      go on after it only if the system is sound.
    - execv reads the array of arguments without protection ([ExecvProps]);
      its theorem asks for an aligned array with a readable first element, and
      for memory for the pages of the new stack ([stack_pages]).
    - A segment that does not start on a page can lose its end ([Loading]).

    ** Not modelled

    The interfaces ([KMalloc], [KPages], [World], [VmHeap], [SwapDevice],
    [ExecEnv], [TrapWorld]) have instances, so that their promises can be
    kept; the VFS layer, the file systems, the device drivers and load_elf
    behind them are not modelled.  A system
    call of a process is one step: interleavings inside a call appear only
    where it sleeps.  Of the thread system, the boot of the cpus
    ([CURCPU_EXISTS] is always true), migration, interprocessor interrupts and
    the stack guard words are left out, and [as_activate] inside
    [thread_switch] is part of the process model instead.  Assembler code, the
    boot sequence, the commands of the menu, the tests and userland are not
    modelled. *)

From Stdlib Require Export ZArith Lia.
From stdpp Require Export prelude gmap.

Open Scope Z_scope.

(** ** Machine integers

    [int], [unsigned], [size_t], [paddr_t] and [vaddr_t] are 32 bits wide on
    the MIPS-161.  A value is kept as its mathematical [Z]; an operation
    that C performs modulo 2^32 is wrapped by [u32] (unsigned result) or
    [s32] (two's complement result). *)

Definition u32 (z : Z) : Z := z mod 2 ^ 32.
Definition s32 (z : Z) : Z := (z + 2 ^ 31) mod 2 ^ 32 - 2 ^ 31.
Definition u64 (z : Z) : Z := z mod 2 ^ 64.
Definition s64 (z : Z) : Z := (z + 2 ^ 63) mod 2 ^ 64 - 2 ^ 63.
Definition u8 (z : Z) : Z := z mod 2 ^ 8.

(** [DIVROUNDUP] of kern/include/lib.h, on unsigned operands. *)
Definition DIVROUNDUP (a b : Z) : Z := u32 (a + b - 1) / b.

(** ** Error numbers (kern/include/kern/errno.h) *)

Definition ENOSYS : Z := 1.
Definition ENOMEM : Z := 3.
Definition EFAULT : Z := 6.
Definition ENAMETOOLONG : Z := 7.
Definition EINVAL : Z := 8.
Definition ENPROC : Z := 12.
Definition ENOEXEC : Z := 13.
Definition E2BIG : Z := 14.
Definition ESRCH : Z := 15.
Definition ECHILD : Z := 16.
Definition ENOTDIR : Z := 17.
Definition ENOENT : Z := 19.
Definition EMFILE : Z := 28.
Definition EBADF : Z := 30.
Definition ESPIPE : Z := 33.
Definition ENOSPC : Z := 36.

(** A function that returns an error number or, with 0, a result through an
    output parameter: [inl e] is the error [e], [inr a] the result [a]. *)
Abbreviation err A := (Z + A)%type.

(** ** Outcomes and the kernel monad

    A kernel operation runs on a state and has one of four outcomes: it
    returns a value and a state; it stops in [panic] (a failed [KASSERT] or
    an explicit call); it reaches behaviour that C leaves undefined (a null
    or dangling pointer, an index outside an array); or a loop exhausts the
    fuel the model gave it. *)

Inductive outcome (S A : Type) : Type :=
| Done (a : A) (s : S)
| Panic
| Fault
| NoFuel.

Arguments Done {S A} a s.
Arguments Panic {S A}.
Arguments Fault {S A}.
Arguments NoFuel {S A}.

Definition M (S A : Type) : Type := S -> outcome S A.

Section monad.
Context {S : Type}.

Definition ret {A} (a : A) : M S A := fun s => Done a s.

Definition bind {A B} (m : M S A) (f : A -> M S B) : M S B := fun s =>
  match m s with
  | Done a s' => f a s'
  | Panic => Panic
  | Fault => Fault
  | NoFuel => NoFuel
  end.

Definition panic {A} : M S A := fun _ => Panic.
Definition fault {A} : M S A := fun _ => Fault.
Definition nofuel {A} : M S A := fun _ => NoFuel.
Definition get : M S S := fun s => Done s s.
Definition gets {A} (f : S -> A) : M S A := fun s => Done (f s) s.
Definition put (s : S) : M S unit := fun _ => Done tt s.
Definition modify (f : S -> S) : M S unit := fun s => Done tt (f s).

(** [KASSERT(b)] of kern/include/lib.h with assertions compiled in. *)
Definition kassert (b : bool) : M S unit := if b then ret tt else panic.

(** Reading through a pointer or an array index: [None] is undefined. *)
Definition deref {A} (o : option A) : M S A :=
  match o with Some a => ret a | None => fault end.

(** [for (i = lo; i < lo + n; i++) body]; the body returns [Some r] to leave
    the loop (a [break] or a [return]) and [None] to continue. *)
Fixpoint for_ {R} (n : nat) (i : Z) (body : Z -> M S (option R)) : M S (option R) :=
  match n with
  | O => ret None
  | Datatypes.S n' =>
      bind (body i) (fun r =>
        match r with
        | Some r => ret (Some r)
        | None => for_ n' (i + 1) body
        end)
  end.

(** The same loop with a local variable: [inl l] continues with the new
    value, [inr r] leaves the loop. *)
Fixpoint for_acc {L R} (n : nat) (i : Z) (l : L) (body : Z -> L -> M S (L + R)) : M S (L + R) :=
  match n with
  | O => ret (inl l)
  | Datatypes.S n' =>
      bind (body i l) (fun r =>
        match r with
        | inl l' => for_acc n' (i + 1) l' body
        | inr r => ret (inr r)
        end)
  end.

(** [while (1) body] with fuel: the body carries a loop state and says
    [inr r] to leave the loop. *)
Fixpoint loop_ {L R} (fuel : nat) (l : L) (body : L -> M S (L + R)) : M S R :=
  match fuel with
  | O => nofuel
  | Datatypes.S fuel' =>
      bind (body l) (fun r =>
        match r with
        | inl l' => loop_ fuel' l' body
        | inr r => ret r
        end)
  end.
End monad.

Declare Scope kernel_scope.
Delimit Scope kernel_scope with kernel.
Open Scope kernel_scope.

Notation "x <- m ;; k" := (bind m (fun x => k))
  (at level 100, m at next level, right associativity) : kernel_scope.
Notation "m ;;; k" := (bind m (fun _ => k))
  (at level 100, right associativity) : kernel_scope.

(** ** Total correctness

    [wp m Q s]: run from [s], [m] returns (no panic, no undefined behaviour,
    enough fuel) and its result and final state satisfy [Q]. *)

Definition wp {S A} (m : M S A) (Q : A -> S -> Prop) (s : S) : Prop :=
  match m s with
  | Done a s' => Q a s'
  | _ => False
  end.

Section wp.
Context {S : Type}.
Implicit Types s : S.

Lemma wp_ret {A} (a : A) (Q : A -> S -> Prop) s : Q a s -> wp (ret a) Q s.
Proof. done. Qed.

Lemma wp_bind {A B} (m : M S A) (f : A -> M S B) Q s :
  wp m (fun a s' => wp (f a) Q s') s -> wp (bind m f) Q s.
Proof. unfold wp, bind. by destruct (m s). Qed.

Lemma wp_bind_inv {A B} (m : M S A) (f : A -> M S B) Q s :
  wp (bind m f) Q s -> wp m (fun a s' => wp (f a) Q s') s.
Proof. unfold wp, bind. by destruct (m s). Qed.

Lemma wp_mono {A} (m : M S A) (P Q : A -> S -> Prop) s :
  wp m P s -> (forall a s', P a s' -> Q a s') -> wp m Q s.
Proof. unfold wp. destruct (m s); auto. Qed.

(** What a computation comes to, when its first step returns. *)
Lemma run_bind {A B} (m : M S A) (k : A -> M S B) (R : outcome S B -> Prop) s :
  wp m (fun a s' => R (k a s')) s -> R (bind m k s).
Proof. unfold wp, bind. by destruct (m s). Qed.

Lemma bind_panic {A B} (m : M S A) (k : A -> M S B) s : m s = Panic -> bind m k s = Panic.
Proof. unfold bind. by intros ->. Qed.

Lemma bind_fault {A B} (m : M S A) (k : A -> M S B) s : m s = Fault -> bind m k s = Fault.
Proof. unfold bind. by intros ->. Qed.

(** Partial correctness: [Q] holds if [m] returns.  [wlp m (fun _ _ => False)]
    says that [m] does not return. *)
Definition wlp {A} (m : M S A) (Q : A -> S -> Prop) s : Prop :=
  match m s with Done a s' => Q a s' | _ => True end.

Lemma wlp_ret {A} (a : A) (Q : A -> S -> Prop) s : Q a s -> wlp (ret a) Q s.
Proof. done. Qed.

Lemma wlp_bind {A B} (m : M S A) (f : A -> M S B) Q s :
  wlp m (fun a s' => wlp (f a) Q s') s -> wlp (bind m f) Q s.
Proof. unfold wlp, bind. by destruct (m s). Qed.

Lemma wlp_mono {A} (m : M S A) (P Q : A -> S -> Prop) s :
  wlp m P s -> (forall a s', P a s' -> Q a s') -> wlp m Q s.
Proof. unfold wlp. destruct (m s); auto. Qed.

Lemma wp_wlp {A} (m : M S A) (Q : A -> S -> Prop) s : wp m Q s -> wlp m Q s.
Proof. unfold wp, wlp. by destruct (m s). Qed.

Lemma wlp_never {A} (m : M S A) s : wlp m (fun _ _ => False) s -> forall a s', m s <> Done a s'.
Proof. unfold wlp. by intros Hm a s' E; rewrite E in Hm. Qed.

Lemma wp_and {A} (m : M S A) (P Q : A -> S -> Prop) s :
  wp m P s -> wp m Q s -> wp m (fun a s' => P a s' /\ Q a s') s.
Proof. unfold wp. by destruct (m s). Qed.

Lemma wp_get (Q : S -> S -> Prop) s : Q s s -> wp get Q s.
Proof. done. Qed.

Lemma wp_gets {A} (f : S -> A) Q s : Q (f s) s -> wp (gets f) Q s.
Proof. done. Qed.

Lemma wp_put s' (Q : unit -> S -> Prop) s : Q tt s' -> wp (put s') Q s.
Proof. done. Qed.

Lemma wp_modify f (Q : unit -> S -> Prop) s : Q tt (f s) -> wp (modify f) Q s.
Proof. done. Qed.

Lemma wp_kassert b (Q : unit -> S -> Prop) s :
  b = true -> Q tt s -> wp (kassert b) Q s.
Proof. by intros ->. Qed.

Lemma wp_deref {A} (o : option A) a Q s :
  o = Some a -> Q a s -> wp (deref o) Q s.
Proof. by intros ->. Qed.

Lemma wp_done {A} (m : M S A) Q s :
  wp m Q s <-> exists a s', m s = Done a s' /\ Q a s'.
Proof.
  unfold wp. split.
  - destruct (m s); naive_solver.
  - by intros (a & s' & -> & HQ).
Qed.

(** The invariant rule for [for_]: [I i] holds before iteration [i]; an
    iteration that leaves the loop establishes the postcondition. *)
Lemma wp_for {R} n lo (body : Z -> M S (option R)) (I : Z -> S -> Prop) Q s :
  I lo s ->
  (forall i s, lo <= i < lo + Z.of_nat n -> I i s ->
    wp (body i) (fun r s' => match r with
                             | None => I (i + 1) s'
                             | Some x => Q (Some x) s'
                             end) s) ->
  (forall s, I (lo + Z.of_nat n) s -> Q None s) ->
  wp (for_ n lo body) Q s.
Proof.
  revert lo s. induction n as [|n IH]; intros lo s HI Hstep Hend; simpl.
  - apply Hend. by rewrite Z.add_0_r.
  - apply wp_bind. eapply wp_mono; [apply Hstep; [lia|done]|].
    intros [x|] s' H; [done|]. apply IH; [done| |].
    + intros i s'' Hi. apply Hstep. lia.
    + intros s'' Hs. apply Hend. by replace (lo + Z.of_nat (Datatypes.S n)) with (lo + 1 + Z.of_nat n) by lia.
Qed.

Lemma wp_for_acc {L R} n lo (l : L) (body : Z -> L -> M S (L + R)) (I : Z -> L -> S -> Prop) Q s :
  I lo l s ->
  (forall i l s, lo <= i < lo + Z.of_nat n -> I i l s ->
    wp (body i l) (fun r s' => match r with
                               | inl l' => I (i + 1) l' s'
                               | inr x => Q (inr x) s'
                               end) s) ->
  (forall l s, I (lo + Z.of_nat n) l s -> Q (inl l) s) ->
  wp (for_acc n lo l body) Q s.
Proof.
  revert lo l s. induction n as [|n IH]; intros lo l s HI Hstep Hend; simpl.
  - apply Hend. by rewrite Z.add_0_r.
  - apply wp_bind. eapply wp_mono; [apply Hstep; [lia|done]|].
    intros [l'|x] s' H; [|done]. apply IH; [done| |].
    + intros i l'' s'' Hi. apply Hstep. lia.
    + intros l'' s'' Hs. apply Hend. by replace (lo + Z.of_nat (Datatypes.S n)) with (lo + 1 + Z.of_nat n) by lia.
Qed.

(** The variant rule for [loop_]: a measure that every iteration that stays
    in the loop decreases, bounded by the fuel. *)
Lemma wp_loop {L R} fuel (l : L) (body : L -> M S (L + R))
    (I : L -> S -> Prop) (mu : L -> S -> nat) Q s :
  I l s -> (mu l s < fuel)%nat ->
  (forall l s, I l s ->
    wp (body l) (fun r s' => match r with
                             | inl l' => I l' s' /\ (mu l' s' < mu l s)%nat
                             | inr x => Q x s'
                             end) s) ->
  wp (loop_ fuel l body) Q s.
Proof.
  revert l s. induction fuel as [|fuel IH]; intros l s HI Hmu Hstep; [lia|]; simpl.
  apply wp_bind. eapply wp_mono; [by apply Hstep|].
  intros [l'|x] s' H; [|done]. destruct H as [HI' Hlt]. apply IH; [done|lia|done].
Qed.

(** The rule for a loop that walks down a list: the list of what is left to
    visit shrinks in every round. *)
Lemma wp_loop_list {X L R} fuel (xs : list X) (l : L) (body : L -> M S (L + R))
    (I : list X -> L -> S -> Prop) Q s :
  I xs l s -> (length xs < fuel)%nat ->
  (forall xs l s, I xs l s ->
    wp (body l) (fun r s' => match r with
                             | inl l' => exists x xs', xs = x :: xs' /\ I xs' l' s'
                             | inr x => Q x s'
                             end) s) ->
  wp (loop_ fuel l body) Q s.
Proof.
  revert xs l s. induction fuel as [|fuel IH]; intros xs l s HI Hlen Hstep; [lia|]; simpl.
  apply wp_bind. eapply wp_mono; [by apply (Hstep xs)|].
  intros [l'|x] s' H; [|done]. destruct H as (x & xs' & -> & HI'). simpl in Hlen. apply (IH xs'); [done|lia|done].
Qed.
End wp.

(** Running a component's operation on the part of a larger state that
    holds it. *)
Definition zoom {S T A} (prj : S -> T) (upd : T -> S -> S) (m : M T A) : M S A :=
  fun s =>
    match m (prj s) with
    | Done a t => Done a (upd t s)
    | Panic => Panic
    | Fault => Fault
    | NoFuel => NoFuel
    end.

Lemma wp_zoom {S T A} (prj : S -> T) (upd : T -> S -> S) (m : M T A) Q s :
  wp m (fun a t => Q a (upd t s)) (prj s) -> wp (zoom prj upd m) Q s.
Proof. unfold wp, zoom. by destruct (m (prj s)). Qed.

(** ** Counting the entries of a map *)

(** How many entries of [m] have [f] equal to [b]. *)
Definition count_val `{Countable K} {A B} `{EqDecision B} (f : A -> B) (b : B) (m : gmap K A) : Z :=
  Z.of_nat (size (filter (fun e => f e.2 = b) m)).

Section count.
Context `{Countable K} {A B : Type} `{EqDecision B} (f : A -> B).
Implicit Types m : gmap K A.

Lemma count_nonneg b m : 0 <= count_val f b m.
Proof. unfold count_val. lia. Qed.

Lemma count_insert b m x a : m !! x = None -> count_val f b (<[x := a]> m) = count_val f b m + (if decide (f a = b) then 1 else 0).
Proof.
  intros Hx. unfold count_val. destruct (decide (f a = b)) as [<-|Hne].
  - rewrite map_filter_insert_True by done. rewrite map_size_insert_None; [lia|]. apply map_lookup_filter_None. by left.
  - rewrite map_filter_insert_False by done. rewrite delete_id by done. lia.
Qed.

Lemma count_delete b m x a : m !! x = Some a -> count_val f b (delete x m) = count_val f b m - (if decide (f a = b) then 1 else 0).
Proof. intros Hx. rewrite <- (insert_delete_id m x a) at 2 by done. rewrite count_insert by apply lookup_delete_eq. lia. Qed.

Lemma count_update b m x a a' : m !! x = Some a ->
  count_val f b (<[x := a']> m) = count_val f b m - (if decide (f a = b) then 1 else 0) + (if decide (f a' = b) then 1 else 0).
Proof. intros Hx. rewrite <- insert_delete_eq, count_insert by apply lookup_delete_eq. by rewrite (count_delete _ _ _ _ Hx). Qed.

Lemma count_some b m : 0 < count_val f b m -> exists x a, m !! x = Some a /\ f a = b.
Proof.
  unfold count_val. intros Hp. destruct (map_choose (filter (fun e => f e.2 = b) m)) as (x & a & Hx).
  - intros E. rewrite E, map_size_empty in Hp. lia.
  - apply map_lookup_filter_Some in Hx as [Hx E]. by exists x, a.
Qed.

Lemma count_pos b m x a : m !! x = Some a -> f a = b -> 0 < count_val f b m.
Proof. intros Hx Hf. pose proof (count_delete b m x a Hx) as E. rewrite decide_True in E by done. pose proof (count_nonneg b (delete x m)). lia. Qed.

Lemma count_zero b m : (forall x a, m !! x = Some a -> f a <> b) -> count_val f b m = 0.
Proof.
  intros Hn. destruct (decide (count_val f b m = 0)) as [|Hz]; [done|]. destruct (count_some b m) as (x & a & Hx & Hf); [pose proof (count_nonneg b m); lia|].
  by destruct (Hn x a Hx).
Qed.
End count.

(** ** Tactics *)

(** Linear arithmetic with division and modulo by constants. *)
Ltac zlia := Z.div_mod_to_equations; lia.

(** One step of a [wp] goal through the monad's primitives. *)
Ltac wp_step :=
  lazymatch goal with
  | |- wp (bind _ _) _ _ => apply wp_bind
  | |- wp (ret _) _ _ => apply wp_ret
  | |- wp get _ _ => apply wp_get
  | |- wp (gets _) _ _ => apply wp_gets
  | |- wp (put _) _ _ => apply wp_put
  | |- wp (modify _) _ _ => apply wp_modify
  | |- wp (kassert _) _ _ => apply wp_kassert
  | |- wp (zoom _ _ _) _ _ => apply wp_zoom
  | |- wp (if ?b then _ else _) _ _ => destruct b eqn:?
  end.
Ltac wp_steps := repeat (wp_step; [idtac]).

(** Use a specification of the operation at the head of the goal. *)
Tactic Notation "wp_apply" uconstr(H) := eapply wp_mono; [eapply H|cbv beta].

(** Boolean comparisons of the code as propositions. *)
Ltac boolify :=
  repeat match goal with
  | H : (_ && _)%bool = true |- _ => apply andb_true_iff in H as [? ?]
  | H : (_ || _)%bool = false |- _ => apply orb_false_iff in H as [? ?]
  | H : (_ && _)%bool = false |- _ => apply andb_false_iff in H
  | H : (_ || _)%bool = true |- _ => apply orb_true_iff in H
  | H : negb _ = true |- _ => apply negb_true_iff in H
  | H : negb _ = false |- _ => apply negb_false_iff in H
  | H : (_ =? _) = true |- _ => apply Z.eqb_eq in H
  | H : (_ =? _) = false |- _ => apply Z.eqb_neq in H
  | H : (_ <? _) = true |- _ => apply Z.ltb_lt in H
  | H : (_ <? _) = false |- _ => apply Z.ltb_ge in H
  | H : (_ <=? _) = true |- _ => apply Z.leb_le in H
  | H : (_ <=? _) = false |- _ => apply Z.leb_gt in H
  end.

(** ** Shared lemmas *)

Create HintDb word.
Create Rewrite HintDb wordrw.

Lemma u32_id z : 0 <= z < 2 ^ 32 -> u32 z = z.
Proof. apply Z.mod_small. Qed.

Lemma u32_range z : 0 <= u32 z < 2 ^ 32.
Proof. apply Z.mod_pos_bound. lia. Qed.

Lemma u8_range z : 0 <= u8 z < 2 ^ 8.
Proof. apply Z.mod_pos_bound. lia. Qed.

Lemma s32_id z : - 2 ^ 31 <= z < 2 ^ 31 -> s32 z = z.
Proof. intros H. unfold s32. rewrite Z.mod_small; lia. Qed.

Lemma s32_range z : - 2 ^ 31 <= s32 z < 2 ^ 31.
Proof. unfold s32. pose proof (Z.mod_pos_bound (z + 2 ^ 31) (2 ^ 32)). lia. Qed.

Lemma u64_id z : 0 <= z < 2 ^ 64 -> u64 z = z.
Proof. apply Z.mod_small. Qed.

Lemma s64_id z : - 2 ^ 63 <= z < 2 ^ 63 -> s64 z = z.
Proof. intros Hz. unfold s64. rewrite Z.mod_small; lia. Qed.

Lemma u32_idemp x : u32 (u32 x) = u32 x.
Proof. unfold u32. by rewrite Z.mod_mod. Qed.

Lemma s32_u32 x : s32 (u32 x) = s32 x.
Proof. unfold s32, u32. f_equal. by rewrite Z.add_mod_idemp_l. Qed.

#[export] Hint Resolve u32_range u8_range s32_range : word.
#[export] Hint Rewrite u32_id s32_id using lia : wordrw.

Lemma DIVROUNDUP_spec a b :
  0 <= a -> 0 < b -> a + b - 1 < 2 ^ 32 ->
  DIVROUNDUP a b * b - b < a <= DIVROUNDUP a b * b.
Proof.
  intros Ha Hb Hlt. unfold DIVROUNDUP. rewrite u32_id by lia.
  pose proof (Z.div_mod (a + b - 1) b). pose proof (Z.mod_pos_bound (a + b - 1) b). nia.
Qed.

(** Bits of a word: the mask test [w & (1 << i)] that the code writes. *)
Lemma land_shiftl_1 w i : 0 <= i -> (Z.land w (Z.shiftl 1 i) =? 0) = negb (Z.testbit w i).
Proof.
  intros Hi. apply eq_true_iff_eq. rewrite Z.eqb_eq, negb_true_iff. split.
  - intros H. apply (f_equal (fun z => Z.testbit z i)) in H.
    rewrite Z.land_spec, Z.shiftl_spec, Z.bits_0, Z.sub_diag in H by done. simpl in H. by destruct (Z.testbit w i).
  - intros H. apply Z.bits_inj'. intros n Hn. rewrite Z.land_spec, Z.shiftl_spec, Z.bits_0 by done.
    destruct (decide (n = i)) as [->|Hne]; [by rewrite H|].
    destruct (decide (n < i)); [rewrite (Z.testbit_neg_r 1) by lia; by rewrite andb_false_r|].
    rewrite (Z.bits_above_log2 1) by (simpl; lia). by rewrite andb_false_r.
Qed.

Lemma testbit_shiftl_1 i j : 0 <= i -> 0 <= j -> Z.testbit (Z.shiftl 1 i) j = bool_decide (i = j).
Proof.
  intros Hi Hj. rewrite Z.shiftl_1_l. case_bool_decide as E.
  - subst. by apply Z.pow2_bits_true.
  - by apply Z.pow2_bits_false.
Qed.

Lemma testbit_setbit w i j : 0 <= i -> 0 <= j ->
  Z.testbit (Z.lor w (Z.shiftl 1 i)) j = (Z.testbit w j || bool_decide (i = j))%bool.
Proof. intros. rewrite Z.lor_spec. by rewrite testbit_shiftl_1. Qed.

Lemma shiftl_1_lt i n : 0 <= i < n -> 0 < Z.shiftl 1 i < 2 ^ n.
Proof. intros. rewrite Z.shiftl_1_l. split; [lia|]. apply Z.pow_lt_mono_r; lia. Qed.

Lemma lor_lt a b n : 0 <= n -> 0 <= a < 2 ^ n -> 0 <= b < 2 ^ n -> 0 <= Z.lor a b < 2 ^ n.
Proof.
  intros Hn Ha Hb. assert (0 <= Z.lor a b) by (apply Z.lor_nonneg; lia). split; [done|].
  destruct (decide (Z.lor a b = 0)) as [->|]; [lia|].
  apply Z.log2_lt_pow2; [lia|]. rewrite Z.log2_lor by lia.
  destruct (decide (n = 0)) as [->|]; [simpl in *; assert (a = 0) as -> by lia; assert (b = 0) as -> by lia; done|].
  apply Z.max_lub_lt; (destruct (decide (0 < a)), (decide (0 < b));
    repeat match goal with H : ¬ 0 < ?x |- _ => assert (x = 0) as -> by lia; clear H end;
    rewrite ?Z.log2_nonpos by lia; try lia; apply Z.log2_lt_pow2; lia).
Qed.

(** A word with all its bits set is the all-ones word. *)
Lemma all_bits_ones w n : 0 <= n -> 0 <= w < 2 ^ n ->
  (forall i, 0 <= i < n -> Z.testbit w i = true) -> w = Z.ones n.
Proof.
  intros Hn Hw H. apply Z.bits_inj'. intros i Hi. destruct (decide (i < n)).
  - rewrite H, Z.ones_spec_low by lia. done.
  - rewrite Z.ones_spec_high by lia. rewrite <- (Z.mod_small w (2 ^ n)) by done.
    apply Z.mod_pow2_bits_high. lia.
Qed.

(** ** Lists without duplicates *)

Lemma NoDup_mid {A} (l1 l2 : list A) x :
  NoDup (l1 ++ x :: l2) <-> (x ∉ l1) /\ (x ∉ l2) /\ NoDup (l1 ++ l2).
Proof.
  rewrite !NoDup_app, NoDup_cons. split.
  - intros (H1 & Hd & Hx & H2). split_and!; [|done|done| |done].
    + intros Hin. by apply (Hd x Hin); left.
    + intros y Hy Hy2. apply (Hd y Hy). by right.
  - intros (Hx1 & Hx2 & H1 & Hd & H2). split_and!; [done| |done|done].
    intros y Hy [->|Hy2]%elem_of_cons; [done|]. by apply (Hd y Hy).
Qed.

Lemma not_elem_of_mid {A} (l1 l2 : list A) x y :
  y ∉ (l1 ++ x :: l2) <-> (y ∉ l1) /\ y <> x /\ (y ∉ l2).
Proof. rewrite not_elem_of_app, not_elem_of_cons. naive_solver. Qed.

(** Masking off the low bits of a word. *)
Lemma land_page_frame x : 0 <= x < 2 ^ 32 -> Z.land x 4294963200 = x / 4096 * 4096.
Proof.
  intros Hx. change 4294963200 with (Z.ldiff (Z.ones 32) (Z.ones 12)).
  assert (Z.land x (Z.ldiff (Z.ones 32) (Z.ones 12)) = Z.ldiff (Z.land x (Z.ones 32)) (Z.ones 12)) as ->.
  { apply Z.bits_inj'. intros n Hn. rewrite !Z.land_spec, !Z.ldiff_spec, !Z.land_spec. by rewrite andb_assoc. }
  rewrite Z.land_ones, Z.mod_small, Z.ldiff_ones_r by lia.
  rewrite Z.shiftr_div_pow2, Z.shiftl_mul_pow2 by lia. done.
Qed.

(** A number above [k] bits and one below. *)
Lemma lor_shiftl_add k h l : 0 <= k -> 0 <= l < 2 ^ k -> Z.lor (Z.shiftl h k) l = h * 2 ^ k + l.
Proof.
  intros Hk Hl. rewrite <- Z.shiftl_mul_pow2 by done. pose proof (Z.add_lor_land (Z.shiftl h k) l) as E.
  enough (Z.land (Z.shiftl h k) l = 0) by lia. apply Z.bits_inj'. intros n Hn. rewrite Z.land_spec, Z.bits_0.
  destruct (decide (n < k)); [by rewrite Z.shiftl_spec_low|].
  rewrite <- (Z.mod_small l (2 ^ k)), Z.mod_pow2_bits_high by lia. apply andb_false_r.
Qed.
