(* ===== verification/CString.v ===== *)
(** * Strings and blocks of memory (common/libc/string, common/libc/stdlib)

    The functions of <string.h> that the kernel and user programs share, and
    [atoi], over a memory of bytes: a map from addresses, in which an address
    that is not there cannot be touched.  A [char] is its unsigned value (the
    code compares characters for equality, or casts to [unsigned char]); a
    [long] is its four bytes in the order of memory.  Addresses do not wrap
    around: no object reaches the end of the address space.  The loops that look for
    a terminator have the number of bytes in memory plus one as fuel: every
    iteration touches another address. *)

From S2P Require Import Prelude.

Notation mem := (gmap Z Z).
Notation MM := (M mem).

Definition NULL : Z := 0.

Definition load (p : Z) : MM Z := m <- get ;; deref (m !! p).
Definition store (p c : Z) : MM unit := _ <- load p ;; modify (fun m => <[p := c]> m).

Definition sizeof_long : Z := 4.
Definition load_long (p : Z) : MM (list Z) := a <- load p ;; b <- load (p + 1) ;; c <- load (p + 2) ;; d <- load (p + 3) ;; ret [a; b; c; d].
Definition store_long (p : Z) (w : list Z) : MM unit :=
  match w with
  | [a; b; c; d] => store p a ;;; store (p + 1) b ;;; store (p + 2) c ;;; store (p + 3) d
  | _ => fault
  end.

Definition mem_fuel (m : mem) : nat := S (size m).
(** [while] over a pointer or an index. *)
Definition while {L R} (l : L) (body : L -> MM (L + R)) : MM R := m <- get ;; loop_ (mem_fuel m) l body.

Definition aligned (p : Z) : bool := p mod sizeof_long =? 0.

(** ** Blocks *)

Definition memset (ptr ch len : Z) : MM Z :=
  for_ (R := unit) (Z.to_nat len) 0 (fun i => store (ptr + i) (u8 ch) ;;; ret None) ;;;
  ret ptr.

Definition bzero (block len : Z) : MM unit :=
  (if aligned block && aligned len then
     for_ (R := unit) (Z.to_nat (len / sizeof_long)) 0 (fun i => store_long (block + 4 * i) [0; 0; 0; 0] ;;; ret None)
   else
     for_ (R := unit) (Z.to_nat len) 0 (fun i => store (block + i) 0 ;;; ret None)) ;;;
  ret tt.

Definition memcpy (dst src len : Z) : MM Z :=
  (if aligned dst && aligned src && aligned len then
     for_ (R := unit) (Z.to_nat (len / sizeof_long)) 0 (fun i => w <- load_long (src + 4 * i) ;; store_long (dst + 4 * i) w ;;; ret None)
   else
     for_ (R := unit) (Z.to_nat len) 0 (fun i => c <- load (src + i) ;; store (dst + i) c ;;; ret None)) ;;;
  ret dst.

(** [for (i = n; i > 0; i--)]: the loop counts [k] from 0, [i] is [n - k]. *)
Definition memmove (dst src len : Z) : MM Z :=
  if dst <? src then memcpy dst src len else
  (if aligned dst && aligned src && aligned len then
     let n := len / sizeof_long in
     for_ (R := unit) (Z.to_nat n) 0 (fun k => let i := n - k in w <- load_long (src + 4 * (i - 1)) ;; store_long (dst + 4 * (i - 1)) w ;;; ret None)
   else
     for_ (R := unit) (Z.to_nat len) 0 (fun k => let i := len - k in c <- load (src + (i - 1)) ;; store (dst + (i - 1)) c ;;; ret None)) ;;;
  ret dst.

(** ** Strings *)

Definition strlen (str : Z) : MM Z :=
  while 0 (fun ret_ => c <- load (str + ret_) ;; if negb (c =? 0) then ret (inl (ret_ + 1)) else ret (inr ret_)).

Definition strcpy (dest src : Z) : MM Z :=
  i <- while 0 (fun i => c <- load (src + i) ;; if negb (c =? 0) then store (dest + i) c ;;; ret (inl (i + 1)) else ret (inr i)) ;;
  store (dest + i) 0 ;;;
  ret dest.

Definition strcat (dest src : Z) : MM Z :=
  offset <- strlen dest ;;
  strcpy (dest + offset) src ;;;
  ret dest.

Definition strchr (s ch_arg : Z) : MM Z :=
  let ch := u8 ch_arg in
  while s (fun s =>
    c <- load s ;;
    if negb (c =? 0) then (if c =? ch then ret (inr s) else ret (inl (s + 1)))
    else if c =? ch then ret (inr s) else ret (inr NULL)).

Definition strrchr (s ch_arg : Z) : MM Z :=
  let ch := u8 ch_arg in
  n <- strlen s ;;
  r <- for_ (Z.to_nat (n + 1)) 0 (fun k =>
    let i := n + 1 - k - 1 in
    c <- load (s + i) ;;
    if c =? ch then ret (Some (s + i)) else ret None) ;;
  ret (default NULL r).

Definition strcmp (a b : Z) : MM Z :=
  i <- while 0 (fun i =>
    x <- load (a + i) ;;
    if x =? 0 then ret (inr i) else
    y <- load (b + i) ;;
    if x =? y then ret (inl (i + 1)) else ret (inr i)) ;;
  x <- load (a + i) ;;
  y <- load (b + i) ;;
  ret (if y <? x then 1 else if x =? y then 0 else -1).

(** [context] is the variable behind the pointer argument: its old value is
    passed in and its new value returned with the result. *)
Definition strtok_r (string seps context : Z) : MM (Z * Z) :=
  let context := if negb (string =? NULL) then string else context in
  if context =? NULL then ret (NULL, context) else
  head <- while context (fun head =>
    c <- load head ;;
    if c =? 0 then ret (inr head) else
    r <- strchr seps c ;;
    if negb (r =? NULL) then ret (inl (head + 1)) else ret (inr head)) ;;
  c <- load head ;;
  if c =? 0 then ret (NULL, NULL) else
  tail <- while head (fun tail =>
    c <- load tail ;;
    if c =? 0 then ret (inr tail) else
    r <- strchr seps c ;;
    if r =? NULL then ret (inl (tail + 1)) else ret (inr tail)) ;;
  c <- load tail ;;
  if c =? 0 then ret (head, NULL)
  else store tail 0 ;;; ret (head, tail + 1).

(** ** atoi *)

(** [strchr] on the constant [digits]: the index, -1 for NULL. *)
Definition digits : list Z := [48; 49; 50; 51; 52; 53; 54; 55; 56; 57].
Definition digit_index (c : Z) : Z := match list_find (fun d => d = c) digits with Some (i, _) => Z.of_nat i | None => -1 end.

Definition atoi (s : Z) : MM Z :=
  s <- while s (fun s => c <- load s ;; if (c =? 32) || (c =? 9) then ret (inl (s + 1)) else ret (inr s)) ;;
  c <- load s ;;
  let neg := c =? 45 in
  let s := if c =? 45 then s + 1 else if c =? 43 then s + 1 else s in
  val <- while (s, 0) (fun l =>
    let '(s, val) := l in
    c <- load s ;;
    if c =? 0 then ret (inr val) else
    let digit := digit_index c in
    if digit =? -1 then ret (inr val) else
    ret (inl (s + 1, u32 (u32 (val * 10) + digit)))) ;;
  ret (if neg then s32 (u32 (- val)) else s32 val).
