(* ===== verification/CStringSpec.v ===== *)
(** * Strings and blocks of memory: what the functions do

    [bytes_at m p l]: the bytes [l] lie at [p]; [cstr m p l]: the string [l]
    with its terminator does; [wr m p l]: memory with [l] written at [p]. *)

From S2P Require Import Prelude CString.

Definition bytes_at (m : mem) (p : Z) (l : list Z) : Prop := forall i c, l !! i = Some c -> m !! (p + Z.of_nat i) = Some c.
Definition cstr (m : mem) (p : Z) (l : list Z) : Prop := bytes_at m p (l ++ [0]) /\ 0 ∉ l.
Definition mapped (m : mem) (p n : Z) : Prop := forall i, 0 <= i < n -> is_Some (m !! (p + i)).

Fixpoint wr (m : mem) (p : Z) (l : list Z) : mem :=
  match l with
  | [] => m
  | c :: l => wr (<[p := c]> m) (p + 1) l
  end.

(** ** Memory *)

Lemma wr_lookup l : forall m p a, wr m p l !! a = if decide (p <= a < p + Z.of_nat (length l)) then l !! Z.to_nat (a - p) else m !! a.
Proof.
  induction l as [|c l IH]; intros m p a; simpl; [by rewrite decide_False by lia|]. rewrite IH. destruct (decide (a = p)) as [->|Hne].
  - rewrite decide_False, decide_True by lia. rewrite Z.sub_diag. by rewrite lookup_insert_eq.
  - repeat case_decide; try lia; [|by rewrite lookup_insert_ne]. replace (Z.to_nat (a - p)) with (S (Z.to_nat (a - (p + 1)))) by lia. done.
Qed.

Lemma wr_out m p l a : a < p \/ p + Z.of_nat (length l) <= a -> wr m p l !! a = m !! a.
Proof. intros. rewrite wr_lookup. by rewrite decide_False by lia. Qed.

Lemma wr_bytes_at m p l : bytes_at (wr m p l) p l.
Proof. intros i c Hi. pose proof (lookup_lt_Some _ _ _ Hi). rewrite wr_lookup, decide_True by lia. by replace (Z.to_nat (p + Z.of_nat i - p)) with i by lia. Qed.

Lemma wr_app m p l1 l2 : wr m p (l1 ++ l2) = wr (wr m p l1) (p + Z.of_nat (length l1)) l2.
Proof.
  revert m p. induction l1 as [|c l1 IH]; intros m p; simpl; [by rewrite Z.add_0_r|]. rewrite IH. f_equal. lia.
Qed.

Lemma wr_snoc m p l c : wr m p (l ++ [c]) = <[p + Z.of_nat (length l) := c]> (wr m p l).
Proof. by rewrite wr_app. Qed.

(** Writing front part last gives the same memory. *)
Lemma wr_front m p l1 l2 : wr (wr m (p + Z.of_nat (length l1)) l2) p l1 = wr m p (l1 ++ l2).
Proof.
  apply map_eq. intros a. rewrite wr_app, !wr_lookup. repeat case_decide; try lia; done.
Qed.

Lemma wr_is_some m p l a : is_Some (m !! a) -> is_Some (wr m p l !! a).
Proof. intros. rewrite wr_lookup. case_decide; [apply lookup_lt_is_Some_2; lia|done]. Qed.

Lemma bytes_at_mapped m p l : bytes_at m p l -> mapped m p (Z.of_nat (length l)).
Proof. intros Hb i Hi. destruct (lookup_lt_is_Some_2 l (Z.to_nat i)) as [c Hc]; [lia|]. exists c. specialize (Hb _ _ Hc). by rewrite Z2Nat.id in Hb by lia. Qed.

Lemma bytes_at_app m p l1 l2 : bytes_at m p (l1 ++ l2) <-> bytes_at m p l1 /\ bytes_at m (p + Z.of_nat (length l1)) l2.
Proof.
  split.
  - intros Hb. split; intros i c Hi; [apply Hb; by apply lookup_app_l_Some|]. replace (p + Z.of_nat (length l1) + Z.of_nat i) with (p + Z.of_nat (length l1 + i)) by lia. apply Hb. rewrite lookup_app_r by lia. by replace (length l1 + i - length l1)%nat with i by lia.
  - intros [H1 H2] i c Hi. apply lookup_app_Some in Hi as [Hi|[Hge Hi]]; [by apply H1|]. specialize (H2 _ _ Hi). by replace (p + Z.of_nat (length l1) + Z.of_nat (i - length l1)) with (p + Z.of_nat i) in H2 by lia.
Qed.

Lemma bytes_at_cons m p c l : bytes_at m p (c :: l) <-> m !! p = Some c /\ bytes_at m (p + 1) l.
Proof.
  rewrite (bytes_at_app m p [c] l). simpl. split; intros [H1 H2]; (split; [|done]).
  - specialize (H1 0%nat c eq_refl). by rewrite Z.add_0_r in H1.
  - intros [|i] x Hi; [injection Hi as ->; by rewrite Z.add_0_r|done].
Qed.

Lemma bytes_at_ext m m' p l : (forall a, p <= a < p + Z.of_nat (length l) -> m' !! a = m !! a) -> bytes_at m p l -> bytes_at m' p l.
Proof. intros He Hb i c Hi. rewrite He; [by apply Hb|]. pose proof (lookup_lt_Some _ _ _ Hi). lia. Qed.

Lemma bytes_at_size m p l : bytes_at m p l -> (length l <= size m)%nat.
Proof.
  intros Hb. rewrite <- size_dom. set (as_ := (fun i => p + i) <$> seqZ 0 (Z.of_nat (length l))). assert (length l = length as_) as -> by (unfold as_; rewrite length_fmap, length_seqZ; lia).
  assert (NoDup as_) as Hnd by (apply NoDup_fmap_2_strong; [intros; lia|apply NoDup_seqZ]). rewrite <- (size_list_to_set (C := gset Z) as_) by done. apply subseteq_size. intros a. rewrite elem_of_list_to_set, elem_of_dom. intros (i & -> & Hi%elem_of_seqZ)%list_elem_of_fmap. apply (bytes_at_mapped m p l Hb). lia.
Qed.

Lemma cstr_fuel m p l : cstr m p l -> (length l < mem_fuel m)%nat.
Proof. intros [Hb _]. apply bytes_at_size in Hb. rewrite length_app in Hb. simpl in Hb. unfold mem_fuel. lia. Qed.

Lemma cstr_ext m m' p l : (forall a, p <= a <= p + Z.of_nat (length l) -> m' !! a = m !! a) -> cstr m p l -> cstr m' p l.
Proof. intros He [Hb Hn]. split; [|done]. apply (bytes_at_ext m); [|done]. intros a Ha. apply He. rewrite length_app in Ha. simpl in Ha. lia. Qed.

(** A suffix of a string is a string. *)
Lemma cstr_app m p l1 l2 : cstr m p (l1 ++ l2) -> cstr m (p + Z.of_nat (length l1)) l2.
Proof. intros [Hb Hn]. rewrite <- app_assoc in Hb. apply bytes_at_app in Hb as [_ Hb]. split; [done|]. set_solver. Qed.

Lemma cstr_cons m p c l : cstr m p (c :: l) -> m !! p = Some c /\ c <> 0 /\ cstr m (p + 1) l.
Proof. intros Hc. pose proof (cstr_app m p [c] l Hc) as Ht. destruct Hc as [Hb Hn]. apply bytes_at_cons in Hb as [Hp _]. split_and!; [done|set_solver|done]. Qed.

Lemma cstr_nil m p : cstr m p [] -> m !! p = Some 0.
Proof. intros [Hb _]. by apply bytes_at_cons in Hb as [? _]. Qed.

(** Where a string ends. *)
Lemma cstr_at m p l1 l2 : cstr m p (l1 ++ l2) -> m !! (p + Z.of_nat (length l1)) = Some (hd 0 l2).
Proof. intros Hc%cstr_app. destruct l2; [by apply cstr_nil in Hc|by apply cstr_cons in Hc as [? _]]. Qed.

(** ** Rules *)

Lemma wp_load p c (Q : Z -> mem -> Prop) m : m !! p = Some c -> Q c m -> wp (load p) Q m.
Proof. intros Hp HQ. unfold load. wp_steps. by apply (wp_deref _ c). Qed.

Lemma wp_store p c (Q : unit -> mem -> Prop) m : is_Some (m !! p) -> Q tt (<[p := c]> m) -> wp (store p c) Q m.
Proof. intros [x Hp] HQ. unfold store. wp_steps. eapply wp_load; [done|]. by wp_steps. Qed.

Lemma wp_load_long p a b c d (Q : list Z -> mem -> Prop) m : bytes_at m p [a; b; c; d] -> Q [a; b; c; d] m -> wp (load_long p) Q m.
Proof.
  intros Hb HQ. pose proof (Hb 0%nat a eq_refl) as H0. pose proof (Hb 1%nat b eq_refl) as H1. pose proof (Hb 2%nat c eq_refl) as H2. pose proof (Hb 3%nat d eq_refl) as H3. rewrite Z.add_0_r in H0.
  unfold load_long. wp_steps. eapply wp_load; [exact H0|]. wp_steps. eapply wp_load; [exact H1|]. wp_steps. eapply wp_load; [exact H2|]. wp_steps. eapply wp_load; [exact H3|]. by wp_steps.
Qed.

Lemma wp_store_long p a b c d (Q : unit -> mem -> Prop) m : mapped m p 4 -> Q tt (wr m p [a; b; c; d]) -> wp (store_long p [a; b; c; d]) Q m.
Proof.
  intros Hm HQ. unfold store_long. wp_steps. apply wp_store; [specialize (Hm 0); rewrite Z.add_0_r in Hm; apply Hm; lia|]. wp_steps. apply wp_store; [rewrite lookup_insert_ne by lia; apply Hm; lia|]. wp_steps. apply wp_store; [rewrite !lookup_insert_ne by lia; apply Hm; lia|]. wp_steps. apply wp_store; [rewrite !lookup_insert_ne by lia; apply Hm; lia|].
  simpl in HQ. by replace (p + 1 + 1) with (p + 2) in HQ by lia; replace (p + 2 + 1) with (p + 3) in HQ by lia.
Qed.

(** A loop over a string: [xs] is what is left of it. *)
Lemma wp_while_list {X L R} (xs : list X) (l : L) (body : L -> MM (L + R)) (I : list X -> L -> mem -> Prop) Q m :
  I xs l m -> (length xs < mem_fuel m)%nat ->
  (forall xs l m, I xs l m -> wp (body l) (fun r m' => match r with
                                                      | inl l' => exists x xs', xs = x :: xs' /\ I xs' l' m'
                                                      | inr x => Q x m'
                                                      end) m) ->
  wp (while l body) Q m.
Proof. intros HI Hf Hb. unfold while. wp_steps. by eapply wp_loop_list. Qed.

(** ** Blocks *)

Lemma take_S_lookup {A} (l : list A) i c : l !! i = Some c -> take (S i) l = take i l ++ [c].
Proof. apply take_S_r. Qed.

Lemma wp_memset p ch n (Q : Z -> mem -> Prop) m : 0 <= n -> mapped m p n -> Q p (wr m p (replicate (Z.to_nat n) (u8 ch))) -> wp (memset p ch n) Q m.
Proof.
  intros Hn Hm HQ. unfold memset. wp_steps. apply (wp_for _ _ _ (fun i m' => m' = wr m p (replicate (Z.to_nat i) (u8 ch)))).
  - done.
  - intros i m' Hi ->. wp_steps. apply wp_store; [apply wr_is_some, Hm; lia|]. wp_steps. replace (Z.to_nat (i + 1)) with (Z.to_nat i + 1)%nat by lia. rewrite replicate_add. simpl. rewrite wr_snoc, length_replicate. f_equal. lia.
  - intros m' ->. rewrite Z2Nat.id by lia. by wp_steps.
Qed.

Lemma wp_bzero p n (Q : unit -> mem -> Prop) m : 0 <= n -> mapped m p n -> Q tt (wr m p (replicate (Z.to_nat n) 0)) -> wp (bzero p n) Q m.
Proof.
  intros Hn Hm HQ. unfold bzero, sizeof_long, aligned. wp_steps. wp_step; boolify.
  - unfold sizeof_long in *. apply (wp_for _ _ _ (fun i m' => m' = wr m p (replicate (Z.to_nat (4 * i)) 0))).
    + done.
    + intros i m' Hi ->. wp_steps. apply wp_store_long; [intros j Hj; apply wr_is_some; replace (p + 4 * i + j) with (p + (4 * i + j)) by lia; apply Hm; zlia|]. wp_steps. replace (Z.to_nat (4 * (i + 1))) with (Z.to_nat (4 * i) + 4)%nat by lia. rewrite replicate_add, wr_app, length_replicate. simpl. do 5 f_equal; lia.
    + intros m' ->. wp_steps. replace (Z.to_nat (4 * (0 + Z.of_nat (Z.to_nat (n / 4))))) with (Z.to_nat n) by zlia. done.
  - apply (wp_for _ _ _ (fun i m' => m' = wr m p (replicate (Z.to_nat i) 0))).
    + done.
    + intros i m' Hi ->. wp_steps. apply wp_store; [apply wr_is_some, Hm; lia|]. wp_steps. replace (Z.to_nat (i + 1)) with (Z.to_nat i + 1)%nat by lia. rewrite replicate_add. simpl. rewrite wr_snoc, length_replicate. f_equal. lia.
    + intros m' ->. rewrite Z2Nat.id by lia. by wp_steps.
Qed.

(** Four bytes of [l] from [i] on. *)
Lemma take_word (l : list Z) i : (i + 4 <= length l)%nat -> exists a b c d, take 4 (drop i l) = [a; b; c; d] /\ take (i + 4) l = take i l ++ [a; b; c; d] /\ drop i l = [a; b; c; d] ++ drop (i + 4) l.
Proof.
  intros Hi. assert (length (drop i l) >= 4)%nat as Hl by (rewrite length_drop; lia). destruct (drop i l) as [|a [|b [|c [|d r]]]] eqn:E; simpl in Hl; try lia. exists a, b, c, d. assert (l = take i l ++ [a; b; c; d] ++ r) as El by (rewrite <- (take_drop i l) at 1; by rewrite E).
  assert (length (take i l) = i) as Ht by (rewrite length_take; lia). split; [done|]. split.
  - rewrite El at 1. rewrite take_app_ge by lia. rewrite Ht. replace (i + 4 - i)%nat with 4%nat by lia. done.
  - simpl. do 4 f_equal. rewrite <- drop_drop, E. done.
Qed.

Lemma bytes_at_drop m p l i : bytes_at m p l -> bytes_at m (p + Z.of_nat i) (drop i l).
Proof. intros Hb j c Hj. rewrite lookup_drop in Hj. specialize (Hb _ _ Hj). by replace (p + Z.of_nat i + Z.of_nat j) with (p + Z.of_nat (i + j)) by lia. Qed.

(** Forward copying is right when the destination is below the source or
    does not overlap it. *)
Lemma wp_memcpy d s l (Q : Z -> mem -> Prop) m : let n := Z.of_nat (length l) in bytes_at m s l -> mapped m d n -> d <= s \/ s + n <= d -> Q d (wr m d l) -> wp (memcpy d s n) Q m.
Proof.
  intros n Hb Hm Ho HQ. unfold memcpy, aligned, sizeof_long. wp_steps. wp_step; boolify.
  - apply (wp_for _ _ _ (fun i m' => m' = wr m d (take (Z.to_nat (4 * i)) l))).
    + done.
    + intros i m' Hi ->. assert (4 * i + 4 <= n) by zlia. destruct (take_word l (Z.to_nat (4 * i))) as (a & b & c & e & _ & Et & Ed); [lia|]. assert (length (take (Z.to_nat (4 * i)) l) = Z.to_nat (4 * i)) as El by (rewrite length_take; lia).
      wp_steps. apply (wp_load_long _ a b c e).
      { apply (bytes_at_ext m); [intros x Hx; apply wr_out; simpl in Hx; lia|]. pose proof (bytes_at_drop m s l (Z.to_nat (4 * i)) Hb) as Hd. rewrite Ed, Z2Nat.id in Hd by lia. by apply bytes_at_app in Hd as [? _]. }
      wp_steps. apply wp_store_long; [intros j Hj; apply wr_is_some; replace (d + 4 * i + j) with (d + (4 * i + j)) by lia; apply Hm; lia|]. wp_steps. replace (Z.to_nat (4 * (i + 1))) with (Z.to_nat (4 * i) + 4)%nat by lia. rewrite Et, wr_app, El, Z2Nat.id by lia. done.
    + intros m' ->. wp_steps. rewrite take_ge by zlia. done.
  - apply (wp_for _ _ _ (fun i m' => m' = wr m d (take (Z.to_nat i) l))).
    + done.
    + intros i m' Hi ->. destruct (lookup_lt_is_Some_2 l (Z.to_nat i)) as [c Hc]; [lia|]. assert (length (take (Z.to_nat i) l) = Z.to_nat i) as El by (rewrite length_take; lia).
      wp_steps. apply (wp_load _ c); [rewrite wr_out by lia; specialize (Hb _ _ Hc); by rewrite Z2Nat.id in Hb by lia|]. wp_steps. apply wp_store; [apply wr_is_some, Hm; lia|]. wp_steps. replace (Z.to_nat (i + 1)) with (S (Z.to_nat i)) by lia. rewrite (take_S_lookup _ _ _ Hc), wr_snoc, El, Z2Nat.id by lia. done.
    + intros m' ->. wp_steps. rewrite take_ge by lia. done.
Qed.

Lemma wp_memmove d s l (Q : Z -> mem -> Prop) m : let n := Z.of_nat (length l) in bytes_at m s l -> mapped m d n -> Q d (wr m d l) -> wp (memmove d s n) Q m.
Proof.
  intros n Hb Hm HQ. unfold memmove. destruct (d <? s) eqn:Els; boolify; [apply wp_memcpy; auto; lia|]. unfold aligned, sizeof_long. wp_steps. wp_step; boolify.
  - apply (wp_for _ _ _ (fun k m' => m' = wr m (d + (n - 4 * k)) (drop (Z.to_nat (n - 4 * k)) l))).
    + rewrite drop_ge by lia. done.
    + intros k m' Hk ->. set (i := n / 4 - k). assert (0 <= 4 * (i - 1) /\ 4 * (i - 1) + 4 = n - 4 * k) as [Hi0 Hi1] by (unfold i; zlia). destruct (take_word l (Z.to_nat (4 * (i - 1)))) as (a & b & c & e & _ & _ & Ed); [lia|].
      wp_steps. apply (wp_load_long _ a b c e).
      { apply (bytes_at_ext m); [intros x Hx; apply wr_out; simpl in Hx; lia|]. pose proof (bytes_at_drop m s l (Z.to_nat (4 * (i - 1))) Hb) as Hd. rewrite Ed, Z2Nat.id in Hd by lia. by apply bytes_at_app in Hd as [? _]. }
      wp_steps. apply wp_store_long; [intros j Hj; apply wr_is_some; replace (d + 4 * (i - 1) + j) with (d + (4 * (i - 1) + j)) by lia; apply Hm; lia|]. wp_steps. replace (n - 4 * (k + 1)) with (4 * (i - 1)) by lia. rewrite Ed. replace (Z.to_nat (4 * (i - 1)) + 4)%nat with (Z.to_nat (n - 4 * k)) by lia. rewrite <- wr_front. replace (d + 4 * (i - 1) + Z.of_nat (length [a; b; c; e])) with (d + (n - 4 * k)) by (simpl; lia). done.
    + intros m' ->. wp_steps. rewrite Z2Nat.id by zlia. replace (n - 4 * (0 + n / 4)) with 0 by zlia. rewrite drop_0, Z.add_0_r. done.
  - apply (wp_for _ _ _ (fun k m' => m' = wr m (d + (n - k)) (drop (Z.to_nat (n - k)) l))).
    + rewrite drop_ge by lia. done.
    + intros k m' Hk ->. destruct (lookup_lt_is_Some_2 l (Z.to_nat (n - k - 1))) as [c Hc]; [lia|].
      wp_steps. apply (wp_load _ c); [rewrite wr_out by lia; specialize (Hb _ _ Hc); by rewrite Z2Nat.id in Hb by lia|]. wp_steps. apply wp_store; [apply wr_is_some, Hm; lia|]. wp_steps. rewrite (drop_S l c (Z.to_nat (n - (k + 1)))) by (rewrite <- Hc; f_equal; lia). change (c :: drop _ l) with ([c] ++ drop (S (Z.to_nat (n - (k + 1)))) l). rewrite <- wr_front. cbn [length wr]. replace (d + (n - (k + 1)) + Z.of_nat 1) with (d + (n - k)) by lia. replace (S (Z.to_nat (n - (k + 1)))) with (Z.to_nat (n - k)) by lia. f_equal. lia.
    + intros m' ->. wp_steps. rewrite Z2Nat.id by lia. replace (n - (0 + n)) with 0 by lia. rewrite drop_0, Z.add_0_r. done.
Qed.

(** ** Strings *)

Lemma wp_strlen p l (Q : Z -> mem -> Prop) m : cstr m p l -> Q (Z.of_nat (length l)) m -> wp (strlen p) Q m.
Proof.
  intros Hc HQ. unfold strlen. apply (wp_while_list l _ _ (fun xs i m' => m' = m /\ exists pre, l = pre ++ xs /\ i = Z.of_nat (length pre))).
  - split; [done|]. by exists [].
  - by apply (cstr_fuel m p).
  - intros xs i m' (-> & pre & -> & ->). wp_steps. eapply wp_load; [by apply cstr_at|]. destruct xs as [|c xs]; simpl.
    + wp_steps. by rewrite app_nil_r in HQ.
    + pose proof (cstr_app _ _ _ _ Hc) as (_ & Hnz & _)%cstr_cons. replace (c =? 0) with false by lia. wp_steps. exists c, xs. split; [done|]. split; [done|]. exists (pre ++ [c]). rewrite <- app_assoc, length_app. simpl. split; [done|lia].
Qed.

(** [n] bytes at [p] and [k] bytes at [q] do not overlap. *)
Definition apart (p n q k : Z) : Prop := p + n <= q \/ q + k <= p.

Lemma wp_strcpy d s l (Q : Z -> mem -> Prop) m : let n := Z.of_nat (length l) + 1 in cstr m s l -> mapped m d n -> apart d n s n -> Q d (wr m d (l ++ [0])) -> wp (strcpy d s) Q m.
Proof.
  intros n Hc Hm Ha HQ. unfold strcpy, apart in *. wp_steps. apply (wp_while_list l _ _ (fun xs i m' => exists pre, l = pre ++ xs /\ i = Z.of_nat (length pre) /\ m' = wr m d pre)).
  - by exists [].
  - by apply (cstr_fuel m s).
  - intros xs i m' (pre & -> & -> & ->). assert (n = Z.of_nat (length pre) + Z.of_nat (length xs) + 1) as En by (unfold n; rewrite length_app; lia). clearbody n. wp_steps. eapply wp_load; [rewrite wr_out by lia; by apply cstr_at|]. destruct xs as [|c xs]; simpl.
    + rewrite app_nil_r in HQ. simpl in En. wp_steps. apply wp_store; [apply wr_is_some, Hm; lia|]. wp_steps. by rewrite wr_snoc in HQ.
    + pose proof (cstr_app _ _ _ _ Hc) as (_ & Hnz & _)%cstr_cons. replace (c =? 0) with false by lia. simpl in En. cbn [negb]. wp_steps. apply wp_store; [apply wr_is_some, Hm; lia|]. wp_steps. exists c, xs. split; [done|]. exists (pre ++ [c]). rewrite <- app_assoc, length_app, wr_snoc. simpl. split_and!; [done|lia|done].
Qed.

Lemma wp_strcat d s l k (Q : Z -> mem -> Prop) m : let n := Z.of_nat (length k) + Z.of_nat (length l) + 1 in cstr m d k -> cstr m s l -> mapped m d n -> apart d n s (Z.of_nat (length l) + 1) ->
  Q d (wr m d (k ++ l ++ [0])) -> wp (strcat d s) Q m.
Proof.
  intros n Hk Hl Hm Ha HQ. unfold strcat, apart in *. wp_steps. eapply wp_strlen; [exact Hk|]. wp_steps. eapply wp_strcpy; [exact Hl| |unfold apart; lia|].
  - intros i Hi. rewrite <- Z.add_assoc. apply Hm. lia.
  - wp_steps. replace (wr m (d + Z.of_nat (length k)) (l ++ [0])) with (wr m d (k ++ l ++ [0])); [done|]. rewrite <- wr_front. apply map_eq. intros a. rewrite (wr_lookup k). case_decide as Hd; [|done]. rewrite wr_out by lia. destruct (lookup_lt_is_Some_2 k (Z.to_nat (a - d))) as [c Hcc]; [lia|]. rewrite Hcc. symmetry. destruct Hk as [Hb _]. apply bytes_at_app in Hb as [Hb _]. specialize (Hb _ _ Hcc). by replace (d + Z.of_nat (Z.to_nat (a - d))) with a in Hb by lia.
Qed.

(** Where [ch] first is in the string, terminator included. *)
Definition find_char (p ch : Z) (l : list Z) : Z :=
  match list_find (fun c => c = ch) (l ++ [0]) with Some (i, _) => p + Z.of_nat i | None => NULL end.

Lemma find_char_app p ch pre l : ch ∉ pre -> find_char p ch (pre ++ l) = find_char (p + Z.of_nat (length pre)) ch l.
Proof.
  intros Hn. unfold find_char. rewrite <- app_assoc, list_find_app_r; [|by apply list_find_None, Forall_forall; intros x Hx ->]. destruct (list_find _ (l ++ [0])) as [[i c]|]; simpl; [|done]. lia.
Qed.

Lemma wp_strchr p ch l (Q : Z -> mem -> Prop) m : cstr m p l -> Q (find_char p (u8 ch) l) m -> wp (strchr p ch) Q m.
Proof.
  intros Hc HQ. unfold strchr. apply (wp_while_list l _ _ (fun xs s m' => m' = m /\ exists pre, l = pre ++ xs /\ s = p + Z.of_nat (length pre) /\ u8 ch ∉ pre)).
  - split; [done|]. exists []. split_and!; [done|simpl; lia|set_solver].
  - by apply (cstr_fuel m p).
  - intros xs s m' (-> & pre & -> & -> & Hn). wp_steps. eapply wp_load; [by apply cstr_at|]. rewrite find_char_app in HQ by done. destruct xs as [|c xs]; unfold find_char in HQ; simpl in HQ; cbn [hd].
    + change (negb (0 =? 0)) with false. cbv iota. destruct (0 =? u8 ch) eqn:E; boolify; wp_steps.
      * rewrite decide_True in HQ by done.
        simpl in HQ. rewrite Z.add_0_r in HQ. done.
      * rewrite decide_False in HQ by done. done.
    + pose proof (cstr_app _ _ _ _ Hc) as (_ & Hnz & _)%cstr_cons. replace (c =? 0) with false by lia. cbn [negb]. destruct (c =? u8 ch) eqn:E; boolify; wp_steps.
      * rewrite decide_True in HQ by done. simpl in HQ. by rewrite Z.add_0_r in HQ.
      * exists c, xs. split; [done|]. split; [done|]. exists (pre ++ [c]). rewrite <- app_assoc, length_app. simpl. split_and!; [done|lia|set_solver].
Qed.

Lemma wp_strrchr p ch l (Q : Z -> mem -> Prop) m : cstr m p l ->
  (forall r, (r = NULL /\ u8 ch ∉ l ++ [0]) \/ (exists i, r = p + Z.of_nat i /\ (l ++ [0]) !! i = Some (u8 ch) /\ u8 ch ∉ drop (S i) (l ++ [0])) -> Q r m) -> wp (strrchr p ch) Q m.
Proof.
  intros Hc HQ. unfold strrchr. wp_steps. eapply wp_strlen; [exact Hc|]. wp_steps. destruct Hc as [Hb _]. set (k := l ++ [0]) in *. assert (Z.of_nat (length l) + 1 = Z.of_nat (length k)) as Ek by (unfold k; rewrite length_app; simpl; lia). rewrite Ek.
  apply (wp_for _ _ _ (fun j m' => m' = m /\ u8 ch ∉ drop (Z.to_nat (Z.of_nat (length k) - j)) k)).
  - split; [done|]. rewrite drop_ge by lia. set_solver.
  - intros j m' Hj [-> Hn]. destruct (lookup_lt_is_Some_2 k (Z.to_nat (Z.of_nat (length k) - j - 1))) as [c Hcc]; [lia|]. wp_steps. eapply wp_load; [specialize (Hb _ _ Hcc); rewrite Z2Nat.id in Hb by lia; exact Hb|]. replace (Z.to_nat (Z.of_nat (length k) - j)) with (S (Z.to_nat (Z.of_nat (length k) - j - 1))) in Hn by lia. destruct (c =? u8 ch) eqn:E; boolify; wp_steps.
    + apply HQ. right. exists (Z.to_nat (Z.of_nat (length k) - j - 1)). simpl. split_and!; [lia|congruence|done].
    + split; [done|]. replace (Z.to_nat (Z.of_nat (length k) - (j + 1))) with (Z.to_nat (Z.of_nat (length k) - j - 1)) by lia. rewrite (drop_S _ _ _ Hcc). set_solver.
  - intros m' [-> Hn]. wp_steps. apply HQ. left. split; [done|]. by replace (Z.to_nat (Z.of_nat (length k) - (0 + Z.of_nat (Z.to_nat (Z.of_nat (length k)))))) with 0%nat in Hn by lia.
Qed.

(** Lexicographic comparison. *)
Fixpoint lex (a b : list Z) : Z :=
  match a, b with
  | [], [] => 0
  | [], _ :: _ => -1
  | _ :: _, [] => 1
  | x :: a, y :: b => if x =? y then lex a b else if y <? x then 1 else -1
  end.

Definition chars (l : list Z) : Prop := Forall (fun c => 0 <= c < 256) l.

Lemma lex_app pre a b : lex (pre ++ a) (pre ++ b) = lex a b.
Proof. induction pre as [|c pre IH]; simpl; [done|]. by rewrite Z.eqb_refl. Qed.

Lemma wp_strcmp a b k l (Q : Z -> mem -> Prop) m : cstr m a k -> cstr m b l -> chars k -> chars l -> Q (lex k l) m -> wp (strcmp a b) Q m.
Proof.
  intros Hk Hl Ck Cl HQ. unfold strcmp. wp_steps.
  assert (Hend : forall pre x y, k = pre ++ x -> l = pre ++ y -> (x = [] \/ hd 0 x <> hd 0 y) -> wp (x <- load (a + Z.of_nat (length pre)) ;; y <- load (b + Z.of_nat (length pre)) ;; ret (if y <? x then 1 else if x =? y then 0 else -1)) Q m).
  { intros pre x y -> -> Hd. wp_steps. eapply wp_load; [by apply cstr_at|]. wp_steps. eapply wp_load; [by apply cstr_at|]. wp_steps. rewrite lex_app in HQ. unfold chars in *. rewrite Forall_app in Ck, Cl.
    destruct x as [|c x], y as [|d y]; cbn [hd lex] in *; try done.
    - apply cstr_app, cstr_cons in Hl as (_ & ? & _). destruct Cl as [_ [? _]%Forall_cons]. replace (d <? 0) with false by lia. by replace (0 =? d) with false by lia.
    - apply cstr_app, cstr_cons in Hk as (_ & ? & _). destruct Ck as [_ [? _]%Forall_cons]. by replace (0 <? c) with true by lia.
    - destruct Hd as [?|Hd]; [done|]. replace (c =? d) with false in * by lia. done. }
  apply (wp_while_list k _ _ (fun xs i m' => m' = m /\ exists pre ys, k = pre ++ xs /\ l = pre ++ ys /\ i = Z.of_nat (length pre))).
  - split; [done|]. by exists [], l.
  - by apply (cstr_fuel m a).
  - intros xs i m' (-> & pre & ys & Ek & El & ->). pose proof Hk as Hk'. pose proof Hl as Hl'. rewrite Ek in Hk'. rewrite El in Hl'. wp_steps. eapply wp_load; [exact (cstr_at _ _ _ _ Hk')|]. destruct xs as [|c xs]; simpl.
    + apply wp_ret. pose proof (Hend pre [] ys Ek El (or_introl eq_refl)) as He. exact He.
    + pose proof (cstr_app _ _ _ _ Hk') as (_ & Hnz & _)%cstr_cons. replace (c =? 0) with false by lia. wp_steps. eapply wp_load; [exact (cstr_at _ _ _ _ Hl')|]. destruct (c =? hd 0 ys) eqn:E; boolify; apply wp_ret.
      * exists c, xs. split; [done|]. split; [done|]. destruct ys as [|d ys]; simpl in E; [done|]. subst d. exists (pre ++ [c]), ys. rewrite <- !app_assoc, length_app. simpl. split_and!; [done|done|lia].
      * pose proof (Hend pre (c :: xs) ys Ek El (or_intror E)) as He. exact He.
Qed.

(** ** Scanning and words *)

Fixpoint takew (f : Z -> bool) (l : list Z) : list Z :=
  match l with
  | [] => []
  | c :: l => if f c then c :: takew f l else []
  end.

Fixpoint dropw (f : Z -> bool) (l : list Z) : list Z :=
  match l with
  | [] => []
  | c :: r => if f c then dropw f r else l
  end.

Lemma takew_dropw f l : takew f l ++ dropw f l = l.
Proof. induction l as [|c l IH]; simpl; [done|]. destruct (f c); simpl; [by rewrite IH|done]. Qed.

Lemma takew_all f l : Forall (fun c => f c = true) (takew f l).
Proof. induction l as [|c l IH]; simpl; [done|]. destruct (f c) eqn:E; [by constructor|done]. Qed.

Lemma dropw_hd f l c r : dropw f l = c :: r -> f c = false.
Proof. induction l as [|d l IH]; simpl; [done|]. destruct (f d) eqn:E; [done|]. by intros [= <- <-]. Qed.

Lemma takew_app f pre l : Forall (fun c => f c = true) pre -> takew f (pre ++ l) = pre ++ takew f l.
Proof. induction 1 as [|c pre Hc _ IH]; simpl; [done|]. by rewrite Hc, IH. Qed.

(** A loop that steps over the characters [f]. *)
Lemma wp_scan_str p l f (body : Z -> MM (Z + Z)) (Q : Z -> mem -> Prop) m : cstr m p l ->
  (forall s c (Q' : Z + Z -> mem -> Prop), m !! s = Some c -> c = 0 \/ c ∈ l -> (c <> 0 -> f c = true -> Q' (inl (s + 1)) m) -> (c = 0 \/ f c = false -> Q' (inr s) m) -> wp (body s) Q' m) ->
  Q (p + Z.of_nat (length (takew f l))) m -> wp (while p body) Q m.
Proof.
  intros Hc Hbody HQ. apply (wp_while_list l _ _ (fun xs s m' => m' = m /\ exists pre, l = pre ++ xs /\ s = p + Z.of_nat (length pre) /\ Forall (fun c => f c = true) pre)).
  - split; [done|]. exists []. split_and!; [done|simpl; lia|done].
  - by apply (cstr_fuel m p).
  - intros xs s m' (-> & pre & -> & -> & Hpre). rewrite takew_app in HQ by done. eapply Hbody; [by apply cstr_at|destruct xs; [by left|right; set_solver]| |].
    + intros Hnz Hf. destruct xs as [|c xs]; [done|]. exists c, xs. split; [done|]. split; [done|]. exists (pre ++ [c]). rewrite <- app_assoc, length_app. simpl. split_and!; [done|lia|]. apply Forall_app. split; [done|]. by constructor.
    + intros Hf. destruct xs as [|c xs]; [by rewrite app_nil_r in HQ|]. pose proof (cstr_app _ _ _ _ Hc) as (_ & Hnz & _)%cstr_cons. simpl in *. destruct Hf as [?|Hf]; [done|]. rewrite Hf, app_nil_r in HQ. done.
Qed.

Definition is_sep (q : list Z) (c : Z) : bool := bool_decide (c ∈ q).
Definition no_sep (q : list Z) (c : Z) : bool := negb (is_sep q c).

Lemma find_char_sep sp q c : 0 < sp -> c <> 0 -> (find_char sp c q =? NULL) = no_sep q c.
Proof.
  intros Hsp Hc. unfold find_char, no_sep, is_sep, NULL. destruct (list_find _ (q ++ [0])) as [[i x]|] eqn:E.
  - apply list_find_Some in E as (Hi & -> & _). rewrite bool_decide_eq_true_2; [cbn [negb]; apply Z.eqb_neq; lia|]. apply lookup_app_Some in Hi as [Hi|[_ Hi]]; [by eapply list_elem_of_lookup_2|]. destruct (i - length q)%nat; simplify_eq/=.
  - rewrite bool_decide_eq_false_2; [done|]. intros Hin. apply list_find_None in E. rewrite Forall_forall in E. apply (E c); [|done]. set_solver.
Qed.

(** One call of [strtok_r] on the string [l] at [p]: leading separators are
    skipped, the word after them is cut off. *)
Definition tok_word (q l : list Z) : list Z := takew (no_sep q) (dropw (is_sep q) l).
Definition tok_rest (q l : list Z) : list Z := dropw (no_sep q) (dropw (is_sep q) l).
Definition tok_head (q : list Z) (p : Z) (l : list Z) : Z := p + Z.of_nat (length (takew (is_sep q) l)).
Definition tok_end (q : list Z) (p : Z) (l : list Z) : Z := tok_head q p l + Z.of_nat (length (tok_word q l)).

Lemma tok_split q l : l = takew (is_sep q) l ++ tok_word q l ++ tok_rest q l.
Proof. unfold tok_word, tok_rest. by rewrite !takew_dropw. Qed.

Lemma wp_strtok_r string sp context l q (Q : Z * Z -> mem -> Prop) m : let p := if negb (string =? NULL) then string else context in
  p <> 0 -> 0 < sp -> cstr m p l -> cstr m sp q -> chars l ->
  (tok_word q l = [] -> Q (NULL, NULL) m) ->
  (tok_word q l <> [] -> tok_rest q l = [] -> Q (tok_head q p l, NULL) m) ->
  (tok_word q l <> [] -> tok_rest q l <> [] -> Q (tok_head q p l, tok_end q p l + 1) (<[tok_end q p l := 0]> m)) ->
  wp (strtok_r string sp context) Q m.
Proof.
  intros p Hp Hsp Hl Hq Hch H0 H1 H2. unfold strtok_r. fold p. unfold NULL. replace (p =? 0) with false by lia. wp_steps. eapply (wp_scan_str p l (is_sep q)); [exact Hl| |].
  { intros s c Q' Hs Hcl Hin Hout. wp_steps. eapply wp_load; [exact Hs|]. destruct (c =? 0) eqn:E; boolify; [wp_steps; auto|]. wp_steps. eapply wp_strchr; [exact Hq|]. assert (u8 c = c) as ->. { unfold chars in Hch. rewrite Forall_forall in Hch. unfold u8. apply Z.mod_small. destruct Hcl; [done|]. by apply Hch. }
    change 0 with NULL at 1. rewrite find_char_sep by done. unfold no_sep in *. destruct (is_sep q c); cbn [negb]; wp_steps; auto. }
  fold (tok_head q p l). pose proof (tok_split q l) as El. pose proof Hl as Hl1. rewrite El in Hl1. pose proof (cstr_app _ _ _ _ Hl1) as Hw. fold (tok_head q p l) in Hw. pose proof (cstr_at m (tok_head q p l) [] _ Hw) as Hhd. simpl in Hhd. rewrite Z.add_0_r in Hhd.
  wp_steps. eapply wp_load; [exact Hhd|]. set (w := tok_word q l) in *. set (r := tok_rest q l) in *.
  assert (w = [] -> r = []) as Hwr. { unfold w, r, tok_word, tok_rest. destruct (dropw (is_sep q) l) as [|c x] eqn:Ed; [done|]. apply dropw_hd in Ed. simpl. unfold no_sep. rewrite Ed. done. }
  destruct w as [|c w'] eqn:Ew.
  { rewrite Hwr by done. simpl. wp_steps. by apply H0. }
  pose proof Hw as Hw'. apply cstr_cons in Hw' as (_ & Hnz & _). simpl hd. replace (c =? 0) with false by lia. rewrite <- Ew in *. wp_steps. eapply (wp_scan_str (tok_head q p l) (w ++ r) (no_sep q)); [exact Hw| |].
  { intros s d Q' Hs Hdl Hin Hout. wp_steps. eapply wp_load; [exact Hs|]. destruct (d =? 0) eqn:E; boolify; [wp_steps; auto|]. wp_steps. eapply wp_strchr; [exact Hq|]. assert (u8 d = d) as ->. { unfold chars in Hch. rewrite Forall_forall in Hch. unfold u8. apply Z.mod_small. destruct Hdl; [done|]. apply Hch. rewrite El. set_solver. }
    change 0 with NULL at 1. rewrite find_char_sep by done. destruct (no_sep q d); wp_steps; auto. }
  assert (takew (no_sep q) (w ++ r) = w) as ->. { unfold w, r, tok_word, tok_rest. by rewrite takew_dropw. }
  fold w. fold (tok_end q p l). pose proof (cstr_at m _ w r Hw) as Hend. fold (tok_end q p l) in Hend. wp_steps. eapply wp_load; [exact Hend|]. destruct r as [|d r'] eqn:Er; simpl hd.
  - cbn [Z.eqb]. wp_steps. apply H1; [by rewrite Ew|done].
  - pose proof (cstr_app _ _ _ _ Hw) as (_ & Hdz & _)%cstr_cons. replace (d =? 0) with false by lia. wp_steps. apply wp_store; [by eexists|]. wp_steps. apply H2; [by rewrite Ew|done].
Qed.

(** ** atoi *)

Definition is_space (c : Z) : bool := (c =? 32) || (c =? 9).
Definition is_digit (c : Z) : bool := (48 <=? c) && (c <=? 57).
(** The number that decimal digits spell. *)
Definition dec (l : list Z) : Z := foldl (fun v c => v * 10 + (c - 48)) 0 l.

Lemma dec_snoc l c : dec (l ++ [c]) = dec l * 10 + (c - 48).
Proof. unfold dec. by rewrite foldl_app. Qed.

Lemma digit_index_spec c : digit_index c = if is_digit c then c - 48 else -1.
Proof.
  unfold is_digit. destruct ((48 <=? c) && (c <=? 57))%bool eqn:E; boolify.
  - assert (c = 48 \/ c = 49 \/ c = 50 \/ c = 51 \/ c = 52 \/ c = 53 \/ c = 54 \/ c = 55 \/ c = 56 \/ c = 57) as Hc by lia. repeat (destruct Hc as [->|Hc]; [done|]). by subst.
  - unfold digit_index. destruct (list_find (fun d => d = c) digits) as [[i d]|] eqn:Ef; [|done]. apply list_find_Some in Ef as (Hi & -> & _). exfalso. apply list_elem_of_lookup_2 in Hi. assert (Forall (fun d => 48 <= d <= 57) digits) as Hd by (repeat constructor; lia). rewrite Forall_forall in Hd. specialize (Hd c Hi). lia.
Qed.

(** What [atoi] reads: blanks, a sign, digits. *)
Definition atoi_sign (l : list Z) : Z := if hd 0 (dropw is_space l) =? 45 then -1 else 1.
Definition atoi_tail (l : list Z) : list Z := let r := dropw is_space l in if (hd 0 r =? 45) || (hd 0 r =? 43) then tail r else r.
Definition atoi_value (l : list Z) : Z := atoi_sign l * dec (takew is_digit (atoi_tail l)).

Lemma wp_atoi p l (Q : Z -> mem -> Prop) m : cstr m p l -> Q (s32 (atoi_value l)) m -> wp (atoi p) Q m.
Proof.
  intros Hl HQ. unfold atoi. wp_steps. eapply (wp_scan_str p l is_space); [exact Hl| |].
  { intros s c Q' Hs _ Hin Hout. wp_steps. eapply wp_load; [exact Hs|]. unfold is_space in *. destruct ((c =? 32) || (c =? 9))%bool eqn:E; wp_steps; [apply Hin; [|done]; intros ->; done|auto]. }
  set (s := p + Z.of_nat (length (takew is_space l))). pose proof Hl as Hs. rewrite <- (takew_dropw is_space l) in Hs. apply cstr_app in Hs. fold s in Hs. pose proof (cstr_at m s [] _ Hs) as Hhd. simpl in Hhd. rewrite Z.add_0_r in Hhd.
  wp_steps. eapply wp_load; [exact Hhd|]. set (d := dropw is_space l) in *.
  assert (exists s2, (if hd 0 d =? 45 then s + 1 else if hd 0 d =? 43 then s + 1 else s) = s2 /\ cstr m s2 (atoi_tail l)) as (s2 & -> & Hs2).
  { unfold atoi_tail. fold d. destruct d as [|c r]; [by exists s|]. cbn [hd tail]. pose proof Hs as (_ & _ & Hr)%cstr_cons. destruct (c =? 45); [by exists (s + 1)|]. destruct (c =? 43); [by exists (s + 1)|by exists s]. }
  assert (Hval : forall Q' : Z -> mem -> Prop, Q' (u32 (dec (takew is_digit (atoi_tail l)))) m -> wp (while (s2, 0) (fun l => let '(s, val) := l in c <- load s ;; if c =? 0 then ret (inr val) else let digit := digit_index c in if digit =? -1 then ret (inr val) else ret (inl (s + 1, u32 (u32 (val * 10) + digit))))) Q' m).
  { intros Q' HQ'. apply (wp_while_list (atoi_tail l) _ _ (fun xs st m' => m' = m /\ exists pre, atoi_tail l = pre ++ xs /\ st = (s2 + Z.of_nat (length pre), u32 (dec pre)) /\ Forall (fun c => is_digit c = true) pre)).
    - split; [done|]. exists []. split_and!; [done|by rewrite Z.add_0_r|done].
    - by apply (cstr_fuel m s2).
    - intros xs st m' (-> & pre & Et & -> & Hpre). rewrite Et in HQ', Hs2. rewrite takew_app in HQ' by done. wp_steps. eapply wp_load; [by apply cstr_at|]. destruct xs as [|c xs]; cbn [hd takew] in *.
      + cbn [Z.eqb]. wp_steps. by rewrite app_nil_r in HQ'.
      + pose proof (cstr_app _ _ _ _ Hs2) as (_ & Hnz & _)%cstr_cons. replace (c =? 0) with false by lia. rewrite digit_index_spec. destruct (is_digit c) eqn:Ed; [|wp_steps; by rewrite app_nil_r in HQ']. assert (48 <= c <= 57) by (unfold is_digit in Ed; lia). replace (c - 48 =? -1) with false by lia. wp_steps. exists c, xs. split; [done|]. split; [done|]. exists (pre ++ [c]). rewrite <- app_assoc, length_app, dec_snoc. split_and!; [done| |apply Forall_app; split; [done|by constructor]].
        f_equal; [simpl; lia|]. unfold u32. rewrite Z.add_mod_idemp_l, (Z.add_mod (dec pre * 10)), Z.add_mod, Z.mul_mod_idemp_l by lia. done. }
  wp_steps. apply Hval. wp_steps. rewrite !s32_u32. unfold atoi_value, atoi_sign in HQ. fold d in HQ. destruct (hd 0 d =? 45); [|by rewrite Z.mul_1_l in HQ].
  replace (s32 (- u32 (dec (takew is_digit (atoi_tail l))))) with (s32 (-1 * dec (takew is_digit (atoi_tail l)))); [done|]. unfold s32, u32. f_equal. set (x := dec _). replace (- (x mod 2 ^ 32) + 2 ^ 31) with (2 ^ 31 - x mod 2 ^ 32) by lia. rewrite Zminus_mod_idemp_r. f_equal. lia.
Qed.
