(* ===== verification/Menu.v ===== *)
(** * The command line of the kernel menu (kern/main/menu.c)

    [cmd_dispatch] cuts a command into words and calls the command named by
    the first; [menu_execute] runs the commands of a line.  The commands
    themselves are a parameter: [func i args] is what entry [i] of
    [cmdtable] does, [names] holds the addresses of the entries' names and
    [seps], [semi] those of the constant strings " \t" and ";".  Time
    measurement, messages and the assertion that every entry of [cmdtable]
    has a function are left out. *)

From S2P Require Import Prelude CString CStringSpec.

Definition MAXMENUARGS : Z := 16.

Section menu.
Variable func : nat -> list Z -> MM Z.
Variable names : list Z.
Variables seps semi : Z.

(** The first loop: the words of the command, or E2BIG.  The walk ends at
    the terminator of the command at the latest. *)
Definition split_words (cmd : Z) : MM (Z + list Z) :=
  first <- strtok_r cmd seps 0 ;;
  while (first, []) (fun l =>
    let '((word, context), args) := l in
    if word =? NULL then ret (inr (inr args)) else
    if MAXMENUARGS <=? Z.of_nat (length args) then ret (inr (inl E2BIG)) else
    next <- strtok_r NULL seps context ;;
    ret (inl (next, args ++ [word]))).

Definition cmd_dispatch (cmd : Z) : MM Z :=
  r <- split_words cmd ;;
  match r with
  | inl e => ret e
  | inr [] => ret 0
  | inr ((arg0 :: _) as args) =>
      r <- for_ (length names) 0 (fun i =>
        name <- deref (names !! Z.to_nat i) ;;
        c <- load name ;;
        if c =? 0 then ret None else
        r <- strcmp arg0 name ;;
        if r =? 0 then result <- func (Z.to_nat i) args ;; ret (Some result) else ret None) ;;
      ret (default EINVAL r)
  end.

(** The result of the last command that failed, or a panic for the boot
    loader's line. *)
Definition menu_execute (line : Z) (isargs : bool) : MM unit :=
  first <- strtok_r line semi 0 ;;
  while first (fun l =>
    let '(command, context) := l in
    if command =? NULL then ret (inr tt) else
    result <- cmd_dispatch command ;;
    (if negb (result =? 0) && isargs then panic else ret tt) ;;;
    next <- strtok_r NULL semi context ;;
    ret (inl next)).
End menu.

(** * The command line of the kernel menu: what it does

    Cutting at separators as a function on lists, and that the calls of
    [strtok_r] in kern/main/menu.c compute it. *)

(** ** Cutting a list at separators *)

Fixpoint fields (q l : list Z) : list (list Z) :=
  match l with
  | [] => [[]]
  | c :: l => if is_sep q c then [] :: fields q l else match fields q l with f :: fs => (c :: f) :: fs | [] => [[c]] end
  end.

(** The words: the fields that are not empty. *)
Definition words (q l : list Z) : list (list Z) := filter (fun w => w <> []) (fields q l).

Lemma words_sep q c l : is_sep q c = true -> words q (c :: l) = words q l.
Proof. intros Hc. unfold words. simpl. by rewrite Hc. Qed.

Lemma words_seps q pre l : Forall (fun c => is_sep q c = true) pre -> words q (pre ++ l) = words q l.
Proof. induction 1 as [|c pre Hc _ IH]; simpl; [done|]. by rewrite words_sep. Qed.

Lemma fields_word q w r : Forall (fun c => no_sep q c = true) w -> (r = [] \/ exists c r', r = c :: r' /\ is_sep q c = true) ->
  fields q (w ++ r) = w :: match r with [] => [] | _ :: r' => fields q r' end.
Proof.
  intros Hw Hr. induction Hw as [|c w Hc _ IH]; simpl.
  - destruct Hr as [->|(c & r' & -> & Hc)]; [done|]. simpl. by rewrite Hc.
  - unfold no_sep in Hc. apply negb_true_iff in Hc. rewrite Hc, IH. done.
Qed.

Lemma tok_rest_hd q l : tok_rest q l = [] \/ exists c r', tok_rest q l = c :: r' /\ is_sep q c = true.
Proof. unfold tok_rest. destruct (dropw (no_sep q) _) as [|c r] eqn:E; [by left|]. right. exists c, r. split; [done|]. apply dropw_hd in E. unfold no_sep in E. by apply negb_false_iff in E. Qed.

Lemma words_eq q l : words q l = match tok_word q l with [] => [] | w => w :: words q (tail (tok_rest q l)) end.
Proof.
  rewrite (tok_split q l) at 1. rewrite words_seps by apply takew_all. pose proof (takew_all (no_sep q) (dropw (is_sep q) l)) as Hw. fold (tok_word q l) in Hw. unfold words. rewrite fields_word by (done || apply tok_rest_hd). destruct (tok_word q l) as [|c w] eqn:E.
  - assert (tok_rest q l = []) as ->; [|done]. unfold tok_word, tok_rest in *. destruct (dropw (is_sep q) l) as [|c x] eqn:Ed; [done|]. apply dropw_hd in Ed. simpl in *. unfold no_sep in *. rewrite Ed in *. done.
  - rewrite filter_cons_True by done. f_equal. destruct (tok_rest q l) as [|d r]; [done|]. done.
Qed.

(** ** The calls of [strtok_r] *)

(** What a call left to do: [word] is the next word of [ws], the others are
    behind [context]; everything ends at [hi]. *)
Definition pending (m : mem) (q : list Z) (lo hi : Z) (r : Z * Z) (ws : list (list Z)) : Prop :=
  (ws = [] /\ r.1 = NULL) \/
  exists w ws', ws = w :: ws' /\ lo <= r.1 /\ r.1 <> NULL /\ cstr m r.1 w /\ chars w /\
    ((r.2 = NULL /\ ws' = [] /\ r.1 + Z.of_nat (length w) <= hi) \/
     (exists l, r.2 = r.1 + Z.of_nat (length w) + 1 /\ r.2 <> NULL /\ cstr m r.2 l /\ chars l /\ ws' = words q l /\ r.2 + Z.of_nat (length l) = hi)).

Definition same_outside (lo hi : Z) (m m' : mem) : Prop := forall a, a < lo \/ hi < a -> m' !! a = m !! a.

Lemma wp_next_token string sp context l q hi (Q : Z * Z -> mem -> Prop) m : let p := if negb (string =? NULL) then string else context in
  0 < p -> 0 < sp -> cstr m p l -> chars l -> cstr m sp q -> p + Z.of_nat (length l) = hi ->
  (forall r m', pending m' q p hi r (words q l) -> same_outside p hi m m' -> size m' = size m -> Q r m') ->
  wp (strtok_r string sp context) Q m.
Proof.
  intros p Hp Hsp Hl Hch Hq Hhi HQ. pose proof (tok_split q l) as El. pose proof Hl as Hl1. rewrite El in Hl1. apply cstr_app in Hl1. fold (tok_head q p l) in Hl1. assert (Hlen : (length l = length (takew (is_sep q) l) + length (tok_word q l) + length (tok_rest q l))%nat) by (rewrite El at 1; rewrite !length_app; lia).
  assert (chars (tok_word q l) /\ chars (tok_rest q l)) as [Cw Cr] by (unfold chars in *; rewrite El, !Forall_app in Hch; tauto).
  apply (wp_strtok_r _ _ _ l q); [fold p; lia|done|done|done|done| | |]; fold p; intros Hw.
  - apply HQ; [|done|done]. left. rewrite words_eq, Hw. done.
  - intros Hr. apply HQ; [|done|done]. right. exists (tok_word q l), []. rewrite words_eq, Hr. simpl. destruct (tok_word q l) as [|c w] eqn:Ew; [done|]. rewrite <- Ew in *. rewrite Hr, app_nil_r in Hl1. rewrite Hr in Hlen. simpl in Hlen. unfold tok_head in *. unfold NULL. split_and!; [done|lia|lia|done|done|]. left. split_and!; [done|done|lia].
  - intros Hr. destruct (tok_rest q l) as [|d r] eqn:Er; [done|]. simpl in Hlen. pose proof (cstr_app _ _ _ _ Hl1) as Hd. fold (tok_end q p l) in Hd. apply cstr_cons in Hd as (Hd & _ & Hrest).
    assert (tok_end q p l = p + Z.of_nat (length (takew (is_sep q) l)) + Z.of_nat (length (tok_word q l))) as Ee by done. unfold chars in Cr. apply Forall_cons in Cr as [_ Cr]. apply HQ.
    + right. exists (tok_word q l), (words q r). cbn [fst snd]. rewrite (words_eq q l), Er. destruct (tok_word q l) as [|c w] eqn:Ew; [done|]. rewrite <- Ew in *. unfold NULL. split_and!; [done|unfold tok_head; lia|unfold tok_head; lia| |done|].
      * destruct Hl1 as [Hb Hn]. split; [|set_solver]. rewrite <- app_assoc in Hb. apply bytes_at_app in Hb as [Hb _]. apply bytes_at_app. split; [apply (bytes_at_ext m); [|done]|].
        -- intros a Ha. rewrite lookup_insert_ne; [done|]. unfold tok_head in *. lia.
        -- fold (tok_end q p l). intros [|i] x Hx; [injection Hx as <-; by rewrite Z.add_0_r, lookup_insert_eq|done].
      * right. exists r. split_and!; [done|lia| |done|done|lia]. apply (cstr_ext m); [|done]. intros a Ha. rewrite lookup_insert_ne; [done|]. lia.
    + intros a Ha. rewrite lookup_insert_ne; [done|lia].
    + by apply map_size_insert_Some.
Qed.

Lemma fields_ne q l : fields q l <> [].
Proof. destruct l as [|c l]; simpl; [done|]. destruct (is_sep q c); [done|]. by destruct (fields q l). Qed.

Lemma words_length q l : (length (words q l) <= length l)%nat.
Proof.
  unfold words. induction l as [|c l IH]; simpl; [done|]. pose proof (fields_ne q l). destruct (is_sep q c); [rewrite filter_cons_False by tauto; lia|]. destruct (fields q l) as [|f fs]; [done|]. rewrite filter_cons_True by done. rewrite filter_cons in IH. case_decide; simpl in *; lia.
Qed.

Lemma wp_split_words p l sp q (Q : Z + list Z -> mem -> Prop) m : let hi := p + Z.of_nat (length l) in
  0 < p -> 0 < sp -> cstr m p l -> chars l -> cstr m sp q -> (sp + Z.of_nat (length q) < p \/ hi < sp) ->
  (forall args m', (length (words q l) <= 16)%nat -> Forall2 (fun a w => cstr m' a w /\ p <= a /\ a + Z.of_nat (length w) <= hi /\ chars w) args (words q l) -> same_outside p hi m m' -> size m' = size m -> Q (inr args) m') ->
  (forall m', (16 < length (words q l))%nat -> same_outside p hi m m' -> size m' = size m -> Q (inl E2BIG) m') ->
  wp (split_words sp p) Q m.
Proof.
  intros hi Hp Hsp Hl Hch Hq Hap Hok Hbig. unfold split_words. wp_steps. apply (wp_next_token p sp 0 l q hi); unfold NULL; replace (p =? 0) with false by lia; cbn [negb]; try done. intros r m1 Hpend Hsame Hsize.
  assert (forall m', same_outside p hi m m' -> cstr m' sp q) as Hq'. { intros m' Hs. apply (cstr_ext m); [|done]. intros a Ha. apply Hs. lia. }
  apply (wp_while_list (words q l) _ _ (fun xs st m' => exists dn lo, words q l = dn ++ xs /\ (length dn <= 16)%nat /\ Forall2 (fun a w => cstr m' a w /\ p <= a /\ a + Z.of_nat (length w) < lo /\ a + Z.of_nat (length w) <= hi /\ chars w) st.2 dn /\ pending m' q lo hi st.1 xs /\ p <= lo /\ same_outside p hi m m' /\ size m' = size m)).
  - exists [], p. split_and!; try done. simpl. lia.
  - pose proof (words_length q l). pose proof (cstr_fuel _ _ _ Hl). unfold mem_fuel in *. rewrite Hsize. lia.
  - intros xs [[word ctx] args] m' (dn & lo & Ew & H16 & Hargs & Hpd & Hlo & Hs & Hsz). cbn [fst snd] in *. pose proof (Forall2_length _ _ _ Hargs) as Hlen. destruct Hpd as [[-> Hn]|(w & ws & -> & Hw1 & Hw2 & Hw3 & Hw4 & Hctx)]; cbn [fst snd] in *.
    + unfold NULL in *. rewrite Hn. cbn [Z.eqb]. wp_steps. rewrite app_nil_r in Ew. apply Hok; [by rewrite Ew| |done|done]. rewrite Ew. eapply Forall2_impl; [exact Hargs|]. cbv beta. intros a x. intuition.
    + unfold NULL in *. replace (word =? 0) with false by lia. unfold MAXMENUARGS. destruct (16 <=? Z.of_nat (length args)) eqn:E; boolify.
      { wp_steps. apply Hbig; [rewrite Ew, length_app; simpl; lia|done|done]. }
      assert (Hnext : forall r' m2, pending m2 q (word + Z.of_nat (length w) + 1) hi r' ws -> same_outside (word + Z.of_nat (length w) + 1) hi m' m2 -> size m2 = size m' -> word + Z.of_nat (length w) <= hi ->
        exists x xs', w :: ws = x :: xs' /\ exists dn lo, words q l = dn ++ xs' /\ (length dn <= 16)%nat /\ Forall2 (fun a w => cstr m2 a w /\ p <= a /\ a + Z.of_nat (length w) < lo /\ a + Z.of_nat (length w) <= hi /\ chars w) (args ++ [word]) dn /\ pending m2 q lo hi r' xs' /\ p <= lo /\ same_outside p hi m m2 /\ size m2 = size m).
      { intros r' m2 Hp2 Hs2 Hsz2 Hhi. exists w, ws. split; [done|]. exists (dn ++ [w]), (word + Z.of_nat (length w) + 1). split_and!; [by rewrite <- app_assoc|rewrite length_app; simpl; lia| |done|lia| |congruence].
        - apply Forall2_app; [|constructor; [|constructor]].
          + eapply Forall2_impl; [exact Hargs|]. cbv beta. intros a x (Hc & ? & ? & ? & ?). split_and!; [|lia|lia|lia|done]. apply (cstr_ext m'); [|done]. intros b Hb. apply Hs2. lia.
          + split_and!; [|lia|lia|lia|done]. apply (cstr_ext m'); [|done]. intros b Hb. apply Hs2. lia.
        - intros a Ha. rewrite Hs2 by lia. by apply Hs. }
      wp_steps. destruct Hctx as [(-> & -> & Hhi)|(l' & -> & Hcz & Hcl & Hcc & -> & Hhi)].
      * unfold strtok_r, NULL. cbn [Z.eqb negb]. wp_steps. apply Hnext; [by left|done|done|done].
      * eapply (wp_next_token 0 sp (word + Z.of_nat (length w) + 1) l' q hi); cbn [Z.eqb negb NULL]; [lia|done|done|done|by apply Hq'|done|]. intros r' m2 Hp2 Hs2 Hsz2. wp_steps. apply Hnext; [done|done|done|lia].
Qed.

(** ** Finding the command *)

Lemma lex_zero a : forall b, lex a b = 0 <-> a = b.
Proof.
  induction a as [|x a IH]; intros [|y b]; simpl; try done. destruct (x =? y) eqn:E; boolify.
  - subst. rewrite IH. split; [by intros ->|by intros [= ->]].
  - destruct (y <? x); split; try done; intros [=]; done.
Qed.

Section dispatch.
Variable func : nat -> list Z -> MM Z.

(** The loop over the table from entry [k] on. *)
Lemma find_command names ns w arg0 args k m : Forall2 (cstr m) names ns -> Forall chars ns -> cstr m arg0 w -> chars w -> w <> [] ->
  forall all, drop (Z.to_nat k) all = names -> 0 <= k ->
  for_ (length names) k (fun i =>
    name <- deref (all !! Z.to_nat i) ;;
    c <- load name ;;
    if c =? 0 then ret None else
    r <- strcmp arg0 name ;;
    if r =? 0 then result <- func (Z.to_nat i) args ;; ret (Some result) else ret None) m =
  match list_find (fun n => n = w) ns with
  | Some (i, _) => (result <- func (Z.to_nat k + i)%nat args ;; ret (Some result)) m
  | None => Done None m
  end.
Proof.
  intros Hn Hcn Hw Hcw Hne. revert k. induction Hn as [|a x names ns Ha Hn IH]; intros k all Hall Hk; [done|]. apply Forall_cons in Hcn as [Hcx Hcn].
  assert (all !! Z.to_nat k = Some a) as Hat. { rewrite <- (Nat.add_0_r (Z.to_nat k)), <- lookup_drop, Hall. done. }
  assert (drop (Z.to_nat (k + 1)) all = names) as Hall'. { replace (Z.to_nat (k + 1)) with (Z.to_nat k + 1)%nat by lia. rewrite <- drop_drop, Hall. done. }
  assert (m !! a = Some (hd 0 x)) as Hc. { pose proof (cstr_at m a [] x Ha) as Hc. simpl in Hc. by rewrite Z.add_0_r in Hc. }
  assert (strcmp arg0 a m = Done (lex w x) m) as Hcmp. { assert (wp (strcmp arg0 a) (fun r m' => r = lex w x /\ m' = m) m) as (r & m' & E & -> & ->)%wp_done; [|done]. by apply (wp_strcmp _ _ w x). }
  cbn [length for_]. unfold bind at 1 2 3 4, deref at 1, load at 1. rewrite Hat. unfold ret at 1, get at 1, bind at 1. rewrite Hc. unfold deref at 1, ret at 1.
  assert (Hskip : list_find (fun n => n = w) (x :: ns) = (fun p => (S p.1, p.2)) <$> list_find (fun n => n = w) ns -> forall o, o = Done None m -> match o with Done a s' => match a with Some r => ret (Some r) | None => for_ (length names) (k + 1) (fun i => name <- deref (all !! Z.to_nat i) ;; c <- load name ;; if c =? 0 then ret None else r <- strcmp arg0 name ;; if r =? 0 then result <- func (Z.to_nat i) args ;; ret (Some result) else ret None) end s' | Panic => Panic | Fault => Fault | NoFuel => NoFuel end =
    match list_find (fun n => n = w) (x :: ns) with Some (i, _) => (result <- func (Z.to_nat k + i)%nat args ;; ret (Some result)) m | None => Done None m end).
  { intros Ef o ->. rewrite (IH Hcn (k + 1) all Hall') by lia. rewrite Ef. destruct (list_find (fun n => n = w) ns) as [[i y]|]; simpl; [|done]. by replace (Z.to_nat (k + 1) + i)%nat with (Z.to_nat k + S i)%nat by lia. }
  destruct x as [|c x]; cbn [hd].
  - cbn [Z.eqb]. apply Hskip; [|done]. simpl. by rewrite decide_False by (by intros <-).
  - assert (c <> 0) by (by apply cstr_cons in Ha as (_ & ? & _)). replace (c =? 0) with false by lia. unfold bind at 1. rewrite Hcmp. destruct (lex w (c :: x) =? 0) eqn:E; boolify.
    + apply lex_zero in E. subst w. simpl. rewrite decide_True by done. rewrite Nat.add_0_r. unfold bind, ret. by destruct (func (Z.to_nat k) args m).
    + apply Hskip; [|done]. simpl. rewrite decide_False; [done|]. intros <-. apply E. by apply lex_zero.
Qed.
End dispatch.
