(* ===== verification/Printf.v ===== *)
(** * Formatted output (common/libc/printf)

    [__vprintf] sends each character of the format through a state machine;
    [vsnprintf] collects the output in a buffer.  The output function of the
    caller is a parameter: [sendfunc c txt] is the client's data after it got
    [txt].  The variable arguments are a list of values with their sizes
    ([int], [long], [size_t] and pointers are one word on this machine);
    fetching an argument of another kind than the one passed is undefined.
    Text is a list of characters; [strlen] and [strchr] on constant strings
    are [length] and membership. *)

From S2P Require Import Prelude.

Inductive arg :=
  | AWord (z : Z)                    (* one machine word *)
  | ALong (z : Z)                    (* long long *)
  | AStr (s : option (list Z)).      (* char *, [None] for NULL *)

Inductive int_size := INTSZ | LONGSZ | LLONGSZ | SIZETSZ.

Definition NUMBER_BUF_SIZE : Z := 64 / 3 + 2.

(** ** State *)

Record PF (C : Type) := Pf {
  clientdata : C;
  ap : list arg;
  charcount : Z;
  in_pct : bool;
  pf_size : int_size;
  num : Z;
  sign : Z;
  spacing : Z;
  rightspc : bool;
  fillchar : Z;
  base : Z;
  baseprefix : bool;
  altformat : bool;
}.
Arguments Pf {C}.
Arguments clientdata {C}.
Arguments ap {C}.
Arguments charcount {C}.
Arguments in_pct {C}.
Arguments pf_size {C}.
Arguments num {C}.
Arguments sign {C}.
Arguments spacing {C}.
Arguments rightspc {C}.
Arguments fillchar {C}.
Arguments base {C}.
Arguments baseprefix {C}.
Arguments altformat {C}.

Section printf.
Context {C : Type}.
Variable sendfunc : C -> list Z -> C.
Notation PM := (M (PF C)).
Implicit Types pf : PF C.

Definition set_ap x pf : PF C := Pf (clientdata pf) x (charcount pf) (in_pct pf) (pf_size pf) (num pf) (sign pf) (spacing pf) (rightspc pf) (fillchar pf) (base pf) (baseprefix pf) (altformat pf).
Definition set_out c n pf : PF C := Pf c (ap pf) n (in_pct pf) (pf_size pf) (num pf) (sign pf) (spacing pf) (rightspc pf) (fillchar pf) (base pf) (baseprefix pf) (altformat pf).
Definition set_in_pct x pf : PF C := Pf (clientdata pf) (ap pf) (charcount pf) x (pf_size pf) (num pf) (sign pf) (spacing pf) (rightspc pf) (fillchar pf) (base pf) (baseprefix pf) (altformat pf).
Definition set_pf_size x pf : PF C := Pf (clientdata pf) (ap pf) (charcount pf) (in_pct pf) x (num pf) (sign pf) (spacing pf) (rightspc pf) (fillchar pf) (base pf) (baseprefix pf) (altformat pf).
Definition set_num n sg pf : PF C := Pf (clientdata pf) (ap pf) (charcount pf) (in_pct pf) (pf_size pf) n sg (spacing pf) (rightspc pf) (fillchar pf) (base pf) (baseprefix pf) (altformat pf).
Definition set_spacing x pf : PF C := Pf (clientdata pf) (ap pf) (charcount pf) (in_pct pf) (pf_size pf) (num pf) (sign pf) x (rightspc pf) (fillchar pf) (base pf) (baseprefix pf) (altformat pf).
Definition set_rightspc x pf : PF C := Pf (clientdata pf) (ap pf) (charcount pf) (in_pct pf) (pf_size pf) (num pf) (sign pf) (spacing pf) x (fillchar pf) (base pf) (baseprefix pf) (altformat pf).
Definition set_fillchar x pf : PF C := Pf (clientdata pf) (ap pf) (charcount pf) (in_pct pf) (pf_size pf) (num pf) (sign pf) (spacing pf) (rightspc pf) x (base pf) (baseprefix pf) (altformat pf).
Definition set_base b p pf : PF C := Pf (clientdata pf) (ap pf) (charcount pf) (in_pct pf) (pf_size pf) (num pf) (sign pf) (spacing pf) (rightspc pf) (fillchar pf) b p (altformat pf).
Definition set_altformat x pf : PF C := Pf (clientdata pf) (ap pf) (charcount pf) (in_pct pf) (pf_size pf) (num pf) (sign pf) (spacing pf) (rightspc pf) (fillchar pf) (base pf) (baseprefix pf) x.

(** [va_arg] for a word, a long long and a string. *)
Definition va_arg : PM arg :=
  pf <- get ;;
  match ap pf with
  | a :: r => modify (set_ap r) ;;; ret a
  | [] => fault
  end.
Definition va_word : PM Z := a <- va_arg ;; match a with AWord z => ret z | _ => fault end.
Definition va_long : PM Z := a <- va_arg ;; match a with ALong z => ret z | _ => fault end.
Definition va_str : PM (option (list Z)) := a <- va_arg ;; match a with AStr s => ret s | _ => fault end.

(** ** Output *)

Definition __pf_print (txt : list Z) : PM unit :=
  modify (fun pf => set_out (sendfunc (clientdata pf) txt) (s32 (charcount pf + Z.of_nat (length txt))) pf).

Definition __pf_endfield : PM unit :=
  modify (fun pf => Pf (clientdata pf) (ap pf) (charcount pf) false INTSZ 0 0 0 false 32 0 false false).

Definition __pf_modifier (ch : Z) : PM unit :=
  pf <- get ;;
  if ch =? 35 (* # *) then modify (set_altformat true)
  else if ch =? 45 (* - *) then modify (set_rightspc true)
  else if ch =? 108 (* l *) then modify (set_pf_size (match pf_size pf with LONGSZ => LLONGSZ | _ => LONGSZ end))
  else if ch =? 122 (* z *) then modify (set_pf_size SIZETSZ)
  else if ch =? 48 (* 0 *) then
    if 0 <? spacing pf then modify (set_spacing (s32 (spacing pf * 10))) else modify (set_fillchar 48)
  else
    kassert ((48 <? ch) && (ch <=? 57)) ;;;
    modify (set_spacing (s32 (spacing pf * 10 + (ch - 48)))).

Definition __pf_getnum (ch : Z) : PM unit :=
  pf <- get ;;
  if ch =? 112 (* p *) then z <- va_word ;; modify (set_num (u32 z) (sign pf))
  else if ch =? 100 (* d *) then
    signednum <- match pf_size pf with LLONGSZ => z <- va_long ;; ret (s64 z) | _ => z <- va_word ;; ret (s32 z) end ;;
    if signednum <? 0 then modify (set_num (u64 (- signednum)) (-1)) else modify (set_num (u64 signednum) (sign pf))
  else
    z <- match pf_size pf with LLONGSZ => z <- va_long ;; ret (u64 z) | _ => z <- va_word ;; ret (u32 z) end ;;
    modify (set_num z (sign pf)).

Definition __pf_setbase (ch : Z) : PM unit :=
  pf <- get ;;
  let b := if (ch =? 100) || (ch =? 117) then 10 else if (ch =? 120) || (ch =? 112) then 16 else if ch =? 111 then 8 else base pf in
  modify (set_base b (altformat pf || (ch =? 112) || baseprefix pf)).

Definition __pf_fill (spc : Z) : PM unit :=
  pf <- get ;;
  let f := u8 (fillchar pf) in
  for_ (R := unit) (Z.to_nat spc) 0 (fun _ => __pf_print [f] ;;; ret None) ;;;
  ret tt.

Definition __pf_printstuff (prefix prefix2 stuff : list Z) : PM unit :=
  let len := Z.of_nat (length prefix) + Z.of_nat (length prefix2) + Z.of_nat (length stuff) in
  pf <- get ;;
  let spc := if len <? spacing pf then spacing pf - len else 0 in
  (if (0 <? spc) && negb (rightspc pf) && negb (fillchar pf =? 48) then __pf_fill spc else ret tt) ;;;
  __pf_print prefix ;;;
  __pf_print prefix2 ;;;
  (if (0 <? spc) && negb (rightspc pf) && (fillchar pf =? 48) then __pf_fill spc else ret tt) ;;;
  __pf_print stuff ;;;
  (if (0 <? spc) && rightspc pf then __pf_fill spc else ret tt).

(** ** Numbers *)

Definition hexdigits : list Z := [48; 49; 50; 51; 52; 53; 54; 55; 56; 57; 97; 98; 99; 100; 101; 102].

(** The buffer as its bytes, [x] an index; both loop variables with [xnum].
    An index outside the buffer is undefined. *)
Definition buf_put (buf : list Z) (x c : Z) : PM (list Z) :=
  if (0 <=? x) && (x <? NUMBER_BUF_SIZE) then ret (<[Z.to_nat x := c]> buf) else fault.

(** Each round divides a 64-bit number by at least 8. *)
Definition __pf_printnum (junk : list Z) : PM unit :=
  pf <- get ;;
  let x := NUMBER_BUF_SIZE - 1 in
  buf <- buf_put junk x 0 ;;
  (* do { } while (xnum > 0) *)
  r <- loop_ 65 (buf, x - 1, num pf) (fun l =>
    let '(buf, x, xnum) := l in
    d <- deref (if base pf =? 0 then None else hexdigits !! Z.to_nat (xnum mod base pf)) ;;
    buf <- buf_put buf x d ;;
    let xnum := xnum / base pf in
    if 0 <? xnum then ret (inl (buf, x - 1, xnum)) else ret (inr (buf, x - 1))) ;;
  let '(buf, x) := r in
  let x := x + 1 in
  let bprefix := if baseprefix pf && (base pf =? 16) then [48; 120] else if baseprefix pf && (base pf =? 8) then [48] else [] in
  let sprefix := if negb (sign pf =? 0) then [45] else [] in
  (* the string at [x] ends before the terminator in the last slot *)
  __pf_printstuff sprefix bprefix (drop (Z.to_nat x) (take (Z.to_nat (NUMBER_BUF_SIZE - 1)) buf)).

(** ** The format *)

Definition is_modifier (ch : Z) : bool := bool_decide (ch ∈ [35; 45; 108; 122; 48; 49; 50; 51; 52; 53; 54; 55; 56; 57]).
Definition is_inttype (ch : Z) : bool := bool_decide (ch ∈ [100; 111; 117; 112; 120]).
Definition null_text : list Z := [40; 110; 117; 108; 108; 41].

Definition __pf_send (junk : list Z) (ch : Z) : PM unit :=
  kassert (negb (ch =? 0)) ;;;
  pf <- get ;;
  if negb (in_pct pf) && negb (ch =? 37) then __pf_print [ch]
  else if negb (in_pct pf) then modify (set_in_pct true)
  else if is_modifier ch then __pf_modifier ch
  else if is_inttype ch then
    __pf_getnum ch ;;;
    __pf_setbase ch ;;;
    __pf_printnum junk ;;;
    __pf_endfield
  else if ch =? 115 (* s *) then
    str <- va_str ;;
    __pf_printstuff [] [] (default null_text str) ;;;
    __pf_endfield
  else
    x <- (if ch =? 99 (* c *) then z <- va_word ;; ret (u8 z) else ret ch) ;;
    __pf_printstuff [] [] (if x =? 0 then [] else [x]) ;;;
    __pf_endfield.

Fixpoint send_all (junk : list Z) (format : list Z) : PM unit :=
  match format with
  | [] => ret tt
  | ch :: format => __pf_send junk ch ;;; send_all junk format
  end.
End printf.

(** The client's data afterwards and the number of characters. *)
Definition __vprintf {C} (func : C -> list Z -> C) (junk : list Z) (data : C) (format : list Z) (args : list arg) : outcome unit (C * Z) :=
  let pf := Pf data args 0 false INTSZ 0 0 0 false 32 0 false false in
  match send_all func junk format pf with
  | Done _ pf => Done (clientdata pf, charcount pf) tt
  | Panic => Panic
  | Fault => Fault
  | NoFuel => NoFuel
  end.

(** ** snprintf *)

(** The buffer as its [len] bytes; a write past them is undefined. *)
Record SNP := Snp { snp_buf : option (list Z); buflen : Z; bufpos : Z }.

Definition buf_store (buf : option (list Z)) (i c : Z) : option (list Z) :=
  l ← buf; if (0 <=? i) && (i <? Z.of_nat (length l)) then Some (<[Z.to_nat i := c]> l) else None.

Definition __snprintf_send (snp : SNP) (data : list Z) : SNP :=
  foldl (fun snp c => if bufpos snp <? buflen snp then Snp (buf_store (snp_buf snp) (bufpos snp) c) (buflen snp) (bufpos snp + 1) else snp) snp data.

(** The buffer afterwards and the result. *)
Definition vsnprintf (junk : list Z) (buf : list Z) (len : Z) (fmt : list Z) (args : list arg) : outcome unit (list Z * Z) :=
  let snp := Snp (Some buf) (if len =? 0 then 0 else len - 1) 0 in
  match __vprintf __snprintf_send junk snp fmt args with
  | Done (snp, chars) _ =>
      match (if 0 <? len then buf_store (snp_buf snp) (bufpos snp) 0 else snp_buf snp) with
      | Some buf => Done (buf, chars) tt
      | None => Fault
      end
  | Panic => Panic
  | Fault => Fault
  | NoFuel => NoFuel
  end.
