(* ===== verification/PrintfSpec.v ===== *)
(** * Formatted output: what it prints

    [render] gives the text a format and its arguments stand for; the state
    machine of [__vprintf] sends exactly that text. *)

From S2P Require Import Prelude Printf.

(** ** Numbers as text *)

Definition digit (d : Z) : Z := default 0 (hexdigits !! Z.to_nat d).

Fixpoint digits_ (fuel : nat) (b n : Z) : list Z :=
  match fuel with
  | O => []
  | S k => if n <? b then [digit n] else digits_ k b (n / b) ++ [digit (n mod b)]
  end.

(** [n] in base [b]; 64 digits are enough for 64-bit numbers in any base. *)
Definition number (b n : Z) : list Z := digits_ 64 b n.

(** The number that digits spell in base [b]. *)
Definition number_value (b : Z) (val : Z -> Z) (l : list Z) : Z := foldl (fun v c => v * b + val c) 0 l.

Lemma digits_fuel b : 2 <= b -> forall f n, 0 <= n < b ^ Z.of_nat (S f) -> digits_ (S f) b n = digits_ (S (S f)) b n.
Proof.
  intros Hb f. induction f as [|f IH]; intros n Hn.
  - change (Z.of_nat 1) with 1 in Hn. rewrite Z.pow_1_r in Hn. cbn. by replace (n <? b) with true by lia.
  - change (digits_ (S (S f)) b n) with (if n <? b then [digit n] else digits_ (S f) b (n / b) ++ [digit (n mod b)]). rewrite IH; [done|]. split; [apply Z.div_pos; lia|]. apply Z.div_lt_upper_bound; [lia|]. rewrite <- Z.pow_succ_r by lia. replace (Z.succ (Z.of_nat (S f))) with (Z.of_nat (S (S f))) by lia. lia.
Qed.

Lemma number_eq b n : 2 <= b -> 0 <= n < 2 ^ 64 -> number b n = if n <? b then [digit n] else number b (n / b) ++ [digit (n mod b)].
Proof.
  intros Hb Hn. unfold number. change (digits_ 64 b n) with (if n <? b then [digit n] else digits_ 63 b (n / b) ++ [digit (n mod b)]). destruct (n <? b); [done|]. rewrite (digits_fuel b Hb 62); [done|]. split; [apply Z.div_pos; lia|]. apply (Z.lt_le_trans _ (2 ^ 63)); [apply Z.div_lt_upper_bound; nia|]. apply Z.pow_le_mono_l. lia.
Qed.

Lemma number_step b n : 2 <= b -> 0 <= n < 2 ^ 64 -> 0 <= n / b < 2 ^ 64.
Proof. intros Hb Hn. split; [apply Z.div_pos; lia|]. apply Z.div_lt_upper_bound; nia. Qed.

Lemma digits_length b : 2 <= b -> forall k f n, 0 <= n < b ^ Z.of_nat (S k) -> (length (digits_ f b n) <= S k)%nat.
Proof.
  intros Hb k. induction k as [|k IH]; intros [|f] n Hn; cbn [digits_]; try (simpl; lia).
  - change (Z.of_nat 1) with 1 in Hn. rewrite Z.pow_1_r in Hn. replace (n <? b) with true by lia. done.
  - destruct (n <? b); [simpl; lia|]. rewrite length_app. simpl. rewrite Nat.add_1_r. apply le_n_S, IH. split; [apply Z.div_pos; lia|]. apply Z.div_lt_upper_bound; [lia|]. rewrite <- Z.pow_succ_r by lia. replace (Z.succ (Z.of_nat (S k))) with (Z.of_nat (S (S k))) by lia. lia.
Qed.

(** A 64-bit number has at most 22 digits from base 8 on. *)
Lemma number_length b n : 8 <= b -> 0 <= n < 2 ^ 64 -> (1 <= length (number b n) <= 22)%nat.
Proof.
  intros Hb Hn. split.
  - rewrite number_eq by lia. destruct (n <? b); rewrite ?length_app; simpl; lia.
  - apply (digits_length b ltac:(lia) 21). split; [lia|]. apply (Z.lt_le_trans _ (8 ^ 22)); [lia|]. by apply Z.pow_le_mono_l.
Qed.

Lemma digits_value b val : 2 <= b -> (forall d, 0 <= d < b -> val (digit d) = d) -> forall f n, 0 <= n < b ^ Z.of_nat (S f) -> number_value b val (digits_ (S f) b n) = n.
Proof.
  intros Hb Hv f. induction f as [|f IH]; intros n Hn.
  - change (Z.of_nat 1) with 1 in Hn. rewrite Z.pow_1_r in Hn. cbn [digits_]. replace (n <? b) with true by lia. unfold number_value. simpl. rewrite Hv; lia.
  - change (digits_ (S (S f)) b n) with (if n <? b then [digit n] else digits_ (S f) b (n / b) ++ [digit (n mod b)]). destruct (n <? b) eqn:E; boolify; [unfold number_value; simpl; rewrite Hv; lia|].
    unfold number_value in *. rewrite foldl_app, IH; [cbn [foldl]; rewrite Hv|].
    + pose proof (Z.div_mod n b). lia.
    + apply Z.mod_pos_bound. lia.
    + split; [apply Z.div_pos; lia|]. apply Z.div_lt_upper_bound; [lia|]. rewrite <- Z.pow_succ_r by lia. replace (Z.succ (Z.of_nat (S f))) with (Z.of_nat (S (S f))) by lia. lia.
Qed.

(** ** Directives *)

Record dir := Dir { d_size : int_size; d_alt : bool; d_left : bool; d_fill : Z; d_width : Z }.
Definition dir0 : dir := Dir INTSZ false false 32 0.

(** A modifier; [None] for a width that is no [int]. *)
Definition mod_step (d : dir) (ch : Z) : option dir :=
  if ch =? 35 then Some (Dir (d_size d) true (d_left d) (d_fill d) (d_width d))
  else if ch =? 45 then Some (Dir (d_size d) (d_alt d) true (d_fill d) (d_width d))
  else if ch =? 108 then Some (Dir (match d_size d with LONGSZ => LLONGSZ | _ => LONGSZ end) (d_alt d) (d_left d) (d_fill d) (d_width d))
  else if ch =? 122 then Some (Dir SIZETSZ (d_alt d) (d_left d) (d_fill d) (d_width d))
  else if (ch =? 48) && (d_width d =? 0) then Some (Dir (d_size d) (d_alt d) (d_left d) 48 (d_width d))
  else let w := d_width d * 10 + (ch - 48) in if w <? 2 ^ 31 then Some (Dir (d_size d) (d_alt d) (d_left d) (d_fill d) w) else None.

(** Text in its field: [pre] stays in front of zeros. *)
Definition pad (d : dir) (pre stuff : list Z) : list Z :=
  let spc := replicate (Z.to_nat (d_width d - Z.of_nat (length pre + length stuff))) (d_fill d) in
  if d_left d then pre ++ stuff ++ spc else if d_fill d =? 48 then pre ++ spc ++ stuff else spc ++ pre ++ stuff.

Definition int_value (d : dir) (t : Z) (a : arg) : option Z :=
  match a with
  | AWord z => if t =? 112 then Some (u32 z) else match d_size d with LLONGSZ => None | _ => Some (if t =? 100 then s32 z else u32 z) end
  | ALong z => if t =? 112 then None else match d_size d with LLONGSZ => Some (if t =? 100 then s64 z else u64 z) | _ => None end
  | AStr _ => None
  end.

Definition int_base (t : Z) : Z := if (t =? 100) || (t =? 117) then 10 else if (t =? 120) || (t =? 112) then 16 else 8.
Definition int_prefix (d : dir) (t v : Z) : list Z :=
  (if v <? 0 then [45] else []) ++ if d_alt d || (t =? 112) then (if int_base t =? 16 then [48; 120] else if int_base t =? 8 then [48] else []) else [].

(** The text of a directive of type [t], and the arguments left. *)
Definition field (d : dir) (t : Z) (args : list arg) : option (list Z * list arg) :=
  if is_inttype t then
    match args with
    | a :: args => v ← int_value d t a; Some (pad d (int_prefix d t v) (number (int_base t) (Z.abs v)), args)
    | [] => None
    end
  else if t =? 115 then match args with AStr s :: args => Some (pad d [] (default null_text s), args) | _ => None end
  else if t =? 99 then match args with AWord z :: args => Some (pad d [] (if u8 z =? 0 then [] else [u8 z]), args) | _ => None end
  else Some (pad d [] [t], args).

Fixpoint render (st : option dir) (fmt : list Z) (args : list arg) : option (list Z) :=
  match fmt with
  | [] => Some []
  | c :: fmt =>
      match st with
      | None => if c =? 37 then render (Some dir0) fmt args else cons c <$> render None fmt args
      | Some d =>
          if is_modifier c then d ← mod_step d c; render (Some d) fmt args
          else '(txt, args) ← field d c args; app txt <$> render None fmt args
      end
  end.

(** ** The state machine *)

Section spec.
Context {C : Type}.
Variable send : C -> list Z -> C.
Hypothesis send_nil : forall c, send c [] = c.
Hypothesis send_app : forall c l1 l2, send (send c l1) l2 = send c (l1 ++ l2).
Implicit Types pf : PF C.

(** [pf] after [txt] was sent. *)
Definition sent (txt : list Z) pf : PF C := set_out (send (clientdata pf) txt) (s32 (charcount pf + Z.of_nat (length txt))) pf.

Lemma s32_add a b : s32 (s32 a + b) = s32 (a + b).
Proof. unfold s32. rewrite <- !Z.add_assoc. f_equal. rewrite (Z.add_comm (-(2 ^ 31))) || idtac. replace ((a + 2 ^ 31) mod 2 ^ 32 - 2 ^ 31 + (b + 2 ^ 31)) with ((a + 2 ^ 31) mod 2 ^ 32 + b) by lia. rewrite Z.add_mod_idemp_l by lia. f_equal. lia. Qed.

Lemma sent_app l1 l2 pf : sent l2 (sent l1 pf) = sent (l1 ++ l2) pf.
Proof. unfold sent. cbn. rewrite s32_add, send_app, length_app. unfold set_out. cbn. do 2 f_equal. lia. Qed.

Lemma wp_pf_print txt pf (Q : unit -> PF C -> Prop) : Q tt (sent txt pf) -> wp (__pf_print send txt) Q pf.
Proof. done. Qed.

Lemma wp_pf_fill spc pf (Q : unit -> PF C -> Prop) : fillchar pf = 32 \/ fillchar pf = 48 -> Q tt (if 0 <? spc then sent (replicate (Z.to_nat spc) (fillchar pf)) pf else pf) -> wp (__pf_fill send spc) Q pf.
Proof.
  intros Hf HQ. unfold __pf_fill. wp_steps. assert (u8 (fillchar pf) = fillchar pf) as -> by (destruct Hf as [-> | ->]; done). apply (wp_for _ _ _ (fun i pf' => pf' = if 0 <? i then sent (replicate (Z.to_nat i) (fillchar pf)) pf else pf)).
  - done.
  - intros i pf' Hi ->. wp_steps. apply wp_pf_print. wp_steps. replace (0 <? i + 1) with true by lia. replace (Z.to_nat (i + 1)) with (Z.to_nat i + 1)%nat by lia. rewrite replicate_add. destruct (0 <? i) eqn:E; boolify; [by rewrite sent_app|]. by replace (Z.to_nat i) with 0%nat by lia.
  - intros pf' ->. wp_steps. replace (0 + Z.of_nat (Z.to_nat spc)) with (Z.max 0 spc) by lia. destruct (0 <? spc) eqn:E; boolify.
    + replace (Z.max 0 spc) with spc by lia. by replace (0 <? spc) with true by lia.
    + by replace (0 <? Z.max 0 spc) with false by lia.
Qed.

(** The directive that the fields of [pf] hold. *)
Definition dir_of pf : dir := Dir (pf_size pf) (altformat pf) (rightspc pf) (fillchar pf) (spacing pf).

Lemma wp_pf_printstuff pre pre2 stuff pf (Q : unit -> PF C -> Prop) : fillchar pf = 32 \/ fillchar pf = 48 ->
  Q tt (sent (pad (dir_of pf) (pre ++ pre2) stuff) pf) -> wp (__pf_printstuff send pre pre2 stuff) Q pf.
Proof.
  intros Hf HQ. unfold __pf_printstuff. set (len := Z.of_nat (length pre) + Z.of_nat (length pre2) + Z.of_nat (length stuff)). wp_steps. set (spc := if len <? spacing pf then spacing pf - len else 0).
  unfold pad in HQ. cbn [dir_of d_width d_fill d_left] in HQ. rewrite length_app in HQ. replace (Z.to_nat (spacing pf - Z.of_nat (length pre + length pre2 + length stuff))) with (Z.to_nat spc) in HQ by (unfold spc, len; destruct (_ <? _) eqn:E; boolify; lia). assert (0 <= spc) as Hspc by (unfold spc; destruct (_ <? _) eqn:E; boolify; lia). clearbody spc. clear len.
  destruct (0 <? spc) eqn:E; cbn [andb].
  - destruct (rightspc pf), (fillchar pf =? 48) eqn:E48; cbn [negb andb]; repeat lazymatch goal with |- wp (__pf_print _ _) _ _ => apply wp_pf_print | |- wp (__pf_fill _ _) _ _ => apply wp_pf_fill; [done|]; rewrite E | _ => wp_step end.
    all: rewrite !sent_app; rewrite <- ?app_assoc; rewrite <- ?app_assoc in HQ; exact HQ.
  - replace (Z.to_nat spc) with 0%nat in HQ by lia. repeat lazymatch goal with |- wp (__pf_print _ _) _ _ => apply wp_pf_print | _ => wp_step end. rewrite !sent_app. rewrite <- ?app_assoc. rewrite <- ?app_assoc in HQ. cbn [replicate app] in HQ. rewrite ?app_nil_r in HQ. by destruct (rightspc pf), (fillchar pf =? 48).
Qed.

Lemma drop_take_insert (buf : list Z) x n d : (x < n)%nat -> (n <= length buf)%nat -> drop x (take n (<[x := d]> buf)) = d :: drop (S x) (take n buf).
Proof.
  intros Hx Hn. rewrite (drop_S _ d).
  - f_equal. apply list_eq. intros i. rewrite !lookup_drop. destruct (decide (S x + i < n)%nat); [rewrite !lookup_take_lt by lia; by rewrite list_lookup_insert_ne by lia|]. by rewrite !lookup_take_ge by lia.
  - rewrite lookup_take_lt by lia. apply list_lookup_insert_eq. lia.
Qed.

Lemma hexdigit d : 0 <= d < 16 -> hexdigits !! Z.to_nat d = Some (digit d).
Proof. intros Hd. unfold digit. destruct (lookup_lt_is_Some_2 hexdigits (Z.to_nat d)) as [c Hc]; [simpl; lia|]. by rewrite Hc. Qed.

Lemma wp_pf_printnum junk pf (Q : unit -> PF C -> Prop) : length junk = 23%nat -> fillchar pf = 32 \/ fillchar pf = 48 -> 8 <= base pf <= 16 -> 0 <= num pf < 2 ^ 64 ->
  Q tt (sent (pad (dir_of pf) ((if negb (sign pf =? 0) then [45] else []) ++ (if baseprefix pf && (base pf =? 16) then [48; 120] else if baseprefix pf && (base pf =? 8) then [48] else [])) (number (base pf) (num pf))) pf) ->
  wp (__pf_printnum send junk) Q pf.
Proof.
  intros Hj Hf Hb Hn HQ. unfold __pf_printnum. set (b := base pf) in *. set (n := num pf) in *. wp_steps. unfold buf_put at 1. change (NUMBER_BUF_SIZE - 1) with 22. change NUMBER_BUF_SIZE with 23. cbn [Z.leb Z.compare Z.ltb andb Pos.compare Pos.compare_cont]. wp_steps.
  fold b n. apply (wp_loop _ _ _ (fun l pf' => let '(buf, x, xnum) := l in pf' = pf /\ length buf = 23%nat /\ 0 <= xnum < 2 ^ 64 /\ x < 22 /\ number b n = number b xnum ++ drop (Z.to_nat (x + 1)) (take 22 buf) /\ Z.of_nat (length (number b xnum)) <= x + 1) (fun l _ => let '(_, _, xnum) := l in length (number b xnum))).
  - rewrite length_insert. pose proof (number_length b n ltac:(lia) Hn). split_and!; try done; try lia. rewrite drop_ge; [by rewrite app_nil_r|]. rewrite length_take. lia.
  - pose proof (number_length b n ltac:(lia) Hn). lia.
  - intros [[buf x] xnum] pf' (-> & Hlb & Hx & Hx22 & En & Hlen). pose proof (number_length b xnum ltac:(lia) Hx) as Hnl. pose proof (Z.mod_pos_bound xnum b ltac:(lia)) as Hm. pose proof (number_step b xnum ltac:(lia) Hx) as Hx'. wp_steps. replace (b =? 0) with false by lia. eapply wp_deref; [apply hexdigit; lia|]. wp_steps. unfold buf_put. change NUMBER_BUF_SIZE with 23. replace (0 <=? x) with true by lia. replace (x <? 23) with true by lia. cbn [andb]. wp_steps.
    assert (Ed : drop (Z.to_nat x) (take 22 (<[Z.to_nat x:=digit (xnum mod b)]> buf)) = digit (xnum mod b) :: drop (Z.to_nat (x + 1)) (take 22 buf)) by (rewrite drop_take_insert by lia; do 2 f_equal; lia).
    rewrite (number_eq b xnum) in En, Hlen by lia. rewrite (number_eq b xnum) by lia. destruct (0 <? xnum / b) eqn:Ex; boolify; wp_steps.
    + assert (b <= xnum) by (destruct (decide (xnum < b)); [rewrite Z.div_small in Ex by lia; lia|lia]). replace (xnum <? b) with false in * by lia. rewrite length_app in Hlen. simpl in Hlen. rewrite length_insert, length_app. split_and!; try done; try lia; [|simpl; lia]. replace (x - 1 + 1) with x by lia. rewrite Ed, En, <- app_assoc. done.
    + assert (xnum < b) by (destruct (decide (xnum < b)); [done|]; pose proof (Z.div_str_pos xnum b); lia). replace (xnum <? b) with true in * by lia. replace (x - 1 + 1) with x by lia. change (Z.to_nat 22) with 22%nat. apply wp_pf_printstuff; [done|]. rewrite Ed. rewrite Z.mod_small by lia. change (digit xnum :: drop (Z.to_nat (x + 1)) (take 22 buf)) with ([digit xnum] ++ drop (Z.to_nat (x + 1)) (take 22 buf)). rewrite <- En. exact HQ.
Qed.

(** ** Characters of the format *)

(** The state between characters: outside a directive, or in one with the
    modifiers [d]. *)
Definition pf_at (c : C) (args : list arg) (n : Z) (st : option dir) : PF C :=
  match st with
  | None => Pf c args n false INTSZ 0 0 0 false 32 0 false false
  | Some d => Pf c args n true (d_size d) 0 0 (d_width d) (d_left d) (d_fill d) 0 false (d_alt d)
  end.

Definition dir_ok (d : dir) : Prop := (d_fill d = 32 \/ d_fill d = 48) /\ 0 <= d_width d < 2 ^ 31.

Lemma is_modifier_cases ch : is_modifier ch = true -> ch = 35 \/ ch = 45 \/ ch = 108 \/ ch = 122 \/ 48 <= ch <= 57.
Proof. unfold is_modifier. rewrite bool_decide_eq_true, !elem_of_cons, elem_of_nil. lia. Qed.

Lemma is_inttype_cases t : is_inttype t = true -> t = 100 \/ t = 111 \/ t = 117 \/ t = 112 \/ t = 120.
Proof. unfold is_inttype. rewrite bool_decide_eq_true, !elem_of_cons, elem_of_nil. lia. Qed.

Lemma wp_modifier ch c args n d d' (Q : unit -> PF C -> Prop) : is_modifier ch = true -> dir_ok d -> mod_step d ch = Some d' -> (dir_ok d' -> Q tt (pf_at c args n (Some d'))) -> wp (__pf_modifier ch) Q (pf_at c args n (Some d)).
Proof.
  intros Hm [Hf Hw] Hd HQ. unfold __pf_modifier, mod_step in *. wp_steps. cbn [pf_at spacing pf_size].
  destruct (ch =? 35) eqn:E1; [injection Hd as <-; wp_steps; by apply HQ|]. destruct (ch =? 45) eqn:E2; [injection Hd as <-; wp_steps; by apply HQ|]. destruct (ch =? 108) eqn:E3; [injection Hd as <-; wp_steps; by apply HQ|]. destruct (ch =? 122) eqn:E4; [injection Hd as <-; wp_steps; by apply HQ|].
  apply is_modifier_cases in Hm. boolify. assert (48 <= ch <= 57) as Hdig by lia. destruct (ch =? 48) eqn:E5; cbn [andb] in Hd.
  - boolify. subst ch. destruct (0 <? d_width d) eqn:E6; boolify; wp_steps.
    + replace (d_width d =? 0) with false in Hd by lia. destruct (_ <? _) eqn:E7 in Hd; [|done]. injection Hd as <-. boolify. rewrite s32_id by lia. replace (d_width d * 10 + (48 - 48)) with (d_width d * 10) in * by lia. apply HQ. split; [done|simpl; lia].
    + replace (d_width d =? 0) with true in Hd by lia. injection Hd as <-. apply HQ. split; [by right|done].
  - boolify. destruct (_ <? _) eqn:E7 in Hd; [|done]. injection Hd as <-. boolify. wp_steps. apply wp_kassert; [lia|]. wp_steps. rewrite s32_id by lia. apply HQ. split; [done|simpl; lia].
Qed.

Lemma wp_int junk t a c args n d v (Q : unit -> PF C -> Prop) : length junk = 23%nat -> is_inttype t = true -> dir_ok d -> int_value d t a = Some v ->
  (let txt := pad d (int_prefix d t v) (number (int_base t) (Z.abs v)) in Q tt (pf_at (send c txt) args (s32 (n + Z.of_nat (length txt))) None)) ->
  wp (__pf_getnum t ;;; __pf_setbase t ;;; __pf_printnum send junk ;;; __pf_endfield) Q (pf_at c (a :: args) n (Some d)).
Proof.
  intros Hj Ht [Hf Hw] Hv HQ. pose proof (is_inttype_cases t Ht) as Hc.
  assert (- 2 ^ 63 <= v < 2 ^ 64 /\ (t <> 100 -> 0 <= v)) as [Hvr Hv0].
  { unfold int_value in Hv. destruct a as [z|z|]; [|destruct (t =? 112); [done|]|done]. all: pose proof (u32_range z); pose proof (s32_range z); assert (0 <= u64 z < 2 ^ 64) by (apply Z.mod_pos_bound; lia); assert (- 2 ^ 63 <= s64 z < 2 ^ 63) by (unfold s64; pose proof (Z.mod_pos_bound (z + 2 ^ 63) (2 ^ 64)); lia).
    all: destruct (t =? 112) eqn:E1; destruct (t =? 100) eqn:E2; destruct (d_size d); simplify_eq; boolify; lia. }
  assert (Hget : forall Q' : unit -> PF C -> Prop, Q' tt (set_num (Z.abs v) (if v <? 0 then -1 else 0) (pf_at c args n (Some d))) -> wp (__pf_getnum t) Q' (pf_at c (a :: args) n (Some d))).
  { clear HQ. intros Q' HQ'. unfold __pf_getnum, va_word, va_long, va_arg, int_value in *. wp_steps. destruct d as [dsz alt lf fl w]. cbn [pf_at sign pf_size ap d_size] in *. destruct (t =? 112) eqn:E1.
    - destruct a as [z|z|]; [|done|done]. injection Hv as <-. boolify. subst t. specialize (Hv0 ltac:(lia)). wp_steps. cbn [ap]. wp_steps. replace (u32 z <? 0) with false in HQ' by lia. rewrite Z.abs_eq in HQ' by lia. exact HQ'.
    - destruct (t =? 100) eqn:E2.
      + assert (Habs : u64 (if v <? 0 then - v else v) = Z.abs v) by (destruct (v <? 0) eqn:E; boolify; rewrite u64_id; lia).
        destruct a as [z|z|]; destruct dsz; simplify_eq; wp_steps; cbn [ap]; wp_steps.
        all: destruct (_ <? 0) eqn:E; wp_steps; rewrite Habs; exact HQ'.
      + boolify. specialize (Hv0 E2). replace (v <? 0) with false in HQ' by lia. rewrite Z.abs_eq in HQ' by lia. destruct a as [z|z|]; destruct dsz; simplify_eq; wp_steps; cbn [ap]; wp_steps; exact HQ'. }
  wp_steps. apply Hget. wp_steps. unfold __pf_setbase. wp_steps. cbn [set_num pf_at altformat baseprefix base].
  assert (Hbase : (if (t =? 100) || (t =? 117) then 10 else if (t =? 120) || (t =? 112) then 16 else if t =? 111 then 8 else 0)%bool = int_base t) by (unfold int_base; repeat (destruct Hc as [->|Hc]; [done|]); by subst).
  rewrite Hbase. wp_steps. apply wp_pf_printnum; cbn [fillchar base num set_base set_num pf_at]; [done|done|unfold int_base; repeat case_match; lia|lia|]. unfold __pf_endfield. wp_steps. cbn zeta in HQ.
  replace (dir_of _) with d by (by destruct d). cbn [sign baseprefix base num set_base set_num]. unfold int_prefix in HQ. replace (negb ((if v <? 0 then -1 else 0) =? 0)) with (v <? 0) by (by destruct (v <? 0)). rewrite orb_false_r.
  replace (if (d_alt d || (t =? 112)) && (int_base t =? 16) then [48; 120] else if (d_alt d || (t =? 112)) && (int_base t =? 8) then [48] else []) with (if d_alt d || (t =? 112) then if int_base t =? 16 then [48; 120] else if int_base t =? 8 then [48] else [] else []) by (by destruct (d_alt d || (t =? 112))).
  exact HQ.
Qed.

Lemma wp_text junk ch c args args' n d txt (Q : unit -> PF C -> Prop) : length junk = 23%nat -> ch <> 0 -> is_modifier ch = false -> dir_ok d -> field d ch args = Some (txt, args') ->
  Q tt (pf_at (send c txt) args' (s32 (n + Z.of_nat (length txt))) None) -> wp (__pf_send send junk ch) Q (pf_at c args n (Some d)).
Proof.
  intros Hj Hnz Hm Hd Hfd HQ. unfold __pf_send. wp_steps. apply wp_kassert; [lia|]. wp_steps. cbn [pf_at in_pct negb andb]. rewrite Hm. unfold field in Hfd.
  assert (Hend : forall stuff args0, Q tt (pf_at (send c (pad d [] stuff)) args0 (s32 (n + Z.of_nat (length (pad d [] stuff)))) None) -> wp (__pf_printstuff send [] [] stuff) (fun _ s => wp __pf_endfield Q s) (pf_at c args0 n (Some d))).
  { intros stuff args0 HQ'. apply wp_pf_printstuff; [apply Hd|]. unfold __pf_endfield. wp_steps. replace (dir_of _) with d by (by destruct d). exact HQ'. }
  destruct (is_inttype ch) eqn:Et.
  - destruct args as [|a args0]; [done|]. destruct (int_value d ch a) as [v|] eqn:Ev; [|done]. cbv [mbind option_bind] in Hfd. injection Hfd as <- <-. by apply (wp_int junk ch a c args0 n d v).
  - destruct (ch =? 115) eqn:E1.
    + destruct args as [|[| |str] args0]; try done. injection Hfd as <- <-. unfold va_str, va_arg. wp_steps. cbn [pf_at ap]. apply wp_bind. apply wp_modify. wp_steps. by apply (Hend (default null_text str) args0).
    + destruct (ch =? 99) eqn:E2.
      * destruct args as [|[z| |] args0]; try done. injection Hfd as <- <-. unfold va_word, va_arg. wp_steps. cbn [pf_at ap]. apply wp_bind. apply wp_modify. wp_steps. by apply (Hend (if u8 z =? 0 then [] else [u8 z]) args0).
      * injection Hfd as <- <-. wp_steps. replace (ch =? 0) with false by lia. by apply (Hend [ch] args).
Qed.

Lemma wp_send_all junk fmt : forall st c args n txt (Q : unit -> PF C -> Prop), length junk = 23%nat -> Forall (fun ch => ch <> 0) fmt -> (forall d, st = Some d -> dir_ok d) -> render st fmt args = Some txt ->
  (forall args' st', Q tt (pf_at (send c txt) args' (s32 (n + Z.of_nat (length txt))) st')) -> - 2 ^ 31 <= n < 2 ^ 31 -> wp (send_all send junk fmt) Q (pf_at c args n st).
Proof.
  induction fmt as [|ch fmt IH]; intros st c args n txt Q Hj Hnz Hst Hr HQ Hn; cbn [send_all render] in *.
  - injection Hr as <-. wp_steps. specialize (HQ args st). simpl in HQ. by rewrite send_nil, Z.add_0_r, s32_id in HQ by lia.
  - apply Forall_cons in Hnz as [Hch Hnz]. wp_step. assert (Hgo : forall txt1 txt2 args1, txt = txt1 ++ txt2 -> render None fmt args1 = Some txt2 -> wp (send_all send junk fmt) Q (pf_at (send c txt1) args1 (s32 (n + Z.of_nat (length txt1))) None)).
    { intros txt1 txt2 args1 -> Hr1. eapply IH; [done|done|done|exact Hr1| |apply s32_range]. intros args' st'. rewrite send_app, s32_add. replace (n + Z.of_nat (length txt1) + Z.of_nat (length txt2)) with (n + Z.of_nat (length (txt1 ++ txt2))) by (rewrite length_app; lia). apply HQ. }
    destruct st as [d|].
    + specialize (Hst d eq_refl). destruct (is_modifier ch) eqn:Em.
      * destruct (mod_step d ch) as [d'|] eqn:Ed; [|done]. cbn in Hr. unfold __pf_send. wp_steps. apply wp_kassert; [lia|]. wp_steps. cbn [pf_at in_pct negb andb]. rewrite Em. apply (wp_modifier ch c args n d d'); [done..|]. intros Hd'. eapply IH; [done|done|by intros ? [= <-]|exact Hr|done|done].
      * destruct (field d ch args) as [[txt1 args1]|] eqn:Ef; [|done]. cbn in Hr. apply fmap_Some in Hr as (txt2 & Hr & ->). eapply wp_text; [done..|exact Ef|]. by eapply Hgo.
    + unfold __pf_send. wp_steps. apply wp_kassert; [lia|]. wp_steps. cbn [pf_at in_pct negb andb]. destruct (ch =? 37) eqn:E; cbn [negb].
      * wp_steps. change (set_in_pct true _) with (pf_at c args n (Some dir0)). eapply IH; [done|done| |exact Hr|done|done]. intros d [= <-]. split; [by left|done].
      * apply fmap_Some in Hr as (txt2 & Hr & ->). apply wp_pf_print. by eapply (Hgo [ch]).
Qed.

Lemma vprintf_sends junk c fmt args txt : length junk = 23%nat -> Forall (fun ch => ch <> 0) fmt -> render None fmt args = Some txt -> Z.of_nat (length txt) < 2 ^ 31 ->
  __vprintf send junk c fmt args = Done (send c txt, Z.of_nat (length txt)) tt.
Proof.
  intros Hj Hnz Hr Hl. unfold __vprintf. assert (wp (send_all send junk fmt) (fun _ pf => clientdata pf = send c txt /\ charcount pf = Z.of_nat (length txt)) (pf_at c args 0 None)) as (r & pf & E & E1 & E2)%wp_done.
  { apply (wp_send_all junk fmt None c args 0 txt); [done|done|done|done| |lia]. intros args' st'. rewrite s32_id by lia. by destruct st'. }
  cbn [pf_at] in E. by rewrite E, E1, E2.
Qed.
End spec.

(** ** snprintf *)

Lemma snp_send_app snp l1 l2 : __snprintf_send (__snprintf_send snp l1) l2 = __snprintf_send snp (l1 ++ l2).
Proof. unfold __snprintf_send. by rewrite foldl_app. Qed.

(** What lands in the buffer: as much as fits. *)
Lemma snp_send_buf txt : forall buf bl pos, 0 <= pos <= bl -> bl <= Z.of_nat (length buf) ->
  __snprintf_send (Snp (Some buf) bl pos) txt =
  let k := Z.to_nat (Z.min (Z.of_nat (length txt)) (bl - pos)) in
  Snp (Some (take (Z.to_nat pos) buf ++ take k txt ++ drop (Z.to_nat pos + k) buf)) bl (pos + Z.of_nat k).
Proof.
  induction txt as [|c txt IH]; intros buf bl pos Hp Hb; cbn zeta.
  - cbn [length]. replace (Z.to_nat (Z.min (Z.of_nat 0) (bl - pos))) with 0%nat by lia. rewrite Nat.add_0_r. cbn [take app]. rewrite take_drop. unfold __snprintf_send. simpl. f_equal. lia.
  - unfold __snprintf_send. cbn [foldl bufpos buflen snp_buf]. destruct (pos <? bl) eqn:E; boolify.
    + unfold buf_store. cbv [mbind option_bind]. replace (0 <=? pos) with true by lia. replace (pos <? Z.of_nat (length buf)) with true by lia. cbn [andb]. fold (__snprintf_send (Snp (Some (<[Z.to_nat pos:=c]> buf)) bl (pos + 1)) txt). rewrite IH by (rewrite ?length_insert; lia). cbn zeta.
      set (k := Z.to_nat (Z.min (Z.of_nat (length txt)) (bl - (pos + 1)))). assert (Z.to_nat (Z.min (Z.of_nat (length (c :: txt))) (bl - pos)) = S k) as -> by (simpl length; lia). f_equal; [|lia]. f_equal. replace (Z.to_nat (pos + 1)) with (S (Z.to_nat pos)) by lia.
      rewrite (take_S_r _ _ c) by (apply list_lookup_insert_eq; lia). rewrite take_insert_ge, drop_insert_lt by lia. rewrite <- app_assoc. simpl. do 3 f_equal. f_equal. lia.
    + fold (__snprintf_send (Snp (Some buf) bl pos) txt). rewrite IH by lia. cbn zeta. replace (Z.to_nat (Z.min (Z.of_nat (length txt)) (bl - pos))) with 0%nat by lia. by replace (Z.to_nat (Z.min (Z.of_nat (length (c :: txt))) (bl - pos))) with 0%nat by lia.
Qed.
