(* ===== verification/LibProps.v ===== *)
(** * The C library: properties

    Blocks, strings, the command line of the menu, formatted output. *)

From S2P Require Import Prelude CString CStringSpec Menu Printf PrintfSpec.

(** ** Strings *)

(** [memmove] copies the old contents of the source to the destination
    however the two overlap, and writes nothing else. *)
Theorem memmove_correct (m : mem) (dst src : Z) (l : list Z) :
  bytes_at m src l -> mapped m dst (Z.of_nat (length l)) ->
  exists m', memmove dst src (Z.of_nat (length l)) m = Done dst m' /\ bytes_at m' dst l /\
    (forall a, a < dst \/ dst + Z.of_nat (length l) <= a -> m' !! a = m !! a).
Proof.
  intros Hb Hm. assert (wp (memmove dst src (Z.of_nat (length l))) (fun r m' => r = dst /\ m' = wr m dst l) m) as (r & m' & E & -> & ->)%wp_done by (by apply wp_memmove).
  exists (wr m dst l). split; [done|]. split; [apply wr_bytes_at|]. intros a Ha. by apply wr_out.
Qed.

(** Bytes 1 to 5 at address 100; the block moves up by one. *)
Definition ex_block : mem := wr ∅ 100 [1; 2; 3; 4; 5; 6].

Lemma memmove_correct_witness : exists m', memmove 101 100 5 ex_block = Done 101 m' /\ bytes_at m' 101 [1; 2; 3; 4; 5] /\ (forall a, a < 101 \/ 101 + 5 <= a -> m' !! a = ex_block !! a).
Proof.
  apply (memmove_correct ex_block 101 100 [1; 2; 3; 4; 5]).
  - pose proof (wr_bytes_at ∅ 100 ([1; 2; 3; 4; 5] ++ [6])) as Hb. by apply bytes_at_app in Hb as [? _].
  - intros i Hi. simpl in Hi. unfold ex_block. rewrite wr_lookup. rewrite decide_True by (simpl; lia). apply lookup_lt_is_Some_2. simpl. lia.
Defined.

Lemma lex_eq k l : lex k l = 0 <-> k = l.
Proof.
  revert l. induction k as [|x k IH]; intros [|y l]; cbn [lex]; [done|split; [lia|done]|split; [lia|done]|]. destruct (x =? y) eqn:E; boolify; [subst; rewrite IH; split; [by intros ->|by intros [= ->]]|].
  split; [destruct (y <? x); lia|intros [= -> _]; lia].
Qed.

Lemma find_char_first p ch k : find_char p ch k = NULL /\ ch ∉ k ++ [0] \/ exists i, find_char p ch k = p + Z.of_nat i /\ (k ++ [0]) !! i = Some ch /\ ch ∉ take i (k ++ [0]).
Proof.
  unfold find_char. destruct (list_find _ (k ++ [0])) as [[i c]|] eqn:E.
  - right. apply list_find_Some in E as (Hi & -> & Hb). exists i. split_and!; [done|done|]. intros (j & Hj)%list_elem_of_lookup. apply lookup_take_Some in Hj as [Hj Hlt]. by apply (Hb j ch Hj).
  - left. split; [done|]. apply list_find_None in E. rewrite Forall_forall in E. intros Hin. by apply (E ch Hin).
Qed.

(** C33: the string functions on strings: [strlen] counts the characters
    before the terminator; [strcmp] compares in the order of a dictionary, and
    gives 0 for equal strings only; [strchr] and [strrchr] find the first and
    the last place of a character, the terminator included, or give a null
    pointer; [atoi] gives the number the string starts with, at the width of an
    [int]; none of them writes.  [strcpy] and [strcat] write
    the string, or both strings, with a terminator at the destination and
    nothing else, if there is room and the strings do not overlap. *)
Theorem string_functions_correct (m : mem) (p q ch : Z) (k l : list Z) :
  cstr m p k -> cstr m q l -> chars k -> chars l ->
  strlen p m = Done (Z.of_nat (length k)) m /\
  (strcmp p q m = Done (lex k l) m /\ (lex k l = 0 <-> k = l)) /\
  (exists r, strchr p ch m = Done r m /\ (r = NULL /\ (u8 ch ∉ k ++ [0]) \/ exists i, r = p + Z.of_nat i /\ (k ++ [0]) !! i = Some (u8 ch) /\ u8 ch ∉ take i (k ++ [0]))) /\
  (exists r, strrchr p ch m = Done r m /\ (r = NULL /\ (u8 ch ∉ k ++ [0]) \/ exists i, r = p + Z.of_nat i /\ (k ++ [0]) !! i = Some (u8 ch) /\ u8 ch ∉ drop (S i) (k ++ [0]))) /\
  atoi p m = Done (s32 (atoi_value k)) m /\
  (forall d, let n := Z.of_nat (length k) + 1 in mapped m d n -> apart d n p n -> strcpy d p m = Done d (wr m d (k ++ [0]))) /\
  (let n := Z.of_nat (length l) + Z.of_nat (length k) + 1 in mapped m q n -> apart q n p (Z.of_nat (length k) + 1) -> strcat q p m = Done q (wr m q (l ++ k ++ [0]))).
Proof.
  assert (forall {A} (f : MM A) a m', wp f (fun r m'' => r = a /\ m'' = m') m -> f m = Done a m') as Hd by (intros A f a m' (r & m'' & E & -> & ->)%wp_done; exact E).
  intros Hk Hl Ck Cl. split_and!.
  - apply Hd. by eapply wp_strlen.
  - apply Hd. by eapply wp_strcmp.
  - apply lex_eq.
  - exists (find_char p (u8 ch) k). split; [apply Hd; by eapply wp_strchr|apply find_char_first].
  - assert (wp (strrchr p ch) (fun r m' => m' = m /\ (r = NULL /\ (u8 ch ∉ k ++ [0]) \/ exists i, r = p + Z.of_nat i /\ (k ++ [0]) !! i = Some (u8 ch) /\ u8 ch ∉ drop (S i) (k ++ [0]))) m) as (r & m' & E & -> & Hr)%wp_done by (by eapply wp_strrchr). by exists r.
  - apply Hd. by eapply wp_atoi.
  - intros d n Hm Ha. apply Hd. by eapply wp_strcpy.
  - intros n Hm Ha. apply Hd. by eapply wp_strcat.
Qed.

(** ** The menu *)

Definition blanks : list Z := [32; 9].

(** C30: a command of the kernel menu is cut into the words between blanks
    and tabs; the first table entry named like the first word is called with
    exactly these words, and an empty command, too many words and an unknown
    command are reported. *)
Theorem cmd_dispatch_correct (func : nat -> list Z -> MM Z) (names : list Z) (ns : list (list Z)) (seps cmd : Z) (l : list Z) (m : mem) :
  let ws := words blanks l in
  0 < cmd -> 0 < seps -> cstr m cmd l -> chars l -> cstr m seps blanks -> (seps + 2 < cmd \/ cmd + Z.of_nat (length l) < seps) ->
  Forall2 (cstr m) names ns -> Forall chars ns -> Forall2 (fun a n => a + Z.of_nat (length n) < cmd \/ cmd + Z.of_nat (length l) < a) names ns ->
  exists args m', (forall a, a < cmd \/ cmd + Z.of_nat (length l) < a -> m' !! a = m !! a) /\ ((length ws <= 16)%nat -> Forall2 (cstr m') args ws) /\
    cmd_dispatch func names seps cmd m =
      if decide (16 < length ws)%nat then Done E2BIG m' else
      match ws with
      | [] => Done 0 m'
      | w :: _ => match list_find (fun n => n = w) ns with Some (i, _) => func i args m' | None => Done EINVAL m' end
      end.
Proof.
  intros ws Hc Hs Hl Hch Hq Hap Hn Hcn Hno. set (hi := cmd + Z.of_nat (length l)).
  assert (wp (split_words seps cmd) (fun r m' => same_outside cmd hi m m' /\ match r with inl e => e = E2BIG /\ (16 < length ws)%nat | inr args => (length ws <= 16)%nat /\ Forall2 (fun a w => cstr m' a w /\ cmd <= a /\ a + Z.of_nat (length w) <= hi /\ chars w) args ws end) m) as (r & m' & E & Hsame & Hr)%wp_done.
  { by apply (wp_split_words cmd l seps blanks). }
  assert (Forall2 (cstr m') names ns) as Hn'. { apply Forall2_same_length_lookup_2; [by apply Forall2_length in Hn|]. intros i a n Ha Hni. pose proof (Forall2_lookup_lr _ _ _ _ _ _ Hn Ha Hni) as Hcs. pose proof (Forall2_lookup_lr _ _ _ _ _ _ Hno Ha Hni) as Hout. apply (cstr_ext m); [|exact Hcs]. intros b Hb. apply Hsame. unfold hi. destruct Hout; lia. }
  destruct r as [e|args].
  - destruct Hr as [-> Hbig]. exists [], m'. split_and!; [done|lia|]. rewrite decide_True by done. unfold cmd_dispatch, bind at 1. by rewrite E.
  - destruct Hr as [Hle Hargs]. exists args, m'. split_and!; [done|intros _; eapply Forall2_impl; [exact Hargs|]; by intros ? ? [? _]|]. rewrite decide_False by lia. unfold cmd_dispatch, bind at 1. rewrite E. destruct args as [|arg0 args]; [by apply Forall2_nil_inv_l in Hargs as ->|].
    destruct ws as [|w ws'] eqn:Ew; [by apply Forall2_nil_inv_r in Hargs|]. pose proof (Forall2_cons_1 _ _ _ _ _ Hargs) as [(Hw & _ & _ & Hcw) _]. assert (w <> []) as Hwne. { assert (w ∈ ws) as Hin by (rewrite Ew; left). unfold ws, words in Hin. by apply list_elem_of_filter in Hin as [? _]. }
    cbv beta iota. unfold bind at 1.
    rewrite (find_command func names ns w arg0 (arg0 :: args) 0 m' Hn' Hcn Hw Hcw Hwne names); [|done|lia]. destruct (list_find (fun n => n = w) ns) as [[i n]|]; [|done]. unfold bind, ret. change (Z.to_nat 0 + i)%nat with i.
    by destruct (func i (arg0 :: args) m').
Qed.

(** " \t" at 10, a command table with "kh" at 20, a line at 30. *)
Definition ex_line : list Z := [32; 107; 104; 9; 120].
Definition ex_menu : mem := wr (wr (wr ∅ 10 (blanks ++ [0])) 20 [107; 104; 0]) 30 (ex_line ++ [0]).

Lemma cstr_check m p l : Forall (fun c => c <> 0) l -> Forall2 (fun a c => m !! a = Some c) ((fun i => p + i) <$> seqZ 0 (Z.of_nat (length l) + 1)) (l ++ [0]) -> cstr m p l.
Proof.
  intros Hn Hb. split; [|intros Hz; rewrite Forall_forall in Hn; by apply (Hn 0 Hz)]. intros i c Hi. pose proof (lookup_lt_Some _ _ _ Hi) as Hlt. rewrite length_app in Hlt. simpl in Hlt.
  apply (Forall2_lookup_lr _ _ _ i (p + Z.of_nat i) c Hb); [|exact Hi]. rewrite list_lookup_fmap, lookup_seqZ_lt by lia. simpl. f_equal.
Qed.

(** "-12" at 40, "x" with room behind it at 50, ten bytes at 60. *)
Definition ex_strings : mem := wr (wr (wr ∅ 40 [45; 49; 50; 0]) 50 (120 :: replicate 9 0)) 60 (replicate 10 7).

Lemma string_functions_correct_witness : let m := ex_strings in
  strlen 40 m = Done 3 m /\ strcmp 40 50 m = Done (-1) m /\ atoi 40 m = Done (-12) m /\ strcpy 60 40 m = Done 60 (wr m 60 [45; 49; 50; 0]) /\ strcat 50 40 m = Done 50 (wr m 50 [120; 45; 49; 50; 0]).
Proof.
  intros m. destruct (string_functions_correct m 40 50 49 [45; 49; 50] [120]) as (H1 & [H2 _] & _ & _ & H5 & H6 & H7).
  - apply cstr_check; [by repeat constructor|]. vm_compute. repeat constructor.
  - apply cstr_check; [by repeat constructor|]. vm_compute. repeat constructor.
  - by repeat constructor.
  - by repeat constructor.
  - split_and!; [exact H1|exact H2|exact H5|apply H6|apply H7].
    + intros i Hi. cbn in Hi. assert (i = 0 \/ i = 1 \/ i = 2 \/ i = 3) as [-> | [-> | [-> | ->]]] by lia; vm_compute; eexists; reflexivity.
    + unfold apart. cbn. lia.
    + intros i Hi. cbn in Hi. assert (i = 0 \/ i = 1 \/ i = 2 \/ i = 3 \/ i = 4) as [-> | [-> | [-> | [-> | ->]]]] by lia; vm_compute; eexists; reflexivity.
    + unfold apart. cbn. lia.
Defined.

Lemma cmd_dispatch_correct_witness : exists m', cmd_dispatch (fun i args => ret (100 + Z.of_nat i + Z.of_nat (length args))) [20] 10 30 ex_menu = Done 102 m'.
Proof.
  destruct (cmd_dispatch_correct (fun i args => ret (100 + Z.of_nat i + Z.of_nat (length args))) [20] [[107; 104]] 10 30 ex_line ex_menu) as (args & m' & _ & Ha & E).
  - lia.
  - lia.
  - apply cstr_check; [by repeat constructor|]. vm_compute. repeat constructor.
  - by repeat constructor.
  - apply cstr_check; [by repeat constructor|]. vm_compute. repeat constructor.
  - left. lia.
  - constructor; [|constructor]. apply cstr_check; [by repeat constructor|]. vm_compute. repeat constructor.
  - repeat constructor; lia.
  - constructor; [|constructor]. left. simpl. lia.
  - exists m'. rewrite E. change (words blanks ex_line) with [[107; 104]; [120]] in *. specialize (Ha ltac:(simpl; lia)). apply Forall2_length in Ha. destruct args as [|a1 [|a2 [|]]]; try done.
Defined.

(** ** Formatted output *)

(** C29: [snprintf] never writes past the buffer: it holds as much of the
    text as fits, with a terminator behind it, the bytes after that are left
    alone, and the result is the length of the whole text. *)
Theorem vsnprintf_correct (junk buf : list Z) (fmt : list Z) (args : list arg) (txt : list Z) :
  length junk = Z.to_nat NUMBER_BUF_SIZE -> Forall (fun ch => ch <> 0) fmt -> render None fmt args = Some txt -> Z.of_nat (length txt) < 2 ^ 31 ->
  vsnprintf junk buf (Z.of_nat (length buf)) fmt args =
    Done (match buf with [] => [] | _ => let k := Nat.min (length txt) (length buf - 1) in take k txt ++ [0] ++ drop (S k) buf end, Z.of_nat (length txt)) tt.
Proof.
  intros Hj Hnz Hr Hl. unfold vsnprintf. rewrite (vprintf_sends __snprintf_send (fun _ => eq_refl) snp_send_app junk _ fmt args txt Hj Hnz Hr Hl). destruct buf as [|b0 buf0] eqn:Eb.
  - change (Z.of_nat (length [])) with 0. change (if 0 =? 0 then 0 else 0 - 1) with 0. rewrite snp_send_buf by (simpl; lia). cbn zeta. replace (Z.to_nat (Z.min (Z.of_nat (length txt)) (0 - 0))) with 0%nat by lia. done.
  - rewrite <- Eb. assert (1 <= Z.of_nat (length buf)) as H1 by (rewrite Eb; simpl; lia). replace (Z.of_nat (length buf) =? 0) with false by lia. rewrite snp_send_buf by lia. cbn zeta. cbn [snp_buf bufpos]. replace (0 <? Z.of_nat (length buf)) with true by lia.
    replace (Z.to_nat (Z.min (Z.of_nat (length txt)) (Z.of_nat (length buf) - 1 - 0))) with (Nat.min (length txt) (length buf - 1)) by lia. set (k := Nat.min (length txt) (length buf - 1)). change (Z.to_nat 0) with 0%nat. cbn [take app Nat.add].
    assert (k < length buf)%nat as Hk by (unfold k; lia). assert (length (take k txt) = k) as Ek by (rewrite length_take; lia). unfold buf_store. cbv [mbind option_bind]. rewrite take_0. cbn [app]. rewrite length_app, Ek, length_drop. rewrite Z.add_0_l. replace (k + (length buf - k))%nat with (length buf) by lia.
    rewrite (proj2 (Z.leb_le 0 (Z.of_nat k))), (proj2 (Z.ltb_lt (Z.of_nat k) (Z.of_nat (length buf)))) by lia. cbn [andb]. rewrite Nat2Z.id. rewrite insert_app_r_alt by lia. rewrite Ek, Nat.sub_diag.
    destruct (lookup_lt_is_Some_2 buf k) as [c Hc]; [lia|]. rewrite (drop_S _ _ _ Hc). done.
Qed.

Definition junk23 : list Z := replicate 23 170.

(** "%5d|%x" with -42 and 255 into ten bytes. *)
Lemma vsnprintf_correct_witness : vsnprintf junk23 (replicate 10 1) 10 [37; 53; 100; 124; 37; 120] [AWord (-42); AWord 255] = Done ([32; 32; 45; 52; 50; 124; 102; 102; 0; 1], 8) tt.
Proof. apply (vsnprintf_correct junk23 (replicate 10 1) [37; 53; 100; 124; 37; 120] [AWord (-42); AWord 255] [32; 32; 45; 52; 50; 124; 102; 102]); [done|by repeat constructor|by vm_compute|simpl; lia]. Defined.

Lemma digit_dec d : 0 <= d < 10 -> digit d = 48 + d.
Proof. intros Hd. assert (d = 0 \/ d = 1 \/ d = 2 \/ d = 3 \/ d = 4 \/ d = 5 \/ d = 6 \/ d = 7 \/ d = 8 \/ d = 9) as Hc by lia. repeat (destruct Hc as [->|Hc]; [done|]). by subst. Qed.

Lemma digits_are_digits f n : 0 <= n -> Forall (fun c => is_digit c = true) (digits_ f 10 n).
Proof.
  revert n. induction f as [|f IH]; intros n Hn; cbn [digits_]; [done|]. assert (forall d, 0 <= d < 10 -> is_digit (digit d) = true) as Hd by (intros d Hd; rewrite digit_dec by done; unfold is_digit; lia).
  destruct (n <? 10) eqn:E; boolify; [constructor; [apply Hd; lia|done]|]. apply Forall_app. split; [apply IH, Z.div_pos; lia|]. constructor; [|done]. apply Hd. apply Z.mod_pos_bound. lia.
Qed.

Lemma dec_number n : 0 <= n < 2 ^ 64 -> dec (number 10 n) = n.
Proof. intros Hn. change dec with (number_value 10 (fun c => c - 48)). apply digits_value; [lia|intros d Hd; rewrite digit_dec by done; lia|]. split; [lia|]. apply (Z.lt_le_trans _ (2 ^ 64)); [lia|]. apply Z.pow_le_mono_l. lia. Qed.

Lemma takew_id f l : Forall (fun c => f c = true) l -> takew f l = l.
Proof. intros Hl. rewrite <- (app_nil_r l) at 1. rewrite takew_app by done. apply app_nil_r. Qed.

(** The text of an [int]. *)
Definition int_text (v : Z) : list Z := (if v <? 0 then [45] else []) ++ number 10 (Z.abs v).

Lemma atoi_int_text v : - 2 ^ 31 <= v < 2 ^ 31 -> atoi_value (int_text v) = v.
Proof.
  intros Hv. pose proof (digits_are_digits 64 (Z.abs v) ltac:(lia)) as Hd. fold (number 10 (Z.abs v)) in Hd. pose proof (dec_number (Z.abs v) ltac:(lia)) as Hn. pose proof (number_length 10 (Z.abs v) ltac:(lia) ltac:(lia)) as Hl. unfold int_text, atoi_value, atoi_sign, atoi_tail. set (X := number 10 (Z.abs v)) in *. clearbody X.
  destruct (v <? 0) eqn:E; boolify.
  - change (dropw is_space ([45] ++ X)) with (45 :: X). cbn [hd tail]. change (45 =? 45) with true. cbn [orb]. cbv iota zeta. rewrite takew_id, Hn by done. lia.
  - cbn [app]. destruct X as [|c l]; [simpl in Hl; lia|]. pose proof Hd as Hd0. apply Forall_cons in Hd0 as [Hc _]. unfold is_digit in Hc. assert (48 <= c <= 57) by lia. assert (dropw is_space (c :: l) = c :: l) as ->. { cbn [dropw]. unfold is_space. replace (c =? 32) with false by lia. by replace (c =? 9) with false by lia. }
    cbn [hd]. cbv zeta. replace (c =? 45) with false by lia. replace (c =? 43) with false by lia. cbn [orb]. rewrite takew_id, Hn by done. lia.
Qed.

Lemma int_text_length v : - 2 ^ 31 <= v < 2 ^ 31 -> (length (int_text v) <= 11)%nat.
Proof. intros Hv. unfold int_text, number. pose proof (digits_length 10 ltac:(lia) 9 64 (Z.abs v) ltac:(change (10 ^ Z.of_nat 10) with 10000000000; lia)). rewrite length_app. destruct (v <? 0); cbn [length]; lia. Qed.

(** what [snprintf] prints for an [int] with "%d", [atoi] reads back. *)
Theorem printf_atoi_roundtrip (junk buf : list Z) (v : Z) :
  length junk = Z.to_nat NUMBER_BUF_SIZE -> (12 <= length buf)%nat -> - 2 ^ 31 <= v < 2 ^ 31 ->
  exists buf' n, vsnprintf junk buf (Z.of_nat (length buf)) [37; 100] [AWord v] = Done (buf', n) tt /\
    forall m p, bytes_at m p buf' -> atoi p m = Done v m.
Proof.
  intros Hj Hb Hv. pose proof (int_text_length v Hv) as Hlen. assert (render None [37; 100] [AWord v] = Some (int_text v)) as Hr.
  { cbn [render]. change (37 =? 37) with true. change (is_modifier 100) with false. cbv iota. unfold field. change (is_inttype 100) with true. cbv iota. unfold int_value. change (100 =? 112) with false. change (100 =? 100) with true. cbv iota. cbn [dir0 d_size]. cbv [mbind option_bind]. rewrite s32_id by lia. unfold pad, int_prefix, int_base. cbn [dir0 d_alt d_left d_fill d_width orb Z.eqb Pos.eqb]. rewrite app_nil_r. replace (Z.to_nat (0 - _)) with 0%nat by lia. cbn [replicate app]. cbn [fmap option_fmap option_map]. by rewrite app_nil_r. }
  rewrite (vsnprintf_correct junk buf _ _ (int_text v)); [|done|by repeat constructor|done|lia]. destruct buf as [|b0 buf0] eqn:Eb; [simpl in Hb; lia|]. rewrite <- Eb in *. eexists _, _. split; [reflexivity|]. intros m p Hm. cbn zeta in Hm. replace (Nat.min (length (int_text v)) (length buf - 1)) with (length (int_text v)) in Hm by lia. rewrite firstn_all in Hm.
  assert (cstr m p (int_text v)) as Hc. { split; [rewrite app_assoc in Hm; by apply bytes_at_app in Hm as [? _]|]. unfold int_text. intros Hz. apply elem_of_app in Hz as [Hz|Hz]; [destruct (v <? 0); [apply list_elem_of_singleton in Hz; done|by apply not_elem_of_nil in Hz]|]. pose proof (digits_are_digits 64 (Z.abs v) ltac:(lia)) as Hd. rewrite Forall_forall in Hd. by specialize (Hd 0 Hz). }
  assert (wp (atoi p) (fun r m' => r = v /\ m' = m) m) as (r & m' & E & -> & ->)%wp_done; [|done]. eapply wp_atoi; [exact Hc|]. rewrite atoi_int_text by done. split; [apply s32_id; lia|done].
Qed.

Lemma printf_atoi_roundtrip_witness : exists buf' n, vsnprintf junk23 (replicate 12 7) 12 [37; 100] [AWord (-2147483648)] = Done (buf', n) tt /\ forall m p, bytes_at m p buf' -> atoi p m = Done (-2147483648) m.
Proof. apply (printf_atoi_roundtrip junk23 (replicate 12 7) (-2147483648)); [done|simpl; lia|lia]. Defined.
