(* ===== verification/LongLong.v ===== *)
(** The 64-bit arithmetic that gcc calls out of line on a 32-bit machine:
    common/gcc-millicode.

    A [long long] or [unsigned long long] is the integer it stands for; the
    fields [ui[H]], [ui[L]] and [si[H]] of [union uu] are its two 32-bit
    halves.  Negating a signed value wraps around, as on the two's complement
    machine that longlong.h assumes.  A shift by 32 or more of a 32-bit
    operand, which C leaves undefined, gives [None]. *)

From S2P Require Import Prelude.

(** ** [union uu] *)

Definition INT_BITS : Z := 32.
Definition HALF_BITS : Z := 16.

Definition ui_H (x : Z) : Z := u32 (Z.shiftr x INT_BITS).
Definition ui_L (x : Z) : Z := u32 x.
Definition si_H (x : Z) : Z := s32 (Z.shiftr x INT_BITS).

(** [ull] after both [ui] have been stored; [ll] is its [s64]. *)
Definition uu_ull (h l : Z) : Z := Z.lor (Z.shiftl h INT_BITS) l.
Definition uu_ll (h l : Z) : Z := s64 (uu_ull h l).

Definition HHALF (x : Z) : Z := Z.shiftr x HALF_BITS.
Definition LHALF (x : Z) : Z := Z.land x (2 ^ HALF_BITS - 1).
Definition LHUP (x : Z) : Z := u32 (Z.shiftl x HALF_BITS).

(** ** Sums, negation, comparison and bitwise operations *)

Definition __adddi3 (a b : Z) : Z :=
  let l := u32 (ui_L a + ui_L b) in
  uu_ll (u32 (ui_H a + ui_H b + Z.b2z (l <? ui_L b))) l.

Definition __subdi3 (a b : Z) : Z :=
  let l := u32 (ui_L a - ui_L b) in
  uu_ll (u32 (ui_H a - ui_H b - Z.b2z (ui_L a <? l))) l.

Definition __negdi2 (a : Z) : Z :=
  let l := u32 (- ui_L a) in
  uu_ll (u32 (- ui_H a - Z.b2z (0 <? l))) l.

Definition __cmpdi2 (a b : Z) : Z :=
  if si_H a <? si_H b then 0
  else if si_H b <? si_H a then 2
  else if ui_L a <? ui_L b then 0
  else if ui_L b <? ui_L a then 2 else 1.

Definition __ucmpdi2 (a b : Z) : Z :=
  if ui_H a <? ui_H b then 0
  else if ui_H b <? ui_H a then 2
  else if ui_L a <? ui_L b then 0
  else if ui_L b <? ui_L a then 2 else 1.

Definition __anddi3 (a b : Z) : Z := uu_ll (Z.land (ui_H a) (ui_H b)) (Z.land (ui_L a) (ui_L b)).
Definition __iordi3 (a b : Z) : Z := uu_ll (Z.lor (ui_H a) (ui_H b)) (Z.lor (ui_L a) (ui_L b)).
Definition __xordi3 (a b : Z) : Z := uu_ll (Z.lxor (ui_H a) (ui_H b)) (Z.lxor (ui_L a) (ui_L b)).
Definition __one_cmpldi2 (a : Z) : Z := uu_ll (u32 (Z.lnot (ui_H a))) (u32 (Z.lnot (ui_L a))).

(** ** Shifts *)

Definition shl32 (x s : Z) : option Z := if s <? INT_BITS then Some (u32 (Z.shiftl x s)) else None.
Definition shr32 (x s : Z) : option Z := if s <? INT_BITS then Some (Z.shiftr x s) else None.

Definition __ashldi3 (a shift : Z) : option Z :=
  if shift =? 0 then Some a
  else if INT_BITS <=? shift then
    h ← shl32 (ui_L a) (shift - INT_BITS);
    Some (uu_ll h 0)
  else
    h ← shl32 (ui_H a) shift;
    c ← shr32 (ui_L a) (INT_BITS - shift);
    l ← shl32 (ui_L a) shift;
    Some (uu_ll (Z.lor h c) l).

Definition __lshldi3 (a shift : Z) : option Z :=
  if shift =? 0 then Some a
  else if INT_BITS <=? shift then
    h ← shl32 (ui_L a) (shift - INT_BITS);
    Some (uu_ll h 0)
  else
    h ← shl32 (ui_H a) shift;
    c ← shr32 (ui_L a) (INT_BITS - shift);
    l ← shl32 (ui_L a) shift;
    Some (uu_ll (Z.lor h c) l).

Definition __lshrdi3 (a shift : Z) : option Z :=
  if shift =? 0 then Some a
  else if INT_BITS <=? shift then
    l ← shr32 (ui_H a) (shift - INT_BITS);
    Some (uu_ll 0 l)
  else
    l ← shr32 (ui_L a) shift;
    c ← shl32 (ui_H a) (INT_BITS - shift);
    h ← shr32 (ui_H a) shift;
    Some (uu_ll h (Z.lor l c)).

Definition __ashrdi3 (a shift : Z) : option Z :=
  if shift =? 0 then Some a
  else if INT_BITS <=? shift then
    s ← shr32 (si_H a) (INT_BITS - 1);
    s ← shr32 s 1;
    l ← shr32 (si_H a) (shift - INT_BITS);
    Some (uu_ll (u32 s) (u32 l))
  else
    l ← shr32 (ui_L a) shift;
    c ← shl32 (ui_H a) (INT_BITS - shift);
    h ← shr32 (si_H a) shift;
    Some (uu_ll (u32 h) (Z.lor l c)).

(** ** Multiplication *)

(** Adding [x * 2^16] to the double word [prodh], [prodl]. *)
Definition add_half (x : Z) (p : Z * Z) : Z * Z :=
  let '(prodh, was) := p in
  let prodl := u32 (was + LHUP x) in
  (u32 (prodh + (HHALF x + Z.b2z (prodl <? was))), prodl).

Definition sub_half (x : Z) (p : Z * Z) : Z * Z :=
  let '(prodh, was) := p in
  let prodl := u32 (was - LHUP x) in
  (u32 (prodh - (HHALF x + Z.b2z (was <? prodl))), prodl).

Definition __lmulq (u v : Z) : Z :=
  let u1 := HHALF u in let u0 := LHALF u in
  let v1 := HHALF v in let v0 := LHALF v in
  let low := u32 (u0 * v0) in
  if (u1 =? 0) && (v1 =? 0) then low
  else
    let '(udiff, neg) := if u0 <=? u1 then (u32 (u1 - u0), false) else (u32 (u0 - u1), true) in
    let '(vdiff, neg) := if v1 <=? v0 then (u32 (v0 - v1), neg) else (u32 (v1 - v0), negb neg) in
    let mid := u32 (udiff * vdiff) in
    let high := u32 (u1 * v1) in
    let p := (u32 (high + HHALF high), LHUP high) in
    let p := if neg then sub_half mid p else add_half mid p in
    let '(prodh, prodl) := add_half low p in
    let prodl := u32 (prodl + low) in
    let prodh := if prodl <? low then u32 (prodh + 1) else prodh in
    uu_ll prodh prodl.

Definition __muldi3 (a b : Z) : Z :=
  let '(u, negall) := if 0 <=? a then (a, false) else (s64 (- a), true) in
  let '(v, negall) := if 0 <=? b then (b, negall) else (s64 (- b), negb negall) in
  let u1 := ui_H u in let u0 := ui_L u in
  let v1 := ui_H v in let v0 := ui_L v in
  let prod :=
    if (u1 =? 0) && (v1 =? 0) then __lmulq u0 v0
    else
      let low := __lmulq u0 v0 in
      let '(negmid, udiff) := if u0 <=? u1 then (false, u32 (u1 - u0)) else (true, u32 (u0 - u1)) in
      let '(vdiff, negmid) := if v1 <=? v0 then (u32 (v0 - v1), negmid) else (u32 (v1 - v0), negb negmid) in
      let mid := u32 (udiff * vdiff) in
      let high := u32 (u1 * v1) in
      uu_ll (u32 (high + (if negmid then u32 (- mid) else mid) + ui_L low + ui_H low)) (ui_L low) in
  if negall then s64 (- prod) else prod.

(** * What the 64-bit routines of [LongLong] compute: the operation of [Z] they
    are named after, reduced to 64 bits. *)

(** ** Halves *)

Lemma ui_H_div x : ui_H x = x / 2 ^ 32 mod 2 ^ 32.
Proof. unfold ui_H, u32, INT_BITS. by rewrite Z.shiftr_div_pow2 by lia. Qed.

Lemma si_H_div x : si_H x = s32 (x / 2 ^ 32).
Proof. unfold si_H, INT_BITS. by rewrite Z.shiftr_div_pow2 by lia. Qed.

Lemma uu_ull_add h l : 0 <= l < 2 ^ 32 -> uu_ull h l = h * 2 ^ 32 + l.
Proof. intros Hl. by apply lor_shiftl_add. Qed.

(** ** Sums, negation and comparison *)

Ltac words := rewrite ?uu_ull_add by apply u32_range; rewrite ?ui_H_div, ?si_H_div; unfold ui_L, s64, s32, u32.

Lemma adddi3_spec a b : __adddi3 a b = s64 (a + b).
Proof. unfold __adddi3, uu_ll. words. destruct (_ <? _) eqn:E; simpl Z.b2z; f_equal; zlia. Qed.

Lemma subdi3_spec a b : __subdi3 a b = s64 (a - b).
Proof. unfold __subdi3, uu_ll. words. destruct (_ <? _) eqn:E; simpl Z.b2z; f_equal; zlia. Qed.

Lemma negdi2_spec a : __negdi2 a = s64 (- a).
Proof. unfold __negdi2, uu_ll. words. destruct (_ <? _) eqn:E; simpl Z.b2z; f_equal; zlia. Qed.

Lemma cmpdi2_spec a b : - 2 ^ 63 <= a < 2 ^ 63 -> - 2 ^ 63 <= b < 2 ^ 63 ->
  __cmpdi2 a b = match a ?= b with Lt => 0 | Eq => 1 | Gt => 2 end.
Proof.
  intros Ha Hb. unfold __cmpdi2. words.
  destruct (Z.compare_spec a b); repeat (case_match; boolify); try done; zlia.
Qed.

Lemma ucmpdi2_spec a b : 0 <= a < 2 ^ 64 -> 0 <= b < 2 ^ 64 ->
  __ucmpdi2 a b = match a ?= b with Lt => 0 | Eq => 1 | Gt => 2 end.
Proof.
  intros Ha Hb. unfold __ucmpdi2. words.
  destruct (Z.compare_spec a b); repeat (case_match; boolify); try done; zlia.
Qed.

(** ** Bits *)

Lemma u32_bit x n : 0 <= n -> Z.testbit (u32 x) n = (n <? 32) && Z.testbit x n.
Proof. intros Hn. unfold u32. destruct (n <? 32) eqn:E; [apply Z.mod_pow2_bits_low|apply Z.mod_pow2_bits_high]; lia. Qed.

Lemma u64_bit x n : 0 <= n -> Z.testbit (u64 x) n = (n <? 64) && Z.testbit x n.
Proof. intros Hn. unfold u64. destruct (n <? 64) eqn:E; [apply Z.mod_pow2_bits_low|apply Z.mod_pow2_bits_high]; lia. Qed.

Lemma uu_ull_bit h l n : 0 <= n ->
  Z.testbit (uu_ull h l) n = if n <? 32 then Z.testbit l n else Z.testbit h (n - 32) || Z.testbit l n.
Proof.
  intros Hn. unfold uu_ull, INT_BITS. rewrite Z.lor_spec. destruct (n <? 32) eqn:E; [rewrite Z.shiftl_spec_low by lia|rewrite Z.shiftl_spec by lia]; done.
Qed.

(** Two numbers that agree on the low 64 bits are the same [long long]. *)
Lemma s64_bits x y : (forall n, 0 <= n < 64 -> Z.testbit x n = Z.testbit y n) -> s64 x = s64 y.
Proof.
  intros H. assert (x mod 2 ^ 64 = y mod 2 ^ 64) as E.
  { apply Z.bits_inj'. intros n Hn. destruct (decide (n < 64)); [rewrite !Z.mod_pow2_bits_low by lia; apply H; lia|by rewrite !Z.mod_pow2_bits_high by lia]. }
  unfold s64. f_equal. rewrite <- (Zplus_mod_idemp_l x), E. apply Zplus_mod_idemp_l.
Qed.

#[export] Hint Rewrite Z.lor_spec Z.land_spec Z.lxor_spec : bits.
#[export] Hint Rewrite u32_bit uu_ull_bit Z.lnot_spec Z.shiftr_spec Z.shiftl_spec using lia : bits.

Ltac bits := apply s64_bits; intros n Hn; unfold ui_H, ui_L, INT_BITS; autorewrite with bits;
  repeat (case_match; boolify); try lia; autorewrite with bits; rewrite ?Z.sub_add; 
  repeat match goal with |- context [?a <? ?b] => replace (a <? b) with true by lia end; rewrite ?andb_true_l, ?andb_false_l, ?orb_false_r; try done.

Lemma anddi3_spec a b : __anddi3 a b = s64 (Z.land a b).
Proof. unfold __anddi3. bits. Qed.

Lemma iordi3_spec a b : __iordi3 a b = s64 (Z.lor a b).
Proof. unfold __iordi3. bits. Qed.

Lemma xordi3_spec a b : __xordi3 a b = s64 (Z.lxor a b).
Proof. unfold __xordi3. bits. Qed.

Lemma one_cmpldi2_spec a : __one_cmpldi2 a = s64 (Z.lnot a).
Proof. unfold __one_cmpldi2. bits. Qed.

(** ** Shifts *)

(** The bits below position 0 are clear; two positions written differently
    are the same. *)
Ltac bit_positions :=
  rewrite ?Z.bits_0, ?orb_false_r, ?orb_false_l;
  repeat match goal with
  | |- context [Z.testbit ?x ?i] =>
      first [rewrite (Z.testbit_neg_r x i) by lia
            | lazymatch x with u32 _ => idtac end; destruct (decide (i < 0)); [rewrite (Z.testbit_neg_r x i) by lia | rewrite (u32_bit _ i) by lia; destruct (i <? 32) eqn:?; boolify; cbn [andb]; try lia]]
  end;
  repeat match goal with |- context [?i <? 32] => destruct (i <? 32) eqn:?; boolify; try lia end;
  rewrite ?Z.shiftr_spec by lia; cbn [andb]; rewrite ?andb_false_r, ?orb_false_r, ?orb_false_l;
  try solve [done | f_equal; lia | symmetry; apply Z.testbit_neg_r; lia].

Ltac shifts := unfold shl32, shr32, INT_BITS in *;
  repeat match goal with |- context [?a <? 32] => replace (a <? 32) with true by lia end;
  cbv [mbind option_bind]; f_equal; bits; bit_positions.

Lemma ashldi3_spec a s : - 2 ^ 63 <= a < 2 ^ 63 -> 0 <= s < 64 -> __ashldi3 a s = Some (s64 (Z.shiftl a s)).
Proof.
  intros Ha Hs. unfold __ashldi3. destruct (s =? 0) eqn:E0; boolify; [subst; by rewrite Z.shiftl_0_r, s64_id|].
  destruct (INT_BITS <=? s) eqn:E1; boolify; shifts.
Qed.

Lemma lshldi3_spec a s : - 2 ^ 63 <= a < 2 ^ 63 -> 0 <= s < 64 -> __lshldi3 a s = Some (s64 (Z.shiftl a s)).
Proof. apply ashldi3_spec. Qed.

Lemma lshrdi3_spec a s : - 2 ^ 63 <= a < 2 ^ 63 -> 0 <= s < 64 -> __lshrdi3 a s = Some (s64 (Z.shiftr (u64 a) s)).
Proof.
  intros Ha Hs. unfold __lshrdi3. destruct (s =? 0) eqn:E0; boolify; [subst; rewrite Z.shiftr_0_r; f_equal; unfold s64, u64; zlia|].
  destruct (INT_BITS <=? s) eqn:E1; boolify; shifts.
  all: rewrite u64_bit by lia; destruct (n + s <? 64) eqn:?; boolify; cbn [andb]; try lia; try done; f_equal; lia.
Qed.

Lemma sign_bit a n : - 2 ^ 63 <= a < 2 ^ 63 -> 63 <= n -> Z.testbit a n = (a <? 0).
Proof.
  intros Ha Hn. rewrite Z.testbit_odd, Z.shiftr_div_pow2 by lia. pose proof (Z.pow_le_mono_r 2 63 n eq_refl Hn).
  destruct (a <? 0) eqn:E; boolify; [replace (a / 2 ^ n) with (- 1)|replace (a / 2 ^ n) with 0]; try done.
  - apply (Z.div_unique _ _ _ (a + 2 ^ n)); lia.
  - symmetry. apply Z.div_small. lia.
Qed.

Lemma ashrdi3_spec a s : - 2 ^ 63 <= a < 2 ^ 63 -> 0 <= s < 64 -> __ashrdi3 a s = Some (Z.shiftr a s).
Proof.
  intros Ha Hs. unfold __ashrdi3. destruct (s =? 0) eqn:E0; boolify; [by subst|].
  replace (Z.shiftr a s) with (s64 (Z.shiftr a s)).
  2: { apply s64_id. rewrite Z.shiftr_div_pow2 by lia. pose proof (Z.pow_pos_nonneg 2 s). split; [apply Z.div_le_lower_bound|apply Z.div_lt_upper_bound]; nia. }
  assert (si_H a = Z.shiftr a 32) as ->. { rewrite si_H_div, Z.shiftr_div_pow2 by lia. unfold s32. zlia. }
  destruct (INT_BITS <=? s) eqn:E1; boolify; shifts.
  rewrite !sign_bit by lia. done.
Qed.

(** ** Multiplication *)

Lemma HHALF_div x : HHALF x = x / 2 ^ 16.
Proof. unfold HHALF, HALF_BITS. by rewrite Z.shiftr_div_pow2. Qed.

Lemma LHALF_mod x : LHALF x = x mod 2 ^ 16.
Proof. apply (Z.land_ones x 16). lia. Qed.

Lemma LHUP_mul x : LHUP x = x * 2 ^ 16 mod 2 ^ 32.
Proof. unfold LHUP, HALF_BITS, u32. by rewrite Z.shiftl_mul_pow2. Qed.

(** The double word [h], [l] stands for [x] modulo 2^64. *)
Definition double (p : Z * Z) (x : Z) : Prop := 0 <= p.2 < 2 ^ 32 /\ exists k, p.1 * 2 ^ 32 + p.2 = x + k * 2 ^ 64.

Lemma add_half_double x p y : 0 <= x < 2 ^ 32 -> double p y -> double (add_half x p) (y + x * 2 ^ 16).
Proof.
  intros Hx [Hl [k Hk]]. destruct p as [h l]. cbn [fst snd] in *. unfold add_half. rewrite HHALF_div, LHUP_mul. split; [apply u32_range|]. cbn [fst snd].
  assert (x * 2 ^ 16 mod 2 ^ 32 = x * 2 ^ 16 - x / 2 ^ 16 * 2 ^ 32) as -> by zlia.
  exists (k - (h + (x / 2 ^ 16 + Z.b2z (u32 (l + (x * 2 ^ 16 - x / 2 ^ 16 * 2 ^ 32)) <? l))) / 2 ^ 32).
  unfold u32 in *. destruct (_ <? l) eqn:E; boolify; cbn [Z.b2z] in *; zlia.
Qed.

Lemma sub_half_double x p y : 0 <= x < 2 ^ 32 -> double p y -> double (sub_half x p) (y - x * 2 ^ 16).
Proof.
  intros Hx [Hl [k Hk]]. destruct p as [h l]. cbn [fst snd] in *. unfold sub_half. rewrite HHALF_div, LHUP_mul. split; [apply u32_range|]. cbn [fst snd].
  assert (x * 2 ^ 16 mod 2 ^ 32 = x * 2 ^ 16 - x / 2 ^ 16 * 2 ^ 32) as -> by zlia.
  exists (k - (h - (x / 2 ^ 16 + Z.b2z (l <? u32 (l - (x * 2 ^ 16 - x / 2 ^ 16 * 2 ^ 32))))) / 2 ^ 32).
  unfold u32 in *. destruct (l <? _) eqn:E; boolify; cbn [Z.b2z] in *; zlia.
Qed.

Lemma s64_add_mul x k : s64 (x + k * 2 ^ 64) = s64 x.
Proof. unfold s64. f_equal. replace (x + k * 2 ^ 64 + 2 ^ 63) with (x + 2 ^ 63 + k * 2 ^ 64) by lia. apply Z.mod_add. lia. Qed.

Lemma double_ll p x : double p x -> uu_ll p.1 p.2 = s64 x.
Proof. intros [Hl [k Hk]]. unfold uu_ll. rewrite uu_ull_add, Hk by done. apply s64_add_mul. Qed.

(** The difference of two digits as its absolute value and its sign. *)
Lemma diff_sign neg a b m : 0 <= a < m -> 0 <= b < m -> m <= 2 ^ 32 ->
  exists d sg, (if b <=? a then (u32 (a - b), neg) else (u32 (b - a), negb neg)) = (d, xorb neg sg) /\ 0 <= d < m /\ (if sg then - d else d) = a - b.
Proof.
  intros Ha Hb Hm. destruct (b <=? a) eqn:E; boolify; [exists (a - b), false|exists (b - a), true]; rewrite u32_id by lia; (split; [by destruct neg|lia]).
Qed.

Lemma lmulq_spec u v : 0 <= u < 2 ^ 32 -> 0 <= v < 2 ^ 32 -> __lmulq u v = s64 (u * v).
Proof.
  intros Hu Hv. unfold __lmulq. rewrite !HHALF_div, !LHALF_mod.
  assert (u = u / 2 ^ 16 * 2 ^ 16 + u mod 2 ^ 16) as Eu by zlia. assert (v = v / 2 ^ 16 * 2 ^ 16 + v mod 2 ^ 16) as Ev by zlia.
  assert (0 <= u / 2 ^ 16 < 2 ^ 16) as H1 by zlia. assert (0 <= v / 2 ^ 16 < 2 ^ 16) as H3 by zlia.
  assert (0 <= u mod 2 ^ 16 < 2 ^ 16) as H0 by zlia. assert (0 <= v mod 2 ^ 16 < 2 ^ 16) as H2 by zlia.
  revert Eu Ev H1 H0 H3 H2. generalize (u / 2 ^ 16), (u mod 2 ^ 16), (v / 2 ^ 16), (v mod 2 ^ 16). intros u1 u0 v1 v0 -> -> H1 H0 H3 H2.
  rewrite (u32_id (u0 * v0)) by nia.
  destruct ((u1 =? 0) && (v1 =? 0)) eqn:Es; boolify.
  { subst. rewrite !Z.mul_0_l, !Z.add_0_l, s64_id; nia. }
  destruct (diff_sign false u1 u0 (2 ^ 16)) as (ud & sg & Ed & Hd & Hud); [done..|]. cbn [negb xorb] in Ed. rewrite Ed.
  destruct (diff_sign sg v0 v1 (2 ^ 16)) as (vd & sg' & -> & Hd' & Hvd); [done..|].
  rewrite (u32_id (ud * vd)), (u32_id (u1 * v1)) by nia.
  match goal with |- context [add_half _ ?p] => assert (double p (u1 * v1 * (2 ^ 32 + 2 ^ 16) + (u1 - u0) * (v0 - v1) * 2 ^ 16)) as Hp end.
  { assert (double (u32 (u1 * v1 + u1 * v1 / 2 ^ 16), LHUP (u1 * v1)) (u1 * v1 * (2 ^ 32 + 2 ^ 16))) as Hp.
    { rewrite LHUP_mul. split; [apply u32_range|]. cbn [fst snd]. set (h := u1 * v1). 
      exists (- ((h + h / 2 ^ 16) / 2 ^ 32)). unfold u32. zlia. }
    rewrite <- Hud, <- Hvd. destruct sg, sg'; cbn [xorb].
    all: lazymatch goal with
         | |- double (add_half _ _) _ => apply (add_half_double (ud * vd)) in Hp; [|nia]
         | |- _ => apply (sub_half_double (ud * vd)) in Hp; [|nia]
         end.
    all: match goal with H : double _ ?x |- double _ ?y => replace y with x by lia; exact H end. }
  apply (add_half_double (u0 * v0)) in Hp; [|nia]. destruct (add_half (u0 * v0) _) as [h l].
  destruct Hp as [Hl [k Hk]]. cbn [fst snd] in Hl, Hk. set (low := u0 * v0) in *. assert (0 <= low < 2 ^ 32) by nia.
  set (x := (u1 * 2 ^ 16 + u0) * (v1 * 2 ^ 16 + v0)).
  assert (h * 2 ^ 32 + l + low = x + k * 2 ^ 64) as E by (unfold x; lia). clearbody x low.
  destruct (u32 (l + low) <? low) eqn:Ec; boolify.
  - apply (double_ll (u32 (h + 1), u32 (l + low))). split; [apply u32_range|]. exists (k - (h + 1) / 2 ^ 32). cbn [fst snd]. unfold u32 in *. zlia.
  - apply (double_ll (h, u32 (l + low))). split; [apply u32_range|]. exists k. cbn [fst snd]. unfold u32 in *. zlia.
Qed.

Lemma s64_range x : - 2 ^ 63 <= s64 x < 2 ^ 63.
Proof. unfold s64. zlia. Qed.

Lemma s64_neg x : s64 (- s64 x) = s64 (- x).
Proof. unfold s64. zlia. Qed.

Lemma ui_s64 x : ui_H (s64 x) = ui_H x /\ ui_L (s64 x) = ui_L x.
Proof. rewrite !ui_H_div. unfold ui_L, s64, u32. zlia. Qed.

(** The magnitude of an operand as its two words, and its sign. *)
Lemma abs_words neg a : - 2 ^ 63 <= a < 2 ^ 63 ->
  exists u u1 u0 sg, (if 0 <=? a then (a, neg) else (s64 (- a), negb neg)) = (u, xorb neg sg) /\
    ui_H u = u1 /\ ui_L u = u0 /\ 0 <= u1 < 2 ^ 32 /\ 0 <= u0 < 2 ^ 32 /\ (if sg then - a else a) = u1 * 2 ^ 32 + u0.
Proof.
  intros Ha. destruct (0 <=? a) eqn:E; boolify.
  - exists a, (a / 2 ^ 32), (a mod 2 ^ 32), false. rewrite ui_H_div. unfold ui_L, u32. split; [by destruct neg|]. zlia.
  - destruct (ui_s64 (- a)) as [EH EL]. exists (s64 (- a)), (- a / 2 ^ 32), (- a mod 2 ^ 32), true.
    rewrite EH, EL, ui_H_div. unfold ui_L, u32. split; [by destruct neg|]. zlia.
Qed.

Lemma muldi3_spec a b : - 2 ^ 63 <= a < 2 ^ 63 -> - 2 ^ 63 <= b < 2 ^ 63 -> __muldi3 a b = s64 (a * b).
Proof.
  intros Ha Hb. unfold __muldi3.
  destruct (abs_words false a Ha) as (u & u1 & u0 & sa & Ea & E1 & E0 & H1 & H0 & Eu).
  destruct (abs_words sa b Hb) as (v & v1 & v0 & sb & Eb & E3 & E2 & H3 & H2 & Ev).
  cbn [negb xorb] in Ea. rewrite Ea, Eb, E0, E1, E2, E3. clear Ea Eb E0 E1 E2 E3.
  match goal with |- context [if (u1 =? 0) && _ then ?x else ?y] => assert (s64 ((u1 * 2 ^ 32 + u0) * (v1 * 2 ^ 32 + v0)) = if (u1 =? 0) && (v1 =? 0) then x else y) as <- end.
  2: { rewrite <- Eu, <- Ev. destruct sa, sb; cbn [xorb]; rewrite ?s64_neg; f_equal; lia. }
  rewrite lmulq_spec by done. destruct ((u1 =? 0) && (v1 =? 0)) eqn:Es; boolify; [by subst|].
  destruct (diff_sign false u1 u0 (2 ^ 32)) as (ud & sg & Ed & Hd & Hud); [done..|].
  destruct (diff_sign sg v0 v1 (2 ^ 32)) as (vd & sg' & Ed' & Hd' & Hvd); [done..|].
  assert ((if u0 <=? u1 then (false, u32 (u1 - u0)) else (true, u32 (u0 - u1))) = (sg, ud)) as ->.
  { destruct (u0 <=? u1); cbn [xorb negb] in Ed; congruence. }
  rewrite Ed'. destruct (ui_s64 (u0 * v0)) as [-> ->]. symmetry. set (lo := u0 * v0).
  assert (0 <= lo < 2 ^ 64) as Hlo by (unfold lo; nia). assert (lo = ui_H lo * 2 ^ 32 + ui_L lo) as El by (rewrite ui_H_div; unfold ui_L, u32; zlia).
  match goal with |- uu_ll (u32 ?x) _ = _ => assert (u32 x = u32 (u1 * v1 + (u1 - u0) * (v0 - v1) + ui_L lo + ui_H lo)) as -> end.
  { rewrite <- Hud, <- Hvd. generalize (ui_L lo), (ui_H lo). intros l h. unfold u32. destruct sg, sg'; cbn [xorb]; zlia. }
  set (x := u1 * v1 + _ + _ + _). apply (double_ll (u32 x, ui_L lo)). split; [apply u32_range|]. cbn [fst snd].
  exists (- (u1 * v1) - ui_H lo - x / 2 ^ 32). assert (u32 x = x - x / 2 ^ 32 * 2 ^ 32) as -> by (unfold u32; zlia).
  unfold x at 1. unfold lo in El at 1. lia.
Qed.
