(* ===== verification/QDivRem.v ===== *)
(** The 64-bit division of common/gcc-millicode: [__qdivrem] of qdivrem.c
    (Knuth's Algorithm D in base 2^16) and the four entry points on top of
    it.

    The state is the three arrays on the stack of [__qdivrem], uninitialised
    when it starts; a pointer into one of them is the array and an index.
    Reading or writing outside an array faults, and so does the deliberate
    [1 / zero]. *)
From S2P Require Import Prelude LongLong.

Record qd := Qd { uspace : list Z; vspace : list Z; qspace : list Z }.

Notation QM := (M qd).

Inductive space := US | VS | QS.

#[export] Instance space_eq_dec : EqDecision space.
Proof. solve_decision. Defined.

Definition sel (sp : space) (s : qd) : list Z := match sp with US => uspace s | VS => vspace s | QS => qspace s end.

Definition upd (sp : space) (l : list Z) (s : qd) : qd :=
  match sp with
  | US => Qd l (vspace s) (qspace s)
  | VS => Qd (uspace s) l (qspace s)
  | QS => Qd (uspace s) (vspace s) l
  end.

Definition rd (sp : space) (i : Z) : QM Z :=
  a <- gets (sel sp) ;;
  deref (if 0 <=? i then a !! Z.to_nat i else None).

Definition wr (sp : space) (i x : Z) : QM unit :=
  rd sp i ;;;
  modify (fun s => upd sp (<[Z.to_nat i := x]> (sel sp s)) s).

(** ** Digits in base [B] *)

Definition B : Z := 2 ^ HALF_BITS.
Definition COMBINE (a b : Z) : Z := Z.lor (u32 (Z.shiftl a HALF_BITS)) b.

(** The cast to [unsigned short]. *)
Definition digit (x : Z) : Z := x mod 2 ^ 16.

(** [for (i = k; i > 0; i--)] with a local variable. *)
Fixpoint for_down {L} (k : nat) (l : L) (body : Z -> L -> QM L) : QM L :=
  match k with
  | O => ret l
  | S k' => l' <- body (Z.of_nat k) l ;; for_down k' l' body
  end.

Definition shl (sp : space) (p len sh : Z) : QM unit :=
  for_ (R := unit) (Z.to_nat len) 0 (fun i =>
    a <- rd sp (p + i) ;;
    b <- rd sp (p + i + 1) ;;
    wr sp (p + i) (digit (Z.lor (LHALF (u32 (Z.shiftl a sh))) (Z.shiftr b (HALF_BITS - sh)))) ;;;
    ret None) ;;;
  let i := Z.max 0 len in
  a <- rd sp (p + i) ;;
  wr sp (p + i) (digit (LHALF (u32 (Z.shiftl a sh)))).

(** The digits of [x] into places 1 to 4 of an array. *)
Definition load_digits (sp : space) (x : Z) : QM unit :=
  wr sp 1 (digit (HHALF (ui_H x))) ;;;
  wr sp 2 (digit (LHALF (ui_H x))) ;;;
  wr sp 3 (digit (HHALF (ui_L x))) ;;;
  wr sp 4 (digit (LHALF (ui_L x))).

(** The number in places 1 to 4 of an array. *)
Definition combine_digits (sp : space) : QM Z :=
  d1 <- rd sp 1 ;; d2 <- rd sp 2 ;; d3 <- rd sp 3 ;; d4 <- rd sp 4 ;;
  ret (uu_ull (COMBINE d1 d2) (COMBINE d3 d4)).

(** ** One-digit divisor: exercise 16 *)

Definition short_division (v : Z) (arq : bool) : QM (Z * option Z) :=
  t <- rd VS (v + 2) ;;
  (if t =? 0 then fault else ret tt) ;;;
  u1 <- rd US 1 ;; u2 <- rd US 2 ;; u3 <- rd US 3 ;; u4 <- rd US 4 ;;
  let q1 := digit (u1 / t) in
  let rbj := COMBINE (u1 mod t) u2 in
  let q2 := digit (rbj / t) in
  let rbj := COMBINE (rbj mod t) u3 in
  let q3 := digit (rbj / t) in
  let rbj := COMBINE (rbj mod t) u4 in
  let q4 := digit (rbj / t) in
  ret (uu_ull (COMBINE q1 q2) (COMBINE q3 q4), if arq then Some (rbj mod t) else None).

(** ** Program D *)

(** [for (n = 4; v[1] == 0; v++)]: the divisor's length and where it starts,
    or the answer when the divisor has one digit. *)
Definition skip_v (arq : bool) : QM ((Z * Z) + (Z * option Z)) :=
  loop_ 4 (4, 0) (fun '(n, v) =>
    v1 <- rd VS (v + 1) ;;
    if v1 =? 0 then
      let n := n - 1 in
      if n =? 1 then r <- short_division v arq ;; ret (inr (inr r))
      else ret (inl (n, v + 1))
    else ret (inr (inl (n, v)))).

(** [for (m = 4 - n; u[1] == 0; u++) m--]. *)
Definition skip_u (n : Z) : QM (Z * Z) :=
  loop_ 5 (4 - n, 0) (fun '(m, u) =>
    u1 <- rd US (u + 1) ;;
    if u1 =? 0 then ret (inl (m - 1, u + 1)) else ret (inr (m, u))).

(** D1: [for (t = v[1]; t < B / 2; t <<= 1) d++]. *)
Definition normalise (v : Z) : QM Z :=
  v1 <- rd VS (v + 1) ;;
  loop_ 17 (v1, 0) (fun '(t, d) =>
    if t <? B / 2 then ret (inl (u32 (Z.shiftl t 1), d + 1)) else ret (inr d)).

(** The body of the correction loop of D3: [inr] leaves the loop. *)
Definition qhat_too_big (v1 qhat rhat : Z) : (Z * Z) + (Z * Z) :=
  let qhat := u32 (qhat - 1) in
  let rhat := u32 (rhat + v1) in
  if B <=? rhat then inr (qhat, rhat) else inl (qhat, rhat).

Definition correct_qhat (v1 v2 uj2 qhat rhat : Z) : QM (Z * Z) :=
  loop_ 3 (qhat, rhat) (fun '(qhat, rhat) =>
    if COMBINE rhat uj2 <? u32 (v2 * qhat) then ret (qhat_too_big v1 qhat rhat) else ret (inr (qhat, rhat))).

(** D3. *)
Definition calculate_qhat (v1 v2 uj0 uj1 uj2 : Z) : QM Z :=
  p <- (if uj0 =? v1 then
          match qhat_too_big v1 B uj1 with
          | inr p => ret p
          | inl (qhat, rhat) => correct_qhat v1 v2 uj2 qhat rhat
          end
        else
          let nn := COMBINE uj0 uj1 in
          (if v1 =? 0 then fault else ret tt) ;;;
          correct_qhat v1 v2 uj2 (nn / v1) (nn mod v1)) ;;
  ret p.1.

(** D4: subtract [qhat * v[1..n]] from [u[j..j+n]]; the last [t]. *)
Definition multiply_subtract (u v n j qhat : Z) : QM Z :=
  t <- for_down (Z.to_nat n) 0 (fun i t =>
         a <- rd US (u + (i + j)) ;;
         b <- rd VS (v + i) ;;
         let t := u32 (a - b * qhat - t) in
         wr US (u + (i + j)) (digit (LHALF t)) ;;;
         ret (Z.land (u32 (B - HHALF t)) (B - 1))) ;;
  a <- rd US (u + j) ;;
  let t := u32 (a - t) in
  wr US (u + j) (digit (LHALF t)) ;;;
  ret t.

(** D6: add [v[1..n]] back to [u[j..j+n]]. *)
Definition add_back (u v n j : Z) : QM unit :=
  t <- for_down (Z.to_nat n) 0 (fun i t =>
         a <- rd US (u + (i + j)) ;;
         b <- rd VS (v + i) ;;
         let t := u32 (t + (a + b)) in
         wr US (u + (i + j)) (digit (LHALF t)) ;;;
         ret (HHALF t)) ;;
  a <- rd US (u + j) ;;
  wr US (u + j) (digit (LHALF (u32 (a + t)))).

(** One round of the main loop, D3 to D6. *)
Definition quotient_digit (u v q n j v1 v2 : Z) : QM unit :=
  uj0 <- rd US (u + (j + 0)) ;;
  uj1 <- rd US (u + (j + 1)) ;;
  uj2 <- rd US (u + (j + 2)) ;;
  qhat <- calculate_qhat v1 v2 uj0 uj1 uj2 ;;
  t <- multiply_subtract u v n j qhat ;;
  qhat <- (if negb (HHALF t =? 0) then add_back u v n j ;;; ret (u32 (qhat - 1)) else ret qhat) ;;
  wr QS (q + j) (digit qhat).

(** The remainder: [u[m..m+n] >> d] in place. *)
Definition denormalise (u n m d : Z) : QM unit :=
  if d =? 0 then ret tt
  else
    for_down (Z.to_nat n) tt (fun k _ =>
      let i := m + k in
      a <- rd US (u + i) ;;
      b <- rd US (u + (i - 1)) ;;
      wr US (u + i) (digit (Z.lor (Z.shiftr a d) (LHALF (u32 (Z.shiftl b (HALF_BITS - d))))))) ;;;
    wr US (u + m) 0.

Definition program_d (n v : Z) (arq : bool) : QM (Z * option Z) :=
  p <- skip_u n ;; let '(m, u) := p in
  for_ (R := unit) (Z.to_nat (4 - m)) 0 (fun k => wr QS (4 - m - 1 - k) 0 ;;; ret None) ;;;
  let q := 4 - m in
  d <- normalise v ;;
  (if 0 <? d then shl US u (m + n) d ;;; shl VS (v + 1) (n - 1) d else ret tt) ;;;
  v1 <- rd VS (v + 1) ;;
  v2 <- rd VS (v + 2) ;;
  loop_ 5 0 (fun j =>
    quotient_digit u v q n j v1 v2 ;;;
    let j := j + 1 in
    if j <=? m then ret (inl j) else ret (inr tt)) ;;;
  rem <- (if arq then denormalise u n m d ;;; r <- combine_digits US ;; ret (Some r) else ret None) ;;
  quo <- combine_digits QS ;;
  ret (quo, rem).

Definition __qdivrem (ull vll : Z) (arq : bool) : QM (Z * option Z) :=
  if vll =? 0 then fault
  else if ull <? vll then ret (0, if arq then Some ull else None)
  else
    wr US 0 0 ;;;
    load_digits US ull ;;;
    load_digits VS vll ;;;
    r <- skip_v arq ;;
    match r with
    | inr res => ret res
    | inl (n, v) => program_d n v arq
    end.

(** ** The four entry points *)

Definition __udivdi3 (a b : Z) : QM Z := p <- __qdivrem a b false ;; let '(q, _) := p in ret q.

Definition __umoddi3 (a b : Z) : QM Z := p <- __qdivrem a b true ;; let '(_, r) := p in deref r.

Definition __divdi3 (a b : Z) : QM Z :=
  let '(ua, neg) := if a <? 0 then (u64 (- u64 a), true) else (u64 a, false) in
  let '(ub, neg) := if b <? 0 then (u64 (- u64 b), negb neg) else (u64 b, neg) in
  p <- __qdivrem ua ub false ;; let '(uq, _) := p in
  ret (s64 (if neg then u64 (- uq) else uq)).

Definition __moddi3 (a b : Z) : QM Z :=
  let '(ua, neg) := if a <? 0 then (u64 (- u64 a), true) else (u64 a, false) in
  let ub := if b <? 0 then u64 (- u64 b) else u64 b in
  p <- __qdivrem ua ub true ;; let '(_, ur) := p in
  ur <- deref ur ;;
  ret (s64 (if neg then u64 (- ur) else ur)).
