(* ===== verification/QDivStep.v ===== *)
(** Arrays of base 2^16 digits for the division of [QDivRem]: reading and
    writing them, the number a range of digits stands for, and the rule for
    the loops that walk a range from its lowest digit. *)

From S2P Require Import Prelude LongLong QDivRem.

Lemma B_eq : B = 65536.
Proof. done. Qed.

(** ** Places *)

Definition dg (a : list Z) (i : Z) : Z := default 0 (a !! Z.to_nat i).

(** An [unsigned short[5]]. *)
Definition arr (a : list Z) : Prop := length a = 5%nat /\ Forall (fun x => 0 <= x < B) a.

Definition stack (s : qd) : Prop := forall sp, arr (sel sp s).

Lemma dg_lookup a i : arr a -> 0 <= i < 5 -> a !! Z.to_nat i = Some (dg a i).
Proof. intros [Hl _] Hi. unfold dg. destruct (lookup_lt_is_Some_2 a (Z.to_nat i)) as [x ->]; [lia|done]. Qed.

Lemma dg_range a i : arr a -> 0 <= dg a i < B.
Proof.
  intros [_ Hf]. unfold dg. destruct (a !! Z.to_nat i) as [x|] eqn:E; [|rewrite B_eq; simpl; lia].
  by apply (Forall_lookup_1 _ _ _ _ Hf E).
Qed.

Lemma dg_insert a i j x : arr a -> 0 <= i < 5 -> 0 <= j -> dg (<[Z.to_nat i := x]> a) j = if decide (j = i) then x else dg a j.
Proof.
  intros [Hl _] Hi Hj. unfold dg. destruct (decide (j = i)) as [->|].
  - by rewrite list_lookup_insert_eq by lia.
  - by rewrite list_lookup_insert_ne by lia.
Qed.

Lemma arr_insert a i x : arr a -> 0 <= x < B -> arr (<[i := x]> a).
Proof. intros [Hl Hf] Hx. split; [by rewrite length_insert|]. by apply Forall_insert. Qed.

Lemma sel_upd sp sp' l s : sel sp' (upd sp l s) = if decide (sp = sp') then l else sel sp' s.
Proof. by destruct sp, sp'. Qed.

Lemma stack_upd sp l s : stack s -> arr l -> stack (upd sp l s).
Proof. intros Hs Hl sp'. rewrite sel_upd. by destruct (decide _). Qed.

Lemma wp_rd sp i (Q : Z -> qd -> Prop) s : stack s -> 0 <= i < 5 -> Q (dg (sel sp s) i) s -> wp (rd sp i) Q s.
Proof.
  intros Hs Hi HQ. unfold rd. wp_step. apply (wp_deref _ (dg (sel sp s) i)); [|done].
  replace (0 <=? i) with true by lia. by apply dg_lookup.
Qed.

Lemma wp_wr sp i x (Q : unit -> qd -> Prop) s : stack s -> 0 <= i < 5 -> 0 <= x < B ->
  (stack (upd sp (<[Z.to_nat i := x]> (sel sp s)) s) -> Q tt (upd sp (<[Z.to_nat i := x]> (sel sp s)) s)) -> wp (wr sp i x) Q s.
Proof. intros Hs Hi Hx HQ. unfold wr. apply wp_bind, wp_rd; [done..|]. apply wp_modify, HQ, stack_upd, arr_insert; done. Qed.

(** ** Numbers *)

Fixpoint valn (a : list Z) (lo : Z) (k : nat) : Z :=
  match k with
  | O => 0
  | S k' => dg a lo * B ^ Z.of_nat k' + valn a (lo + 1) k'
  end.

(** The number whose digits are [a[lo]], ..., [a[lo + n - 1]]. *)
Definition val (a : list Z) (lo n : Z) : Z := valn a lo (Z.to_nat n).

Lemma val_0 a lo : val a lo 0 = 0.
Proof. done. Qed.

Lemma val_cons a lo n : 0 < n -> val a lo n = dg a lo * B ^ (n - 1) + val a (lo + 1) (n - 1).
Proof. intros Hn. unfold val. replace (Z.to_nat n) with (S (Z.to_nat (n - 1))) by lia. cbn [valn]. by rewrite Z2Nat.id by lia. Qed.

Lemma val_ind (P : Z -> Z -> Prop) : (forall lo, P lo 0) -> (forall lo n, 0 < n -> P (lo + 1) (n - 1) -> P lo n) -> forall n lo, 0 <= n -> P lo n.
Proof.
  intros H0 HS n lo Hn. revert lo. pattern n. apply natlike_ind; [done| |done].
  intros x Hx IH lo. apply HS; [lia|]. by replace (Z.succ x - 1) with x by lia.
Qed.

Lemma val_range a lo n : arr a -> 0 <= n -> 0 <= val a lo n < B ^ n.
Proof.
  intros Ha Hn. revert n lo Hn. apply (val_ind (fun lo n => 0 <= val a lo n < B ^ n)); [done|].
  intros lo n Hn IH. rewrite val_cons by done. pose proof (dg_range a lo Ha). replace (B ^ n) with (B * B ^ (n - 1)); [nia|].
  rewrite <- Z.pow_succ_r by lia. f_equal. lia.
Qed.

Lemma val_ext a b lo n : 0 <= n -> (forall i, lo <= i < lo + n -> dg a i = dg b i) -> val a lo n = val b lo n.
Proof.
  intros Hn. revert n lo Hn. apply (val_ind (fun lo n => (forall i, lo <= i < lo + n -> dg a i = dg b i) -> val a lo n = val b lo n)); [done|].
  intros lo n Hn IH H. rewrite !(val_cons _ lo n) by done. rewrite H by lia. f_equal. apply IH. intros i Hi. apply H. lia.
Qed.

Lemma val_app a lo k l : 0 <= k -> 0 <= l -> val a lo (k + l) = val a lo k * B ^ l + val a (lo + k) l.
Proof.
  intros Hk Hl. revert k lo Hk. apply (val_ind (fun lo k => val a lo (k + l) = val a lo k * B ^ l + val a (lo + k) l)).
  - intros lo. by rewrite Z.add_0_r, val_0, Z.add_0_l.
  - intros lo k Hk IH. rewrite (val_cons a lo (k + l)), (val_cons a lo k) by lia.
    replace (k + l - 1) with (k - 1 + l) by lia. rewrite IH, Z.pow_add_r by lia. replace (lo + 1 + (k - 1)) with (lo + k) by lia. lia.
Qed.

Lemma val_1 a lo : val a lo 1 = dg a lo.
Proof. rewrite val_cons by done. change (1 - 1) with 0. rewrite val_0, Z.pow_0_r. lia. Qed.

Lemma val_snoc a lo n : 0 < n -> val a lo n = val a lo (n - 1) * B + dg a (lo + (n - 1)).
Proof. intros Hn. replace n with (n - 1 + 1) at 1 by lia. by rewrite val_app, val_1, Z.pow_1_r by lia. Qed.

Lemma val_zero a lo n : 0 <= n -> (forall i, lo <= i < lo + n -> dg a i = 0) -> val a lo n = 0.
Proof.
  intros Hn. revert n lo Hn. apply (val_ind (fun lo n => (forall i, lo <= i < lo + n -> dg a i = 0) -> val a lo n = 0)); [done|].
  intros lo n Hn IH H. rewrite val_cons, H, IH by (try lia; intros i Hi; apply H; lia). lia.
Qed.

(** Writing outside the range leaves its number alone. *)
Lemma val_insert_out a lo n i x : arr a -> 0 <= lo -> 0 <= n -> 0 <= i < 5 -> ~ lo <= i < lo + n -> val (<[Z.to_nat i := x]> a) lo n = val a lo n.
Proof. intros Ha Hlo Hn Hi Ho. apply val_ext; [done|]. intros j Hj. rewrite dg_insert by (done || lia). rewrite decide_False by lia. done. Qed.

(** ** Loops *)

Lemma wp_for_down {L} n (l : L) (body : Z -> L -> QM L) (I : Z -> L -> qd -> Prop) Q s : 0 <= n -> I n l s ->
  (forall i l s, 1 <= i <= n -> I i l s -> wp (body i l) (fun l' s' => I (i - 1) l' s') s) ->
  (forall l s, I 0 l s -> Q l s) ->
  wp (for_down (Z.to_nat n) l body) Q s.
Proof.
  intros Hn HI Hstep Hend. assert (exists k, n = Z.of_nat k) as [k ->] by (exists (Z.to_nat n); lia). clear Hn. rewrite Nat2Z.id.
  revert l s HI. induction k as [|k IH]; intros l s HI; [by apply Hend|]. cbn [for_down].
  apply wp_bind. eapply wp_mono; [apply Hstep; [lia|done]|]. intros l' s' H. cbv beta in H. apply IH.
  - intros. apply Hstep; [lia|done].
  - by replace (Z.of_nat k) with (Z.of_nat (S k) - 1) by lia.
Qed.

(** ** Casts on digits *)

Lemma digit_range x : 0 <= digit x < B.
Proof. by apply Z.mod_pos_bound. Qed.

Lemma digit_LHALF x : digit (LHALF x) = x mod B.
Proof. rewrite LHALF_mod. unfold digit. rewrite B_eq. zlia. Qed.

Lemma COMBINE_add a b : 0 <= a < B -> 0 <= b < B -> COMBINE a b = a * B + b.
Proof.
  rewrite !B_eq. intros Ha Hb. unfold COMBINE. rewrite u32_id; [by apply lor_shiftl_add|].
  unfold HALF_BITS. rewrite Z.shiftl_mul_pow2 by lia. lia.
Qed.

(** * One digit of the quotient: the estimate of step D3 is the digit or one
    more, steps D4 to D6 leave the remainder in place of the dividend. *)

(** ** D3: the estimate *)

Section estimate.
(** [U] is [u[j..j+n]], [V] is [v[1..n]], [W] is [B^(n-2)], [N] is
    [u[j] * B + u[j+1]] and [q] the digit to find. *)
Context (v1 v2 N uj2 W Ulo Vlo U V q : Z).
Hypothesis (Hv1 : 32768 <= v1 < B) (Hv2 : 0 <= v2 < B) (Huj2 : 0 <= uj2 < B) (HW : 0 < W).
Hypothesis (HUlo : 0 <= Ulo < W) (HVlo : 0 <= Vlo < W).
Hypothesis (HU : U = (N * B + uj2) * W + Ulo) (HV : V = (v1 * B + v2) * W + Vlo).
Hypothesis (Hq : q * V <= U < (q + 1) * V) (Hq0 : 0 <= q < B).

(** An estimate that is found too big is. *)
Lemma too_big qhat rhat : qhat * v1 + rhat = N -> 0 <= qhat -> rhat * B + uj2 < v2 * qhat -> q < qhat.
Proof.
  intros HN H0 Hlt. apply (Z.mul_lt_mono_pos_r V); [lia|].
  assert ((N * B + uj2 + 1) * W <= qhat * (v1 * B + v2) * W) by (apply Z.mul_le_mono_nonneg_r; lia).
  assert (0 <= qhat * Vlo) by (apply Z.mul_nonneg_nonneg; lia). rewrite HV at 2. lia.
Qed.

(** An estimate that is not is at most one too big. *)
Lemma not_too_big qhat rhat : qhat * v1 + rhat = N -> 0 <= qhat < B -> v2 * qhat <= rhat * B + uj2 -> qhat <= q + 1.
Proof.
  intros HN H0 Hle. enough (qhat < q + 2) by lia. apply (Z.mul_lt_mono_pos_r V); [lia|].
  assert (qhat * (v1 * B + v2) * W <= (N * B + uj2) * W) by (apply Z.mul_le_mono_nonneg_r; lia).
  assert (qhat * Vlo <= B * W) by (apply Z.mul_le_mono_nonneg; lia).
  assert (2 * (B * W) <= v1 * (B * W)) by (apply Z.mul_le_mono_nonneg_r; rewrite ?B_eq; lia).
  assert (0 < B * W) by (rewrite B_eq; lia). assert (0 <= v2 * W) by (apply Z.mul_nonneg_nonneg; lia).
  assert (qhat * V <= U + qhat * Vlo) by lia. assert (qhat * Vlo < V) by lia. lia.
Qed.

(** [qhat] is an upper bound and [rhat] its remainder. *)
Definition bounding (p : Z * Z) : Prop := p.1 * v1 + p.2 = N /\ q <= p.1 < B.

Lemma qhat_too_big_spec qhat rhat : 1 <= qhat <= B -> 0 <= rhat < B -> qhat * v1 + rhat = N -> q < qhat ->
  match qhat_too_big v1 qhat rhat with
  | inl (qhat', rhat') => bounding (qhat', rhat') /\ rhat + v1 = rhat' /\ rhat' < B
  | inr p => q <= p.1 <= q + 1 /\ p.1 < B
  end.
Proof.
  intros Hqh Hr HN Hlt. unfold qhat_too_big. pose proof B_eq as EB. rewrite !u32_id by lia.
  destruct (B <=? rhat + v1) eqn:E; boolify; unfold bounding; cbn [fst snd].
  - assert (qhat - 1 <= q + 1); [|lia]. apply (not_too_big _ (rhat + v1)); [lia|lia|].
    assert (v2 * (qhat - 1) <= B * B) by (apply Z.mul_le_mono_nonneg; lia).
    assert (B * B <= (rhat + v1) * B) by (apply Z.mul_le_mono_nonneg_r; lia). lia.
  - lia.
Qed.

Lemma wp_correct_qhat qhat rhat s : bounding (qhat, rhat) -> 0 <= rhat < B ->
  wp (correct_qhat v1 v2 uj2 qhat rhat) (fun p s' => s' = s /\ q <= p.1 <= q + 1 /\ p.1 < B) s.
Proof.
  intros Hb Hr. unfold correct_qhat.
  apply (wp_loop _ _ _ (fun p s' => s' = s /\ bounding p /\ 0 <= p.2 < B) (fun p _ => if p.2 <? 32768 then 1%nat else 0%nat)).
  - done.
  - cbn [snd]. case_match; lia.
  - intros [qh rh] s' (-> & [HN Hqh] & Hrh). cbn [fst snd] in *. rewrite COMBINE_add by done.
    pose proof B_eq as EB.
    assert (v2 * qh <= 65535 * 65535) by (apply Z.mul_le_mono_nonneg; lia). assert (0 <= v2 * qh) by (apply Z.mul_nonneg_nonneg; lia).
    rewrite (u32_id (v2 * qh)) by lia.
    destruct (rh * B + uj2 <? v2 * qh) eqn:E; boolify; wp_steps.
    + pose proof (too_big qh rh HN ltac:(lia) E) as Hlt. pose proof (qhat_too_big_spec qh rh ltac:(lia) Hrh HN Hlt) as Ht.
      destruct (qhat_too_big v1 qh rh) as [[qh' rh']|p]; [|by destruct Ht].
      destruct Ht as (Hb' & Er & Hr'). cbn [snd]. split; [split_and!; [done|done|lia|lia]|]. do 2 case_match; boolify; lia.
    + split; [done|]. cbn [fst]. pose proof (not_too_big qh rh HN ltac:(lia) E). lia.
Qed.

Lemma wp_calculate_qhat uj0 uj1 s : 0 <= uj0 < B -> 0 <= uj1 < B -> N = uj0 * B + uj1 ->
  wp (calculate_qhat v1 v2 uj0 uj1 uj2) (fun qhat s' => s' = s /\ q <= qhat <= q + 1 /\ qhat < B) s.
Proof.
  intros H0 H1 HN. unfold calculate_qhat. pose proof B_eq as EB. assert (0 < B * W) as HBW by lia.
  assert (0 <= v2 * W) by (apply Z.mul_nonneg_nonneg; lia).
  apply wp_bind. apply (wp_mono _ (fun p s' => s' = s /\ q <= p.1 <= q + 1 /\ p.1 < B)); [|done].
  destruct (uj0 =? v1) eqn:E; boolify.
  - pose proof (qhat_too_big_spec B uj1 ltac:(lia) H1 ltac:(lia) ltac:(lia)) as Ht.
    destruct (qhat_too_big v1 B uj1) as [[qh rh]|p]; [|done]. destruct Ht as (Hb & Er & Hr). apply wp_correct_qhat; [done|lia].
  - rewrite COMBINE_add by done. replace (v1 =? 0) with false by lia. wp_steps. rewrite <- HN.
    assert (uj0 < v1) as Hlt.
    { enough (uj0 < v1 + 1) by lia. apply (Z.mul_lt_mono_pos_r (B * (B * W))); [lia|].
      assert ((v2 + 1) * W <= B * W) by (apply Z.mul_le_mono_nonneg_r; lia).
      assert ((q + 1) * V <= B * V) by (apply Z.mul_le_mono_nonneg_r; lia). 
      assert (0 <= uj1 * (B * W)) by (apply Z.mul_nonneg_nonneg; lia). assert (0 <= uj2 * W) by (apply Z.mul_nonneg_nonneg; lia). 
      assert (B * V < B * ((v1 + 1) * (B * W))) by (apply Z.mul_lt_mono_pos_l; lia). rewrite HN in HU. lia. }
    pose proof (Z.div_mod N v1 ltac:(lia)). pose proof (Z.mod_pos_bound N v1 ltac:(lia)).
    apply wp_correct_qhat; [|lia]. split; [cbn [fst snd]; lia|]. cbn [fst]. split.
    + apply Z.div_le_lower_bound; [lia|]. enough (v1 * q < N + 1) by lia. apply (Z.mul_lt_mono_pos_r (B * W)); [lia|].
      assert ((uj2 + 1) * W <= B * W) by (apply Z.mul_le_mono_nonneg_r; lia).
      assert (0 <= q * (v2 * W + Vlo)) by (apply Z.mul_nonneg_nonneg; lia). lia.
    + apply Z.div_lt_upper_bound; [lia|]. assert ((uj0 + 1) * B <= v1 * B) by (apply Z.mul_le_mono_nonneg_r; lia). lia.
Qed.
End estimate.

(** ** D4 and D6: one row of long division *)

(** Only the places [lo] to [hi] of [uspace] differ. *)
Definition only_u (lo hi : Z) (s s' : qd) : Prop :=
  stack s' /\ vspace s' = vspace s /\ qspace s' = qspace s /\
  forall i, 0 <= i -> ~ lo <= i <= hi -> dg (uspace s') i = dg (uspace s) i.

Lemma only_u_refl lo hi s : stack s -> only_u lo hi s s.
Proof. done. Qed.

(** A digit and the borrow out of it. *)
Lemma borrow a b qhat t : 0 <= a < B -> 0 <= b < B -> 0 <= qhat < B -> 0 <= t < B ->
  let y := a - b * qhat - t in
  digit (LHALF (u32 y)) = y mod B /\ Z.land (u32 (B - HHALF (u32 y))) (B - 1) = - (y / B) /\ 0 <= - (y / B) < B.
Proof.
  rewrite !B_eq. intros Ha Hb Hq Ht y. assert (- (65535 * 65536) <= y < 65536) as Hy.
  { assert (0 <= b * qhat) by (apply Z.mul_nonneg_nonneg; lia). assert (b * qhat <= 65535 * 65535) by (apply Z.mul_le_mono_nonneg; lia). lia. }
  clearbody y. rewrite digit_LHALF, HHALF_div. change (65536 - 1) with (Z.ones 16). rewrite Z.land_ones by lia. rewrite B_eq. unfold u32. zlia.
Qed.

(** A digit and the carry out of it. *)
Lemma carry a b t : 0 <= a < B -> 0 <= b < B -> 0 <= t <= 1 ->
  let y := t + (a + b) in
  digit (LHALF (u32 y)) = y mod B /\ HHALF (u32 y) = y / B /\ 0 <= y / B <= 1.
Proof. rewrite !B_eq. intros Ha Hb Ht y. rewrite digit_LHALF, HHALF_div, B_eq. unfold u32, y. zlia. Qed.

Lemma Bpow_succ k : 0 <= k -> B ^ (k + 1) = B * B ^ k.
Proof. intros. by rewrite Z.add_1_r, Z.pow_succ_r. Qed.

Section row.
Context (u v n j : Z) (s : qd).
Hypothesis (Hs : stack s) (Hu : 0 <= u) (Hv : 0 <= v) (Hj : 0 <= j) (Hn : 1 <= n) (Hun : u + j + n <= 4) (Hvn : v + n <= 4).

(** A digit of the row is replaced. *)
Lemma only_u_wr i x s1 : 0 <= i <= n -> only_u (u + j + i + 1) (u + j + n) s s1 -> 0 <= x < B ->
  only_u (u + j + i) (u + j + n) s (upd US (<[Z.to_nat (u + (i + j)) := x]> (sel US s1)) s1).
Proof.
  intros Hi (H1 & H2 & H3 & H4) Hx. split_and!; [apply stack_upd, arr_insert; done|done|done|].
  intros k Hk Ho. cbn. rewrite dg_insert, decide_False by (lia || apply (H1 US)). apply H4; lia.
Qed.

(** What the digits from [i] down stand for after the replacement. *)
Lemma val_wr i x s1 : 0 <= i <= n -> only_u (u + j + i + 1) (u + j + n) s s1 ->
  val (<[Z.to_nat (u + (i + j)) := x]> (uspace s1)) (u + j + i) (n - i + 1) = x * B ^ (n - i) + val (uspace s1) (u + j + i + 1) (n - i).
Proof.
  intros Hi (H1 & H2 & H3 & H4). rewrite val_cons by lia. replace (n - i + 1 - 1) with (n - i) by lia.
  rewrite val_insert_out by (lia || apply (H1 US)). rewrite dg_insert, decide_True by (lia || apply (H1 US)). done.
Qed.

(** A row of digits with a carry [t] of sign [e] between them: the row is
    increased by [f] times the divisor. *)
Lemma wp_row (X T : Z -> Z -> Z -> Z) (P : Z -> Prop) (e f : Z) :
  P 0 -> (forall a b t, 0 <= a < B -> 0 <= b < B -> P t -> 0 <= X a b t < B /\ P (T a b t) /\ X a b t + e * T a b t * B = a + f * b + e * t) ->
  wp (for_down (Z.to_nat n) 0 (fun i t =>
        a <- rd US (u + (i + j)) ;; b <- rd VS (v + i) ;;
        wr US (u + (i + j)) (X a b t) ;;; ret (T a b t)))
    (fun t s' => P t /\ only_u (u + j + 1) (u + j + n) s s' /\
       val (uspace s') (u + j + 1) n + e * t * B ^ n = val (uspace s) (u + j + 1) n + f * val (vspace s) (v + 1) n) s.
Proof.
  intros P0 HX. apply (wp_for_down _ _ _ (fun i t s' => P t /\ only_u (u + j + i + 1) (u + j + n) s s' /\
    val (uspace s') (u + j + i + 1) (n - i) + e * t * B ^ (n - i) = val (uspace s) (u + j + i + 1) (n - i) + f * val (vspace s) (v + i + 1) (n - i))).
  - lia.
  - split_and!; [done|by apply only_u_refl|]. rewrite Z.sub_diag, !val_0, Z.pow_0_r. lia.
  - intros i t s1 Hi (Pt & Ho & HI). pose proof Ho as (H1 & EV & EQ & HF).
    apply wp_bind, wp_rd; [done|lia|]. apply wp_bind, wp_rd; [done|lia|].
    cbn [sel]. rewrite EV. set (a := dg (uspace s1) _). set (b := dg (vspace s) _).
    assert (a = dg (uspace s) (u + j + i)) as Ea by (unfold a; rewrite HF by lia; f_equal; lia).
    destruct (HX a b t) as (Hx & Pt' & E); [apply dg_range, (H1 US)|apply dg_range, (Hs VS)|done|].
    apply wp_bind, wp_wr; [done|lia|done|]. intros Hs2. apply wp_ret.
    split; [done|]. replace (u + j + (i - 1) + 1) with (u + j + i) by lia. replace (v + (i - 1) + 1) with (v + i) by lia. replace (n - (i - 1)) with (n - i + 1) by lia.
    split; [by apply only_u_wr; [lia| |]|]. cbn [sel upd uspace]. rewrite val_wr by (done || lia).
    rewrite (val_cons (uspace s)), (val_cons (vspace s)), Bpow_succ by lia. replace (n - i + 1 - 1) with (n - i) by lia. fold b. rewrite <- Ea. lia.
  - intros t s1 (Pt & Ho & HI). rewrite !Z.add_0_r, Z.sub_0_r in *. done.
Qed.

(** The digit at the head of the row is replaced. *)
Lemma head_wr x s1 : only_u (u + j + 1) (u + j + n) s s1 -> 0 <= x < B ->
  let s2 := upd US (<[Z.to_nat (u + j) := x]> (sel US s1)) s1 in
  only_u (u + j) (u + j + n) s s2 /\ val (uspace s2) (u + j) (n + 1) = x * B ^ n + val (uspace s1) (u + j + 1) n.
Proof.
  intros Ho Hx. rewrite <- (Z.add_0_r (u + j)) in Ho at 1. pose proof (only_u_wr 0 x s1 ltac:(lia) Ho Hx) as H1. pose proof (val_wr 0 x s1 ltac:(lia) Ho) as H2.
  rewrite !Z.add_0_r, ?Z.sub_0_r, ?Z.add_0_l in *. done.
Qed.

Lemma val_head a lo : val a lo (n + 1) = dg a lo * B ^ n + val a (lo + 1) n.
Proof. rewrite val_cons by lia. by rewrite Z.add_simpl_r. Qed.

Lemma wp_multiply_subtract qhat : 0 <= qhat < B ->
  wp (multiply_subtract u v n j qhat) (fun t s' => only_u (u + j) (u + j + n) s s' /\
    val (uspace s') (u + j) (n + 1) = val (uspace s) (u + j) (n + 1) - qhat * val (vspace s) (v + 1) n + (if HHALF t =? 0 then 0 else B ^ (n + 1))) s.
Proof.
  intros Hq. unfold multiply_subtract. apply wp_bind.
  eapply wp_mono; [apply (wp_row (fun a b t => digit (LHALF (u32 (a - b * qhat - t)))) (fun a b t => Z.land (u32 (B - HHALF (u32 (a - b * qhat - t)))) (B - 1)) (fun t => 0 <= t < B) (- 1) (- qhat))|].
  { done. }
  { intros a b t Ha Hb Ht. destruct (borrow a b qhat t Ha Hb Hq Ht) as (-> & -> & Hr). split_and!; try lia; [apply Z.mod_pos_bound; by rewrite B_eq..|].
    pose proof (Z.div_mod (a - b * qhat - t) B ltac:(done)). lia. }
  intros t s1 (Ht & Ho & HI). pose proof Ho as (H1 & EV & EQ & HF).
  apply wp_bind, wp_rd; [done|lia|]. cbn [sel]. set (a := dg _ _). assert (0 <= a < B) as Ha by apply dg_range, (H1 US).
  apply wp_bind, wp_wr; [done|lia|apply digit_range|]. intros Hs2. apply wp_ret.
  destruct (head_wr (digit (LHALF (u32 (a - t)))) s1 Ho (digit_range _)) as [Ho2 EV2]. split; [done|]. rewrite EV2, val_head, Bpow_succ by lia.
  unfold a. rewrite HF by lia. assert (a = dg (uspace s) (u + j)) as <- by (unfold a; by rewrite HF by lia). clearbody a.
  rewrite digit_LHALF, HHALF_div. rewrite B_eq in *.
  destruct (_ =? 0) eqn:E; boolify.
  - assert (u32 (a - t) mod 65536 = a - t) as -> by (unfold u32 in *; zlia). lia.
  - assert (u32 (a - t) mod 65536 = a - t + 65536) as -> by (unfold u32 in *; zlia). lia.
Qed.

(** Adding the divisor back, dropping the carry out of the row. *)
Lemma wp_add_back :
  wp (add_back u v n j) (fun _ s' => only_u (u + j) (u + j + n) s s' /\
    val (uspace s') (u + j) (n + 1) = (val (uspace s) (u + j) (n + 1) + val (vspace s) (v + 1) n) mod B ^ (n + 1)) s.
Proof.
  unfold add_back. apply wp_bind.
  eapply wp_mono; [apply (wp_row (fun a b t => digit (LHALF (u32 (t + (a + b))))) (fun a b t => HHALF (u32 (t + (a + b)))) (fun t => 0 <= t <= 1) 1 1)|].
  { done. }
  { intros a b t Ha Hb Ht. destruct (carry a b t Ha Hb Ht) as (-> & -> & Hr). split_and!; try lia; [apply Z.mod_pos_bound; by rewrite B_eq..|].
    pose proof (Z.div_mod (t + (a + b)) B ltac:(done)). lia. }
  intros t s1 (Ht & Ho & HI). pose proof Ho as (H1 & EV & EQ & HF).
  apply wp_bind, wp_rd; [done|lia|]. cbn [sel]. set (a := dg _ _). assert (0 <= a < B) as Ha by apply dg_range, (H1 US).
  apply wp_wr; [done|lia|apply digit_range|]. intros Hs2.
  destruct (head_wr (digit (LHALF (u32 (a + t)))) s1 Ho (digit_range _)) as [Ho2 EV2]. split; [done|]. rewrite EV2.
  assert (0 <= val (uspace s1) (u + j + 1) n < B ^ n) as Hr by (apply val_range; [apply (H1 US)|lia]).
  assert (a = dg (uspace s) (u + j)) as Ea by (unfold a; by rewrite HF by lia). 
  apply (Z.mod_unique_pos _ _ ((a + t) / B)).
  - pose proof (digit_range (LHALF (u32 (a + t)))) as Hd. rewrite Bpow_succ by lia. nia.
  - rewrite val_head, Bpow_succ, digit_LHALF by lia. rewrite <- Ea. assert (u32 (a + t) = a + t) as -> by (apply u32_id; rewrite B_eq in *; lia).
    pose proof (Z.div_mod (a + t) B ltac:(done)). clearbody a. assert (forall P, a * P + t * P = B * ((a + t) / B) * P + (a + t) mod B * P) as HP by (intros P; rewrite <- !Z.mul_add_distr_r; by f_equal).
    specialize (HP (B ^ n)). lia.
Qed.
End row.

(** ** A digit of the quotient *)

Section digit.
Context (u v q n j : Z) (s : qd).
Hypothesis (Hs : stack s) (Hu : 0 <= u) (Hv : 0 <= v) (Hj : 0 <= j) (Hn : 2 <= n) (Hun : u + j + n <= 4) (Hvn : v + n <= 4) (Hqj : 0 <= q + j <= 4).
Let V := val (vspace s) (v + 1) n.
Let U := val (uspace s) (u + j) (n + 1).
Hypothesis (Hnorm : 32768 <= dg (vspace s) (v + 1)) (Htop : val (uspace s) (u + j) n < V).

Lemma divisor_split : V = (dg (vspace s) (v + 1) * B + dg (vspace s) (v + 2)) * B ^ (n - 2) + val (vspace s) (v + 3) (n - 2).
Proof.
  unfold V. replace n with (2 + (n - 2)) at 1 by lia. rewrite val_app by lia. rewrite (val_snoc _ _ 2), val_1 by lia.
  replace (v + 1 + (2 - 1)) with (v + 2) by lia. by replace (v + 1 + 2) with (v + 3) by lia.
Qed.

Lemma dividend_split : U = ((dg (uspace s) (u + (j + 0)) * B + dg (uspace s) (u + (j + 1))) * B + dg (uspace s) (u + (j + 2))) * B ^ (n - 2) + val (uspace s) (u + j + 3) (n - 2).
Proof.
  unfold U. replace (n + 1) with (3 + (n - 2)) by lia. rewrite val_app by lia. rewrite (val_snoc _ _ 3), (val_snoc _ _ (3 - 1)), val_1 by lia.
  replace (u + j + (3 - 1)) with (u + (j + 2)) by lia. replace (u + j + (3 - 1 - 1)) with (u + (j + 1)) by lia. by replace (u + (j + 0)) with (u + j) by lia.
Qed.

Lemma digit_bounds : 0 < V < B ^ n /\ 0 <= U / V < B /\ U / V * V <= U < (U / V + 1) * V.
Proof.
  assert (0 <= V < B ^ n) as HV by (apply val_range; [apply (Hs VS)|lia]).
  assert (0 < V) as HV0. { pose proof (val_range (uspace s) (u + j) n (Hs US) ltac:(lia)). lia. }
  assert (0 <= U) as HU by (apply val_range; [apply (Hs US)|lia]).
  pose proof (Z.div_mod U V ltac:(lia)). pose proof (Z.mod_pos_bound U V HV0). pose proof (Z.div_pos U V HU HV0).
  split_and!; try lia. apply Z.div_lt_upper_bound; [done|]. unfold U. rewrite val_snoc by lia. rewrite Z.add_simpl_r.
  pose proof (dg_range (uspace s) (u + j + n) (Hs US)). rewrite B_eq in *. lia.
Qed.

Lemma wp_quotient_digit :
  wp (quotient_digit u v q n j (dg (vspace s) (v + 1)) (dg (vspace s) (v + 2))) (fun _ s' =>
    stack s' /\ vspace s' = vspace s /\ qspace s' = <[Z.to_nat (q + j) := U / V]> (qspace s) /\
    (forall i, 0 <= i -> ~ u + j <= i <= u + j + n -> dg (uspace s') i = dg (uspace s) i) /\
    val (uspace s') (u + j) (n + 1) = U mod V) s.
Proof.
  destruct digit_bounds as (HV & Hq & HU). unfold quotient_digit.
  do 3 (apply wp_bind, wp_rd; [done|lia|]). cbn [sel]. apply wp_bind.
  eapply wp_mono.
  { apply (wp_calculate_qhat _ _ (dg (uspace s) (u + (j + 0)) * B + dg (uspace s) (u + (j + 1))) _ (B ^ (n - 2))
      (val (uspace s) (u + j + 3) (n - 2)) (val (vspace s) (v + 3) (n - 2)) U V (U / V)); try apply dg_range; try apply val_range; try apply (Hs US); try apply (Hs VS); try lia.
    - split; [done|]. apply dg_range, (Hs VS).
    - apply dividend_split.
    - apply divisor_split. }
  intros qhat s1 (-> & Hqh & HqB). apply wp_bind. eapply wp_mono; [apply wp_multiply_subtract; try done; lia|].
  intros t s1 [(Hs1 & EV1 & EQ1 & HF1) E1]. fold U V in E1. pose proof (val_range (uspace s1) (u + j) (n + 1) (Hs1 US) ltac:(lia)) as Hr.
  assert (B ^ n <= B ^ (n + 1)) as Hpow by (apply Z.pow_le_mono_r; [done|lia]).
  pose proof (Z.div_mod U V ltac:(lia)) as Hdm. pose proof (Z.mod_pos_bound U V ltac:(lia)) as Hm.
  apply wp_bind. apply (wp_mono _ (fun qh s' => qh = U / V /\ stack s' /\ vspace s' = vspace s /\ qspace s' = qspace s /\
    (forall i, 0 <= i -> ~ u + j <= i <= u + j + n -> dg (uspace s') i = dg (uspace s) i) /\ val (uspace s') (u + j) (n + 1) = U mod V)).
  - destruct (HHALF t =? 0) eqn:E; cbn [negb].
    + apply wp_ret. assert (qhat = U / V \/ qhat = U / V + 1) as [->| ->] by lia; [split_and!; try done; lia|lia].
    + assert (qhat = U / V \/ qhat = U / V + 1) as [->| ->] by lia; [lia|].
      apply wp_bind. eapply wp_mono; [apply wp_add_back; try done; lia|].
      intros _ s2 [(Hs2 & EV2 & EQ2 & HF2) E2]. apply wp_ret. split_and!; try done; try congruence.
      * unfold u32. rewrite B_eq in *. rewrite Z.mod_small; lia.
      * intros i Hi Ho. rewrite HF2, HF1; done.
      * rewrite E2, E1, EV1. fold V. symmetry. apply (Z.mod_unique_pos _ _ 1); lia.
  - intros qh s2 (-> & Hs2 & EV2 & EQ2 & HF2 & E2). assert (digit (U / V) = U / V) as -> by (unfold digit; rewrite B_eq in *; apply Z.mod_small; lia).
    apply wp_wr; [done|lia|done|]. intros Hs3. split_and!; try done. cbn. by rewrite EQ2.
Qed.
End digit.
