(* ===== verification/QDivSpec.v ===== *)
(** [__qdivrem] returns the quotient and the remainder: the specification of
    each stage of the function, and of the whole. *)

From S2P Require Import Prelude LongLong QDivRem QDivStep.

(** Only the array [sp] differs. *)
Definition only_in (sp : space) (s s' : qd) : Prop := stack s' /\ forall sp', sp' <> sp -> sel sp' s' = sel sp' s.

Lemma only_in_refl sp s : stack s -> only_in sp s s.
Proof. done. Qed.

Lemma only_in_upd sp s s1 l : only_in sp s s1 -> stack (upd sp l s1) -> only_in sp s (upd sp l s1).
Proof. intros [_ H] Hs. split; [done|]. intros sp' Hne. rewrite sel_upd, decide_False by done. by apply H. Qed.

Lemma sel_upd_same sp l s : sel sp (upd sp l s) = l.
Proof. by rewrite sel_upd, decide_True. Qed.

(** ** Numbers of four digits *)

Lemma val_4 a : val a 1 4 = ((dg a 1 * B + dg a 2) * B + dg a 3) * B + dg a 4.
Proof. rewrite (val_snoc _ _ 4), (val_snoc _ _ (4 - 1)), (val_snoc _ _ (4 - 1 - 1)), val_1 by lia. done. Qed.

Lemma combine_4 d1 d2 d3 d4 : 0 <= d1 < B -> 0 <= d2 < B -> 0 <= d3 < B -> 0 <= d4 < B ->
  uu_ull (COMBINE d1 d2) (COMBINE d3 d4) = ((d1 * B + d2) * B + d3) * B + d4.
Proof. intros. rewrite !COMBINE_add by done. rewrite B_eq in *. rewrite uu_ull_add; lia. Qed.

Lemma wp_load_digits sp x s : stack s -> 0 <= x < 2 ^ 64 ->
  wp (load_digits sp x) (fun _ s' => only_in sp s s' /\ dg (sel sp s') 0 = dg (sel sp s) 0 /\ val (sel sp s') 1 4 = x) s.
Proof.
  intros Hs Hx. unfold load_digits.
  apply wp_bind, wp_wr; [done|lia|apply digit_range|]. intros H1. apply wp_bind, wp_wr; [done|lia|apply digit_range|]. intros H2.
  apply wp_bind, wp_wr; [done|lia|apply digit_range|]. intros H3. apply wp_wr; [done|lia|apply digit_range|]. intros H4.
  split; [by do 4 (apply only_in_upd; [|done])|].
  pose proof (H1 sp) as A1. pose proof (H2 sp) as A2. pose proof (H3 sp) as A3. pose proof (Hs sp) as A0.
  rewrite !sel_upd_same in *. rewrite val_4, !dg_insert by (done || lia). 
  repeat (case_decide; try lia). split; [done|].
  rewrite !digit_LHALF, !HHALF_div, !ui_H_div. unfold digit, ui_L, u32. rewrite B_eq. change (2 ^ 16) with 65536.
  rewrite (Z.mod_small (x / 2 ^ 32)) by zlia. assert (0 <= x / 2 ^ 32 < 2 ^ 32) as Hh by zlia. pose proof (Z.mod_pos_bound x (2 ^ 32) eq_refl) as Hl.
  rewrite (Z.div_mod x (2 ^ 32)) at 5 by done. revert Hh Hl. generalize (x / 2 ^ 32), (x mod 2 ^ 32). intros h l Hh Hl.
  rewrite !(Z.mod_small (_ / _)) by zlia. zlia.
Qed.

Lemma wp_combine_digits sp s : stack s -> wp (combine_digits sp) (fun r s' => s' = s /\ r = val (sel sp s) 1 4) s.
Proof.
  intros Hs. unfold combine_digits. do 4 (apply wp_bind, wp_rd; [done|lia|]). apply wp_ret. split; [done|].
  rewrite val_4. apply combine_4; apply dg_range, Hs.
Qed.

(** ** One-digit divisor *)

Lemma short_step t r u : 0 < t < B -> 0 <= r < t -> 0 <= u < B ->
  digit ((r * B + u) / t) = (r * B + u) / t /\ 0 <= (r * B + u) / t < B /\ r * B + u = (r * B + u) / t * t + (r * B + u) mod t /\ 0 <= (r * B + u) mod t < t.
Proof.
  intros Ht Hr Hu. assert (0 <= (r * B + u) / t < B) as Hq.
  { split; [apply Z.div_pos; rewrite B_eq in *; lia|]. apply Z.div_lt_upper_bound; [lia|].
    assert ((r + 1) * B <= t * B) by (apply Z.mul_le_mono_nonneg_r; rewrite ?B_eq in *; lia). lia. }
  split; [unfold digit; rewrite B_eq in *; by apply Z.mod_small|]. split; [done|].
  pose proof (Z.div_mod (r * B + u) t ltac:(lia)). pose proof (Z.mod_pos_bound (r * B + u) t ltac:(lia)). lia.
Qed.

Lemma wp_short_division v arq s : stack s -> 0 <= v <= 2 -> dg (vspace s) (v + 2) <> 0 ->
  let t := dg (vspace s) (v + 2) in let x := val (uspace s) 1 4 in
  wp (short_division v arq) (fun r _ => r = (x / t, if arq then Some (x mod t) else None)) s.
Proof.
  intros Hs Hv Ht t x. unfold short_division. apply wp_bind, wp_rd; [done|lia|]. cbn [sel]. fold t.
  replace (t =? 0) with false by lia. wp_step. wp_step. do 4 (apply wp_bind, wp_rd; [done|lia|]). apply wp_ret. cbn [sel].
  assert (0 < t < B) as HtB. { pose proof (dg_range (vspace s) (v + 2) (Hs VS)). lia. }
  pose proof (dg_range (uspace s) 1 (Hs US)) as H1. pose proof (dg_range (uspace s) 2 (Hs US)) as H2.
  pose proof (dg_range (uspace s) 3 (Hs US)) as H3. pose proof (dg_range (uspace s) 4 (Hs US)) as H4.
  unfold x. rewrite val_4. clear x. revert H1 H2 H3 H4. generalize (dg (uspace s) 1), (dg (uspace s) 2), (dg (uspace s) 3), (dg (uspace s) 4).
  intros u1 u2 u3 u4 H1 H2 H3 H4. clearbody t.
  destruct (short_step t 0 u1 HtB ltac:(lia) H1) as (D1 & Q1 & E1 & R1). rewrite Z.mul_0_l, Z.add_0_l in *.
  rewrite (COMBINE_add (u1 mod t)) by lia. destruct (short_step t (u1 mod t) u2 HtB R1 H2) as (D2 & Q2 & E2 & R2).
  rewrite (COMBINE_add _ u3) by lia. destruct (short_step t _ u3 HtB R2 H3) as (D3 & Q3 & E3 & R3).
  rewrite (COMBINE_add _ u4) by lia. destruct (short_step t _ u4 HtB R3 H4) as (D4 & Q4 & E4 & R4).
  rewrite D1, D2, D3, D4, combine_4 by done.
  set (r1 := u1 mod t) in *. set (r2 := (r1 * B + u2) mod t) in *. set (r3 := (r2 * B + u3) mod t) in *. set (r4 := (r3 * B + u4) mod t) in *.
  set (q1 := u1 / t) in *. set (q2 := (r1 * B + u2) / t) in *. set (q3 := (r2 * B + u3) / t) in *. set (q4 := (r3 * B + u4) / t) in *.
  clearbody r1 r2 r3 r4 q1 q2 q3 q4. rewrite B_eq in *.
  assert (((u1 * 65536 + u2) * 65536 + u3) * 65536 + u4 = t * (((q1 * 65536 + q2) * 65536 + q3) * 65536 + q4) + r4) as E by lia.
  by rewrite (Z.div_unique_pos _ _ _ _ R4 E), (Z.mod_unique_pos _ _ _ _ R4 E).
Qed.

(** ** Lengths and the normalising shift *)

Definition zeros (a : list Z) (lo hi : Z) : Prop := forall i, lo <= i < hi -> dg a i = 0.

Lemma val_zeros a k n : 0 <= k -> 0 <= n -> zeros a 1 (k + 1) -> val a 1 (k + n) = val a (k + 1) n.
Proof. intros Hk Hn Hz. rewrite val_app by done. rewrite (val_zero a 1 k) by (try done; intros i Hi; apply Hz; lia). by rewrite (Z.add_comm 1 k). Qed.

Lemma wp_skip_v arq s : stack s -> val (vspace s) 1 4 <> 0 ->
  let x := val (uspace s) 1 4 in let y := val (vspace s) 1 4 in
  wp (skip_v arq) (fun r s' =>
    match r with
    | inl (n, v) => s' = s /\ n = 4 - v /\ 0 <= v <= 2 /\ zeros (vspace s) 1 (v + 1) /\ dg (vspace s) (v + 1) <> 0
    | inr res => res = (x / y, if arq then Some (x mod y) else None)
    end) s.
Proof.
  intros Hs Hy x y. unfold skip_v.
  apply (wp_loop _ _ _ (fun p s' => s' = s /\ p.1 = 4 - p.2 /\ 0 <= p.2 <= 2 /\ zeros (vspace s) 1 (p.2 + 1)) (fun p _ => Z.to_nat (3 - p.2))).
  - split_and!; try done. intros i Hi. cbn in Hi. lia.
  - cbn. lia.
  - intros [n v] s' (-> & En & Hv & Hz). cbn [fst snd] in *. subst n. apply wp_bind, wp_rd; [done|lia|]. cbn [sel].
    destruct (dg (vspace s) (v + 1) =? 0) eqn:E; boolify; [|by apply wp_ret].
    assert (zeros (vspace s) 1 (v + 1 + 1)) as Hz'. { intros i Hi. destruct (decide (i = v + 1)) as [->|]; [done|]. apply Hz. lia. }
    destruct (4 - v - 1 =? 1) eqn:E1; boolify.
    + assert (v = 2) as -> by lia. assert (y = dg (vspace s) 4) as Ey. { unfold y. change 4 with (3 + 1) at 1. by rewrite val_zeros, val_1 by done. }
      apply wp_bind. eapply wp_mono; [apply wp_short_division; [done|lia|]|].
      { unfold y in Ey. change (2 + 2) with 4. lia. }
      intros r s1 ->. apply wp_ret. change (2 + 2) with 4. by rewrite <- Ey.
    + apply wp_ret. cbn [fst snd]. split; [|lia]. split_and!; try done; lia.
Qed.

(** The dividend has at least the length of the divisor. *)
Lemma wp_skip_u v s : stack s -> 0 <= v <= 2 -> zeros (vspace s) 1 (v + 1) -> dg (vspace s) (v + 1) <> 0 ->
  val (vspace s) 1 4 <= val (uspace s) 1 4 ->
  wp (skip_u (4 - v)) (fun p s' => s' = s /\ p.1 = v - p.2 /\ 0 <= p.2 <= v /\ zeros (uspace s) 1 (p.2 + 1)) s.
Proof.
  intros Hs Hv Hz Hnz Hle. unfold skip_u.
  apply (wp_loop _ _ _ (fun p s' => s' = s /\ p.1 = v - p.2 /\ 0 <= p.2 <= v /\ zeros (uspace s) 1 (p.2 + 1)) (fun p _ => Z.to_nat (4 - p.2))).
  - cbn. split_and!; try done; try lia. intros i Hi. lia.
  - cbn. lia.
  - intros [m u] s' (-> & Em & Hu & Hzu). cbn [fst snd] in *. subst m. apply wp_bind, wp_rd; [done|lia|]. cbn [sel].
    destruct (dg (uspace s) (u + 1) =? 0) eqn:E; boolify; [|by apply wp_ret].
    assert (zeros (uspace s) 1 (u + 1 + 1)) as Hz'. { intros i Hi. destruct (decide (i = u + 1)) as [->|]; [done|]. apply Hzu. lia. }
    apply wp_ret. cbn [fst snd]. assert (u <> v); [|split_and!; try done; lia]. intros ->. revert Hle.
    replace 4 with (v + 1 + (3 - v)) at 2 by lia. rewrite val_zeros by (done || lia).
    replace 4 with (v + (4 - v)) at 1 by lia. rewrite val_zeros, val_cons by (done || lia). replace (4 - v - 1) with (3 - v) by lia.
    pose proof (val_range (uspace s) (v + 1 + 1) (3 - v) (Hs US) ltac:(lia)). pose proof (val_range (vspace s) (v + 1 + 1) (3 - v) (Hs VS) ltac:(lia)).
    pose proof (dg_range (vspace s) (v + 1) (Hs VS)). intros Hle. assert (1 * B ^ (3 - v) <= dg (vspace s) (v + 1) * B ^ (3 - v)) by (apply Z.mul_le_mono_nonneg_r; lia). lia.
Qed.

Lemma wp_normalise v s : stack s -> 0 <= v <= 2 -> dg (vspace s) (v + 1) <> 0 ->
  wp (normalise v) (fun d s' => s' = s /\ 0 <= d < 16 /\ 32768 <= dg (vspace s) (v + 1) * 2 ^ d < B) s.
Proof.
  intros Hs Hv Hnz. unfold normalise. apply wp_bind, wp_rd; [done|lia|]. cbn [sel].
  pose proof (dg_range (vspace s) (v + 1) (Hs VS)) as Hr. revert Hnz Hr. generalize (dg (vspace s) (v + 1)). intros v1 Hnz Hr.
  apply (wp_loop _ _ _ (fun p s' => s' = s /\ 0 <= p.2 < 16 /\ p.1 = v1 * 2 ^ p.2 /\ p.1 < B) (fun p _ => Z.to_nat (16 - p.2))).
  - cbn [fst snd]. rewrite Z.pow_0_r. split_and!; try done; lia.
  - cbn. lia.
  - intros [t d] s' (-> & Hd & Et & HtB). cbn [fst snd] in *. change (B / 2) with 32768. rewrite B_eq in *.
    destruct (t <? 32768) eqn:E; boolify; apply wp_ret; cbn [fst snd].
    + assert (d < 15). { destruct (decide (d < 15)); [done|]. assert (d = 15) as -> by lia. change (2 ^ 15) with 32768 in Et. lia. }
      rewrite Z.shiftl_mul_pow2 by lia. change (2 ^ 1) with 2. pose proof (Z.pow_pos_nonneg 2 d ltac:(lia) ltac:(lia)).
      assert (0 <= t) by (subst t; apply Z.mul_nonneg_nonneg; lia). rewrite u32_id by lia. rewrite Z.pow_add_r by lia. change (2 ^ 1) with 2. split; [split_and!; try done; lia|lia].
    + split_and!; try done; lia.
Qed.

(** A digit shifted left, with the bits that come in from the next one. *)
Lemma shl_digit a b d : 0 <= a < B -> 0 <= b < B -> 0 < d < 16 ->
  Z.lor (LHALF (u32 (Z.shiftl a d))) (Z.shiftr b (16 - d)) = a * 2 ^ d - a / 2 ^ (16 - d) * B + b / 2 ^ (16 - d) /\
  0 <= a * 2 ^ d - a / 2 ^ (16 - d) * B + b / 2 ^ (16 - d) < B.
Proof.
  intros Ha Hb Hd. assert (B = 2 ^ (16 - d) * 2 ^ d) as EB by (rewrite <- Z.pow_add_r by lia; by replace (16 - d + d) with 16 by lia).
  pose proof (Z.pow_pos_nonneg 2 d ltac:(lia) ltac:(lia)) as Hp. pose proof (Z.pow_pos_nonneg 2 (16 - d) ltac:(lia) ltac:(lia)) as Hp'.
  assert (2 ^ d <= 2 ^ 16) by (apply Z.pow_le_mono_r; lia).
  assert (0 <= b / 2 ^ (16 - d) < 2 ^ d) as Hb'. { split; [by apply Z.div_pos; lia|]. apply Z.div_lt_upper_bound; lia. }
  rewrite LHALF_mod, Z.shiftr_div_pow2, Z.shiftl_mul_pow2 by lia.
  assert (0 <= a * 2 ^ d) by (apply Z.mul_nonneg_nonneg; lia).
  assert (a * 2 ^ d <= 65535 * 65536) by (apply Z.mul_le_mono_nonneg; rewrite B_eq in Ha; lia).
  rewrite u32_id by lia. change (2 ^ 16) with B. rewrite EB, Z.mul_mod_distr_r by lia.
  rewrite <- Z.shiftl_mul_pow2, lor_shiftl_add by lia. pose proof (Z.div_mod a (2 ^ (16 - d)) ltac:(lia)) as E. pose proof (Z.mod_pos_bound a (2 ^ (16 - d)) Hp') as Hr.
  replace (a * 2 ^ d) with ((2 ^ (16 - d) * (a / 2 ^ (16 - d)) + a mod 2 ^ (16 - d)) * 2 ^ d) by (by rewrite <- E).
  split; [lia|]. assert ((a mod 2 ^ (16 - d) + 1) * 2 ^ d <= 2 ^ (16 - d) * 2 ^ d) by (apply Z.mul_le_mono_nonneg_r; lia).
  assert (0 <= a mod 2 ^ (16 - d) * 2 ^ d) by (apply Z.mul_nonneg_nonneg; lia). lia.
Qed.

Lemma digit_id x : 0 <= x < B -> digit x = x.
Proof. apply Z.mod_small. Qed.

(** [shl] multiplies by 2^[sh] when the top digit leaves room. *)
Lemma wp_shl sp p len d s : stack s -> 0 <= p -> 0 <= len -> p + len <= 4 -> 0 < d < 16 -> dg (sel sp s) p * 2 ^ d < B ->
  wp (shl sp p len d) (fun _ s' => only_in sp s s' /\ (forall i, 0 <= i < p -> dg (sel sp s') i = dg (sel sp s) i) /\
    val (sel sp s') p (len + 1) = val (sel sp s) p (len + 1) * 2 ^ d) s.
Proof.
  intros Hs Hp Hlen Hpl Hd Htop. unfold shl, HALF_BITS. set (a := sel sp s) in *. assert (arr a) as Ha by apply Hs.
  set (c := fun i => dg a (p + i) / 2 ^ (16 - d)).
  assert (c 0 = 0) as Hc0.
  { unfold c. rewrite Z.add_0_r. apply Z.div_small. split; [apply dg_range, Ha|]. apply (Z.mul_lt_mono_pos_r (2 ^ d)); [apply Z.pow_pos_nonneg; lia|].
    rewrite <- Z.pow_add_r by lia. by replace (16 - d + d) with 16 by lia. }
  apply wp_bind, (wp_for _ _ _ (fun i s' => only_in sp s s' /\ (forall k, 0 <= k -> ~ p <= k < p + i -> dg (sel sp s') k = dg a k) /\
    val (sel sp s') p i = val a p i * 2 ^ d + c i)).
  - split_and!; [by apply only_in_refl|done|]. by rewrite Hc0, !val_0.
  - intros i s1 Hi (Ho & HF & HI). pose proof Ho as [Hs1 _]. apply wp_bind, wp_rd; [done|lia|]. apply wp_bind, wp_rd; [done|lia|].
    rewrite !HF by lia. destruct (shl_digit (dg a (p + i)) (dg a (p + i + 1)) d (dg_range _ _ Ha) (dg_range _ _ Ha) Hd) as [E Hr].
    rewrite E, digit_id by done. apply wp_bind, wp_wr; [done|lia|done|]. intros Hs2. apply wp_ret. split; [by apply only_in_upd|]. rewrite sel_upd_same. split.
    + intros k Hk Hne. rewrite dg_insert, decide_False by (lia || apply Hs1). apply HF; lia.
    + rewrite (val_snoc _ _ (i + 1)), (val_snoc a _ (i + 1)), Z.add_simpl_r, val_insert_out, dg_insert, decide_True by (lia || apply Hs1).
      rewrite HI. unfold c. rewrite (Z.add_assoc p i 1). lia.
  - intros s1 (Ho & HF & HI). rewrite Z2Nat.id, Z.add_0_l in * by done. pose proof Ho as [Hs1 _]. rewrite Z.max_r by done.
    apply wp_bind, wp_rd; [done|lia|]. rewrite !HF by lia. 
    destruct (shl_digit (dg a (p + len)) 0 d (dg_range _ _ Ha) ltac:(done) Hd) as [E Hr]. rewrite Z.shiftr_0_l, Z.lor_0_r in E.
    rewrite E, digit_id by done. apply wp_wr; [done|lia|done|]. intros Hs2. split; [by apply only_in_upd|]. rewrite sel_upd_same. split.
    + intros k Hk. rewrite dg_insert, decide_False by (lia || apply Hs1). apply HF; lia.
    + rewrite (val_snoc _ _ (len + 1)), (val_snoc a _ (len + 1)), Z.add_simpl_r, val_insert_out, dg_insert, decide_True by (lia || apply Hs1).
      rewrite HI. unfold c. rewrite Z.div_0_l by (apply Z.pow_nonzero; lia). lia.
Qed.

(** * [__qdivrem] as a whole: the main loop of Program D, the remainder shifted
    back, and the quotient and remainder the function returns; then the four
    entry points of udivdi3.c, umoddi3.c, divdi3.c and moddi3.c. *)

(** ** The remainder shifted back *)

Lemma shr_digit a b d : 0 <= a < B -> 0 <= b < B -> 0 < d < 16 ->
  let x := Z.lor (Z.shiftr a d) (LHALF (u32 (Z.shiftl b (16 - d)))) in
  x * 2 ^ d = a - a mod 2 ^ d + b mod 2 ^ d * B /\ 0 <= x < B.
Proof.
  intros Ha Hb Hd x. assert (x = Z.lor (LHALF (u32 (Z.shiftl b (16 - d)))) (Z.shiftr a d)) as -> by apply Z.lor_comm.
  destruct (shl_digit b a (16 - d) Hb Ha ltac:(lia)) as [E Hr]. replace (16 - (16 - d)) with d in * by lia.
  rewrite E. split; [|done]. assert (B = 2 ^ (16 - d) * 2 ^ d) as EB by (rewrite <- Z.pow_add_r by lia; by replace (16 - d + d) with 16 by lia).
  pose proof (Z.pow_pos_nonneg 2 d ltac:(lia) ltac:(lia)). pose proof (Z.div_mod a (2 ^ d) ltac:(lia)). pose proof (Z.div_mod b (2 ^ d) ltac:(lia)).
  replace (a mod 2 ^ d) with (a - 2 ^ d * (a / 2 ^ d)) by lia. replace (b mod 2 ^ d) with (b - 2 ^ d * (b / 2 ^ d)) by lia. rewrite EB. lia.
Qed.

Lemma wp_denormalise u n m d R s : stack s -> 0 <= u -> 0 <= m -> 1 <= n -> u + m + n <= 4 -> 0 <= d < 16 ->
  dg (uspace s) (u + m) = 0 -> val (uspace s) (u + m + 1) n = R * 2 ^ d ->
  wp (denormalise u n m d) (fun _ s' => only_u (u + m) (u + m + n) s s' /\ dg (uspace s') (u + m) = 0 /\ val (uspace s') (u + m + 1) n = R) s.
Proof.
  intros Hs Hu Hm Hn Hle Hd H0 HR. unfold denormalise. destruct (d =? 0) eqn:Ed; boolify.
  { subst d. rewrite Z.pow_0_r, Z.mul_1_r in HR. by apply wp_ret. }
  set (r := fun i => dg (uspace s) (u + m + i) mod 2 ^ d).
  assert (forall i, 0 <= r i) as Hr0 by (intros i; apply Z.mod_pos_bound, Z.pow_pos_nonneg; lia).
  apply wp_bind, (wp_for_down _ _ _ (fun i _ s' => only_u (u + m + i + 1) (u + m + n) s s' /\
    val (uspace s') (u + m + i + 1) (n - i) * 2 ^ d = val (uspace s) (u + m + i + 1) (n - i) + r i * B ^ (n - i) - r n)).
  - lia.
  - split; [by apply only_u_refl|]. rewrite Z.sub_diag, !val_0, Z.pow_0_r. lia.
  - intros i _ s1 Hi (Ho & HI). pose proof Ho as (H1 & EV & EQ & HF). cbv zeta. 
    apply wp_bind, wp_rd; [done|lia|]. apply wp_bind, wp_rd; [done|lia|]. cbn [sel]. unfold HALF_BITS.
    replace (u + (m + i - 1)) with (u + m + (i - 1)) by lia. replace (u + (m + i)) with (u + (i + m)) by lia. rewrite !HF by lia.
    destruct (shr_digit (dg (uspace s) (u + (i + m))) (dg (uspace s) (u + m + (i - 1))) d) as [E Hx]; [apply dg_range, (Hs US)..|lia|].
    rewrite digit_id by done. apply wp_wr; [done|lia|done|]. intros Hs2.
    replace (u + m + (i - 1) + 1) with (u + m + i) by lia. replace (n - (i - 1)) with (n - i + 1) by lia.
    split; [apply only_u_wr; done || lia|]. cbn [sel upd uspace]. rewrite (val_wr u n m s) by (done || lia).
    rewrite (val_cons (uspace s)), Bpow_succ by lia. replace (n - i + 1 - 1) with (n - i) by lia.
    fold (r (i - 1)) in E. replace (u + (i + m)) with (u + m + i) in * by lia. fold (r i) in E.
    rewrite Z.mul_add_distr_r, HI. replace (_ * B ^ (n - i) * 2 ^ d) with ((dg (uspace s) (u + m + i) - r i + r (i - 1) * B) * B ^ (n - i)) by (rewrite <- E; lia). lia.
  - intros _ s1 (Ho & HI). rewrite !Z.add_0_r, Z.sub_0_r in *. pose proof Ho as (H1 & EV & EQ & HF).
    apply wp_wr; [done|lia|by rewrite B_eq|]. intros Hs2. destruct (head_wr u n m s Hu Hm Hn Hle 0 s1 Ho ltac:(by rewrite B_eq)) as [Ho2 _].
    split; [done|]. cbn [sel upd uspace]. rewrite dg_insert, decide_True, val_insert_out by (lia || apply (H1 US)). split; [done|].
    assert (r 0 = 0) as Er0. { unfold r. by rewrite Z.add_0_r, H0, Z.mod_0_l by (apply Z.pow_nonzero; lia). }
    assert (r n = 0) as Ern.
    { unfold r. replace (u + m + n) with (u + m + 1 + (n - 1)) by lia.
      assert (B = 2 ^ (16 - d) * 2 ^ d) as EB by (rewrite <- Z.pow_add_r by lia; by replace (16 - d + d) with 16 by lia).
      pose proof (val_snoc (uspace s) (u + m + 1) n ltac:(lia)) as E.
      replace (dg (uspace s) (u + m + 1 + (n - 1))) with ((R - val (uspace s) (u + m + 1) (n - 1) * 2 ^ (16 - d)) * 2 ^ d) by (rewrite HR, EB in E; lia).
      apply Z.mod_mul, Z.pow_nonzero; lia. }
    apply (Z.mul_reg_r _ _ (2 ^ d)); [apply Z.pow_nonzero; lia|]. rewrite HI, Er0, Ern, <- HR. lia.
Qed.

(** ** The main loop *)

Section main.
(** [s0] is the state after the shift of step D1: [u[0..m+n]] and [v[1..n]]. *)
Context (u v m n : Z) (s0 : qd).
Hypothesis (Hs0 : stack s0) (Hu : 0 <= u) (Hv : 0 <= v) (Hm : 0 <= m <= 2) (Hn : 2 <= n) (Hun : u + m + n = 4) (Hvn : v + n = 4).
Let V := val (vspace s0) (v + 1) n.
Hypothesis (Hnorm : 32768 <= dg (vspace s0) (v + 1)) (Htop : val (uspace s0) u n < V).
Hypothesis (Hzu : zeros (uspace s0) 1 u) (Hzq : zeros (qspace s0) 1 (4 - m)).

(** Before round [j]: the digits found so far and the part of the dividend
    that is left make up the digits visited. *)
Record before (j : Z) (s : qd) : Prop := {
  b_stack : stack s;
  b_divisor : vspace s = vspace s0;
  b_zeros : zeros (uspace s) 1 (u + j);
  b_qzeros : zeros (qspace s) 1 (4 - m);
  b_rest : forall i, u + j + n <= i -> dg (uspace s) i = dg (uspace s0) i;
  b_top : val (uspace s) (u + j) n < V;
  b_value : val (uspace s0) u (j + n) = val (qspace s) (4 - m) j * V + val (uspace s) (u + j) n }.

Lemma before_start : before 0 s0.
Proof. split; rewrite ?Z.add_0_r, ?Z.add_0_l; try done. Qed.

Lemma V_bounds : 0 < V < B ^ n.
Proof.
  pose proof (val_range (vspace s0) (v + 1) n (Hs0 VS) ltac:(lia)). pose proof (val_range (uspace s0) u n (Hs0 US) ltac:(lia)). unfold V in *. lia.
Qed.

(** A number below the divisor has a clear first digit. *)
Lemma small_row a lo : arr a -> val a lo (n + 1) < V -> dg a lo = 0 /\ val a (lo + 1) n = val a lo (n + 1).
Proof.
  intros Ha Hlt. pose proof V_bounds as HV. rewrite (val_head n ltac:(lia) a lo) in *. pose proof (dg_range a lo Ha) as Hd. pose proof (val_range a (lo + 1) n Ha ltac:(lia)).
  assert (dg a lo = 0); [|lia]. destruct (decide (dg a lo = 0)); [done|]. assert (1 * B ^ n <= dg a lo * B ^ n) by (apply Z.mul_le_mono_nonneg_r; lia). lia.
Qed.

Lemma before_step j s : 0 <= j <= m -> before j s ->
  wp (quotient_digit u v (4 - m) n j (dg (vspace s0) (v + 1)) (dg (vspace s0) (v + 2))) (fun _ s' => before (j + 1) s' /\ dg (uspace s') (u + j) = 0) s.
Proof.
  intros Hj [H1 H2 H3 H4 H5 H6 H7]. pose proof V_bounds as HV. rewrite <- H2.
  eapply wp_mono; [apply wp_quotient_digit; rewrite ?H2; try done; lia|].
  intros _ s' (Hs' & EV & EQ & HF & E). rewrite H2 in *. fold V in E, EQ. set (U := val (uspace s) (u + j) (n + 1)) in *.
  pose proof (Z.mod_pos_bound U V ltac:(lia)) as HmU. pose proof (Z.div_mod U V ltac:(lia)) as HdU.
  destruct (small_row (uspace s') (u + j) (Hs' US) ltac:(lia)) as [Ez Er]. split; [|done]. rewrite E in Er.
  assert (forall i, 0 <= i -> dg (qspace s') i = if decide (i = 4 - m + j) then U / V else dg (qspace s) i) as Hq.
  { intros i Hi. rewrite EQ. apply dg_insert; [apply (H1 QS)|lia|done]. }
  split; try done; try congruence.
  - intros i Hi. destruct (decide (i = u + j)) as [->|]; [done|]. rewrite HF by lia. apply H3. lia.
  - intros i Hi. rewrite Hq, decide_False by lia. by apply H4.
  - intros i Hi. rewrite HF, H5 by lia. done.
  - rewrite Z.add_assoc, Er. lia.
  - rewrite Z.add_assoc, Er. replace (j + 1 + n) with (j + n + 1) by lia. rewrite (val_snoc (uspace s0)), Z.add_simpl_r by lia. rewrite H7, Z.add_assoc.
    rewrite (val_snoc (qspace s')), Z.add_simpl_r, Hq, decide_True by lia. rewrite (val_ext (qspace s') (qspace s)).
    2: lia. 2: { intros i Hi. rewrite Hq, decide_False by lia. done. }
    rewrite <- H5 by lia. unfold U in HdU at 1. rewrite val_snoc, Z.add_simpl_r in HdU by lia. lia.
Qed.

Lemma wp_main_loop :
  wp (loop_ 5 0 (fun j =>
        quotient_digit u v (4 - m) n j (dg (vspace s0) (v + 1)) (dg (vspace s0) (v + 2)) ;;;
        let j := j + 1 in if j <=? m then ret (inl j) else ret (inr tt)))
    (fun _ s' => before (m + 1) s' /\ dg (uspace s') (u + m) = 0) s0.
Proof.
  apply (wp_loop _ _ _ (fun j s => 0 <= j <= m /\ before j s) (fun j _ => Z.to_nat (m - j))).
  - split; [lia|apply before_start].
  - lia.
  - intros j s [Hj Hb]. apply wp_bind. eapply wp_mono; [by apply before_step|]. intros _ s' [Hb' Hz]. cbv zeta.
    destruct (j + 1 <=? m) eqn:E; boolify; apply wp_ret; [split; [split; [lia|done]|lia]|].
    assert (j = m) as -> by lia. done.
Qed.
End main.

(** ** The whole function *)

(** The digits of the quotient that the loop does not visit are cleared. *)
Lemma wp_clear_q k s : stack s -> 0 <= k <= 5 ->
  wp (for_ (R := unit) (Z.to_nat k) 0 (fun i => wr QS (k - 1 - i) 0 ;;; ret None)) (fun _ s' =>
    stack s' /\ uspace s' = uspace s /\ vspace s' = vspace s /\ zeros (qspace s') 0 k) s.
Proof.
  intros Hs Hk. apply (wp_for _ _ _ (fun i s' => stack s' /\ uspace s' = uspace s /\ vspace s' = vspace s /\ zeros (qspace s') (k - i) k)).
  - split_and!; try done. intros i Hi. lia.
  - intros i s1 Hi (H1 & H2 & H3 & H4). apply wp_bind, wp_wr; [done|lia|by rewrite B_eq|]. intros Hs2. apply wp_ret. split_and!; try done.
    intros x Hx. cbn. rewrite dg_insert by (lia || apply (H1 QS)). case_decide; [done|]. apply H4. lia.
  - intros s1 (H1 & H2 & H3 & H4). split_and!; try done. by replace (k - (0 + Z.of_nat (Z.to_nat k))) with 0 in H4 by lia.
Qed.

(** D1: dividend and divisor are multiplied by 2^[d]. *)
Lemma wp_shift u v m n d s : stack s -> 0 <= u -> 0 <= v -> 0 <= m -> 2 <= n -> u + m + n = 4 -> v + n = 4 -> 0 <= d < 16 ->
  dg (uspace s) u = 0 -> dg (vspace s) (v + 1) * 2 ^ d < B ->
  wp (if 0 <? d then shl US u (m + n) d ;;; shl VS (v + 1) (n - 1) d else ret tt) (fun _ s' =>
    stack s' /\ qspace s' = qspace s /\ (forall i, 0 <= i < u -> dg (uspace s') i = dg (uspace s) i) /\
    val (uspace s') u (m + n + 1) = val (uspace s) u (m + n + 1) * 2 ^ d /\ val (vspace s') (v + 1) n = val (vspace s) (v + 1) n * 2 ^ d) s.
Proof.
  intros Hs Hu Hv Hm Hn Hun Hvn Hd Hz Htop. destruct (0 <? d) eqn:E; boolify.
  - apply wp_bind. eapply wp_mono; [apply wp_shl; try done; try lia; cbn; rewrite Hz, B_eq; lia|]. intros _ s1 ([Hs1 Ho1] & HF1 & E1).
    pose proof (Ho1 VS ltac:(done)) as EV1. pose proof (Ho1 QS ltac:(done)) as EQ1. cbn [sel] in *.
    eapply wp_mono; [apply wp_shl; try done; try lia; cbn; by rewrite EV1|]. intros _ s2 ([Hs2 Ho2] & HF2 & E2).
    pose proof (Ho2 US ltac:(done)) as EU2. pose proof (Ho2 QS ltac:(done)) as EQ2. cbn [sel] in *. rewrite Z.sub_add in E2. rewrite EU2, EQ2, E2, EV1. done.
  - assert (d = 0) as -> by lia. apply wp_ret. rewrite Z.pow_0_r. split_and!; try done; lia.
Qed.

Lemma div_mod_scale x y k Q R : 0 < k -> 0 < y -> x * k = Q * (y * k) + R -> 0 <= R < y * k -> Q = x / y /\ R = x mod y * k.
Proof.
  intros Hk Hy E HR. pose proof (Z.div_mod x y ltac:(lia)) as Hdm. pose proof (Z.mod_pos_bound x y Hy) as Hm.
  assert (0 <= x mod y * k < y * k) as Hr by nia.
  assert (Q = x / y) as ->; [|split; [done|]]; [|nia].
  rewrite (Z.div_unique_pos (x * k) (y * k) Q R HR) by lia. apply Z.div_mul_cancel_r; lia.
Qed.

(** The part of the dividend above its last digits is below the divisor. *)
Lemma top_small a u m n d V x : arr a -> 0 <= m -> 2 <= n -> 0 <= d < 16 -> val a u (m + n + 1) = x * 2 ^ d -> x < B ^ (m + n) ->
  32768 * B ^ (n - 1) <= V -> val a u n < V.
Proof.
  intros Ha Hm Hn Hd E Hx HV. pose proof (val_range a (u + n) (m + 1) Ha ltac:(lia)) as Hr.
  replace (m + n + 1) with (n + (m + 1)) in E by lia. rewrite val_app in E by lia.
  enough (val a u n < 32768 * B ^ (n - 1)) by lia. apply (Z.mul_lt_mono_pos_r (B ^ (m + 1))); [apply Z.pow_pos_nonneg; [done|lia]|].
  rewrite <- Z.mul_assoc, <- Z.pow_add_r by lia. replace (n - 1 + (m + 1)) with (m + n) by lia.
  assert (2 ^ d <= 2 ^ 15) by (apply Z.pow_le_mono_r; lia). pose proof (Z.pow_pos_nonneg 2 d ltac:(lia) ltac:(lia)).
  assert (x * 2 ^ d < B ^ (m + n) * 2 ^ d) by (apply Z.mul_lt_mono_pos_r; lia). 
  assert (B ^ (m + n) * 2 ^ d <= B ^ (m + n) * 2 ^ 15) by (apply Z.mul_le_mono_nonneg_l; [apply Z.pow_nonneg; done|done]). lia.
Qed.

(** The shift of step D1 makes the divisor's first digit large. *)
Lemma normal_divisor a b v n d : arr a -> arr b -> 2 <= n -> 0 <= d -> 32768 <= dg a (v + 1) * 2 ^ d -> val b (v + 1) n = val a (v + 1) n * 2 ^ d ->
  32768 <= dg b (v + 1) /\ 32768 * B ^ (n - 1) <= val a (v + 1) n * 2 ^ d.
Proof.
  intros Ha Hb Hn Hd Hnorm E. pose proof (val_range a (v + 1 + 1) (n - 1) Ha ltac:(lia)) as Hra. pose proof (val_range b (v + 1 + 1) (n - 1) Hb ltac:(lia)) as Hrb.
  pose proof (Z.pow_pos_nonneg 2 d ltac:(lia) Hd) as Hp. pose proof (Z.pow_pos_nonneg B (n - 1) ltac:(done) ltac:(lia)) as HB.
  assert (32768 * B ^ (n - 1) <= val a (v + 1) n * 2 ^ d) as HV.
  { rewrite val_cons by lia. assert (32768 * B ^ (n - 1) <= dg a (v + 1) * 2 ^ d * B ^ (n - 1)) by (apply Z.mul_le_mono_nonneg_r; lia).
    assert (0 <= val a (v + 1 + 1) (n - 1) * 2 ^ d) by (apply Z.mul_nonneg_nonneg; lia). lia. }
  split; [|done]. rewrite <- E, val_cons in HV by lia. enough (32768 < dg b (v + 1) + 1) by lia. apply (Z.mul_lt_mono_pos_r (B ^ (n - 1))); lia.
Qed.

Lemma wp_program_d v arq s : stack s -> 0 <= v <= 2 -> zeros (vspace s) 1 (v + 1) -> dg (vspace s) (v + 1) <> 0 -> dg (uspace s) 0 = 0 ->
  let x := val (uspace s) 1 4 in let y := val (vspace s) 1 4 in y <= x ->
  wp (program_d (4 - v) v arq) (fun r _ => r = (x / y, if arq then Some (x mod y) else None)) s.
Proof.
  intros Hs Hv Hzv Hnz H0 x y Hle. unfold program_d. apply wp_bind. eapply wp_mono; [by apply wp_skip_u|].
  intros [m u] s1 (-> & Em & Hu & Hzu). cbn [fst snd] in *. set (n := 4 - v) in *.
  assert (dg (uspace s) u = 0) as Hu0. { destruct (decide (u = 0)) as [->|]; [done|]. apply Hzu. lia. }
  assert (y = val (vspace s) (v + 1) n) as Ey. { unfold y. replace 4 with (v + n) by lia. apply val_zeros; done || lia. }
  assert (x = val (uspace s) u (m + n + 1)) as Ex.
  { rewrite val_cons, Hu0, Z.add_simpl_r by lia. unfold x. replace 4 with (u + (m + n)) at 1 by lia. apply val_zeros; done || lia. }
  assert (x < B ^ (m + n)) as HxB. { rewrite Ex, val_cons, Hu0, Z.add_simpl_r by lia. apply val_range; [apply (Hs US)|lia]. }
  assert (0 < y) as Hy.
  { rewrite Ey, val_cons by lia. pose proof (dg_range (vspace s) (v + 1) (Hs VS)). pose proof (val_range (vspace s) (v + 1 + 1) (n - 1) (Hs VS) ltac:(lia)).
    assert (0 < dg (vspace s) (v + 1) * B ^ (n - 1)) by (apply Z.mul_pos_pos; [lia|apply Z.pow_pos_nonneg; [done|lia]]). lia. }
  apply wp_bind. eapply wp_mono; [apply wp_clear_q; [done|lia]|]. intros _ s2 (Hs2 & EU2 & EV2 & Hzq2).
  apply wp_bind. eapply wp_mono; [apply wp_normalise; [done|lia|by rewrite EV2]|]. intros d s3 (-> & Hd & Hnorm). rewrite EV2 in Hnorm.
  apply wp_bind. eapply wp_mono; [apply (wp_shift u v m n d); rewrite ?EU2, ?EV2; try done; lia|].
  intros _ s4 (Hs4 & EQ4 & HF4 & EU4 & EV4). rewrite EU2, <- Ex in EU4. rewrite EV2, <- Ey in EV4. rewrite EU2 in HF4.
  apply wp_bind, wp_rd; [done|lia|]. apply wp_bind, wp_rd; [done|lia|]. cbn [sel].
  pose proof (Z.pow_pos_nonneg 2 d ltac:(lia) ltac:(lia)) as Hpd.
  destruct (normal_divisor (vspace s) (vspace s4) v n d) as [Hn4 HV]; [apply (Hs VS)|apply (Hs4 VS)|lia|lia|lia|by rewrite <- Ey|]. rewrite <- Ey in HV.
  apply wp_bind. eapply wp_mono; [apply (wp_main_loop u v m n s4); try done; try lia|].
  { rewrite EV4. by apply (top_small _ _ m n d _ x (Hs4 US)); try lia. }
  { intros i Hi. rewrite HF4 by lia. apply Hzu. lia. }
  { intros i Hi. rewrite EQ4. apply Hzq2. lia. }
  intros _ s5 [[H1 H2 H3 H4 H5 H6 H7] Hz5]. rewrite EV4 in H6, H7. replace (m + 1 + n) with (m + n + 1) in H7 by lia. rewrite EU4 in H7.
  pose proof (val_range (uspace s5) (u + (m + 1)) n (H1 US) ltac:(lia)) as Hr5.
  destruct (div_mod_scale _ _ _ _ _ Hpd Hy H7 ltac:(lia)) as [EQ ER].
  assert (val (qspace s5) 1 4 = x / y) as EQ5. { rewrite <- EQ. replace 4 with (3 - m + (m + 1)) at 1 by lia. rewrite val_zeros; [f_equal; lia|lia|lia|]. intros i Hi. apply H4. lia. }
  apply wp_bind. apply (wp_mono _ (fun r s' => stack s' /\ qspace s' = qspace s5 /\ r = if arq then Some (x mod y) else None)).
  - destruct arq; [|by apply wp_ret]. apply wp_bind. eapply wp_mono; [apply (wp_denormalise u n m d (x mod y)); try done; try lia; by rewrite <- Z.add_assoc|].
    intros _ s6 [(Hs6 & EV6 & EQ6 & HF6) [Hz6 E6]]. apply wp_bind. eapply wp_mono; [by apply wp_combine_digits|]. intros r s7 [-> ->]. apply wp_ret.
    split_and!; try done. f_equal. cbn [sel]. replace 4 with (u + m + n) by lia. rewrite val_zeros; [done|lia|lia|].
    intros i Hi. destruct (decide (i = u + m)) as [->|]; [done|]. rewrite HF6 by lia. apply H3. lia.
  - intros r s6 (Hs6 & EQ6 & ->). apply wp_bind. eapply wp_mono; [by apply wp_combine_digits|]. intros q s7 [-> ->]. apply wp_ret. cbn [sel]. by rewrite EQ6, EQ5.
Qed.

Lemma wp_qdivrem x y arq s : stack s -> 0 <= x < 2 ^ 64 -> 0 < y < 2 ^ 64 ->
  wp (__qdivrem x y arq) (fun r _ => r = (x / y, if arq then Some (x mod y) else None)) s.
Proof.
  intros Hs Hx Hy. unfold __qdivrem. replace (y =? 0) with false by lia. destruct (x <? y) eqn:E; boolify.
  { apply wp_ret. rewrite Z.div_small, Z.mod_small by lia. done. }
  apply wp_bind, wp_wr; [done|lia|by rewrite B_eq|]. intros Hs1. 
  apply wp_bind. eapply wp_mono; [apply wp_load_digits; done || lia|]. intros _ s2 ([Hs2 Ho2] & H02 & E2). rewrite sel_upd_same, dg_insert, decide_True in H02 by (done || lia || apply Hs).
  apply wp_bind. eapply wp_mono; [apply wp_load_digits; done || lia|]. intros _ s3 ([Hs3 Ho3] & H03 & E3). pose proof (Ho3 US ltac:(done)) as EU3. cbn [sel] in *.
  apply wp_bind. eapply wp_mono; [apply wp_skip_v; [done|lia]|]. rewrite EU3, E2, E3. intros [[n v]|r] s4 H; [|by apply wp_ret].
  destruct H as (-> & -> & Hv & Hz & Hnz). eapply wp_mono; [apply wp_program_d; rewrite ?EU3, ?E2, ?E3; done|]. rewrite EU3, E2, E3. done.
Qed.

(** ** The entry points *)

Lemma wp_udivdi3 a b s : stack s -> 0 <= a < 2 ^ 64 -> 0 < b < 2 ^ 64 -> wp (__udivdi3 a b) (fun q _ => q = a / b) s.
Proof. intros Hs Ha Hb. unfold __udivdi3. apply wp_bind. eapply wp_mono; [by apply wp_qdivrem|]. by intros _ s' ->. Qed.

Lemma wp_umoddi3 a b s : stack s -> 0 <= a < 2 ^ 64 -> 0 < b < 2 ^ 64 -> wp (__umoddi3 a b) (fun r _ => r = a mod b) s.
Proof. intros Hs Ha Hb. unfold __umoddi3. apply wp_bind. eapply wp_mono; [by apply wp_qdivrem|]. by intros _ s' ->. Qed.

(** The magnitude of an operand, as the unsigned value the code works with. *)
Lemma magnitude a : - 2 ^ 63 <= a < 2 ^ 63 -> (if a <? 0 then u64 (- u64 a) else u64 a) = Z.abs a.
Proof. intros Ha. unfold u64. destruct (a <? 0) eqn:E; boolify; zlia. Qed.

Lemma if_pair {A B} (c : bool) (x y : A) (b1 b2 : B) : (if c then (x, b1) else (y, b2)) = (if c then x else y, if c then b1 else b2).
Proof. by destruct c. Qed.

Lemma s64_u64 x : s64 (u64 x) = s64 x.
Proof. unfold s64, u64. zlia. Qed.

Lemma quot_sign a b : b <> 0 -> Z.quot a b = if xorb (a <? 0) (b <? 0) then - (Z.abs a / Z.abs b) else Z.abs a / Z.abs b.
Proof.
  intros Hb. rewrite Z.quot_div by done. destruct (Z.sgn_spec a) as [[Ha ->]|[[Ha ->]|[Ha ->]]], (Z.sgn_spec b) as [[Hb' ->]|[[Hb' ->]|[Hb' ->]]]; try lia.
  all: destruct (a <? 0) eqn:Ea, (b <? 0) eqn:Eb; boolify; cbn [xorb]; try lia; subst; rewrite ?Z.div_0_l by lia; lia.
Qed.

Lemma rem_sign a b : b <> 0 -> Z.rem a b = if a <? 0 then - (Z.abs a mod Z.abs b) else Z.abs a mod Z.abs b.
Proof.
  intros Hb. rewrite Z.rem_mod by done. destruct (Z.sgn_spec a) as [[Ha ->]|[[Ha ->]|[Ha ->]]]; destruct (a <? 0) eqn:Ea; boolify; try lia.
  subst. by rewrite Z.mod_0_l by lia.
Qed.

Lemma wp_divdi3 a b s : stack s -> - 2 ^ 63 <= a < 2 ^ 63 -> - 2 ^ 63 <= b < 2 ^ 63 -> b <> 0 -> wp (__divdi3 a b) (fun q _ => q = s64 (Z.quot a b)) s.
Proof.
  intros Hs Ha Hb Hnz. unfold __divdi3. rewrite !if_pair, !magnitude by done. apply wp_bind. eapply wp_mono; [apply wp_qdivrem; done || lia|].
  intros _ s' ->. apply wp_ret. rewrite quot_sign by done. destruct (a <? 0), (b <? 0); cbn [xorb negb]; by rewrite ?s64_u64.
Qed.

Lemma wp_moddi3 a b s : stack s -> - 2 ^ 63 <= a < 2 ^ 63 -> - 2 ^ 63 <= b < 2 ^ 63 -> b <> 0 -> wp (__moddi3 a b) (fun r _ => r = Z.rem a b) s.
Proof.
  intros Hs Ha Hb Hnz. unfold __moddi3. rewrite !if_pair, !magnitude by done. apply wp_bind. eapply wp_mono; [apply wp_qdivrem; done || lia|].
  intros _ s' ->. wp_step. apply (wp_deref _ (Z.abs a mod Z.abs b)); [done|]. apply wp_ret. rewrite rem_sign by done.
  pose proof (Z.mod_pos_bound (Z.abs a) (Z.abs b) ltac:(lia)). pose proof (Z.mod_le (Z.abs a) (Z.abs b) ltac:(lia) ltac:(lia)).
  destruct (a <? 0) eqn:E; boolify; rewrite ?s64_u64, s64_id; lia.
Qed.
