(* ===== verification/LongLongProps.v ===== *)
(** The properties of the 64-bit arithmetic of common/gcc-millicode. *)
From S2P Require Import Prelude LongLong QDivRem QDivStep QDivSpec.

(** C8: Whatever the uninitialised digit arrays on its stack hold, Knuth's
    Algorithm D in base 2^16 as [__qdivrem] runs it ends without reading or
    writing outside them and returns the quotient and, if asked, the remainder
    of its 64-bit operands; with a zero divisor it traps. *)
Theorem qdivrem_correct x y arq s : stack s -> 0 <= x < 2 ^ 64 -> 0 <= y < 2 ^ 64 ->
  if y =? 0 then __qdivrem x y arq s = Fault
  else wp (__qdivrem x y arq) (fun r _ => r = (x / y, if arq then Some (x mod y) else None)) s.
Proof. intros Hs Hx Hy. destruct (y =? 0) eqn:E; boolify; [by subst y|]. apply wp_qdivrem; done || lia. Qed.

Definition sample_stack : qd := Qd [7; 65535; 0; 9; 1] [3; 1; 4; 1; 5] [65535; 65535; 65535; 65535; 65535].

Lemma sample_stack_ok : stack sample_stack.
Proof. intros []; (split; [done|]); rewrite B_eq; repeat (constructor; [lia|]); constructor. Qed.

Lemma qdivrem_correct_witness :
  wp (__qdivrem 0x7fff800000000000 0x800000000001 true) (fun r _ => r = (0xfffe, Some 0x7fffffff0002)) sample_stack.
Proof.
  pose proof (qdivrem_correct 0x7fff800000000000 0x800000000001 true sample_stack sample_stack_ok) as H.
  eapply wp_mono; [apply H; split; done|]. intros r s' ->. vm_compute. reflexivity.
Defined.

(** The signed division and remainder of [long long] truncate towards zero
    as C asks, on every pair of operands with a nonzero divisor; the one
    quotient that does not fit, of -2^63 by -1, wraps around. *)
Theorem signed_division_correct a b s : stack s -> - 2 ^ 63 <= a < 2 ^ 63 -> - 2 ^ 63 <= b < 2 ^ 63 -> b <> 0 ->
  wp (__divdi3 a b) (fun q _ => q = s64 (Z.quot a b)) s /\ wp (__moddi3 a b) (fun r _ => r = Z.rem a b) s.
Proof. intros Hs Ha Hb Hnz. split; [by apply wp_divdi3|by apply wp_moddi3]. Qed.

Lemma signed_division_correct_witness :
  wp (__divdi3 (-7) 2) (fun q _ => q = -3) sample_stack /\ wp (__moddi3 (-7) 2) (fun r _ => r = -1) sample_stack.
Proof. apply (signed_division_correct (-7) 2 sample_stack sample_stack_ok); (split; done) || done. Defined.

(** A number is a [long long] if its bits from 63 up are all equal. *)
Lemma sign_shiftr x : - 2 ^ 63 <= x < 2 ^ 63 <-> (Z.shiftr x 63 = 0 \/ Z.shiftr x 63 = -1).
Proof. rewrite Z.shiftr_div_pow2 by done. zlia. Qed.

Lemma shiftr_lnot x n : 0 <= n -> Z.shiftr (Z.lnot x) n = Z.lnot (Z.shiftr x n).
Proof. intros Hn. apply Z.bits_inj'. intros i Hi. by rewrite Z.shiftr_spec, !Z.lnot_spec, Z.shiftr_spec by lia. Qed.

(** C31: The out-of-line sum, difference, negation, product, bitwise operations
    and shifts of [long long], computed on 32-bit halves with explicit carries,
    are the operations of the integers reduced to 64 bits; no shift of a half
    is by its full width. *)
Theorem long_long_arithmetic a b n : - 2 ^ 63 <= a < 2 ^ 63 -> - 2 ^ 63 <= b < 2 ^ 63 -> 0 <= n < 64 ->
  (__adddi3 a b = s64 (a + b) /\ __subdi3 a b = s64 (a - b) /\ __negdi2 a = s64 (- a) /\ __muldi3 a b = s64 (a * b)) /\
  (__anddi3 a b = Z.land a b /\ __iordi3 a b = Z.lor a b /\ __xordi3 a b = Z.lxor a b /\ __one_cmpldi2 a = Z.lnot a) /\
  (__ashldi3 a n = Some (s64 (Z.shiftl a n)) /\ __lshldi3 a n = Some (s64 (Z.shiftl a n)) /\
   __lshrdi3 a n = Some (s64 (Z.shiftr (u64 a) n)) /\ __ashrdi3 a n = Some (Z.shiftr a n)) /\
  __cmpdi2 a b = match a ?= b with Lt => 0 | Eq => 1 | Gt => 2 end /\
  __ucmpdi2 (u64 a) (u64 b) = match u64 a ?= u64 b with Lt => 0 | Eq => 1 | Gt => 2 end.
Proof.
  intros Ha Hb Hn. rewrite adddi3_spec, subdi3_spec, negdi2_spec, muldi3_spec, anddi3_spec, iordi3_spec, xordi3_spec, one_cmpldi2_spec by done.
  rewrite ashldi3_spec, lshldi3_spec, lshrdi3_spec, ashrdi3_spec, cmpdi2_spec by done.
  rewrite ucmpdi2_spec by (apply Z.mod_pos_bound; done).
  apply sign_shiftr in Ha, Hb. split; [done|]. split; [|done].
  split_and!; apply s64_id, sign_shiftr; rewrite ?Z.shiftr_land, ?Z.shiftr_lor, ?Z.shiftr_lxor, ?shiftr_lnot by done; destruct Ha as [-> | ->]; try (destruct Hb as [-> | ->]); auto.
Qed.

Lemma long_long_arithmetic_witness : __muldi3 (-3) 5000000000 = -15000000000 /\ __ashrdi3 (-3) 40 = Some (-1).
Proof.
  destruct (long_long_arithmetic (-3) 5000000000 40) as ((_ & _ & _ & Hm) & _ & (_ & _ & _ & Hs) & _); [split; done..|].
  split; [exact Hm|exact Hs].
Defined.
