(* ===== verification/CopyInOut.v ===== *)
(** * Copying to and from user memory (kern/vm/copyinout.c)

    The kernel touches user memory by plain loads and stores.  One that hits
    an address nobody can make accessible is a fatal fault: the trap handler
    (kern/arch/mips/locore/trap.c) panics, unless [tm_badfaultfunc] is set, in
    which case the function that set it resumes after its [setjmp].  An
    operation of this file therefore returns [None] for such a jump.

    Memory is the map of bytes of [CString], here all the addresses the kernel
    can touch: the pages of the current address space below [USERSPACETOP],
    kernel memory above. *)

From S2P Require Import Prelude CString CStringSpec.

Definition USERSPACETOP : Z := 0x80000000.

(** The running thread's memory and whether [tm_badfaultfunc] is set. *)
Record cpu := Cpu { cmem : mem; badfault : bool }.

Notation CM := (M cpu).

Definition set_cmem (m : mem) (s : cpu) : cpu := Cpu m (badfault s).
Definition set_badfault (b : bool) (s : cpu) : cpu := Cpu (cmem s) b.

(** ** Faults *)

Definition touch {A} (o : option A) : CM (option A) :=
  match o with
  | Some a => ret (Some a)
  | None => s <- get ;; if badfault s then ret None else panic
  end.

(** The bytes from [p] on, if all can be touched. *)
Definition peek (m : mem) (p : Z) (n : nat) : option (list Z) := mapM (fun a => m !! a) (seqZ p (Z.of_nat n)).

Definition load_bytes (p : Z) (n : nat) : CM (option (list Z)) := s <- get ;; touch (peek (cmem s) p n).

Definition store_bytes (p : Z) (l : list Z) : CM (option unit) :=
  s <- get ;;
  r <- touch (peek (cmem s) p (length l)) ;;
  match r with
  | None => ret None
  | Some _ => modify (set_cmem (wr (cmem s) p l)) ;;; ret (Some tt)
  end.

(** One element of [n] bytes from [src] to [dst]; [None] goes on. *)
Definition copy_element (dst src : Z) (n : nat) : CM (option unit) :=
  r <- load_bytes src n ;;
  match r with
  | None => ret (Some tt)
  | Some l => r <- store_bytes dst l ;; ret (if r is Some _ then None else Some tt)
  end.

(** [memcpy] of common/libc/string/memcpy.c under these faults: by [long]s
    where everything is aligned, by [char]s otherwise. *)
Definition memcpy_faults (dst src len : Z) : CM (option Z) :=
  r <- (if aligned dst && aligned src && aligned len then
          for_ (Z.to_nat (len / sizeof_long)) 0 (fun i => copy_element (dst + 4 * i) (src + 4 * i) 4)
        else
          for_ (Z.to_nat len) 0 (fun i => copy_element (dst + i) (src + i) 1)) ;;
  ret (if r is Some _ then None else Some dst).

(** [setjmp] with [tm_badfaultfunc] set around the operation, which is
    abandoned with [EFAULT] when it jumps. *)
Definition protect {A} (body : CM (option A)) : CM (err A) :=
  modify (set_badfault true) ;;;
  r <- body ;;
  modify (set_badfault false) ;;;
  ret (match r with None => inl EFAULT | Some a => inr a end).

(** ** The operations *)

(** An error, or the length that can be copied. *)
Definition copycheck (userptr len : Z) : err Z :=
  let bot := userptr in
  let top := u32 (bot + len - 1) in
  if top <? bot then inl EFAULT
  else if USERSPACETOP <=? bot then inl EFAULT
  else if USERSPACETOP <=? top then inr (USERSPACETOP - bot)
  else inr len.

Definition copyin (usersrc dest len : Z) : CM Z :=
  match copycheck usersrc len with
  | inl result => ret result
  | inr stoplen =>
      if negb (stoplen =? len) then ret EFAULT else
      r <- protect (memcpy_faults dest usersrc len) ;;
      ret (match r with inl e => e | inr _ => 0 end)
  end.

Definition copyout (src userdest len : Z) : CM Z :=
  match copycheck userdest len with
  | inl result => ret result
  | inr stoplen =>
      if negb (stoplen =? len) then ret EFAULT else
      r <- protect (memcpy_faults userdest src len) ;;
      ret (match r with inl e => e | inr _ => 0 end)
  end.

(** A jump, an error, or the length with the terminator. *)
Definition copystr (dest src maxlen stoplen : Z) : CM (option (err Z)) :=
  r <- for_ (Z.to_nat (Z.min maxlen stoplen)) 0 (fun i =>
         r <- copy_element (dest + i) (src + i) 1 ;;
         if r is Some _ then ret (Some None) else
         c <- load_bytes (src + i) 1 ;;
         match c with
         | None => ret (Some None)
         | Some l => ret (if hd 0 l =? 0 then Some (Some (i + 1)) else None)
         end) ;;
  ret (match r with
       | Some None => None
       | Some (Some gotlen) => Some (inr gotlen)
       | None => Some (inl (if stoplen <? maxlen then EFAULT else ENAMETOOLONG))
       end).

Definition join_err {A} (r : err (err A)) : err A := match r with inl e => inl e | inr x => x end.

Definition copyinstr (usersrc dest len : Z) : CM (err Z) :=
  match copycheck usersrc len with
  | inl result => ret (inl result)
  | inr stoplen => r <- protect (copystr dest usersrc len stoplen) ;; ret (join_err r)
  end.

Definition copyoutstr (src userdest len : Z) : CM (err Z) :=
  match copycheck userdest len with
  | inl result => ret (inl result)
  | inr stoplen => r <- protect (copystr userdest src len stoplen) ;; ret (join_err r)
  end.
