(* ===== verification/CopyInOutSpec.v ===== *)
(** What the copies of [CopyInOut] do to memory: they write the given bytes,
    or a part of them before they give up, and nothing else. *)
From S2P Require Import Prelude CString CStringSpec CopyInOut.

(** ** Bytes that can be touched *)

Lemma peek_Some m p n l : peek m p n = Some l <-> bytes_at m p l /\ length l = n.
Proof.
  unfold peek, bytes_at. rewrite mapM_Some, Forall2_lookup. split.
  - intros H. assert (length l = n) as Hl.
    { transitivity (length (seqZ p (Z.of_nat n))); [|rewrite length_seqZ; lia]. symmetry. eapply Forall2_length, Forall2_lookup. exact H. }
    split; [|done]. intros i c Hi. specialize (H i). rewrite Hi, lookup_seqZ_lt in H by (apply lookup_lt_Some in Hi; lia). by inversion H.
  - intros [H Hl] i. destruct (l !! i) as [c|] eqn:E.
    + rewrite lookup_seqZ_lt by (apply lookup_lt_Some in E; lia). constructor. by apply H.
    + rewrite lookup_seqZ_ge by (apply lookup_ge_None in E; lia). constructor.
Qed.

Lemma peek_None m p n : peek m p n = None <-> exists a, p <= a < p + Z.of_nat n /\ m !! a = None.
Proof.
  unfold peek. rewrite mapM_None, Exists_exists. split.
  - intros (a & Ha%elem_of_seqZ & E). by exists a.
  - intros (a & Ha & E). exists a. rewrite elem_of_seqZ. done.
Qed.

Lemma peek_mapped m p n : mapped m p (Z.of_nat n) -> exists l, peek m p n = Some l.
Proof.
  intros Hm. destruct (peek m p n) as [l|] eqn:E; [by exists l|]. apply peek_None in E as (a & Ha & E).
  destruct (Hm (a - p)) as [c Hc]; [lia|]. replace (p + (a - p)) with a in Hc by lia. congruence.
Qed.

(** Only the [n] bytes at [p] may have changed, and no address appeared or
    went away. *)
Definition framed (p n : Z) (m m' : mem) : Prop := dom m' = dom m /\ forall a, ~ p <= a < p + n -> m' !! a = m !! a.

Lemma framed_refl p n m : framed p n m m.
Proof. done. Qed.

Lemma framed_wr p n l m : mapped m p (Z.of_nat (length l)) -> Z.of_nat (length l) <= n -> framed p n m (wr m p l).
Proof.
  intros Hm Hl. split.
  - apply set_eq. intros a. rewrite !elem_of_dom, wr_lookup. case_decide as Ha; [|done]. split; intros _.
    + destruct (Hm (a - p)) as [c Hc]; [lia|]. replace (p + (a - p)) with a in Hc by lia. by exists c.
    + apply lookup_lt_is_Some_2. lia.
  - intros a Ha. apply wr_out. lia.
Qed.

Lemma framed_is_Some p n m m' a : framed p n m m' -> is_Some (m' !! a) <-> is_Some (m !! a).
Proof. intros [E _]. by rewrite <- !elem_of_dom, E. Qed.

Lemma framed_bytes_at p n m m' q l : framed p n m m' -> apart p n q (Z.of_nat (length l)) -> bytes_at m q l -> bytes_at m' q l.
Proof. intros [_ H] Ha. apply bytes_at_ext. intros a Hq. apply H. unfold apart in Ha. lia. Qed.

(** ** Elements *)

(** The first bytes of [src] have been written to [dst]. *)
Definition copied (dst src : Z) (l : list Z) (s s' : cpu) : Prop :=
  bytes_at (cmem s) src l /\ mapped (cmem s) dst (Z.of_nat (length l)) /\ s' = set_cmem (wr (cmem s) dst l) s.

(** Something in the way: an address of either block that cannot be touched. *)
Definition unreachable (dst src n : Z) (m : mem) : Prop := exists a, (dst <= a < dst + n \/ src <= a < src + n) /\ m !! a = None.

Lemma wp_load_bytes p n (Q : option (list Z) -> cpu -> Prop) s : badfault s = true \/ is_Some (peek (cmem s) p n) -> Q (peek (cmem s) p n) s -> wp (load_bytes p n) Q s.
Proof.
  intros Hb HQ. unfold load_bytes, touch. wp_step. wp_step. destruct (peek _ _ _); [by wp_step|].
  destruct Hb as [Hb|[? [=]]]. wp_step. wp_step. rewrite Hb. by wp_step.
Qed.

Lemma copied_nil dst src s : copied dst src [] s s.
Proof. split_and!; [intros i c Hi; done|intros i Hi; cbn in Hi; lia|]. by destruct s. Qed.

Lemma wp_copy_element dst src n l s0 s : copied dst src l s0 s -> badfault s0 = true ->
  apart dst (Z.of_nat (length l + n)) src (Z.of_nat (length l + n)) ->
  wp (copy_element (dst + Z.of_nat (length l)) (src + Z.of_nat (length l)) n) (fun r s' =>
    match r with
    | None => exists l', length l' = n /\ copied dst src (l ++ l') s0 s'
    | Some _ => s' = s /\ unreachable dst src (Z.of_nat (length l + n)) (cmem s0)
    end) s.
Proof.
  intros (Hb & Hm & ->) Hf Ha. unfold copy_element, apart in *. wp_step. apply wp_load_bytes; [by left|]. cbn [set_cmem cmem].
  destruct (peek (wr _ _ _) _ _) as [k|] eqn:E.
  - apply peek_Some in E as [Hk Hlk]. assert (bytes_at (cmem s0) (src + Z.of_nat (length l)) k) as Hk0.
    { eapply bytes_at_ext; [|exact Hk]. intros a Hx. symmetry. apply wr_out. lia. }
    unfold store_bytes. wp_step. wp_step. wp_step. unfold touch. cbn [set_cmem cmem].
    destruct (peek (wr _ _ _) (dst + _) _) as [k'|] eqn:E'; wp_steps.
    + exists k. split; [done|]. apply peek_Some in E' as [Hk' Hlk']. split_and!.
      * apply bytes_at_app. done.
      * intros i Hi. rewrite length_app in Hi. destruct (decide (i < Z.of_nat (length l))); [apply Hm; lia|].
        apply bytes_at_mapped in Hk'. destruct (Hk' (i - Z.of_nat (length l))) as [c Hc]; [lia|]. replace (dst + Z.of_nat (length l) + (i - Z.of_nat (length l))) with (dst + i) in Hc by lia.
        rewrite wr_out in Hc by lia. by exists c.
      * unfold set_cmem. cbn. f_equal. by rewrite wr_app.
    + cbn [set_cmem badfault]. rewrite Hf. wp_steps. split; [done|]. apply peek_None in E' as (a & Hx & E'). exists a. rewrite wr_out in E' by lia. split; [left; lia|done].
  - wp_steps. split; [done|]. apply peek_None in E as (a & Hx & E). exists a. rewrite wr_out in E by lia. split; [right; lia|done].
Qed.

(** ** [memcpy] *)

(** The loop over [n] elements of [c] bytes. *)
Lemma wp_copy_loop (c : nat) n dst src body (Q : option unit -> cpu -> Prop) s : badfault s = true -> 0 <= n ->
  apart dst (Z.of_nat c * n) src (Z.of_nat c * n) -> (forall i, body i = copy_element (dst + Z.of_nat c * i) (src + Z.of_nat c * i) c) ->
  (forall l s', Z.of_nat (length l) = Z.of_nat c * n -> copied dst src l s s' -> Q None s') ->
  (forall l s', Z.of_nat (length l) <= Z.of_nat c * n -> copied dst src l s s' -> unreachable dst src (Z.of_nat c * n) (cmem s) -> Q (Some tt) s') ->
  wp (for_ (Z.to_nat n) 0 body) Q s.
Proof.
  intros Hf Hn Ha Hbody HN HS. apply (wp_for _ _ _ (fun i s' => exists l, Z.of_nat (length l) = Z.of_nat c * i /\ copied dst src l s s')).
  - exists []. split; [cbn; lia|apply copied_nil].
  - intros i s1 Hi (l & Hl & Hc). rewrite Hbody, <- Hl. assert (Z.of_nat (length l + c) <= Z.of_nat c * n) by (rewrite Nat2Z.inj_add, Hl; nia).
    eapply wp_mono; [eapply wp_copy_element; [exact Hc|done|unfold apart in *; lia]|]. intros [[]|] s2.
    + intros [-> (a & Hx & E)]. eapply HS; [|exact Hc|]; [lia|]. exists a. split; [lia|done].
    + intros (l' & Hl' & Hc'). exists (l ++ l'). split; [rewrite length_app; lia|done].
  - intros s1 (l & Hl & Hc). eapply HN; [|exact Hc]. lia.
Qed.

(** All of the block is copied, or a part of it before an address that cannot
    be touched. *)
Definition copy_result (dst src len : Z) (s : cpu) (done : bool) (s' : cpu) : Prop :=
  exists l, copied dst src l s s' /\
    if done then Z.of_nat (length l) = len else Z.of_nat (length l) <= len /\ unreachable dst src len (cmem s).

Lemma aligned_mul n : aligned n = true -> n = 4 * (n / sizeof_long).
Proof. unfold aligned, sizeof_long. intros. boolify. zlia. Qed.

Lemma wp_memcpy_faults dst src len s : badfault s = true -> 0 <= len -> apart dst len src len ->
  wp (memcpy_faults dst src len) (fun r s' => copy_result dst src len s (if r is Some _ then true else false) s') s.
Proof.
  intros Hf Hlen Ha. unfold memcpy_faults. apply wp_bind.
  apply (wp_mono _ (fun r s' => copy_result dst src len s (if r is Some _ then false else true) s')); [|by intros [] s'].
  assert (exists c n body, Z.of_nat c * n = len /\ 0 <= n /\ (forall i, body i = copy_element (dst + Z.of_nat c * i) (src + Z.of_nat c * i) c) /\
    (if aligned dst && aligned src && aligned len then for_ (Z.to_nat (len / sizeof_long)) 0 (fun i => copy_element (dst + 4 * i) (src + 4 * i) 4)
     else for_ (Z.to_nat len) 0 (fun i => copy_element (dst + i) (src + i) 1)) = for_ (Z.to_nat n) 0 body) as (c & n & body & El & Hn & Hb & ->).
  { destruct (aligned dst && aligned src && aligned len) eqn:E; boolify.
    - pose proof (aligned_mul len ltac:(done)). exists 4%nat, (len / sizeof_long). eexists. split_and!; [lia|unfold sizeof_long in *; zlia| |done]. done.
    - exists 1%nat, len. eexists. split_and!; [lia|done| |done]. intros i. cbv beta. by rewrite Z.mul_1_l. }
  rewrite <- El in *. eapply (wp_copy_loop c n dst src body); try done.
  - intros l s' Hl Hc. by exists l.
  - intros l s' Hl Hc Hu. by exists l.
Qed.

(** ** Whole blocks *)

Lemma protect_wp {A} (body : CM (option A)) (Q : err A -> cpu -> Prop) s :
  wp body (fun r s' => Q (match r with None => inl EFAULT | Some a => inr a end) (set_badfault false s')) (set_badfault true s) -> wp (protect body) Q s.
Proof. intros H. unfold protect. wp_step. apply wp_modify. wp_step. eapply wp_mono; [exact H|]. intros r s' HQ. wp_step. apply wp_modify. by apply wp_ret. Qed.

(** A block the user may name: not empty and below the kernel. *)
Definition user_block (p n : Z) : Prop := 0 <= p /\ 0 < n /\ p + n <= USERSPACETOP.

#[export] Instance user_block_dec p n : Decision (user_block p n).
Proof. unfold user_block. apply _. Defined.

Lemma copycheck_spec p n : 0 <= p < 2 ^ 32 -> 0 <= n < 2 ^ 32 ->
  copycheck p n = if decide (user_block p n) then inr n else if decide (p < USERSPACETOP /\ u32 (p + n - 1) >= p) then inr (USERSPACETOP - p) else inl EFAULT.
Proof.
  intros Hp Hn. unfold copycheck, user_block, USERSPACETOP, u32 in *. repeat case_decide; repeat case_match; boolify; try done; f_equal; zlia.
Qed.

Lemma copied_framed dst src l s s' n : copied dst src l s s' -> Z.of_nat (length l) <= n -> framed dst n (cmem s) (cmem s').
Proof. intros (_ & Hm & ->) Hl. by apply framed_wr. Qed.

Lemma mapped_Forall m p n : mapped m p n <-> Forall (fun i => is_Some (m !! (p + i))) (seqZ 0 n).
Proof. rewrite Forall_seqZ. done. Qed.

#[export] Instance mapped_dec m p n : Decision (mapped m p n).
Proof. refine (cast_if (decide (Forall (fun i => is_Some (m !! (p + i))) (seqZ 0 n)))); by rewrite mapped_Forall. Defined.

(** The result of copying a block, one side of which is user memory: the
    block is copied, or an error is returned because the user's side is not
    all there; either way at most [n] bytes at [dst] changed. *)
Definition block_copied (user dst src n : Z) (s : cpu) (r : Z) (s' : cpu) : Prop :=
  badfault s' = false /\ framed dst n (cmem s) (cmem s') /\
  if decide (user_block user n /\ mapped (cmem s) user n)
  then r = 0 /\ exists l, Z.of_nat (length l) = n /\ bytes_at (cmem s) src l /\ cmem s' = wr (cmem s) dst l
  else r = EFAULT /\ (user_block user n \/ s' = s).

(** The common part of [copyin] and [copyout]; [kern] is the other side. *)
Lemma wp_copy_block user kern dst src n (Q : Z -> cpu -> Prop) s : badfault s = false ->
  0 <= user < 2 ^ 32 -> 0 <= n < 2 ^ 32 -> USERSPACETOP <= kern -> mapped (cmem s) kern n ->
  (dst = user /\ src = kern) \/ (dst = kern /\ src = user) ->
  (forall r s', block_copied user dst src n s r s' -> Q r s') ->
  wp (match copycheck user n with
      | inl result => ret result
      | inr stoplen =>
          if negb (stoplen =? n) then ret EFAULT else
          r <- protect (memcpy_faults dst src n) ;;
          ret (match r with inl e => e | inr _ => 0 end)
      end) Q s.
Proof.
  intros Hf Hu Hn Hk Hm Hds HQ. rewrite copycheck_spec by done. destruct (decide (user_block user n)) as [Hb|Hb].
  - rewrite Z.eqb_refl. cbn [negb]. wp_step. apply protect_wp. assert (apart dst n src n) as Ha by (unfold apart, user_block in *; lia).
    eapply wp_mono; [apply wp_memcpy_faults; [done|lia|done]|]. cbn [set_badfault cmem]. intros r s1 (l & Hc & Hl). wp_step. apply HQ.
    assert (s = set_badfault false s) as Es by (destruct s; cbn in *; by subst).
    assert (Z.of_nat (length l) <= n) as Hln by (destruct r; lia). unfold block_copied. pose proof (copied_framed _ _ _ _ _ n Hc Hln) as Hfr.
    destruct Hc as (Hba & Hmp & ->). cbn [set_badfault set_cmem cmem badfault] in *. split_and!; [done|done|].
    destruct r as [d|].
    + rewrite decide_True.
      * split; [done|]. exists l. done.
      * split; [done|]. apply bytes_at_mapped in Hba. rewrite Hl in *. destruct Hds as [[-> ->]|[-> ->]]; done.
    + destruct Hl as [_ (a & Hx & E)]. rewrite decide_False; [split; [done|by left]|]. intros [_ Hmu]. 
      assert (forall q, mapped (cmem s) q n -> ~ q <= a < q + n) as Hno. { intros q Hq Hin. destruct (Hq (a - q)) as [c Hc']; [lia|]. replace (q + (a - q)) with a in Hc' by lia. congruence. }
      pose proof (Hno _ Hm). pose proof (Hno _ Hmu). destruct Hds as [[-> ->]|[-> ->]]; lia.
  - assert (block_copied user dst src n s EFAULT s) as HE. { split_and!; [done|apply framed_refl|]. rewrite decide_False by naive_solver. split; [done|by right]. }
    case_decide as Hd; wp_steps; [|by apply HQ]. replace (USERSPACETOP - user =? n) with false by (unfold user_block in Hb; lia). wp_steps. by apply HQ.
Qed.

Lemma wp_copyin usersrc dest len s : badfault s = false -> 0 <= usersrc < 2 ^ 32 -> 0 <= len < 2 ^ 32 -> USERSPACETOP <= dest -> mapped (cmem s) dest len ->
  wp (copyin usersrc dest len) (block_copied usersrc dest usersrc len s) s.
Proof. intros. unfold copyin. eapply (wp_copy_block usersrc dest); try done. by right. Qed.

Lemma wp_copyout src userdest len s : badfault s = false -> 0 <= userdest < 2 ^ 32 -> 0 <= len < 2 ^ 32 -> USERSPACETOP <= src -> mapped (cmem s) src len ->
  wp (copyout src userdest len) (block_copied userdest userdest src len s) s.
Proof. intros. unfold copyout. eapply (wp_copy_block userdest src); try done. by left. Qed.

(** ** Strings *)

(** How [copystr] ends: with the terminator, at one of the lengths, or before
    an address that cannot be touched. *)
Definition str_copied (dst src maxlen stoplen : Z) (s : cpu) (r : option (err Z)) (s' : cpu) : Prop :=
  exists l, copied dst src l s s' /\ Z.of_nat (length l) <= Z.min maxlen stoplen /\
    match r with
    | Some (inr g) => exists k, l = k ++ [0] /\ 0 ∉ k /\ g = Z.of_nat (length k) + 1
    | Some (inl e) => Z.of_nat (length l) = Z.min maxlen stoplen /\ 0 ∉ l /\ e = if stoplen <? maxlen then EFAULT else ENAMETOOLONG
    | None => Z.of_nat (length l) < Z.min maxlen stoplen /\ 0 ∉ l /\ (cmem s !! (dst + Z.of_nat (length l)) = None \/ cmem s !! (src + Z.of_nat (length l)) = None)
    end.

Lemma wp_copystr dst src maxlen stoplen s : badfault s = true -> 0 <= maxlen -> 0 <= stoplen ->
  apart dst (Z.min maxlen stoplen) src (Z.min maxlen stoplen) ->
  wp (copystr dst src maxlen stoplen) (str_copied dst src maxlen stoplen s) s.
Proof.
  intros Hf Hm Hst Ha. unfold copystr. apply wp_bind. set (K := Z.min maxlen stoplen) in *.
  apply (wp_for _ _ _ (fun i s' => exists l, Z.of_nat (length l) = i /\ 0 ∉ l /\ copied dst src l s s')).
  - exists []. split_and!; [done|set_solver|apply copied_nil].
  - intros i s1 Hi (l & Hl & H0 & Hc). subst i. wp_step. eapply wp_mono; [eapply wp_copy_element; [exact Hc|done|unfold apart in *; lia]|].
    intros [[]|] s2.
    + intros [-> (a & Hx & E)]. wp_steps. exists l. split_and!; [done|lia|lia|done|].
      destruct Hc as (Hb & Hmp & _). assert (forall q, mapped (cmem s) q (Z.of_nat (length l)) -> q <= a < q + Z.of_nat (length l + 1) -> a = q + Z.of_nat (length l)) as Hat.
      { intros q Hq Hin. destruct (decide (a = q + Z.of_nat (length l))); [done|]. destruct (Hq (a - q)) as [c Hc']; [lia|]. replace (q + (a - q)) with a in Hc' by lia. congruence. }
      apply bytes_at_mapped in Hb. destruct Hx as [Hx|Hx]; [left; by rewrite <- (Hat _ Hmp Hx)|right; by rewrite <- (Hat _ Hb Hx)].
    + intros (l' & Hl' & Hc'). destruct l' as [|c [|? ?]]; try done. clear Hl'. wp_step. pose proof Hc' as (Hb & Hmp & ->).
      apply bytes_at_app in Hb as [Hb1 Hb2]. assert (peek (cmem (set_cmem (wr (cmem s) dst (l ++ [c])) s)) (src + Z.of_nat (length l)) 1 = Some [c]) as E.
      { apply peek_Some. split; [|done]. eapply bytes_at_ext; [|exact Hb2]. intros a Hx. apply wr_out. rewrite length_app. cbn [length] in *. unfold apart in *. lia. }
      apply wp_load_bytes; rewrite E; [by right|]. cbn [hd]. wp_steps. destruct (c =? 0) eqn:Ec; boolify.
      * subst c. exists (l ++ [0]). split_and!; [done|rewrite length_app; cbn [length]; lia|]. exists l. done.
      * exists (l ++ [c]). split_and!; [rewrite length_app; cbn [length]; lia|set_solver|done].
  - intros s1 (l & Hl & H0 & Hc). wp_steps. exists l. split_and!; try done; lia.
Qed.

(** The string at [p] ends within [len] bytes and before the kernel. *)
Definition user_string (m : mem) (p len : Z) (k : list Z) : Prop :=
  cstr m p k /\ Z.of_nat (length k) < len /\ p + Z.of_nat (length k) < USERSPACETOP.

Lemma cstr_prefix m p k l : cstr m p k -> bytes_at m p l -> 0 ∉ l -> (length l <= length k)%nat.
Proof.
  intros [Hk _] Hl H0. destruct (decide (length l <= length k)%nat); [done|]. exfalso. apply H0.
  destruct (lookup_lt_is_Some_2 l (length k)) as [c Hc]; [lia|]. pose proof (Hl _ _ Hc) as E1. 
  pose proof (Hk (length k) 0 ltac:(by rewrite lookup_app_r, Nat.sub_diag by lia)) as E2. rewrite E1 in E2. injection E2 as ->. by eapply list_elem_of_lookup_2.
Qed.

(** The result of [copyinstr]: the string with its terminator, if there is
    one; an error otherwise, [ENAMETOOLONG] when all the characters allowed
    are there. *)
Definition instr_copied (usersrc dest len : Z) (s : cpu) (r : err Z) (s' : cpu) : Prop :=
  badfault s' = false /\ framed dest len (cmem s) (cmem s') /\
  match r with
  | inr g => exists k, user_string (cmem s) usersrc len k /\ g = Z.of_nat (length k) + 1 /\ cmem s' = wr (cmem s) dest (k ++ [0])
  | inl e => (forall k, ~ user_string (cmem s) usersrc len k) /\
      (e = ENAMETOOLONG /\ user_block usersrc len /\ mapped (cmem s) usersrc len \/ e = EFAULT /\ ~ (user_block usersrc len /\ mapped (cmem s) usersrc len))
  end.

Lemma mapped_at m p n a : mapped m p n -> p <= a < p + n -> m !! a <> None.
Proof. intros Hm Ha E. destruct (Hm (a - p)) as [c Hc]; [lia|]. replace (p + (a - p)) with a in Hc by lia. congruence. Qed.

Lemma user_string_mapped m p len k a : user_string m p len k -> p <= a <= p + Z.of_nat (length k) -> m !! a <> None.
Proof. intros [[Hk _] _] Ha. apply bytes_at_mapped in Hk. eapply mapped_at; [exact Hk|]. rewrite length_app. cbn [length]. lia. Qed.

Lemma wp_copyinstr usersrc dest len s : badfault s = false -> 0 <= usersrc -> 0 < len -> usersrc + len < 2 ^ 32 -> USERSPACETOP <= dest -> mapped (cmem s) dest len ->
  wp (copyinstr usersrc dest len) (instr_copied usersrc dest len s) s.
Proof.
  intros Hf Hu Hlen Hw Hd Hm. unfold copyinstr. rewrite copycheck_spec by lia.
  assert (forall stop, stop = Z.min len (USERSPACETOP - usersrc) -> 0 < stop -> wp (r <- protect (copystr dest usersrc len stop) ;; ret (join_err r)) (instr_copied usersrc dest len s) s) as Hstr.
  { intros stop Es Hpos. wp_step. apply protect_wp. eapply wp_mono; [apply wp_copystr; [done|lia|lia|unfold apart; lia]|].
    intros r s1 (l & Hc & Hl & Hr). pose proof (copied_framed _ _ _ _ _ len Hc ltac:(lia)) as Hfr. destruct Hc as (Hb & Hmp & ->). cbn [set_badfault set_cmem cmem badfault] in *. wp_step.
    split_and!; [done|done|]. cbn [set_badfault set_cmem cmem]. destruct r as [[e|g]|]; cbn [join_err].
    - destruct Hr as (El & H0 & ->). split.
      + intros k ([Hk Hk0] & Hkl & Hku). pose proof (cstr_prefix _ _ k l (conj Hk Hk0) Hb H0). lia.
      + apply bytes_at_mapped in Hb. destruct (stop <? len) eqn:E; boolify; [right|left]; (split; [done|]); unfold user_block.
        * intros [? _]. lia.
        * replace len with (Z.of_nat (length l)) by lia. split; [lia|done].
    - destruct Hr as (k & -> & H0 & ->). exists k. rewrite length_app in Hl. cbn [length] in Hl. split; [split; [done|lia]|done].
    - destruct Hr as (El & H0 & [E|E]); [by apply (mapped_at _ _ _ _ Hm) in E; [|lia]|]. split.
      + intros k Hk. destruct Hk as (Hc & ?). pose proof (cstr_prefix _ _ k l Hc Hb H0). eapply user_string_mapped; [split; done| |exact E]. lia.
      + right. split; [done|]. intros [_ Hmu]. eapply mapped_at; [exact Hmu| |exact E]. lia. }
  destruct (decide (user_block usersrc len)) as [Hb|Hb]; [apply Hstr; unfold user_block in Hb; lia|].
  destruct (decide (usersrc < USERSPACETOP /\ _)) as [[Hlt _]|Hnb].
  - apply Hstr; [|lia]. unfold user_block in Hb. lia.
  - wp_step. split; [done|]. split; [apply framed_refl|]. assert (USERSPACETOP <= usersrc) by (unfold u32 in Hnb; rewrite Z.mod_small in Hnb by lia; lia).
    split; [intros k (_ & _ & ?); lia|]. right. split; [done|]. unfold user_block. lia.
Qed.

(** [copyoutstr] with room for the string: it is written with its terminator,
    or the user's block is not all there; it only writes to user memory. *)
Definition outstr_copied (src userdest : Z) (k : list Z) (s : cpu) (r : err Z) (s' : cpu) : Prop :=
  let n := Z.of_nat (length k) + 1 in
  badfault s' = false /\ framed userdest (Z.max 0 (Z.min n (USERSPACETOP - userdest))) (cmem s) (cmem s') /\
  if decide (user_block userdest n /\ mapped (cmem s) userdest n) then r = inr n /\ cmem s' = wr (cmem s) userdest (k ++ [0]) else r = inl EFAULT.

Lemma wp_copyoutstr src userdest k s : let n := Z.of_nat (length k) + 1 in badfault s = false -> 0 <= userdest -> userdest + n < 2 ^ 32 -> USERSPACETOP <= src -> cstr (cmem s) src k ->
  wp (copyoutstr src userdest n) (outstr_copied src userdest k s) s.
Proof.
  intros n Hf Hu Hw Hd Hk. unfold copyoutstr. rewrite copycheck_spec by lia.
  assert (forall stop, stop = Z.min n (USERSPACETOP - userdest) -> 0 < stop -> wp (r <- protect (copystr userdest src n stop) ;; ret (join_err r)) (outstr_copied src userdest k s) s) as Hstr.
  { intros stop Es Hpos. wp_step. apply protect_wp. eapply wp_mono; [apply wp_copystr; [done|lia|lia|unfold apart; lia]|].
    intros r s1 (l & Hc & Hl & Hr). pose proof (copied_framed _ _ _ _ _ stop Hc ltac:(lia)) as Hfr. destruct Hc as (Hb & Hmp & ->). cbn [set_badfault set_cmem cmem badfault] in *. wp_step.
    split; [done|]. fold n. replace (Z.max 0 (Z.min n (USERSPACETOP - userdest))) with stop by lia. split; [done|]. cbn [set_badfault set_cmem cmem].
    pose proof Hk as [Hkb Hk0]. assert (mapped (cmem s) src n) as Hms. { apply bytes_at_mapped in Hkb. rewrite length_app in Hkb. cbn [length] in Hkb. by replace (Z.of_nat (length k + 1)) with n in Hkb by lia. }
    destruct r as [[e|g]|]; cbn [join_err].
    - destruct Hr as (El & H0 & ->). pose proof (cstr_prefix _ _ k l Hk Hb H0) as Hlk. rewrite decide_False by (unfold user_block; lia). by replace (stop <? n) with true by lia.
    - destruct Hr as (k' & -> & H0 & ->). assert (k' = k) as ->.
      { apply (list_eq_same_length _ _ (length k)); [done| |].
        - assert (cstr (cmem s) src k') as Hk' by done. apply bytes_at_app in Hb as [Hb1 _]. pose proof (cstr_prefix _ _ k k' Hk Hb1 H0). apply bytes_at_app in Hkb as [Hb2 _]. pose proof (cstr_prefix _ _ k' k Hk' Hb2 Hk0). lia.
        - intros i x y Hi Hx Hy. apply bytes_at_app in Hb as [Hb1 _]. apply bytes_at_app in Hkb as [Hb2 _]. apply Hb1 in Hx. apply Hb2 in Hy. congruence. }
      rewrite length_app in Hl. cbn [length] in Hl. rewrite decide_True; [done|]. split; [unfold user_block; lia|]. rewrite length_app in Hmp. cbn [length] in Hmp. by replace (Z.of_nat (length k + 1)) with n in Hmp by lia.
    - destruct Hr as (El & H0 & [E|E]); [|by apply (mapped_at _ _ _ _ Hms) in E; [|lia]].
      rewrite decide_False; [done|]. intros [_ Hmu]. eapply mapped_at; [exact Hmu| |exact E]. lia. }
  destruct (decide (user_block userdest n)) as [Hb|Hb]; [apply Hstr; unfold user_block in Hb; lia|].
  destruct (decide (userdest < USERSPACETOP /\ _)) as [[Hlt _]|Hnb].
  - apply Hstr; [|lia]. unfold user_block in Hb. lia.
  - wp_step. split; [done|]. split; [apply framed_refl|]. fold n. rewrite decide_False by (intros [? _]; done). done.
Qed.

(** A null kernel buffer, as after a failed allocation, when nothing is mapped
    there. *)
Lemma wp_copyinstr_null usersrc len s : badfault s = false -> 0 <= usersrc -> 0 < len -> usersrc + len < 2 ^ 32 -> cmem s !! 0 = None ->
  wp (copyinstr usersrc 0 len) (fun r s' => r = inl EFAULT /\ s' = s) s.
Proof.
  intros Hf Hu Hlen Hw H0. assert (s = set_badfault false (set_badfault true s)) as Es by (destruct s; cbn in *; by subst).
  unfold copyinstr. rewrite copycheck_spec by lia.
  assert (forall stop, 0 < stop -> wp (r <- protect (copystr 0 usersrc len stop) ;; ret (join_err r)) (fun r s' => r = inl EFAULT /\ s' = s) s) as Hstr.
  { intros stop Hpos. wp_step. apply protect_wp. unfold copystr. wp_step. destruct (Z.to_nat (Z.min len stop)) as [|n] eqn:En; [lia|]. cbn [for_]. wp_step. wp_step.
    unfold copy_element. wp_step. apply wp_load_bytes; [by left|]. destruct (peek _ _ _) as [l|] eqn:E; [|wp_steps; done].
    unfold store_bytes. do 3 wp_step. apply peek_Some in E as [_ Hl]. unfold touch.
    assert (peek (cmem (set_badfault true s)) (0 + 0) (length l) = None) as ->. { apply peek_None. exists 0. rewrite Hl. done. }
    wp_steps. done. }
  case_decide as Hb; [apply Hstr; lia|]. case_decide as Hb'; [apply Hstr; unfold user_block in *; lia|]. by apply wp_ret.
Qed.

(** Any pointer, with a buffer of a reasonable size. *)
Lemma copycheck_kernel p n : USERSPACETOP <= p < 2 ^ 32 -> 0 <= n < 2 ^ 32 -> copycheck p n = inl EFAULT.
Proof. intros Hp Hn. rewrite copycheck_spec by (unfold USERSPACETOP in *; lia). rewrite !decide_False; [done|lia|unfold user_block; lia]. Qed.

Lemma wp_copyinstr_any usersrc dest len s : badfault s = false -> 0 <= usersrc < 2 ^ 32 -> 0 < len <= USERSPACETOP -> USERSPACETOP <= dest -> mapped (cmem s) dest len ->
  wp (copyinstr usersrc dest len) (instr_copied usersrc dest len s) s.
Proof.
  intros Hf Hu Hlen Hd Hm. destruct (decide (usersrc < USERSPACETOP)); [apply wp_copyinstr; try done; unfold USERSPACETOP in *; lia|].
  unfold copyinstr. rewrite copycheck_kernel by (unfold USERSPACETOP in *; lia). wp_step. split; [done|]. split; [apply framed_refl|]. split; [intros k (_ & _ & ?); lia|]. right. split; [done|]. unfold user_block. lia.
Qed.

Lemma wp_copyinstr_null_any usersrc len s : badfault s = false -> 0 <= usersrc < 2 ^ 32 -> 0 < len <= USERSPACETOP -> cmem s !! 0 = None ->
  wp (copyinstr usersrc 0 len) (fun r s' => r = inl EFAULT /\ s' = s) s.
Proof.
  intros Hf Hu Hlen H0. destruct (decide (usersrc < USERSPACETOP)); [apply wp_copyinstr_null; try done; unfold USERSPACETOP in *; lia|].
  unfold copyinstr. rewrite copycheck_kernel by (unfold USERSPACETOP in *; lia). by wp_step.
Qed.
