(* ===== verification/Execv.v ===== *)
(** * Starting a program ([sys_execv], kern/syscall/proc_syscalls.c, and
    kern/syscall/runprogram.c)

    The arguments travel from the old address space through kernel blocks to
    the stack of the new one, over the memory and the user copies of
    [CopyInOut].  The heap, the VFS layer, address spaces and the loader are
    an interface.  The pointers in [args_in] and the lengths in [size] are
    lists, beside the blocks allocated for the two arrays; the local variables
    whose address is taken are in the block [frame] of the kernel's stack.
    A word in memory is four bytes, the highest first. *)

From S2P Require Import Prelude CString CStringSpec CopyInOut.

Definition PATH_MAX : Z := 1024.
Definition ARG_MAX : Z := 64 * 1024.

(** ** Words *)

Definition be32 (v : Z) : list Z := [v / 2 ^ 24 mod 256; v / 2 ^ 16 mod 256; v / 2 ^ 8 mod 256; v mod 256].
Definition of_be (l : list Z) : Z := foldl (fun v c => v * 256 + u8 c) 0 l.

(** ** What the code is built on *)

Class ExecOps (S : Type) := {
  x_cpu : S -> cpu;
  x_set_cpu : cpu -> S -> S;
  kmalloc : Z -> M S Z;
  kfree : Z -> M S unit;
  vfs_open : Z -> M S (err Z);
  vfs_close : Z -> M S unit;
  as_create : M S Z;
  proc_getas : M S Z;
  proc_setas : Z -> M S Z;
  as_destroy : Z -> M S unit;
  as_activate : M S unit;
  load_elf : Z -> M S (err Z);
  as_define_stack : Z -> M S (err Z);
}.

(** [enter_new_process] goes to user mode and does not return. *)
Inductive exec_result :=
| Failed (e : Z)
| Entered (argc argv stackptr entrypoint : Z).

Section execv.
Context {S : Type} `{ExecOps S}.
Variable frame : Z.

Definition on_cpu {A} (m : CM A) : M S A := zoom x_cpu x_set_cpu m.

(** Plain accesses: a fault that nobody recovers from is a panic. *)
Definition plain {A} (m : CM (option A)) : M S A := r <- on_cpu m ;; deref r.

Definition load_word (p : Z) : M S Z :=
  if aligned p then l <- plain (load_bytes p 4) ;; ret (of_be l) else panic.

Definition store_word (p v : Z) : M S unit :=
  if aligned p then plain (store_bytes p (be32 v)) else panic.

Definition load_char (p : Z) : M S Z := l <- plain (load_bytes p 1) ;; ret (hd 0 l).

Definition kfree_all (l : list Z) : M S unit :=
  for_ (R := unit) (length l) 0 (fun k => p <- deref (l !! Z.to_nat k) ;; kfree p ;;; ret None) ;;; ret tt.

(** Counting the arguments: the index of the null pointer. *)
Definition count_args (args : Z) : M S (err Z) :=
  r <- for_ (Z.to_nat ARG_MAX) 1 (fun argc =>
         r <- on_cpu (copyin (u32 (args + 4 * argc)) frame 4) ;;
         if negb (r =? 0) then ret (Some (inl r)) else
         next_arg <- load_word frame ;;
         ret (if next_arg =? 0 then Some (inr argc) else None)) ;;
  ret (match r with Some x => x | None => inl E2BIG end).

(** The length of argument [i], of which at most [arg_size_left] bytes are read. *)
Definition arg_length (args i arg_size_left : Z) : M S (err Z) :=
  r <- for_ (Z.to_nat (Z.max 1 arg_size_left)) 0 (fun j =>
         p <- load_word (u32 (args + 4 * i)) ;;
         r <- on_cpu (copyin (u32 (p + j)) frame 1) ;;
         if negb (r =? 0) then ret (Some (inl r)) else
         next_char <- load_char frame ;;
         ret (if next_char =? 0 then Some (inr j) else None)) ;;
  ret (match r with Some x => x | None => inl E2BIG end).

(** Freeing the arguments read so far and the two arrays. *)
Definition free_args (args_in : list Z) (args_arr size_arr : Z) : M S unit :=
  kfree_all args_in ;;; kfree args_arr ;;; kfree size_arr.

(** The arguments into kernel blocks: the blocks and their sizes.  What
    [copyinstr] leaves in the block [arg_len] is not used. *)
Definition read_args (progname args_arr size_arr args argc : Z) : M S (err (list Z * list Z)) :=
  r <- for_acc (Z.to_nat argc) 0 ([], [], ARG_MAX) (fun i '(args_in, size, arg_size_left) =>
         r <- arg_length args i arg_size_left ;;
         match r with
         | inl e => kfree progname ;;; free_args args_in args_arr size_arr ;;; ret (inr e)
         | inr cur_size =>
             let copy_size := cur_size + 1 in
             b <- kmalloc copy_size ;;
             arg_len <- kmalloc 4 ;;
             p <- load_word (u32 (args + 4 * i)) ;;
             r <- on_cpu (copyinstr p b copy_size) ;;
             match r with
             | inl e => kfree progname ;;; kfree arg_len ;;; free_args (args_in ++ [b]) args_arr size_arr ;;; ret (inr e)
             | inr _ => kfree arg_len ;;; ret (inl (args_in ++ [b], size ++ [copy_size], arg_size_left - copy_size))
             end
         end) ;;
  ret (match r with inl (args_in, size, _) => inr (args_in, size) | inr e => inl e end).

(** The strings below the array of pointers, which is filled as they are
    copied: the address of the last one. *)
Definition write_args (stackptr : Z) (args_in size : list Z) : M S (err Z) :=
  let args_out := stackptr - 4 * Z.of_nat (length args_in) - 4 in
  r <- for_acc (length args_in) 0 args_out (fun i arg_addr =>
         n <- deref (size !! Z.to_nat i) ;;
         b <- deref (args_in !! Z.to_nat i) ;;
         let arg_addr := u32 (arg_addr - n) in
         r <- on_cpu (copyoutstr b arg_addr n) ;;
         match r with
         | inl e => ret (inr e)
         | inr _ => store_word (args_out + 4 * i) arg_addr ;;; ret (inl arg_addr)
         end) ;;
  match r with
  | inr e => ret (inl e)
  | inl arg_addr =>
      store_word (args_out + 4 * Z.of_nat (length args_in)) 0 ;;;
      ret (inr arg_addr)
  end.

(** From the new address space on. *)
Definition exec_load (v : Z) (args_in size : list Z) (args_arr size_arr : Z) : M S exec_result :=
  as_new <- as_create ;;
  if as_new =? 0 then vfs_close v ;;; free_args args_in args_arr size_arr ;;; ret (Failed ENOMEM) else
  as_old <- proc_setas as_new ;;
  as_destroy as_old ;;;
  as_activate ;;;
  r <- load_elf v ;;
  vfs_close v ;;;
  match r with
  | inl e => as_destroy as_new ;;; free_args args_in args_arr size_arr ;;; ret (Failed e)
  | inr entrypoint =>
  r <- as_define_stack as_new ;;
  match r with
  | inl e => as_destroy as_new ;;; free_args args_in args_arr size_arr ;;; ret (Failed e)
  | inr stackptr =>
  r <- write_args stackptr args_in size ;;
  match r with
  | inl e => as_destroy as_new ;;; free_args args_in args_arr size_arr ;;; ret (Failed e)
  | inr arg_addr =>
  let args_out_addr := stackptr - 4 * Z.of_nat (length args_in) - 4 in
  let arg_addr := arg_addr - arg_addr mod 4 in
  free_args args_in args_arr size_arr ;;;
  ret (Entered (Z.of_nat (length args_in)) args_out_addr arg_addr entrypoint)
  end end end.

Definition sys_execv (prog args : Z) : M S exec_result :=
  if (prog =? 0) || (args =? 0) then ret (Failed EFAULT) else
  progname <- kmalloc (PATH_MAX + 1) ;;
  path_len <- kmalloc 4 ;;
  r <- on_cpu (copyinstr prog progname (PATH_MAX + 1)) ;;
  match r with
  | inl e => kfree progname ;;; kfree path_len ;;; ret (Failed e)
  | inr _ =>
  kfree path_len ;;;
  r <- count_args args ;;
  match r with
  | inl e => kfree progname ;;; ret (Failed e)
  | inr argc =>
  args_arr <- kmalloc (argc * 4) ;;
  size_arr <- kmalloc (argc * 4) ;;
  if (args_arr =? 0) || (size_arr =? 0) then
    kfree progname ;;; kfree args_arr ;;; kfree size_arr ;;; ret (Failed ENOMEM)
  else
  r <- read_args progname args_arr size_arr args argc ;;
  match r with
  | inl e => ret (Failed e)
  | inr (args_in, size) =>
  r <- vfs_open progname ;;
  kfree progname ;;;
  match r with
  | inl e => free_args args_in args_arr size_arr ;;; ret (Failed e)
  | inr v => exec_load v args_in size args_arr size_arr
  end end end end.

(** [runprogram] starts the first program, without arguments. *)
Definition runprogram (progname : Z) : M S exec_result :=
  r <- vfs_open progname ;;
  match r with
  | inl e => ret (Failed e)
  | inr v =>
  a <- proc_getas ;;
  kassert (a =? 0) ;;;
  as_ <- as_create ;;
  if as_ =? 0 then vfs_close v ;;; ret (Failed ENOMEM) else
  proc_setas as_ ;;;
  as_activate ;;;
  r <- load_elf v ;;
  match r with
  | inl e => vfs_close v ;;; ret (Failed e)
  | inr entrypoint =>
  vfs_close v ;;;
  r <- as_define_stack as_ ;;
  match r with
  | inl e => ret (Failed e)
  | inr stackptr => ret (Entered 0 0 stackptr entrypoint)
  end end end.
End execv.
