(* ===== verification/ExecvLaws.v ===== *)
(** What [sys_execv] relies on: the promises of the heap, the VFS layer,
    address spaces and the loader, and how the steps of the call compose. *)
From S2P Require Import Prelude CString CStringSpec CopyInOut CopyInOutSpec Execv.

Definition stack_bytes : Z := 128 * 4096.

(** Two states of memory with the same user memory, and with the same contents
    of the kernel blocks [B]. *)
Definition user_same (m m' : mem) : Prop := forall a, a < USERSPACETOP -> m' !! a = m !! a.
Definition blocks_same (B : gmap Z Z) (m m' : mem) : Prop := forall p n a, B !! p = Some n -> p <= a < p + n -> m' !! a = m !! a.

Class ExecView (S : Type) := {
  blocks : S -> gmap Z Z;      (* kernel blocks in use, with their sizes *)
  spaces : S -> gset Z;        (* address spaces *)
  curas : S -> Z;              (* the process's address space *)
  vrefs : S -> Z -> Z;         (* references to each vnode *)
  xok : S -> Prop;
}.

Abbreviation xmem s := (cmem (x_cpu s)).

(** Everything but the blocks in use is the same, the blocks [B] included. *)
Record same {S} `{ExecOps S} `{ExecView S} (B : gmap Z Z) (s s' : S) : Prop := {
  sm_ok : xok s';
  sm_user : user_same (xmem s) (xmem s');
  sm_blocks : blocks_same B (xmem s) (xmem s');
  sm_spaces : spaces s' = spaces s;
  sm_curas : curas s' = curas s;
  sm_vrefs : forall v, vrefs s' v = vrefs s v }.

(** The same but for user memory, address spaces and vnodes. *)
Record ksame {S} `{ExecOps S} `{ExecView S} (s s' : S) : Prop := {
  ks_ok : xok s';
  ks_set : blocks s' = blocks s;
  ks_blocks : blocks_same (blocks s) (xmem s) (xmem s') }.

Class ExecEnv (S : Type) `{ExecOps S} `{ExecView S} := {
  x_get_set : forall c s, x_cpu (x_set_cpu c s) = c;
  x_set_get : forall s, x_set_cpu (x_cpu s) s = s;
  x_view : forall c s, blocks (x_set_cpu c s) = blocks s /\ spaces (x_set_cpu c s) = spaces s /\ curas (x_set_cpu c s) = curas s /\ vrefs (x_set_cpu c s) = vrefs s;
  x_badfault : forall s, xok s -> badfault (x_cpu s) = false;
  (* user memory and the blocks in use may be written *)
  x_write : forall c s, xok s -> badfault c = false -> dom (cmem c) = dom (xmem s) ->
    (forall a, USERSPACETOP <= a -> (forall p n, blocks s !! p = Some n -> ~ p <= a < p + n) -> cmem c !! a = xmem s !! a) -> xok (x_set_cpu c s);
  x_block : forall s p n, xok s -> blocks s !! p = Some n -> USERSPACETOP <= p /\ 0 <= n /\ p + n < 2 ^ 32 /\ mapped (xmem s) p n;
  x_apart : forall s p n q k, xok s -> blocks s !! p = Some n -> blocks s !! q = Some k -> p <> q -> apart p n q k;
  kmalloc_law : forall n s, xok s -> 0 < n -> wp (kmalloc n) (fun p s' => same (blocks s) s s' /\
    ((p = 0 /\ blocks s' = blocks s) \/ (p <> 0 /\ blocks s !! p = None /\ blocks s' = <[p := n]> (blocks s)))) s;
  kfree_law : forall p n s, xok s -> blocks s !! p = Some n -> wp (kfree p) (fun _ s' =>
    same (delete p (blocks s)) s s' /\ blocks s' = delete p (blocks s)) s;
  kfree_null_law : forall s, xok s -> wp (kfree 0) (fun _ s' => same (blocks s) s s' /\ blocks s' = blocks s) s;
  (* the path may be destroyed *)
  vfs_open_law : forall p n l s, xok s -> blocks s !! p = Some n -> cstr (xmem s) p l -> Z.of_nat (length l) < n -> wp (vfs_open p) (fun r s' =>
    xok s' /\ blocks s' = blocks s /\ user_same (xmem s) (xmem s') /\ blocks_same (delete p (blocks s)) (xmem s) (xmem s') /\ spaces s' = spaces s /\ curas s' = curas s /\
    match r with
    | inl e => e <> 0 /\ forall v, vrefs s' v = vrefs s v
    | inr x => forall v, vrefs s' v = vrefs s v + (if decide (v = x) then 1 else 0)
    end) s;
  vfs_close_law : forall x s, xok s -> 0 < vrefs s x -> wp (vfs_close x) (fun _ s' =>
    ksame s s' /\ user_same (xmem s) (xmem s') /\ spaces s' = spaces s /\ curas s' = curas s /\ forall v, vrefs s' v = vrefs s v - (if decide (v = x) then 1 else 0)) s;
  as_create_law : forall s, xok s -> wp as_create (fun a s' => ksame s s' /\ user_same (xmem s) (xmem s') /\ curas s' = curas s /\ (forall v, vrefs s' v = vrefs s v) /\
    ((a = 0 /\ spaces s' = spaces s) \/ (a <> 0 /\ (a ∉ spaces s) /\ spaces s' = {[a]} ∪ spaces s))) s;
  proc_getas_law : forall s, xok s -> wp proc_getas (fun a s' => a = curas s /\ s' = s) s;
  proc_setas_law : forall a s, xok s -> wp (proc_setas a) (fun b s' => b = curas s /\ ksame s s' /\ curas s' = a /\ spaces s' = spaces s /\ forall v, vrefs s' v = vrefs s v) s;
  as_destroy_law : forall a s, xok s -> a ∈ spaces s -> wp (as_destroy a) (fun _ s' =>
    ksame s s' /\ curas s' = curas s /\ spaces s' = spaces s ∖ {[a]} /\ forall v, vrefs s' v = vrefs s v) s;
  as_activate_law : forall s, xok s -> curas s ∈ spaces s -> wp as_activate (fun _ s' =>
    ksame s s' /\ curas s' = curas s /\ spaces s' = spaces s /\ forall v, vrefs s' v = vrefs s v) s;
  load_elf_law : forall x s, xok s -> curas s ∈ spaces s -> 0 < vrefs s x -> wp (load_elf x) (fun r s' =>
    ksame s s' /\ curas s' = curas s /\ spaces s' = spaces s /\ (forall v, vrefs s' v = vrefs s v) /\ match r with inl e => e <> 0 | inr _ => True end) s;
  as_define_stack_law : forall a s, xok s -> a = curas s -> a ∈ spaces s -> wp (as_define_stack a) (fun r s' =>
    ksame s s' /\ user_same (xmem s) (xmem s') /\ curas s' = curas s /\ spaces s' = spaces s /\ (forall v, vrefs s' v = vrefs s v) /\
    match r with inl e => e <> 0 | inr sp => sp = USERSPACETOP end) s;
}.

(** There is memory for the stack of a program that was loaded: its pages can
    be touched.  They are given by page faults, so this is no promise of the
    loader's. *)
Definition stack_pages {S} `{ExecOps S} `{ExecView S} : Prop :=
  forall x (s : S) entry s', xok s -> load_elf x s = Done (inr entry) s' -> mapped (xmem s') (USERSPACETOP - stack_bytes) stack_bytes.

Lemma mapped_user_same m m' p n : user_same m m' -> p + n <= USERSPACETOP -> mapped m p n -> mapped m' p n.
Proof. intros Hu Hp Hm i Hi. rewrite Hu by lia. by apply Hm. Qed.

Section compose.
Context {S : Type} {EO : ExecOps S} {EV : ExecView S} {EE : ExecEnv S}.
Implicit Types s : S.

Lemma blocks_same_sub B B' m m' : B' ⊆ B -> blocks_same B m m' -> blocks_same B' m m'.
Proof. intros Hs HB p n a Hp. apply HB. by eapply lookup_weaken. Qed.

Lemma blocks_same_trans B m m1 m2 : blocks_same B m m1 -> blocks_same B m1 m2 -> blocks_same B m m2.
Proof. intros H1 H2' p n a Hp Ha. rewrite (H2' p n a Hp Ha). by eapply H1. Qed.

Lemma same_refl B s : xok s -> same B s s.
Proof. intros Hs. by split. Qed.

Lemma same_sub B B' s s' : B' ⊆ B -> same B s s' -> same B' s s'.
Proof. intros Hs []. split; try done. by eapply blocks_same_sub. Qed.

Lemma same_trans B s s1 s2 : same B s s1 -> same B s1 s2 -> same B s s2.
Proof.
  intros [A1 A2 A3 A4 A5 A6] [B1 B2 B3 B4 B5 B6]. split; try done; try congruence.
  - intros a Ha. rewrite B2, A2; done.
  - by eapply blocks_same_trans.
Qed.

Lemma ksame_trans s s1 s2 : ksame s s1 -> ksame s1 s2 -> ksame s s2.
Proof. intros [A1 A2 A3] [B1 B2 B3]. split; [done|congruence|]. rewrite A2 in B3. by eapply blocks_same_trans. Qed.

Lemma blocks_same_bytes B m m' p n l : blocks_same B m m' -> B !! p = Some n -> Z.of_nat (length l) <= n -> bytes_at m p l -> bytes_at m' p l.
Proof. intros HB Hp Hl. apply bytes_at_ext. intros a Ha. eapply HB; [exact Hp|lia]. Qed.

Lemma blocks_same_cstr B m m' p n l : blocks_same B m m' -> B !! p = Some n -> Z.of_nat (length l) < n -> cstr m p l -> cstr m' p l.
Proof. intros HB Hp Hl [Hb H0]. split; [|done]. eapply blocks_same_bytes; [done|done| |done]. rewrite length_app. cbn [length]. lia. Qed.

Lemma user_same_string m m' p len k : user_same m m' -> user_string m p len k -> user_string m' p len k.
Proof. intros Hu (Hc & H1 & H2'). split; [|done]. eapply cstr_ext; [|exact Hc]. intros a Ha. apply Hu. lia. Qed.

(** ** Copies *)

Lemma wp_on_cpu {A} (m : CM A) (Q : A -> S -> Prop) s : wp m (fun a c => Q a (x_set_cpu c s)) (x_cpu s) -> wp (on_cpu m) Q s.
Proof. apply wp_zoom. Qed.

(** A write to a kernel block. *)
Lemma write_block p n c s : xok s -> blocks s !! p = Some n -> badfault c = false -> framed p n (xmem s) (cmem c) ->
  same (delete p (blocks s)) s (x_set_cpu c s) /\ blocks (x_set_cpu c s) = blocks s.
Proof.
  intros Hs Hp Hf [Hd Hfr]. destruct (x_view c s) as (E1 & E2 & E3 & E4). destruct (x_block s p n Hs Hp) as (Hk & _). split; [|done].
  split; rewrite ?x_get_set; try done.
  - apply x_write; try done. intros a Ha Hno. apply Hfr. by apply Hno.
  - intros a Ha. apply Hfr. lia.
  - intros q k a [Hne Hq]%lookup_delete_Some Ha. apply Hfr. pose proof (x_apart s p n q k Hs Hp Hq ltac:(done)) as Hap. unfold apart in Hap. lia.
  - intros v. by rewrite E4.
Qed.

(** A write to user memory. *)
Lemma write_user p n c s : xok s -> p + n <= USERSPACETOP -> badfault c = false -> framed p n (xmem s) (cmem c) ->
  ksame s (x_set_cpu c s) /\ spaces (x_set_cpu c s) = spaces s /\ curas (x_set_cpu c s) = curas s /\ vrefs (x_set_cpu c s) = vrefs s.
Proof.
  intros Hs Hp Hf [Hd Hfr]. destruct (x_view c s) as (E1 & E2 & E3 & E4). split; [|done]. split; rewrite ?x_get_set; try done.
  - apply x_write; try done. intros a Ha _. apply Hfr. lia.
  - intros q k a Hq Ha. destruct (x_block s q k Hs Hq) as (Hk & _). apply Hfr. lia.
Qed.
End compose.
