(* ===== verification/ExecvArgs.v ===== *)
(** The arguments of [sys_execv]: counting them, reading them into kernel
    blocks, writing them to the stack of the new program. *)

From S2P Require Import Prelude CString CStringSpec CopyInOut CopyInOutSpec Execv ExecvLaws.

(** ** Words *)

(** The word at [p], if it can be read. *)
Definition word_at (m : mem) (p v : Z) : Prop := exists l, length l = 4%nat /\ bytes_at m p l /\ of_be l = v.

Lemma of_be_range l : length l = 4%nat -> 0 <= of_be l < 2 ^ 32.
Proof. intros Hl. destruct l as [|a [|b [|c [|d [|? ?]]]]]; try done. cbn [of_be foldl]. unfold u8. change (2 ^ 8) with 256. zlia. Qed.

Lemma of_be_be32 v : 0 <= v < 2 ^ 32 -> of_be (be32 v) = v.
Proof. intros Hv. cbn [of_be be32 foldl]. unfold u8. change (2 ^ 8) with 256. change (2 ^ 16) with 65536. change (2 ^ 24) with 16777216. zlia. Qed.

Lemma word_at_fun m p v v' : word_at m p v -> word_at m p v' -> v = v'.
Proof.
  intros (l & Hl & Hb & <-) (l' & Hl' & Hb' & <-). f_equal. apply (list_eq_same_length _ _ 4); [done|done|]. intros i x y _ Hx Hy. apply Hb in Hx. apply Hb' in Hy. congruence.
Qed.

Lemma word_at_range m p v : word_at m p v -> 0 <= v < 2 ^ 32.
Proof. intros (l & Hl & _ & <-). by apply of_be_range. Qed.

Lemma word_at_user m m' p v : user_same m m' -> p + 4 <= USERSPACETOP -> word_at m p v -> word_at m' p v.
Proof. intros Hu Hp (l & Hl & Hb & E). exists l. split_and!; try done. eapply bytes_at_ext; [|exact Hb]. intros a Ha. apply Hu. lia. Qed.

Section args.
Context {S : Type} {EO : ExecOps S} {EV : ExecView S} {EE : ExecEnv S}.
Implicit Types s : S.

Lemma wp_plain_load p n l (Q : list Z -> S -> Prop) s : bytes_at (xmem s) p l -> length l = n -> Q l s -> wp (plain (load_bytes p n)) Q s.
Proof.
  intros Hb Hl HQ. unfold plain. wp_step. apply wp_on_cpu. assert (peek (xmem s) p n = Some l) as E by (by apply peek_Some).
  apply wp_load_bytes; rewrite E; [by right|]. by rewrite x_set_get.
Qed.

Lemma wp_load_word p v (Q : Z -> S -> Prop) s : aligned p = true -> word_at (xmem s) p v -> Q v s -> wp (load_word p) Q s.
Proof. intros Ha (l & Hl & Hb & <-) HQ. unfold load_word. rewrite Ha. wp_step. by eapply wp_plain_load. Qed.

Lemma framed_le p n k m m' : framed p n m m' -> n <= k -> framed p k m m'.
Proof. intros [Hd Hf] Hk. split; [done|]. intros a Ha. apply Hf. lia. Qed.

(** ** Fetching through a local variable *)

Variable frame : Z.

(** The local variables are in kernel memory, aligned. *)
Definition has_frame s : Prop := xok s /\ aligned frame = true /\ exists fn, blocks s !! frame = Some fn /\ 4 <= fn.

Lemma has_frame_same B s s' : has_frame s -> same B s s' -> blocks s' = blocks s -> has_frame s'.
Proof. intros (_ & Ha & fn & Hf & Hn) Hs E. split; [apply Hs|]. split; [done|]. exists fn. by rewrite E. Qed.

Lemma wp_fetch u n s : has_frame s -> 0 <= u < 2 ^ 32 -> 0 <= n <= 4 ->
  wp (on_cpu (copyin u frame n)) (fun r s' => same (delete frame (blocks s)) s s' /\ blocks s' = blocks s /\
    ((r = 0 /\ user_block u n /\ exists l, Z.of_nat (length l) = n /\ bytes_at (xmem s) u l /\ bytes_at (xmem s') frame l) \/ (r = EFAULT /\ ~ (user_block u n /\ mapped (xmem s) u n)))) s.
Proof.
  intros (Hs & _ & fn & Hf & Hfn) Hu Hn. destruct (x_block s frame fn Hs Hf) as (Hk & _ & Hk32 & Hm). apply wp_on_cpu.
  eapply wp_mono; [apply wp_copyin; [by apply x_badfault|done|lia|done|]|].
  { intros i Hi. apply Hm. lia. }
  intros r c (Hfc & Hfr & Hr). destruct (write_block frame fn c s Hs Hf Hfc) as [Hsm Hbl]; [eapply framed_le; [exact Hfr|lia]|].
  split; [done|]. split; [done|]. case_decide as Hd; [left|right; split; [apply Hr|done]]. destruct Hr as (-> & l & Hl & Hb & Em). split; [done|]. split; [apply Hd|].
  exists l. split_and!; try done. rewrite x_get_set, Em. apply wr_bytes_at.
Qed.

(** ** The number of arguments *)

(** The pointer [v] is in the user's array at place [i]. *)
Definition arg_ptr (m : mem) (args i v : Z) : Prop := args + 4 * i + 4 <= USERSPACETOP /\ word_at m (args + 4 * i) v.

(** The array ends with a null pointer at place [n], and can be read from place 1 on. *)
Definition array_ends (m : mem) (args n : Z) : Prop := arg_ptr m args n 0 /\ forall i, 1 <= i < n -> exists v, arg_ptr m args i v /\ v <> 0.

Lemma array_ends_readable m args n i : array_ends m args n -> 0 <= args -> 1 <= i <= n -> user_block (args + 4 * i) 4 /\ mapped m (args + 4 * i) 4.
Proof.
  intros [H1 H2] Ha Hi. assert (exists v, arg_ptr m args i v) as (v & Hu & l & Hl & Hb & _).
  { destruct (decide (i = n)) as [->|]; [by exists 0|]. destruct (H2 i) as (v & Hv & _); [lia|]. by exists v. }
  split; [unfold user_block; lia|]. apply bytes_at_mapped in Hb. by rewrite Hl in Hb.
Qed.

Lemma array_ends_fun m args n n' : array_ends m args n -> array_ends m args n' -> 1 <= n -> 1 <= n' -> n = n'.
Proof.
  assert (forall a b, array_ends m args a -> array_ends m args b -> 1 <= a -> ~ a < b) as H.
  { intros a b [[_ Ha] _] [_ Hb] Ha1 Hab. destruct (Hb a) as (v & [_ Hv] & Hv0); [lia|]. apply Hv0. by eapply word_at_fun. }
  intros H1 H2 H3 H4. pose proof (H n n' H1 H2 H3). pose proof (H n' n H2 H1 H4). lia.
Qed.

Lemma wp_count_args args s : has_frame s -> 0 < args < USERSPACETOP ->
  wp (count_args frame args) (fun r s' => same (delete frame (blocks s)) s s' /\ blocks s' = blocks s /\
    match r with
    | inl e => e <> 0 /\ forall n, 1 <= n <= ARG_MAX -> ~ array_ends (xmem s) args n
    | inr argc => 1 <= argc <= ARG_MAX /\ array_ends (xmem s) args argc
    end) s.
Proof.
  intros Hfr Ha. unfold count_args. apply wp_bind.
  apply (wp_for _ _ _ (fun i s' => same (delete frame (blocks s)) s s' /\ blocks s' = blocks s /\ forall k, 1 <= k < i -> exists v, arg_ptr (xmem s) args k v /\ v <> 0)).
  - split; [apply same_refl, Hfr|]. split; [done|]. intros k Hk. lia.
  - intros i s1 Hi (Hsm & Hbl & Hprev). pose proof (has_frame_same _ _ _ Hfr Hsm Hbl) as Hfr1. unfold ARG_MAX, USERSPACETOP in *.
    rewrite u32_id by lia. wp_step. eapply wp_mono; [apply wp_fetch; [done|lia|lia]|]. intros r s2 (Hsm2 & Hbl2 & Hr). rewrite Hbl in Hsm2, Hbl2.
    pose proof (same_trans _ _ _ _ Hsm Hsm2) as Hsm'. destruct Hr as [(-> & Hub & l & Hl & Hb & Hb2)|[-> Hno]].
    + change (negb (0 =? 0)) with false. destruct Hub as (Hu1 & _ & Hu2). assert (length l = 4%nat) as Hl4 by lia.
      assert (arg_ptr (xmem s) args i (of_be l)) as Hp.
      { split; [done|]. exists l. split_and!; try done. eapply bytes_at_ext; [|exact Hb]. intros a Hx. symmetry. apply (sm_user _ _ _ Hsm). unfold USERSPACETOP in *. lia. }
      wp_step. eapply wp_load_word; [apply Hfr|by exists l|]. wp_step. destruct (of_be l =? 0) eqn:E0; boolify; cbv iota.
      * wp_step. split; [done|]. split; [done|]. rewrite E0 in Hp. split; [unfold ARG_MAX; lia|done].
      * split; [done|]. split; [done|]. intros k Hk. destruct (decide (k = i)) as [->|]; [by exists (of_be l)|]. apply Hprev. lia.
    + change (negb (EFAULT =? 0)) with true. wp_steps. split; [done|]. split; [done|]. split; [done|]. intros n Hn He. destruct (decide (n < i)).
      * destruct He as [[_ H0] _]. destruct (Hprev n) as (v & [_ Hv] & Hv0); [lia|]. apply Hv0. by eapply word_at_fun.
      * apply Hno. destruct (array_ends_readable _ _ _ i He) as [Hu Hm]; [lia..|]. split; [done|]. intros k Hk. rewrite (sm_user _ _ _ Hsm); [by apply Hm|]. unfold user_block, USERSPACETOP in *. lia.
  - intros s1 (Hsm & Hbl & Hprev). wp_steps. split; [done|]. split; [done|]. split; [done|]. intros n Hn [[_ H0] _]. destruct (Hprev n) as (v & [_ Hv] & Hv0); [unfold ARG_MAX in *; lia|].
    apply Hv0. by eapply word_at_fun.
Qed.

(** Nothing is mapped on the first page. *)
Definition null_unmapped (m : mem) : Prop := forall a, 0 <= a < 4096 -> m !! a = None.

Lemma wp_count_args_kernel args s : has_frame s -> USERSPACETOP <= args < 2 ^ 32 -> null_unmapped (xmem s) ->
  wp (count_args frame args) (fun r s' => same (delete frame (blocks s)) s s' /\ blocks s' = blocks s /\ r = inl EFAULT) s.
Proof.
  intros Hfr Ha Hnull. unfold count_args. apply wp_bind. apply (wp_for _ _ _ (fun i s' => i = 1 /\ s' = s)); [done| |intros s1 [? _]; unfold ARG_MAX in *; lia].
  intros i s1 Hi [-> ->]. wp_step. eapply wp_mono; [apply wp_fetch; [done|apply u32_range|lia]|]. intros r s2 (Hsm & Hbl & Hr).
  destruct Hr as [(-> & Hub & l & Hl & Hb & _)|[-> _]]; [exfalso|change (negb (EFAULT =? 0)) with true; wp_steps; done].
  destruct (decide (args + 4 < 2 ^ 32)).
  - rewrite u32_id in Hub by (unfold USERSPACETOP in *; lia). unfold user_block in Hub. lia.
  - assert (u32 (args + 4 * 1) = args + 4 - 2 ^ 32) as Eu. { unfold u32. replace (args + 4 * 1) with ((args + 4 - 2 ^ 32) + 1 * 2 ^ 32) by lia. rewrite Z.mod_add by lia. apply Z.mod_small. lia. }
    destruct (lookup_lt_is_Some_2 l 0) as [c Hc]; [lia|]. apply Hb in Hc. rewrite Eu, Hnull in Hc by lia. done.
Qed.

(** ** The length of an argument *)

Lemma wp_arg_length args i left p s : has_frame s -> 0 < args -> 0 <= i <= ARG_MAX -> aligned args = true -> arg_ptr (xmem s) args i p ->
  wp (arg_length frame args i left) (fun r s' => same (delete frame (blocks s)) s s' /\ blocks s' = blocks s /\
    match r with
    | inl e => e <> 0
    | inr j => 0 <= j < Z.max 1 left /\ exists k, Z.of_nat (length k) = j /\ user_string (xmem s) p (j + 1) k
    end) s.
Proof.
  intros Hfr Ha Hi Hal Hp. unfold arg_length. apply wp_bind. pose proof (word_at_range _ _ _ (proj2 Hp)) as Hp32.
  assert (u32 (args + 4 * i) = args + 4 * i) as Eu by (apply u32_id; destruct Hp as [Hp _]; unfold USERSPACETOP, ARG_MAX in *; lia).
  apply (wp_for _ _ _ (fun j s' => same (delete frame (blocks s)) s s' /\ blocks s' = blocks s /\
    exists k, Z.of_nat (length k) = j /\ bytes_at (xmem s) p k /\ 0 ∉ k /\ (0 < j -> p + j <= USERSPACETOP))).
  - split; [apply same_refl, Hfr|]. split; [done|]. exists []. split_and!; [done| |set_solver|lia]. intros x c Hx. done.
  - intros j s1 Hj (Hsm & Hbl & k & Hk & Hkb & Hk0 & Hpj). pose proof (has_frame_same _ _ _ Hfr Hsm Hbl) as Hfr1. wp_step.
    eapply wp_load_word; [|eapply word_at_user; [apply Hsm| |rewrite Eu; apply Hp]|]; rewrite ?Eu.
    { unfold aligned, sizeof_long in *. boolify. zlia. }
    { apply Hp. }
    assert (u32 (p + j) = p + j) as Eup. { apply u32_id. destruct (decide (j = 0)) as [->|]; [lia|]. specialize (Hpj ltac:(lia)). unfold USERSPACETOP in Hpj. lia. }
    rewrite Eup. wp_step. eapply wp_mono; [apply wp_fetch; [done| |lia]|].
    { rewrite <- Eup. apply u32_range. }
    intros r s2 (Hsm2 & Hbl2 & Hr). rewrite Hbl in Hsm2, Hbl2. pose proof (same_trans _ _ _ _ Hsm Hsm2) as Hsm'. destruct Hr as [(-> & Hub & l & Hl & Hb & Hb2)|[-> Hno]].
    + change (negb (0 =? 0)) with false. destruct Hub as (Hu1 & _ & Hu2). destruct l as [|c [|? ?]]; cbn [length] in Hl; try lia.
      assert (bytes_at (xmem s) (p + Z.of_nat (length k)) [c]) as Hc.
      { rewrite Hk. eapply bytes_at_ext; [|exact Hb]. intros a Hx. symmetry. apply (sm_user _ _ _ Hsm). cbn [length] in Hx. lia. }
      unfold load_char. wp_step. wp_step. eapply wp_plain_load; [exact Hb2|done|]. wp_step. cbn [hd]. wp_step. destruct (c =? 0) eqn:E0; boolify; cbv iota.
      * subst c. wp_step. split; [done|]. split; [done|]. split; [lia|]. exists k. split; [done|]. split; [split; [by apply bytes_at_app|done]|lia].
      * split; [done|]. split; [done|]. exists (k ++ [c]). rewrite length_app. cbn [length]. split_and!; [lia|by apply bytes_at_app|set_solver|lia].
    + change (negb (EFAULT =? 0)) with true. wp_steps. done.
  - intros s1 (Hsm & Hbl & _). wp_steps. done.
Qed.
End args.

(** * The kernel blocks [sys_execv] takes and gives back, and the arguments
    read into them. *)

(** ** Blocks taken *)

(** [p] is the answer to a request for [n] bytes: nothing, or a new block. *)
Definition grant (B : gmap Z Z) (p n : Z) (B' : gmap Z Z) : Prop := (p = 0 /\ B' = B) \/ (p <> 0 /\ B !! p = None /\ B' = <[p := n]> B).

(** The blocks [l] on top of [B]; a null pointer is no block. *)
Fixpoint hold (B : gmap Z Z) (l : list (Z * Z)) : gmap Z Z :=
  match l with
  | [] => B
  | (b, n) :: r => if b =? 0 then hold B r else <[b := n]> (hold B r)
  end.

Fixpoint fresh_blocks (B : gmap Z Z) (l : list (Z * Z)) : Prop :=
  match l with
  | [] => True
  | (b, n) :: r => fresh_blocks B r /\ (b <> 0 -> hold B r !! b = None)
  end.

Lemma hold_snoc B l b n Y : fresh_blocks B l -> grant (hold B l) b n Y -> Y = hold B (l ++ [(b, n)]) /\ fresh_blocks B (l ++ [(b, n)]).
Proof.
  intros Hf Hg. assert (Y = hold B (l ++ [(b, n)]) /\ (fresh_blocks B (l ++ [(b, n)]))) as [? ?]; [|done].
  destruct Hg as [[-> ->]|(Hb & HN & ->)].
  - induction l as [|[c k] l IH]; cbn; [done|]. destruct Hf as [Hf Hc]. destruct (IH Hf) as [E1 E2]. rewrite <- E1. done.
  - replace (b =? 0) with false by lia. revert Hf HN. induction l as [|[c k] l IH]; cbn; intros Hf HN; [replace (b =? 0) with false by lia; done|].
    destruct Hf as [Hf Hc]. destruct (c =? 0) eqn:E; boolify.
    + destruct (IH Hf HN) as [E1 E2]. done.
    + apply lookup_insert_None in HN as [HN Hne]. destruct (IH Hf HN) as [E1 E2]. rewrite <- E1. split; [by apply insert_insert_ne|]. split; [done|]. intros _. rewrite lookup_insert_ne by done. by apply Hc.
Qed.

Lemma hold_lookup B l p n : fresh_blocks B l -> B !! p = Some n -> hold B l !! p = Some n.
Proof.
  induction l as [|[c k] l IH]; cbn; [done|]. intros [Hf Hc] Hp. destruct (c =? 0) eqn:E; boolify; [by apply IH|].
  rewrite lookup_insert_ne; [by apply IH|]. intros ->. specialize (Hc E). rewrite IH in Hc; done.
Qed.

Lemma hold_delete B l p n : fresh_blocks B l -> B !! p = Some n -> delete p (hold B l) = hold (delete p B) l /\ fresh_blocks (delete p B) l.
Proof.
  intros Hf Hp. induction l as [|[c k] l IH]; cbn in *; [done|]. destruct Hf as [Hf Hc]. destruct (IH Hf) as [E1 E2]. destruct (c =? 0) eqn:E; boolify; [done|].
  specialize (Hc E). assert (c <> p) by (intros ->; rewrite (hold_lookup _ _ _ n) in Hc; done). rewrite delete_insert_ne, E1 by done. split; [done|]. split; [done|]. intros _. rewrite <- E1. by rewrite lookup_delete_ne.
Qed.

Lemma hold_sub B l : fresh_blocks B l -> B ⊆ hold B l.
Proof. intros Hf. apply map_subseteq_spec. intros p n. by apply hold_lookup. Qed.

Lemma hold_in B l i b n : fresh_blocks B l -> l !! i = Some (b, n) -> b <> 0 -> hold B l !! b = Some n.
Proof.
  revert i. induction l as [|[c k] l IH]; intros i Hf Hi Hb; [done|]. destruct Hf as [Hf Hc]. cbn. destruct i as [|i]; cbn in Hi.
  - injection Hi as -> ->. replace (b =? 0) with false by lia. apply lookup_insert_eq.
  - specialize (IH i Hf Hi Hb). destruct (c =? 0) eqn:E; boolify; [done|]. rewrite lookup_insert_ne; [done|]. intros ->. specialize (Hc E). congruence.
Qed.

Lemma grant_delete B p n B' q k : grant B p n B' -> B !! q = Some k -> grant (delete q B) p n (delete q B').
Proof.
  intros [[-> ->]|(Hp & HN & ->)] Hq; [by left|right]. assert (p <> q) by congruence. split_and!; [done|by rewrite lookup_delete_ne|by rewrite delete_insert_ne].
Qed.

Lemma grant_sub B p n B' : grant B p n B' -> B ⊆ B'.
Proof. intros [[-> ->]|(Hp & HN & ->)]; [done|by apply insert_subseteq]. Qed.

Section read.
Context {S : Type} {EO : ExecOps S} {EV : ExecView S} {EE : ExecEnv S}.
Implicit Types s : S.

Lemma wp_kmalloc_grant n (Q : Z -> S -> Prop) s : xok s -> 0 < n ->
  (forall p s', same (blocks s) s s' -> grant (blocks s) p n (blocks s') -> Q p s') -> wp (kmalloc n) Q s.
Proof. intros Hs Hn HQ. eapply wp_mono; [by apply kmalloc_law|]. intros p s' [H1 H2]. by apply HQ. Qed.

Lemma wp_kfree_grant B p n (Q : unit -> S -> Prop) s : xok s -> grant B p n (blocks s) ->
  (forall s', same B s s' -> blocks s' = B -> Q tt s') -> wp (kfree p) Q s.
Proof.
  intros Hs [[-> E]|(Hp & HN & E)] HQ.
  - eapply wp_mono; [by apply kfree_null_law|]. intros [] s' [H1 H2]. rewrite E in *. by apply HQ.
  - eapply wp_mono; [apply (kfree_law p n); [done|rewrite E; apply lookup_insert_eq]|]. intros [] s' [H1 H2]. rewrite E, delete_insert_id in H1, H2 by done. by apply HQ.
Qed.

Lemma wp_kfree_block p n (Q : unit -> S -> Prop) s : xok s -> blocks s !! p = Some n ->
  (forall s', same (delete p (blocks s)) s s' -> blocks s' = delete p (blocks s) -> Q tt s') -> wp (kfree p) Q s.
Proof. intros Hs Hp HQ. eapply wp_mono; [by eapply kfree_law|]. intros [] s' [H1 H2]. by apply HQ. Qed.

Lemma wp_kfree_all B l (Q : unit -> S -> Prop) s : xok s -> blocks s = hold B l -> fresh_blocks B l ->
  (forall s', same B s s' -> blocks s' = B -> Q tt s') -> wp (kfree_all l.*1) Q s.
Proof.
  intros Hs E Hf HQ. unfold kfree_all. wp_step. rewrite length_fmap.
  apply (wp_for _ _ _ (fun i s' => same B s s' /\ blocks s' = hold B (drop (Z.to_nat i) l) /\ fresh_blocks B (drop (Z.to_nat i) l))).
  - split; [by apply same_refl|done].
  - intros i s1 Hi (Hsm & Hb & Hfr). destruct (drop (Z.to_nat i) l) as [|[b n] r] eqn:Ed; [apply (f_equal length) in Ed; rewrite length_drop in Ed; cbn in Ed; lia|].
    assert (l !! Z.to_nat i = Some (b, n)) as Hl. { rewrite <- (Nat.add_0_r (Z.to_nat i)), <- lookup_drop, Ed. done. }
    assert (drop (Z.to_nat (i + 1)) l = r) as Er. { replace (Z.to_nat (i + 1)) with (Z.to_nat i + 1)%nat by lia. rewrite <- drop_drop, Ed. done. }
    wp_step. apply (wp_deref _ b); [by rewrite list_lookup_fmap, Hl|]. wp_step. destruct Hfr as [Hfr Hc].
    apply (wp_kfree_grant (hold B r) b n); [apply Hsm| |].
    { cbn in Hb. destruct (b =? 0) eqn:E0; boolify; [by left|]. right. split; [done|]. split; [by apply Hc|done]. }
    intros s2 Hsm2 Hb2. wp_step. rewrite Er. split_and!; [|done|done]. eapply same_trans; [exact Hsm|]. eapply same_sub; [|exact Hsm2]. by apply hold_sub.
  - intros s1 (Hsm & Hb & _). wp_step. rewrite drop_ge in Hb by lia. by apply HQ.
Qed.

(** The arguments and the two arrays. *)
Lemma wp_free_args B l p1 n1 p2 n2 (Q : unit -> S -> Prop) s : xok s -> blocks s = hold (<[p2 := n2]> (<[p1 := n1]> B)) l -> fresh_blocks (<[p2 := n2]> (<[p1 := n1]> B)) l ->
  B !! p1 = None -> B !! p2 = None -> p1 <> p2 ->
  (forall s', same B s s' -> blocks s' = B -> Q tt s') -> wp (free_args l.*1 p1 p2) Q s.
Proof.
  intros Hs E Hf N1 N2 Hne HQ. unfold free_args. wp_step. eapply wp_kfree_all; [done|exact E|done|]. intros s1 Sm1 E1. wp_step.
  eapply wp_kfree_block; [apply Sm1|rewrite E1, lookup_insert_ne by done; apply lookup_insert_eq|]. intros s2 Sm2 E2. rewrite E1, delete_insert_ne, delete_insert_id in Sm2, E2 by done.
  eapply wp_kfree_block; [apply Sm2|rewrite E2; apply lookup_insert_eq|]. intros s3 Sm3 E3. rewrite E2, delete_insert_id in Sm3, E3 by done.
  apply HQ; [|done]. eapply same_trans; [eapply same_sub; [|exact Sm1]|eapply same_trans; [eapply same_sub; [|exact Sm2]|exact Sm3]].
  - rewrite <- insert_subseteq, <- insert_subseteq; [done|done|]. by rewrite lookup_insert_ne.
  - by apply insert_subseteq.
Qed.

(** ** Reading the arguments *)

Definition sumZ (l : list Z) : Z := foldr Z.add 0 l.

(** Block [x] holds the string [k]. *)
Definition arg_block (m : mem) (x : Z * Z) (k : list Z) : Prop := x.1 <> 0 /\ x.2 = Z.of_nat (length k) + 1 /\ cstr m x.1 k.

(** [L] are the strings the user's array points to. *)
Definition args_of (m : mem) (args : Z) (L : list (list Z)) : Prop :=
  forall i k, L !! i = Some k -> exists p, arg_ptr m args (Z.of_nat i) p /\ user_string m p (Z.of_nat (length k) + 1) k.

Lemma sumZ_app l l' : sumZ (l ++ l') = sumZ l + sumZ l'.
Proof. induction l as [|x l IH]; cbn; [done|]. unfold sumZ in *. lia. Qed.

Lemma fresh_frame B l i b n frame fn : fresh_blocks B l -> B !! frame = Some fn -> l !! i = Some (b, n) -> b <> 0 -> b <> frame.
Proof.
  revert i. induction l as [|[c k] l IH]; intros i Hf HB Hi Hb; [done|]. destruct Hf as [Hf Hc]. destruct i as [|i]; cbn in Hi; [|by eapply IH].
  injection Hi as -> ->. intros ->. specialize (Hc Hb). rewrite (hold_lookup _ _ _ fn) in Hc; done.
Qed.

Lemma arg_blocks_same B bs L m m' frame fn : fresh_blocks B bs -> B !! frame = Some fn -> blocks_same (delete frame (hold B bs)) m m' -> Forall2 (arg_block m) bs L -> Forall2 (arg_block m') bs L.
Proof.
  intros Hf HB Hs HF. apply Forall2_lookup. intros i. rewrite Forall2_lookup in HF. specialize (HF i). destruct (bs !! i) as [[b n]|] eqn:Eb; inversion HF as [? k (H1 & H2 & H3) E1 E2|]; [|constructor].
  constructor. cbn [fst snd] in *. split_and!; try done. eapply (blocks_same_cstr _ _ _ b n); [exact Hs| |lia|done]. rewrite lookup_delete_ne; [by eapply hold_in|]. apply not_eq_sym. by eapply fresh_frame.
Qed.

Section blocks.
Variables (frame fn progname pn args_arr n1 size_arr n2 : Z) (B : gmap Z Z).
Hypothesis (Hframe : B !! frame = Some fn) (Hfn : 4 <= fn) (Hal : aligned frame = true).
Hypothesis (N0 : B !! progname = None) (N1 : B !! args_arr = None) (N2 : B !! size_arr = None).
Hypothesis (D1 : progname <> args_arr) (D2 : progname <> size_arr) (D3 : args_arr <> size_arr).

(** The name, the arrays, and the arguments read so far. *)
Definition all_blocks : gmap Z Z := <[size_arr := n2]> (<[args_arr := n1]> (<[progname := pn]> B)).

Lemma all_frame : all_blocks !! frame = Some fn.
Proof. unfold all_blocks. rewrite !lookup_insert_ne by congruence. done. Qed.

Lemma all_progname : all_blocks !! progname = Some pn.
Proof. unfold all_blocks. rewrite !lookup_insert_ne by done. apply lookup_insert_eq. Qed.

Lemma all_delete : delete progname all_blocks = <[size_arr := n2]> (<[args_arr := n1]> B).
Proof. unfold all_blocks. rewrite !delete_insert_ne, delete_insert_id by done. done. Qed.

Lemma all_sub : B ⊆ all_blocks.
Proof. apply map_subseteq_spec. intros p n Hp. unfold all_blocks. rewrite !lookup_insert_ne by congruence. done. Qed.

Lemma frame_sub l : fresh_blocks all_blocks l -> delete frame B ⊆ delete frame (hold all_blocks l).
Proof. intros Hf. apply delete_mono. etransitivity; [apply all_sub|by apply hold_sub]. Qed.

Lemma frame_ok l s : xok s -> fresh_blocks all_blocks l -> blocks s = hold all_blocks l -> has_frame frame s.
Proof. intros Hs Hf E. split; [done|]. split; [done|]. exists fn. split; [|done]. rewrite E. apply hold_lookup; [done|apply all_frame]. Qed.

(** Giving up: everything is freed, the name first. *)
Lemma wp_free_name l (Q : unit -> S -> Prop) al s0 s : fresh_blocks all_blocks l -> xok s -> grant (hold all_blocks l) al 4 (blocks s) -> same (delete frame B) s0 s ->
  (forall s', same (delete frame B) s0 s' -> grant (hold (<[size_arr := n2]> (<[args_arr := n1]> B)) l) al 4 (blocks s') -> fresh_blocks (<[size_arr := n2]> (<[args_arr := n1]> B)) l -> Q tt s') ->
  wp (kfree progname) Q s.
Proof.
  intros Hf Hs Hg Hsm HQ. pose proof (hold_lookup _ _ _ _ Hf all_progname) as Hp. pose proof (hold_delete _ _ _ _ Hf all_progname) as [Ed Hf'].
  pose proof (grant_delete _ _ _ _ _ _ Hg Hp) as Hg'. eapply wp_kfree_block; [done|eapply lookup_weaken; [exact Hp|by eapply grant_sub]|]. intros s1 Sm1 E1.
  rewrite <- E1 in Hg'. rewrite Ed, all_delete in Hg'. rewrite all_delete in Hf'. apply HQ; [|done|done]. eapply same_trans; [exact Hsm|]. eapply same_sub; [|exact Sm1].
  rewrite <- E1. etransitivity; [|eapply grant_sub; exact Hg']. etransitivity; [|by apply hold_sub]. apply map_subseteq_spec. intros p n [_ Hx]%lookup_delete_Some. rewrite !lookup_insert_ne by congruence. done.
Qed.

Lemma wp_free_rest l (e : Z) (Q : (list Z * list Z * Z) + Z -> S -> Prop) s0 s : fresh_blocks (<[size_arr := n2]> (<[args_arr := n1]> B)) l -> xok s -> blocks s = hold (<[size_arr := n2]> (<[args_arr := n1]> B)) l ->
  same (delete frame B) s0 s -> (forall s', same (delete frame B) s0 s' -> blocks s' = B -> Q (inr e) s') -> wp (free_args l.*1 args_arr size_arr ;;; ret (inr e)) Q s.
Proof.
  intros Hf Hs E Hsm HQ. wp_step. eapply wp_free_args; [done|exact E|done|done|done|done|]. intros s1 Sm1 E1. wp_step. apply HQ; [|done].
  eapply same_trans; [exact Hsm|]. eapply same_sub; [|exact Sm1]. apply delete_subseteq.
Qed.

(** ** The loop *)

(** After [i] arguments. *)
Record read_so_far (args : Z) (s0 : S) (i : Z) (bs : list (Z * Z)) (left : Z) (L : list (list Z)) (s : S) : Prop := {
  rs_same : same (delete frame all_blocks) s0 s;
  rs_blocks : blocks s = hold all_blocks bs;
  rs_fresh : fresh_blocks all_blocks bs;
  rs_strings : Forall2 (arg_block (xmem s)) bs L;
  rs_args : args_of (xmem s0) args L;
  rs_length : Z.of_nat (length L) = i;
  rs_left : left = ARG_MAX - sumZ bs.*2;
  rs_sum : sumZ bs.*2 <= ARG_MAX + i }.

Lemma read_step args s0 i bs left L s1 s2 : read_so_far args s0 i bs left L s1 -> same (delete frame (hold all_blocks bs)) s1 s2 -> blocks s2 = hold all_blocks bs -> read_so_far args s0 i bs left L s2.
Proof.
  intros [R1 R2 R3 R4 R5 R6 R7 R8] Hsm E. split; try done.
  - eapply same_trans; [exact R1|]. eapply same_sub; [|exact Hsm]. by apply delete_mono, hold_sub.
  - eapply arg_blocks_same; [exact R3|apply all_frame|apply Hsm|done].
Qed.

Lemma cstr_fun m p k k' : cstr m p k -> cstr m p k' -> k = k'.
Proof.
  intros H1 H2. pose proof H1 as [B1 Z1]. pose proof H2 as [B2 Z2]. apply bytes_at_app in B1 as [B1 _], B2 as [B2 _].
  pose proof (cstr_prefix _ _ _ _ H1 B2 Z2). pose proof (cstr_prefix _ _ _ _ H2 B1 Z1).
  apply (list_eq_same_length _ _ (length k)); [lia|done|]. intros i x y _ Hx Hy. apply B1 in Hx. apply B2 in Hy. congruence.
Qed.

Lemma grant_null X n Y : grant X 0 n Y -> Y = X.
Proof. by intros [[_ ->]|[? _]]. Qed.

(** A new block is filled with argument [i]. *)
Lemma wp_copy_arg args s0 i bs left L b al p k (Q : (list Z * list Z * Z) + Z -> S -> Prop) s2 s3 s4 :
  let n := Z.of_nat (length k) + 1 in let bs' := bs ++ [(b, n)] in
  read_so_far args s0 i bs left L s2 -> same (blocks s2) s2 s3 -> grant (blocks s2) b n (blocks s3) -> same (blocks s3) s3 s4 -> grant (blocks s3) al 4 (blocks s4) ->
  0 <= p -> arg_ptr (xmem s0) args i p -> user_string (xmem s0) p n k -> n <= Z.max 1 left -> xmem s0 !! 0 = None -> 0 <= i ->
  (forall e s', e <> 0 -> same (delete frame B) s0 s' -> blocks s' = B -> Q (inr e) s') ->
  (forall s', read_so_far args s0 (i + 1) bs' (left - n) (L ++ [k]) s' -> Q (inl (bs'.*1, bs'.*2, left - n)) s') ->
  wp (r <- on_cpu (copyinstr p b n) ;;
      match r with
      | inl e => kfree progname ;;; kfree al ;;; free_args bs'.*1 args_arr size_arr ;;; ret (inr e)
      | inr _ => kfree al ;;; ret (inl (bs'.*1, bs'.*2, left - n))
      end) Q s4.
Proof.
  intros n bs' R Sm3 G3 Sm4 G4 Hp0 Hp Hk Hn Hnull Hi HE HQ. pose proof R as [R1 R2 R3 R4 R5 R6 R7 R8]. rewrite R2 in *.
  destruct (hold_snoc _ _ _ _ _ R3 G3) as [E3 F3]. fold bs' in E3, F3. rewrite E3 in *.
  assert (hold all_blocks bs ⊆ hold all_blocks bs') as Hsub by (eapply grant_sub; exact G3).
  assert (same (hold all_blocks bs) s2 s4) as Sm24 by (eapply same_trans; [exact Sm3|]; eapply same_sub; [exact Hsub|done]).
  assert (same (delete frame all_blocks) s0 s4) as Sm04. { eapply same_trans; [exact R1|]. eapply same_sub; [|exact Sm24]. etransitivity; [apply delete_subseteq|by apply hold_sub]. }
  assert (user_string (xmem s4) p n k) as Hk4 by (eapply user_same_string; [apply Sm04|done]). pose proof Hk as (_ & _ & Hk3). unfold USERSPACETOP in Hk3.
  wp_step. apply wp_on_cpu. destruct (decide (b = 0)) as [->|Hb].
  - eapply wp_mono; [apply wp_copyinstr_null; [apply x_badfault, Sm4|done|lia|lia|]|].
    { rewrite (sm_user _ _ _ Sm04) by done. done. }
    intros r c [-> ->]. rewrite x_set_get. wp_step.
    eapply (wp_free_name bs'); [done|apply Sm4|exact G4| |]. { eapply same_sub; [|exact Sm04]. apply delete_mono, all_sub. }
    intros s5 Sm5 G5 F5. wp_step. eapply wp_kfree_grant; [apply Sm5|exact G5|]. intros s6 Sm6 E6.
    eapply wp_free_rest; [exact F5|apply Sm6|done| |by intros; apply HE]. eapply same_trans; [exact Sm5|]. eapply same_sub; [|exact Sm6].
    etransitivity; [apply delete_subseteq|]. etransitivity; [|by apply hold_sub]. apply map_subseteq_spec. intros q x Hx. rewrite !lookup_insert_ne by congruence. done.
  - assert (hold all_blocks bs' !! b = Some n) as Hbn. { apply (hold_in _ _ (length bs)); [done| |done]. unfold bs'. rewrite lookup_app_r, Nat.sub_diag by lia. done. }
    assert (blocks s4 !! b = Some n) as Hb4 by (eapply lookup_weaken; [exact Hbn|by eapply grant_sub]).
    destruct (x_block s4 b n (sm_ok _ _ _ Sm4) Hb4) as (Hk1 & _ & Hk2 & Hm).
    eapply wp_mono; [apply wp_copyinstr; [apply x_badfault, Sm4|done|lia|lia|done|done]|]. intros r c (Hfc & Hfr & Hr).
    destruct (write_block b n c s4 (sm_ok _ _ _ Sm4) Hb4 Hfc Hfr) as [Sm5 E5].
    destruct r as [e|g]; [by destruct (proj1 Hr k)|]. destruct Hr as (k' & Hk' & -> & Em). assert (k' = k) as -> by (eapply cstr_fun; [apply Hk'|apply Hk4]).
    wp_step. rewrite <- E5 in G4. eapply wp_kfree_grant; [apply Sm5|exact G4|]. intros s6 Sm6 E6. wp_step. apply HQ.
    assert (hold all_blocks bs !! b = None) as HbN by (destruct G3 as [[? _]|(_ & ? & _)]; done).
    assert (same (hold all_blocks bs) s2 s6) as Sm26.
    { eapply same_trans; [exact Sm24|]. eapply same_trans; [eapply same_sub; [|exact Sm5]|eapply same_sub; [exact Hsub|exact Sm6]].
      apply map_subseteq_spec. intros q x Hx. rewrite lookup_delete_ne by congruence. eapply lookup_weaken; [exact Hx|]. etransitivity; [exact Hsub|]. rewrite <- E5. by eapply grant_sub. }
    assert (cstr (xmem s6) b k) as Hcb.
    { eapply (blocks_same_cstr _ _ _ b n); [apply Sm6|done|lia|]. rewrite x_get_set, Em. split; [apply wr_bytes_at|apply Hk4]. }
    split.
    + eapply same_trans; [exact R1|]. eapply same_sub; [|exact Sm26]. etransitivity; [apply delete_subseteq|by apply hold_sub].
    + done.
    + done.
    + apply Forall2_app; [|constructor; [split_and!; done|constructor]]. eapply (arg_blocks_same all_blocks); [done|apply all_frame| |exact R4].
      eapply blocks_same_sub; [apply delete_subseteq|apply Sm26].
    + intros x y Hx. apply lookup_app_Some in Hx as [Hx|[Hlen Hx]]; [by apply R5|]. apply list_lookup_singleton_Some in Hx as [Hx <-]. exists p. assert (Z.of_nat x = i) as -> by lia. done.
    + rewrite length_app. cbn [length]. lia.
    + unfold bs'. rewrite fmap_app, sumZ_app, R7. cbn. lia.
    + unfold bs'. rewrite fmap_app, sumZ_app. cbn. lia.
Qed.

(** Every argument is read, or nothing is kept. *)
Lemma wp_read_args args argc s : xok s -> blocks s = all_blocks -> 0 < args -> aligned args = true -> 0 <= argc <= ARG_MAX ->
  (forall i, 0 <= i < argc -> exists v, arg_ptr (xmem s) args i v) -> xmem s !! 0 = None ->
  wp (read_args frame progname args_arr size_arr args argc) (fun r s' =>
    match r with
    | inl e => e <> 0 /\ same (delete frame B) s s' /\ blocks s' = B
    | inr (args_in, size) => exists bs left L, args_in = bs.*1 /\ size = bs.*2 /\ read_so_far args s argc bs left L s'
    end) s.
Proof.
  intros Hs Hb Ha Haa Hargc Hptrs Hnull. unfold read_args. apply wp_bind.
  apply (wp_for_acc _ _ _ _ (fun i st s' => exists bs left L, st = (bs.*1, bs.*2, left) /\ read_so_far args s i bs left L s')).
  - exists [], ARG_MAX, []. split; [done|]. split; done.
  - intros i st s1 Hi (bs & left & L & -> & R). assert (0 <= i < argc) as Hi' by lia. destruct (Hptrs i Hi') as [p Hp].
    pose proof (rs_blocks _ _ _ _ _ _ _ R) as E1. pose proof (rs_fresh _ _ _ _ _ _ _ R) as F1. pose proof (rs_same _ _ _ _ _ _ _ R) as Sm1.
    assert (forall s', user_same (xmem s) (xmem s') -> arg_ptr (xmem s') args i p) as Hp'. { intros s' Hu. split; [apply Hp|]. eapply word_at_user; [exact Hu| |apply Hp]. apply Hp. }
    cbn beta iota. wp_step. eapply wp_mono; [apply (wp_arg_length frame args i left p); [eapply frame_ok; [apply Sm1|exact F1|done]|done|lia|done|apply Hp', Sm1]|].
    intros r s2 (Sm2 & E2 & Hr). rewrite E1 in Sm2, E2. pose proof (read_step _ _ _ _ _ _ _ _ R Sm2 E2) as R2. pose proof (rs_same _ _ _ _ _ _ _ R2) as Sm02. destruct r as [e|j].
    + wp_step. eapply (wp_free_name bs _ 0); [done|apply Sm2|rewrite E2; by left|eapply same_sub; [|exact Sm02]; apply delete_mono, all_sub|].
      intros s3 Sm3 G3 F3. apply grant_null in G3. eapply wp_free_rest; [exact F3|apply Sm3|done|exact Sm3|]. intros s4 Sm4 E4. wp_step. done.
    + destruct Hr as (Hj & k & <- & Hk). wp_step. eapply wp_kmalloc_grant; [apply Sm2|lia|]. intros b s3 Sm3 G3. wp_step. eapply wp_kmalloc_grant; [apply Sm3|lia|]. intros al s4 Sm4 G4.
      assert (user_same (xmem s) (xmem s4)) as Hu4. { intros a Hx. rewrite (sm_user _ _ _ Sm4), (sm_user _ _ _ Sm3), (sm_user _ _ _ Sm02) by done. done. }
      wp_step. assert (u32 (args + 4 * i) = args + 4 * i) as Eu by (apply u32_id; destruct Hp as [Hp _]; unfold USERSPACETOP in *; lia). rewrite Eu.
      eapply wp_load_word; [|apply Hp', Hu4|].
      { unfold aligned, sizeof_long in *. boolify. zlia. }
      pose proof (word_at_range _ _ _ (proj2 Hp)). replace (bs.*1 ++ [b]) with (bs ++ [(b, Z.of_nat (length k) + 1)]).*1 by (by rewrite fmap_app).
      replace (bs.*2 ++ [Z.of_nat (length k) + 1]) with (bs ++ [(b, Z.of_nat (length k) + 1)]).*2 by (by rewrite fmap_app).
      eapply (wp_copy_arg args s i bs left L b al p k); [exact R2|exact Sm3|exact G3|exact Sm4|exact G4|lia|done| |lia|done|lia| |].
      * destruct Hk as (Hk1 & Hk2 & Hk3). split; [|done]. eapply cstr_ext; [|exact Hk1]. intros a Hx. symmetry. apply (sm_user _ _ _ Sm1). lia.
      * intros e s' He Sm' E'. wp_step. done.
      * intros s' R'. by exists (bs ++ [(b, Z.of_nat (length k) + 1)]), (left - (Z.of_nat (length k) + 1)), (L ++ [k]).
  - intros st s1 (bs & left & L & -> & R). wp_step. exists bs, left, L. split_and!; [done|done|]. replace argc with (0 + Z.of_nat (Z.to_nat argc)) by lia. done.
Qed.
End blocks.
End read.

(** * The arguments of [sys_execv] onto the stack of the new program. *)

(** ** The layout *)

(** The bytes the strings take. *)
Definition arg_space (L : list (list Z)) : Z := sumZ ((fun k => Z.of_nat (length k) + 1) <$> L).

(** String [j] is below the array at [top] and the earlier strings. *)
Definition arg_place (top : Z) (L : list (list Z)) (j : nat) : Z := top - arg_space (take (Datatypes.S j) L).

(** The first [i] of the strings and their pointers are in place. *)
Definition placed (m : mem) (top : Z) (L : list (list Z)) (i : nat) : Prop :=
  forall j k, (j < i)%nat -> L !! j = Some k -> word_at m (top + 4 * Z.of_nat j) (arg_place top L j) /\ cstr m (arg_place top L j) k.

Lemma arg_space_nonneg L : 0 <= arg_space L.
Proof. induction L as [|k L IH]; cbn; [done|]. unfold arg_space, sumZ in *. lia. Qed.

Lemma arg_space_app L L' : arg_space (L ++ L') = arg_space L + arg_space L'.
Proof. unfold arg_space. by rewrite fmap_app, sumZ_app. Qed.

Lemma arg_space_S L j k : L !! j = Some k -> arg_space (take (Datatypes.S j) L) = arg_space (take j L) + (Z.of_nat (length k) + 1).
Proof. intros Hj. rewrite (take_S_r _ _ _ Hj), arg_space_app. cbn. lia. Qed.

Lemma arg_space_mono L i j : (i <= j)%nat -> arg_space (take i L) <= arg_space (take j L).
Proof. intros Hij. replace j with (i + (j - i))%nat by lia. rewrite <- (take_take_drop L i (j - i)), arg_space_app. pose proof (arg_space_nonneg (take (j - i) (drop i L))). lia. Qed.

Lemma arg_space_le L j : arg_space (take j L) <= arg_space L.
Proof. rewrite <- (take_drop j L) at 2. rewrite arg_space_app. pose proof (arg_space_nonneg (drop j L)). lia. Qed.

Lemma arg_space_blocks m bs L : Forall2 (arg_block m) bs L -> sumZ bs.*2 = arg_space L.
Proof. induction 1 as [|[b n] k bs L (_ & E & _) _ IH]; [done|]. cbn in *. unfold arg_space, sumZ in *. lia. Qed.

Lemma word_at_wr m p v : 0 <= v < 2 ^ 32 -> word_at (wr m p (be32 v)) p v.
Proof. intros Hv. exists (be32 v). split_and!; [done|apply wr_bytes_at|by apply of_be_be32]. Qed.

Lemma word_at_framed p n m m' q v : framed p n m m' -> apart p n q 4 -> word_at m q v -> word_at m' q v.
Proof. intros Hf Ha (l & Hl & Hb & E). exists l. split_and!; try done. eapply framed_bytes_at; [done| |done]. by rewrite Hl. Qed.

Lemma cstr_framed p n m m' q k : framed p n m m' -> apart p n q (Z.of_nat (length k) + 1) -> cstr m q k -> cstr m' q k.
Proof. intros Hf Ha [Hb H0]. split; [|done]. eapply framed_bytes_at; [done| |done]. rewrite length_app. cbn [length]. by replace (Z.of_nat (length k + 1)) with (Z.of_nat (length k) + 1) by lia. Qed.

Lemma mapped_framed p n m m' q k : framed p n m m' -> mapped m q k -> mapped m' q k.
Proof. intros Hf Hm i Hi. rewrite (framed_is_Some _ _ _ _ _ Hf). by apply Hm. Qed.

Lemma mapped_within m p n q k : mapped m p n -> p <= q -> q + k <= p + n -> mapped m q k.
Proof. intros Hm Hq Hk i Hi. replace (q + i) with (p + (q + i - p)) by lia. apply Hm. lia. Qed.

(** A write outside what is in place. *)
Lemma placed_framed p n m m' top L i : framed p n m m' -> placed m top L i -> (i <= length L)%nat ->
  (p + n <= top - arg_space (take i L) \/ top <= p) -> (p + n <= top \/ top + 4 * Z.of_nat i <= p) -> placed m' top L i.
Proof.
  intros Hf Hp Hi H1 H2 j k Hj Hk. destruct (Hp j k Hj Hk) as [Hw Hc]. pose proof (arg_space_mono L (Datatypes.S j) i ltac:(lia)) as Hm. pose proof (arg_space_nonneg (take j L)) as H0.
  pose proof (arg_space_S L j k Hk) as ES. split; [eapply word_at_framed; [exact Hf| |done]|eapply cstr_framed; [exact Hf| |done]]; unfold apart, arg_place; lia.
Qed.

Section write.
Context {S : Type} {EO : ExecOps S} {EV : ExecView S} {EE : ExecEnv S}.
Implicit Types s : S.

(** The kernel's side is unchanged. *)
Record kstep s s' : Prop := {
  kst_ksame : ksame s s';
  kst_spaces : spaces s' = spaces s;
  kst_curas : curas s' = curas s;
  kst_vrefs : forall v, vrefs s' v = vrefs s v }.

Lemma kstep_refl s : xok s -> kstep s s.
Proof. intros Hs. by split. Qed.

Lemma kstep_trans s s1 s2 : kstep s s1 -> kstep s1 s2 -> kstep s s2.
Proof. intros [A1 A2 A3 A4] [B1 B2 B3 B4]. split; [by eapply ksame_trans|congruence..]. Qed.

Lemma kstep_write p n c s : xok s -> p + n <= USERSPACETOP -> badfault c = false -> framed p n (xmem s) (cmem c) -> kstep s (x_set_cpu c s).
Proof. intros Hs Hp Hc Hf. destruct (write_user p n c s Hs Hp Hc Hf) as (H1 & H2 & H3 & H4). split; try done. intros v. by rewrite H4. Qed.

Lemma wp_store_word p v (Q : unit -> S -> Prop) s : xok s -> aligned p = true -> p + 4 <= USERSPACETOP -> mapped (xmem s) p 4 ->
  (forall s', kstep s s' -> xmem s' = wr (xmem s) p (be32 v) -> Q tt s') -> wp (store_word p v) Q s.
Proof.
  intros Hs Ha Hp Hm HQ. unfold store_word, plain. rewrite Ha. wp_step. apply wp_on_cpu. unfold store_bytes, touch. wp_step. wp_step.
  destruct (peek_mapped _ _ 4 Hm) as [l El]. change (length (be32 v)) with 4%nat. rewrite El. wp_step. wp_step. wp_step. apply wp_modify. wp_step.
  apply HQ; [|by rewrite x_get_set]. eapply (kstep_write p 4); [done|done|by apply x_badfault|]. by apply framed_wr.
Qed.

(** ** The loop *)

Section stack.
Variables (bs : list (Z * Z)) (L : list (list Z)) (s0 : S).
Abbreviation top := (USERSPACETOP - 4 * Z.of_nat (length bs) - 4).
Hypothesis Hstrings : Forall2 (arg_block (xmem s0)) bs L.
Hypothesis Hblocks : forall i b n, bs !! i = Some (b, n) -> blocks s0 !! b = Some n.
Hypothesis Hroom : 4 * Z.of_nat (length bs) + 4 + arg_space L <= stack_bytes.
Hypothesis Hstack : mapped (xmem s0) (USERSPACETOP - stack_bytes) stack_bytes.

(** After [i] strings. *)
Record written (i arg_addr : Z) s : Prop := {
  wt_step : kstep s0 s;
  wt_stack : mapped (xmem s) (USERSPACETOP - stack_bytes) stack_bytes;
  wt_addr : arg_addr = top - arg_space (take (Z.to_nat i) L);
  wt_placed : placed (xmem s) top L (Z.to_nat i) }.

Lemma written_step i a s s1 s2 b k : written i a s -> 0 <= i < Z.of_nat (length bs) -> bs !! Z.to_nat i = Some (b, Z.of_nat (length k) + 1) -> L !! Z.to_nat i = Some k ->
  let a' := a - (Z.of_nat (length k) + 1) in
  kstep s s1 -> xmem s1 = wr (xmem s) a' (k ++ [0]) -> 0 ∉ k -> kstep s1 s2 -> xmem s2 = wr (xmem s1) (top + 4 * i) (be32 a') -> written (i + 1) a' s2.
Proof.
  intros [W1 W2 W3 W4] Hi Hb Hk a' K1 E1 H0 K2 E2. pose proof (Forall2_length _ _ _ Hstrings) as Hlen.
  pose proof (arg_space_S L _ _ Hk) as ES. pose proof (arg_space_le L (Datatypes.S (Z.to_nat i))) as HS. pose proof (arg_space_nonneg (take (Z.to_nat i) L)) as Hn.
  assert (framed a' (Z.of_nat (length k) + 1) (xmem s) (xmem s1)) as F1.
  { rewrite E1. apply framed_wr; rewrite length_app; cbn [length]; [|lia]. eapply mapped_within; [exact W2| |]; unfold a'; lia. }
  assert (framed (top + 4 * i) 4 (xmem s1) (xmem s2)) as F2.
  { rewrite E2. apply framed_wr; [|done]. eapply mapped_within; [eapply mapped_framed; [exact F1|exact W2]| |]; unfold stack_bytes in *; cbn [be32 length]; lia. }
  split.
  - eapply kstep_trans; [exact W1|by eapply kstep_trans].
  - eapply mapped_framed; [exact F2|by eapply mapped_framed].
  - replace (Z.to_nat (i + 1)) with (Datatypes.S (Z.to_nat i)) by lia. unfold a'. lia.
  - assert (a' = arg_place top L (Z.to_nat i)) as Ea by (unfold a', arg_place; lia).
    assert (placed (xmem s2) top L (Z.to_nat i)) as Hp.
    { eapply placed_framed; [exact F2| |lia|lia|lia]. eapply placed_framed; [exact F1|exact W4|lia|unfold a'; lia|unfold a'; lia]. }
    intros j k' Hj Hk'. destruct (decide (j = Z.to_nat i)) as [->|]; [|apply Hp; [lia|done]]. rewrite Hk in Hk'. injection Hk' as <-. rewrite <- Ea.
    replace (Z.of_nat (Z.to_nat i)) with i by lia. split; [rewrite E2; apply word_at_wr; unfold a', stack_bytes, USERSPACETOP in *; lia|].
    eapply cstr_framed; [exact F2|unfold apart, a'; lia|]. split; [rewrite E1; apply wr_bytes_at|done].
Qed.

Lemma wp_write_args : xok s0 -> wp (write_args USERSPACETOP bs.*1 bs.*2) (fun r s' =>
  exists a, r = inr a /\ a = top - arg_space L /\ kstep s0 s' /\ placed (xmem s') top L (length L) /\ word_at (xmem s') (top + 4 * Z.of_nat (length bs)) 0) s0.
Proof.
  intros Hs. pose proof (Forall2_length _ _ _ Hstrings) as Hlen. unfold write_args. rewrite length_fmap. apply wp_bind.
  assert (forall i, aligned (top + 4 * i) = true) as Hal by (intros i; unfold aligned, sizeof_long, USERSPACETOP; zlia).
  apply (wp_for_acc _ _ _ _ (fun i a s => written i a s)).
  - split; [by apply kstep_refl|done|change (arg_space (take (Z.to_nat 0) L)) with 0; lia|]. intros j k Hj. lia.
  - intros i a s Hi W. pose proof W as [W1 W2 W3 W4]. destruct (lookup_lt_is_Some_2 bs (Z.to_nat i)) as [[b n] Hb]; [lia|].
    destruct (lookup_lt_is_Some_2 L (Z.to_nat i)) as [k Hk]; [lia|]. pose proof (Forall2_lookup_lr _ _ _ _ _ _ Hstrings Hb Hk) as (Hb0 & En & Hc). cbn [fst snd] in *. subst n.
    pose proof (Hblocks _ _ _ Hb) as HB. destruct (x_block s0 b _ Hs HB) as (Hk1 & _).
    assert (cstr (xmem s) b k) as Hc' by (eapply (blocks_same_cstr _ _ _ b); [apply W1|exact HB|lia|done]).
    pose proof (arg_space_S L _ _ Hk) as ES. pose proof (arg_space_le L (Datatypes.S (Z.to_nat i))) as HS. pose proof (arg_space_nonneg (take (Z.to_nat i) L)) as Hn.
    wp_step. apply (wp_deref _ (Z.of_nat (length k) + 1)); [by rewrite list_lookup_fmap, Hb|]. wp_step. apply (wp_deref _ b); [by rewrite list_lookup_fmap, Hb|].
    assert (xok s) as Hsx by apply W1. rewrite u32_id by (unfold stack_bytes, USERSPACETOP in *; lia). wp_step. apply wp_on_cpu.
    eapply wp_mono; [apply (wp_copyoutstr b (a - (Z.of_nat (length k) + 1)) k); [by apply x_badfault|unfold stack_bytes, USERSPACETOP in *; lia|unfold stack_bytes, USERSPACETOP in *; lia|done|done]|].
    intros r c (Hfc & Hfr & Hr). rewrite decide_True in Hr.
    2:{ split; [unfold user_block, stack_bytes, USERSPACETOP in *; lia|]. eapply mapped_within; [exact W2| |]; lia. }
    apply (framed_le _ _ (Z.of_nat (length k) + 1)) in Hfr; [|lia]. destruct Hr as [-> Em].
    assert (kstep s (x_set_cpu c s)) as K1 by (eapply kstep_write; [done| |done|exact Hfr]; lia). wp_step.
    eapply wp_store_word; [apply K1|apply Hal|lia| |].
    { rewrite x_get_set. eapply mapped_framed; [exact Hfr|]. eapply mapped_within; [exact W2| |]; unfold stack_bytes in *; lia. }
    intros s2 K2 E2. wp_step. eapply (written_step i a s _ s2 b k); [done|lia|done|done|exact K1|rewrite x_get_set; done|apply Hc|exact K2|exact E2].
  - intros a s [W1 W2 W3 W4]. wp_step. rewrite Z.add_0_l in *. rewrite Nat2Z.id, firstn_all2 in W3 by lia. rewrite Nat2Z.id in W4. rewrite <- Hlen.
    pose proof (arg_space_nonneg L) as Hn. eapply wp_store_word; [apply W1|apply Hal|lia| |].
    { eapply mapped_within; [exact W2| |]; unfold stack_bytes in *; lia. }
    intros s' K E. wp_step. exists a. split_and!; [done|done|by eapply kstep_trans| |rewrite E; by apply word_at_wr].
    eapply (placed_framed (top + 4 * Z.of_nat (length bs)) 4); [rewrite E; apply framed_wr; [|done]|exact W4|lia|lia|lia].
    eapply mapped_within; [exact W2| |]; unfold stack_bytes in *; cbn [be32 length]; lia.
Qed.
End stack.
End write.
