(* ===== verification/ExecvSpec.v ===== *)
(** [sys_execv] as a whole, and on an array that cannot be read. *)

From S2P Require Import Prelude CString CStringSpec CopyInOut CopyInOutSpec Execv ExecvLaws ExecvArgs.

(** What the new program finds: [argv] at the top of the stack, the null
    pointer included, each string between the stack pointer and it. *)
Record program_args (m : mem) (argv sp : Z) (L : list (list Z)) : Prop := {
  pa_top : argv + 4 * Z.of_nat (length L) + 4 = USERSPACETOP;
  pa_sp : aligned sp = true /\ USERSPACETOP - stack_bytes <= sp <= argv;
  pa_null : word_at m (argv + 4 * Z.of_nat (length L)) 0;
  pa_strings : forall j k, L !! j = Some k -> exists p, word_at m (argv + 4 * Z.of_nat j) p /\ cstr m p k /\ sp <= p /\ p + Z.of_nat (length k) + 1 <= argv }.

Lemma program_args_user m m' argv sp L : user_same m m' -> program_args m argv sp L -> program_args m' argv sp L.
Proof.
  intros Hu [H1 H2 H3 H4]. split; [done|done|eapply word_at_user; [done|lia|done]|]. intros j k Hj. pose proof (lookup_lt_Some _ _ _ Hj). destruct (H4 j k Hj) as (p & Hw & Hc & Hp1 & Hp2).
  exists p. split_and!; [eapply word_at_user; [done|lia|done]| |done|done]. eapply cstr_ext; [|exact Hc]. intros a Ha. apply Hu. lia.
Qed.

Lemma placed_program_args m L : let argv := USERSPACETOP - 4 * Z.of_nat (length L) - 4 in let a := argv - arg_space L in
  4 * Z.of_nat (length L) + 4 + arg_space L <= stack_bytes -> placed m argv L (length L) -> word_at m (argv + 4 * Z.of_nat (length L)) 0 -> program_args m argv (a - a mod 4) L.
Proof.
  intros argv a Hr Hp H0. pose proof (arg_space_nonneg L). split; [unfold argv; lia| |done|].
  - split; [unfold aligned, sizeof_long; zlia|]. unfold a, argv, stack_bytes, USERSPACETOP in *. zlia.
  - intros j k Hj. pose proof (lookup_lt_Some _ _ _ Hj) as Hlt. destruct (Hp j k Hlt Hj) as [Hw Hc]. exists (arg_place argv L j). split_and!; [done|done| |].
    + unfold arg_place, a. pose proof (arg_space_le L (Datatypes.S j)). zlia.
    + unfold arg_place. rewrite (arg_space_S L j k Hj). pose proof (arg_space_nonneg (take j L)). lia.
Qed.

Lemma swapped_out (X : gset Z) a c : a ∉ X -> ({[a]} ∪ X ∖ {[c]}) ∖ {[a]} = X ∖ {[c]}.
Proof. set_solver. Qed.

Lemma swapped_in (X : gset Z) a c : a ∉ X -> c ∈ X -> ({[a]} ∪ X) ∖ {[c]} = {[a]} ∪ X ∖ {[c]}.
Proof. set_solver. Qed.

Section load.
Context {S : Type} {EO : ExecOps S} {EV : ExecView S} {EE : ExecEnv S}.
Implicit Types s : S.

(** How a call ends, apart from what it returns: the blocks [B] are in use,
    with their contents, and the process has its old memory or, after a late
    failure, none that exists. *)
Definition old_space s s' : Prop := user_same (xmem s) (xmem s') /\ spaces s' = spaces s /\ curas s' = curas s.
Definition no_space s s' : Prop := curas s' ∉ spaces s' /\ curas s' <> 0 /\ spaces s' = spaces s ∖ {[curas s]}.
Definition new_space s s' : Prop := curas s' ∉ spaces s /\ curas s' <> 0 /\ spaces s' = {[curas s']} ∪ spaces s ∖ {[curas s]}.

Record ended (B B' : gmap Z Z) s s' : Prop := {
  en_ok : xok s';
  en_set : blocks s' = B;
  en_blocks : blocks_same B' (xmem s) (xmem s') }.

Section blocks.
Variables (args_arr n1 size_arr n2 : Z) (B : gmap Z Z) (bs : list (Z * Z)) (L : list (list Z)).
Hypothesis (N1 : B !! args_arr = None) (N2 : B !! size_arr = None) (D : args_arr <> size_arr).
Abbreviation B2 := (<[size_arr := n2]> (<[args_arr := n1]> B)).
Hypothesis Hfresh : fresh_blocks B2 bs.

Lemma B_sub : B ⊆ hold B2 bs.
Proof. etransitivity; [|by apply hold_sub]. apply map_subseteq_spec. intros p n Hp. rewrite !lookup_insert_ne by congruence. done. Qed.

(** The arguments are freed and the call ends. *)
Lemma wp_finish {A} (a : A) (Q : A -> S -> Prop) s0 s : ksame s0 s -> blocks s0 = hold B2 bs ->
  (forall s', ended B B s0 s' -> same B s s' -> Q a s') -> wp (free_args bs.*1 args_arr size_arr ;;; ret a) Q s.
Proof.
  intros [K1 K2 K3] E HQ. rewrite E in *. wp_step. eapply wp_free_args; [done|exact K2|done|done|done|done|]. intros s' Sm E'. wp_step. apply HQ; [|done].
  split; [apply Sm|done|]. eapply blocks_same_trans; [eapply blocks_same_sub; [apply B_sub|done]|apply Sm].
Qed.

Lemma arg_blocks_ksame s s' : blocks s = hold B2 bs -> ksame s s' -> Forall2 (arg_block (xmem s)) bs L -> Forall2 (arg_block (xmem s')) bs L.
Proof.
  intros E [_ _ K]. rewrite E in K. rewrite !Forall2_lookup. intros HF i. specialize (HF i). destruct (bs !! i) as [[b n]|] eqn:Eb; inversion HF as [? k (H1 & H2 & H3) E1 E2|]; constructor.
  cbn [fst snd] in *. split_and!; try done. eapply (blocks_same_cstr _ _ _ b n); [exact K|by eapply hold_in|lia|done].
Qed.

(** The process is in the new address space [a]. *)
Record moved (a : Z) s s' : Prop := {
  mv_ksame : ksame s s';
  mv_new : a <> 0 /\ a ∉ spaces s;
  mv_curas : curas s' = a;
  mv_spaces : spaces s' = {[a]} ∪ spaces s ∖ {[curas s]} }.

Lemma moved_in a s s' : moved a s s' -> curas s' ∈ spaces s'.
Proof. intros [M1 M2 M3 M4]. rewrite M3, M4. by apply elem_of_union_l, elem_of_singleton. Qed.

Lemma moved_step a s s1 s2 : moved a s s1 -> ksame s1 s2 -> curas s2 = curas s1 -> spaces s2 = spaces s1 -> moved a s s2.
Proof. intros [M1 M2 M3 M4] K Ec Es. split; [by eapply ksame_trans|done|congruence|congruence]. Qed.

Lemma moved_new a s s1 s2 : moved a s s1 -> spaces s2 = spaces s1 -> curas s2 = curas s1 -> new_space s s2.
Proof. intros [M1 [M2 M2'] M3 M4] Es Ec. unfold new_space. rewrite Ec, Es, M3, M4. done. Qed.

(** The new address space is destroyed while it is the process's. *)
Lemma wp_give_up e a v (Q : exec_result -> S -> Prop) s0 s : moved a s0 s -> blocks s0 = hold B2 bs -> (forall u, vrefs s u = vrefs s0 u - (if decide (u = v) then 1 else 0)) ->
  (forall s', ended B B s0 s' -> (forall u, vrefs s' u = vrefs s0 u - (if decide (u = v) then 1 else 0)) -> no_space s0 s' -> Q (Failed e) s') ->
  wp (as_destroy a ;;; free_args bs.*1 args_arr size_arr ;;; ret (Failed e)) Q s.
Proof.
  intros Hm E Hv HQ. pose proof Hm as [M1 [M2 M2'] M3 M4]. wp_step. eapply wp_mono; [apply (as_destroy_law a); [apply M1|rewrite <- M3; by eapply moved_in]|].
  intros _ s1 (K1 & C1 & S1 & V1). eapply (wp_finish _ _ s0); [by eapply ksame_trans|done|]. intros s' En Sm. apply HQ; [done| |].
  - intros u. rewrite (sm_vrefs _ _ _ Sm), V1. apply Hv.
  - unfold no_space. rewrite (sm_curas _ _ _ Sm), (sm_spaces _ _ _ Sm), C1, S1, M3, M4, swapped_out by done. split_and!; [|done|done]. by intros [? _]%elem_of_difference.
Qed.

(** Into the new address space. *)
Lemma wp_switch {A} a (k : M S A) (Q : A -> S -> Prop) s0 s : ksame s0 s -> curas s = curas s0 -> curas s0 ∈ spaces s0 -> a <> 0 -> a ∉ spaces s0 -> spaces s = {[a]} ∪ spaces s0 -> (forall v, vrefs s v = vrefs s0 v) ->
  (forall s', moved a s0 s' -> (forall v, vrefs s' v = vrefs s0 v) -> wp k Q s') -> wp (as_old <- proc_setas a ;; as_destroy as_old ;;; as_activate ;;; k) Q s.
Proof.
  intros K C Hc Ha0 Ha Es V HQ. wp_step. eapply wp_mono; [apply proc_setas_law, K|]. intros old s1 (-> & K1 & C1 & S1 & V1). wp_step.
  eapply wp_mono; [apply as_destroy_law; [apply K1|rewrite S1, Es, C; by apply elem_of_union_r]|]. intros _ s2 (K2 & C2 & S2 & V2).
  assert (moved a s0 s2) as M2.
  { split; [eapply ksame_trans; [exact K|by eapply ksame_trans]|done|congruence|]. rewrite S2, S1, Es, C. by apply swapped_in. }
  wp_step. eapply wp_mono; [apply as_activate_law; [apply K2|by eapply moved_in]|]. intros [] s3 (K3 & C3 & S3 & V3). apply HQ; [by eapply moved_step|].
  intros v. by rewrite V3, V2, V1.
Qed.

Lemma wp_load_elf v s : stack_pages (S := S) -> xok s -> curas s ∈ spaces s -> 0 < vrefs s v -> wp (load_elf v) (fun r s' =>
    ksame s s' /\ curas s' = curas s /\ spaces s' = spaces s /\ (forall u, vrefs s' u = vrefs s u) /\
    match r with inl e => e <> 0 | inr _ => mapped (xmem s') (USERSPACETOP - stack_bytes) stack_bytes end) s.
Proof.
  intros Hst Hs Hc Hv. pose proof (load_elf_law v s Hs Hc Hv) as Hl. unfold wp in *. destruct (load_elf v s) as [[e|entry] s'| | |] eqn:E; try done.
  destruct Hl as (K & C & X & V & _). split_and!; try done. by eapply Hst.
Qed.

Lemma wp_exec_load v s : stack_pages (S := S) -> xok s -> blocks s = hold B2 bs -> Forall2 (arg_block (xmem s)) bs L -> 4 * Z.of_nat (length L) + 4 + arg_space L <= stack_bytes ->
  curas s ∈ spaces s -> 0 < vrefs s v ->
  wp (exec_load v bs.*1 bs.*2 args_arr size_arr) (fun r s' => ended B B s s' /\ (forall u, vrefs s' u = vrefs s u - (if decide (u = v) then 1 else 0)) /\
    match r with
    | Failed e => e <> 0 /\ (old_space s s' \/ no_space s s')
    | Entered argc argv sp entry => argc = Z.of_nat (length L) /\ new_space s s' /\ program_args (xmem s') argv sp L
    end) s.
Proof.
  intros Hpages Hs E Hstr Hroom Hcur Hv. pose proof (Forall2_length _ _ _ Hstr) as Hlen. unfold exec_load. wp_step. eapply wp_mono; [by apply as_create_law|]. intros a s1 (K1 & U1 & C1 & V1 & Ha).
  destruct Ha as [[-> S1]|(Ha0 & Ha & S1)].
  - change (0 =? 0) with true. cbv iota. wp_step. eapply wp_mono; [apply (vfs_close_law v); [apply K1|by rewrite V1]|]. intros _ s2 (K2 & U2 & S2 & C2 & V2).
    eapply (wp_finish _ _ s); [by eapply ksame_trans|done|]. intros s' En Sm. split; [done|]. split; [intros u; by rewrite (sm_vrefs _ _ _ Sm), V2, V1|]. split; [done|left].
    split_and!; [intros x Hx; rewrite (sm_user _ _ _ Sm), U2, U1 by done; done|by rewrite (sm_spaces _ _ _ Sm), S2, S1|by rewrite (sm_curas _ _ _ Sm), C2, C1].
  - replace (a =? 0) with false by lia. eapply (wp_switch a _ _ s); try done. intros s2 M2 V2. wp_step.
    eapply wp_mono; [apply (wp_load_elf v); [done|apply M2|by eapply moved_in|by rewrite V2]|]. intros r s3 (K3 & C3 & S3 & V3 & Hr). wp_step.
    eapply wp_mono; [apply (vfs_close_law v); [apply K3|by rewrite V3, V2]|]. intros _ s4 (K4 & U4 & S4 & C4 & V4).
    assert (moved a s s4) as M4 by (eapply moved_step; [eapply moved_step; [exact M2|done..]|done..]).
    assert (forall u, vrefs s4 u = vrefs s u - (if decide (u = v) then 1 else 0)) as V by (intros u; by rewrite V4, V3, V2).
    destruct r as [e|entry]; [eapply (wp_give_up e a v); [exact M4|done|done|]; intros s' En V' N; split_and!; try done; by right|].
    wp_step. eapply wp_mono; [apply (as_define_stack_law a); [apply M4|symmetry; apply M4|rewrite <- (mv_curas _ _ _ M4); by eapply moved_in]|]. intros r s5 (K5 & U5 & C5 & S5 & V5 & Hr5).
    assert (moved a s s5) as M5 by (by eapply moved_step). assert (forall u, vrefs s5 u = vrefs s u - (if decide (u = v) then 1 else 0)) as V' by (intros u; by rewrite V5).
    destruct r as [e|sp]; [eapply (wp_give_up e a v); [exact M5|done|done|]; intros s' En V'' N; split_and!; try done; by right|].
    subst sp. assert (mapped (xmem s5) (USERSPACETOP - stack_bytes) stack_bytes) as Hst by (eapply mapped_user_same; [exact U5|lia|]; eapply mapped_user_same; [exact U4|lia|exact Hr]). wp_step. eapply wp_mono; [apply (wp_write_args bs L); [by eapply arg_blocks_ksame; [|apply M5|]| |lia|exact Hst|apply M5]|].
    { intros i b n Hi. rewrite (ks_set _ _ (mv_ksame _ _ _ M5)), E. eapply hold_in; [done|exact Hi|]. destruct (lookup_lt_is_Some_2 L i) as [k Hk]; [rewrite <- Hlen; by eapply lookup_lt_Some|].
      apply (Forall2_lookup_lr _ _ _ _ _ _ Hstr Hi Hk). }
    intros r s6 (a6 & -> & Ea & K6 & Hp & H0). rewrite length_fmap. eapply (wp_finish _ _ s); [eapply ksame_trans; [apply M5|apply K6]|done|]. intros s' En Sm. split; [done|].
    split; [intros u; by rewrite (sm_vrefs _ _ _ Sm), (kst_vrefs _ _ K6)|]. split; [by rewrite Hlen|]. split.
    + eapply moved_new; [exact M5|rewrite (sm_spaces _ _ _ Sm); apply K6|rewrite (sm_curas _ _ _ Sm); apply K6].
    + eapply program_args_user; [apply Sm|]. rewrite Ea, Hlen. rewrite Hlen in Hp, H0. by apply placed_program_args.
Qed.
End blocks.
End load.

(** * [sys_execv] as a whole. *)

Section execv.
Context {S : Type} {EO : ExecOps S} {EV : ExecView S} {EE : ExecEnv S}.
Implicit Types s : S.

Lemma old_space_trans s s1 s2 : old_space s s1 -> old_space s1 s2 -> old_space s s2.
Proof. intros (A1 & A2 & A3) (B1 & B2 & B3). split_and!; [|congruence..]. intros a Ha. rewrite B1, A1; done. Qed.

Lemma old_no_space s s1 s2 : old_space s s1 -> no_space s1 s2 -> no_space s s2.
Proof. intros (_ & E1 & E2). unfold no_space. by rewrite E1, E2. Qed.

Lemma old_new_space s s1 s2 : old_space s s1 -> new_space s1 s2 -> new_space s s2.
Proof. intros (_ & E1 & E2). unfold new_space. by rewrite E1, E2. Qed.

Lemma same_old_space B s s' : same B s s' -> old_space s s'.
Proof. intros []. done. Qed.

Lemma user_same_sym m m' : user_same m m' -> user_same m' m.
Proof. intros Hu a Ha. symmetry. by apply Hu. Qed.

Lemma ksame_refl s : xok s -> ksame s s.
Proof. intros Hs. by split. Qed.

Variables (frame fn prog args : Z) (s0 : S).
Abbreviation B := (blocks s0).

(** The outcome of the call: the heap and the references to vnodes are as
    before, whatever happened.  The process keeps its memory, or loses it on a
    late failure, or is in a new address space in which the program finds
    the strings the user's array pointed to. *)
Record exec_post (r : exec_result) s' : Prop := {
  ex_ended : ended B (delete frame B) s0 s';
  ex_vrefs : forall u, vrefs s' u = vrefs s0 u;
  ex_result : match r with
    | Failed e => e <> 0 /\ (old_space s0 s' \/ no_space s0 s')
    | Entered argc argv sp entry => exists path L, user_string (xmem s0) prog (PATH_MAX + 1) path /\ args_of (xmem s0) args L /\
        argc = Z.of_nat (length L) /\ arg_ptr (xmem s0) args argc 0 /\ new_space s0 s' /\ program_args (xmem s') argv sp L
    end }.

Lemma exec_early e s' : e <> 0 -> same (delete frame B) s0 s' -> blocks s' = B -> exec_post (Failed e) s'.
Proof. intros He Hsm E. split; [split; [apply Hsm|done|apply Hsm]|apply Hsm|]. split; [done|left]. by eapply same_old_space. Qed.

(** What the process, its stack in the kernel and its arguments must be. *)
Record exec_pre : Prop := {
  xp_ok : xok s0;
  xp_frame : B !! frame = Some fn /\ 4 <= fn /\ aligned frame = true;
  xp_null : null_unmapped (xmem s0);
  xp_space : curas s0 ∈ spaces s0;
  xp_vrefs : forall v, 0 <= vrefs s0 v }.

(** The user's array: it can be read as far as the count says. *)
Definition counted (argc : Z) : Prop :=
  1 <= argc <= ARG_MAX /\ arg_ptr (xmem s0) args argc 0 /\ forall i, 0 <= i < argc -> exists v, arg_ptr (xmem s0) args i v.

Section arrays.
Variables (progname args_arr n1 size_arr n2 : Z) (path : list Z).
Abbreviation pn := (PATH_MAX + 1).
Hypothesis Hpre : exec_pre.
Hypothesis (N0 : B !! progname = None) (N1 : B !! args_arr = None) (N2 : B !! size_arr = None).
Hypothesis (D1 : progname <> args_arr) (D2 : progname <> size_arr) (D3 : args_arr <> size_arr).
Hypothesis Hpath : user_string (xmem s0) prog pn path.
Hypothesis Hpages : stack_pages (S := S).

(** The file is open: the name is not needed any more, and the rest of the
    call decides. *)
Lemma wp_exec_open bs left L argc s1 s : counted argc -> same (delete frame B) s0 s1 -> read_so_far frame progname pn args_arr n1 size_arr n2 B args s1 argc bs left L s ->
  cstr (xmem s1) progname path ->
  wp (r <- vfs_open progname ;;
      kfree progname ;;;
      match r with
      | inl e => free_args bs.*1 args_arr size_arr ;;; ret (Failed e)
      | inr v => exec_load v bs.*1 bs.*2 args_arr size_arr
      end) exec_post s.
Proof.
  intros (Hargc & Hend & _) Sm01 R Hc1. pose proof R as [R1 R2 R3 R4 R5 R6 R7 R8]. destruct Hpre as [P1 (P2 & P2' & P2'') P3 P4 P5].
  pose proof (all_progname progname pn args_arr n1 size_arr n2 B D1 D2) as Hap. pose proof (hold_lookup _ _ _ _ R3 Hap) as Hp. pose proof (hold_delete _ _ _ _ R3 Hap) as [Ed Fd]. rewrite (all_delete _ _ _ _ _ _ _ N0 D1 D2) in Ed, Fd.
  assert (cstr (xmem s) progname path) as Hc. { eapply (blocks_same_cstr _ _ _ progname pn); [apply R1|rewrite lookup_delete_ne by congruence; exact Hap|apply Hpath|done]. }
  assert (same (delete frame B) s0 s) as Sm0. { eapply same_trans; [exact Sm01|]. eapply same_sub; [|exact R1]. apply delete_mono, (all_sub _ _ _ _ _ _ _ N0 N1 N2). }
  assert (args_of (xmem s0) args L) as Hargs. { intros i k Hi. destruct (R5 i k Hi) as (p & [Hp1 Hp2] & Hp3). exists p. pose proof (user_same_sym _ _ (sm_user _ _ _ Sm01)) as Hu. split; [split; [done|by eapply word_at_user]|by eapply user_same_string]. }
  wp_step. eapply wp_mono; [apply (vfs_open_law progname pn path); [apply R1|by rewrite R2|done|apply Hpath]|]. intros r s3 (X1 & E1 & U1 & Bl1 & S1 & C1 & Hr). rewrite R2 in *.
  wp_step. eapply (wp_kfree_block progname pn); [done|by rewrite E1|]. intros s2 Sm2 E2. rewrite E1 in Sm2, E2.
  assert (blocks_same (delete progname (hold (all_blocks progname pn args_arr n1 size_arr n2 B) bs)) (xmem s) (xmem s2)) as Bl2 by (eapply blocks_same_trans; [exact Bl1|apply Sm2]).
  assert (Forall2 (arg_block (xmem s2)) bs L) as Hstr by (eapply (arg_blocks_same _ _ _ _ _ progname pn); [exact R3|exact Hap|exact Bl2|done]).
  rewrite Ed in E2, Sm2, Bl2. pose proof (B_sub args_arr n1 size_arr n2 B bs N1 N2 Fd) as HB.
  assert (old_space s0 s2) as O2. { eapply old_space_trans; [eapply same_old_space, Sm0|]. eapply (old_space_trans _ s3); [done|by eapply same_old_space]. }
  assert (blocks_same (delete frame B) (xmem s0) (xmem s2)) as BB.
  { eapply blocks_same_trans; [apply Sm0|]. eapply blocks_same_sub; [|exact Bl2]. etransitivity; [apply delete_subseteq|exact HB]. }
  assert (forall s', ended B B s2 s' -> ended B (delete frame B) s0 s') as HE.
  { intros s' [Q1 Q2 Q3]. split; [done|done|]. eapply blocks_same_trans; [exact BB|]. eapply blocks_same_sub; [apply delete_subseteq|exact Q3]. }
  destruct r as [e|v].
  - destruct Hr as [He Hv]. eapply (wp_finish args_arr n1 size_arr n2 B bs N1 N2 D3 Fd _ _ s2); [apply ksame_refl, Sm2|done|]. intros s' En Sm. split; [by apply HE| |].
    + intros u. rewrite (sm_vrefs _ _ _ Sm), (sm_vrefs _ _ _ Sm2), Hv. apply Sm0.
    + split; [done|left]. eapply old_space_trans; [exact O2|by eapply same_old_space].
  - eapply wp_mono; [apply (wp_exec_load args_arr n1 size_arr n2 B bs L N1 N2 D3 Fd v); [exact Hpages|apply Sm2|done|exact Hstr| |destruct O2 as (_ & -> & ->); done|]|].
    + rewrite <- (arg_space_blocks _ _ _ Hstr). unfold ARG_MAX, stack_bytes in *. lia.
    + rewrite (sm_vrefs _ _ _ Sm2), Hr, (sm_vrefs _ _ _ Sm0), decide_True by done. specialize (P5 v). lia.
    + intros r s' (En & V & Hres). split; [by apply HE| |].
      * intros u. rewrite V, (sm_vrefs _ _ _ Sm2), Hr, (sm_vrefs _ _ _ Sm0). lia.
      * destruct r as [e|argc' argv sp entry].
        -- split; [apply Hres|]. destruct Hres as [_ [Ho|Hn]]; [left; by eapply old_space_trans|right; by eapply old_no_space].
        -- destruct Hres as (-> & Hn & Hpa). exists path, L. rewrite R6. split_and!; try done. by eapply old_new_space.
Qed.

(** The arguments, then the file. *)
Lemma wp_exec_args argc s : counted argc -> 0 < args -> aligned args = true -> same (delete frame B) s0 s -> blocks s = all_blocks progname pn args_arr n1 size_arr n2 B -> cstr (xmem s) progname path ->
  wp (r <- read_args frame progname args_arr size_arr args argc ;;
      match r with
      | inl e => ret (Failed e)
      | inr (args_in, size) =>
          r <- vfs_open progname ;;
          kfree progname ;;;
          match r with
          | inl e => free_args args_in args_arr size_arr ;;; ret (Failed e)
          | inr v => exec_load v args_in size args_arr size_arr
          end
      end) exec_post s.
Proof.
  intros Hcnt Ha Hal Sm E Hc. pose proof Hcnt as (Hargc & _ & Hptrs). destruct Hpre as [P1 (P2 & P2' & P2'') P3 P4 P5]. wp_step.
  eapply wp_mono; [apply (wp_read_args frame fn progname pn args_arr n1 size_arr n2 B P2 P2' P2'' N0 N1 N2 D1 D2 D3 args argc s); [apply Sm|done|done|done|lia| |]|].
  - intros i Hi. destruct (Hptrs i Hi) as (v & Hv1 & Hv2). exists v. split; [done|]. eapply word_at_user; [apply Sm|done|done].
  - rewrite (sm_user _ _ _ Sm) by done. by apply P3.
  - intros r s' Hr. destruct r as [e|[args_in size]].
    + destruct Hr as (He & Sm' & E'). wp_step. apply exec_early; [done|by eapply same_trans|done].
    + destruct Hr as (bs & left & L & -> & -> & R). by eapply wp_exec_open.
Qed.
End arrays.

(** ** Until the arguments are counted *)

Lemma grant_swap (X X1 X2 : gmap Z Z) p n q k : grant X p n X1 -> grant X1 q k X2 -> exists X', grant X q k X' /\ grant X' p n X2.
Proof.
  intros [[-> ->]|(Hp & HN & ->)] Hq; [exists X2; split; [done|by left]|]. destruct Hq as [[-> ->]|(Hq & HNq & ->)].
  - exists X. split; [by left|by right].
  - apply lookup_insert_None in HNq as [HNq Hne]. exists (<[q := k]> X). split; [by right|]. right. split_and!; [done|by rewrite lookup_insert_ne|by apply insert_insert_ne].
Qed.

Lemma wp_copy_name progname path_len s1 s2 : exec_pre -> 0 <= prog < 2 ^ 32 ->
  same B s0 s1 -> grant B progname (PATH_MAX + 1) (blocks s1) -> same (blocks s1) s1 s2 -> grant (blocks s1) path_len 4 (blocks s2) ->
  wp (on_cpu (copyinstr prog progname (PATH_MAX + 1))) (fun r s3 => same B s0 s3 /\ blocks s3 = blocks s2 /\
    match r with
    | inl e => e <> 0 /\ (progname = 0 \/ forall path, ~ user_string (xmem s0) prog (PATH_MAX + 1) path)
    | inr _ => progname <> 0 /\ exists path, user_string (xmem s0) prog (PATH_MAX + 1) path /\ cstr (xmem s3) progname path
    end) s2.
Proof.
  intros [P1 _ P3 _ _] Hprog Sm1 G1 Sm2 G2. assert (same B s0 s2) as Sm02 by (eapply same_trans; [exact Sm1|eapply same_sub; [eapply grant_sub, G1|exact Sm2]]). apply wp_on_cpu.
  destruct (decide (progname = 0)) as [->|Hp].
  - eapply wp_mono; [apply wp_copyinstr_null_any; [apply x_badfault, Sm2|done|done|rewrite (sm_user _ _ _ Sm02) by done; by apply P3]|]. intros r c [-> ->]. rewrite x_set_get. split_and!; try done. by left.
  - destruct G1 as [[? _]|(_ & N & E1)]; [done|]. assert (blocks s2 !! progname = Some (PATH_MAX + 1)) as Hb by (eapply lookup_weaken; [|eapply grant_sub, G2]; rewrite E1; apply lookup_insert_eq).
    destruct (x_block s2 progname _ (sm_ok _ _ _ Sm2) Hb) as (Hk1 & _ & Hk2 & Hm).
    eapply wp_mono; [apply wp_copyinstr_any; [apply x_badfault, Sm2|done|done|done|done]|]. intros r c (Hfc & Hfr & Hr).
    destruct (write_block progname _ c s2 (sm_ok _ _ _ Sm2) Hb Hfc Hfr) as [Sm3 E3]. split; [|split; [done|]].
    + eapply same_trans; [exact Sm02|]. eapply same_sub; [|exact Sm3]. apply map_subseteq_spec. intros q x Hq. rewrite lookup_delete_ne by congruence.
      eapply lookup_weaken; [|eapply grant_sub, G2]. rewrite E1, lookup_insert_ne by congruence. done.
    + destruct r as [e|g].
      { destruct Hr as (Hno & He). split; [destruct He as [[-> _]|[-> _]]; done|right]. intros k Hk. apply (Hno k). eapply user_same_string; [apply Sm02|done]. }
      destruct Hr as (k & Hk & _ & Em). split; [done|]. exists k.
      split; [eapply user_same_string; [apply user_same_sym, Sm02|done]|]. rewrite x_get_set, Em. split; [apply wr_bytes_at|apply Hk].
Qed.

Lemma wp_counted s : exec_pre -> has_frame frame s -> same B s0 s -> 0 < args < 2 ^ 32 -> (args < USERSPACETOP -> exists v, arg_ptr (xmem s0) args 0 v) ->
  wp (count_args frame args) (fun r s' => same (delete frame (blocks s)) s s' /\ blocks s' = blocks s /\ match r with inl e => e <> 0 | inr argc => counted argc end) s.
Proof.
  intros [P1 _ P3 _ _] Hfr Sm Ha H0. pose proof (user_same_sym _ _ (sm_user _ _ _ Sm)) as Hu. destruct (decide (args < USERSPACETOP)).
  - eapply wp_mono; [apply wp_count_args; [done|lia]|]. intros r s' (Sm' & E & Hr). split; [done|]. split; [done|]. destruct r as [e|argc]; [apply Hr|]. destruct Hr as (Hargc & [He1 He2] & Hptrs).
    split; [done|]. split; [split; [done|by eapply word_at_user]|]. intros i Hi. destruct (decide (i = 0)) as [->|]; [auto|]. destruct (Hptrs i) as (v & [Hv1 Hv2] & _); [lia|].
    exists v. split; [done|by eapply word_at_user].
  - eapply wp_mono; [apply wp_count_args_kernel; [done|lia|]|]. { intros a Hx. rewrite (sm_user _ _ _ Sm) by (unfold USERSPACETOP; lia). by apply P3. }
    intros r s' (Sm' & E & ->). done.
Qed.

(** The two arrays, or nothing. *)
Lemma wp_free_arrays progname n p1 m1 p2 m2 X1 X2 s : same (delete frame B) s0 s -> grant B progname n X1 -> grant X1 p1 m1 X2 -> grant X2 p2 m2 (blocks s) ->
  wp (kfree progname ;;; kfree p1 ;;; kfree p2 ;;; ret (Failed ENOMEM)) exec_post s.
Proof.
  intros Sm G0 G1 G2. destruct (grant_swap _ _ _ _ _ _ _ G0 G1) as (Y1 & H1 & H0). destruct (grant_swap _ _ _ _ _ _ _ H0 G2) as (Y2 & H2 & H0'). destruct (grant_swap _ _ _ _ _ _ _ H1 H2) as (Y3 & H3 & H4).
  pose proof (grant_sub _ _ _ _ H3). pose proof (grant_sub _ _ _ _ H4).
  wp_step. eapply wp_kfree_grant; [apply Sm|exact H0'|]. intros s1 Sm1 E1. wp_step. rewrite <- E1 in H4. eapply wp_kfree_grant; [apply Sm1|exact H4|]. intros s2 Sm2 E2. wp_step.
  rewrite <- E2 in H3. eapply wp_kfree_grant; [apply Sm2|exact H3|]. intros s3 Sm3 E3. wp_step. apply exec_early; [done| |done].
  assert (forall X, B ⊆ X -> delete frame B ⊆ X) as Hd by (intros X HX; etransitivity; [apply delete_subseteq|done]).
  eapply same_trans; [exact Sm|]. eapply same_trans; [eapply same_sub; [|exact Sm1]; apply Hd; by etransitivity|]. eapply same_trans; [eapply same_sub; [|exact Sm2]; by apply Hd|].
  eapply same_sub; [|exact Sm3]. by apply Hd.
Qed.

Lemma wp_sys_execv : exec_pre -> stack_pages (S := S) -> 0 <= prog < 2 ^ 32 -> 0 <= args < 2 ^ 32 -> aligned args = true -> (0 < args < USERSPACETOP -> exists v, arg_ptr (xmem s0) args 0 v) ->
  wp (sys_execv frame prog args) exec_post s0.
Proof.
  intros Hpre Hpages Hprog Hargs Hal H0. pose proof Hpre as [P1 (P2 & P2' & P2'') P3 P4 P5]. unfold sys_execv. destruct ((prog =? 0) || (args =? 0)) eqn:Ez.
  { wp_step. apply exec_early; [done|by apply same_refl|done]. }
  boolify. wp_step. eapply wp_kmalloc_grant; [done|done|]. intros progname s1 Sm1 G1. wp_step. eapply wp_kmalloc_grant; [apply Sm1|done|]. intros path_len s2 Sm2 G2. wp_step.
  eapply wp_mono; [by eapply wp_copy_name|]. intros r s3 (Sm3 & E3 & Hr). rewrite <- E3 in G2. destruct r as [e|g].
  { destruct (grant_swap _ _ _ _ _ _ _ G1 G2) as (Y & GY & GP). wp_step. eapply wp_kfree_grant; [apply Sm3|exact GP|]. intros s4 Sm4 E4. wp_step. rewrite <- E4 in GY.
    eapply wp_kfree_grant; [apply Sm4|exact GY|]. intros s5 Sm5 E5. wp_step. apply exec_early; [apply Hr| |done]. eapply same_sub; [apply delete_subseteq|].
    eapply same_trans; [exact Sm3|]. eapply same_trans; [|exact Sm5]. eapply same_sub; [|exact Sm4]. rewrite <- E4. by eapply grant_sub. }
  destruct Hr as (Hp0 & path & Hpath & Hc). destruct G1 as [[? _]|(_ & N0 & E1)]; [done|]. rewrite E1 in *. wp_step. eapply wp_kfree_grant; [apply Sm3|exact G2|]. intros s4 Sm4 E4.
  assert (B ⊆ <[progname := PATH_MAX + 1]> B) as HB by (by apply insert_subseteq). assert (same B s0 s4) as Sm04 by (eapply same_trans; [exact Sm3|by eapply same_sub]).
  assert (progname <> frame) as Hpf by congruence.
  assert (cstr (xmem s4) progname path) as Hc4 by (eapply (blocks_same_cstr _ _ _ progname); [apply Sm4|apply lookup_insert_eq|apply Hpath|done]).
  wp_step. eapply wp_mono; [apply wp_counted; [done| |done|lia|intros; apply H0; lia]|].
  { split; [apply Sm4|]. split; [done|]. exists fn. split; [|done]. rewrite E4, lookup_insert_ne; done. }
  intros r s5 (Sm5 & E5 & Hr). rewrite E4 in Sm5, E5. assert (same (delete frame B) s0 s5) as Sm05. { eapply same_trans; [eapply same_sub; [apply delete_subseteq|exact Sm04]|]. eapply same_sub; [|exact Sm5]. by apply delete_mono. }
  destruct r as [e|argc].
  { wp_step. eapply wp_kfree_grant; [apply Sm5|right; done|]. intros s6 Sm6 E6. wp_step. apply exec_early; [done| |done]. eapply same_trans; [exact Sm05|]. eapply same_sub; [apply delete_subseteq|exact Sm6]. }
  assert (cstr (xmem s5) progname path) as Hc5. { eapply (blocks_same_cstr _ _ _ progname); [apply Sm5|rewrite lookup_delete_ne by done; apply lookup_insert_eq|apply Hpath|done]. }
  pose proof Hr as (Hargc & _). wp_step. eapply wp_kmalloc_grant; [apply Sm5|lia|]. intros p1 s6 Sm6 G6. wp_step. eapply wp_kmalloc_grant; [apply Sm6|lia|]. intros p2 s7 Sm7 G7. rewrite E5 in Sm6, G6.
  assert (same (<[progname := PATH_MAX + 1]> B) s5 s7) as Sm57. { eapply same_trans; [exact Sm6|]. eapply same_sub; [|exact Sm7]. by eapply grant_sub. }
  assert (same (delete frame B) s0 s7) as Sm07. { eapply same_trans; [exact Sm05|]. eapply same_sub; [|exact Sm57]. etransitivity; [apply delete_subseteq|done]. }
  destruct ((p1 =? 0) || (p2 =? 0)) eqn:Ep.
  - apply (wp_free_arrays progname (PATH_MAX + 1) p1 (argc * 4) p2 (argc * 4) (<[progname := PATH_MAX + 1]> B) (blocks s6)); [done|by right|exact G6|exact G7].
  - boolify. destruct G6 as [[? _]|(_ & N1 & E6)]; [done|]. destruct G7 as [[? _]|(_ & N2 & E7)]; [done|]. rewrite E6 in *. apply lookup_insert_None in N1 as [N1 D1].
    apply lookup_insert_None in N2 as [N2 D3]. apply lookup_insert_None in N2 as [N2 D2].
    eapply (wp_exec_args progname p1 (argc * 4) p2 (argc * 4) path); try done; [lia|].
    eapply (blocks_same_cstr _ _ _ progname); [apply Sm57|apply lookup_insert_eq|apply Hpath|done].
Qed.

(** ** An array that cannot be read *)

(** The call gets the memory it asks for before it reads the arguments: for
    the name and for the two arrays. *)
Definition gets_memory (argc : Z) : Prop :=
  wp (progname <- kmalloc (PATH_MAX + 1) ;;
      path_len <- kmalloc 4 ;;
      on_cpu (copyinstr prog progname (PATH_MAX + 1)) ;;;
      kfree path_len ;;;
      count_args frame args ;;;
      args_arr <- kmalloc (argc * 4) ;;
      size_arr <- kmalloc (argc * 4) ;;
      ret (negb (progname =? 0) && negb (args_arr =? 0) && negb (size_arr =? 0))) (fun b _ => b = true) s0.

(** The first pointer of the array cannot be loaded. *)
Definition bad_first (m : mem) : Prop := aligned args = false \/ exists a, args <= a < args + 4 /\ m !! a = None.

Lemma load_word_panics s : xok s -> bad_first (xmem s) -> load_word args s = Panic.
Proof.
  intros Hs Hb. unfold load_word. destruct (aligned args) eqn:Ea; [|done]. destruct Hb as [?|(a & Ha & En)]; [congruence|]. apply bind_panic. unfold plain. apply bind_panic.
  unfold on_cpu, zoom, load_bytes, touch, bind, get. assert (peek (xmem s) args 4 = None) as -> by (apply peek_None; by exists a). by rewrite x_badfault.
Qed.

Lemma read_args_panics progname args_arr size_arr argc s : xok s -> 0 <= args < 2 ^ 32 -> 1 <= argc -> bad_first (xmem s) ->
  read_args frame progname args_arr size_arr args argc s = Panic.
Proof.
  intros Hs Ha Hn Hb. unfold read_args. apply bind_panic. replace (Z.to_nat argc) with (Datatypes.S (Z.to_nat (argc - 1))) by lia. cbn [for_acc]. do 2 apply bind_panic.
  unfold arg_length. apply bind_panic. replace (Z.to_nat (Z.max 1 ARG_MAX)) with (Datatypes.S (Z.to_nat (ARG_MAX - 1))) by (unfold ARG_MAX; lia). cbn [for_]. do 2 apply bind_panic.
  rewrite Z.mul_0_r, Z.add_0_r, u32_id by lia. by apply load_word_panics.
Qed.

Lemma bind_done {A C} (m : M S A) (k : A -> M S C) a s s' : m s = Done a s' -> bind m k s = k a s'.
Proof. unfold bind. by intros ->. Qed.

Lemma array_ends_user m m' n : user_same m m' -> array_ends m args n -> array_ends m' args n.
Proof.
  intros Hu [[H1 H2] H3]. split; [split; [done|by eapply word_at_user]|]. intros i Hi. destruct (H3 i Hi) as (v & [Hv1 Hv2] & Hv). exists v. split; [split; [done|by eapply word_at_user]|done].
Qed.

Lemma sys_execv_panics path argc : exec_pre -> 0 < prog < 2 ^ 32 -> user_string (xmem s0) prog (PATH_MAX + 1) path ->
  0 < args < USERSPACETOP -> 1 <= argc <= ARG_MAX -> array_ends (xmem s0) args argc -> bad_first (xmem s0) -> gets_memory argc ->
  sys_execv frame prog args s0 = Panic.
Proof.
  intros Hpre Hprog Hpath Hargs Hargc Hends Hbad Hg. assert (args + 4 <= USERSPACETOP) as Htop by (destruct Hends as [[? _] _]; lia). pose proof Hpre as [P1 (P2 & P2' & P2'') P3 P4 P5]. unfold gets_memory, wp in Hg. unfold sys_execv.
  replace ((prog =? 0) || (args =? 0)) with false by lia.
  assert (wp (kmalloc (PATH_MAX + 1)) (fun p s' => same B s0 s' /\ grant B p (PATH_MAX + 1) (blocks s')) s0) as (progname & s1 & E1 & Sm1 & G1)%wp_done by (eapply wp_kmalloc_grant; [done|done|done]).
  rewrite (bind_done _ _ _ _ _ E1) in Hg. rewrite (bind_done _ _ _ _ _ E1).
  assert (wp (kmalloc 4) (fun p s' => same (blocks s1) s1 s' /\ grant (blocks s1) p 4 (blocks s')) s1) as (path_len & s2 & E2 & Sm2 & G2)%wp_done by (eapply wp_kmalloc_grant; [apply Sm1|done|done]).
  rewrite (bind_done _ _ _ _ _ E2) in Hg. rewrite (bind_done _ _ _ _ _ E2).
  destruct (proj1 (wp_done _ _ _) (wp_copy_name progname path_len s1 s2 Hpre ltac:(lia) Sm1 G1 Sm2 G2)) as (r & s3 & E3 & Sm3 & B3 & Hr). rewrite (bind_done _ _ _ _ _ E3) in Hg. rewrite (bind_done _ _ _ _ _ E3). rewrite <- B3 in G2.
  assert (wp (kfree path_len) (fun _ s' => same (blocks s1) s3 s' /\ blocks s' = blocks s1) s3) as ([] & s4 & E4 & Sm4 & B4)%wp_done by (eapply wp_kfree_grant; [apply Sm3|exact G2|done]).
  rewrite (bind_done _ _ _ _ _ E4) in Hg. assert (B ⊆ blocks s1) as HB by (eapply grant_sub, G1). assert (same B s0 s4) as Sm04 by (eapply same_trans; [exact Sm3|by eapply same_sub]).
  assert (has_frame frame s4) as Hfr. { split; [apply Sm4|]. split; [done|]. exists fn. split; [|done]. rewrite B4. by eapply lookup_weaken. }
  destruct (proj1 (wp_done _ _ _) (wp_count_args frame args s4 Hfr ltac:(done))) as (c & s5 & E5 & Sm5 & B5 & Hc). rewrite (bind_done _ _ _ _ _ E5) in Hg.
  pose proof (array_ends_user _ _ _ (sm_user _ _ _ Sm04) Hends) as Hends4.
  assert (wp (kmalloc (argc * 4)) (fun p s' => same (blocks s5) s5 s' /\ grant (blocks s5) p (argc * 4) (blocks s')) s5) as (p1 & s6 & E6 & Sm6 & G6)%wp_done by (eapply wp_kmalloc_grant; [apply Sm5|lia|done]).
  rewrite (bind_done _ _ _ _ _ E6) in Hg.
  assert (wp (kmalloc (argc * 4)) (fun p s' => same (blocks s6) s6 s' /\ grant (blocks s6) p (argc * 4) (blocks s')) s6) as (p2 & s7 & E7 & Sm7 & G7)%wp_done by (eapply wp_kmalloc_grant; [apply Sm6|lia|done]).
  rewrite (bind_done _ _ _ _ _ E7) in Hg. cbn in Hg. boolify.
  destruct r as [e|g]; [by destruct Hr as [_ [?|Hno]]; [|destruct (Hno path)]|]. rewrite (bind_done _ _ _ _ _ E4), (bind_done _ _ _ _ _ E5).
  destruct c as [e|n]; [by destruct Hc as [_ Hno]; destruct (Hno argc)|]. destruct Hc as [Hn He]. assert (n = argc) as -> by (eapply array_ends_fun; [done|done|lia|lia]).
  rewrite (bind_done _ _ _ _ _ E6), (bind_done _ _ _ _ _ E7). replace ((p1 =? 0) || (p2 =? 0)) with false by lia. apply bind_panic, read_args_panics; [apply Sm7|unfold USERSPACETOP in *; lia|lia|].
  destruct Hbad as [?|(a & Ha & En)]; [by left|]. right. exists a. split; [done|]. rewrite (sm_user _ _ _ Sm7), (sm_user _ _ _ Sm6), (sm_user _ _ _ Sm5), (sm_user _ _ _ Sm04) by lia. done.
Qed.
End execv.
