(* ===== verification/ExecvProps.v ===== *)
(** * The theorems of [sys_execv] and [runprogram]

    With a small kernel that keeps the promises they rely on: a page pair
    of kernel memory with a heap that allocates upwards, one file, and address
    spaces that are only numbers. *)

From S2P Require Import Prelude CString CStringSpec CopyInOut CopyInOutSpec Execv ExecvLaws ExecvArgs ExecvSpec.

Definition KBASE : Z := 0x80001000.
Definition KSIZE : Z := 8192.

Record kernel := Kernel {
  k_cpu : cpu;
  k_blocks : gmap Z Z;
  k_spaces : gset Z;
  k_cur : Z;
  k_refs : gmap Z Z;
  k_program : err Z;    (* what loading the file gives *)
}.

Definition k_set_cpu (c : cpu) (s : kernel) := Kernel c (k_blocks s) (k_spaces s) (k_cur s) (k_refs s) (k_program s).
Definition k_set_blocks b (s : kernel) := Kernel (k_cpu s) b (k_spaces s) (k_cur s) (k_refs s) (k_program s).
Definition k_set_spaces x (s : kernel) := Kernel (k_cpu s) (k_blocks s) x (k_cur s) (k_refs s) (k_program s).
Definition k_set_cur a (s : kernel) := Kernel (k_cpu s) (k_blocks s) (k_spaces s) a (k_refs s) (k_program s).
Definition k_set_refs r (s : kernel) := Kernel (k_cpu s) (k_blocks s) (k_spaces s) (k_cur s) r (k_program s).

(** The end of the last block. *)
Definition heap_end (b : gmap Z Z) : Z := map_fold (fun p n e => Z.max (p + n) e) KBASE b.

Definition k_kmalloc (n : Z) : M kernel Z :=
  s <- get ;;
  let p := heap_end (k_blocks s) in
  if p + n <=? KBASE + KSIZE then modify (k_set_blocks (<[p := n]> (k_blocks s))) ;;; ret p else ret 0.

Definition refs (s : kernel) (v : Z) : Z := default 0 (k_refs s !! v).

(** All pages of a program's stack are there when it is loaded. *)
Definition map_stack (s : kernel) : kernel :=
  k_set_cpu (set_cmem (wr (cmem (k_cpu s)) (USERSPACETOP - stack_bytes) (replicate (Z.to_nat stack_bytes) 0)) (k_cpu s)) s.

#[export] Instance kernel_ops : ExecOps kernel := {|
  x_cpu := k_cpu;
  x_set_cpu := k_set_cpu;
  kmalloc := k_kmalloc;
  kfree p := modify (fun s => k_set_blocks (delete p (k_blocks s)) s);
  vfs_open p := s <- get ;; modify (k_set_refs (<[1 := refs s 1 + 1]> (k_refs s))) ;;; ret (inr 1);
  vfs_close v := s <- get ;; modify (k_set_refs (<[v := refs s v - 1]> (k_refs s)));
  as_create := s <- get ;; let a := fresh ({[0]} ∪ k_spaces s) in modify (k_set_spaces ({[a]} ∪ k_spaces s)) ;;; ret a;
  proc_getas := s <- get ;; ret (k_cur s);
  proc_setas a := s <- get ;; modify (k_set_cur a) ;;; ret (k_cur s);
  as_destroy a := modify (fun s => k_set_spaces (k_spaces s ∖ {[a]}) s);
  as_activate := ret tt;
  load_elf v :=
    s <- get ;;
    match k_program s with
    | inl e => ret (inl e)
    | inr entry => modify map_stack ;;; ret (inr entry)
    end;
  as_define_stack a := ret (inr USERSPACETOP);
|}.

Record kernel_ok (s : kernel) : Prop := {
  ko_badfault : badfault (k_cpu s) = false;
  ko_memory : mapped (cmem (k_cpu s)) KBASE KSIZE;
  ko_blocks : forall p n, k_blocks s !! p = Some n -> KBASE <= p /\ 0 < n /\ p + n <= KBASE + KSIZE;
  ko_apart : forall p n q k, k_blocks s !! p = Some n -> k_blocks s !! q = Some k -> p <> q -> apart p n q k;
  ko_program : forall e, k_program s = inl e -> e <> 0 }.

#[export] Instance kernel_view : ExecView kernel := {|
  blocks := k_blocks;
  spaces := k_spaces;
  curas := k_cur;
  vrefs := refs;
  xok := kernel_ok;
|}.

Lemma heap_end_spec b : KBASE <= heap_end b /\ forall p n, b !! p = Some n -> p + n <= heap_end b.
Proof.
  unfold heap_end. apply (map_fold_weak_ind (fun e (m : gmap Z Z) => KBASE <= e /\ forall p n, m !! p = Some n -> p + n <= e)).
  - split; [done|]. intros p n Hp. by rewrite lookup_empty in Hp.
  - intros q k m e Hm [H1 H2]. split; [lia|]. intros p n [[-> ->]|[Hne Hp]]%lookup_insert_Some; [lia|]. specialize (H2 p n Hp). lia.
Qed.

(** Blocks and spaces may change while memory does not. *)
Lemma kernel_ok_delete p s : kernel_ok s -> kernel_ok (k_set_blocks (delete p (k_blocks s)) s).
Proof.
  intros [A1 A2 A3 A4 A5]. split; try done; cbn.
  - intros q n [_ Hq]%lookup_delete_Some. by apply A3.
  - intros q n r k [_ Hq]%lookup_delete_Some [_ Hr]%lookup_delete_Some. by apply A4.
Qed.

Lemma kernel_ok_insert n s : kernel_ok s -> 0 < n -> heap_end (k_blocks s) + n <= KBASE + KSIZE -> kernel_ok (k_set_blocks (<[heap_end (k_blocks s) := n]> (k_blocks s)) s).
Proof.
  intros [A1 A2 A3 A4 A5] Hn Hr. destruct (heap_end_spec (k_blocks s)) as [H1 H2]. split; try done; cbn.
  - intros q k [[<- <-]|[Hne Hq]]%lookup_insert_Some; [lia|by apply A3].
  - intros q k r j [[<- <-]|[Hne Hq]]%lookup_insert_Some [[<- <-]|[Hne' Hr']]%lookup_insert_Some Hqr; [done| | |by apply A4].
    + specialize (H2 r j Hr'). unfold apart. lia.
    + specialize (H2 q k Hq). unfold apart. lia.
Qed.

Lemma refs_insert s v n u : refs (k_set_refs (<[v := n]> (k_refs s)) s) u = if decide (u = v) then n else refs s u.
Proof. unfold refs. cbn. case_decide as E; [subst; by rewrite lookup_insert_eq|by rewrite lookup_insert_ne]. Qed.

Lemma kernel_same B s s' : kernel_ok s' -> cmem (k_cpu s') = cmem (k_cpu s) -> k_spaces s' = k_spaces s -> k_cur s' = k_cur s -> k_refs s' = k_refs s -> same B s s'.
Proof. intros Hok Em Es Ec Er. split; try done; cbn; rewrite ?Em; try done. intros v. unfold refs. by rewrite Er. Qed.

Lemma kernel_ksame s s' : kernel_ok s' -> cmem (k_cpu s') = cmem (k_cpu s) -> k_blocks s' = k_blocks s -> ksame s s'.
Proof. intros Hok Em Eb. split; try done. cbn. by rewrite Em. Qed.

Lemma stack_length : Z.of_nat (length (replicate (Z.to_nat stack_bytes) 0)) = stack_bytes.
Proof. rewrite length_replicate. unfold stack_bytes. lia. Qed.

Lemma map_stack_ksame s : kernel_ok s -> ksame s (map_stack s).
Proof.
  intros Hs. unfold map_stack. pose proof stack_length as Hl. set (l := replicate (Z.to_nat stack_bytes) 0) in *. clearbody l.
  assert (forall a, USERSPACETOP <= a -> wr (cmem (k_cpu s)) (USERSPACETOP - stack_bytes) l !! a = cmem (k_cpu s) !! a) as Hhi by (intros x Hx; apply wr_out; rewrite Hl; lia).
  split; [|done|].
  - destruct Hs as [A1 A2 A3 A4 A5]. split; try done. cbn. intros i Hi. rewrite Hhi by (unfold KBASE, USERSPACETOP; lia). by apply A2.
  - intros p n x Hp Hx. destruct (ko_blocks _ Hs _ _ Hp) as (H1 & _). cbn. apply Hhi. unfold KBASE, USERSPACETOP in *. lia.
Qed.

Lemma kernel_stack_pages : stack_pages (S := kernel).
Proof.
  intros x s entry s' _ E. cbn in E. unfold bind, get in E. destruct (k_program s) as [e|e]; [done|]. unfold modify, ret in E. injection E as _ <-. unfold map_stack. cbn [x_cpu kernel_ops k_cpu k_set_cpu cmem set_cmem].
  pose proof stack_length as Hl. set (l := replicate (Z.to_nat stack_bytes) 0) in *. clearbody l. pose proof (bytes_at_mapped _ _ _ (wr_bytes_at (cmem (k_cpu s)) (USERSPACETOP - stack_bytes) l)) as Hm. by rewrite Hl in Hm.
Qed.

#[export] Instance kernel_env : ExecEnv kernel.
Proof.
  split; cbn [x_cpu x_set_cpu kmalloc kfree vfs_open vfs_close as_create proc_getas proc_setas as_destroy as_activate load_elf as_define_stack kernel_ops blocks spaces curas vrefs xok kernel_view].
  - done.
  - by intros [].
  - done.
  - by intros s [].
  - intros c s [A1 A2 A3 A4 A5] Hc Hd _. split; try done. cbn. intros i Hi. rewrite <- elem_of_dom, Hd, elem_of_dom. by apply A2.
  - intros s p n Hs Hp. destruct (ko_blocks _ Hs p n Hp) as (H1 & H2 & H3). unfold KBASE, KSIZE, USERSPACETOP in *. split_and!; [lia..|]. intros i Hi.
    replace (p + i) with (0x80001000 + (p + i - 0x80001000)) by lia. apply (ko_memory _ Hs). unfold KSIZE. lia.
  - intros s p n q k Hs. apply (ko_apart _ Hs).
  - intros n s Hs Hn. unfold k_kmalloc. wp_step. wp_step. destruct (_ <=? _) eqn:E; boolify; [|wp_step; split; [by apply kernel_same|by left]].
    wp_step. apply wp_modify. wp_step. destruct (heap_end_spec (k_blocks s)) as [H1 H2]. pose proof (kernel_ok_insert n s Hs Hn E) as Hok. split; [by apply kernel_same|right]. split_and!; [unfold KBASE in *; lia| |done].
    apply eq_None_not_Some. intros [k Hk]. pose proof (H2 _ _ Hk). destruct (ko_blocks _ Hs _ _ Hk) as (_ & ? & _). lia.
  - intros p n s Hs Hp. apply wp_modify. split; [apply kernel_same; try done; by apply kernel_ok_delete|done].
  - intros s Hs. apply wp_modify. assert (delete 0 (k_blocks s) = k_blocks s) as E. { apply delete_id, eq_None_not_Some. intros [n Hn]. destruct (ko_blocks _ Hs _ _ Hn) as (H1 & _). unfold KBASE in H1. lia. }
    split; [apply kernel_same; try done; by apply kernel_ok_delete|done].
  - intros p n l s Hs _ _ _. wp_step. wp_step. wp_step. apply wp_modify. wp_step. assert (kernel_ok (k_set_refs (<[1 := refs s 1 + 1]> (k_refs s)) s)) by (by destruct Hs). split_and!; try done.
    intros v. rewrite refs_insert. case_decide; subst; lia.
  - intros x s Hs Hx. wp_step. wp_step. apply wp_modify. split; [apply kernel_ksame; [by destruct Hs|done..]|]. split_and!; try done. intros v. rewrite refs_insert. case_decide; subst; lia.
  - intros s Hs. wp_step. wp_step. wp_step. apply wp_modify. wp_step. split; [apply kernel_ksame; [by destruct Hs|done..]|]. split_and!; try done. right.
    pose proof (is_fresh ({[0]} ∪ k_spaces s)) as Hf. apply not_elem_of_union in Hf as [Hf1 Hf2]. split_and!; [|done|done]. intros E. apply Hf1. rewrite E. by apply elem_of_singleton.
  - intros s Hs. wp_step. wp_step. by wp_step.
  - intros a s Hs. wp_step. wp_step. wp_step. apply wp_modify. wp_step. split; [done|]. split; [apply kernel_ksame; [by destruct Hs|done..]|done].
  - intros a s Hs _. apply wp_modify. split; [apply kernel_ksame; [by destruct Hs|done..]|done].
  - intros s Hs _. wp_step. split; [by apply kernel_ksame|done].
  - intros x s Hs _ _. wp_step. wp_step. destruct (k_program s) as [e|entry] eqn:E; [wp_step; split; [by apply kernel_ksame|]; split_and!; try done; by apply (ko_program _ Hs)|].
    wp_step. apply wp_modify. wp_step. split; [by apply map_stack_ksame|done].
  - intros a s Hs _ _. wp_step. split; [by apply kernel_ksame|done].
Qed.

(** ** A process to start programs in *)

(** At the start of this page, an array of one argument and, 16 bytes on, the
    string it points to. *)
Definition user_page : Z := 0x400000.
Definition user_bytes : list Z := be32 (user_page + 16) ++ be32 0 ++ replicate 8 0 ++ [112; 0; 0; 0].

(** The kernel's stack is a block of 16 bytes. *)
Definition ready (program : err Z) : kernel :=
  Kernel (Cpu (wr (wr ∅ KBASE (replicate (Z.to_nat KSIZE) 0)) user_page user_bytes) false) {[KBASE := 16]} {[7]} 7 ∅ program.

Lemma ready_bytes p l program : bytes_at (wr ∅ user_page user_bytes) p l -> user_page <= p -> p + Z.of_nat (length l) <= user_page + 20 -> bytes_at (xmem (ready program)) p l.
Proof.
  intros Hb H1 H2 i c Hi. pose proof (lookup_lt_Some _ _ _ Hi). specialize (Hb i c Hi). cbn [x_cpu kernel_ops k_cpu ready cmem]. rewrite wr_lookup in Hb |- *.
  change (Z.of_nat (length user_bytes)) with 20 in *. rewrite decide_True in Hb |- * by lia. done.
Qed.

Lemma ready_ok program : (forall e, program = inl e -> e <> 0) -> xok (ready program).
Proof.
  intros Hp. split; cbn [ready k_cpu k_blocks k_program badfault cmem]; [done| | | |done].
  - intros i Hi. apply wr_is_some. pose proof (bytes_at_mapped _ _ _ (wr_bytes_at ∅ KBASE (replicate (Z.to_nat KSIZE) 0))) as Hm. rewrite length_replicate in Hm. apply Hm. unfold KSIZE in *. lia.
  - intros p n [<- <-]%lookup_singleton_Some. done.
  - intros p n q k [<- <-]%lookup_singleton_Some [<- <-]%lookup_singleton_Some. done.
Qed.

Lemma ready_null program : null_unmapped (xmem (ready program)).
Proof.
  intros a Ha. cbn [x_cpu kernel_ops k_cpu ready cmem]. rewrite !wr_out; [apply lookup_empty| |]; left; unfold KBASE, user_page; lia.
Qed.

Lemma ready_pre program : (forall e, program = inl e -> e <> 0) -> exec_pre KBASE 16 (ready program).
Proof.
  intros Hp. split; [by apply ready_ok|done|apply ready_null|cbn; by apply elem_of_singleton|done].
Qed.

Lemma ready_arg program : arg_ptr (xmem (ready program)) user_page 0 (user_page + 16).
Proof.
  split; [done|]. exists (be32 (user_page + 16)). split_and!; [done| |done]. apply ready_bytes; [|done|done].
  intros i c Hi. do 4 (destruct i as [|i]; [vm_compute in Hi |- *; congruence|]). done.
Qed.

Section execv.
Context {S : Type} {EO : ExecOps S} {EV : ExecView S} {EE : ExecEnv S}.
Implicit Types s : S.

(** C12: [sys_execv] on any two pointers always ends, and
    never faults, when the array of arguments is aligned and has a readable
    first element, and there is memory for the pages of a loaded program's stack.  Whatever the outcome, every kernel block it took is given
    back, the other kernel blocks keep their contents, and no reference to
    the program's file is left.  When it fails, the error is not 0, and either
    the process has its address space and its memory as before, or (a failure
    after the switch) the address space it had is gone and the one it has
    was destroyed.  When it enters the program, the process is in a new
    address space, the old one is gone, and the program finds as many
    arguments as the user's array had before its null pointer: an array at
    the top of the stack, ended by a null pointer, whose pointers lead to
    copies of the user's strings, all of them above an aligned stack pointer. *)
Theorem execv_correct frame fn prog args s : stack_pages (S := S) -> exec_pre frame fn s -> 0 <= prog < 2 ^ 32 -> 0 <= args < 2 ^ 32 -> aligned args = true ->
  (0 < args < USERSPACETOP -> exists v, arg_ptr (xmem s) args 0 v) ->
  wp (sys_execv frame prog args) (exec_post frame prog args s) s.
Proof. intros Hst Hpre. by apply (wp_sys_execv frame fn). Qed.

(** C39: [sys_execv] reads the pointers of the user's array directly after
    having counted them with [copyin], and the count starts at the second: a
    program that gives a readable name and an array that is not aligned, or
    whose first element is not all in mapped memory, and that ends like
    every array of arguments, panics the kernel (if it has the memory to get
    that far). *)
Theorem execv_bad_argv_panics frame fn prog args path argc s : exec_pre frame fn s -> 0 < prog < 2 ^ 32 -> user_string (xmem s) prog (PATH_MAX + 1) path ->
  0 < args < USERSPACETOP -> 1 <= argc <= ARG_MAX -> array_ends (xmem s) args argc -> bad_first args (xmem s) -> gets_memory frame prog args s argc ->
  sys_execv frame prog args s = Panic.
Proof. by apply sys_execv_panics. Qed.

(** [runprogram], called with a path in kernel memory by a process
    without an address space, always ends.  No reference to the file is left and the kernel
    blocks are as before, apart from the path, which may be destroyed.  When
    it fails, the error is not 0, and the process has no address space or one that
    exists, which goes away with the process.  When it enters the program,
    the process is in a new address space, with its stack at the top. *)
Theorem runprogram_correct progname n path s : xok s -> blocks s !! progname = Some n -> cstr (xmem s) progname path -> Z.of_nat (length path) < n -> curas s = 0 -> (forall v, 0 <= vrefs s v) ->
  wp (runprogram progname) (fun r s' => ended (blocks s) (delete progname (blocks s)) s s' /\ (forall v, vrefs s' v = vrefs s v) /\
    match r with
    | Failed e => e <> 0 /\ (curas s' = 0 /\ spaces s' = spaces s \/ (curas s' ∉ spaces s) /\ spaces s' = {[curas s']} ∪ spaces s)
    | Entered argc argv sp entry => argc = 0 /\ argv = 0 /\ sp = USERSPACETOP /\ curas s' <> 0 /\ (curas s' ∉ spaces s) /\ spaces s' = {[curas s']} ∪ spaces s
    end) s.
Proof.
  intros Hs Hp Hc Hn H0 Hv. unfold runprogram. wp_step. eapply wp_mono; [by eapply (vfs_open_law progname n path)|]. intros r s1 (X1 & E1 & U1 & Bl1 & S1 & C1 & Hr).
  assert (forall s', ksame s1 s' -> ended (blocks s) (delete progname (blocks s)) s s') as HE.
  { intros s' [K1 K2 K3]. rewrite E1 in *. split; [done|done|]. eapply blocks_same_trans; [exact Bl1|]. eapply blocks_same_sub; [apply delete_subseteq|exact K3]. }
  destruct r as [e|v]; [wp_step; split; [by apply HE, ksame_refl|]; split; [apply Hr|]; split; [apply Hr|left; split; [congruence|done]]|].
  assert (0 < vrefs s1 v) as Hv1 by (rewrite Hr, decide_True by done; specialize (Hv v); lia).
  assert (forall u, vrefs s1 u - (if decide (u = v) then 1 else 0) = vrefs s u) as Hv2 by (intros u; rewrite Hr; lia).
  wp_step. eapply wp_mono; [by apply proc_getas_law|]. intros a s2 [-> ->]. rewrite C1, H0. wp_step. apply wp_kassert; [done|]. wp_step.
  eapply wp_mono; [by apply as_create_law|]. intros a s2 (K2 & U2 & C2 & V2 & Ha). destruct Ha as [[-> S2]|(Ha0 & Ha & S2)].
  - change (0 =? 0) with true. cbv iota. wp_step. eapply wp_mono; [apply (vfs_close_law v); [apply K2|by rewrite V2]|]. intros _ s3 (K3 & U3 & S3 & C3 & V3). wp_step.
    split; [by eapply HE, ksame_trans|]. split; [intros u; by rewrite V3, V2|]. split; [done|left]. split; congruence.
  - replace (a =? 0) with false by lia. rewrite S1 in Ha, S2. wp_step. eapply wp_mono; [apply proc_setas_law, K2|]. intros old s3 (_ & K3 & C3 & S3 & V3). wp_step.
    assert (curas s3 ∈ spaces s3) as Hin by (rewrite C3, S3, S2; by apply elem_of_union_l, elem_of_singleton).
    eapply wp_mono; [apply as_activate_law; [apply K3|done]|]. intros _ s4 (K4 & C4 & S4 & V4). wp_step.
    eapply wp_mono; [apply (load_elf_law v); [apply K4|by rewrite C4, S4|by rewrite V4, V3, V2]|]. intros r s5 (K5 & C5 & S5 & V5 & Hr5).
    assert (ksame s1 s5) as K15 by (do 2 (eapply ksame_trans; [eassumption|]); by eapply ksame_trans).
    assert (forall s6, curas s6 = curas s5 -> spaces s6 = spaces s5 -> curas s6 = a /\ spaces s6 = {[a]} ∪ spaces s) as Hsp by (intros s6 -> ->; split; congruence).
    destruct r as [e|entry]; wp_step; (eapply wp_mono; [apply (vfs_close_law v); [apply K5|by rewrite V5, V4, V3, V2]|]); intros _ s6 (K6 & U6 & S6 & C6 & V6); destruct (Hsp s6 C6 S6) as [C S'].
    + wp_step. split; [by eapply HE, ksame_trans|]. split; [intros u; by rewrite V6, V5, V4, V3, V2|]. split; [done|right]. by rewrite C.
    + wp_step. eapply wp_mono; [apply (as_define_stack_law a); [apply K6|done|rewrite S'; by apply elem_of_union_l, elem_of_singleton]|]. intros r s7 (K7 & U7 & C7 & S7 & V7 & Hr7).
      assert (ended (blocks s) (delete progname (blocks s)) s s7) as En by (eapply HE, ksame_trans; [exact K15|by eapply ksame_trans]).
      assert (forall u, vrefs s7 u = vrefs s u) as V by (intros u; by rewrite V7, V6, V5, V4, V3, V2).
      destruct r as [e|sp]; wp_step; (split; [done|]); (split; [done|]); rewrite C7, S7, C, S'; [split; [done|by right]|]. done.
Qed.
End execv.

Lemma execv_correct_witness : wp (sys_execv KBASE (user_page + 16) user_page) (exec_post KBASE (user_page + 16) user_page (ready (inr 0x400000))) (ready (inr 0x400000)).
Proof.
  apply (execv_correct KBASE 16); [apply kernel_stack_pages|by apply ready_pre|done|done|done|]. intros _. exists (user_page + 16). apply ready_arg.
Defined.

(** A process without an address space, and a path on the kernel's stack. *)
Definition starting : kernel := Kernel (Cpu (wr (xmem (ready (inr user_page))) KBASE [112; 0]) false) {[KBASE := 16]} ∅ 0 ∅ (inr user_page).

Lemma starting_ok : xok starting.
Proof.
  assert (kernel_ok (ready (inr user_page))) as [A1 A2 A3 A4 A5] by (apply ready_ok; intros e [=]). split; cbn [starting k_cpu k_blocks k_program badfault cmem]; [reflexivity| |exact A3|exact A4|intros e [=]].
  intros i Hi. apply wr_is_some, A2, Hi.
Qed.

Lemma runprogram_correct_witness : wp (runprogram KBASE) (fun r s' => match r with Failed e => e <> 0 | Entered argc argv sp entry => sp = USERSPACETOP end) starting.
Proof.
  eapply wp_mono; [apply (runprogram_correct KBASE 16 [112]); [apply starting_ok|done| |done|done|done]|].
  - split; [apply wr_bytes_at|]. by intros ?%list_elem_of_singleton.
  - intros r s' (_ & _ & Hr). destruct r; apply Hr.
Defined.

(** An array that starts on the page before the user's, and one that is not aligned. *)
Lemma ready_word p v program : (exists l, length l = 4%nat /\ bytes_at (wr ∅ user_page user_bytes) p l /\ of_be l = v) -> user_page <= p -> p + 4 <= user_page + 20 -> word_at (xmem (ready program)) p v.
Proof. intros (l & H1 & H2 & H3) Hp1 Hp2. exists l. split_and!; [done| |done]. apply ready_bytes; [done|done|lia]. Qed.

Lemma bytes_by_peek m p l : peek m p (length l) = Some l -> bytes_at m p l.
Proof. by intros [? _]%peek_Some. Qed.

Lemma execv_bad_argv_panics_witness :
  sys_execv KBASE (user_page + 16) (user_page - 4) (ready (inr 0x400000)) = Panic /\
  sys_execv KBASE (user_page + 16) (user_page + 1) (ready (inr 0x400000)) = Panic.
Proof.
  assert (user_string (xmem (ready (inr 0x400000))) (user_page + 16) (PATH_MAX + 1) [112]) as Hpath.
  { split; [|done]. split; [|by intros ?%list_elem_of_singleton]. apply ready_bytes; [apply bytes_by_peek; vm_compute; reflexivity|done|done]. }
  split.
  - apply (execv_bad_argv_panics KBASE 16 _ _ [112] 2); [by apply ready_pre|done|exact Hpath|done|done| | |unfold gets_memory, wp; vm_compute; reflexivity].
    + split; [split; [done|]|].
      * apply ready_word; [|done|done]. exists (be32 0). split_and!; [done| |done]. apply bytes_by_peek. vm_compute. reflexivity.
      * intros i Hi. assert (i = 1) as -> by lia. exists (user_page + 16). split; [split; [done|]|done]. apply ready_word; [|done|done]. exists (be32 (user_page + 16)). split_and!; [done| |done]. apply bytes_by_peek. vm_compute. reflexivity.
    + right. exists (user_page - 4). split; [lia|]. cbn [x_cpu kernel_ops k_cpu ready cmem]. rewrite !wr_out; [apply lookup_empty| |]; left; unfold KBASE, user_page; lia.
  - apply (execv_bad_argv_panics KBASE 16 _ _ [112] 1); [by apply ready_pre|done|exact Hpath|done|done| |left; reflexivity|unfold gets_memory, wp; vm_compute; reflexivity].
    split; [split; [done|]|intros i Hi; lia]. apply ready_word; [|done|done]. exists (be32 0). split_and!; [done| |done]. apply bytes_by_peek. vm_compute. reflexivity.
Defined.
