(* ===== verification/KHeap.v ===== *)
(** * The kernel heap as the rest of the kernel sees it

    [kmalloc] and [kfree] (kern/vm/kmalloc.c, declared in kern/include/lib.h)
    as an interface: what every client may assume of them, whatever state
    they run on.  [heap_live] is the set of blocks handed out and not yet
    freed. *)

From S2P Require Import Prelude.

(** The contract of kern/include/lib.h: a fresh block or [NULL] (0).
    [heap_ok] is what the allocator needs of the rest of the kernel and
    [heap_side] bounds what a call may change besides the set of live blocks
    (the allocator takes whole pages from the coremap and returns them). *)
Class KMalloc (S : Type) := {
  kmalloc : Z -> M S Z;
  kfree : Z -> M S unit;
  heap_live : S -> gset Z;
  heap_ok : S -> Prop;
  heap_side : S -> S -> Prop;
  heap_side_preorder :: PreOrder heap_side;
  heap_side_ok : forall s s', heap_ok s -> heap_side s s' -> heap_ok s';
  kmalloc_spec : forall sz s, heap_ok s ->
    wp (kmalloc sz) (fun p s' => heap_side s s' /\
      ((p = 0 /\ heap_live s' = heap_live s) \/
       (0 < p /\ (p ∉ heap_live s) /\ heap_live s' = {[p]} ∪ heap_live s))) s;
  kfree_spec : forall p s, heap_ok s -> p <> 0 -> p ∈ heap_live s ->
    wp (kfree p) (fun _ s' => heap_side s s' /\ heap_live s' = heap_live s ∖ {[p]}) s;
  kfree_null : forall s, heap_ok s ->
    wp (kfree 0) (fun _ s' => heap_side s s' /\ heap_live s' = heap_live s) s;
}.

(** Side conditions of heap calls: the allocator's invariant after earlier
    calls, and the effects composed. *)
Ltac heap_solve := solve
  [ assumption | reflexivity
  | repeat match goal with
           | |- heap_ok ?s => first [assumption | match goal with H : heap_side _ s |- _ => eapply heap_side_ok; [|exact H] end]
           end
  | repeat match goal with
           | |- heap_side ?a ?a => reflexivity
           | H : heap_side ?a ?b |- heap_side ?a ?b => exact H
           | H : heap_side ?b ?c |- heap_side _ ?c => etransitivity; [|exact H]
           end ].

(** [kstrdup] (kern/lib/misc.c): a block for the string and its terminator. *)
Definition kstrdup {S} `{KMalloc S} (s : list Z) : M S Z :=
  kmalloc (Z.of_nat (length s) + 1).

(** Freeing the block just handed out restores the set of live blocks. *)
Lemma live_alloc_free (p : Z) (L : gset Z) : p ∉ L -> ({[p]} ∪ L) ∖ {[p]} = L.
Proof. set_solver. Qed.

(** ** A reference heap

    The smallest heap with the contract: blocks are numbered, and a list of
    verdicts says which calls fail (past its end, none does). *)
Record ref_heap := RefHeap {
  rh_live : gset Z;
  rh_verdicts : list bool;
}.

Definition rh_fresh (h : ref_heap) : Z := 1 + foldr Z.max 0 (elements (rh_live h)).

Definition rh_kmalloc (sz : Z) : M ref_heap Z := fun h =>
  match rh_verdicts h with
  | false :: l => Done 0 (RefHeap (rh_live h) l)
  | l => Done (rh_fresh h) (RefHeap ({[rh_fresh h]} ∪ rh_live h) (tail l))
  end.

Definition rh_kfree (p : Z) : M ref_heap unit := fun h =>
  if bool_decide (p = 0) then Done tt h
  else if bool_decide (p ∈ rh_live h) then Done tt (RefHeap (rh_live h ∖ {[p]}) (rh_verdicts h))
  else Fault.

Lemma foldr_max_le (l : list Z) x : x ∈ l -> x <= foldr Z.max 0 l.
Proof. induction 1; simpl; lia. Qed.

Lemma foldr_max_nonneg (l : list Z) : 0 <= foldr Z.max 0 l.
Proof. induction l; simpl; lia. Qed.

Lemma rh_fresh_spec h : 0 < rh_fresh h /\ rh_fresh h ∉ rh_live h.
Proof.
  unfold rh_fresh. pose proof (foldr_max_nonneg (elements (rh_live h))). split; [lia|].
  intros H'. apply elem_of_elements, foldr_max_le in H'. lia.
Qed.

Lemma rh_kmalloc_done sz h : exists p h', rh_kmalloc sz h = Done p h' /\
  ((p = 0 /\ rh_live h' = rh_live h) \/
   (0 < p /\ (p ∉ rh_live h) /\ rh_live h' = {[p]} ∪ rh_live h)).
Proof.
  destruct (rh_fresh_spec h). unfold rh_kmalloc.
  destruct (rh_verdicts h) as [|[] l]; do 2 eexists; (split; [done|]); simpl; eauto.
Qed.

#[export, program] Instance ref_heap_kmalloc : KMalloc ref_heap := {|
  kmalloc := rh_kmalloc;
  kfree := rh_kfree;
  heap_live := rh_live;
  heap_ok := fun _ => True;
  heap_side := fun _ _ => True;
|}.
Next Obligation. done. Qed.
Next Obligation. done. Qed.
Next Obligation.
  intros. apply wp_done. destruct (rh_kmalloc_done sz s) as (p & h' & Hr & Hp). eauto 6.
Qed.
Next Obligation.
  intros p s _ Hne Hp. unfold wp, rh_kfree. rewrite bool_decide_eq_false_2 by done.
  by rewrite bool_decide_eq_true_2.
Qed.
Next Obligation. done. Qed.
