(* ===== verification/Bitmap.v ===== *)
(** * Bitmaps (kern/lib/bitmap.c)

    The fixed-size bit array behind the swap map and the SFS free map: its
    words, its operations with their assertions, and the refinement of the
    word-level code to a list of booleans. *)

From S2P Require Import Prelude KHeap.

Definition BITS_PER_WORD : Z := 8.
Definition WORD_ALLBITS : Z := 255.

Record bitmap := Bitmap {
  bm_nbits : Z;
  bm_v : list Z;       (* the words, unsigned char *)
  bm_ptr : Z;          (* the block of the struct *)
  bm_vptr : Z;         (* the block of the words *)
}.

Definition set_word (ix : Z) (w : Z) (b : bitmap) : bitmap :=
  Bitmap (bm_nbits b) (<[Z.to_nat ix := w]> (bm_v b)) (bm_ptr b) (bm_vptr b).

(** [b->v[ix]] read and written. *)
Definition read_word (ix : Z) : M bitmap Z :=
  b <- get ;; deref (bm_v b !! Z.to_nat ix).

Definition write_word (ix : Z) (w : Z) : M bitmap unit :=
  _ <- read_word ix ;; modify (set_word ix w).

(** The words of a new bitmap: zeroed, leftover bits of the last word set. *)
Definition bitmap_words (nbits : Z) : M bitmap unit :=
  let words := DIVROUNDUP nbits BITS_PER_WORD in
  modify (fun b => Bitmap nbits (replicate (Z.to_nat words) 0) (bm_ptr b) (bm_vptr b)) ;;;
  if nbits / BITS_PER_WORD <? words then
    let ix := u32 (words - 1) in
    let overbits := u32 (nbits - u32 (ix * BITS_PER_WORD)) in
    kassert (nbits / BITS_PER_WORD =? u32 (words - 1)) ;;;
    kassert ((0 <? overbits) && (overbits <? BITS_PER_WORD)) ;;;
    for_ (Z.to_nat (BITS_PER_WORD - overbits)) overbits (fun j =>
      w <- read_word ix ;;
      write_word ix (u8 (Z.lor w (u8 (Z.shiftl 1 j)))) ;;;
      @ret bitmap (option unit) None) ;;;
    ret tt
  else ret tt.

Definition bitmap_create {S} `{KMalloc S} (nbits : Z) : M S (option bitmap) :=
  let words := DIVROUNDUP nbits BITS_PER_WORD in
  b <- kmalloc 8 ;;
  if b =? 0 then ret None else
  v <- kmalloc words ;;
  if v =? 0 then
    kfree b ;;;
    ret None
  else fun s =>
    match bitmap_words nbits (Bitmap nbits [] b v) with
    | Done _ bm => Done (Some bm) s
    | Panic => Panic
    | Fault => Fault
    | NoFuel => NoFuel
    end.

Definition bitmap_getdata (b : bitmap) : list Z := bm_v b.

Definition bitmap_alloc : M bitmap (err Z) :=
  b <- get ;;
  let maxix := DIVROUNDUP (bm_nbits b) BITS_PER_WORD in
  r <- for_ (Z.to_nat maxix) 0 (fun ix =>
    w <- read_word ix ;;
    if negb (w =? WORD_ALLBITS) then
      r <- for_ (Z.to_nat BITS_PER_WORD) 0 (fun offset =>
        let mask := u8 (Z.shiftl 1 offset) in
        w <- read_word ix ;;
        if Z.land w mask =? 0 then
          write_word ix (Z.lor w mask) ;;;
          let index := u32 (u32 (ix * BITS_PER_WORD) + offset) in
          kassert (index <? bm_nbits b) ;;;
          ret (Some index)
        else ret None) ;;
      match r with
      | Some index => ret (Some index)
      | None => panic
      end
    else ret None) ;;
  match r with
  | Some index => ret (inr index)
  | None => ret (inl ENOSPC)
  end.

Definition bitmap_translate (bitno : Z) : Z * Z :=
  let ix := bitno / BITS_PER_WORD in
  let offset := bitno mod BITS_PER_WORD in
  (ix, u8 (Z.shiftl 1 offset)).

Definition bitmap_mark (index : Z) : M bitmap unit :=
  b <- get ;;
  kassert (index <? bm_nbits b) ;;;
  let '(ix, mask) := bitmap_translate index in
  w <- read_word ix ;;
  kassert (Z.land w mask =? 0) ;;;
  write_word ix (Z.lor w mask).

Definition bitmap_unmark (index : Z) : M bitmap unit :=
  b <- get ;;
  kassert (index <? bm_nbits b) ;;;
  let '(ix, mask) := bitmap_translate index in
  w <- read_word ix ;;
  kassert (negb (Z.land w mask =? 0)) ;;;
  write_word ix (u8 (Z.land w (Z.lnot mask))).

Definition bitmap_isset (index : Z) : M bitmap Z :=
  let '(ix, mask) := bitmap_translate index in
  w <- read_word ix ;;
  ret (Z.land w mask).

Definition bitmap_destroy {S} `{KMalloc S} (b : bitmap) : M S unit :=
  kfree (bm_vptr b) ;;;
  kfree (bm_ptr b).

(** ** The invariant and the abstraction *)

(** Bit [i] of the bitmap. *)
Definition bit (b : bitmap) (i : Z) : bool :=
  match bm_v b !! Z.to_nat (i / BITS_PER_WORD) with
  | Some w => Z.testbit w (i mod BITS_PER_WORD)
  | None => false
  end.

Record bitmap_wf (b : bitmap) : Prop := {
  wf_nbits : 0 <= bm_nbits b < 2 ^ 32 - 7;
  wf_len : Z.of_nat (length (bm_v b)) = DIVROUNDUP (bm_nbits b) BITS_PER_WORD;
  wf_words : Forall (fun w => 0 <= w < 256) (bm_v b);
  wf_leftover : forall i, bm_nbits b <= i < 8 * Z.of_nat (length (bm_v b)) -> bit b i = true;
}.

(** What a client sees: one boolean per bit. *)
Definition abs (b : bitmap) : list bool := bit b <$> seqZ 0 (bm_nbits b).

(** ** Lemmas *)

Lemma mask_word o : 0 <= o < 8 -> u8 (Z.shiftl 1 o) = Z.shiftl 1 o.
Proof. intros Ho. unfold u8. apply Z.mod_small. pose proof (shiftl_1_lt o 8). lia. Qed.

Lemma bitmap_len_bounds b : bitmap_wf b ->
  8 * Z.of_nat (length (bm_v b)) - 8 < bm_nbits b <= 8 * Z.of_nat (length (bm_v b)).
Proof.
  intros [Hn Hl _ _]. pose proof (DIVROUNDUP_spec (bm_nbits b) 8). unfold BITS_PER_WORD in *. lia.
Qed.

Lemma bit_word b ix o w : bm_v b !! Z.to_nat ix = Some w -> 0 <= ix -> 0 <= o < 8 ->
  bit b (ix * 8 + o) = Z.testbit w o.
Proof.
  intros Hw Hix Ho. unfold bit, BITS_PER_WORD.
  replace ((ix * 8 + o) / 8) with ix by zlia. rewrite Hw. f_equal. zlia.
Qed.

Lemma bit_set_word b ix w w' i :
  bm_v b !! Z.to_nat ix = Some w -> 0 <= ix -> 0 <= i ->
  bit (set_word ix w' b) i = if bool_decide (i / 8 = ix) then Z.testbit w' (i mod 8) else bit b i.
Proof.
  intros Hw Hix Hi. apply lookup_lt_Some in Hw. unfold bit, BITS_PER_WORD; simpl. case_bool_decide as E.
  - rewrite E, list_lookup_insert_eq by done. done.
  - rewrite list_lookup_insert_ne; [done|]. pose proof (Z.div_pos i 8). lia.
Qed.

Lemma word_lookup b i : bitmap_wf b -> 0 <= i < 8 * Z.of_nat (length (bm_v b)) ->
  exists w, bm_v b !! Z.to_nat (i / 8) = Some w /\ 0 <= w < 256.
Proof.
  intros Hwf Hi. destruct (lookup_lt_is_Some_2 (bm_v b) (Z.to_nat (i / 8))) as [w Hw].
  - zlia.
  - exists w. split; [done|]. by apply (Forall_lookup_1 _ _ _ _ (wf_words _ Hwf) Hw).
Qed.

Lemma wp_read_word ix w Q b :
  bm_v b !! Z.to_nat ix = Some w -> Q w b -> wp (read_word ix) Q b.
Proof. intros Hw HQ. unfold read_word. wp_steps. by apply (wp_deref _ w). Qed.

Lemma wp_write_word ix w w' Q b :
  bm_v b !! Z.to_nat ix = Some w -> Q tt (set_word ix w' b) -> wp (write_word ix w') Q b.
Proof. intros Hw HQ. unfold write_word. apply wp_bind, (wp_read_word ix w); [done|]. by wp_steps. Qed.

(** Updating one bit of a well-formed bitmap. *)
Definition update_bit (b b' : bitmap) (i : Z) (x : bool) : Prop :=
  bitmap_wf b' /\ bm_nbits b' = bm_nbits b /\ bm_ptr b' = bm_ptr b /\ bm_vptr b' = bm_vptr b /\
  forall j, 0 <= j -> bit b' j = if bool_decide (j = i) then x else bit b j.

Lemma update_bit_word b i w w' (x : bool) :
  bitmap_wf b -> 0 <= i < bm_nbits b ->
  bm_v b !! Z.to_nat (i / 8) = Some w -> 0 <= w' < 256 ->
  (forall j, 0 <= j < 8 -> Z.testbit w' j = if bool_decide (j = i mod 8) then x else Z.testbit w j) ->
  update_bit b (set_word (i / 8) w' b) i x.
Proof.
  intros Hwf Hi Hw Hw' Hbits.
  assert (forall j, 0 <= j -> bit (set_word (i / 8) w' b) j = if bool_decide (j = i) then x else bit b j) as Hbit.
  { intros j Hj. rewrite (bit_set_word _ _ w) by (done || zlia). repeat case_bool_decide; subst; try zlia.
    - rewrite Hbits by zlia. by rewrite bool_decide_eq_true_2.
    - rewrite Hbits by zlia. rewrite bool_decide_eq_false_2 by zlia.
      unfold bit, BITS_PER_WORD. rewrite H, Hw. done.
    - done. }
  split_and!; [|done..]. destruct Hwf as [Hn Hl Hf Hlo]. constructor; simpl; [done| | |].
  - by rewrite length_insert.
  - by apply Forall_insert.
  - rewrite length_insert. intros j Hj. rewrite Hbit by lia. rewrite bool_decide_eq_false_2 by lia. by apply Hlo.
Qed.

(** Two well-formed bitmaps with the same bits have the same words. *)
Lemma bm_v_ext b b' : bitmap_wf b -> bitmap_wf b' -> bm_nbits b = bm_nbits b' ->
  (forall i, 0 <= i -> bit b i = bit b' i) -> bm_v b = bm_v b'.
Proof.
  intros Hwf Hwf' Hn Hb. assert (length (bm_v b) = length (bm_v b')) as Hlen.
  { pose proof (wf_len _ Hwf) as H1. pose proof (wf_len _ Hwf'). rewrite Hn in H1. lia. }
  apply list_eq_same_length with (length (bm_v b')); [done..|]. intros i w w' Hi Hw Hw'.
  pose proof (Forall_lookup_1 _ _ _ _ (wf_words _ Hwf) Hw). pose proof (Forall_lookup_1 _ _ _ _ (wf_words _ Hwf') Hw'). cbv beta in *.
  apply Z.bits_inj'. intros k Hk. destruct (decide (k < 8)).
  - rewrite <- (bit_word b (Z.of_nat i) k w), <- (bit_word b' (Z.of_nat i) k w'); [apply Hb; lia|..];
      rewrite ?Nat2Z.id; lia || done.
  - rewrite <- (Z.mod_small w (2 ^ 8)), <- (Z.mod_small w' (2 ^ 8)) by lia. by rewrite !Z.mod_pow2_bits_high by lia.
Qed.

Lemma abs_lookup b i : 0 <= i < bm_nbits b -> abs b !! Z.to_nat i = Some (bit b i).
Proof.
  intros Hi. unfold abs. rewrite list_lookup_fmap, lookup_seqZ_lt by lia. simpl. do 2 f_equal. lia.
Qed.

Lemma update_bit_abs b b' i x : update_bit b b' i x -> 0 <= i < bm_nbits b ->
  abs b' = <[Z.to_nat i := x]> (abs b).
Proof.
  intros (Hwf & Hn & _ & _ & Hb) Hi. apply list_eq. intros j.
  destruct (decide (Z.of_nat j < bm_nbits b)) as [Hj|Hj].
  - replace j with (Z.to_nat (Z.of_nat j)) at 1 by lia. rewrite abs_lookup by (rewrite Hn; lia).
    rewrite Hb by lia. case_bool_decide as E.
    + subst i. rewrite Nat2Z.id, list_lookup_insert_eq; [done|]. unfold abs. rewrite length_fmap, length_seqZ. lia.
    + rewrite list_lookup_insert_ne by lia. replace j with (Z.to_nat (Z.of_nat j)) at 2 by lia.
      rewrite abs_lookup by lia. done.
  - rewrite (lookup_ge_None_2 (abs b')); [|unfold abs; rewrite length_fmap, length_seqZ; lia].
    rewrite lookup_ge_None_2; [done|]. rewrite length_insert. unfold abs. rewrite length_fmap, length_seqZ. lia.
Qed.

(** ** [bitmap_alloc] *)

(** The inner loop on a word that is not all ones: it takes the lowest clear
    bit of that word. *)
Lemma alloc_word b ix w :
  bitmap_wf b -> 0 <= ix < Z.of_nat (length (bm_v b)) ->
  bm_v b !! Z.to_nat ix = Some w -> w <> WORD_ALLBITS ->
  wp (for_ (Z.to_nat BITS_PER_WORD) 0 (fun offset =>
        let mask := u8 (Z.shiftl 1 offset) in
        w <- read_word ix ;;
        if Z.land w mask =? 0 then
          write_word ix (Z.lor w mask) ;;;
          let index := u32 (u32 (ix * BITS_PER_WORD) + offset) in
          kassert (index <? bm_nbits b) ;;;
          ret (Some index)
        else ret None))
     (fun r b' => exists i, r = Some i /\ 0 <= i < bm_nbits b /\ i / 8 = ix /\ bit b i = false /\
        (forall j, ix * 8 <= j < i -> bit b j = true) /\ update_bit b b' i true) b.
Proof.
  intros Hwf Hix Hw Hne. pose proof (bitmap_len_bounds b Hwf) as Hlen.
  pose proof (wf_nbits _ Hwf) as Hnb.
  assert (0 <= w < 256) as Hwr by exact (Forall_lookup_1 _ _ _ _ (wf_words _ Hwf) Hw).
  apply (wp_for _ _ _ (fun o b' => b' = b /\ forall j, 0 <= j < o -> Z.testbit w j = true)).
  - split; [done|lia].
  - intros o b' Ho [-> Hall]. unfold BITS_PER_WORD in *. simpl in Ho.
    wp_step. apply (wp_read_word ix w); [done|]. cbv zeta. rewrite mask_word by lia.
    rewrite land_shiftl_1 by lia. destruct (Z.testbit w o) eqn:Eb; simpl.
    + wp_step. split; [done|]. intros j Hj. destruct (decide (j = o)) as [->|]; [done|]. apply Hall. lia.
    + assert (ix * 8 + o < bm_nbits b) as Hlt.
      { destruct (decide (ix * 8 + o < bm_nbits b)); [done|].
        assert (bit b (ix * 8 + o) = true) as Hc by (apply (wf_leftover _ Hwf); lia).
        rewrite (bit_word b ix o w) in Hc by (done || lia). congruence. }
      wp_step. apply (wp_write_word ix w); [done|].
      rewrite (u32_id (ix * 8)) by lia. rewrite u32_id by lia.
      wp_step. apply wp_kassert; [by apply Z.ltb_lt|]. wp_step.
      exists (ix * 8 + o). assert ((ix * 8 + o) / 8 = ix) as Hdiv by zlia.
      assert ((ix * 8 + o) mod 8 = o) as Hmod by zlia.
      split_and!; [done|lia|lia|done|by rewrite (bit_word b ix o w) by (done || lia)| |].
      * intros j Hj. replace j with (ix * 8 + (j - ix * 8)) by lia.
        rewrite (bit_word b ix _ w) by (done || lia). apply Hall. lia.
      * pose proof (update_bit_word b (ix * 8 + o) w (Z.lor w (Z.shiftl 1 o)) true) as HU.
        rewrite Hdiv, Hmod in HU. apply HU; [done|lia|done| |].
        -- apply (lor_lt _ _ 8); pose proof (shiftl_1_lt o 8); lia.
        -- intros j Hj. rewrite testbit_setbit by lia.
           repeat case_bool_decide; subst; try done; by rewrite ?orb_true_r, ?orb_false_r.
  - intros b' [-> Hall]. exfalso. apply Hne. apply (all_bits_ones w 8); [lia|done|].
    intros j Hj. apply Hall. unfold BITS_PER_WORD in *. lia.
Qed.

(** First fit: the lowest clear bit, or [ENOSPC] when every bit is set. *)
Lemma bitmap_alloc_spec b :
  bitmap_wf b ->
  wp bitmap_alloc (fun r b' =>
    (exists i, r = inr i /\ 0 <= i < bm_nbits b /\ bit b i = false /\
       (forall j, 0 <= j < i -> bit b j = true) /\ update_bit b b' i true) \/
    (r = inl ENOSPC /\ b' = b /\ forall j, 0 <= j < bm_nbits b -> bit b j = true)) b.
Proof.
  intros Hwf. pose proof (bitmap_len_bounds b Hwf) as Hlen. unfold bitmap_alloc. wp_steps.
  apply (wp_for _ _ _ (fun ix b' => b' = b /\ forall j, 0 <= j < ix * 8 -> bit b j = true)).
  - split; [done|lia].
  - intros ix b' Hix [-> Hall]. rewrite <- (wf_len _ Hwf) in Hix.
    destruct (word_lookup b (ix * 8)) as (w & Hw & Hwr); [done|lia|].
    replace (ix * 8 / 8) with ix in Hw by zlia.
    wp_step. apply (wp_read_word ix w); [done|].
    destruct (w =? WORD_ALLBITS) eqn:Ew; simpl; boolify.
    + wp_step. split; [done|]. intros j Hj. destruct (decide (j < ix * 8)); [apply Hall; lia|].
      replace j with (ix * 8 + (j - ix * 8)) by lia. rewrite (bit_word b ix _ w) by (done || lia).
      subst w. change WORD_ALLBITS with (Z.ones 8). apply Z.ones_spec_low. lia.
    + wp_step. eapply wp_mono; [apply (alloc_word b ix w); [done|lia|done..]|].
      intros r b' (i & -> & Hi & Hdiv & Hbit & Hbelow & Hupd). do 2 wp_step.
      left. exists i. split_and!; [done|lia|lia|done| |done].
      intros j Hj. destruct (decide (j < ix * 8)); [apply Hall; lia|apply Hbelow; lia].
  - rewrite <- (wf_len _ Hwf). intros b' [-> Hall]. wp_step. right. split_and!; [done..|].
    intros j Hj. apply Hall. lia.
Qed.

(** ** [bitmap_mark], [bitmap_unmark], [bitmap_isset] *)

Lemma translate_spec i : 0 <= i -> bitmap_translate i = (i / 8, Z.shiftl 1 (i mod 8)).
Proof. intros Hi. unfold bitmap_translate, BITS_PER_WORD. rewrite mask_word; [done|zlia]. Qed.

Lemma bit_lookup b i w : bm_v b !! Z.to_nat (i / 8) = Some w -> bit b i = Z.testbit w (i mod 8).
Proof. unfold bit, BITS_PER_WORD. by intros ->. Qed.

Lemma bitmap_mark_spec b i :
  bitmap_wf b -> 0 <= i < bm_nbits b ->
  if bit b i then bitmap_mark i b = Panic
  else wp (bitmap_mark i) (fun _ b' => update_bit b b' i true) b.
Proof.
  intros Hwf Hi. pose proof (bitmap_len_bounds b Hwf).
  destruct (word_lookup b i) as (w & Hw & Hwr); [done|lia|].
  rewrite (bit_lookup b i w Hw). unfold bitmap_mark. rewrite translate_spec by lia.
  assert ((i <? bm_nbits b) = true) as Hlt by (apply Z.ltb_lt; lia).
  destruct (Z.testbit w (i mod 8)) eqn:Eb.
  - unfold bind, get, read_word, deref, kassert. rewrite Hlt. simpl. unfold bind, get. rewrite Hw. simpl.
    rewrite land_shiftl_1 by zlia. by rewrite Eb.
  - wp_steps. apply wp_kassert; [done|]. wp_steps. apply (wp_read_word _ w); [done|].
    wp_steps. apply wp_kassert; [rewrite land_shiftl_1 by zlia; by rewrite Eb|].
    apply (wp_write_word _ w); [done|]. apply (update_bit_word b i w); [done..| |].
    + apply (lor_lt _ _ 8); [lia|done|]. pose proof (shiftl_1_lt (i mod 8) 8). zlia.
    + intros j Hj. rewrite testbit_setbit by zlia.
      repeat case_bool_decide; subst; try done; by rewrite ?orb_true_r, ?orb_false_r.
Qed.

Lemma bitmap_unmark_spec b i :
  bitmap_wf b -> 0 <= i < bm_nbits b ->
  if bit b i then wp (bitmap_unmark i) (fun _ b' => update_bit b b' i false) b
  else bitmap_unmark i b = Panic.
Proof.
  intros Hwf Hi. pose proof (bitmap_len_bounds b Hwf).
  destruct (word_lookup b i) as (w & Hw & Hwr); [done|lia|].
  rewrite (bit_lookup b i w Hw). unfold bitmap_unmark. rewrite translate_spec by lia.
  assert ((i <? bm_nbits b) = true) as Hlt by (apply Z.ltb_lt; lia).
  destruct (Z.testbit w (i mod 8)) eqn:Eb.
  - wp_steps. apply wp_kassert; [done|]. wp_steps. apply (wp_read_word _ w); [done|].
    wp_steps. apply wp_kassert; [rewrite land_shiftl_1 by zlia; by rewrite Eb|].
    apply (wp_write_word _ w); [done|]. apply (update_bit_word b i w); [done..|apply u8_range|].
    intros j Hj. unfold u8. rewrite Z.mod_pow2_bits_low, Z.land_spec, Z.lnot_spec, testbit_shiftl_1 by zlia.
    repeat case_bool_decide; subst; try done; by rewrite ?andb_false_r, ?andb_true_r.
  - unfold bind, get, read_word, deref, kassert. rewrite Hlt. simpl. unfold bind, get. rewrite Hw. simpl.
    rewrite land_shiftl_1 by zlia. by rewrite Eb.
Qed.

Lemma bitmap_isset_spec b i :
  bitmap_wf b -> 0 <= i < bm_nbits b ->
  wp (bitmap_isset i) (fun r b' => b' = b /\ (r =? 0) = negb (bit b i)) b.
Proof.
  intros Hwf Hi. pose proof (bitmap_len_bounds b Hwf).
  destruct (word_lookup b i) as (w & Hw & Hwr); [done|lia|].
  unfold bitmap_isset. rewrite translate_spec by lia.
  wp_steps. apply (wp_read_word _ w); [done|]. wp_step. split; [done|].
  rewrite (bit_lookup b i w Hw). apply land_shiftl_1. zlia.
Qed.

(** ** [bitmap_create] *)

(** The words of a new bitmap while the leftover bits are being set: bits
    below [j] of the last word that are not leftover are clear. *)
Lemma bitmap_words_spec nbits p q :
  0 <= nbits < 2 ^ 32 - 7 ->
  wp (bitmap_words nbits) (fun _ b => bitmap_wf b /\ bm_nbits b = nbits /\ bm_ptr b = p /\ bm_vptr b = q /\
    forall i, 0 <= i < nbits -> bit b i = false) (Bitmap nbits [] p q).
Proof.
  intros Hn. pose proof (DIVROUNDUP_spec nbits 8) as Hw. unfold bitmap_words, BITS_PER_WORD.
  set (words := DIVROUNDUP nbits 8) in *.
  set (z := replicate (Z.to_nat words) 0).
  assert (0 <= words) as Hw0 by lia.
  assert (forall i, bit (Bitmap nbits z p q) i = false) as Hz.
  { intros i. unfold bit; simpl. destruct (z !! _) eqn:E; [|done].
    apply lookup_replicate in E as [-> _]. apply Z.bits_0. }
  wp_steps. cbn [bm_nbits bm_v bm_ptr bm_vptr]. fold z. destruct (nbits / 8 <? words) eqn:E; boolify.
  2:{ wp_step. split_and!; [|done..|auto]. constructor; simpl; [done| | |].
      - unfold z. rewrite length_replicate. unfold BITS_PER_WORD. fold words. lia.
      - apply Forall_replicate. lia.
      - unfold z. rewrite length_replicate. zlia. }
  rewrite (u32_id (words - 1)) by zlia. rewrite (u32_id ((words - 1) * 8)) by zlia.
  set (over := u32 (nbits - (words - 1) * 8)).
  assert (over = nbits - (words - 1) * 8) as Hov by (apply u32_id; zlia).
  assert (0 < over < 8) as Hr by zlia.
  wp_step. apply wp_kassert; [apply Z.eqb_eq; zlia|]. wp_step. apply wp_kassert; [apply andb_true_iff; rewrite !Z.ltb_lt; lia|].
  wp_step.
  apply (wp_for _ _ _ (fun j b => exists w, b = set_word (words - 1) w (Bitmap nbits z p q) /\ 0 <= w < 256 /\
     forall i, 0 <= i < 8 -> Z.testbit w i = (bool_decide (over <= i) && bool_decide (i < j))%bool)).
  - exists 0. split_and!; [|lia..|].
    + unfold set_word; simpl. f_equal. symmetry. apply list_insert_id. unfold z. apply lookup_replicate_2. lia.
    + intros i Hi. rewrite Z.bits_0. repeat case_bool_decide; simpl; lia || done.
  - intros j b Hj (w & -> & Hwr & Hbits).
    assert (bm_v (set_word (words - 1) w (Bitmap nbits z p q)) !! Z.to_nat (words - 1) = Some w) as Hl.
    { simpl. apply list_lookup_insert_eq. unfold z. rewrite length_replicate. lia. }
    wp_step. apply (wp_read_word _ w); [done|]. wp_step. apply (wp_write_word _ w); [done|]. wp_step.
    rewrite mask_word by lia. exists (u8 (Z.lor w (Z.shiftl 1 j))).
    split_and!; [unfold set_word; simpl; by rewrite list_insert_insert_eq|apply u8_range..|].
    intros i Hi. unfold u8. rewrite Z.mod_pow2_bits_low, testbit_setbit, Hbits by lia.
    repeat case_bool_decide; simpl; lia || done.
  - intros b (w & -> & Hwr & Hbits). wp_step.
    assert (length z = Z.to_nat words) as Hlen by (unfold z; apply length_replicate).
    assert (z !! Z.to_nat (words - 1) = Some 0) as Hl0 by (unfold z; apply lookup_replicate_2; lia).
    assert (forall i, 0 <= i < 8 * words -> bit (set_word (words - 1) w (Bitmap nbits z p q)) i = bool_decide (nbits <= i)) as Hbit.
    { intros i Hi. rewrite (bit_set_word _ _ 0) by (done || zlia). rewrite Hz.
      repeat case_bool_decide; try zlia; try done; rewrite Hbits by zlia; repeat case_bool_decide; simpl; zlia || done. }
    split_and!; [|done..|].
    + constructor; simpl; [done| | |].
      * rewrite length_insert, Hlen. unfold BITS_PER_WORD. fold words. lia.
      * apply Forall_insert; [|done]. unfold z. apply Forall_replicate. lia.
      * rewrite length_insert, Hlen. intros i Hi. rewrite Hbit by lia. apply bool_decide_eq_true_2. lia.
    + intros i Hi. rewrite Hbit by lia. apply bool_decide_eq_false_2. lia.
Qed.

Lemma abs_all_false b : (forall i, 0 <= i < bm_nbits b -> bit b i = false) ->
  abs b = replicate (Z.to_nat (bm_nbits b)) false.
Proof.
  intros H. unfold abs. symmetry. apply replicate_as_Forall_2; [by rewrite length_fmap, length_seqZ|].
  apply Forall_fmap, Forall_seqZ. intros i Hi. simpl. symmetry. apply H. lia.
Qed.

Lemma bitmap_create_spec {S} `{KMalloc S} (nbits : Z) (s : S) :
  0 <= nbits < 2 ^ 32 - 7 -> heap_ok s ->
  wp (bitmap_create nbits) (fun r s' => heap_side s s' /\
    match r with
    | None => heap_live s' = heap_live s
    | Some b => bitmap_wf b /\ abs b = replicate (Z.to_nat nbits) false /\
        heap_live s' = {[bm_vptr b]} ∪ ({[bm_ptr b]} ∪ heap_live s) /\
        bm_ptr b <> bm_vptr b /\ (bm_ptr b ∉ heap_live s) /\ (bm_vptr b ∉ heap_live s) /\
        bm_nbits b = nbits
    end) s.
Proof.
  intros Hn Hok. unfold bitmap_create. wp_step. wp_apply kmalloc_spec; [done|].
  intros p s1 [Hh1 [[-> Hs1]|(Hp & Hfp & Hs1)]]; [done|].
  rewrite (proj2 (Z.eqb_neq p 0)) by lia. wp_step. wp_apply kmalloc_spec; [heap_solve|].
  intros q s2 [Hh2 [[-> Hs2]|(Hq & Hfq & Hs2)]].
  - simpl. wp_step. wp_apply kfree_spec; [heap_solve|lia|set_solver|]. intros _ s3 [Hh3 Hs3]. wp_step.
    split; [heap_solve|]. by rewrite Hs3, Hs2, Hs1, live_alloc_free.
  - rewrite (proj2 (Z.eqb_neq q 0)) by lia.
    pose proof (bitmap_words_spec nbits p q Hn) as Hw. unfold wp in *.
    destruct (bitmap_words nbits _) as [[] b| | |]; [|done..].
    destruct Hw as (Hwf & Hnb & Hbp & Hbq & Hbits). subst. rewrite Hs1 in Hs2, Hfq. apply not_elem_of_union in Hfq as [Hpq Hfq].
    split; [heap_solve|]. split_and!; [done|by apply abs_all_false|done|set_solver|done..].
Qed.

(** ** Properties *)

(** Ten bits, the first three in use. *)
Definition ex_bitmap : bitmap := Bitmap 10 [7; 252] 1 2.

Lemma ex_bitmap_wf : bitmap_wf ex_bitmap.
Proof.
  constructor; simpl; [lia|done|by repeat constructor|]. intros i Hi.
  assert (i = 10 \/ i = 11 \/ i = 12 \/ i = 13 \/ i = 14 \/ i = 15) as Hc by lia.
  by destruct_or! Hc; subst.
Qed.

(** creating a bitmap of [nbits] bits either fails, and then leaves no
    heap block behind, or yields a well-formed bitmap whose [nbits] bits are
    all clear and which owns exactly two new heap blocks; it neither panics
    nor reads outside its words, whatever the heap does. *)
Theorem bitmap_create_correct {S} `{KMalloc S} (nbits : Z) (s : S) :
  0 <= nbits < 2 ^ 32 - 7 -> heap_ok s ->
  wp (bitmap_create nbits) (fun r s' => heap_side s s' /\
    match r with
    | None => heap_live s' = heap_live s
    | Some b => bitmap_wf b /\ abs b = replicate (Z.to_nat nbits) false /\
        heap_live s' = {[bm_vptr b]} ∪ ({[bm_ptr b]} ∪ heap_live s) /\
        bm_ptr b <> bm_vptr b /\ (bm_ptr b ∉ heap_live s) /\ (bm_vptr b ∉ heap_live s)
    end) s.
Proof.
  intros Hn Hok. wp_apply bitmap_create_spec; [done..|]. intros [b|] s' Hr; [|done].
  split; [apply Hr|]. split_and!; apply Hr.
Qed.

Lemma bitmap_create_correct_witness :
  wp (bitmap_create 10) (fun r _ => match r with None => False | Some b => bm_v b = [0; 252] end) (RefHeap ∅ []) /\
  wp (bitmap_create 10) (fun r s' =>
    match r with None => heap_live s' = ∅ | Some b => abs b = replicate 10 false end) (RefHeap ∅ []).
Proof.
  split; [by vm_compute|]. eapply wp_mono; [apply (bitmap_create_correct 10 (RefHeap ∅ [])); [lia|done]|].
  intros [b|] s' [_ Hr]; [|exact Hr]. destruct Hr as (_ & Ha & _). exact Ha.
Defined.


(** [bitmap_alloc] refines first fit on the list of booleans: it returns
    the index of the first clear bit and sets exactly that bit, or returns
    [ENOSPC] and changes nothing when every bit is set; no assertion of the
    loop can fail and the invariant is kept. *)
Theorem bitmap_alloc_refines (b : bitmap) :
  bitmap_wf b ->
  wp bitmap_alloc (fun r b' =>
    match list_find (fun x => x = false) (abs b) with
    | Some (i, _) => r = inr (Z.of_nat i) /\ abs b' = <[i := true]> (abs b) /\ bitmap_wf b'
    | None => r = inl ENOSPC /\ b' = b
    end) b.
Proof.
  intros Hwf. wp_apply bitmap_alloc_spec; [done|].
  intros r b' [(i & -> & Hi & Hb & Hbelow & Hupd)|(-> & -> & Hall)].
  - assert (list_find (fun x => x = false) (abs b) = Some (Z.to_nat i, false)) as ->.
    { apply list_find_Some. split_and!; [rewrite abs_lookup by lia; by rewrite Hb|done|].
      intros j y Hj Hlt. replace j with (Z.to_nat (Z.of_nat j)) in Hj by lia.
      rewrite abs_lookup in Hj by lia. rewrite Hbelow in Hj by lia. congruence. }
    split_and!; [f_equal; lia|by apply update_bit_abs|by destruct Hupd].
  - assert (list_find (fun x => x = false) (abs b) = None) as ->; [|done].
    apply list_find_None, Forall_lookup. intros j y Hj.
    assert (Z.of_nat j < bm_nbits b) by (apply lookup_lt_Some in Hj; unfold abs in Hj; rewrite length_fmap, length_seqZ in Hj; lia).
    replace j with (Z.to_nat (Z.of_nat j)) in Hj by lia. rewrite abs_lookup in Hj by lia. rewrite Hall in Hj by lia. congruence.
Qed.

Lemma bitmap_alloc_refines_witness :
  bitmap_wf ex_bitmap /\
  wp bitmap_alloc (fun r b' => r = inr 3 /\ abs b' = <[3%nat := true]> (abs ex_bitmap)) ex_bitmap.
Proof.
  split; [exact ex_bitmap_wf|]. eapply wp_mono; [apply (bitmap_alloc_refines ex_bitmap); exact ex_bitmap_wf|].
  assert (list_find (fun x => x = false) (abs ex_bitmap) = Some (3%nat, false)) as -> by by vm_compute.
  intros r b' (-> & Ha & _). by split.
Defined.


(** marking and unmarking act on one bit.  A clear bit can be marked:
    only that bit changes, [bitmap_isset] then sees it, and unmarking it
    restores every word of the bitmap; marking a set bit and unmarking a
    clear one stop in their assertions. *)
Theorem bitmap_mark_unmark (b : bitmap) (i : Z) :
  bitmap_wf b -> 0 <= i < bm_nbits b ->
  (bit b i = true -> bitmap_mark i b = Panic) /\
  (bit b i = false -> bitmap_unmark i b = Panic) /\
  (bit b i = false ->
   wp (bitmap_mark i) (fun _ b1 => abs b1 = <[Z.to_nat i := true]> (abs b) /\
     wp (bitmap_isset i) (fun r _ => r <> 0) b1 /\
     wp (bitmap_unmark i) (fun _ b2 => bm_v b2 = bm_v b) b1) b).
Proof.
  intros Hwf Hi. pose proof (bitmap_mark_spec b i Hwf Hi) as Hm. pose proof (bitmap_unmark_spec b i Hwf Hi) as Hu.
  split_and!; [intros E; by rewrite E in Hm|intros E; by rewrite E in Hu|]. intros E. rewrite E in Hm.
  wp_apply Hm. intros _ b1 Hupd. destruct (Hupd) as (Hwf1 & Hn1 & _ & _ & Hb1).
  assert (bit b1 i = true) as E1 by (rewrite Hb1 by lia; by rewrite bool_decide_eq_true_2).
  split_and!; [by apply update_bit_abs| |].
  - wp_apply bitmap_isset_spec; [done|lia|]. intros r b2 [_ Hr]. rewrite E1 in Hr. by apply Z.eqb_neq.
  - pose proof (bitmap_unmark_spec b1 i Hwf1) as Hu1. rewrite E1 in Hu1. wp_apply Hu1; [lia|].
    intros _ b2 (Hwf2 & Hn2 & _ & _ & Hb2). apply bm_v_ext; [done..|congruence|].
    intros j Hj. rewrite Hb2 by lia. case_bool_decide; [by subst|]. rewrite Hb1 by lia. by rewrite bool_decide_eq_false_2.
Qed.

Lemma bitmap_mark_unmark_witness :
  bitmap_mark 1 ex_bitmap = Panic /\ bitmap_unmark 5 ex_bitmap = Panic /\
  wp (bitmap_mark 5) (fun _ b1 => wp (bitmap_unmark 5) (fun _ b2 => bm_v b2 = [7; 252]) b1) ex_bitmap.
Proof.
  split_and!.
  - by apply (bitmap_mark_unmark ex_bitmap 1 ex_bitmap_wf).
  - by apply (bitmap_mark_unmark ex_bitmap 5 ex_bitmap_wf).
  - eapply wp_mono; [by apply (bitmap_mark_unmark ex_bitmap 5 ex_bitmap_wf)|].
    by intros _ b1 (_ & _ & Hu).
Defined.

