(* ===== verification/Array.v ===== *)
(** * Resizeable arrays (kern/lib/array.c, kern/include/array.h)

    The array of pointers used for the children of a process, the threads of
    a process, the CPUs and the device list.  A block is a list of cells; a
    cell that was never stored into is [None], and reading it is undefined. *)

From S2P Require Import Prelude KHeap.

Record array := Array {
  arr_v : list (option Z);   (* the cells of the block, [max] of them *)
  arr_vptr : Z;              (* the block, 0 for NULL *)
  arr_num : Z;
  arr_max : Z;
}.

Section ops.
Context {S : Type} `{KMalloc S}.

(** An operation runs on the heap and the array it is given. *)
Definition heapM {A} (m : M S A) : M (S * array) A := zoom fst (fun h s => (h, s.2)) m.
Definition set_arr (a : array) : M (S * array) unit := modify (fun s => (s.1, a)).
Definition get_arr : M (S * array) array := gets snd.

Definition array_init : M (S * array) unit := set_arr (Array [] 0 0 0).

(** The new array and its contents, [None] for NULL. *)
Definition array_create : M S (option (Z * array)) :=
  a <- kmalloc 12 ;;
  if a =? 0 then ret None else ret (Some (a, Array [] 0 0 0)).

Definition array_cleanup : M (S * array) unit :=
  a <- get_arr ;;
  kassert (arr_num a =? 0) ;;;
  heapM (kfree (arr_vptr a)) ;;;
  set_arr (Array [] 0 (arr_num a) (arr_max a)).

Definition array_destroy (ptr : Z) : M (S * array) unit :=
  array_cleanup ;;;
  heapM (kfree ptr).

(** [while (num > newmax) newmax = newmax ? newmax*2 : 4;]  32 doublings of
    a 32-bit counter are enough: [grow_ok] below. *)
Definition grow (num newmax : Z) : M (S * array) Z :=
  loop_ 33 newmax (fun newmax =>
    if newmax <? num then ret (inl (if newmax =? 0 then 4 else u32 (newmax * 2)))
    else ret (inr newmax)).

Definition array_preallocate (num : Z) : M (S * array) Z :=
  a <- get_arr ;;
  if arr_max a <? num then
    newmax <- grow num (arr_max a) ;;
    newptr <- heapM (kmalloc (u32 (newmax * 4))) ;;
    if newptr =? 0 then ret ENOMEM else
    let n := Z.to_nat (arr_num a) in
    let cells := take n (arr_v a) ++ replicate (Z.to_nat newmax - n) None in
    heapM (kfree (arr_vptr a)) ;;;
    set_arr (Array cells newptr (arr_num a) newmax) ;;;
    ret 0
  else ret 0.

Definition array_setsize (num : Z) : M (S * array) Z :=
  result <- array_preallocate num ;;
  if negb (result =? 0) then ret result else
  a <- get_arr ;;
  set_arr (Array (arr_v a) (arr_vptr a) num (arr_max a)) ;;;
  ret 0.

Definition array_num : M (S * array) Z := a <- get_arr ;; ret (arr_num a).

Definition array_get (index : Z) : M (S * array) Z :=
  a <- get_arr ;;
  kassert (index <? arr_num a) ;;;
  c <- deref (arr_v a !! Z.to_nat index) ;;
  deref c.

(** [a->v[index] = val]. *)
Definition array_store (index val : Z) : M (S * array) unit :=
  a <- get_arr ;;
  _ <- deref (arr_v a !! Z.to_nat index) ;;
  set_arr (Array (<[Z.to_nat index := Some val]> (arr_v a)) (arr_vptr a) (arr_num a) (arr_max a)).

Definition array_set (index val : Z) : M (S * array) unit :=
  a <- get_arr ;;
  kassert (index <? arr_num a) ;;;
  array_store index val.

(** [array_add] returns the index it stored at (the [index_ret] argument). *)
Definition array_add (val : Z) : M (S * array) (err Z) :=
  a <- get_arr ;;
  let index := arr_num a in
  ret_ <- array_setsize (u32 (index + 1)) ;;
  if negb (ret_ =? 0) then ret (inl ret_) else
  array_store index val ;;;
  ret (inr index).

Definition array_remove (index : Z) : M (S * array) unit :=
  a <- get_arr ;;
  kassert (arr_num a <=? arr_max a) ;;;
  kassert (index <? arr_num a) ;;;
  let i := Z.to_nat index in
  let num_to_move := Z.to_nat (u32 (arr_num a - (index + 1))) in
  let moved := take num_to_move (drop (i + 1) (arr_v a)) in
  let cells := take i (arr_v a) ++ moved ++ drop (i + num_to_move) (arr_v a) in
  set_arr (Array cells (arr_vptr a) (u32 (arr_num a - 1)) (arr_max a)).

(** ** The invariant and the abstraction to a list of pointers *)

Record array_wf (a : array) : Prop := {
  aw_len : Z.of_nat (length (arr_v a)) = arr_max a;
  aw_num : 0 <= arr_num a <= arr_max a;
  aw_max : arr_max a < 2 ^ 30;
  aw_ptr : arr_vptr a = 0 <-> arr_max a = 0;
}.

(** [a] holds the pointers [l]. *)
Definition holds (a : array) (l : list Z) : Prop :=
  array_wf a /\ take (Z.to_nat (arr_num a)) (arr_v a) = Some <$> l.

(** The array's block is its own among the live blocks [L] of the rest. *)
Definition owns (h : S) (a : array) (L : gset Z) : Prop :=
  heap_ok h /\ (arr_vptr a <> 0 -> arr_vptr a ∉ L) /\ 0 <= arr_vptr a /\
  heap_live h = (if bool_decide (arr_vptr a = 0) then L else {[arr_vptr a]} ∪ L).

Lemma holds_num a l : holds a l -> arr_num a = Z.of_nat (length l).
Proof.
  intros [[Hlen Hnum _ _] Hl]. apply (f_equal length) in Hl.
  rewrite length_take, length_fmap in Hl. lia.
Qed.

Lemma holds_lookup a l i : holds a l -> 0 <= i < arr_num a ->
  arr_v a !! Z.to_nat i = Some <$> l !! Z.to_nat i.
Proof.
  intros [_ Hl] Hi. rewrite <- (list_lookup_fmap Some), <- Hl. rewrite lookup_take_lt; [done|lia].
Qed.

(** ** Growth *)

(** The loop ends with a capacity that is enough, and at most twice what was
    asked for (or the initial 4). *)
Lemma grow_ok num newmax s :
  0 <= newmax -> 0 <= num < 2 ^ 29 -> newmax < 2 ^ 30 ->
  wp (grow num newmax) (fun m s' => s' = s /\ num <= m < 2 ^ 30 /\ newmax <= m) s.
Proof.
  intros Hm Hn Hm'. unfold grow.
  apply (wp_loop _ _ _
    (fun m s' => s' = s /\ 0 <= m < 2 ^ 30 /\ newmax <= m)
    (fun m _ => if m <? num then Z.to_nat (31 - Z.log2 m) else 0%nat)).
  - split_and!; [done|lia..].
  - destruct (newmax <? num); pose proof (Z.log2_nonneg newmax); lia.
  - intros m s' (-> & Hr & Hle). destruct (m <? num) eqn:E; boolify.
    + apply wp_ret. destruct (m =? 0) eqn:E0; boolify.
      * subst m. split; [split_and!; [done|lia..]|]. change (Z.log2 0) with 0. change (Z.log2 4) with 2. case_match; lia.
      * rewrite u32_id by lia. split; [split_and!; [done|lia..]|].
        assert (Z.log2 m < 30) by (apply Z.log2_lt_pow2; lia). pose proof (Z.log2_nonneg m).
        rewrite Z.mul_comm, Z.log2_double by lia. case_match; lia.
    + apply wp_ret. split_and!; [done|lia..].
Qed.
End ops.

Section specs.
Context {S : Type} `{KMalloc S}.
Implicit Types h : S.

(** Making room keeps the contents; when the heap refuses, nothing changes. *)
Lemma array_preallocate_spec h a l L num :
  holds a l -> owns h a L -> 0 <= num < 2 ^ 29 ->
  wp (array_preallocate num) (fun r s' => heap_side h s'.1 /\
    ((r = ENOMEM /\ s'.2 = a /\ owns s'.1 a L /\ arr_max a < num) \/
     (r = 0 /\ holds s'.2 l /\ owns s'.1 s'.2 L /\ num <= arr_max s'.2))) (h, a).
Proof.
  intros Hh (Hhok & HpL & Hp0 & Hlive) Hn. pose proof (holds_num a l Hh) as Hnum.
  destruct (Hh) as [[Hlen Hnm Hmax Hptr] Hl]. unfold array_preallocate, get_arr, heapM. wp_steps. cbn [snd]. wp_step; boolify.
  2:{ wp_step. split; [reflexivity|]. right. cbn [fst snd]. split_and!; [done..|lia]. }
  wp_step. wp_apply grow_ok; [lia..|]. intros m s' (-> & Hm & _). wp_steps. cbn [fst].
  wp_apply kmalloc_spec; [done|]. intros p h1 [Hh1 [[-> H1]|(Hpp & Hfr & H1)]]; cbn [fst snd].
  - simpl. wp_step. split; [heap_solve|]. left. split_and!; [done..| |lia]. unfold owns. simpl.
    rewrite H1. split; [heap_solve|done].
  - rewrite (proj2 (Z.eqb_neq p 0)) by lia. wp_steps. cbn [fst snd].
    assert (wp (kfree (arr_vptr a)) (fun _ h2 => heap_side h1 h2 /\ heap_live h2 = {[p]} ∪ L) h1) as Hfree.
    { destruct (decide (arr_vptr a = 0)) as [E|E].
      - rewrite E. wp_apply kfree_null; [heap_solve|]. intros _ h2 [Hh2 ->]. split; [done|]. rewrite H1, Hlive. by rewrite bool_decide_eq_true_2.
      - rewrite bool_decide_eq_false_2 in Hlive by done. wp_apply kfree_spec; [heap_solve|done|set_solver|].
        intros _ h2 [Hh2 ->]. split; [done|]. rewrite H1, Hlive in *. set_solver. }
    wp_apply Hfree. intros _ h2 [Hh2 H2]. unfold set_arr. wp_steps. cbn [fst snd]. split; [heap_solve|]. right.
    assert (length (take (Z.to_nat (arr_num a)) (arr_v a)) = Z.to_nat (arr_num a)) as Htk by (rewrite length_take; lia).
    split_and!; [done| | |simpl; lia].
    + split; [constructor; simpl; [rewrite length_app, Htk, length_replicate|..]; lia|]. simpl.
      rewrite take_app_le by lia. rewrite <- Hl at 1. by rewrite take_take, Nat.min_id.
    + unfold owns. simpl. rewrite H2, bool_decide_eq_false_2 by lia. split_and!; [heap_solve| |lia|done].
      rewrite Hlive in Hfr. case_bool_decide; set_solver.
Qed.

Lemma array_setsize_spec h a l L num :
  holds a l -> owns h a L -> arr_num a <= num < 2 ^ 29 ->
  wp (array_setsize num) (fun r s' => heap_side h s'.1 /\
    ((r = ENOMEM /\ s'.2 = a /\ owns s'.1 a L /\ arr_max a < num) \/
     (r = 0 /\ array_wf s'.2 /\ arr_num s'.2 = num /\
      take (Z.to_nat (arr_num a)) (arr_v s'.2) = Some <$> l /\ owns s'.1 s'.2 L))) (h, a).
Proof.
  intros Hh Ho Hn. destruct (Hh) as [[? ? ? ?] ?]. pose proof (holds_num a l Hh) as Hnum.
  unfold array_setsize. wp_step. wp_apply array_preallocate_spec; [done..|lia|].
  intros r [h1 a1] [Hs [(-> & E & Ho1 & Hlt)|(-> & Hh1 & Ho1 & Hle)]]; simpl in *; [subst|].
  - wp_step. split; [done|]. left. done.
  - unfold get_arr, set_arr. wp_steps. split; [done|]. right. simpl.
    pose proof (holds_num a1 l Hh1). destruct Hh1 as [[? ? ? ?] Hl1].
    split_and!; [done|constructor; simpl; lia || done|done| |done]. by replace (arr_num a) with (arr_num a1) by lia.
Qed.

Lemma array_add_spec h a l L x :
  holds a l -> owns h a L -> arr_num a < 2 ^ 29 - 1 ->
  wp (array_add x) (fun r s' => heap_side h s'.1 /\
    ((r = inl ENOMEM /\ s'.2 = a /\ owns s'.1 a L /\ arr_max a = arr_num a) \/
     (r = inr (Z.of_nat (length l)) /\ holds s'.2 (l ++ [x]) /\ owns s'.1 s'.2 L))) (h, a).
Proof.
  intros Hh Ho Hn. destruct (Hh) as [[? ? ? ?] ?]. pose proof (holds_num a l Hh) as Hnum.
  unfold array_add, get_arr. wp_steps. cbn [snd]. rewrite u32_id by lia.
  wp_apply array_setsize_spec; [done..|lia|].
  intros r [h1 a1] [Hs [(-> & E & Ho1 & Hlt)|(-> & Hwf1 & Hn1 & Hl1 & Ho1)]]; simpl in *; [subst|].
  - wp_step. split; [done|]. left. split_and!; [done..|lia].
  - destruct Hwf1 as [Hlen1 Hnm1 Hmax1 Hptr1].
    unfold array_store, get_arr, set_arr. wp_steps. cbn [snd].
    destruct (lookup_lt_is_Some_2 (arr_v a1) (Z.to_nat (arr_num a))) as [c Hc]; [lia|].
    apply (wp_deref _ c); [done|]. wp_steps. split; [done|]. right. cbn [fst snd]. split_and!; [by rewrite <- Hnum| |done].
    split; [constructor; simpl; [by rewrite length_insert|done..]|]. simpl. rewrite Hn1.
    replace (Z.to_nat (arr_num a + 1)) with (Datatypes.S (Z.to_nat (arr_num a))) by lia.
    rewrite (take_S_r _ _ (Some x)) by (apply list_lookup_insert_eq; lia).
    rewrite take_insert_ge by lia. by rewrite Hl1, fmap_app.
Qed.

Lemma array_get_spec h a l i x :
  holds a l -> 0 <= i -> l !! Z.to_nat i = Some x ->
  wp (array_get i) (fun r s' => r = x /\ s' = (h, a)) (h, a).
Proof.
  intros Hh Hi Hx. pose proof (holds_num a l Hh). pose proof (lookup_lt_Some _ _ _ Hx).
  unfold array_get, get_arr. wp_steps. apply wp_kassert; [apply Z.ltb_lt; simpl; lia|].
  wp_steps. cbn [snd]. apply (wp_deref _ (Some x)); [rewrite (holds_lookup a l) by (done || lia); by rewrite Hx|].
  by apply (wp_deref _ x).
Qed.

Lemma array_remove_spec h a l L i :
  holds a l -> owns h a L -> 0 <= i < Z.of_nat (length l) ->
  wp (array_remove i) (fun _ s' =>
    holds s'.2 (delete (Z.to_nat i) l) /\ owns s'.1 s'.2 L /\ s'.1 = h) (h, a).
Proof.
  intros Hh Ho Hi. pose proof (holds_num a l Hh) as Hnum. destruct (Hh) as [[Hlen Hnm Hmax Hptr] Hl].
  unfold array_remove, get_arr. wp_steps. cbn [snd].
  apply wp_kassert; [apply Z.leb_le; lia|]. wp_step. apply wp_kassert; [apply Z.ltb_lt; lia|].
  unfold set_arr. wp_steps. cbn [fst snd]. rewrite !u32_id by lia.
  set (n := Z.to_nat i). replace (Z.to_nat (arr_num a - (i + 1))) with (Z.to_nat (arr_num a) - n - 1)%nat by lia.
  set (k := (Z.to_nat (arr_num a) - n - 1)%nat).
  split_and!; [|done..].
  assert (n < Z.to_nat (arr_num a))%nat as Hn by lia.
  split.
  - constructor; simpl; [|lia|done|done].
    rewrite !length_app, !length_take, !length_drop. lia.
  - simpl. replace (Z.to_nat (arr_num a - 1)) with (n + k)%nat by lia.
    rewrite app_assoc, take_app_le by (rewrite length_app, !length_take, length_drop; lia).
    rewrite take_ge by (rewrite length_app, !length_take, length_drop; lia).
    rewrite delete_take_drop, fmap_app, fmap_take, fmap_drop, <- Hl. f_equal.
    + rewrite take_take. f_equal. lia.
    + rewrite skipn_firstn_comm. replace (n + 1)%nat with (Datatypes.S n) by lia. f_equal. lia.
Qed.
End specs.

(** ** Properties *)

(** A full array of four pointers in block 9 of the reference heap. *)
Definition ex_array : array := Array [Some 11; Some 12; Some 13; Some 14] 9 4 4.
Definition ex_heap : ref_heap := RefHeap {[9]} [].

Lemma ex_array_holds : holds ex_array [11; 12; 13; 14].
Proof. split; [constructor; simpl; lia|done]. Qed.

Lemma ex_array_owns : owns ex_heap ex_array ∅.
Proof. split_and!; [done|set_solver|done|done]. Qed.

(** appending to an array either fails with [ENOMEM], possible only when
    the array is full, and leaves array and heap ownership as they were, or
    stores the pointer after the existing ones at the index it returns, where
    [array_get] then finds it; growing the block neither loses an element
    nor leaks the old block. *)
Theorem array_add_correct {S} `{KMalloc S} (h : S) (a : array) (l : list Z) (L : gset Z) (x : Z) :
  holds a l -> owns h a L -> arr_num a < 2 ^ 29 - 1 ->
  wp (array_add x) (fun r s' =>
    owns s'.1 s'.2 L /\
    ((r = inl ENOMEM /\ s'.2 = a /\ arr_max a = arr_num a) \/
     (r = inr (Z.of_nat (length l)) /\ holds s'.2 (l ++ [x]) /\
      wp (array_get (Z.of_nat (length l))) (fun y s2 => y = x /\ s2 = s') s'))) (h, a).
Proof.
  intros Hh Ho Hn. wp_apply array_add_spec; [done..|].
  intros r [h1 a1] [_ [(-> & E & Ho1 & Hm)|(-> & Hh1 & Ho1)]]; simpl in *; [subst; split; [done|]; left; done|split; [done|]; right].
  split_and!; [done..|]. apply (array_get_spec h1 a1 (l ++ [x])); [done|lia|].
  rewrite Nat2Z.id, lookup_app_r, Nat.sub_diag by lia. done.
Qed.

Lemma array_add_correct_witness :
  wp (array_add 15) (fun r s' => r = inr 4 /\ arr_max s'.2 = 8) (ex_heap, ex_array) /\
  wp (array_add 15) (fun r s' => owns s'.1 s'.2 ∅) (ex_heap, ex_array).
Proof.
  split; [by vm_compute|].
  eapply wp_mono; [apply (array_add_correct ex_heap ex_array [11; 12; 13; 14] ∅ 15);
    [exact ex_array_holds|exact ex_array_owns|simpl; lia]|].
  by intros r s' [Ho _].
Defined.


(** removing an entry slides the later ones down: the array then holds
    the list without that element, in the same order, in the same block; an
    index out of range stops in the assertion. *)
Theorem array_remove_correct {S} `{KMalloc S} (h : S) (a : array) (l : list Z) (L : gset Z) (i : Z) :
  holds a l -> owns h a L -> 0 <= i ->
  if decide (i < Z.of_nat (length l)) then
    wp (array_remove i) (fun _ s' =>
      holds s'.2 (delete (Z.to_nat i) l) /\ owns s'.1 s'.2 L) (h, a)
  else array_remove i (h, a) = Panic.
Proof.
  intros Hh Ho Hi. case_decide as Hlt.
  - wp_apply array_remove_spec; [done..|]. naive_solver.
  - pose proof (holds_num a l Hh) as Hnum. destruct (Hh) as [[_ Hnm _ _] _].
    unfold array_remove, get_arr, gets, bind, kassert. cbn [snd].
    rewrite (proj2 (Z.leb_le _ _)) by lia. simpl. by rewrite (proj2 (Z.ltb_ge _ _)) by lia.
Qed.

Lemma array_remove_correct_witness :
  wp (array_remove 1) (fun _ s' => holds s'.2 [11; 13; 14]) (ex_heap, ex_array) /\
  array_remove 4 (ex_heap, ex_array) = Panic.
Proof.
  split.
  - eapply wp_mono; [apply (array_remove_correct ex_heap ex_array [11; 12; 13; 14] ∅ 1);
      [exact ex_array_holds|exact ex_array_owns|lia]|]. by intros _ s' [Hh _].
  - apply (array_remove_correct ex_heap ex_array [11; 12; 13; 14] ∅ 4);
      [exact ex_array_holds|exact ex_array_owns|lia].
Defined.

