(* ===== verification/Threadlist.v ===== *)
(** * Thread lists (kern/thread/threadlist.c)

    The doubly linked lists with two bookend nodes that hold run queues and
    wait channels, at the level of their pointers: a store of list nodes, the
    operations as the code writes them, and their refinement to operations
    on plain lists of threads. *)

From S2P Require Import Prelude.

(** The address of a [struct threadlistnode]: the two bookends of a list and
    the [t_listnode] inside a thread. *)
Inductive loc : Type :=
| tl_head (tl : Z)
| tl_tail (tl : Z)
| t_listnode (t : Z).

#[export] Instance loc_eq_dec : EqDecision loc.
Proof. solve_decision. Defined.

#[export] Instance loc_countable : Countable loc.
Proof.
  refine (inj_countable'
    (fun l => match l with tl_head t => inl (inl t) | tl_tail t => inl (inr t) | t_listnode t => inr t end)
    (fun x => match x with inl (inl t) => tl_head t | inl (inr t) => tl_tail t | inr t => t_listnode t end) _).
  by intros [].
Defined.

Record threadlistnode := Tln {
  tln_prev : option loc;
  tln_next : option loc;
  tln_self : option Z;
}.

(** The nodes of the kernel and the [tl_count] field of every list. *)
Record tlstore := Tlstore {
  nodes : gmap loc threadlistnode;
  tl_count : gmap Z Z;
}.

(** ** Reading and writing nodes *)

Definition node_at (l : loc) : M tlstore threadlistnode :=
  s <- get ;; deref (nodes s !! l).

Definition set_node (l : loc) (n : threadlistnode) : M tlstore unit :=
  modify (fun s => Tlstore (<[l := n]> (nodes s)) (tl_count s)).

(** A pointer is followed only if it is not [NULL]. *)
Definition ptr (p : option loc) : M tlstore loc := deref p.

Definition set_prev (l : loc) (p : option loc) : M tlstore unit :=
  n <- node_at l ;; set_node l (Tln p (tln_next n) (tln_self n)).

Definition set_next (l : loc) (p : option loc) : M tlstore unit :=
  n <- node_at l ;; set_node l (Tln (tln_prev n) p (tln_self n)).

Definition count_of (tl : Z) : M tlstore Z :=
  s <- get ;; deref (tl_count s !! tl).

Definition set_count (tl : Z) (c : Z) : M tlstore unit :=
  modify (fun s => Tlstore (nodes s) (<[tl := c]> (tl_count s))).

(** ** The operations *)

Definition threadlistnode_init (t : Z) : M tlstore unit :=
  set_node (t_listnode t) (Tln None None (Some t)).

Definition threadlistnode_cleanup (t : Z) : M tlstore unit :=
  n <- node_at (t_listnode t) ;;
  kassert (bool_decide (tln_next n = None)) ;;;
  kassert (bool_decide (tln_prev n = None)) ;;;
  kassert (negb (bool_decide (tln_self n = None))).

Definition threadlist_init (tl : Z) : M tlstore unit :=
  set_node (tl_head tl) (Tln None (Some (tl_tail tl)) None) ;;;
  set_node (tl_tail tl) (Tln (Some (tl_head tl)) None None) ;;;
  set_count tl 0.

Definition threadlist_isempty (tl : Z) : M tlstore bool :=
  c <- count_of tl ;; ret (c =? 0).

Definition threadlist_cleanup (tl : Z) : M tlstore unit :=
  e <- threadlist_isempty tl ;;
  kassert e ;;;
  c <- count_of tl ;;
  kassert (c =? 0).

Definition threadlist_insertafternode (onlist : loc) (t : Z) : M tlstore unit :=
  let addee := t_listnode t in
  set_prev addee (Some onlist) ;;;
  n <- node_at onlist ;;
  set_next addee (tln_next n) ;;;
  a <- node_at addee ;;
  p <- ptr (tln_prev a) ;;
  set_next p (Some addee) ;;;
  a <- node_at addee ;;
  q <- ptr (tln_next a) ;;
  set_prev q (Some addee).

Definition threadlist_insertbeforenode (t : Z) (onlist : loc) : M tlstore unit :=
  let addee := t_listnode t in
  n <- node_at onlist ;;
  set_prev addee (tln_prev n) ;;;
  set_next addee (Some onlist) ;;;
  a <- node_at addee ;;
  p <- ptr (tln_prev a) ;;
  set_next p (Some addee) ;;;
  a <- node_at addee ;;
  q <- ptr (tln_next a) ;;
  set_prev q (Some addee).

Definition threadlist_removenode (tln : loc) : M tlstore unit :=
  n <- node_at tln ;;
  p <- ptr (tln_prev n) ;;
  set_next p (tln_next n) ;;;
  n <- node_at tln ;;
  q <- ptr (tln_next n) ;;
  set_prev q (tln_prev n) ;;;
  set_prev tln None ;;;
  set_next tln None.

(** [tl->tl_count++] and [tl->tl_count--] on an unsigned. *)
Definition count_incr (tl : Z) : M tlstore unit :=
  c <- count_of tl ;; set_count tl (u32 (c + 1)).
Definition count_decr (tl : Z) : M tlstore unit :=
  c <- count_of tl ;; set_count tl (u32 (c - 1)).

Definition threadlist_addhead (tl t : Z) : M tlstore unit :=
  threadlist_insertafternode (tl_head tl) t ;;;
  count_incr tl.

Definition threadlist_addtail (tl t : Z) : M tlstore unit :=
  threadlist_insertbeforenode t (tl_tail tl) ;;;
  count_incr tl.

Definition threadlist_remhead (tl : Z) : M tlstore (option Z) :=
  h <- node_at (tl_head tl) ;;
  tln <- ptr (tln_next h) ;;
  n <- node_at tln ;;
  if bool_decide (tln_next n = None) then ret None else
  threadlist_removenode tln ;;;
  count_decr tl ;;;
  n <- node_at tln ;;
  ret (tln_self n).

Definition threadlist_remtail (tl : Z) : M tlstore (option Z) :=
  h <- node_at (tl_tail tl) ;;
  tln <- ptr (tln_prev h) ;;
  n <- node_at tln ;;
  if bool_decide (tln_prev n = None) then ret None else
  threadlist_removenode tln ;;;
  count_decr tl ;;;
  n <- node_at tln ;;
  ret (tln_self n).

Definition threadlist_insertafter (tl onlist addee : Z) : M tlstore unit :=
  threadlist_insertafternode (t_listnode onlist) addee ;;;
  count_incr tl.

Definition threadlist_insertbefore (tl addee onlist : Z) : M tlstore unit :=
  threadlist_insertbeforenode addee (t_listnode onlist) ;;;
  count_incr tl.

Definition threadlist_remove (tl t : Z) : M tlstore unit :=
  threadlist_removenode (t_listnode t) ;;;
  count_decr tl.

(** ** Segments

    [seg N p ls q]: the nodes [ls] are linked in this order, the first one's
    [prev] is [p] and the last one's [next] is [q]. *)

Definition self_of (l : loc) : option Z :=
  match l with t_listnode t => Some t | _ => None end.

Definition fst_or (ls : list loc) (q : option loc) : option loc :=
  match ls with x :: _ => Some x | [] => q end.

Definition last_or (p : option loc) (ls : list loc) : option loc :=
  match last ls with Some x => Some x | None => p end.

Fixpoint seg (N : gmap loc threadlistnode) (p : option loc) (ls : list loc) (q : option loc) : Prop :=
  match ls with
  | [] => True
  | x :: ls' => N !! x = Some (Tln p (fst_or ls' q) (self_of x)) /\ seg N (Some x) ls' q
  end.

(** The nodes of list [tl] when it holds the threads [l]. *)
Definition chain (tl : Z) (l : list Z) : list loc :=
  tl_head tl :: (t_listnode <$> l) ++ [tl_tail tl].

(** [tl] holds the threads [l]. *)
Record on_list (s : tlstore) (tl : Z) (l : list Z) : Prop := {
  ol_seg : seg (nodes s) None (chain tl l) None;
  ol_nodup : NoDup l;
  ol_count : tl_count s !! tl = Some (Z.of_nat (length l));
  ol_bound : Z.of_nat (length l) < 2 ^ 32;
}.

(** A thread that is on no list: initialised, not linked. *)
Definition off_list (s : tlstore) (t : Z) : Prop :=
  nodes s !! t_listnode t = Some (Tln None None (Some t)).

Lemma seg_app N p l1 l2 q :
  seg N p (l1 ++ l2) q <-> seg N p l1 (fst_or l2 q) /\ seg N (last_or p l1) l2 q.
Proof.
  revert p. induction l1 as [|x l1 IH]; intros p; simpl; [naive_solver|].
  rewrite IH. assert (fst_or (l1 ++ l2) q = fst_or l1 (fst_or l2 q)) as -> by by destruct l1.
  assert (last_or (Some x) l1 = last_or p (x :: l1)) as -> by (unfold last_or; destruct l1 as [|y l1]; [done|]; by rewrite last_cons_cons; destruct (last (y :: l1)) eqn:E; [|by apply last_None in E]).
  naive_solver.
Qed.

(** A write outside a segment leaves it alone. *)
Lemma seg_frame N p ls q x n : x ∉ ls -> seg N p ls q -> seg (<[x := n]> N) p ls q.
Proof.
  revert p. induction ls as [|y ls IH]; intros p Hx; simpl; [done|].
  apply not_elem_of_cons in Hx as [Hne Hx]. intros [Hy Hs]. rewrite lookup_insert_ne by done. eauto.
Qed.

Lemma chain_nodup tl l : NoDup l -> NoDup (chain tl l).
Proof.
  intros Hl. unfold chain. apply NoDup_cons. split.
  - rewrite elem_of_app, list_elem_of_fmap, list_elem_of_singleton. naive_solver.
  - apply NoDup_app. split_and!; [by apply NoDup_fmap_2; [intros ?? [=]|]| |apply NoDup_singleton].
    intros x (y & -> & Hy)%list_elem_of_fmap. by rewrite list_elem_of_singleton.
Qed.

Lemma off_list_not_on s tl l t : on_list s tl l -> off_list s t -> t ∉ l.
Proof.
  intros [Hs _ _ _] Ho Ht. apply list_elem_of_split in Ht as (l1 & l2 & ->).
  unfold chain in Hs. rewrite fmap_app, fmap_cons in Hs. rewrite <- app_assoc, app_comm_cons, seg_app in Hs.
  destruct Hs as [_ [Hn _]]. unfold off_list in Ho. rewrite Ho in Hn. injection Hn as Hp Hq.
  by destruct l2.
Qed.

(** ** The pointer surgery *)

Lemma wp_node_at l n Q s : nodes s !! l = Some n -> Q n s -> wp (node_at l) Q s.
Proof. intros Hn HQ. unfold node_at. wp_steps. by apply (wp_deref _ n). Qed.

Lemma wp_set_prev l n p Q s : nodes s !! l = Some n ->
  Q tt (Tlstore (<[l := Tln p (tln_next n) (tln_self n)]> (nodes s)) (tl_count s)) -> wp (set_prev l p) Q s.
Proof. intros Hn HQ. unfold set_prev. wp_step. apply (wp_node_at l n); [done|]. unfold set_node. by wp_steps. Qed.

Lemma wp_set_next l n p Q s : nodes s !! l = Some n ->
  Q tt (Tlstore (<[l := Tln (tln_prev n) p (tln_self n)]> (nodes s)) (tl_count s)) -> wp (set_next l p) Q s.
Proof. intros Hn HQ. unfold set_next. wp_step. apply (wp_node_at l n); [done|]. unfold set_node. by wp_steps. Qed.

(** Evaluate a straight-line sequence of node accesses. *)
Ltac node_steps :=
  repeat first
    [ progress wp_steps
    | progress unfold ptr
    | eapply wp_node_at; [simpl; by simplify_map_eq|]
    | eapply wp_set_prev; [simpl; by simplify_map_eq|]
    | eapply wp_set_next; [simpl; by simplify_map_eq|]
    | eapply wp_deref; [simpl; reflexivity|] ].

(** The store with [a] linked between [x] and [y], and with [a] unlinked. *)
Definition linked (N : gmap loc threadlistnode) (x a y : loc) (nx na ny : threadlistnode) :=
  <[y := Tln (Some a) (tln_next ny) (tln_self ny)]>
  (<[x := Tln (tln_prev nx) (Some a) (tln_self nx)]>
  (<[a := Tln (Some x) (Some y) (tln_self na)]> N)).

Definition unlinked (N : gmap loc threadlistnode) (x a y : loc) (nx na ny : threadlistnode) :=
  <[a := Tln None None (tln_self na)]>
  (<[y := Tln (Some x) (tln_next ny) (tln_self ny)]>
  (<[x := Tln (tln_prev nx) (Some y) (tln_self nx)]> N)).

Lemma insertafternode_links s x t y nx na ny :
  nodes s !! x = Some nx -> nodes s !! t_listnode t = Some na -> nodes s !! y = Some ny ->
  tln_next nx = Some y -> x <> y -> x <> t_listnode t -> y <> t_listnode t ->
  wp (threadlist_insertafternode x t) (fun _ s' =>
    s' = Tlstore (linked (nodes s) x (t_listnode t) y nx na ny) (tl_count s)) s.
Proof.
  intros Hx Ha Hy Hn Hxy Hxa Hya. unfold threadlist_insertafternode. node_steps.
  rewrite Hn in *. simpl. node_steps. unfold linked. by rewrite insert_insert_eq.
Qed.

Lemma insertbeforenode_links s x t y nx na ny :
  nodes s !! x = Some nx -> nodes s !! t_listnode t = Some na -> nodes s !! y = Some ny ->
  tln_prev ny = Some x -> x <> y -> x <> t_listnode t -> y <> t_listnode t ->
  wp (threadlist_insertbeforenode t y) (fun _ s' =>
    s' = Tlstore (linked (nodes s) x (t_listnode t) y nx na ny) (tl_count s)) s.
Proof.
  intros Hx Ha Hy Hn Hxy Hxa Hya. unfold threadlist_insertbeforenode. node_steps.
  rewrite Hn in *. simpl. node_steps. unfold linked. by rewrite insert_insert_eq.
Qed.

Lemma removenode_links s x a y nx na ny :
  nodes s !! x = Some nx -> nodes s !! a = Some na -> nodes s !! y = Some ny ->
  tln_prev na = Some x -> tln_next na = Some y -> x <> y -> x <> a -> y <> a ->
  wp (threadlist_removenode a) (fun _ s' =>
    s' = Tlstore (unlinked (nodes s) x a y nx na ny) (tl_count s)) s.
Proof.
  intros Hx Ha Hy Hp Hn Hxy Hxa Hya. unfold threadlist_removenode. node_steps.
  rewrite Hp in *. node_steps. rewrite Hn in *. node_steps. unfold unlinked. simpl.
  by rewrite insert_insert_eq, Hp.
Qed.

(** ** Segments under insertion and removal *)

Lemma seg_middle N p l1 x y l2 q :
  seg N p (l1 ++ x :: y :: l2) q <->
  seg N p l1 (Some x) /\ N !! x = Some (Tln (last_or p l1) (Some y) (self_of x)) /\
  N !! y = Some (Tln (Some x) (fst_or l2 q) (self_of y)) /\ seg N (Some y) l2 q.
Proof. rewrite seg_app. simpl. naive_solver. Qed.

Lemma seg_linked N p l1 x a y l2 q na :
  NoDup (l1 ++ x :: y :: l2) -> a ∉ (l1 ++ x :: y :: l2) ->
  tln_self na = self_of a ->
  seg N p (l1 ++ x :: y :: l2) q ->
  exists nx ny, N !! x = Some nx /\ N !! y = Some ny /\
    tln_next nx = Some y /\ tln_prev ny = Some x /\ x <> y /\
    seg (linked N x a y nx na ny) p (l1 ++ x :: a :: y :: l2) q.
Proof.
  intros Hnd Ha Hself Hseg. apply seg_middle in Hseg as (H1 & Hx & Hy & H2).
  apply NoDup_mid in Hnd as (Hx1 & [Hxy Hx2]%not_elem_of_cons & (Hy1 & Hy2 & _)%NoDup_mid).
  apply not_elem_of_mid in Ha as (Ha1 & Hax & [Hay Ha2]%not_elem_of_cons).
  do 2 eexists. split_and!; [exact Hx|exact Hy|done|done|done|]. unfold linked. simpl.
  apply seg_app. split; simpl; [by do 3 (apply seg_frame; [done|])|]. split_and!.
  - rewrite lookup_insert_ne by done. by rewrite lookup_insert_eq.
  - rewrite !lookup_insert_ne by done. rewrite lookup_insert_eq. by rewrite Hself.
  - by rewrite lookup_insert_eq.
  - by do 3 (apply seg_frame; [done|]).
Qed.

Lemma seg_unlinked N p l1 x a y l2 q :
  NoDup (l1 ++ x :: a :: y :: l2) ->
  seg N p (l1 ++ x :: a :: y :: l2) q ->
  exists nx na ny, N !! x = Some nx /\ N !! a = Some na /\ N !! y = Some ny /\
    tln_prev na = Some x /\ tln_next na = Some y /\ tln_self na = self_of a /\ x <> y /\ x <> a /\ y <> a /\
    seg (unlinked N x a y nx na ny) p (l1 ++ x :: y :: l2) q.
Proof.
  intros Hnd Hseg. apply seg_app in Hseg as [H1 Hrest]. simpl in Hrest. destruct Hrest as (Hx & Ha & Hy & H2).
  apply NoDup_mid in Hnd as (Hx1 & (Hxa & [Hxy Hx2]%not_elem_of_cons)%not_elem_of_cons & Hnd).
  apply NoDup_mid in Hnd as (Ha1 & [Hay Ha2]%not_elem_of_cons & (Hy1 & Hy2 & _)%NoDup_mid).
  do 3 eexists. split_and!; [exact Hx|exact Ha|exact Hy|done..|]. unfold unlinked. simpl.
  apply seg_middle. split_and!.
  - by do 3 (apply seg_frame; [done|]).
  - rewrite !lookup_insert_ne by done. by rewrite lookup_insert_eq.
  - rewrite lookup_insert_ne by done. by rewrite lookup_insert_eq.
  - by do 3 (apply seg_frame; [done|]).
Qed.

(** A store that agrees on the nodes of a segment. *)
Lemma seg_agree N N' p ls q :
  (forall x, x ∈ ls -> N' !! x = N !! x) -> seg N p ls q -> seg N' p ls q.
Proof.
  revert p. induction ls as [|x ls IH]; intros p Hag; simpl; [done|]. intros [Hx Hs].
  split; [rewrite Hag by left; done|]. apply IH; [|done]. intros y Hy. apply Hag. by right.
Qed.

(** ** Operations on lists *)

(** The node before and the node after a position of list [tl]. *)
Definition left_of (tl : Z) (l1 : list Z) : loc :=
  match last l1 with Some t => t_listnode t | None => tl_head tl end.

Definition right_of (tl : Z) (l2 : list Z) : loc :=
  match l2 with t :: _ => t_listnode t | [] => tl_tail tl end.

Lemma chain_cut tl l1 l2 : exists P Q, forall m,
  chain tl (l1 ++ m ++ l2) = P ++ left_of tl l1 :: (t_listnode <$> m) ++ right_of tl l2 :: Q.
Proof.
  assert (exists Q, (t_listnode <$> l2) ++ [tl_tail tl] = right_of tl l2 :: Q) as [Q HQ]
    by (destruct l2 as [|t l2]; simpl; eauto).
  assert (exists P, tl_head tl :: (t_listnode <$> l1) = P ++ [left_of tl l1]) as [P HP].
  { destruct l1 as [|t l1 _] using rev_ind; unfold left_of.
    - by exists [].
    - rewrite last_snoc, fmap_app. by exists (tl_head tl :: (t_listnode <$> l1)). }
  exists P, Q. intros m. unfold chain. rewrite !fmap_app, <- !app_assoc, app_comm_cons, HP, <- app_assoc. simpl.
  by rewrite HQ.
Qed.

(** What an operation on list [tl] moving thread [t] leaves alone. *)
Definition only_touches (s s' : tlstore) (tl : Z) (l : list Z) (t : Z) : Prop :=
  (forall x, x ∉ chain tl l -> x <> t_listnode t -> nodes s' !! x = nodes s !! x) /\
  (forall tl', tl' <> tl -> tl_count s' !! tl' = tl_count s !! tl').

Lemma wp_count_incr tl c Q s : tl_count s !! tl = Some c ->
  Q tt (Tlstore (nodes s) (<[tl := u32 (c + 1)]> (tl_count s))) -> wp (count_incr tl) Q s.
Proof.
  intros Hc HQ. unfold count_incr, count_of, set_count. wp_steps. apply (wp_deref _ c); [done|]. by wp_steps.
Qed.

Lemma wp_count_decr tl c Q s : tl_count s !! tl = Some c ->
  Q tt (Tlstore (nodes s) (<[tl := u32 (c - 1)]> (tl_count s))) -> wp (count_decr tl) Q s.
Proof.
  intros Hc HQ. unfold count_decr, count_of, set_count. wp_steps. apply (wp_deref _ c); [done|]. by wp_steps.
Qed.

Lemma not_on_chain tl l t : t ∉ l -> t_listnode t ∉ chain tl l.
Proof.
  intros Ht. unfold chain. rewrite not_elem_of_cons, not_elem_of_app, list_elem_of_fmap, list_elem_of_singleton. naive_solver.
Qed.

(** The two internal insertions do the same job: [t] goes between [l1] and
    [l2]. *)
Lemma insert_spec s tl l1 l2 t (op : M tlstore unit) :
  on_list s tl (l1 ++ l2) -> off_list s t -> Z.of_nat (length (l1 ++ l2)) < 2 ^ 32 - 1 ->
  op = threadlist_insertafternode (left_of tl l1) t \/
  op = threadlist_insertbeforenode t (right_of tl l2) ->
  wp (bind op (fun _ => count_incr tl)) (fun _ s' =>
    on_list s' tl (l1 ++ t :: l2) /\ only_touches s s' tl (l1 ++ l2) t) s.
Proof.
  intros Hon Hoff Hbd Hop. pose proof (off_list_not_on s tl _ t Hon Hoff) as Hnt.
  destruct Hon as [Hseg Hnd Hcnt _]. pose proof (chain_nodup tl _ Hnd) as Hcnd.
  pose proof (not_on_chain tl _ t Hnt) as Hnc.
  destruct (chain_cut tl l1 l2) as (P & Q & Hcut). pose proof (Hcut []) as Hc0. pose proof (Hcut [t]) as Hc1. simpl in Hc0, Hc1.
  rewrite Hc0 in Hseg, Hcnd, Hnc.
  destruct (seg_linked _ _ _ _ (t_listnode t) _ _ _ (Tln None None (Some t)) Hcnd Hnc eq_refl Hseg)
    as (nx & ny & Hx & Hy & Hnx & Hpy & Hxy & Hseg').
  apply not_elem_of_mid in Hnc as (_ & Hax & [Hay _]%not_elem_of_cons).
  wp_step. eapply wp_mono; [destruct Hop as [-> | ->];
    [eapply (insertafternode_links s _ t _ nx _ ny)|eapply (insertbeforenode_links s _ t _ nx _ ny)]; (exact Hoff || done)|].
  intros [] s' ->. eapply wp_count_incr; [exact Hcnt|]. split.
  - constructor; cbn [nodes tl_count].
    + rewrite Hc1. done.
    + apply NoDup_mid. apply not_elem_of_app in Hnt as [? ?]. done.
    + rewrite lookup_insert_eq, u32_id by lia. f_equal. rewrite !length_app. simpl. lia.
    + rewrite length_app in *. simpl. lia.
  - split; cbn [nodes tl_count].
    + intros z Hz Hzt. rewrite Hc0 in Hz. apply not_elem_of_mid in Hz as (_ & Hzx & [Hzy _]%not_elem_of_cons).
      unfold linked. by rewrite !lookup_insert_ne.
    + intros tl' Hne. by rewrite lookup_insert_ne.
Qed.

(** Unlinking [t] from between [l1] and [l2]. *)
Lemma remove_spec s tl l1 l2 t :
  on_list s tl (l1 ++ t :: l2) ->
  wp (bind (threadlist_removenode (t_listnode t)) (fun _ => count_decr tl)) (fun _ s' =>
    on_list s' tl (l1 ++ l2) /\ off_list s' t /\ only_touches s s' tl (l1 ++ t :: l2) t) s.
Proof.
  intros [Hseg Hnd Hcnt Hbd]. pose proof (chain_nodup tl _ Hnd) as Hcnd.
  destruct (chain_cut tl l1 l2) as (P & Q & Hcut). pose proof (Hcut []) as Hc0. pose proof (Hcut [t]) as Hc1. simpl in Hc0, Hc1.
  rewrite Hc1 in Hseg, Hcnd.
  destruct (seg_unlinked _ _ _ _ _ _ _ _ Hcnd Hseg) as (nx & na & ny & Hx & Ha & Hy & Hpa & Hna & Hsa & Hxy & Hxa & Hya & Hseg').
  wp_step. wp_apply (removenode_links s _ _ _ nx na ny); [done..|].
  intros [] s' ->. eapply wp_count_decr; [exact Hcnt|]. split_and!.
  - constructor; cbn [nodes tl_count].
    + by rewrite Hc0.
    + by apply NoDup_mid in Hnd as (_ & _ & ?).
    + rewrite lookup_insert_eq. rewrite !length_app in *. simpl in *. rewrite u32_id by lia. f_equal. lia.
    + rewrite !length_app in *. simpl in *. lia.
  - unfold off_list, unlinked. simpl. rewrite lookup_insert_eq. by rewrite Hsa.
  - split; cbn [nodes tl_count].
    + intros z Hz Hzt. rewrite Hc1 in Hz. apply not_elem_of_mid in Hz as (_ & Hzx & (_ & [Hzy _]%not_elem_of_cons)%not_elem_of_cons).
      unfold unlinked. by rewrite !lookup_insert_ne.
    + intros tl' Hne. by rewrite lookup_insert_ne.
Qed.

Lemma on_list_head s tl l : on_list s tl l ->
  nodes s !! tl_head tl = Some (Tln None (Some (right_of tl l)) None).
Proof. intros [Hs _ _ _]. unfold chain in Hs. destruct l; by destruct Hs. Qed.

Lemma on_list_tail s tl l : on_list s tl l ->
  nodes s !! tl_tail tl = Some (Tln (Some (left_of tl l)) None None).
Proof.
  intros [Hs _ _ _]. unfold chain in Hs. rewrite app_comm_cons, seg_app in Hs. destruct Hs as [_ [Ht _]]. rewrite Ht. do 2 f_equal.
  unfold last_or, left_of. destruct l as [|t l _] using rev_ind; [done|].
  rewrite fmap_app, app_comm_cons. change (t_listnode <$> [t]) with [t_listnode t]. by rewrite !last_snoc.
Qed.

Lemma on_list_mid s tl l1 t l2 : on_list s tl (l1 ++ t :: l2) ->
  nodes s !! t_listnode t = Some (Tln (Some (left_of tl l1)) (Some (right_of tl l2)) (Some t)).
Proof.
  intros [Hs _ _ _]. destruct (chain_cut tl l1 l2) as (P & Q & Hcut). specialize (Hcut [t]). simpl in Hcut.
  rewrite Hcut, seg_app in Hs. destruct Hs as (_ & _ & Ht & _). done.
Qed.

(** Other lists survive an operation that does not touch their threads. *)
Lemma only_touches_other s s' tl l t tl' l' :
  only_touches s s' tl l t -> tl' <> tl -> t ∉ l' -> (forall x, x ∈ l' -> x ∉ l) ->
  on_list s tl' l' -> on_list s' tl' l'.
Proof.
  intros [Hn Hc] Hne Ht Hd [Hs Hnd Hcnt Hbd]. constructor; [|done| |done].
  - eapply seg_agree; [|exact Hs]. intros x Hx. apply Hn.
    + unfold chain in *. rewrite elem_of_cons, elem_of_app, list_elem_of_fmap, list_elem_of_singleton in Hx.
      rewrite not_elem_of_cons, not_elem_of_app, list_elem_of_fmap, list_elem_of_singleton. naive_solver.
    + intros ->. unfold chain in Hx. rewrite elem_of_cons, elem_of_app, list_elem_of_fmap, list_elem_of_singleton in Hx. naive_solver.
  - by rewrite Hc.
Qed.

Lemma threadlist_init_spec tl s :
  wp (threadlist_init tl) (fun _ s' => on_list s' tl []) s.
Proof.
  unfold threadlist_init, set_node, set_count. wp_steps. constructor; simpl.
  - rewrite lookup_insert_ne by done. rewrite !lookup_insert_eq. done.
  - apply NoDup_nil_2.
  - by rewrite lookup_insert_eq.
  - lia.
Qed.

Lemma threadlist_addhead_spec s tl l t :
  on_list s tl l -> off_list s t -> Z.of_nat (length l) < 2 ^ 32 - 1 ->
  wp (threadlist_addhead tl t) (fun _ s' => on_list s' tl (t :: l) /\ only_touches s s' tl l t) s.
Proof. intros. apply (insert_spec s tl [] l t); auto. Qed.

Lemma threadlist_addtail_spec s tl l t :
  on_list s tl l -> off_list s t -> Z.of_nat (length l) < 2 ^ 32 - 1 ->
  wp (threadlist_addtail tl t) (fun _ s' => on_list s' tl (l ++ [t]) /\ only_touches s s' tl l t) s.
Proof.
  intros Hon Hoff Hb. pose proof (insert_spec s tl l [] t) as Hi. rewrite !app_nil_r in Hi. apply Hi; auto.
Qed.

Lemma wp_node_self t p q c x Q s :
  nodes s !! t_listnode t = Some (Tln p q x) -> c = x -> Q c s ->
  wp (n <- node_at (t_listnode t) ;; ret (tln_self n)) Q s.
Proof. intros Hn -> HQ. wp_step. eapply wp_node_at; [exact Hn|]. by wp_step. Qed.

Lemma threadlist_remhead_spec s tl l :
  on_list s tl l ->
  wp (threadlist_remhead tl) (fun r s' =>
    match l with
    | [] => r = None /\ s' = s
    | t :: l' => r = Some t /\ on_list s' tl l' /\ off_list s' t /\ only_touches s s' tl l t
    end) s.
Proof.
  intros Hon. unfold threadlist_remhead, ptr. wp_step. eapply wp_node_at; [by eapply on_list_head|].
  wp_step. eapply wp_deref; [done|]. wp_step. destruct l as [|t l]; simpl right_of.
  - eapply wp_node_at; [by apply (on_list_tail s tl [])|]. by wp_steps.
  - eapply wp_node_at; [by apply (on_list_mid s tl [] t l)|]. simpl.
    pose proof (remove_spec s tl [] l t Hon) as Hr. apply wp_bind_inv in Hr. wp_step. wp_apply Hr.
    intros _ s1 Hs1. wp_step. wp_apply Hs1. intros _ s2 (Hon2 & Hoff2 & Htch).
    eapply wp_node_self; [exact Hoff2|done|]. done.
Qed.

Lemma threadlist_remtail_spec s tl l :
  on_list s tl l ->
  wp (threadlist_remtail tl) (fun r s' =>
    match last l with
    | None => r = None /\ s' = s
    | Some t => r = Some t /\ on_list s' tl (removelast l) /\ off_list s' t /\ only_touches s s' tl l t
    end) s.
Proof.
  intros Hon. unfold threadlist_remtail, ptr. wp_step. eapply wp_node_at; [by eapply on_list_tail|].
  wp_step. eapply wp_deref; [done|]. wp_step. destruct l as [|t l _] using rev_ind.
  - eapply wp_node_at; [by apply (on_list_head s tl [])|]. by wp_steps.
  - unfold left_of. rewrite last_snoc. eapply wp_node_at; [by apply (on_list_mid s tl l t [])|]. simpl.
    pose proof (remove_spec s tl l [] t Hon) as Hr. rewrite app_nil_r in Hr. apply wp_bind_inv in Hr. wp_step. wp_apply Hr.
    intros _ s1 Hs1. wp_step. wp_apply Hs1. intros _ s2 (Hon2 & Hoff2 & Htch).
    eapply wp_node_self; [exact Hoff2|done|]. by rewrite removelast_last.
Qed.

(** ** Properties *)

(** List 1 holds threads 5 and 6, list 2 is empty, thread 7 is on no list. *)
Definition ex_lists : tlstore := Tlstore
  (list_to_map
    [(tl_head 1, Tln None (Some (t_listnode 5)) None);
     (t_listnode 5, Tln (Some (tl_head 1)) (Some (t_listnode 6)) (Some 5));
     (t_listnode 6, Tln (Some (t_listnode 5)) (Some (tl_tail 1)) (Some 6));
     (tl_tail 1, Tln (Some (t_listnode 6)) None None);
     (tl_head 2, Tln None (Some (tl_tail 2)) None);
     (tl_tail 2, Tln (Some (tl_head 2)) None None);
     (t_listnode 7, Tln None None (Some 7))])
  (list_to_map [(1, 2); (2, 0)]).

Lemma ex_lists_1 : on_list ex_lists 1 [5; 6].
Proof. constructor; [by vm_compute|by apply (bool_decide_unpack _); vm_compute|by vm_compute|simpl; lia]. Qed.

Lemma ex_lists_2 : on_list ex_lists 2 [].
Proof. constructor; [by vm_compute|constructor|by vm_compute|simpl; lia]. Qed.

Lemma ex_lists_7 : off_list ex_lists 7.
Proof. by vm_compute. Qed.

(** at its ends a thread list is a double-ended queue: adding at either
    end and removing from either end act on the sequence of threads as they
    should, a removed thread is fully unlinked, and an empty list yields
    [NULL] and is left unchanged. *)
Theorem threadlist_ends_correct (s : tlstore) (tl : Z) (l : list Z) (t : Z) :
  on_list s tl l -> off_list s t -> Z.of_nat (length l) < 2 ^ 32 - 1 ->
  wp (threadlist_addhead tl t) (fun _ s' => on_list s' tl (t :: l)) s /\
  wp (threadlist_addtail tl t) (fun _ s' => on_list s' tl (l ++ [t])) s /\
  wp (threadlist_remhead tl) (fun r s' =>
    match l with
    | [] => r = None /\ s' = s
    | x :: l' => r = Some x /\ on_list s' tl l' /\ off_list s' x
    end) s /\
  wp (threadlist_remtail tl) (fun r s' =>
    match last l with
    | None => r = None /\ s' = s
    | Some x => r = Some x /\ on_list s' tl (removelast l) /\ off_list s' x
    end) s.
Proof.
  intros Hon Hoff Hb. split_and!.
  - wp_apply threadlist_addhead_spec; [done..|]. naive_solver.
  - wp_apply threadlist_addtail_spec; [done..|]. naive_solver.
  - wp_apply threadlist_remhead_spec; [done|]. intros r s'. destruct l; naive_solver.
  - wp_apply threadlist_remtail_spec; [done|]. intros r s'. destruct (last l); naive_solver.
Qed.

Lemma threadlist_ends_correct_witness :
  wp (threadlist_addtail 1 7) (fun _ s' => on_list s' 1 [5; 6; 7]) ex_lists /\
  wp (threadlist_remhead 1) (fun r s' => r = Some 5 /\ on_list s' 1 [6] /\ off_list s' 5) ex_lists.
Proof.
  destruct (threadlist_ends_correct ex_lists 1 [5; 6] 7 ex_lists_1 ex_lists_7 ltac:(simpl; lia)) as (_ & H1 & H2 & _).
  split; [exact H1|exact H2].
Defined.


(** in the middle of a list, [insertafter] and [insertbefore] put a
    thread next to one that is on the list, and [remove] takes a thread out;
    removing what was inserted gives back the original sequence. *)
Theorem threadlist_middle_correct (s : tlstore) (tl : Z) (l1 l2 : list Z) (x t : Z) :
  on_list s tl (l1 ++ x :: l2) -> off_list s t -> Z.of_nat (length (l1 ++ x :: l2)) < 2 ^ 32 - 1 ->
  wp (threadlist_insertafter tl x t) (fun _ s' => on_list s' tl (l1 ++ x :: t :: l2) /\
    wp (threadlist_remove tl t) (fun _ s2 => on_list s2 tl (l1 ++ x :: l2) /\ off_list s2 t) s') s /\
  wp (threadlist_insertbefore tl t x) (fun _ s' => on_list s' tl (l1 ++ t :: x :: l2) /\
    wp (threadlist_remove tl t) (fun _ s2 => on_list s2 tl (l1 ++ x :: l2) /\ off_list s2 t) s') s.
Proof.
  intros Hon Hoff Hb. split.
  - pose proof (insert_spec s tl (l1 ++ [x]) l2 t) as Hi. rewrite <- !app_assoc in Hi. simpl in Hi.
    unfold threadlist_insertafter. wp_apply Hi; [done..|left; unfold left_of; by rewrite last_snoc|].
    intros _ s' [Hon' _]. split; [done|]. pose proof (remove_spec s' tl (l1 ++ [x]) l2 t) as Hr.
    rewrite <- !app_assoc in Hr. unfold threadlist_remove. wp_apply Hr; [done|]. simpl. naive_solver.
  - unfold threadlist_insertbefore. wp_apply (insert_spec s tl l1 (x :: l2) t); [done..|by right|].
    intros _ s' [Hon' _]. split; [done|]. unfold threadlist_remove. wp_apply remove_spec; [done|]. naive_solver.
Qed.

Lemma threadlist_middle_correct_witness :
  wp (threadlist_insertafter 1 5 7) (fun _ s' => on_list s' 1 [5; 7; 6]) ex_lists.
Proof.
  destruct (threadlist_middle_correct ex_lists 1 [] [6] 5 7 ex_lists_1 ex_lists_7 ltac:(simpl; lia)) as [H1 _].
  eapply wp_mono; [exact H1|]. by intros _ s' [Hon _].
Defined.


(** moving the first thread of one list to the end of another, as the
    scheduler and the wait channels do, changes these two lists by exactly
    that thread. *)
Theorem threadlist_transfer (s : tlstore) (a b : Z) (la lb : list Z) (t : Z) :
  a <> b -> on_list s a (t :: la) -> on_list s b lb ->
  (forall x, x ∈ lb -> x ∉ t :: la) -> Z.of_nat (length lb) < 2 ^ 32 - 1 ->
  wp (r <- threadlist_remhead a ;; x <- deref r ;; threadlist_addtail b x) (fun _ s' =>
    on_list s' a la /\ on_list s' b (lb ++ [t])) s.
Proof.
  intros Hab Ha Hb Hd Hlen. wp_step. wp_apply threadlist_remhead_spec; [done|].
  intros r s1 (-> & Ha1 & Hoff & Ht1). wp_step. eapply wp_deref; [done|].
  assert (on_list s1 b lb) as Hb1.
  { eapply only_touches_other; [exact Ht1|done| |done|done]. intros Hin. apply (Hd t Hin). left. }
  wp_apply threadlist_addtail_spec; [done..|]. intros _ s2 [Hb2 Ht2]. split; [|done].
  eapply only_touches_other; [exact Ht2|done| | |done].
  - pose proof (ol_nodup _ _ _ Ha) as Hnd. by apply NoDup_cons in Hnd as [? ?].
  - intros x Hx Hxb. apply (Hd x Hxb). by right.
Qed.

Lemma threadlist_transfer_witness :
  wp (r <- threadlist_remhead 1 ;; x <- deref r ;; threadlist_addtail 2 x) (fun _ s' =>
    on_list s' 1 [6] /\ on_list s' 2 [5]) ex_lists.
Proof.
  apply (threadlist_transfer ex_lists 1 2 [6] [] 5); [done|exact ex_lists_1|exact ex_lists_2| |simpl; lia].
  intros x Hx. by apply not_elem_of_nil in Hx.
Defined.

