(* ===== verification/VmState.v ===== *)
(** * The state of the virtual memory system

    The static variables of kern/vm/vm.c, the structures of
    kern/include/vm.h and kern/include/addrspace.h, and the machine they work
    on: physical memory, the TLB and the swap disk.  Objects that C reaches
    through pointers live in finite maps from addresses to records, so that
    sharing, freeing and dangling pointers are visible. *)

From S2P Require Import Prelude Bitmap.

(** ** Constants (kern/arch/mips/include/vm.h, tlb.h; kern/include/vm.h) *)

Definition PAGE_SIZE : Z := 4096.
Definition PAGE_FRAME : Z := 4294963200. (* 0xfffff000 *)
Definition MIPS_KSEG0 : Z := 2147483648. (* 0x80000000 *)
Definition USERSPACETOP : Z := MIPS_KSEG0.
Definition USERSTACK : Z := USERSPACETOP.
Definition VM_STACKPAGES : Z := 128.
Definition NUM_TLB : Z := 64.
Definition TLBLO_DIRTY : Z := 1024.
Definition TLBLO_VALID : Z := 512.
Definition TLBHI_VPAGE : Z := 4294963200.
Definition TLBHI_INVALID (entryno : Z) : Z := Z.shiftl (524288 + entryno) 12.
Definition TLBLO_INVALID : Z := 0.
Definition PADDR_TO_KVADDR (paddr : Z) : Z := u32 (paddr + MIPS_KSEG0).
Definition IPL_NONE : Z := 0.
Definition IPL_HIGH : Z := 1.

(** ** Data *)

(** The contents of a page: the bytes that are not zero, by offset. *)
Abbreviation page := (gmap Z Z).
Definition zero_page : page := ∅.

Inductive page_state : Type := free | fixed | used | in_eviction.

#[export] Instance page_state_eq_dec : EqDecision page_state.
Proof. solve_decision. Defined.

Record coremap_page := CoremapPage {
  chunk_size : Z;
  cp_state : page_state;
  owner_addrspace : Z;
  owner_vaddr : Z;
  ref_bit : bool;
}.

Inductive vpage_state : Type := MAPPED | UNMAPPED | SWAPPED.

#[export] Instance vpage_state_eq_dec : EqDecision vpage_state.
Proof. solve_decision. Defined.

Record pte := Pte {
  as_vpage : Z;
  as_ppage : Z;
  vpage_permission : Z;
  pte_state : vpage_state;
  diskpage_location : Z;
  pte_lock : Z;
  pte_next : Z;
}.

Record region := Region {
  rg_start : Z;
  rg_size : Z;
  rg_npages : Z;
  rg_read : bool;
  rg_write : bool;
  rg_execute : bool;
  rg_next : Z;
}.

Record addrspace := Addrspace {
  start_region : Z;
  start_page_table : Z;
  heap_start : Z;
  heap_end : Z;
}.

(** A [struct lock] as its users see it: held or free, and the two blocks it
    owns besides its own. *)
Record sleeplock := Sleeplock {
  lk_held : bool;
  lk_name : Z;
  lk_wchan : Z;
}.

Record vm := Vm {
  memory_start : Z;  (* first managed physical address *)
  memory_end : Z;  (* one past the last physical address *)
  coremap : list coremap_page;  (* one entry per physical page *)
  allocated_pages_count : Z;  (* int *)
  coremap_lock : bool;  (* held by this CPU *)
  swap_lock : bool;  (* held by this CPU *)
  swap_bitmap : option bitmap;  (* swap.bitmap, None for NULL *)
  swap_vnode : Z;  (* swap.vnode, 0 for NULL *)
  swap_disk_present : bool;
  eviction_pointer : Z;  (* unsigned *)
  frames : gmap Z page;  (* physical memory by frame number *)
  swap_data : gmap Z page;  (* the swap disk by page number *)
  tlb : list (Z * Z);  (* (entryhi, entrylo) of the NUM_TLB slots *)
  c0_random : Z;  (* the slot tlbwr writes next *)
  curspl : Z;  (* interrupt priority level of this thread *)
  heap : gset Z;  (* kernel heap blocks in use *)
  locks : gmap Z sleeplock;  (* struct lock objects *)
  ptes : gmap Z pte;  (* struct page_table_entry objects *)
  regions : gmap Z region;  (* struct region objects *)
  spaces : gmap Z addrspace;  (* struct addrspace objects *)
  curas : Z;  (* proc_getas(): the current address space, 0 for NULL *)
}.

(** ** Field updates *)

Definition set_memory_start (x : Z) (s : vm) : vm :=
  Vm x (memory_end s) (coremap s) (allocated_pages_count s) (coremap_lock s) (swap_lock s) (swap_bitmap s) (swap_vnode s) (swap_disk_present s) (eviction_pointer s) (frames s) (swap_data s) (tlb s) (c0_random s) (curspl s) (heap s) (locks s) (ptes s) (regions s) (spaces s) (curas s).
Definition set_memory_end (x : Z) (s : vm) : vm :=
  Vm (memory_start s) x (coremap s) (allocated_pages_count s) (coremap_lock s) (swap_lock s) (swap_bitmap s) (swap_vnode s) (swap_disk_present s) (eviction_pointer s) (frames s) (swap_data s) (tlb s) (c0_random s) (curspl s) (heap s) (locks s) (ptes s) (regions s) (spaces s) (curas s).
Definition set_coremap (x : list coremap_page) (s : vm) : vm :=
  Vm (memory_start s) (memory_end s) x (allocated_pages_count s) (coremap_lock s) (swap_lock s) (swap_bitmap s) (swap_vnode s) (swap_disk_present s) (eviction_pointer s) (frames s) (swap_data s) (tlb s) (c0_random s) (curspl s) (heap s) (locks s) (ptes s) (regions s) (spaces s) (curas s).
Definition set_allocated_pages_count (x : Z) (s : vm) : vm :=
  Vm (memory_start s) (memory_end s) (coremap s) x (coremap_lock s) (swap_lock s) (swap_bitmap s) (swap_vnode s) (swap_disk_present s) (eviction_pointer s) (frames s) (swap_data s) (tlb s) (c0_random s) (curspl s) (heap s) (locks s) (ptes s) (regions s) (spaces s) (curas s).
Definition set_coremap_lock (x : bool) (s : vm) : vm :=
  Vm (memory_start s) (memory_end s) (coremap s) (allocated_pages_count s) x (swap_lock s) (swap_bitmap s) (swap_vnode s) (swap_disk_present s) (eviction_pointer s) (frames s) (swap_data s) (tlb s) (c0_random s) (curspl s) (heap s) (locks s) (ptes s) (regions s) (spaces s) (curas s).
Definition set_swap_lock (x : bool) (s : vm) : vm :=
  Vm (memory_start s) (memory_end s) (coremap s) (allocated_pages_count s) (coremap_lock s) x (swap_bitmap s) (swap_vnode s) (swap_disk_present s) (eviction_pointer s) (frames s) (swap_data s) (tlb s) (c0_random s) (curspl s) (heap s) (locks s) (ptes s) (regions s) (spaces s) (curas s).
Definition set_swap_bitmap (x : option bitmap) (s : vm) : vm :=
  Vm (memory_start s) (memory_end s) (coremap s) (allocated_pages_count s) (coremap_lock s) (swap_lock s) x (swap_vnode s) (swap_disk_present s) (eviction_pointer s) (frames s) (swap_data s) (tlb s) (c0_random s) (curspl s) (heap s) (locks s) (ptes s) (regions s) (spaces s) (curas s).
Definition set_swap_vnode (x : Z) (s : vm) : vm :=
  Vm (memory_start s) (memory_end s) (coremap s) (allocated_pages_count s) (coremap_lock s) (swap_lock s) (swap_bitmap s) x (swap_disk_present s) (eviction_pointer s) (frames s) (swap_data s) (tlb s) (c0_random s) (curspl s) (heap s) (locks s) (ptes s) (regions s) (spaces s) (curas s).
Definition set_swap_disk_present (x : bool) (s : vm) : vm :=
  Vm (memory_start s) (memory_end s) (coremap s) (allocated_pages_count s) (coremap_lock s) (swap_lock s) (swap_bitmap s) (swap_vnode s) x (eviction_pointer s) (frames s) (swap_data s) (tlb s) (c0_random s) (curspl s) (heap s) (locks s) (ptes s) (regions s) (spaces s) (curas s).
Definition set_eviction_pointer (x : Z) (s : vm) : vm :=
  Vm (memory_start s) (memory_end s) (coremap s) (allocated_pages_count s) (coremap_lock s) (swap_lock s) (swap_bitmap s) (swap_vnode s) (swap_disk_present s) x (frames s) (swap_data s) (tlb s) (c0_random s) (curspl s) (heap s) (locks s) (ptes s) (regions s) (spaces s) (curas s).
Definition set_frames (x : gmap Z page) (s : vm) : vm :=
  Vm (memory_start s) (memory_end s) (coremap s) (allocated_pages_count s) (coremap_lock s) (swap_lock s) (swap_bitmap s) (swap_vnode s) (swap_disk_present s) (eviction_pointer s) x (swap_data s) (tlb s) (c0_random s) (curspl s) (heap s) (locks s) (ptes s) (regions s) (spaces s) (curas s).
Definition set_swap_data (x : gmap Z page) (s : vm) : vm :=
  Vm (memory_start s) (memory_end s) (coremap s) (allocated_pages_count s) (coremap_lock s) (swap_lock s) (swap_bitmap s) (swap_vnode s) (swap_disk_present s) (eviction_pointer s) (frames s) x (tlb s) (c0_random s) (curspl s) (heap s) (locks s) (ptes s) (regions s) (spaces s) (curas s).
Definition set_tlb (x : list (Z * Z)) (s : vm) : vm :=
  Vm (memory_start s) (memory_end s) (coremap s) (allocated_pages_count s) (coremap_lock s) (swap_lock s) (swap_bitmap s) (swap_vnode s) (swap_disk_present s) (eviction_pointer s) (frames s) (swap_data s) x (c0_random s) (curspl s) (heap s) (locks s) (ptes s) (regions s) (spaces s) (curas s).
Definition set_c0_random (x : Z) (s : vm) : vm :=
  Vm (memory_start s) (memory_end s) (coremap s) (allocated_pages_count s) (coremap_lock s) (swap_lock s) (swap_bitmap s) (swap_vnode s) (swap_disk_present s) (eviction_pointer s) (frames s) (swap_data s) (tlb s) x (curspl s) (heap s) (locks s) (ptes s) (regions s) (spaces s) (curas s).
Definition set_curspl (x : Z) (s : vm) : vm :=
  Vm (memory_start s) (memory_end s) (coremap s) (allocated_pages_count s) (coremap_lock s) (swap_lock s) (swap_bitmap s) (swap_vnode s) (swap_disk_present s) (eviction_pointer s) (frames s) (swap_data s) (tlb s) (c0_random s) x (heap s) (locks s) (ptes s) (regions s) (spaces s) (curas s).
Definition set_heap (x : gset Z) (s : vm) : vm :=
  Vm (memory_start s) (memory_end s) (coremap s) (allocated_pages_count s) (coremap_lock s) (swap_lock s) (swap_bitmap s) (swap_vnode s) (swap_disk_present s) (eviction_pointer s) (frames s) (swap_data s) (tlb s) (c0_random s) (curspl s) x (locks s) (ptes s) (regions s) (spaces s) (curas s).
Definition set_locks (x : gmap Z sleeplock) (s : vm) : vm :=
  Vm (memory_start s) (memory_end s) (coremap s) (allocated_pages_count s) (coremap_lock s) (swap_lock s) (swap_bitmap s) (swap_vnode s) (swap_disk_present s) (eviction_pointer s) (frames s) (swap_data s) (tlb s) (c0_random s) (curspl s) (heap s) x (ptes s) (regions s) (spaces s) (curas s).
Definition set_ptes (x : gmap Z pte) (s : vm) : vm :=
  Vm (memory_start s) (memory_end s) (coremap s) (allocated_pages_count s) (coremap_lock s) (swap_lock s) (swap_bitmap s) (swap_vnode s) (swap_disk_present s) (eviction_pointer s) (frames s) (swap_data s) (tlb s) (c0_random s) (curspl s) (heap s) (locks s) x (regions s) (spaces s) (curas s).
Definition set_regions (x : gmap Z region) (s : vm) : vm :=
  Vm (memory_start s) (memory_end s) (coremap s) (allocated_pages_count s) (coremap_lock s) (swap_lock s) (swap_bitmap s) (swap_vnode s) (swap_disk_present s) (eviction_pointer s) (frames s) (swap_data s) (tlb s) (c0_random s) (curspl s) (heap s) (locks s) (ptes s) x (spaces s) (curas s).
Definition set_spaces (x : gmap Z addrspace) (s : vm) : vm :=
  Vm (memory_start s) (memory_end s) (coremap s) (allocated_pages_count s) (coremap_lock s) (swap_lock s) (swap_bitmap s) (swap_vnode s) (swap_disk_present s) (eviction_pointer s) (frames s) (swap_data s) (tlb s) (c0_random s) (curspl s) (heap s) (locks s) (ptes s) (regions s) x (curas s).
Definition set_curas (x : Z) (s : vm) : vm :=
  Vm (memory_start s) (memory_end s) (coremap s) (allocated_pages_count s) (coremap_lock s) (swap_lock s) (swap_bitmap s) (swap_vnode s) (swap_disk_present s) (eviction_pointer s) (frames s) (swap_data s) (tlb s) (c0_random s) (curspl s) (heap s) (locks s) (ptes s) (regions s) (spaces s) x.

(** Reduce projections of updated states. *)
Ltac vm_simpl := cbn [memory_start memory_end coremap allocated_pages_count coremap_lock swap_lock swap_bitmap swap_vnode swap_disk_present eviction_pointer frames swap_data tlb c0_random curspl heap locks ptes regions spaces curas
  set_memory_start set_memory_end set_coremap set_allocated_pages_count set_coremap_lock set_swap_lock set_swap_bitmap set_swap_vnode set_swap_disk_present set_eviction_pointer set_frames set_swap_data set_tlb set_c0_random set_curspl set_heap set_locks set_ptes set_regions set_spaces set_curas] in *.
