(* ===== verification/Coremap.v ===== *)
(** * Physical memory: the coremap (kern/vm/vm.c, kern/arch/mips/vm/ram.c)

    Boot-time discovery of memory, the coremap that describes every physical
    page, and the page allocators on it: contiguous kernel chunks and single
    user pages. *)

From S2P Require Import Prelude Bitmap VmState.

(** ** Early memory (ram.c) *)

Record ram := Ram {
  firstpaddr : Z;
  lastpaddr : Z;
}.

(** [ramsize] is the answer of the bus, [firstfree] the address start.S
    left. *)
Definition ram_bootstrap (ramsize firstfree : Z) : M ram unit :=
  let ramsize := if 512 * 1024 * 1024 <? ramsize then 512 * 1024 * 1024 else ramsize in
  modify (fun _ => Ram (u32 (firstfree - MIPS_KSEG0)) ramsize).

Definition ram_stealmem (npages : Z) : M ram Z :=
  r <- get ;;
  let size := u32 (npages * PAGE_SIZE) in
  if lastpaddr r <? u32 (firstpaddr r + size) then ret 0 else
  put (Ram (u32 (firstpaddr r + size)) (lastpaddr r)) ;;;
  ret (firstpaddr r).

Definition ram_getsize : M ram Z := gets lastpaddr.

Definition ram_getfirstfree : M ram Z :=
  r <- get ;;
  put (Ram 0 0) ;;;
  ret (firstpaddr r).

(** ** Access to the coremap and its lock *)

(** [spinlock_acquire(&coremap_lock)]: a CPU that already holds the lock
    panics; [spinlock_release] asserts that it does. *)
Definition acquire_coremap : M vm unit :=
  s <- get ;;
  if coremap_lock s then panic else modify (set_coremap_lock true).

Definition release_coremap : M vm unit :=
  s <- get ;;
  kassert (coremap_lock s) ;;;
  modify (set_coremap_lock false).

(** [coremap[i]] read and written. *)
Definition coremap_at (i : Z) : M vm coremap_page :=
  s <- get ;;
  if i <? 0 then fault else deref (coremap s !! Z.to_nat i).

Definition coremap_put (i : Z) (p : coremap_page) : M vm unit :=
  _ <- coremap_at i ;;
  modify (fun s => set_coremap (<[Z.to_nat i := p]> (coremap s)) s).

Fixpoint zero_frames (n : nat) (f : Z) (m : gmap Z page) : gmap Z page :=
  match n with
  | O => m
  | S n' => zero_frames n' (f + 1) (<[f := zero_page]> m)
  end.

(** [bzero] of [npages] pages starting at the page-aligned [paddr]. *)
Definition as_zero_region (paddr npages : Z) : M vm unit :=
  modify (fun s => set_frames (zero_frames (Z.to_nat npages) (paddr / PAGE_SIZE) (frames s)) s).

Definition sizeof_coremap_page : Z := 20.

(** ** Boot *)

(** [garbage] is what the memory that becomes the coremap held before. *)
Definition coremap_bootstrap (garbage : list coremap_page) : M (ram * vm) unit :=
  size <- zoom fst (fun r s => (r, s.2)) ram_getsize ;;
  first <- zoom fst (fun r s => (r, s.2)) ram_getfirstfree ;;
  let vmM {A} (m : M vm A) : M (ram * vm) A := zoom snd (fun v s => (s.1, v)) m in
  let memory_start0 :=
    if negb (first mod PAGE_SIZE =? 0) then Z.land (u32 (first + PAGE_SIZE - 1)) PAGE_FRAME else first in
  let total_pages := size / PAGE_SIZE in
  let coremap_pages := u32 (u32 (sizeof_coremap_page * total_pages) + PAGE_SIZE - 1) / PAGE_SIZE in
  let start := u32 (memory_start0 + u32 (coremap_pages * PAGE_SIZE)) in
  vmM (modify (fun s => set_coremap (take (Z.to_nat total_pages) garbage)
                          (set_memory_start start (set_memory_end size s)))) ;;;
  vmM (kassert (start mod PAGE_SIZE =? 0)) ;;;
  let used_pages := start / PAGE_SIZE in
  vmM (for_ (Z.to_nat total_pages) 0 (fun page_index =>
    p <- coremap_at page_index ;;
    coremap_put page_index (CoremapPage 0 (if page_index <? used_pages then fixed else free)
      (owner_addrspace p) (owner_vaddr p) (ref_bit p)) ;;;
    @ret vm (option unit) None)) ;;;
  vmM (modify (fun s => set_allocated_pages_count 0 (set_eviction_pointer used_pages s))).

(** ** The page allocators *)

(** The search for [npages] contiguous free pages: the address found, or 0. *)
Definition find_free_run (npages : Z) : M vm Z :=
  s <- get ;;
  let start_idx := memory_start s / PAGE_SIZE in
  let end_idx := memory_end s / PAGE_SIZE in
  r <- for_acc (Z.to_nat (end_idx - start_idx)) start_idx 0 (fun i contiguous_free_pages =>
    p <- coremap_at i ;;
    if bool_decide (cp_state p = free) then
      let contiguous_free_pages := u32 (contiguous_free_pages + 1) in
      if contiguous_free_pages =? npages then ret (inr (u32 (u32 (i - npages + 1) * PAGE_SIZE)))
      else ret (inl contiguous_free_pages)
    else ret (inl 0)) ;;
  match r with
  | inr allocated_addr => ret allocated_addr
  | inl _ => ret 0
  end.

Definition allocate_kernel_pages (npages : Z) : M vm Z :=
  acquire_coremap ;;;
  allocated_addr <- find_free_run npages ;;
  if allocated_addr =? 0 then
    release_coremap ;;;
    ret 0
  else
    for_ (Z.to_nat npages) 0 (fun i =>
      p <- coremap_at (allocated_addr / PAGE_SIZE + i) ;;
      coremap_put (allocated_addr / PAGE_SIZE + i)
        (CoremapPage (if i =? 0 then npages else 0) fixed (owner_addrspace p) (owner_vaddr p) (ref_bit p)) ;;;
      @ret vm (option unit) None) ;;;
    modify (fun s => set_allocated_pages_count (s32 (allocated_pages_count s + npages)) s) ;;;
    as_zero_region allocated_addr npages ;;;
    release_coremap ;;;
    ret allocated_addr.

Definition allocate_user_page (pages as_ vpage_addr : Z) (copy_call : bool) : M vm Z :=
  kassert (pages =? 1) ;;;
  acquire_coremap ;;;
  s <- get ;;
  let start_idx := memory_start s / PAGE_SIZE in
  let end_idx := memory_end s / PAGE_SIZE in
  r <- for_ (Z.to_nat (end_idx - start_idx)) start_idx (fun i =>
    p <- coremap_at i ;;
    if bool_decide (cp_state p = free) then
      coremap_put i (CoremapPage 1 used as_ vpage_addr (negb copy_call)) ;;;
      ret (Some (u32 (i * PAGE_SIZE)))
    else ret None) ;;
  let allocated_addr := match r with Some a => a | None => 0 end in
  if allocated_addr =? 0 then
    release_coremap ;;;
    ret 0
  else
    modify (fun s => set_allocated_pages_count (s32 (allocated_pages_count s + 1)) s) ;;;
    as_zero_region allocated_addr pages ;;;
    release_coremap ;;;
    ret allocated_addr.

Definition alloc_kpages (npages : Z) : M vm Z :=
  kernel_pages <- allocate_kernel_pages npages ;;
  ret (if kernel_pages =? 0 then 0 else PADDR_TO_KVADDR kernel_pages).

(** The page a compound literal leaves: unnamed members are zero. *)
Definition free_page : coremap_page := CoremapPage 0 free 0 0 false.

Definition free_kpages (addr : Z) : M vm unit :=
  let physical_addr := u32 (addr - MIPS_KSEG0) in
  acquire_coremap ;;;
  kassert (physical_addr mod PAGE_SIZE =? 0) ;;;
  let start_index := physical_addr / PAGE_SIZE in
  p <- coremap_at start_index ;;
  let chunk := u32 (chunk_size p) in
  for_ (Z.to_nat chunk) 0 (fun i =>
    coremap_put (start_index + i) free_page ;;;
    @ret vm (option unit) None) ;;;
  modify (fun s => set_allocated_pages_count (s32 (allocated_pages_count s - chunk)) s) ;;;
  release_coremap.

Definition release_physical_page (page_paddr : Z) : M vm Z :=
  acquire_coremap ;;;
  kassert (page_paddr mod PAGE_SIZE =? 0) ;;;
  let page_idx := page_paddr / PAGE_SIZE in
  p <- coremap_at page_idx ;;
  if bool_decide (cp_state p = in_eviction) then
    release_coremap ;;;
    ret 1
  else
    coremap_put page_idx free_page ;;;
    modify (fun s => set_allocated_pages_count (s32 (allocated_pages_count s - 1)) s) ;;;
    release_coremap ;;;
    ret 0.

Definition coremap_memory_usage : M vm Z :=
  s <- get ;; ret (u32 (allocated_pages_count s * PAGE_SIZE)).

(** ** The invariant

    The managed pages are a sequence of chunks: single free pages, single
    user pages, and kernel chunks whose first page records their length. *)

Definition kernel_tail (p : coremap_page) : Prop := cp_state p = fixed /\ chunk_size p = 0.

Inductive chunks : list coremap_page -> Prop :=
| chunks_nil : chunks []
| chunks_free p l :
    cp_state p = free -> chunk_size p = 0 -> chunks l -> chunks (p :: l)
| chunks_user p l :
    cp_state p = used \/ cp_state p = in_eviction -> chunk_size p = 1 -> chunks l -> chunks (p :: l)
| chunks_kernel p q l :
    cp_state p = fixed -> chunk_size p = 1 + Z.of_nat (length q) -> Forall kernel_tail q ->
    chunks l -> chunks (p :: q ++ l).

Definition busy (p : coremap_page) : bool := negb (bool_decide (cp_state p = free)).

Fixpoint nbusy (l : list coremap_page) : Z :=
  match l with
  | [] => 0
  | p :: l' => (if busy p then 1 else 0) + nbusy l'
  end.

Definition start_idx (s : vm) : nat := Z.to_nat (memory_start s / PAGE_SIZE).
Definition managed (s : vm) : list coremap_page := drop (start_idx s) (coremap s).

Record cm_ok (s : vm) : Prop := {
  co_bounds : 0 < memory_start s <= memory_end s;
  co_max : memory_end s <= 2 ^ 29;
  co_align : memory_start s mod PAGE_SIZE = 0;
  co_len : Z.of_nat (length (coremap s)) = memory_end s / PAGE_SIZE;
  co_low : Forall kernel_tail (take (start_idx s) (coremap s));
  co_chunks : chunks (managed s);
  co_count : allocated_pages_count s = nbusy (managed s);
  co_unlocked : coremap_lock s = false;
}.

(** ** Lemmas on chunk sequences *)

#[export] Hint Constructors chunks : core.

Lemma chunks_app l1 l2 : chunks l1 -> chunks l2 -> chunks (l1 ++ l2).
Proof. intros H1 H2. induction H1; simpl; [done|by constructor..|rewrite <- app_assoc; by constructor]. Qed.

(** A page that is not the inside of a kernel chunk separates the sequence. *)
Lemma chunks_split_at l1 p l2 :
  chunks (l1 ++ p :: l2) -> ¬ kernel_tail p -> chunks l1 /\ chunks (p :: l2).
Proof.
  intros H Hp. remember (l1 ++ p :: l2) as l eqn:El. revert l1 El.
  induction H as [|x l Hs Hc Hl IH|x l Hs Hc Hl IH|x q l Hs Hc Hq Hl IH]; intros l1 El.
  - by destruct l1.
  - destruct l1 as [|y l1]; simplify_list_eq; [by split; constructor|].
    destruct (IH l1 eq_refl). split; [by constructor|done].
  - destruct l1 as [|y l1]; simplify_list_eq; [by split; constructor|].
    destruct (IH l1 eq_refl). split; [by constructor|done].
  - destruct l1 as [|y l1]; [injection El as <- <-; by split; constructor|].
    injection El as <- El. apply app_eq_inv in El as [(k & -> & E)|(k & -> & ->)].
    + destruct k as [|z k]; simpl in E.
      * destruct (IH [] (eq_sym E)). rewrite app_nil_r in *. split; [|done].
        rewrite <- (app_nil_r l1). by apply chunks_kernel.
      * injection E as -> _. apply Forall_app in Hq as [_ Hq]. apply Forall_cons in Hq as [Hz _]. done.
    + destruct (IH k eq_refl). split; [by apply chunks_kernel|done].
Qed.

Lemma chunks_uncons_single p l : chunks (p :: l) -> cp_state p <> fixed -> chunks l.
Proof. intros H Hp. by inversion H. Qed.

Lemma not_tail_state p : cp_state p <> fixed -> ¬ kernel_tail p.
Proof. by intros Hp [??]. Qed.

Lemma chunks_single_mid l1 p l2 :
  chunks (l1 ++ p :: l2) -> cp_state p <> fixed -> chunks l1 /\ chunks l2.
Proof.
  intros H Hp. apply chunks_split_at in H as [H1 H2]; [|by apply not_tail_state].
  split; [done|]. by eapply chunks_uncons_single.
Qed.

(** Taking a run of free pages out of the sequence. *)
Lemma chunks_free_run l1 m l2 :
  chunks (l1 ++ m ++ l2) -> m <> [] -> Forall (fun p => cp_state p = free) m ->
  chunks l1 /\ chunks l2.
Proof.
  intros H Hne Hm. destruct m as [|p m]; [done|]. clear Hne. simpl in H.
  apply Forall_cons in Hm as [Hp Hm].
  destruct (chunks_single_mid _ _ _ H) as [H1 H2]; [congruence|]. split; [done|].
  clear H H1 Hp p. induction m as [|p m IH]; [done|]. apply Forall_cons in Hm as [Hp Hm].
  apply IH; [done|]. eapply (chunks_uncons_single p); [done|congruence].
Qed.

(** The chunk that starts at a page with a positive [chunk_size]. *)
Lemma chunks_kernel_at l1 p l2 :
  chunks (l1 ++ p :: l2) -> cp_state p = fixed -> 0 < chunk_size p ->
  exists q l3, l2 = q ++ l3 /\ chunk_size p = 1 + Z.of_nat (length q) /\ Forall kernel_tail q /\ chunks l1 /\ chunks l3.
Proof.
  intros H Hp Hc. apply chunks_split_at in H as [H1 H2]; [|intros [??]; lia].
  inversion H2; subst; [congruence|naive_solver congruence|]. eauto 8.
Qed.

Lemma chunks_of_kernel p q : cp_state p = fixed -> chunk_size p = 1 + Z.of_nat (length q) ->
  Forall kernel_tail q -> chunks (p :: q).
Proof. intros. rewrite <- (app_nil_r q). by apply chunks_kernel. Qed.

Lemma chunks_size_nonneg l p : chunks l -> p ∈ l -> 0 <= chunk_size p.
Proof.
  induction 1 as [|x l Hs Hc Hl IH|x l Hs Hc Hl IH|x q l Hs Hc Hq Hl IH]; intros Hin.
  - by apply not_elem_of_nil in Hin.
  - apply elem_of_cons in Hin as [->|]; [lia|auto].
  - apply elem_of_cons in Hin as [->|]; [lia|auto].
  - apply elem_of_cons in Hin as [->|[Hin|]%elem_of_app]; [lia| |auto].
    rewrite Forall_forall in Hq. destruct (Hq p Hin). lia.
Qed.

Lemma nbusy_app l1 l2 : nbusy (l1 ++ l2) = nbusy l1 + nbusy l2.
Proof. induction l1; simpl; lia. Qed.

Lemma nbusy_bounds l : 0 <= nbusy l <= Z.of_nat (length l).
Proof. induction l; simpl; [lia|]. destruct (busy a); lia. Qed.

Lemma nbusy_all l : Forall (fun p => busy p = true) l -> nbusy l = Z.of_nat (length l).
Proof. induction 1 as [|p l Hp _ IH]; [done|]. simpl. rewrite Hp. lia. Qed.

Lemma nbusy_none l : Forall (fun p => busy p = false) l -> nbusy l = 0.
Proof. induction 1 as [|p l Hp _ IH]; [done|]. simpl. by rewrite Hp. Qed.

Lemma busy_state p : busy p = negb (bool_decide (cp_state p = free)).
Proof. done. Qed.

Lemma busy_true p : cp_state p <> free -> busy p = true.
Proof. intros H. unfold busy. by rewrite bool_decide_eq_false_2. Qed.

Lemma busy_false p : cp_state p = free -> busy p = false.
Proof. intros H. unfold busy. by rewrite bool_decide_eq_true_2. Qed.

(** ** Writing a range of pages *)

Definition upd_range (i n : nat) (f : Z -> coremap_page -> coremap_page) (l : list coremap_page) :=
  take i l ++ imap (fun k p => f (Z.of_nat k) p) (take n (drop i l)) ++ drop (i + n) l.

Lemma upd_range_app i n f l1 m l2 : length l1 = i -> length m = n ->
  upd_range i n f (l1 ++ m ++ l2) = l1 ++ imap (fun k p => f (Z.of_nat k) p) m ++ l2.
Proof.
  intros <- <-. unfold upd_range. rewrite take_app_length, drop_app_length, take_app_length.
  f_equal. f_equal. by rewrite app_assoc, <- length_app, drop_app_length.
Qed.

Lemma upd_range_S i n f l p :
  l !! (i + n)%nat = Some p -> upd_range i (S n) f l = <[(i + n)%nat := f (Z.of_nat n) p]> (upd_range i n f l).
Proof.
  intros Hp. pose proof (lookup_lt_Some _ _ _ Hp) as Hlt. unfold upd_range.
  assert (length (take i l) = i) as H1 by (rewrite length_take; lia).
  rewrite (take_S_r _ _ p) by (by rewrite lookup_drop).
  rewrite imap_app, length_take, length_drop.
  rewrite insert_app_r_alt by lia. rewrite H1. f_equal.
  rewrite insert_app_r_alt by (rewrite length_imap, length_take, length_drop; lia).
  rewrite length_imap, length_take, length_drop. rewrite <- app_assoc. f_equal.
  replace (i + n - i - n `min` (length l - i))%nat with 0%nat by lia.
  replace (n `min` (length l - i))%nat with n by lia. simpl.
  rewrite (drop_S _ p (i + n)) by done. simpl. rewrite Nat.add_0_r. do 2 f_equal. lia.
Qed.

Lemma wp_update_range (body : Z -> M vm (option unit)) f i n s :
  (i + n <= length (coremap s))%nat ->
  (forall j s1 p, (j < n)%nat -> coremap s1 !! (i + j)%nat = Some p ->
     body (Z.of_nat j) s1 = Done None (set_coremap (<[(i + j)%nat := f (Z.of_nat j) p]> (coremap s1)) s1)) ->
  wp (for_ n 0 body) (fun _ s' => s' = set_coremap (upd_range i n f (coremap s)) s) s.
Proof.
  intros Hlen Hbody.
  apply (wp_for _ _ _ (fun j s' => s' = set_coremap (upd_range i (Z.to_nat j) f (coremap s)) s)).
  - unfold upd_range. simpl. rewrite Nat.add_0_r, take_drop. by destruct s.
  - intros j s' Hj ->. replace j with (Z.of_nat (Z.to_nat j)) at 1 by lia.
    destruct (lookup_lt_is_Some_2 (coremap s) (i + Z.to_nat j)) as [p Hp]; [lia|].
    unfold wp. rewrite (Hbody _ _ p); [|lia|].
    + replace (Z.to_nat (j + 1)) with (S (Z.to_nat j)) by lia. by rewrite (upd_range_S _ _ _ _ p).
    + vm_simpl. unfold upd_range. rewrite app_assoc, lookup_app_r by (rewrite length_app, length_imap, !length_take, length_drop; lia).
      rewrite lookup_drop, length_app, length_imap, !length_take, length_drop. rewrite <- Hp. f_equal. lia.
  - intros s' ->. by rewrite Z.add_0_l, Nat2Z.id.
Qed.

(** ** First fit *)

Definition state_at (s : vm) (k : Z) : option page_state := cp_state <$> coremap s !! Z.to_nat k.

(** Pages [i] to [i + n - 1] are managed and free. *)
Definition fits (s : vm) (n i : Z) : Prop :=
  memory_start s / PAGE_SIZE <= i /\ i + n <= memory_end s / PAGE_SIZE /\
  forall k, i <= k < i + n -> state_at s k = Some free.

(** [i] is the lowest page where [n] pages fit. *)
Definition first_fit (s : vm) (n i : Z) : Prop :=
  fits s n i /\ forall j, fits s n j -> i <= j.

Lemma cm_idx s : cm_ok s ->
  0 < memory_start s / PAGE_SIZE <= memory_end s / PAGE_SIZE /\ memory_end s / PAGE_SIZE <= 2 ^ 17.
Proof. intros [Hb Hm Ha _ _ _ _ _]. unfold PAGE_SIZE in *. zlia. Qed.

Lemma wp_coremap_at i p Q s : 0 <= i -> coremap s !! Z.to_nat i = Some p -> Q p s -> wp (coremap_at i) Q s.
Proof.
  intros Hi Hp HQ. unfold coremap_at. wp_steps. rewrite (proj2 (Z.ltb_ge i 0)) by lia. by apply (wp_deref _ p).
Qed.

Lemma wp_coremap_put i p x Q s : 0 <= i -> coremap s !! Z.to_nat i = Some x ->
  Q tt (set_coremap (<[Z.to_nat i := p]> (coremap s)) s) -> wp (coremap_put i p) Q s.
Proof. intros Hi Hx HQ. unfold coremap_put. wp_step. apply (wp_coremap_at i x); [done..|]. by wp_step. Qed.

Lemma coremap_at_done i p s : 0 <= i -> coremap s !! Z.to_nat i = Some p -> coremap_at i s = Done p s.
Proof. intros Hi Hp. unfold coremap_at, bind, get. rewrite (proj2 (Z.ltb_ge i 0)) by lia. by rewrite Hp. Qed.

Lemma coremap_put_done i p x s : 0 <= i -> coremap s !! Z.to_nat i = Some x ->
  coremap_put i p s = Done tt (set_coremap (<[Z.to_nat i := p]> (coremap s)) s).
Proof. intros Hi Hx. unfold coremap_put, bind. by rewrite (coremap_at_done i x). Qed.

Lemma coremap_lookup s k : cm_ok s -> 0 <= k < memory_end s / PAGE_SIZE ->
  exists p, coremap s !! Z.to_nat k = Some p /\ state_at s k = Some (cp_state p).
Proof.
  intros Hok Hk. pose proof (co_len _ Hok) as Hlen. unfold state_at.
  destruct (lookup_lt_is_Some_2 (coremap s) (Z.to_nat k)) as [p Hp]; [lia|].
  exists p. by rewrite Hp.
Qed.

(** The scanning loop of [allocate_kernel_pages] computes first fit; it runs
    with the lock held. *)
Lemma find_free_run_spec s n :
  cm_ok (set_coremap_lock false s) -> 1 <= n ->
  wp (find_free_run n) (fun a s' => s' = s /\
    ((a = 0 /\ forall i, ¬ fits s n i) \/
     exists i, a = i * PAGE_SIZE /\ first_fit s n i)) s.
Proof.
  intros Hok Hn. pose proof (cm_idx _ Hok) as Hidx. vm_simpl. unfold find_free_run. wp_steps.
  set (lo := memory_start s / PAGE_SIZE) in *. set (hi := memory_end s / PAGE_SIZE) in *.
  apply (wp_for_acc _ _ _ _ (fun i c s' => s' = s /\ 0 <= c < n /\ lo <= i - c /\
    (forall k, i - c <= k < i -> state_at s k = Some free) /\
    (i - c = lo \/ state_at s (i - c - 1) <> Some free) /\
    (forall j, fits s n j -> i < j + n))).
  - split_and!; [done|lia..|left; lia|]. intros j (Hj & _). fold lo in Hj. lia.
  - intros i c s' Hi (-> & Hc & Hlo & Hrun & Hstop & Hnone).
    destruct (coremap_lookup _ i Hok) as (p & Hp & Hst); [vm_simpl; lia|].
    change (state_at s i = Some (cp_state p)) in Hst.
    wp_step. apply (wp_coremap_at i p); [lia|done|].
    case_bool_decide as Hfree.
    + rewrite Hfree in Hst. rewrite (u32_id (c + 1)) by lia.
      assert (forall k, i - c <= k < i + 1 -> state_at s k = Some free) as Hrun'.
      { intros k Hk. destruct (decide (k = i)) as [->|]; [done|apply Hrun; lia]. }
      destruct (c + 1 =? n) eqn:E; boolify; wp_step.
      * wp_step. split; [done|]. right. exists (i - c).
        split; [rewrite (u32_id (i - n + 1)), u32_id by (unfold PAGE_SIZE; lia); f_equal; lia|]. split.
        -- split_and!; [lia..|]. intros k Hk. apply Hrun'. lia.
        -- intros j Hj. specialize (Hnone j Hj). lia.
      * split_and!; [done|lia..|intros k Hk; apply Hrun'; lia| |].
        -- replace (i + 1 - (c + 1)) with (i - c) by lia. done.
        -- intros j Hj. specialize (Hnone j Hj). destruct (decide (i + 1 < j + n)); [done|].
           exfalso. destruct Hj as (Hjlo & Hjhi & Hjf). fold lo in Hjlo.
           destruct Hstop as [Hstop|Hstop]; [lia|]. apply Hstop, Hjf. lia.
    + wp_step. split_and!; [done|lia..| |].
      * right. replace (i + 1 - 0 - 1) with i by lia. rewrite Hst. congruence.
      * intros j Hj. specialize (Hnone j Hj). destruct (decide (i + 1 < j + n)); [done|].
        exfalso. destruct Hj as (Hjlo & Hjhi & Hjf). rewrite (Hjf i) in Hst by lia. congruence.
  - intros c s' (-> & Hc & _ & _ & _ & Hnone). wp_step. split; [done|]. left. split; [done|].
    intros j Hj. specialize (Hnone j Hj). destruct Hj as (_ & Hjhi & _). fold hi in Hjhi. lia.
Qed.

Lemma fits_bound s n i : cm_ok s -> 1 <= n -> fits s n i -> 0 < i /\ i + n <= 2 ^ 17.
Proof. intros Hok Hn (H1 & H2 & _). pose proof (cm_idx s Hok). lia. Qed.

(** Where a run of free pages lies in the coremap. *)
Lemma fits_split s n i : cm_ok s -> 1 <= n -> fits s n i ->
  exists low l1 m l2, coremap s = low ++ l1 ++ m ++ l2 /\ length low = start_idx s /\
    managed s = l1 ++ m ++ l2 /\ Z.of_nat (length m) = n /\ Z.of_nat (length (low ++ l1)) = i /\
    Forall (fun p => cp_state p = free) m.
Proof.
  intros Hok Hn Hf. pose proof (fits_bound s n i Hok Hn Hf) as Hb. destruct (Hf) as (Hlo & Hhi & Hfree).
  pose proof (co_len _ Hok) as Hlen. pose proof (cm_idx s Hok).
  assert (start_idx s <= Z.to_nat i)%nat as Hsi by (unfold start_idx; lia).
  set (k := (Z.to_nat i - start_idx s)%nat).
  exists (take (start_idx s) (coremap s)), (take k (managed s)), (take (Z.to_nat n) (drop k (managed s))),
    (drop (Z.to_nat n) (drop k (managed s))).
  unfold managed. rewrite !take_drop. rewrite length_app, !length_take, !length_drop.
  split_and!; [done|lia|done|lia|lia|].
  apply Forall_lookup. intros j p Hj. apply lookup_take_Some in Hj as [Hj Hjn].
  rewrite !lookup_drop in Hj. specialize (Hfree (i + Z.of_nat j)).
  unfold state_at in Hfree. replace (Z.to_nat (i + Z.of_nat j)) with (start_idx s + (k + j))%nat in Hfree by lia.
  rewrite Hj in Hfree. injection (Hfree ltac:(lia)) as ->. done.
Qed.

(** The invariant only reads the allocator's own variables. *)
Lemma cm_ok_ext s s' : cm_ok s ->
  memory_start s' = memory_start s -> memory_end s' = memory_end s -> coremap s' = coremap s ->
  allocated_pages_count s' = allocated_pages_count s -> coremap_lock s' = false -> cm_ok s'.
Proof.
  intros [] E1 E2 E3 E4 E5. constructor; unfold managed, start_idx in *; by rewrite ?E1, ?E2, ?E3, ?E4.
Qed.

(** Replacing a stretch of managed pages by well-formed chunks. *)
Lemma cm_ok_replace s s' low l1 m m' l2 :
  cm_ok s -> coremap s = low ++ l1 ++ m ++ l2 -> length low = start_idx s -> length m' = length m ->
  chunks l1 -> chunks m' -> chunks l2 ->
  memory_start s' = memory_start s -> memory_end s' = memory_end s ->
  coremap s' = low ++ l1 ++ m' ++ l2 -> coremap_lock s' = false ->
  allocated_pages_count s' = allocated_pages_count s - nbusy m + nbusy m' -> cm_ok s'.
Proof.
  intros [Hb Hm Ha Hl Hlow Hch Hcnt _] Ecm Elow Em H1 H2 H3 E1 E2 E3 E4 E5.
  unfold managed in *. assert (start_idx s' = start_idx s) as Es by (unfold start_idx; by rewrite E1).
  rewrite Ecm, <- Elow in *. rewrite take_app_length in Hlow. rewrite drop_app_length in *.
  constructor; unfold managed; rewrite ?E1, ?E2, ?E3, ?E5, ?Es, <- ?Elow; try done.
  - rewrite <- Hl. rewrite !length_app. lia.
  - by rewrite take_app_length.
  - rewrite drop_app_length. by repeat apply chunks_app.
  - rewrite drop_app_length. rewrite Hcnt. rewrite !nbusy_app. lia.
Qed.

Lemma upd_range_low i n f low l1 m l2 :
  length (low ++ l1) = i -> length m = n ->
  upd_range i n f (low ++ l1 ++ m ++ l2) = low ++ l1 ++ imap (fun k p => f (Z.of_nat k) p) m ++ l2.
Proof. intros. rewrite (app_assoc low). rewrite upd_range_app by done. by rewrite <- app_assoc. Qed.

Lemma cm_count_bound s : cm_ok s -> 0 <= allocated_pages_count s <= 2 ^ 17.
Proof.
  intros Hok. rewrite (co_count _ Hok). pose proof (nbusy_bounds (managed s)). pose proof (cm_idx s Hok).
  pose proof (co_len _ Hok). assert (length (managed s) <= length (coremap s))%nat; [|lia].
  unfold managed. rewrite length_drop. lia.
Qed.

(** ** [allocate_kernel_pages] *)

(** What the metadata loop writes on page [j] of an [n]-page chunk. *)
Definition kernel_page (n j : Z) (p : coremap_page) : coremap_page :=
  CoremapPage (if j =? 0 then n else 0) fixed (owner_addrspace p) (owner_vaddr p) (ref_bit p).

Definition kalloc_state (s : vm) (i n : Z) : vm :=
  set_frames (zero_frames (Z.to_nat n) i (frames s))
    (set_allocated_pages_count (allocated_pages_count s + n)
      (set_coremap (upd_range (Z.to_nat i) (Z.to_nat n) (kernel_page n) (coremap s)) s)).

Lemma chunks_kernel_pages n m : Z.of_nat (length m) = n -> m <> [] ->
  chunks (imap (fun k p => kernel_page n (Z.of_nat k) p) m).
Proof.
  intros Hn Hne. destruct m as [|p m]; [done|]. simpl.
  apply chunks_of_kernel; [done|simpl|].
  - rewrite length_imap. simpl in Hn. lia.
  - apply Forall_lookup. intros j x Hj. rewrite list_lookup_imap in Hj.
    destruct (m !! j); [|done]. injection Hj as <-. by split.
Qed.

Lemma nbusy_kernel_pages n m :
  nbusy (imap (fun k p => kernel_page n (Z.of_nat k) p) m) = Z.of_nat (length m).
Proof.
  rewrite nbusy_all, length_imap; [done|]. apply Forall_lookup. intros j x Hj.
  rewrite list_lookup_imap in Hj. destruct (m !! j); [|done]. by injection Hj as <-.
Qed.

Lemma nbusy_free_run m : Forall (fun p => cp_state p = free) m -> nbusy m = 0.
Proof. intros H. apply nbusy_none. eapply Forall_impl; [exact H|]. intros p. apply busy_false. Qed.

Lemma kalloc_state_ok s i n : cm_ok s -> 1 <= n -> fits s n i -> cm_ok (kalloc_state s i n).
Proof.
  intros Hok Hn Hf. destruct (fits_split s n i Hok Hn Hf) as (low & l1 & m & l2 & Ecm & Elow & Eman & Em & Ei & Hfree).
  assert (m <> []) as Hne by (intros ->; simpl in Em; lia).
  pose proof (co_chunks _ Hok) as Hch. rewrite Eman in Hch. destruct (chunks_free_run _ _ _ Hch Hne Hfree) as [H1 H2].
  eapply (cm_ok_replace s _ low l1 m (imap (fun k p => kernel_page n (Z.of_nat k) p) m) l2); try done.
  - by rewrite length_imap.
  - by apply chunks_kernel_pages.
  - unfold kalloc_state. vm_simpl. rewrite Ecm. apply upd_range_low; lia.
  - apply (co_unlocked _ Hok).
  - rewrite nbusy_kernel_pages, nbusy_free_run by done. unfold kalloc_state. vm_simpl. lia.
Qed.

Lemma wp_acquire_coremap Q s : coremap_lock s = false -> Q tt (set_coremap_lock true s) -> wp acquire_coremap Q s.
Proof. intros Hl HQ. unfold acquire_coremap. wp_steps. rewrite Hl. by wp_step. Qed.

Lemma wp_release_coremap Q s : coremap_lock s = true -> Q tt (set_coremap_lock false s) -> wp release_coremap Q s.
Proof. intros Hl HQ. unfold release_coremap. wp_steps. by apply wp_kassert. Qed.

(** Locking does not change what fits. *)
Lemma fits_ext s s' n i : memory_start s' = memory_start s -> memory_end s' = memory_end s ->
  coremap s' = coremap s -> fits s' n i <-> fits s n i.
Proof. intros E1 E2 E3. unfold fits, state_at. by rewrite E1, E2, E3. Qed.

(** Taking and releasing the lock around nothing. *)
Lemma unlock_id s : coremap_lock s = false -> set_coremap_lock false (set_coremap_lock true s) = s.
Proof. destruct s. simpl. by intros ->. Qed.

(** The state inside the critical section. *)
Lemma cm_ok_locked s : cm_ok s -> cm_ok (set_coremap_lock false (set_coremap_lock true s)).
Proof. intros Hok. by apply (cm_ok_ext s). Qed.

Lemma allocate_kernel_pages_spec s n :
  cm_ok s -> 1 <= n ->
  wp (allocate_kernel_pages n) (fun a s' => cm_ok s' /\
    ((a = 0 /\ s' = s /\ forall i, ¬ fits s n i) \/
     exists i, a = i * PAGE_SIZE /\ first_fit s n i /\ s' = kalloc_state s i n)) s.
Proof.
  intros Hok Hn. pose proof (co_unlocked _ Hok) as Hul. unfold allocate_kernel_pages.
  wp_step. apply wp_acquire_coremap; [done|]. wp_step. wp_apply find_free_run_spec; [by apply cm_ok_locked|done|].
  intros a s' (-> & [[-> Hnone]|(i & -> & Hff)]).
  - simpl. wp_step. apply wp_release_coremap; [done|]. wp_step.
    rewrite unlock_id by done. auto.
  - change (first_fit s n i) in Hff. destruct (Hff) as [Hf _]. pose proof (fits_bound s n i Hok Hn Hf) as Hb.
    assert (i * PAGE_SIZE / PAGE_SIZE = i) as Hdiv by (unfold PAGE_SIZE; zlia).
    rewrite (proj2 (Z.eqb_neq _ _)) by (unfold PAGE_SIZE; lia). rewrite Hdiv.
    pose proof (co_len _ Hok) as Hlen. destruct (Hf) as (_ & Hhi & _).
    wp_step. wp_apply (wp_update_range _ (kernel_page n) (Z.to_nat i)).
    + vm_simpl. lia.
    + intros j s1 p Hj Hp. replace (Z.to_nat i + j)%nat with (Z.to_nat (i + Z.of_nat j)) in * by lia.
      unfold bind. rewrite (coremap_at_done _ p), (coremap_put_done _ _ p) by (done || lia). done.
    + intros _ s1 ->. vm_simpl. unfold as_zero_region. wp_steps. apply wp_release_coremap; [done|]. wp_steps.
      pose proof (kalloc_state_ok s i n Hok Hn Hf) as Hok'. pose proof (cm_count_bound _ Hok') as Hc.
      unfold kalloc_state in Hc. vm_simpl.
      match goal with |- cm_ok ?x /\ _ => assert (x = kalloc_state s i n) as -> end.
      { unfold kalloc_state. rewrite s32_id by lia. rewrite Hdiv. clear -Hul. destruct s. simpl in Hul. by subst. }
      eauto 8.
Qed.

(** ** [allocate_user_page] *)

Definition ualloc_state (s : vm) (i as_ va : Z) (copy_call : bool) : vm :=
  set_frames (<[i := zero_page]> (frames s))
    (set_allocated_pages_count (allocated_pages_count s + 1)
      (set_coremap (<[Z.to_nat i := CoremapPage 1 used as_ va (negb copy_call)]> (coremap s)) s)).

(** Writing a single managed page that is not part of a kernel chunk. *)
Lemma cm_ok_put s s' i p q :
  cm_ok s -> memory_start s / PAGE_SIZE <= i -> coremap s !! Z.to_nat i = Some p ->
  cp_state p <> fixed -> chunks [q] ->
  memory_start s' = memory_start s -> memory_end s' = memory_end s ->
  coremap s' = <[Z.to_nat i := q]> (coremap s) -> coremap_lock s' = false ->
  allocated_pages_count s' = allocated_pages_count s - nbusy [p] + nbusy [q] -> cm_ok s'.
Proof.
  intros Hok Hi Hp Hst Hq E1 E2 E3 E4 E5. pose proof (cm_idx s Hok) as Hidx.
  pose proof (lookup_lt_Some _ _ _ Hp) as Hlt.
  set (k := (Z.to_nat i - start_idx s)%nat).
  assert (Z.to_nat i = start_idx s + k)%nat as Ek by (unfold k, start_idx; lia).
  assert (coremap s = take (start_idx s) (coremap s) ++ take k (managed s) ++ [p] ++ drop (S k) (managed s)) as Ecm.
  { unfold managed. rewrite <- (take_drop (start_idx s) (coremap s)) at 1. f_equal.
    rewrite <- (take_drop k (drop (start_idx s) (coremap s))) at 1. f_equal.
    rewrite (drop_S _ p k); [done|]. by rewrite lookup_drop, <- Ek. }
  assert (managed s = take k (managed s) ++ p :: drop (S k) (managed s)) as Eman.
  { rewrite <- (take_drop k (managed s)) at 1. f_equal. apply drop_S. unfold managed. by rewrite lookup_drop, <- Ek. }
  pose proof (co_chunks _ Hok) as Hch. rewrite Eman in Hch.
  destruct (chunks_single_mid _ _ _ Hch Hst) as [H1 H2].
  assert (length (take (start_idx s) (coremap s)) = start_idx s) as Hlen by (rewrite length_take; lia).
  eapply (cm_ok_replace s s' _ (take k (managed s)) [p] [q]); try done.
  rewrite E3, Ecm at 1. rewrite Ek.
  assert (length (take k (managed s)) = k) as Hlk by (unfold managed; rewrite length_take, length_drop; lia).
  rewrite insert_app_r_alt by lia. f_equal. rewrite insert_app_r_alt by lia. f_equal.
  rewrite Hlen, Hlk. by replace (start_idx s + k - start_idx s - k)%nat with 0%nat by lia.
Qed.

Lemma ualloc_state_ok s i as_ va cc : cm_ok s -> fits s 1 i -> cm_ok (ualloc_state s i as_ va cc).
Proof.
  intros Hok Hf. pose proof (fits_bound s 1 i Hok) as Hb. destruct (Hf) as (Hlo & Hhi & Hfree).
  pose proof (cm_idx s Hok). destruct (coremap_lookup s i Hok) as (p & Hp & Hst); [lia|].
  rewrite Hfree in Hst by lia. injection Hst as Hst.
  eapply (cm_ok_put s _ i p (CoremapPage 1 used as_ va (negb cc))); try done.
  - congruence.
  - apply chunks_user; [by left|done|constructor].
  - apply (co_unlocked _ Hok).
  - simpl. rewrite busy_false by done. unfold ualloc_state. vm_simpl. change (busy _) with true. lia.
Qed.

Lemma allocate_user_page_spec s as_ va cc :
  cm_ok s ->
  wp (allocate_user_page 1 as_ va cc) (fun a s' => cm_ok s' /\
    ((a = 0 /\ s' = s /\ forall i, ¬ fits s 1 i) \/
     exists i, a = i * PAGE_SIZE /\ first_fit s 1 i /\ s' = ualloc_state s i as_ va cc)) s.
Proof.
  intros Hok. pose proof (co_unlocked _ Hok) as Hul. pose proof (cm_idx s Hok) as Hidx. unfold allocate_user_page.
  wp_step. apply wp_kassert; [done|]. wp_step. apply wp_acquire_coremap; [done|]. wp_steps. vm_simpl.
  set (lo := memory_start s / PAGE_SIZE) in *. set (hi := memory_end s / PAGE_SIZE) in *.
  apply (wp_for _ _ _ (fun i s' => s' = set_coremap_lock true s /\ forall k, lo <= k < i -> state_at s k <> Some free)).
  - split; [done|lia].
  - intros i s' Hi (-> & Hnone). destruct (coremap_lookup s i Hok) as (p & Hp & Hst); [lia|].
    wp_step. apply (wp_coremap_at i p); [lia|done|]. case_bool_decide as Hfree.
    + rewrite Hfree in Hst. wp_step. apply (wp_coremap_put i _ p); [lia|done|]. wp_step. vm_simpl.
      assert (fits s 1 i) as Hf.
      { split_and!; [fold lo; lia|fold hi; lia|]. intros k Hk. by replace k with i by lia. }
      rewrite u32_id by (unfold PAGE_SIZE; lia).
      rewrite (proj2 (Z.eqb_neq _ _)) by (unfold PAGE_SIZE; lia).
      unfold as_zero_region. wp_steps. vm_simpl. apply wp_release_coremap; [done|]. wp_steps.
      assert (i * PAGE_SIZE / PAGE_SIZE = i) as Hdiv by (unfold PAGE_SIZE; zlia). rewrite Hdiv.
      pose proof (ualloc_state_ok s i as_ va cc Hok Hf) as Hok'. pose proof (cm_count_bound _ Hok') as Hc.
      unfold ualloc_state in Hc. vm_simpl.
      match goal with |- cm_ok ?x /\ _ => assert (x = ualloc_state s i as_ va cc) as -> end.
      { unfold ualloc_state. rewrite s32_id by lia. clear -Hul. destruct s. simpl in Hul. by subst. }
      split; [done|]. right. exists i. split_and!; [done| |done]. split; [done|].
      intros j (Hj & Hjhi & Hjf). fold lo in Hj. destruct (decide (j < i)); [|lia].
      exfalso. apply (Hnone j); [lia|]. apply Hjf. lia.
    + wp_step. split; [done|]. intros k Hk. destruct (decide (k = i)) as [->|]; [rewrite Hst; congruence|].
      apply Hnone. lia.
  - intros s' (-> & Hnone). simpl. wp_step. apply wp_release_coremap; [done|]. wp_step.
    rewrite unlock_id by done. split; [done|]. left. split_and!; [done..|].
    intros i (Hi & Hhi & Hf). fold lo in Hi. fold hi in Hhi. apply (Hnone i); [lia|]. apply Hf. lia.
Qed.

(** ** Freeing *)

(** Page [i] heads a kernel chunk of [n] pages. *)
Definition kernel_chunk (s : vm) (i n : Z) : Prop :=
  memory_start s / PAGE_SIZE <= i /\ 0 < n /\
  exists p, coremap s !! Z.to_nat i = Some p /\ cp_state p = fixed /\ chunk_size p = n.

Definition kfree_state (s : vm) (i n : Z) : vm :=
  set_allocated_pages_count (allocated_pages_count s - n)
    (set_coremap (upd_range (Z.to_nat i) (Z.to_nat n) (fun _ _ => free_page) (coremap s)) s).

(** The position of a kernel chunk in the coremap. *)
Lemma kernel_chunk_split s i n : cm_ok s -> kernel_chunk s i n ->
  exists low l1 m l2, coremap s = low ++ l1 ++ m ++ l2 /\ length low = start_idx s /\
    Z.of_nat (length m) = n /\ Z.of_nat (length (low ++ l1)) = i /\
    Forall (fun p => cp_state p = fixed) m /\ chunks l1 /\ chunks l2 /\ Forall kernel_tail (tail m).
Proof.
  intros Hok (Hi & Hn & p & Hp & Hst & Hcs). pose proof (cm_idx s Hok) as Hidx.
  pose proof (lookup_lt_Some _ _ _ Hp) as Hlt.
  set (k := (Z.to_nat i - start_idx s)%nat).
  assert (Z.to_nat i = start_idx s + k)%nat as Ek by (unfold k, start_idx; lia).
  assert (managed s = take k (managed s) ++ p :: drop (S k) (managed s)) as Eman.
  { rewrite <- (take_drop k (managed s)) at 1. f_equal. apply drop_S. unfold managed. by rewrite lookup_drop, <- Ek. }
  pose proof (co_chunks _ Hok) as Hch. rewrite Eman in Hch.
  destruct (chunks_kernel_at _ _ _ Hch Hst) as (q & l3 & E3 & Eq & Hq & H1 & H3); [lia|].
  assert (length (take (start_idx s) (coremap s)) = start_idx s) as Hlen by (rewrite length_take; lia).
  assert (length (take k (managed s)) = k) as Hlk by (unfold managed; rewrite length_take, length_drop; lia).
  exists (take (start_idx s) (coremap s)), (take k (managed s)), (p :: q), l3.
  split_and!; [|done|simpl; lia|rewrite length_app; lia| |done..].
  - rewrite <- (take_drop (start_idx s) (coremap s)) at 1. f_equal. fold (managed s). rewrite Eman at 1. by rewrite E3.
  - constructor; [done|]. eapply Forall_impl; [exact Hq|]. by intros x [? ?].
Qed.

Lemma chunks_free_pages n : chunks (replicate n free_page).
Proof. induction n; simpl; [constructor|]. by apply chunks_free. Qed.

Lemma imap_const {A B} (x : B) (l : list A) : imap (fun _ _ => x) l = replicate (length l) x.
Proof. induction l; simpl; f_equal; done. Qed.

Lemma kfree_state_ok s i n : cm_ok s -> kernel_chunk s i n -> cm_ok (kfree_state s i n).
Proof.
  intros Hok Hk. destruct (kernel_chunk_split s i n Hok Hk) as (low & l1 & m & l2 & Ecm & Elow & Em & Ei & Hm & H1 & H2 & _).
  eapply (cm_ok_replace s _ low l1 m (replicate (length m) free_page) l2); try done.
  - apply length_replicate.
  - apply chunks_free_pages.
  - unfold kfree_state. vm_simpl. rewrite Ecm, upd_range_low by lia. by rewrite imap_const.
  - apply (co_unlocked _ Hok).
  - rewrite (nbusy_all m).
    + rewrite nbusy_none; [unfold kfree_state; vm_simpl; lia|]. by apply Forall_replicate.
    + eapply Forall_impl; [exact Hm|]. intros x Hx. apply busy_true. congruence.
Qed.

Lemma kernel_chunk_bound s i n : cm_ok s -> kernel_chunk s i n -> 0 < i /\ i + n <= memory_end s / PAGE_SIZE.
Proof.
  intros Hok Hk. destruct (Hk) as (Hi & Hn & _). pose proof (cm_idx s Hok).
  destruct (kernel_chunk_split s i n Hok Hk) as (low & l1 & m & l2 & Ecm & _ & Em & Ei & _).
  pose proof (co_len _ Hok) as Hlen. rewrite Ecm in Hlen. rewrite !length_app in *. lia.
Qed.

Lemma free_kpages_spec s i n :
  cm_ok s -> kernel_chunk s i n ->
  wp (free_kpages (PADDR_TO_KVADDR (i * PAGE_SIZE))) (fun _ s' => s' = kfree_state s i n) s.
Proof.
  intros Hok Hk. pose proof (kernel_chunk_bound s i n Hok Hk) as Hb. pose proof (cm_idx s Hok) as Hidx.
  pose proof (co_unlocked _ Hok) as Hul. destruct (Hk) as (Hi & Hn & p & Hp & Hst & Hcs).
  unfold free_kpages, PADDR_TO_KVADDR, MIPS_KSEG0.
  assert (u32 (u32 (i * PAGE_SIZE + 2147483648) - 2147483648) = i * PAGE_SIZE) as ->.
  { unfold PAGE_SIZE in *. rewrite (u32_id (i * 4096 + 2147483648)), u32_id; lia. }
  assert (i * PAGE_SIZE / PAGE_SIZE = i) as -> by (unfold PAGE_SIZE; zlia).
  wp_step. apply wp_acquire_coremap; [done|]. wp_step. apply wp_kassert; [apply Z.eqb_eq; unfold PAGE_SIZE; zlia|].
  wp_step. apply (wp_coremap_at i p); [lia|done|]. rewrite Hcs, (u32_id n) by lia.
  wp_step. wp_apply (wp_update_range _ (fun _ _ => free_page) (Z.to_nat i)).
  - vm_simpl. pose proof (co_len _ Hok). lia.
  - intros j s1 q Hj Hq. replace (Z.to_nat i + j)%nat with (Z.to_nat (i + Z.of_nat j)) in * by lia.
    unfold bind. rewrite (coremap_put_done _ _ q) by (done || lia). done.
  - intros _ s1 ->. wp_steps. apply wp_release_coremap; [done|]. vm_simpl. unfold kfree_state.
    pose proof (cm_count_bound _ Hok). pose proof (cm_count_bound _ (kfree_state_ok s i n Hok Hk)) as Hc.
    unfold kfree_state in Hc. vm_simpl. rewrite s32_id by lia. clear -Hul. destruct s. simpl in Hul. by subst.
Qed.

Definition ufree_state (s : vm) (i : Z) : vm :=
  set_allocated_pages_count (allocated_pages_count s - 1)
    (set_coremap (<[Z.to_nat i := free_page]> (coremap s)) s).

Lemma ufree_state_ok s i p : cm_ok s -> memory_start s / PAGE_SIZE <= i ->
  coremap s !! Z.to_nat i = Some p -> cp_state p = used -> cm_ok (ufree_state s i).
Proof.
  intros Hok Hi Hp Hst. eapply (cm_ok_put s _ i p free_page); try done.
  - congruence.
  - by apply chunks_free.
  - apply (co_unlocked _ Hok).
  - simpl. rewrite busy_true by congruence. unfold ufree_state. vm_simpl. change (busy free_page) with false. lia.
Qed.

(** Releasing a user page; a page in eviction is left to the evictor. *)
Lemma release_physical_page_spec s i p :
  cm_ok s -> memory_start s / PAGE_SIZE <= i ->
  coremap s !! Z.to_nat i = Some p -> cp_state p = used \/ cp_state p = in_eviction ->
  wp (release_physical_page (i * PAGE_SIZE)) (fun r s' =>
    if bool_decide (cp_state p = in_eviction) then r = 1 /\ s' = s
    else r = 0 /\ s' = ufree_state s i /\ cm_ok s') s.
Proof.
  intros Hok Hi Hp Hst. pose proof (cm_idx s Hok) as Hidx. pose proof (co_unlocked _ Hok) as Hul.
  unfold release_physical_page. assert (i * PAGE_SIZE / PAGE_SIZE = i) as -> by (unfold PAGE_SIZE; zlia).
  wp_step. apply wp_acquire_coremap; [done|]. wp_step. apply wp_kassert; [apply Z.eqb_eq; unfold PAGE_SIZE; zlia|].
  wp_step. apply (wp_coremap_at i p); [lia|done|]. case_bool_decide as Hev.
  - wp_step. apply wp_release_coremap; [done|]. wp_step. by rewrite unlock_id.
  - destruct Hst as [Hst|]; [|done]. pose proof (ufree_state_ok s i p Hok Hi Hp Hst) as Hok'.
    pose proof (cm_count_bound _ Hok) as Hc0. pose proof (cm_count_bound _ Hok') as Hc. unfold ufree_state in Hc. vm_simpl.
    wp_step. apply (wp_coremap_put i _ p); [lia|done|]. wp_steps. apply wp_release_coremap; [done|]. wp_step. vm_simpl.
    rewrite s32_id by lia.
    match goal with |- _ /\ ?x = _ /\ _ => assert (x = ufree_state s i) as -> end; [|done].
    clear -Hul. destruct s. simpl in Hul. by subst.
Qed.

(** ** Boot *)

Lemma upd_range_all f l : upd_range 0 (length l) f l = imap (fun k p => f (Z.of_nat k) p) l.
Proof.
  pose proof (upd_range_app 0 (length l) f [] l []) as H. simpl in H.
  rewrite !app_nil_r in H. by apply H.
Qed.

(** What the boot loop writes on page [j]. *)
Definition boot_page (used_pages j : Z) (p : coremap_page) : coremap_page :=
  CoremapPage 0 (if j <? used_pages then fixed else free) (owner_addrspace p) (owner_vaddr p) (ref_bit p).

(** Where the managed memory starts when the first free byte is [first]. *)
Definition boot_start (first size : Z) : Z :=
  (first + 4095) / 4096 * 4096 + (20 * (size / 4096) + 4095) / 4096 * 4096.

Lemma coremap_bootstrap_spec r s garbage :
  0 < firstpaddr r -> lastpaddr r <= 2 ^ 29 ->
  boot_start (firstpaddr r) (lastpaddr r) <= lastpaddr r ->
  lastpaddr r / 4096 <= Z.of_nat (length garbage) -> coremap_lock s = false ->
  wp (coremap_bootstrap garbage) (fun _ rs =>
    cm_ok rs.2 /\ memory_start rs.2 = boot_start (firstpaddr r) (lastpaddr r) /\ memory_end rs.2 = lastpaddr r /\
    eviction_pointer rs.2 = memory_start rs.2 / PAGE_SIZE /\ allocated_pages_count rs.2 = 0 /\
    (forall k, memory_start rs.2 / PAGE_SIZE <= k < memory_end rs.2 / PAGE_SIZE -> state_at rs.2 k = Some free)) (r, s).
Proof.
  intros Hf Hl Hst Hg Hul. destruct r as [first size]. simpl in *. unfold boot_start in *.
  unfold coremap_bootstrap, ram_getsize, ram_getfirstfree, sizeof_coremap_page, PAGE_SIZE, PAGE_FRAME. wp_steps. cbn [fst snd firstpaddr lastpaddr].
  assert ((if negb (first mod 4096 =? 0) then Z.land (u32 (first + 4096 - 1)) 4294963200 else first) =
          (first + 4095) / 4096 * 4096) as ->.
  { rewrite u32_id by zlia. rewrite land_page_frame by zlia. destruct (first mod 4096 =? 0) eqn:E; simpl; boolify; zlia. }
  rewrite (u32_id (20 * (size / 4096))) by zlia. rewrite (u32_id (_ + 4096 - 1)) by zlia.
  rewrite (u32_id (_ / 4096 * 4096)) by zlia. rewrite u32_id by zlia.
  replace (20 * (size / 4096) + 4096 - 1) with (20 * (size / 4096) + 4095) by lia.
  set (start := (first + 4095) / 4096 * 4096 + (20 * (size / 4096) + 4095) / 4096 * 4096) in *.
  assert (start mod 4096 = 0) as Hal by (unfold start; zlia).
  assert (0 < start) by (unfold start; zlia).
  apply wp_kassert; [by apply Z.eqb_eq|]. wp_steps. cbn [fst snd].
  set (s1 := set_coremap (take (Z.to_nat (size / 4096)) garbage) (set_memory_start start (set_memory_end size s))).
  assert (length (coremap s1) = Z.to_nat (size / 4096)) as Hlen by (unfold s1; vm_simpl; rewrite length_take; zlia).
  wp_apply (wp_update_range _ (boot_page (start / 4096)) 0).
  - lia.
  - intros j s2 p Hj Hp. replace (0 + j)%nat with (Z.to_nat (Z.of_nat j)) in * by lia.
    unfold bind. rewrite (coremap_at_done _ p), (coremap_put_done _ _ p) by (done || lia). done.
  - intros _ s2 ->. wp_steps. cbn [fst snd]. vm_simpl.
    rewrite <- Hlen, upd_range_all.
    assert (forall k, (k < Z.to_nat (size / 4096))%nat -> exists p, imap (fun k p => boot_page (start / 4096) (Z.of_nat k) p) (coremap s1) !! k
       = Some (boot_page (start / 4096) (Z.of_nat k) p)) as Hlk.
    { intros k Hk. rewrite list_lookup_imap. destruct (lookup_lt_is_Some_2 (coremap s1) k) as [p ->]; [lia|]. eauto. }
    set (cm := imap (fun k p => boot_page (start / 4096) (Z.of_nat k) p) (coremap s1)) in *.
    assert (length cm = Z.to_nat (size / 4096)) as Hcm by (unfold cm; by rewrite length_imap).
    assert (Forall (fun p => cp_state p = free /\ chunk_size p = 0) (drop (Z.to_nat (start / 4096)) cm)) as Hfree.
    { apply Forall_lookup. intros k p Hk. rewrite lookup_drop in Hk. pose proof (lookup_lt_Some _ _ _ Hk).
      destruct (Hlk (Z.to_nat (start / 4096) + k)%nat) as [q Hq]; [lia|]. rewrite Hq in Hk. injection Hk as <-.
      split; [|done]. simpl. rewrite (proj2 (Z.ltb_ge _ _)); [done|]. zlia. }
    split_and!; [|unfold s1; done..|].
    + constructor; unfold managed, start_idx, PAGE_SIZE; vm_simpl; try (unfold s1; vm_simpl; done || lia || zlia).
      * apply Forall_lookup. intros k p Hk. apply lookup_take_Some in Hk as [Hk Hlt]. pose proof (lookup_lt_Some _ _ _ Hk).
        destruct (Hlk k) as [q Hq]; [lia|]. rewrite Hq in Hk. injection Hk as <-. split; [|done]. simpl.
        unfold s1 in Hlt. vm_simpl. rewrite (proj2 (Z.ltb_lt _ _)); [done|]. zlia.
      * unfold s1. vm_simpl. fold s1. clear -Hfree. induction Hfree as [|p l [? ?] _ IH]; by constructor.
      * unfold s1. vm_simpl. fold s1. rewrite nbusy_none; [done|]. eapply Forall_impl; [exact Hfree|]. intros p [? _]. by apply busy_false.
    + intros k Hk. unfold s1 in Hk. vm_simpl. unfold state_at. vm_simpl.
      rewrite Forall_lookup in Hfree. destruct (Hlk (Z.to_nat k)) as [p Hp]; [zlia|]. rewrite Hp.
      specialize (Hfree (Z.to_nat k - Z.to_nat (start / 4096))%nat). rewrite lookup_drop in Hfree.
      replace (Z.to_nat (start / 4096) + (Z.to_nat k - Z.to_nat (start / 4096)))%nat with (Z.to_nat k) in Hfree by zlia.
      destruct (Hfree _ Hp) as [E _]. simpl in *. by rewrite E.
Qed.

(** ** Pointwise views *)

Lemma upd_range_lookup i n f l k : (i + n <= length l)%nat ->
  upd_range i n f l !! k =
  if bool_decide (i <= k < i + n)%nat then f (Z.of_nat (k - i)) <$> l !! k else l !! k.
Proof.
  intros Hlen. unfold upd_range.
  assert (length (take i l) = i) as H1 by (rewrite length_take; lia).
  assert (length (take n (drop i l)) = n) as H2 by (rewrite length_take, length_drop; lia).
  case_bool_decide as Hk.
  - rewrite lookup_app_r, lookup_app_l by (rewrite ?length_imap; lia). rewrite H1, list_lookup_imap.
    rewrite lookup_take_lt, lookup_drop by lia. by replace (i + (k - i))%nat with k by lia.
  - destruct (decide (k < i)%nat).
    + rewrite lookup_app_l, lookup_take_lt by lia. done.
    + rewrite lookup_app_r, lookup_app_r by (rewrite ?length_imap; lia).
      rewrite length_imap, lookup_drop, H1, H2. f_equal. lia.
Qed.

Lemma zero_frames_lookup n f m k :
  zero_frames n f m !! k = if bool_decide (f <= k < f + Z.of_nat n) then Some zero_page else m !! k.
Proof.
  revert f m. induction n as [|n IH]; intros f m; simpl; [rewrite bool_decide_eq_false_2 by lia; done|].
  rewrite IH. destruct (decide (k = f)) as [->|Hne].
  - rewrite bool_decide_eq_false_2 by lia. rewrite bool_decide_eq_true_2 by lia. by rewrite lookup_insert_eq.
  - rewrite lookup_insert_ne by done. by repeat case_bool_decide; lia || done.
Qed.

Lemma kalloc_lookup s i n k : cm_ok s -> 1 <= n -> fits s n i -> 0 <= k ->
  coremap (kalloc_state s i n) !! Z.to_nat k =
  if bool_decide (i <= k < i + n) then kernel_page n (k - i) <$> coremap s !! Z.to_nat k
  else coremap s !! Z.to_nat k.
Proof.
  intros Hok Hn Hf Hk. pose proof (fits_bound s n i Hok Hn Hf). destruct Hf as (_ & Hhi & _).
  pose proof (co_len _ Hok). unfold kalloc_state. vm_simpl. rewrite upd_range_lookup by lia.
  repeat case_bool_decide; try lia; try done. f_equal. f_equal. lia.
Qed.

Lemma kalloc_chunk s i n : cm_ok s -> 1 <= n -> fits s n i -> kernel_chunk (kalloc_state s i n) i n.
Proof.
  intros Hok Hn Hf. pose proof (fits_bound s n i Hok Hn Hf). destruct (Hf) as (Hlo & Hhi & _).
  split_and!; [done|lia|]. destruct (coremap_lookup s i Hok) as (p & Hp & _); [lia|].
  exists (kernel_page n 0 p). rewrite kalloc_lookup by (done || lia). rewrite bool_decide_eq_true_2 by lia.
  rewrite Hp, Z.sub_diag. done.
Qed.

(** Live chunks do not overlap. *)
Lemma kernel_chunk_interior s i n j : cm_ok s -> kernel_chunk s i n -> i < j < i + n ->
  exists p, coremap s !! Z.to_nat j = Some p /\ kernel_tail p.
Proof.
  intros Hok Hk Hj. destruct (Hk) as (Hi & Hn & _). pose proof (cm_idx s Hok).
  destruct (kernel_chunk_split s i n Hok Hk) as (low & l1 & m & l2 & Ecm & _ & Em & Ei & _ & _ & _ & Ht).
  destruct m as [|p m]; [simpl in Em; lia|]. simpl in *. rewrite Forall_lookup in Ht.
  destruct (lookup_lt_is_Some_2 m (Z.to_nat (j - i - 1))) as [q Hq]; [lia|].
  exists q. split; [|by eapply Ht]. rewrite Ecm, (app_assoc low).
  rewrite lookup_app_r by lia. replace (Z.to_nat j - length (low ++ l1))%nat with (S (Z.to_nat (j - i - 1))) by lia.
  simpl. by apply lookup_app_l_Some.
Qed.

Lemma kernel_chunks_disjoint s i n j m : cm_ok s -> kernel_chunk s i n -> kernel_chunk s j m ->
  i <> j -> i + n <= j \/ j + m <= i.
Proof.
  intros Hok Hi Hj Hne. destruct (decide (i < j < i + n)) as [H|].
  - destruct (kernel_chunk_interior s i n j Hok Hi H) as (p & Hp & _ & Hc).
    destruct Hj as (_ & Hm & q & Hq & _ & Hqc). rewrite Hp in Hq. injection Hq as ->. lia.
  - destruct (decide (j < i < j + m)) as [H|]; [|destruct Hi as (_ & ? & _), Hj as (_ & ? & _); lia].
    destruct (kernel_chunk_interior s j m i Hok Hj H) as (p & Hp & _ & Hc).
    destruct Hi as (_ & Hn & q & Hq & _ & Hqc). rewrite Hp in Hq. injection Hq as ->. lia.
Qed.

Lemma kernel_chunk_fixed s i n k : cm_ok s -> kernel_chunk s i n -> i <= k < i + n -> state_at s k = Some fixed.
Proof.
  intros Hok Hk Hr. unfold state_at. destruct (decide (k = i)) as [->|].
  - destruct Hk as (_ & _ & p & -> & Hp & _). simpl. by rewrite Hp.
  - destruct (kernel_chunk_interior s i n k Hok Hk) as (p & -> & Hp & _); [lia|]. simpl. by rewrite Hp.
Qed.

Lemma chunks_free_zero l p : chunks l -> p ∈ l -> cp_state p = free -> chunk_size p = 0.
Proof.
  induction 1 as [|x l Hs Hc Hl IH|x l Hs Hc Hl IH|x q l Hs Hc Hq Hl IH]; intros Hin Hp.
  - by apply not_elem_of_nil in Hin.
  - apply elem_of_cons in Hin as [->|]; auto.
  - apply elem_of_cons in Hin as [->|]; [naive_solver congruence|auto].
  - apply elem_of_cons in Hin as [->|[Hin|]%elem_of_app]; [congruence| |auto].
    rewrite Forall_forall in Hq. destruct (Hq p Hin). congruence.
Qed.

Lemma free_chunk_zero s k p : cm_ok s -> coremap s !! Z.to_nat k = Some p -> cp_state p = free -> chunk_size p = 0.
Proof.
  intros Hok Hp Hst. destruct (decide (Z.to_nat k < start_idx s)%nat).
  - pose proof (co_low _ Hok) as Hlow. rewrite Forall_lookup in Hlow.
    destruct (Hlow (Z.to_nat k) p) as [? _]; [by apply lookup_take_Some|congruence].
  - eapply chunks_free_zero; [apply (co_chunks _ Hok)| |done]. apply list_elem_of_lookup.
    exists (Z.to_nat k - start_idx s)%nat. unfold managed. rewrite lookup_drop. rewrite <- Hp. f_equal. lia.
Qed.

(** ** Sequences of allocator calls *)

Inductive cm_op : Type :=
| OpAllocKernel (npages : Z)
| OpFreeKernel (i n : Z)
| OpAllocUser (as_ va : Z) (copy_call : bool)
| OpReleaseUser (i : Z).

Definition run_op (op : cm_op) : M vm Z :=
  match op with
  | OpAllocKernel n => alloc_kpages n
  | OpFreeKernel i n => free_kpages (PADDR_TO_KVADDR (i * PAGE_SIZE)) ;;; ret 0
  | OpAllocUser as_ va cc => allocate_user_page 1 as_ va cc
  | OpReleaseUser i => release_physical_page (i * PAGE_SIZE)
  end.

(** A call a correct client may make: it frees only what is allocated. *)
Definition legal (s : vm) (op : cm_op) : Prop :=
  match op with
  | OpAllocKernel n => 1 <= n
  | OpFreeKernel i n => kernel_chunk s i n
  | OpAllocUser _ _ _ => True
  | OpReleaseUser i => memory_start s / PAGE_SIZE <= i /\ state_at s i = Some used
  end.

Inductive cm_step : vm -> vm -> Prop :=
| cm_step_op s op r s' : legal s op -> run_op op s = Done r s' -> cm_step s s'.

(** The memory bounds never change, and the data of pages not involved in a
    call stays. *)
Lemma run_op_ok s op : cm_ok s -> legal s op ->
  wp (run_op op) (fun _ s' => cm_ok s' /\ memory_start s' = memory_start s /\ memory_end s' = memory_end s) s.
Proof.
  intros Hok Hleg. destruct op as [n|i n|as_ va cc|i]; simpl in *.
  - unfold alloc_kpages. wp_step. wp_apply allocate_kernel_pages_spec; [done..|].
    intros a s' [Hok' [(-> & -> & _)|(i & -> & _ & ->)]]; wp_step; done.
  - wp_step. wp_apply free_kpages_spec; [done..|]. intros _ s' ->. wp_step.
    split; [by apply kfree_state_ok|done].
  - wp_apply allocate_user_page_spec; [done|]. intros a s' [Hok' [(-> & -> & _)|(i & -> & _ & ->)]]; done.
  - destruct Hleg as [Hi Hst]. unfold state_at in Hst. destruct (coremap s !! Z.to_nat i) as [p|] eqn:Hp; [|done].
    injection Hst as Hst. wp_apply release_physical_page_spec; [done..|by left|].
    rewrite Hst. intros r s' (_ & -> & Hok'). done.
Qed.

(** ** Properties *)

(** Eight pages, two reserved; a two-page kernel chunk, a user page, three
    free pages. *)
Definition ex_vm : vm :=
  Vm 8192 32768
    [CoremapPage 0 fixed 0 0 false; CoremapPage 0 fixed 0 0 false;
     CoremapPage 2 fixed 0 0 false; CoremapPage 0 fixed 0 0 false;
     CoremapPage 1 used 77 4096 true; free_page; free_page; free_page]
    3 false false None 0 false 2 ∅ ∅ [] 0 0 ∅ ∅ ∅ ∅ ∅ 0.

Definition ex_vm_alloc : vm := match alloc_kpages 2 ex_vm with Done _ s => s | _ => ex_vm end.

Lemma ex_vm_ok : cm_ok ex_vm.
Proof.
  constructor; try done; try (simpl; lia); try (by vm_compute).
  - change (start_idx ex_vm) with 2%nat. by repeat constructor.
  - change (managed ex_vm) with ([CoremapPage 2 fixed 0 0 false] ++ [CoremapPage 0 fixed 0 0 false] ++
      [CoremapPage 1 used 77 4096 true; free_page; free_page; free_page]).
    apply (chunks_kernel _ [_]); [done..|by repeat constructor|].
    apply chunks_user; [by left|done|]. repeat apply chunks_free; done || constructor.
Qed.

(** booting the coremap establishes the allocator's invariant: the pages
    under the kernel image and the coremap itself are reserved, every page
    above them up to the end of memory is free, nothing counts as allocated
    and the eviction pointer is the first managed page. *)
Theorem coremap_bootstrap_correct (r : ram) (s : vm) (garbage : list coremap_page) :
  0 < firstpaddr r -> lastpaddr r <= 2 ^ 29 ->
  boot_start (firstpaddr r) (lastpaddr r) <= lastpaddr r ->
  lastpaddr r / 4096 <= Z.of_nat (length garbage) -> coremap_lock s = false ->
  wp (coremap_bootstrap garbage) (fun _ rs =>
    cm_ok rs.2 /\ memory_end rs.2 = lastpaddr r /\
    firstpaddr r + 20 * (lastpaddr r / 4096) <= memory_start rs.2 /\
    eviction_pointer rs.2 = memory_start rs.2 / PAGE_SIZE /\ allocated_pages_count rs.2 = 0 /\
    (forall k, memory_start rs.2 / PAGE_SIZE <= k < memory_end rs.2 / PAGE_SIZE -> state_at rs.2 k = Some free)) (r, s).
Proof.
  intros Hf Hl Hst Hg Hul. wp_apply coremap_bootstrap_spec; [done..|].
  intros _ rs (Hok & Hms & Hme & Hev & Hcnt & Hfree). split_and!; [done..| |done|done|done].
  rewrite Hms. unfold boot_start. zlia.
Qed.

Lemma coremap_bootstrap_correct_witness :
  wp (coremap_bootstrap (replicate 16 free_page)) (fun _ rs => memory_start rs.2 = 12288) (Ram 5000 65536, ex_vm) /\
  wp (coremap_bootstrap (replicate 16 free_page)) (fun _ rs =>
    cm_ok rs.2 /\ allocated_pages_count rs.2 = 0) (Ram 5000 65536, ex_vm).
Proof.
  split; [by vm_compute|].
  eapply wp_mono; [apply (coremap_bootstrap_correct (Ram 5000 65536) ex_vm (replicate 16 free_page)); by vm_compute|].
  by intros _ rs (Hok & _ & _ & _ & Hcnt & _).
Defined.


(** [alloc_kpages] is first fit over the coremap: it returns the kernel
    address of the lowest run of [n] free pages, makes it one chunk, zeroes
    exactly those pages and touches no other page, or returns 0 and changes
    nothing exactly when no such run exists. *)
Theorem alloc_kpages_first_fit (s : vm) (n : Z) :
  cm_ok s -> 1 <= n ->
  wp (alloc_kpages n) (fun a s' => cm_ok s' /\
    ((a = 0 /\ s' = s /\ forall i, ¬ fits s n i) \/
     exists i, a = PADDR_TO_KVADDR (i * PAGE_SIZE) /\ first_fit s n i /\ kernel_chunk s' i n /\
       allocated_pages_count s' = allocated_pages_count s + n /\
       forall k, 0 <= k ->
         if bool_decide (i <= k < i + n) then state_at s' k = Some fixed /\ frames s' !! k = Some zero_page
         else coremap s' !! Z.to_nat k = coremap s !! Z.to_nat k /\ frames s' !! k = frames s !! k)) s.
Proof.
  intros Hok Hn. unfold alloc_kpages. wp_step. wp_apply allocate_kernel_pages_spec; [done..|].
  intros a s' [Hok' [(-> & -> & Hnone)|(i & -> & Hff & ->)]]; wp_step; (split; [done|]).
  - left. auto.
  - destruct (Hff) as [Hf _]. pose proof (fits_bound s n i Hok Hn Hf).
    right. exists i. rewrite (proj2 (Z.eqb_neq _ 0)) by (unfold PAGE_SIZE; lia).
    pose proof (kalloc_chunk s i n Hok Hn Hf) as Hck. split_and!; [done..|].
    intros k Hk. case_bool_decide as Hr.
    + split; [by eapply kernel_chunk_fixed|]. unfold kalloc_state. vm_simpl.
      rewrite zero_frames_lookup. by rewrite bool_decide_eq_true_2 by lia.
    + rewrite kalloc_lookup by done. rewrite bool_decide_eq_false_2 by lia. split; [done|].
      unfold kalloc_state. vm_simpl. rewrite zero_frames_lookup. by rewrite bool_decide_eq_false_2 by lia.
Qed.

Lemma alloc_kpages_first_fit_witness :
  cm_ok ex_vm /\ wp (alloc_kpages 2) (fun a _ => a = PADDR_TO_KVADDR (5 * PAGE_SIZE)) ex_vm /\
  wp (alloc_kpages 2) (fun a s' => cm_ok s') ex_vm /\ wp (alloc_kpages 4) (fun a s' => cm_ok s') ex_vm.
Proof.
  split_and!; [exact ex_vm_ok|by vm_compute|..].
  - eapply wp_mono; [apply (alloc_kpages_first_fit ex_vm 2 ex_vm_ok); lia|]. by intros a s' [Hok _].
  - eapply wp_mono; [apply (alloc_kpages_first_fit ex_vm 4 ex_vm_ok); lia|]. by intros a s' [Hok _].
Defined.


(** [allocate_user_page] hands out the lowest free page, zeroed, tagged
    with the owner it was asked for and counted, and leaves every other page
    alone; it fails only when no managed page is free. *)
Theorem allocate_user_page_correct (s : vm) (as_ va : Z) (copy_call : bool) :
  cm_ok s ->
  wp (allocate_user_page 1 as_ va copy_call) (fun a s' => cm_ok s' /\
    ((a = 0 /\ s' = s /\ forall i, ¬ fits s 1 i) \/
     exists i, a = i * PAGE_SIZE /\ a <> 0 /\ first_fit s 1 i /\
       coremap s' !! Z.to_nat i = Some (CoremapPage 1 used as_ va (negb copy_call)) /\
       frames s' !! i = Some zero_page /\
       allocated_pages_count s' = allocated_pages_count s + 1 /\
       forall k, 0 <= k -> k <> i ->
         coremap s' !! Z.to_nat k = coremap s !! Z.to_nat k /\ frames s' !! k = frames s !! k)) s.
Proof.
  intros Hok. wp_apply allocate_user_page_spec; [done|].
  intros a s' [Hok' [(-> & -> & Hnone)|(i & -> & Hff & ->)]]; (split; [done|]); [left; auto|right].
  destruct (Hff) as [Hf _]. pose proof (fits_bound s 1 i Hok ltac:(lia) Hf) as Hb. destruct (Hf) as (_ & Hhi & _). pose proof (co_len _ Hok).
  exists i. unfold ualloc_state. vm_simpl. split_and!; [done|unfold PAGE_SIZE; lia|done| |by rewrite lookup_insert_eq|done|].
  - apply list_lookup_insert_eq. lia.
  - intros k Hk Hne. rewrite list_lookup_insert_ne by lia. by rewrite lookup_insert_ne.
Qed.

Lemma allocate_user_page_correct_witness :
  wp (allocate_user_page 1 99 8192 false) (fun a _ => a = 5 * PAGE_SIZE) ex_vm /\
  wp (allocate_user_page 1 99 8192 false) (fun _ s' => cm_ok s') ex_vm.
Proof.
  split; [by vm_compute|].
  eapply wp_mono; [apply (allocate_user_page_correct ex_vm 99 8192 false ex_vm_ok)|]. by intros a s' [Hok _].
Defined.


(** a kernel allocation is undone by [free_kpages]: afterwards every
    page has the state and the chunk length it had before, and the count of
    allocated pages is the old one. *)
Theorem alloc_free_kpages_roundtrip (s : vm) (n : Z) :
  cm_ok s -> 1 <= n ->
  wp (a <- alloc_kpages n ;; if a =? 0 then ret tt else free_kpages a) (fun _ s' =>
    cm_ok s' /\ allocated_pages_count s' = allocated_pages_count s /\
    forall k, 0 <= k -> (fun p => (cp_state p, chunk_size p)) <$> coremap s' !! Z.to_nat k =
                        (fun p => (cp_state p, chunk_size p)) <$> coremap s !! Z.to_nat k) s.
Proof.
  intros Hok Hn. unfold alloc_kpages. do 2 wp_step. wp_apply allocate_kernel_pages_spec; [done..|].
  intros a s' [Hok' [(-> & -> & Hnone)|(i & -> & Hff & ->)]]; wp_step; [by wp_step|].
  destruct (Hff) as [Hf _]. pose proof (fits_bound s n i Hok Hn Hf) as Hb. pose proof (co_len _ Hok). pose proof (co_len _ Hok') as Hl'.
  rewrite (proj2 (Z.eqb_neq (i * PAGE_SIZE) 0)) by (unfold PAGE_SIZE; lia).
  rewrite (proj2 (Z.eqb_neq _ 0)) by (unfold PADDR_TO_KVADDR, PAGE_SIZE, MIPS_KSEG0; rewrite u32_id; lia).
  pose proof (kalloc_chunk s i n Hok Hn Hf) as Hck. wp_apply free_kpages_spec; [done..|].
  intros _ s' ->. split_and!; [by apply kfree_state_ok|unfold kfree_state, kalloc_state; vm_simpl; lia|].
  intros k Hk. destruct (Hf) as (_ & Hhi & Hfree). unfold kfree_state. vm_simpl.
  rewrite upd_range_lookup by (change (memory_end (kalloc_state s i n)) with (memory_end s) in Hl'; lia).
  rewrite kalloc_lookup by done. repeat case_bool_decide; try lia; try done.
  destruct (coremap_lookup s k Hok) as (p & Hp & Hst); [lia|]. rewrite Hp. simpl.
  rewrite Hfree in Hst by lia. injection Hst as Hst. rewrite <- Hst. by rewrite (free_chunk_zero s k p).
Qed.

Lemma alloc_free_kpages_roundtrip_witness :
  wp (a <- alloc_kpages 3 ;; if a =? 0 then ret tt else free_kpages a) (fun _ s' =>
    cm_ok s' /\ allocated_pages_count s' = 3) ex_vm.
Proof.
  eapply wp_mono; [apply (alloc_free_kpages_roundtrip ex_vm 3 ex_vm_ok); lia|]. by intros _ s' (Hok & Hc & _).
Defined.


(** whatever sequence of legal calls clients make from a good state, the
    invariant holds, every further legal call returns (none panics or leaves
    the coremap), two live kernel chunks never overlap, and no user page lies
    inside a kernel chunk. *)
Theorem coremap_calls_safe (s s' : vm) :
  cm_ok s -> rtc cm_step s s' ->
  cm_ok s' /\
  (forall op, legal s' op -> wp (run_op op) (fun _ _ => True) s') /\
  (forall i n j m, kernel_chunk s' i n -> kernel_chunk s' j m -> i <> j -> i + n <= j \/ j + m <= i) /\
  (forall i n k, kernel_chunk s' i n -> i <= k < i + n -> state_at s' k <> Some used).
Proof.
  intros Hok Hsteps. assert (cm_ok s') as Hok'.
  { induction Hsteps as [|x y z [x' op r y' Hleg Hrun] _ IH]; [done|]. apply IH.
    pose proof (run_op_ok x' op Hok Hleg) as H. unfold wp in H. rewrite Hrun in H. apply H. }
  split_and!; [done| | |].
  - intros op Hleg. wp_apply run_op_ok; [done..|]. done.
  - intros i n j m Hi Hj Hne. by eapply kernel_chunks_disjoint.
  - intros i n k Hc Hk. rewrite (kernel_chunk_fixed s' i n k) by done. done.
Qed.

Lemma coremap_calls_safe_witness :
  rtc cm_step ex_vm ex_vm_alloc /\ allocated_pages_count ex_vm_alloc = 5 /\ cm_ok ex_vm_alloc.
Proof.
  assert (rtc cm_step ex_vm ex_vm_alloc) as Hr.
  { apply rtc_once, (cm_step_op _ (OpAllocKernel 2) (PADDR_TO_KVADDR (5 * PAGE_SIZE))); [done|vm_compute; reflexivity]. }
  split; [exact Hr|]. split; [vm_compute; reflexivity|]. exact (proj1 (coremap_calls_safe _ _ ex_vm_ok Hr)).
Defined.
