(* ===== verification/KPages.v ===== *)
(** * Whole pages of kernel memory as an interface

    [alloc_kpages] and [free_kpages] (kern/include/vm.h) as the kernel heap
    uses them, and that the coremap provides them. *)

From S2P Require Import Prelude VmState Coremap.

(** [kp_chunk s a n]: the [n] pages from address [a] on are handed out. *)
Class KPages (P : Type) := {
  kp_alloc : Z -> M P Z;
  kp_free : Z -> M P unit;
  kp_ok : P -> Prop;
  kp_chunk : P -> Z -> Z -> Prop;
  kp_range : forall s a n, kp_ok s -> kp_chunk s a n -> 1 <= n /\ MIPS_KSEG0 <= a /\ a mod PAGE_SIZE = 0 /\ a + n * PAGE_SIZE < 2 ^ 32;
  kp_disjoint : forall s a n b m, kp_ok s -> kp_chunk s a n -> kp_chunk s b m -> (a = b /\ n = m) \/ a + n * PAGE_SIZE <= b \/ b + m * PAGE_SIZE <= a;
  kp_alloc_law : forall n s, kp_ok s -> 1 <= n < 2 ^ 31 -> wp (kp_alloc n) (fun a s' => kp_ok s' /\
    ((a = 0 /\ forall b m, kp_chunk s' b m <-> kp_chunk s b m) \/
     (a <> 0 /\ (forall m, ~ kp_chunk s a m) /\ kp_chunk s' a n /\ forall b m, b <> a -> kp_chunk s' b m <-> kp_chunk s b m))) s;
  kp_free_law : forall a n s, kp_ok s -> kp_chunk s a n -> wp (kp_free a) (fun _ s' => kp_ok s' /\ forall b m, kp_chunk s' b m <-> b <> a /\ kp_chunk s b m) s;
}.

(** ** The coremap provides it *)

Definition cm_chunk (s : vm) (a n : Z) : Prop := exists i, a = MIPS_KSEG0 + i * PAGE_SIZE /\ kernel_chunk s i n.

Lemma cm_chunk_addr s i n : cm_ok s -> kernel_chunk s i n -> PADDR_TO_KVADDR (i * PAGE_SIZE) = MIPS_KSEG0 + i * PAGE_SIZE.
Proof. intros Hok Hk. pose proof (kernel_chunk_bound s i n Hok Hk). pose proof (cm_idx s Hok). destruct Hk as (_ & ? & _). unfold PADDR_TO_KVADDR, MIPS_KSEG0, PAGE_SIZE in *. rewrite u32_id; lia. Qed.

Lemma kernel_chunk_other s s' j m : memory_start s' = memory_start s -> coremap s' !! Z.to_nat j = coremap s !! Z.to_nat j -> kernel_chunk s' j m <-> kernel_chunk s j m.
Proof. unfold kernel_chunk. by intros -> ->. Qed.

(** A chunk of [n] pages at [i] appears, the others stay. *)
Lemma kalloc_others s i n j m : cm_ok s -> 1 <= n -> fits s n i -> i <> j -> kernel_chunk (kalloc_state s i n) j m <-> kernel_chunk s j m.
Proof.
  intros Hok Hn Hf Hne. pose proof (fits_bound s n i Hok Hn Hf) as Hb. pose proof (cm_idx s Hok) as Hidx. destruct (decide (0 <= j)) as [Hj|]; [|split; intros (? & _); cbn in *; lia].
  destruct (decide (i <= j < i + n)) as [Hr|Hr]; [|apply (kernel_chunk_other s); [done|]; rewrite kalloc_lookup by done; by rewrite bool_decide_eq_false_2].
  assert (exists p, coremap s !! Z.to_nat j = Some p /\ cp_state p = free) as (p & Hp & Hfree).
  { destruct Hf as (_ & _ & Hf). specialize (Hf j Hr). unfold state_at in Hf. destruct (coremap s !! Z.to_nat j) as [p|]; [|done]. injection Hf as ?. by exists p. }
  split; intros (_ & Hm & q & Hq & Hst & Hcs); exfalso.
  - rewrite kalloc_lookup, bool_decide_eq_true_2, Hp in Hq by (done || lia). injection Hq as <-. cbn in Hcs. replace (j - i =? 0) with false in Hcs by lia. lia.
  - rewrite Hp in Hq. injection Hq as <-. congruence.
Qed.

Lemma kfree_chunks s i n j m : cm_ok s -> kernel_chunk s i n -> kernel_chunk (kfree_state s i n) j m <-> j <> i /\ kernel_chunk s j m.
Proof.
  intros Hok Hk. pose proof (kernel_chunk_bound s i n Hok Hk) as Hb. pose proof (cm_idx s Hok) as Hidx. pose proof (co_len _ Hok) as Hlen. destruct (decide (0 <= j)) as [Hj|]; [|split; [intros (? & _)|intros [_ (? & _)]]; cbn in *; lia].
  assert (coremap (kfree_state s i n) !! Z.to_nat j = if bool_decide (i <= j < i + n) then (fun _ => free_page) <$> coremap s !! Z.to_nat j else coremap s !! Z.to_nat j) as El.
  { destruct Hk as (_ & ? & _). unfold kfree_state. vm_simpl. rewrite upd_range_lookup by lia. repeat case_bool_decide; try lia; done. }
  case_bool_decide as Hr.
  - split; [intros (_ & Hm & q & Hq & Hst & _); rewrite El in Hq; apply fmap_Some in Hq as (? & _ & ->); done|]. intros [Hne Hc]. exfalso.
    destruct (kernel_chunks_disjoint s i n j m Hok Hk Hc); [done|lia|]. destruct Hc as (_ & ? & _). lia.
  - rewrite (kernel_chunk_other s _ j m) by done. split; [|by intros [_ ?]]. intros Hc. split; [|done]. intros ->. destruct Hk as (_ & ? & _). lia.
Qed.

#[export, program] Instance coremap_pages : KPages vm := {|
  kp_alloc := alloc_kpages;
  kp_free := free_kpages;
  kp_ok := cm_ok;
  kp_chunk := cm_chunk;
|}.
Next Obligation.
  intros s a n Hok (i & -> & Hk). pose proof (kernel_chunk_bound s i n Hok Hk). pose proof (cm_idx s Hok). destruct Hk as (_ & ? & _). unfold MIPS_KSEG0, PAGE_SIZE in *. split_and!; (lia || zlia).
Qed.
Next Obligation.
  intros s a n b m Hok (i & -> & Hi) (j & -> & Hj). destruct (decide (i = j)) as [<-|Hne].
  - left. destruct Hi as (_ & _ & p & Hp & _ & <-), Hj as (_ & _ & q & Hq & _ & <-). split; [done|congruence].
  - right. unfold PAGE_SIZE. destruct (kernel_chunks_disjoint s i n j m Hok Hi Hj Hne); lia.
Qed.
Next Obligation.
  intros n s Hok Hn. unfold alloc_kpages. wp_step. wp_apply allocate_kernel_pages_spec; [done|lia|]. intros a s' [Hok' [(-> & -> & _)|(i & -> & [Hf _] & ->)]]; wp_step.
  - split; [done|]. by left.
  - split; [done|]. right. pose proof (fits_bound s n i Hok ltac:(lia) Hf) as Hb. pose proof (kalloc_chunk s i n Hok ltac:(lia) Hf) as Hc. replace (i * PAGE_SIZE =? 0) with false by (unfold PAGE_SIZE; lia).
    rewrite (cm_chunk_addr (kalloc_state s i n) i n) by done. split_and!; [unfold MIPS_KSEG0, PAGE_SIZE; lia| |by exists i|].
    + intros m (j & E & _ & _ & p & Hp & Hst & _). assert (j = i) as -> by (unfold PAGE_SIZE in E; lia). destruct Hf as (_ & _ & Hf). specialize (Hf i ltac:(lia)). unfold state_at in Hf. rewrite Hp in Hf. cbn in Hf. congruence.
    + intros b m Hb'. split; intros (j & -> & Hj); exists j; (split; [done|]); (apply (kalloc_others s i n j m Hok ltac:(lia) Hf); [congruence|done]).
Qed.
Next Obligation.
  intros a n s Hok (i & -> & Hk). rewrite <- (cm_chunk_addr s i n) by done. wp_apply free_kpages_spec; [done|done|]. intros _ s' ->. split; [by apply kfree_state_ok|]. intros b m. rewrite (cm_chunk_addr s i n) by done. split.
  - intros (j & -> & Hj). apply kfree_chunks in Hj as [Hne Hj]; [|done|done]. split; [unfold PAGE_SIZE; lia|by exists j].
  - intros [Hne (j & -> & Hj)]. exists j. split; [done|]. apply kfree_chunks; [done|done|]. split; [congruence|done].
Qed.
