(* ===== verification/Kmalloc.v ===== *)
(** * The kernel heap (kern/vm/kmalloc.c)

    Blocks of up to 1K come from pages cut into blocks of one size, each page
    with a free list through the first words of its free blocks and a
    [pageref] that counts them; larger blocks are whole pages.  The debugging
    modes (SLOW, SLOWER, GUARDS, LABELS, CHECKBEEF) are off, as in the source:
    [checksubpage] and [checksubpages] do nothing.

    [kh_refs] holds the [pageref]s by address, [kh_words] the words of the
    heap pages; a [pageref] or word that was never written cannot be read.
    The calls run one after the other, so nothing changes while the spinlock
    is released around [alloc_kpages]. *)

From S2P Require Import Prelude VmState KPages.

(** ** Data *)

Definition NSIZES : Z := 8.
Definition sizes : list Z := [16; 32; 64; 128; 256; 512; 1024; 2048].
Definition LARGEST_SUBPAGE_SIZE : Z := 2048.
Definition INVALID_OFFSET : Z := 65535.
Definition NPAGEREFS_PER_PAGE : Z := 256.
Definition INUSE_WORDS : Z := 8.
Definition NUM_PAGEREFPAGES : Z := 16.
Definition sizeof_pageref : Z := 16.

Definition u16 (z : Z) : Z := z mod 2 ^ 16.

Record pageref := Pageref {
  next_samesize : Z;
  next_all : Z;
  pageaddr_and_blocktype : Z;
  freelist_offset : Z;
  nfree : Z;
}.

Definition PR_PAGEADDR (pr : pageref) : Z := Z.land (pageaddr_and_blocktype pr) PAGE_FRAME.
Definition PR_BLOCKTYPE (pr : pageref) : Z := Z.land (pageaddr_and_blocktype pr) (u32 (Z.lnot PAGE_FRAME)).
Definition MKPAB (pa blk : Z) : Z := Z.lor (Z.land pa PAGE_FRAME) (Z.land blk (u32 (Z.lnot PAGE_FRAME))).

Record kheap_root := KheapRoot {
  kr_page : Z;                  (* 0 for NULL *)
  pagerefs_inuse : list Z;
  numinuse : Z;
}.

Record kheap (P : Type) := Kheap {
  kh_pages : P;                 (* the page allocator *)
  kh_refs : gmap Z pageref;
  kheaproots : list kheap_root;
  sizebases : list Z;
  allbase : Z;
  kh_words : gmap Z Z;
  kmalloc_spinlock : bool;
}.
Arguments Kheap {P}.
Arguments kh_pages {P}.
Arguments kh_refs {P}.
Arguments kheaproots {P}.
Arguments sizebases {P}.
Arguments allbase {P}.
Arguments kh_words {P}.
Arguments kmalloc_spinlock {P}.

Section updates.
Context {P : Type}.
Definition set_kh_pages (x : P) (s : kheap P) : kheap P := Kheap x (kh_refs s) (kheaproots s) (sizebases s) (allbase s) (kh_words s) (kmalloc_spinlock s).
Definition set_kh_refs x (s : kheap P) : kheap P := Kheap (kh_pages s) x (kheaproots s) (sizebases s) (allbase s) (kh_words s) (kmalloc_spinlock s).
Definition set_kheaproots x (s : kheap P) : kheap P := Kheap (kh_pages s) (kh_refs s) x (sizebases s) (allbase s) (kh_words s) (kmalloc_spinlock s).
Definition set_sizebases x (s : kheap P) : kheap P := Kheap (kh_pages s) (kh_refs s) (kheaproots s) x (allbase s) (kh_words s) (kmalloc_spinlock s).
Definition set_allbase x (s : kheap P) : kheap P := Kheap (kh_pages s) (kh_refs s) (kheaproots s) (sizebases s) x (kh_words s) (kmalloc_spinlock s).
Definition set_kh_words x (s : kheap P) : kheap P := Kheap (kh_pages s) (kh_refs s) (kheaproots s) (sizebases s) (allbase s) x (kmalloc_spinlock s).
Definition set_kmalloc_spinlock x (s : kheap P) : kheap P := Kheap (kh_pages s) (kh_refs s) (kheaproots s) (sizebases s) (allbase s) (kh_words s) x.
End updates.

Ltac kh_simpl := cbn [kh_pages kh_refs kheaproots sizebases allbase kh_words kmalloc_spinlock
  set_kh_pages set_kh_refs set_kheaproots set_sizebases set_allbase set_kh_words set_kmalloc_spinlock].

Section kmalloc.
Context {P : Type} `{KPages P}.
(** What a field of a fresh [pageref] holds. *)
Variable junk : Z.
Notation KM := (M (kheap P)).

(** ** Access *)

Definition pages {A} (m : M P A) : KM A := zoom kh_pages set_kh_pages m.

Definition heap_acquire : KM unit := s <- get ;; kassert (negb (kmalloc_spinlock s)) ;;; modify (set_kmalloc_spinlock true).
Definition heap_release : KM unit := s <- get ;; kassert (kmalloc_spinlock s) ;;; modify (set_kmalloc_spinlock false).

Definition root_at (i : Z) : KM kheap_root := s <- get ;; deref (kheaproots s !! Z.to_nat i).
Definition root_put (i : Z) (r : kheap_root) : KM unit := _ <- root_at i ;; modify (fun s => set_kheaproots (<[Z.to_nat i := r]> (kheaproots s)) s).

(** The address is that of an entry of a [pageref] page. *)
Definition is_ref (s : kheap P) (a : Z) : bool :=
  existsb (fun r => negb (kr_page r =? 0) && (kr_page r <=? a) && (a <? kr_page r + PAGE_SIZE) && ((a - kr_page r) mod sizeof_pageref =? 0)) (kheaproots s).

Definition ref_at (a : Z) : KM pageref := s <- get ;; deref (kh_refs s !! a).
Definition ref_put (a : Z) (x : pageref) : KM unit := s <- get ;; if is_ref s a then modify (set_kh_refs (<[a := x]> (kh_refs s))) else fault.

Definition word_at (a : Z) : KM Z := s <- get ;; deref (kh_words s !! a).
Definition word_put (a x : Z) : KM unit := modify (fun s => set_kh_words (<[a := x]> (kh_words s)) s).

Definition size_at (t : Z) : KM Z := if t <? 0 then fault else deref (sizes !! Z.to_nat t).
Definition sizebase_at (t : Z) : KM Z := s <- get ;; if t <? 0 then fault else deref (sizebases s !! Z.to_nat t).
Definition sizebase_put (t x : Z) : KM unit := _ <- sizebase_at t ;; modify (fun s => set_sizebases (<[Z.to_nat t := x]> (sizebases s)) s).

(** Enough for a walk over all [pageref]s. *)
Definition ref_fuel (s : kheap P) : nat := S (size (kh_refs s)).

Definition fill_deadbeef (vptr len : Z) : KM unit :=
  for_ (R := unit) (Z.to_nat (len / 4)) 0 (fun i => word_put (vptr + 4 * i) 3735928559 ;;; ret None) ;;;
  ret tt.

(** ** Pagerefs *)

Definition allocpagerefpage (whichroot : Z) : KM unit :=
  root <- root_at whichroot ;;
  kassert (kr_page root =? 0) ;;;
  heap_release ;;;
  va <- pages (kp_alloc 1) ;;
  heap_acquire ;;;
  if va =? 0 then ret tt else
  kassert (va mod PAGE_SIZE =? 0) ;;;
  root <- root_at whichroot ;;
  if negb (kr_page root =? 0) then
    heap_release ;;;
    pages (kp_free va) ;;;
    heap_acquire ;;;
    root <- root_at whichroot ;;
    kassert (negb (kr_page root =? 0))
  else root_put whichroot (KheapRoot va (pagerefs_inuse root) (numinuse root)).

(** The entry of bit [j] of word [i] was found free. *)
Definition takepageref (whichroot i j : Z) : KM Z :=
  root <- root_at whichroot ;;
  word <- deref (pagerefs_inuse root !! Z.to_nat i) ;;
  root_put whichroot (KheapRoot (kr_page root) (<[Z.to_nat i := Z.lor word (Z.shiftl 1 j)]> (pagerefs_inuse root)) (u32 (numinuse root + 1))) ;;;
  root <- root_at whichroot ;;
  (if kr_page root =? 0 then allocpagerefpage whichroot else ret tt) ;;;
  root <- root_at whichroot ;;
  if kr_page root =? 0 then ret 0 else ret (u32 (kr_page root + (i * 32 + j) * sizeof_pageref)).

Definition allocpageref : KM Z :=
  r <- for_ (Z.to_nat NUM_PAGEREFPAGES) 0 (fun whichroot =>
    root <- root_at whichroot ;;
    if NPAGEREFS_PER_PAGE <=? numinuse root then ret None else
    for_ (Z.to_nat INUSE_WORDS) 0 (fun i =>
      root <- root_at whichroot ;;
      word <- deref (pagerefs_inuse root !! Z.to_nat i) ;;
      if word =? 4294967295 then ret None else
      r <- for_ 32 0 (fun j =>
        if Z.land word (Z.shiftl 1 j) =? 0 then r <- takepageref whichroot i j ;; ret (Some r) else ret None) ;;
      match r with Some r => ret (Some r) | None => panic end)) ;;
  ret (default 0 r).

Definition freepageref (p : Z) : KM unit :=
  r <- for_ (Z.to_nat NUM_PAGEREFPAGES) 0 (fun whichroot =>
    root <- root_at whichroot ;;
    if kr_page root =? 0 then kassert (numinuse root =? 0) ;;; ret None else
    let j := u32 (Z.quot (s32 (p - kr_page root)) sizeof_pageref) in
    if j <? NPAGEREFS_PER_PAGE then
      let i := j / 32 in
      let k := Z.shiftl 1 (j mod 32) in
      word <- deref (pagerefs_inuse root !! Z.to_nat i) ;;
      kassert (negb (Z.land word k =? 0)) ;;;
      kassert (0 <? numinuse root) ;;;
      root_put whichroot (KheapRoot (kr_page root) (<[Z.to_nat i := Z.land word (u32 (Z.lnot k))]> (pagerefs_inuse root)) (numinuse root - 1)) ;;;
      ret (Some tt)
    else ret None) ;;
  match r with Some _ => ret tt | None => panic end.

(** ** Lists of pagerefs *)

(** One of the two walks: [guy] is the base or the link field of [prev]. *)
Definition unlink (base : KM Z) (put_base : Z -> KM unit) (next : pageref -> Z) (set_next : Z -> pageref -> pageref) (pr : Z) : KM unit :=
  s <- get ;;
  loop_ (ref_fuel s) 0 (fun prev =>
    guy <- (if prev =? 0 then base else x <- ref_at prev ;; ret (next x)) ;;
    if guy =? 0 then ret (inr tt) else
    if guy =? pr then
      x <- ref_at pr ;;
      (if prev =? 0 then put_base (next x) else y <- ref_at prev ;; ref_put prev (set_next (next x) y)) ;;;
      ret (inr tt)
    else ret (inl guy)).

Definition set_next_samesize (n : Z) (x : pageref) : pageref := Pageref n (next_all x) (pageaddr_and_blocktype x) (freelist_offset x) (nfree x).
Definition set_next_all (n : Z) (x : pageref) : pageref := Pageref (next_samesize x) n (pageaddr_and_blocktype x) (freelist_offset x) (nfree x).
Definition set_free (off n : Z) (x : pageref) : pageref := Pageref (next_samesize x) (next_all x) (pageaddr_and_blocktype x) off n.

Definition remove_lists (pr blktype : Z) : KM unit :=
  kassert ((0 <=? blktype) && (blktype <? NSIZES)) ;;;
  unlink (sizebase_at blktype) (sizebase_put blktype) next_samesize set_next_samesize pr ;;;
  unlink (gets allbase) (fun x => modify (set_allbase x)) next_all set_next_all pr.

(** ** Blocks of less than a page *)

Definition blocktype (clientsz : Z) : KM Z :=
  r <- for_ (Z.to_nat NSIZES) 0 (fun i => sz <- size_at i ;; if clientsz <=? sz then ret (Some i) else ret None) ;;
  match r with Some i => ret i | None => panic end.

(** The label [doalloc]. *)
Definition doalloc (pr : Z) : KM Z :=
  x <- ref_at pr ;;
  kassert (freelist_offset x <? PAGE_SIZE) ;;;
  let prpage := PR_PAGEADDR x in
  let fla := u32 (prpage + freelist_offset x) in
  fl <- word_at fla ;;
  let n := u16 (nfree x - 1) in
  (if negb (fl =? 0) then
     kassert (0 <? n) ;;;
     kassert (u32 (fl - prpage) <? PAGE_SIZE) ;;;
     ref_put pr (set_free (u16 (u32 (fl - prpage))) n x)
   else
     kassert (n =? 0) ;;;
     ref_put pr (set_free INVALID_OFFSET n x)) ;;;
  heap_release ;;;
  ret fla.

(** A fresh page cut into blocks of type [blktype]. *)
Definition newpage (pr prpage blktype : Z) : KM unit :=
  sz <- size_at blktype ;;
  let n := u16 (PAGE_SIZE / sz) in
  s <- get ;;
  let old := default (Pageref junk junk junk junk junk) (kh_refs s !! pr) in
  ref_put pr (Pageref (next_samesize old) (next_all old) (MKPAB prpage blktype) (freelist_offset old) n) ;;;
  word_put prpage 0 ;;;
  r <- for_acc (R := unit) (Z.to_nat (n - 1)) 1 prpage (fun i _ =>
    let fl := u32 (prpage + i * sz) in
    let next := u32 (prpage + (i - 1) * sz) in
    word_put fl next ;;;
    kassert (negb (fl =? next)) ;;;
    ret (inl fl)) ;;
  let fl := match r with inl fl => fl | inr _ => prpage end in
  let off := u16 (u32 (fl - prpage)) in
  kassert (off =? (n - 1) * sz) ;;;
  base <- sizebase_at blktype ;;
  s <- get ;;
  ref_put pr (Pageref base (allbase s) (MKPAB prpage blktype) off n) ;;;
  sizebase_put blktype pr ;;;
  modify (set_allbase pr).

(** The walk over the pages of the size. *)
Definition find_free (blktype base : Z) : KM Z :=
  s <- get ;;
  loop_ (ref_fuel s) base (fun pr =>
    if pr =? 0 then ret (inr 0) else
    x <- ref_at pr ;;
    kassert (PR_BLOCKTYPE x =? blktype) ;;;
    if 0 <? nfree x then ret (inr pr) else ret (inl (next_samesize x))).

Definition subpage_kmalloc (sz : Z) : KM Z :=
  blktype <- blocktype sz ;;
  heap_acquire ;;;
  base <- sizebase_at blktype ;;
  pr <- find_free blktype base ;;
  if negb (pr =? 0) then doalloc pr else
  heap_release ;;;
  prpage <- pages (kp_alloc 1) ;;
  if prpage =? 0 then ret 0 else
  kassert (prpage mod PAGE_SIZE =? 0) ;;;
  heap_acquire ;;;
  pr <- allocpageref ;;
  if pr =? 0 then
    heap_release ;;;
    pages (kp_free prpage) ;;;
    ret 0
  else
  newpage pr prpage blktype ;;;
  doalloc pr.

(** The walk over all pages. *)
Definition find_page (ptraddr : Z) : KM Z :=
  s <- get ;;
  loop_ (ref_fuel s) (allbase s) (fun pr =>
    if pr =? 0 then ret (inr 0) else
    x <- ref_at pr ;;
    kassert ((0 <=? PR_BLOCKTYPE x) && (PR_BLOCKTYPE x <? NSIZES)) ;;;
    if (PR_PAGEADDR x <=? ptraddr) && (ptraddr <? u32 (PR_PAGEADDR x + PAGE_SIZE)) then ret (inr pr) else ret (inl (next_all x))).

(** 0, or -1 when the pointer is on no heap page. *)
Definition subpage_kfree (ptraddr : Z) : KM Z :=
  heap_acquire ;;;
  pr <- find_page ptraddr ;;
  if pr =? 0 then heap_release ;;; ret (-1) else
  x <- ref_at pr ;;
  let prpage := PR_PAGEADDR x in
  let blktype := PR_BLOCKTYPE x in
  let offset := u32 (ptraddr - prpage) in
  sz <- size_at blktype ;;
  if (PAGE_SIZE <=? offset) || negb (offset mod sz =? 0) then panic else
  fill_deadbeef ptraddr sz ;;;
  let fla := u32 (prpage + offset) in
  (if freelist_offset x =? INVALID_OFFSET then word_put fla 0
   else
     let next := u32 (prpage + freelist_offset x) in
     word_put fla next ;;;
     kassert (negb (fla =? next))) ;;;
  let n := u16 (nfree x + 1) in
  ref_put pr (set_free (u16 offset) n x) ;;;
  kassert (n <=? PAGE_SIZE / sz) ;;;
  (if n =? PAGE_SIZE / sz then
     remove_lists pr blktype ;;;
     freepageref pr ;;;
     heap_release ;;;
     pages (kp_free prpage)
   else heap_release) ;;;
  ret 0.

(** ** kmalloc and kfree *)

Definition kmalloc (sz : Z) : KM Z :=
  if LARGEST_SUBPAGE_SIZE <=? sz then
    let npages := u32 (sz + PAGE_SIZE - 1) / PAGE_SIZE in
    address <- pages (kp_alloc npages) ;;
    if address =? 0 then ret 0 else
    kassert (address mod PAGE_SIZE =? 0) ;;;
    ret address
  else subpage_kmalloc sz.

Definition kfree (ptr : Z) : KM unit :=
  if ptr =? 0 then ret tt else
  r <- subpage_kfree ptr ;;
  if negb (r =? 0) then
    kassert (ptr mod PAGE_SIZE =? 0) ;;;
    pages (kp_free ptr)
  else ret tt.
End kmalloc.
