(* ===== verification/KmallocInv.v ===== *)
(** * The invariant of the kernel heap

    Chains, the bitmaps of the pageref pages, and [kinv]: the heap pages as a
    list in the order of the code's lists, the whole-page blocks as a map. *)

From S2P Require Import Prelude VmState KPages Kmalloc.

(** ** Chains *)

(** [l] is linked by [get] and ends in [e]. *)
Fixpoint chain (get : Z -> option Z) (l : list Z) (e : Z) : Prop :=
  match l with
  | [] => True
  | a :: r => get a = Some (hd e r) /\ chain get r e
  end.

Lemma chain_app get l1 l2 e : chain get (l1 ++ l2) e <-> chain get l1 (hd e l2) /\ chain get l2 e.
Proof. induction l1 as [|a l1 IH]; simpl; [tauto|]. rewrite IH. destruct l1; simpl; tauto. Qed.

Lemma chain_ext get get' l e : (forall a, a ∈ l -> get' a = get a) -> chain get l e -> chain get' l e.
Proof.
  induction l as [|a l IH]; simpl; [done|]. intros Hg [Ha Hl]. split.
  - rewrite Hg; [done|left].
  - apply IH; [|done]. intros b Hb. apply Hg. by right.
Qed.

(** Taking [x] out of a chain relinks the one before it. *)
Lemma chain_unlink get get' l1 y x l2 : NoDup (l1 ++ y :: x :: l2) ->
  get' y = Some (hd 0 l2) -> (forall a, a <> y -> get' a = get a) ->
  chain get (l1 ++ y :: x :: l2) 0 -> chain get' (l1 ++ y :: l2) 0.
Proof.
  intros Hnd Hy Ho Hc. apply NoDup_app in Hnd as (_ & Hd & Hnd). apply NoDup_cons in Hnd as [Hy' _].
  apply chain_app in Hc as [H1 (_ & _ & H2)]. apply chain_app. split; [|split; [done|]].
  - apply (chain_ext get); [|done]. intros a Ha. apply Ho. intros ->. apply (Hd y Ha). left.
  - apply (chain_ext get); [|done]. intros a Ha. apply Ho. intros ->. apply Hy'. by right.
Qed.

(** ** The entries in use on a pageref page *)

Definition bit (ws : list Z) (j : Z) : bool := Z.testbit (default 0 (ws !! Z.to_nat (j / 32))) (j mod 32).

Definition in_use (r : kheap_root) : gset Z := list_to_set (filter (fun j => bit (pagerefs_inuse r) j = true) (seqZ 0 256)).

Lemma elem_in_use r j : j ∈ in_use r <-> 0 <= j < 256 /\ bit (pagerefs_inuse r) j = true.
Proof. unfold in_use. rewrite elem_of_list_to_set, list_elem_of_filter, elem_of_seqZ. lia || tauto. Qed.

Record root_ok (r : kheap_root) : Prop := {
  ro_len : length (pagerefs_inuse r) = 8%nat;
  ro_words : Forall (fun w => 0 <= w < 2 ^ 32) (pagerefs_inuse r);
  ro_num : numinuse r = Z.of_nat (size (in_use r));
}.

Definition full_use : gset Z := list_to_set (seqZ 0 256).

Lemma size_full_use : size full_use = 256%nat.
Proof. unfold full_use. rewrite size_list_to_set by apply NoDup_seqZ. done. Qed.

Lemma in_use_full r : in_use r ⊆ full_use.
Proof. intros j Hj. apply elem_in_use in Hj as [? _]. apply elem_of_list_to_set, elem_of_seqZ. lia. Qed.

Lemma numinuse_le r : root_ok r -> 0 <= numinuse r <= 256.
Proof. intros [_ _ ->]. pose proof (subseteq_size _ _ (in_use_full r)). rewrite size_full_use in *. lia. Qed.

Lemma in_use_pos r j : root_ok r -> j ∈ in_use r -> 0 < numinuse r.
Proof. intros [_ _ ->] Hj. assert (size (in_use r) <> 0%nat); [|lia]. intros E%size_empty_inv. set_solver. Qed.

(** All words full means all 256 entries in use. *)
Lemma full_words r : root_ok r -> (forall i, 0 <= i < 8 -> pagerefs_inuse r !! Z.to_nat i = Some 4294967295) -> numinuse r = 256.
Proof.
  intros Hr Hf. destruct Hr as [_ _ ->]. assert (in_use r = full_use) as ->; [|by rewrite size_full_use].
  apply set_eq. intros j. rewrite elem_in_use. unfold full_use. rewrite elem_of_list_to_set, elem_of_seqZ. split; [lia|]. intros Hj. split; [lia|].
  unfold bit. rewrite Hf by zlia. simpl. change 4294967295 with (Z.ones 32). apply Z.ones_spec_low. zlia.
Qed.

(** Changing bit [o] of word [i]. *)
Lemma bit_update ws i o w w' j b : length ws = 8%nat -> 0 <= i < 8 -> 0 <= o < 32 -> 0 <= j < 256 -> ws !! Z.to_nat i = Some w ->
  (forall k, 0 <= k < 32 -> Z.testbit w' k = if bool_decide (k = o) then b else Z.testbit w k) ->
  bit (<[Z.to_nat i := w']> ws) j = if bool_decide (j = i * 32 + o) then b else bit ws j.
Proof.
  intros Hl Hi Ho Hj Hw Hb. unfold bit. destruct (decide (j / 32 = i)) as [E|E].
  - rewrite E, list_lookup_insert_eq, Hw by lia. simpl. rewrite Hb by zlia. repeat case_bool_decide; try done; zlia.
  - rewrite list_lookup_insert_ne by zlia. rewrite bool_decide_eq_false_2; [done|zlia].
Qed.

Definition with_use (r : kheap_root) ws n := KheapRoot (kr_page r) ws n.

Lemma use_entry r i o w : root_ok r -> numinuse r < 256 -> 0 <= i < 8 -> 0 <= o < 32 -> pagerefs_inuse r !! Z.to_nat i = Some w -> Z.testbit w o = false ->
  let r' := with_use r (<[Z.to_nat i := Z.lor w (Z.shiftl 1 o)]> (pagerefs_inuse r)) (u32 (numinuse r + 1)) in
  root_ok r' /\ in_use r' = {[i * 32 + o]} ∪ in_use r /\ i * 32 + o ∉ in_use r /\ numinuse r' = numinuse r + 1.
Proof.
  intros Hr Hn Hi Ho Hw Hb r'. pose proof (numinuse_le r Hr) as Hle. destruct Hr as [Hl Hws Hnum].
  assert (Hw' : 0 <= w < 2 ^ 32) by exact (Forall_lookup_1 _ _ _ _ Hws Hw).
  assert (numinuse r' = numinuse r + 1) as En by (apply u32_id; lia).
  assert (i * 32 + o ∉ in_use r) as Hnot. { rewrite elem_in_use. intros [_ E]. unfold bit in E. replace ((i * 32 + o) / 32) with i in E by zlia. replace ((i * 32 + o) mod 32) with o in E by zlia. rewrite Hw in E. simpl in E. congruence. }
  assert (in_use r' = {[i * 32 + o]} ∪ in_use r) as Eu.
  { apply set_eq. intros j. rewrite elem_of_union, elem_of_singleton, !elem_in_use. unfold r', with_use. cbn [pagerefs_inuse].
    split.
    - intros [Hj E]. rewrite (bit_update _ i o w _ j true) in E; [case_bool_decide; tauto|done..|]. intros k Hk. rewrite testbit_setbit by lia. repeat case_bool_decide; try done; try lia; by rewrite ?orb_true_r, ?orb_false_r.
    - intros Hj. assert (0 <= j < 256) as Hj' by (destruct Hj; lia). split; [done|]. rewrite (bit_update _ i o w _ j true); [case_bool_decide; tauto|done..|]. intros k Hk. rewrite testbit_setbit by lia. repeat case_bool_decide; try done; try lia; by rewrite ?orb_true_r, ?orb_false_r. }
  split_and!; [|done..]. split.
  - unfold r'. simpl. by rewrite length_insert.
  - apply Forall_insert; [done|]. apply (lor_lt _ _ 32); [lia|done|]. pose proof (shiftl_1_lt o 32). lia.
  - rewrite En, Eu, size_union, size_singleton by set_solver. rewrite Hnum. lia.
Qed.

Lemma unuse_entry r j w : root_ok r -> j ∈ in_use r -> pagerefs_inuse r !! Z.to_nat (j / 32) = Some w ->
  let r' := with_use r (<[Z.to_nat (j / 32) := Z.land w (u32 (Z.lnot (Z.shiftl 1 (j mod 32))))]> (pagerefs_inuse r)) (numinuse r - 1) in
  root_ok r' /\ in_use r' = in_use r ∖ {[j]}.
Proof.
  intros Hr Hj Hw r'. pose proof Hj as Hj'. apply elem_in_use in Hj' as [Hjr Hb]. destruct Hr as [Hl Hws Hnum]. assert (Hw' : 0 <= w < 2 ^ 32) by exact (Forall_lookup_1 _ _ _ _ Hws Hw).
  assert (forall k, 0 <= k < 32 -> Z.testbit (Z.land w (u32 (Z.lnot (Z.shiftl 1 (j mod 32))))) k = if bool_decide (k = j mod 32) then false else Z.testbit w k) as Hbits.
  { intros k Hk. rewrite Z.land_spec. unfold u32. rewrite Z.mod_pow2_bits_low, Z.lnot_spec, testbit_shiftl_1 by zlia. repeat case_bool_decide; subst; try done; by rewrite ?andb_false_r, ?andb_true_r. }
  assert (in_use r' = in_use r ∖ {[j]}) as Eu.
  { apply set_eq. intros k. rewrite elem_of_difference, elem_of_singleton, !elem_in_use. unfold r', with_use. cbn [pagerefs_inuse].
    split.
    - intros [Hk E]. rewrite (bit_update _ (j / 32) (j mod 32) w _ k false) in E by (done || zlia). case_bool_decide; [done|]. split; [done|]. zlia.
    - intros [[Hk E] Hne]. split; [done|]. rewrite (bit_update _ (j / 32) (j mod 32) w _ k false) by (done || zlia). rewrite bool_decide_eq_false_2; [done|zlia]. }
  split; [|done]. split.
  - unfold r'. simpl. by rewrite length_insert.
  - apply Forall_insert; [done|]. pose proof (u32_range (Z.lnot (Z.shiftl 1 (j mod 32)))). split; [apply Z.land_nonneg; lia|]. pose proof (Z.land_nonneg w (u32 (Z.lnot (Z.shiftl 1 (j mod 32))))). destruct (decide (0 < Z.land w (u32 (Z.lnot (Z.shiftl 1 (j mod 32)))))); [|lia]. apply Z.log2_lt_pow2; [done|]. eapply Z.le_lt_trans; [apply Z.log2_land; lia|]. destruct (decide (w = 0)) as [->|]; [simpl; lia|]. pose proof (Z.log2_lt_pow2 w 32). lia.
  - rewrite Eu. rewrite size_difference by set_solver. rewrite size_singleton. unfold r'. simpl. pose proof (in_use_pos r j). assert (size (in_use r) <> 0%nat). { intros E%size_empty_inv. set_solver. } lia.
Qed.

(** ** Heap pages *)

Record hpage := HPage {
  hp_ref : Z;                   (* its pageref *)
  hp_page : Z;
  hp_type : Z;
  hp_free : list Z;             (* its free blocks, in the order of the free list *)
}.

Definition with_free (l : list Z) (h : hpage) : hpage := HPage (hp_ref h) (hp_page h) (hp_type h) l.

Definition tsize (t : Z) : Z := default 0 (sizes !! Z.to_nat t).
Definition hsize (h : hpage) : Z := tsize (hp_type h).
Definition is_block (h : hpage) (a : Z) : Prop := exists k, 0 <= k < PAGE_SIZE / hsize h /\ a = hp_page h + k * hsize h.
Definition refs_of (t : Z) (G : list hpage) : list Z := hp_ref <$> filter (fun h => hp_type h = t) G.

Definition free_head (h : hpage) : Z := match hp_free h with [] => INVALID_OFFSET | a :: _ => a - hp_page h end.

Record page_ok (refs : gmap Z pageref) (words : gmap Z Z) (h : hpage) : Prop := {
  po_type : 0 <= hp_type h < 8;
  po_ref : exists ns na, refs !! hp_ref h = Some (Pageref ns na (hp_page h + hp_type h) (free_head h) (Z.of_nat (length (hp_free h))));
  po_chain : chain (fun a => words !! a) (hp_free h) 0;
  po_nodup : NoDup (hp_free h);
  po_blocks : Forall (is_block h) (hp_free h);
}.

Definition root_page (roots : list kheap_root) (a : Z) : Prop := exists w r, roots !! w = Some r /\ kr_page r <> 0 /\ kr_page r = a.

(** The address [a] is that of an entry in use. *)
Definition entry (roots : list kheap_root) (a : Z) : Prop := exists w r j, roots !! w = Some r /\ kr_page r <> 0 /\ j ∈ in_use r /\ a = kr_page r + j * sizeof_pageref.

(** No root after one without a page has a page or an entry in use. *)
Definition later_empty (roots : list kheap_root) : Prop :=
  forall w w' r r', roots !! w = Some r -> roots !! w' = Some r' -> (w < w')%nat -> kr_page r = 0 -> kr_page r' = 0 /\ numinuse r' = 0.

(** A root that has entries in use but no page comes before one with a
    page. *)
Definition gap (roots : list kheap_root) : Prop :=
  exists w w' r r', roots !! w = Some r /\ roots !! w' = Some r' /\ (w < w')%nat /\ kr_page r = 0 /\ numinuse r <> 0 /\ kr_page r' <> 0.

(** [f] bounds the entries marked in use for which no pageref page could be
    allocated; below 256 of them, the roots are filled in order. *)
Record roots_ok (chunk : Z -> Z -> Prop) (roots : list kheap_root) (f : Z) : Prop := {
  rs_len : length roots = 16%nat;
  rs_ok : Forall root_ok roots;
  rs_chunk : forall w r, roots !! w = Some r -> kr_page r <> 0 -> chunk (kr_page r) 1;
  rs_inj : forall w w' r r', roots !! w = Some r -> roots !! w' = Some r' -> kr_page r = kr_page r' -> kr_page r <> 0 -> w = w';
  rs_later : f < 256 -> later_empty roots;
  rs_null : forall w r, roots !! w = Some r -> kr_page r = 0 -> numinuse r <= f;
}.

Lemma roots_no_gap chunk roots f : roots_ok chunk roots f -> f < 256 -> ~ gap roots.
Proof. intros Hr Hf (w & w' & r & r' & Hw & Hw' & Hlt & Hp & _ & Hp'). by destruct (rs_later _ _ _ Hr Hf w w' r r' Hw Hw' Hlt Hp). Qed.

Section kinv.
Context {P : Type} `{KPages P}.
Implicit Types s : kheap P.

Definition link_all s (a : Z) : option Z := next_all <$> kh_refs s !! a.
Definition link_size s (a : Z) : option Z := next_samesize <$> kh_refs s !! a.

Record kinv (G : list hpage) (big : gmap Z Z) (f : Z) s : Prop := {
  ki_pok : kp_ok (kh_pages s);
  ki_allbase : allbase s = hd 0 (hp_ref <$> G);
  ki_all : chain (link_all s) (hp_ref <$> G) 0;
  ki_bases : length (sizebases s) = 8%nat;
  ki_base : forall t, 0 <= t < 8 -> sizebases s !! Z.to_nat t = Some (hd 0 (refs_of t G));
  ki_size : forall t, 0 <= t < 8 -> chain (link_size s) (refs_of t G) 0;
  ki_refs : NoDup (hp_ref <$> G);
  ki_page : Forall (page_ok (kh_refs s) (kh_words s)) G;
  ki_pages : NoDup (hp_page <$> G);
  ki_chunk : forall h, h ∈ G -> kp_chunk (kh_pages s) (hp_page h) 1 /\ big !! hp_page h = None /\ ~ root_page (kheaproots s) (hp_page h);
  ki_big : forall a n, big !! a = Some n -> kp_chunk (kh_pages s) a n /\ ~ root_page (kheaproots s) a;
  ki_roots : roots_ok (kp_chunk (kh_pages s)) (kheaproots s) f;
  ki_used : forall h, h ∈ G -> entry (kheaproots s) (hp_ref h);
}.

(** ** Arithmetic of pages and blocks *)

Lemma tsize_cases t : 0 <= t < 8 -> sizes !! Z.to_nat t = Some (tsize t) /\ 16 <= tsize t <= 2048 /\ (PAGE_SIZE / tsize t) * tsize t = PAGE_SIZE /\ 2 <= PAGE_SIZE / tsize t <= 256.
Proof.
  intros Ht. assert (t = 0 \/ t = 1 \/ t = 2 \/ t = 3 \/ t = 4 \/ t = 5 \/ t = 6 \/ t = 7) as Hc by lia.
  repeat (destruct Hc as [->|Hc]; [vm_compute; split_and!; congruence|]). subst. vm_compute. split_and!; congruence.
Qed.

Lemma page_frame_add a t : 0 <= a < 2 ^ 32 -> a mod PAGE_SIZE = 0 -> 0 <= t < 8 -> Z.land (a + t) PAGE_FRAME = a /\ Z.land (a + t) (u32 (Z.lnot PAGE_FRAME)) = t.
Proof.
  unfold PAGE_SIZE. intros Ha Hm Ht. split.
  - change PAGE_FRAME with 4294963200. rewrite land_page_frame by zlia. zlia.
  - change (u32 (Z.lnot PAGE_FRAME)) with (Z.ones 12). rewrite Z.land_ones by lia. change (2 ^ 12) with 4096. zlia.
Qed.

Lemma MKPAB_add a t : 0 <= a < 2 ^ 32 -> a mod PAGE_SIZE = 0 -> 0 <= t < 8 -> MKPAB a t = a + t.
Proof.
  unfold PAGE_SIZE, MKPAB. intros Ha Hm Ht. change PAGE_FRAME with 4294963200 at 1. rewrite land_page_frame by done.
  change (u32 (Z.lnot PAGE_FRAME)) with (Z.ones 12). rewrite Z.land_ones by lia. change (2 ^ 12) with 4096. rewrite (Z.mod_small t) by lia.
  replace (a / 4096 * 4096) with a by zlia. rewrite <- Z.lxor_lor, <- Z.add_nocarry_lxor; [done|..].
  all: apply Z.bits_inj'; intros n Hn; rewrite Z.land_spec, Z.bits_0.
  all: destruct (decide (n < 12)) as [Hlt|]; [|rewrite (Z.bits_above_log2 t n), ?andb_false_r; [done|lia|]; destruct (decide (t = 0)) as [->|]; [simpl; lia|]; apply Z.log2_lt_pow2; [lia|]; apply (Z.lt_le_trans _ (2 ^ 12)); [lia|]; apply Z.pow_le_mono_r; lia].
  all: replace a with (a / 4096 * 2 ^ 12) by zlia; rewrite Z.mul_pow2_bits_low by lia; done.
Qed.

(** ** What the invariant says of the parts *)

Lemma kp_range1 (q : P) a : kp_ok q -> kp_chunk q a 1 -> 2 ^ 31 <= a /\ a mod PAGE_SIZE = 0 /\ a + PAGE_SIZE < 2 ^ 32.
Proof. intros Hok Hc. destruct (kp_range q a 1 Hok Hc) as (_ & ? & ? & ?). unfold MIPS_KSEG0 in *. lia. Qed.

Lemma kp_apart (q : P) a n b m : kp_ok q -> kp_chunk q a n -> kp_chunk q b m -> a <> b -> a + n * PAGE_SIZE <= b \/ b + m * PAGE_SIZE <= a.
Proof. intros Hok Ha Hb Hne. destruct (kp_disjoint q a n b m Hok Ha Hb) as [[? _]|[?|?]]; tauto. Qed.

Lemma ki_range G big f s h : kinv G big f s -> h ∈ G -> 2 ^ 31 <= hp_page h /\ hp_page h mod PAGE_SIZE = 0 /\ hp_page h + PAGE_SIZE < 2 ^ 32.
Proof. intros Hi Hh. apply (kp_range1 (kh_pages s)); [apply Hi|]. by destruct (ki_chunk _ _ _ _ Hi h Hh). Qed.

Lemma ki_page_of G big f s h : kinv G big f s -> h ∈ G -> page_ok (kh_refs s) (kh_words s) h.
Proof. intros Hi. apply (proj1 (Forall_forall _ _) (ki_page _ _ _ _ Hi)). Qed.

Lemma entry_range G big f s a : kinv G big f s -> entry (kheaproots s) a -> 2 ^ 31 <= a < 2 ^ 32 /\ is_ref s a = true.
Proof.
  intros Hi (w & r & j & Hw & Hn & Hj & ->). apply elem_in_use in Hj as [Hj _]. destruct (kp_range1 (kh_pages s) (kr_page r)) as (? & ? & ?); [apply Hi|by apply (rs_chunk _ _ _ (ki_roots _ _ _ _ Hi) w)|]. unfold PAGE_SIZE, sizeof_pageref in *.
  split; [lia|]. unfold is_ref. apply existsb_exists. exists r. split; [apply list_elem_of_In, list_elem_of_lookup; eauto|]. unfold PAGE_SIZE, sizeof_pageref.
  rewrite !andb_true_iff, negb_true_iff, Z.eqb_neq, Z.leb_le, Z.ltb_lt, Z.eqb_eq. split_and!; [done|lia|lia|]. replace (kr_page r + j * 16 - kr_page r) with (j * 16) by lia. apply Z.mod_mul. lia.
Qed.

Lemma ki_ref G big f s h : kinv G big f s -> h ∈ G -> 2 ^ 31 <= hp_ref h < 2 ^ 32 /\ is_ref s (hp_ref h) = true.
Proof. intros Hi Hh. apply (entry_range G big f s); [done|]. by apply (ki_used _ _ _ _ Hi). Qed.

Lemma ki_fuel G big f s : kinv G big f s -> (length G < ref_fuel s)%nat.
Proof.
  intros Hi. unfold ref_fuel. assert (length G <= size (kh_refs s))%nat; [|lia]. rewrite <- size_dom.
  rewrite <- (length_fmap hp_ref G), <- (size_list_to_set (C := gset Z) (hp_ref <$> G)) by apply Hi. apply subseteq_size. intros a. rewrite elem_of_list_to_set, elem_of_dom.
  intros (h & -> & Hh)%list_elem_of_fmap. destruct (po_ref _ _ _ (ki_page_of _ _ _ _ _ Hi Hh)) as (ns & na & E). by eexists.
Qed.

Lemma refs_of_length t G : (length (refs_of t G) <= length G)%nat.
Proof. unfold refs_of. rewrite length_fmap. apply length_filter. Qed.
End kinv.

(** * The steps of the kernel heap

    What each routine that [kmalloc] and [kfree] call does to [kinv]. *)

Section ops.
Context {P : Type} `{KPages P}.
Implicit Types s : kheap P.

(** ** Access *)

Lemma wp_ref_at (a : Z) x (Q : pageref -> kheap P -> Prop) s : kh_refs s !! a = Some x -> Q x s -> wp (ref_at a) Q s.
Proof. intros Ha HQ. unfold ref_at. wp_steps. by apply (wp_deref _ x). Qed.

Lemma wp_ref_put (a : Z) x (Q : unit -> kheap P -> Prop) s : is_ref s a = true -> Q tt (set_kh_refs (<[a := x]> (kh_refs s)) s) -> wp (ref_put a x) Q s.
Proof. intros Ha HQ. unfold ref_put. wp_steps. rewrite Ha. by wp_steps. Qed.

Lemma wp_size_at t (Q : Z -> kheap P -> Prop) s : 0 <= t < 8 -> Q (tsize t) s -> wp (size_at t) Q s.
Proof. intros Ht HQ. unfold size_at. wp_step; [boolify; lia|]. apply (wp_deref _ (tsize t)); [|done]. by apply tsize_cases. Qed.

Lemma wp_sizebase_at t b (Q : Z -> kheap P -> Prop) s : 0 <= t -> sizebases s !! Z.to_nat t = Some b -> Q b s -> wp (sizebase_at t) Q s.
Proof. intros Ht Hb HQ. unfold sizebase_at. wp_steps. wp_step; [boolify; lia|]. by apply (wp_deref _ b). Qed.

Lemma wp_heap_acquire (Q : unit -> kheap P -> Prop) s : kmalloc_spinlock s = false -> Q tt (set_kmalloc_spinlock true s) -> wp heap_acquire Q s.
Proof. intros Hl HQ. unfold heap_acquire. wp_steps. apply wp_kassert; [by rewrite Hl|]. by wp_steps. Qed.

Lemma wp_heap_release (Q : unit -> kheap P -> Prop) s : kmalloc_spinlock s = true -> Q tt (set_kmalloc_spinlock false s) -> wp heap_release Q s.
Proof. intros Hl HQ. unfold heap_release. wp_steps. apply wp_kassert; [by rewrite Hl|]. by wp_steps. Qed.

(** ** The page allocator *)

Lemma roots_ok_chunk (c c' : Z -> Z -> Prop) roots f : (forall w r, roots !! w = Some r -> kr_page r <> 0 -> c (kr_page r) 1 -> c' (kr_page r) 1) -> roots_ok c roots f -> roots_ok c' roots f.
Proof. intros Hc [? ? Hch ? ? ?]. split; eauto. Qed.

Lemma kinv_lock G big f b s : kinv G big f s -> kinv G big f (set_kmalloc_spinlock b s).
Proof. by intros []. Qed.

(** Only the chunks of the page allocator matter. *)
Lemma kinv_pages G big f q s big' : kinv G big f s -> kp_ok q ->
  (forall h, h ∈ G -> kp_chunk q (hp_page h) 1 /\ big' !! hp_page h = None) ->
  (forall w r, kheaproots s !! w = Some r -> kr_page r <> 0 -> kp_chunk q (kr_page r) 1) ->
  (forall a n, big' !! a = Some n -> kp_chunk q a n /\ ~ root_page (kheaproots s) a) ->
  kinv G big' f (set_kh_pages q s).
Proof.
  intros Hi Hq Hg Hr Hb. split; try apply Hi; try done.
  - intros h Hh. destruct (Hg h Hh) as [? ?]. split_and!; [done..|]. by apply (ki_chunk _ _ _ _ Hi).
  - apply (roots_ok_chunk (kp_chunk (kh_pages s))); [|apply Hi]. intros w r ? ? _. by apply (Hr w r).
Qed.

Lemma wp_pages_alloc G big f n s (Q : Z -> kheap P -> Prop) : kinv G big f s -> 1 <= n < 2 ^ 31 ->
  (forall q, kinv G big f (set_kh_pages q s) -> Q 0 (set_kh_pages q s)) ->
  (forall a q, a <> 0 -> a mod PAGE_SIZE = 0 -> big !! a = None -> (forall h, h ∈ G -> hp_page h <> a) -> kinv G (<[a := n]> big) f (set_kh_pages q s) -> Q a (set_kh_pages q s)) ->
  wp (pages (kp_alloc n)) Q s.
Proof.
  intros Hi Hn H0 H1. unfold pages. wp_step. wp_apply kp_alloc_law; [apply Hi|done|]. intros a q [Hq [(-> & Hc)|(Ha & Hnew & Hc & Ho)]].
  - apply H0. apply (kinv_pages G big); [done..| | |].
    + intros h Hh. destruct (ki_chunk _ _ _ _ Hi h Hh) as (? & ? & _). split; [by apply Hc|done].
    + intros w r Hw Hr. apply Hc. by apply (rs_chunk _ _ _ (ki_roots _ _ _ _ Hi) w).
    + intros b m Hb. destruct (ki_big _ _ _ _ Hi b m Hb). split; [by apply Hc|done].
  - assert (forall b m, kp_chunk (kh_pages s) b m -> b <> a) as Hne by (intros b m ? ->; by eapply Hnew).
    assert (forall h, h ∈ G -> hp_page h <> a) as Hg by (intros h Hh; eapply Hne; by apply (ki_chunk _ _ _ _ Hi h)).
    apply H1; [done|by apply (kp_range q a n)| |done|].
    + destruct (big !! a) as [m|] eqn:E; [|done]. destruct (ki_big _ _ _ _ Hi a m E) as [Hb _]. by destruct (Hnew m).
    + apply (kinv_pages G big); [done..| | |].
      * intros h Hh. destruct (ki_chunk _ _ _ _ Hi h Hh) as (? & ? & _). split; [by apply Ho; eauto|]. rewrite lookup_insert_ne; [done|]. intros E. by destruct (Hg h Hh).
      * intros w r Hw Hr. pose proof (rs_chunk _ _ _ (ki_roots _ _ _ _ Hi) w r Hw Hr). apply Ho; eauto.
      * intros b m Hb. apply lookup_insert_Some in Hb as [[<- <-]|[Hab Hb]].
        -- split; [done|]. intros (w & r & Hw & Hr & E). subst. eapply (Hnew 1). by apply (rs_chunk _ _ _ (ki_roots _ _ _ _ Hi) w).
        -- destruct (ki_big _ _ _ _ Hi b m Hb). split; [by apply Ho; eauto|done].
Qed.

Lemma wp_pages_free G big f a n s (Q : unit -> kheap P -> Prop) : kinv G big f s -> big !! a = Some n ->
  (forall q, kinv G (delete a big) f (set_kh_pages q s) -> Q tt (set_kh_pages q s)) -> wp (pages (kp_free a)) Q s.
Proof.
  intros Hi Ha HQ. destruct (ki_big _ _ _ _ Hi a n Ha) as [Hc Hr]. unfold pages. wp_step. wp_apply kp_free_law; [apply Hi|done|]. intros [] q [Hq Ho]. apply HQ. apply (kinv_pages G big); [done..| | |].
  - intros h Hh. destruct (ki_chunk _ _ _ _ Hi h Hh) as (? & Hb & _). split; [|apply lookup_delete_None; by right]. apply Ho. split; [congruence|done].
  - intros w r Hw Hp. apply Ho. split; [|by apply (rs_chunk _ _ _ (ki_roots _ _ _ _ Hi) w)]. intros E. apply Hr. by exists w, r.
  - intros b m Hb. apply lookup_delete_Some in Hb as [Hne Hb]. destruct (ki_big _ _ _ _ Hi b m Hb). split; [by apply Ho|done].
Qed.

(** ** A free list changes *)

Lemma is_block_range h a : 0 <= hp_type h < 8 -> is_block h a -> hp_page h <= a /\ a + hsize h <= hp_page h + PAGE_SIZE.
Proof. intros Ht (k & Hk & ->). unfold hsize in *. destruct (tsize_cases _ Ht) as (_ & ? & ? & _). nia. Qed.

Lemma with_free_block l h a : is_block (with_free l h) a <-> is_block h a.
Proof. done. Qed.

Lemma NoDup_page_apart G1 h G2 big f s g a : kinv (G1 ++ h :: G2) big f s -> g ∈ G1 ++ G2 -> is_block g a -> ~ (hp_page h <= a < hp_page h + PAGE_SIZE).
Proof.
  intros Hi Hg Ha. assert (g ∈ G1 ++ h :: G2) as Hg' by set_solver. assert (h ∈ G1 ++ h :: G2) as Hh by set_solver. destruct (ki_chunk _ _ _ _ Hi g Hg') as [Hc _], (ki_chunk _ _ _ _ Hi h Hh) as [Hc' _].
  destruct (is_block_range g a) as [? ?]; [by apply (ki_page_of _ _ _ _ _ Hi)|done|]. destruct (tsize_cases (hp_type g)) as (_ & ? & _); [by apply (ki_page_of _ _ _ _ _ Hi)|]. unfold hsize in *.
  assert (hp_page g <> hp_page h) as Hne. { intros E. pose proof (ki_pages _ _ _ _ Hi) as Hnd. rewrite fmap_app, fmap_cons in Hnd. apply NoDup_mid in Hnd as (Hn1 & Hn2 & _). rewrite <- E in Hn1, Hn2. apply elem_of_app in Hg as [Hg|Hg]; [apply Hn1|apply Hn2]; by apply list_elem_of_fmap_2. }
  destruct (kp_apart (kh_pages s) (hp_page g) 1 (hp_page h) 1) as [?|?]; [apply Hi|done..|lia|lia].
Qed.

Lemma ref_apart G1 h G2 big f s g : kinv (G1 ++ h :: G2) big f s -> g ∈ G1 ++ G2 -> hp_ref g <> hp_ref h.
Proof.
  intros Hi Hg E. pose proof (ki_refs _ _ _ _ Hi) as Hnd. rewrite fmap_app, fmap_cons in Hnd. apply NoDup_mid in Hnd as (Hn1 & Hn2 & _). rewrite <- E in Hn1, Hn2. apply elem_of_app in Hg as [Hg|Hg]; [apply Hn1|apply Hn2]; by apply list_elem_of_fmap_2.
Qed.

(** A page whose pageref and words are as before. *)
Lemma page_ok_same (refs refs' : gmap Z pageref) words words' g : page_ok refs words g -> (exists x, refs !! hp_ref g = Some x /\ exists ns na, refs' !! hp_ref g = Some (Pageref ns na (pageaddr_and_blocktype x) (freelist_offset x) (nfree x))) ->
  (forall a, a ∈ hp_free g -> words' !! a = words !! a) -> page_ok refs' words' g.
Proof.
  intros [Ht (ns & na & Hr) Hc Hn Hb] (x & Hx & ns' & na' & Hx') Hw. split; try done.
  - rewrite Hr in Hx. injection Hx as <-. by exists ns', na'.
  - by apply (chain_ext (fun a => words !! a)).
Qed.

Lemma refs_of_mid t G1 h l G2 : refs_of t (G1 ++ with_free l h :: G2) = refs_of t (G1 ++ h :: G2).
Proof. unfold refs_of. rewrite !filter_app, !filter_cons. cbn. rewrite !fmap_app. f_equal. by case_decide. Qed.

Lemma pages_mid {A} (p : hpage -> A) G1 h l G2 : p (with_free l h) = p h -> p <$> G1 ++ with_free l h :: G2 = p <$> G1 ++ h :: G2.
Proof. intros E. by rewrite !fmap_app, !fmap_cons, E. Qed.

(** The links of the lists do not depend on the free lists. *)
Lemma link_set_free {B} (p : pageref -> B) (refs : gmap Z pageref) r x off n a : refs !! r = Some x -> p (set_free off n x) = p x -> p <$> <[r := set_free off n x]> refs !! a = p <$> refs !! a.
Proof. intros Hx E. destruct (decide (a = r)) as [->|]; [rewrite lookup_insert_eq, Hx; simpl; by rewrite E|by rewrite lookup_insert_ne]. Qed.

Lemma kinv_free G1 h G2 big f l x s s' : kinv (G1 ++ h :: G2) big f s -> kh_refs s !! hp_ref h = Some x ->
  kh_pages s' = kh_pages s -> kheaproots s' = kheaproots s -> sizebases s' = sizebases s -> allbase s' = allbase s ->
  kh_refs s' = <[hp_ref h := set_free (free_head (with_free l h)) (Z.of_nat (length l)) x]> (kh_refs s) ->
  (forall a, ~ (hp_page h <= a < hp_page h + PAGE_SIZE) -> kh_words s' !! a = kh_words s !! a) ->
  chain (fun a => kh_words s' !! a) l 0 -> NoDup l -> Forall (is_block h) l ->
  kinv (G1 ++ with_free l h :: G2) big f s'.
Proof.
  intros Hi Hx Ep Er Es Ea Ef Hw Hc Hn Hb.
  assert (forall g, g ∈ G1 ++ with_free l h :: G2 -> exists g', g' ∈ G1 ++ h :: G2 /\ hp_ref g' = hp_ref g /\ hp_page g' = hp_page g) as Hg.
  { intros g Hg. rewrite elem_of_app, elem_of_cons in Hg. destruct Hg as [?|[->|?]]; [exists g|exists h|exists g]; split_and!; try done; set_solver. }
  split; rewrite ?Ep, ?Er, ?Es, ?Ea, ?pages_mid by done; try apply Hi; try done.
  - apply (chain_ext (link_all s)); [|apply Hi]. intros a _. unfold link_all. rewrite Ef. by apply link_set_free.
  - intros t Ht. rewrite refs_of_mid. by apply Hi.
  - intros t Ht. rewrite refs_of_mid. apply (chain_ext (link_size s)); [|by apply Hi]. intros a _. unfold link_size. rewrite Ef. by apply link_set_free.
  - apply Forall_app. assert (Forall (page_ok (kh_refs s') (kh_words s')) (G1 ++ G2)) as Ho.
    { apply Forall_forall. intros g Hg'. assert (g ∈ G1 ++ h :: G2) as Hin by set_solver. pose proof (ki_page_of _ _ _ _ _ Hi Hin) as Hok. destruct (po_ref _ _ _ Hok) as (ns & na & Hr).
      apply (page_ok_same (kh_refs s) _ (kh_words s)); [done| |].
      - eexists. split; [exact Hr|]. exists ns, na. rewrite Ef, lookup_insert_ne; [exact Hr|]. intros E. by eapply (ref_apart G1 h G2).
      - intros a Ha. apply Hw. eapply (NoDup_page_apart G1 h G2); [done|done|]. pose proof (po_blocks _ _ _ Hok) as Hbl. rewrite Forall_forall in Hbl. by apply Hbl. }
    apply Forall_app in Ho as [Ho1 Ho2]. split; [done|]. apply Forall_cons. split; [|done].
    assert (h ∈ G1 ++ h :: G2) as Hin by set_solver. pose proof (ki_page_of _ _ _ _ _ Hi Hin) as [Ht (ns & na & Hr) _ _ _]. rewrite Hr in Hx. injection Hx as <-. split; try done. exists ns, na. rewrite Ef. cbn [hp_ref with_free hp_free]. by rewrite lookup_insert_eq.
  - intros g (g' & Hin & E1 & E2)%Hg. rewrite <- E2. by apply (ki_chunk _ _ _ _ Hi).
  - intros g (g' & Hin & E1 & E2)%Hg. rewrite <- E1. by apply (ki_used _ _ _ _ Hi).
Qed.

(** ** Taking a block from a page *)

Definition blocks (h : hpage) : list Z := (fun k => hp_page h + k * hsize h) <$> seqZ 0 (PAGE_SIZE / hsize h).

Lemma elem_of_blocks h a : a ∈ blocks h <-> is_block h a.
Proof.
  unfold blocks, is_block. rewrite list_elem_of_fmap. split.
  - intros (k & -> & Hk%elem_of_seqZ). exists k. split; [lia|done].
  - intros (k & Hk & ->). exists k. split; [done|]. apply elem_of_seqZ. lia.
Qed.

Lemma blocks_count h : 0 <= hp_type h < 8 -> Z.of_nat (length (blocks h)) = PAGE_SIZE / hsize h.
Proof. intros Ht. unfold blocks, hsize. destruct (tsize_cases _ Ht) as (_ & _ & _ & ?). rewrite length_fmap, length_seqZ. lia. Qed.

Lemma blocks_length h l : 0 <= hp_type h < 8 -> NoDup l -> Forall (is_block h) l -> Z.of_nat (length l) <= PAGE_SIZE / hsize h.
Proof.
  intros Ht Hn Hb. rewrite <- blocks_count by done. apply inj_le, submseteq_length, NoDup_submseteq; [done|]. intros a Ha. apply elem_of_blocks. rewrite Forall_forall in Hb. by apply Hb.
Qed.

Lemma u16_id z : 0 <= z < 2 ^ 16 -> u16 z = z.
Proof. apply Z.mod_small. Qed.

Lemma wp_doalloc G1 h G2 big f a l s (Q : Z -> kheap P -> Prop) : kinv (G1 ++ h :: G2) big f s -> hp_free h = a :: l -> kmalloc_spinlock s = true ->
  (forall s', kinv (G1 ++ with_free l h :: G2) big f s' -> kmalloc_spinlock s' = false -> kh_words s' = kh_words s -> Q a s') ->
  wp (doalloc (hp_ref h)) Q s.
Proof.
  intros Hi Hf Hl HQ. assert (h ∈ G1 ++ h :: G2) as Hin by set_solver. pose proof (ki_page_of _ _ _ _ _ Hi Hin) as [Ht (ns & na & Hr) Hc Hn Hb]. destruct (ki_range _ _ _ _ _ Hi Hin) as (Hp1 & Hp2 & Hp3). destruct (ki_ref _ _ _ _ _ Hi Hin) as [_ Hput].
  destruct (page_frame_add (hp_page h) (hp_type h)) as [Epa _]; [unfold PAGE_SIZE in *; lia|done|done|].
  pose proof (blocks_length h _ Ht Hn Hb) as Hlen. destruct (tsize_cases _ Ht) as (_ & Hsz & _ & Hcnt). unfold hsize in Hlen.
  unfold free_head in Hr. rewrite Hf in *. destruct Hc as [Hw Hc]. apply NoDup_cons in Hn as [Hna Hn]. apply Forall_cons in Hb as [Hba Hb]. destruct (is_block_range h a Ht Hba) as [Ha1 Ha2]. unfold hsize in Ha2. simpl length in *.
  unfold doalloc. wp_steps. eapply wp_ref_at; [exact Hr|]. unfold PR_PAGEADDR. cbn [freelist_offset nfree pageaddr_and_blocktype]. rewrite Epa, u32_id by (unfold PAGE_SIZE in *; lia). replace (hp_page h + (a - hp_page h)) with a by lia.
  wp_steps. apply wp_kassert; [apply Z.ltb_lt; lia|]. wp_steps. unfold word_at. wp_steps. apply (wp_deref _ (hd 0 l)); [done|]. rewrite u16_id by lia. replace (Z.of_nat (S (length l)) - 1) with (Z.of_nat (length l)) by lia.
  apply wp_bind. assert (forall s', kh_pages s' = kh_pages s -> kheaproots s' = kheaproots s -> sizebases s' = sizebases s -> allbase s' = allbase s -> kmalloc_spinlock s' = true -> kh_words s' = kh_words s ->
    kh_refs s' = <[hp_ref h := set_free (free_head (with_free l h)) (Z.of_nat (length l)) (Pageref ns na (hp_page h + hp_type h) (a - hp_page h) (Z.of_nat (S (length l))))]> (kh_refs s) -> wp (heap_release ;;; ret a) Q s') as Hk.
  { intros s' ? ? ? ? Hl' Ew ?. wp_steps. apply wp_heap_release; [done|]. wp_steps. apply HQ; [|done|done]. apply kinv_lock. eapply (kinv_free _ h); try done; rewrite Ew; done. }
  destruct l as [|b l].
  - cbn [hd Z.eqb negb length]. wp_steps. apply wp_kassert; [done|]. apply wp_ref_put; [done|]. by apply Hk.
  - apply Forall_cons in Hb as [Hbb Hb]. destruct (is_block_range h b Ht Hbb) as [Hb1 Hb2]. unfold hsize in Hb2. simpl hd. replace (b =? 0) with false by lia. cbn [negb].
    wp_steps. apply wp_kassert; [apply Z.ltb_lt; simpl; lia|]. wp_steps. rewrite u32_id by (unfold PAGE_SIZE in *; lia). apply wp_kassert; [apply Z.ltb_lt; lia|]. rewrite u16_id by (unfold PAGE_SIZE in *; lia). apply wp_ref_put; [done|]. by apply Hk.
Qed.

(** ** The walks *)

Lemma wp_find_free G big f t s (Q : Z -> kheap P -> Prop) : kinv G big f s -> 0 <= t < 8 ->
  ((forall h, h ∈ G -> hp_type h = t -> hp_free h = []) -> Q 0 s) ->
  (forall G1 h G2, G = G1 ++ h :: G2 -> hp_type h = t -> hp_free h <> [] -> Q (hp_ref h) s) ->
  wp (find_free t (hd 0 (refs_of t G))) Q s.
Proof.
  intros Hi Ht H0 H1. unfold find_free. wp_steps. set (F := filter (fun h => hp_type h = t) G).
  apply (wp_loop_list _ F _ _ (fun xs l s' => s' = s /\ l = hd 0 (hp_ref <$> xs) /\ exists pre, F = pre ++ xs /\ Forall (fun h => hp_free h = []) pre)).
  - split_and!; [done|done|]. exists []. by split.
  - pose proof (length_filter (fun h => hp_type h = t) G). pose proof (ki_fuel _ _ _ _ Hi). unfold F. lia.
  - intros xs l s' (-> & -> & pre & HF & Hpre). destruct xs as [|h xs]; simpl.
    + wp_steps. apply H0. intros h Hh Hty. rewrite Forall_forall in Hpre. apply Hpre. rewrite app_nil_r in HF. rewrite <- HF. unfold F. by apply list_elem_of_filter.
    + assert (h ∈ F) as [Hty Hin]%list_elem_of_filter by (rewrite HF; set_solver).
      pose proof (ki_page_of _ _ _ _ _ Hi Hin) as [_ (ns & na & Hr) _ _ _]. destruct (ki_ref _ _ _ _ _ Hi Hin) as [Hnz _]. destruct (ki_range _ _ _ _ _ Hi Hin) as (? & ? & ?).
      replace (hp_ref h =? 0) with false by lia. wp_steps. eapply wp_ref_at; [exact Hr|]. wp_steps. unfold PR_BLOCKTYPE. cbn [pageaddr_and_blocktype nfree next_samesize].
      destruct (page_frame_add (hp_page h) (hp_type h)) as [_ ->]; [unfold PAGE_SIZE in *; lia|done|lia|]. apply wp_kassert; [by apply Z.eqb_eq|]. destruct (0 <? Z.of_nat (length (hp_free h))) eqn:En; wp_steps; boolify.
      * apply list_elem_of_split in Hin as (G1 & G2 & ->). apply (H1 G1 h G2); [done|done|]. intros E. by rewrite E in En.
      * exists h, xs. split; [done|]. split; [done|]. split.
        -- pose proof (ki_size _ _ _ _ Hi t Ht) as Hc. unfold refs_of in Hc. fold F in Hc. rewrite HF, fmap_app in Hc. apply chain_app in Hc as [_ [Hl _]]. unfold link_size in Hl. rewrite Hr in Hl. injection Hl as ->. done.
        -- exists (pre ++ [h]). split; [by rewrite <- app_assoc|]. apply Forall_app. split; [done|]. constructor; [|done]. destruct (hp_free h); [done|simpl in En; lia].
Qed.

Lemma wp_find_page G big f a s (Q : Z -> kheap P -> Prop) : kinv G big f s ->
  ((forall h, h ∈ G -> ~ (hp_page h <= a < hp_page h + PAGE_SIZE)) -> Q 0 s) ->
  (forall G1 h G2, G = G1 ++ h :: G2 -> hp_page h <= a < hp_page h + PAGE_SIZE -> Q (hp_ref h) s) ->
  wp (find_page a) Q s.
Proof.
  intros Hi H0 H1. unfold find_page. wp_steps. rewrite (ki_allbase _ _ _ _ Hi).
  apply (wp_loop_list _ G _ _ (fun xs l s' => s' = s /\ l = hd 0 (hp_ref <$> xs) /\ exists pre, G = pre ++ xs /\ Forall (fun h => ~ (hp_page h <= a < hp_page h + PAGE_SIZE)) pre)).
  - split_and!; [done|done|]. exists []. by split.
  - by apply (ki_fuel _ _ _ _ Hi).
  - intros xs l s' (-> & -> & pre & HF & Hpre). destruct xs as [|h xs]; simpl.
    + wp_steps. apply H0. intros h Hh. rewrite Forall_forall in Hpre. apply Hpre. rewrite app_nil_r in HF. by rewrite <- HF.
    + assert (h ∈ G) as Hin by (rewrite HF; set_solver).
      pose proof (ki_page_of _ _ _ _ _ Hi Hin) as [Ht (ns & na & Hr) _ _ _]. destruct (ki_ref _ _ _ _ _ Hi Hin) as [Hnz _]. destruct (ki_range _ _ _ _ _ Hi Hin) as (? & ? & ?).
      replace (hp_ref h =? 0) with false by lia. wp_steps. eapply wp_ref_at; [exact Hr|]. wp_steps. unfold PR_BLOCKTYPE, PR_PAGEADDR. cbn [pageaddr_and_blocktype nfree next_all].
      destruct (page_frame_add (hp_page h) (hp_type h)) as [-> ->]; [unfold PAGE_SIZE in *; lia|done|lia|]. rewrite u32_id by (unfold PAGE_SIZE in *; lia). apply wp_kassert; [unfold NSIZES; lia|].
      destruct ((hp_page h <=? a) && (a <? hp_page h + PAGE_SIZE))%bool eqn:En; wp_steps.
      * boolify. apply (H1 pre h xs); [done|]. lia.
      * exists h, xs. split; [done|]. split; [done|]. split.
        -- pose proof (ki_all _ _ _ _ Hi) as Hc. rewrite HF, fmap_app in Hc. apply chain_app in Hc as [_ [Hl _]]. unfold link_all in Hl. rewrite Hr in Hl. injection Hl as ->. done.
        -- exists (pre ++ [h]). split; [by rewrite <- app_assoc|]. apply Forall_app. split; [done|]. constructor; [|done]. lia.
Qed.

(** ** A fresh page *)

(** The chunk [p] that the heap holds becomes a page of blocks. *)
Lemma kinv_newpage G big f p t pr l s s' : kinv G (<[p := 1]> big) f s -> big !! p = None -> entry (kheaproots s) pr -> pr ∉ hp_ref <$> G -> 0 <= t < 8 ->
  let h := HPage pr p t l in
  kh_pages s' = kh_pages s -> kheaproots s' = kheaproots s -> sizebases s' = <[Z.to_nat t := pr]> (sizebases s) -> allbase s' = pr ->
  kh_refs s' = <[pr := Pageref (hd 0 (refs_of t G)) (allbase s) (p + t) (free_head h) (Z.of_nat (length l))]> (kh_refs s) ->
  (forall a, ~ (p <= a < p + PAGE_SIZE) -> kh_words s' !! a = kh_words s !! a) ->
  chain (fun a => kh_words s' !! a) l 0 -> NoDup l -> Forall (is_block h) l ->
  kinv (h :: G) big f s'.
Proof.
  intros Hi Hp He Hpr Ht h Epg Er Es Ea Ef Hw Hc Hn Hb.
  destruct (ki_big _ _ _ _ Hi p 1 (lookup_insert_eq _ _ _)) as [Hch Hrp].
  assert (forall g, g ∈ G -> hp_page g <> p /\ hp_ref g <> pr) as Hg.
  { intros g Hg. destruct (ki_chunk _ _ _ _ Hi g Hg) as (_ & Hb' & _). apply lookup_insert_None in Hb' as [_ ?]. split; [done|]. intros E. apply Hpr. rewrite <- E. by apply list_elem_of_fmap_2. }
  assert (forall (B : Type) (q : pageref -> B) a, a ∈ hp_ref <$> G -> q <$> kh_refs s' !! a = q <$> kh_refs s !! a) as Hq.
  { intros B q a Ha. rewrite Ef, lookup_insert_ne; [done|]. by intros ->. }
  split; rewrite ?Epg, ?Er; try apply Hi; try done.
  - split; [unfold link_all; rewrite Ef, lookup_insert_eq; cbn; f_equal; apply Hi|]. apply (chain_ext (link_all s)); [|apply Hi]. intros a Ha. by apply Hq.
  - rewrite Es, length_insert. apply Hi.
  - intros t' Ht'. rewrite Es. unfold refs_of. rewrite filter_cons. cbn [hp_type h]. case_decide as E.
    + subst t'. rewrite list_lookup_insert_eq; [done|]. rewrite (ki_bases _ _ _ _ Hi). lia.
    + rewrite list_lookup_insert_ne by lia. by apply Hi.
  - intros t' Ht'. assert (chain (link_size s') (refs_of t' G) 0) as Hold.
    { apply (chain_ext (link_size s)); [|by apply Hi]. intros a Ha. apply Hq. unfold refs_of in Ha. apply list_elem_of_fmap in Ha as (g & -> & [_ ?]%list_elem_of_filter). by apply list_elem_of_fmap_2. }
    unfold refs_of in *. rewrite filter_cons. cbn [hp_type h]. case_decide as E; [|done]. subst t'. split; [|done]. unfold link_size. rewrite Ef, lookup_insert_eq. done.
  - rewrite fmap_cons. apply NoDup_cons. split; [done|]. apply Hi.
  - apply Forall_cons. split.
    + split; try done. eexists _, _. rewrite Ef, lookup_insert_eq. done.
    + apply Forall_forall. intros g Hin. pose proof (ki_page_of _ _ _ _ _ Hi Hin) as Hok. destruct (po_ref _ _ _ Hok) as (ns & na & Hr). apply (page_ok_same (kh_refs s) _ (kh_words s)); [done| |].
      * eexists. split; [exact Hr|]. exists ns, na. rewrite Ef, lookup_insert_ne; [exact Hr|]. intros E. by destruct (Hg g Hin).
      * intros a Ha. apply Hw. pose proof (po_blocks _ _ _ Hok) as Hbl. rewrite Forall_forall in Hbl. destruct (is_block_range g a (po_type _ _ _ Hok) (Hbl a Ha)) as [? ?]. destruct (tsize_cases _ (po_type _ _ _ Hok)) as (_ & ? & _). unfold hsize in *.
        destruct (ki_chunk _ _ _ _ Hi g Hin) as [Hcg _]. destruct (kp_apart (kh_pages s) (hp_page g) 1 p 1) as [?|?]; [apply Hi|done|done|by apply Hg|lia|lia].
  - rewrite fmap_cons. apply NoDup_cons. split; [|apply Hi]. intros (g & E & Hin)%list_elem_of_fmap. by destruct (Hg g Hin).
  - intros g Hin. apply elem_of_cons in Hin as [->|Hin]; [done|]. destruct (ki_chunk _ _ _ _ Hi g Hin) as (? & Hb' & ?). apply lookup_insert_None in Hb' as [? _]. done.
  - intros a n Ha. apply (ki_big _ _ _ _ Hi). rewrite lookup_insert_ne; [done|]. intros ->. by rewrite Hp in Ha.
  - intros g Hin. apply elem_of_cons in Hin as [->|Hin]; [done|]. by apply (ki_used _ _ _ _ Hi).
Qed.

(** The free list the code builds: from the last block down. *)
Definition down (p sz n : Z) : list Z := reverse ((fun k => p + k * sz) <$> seqZ 0 n).

Lemma down_S p sz n : 0 <= n -> down p sz (n + 1) = (p + n * sz) :: down p sz n.
Proof. intros Hn. unfold down. rewrite seqZ_app, fmap_app, reverse_app by lia. done. Qed.

Lemma down_hd p sz n : 1 <= n -> hd 0 (down p sz n) = p + (n - 1) * sz.
Proof. intros Hn. replace n with (n - 1 + 1) at 1 by lia. rewrite down_S by lia. done. Qed.

Lemma elem_of_down p sz n a : a ∈ down p sz n <-> exists k, 0 <= k < n /\ a = p + k * sz.
Proof.
  unfold down. rewrite elem_of_reverse, list_elem_of_fmap. split.
  - intros (k & -> & Hk%elem_of_seqZ). exists k. split; [lia|done].
  - intros (k & Hk & ->). exists k. split; [done|]. apply elem_of_seqZ. lia.
Qed.

Lemma down_nodup p sz n : 0 < sz -> NoDup (down p sz n).
Proof. intros Hs. unfold down. rewrite reverse_Permutation. apply NoDup_fmap_2_strong; [|apply NoDup_seqZ]. intros x y _ _ E. nia. Qed.

Lemma length_down p sz n : 0 <= n -> Z.of_nat (length (down p sz n)) = n.
Proof. intros. unfold down. rewrite length_reverse, length_fmap, length_seqZ. lia. Qed.

Lemma wp_newpage junk G big f p t pr s (Q : unit -> kheap P -> Prop) : kinv G (<[p := 1]> big) f s -> big !! p = None -> entry (kheaproots s) pr -> pr ∉ hp_ref <$> G -> 0 <= t < 8 -> kmalloc_spinlock s = true ->
  (forall s', kinv (HPage pr p t (down p (tsize t) (PAGE_SIZE / tsize t)) :: G) big f s' -> kmalloc_spinlock s' = true -> (forall a, ~ (p <= a < p + PAGE_SIZE) -> kh_words s' !! a = kh_words s !! a) -> Q tt s') ->
  wp (newpage junk pr p t) Q s.
Proof.
  intros Hi Hp He Hpr Ht Hl HQ. destruct (ki_big _ _ _ _ Hi p 1 (lookup_insert_eq _ _ _)) as [Hch _]. destruct (kp_range1 _ _ (ki_pok _ _ _ _ Hi) Hch) as (Hp1 & Hp2 & Hp3).
  destruct (tsize_cases _ Ht) as (_ & Hsz & Hmul & Hcnt). set (sz := tsize t) in *. set (n := PAGE_SIZE / sz) in *.
  destruct (entry_range _ _ _ _ _ Hi He) as [_ Hput]. unfold newpage. wp_steps. apply wp_size_at; [done|]. fold sz. wp_steps. rewrite (u16_id (PAGE_SIZE / sz)) by (fold n; lia). fold n. rewrite MKPAB_add by (unfold PAGE_SIZE in *; lia || done).
  apply wp_ref_put; [done|]. unfold word_put at 1. wp_steps. kh_simpl.
  set (s1 := set_kh_refs _ s).
  apply (wp_for_acc _ _ _ _ (fun i fl s' => fl = p + (i - 1) * sz /\ (exists w, s' = set_kh_words w s1 /\ (forall a, ~ (p <= a < p + PAGE_SIZE) -> w !! a = kh_words s !! a) /\ chain (fun a => w !! a) (down p sz i) 0))).
  - split; [lia|]. eexists. split; [reflexivity|]. split; [intros a Ha; rewrite lookup_insert_ne; [done|unfold PAGE_SIZE in *; lia]|]. change (down p sz 1) with [p + 0 * sz]. replace (p + 0 * sz) with p by lia. split; [by rewrite lookup_insert_eq|done].
  - intros i fl s' Hir [-> (w & -> & Hw & Hc)]. assert (i * sz + sz <= PAGE_SIZE) by nia. rewrite !u32_id by nia. unfold word_put. wp_steps. apply wp_kassert; [apply negb_true_iff, Z.eqb_neq; nia|]. wp_steps. split; [lia|]. eexists. split; [reflexivity|]. kh_simpl. split.
    + intros a Ha. rewrite lookup_insert_ne; [by apply Hw|]. nia.
    + rewrite down_S by lia. split; [rewrite lookup_insert_eq, down_hd by lia; done|]. apply (chain_ext (fun a => w !! a)); [|done]. intros a Ha. apply elem_of_down in Ha as (k & Hk & ->). apply lookup_insert_ne. nia.
  - intros fl s' [-> (w & -> & Hw & Hc)]. replace (1 + Z.of_nat (Z.to_nat (n - 1))) with n in * by lia. wp_steps. assert ((n - 1) * sz + sz = PAGE_SIZE) by lia. replace (p + (n - 1) * sz - p) with ((n - 1) * sz) by lia. rewrite u32_id, u16_id by (unfold PAGE_SIZE in *; nia).
    apply wp_kassert; [by apply Z.eqb_eq|]. wp_steps. eapply wp_sizebase_at; [lia|by apply (ki_base _ _ _ _ Hi)|]. wp_steps. apply wp_ref_put; [done|]. unfold sizebase_put. wp_steps. eapply wp_sizebase_at; [lia|by apply (ki_base _ _ _ _ Hi)|]. wp_steps.
    apply HQ; [|done|done]. eapply (kinv_newpage G big f p t pr _ s); try done.
    + kh_simpl. unfold s1. kh_simpl. rewrite insert_insert_eq. unfold free_head. cbn [hp_free hp_page]. replace (down p sz n) with ((p + (n - 1) * sz) :: down p sz (n - 1)) by (rewrite <- down_S by lia; f_equal; lia). replace (Z.of_nat (length ((p + (n - 1) * sz) :: down p sz (n - 1)))) with n by (simpl; rewrite Nat2Z.inj_succ, length_down by lia; lia). f_equal. f_equal. lia.
    + apply down_nodup. lia.
    + apply Forall_forall. intros a (k & Hk & ->)%elem_of_down. by exists k.
Qed.
End ops.
