(* ===== verification/KmallocSpec.v ===== *)
(** * The functions of the kernel heap

    Pagerefs are allocated and freed, pages taken and cut, blocks handed out
    and taken back: what each does to the invariant. *)

From S2P Require Import Prelude VmState KPages Kmalloc KmallocInv.

Section refs.
Context {P : Type} `{KPages P}.
Implicit Types s : kheap P.

(** ** The roots change *)

Lemma kinv_mono G big f f' s : kinv G big f s -> f <= f' -> kinv G big f' s.
Proof. intros Hi Hf. split; try apply Hi. destruct (ki_roots _ _ _ _ Hi) as [? ? ? ? Hlat Hn]. split; try done; [intros ?; apply Hlat; lia|]. intros w r Hw Hp. specialize (Hn w r Hw Hp). lia. Qed.

Lemma root_page_insert (roots : list kheap_root) w r r' a : roots !! w = Some r -> kr_page r' = kr_page r -> root_page (<[w := r']> roots) a -> root_page roots a.
Proof.
  intros Hw E (w1 & r1 & H1 & Hp & Ha). apply list_lookup_insert_Some in H1 as [(<- & <- & _)|[_ H1]]; [|by exists w1, r1]. exists w, r. by rewrite <- E.
Qed.

(** The entries in use of one root change. *)
Lemma kinv_use G big f f' w r r' s : kinv G big f s -> kheaproots s !! w = Some r -> kr_page r' = kr_page r -> root_ok r' -> f <= f' ->
  (kr_page r = 0 -> numinuse r' <= f' /\ (f' < 256 -> forall w0 r0, (w0 < w)%nat -> kheaproots s !! w0 = Some r0 -> kr_page r0 <> 0)) ->
  (forall h, h ∈ G -> entry (<[w := r']> (kheaproots s)) (hp_ref h)) ->
  kinv G big f' (set_kheaproots (<[w := r']> (kheaproots s)) s).
Proof.
  intros Hi Hw Ep Hr' Hf Hz Hu. pose proof (ki_roots _ _ _ _ Hi) as [Hlen Hok Hch Hinj Hlat Hnull].
  assert (forall w1 r1, <[w := r']> (kheaproots s) !! w1 = Some r1 -> exists r2, kheaproots s !! w1 = Some r2 /\ kr_page r1 = kr_page r2 /\ (w1 = w /\ r1 = r' \/ w1 <> w /\ r1 = r2)) as Hold.
  { intros w1 r1 H1. apply list_lookup_insert_Some in H1 as [(<- & <- & _)|[? H1]]; [exists r|exists r1]; split_and!; auto. }
  split; kh_simpl; try apply Hi; try done.
  - intros h Hh. destruct (ki_chunk _ _ _ _ Hi h Hh) as (? & ? & Hn). split_and!; [done..|]. intros Hrp. by apply Hn, (root_page_insert _ w r r').
  - intros a n Ha. destruct (ki_big _ _ _ _ Hi a n Ha) as (? & Hn). split; [done|]. intros Hrp. by apply Hn, (root_page_insert _ w r r').
  - split.
    + by rewrite length_insert.
    + by apply Forall_insert.
    + intros w1 r1 (r2 & H2 & E & _)%Hold Hp. rewrite E in *. by apply (Hch w1).
    + intros w1 w2 r1 r2 (r3 & H3 & E3 & _)%Hold (r4 & H4 & E4 & _)%Hold Ee Hp. rewrite E3, ?E4 in *. by eapply Hinj.
    + intros Hf' w1 w2 r1 r2 (r3 & H3 & E3 & _)%Hold (r4 & H4 & E4 & Hc)%Hold Hlt Hp. rewrite E3 in Hp. destruct (Hlat ltac:(lia) w1 w2 r3 r4 H3 H4 Hlt Hp) as [Hp4 Hn4]. rewrite E4. split; [done|]. destruct Hc as [[-> ->]|[_ ->]]; [|done]. exfalso. assert (r4 = r) as -> by congruence. destruct (Hz Hp4) as [_ Hz']. by apply (Hz' Hf' w1 r3).
    + intros w1 r1 (r2 & H2 & E & Hc)%Hold Hp. rewrite E in Hp. destruct Hc as [[-> ->]|[_ ->]]; [apply Hz; congruence|]. specialize (Hnull w1 r2 H2 Hp). lia.
Qed.

(** A chunk the heap holds becomes the pageref page of root [w]. *)
Lemma kinv_root_page G big f f' w r va s : kinv G (<[va := 1]> big) f s -> big !! va = None -> va <> 0 -> 0 <= f' -> kheaproots s !! w = Some r -> kr_page r = 0 ->
  (forall w0 r0, w0 <> w -> kheaproots s !! w0 = Some r0 -> kr_page r0 = 0 -> numinuse r0 <= f') ->
  (f' < 256 -> (forall w0 r0, (w0 < w)%nat -> kheaproots s !! w0 = Some r0 -> kr_page r0 <> 0) /\ later_empty (kheaproots s)) ->
  kinv G big f' (set_kheaproots (<[w := KheapRoot va (pagerefs_inuse r) (numinuse r)]> (kheaproots s)) s).
Proof.
  intros Hi Hva Hnz Hf Hw Hp0 Hnull Hz. pose proof (ki_roots _ _ _ _ Hi) as [Hlen Hok Hch Hinj _ _]. destruct (ki_big _ _ _ _ Hi va 1 (lookup_insert_eq _ _ _)) as [Hcv Hrv].
  set (r' := KheapRoot va _ _).
  assert (forall w1 r1, <[w := r']> (kheaproots s) !! w1 = Some r1 -> w1 = w /\ r1 = r' \/ w1 <> w /\ kheaproots s !! w1 = Some r1) as Hold.
  { intros w1 r1 H1. apply list_lookup_insert_Some in H1 as [(<- & <- & _)|[? H1]]; auto. }
  assert (forall a, a <> va -> root_page (<[w := r']> (kheaproots s)) a -> root_page (kheaproots s) a) as Hrp.
  { intros a Ha (w1 & r1 & [[-> ->]|[_ H1]]%Hold & ? & E); [cbn in E; congruence|by exists w1, r1]. }
  split; kh_simpl; try apply Hi; try done.
  - intros h Hh. destruct (ki_chunk _ _ _ _ Hi h Hh) as (? & [Hb Hne]%lookup_insert_None & Hn). split_and!; [done..|]. intros Hx. apply Hn, Hrp; [congruence|done].
  - intros a n Ha. destruct (ki_big _ _ _ _ Hi a n) as [? Hn]; [rewrite lookup_insert_ne; [done|intros ->; by rewrite Hva in Ha]|]. split; [done|]. intros Hx. apply Hn, Hrp; [intros ->; by rewrite Hva in Ha|done].
  - split.
    + by rewrite length_insert.
    + apply Forall_insert; [done|]. destruct (Forall_lookup_1 _ _ _ _ Hok Hw) as [? ? ?]. by split.
    + intros w1 r1 [[-> ->]|[_ H1]]%Hold Hp; [done|by apply (Hch w1)].
    + intros w1 w2 r1 r2 [[-> ->]|[Hn1 H1]]%Hold [[-> ->]|[Hn2 H2]]%Hold Ee Hp; [done| | |by eapply Hinj]; exfalso; apply Hrv; [exists w2, r2|exists w1, r1]; split_and!; try done; cbn in *; congruence.
    + intros [Hz' Hlat]%Hz w1 w2 r1 r2 [[-> ->]|[Hn1 H1]]%Hold [[-> ->]|[Hn2 H2]]%Hold Hlt Hp; [lia|by destruct Hnz| |exact (Hlat w1 w2 r1 r2 H1 H2 Hlt Hp)]. exfalso. by apply (Hz' w1 r1).
    + intros w1 r1 [[-> ->]|[Hn1 H1]]%Hold Hp; [done|]. by apply (Hnull w1).
  - intros h Hh. destruct (ki_used _ _ _ _ Hi h Hh) as (w1 & r1 & j & H1 & Hp & Hj & E). exists w1, r1, j. split_and!; try done. rewrite list_lookup_insert_ne; [done|]. intros ->. congruence.
Qed.

(** Two entries at the same address are the same. *)
Lemma entry_inj G big f s w w' r r' j j' : kinv G big f s -> kheaproots s !! w = Some r -> kheaproots s !! w' = Some r' -> kr_page r <> 0 -> kr_page r' <> 0 ->
  0 <= j < 256 -> 0 <= j' < 256 -> kr_page r + j * sizeof_pageref = kr_page r' + j' * sizeof_pageref -> w = w' /\ j = j'.
Proof.
  intros Hi Hw Hw' Hp Hp' Hj Hj' E. pose proof (ki_roots _ _ _ _ Hi) as Hr. unfold sizeof_pageref in E. destruct (decide (kr_page r = kr_page r')) as [Ep|Ep]; [split; [by eapply (rs_inj _ _ _ Hr)|lia]|].
  destruct (kp_apart (kh_pages s) (kr_page r) 1 (kr_page r') 1) as [?|?]; [apply Hi|by apply (rs_chunk _ _ _ Hr w)|by apply (rs_chunk _ _ _ Hr w')|done|unfold PAGE_SIZE in *; lia..].
Qed.

(** ** Allocating *)

Lemma wp_root_at i r (Q : kheap_root -> kheap P -> Prop) s : kheaproots s !! Z.to_nat i = Some r -> Q r s -> wp (root_at i) Q s.
Proof. intros Hr HQ. unfold root_at. wp_steps. by apply (wp_deref _ r). Qed.

Lemma wp_root_put i r r' (Q : unit -> kheap P -> Prop) s : kheaproots s !! Z.to_nat i = Some r -> Q tt (set_kheaproots (<[Z.to_nat i := r']> (kheaproots s)) s) -> wp (root_put i r') Q s.
Proof. intros Hr HQ. unfold root_put. wp_steps. eapply wp_root_at; [done|]. by wp_steps. Qed.

Lemma wp_allocpagerefpage G big f f' i r s (Q : unit -> kheap P -> Prop) : kinv G big f s -> kmalloc_spinlock s = true -> kheaproots s !! Z.to_nat i = Some r -> kr_page r = 0 -> 0 <= f' ->
  (forall w0 r0, w0 <> Z.to_nat i -> kheaproots s !! w0 = Some r0 -> kr_page r0 = 0 -> numinuse r0 <= f') ->
  (f' < 256 -> (forall w0 r0, (w0 < Z.to_nat i)%nat -> kheaproots s !! w0 = Some r0 -> kr_page r0 <> 0) /\ later_empty (kheaproots s)) ->
  (forall s', kinv G big f s' -> kmalloc_spinlock s' = true -> kh_words s' = kh_words s -> kheaproots s' = kheaproots s -> Q tt s') ->
  (forall s' va, va <> 0 -> kinv G big f' s' -> kmalloc_spinlock s' = true -> kh_words s' = kh_words s -> kheaproots s' = <[Z.to_nat i := KheapRoot va (pagerefs_inuse r) (numinuse r)]> (kheaproots s) -> Q tt s') ->
  wp (allocpagerefpage i) Q s.
Proof.
  intros Hi Hl Hr Hp Hf Hnull Hz H0 H1. unfold allocpagerefpage. wp_steps. eapply wp_root_at; [exact Hr|]. rewrite Hp. wp_steps. apply wp_kassert; [done|]. wp_steps. apply wp_heap_release; [done|]. wp_steps.
  eapply wp_pages_alloc; [apply kinv_lock; exact Hi|lia| |].
  - intros q Hi'. wp_steps. apply wp_heap_acquire; [done|]. wp_steps. apply H0; [by apply kinv_lock|done..].
  - intros va q Hnz Hal Hva _ Hi'. wp_steps. apply wp_heap_acquire; [done|]. replace (va =? 0) with false by lia. wp_steps. apply wp_kassert; [by apply Z.eqb_eq|]. wp_steps. eapply wp_root_at; [exact Hr|]. rewrite Hp. cbn [Z.eqb negb].
    eapply wp_root_put; [exact Hr|]. apply (H1 _ va); [done| |done..]. eapply kinv_root_page; [apply kinv_lock; exact Hi'|done..].
Qed.

Lemma wp_takepageref G big f i o j r w s (Q : Z -> kheap P -> Prop) : kinv G big f s -> kmalloc_spinlock s = true -> 0 <= f -> kheaproots s !! Z.to_nat i = Some r -> numinuse r < 256 ->
  (forall w0 r0, (w0 < Z.to_nat i)%nat -> kheaproots s !! w0 = Some r0 -> 256 <= numinuse r0) ->
  0 <= o < 8 -> 0 <= j < 32 -> pagerefs_inuse r !! Z.to_nat o = Some w -> Z.testbit w j = false ->
  (forall s', kinv G big (f + 1) s' -> kmalloc_spinlock s' = true -> kh_words s' = kh_words s -> Q 0 s') ->
  (forall s' p, p <> 0 -> p ∉ hp_ref <$> G -> kinv G big f s' -> entry (kheaproots s') p -> kmalloc_spinlock s' = true -> kh_words s' = kh_words s -> Q p s') ->
  wp (takepageref i o j) Q s.
Proof.
  intros Hi Hl Hf Hr Hn Hfull Ho Hj Hw Hb H0 H1. pose proof (ki_roots _ _ _ _ Hi) as Hrs. pose proof (Forall_lookup_1 _ _ _ _ (rs_ok _ _ _ Hrs) Hr) as Hrok.
  destruct (use_entry r o j w Hrok Hn Ho Hj Hw Hb) as (Hok' & Hu' & Hnew & Hn'). unfold takepageref. wp_steps. eapply wp_root_at; [exact Hr|]. wp_steps. eapply wp_deref; [exact Hw|]. wp_steps. eapply wp_root_put; [exact Hr|]. wp_steps. fold (with_use r (<[Z.to_nat o:=Z.lor w (Z.shiftl 1 j)]> (pagerefs_inuse r)) (u32 (numinuse r + 1))).
  set (r' := with_use r _ _) in *. assert (Z.to_nat i < length (kheaproots s))%nat as Hlt by (by eapply lookup_lt_Some).
  assert (Hr1 : <[Z.to_nat i:=r']> (kheaproots s) !! Z.to_nat i = Some r') by (by apply list_lookup_insert_eq).
  assert (f < 256 -> forall w0 r0, (w0 < Z.to_nat i)%nat -> kheaproots s !! w0 = Some r0 -> kr_page r0 <> 0) as Hz.
  { intros Hf256 w0 r0 Hlt0 Hr0 E. pose proof (rs_null _ _ _ Hrs w0 r0 Hr0 E). specialize (Hfull w0 r0 Hlt0 Hr0). lia. }
  assert (forall h, h ∈ G -> entry (<[Z.to_nat i := r']> (kheaproots s)) (hp_ref h)) as Hent.
  { intros h Hh. destruct (ki_used _ _ _ _ Hi h Hh) as (w1 & r1 & k & H1' & Hp1 & Hk & E). destruct (decide (w1 = Z.to_nat i)) as [->|].
    - assert (r1 = r) as -> by congruence. exists (Z.to_nat i), r', k. split_and!; [done|done| |done]. rewrite Hu'. set_solver.
    - exists w1, r1, k. split_and!; [by rewrite list_lookup_insert_ne|done..]. }
  assert (forall f', (kr_page r = 0 -> numinuse r + 1 <= f') -> f <= f' -> kinv G big f' (set_kheaproots (<[Z.to_nat i:=r']> (kheaproots s)) s)) as Hi1.
  { intros f' Hf' Hle. eapply (kinv_use _ _ f); [done|exact Hr|done|done|done| |done]. intros E. split; [|intros ?; apply Hz; lia]. rewrite Hn'. by apply Hf'. }
  eapply wp_root_at; [exact Hr1|]. destruct (decide (kr_page r = 0)) as [E|E].
  - assert (kr_page r' = 0) as E' by done. rewrite E'. cbn [Z.eqb]. wp_steps. pose proof (rs_null _ _ _ Hrs _ r Hr E) as Hnf.
    assert (kinv G big (f + 1) (set_kheaproots (<[Z.to_nat i:=r']> (kheaproots s)) s)) as Hi2 by (apply Hi1; lia).
    eapply (wp_allocpagerefpage G big (f + 1) f i r'); [exact Hi2|done|exact Hr1|done|lia| | | |].
    + intros w0 r0 Hne0 Hr0. kh_simpl. cbn in Hr0. rewrite list_lookup_insert_ne in Hr0 by done. by apply (rs_null _ _ _ Hrs w0).
    + intros Hf256. split; [intros w0 r0 Hlt0 Hr0; kh_simpl; cbn in Hr0; rewrite list_lookup_insert_ne in Hr0 by lia; by apply (Hz Hf256 w0)|].
      intros w0 w1 r0 r1 Hr0 Hr2 Hlt0 Hp0. kh_simpl. cbn in Hr0, Hr2. apply list_lookup_insert_Some in Hr0 as [(<- & <- & _)|[_ Hr0]].
      * rewrite list_lookup_insert_ne in Hr2 by lia. by apply (rs_later _ _ _ Hrs Hf256 (Z.to_nat i) w1 r).
      * apply list_lookup_insert_Some in Hr2 as [(<- & <- & _)|[_ Hr2]]; [by destruct (Hz Hf256 w0 r0)|]. by apply (rs_later _ _ _ Hrs Hf256 w0 w1 r0).
    + intros s' Hi' Hl' Hw' Er. wp_steps. eapply wp_root_at; [rewrite Er; exact Hr1|]. rewrite E'. cbn [Z.eqb]. wp_steps. by apply H0.
    + intros s' va Hva Hi' Hl' Hw' Er. assert (Hr2 : kheaproots s' !! Z.to_nat i = Some (KheapRoot va (pagerefs_inuse r') (numinuse r'))) by (rewrite Er; apply list_lookup_insert_eq; cbn; by rewrite length_insert).
      wp_steps. eapply wp_root_at; [exact Hr2|]. cbn [kr_page]. replace (va =? 0) with false by lia. wp_steps.
      assert (o * 32 + j ∈ in_use (KheapRoot va (pagerefs_inuse r') (numinuse r'))) as Hin by (change (o * 32 + j ∈ in_use r'); rewrite Hu'; set_solver).
      assert (entry (kheaproots s') (va + (o * 32 + j) * sizeof_pageref)) as He by (eexists (Z.to_nat i), _, (o * 32 + j); split_and!; [exact Hr2|done|exact Hin|done]).
      destruct (entry_range _ _ _ _ _ Hi' He) as [Hrange _]. rewrite u32_id by lia. apply H1; [lia| |done|done|done|done].
      intros (h & Eh & Hh)%list_elem_of_fmap. destruct (ki_used _ _ _ _ Hi h Hh) as (w1 & r1 & k & Hw1 & Hp1 & Hk & Ek). apply elem_in_use in Hk as [Hk _]. assert (w1 <> Z.to_nat i) as Hne by (intros ->; congruence).
      destruct (entry_inj _ _ _ _ (Z.to_nat i) w1 (KheapRoot va (pagerefs_inuse r') (numinuse r')) r1 (o * 32 + j) k Hi' Hr2) as [? _]; [|done|done|lia|done|cbn; congruence|done]. rewrite Er. cbn. by rewrite !list_lookup_insert_ne.
  - assert (kr_page r' <> 0) as E' by done. replace (kr_page r' =? 0) with false by lia. wp_steps. eapply wp_root_at; [exact Hr1|]. replace (kr_page r' =? 0) with false by lia. wp_steps.
    assert (kinv G big f (set_kheaproots (<[Z.to_nat i:=r']> (kheaproots s)) s)) as Hi2 by (apply Hi1; [done|lia]).
    assert (entry (<[Z.to_nat i:=r']> (kheaproots s)) (kr_page r' + (o * 32 + j) * sizeof_pageref)) as He by (exists (Z.to_nat i), r', (o * 32 + j); split_and!; [exact Hr1|done|rewrite Hu'; set_solver|done]).
    destruct (entry_range _ _ _ _ _ Hi2 He) as [Hrange _]. rewrite u32_id by lia. apply H1; [lia| |done|done|done|done].
    intros (h & Eh & Hh)%list_elem_of_fmap. destruct (ki_used _ _ _ _ Hi h Hh) as (w1 & r1 & k & Hw1 & Hp1 & Hk & Ek). pose proof Hk as Hk0. apply elem_in_use in Hk as [Hk _].
    destruct (entry_inj _ _ _ _ (Z.to_nat i) w1 r r1 (o * 32 + j) k Hi Hr Hw1) as [<- <-]; [done|done|lia|done|cbn in *; congruence|]. congruence.
Qed.

Lemma wp_allocpageref G big f s (Q : Z -> kheap P -> Prop) : kinv G big f s -> kmalloc_spinlock s = true -> 0 <= f ->
  (forall s', kinv G big (f + 1) s' -> kmalloc_spinlock s' = true -> kh_words s' = kh_words s -> Q 0 s') ->
  (forall s' p, p <> 0 -> p ∉ hp_ref <$> G -> kinv G big f s' -> entry (kheaproots s') p -> kmalloc_spinlock s' = true -> kh_words s' = kh_words s -> Q p s') ->
  wp allocpageref Q s.
Proof.
  intros Hi Hl Hf H0 H1. pose proof (ki_roots _ _ _ _ Hi) as Hrs. unfold allocpageref. wp_steps.
  apply (wp_for _ _ _ (fun i s' => s' = s /\ forall w0 r0, (w0 < Z.to_nat i)%nat -> kheaproots s !! w0 = Some r0 -> 256 <= numinuse r0)).
  - split; [done|]. intros. simpl in *. lia.
  - intros i s' Hir [-> Hfull]. destruct (lookup_lt_is_Some_2 (kheaproots s) (Z.to_nat i)) as [r Hr]; [rewrite (rs_len _ _ _ Hrs); unfold NUM_PAGEREFPAGES in *; lia|]. pose proof (Forall_lookup_1 _ _ _ _ (rs_ok _ _ _ Hrs) Hr) as Hrok.
    wp_steps. eapply wp_root_at; [exact Hr|]. unfold NPAGEREFS_PER_PAGE. destruct (256 <=? numinuse r) eqn:En; boolify.
    { wp_steps. split; [done|]. intros w0 r0 Hlt Hr0. destruct (decide (w0 = Z.to_nat i)) as [->|]; [congruence|]. apply (Hfull w0); [lia|done]. }
    apply (wp_for _ _ _ (fun o s' => s' = s /\ forall o', 0 <= o' < o -> pagerefs_inuse r !! Z.to_nat o' = Some 4294967295)).
    + split; [done|]. intros. lia.
    + intros o s' Hor [-> Hones]. destruct (lookup_lt_is_Some_2 (pagerefs_inuse r) (Z.to_nat o)) as [w Hw]; [rewrite (ro_len _ Hrok); unfold INUSE_WORDS in *; lia|]. assert (Hwr : 0 <= w < 2 ^ 32) by exact (Forall_lookup_1 _ _ _ _ (ro_words _ Hrok) Hw).
      wp_steps. eapply wp_root_at; [exact Hr|]. wp_steps. eapply wp_deref; [exact Hw|]. destruct (w =? 4294967295) eqn:Ew; boolify.
      { wp_steps. split; [done|]. intros o' Ho'. destruct (decide (o' = o)) as [->|]; [congruence|]. apply Hones. lia. }
      wp_steps. apply (wp_for _ _ _ (fun j s' => s' = s /\ forall j', 0 <= j' < j -> Z.testbit w j' = true)).
      * split; [done|]. intros. lia.
      * intros j s' Hjr [-> Hbits]. rewrite land_shiftl_1 by lia. destruct (Z.testbit w j) eqn:Eb; cbn [negb].
        -- wp_steps. split; [done|]. intros j' Hj'. destruct (decide (j' = j)) as [->|]; [done|]. apply Hbits. lia.
        -- wp_steps. by eapply (wp_takepageref G big f i o j r w).
      * intros s' [-> Hbits]. exfalso. apply Ew. apply (all_bits_ones w 32); [lia|done|]. intros j' Hj'. apply Hbits. lia.
    + intros s' [-> Hones]. exfalso. enough (numinuse r = 256) by lia. apply full_words; [done|]. intros o Ho. apply Hones. unfold INUSE_WORDS. lia.
  - intros s' [-> _]. wp_steps. apply H0; [|done|done]. apply (kinv_mono _ _ f); [done|lia].
Qed.

(** ** Freeing *)

Lemma wp_freepageref G big f p s (Q : unit -> kheap P -> Prop) : kinv G big f s -> entry (kheaproots s) p -> p ∉ hp_ref <$> G -> ~ gap (kheaproots s) ->
  (forall roots, kinv G big f (set_kheaproots roots s) -> Q tt (set_kheaproots roots s)) ->
  wp (freepageref p) Q s.
Proof.
  intros Hi (w & r & j & Hw & Hp & Hj & ->) HpG Hgap HQ. pose proof (ki_roots _ _ _ _ Hi) as Hrs. pose proof (Forall_lookup_1 _ _ _ _ (rs_ok _ _ _ Hrs) Hw) as Hrok. pose proof Hj as Hju. apply elem_in_use in Hj as [Hjr Hjb].
  pose proof (lookup_lt_Some _ _ _ Hw) as Hwlt. rewrite (rs_len _ _ _ Hrs) in Hwlt. pose proof (rs_chunk _ _ _ Hrs w r Hw Hp) as Hc. destruct (kp_range1 _ _ (ki_pok _ _ _ _ Hi) Hc) as (Hr1 & _ & Hr3). unfold sizeof_pageref in *.
  unfold freepageref. wp_steps. apply (wp_for _ _ _ (fun i s' => s' = s /\ i <= Z.of_nat w)).
  - split; [done|lia].
  - intros i s' Hir [-> Hle]. destruct (lookup_lt_is_Some_2 (kheaproots s) (Z.to_nat i)) as [r0 Hr0]; [rewrite (rs_len _ _ _ Hrs); unfold NUM_PAGEREFPAGES in *; lia|]. wp_steps. eapply wp_root_at; [exact Hr0|].
    destruct (decide (kr_page r0 = 0)) as [E0|Hp0].
    { assert (Z.to_nat i <> w) as Ei by congruence. rewrite E0, Z.eqb_refl. wp_steps.
      apply wp_kassert; [|wp_steps; split; [done|lia]]. apply Z.eqb_eq. destruct (decide (numinuse r0 = 0)) as [|Hn0]; [done|]. destruct Hgap.
      exists (Z.to_nat i), w, r0, r. split_and!; [done|done|lia|done|done|done]. }
    replace (kr_page r0 =? 0) with false by lia. pose proof (rs_chunk _ _ _ Hrs _ r0 Hr0 Hp0) as Hc0. destruct (kp_range1 _ _ (ki_pok _ _ _ _ Hi) Hc0) as (Hr01 & _ & Hr03). unfold sizeof_pageref. rewrite s32_id by (unfold PAGE_SIZE in *; lia).
    destruct (decide (Z.to_nat i = w)) as [Ei|Ei].
    + assert (r0 = r) as -> by congruence. replace (kr_page r + j * 16 - kr_page r) with (j * 16) by lia. rewrite Z.quot_mul, u32_id by lia. unfold NPAGEREFS_PER_PAGE. replace (j <? 256) with true by lia.
      destruct (lookup_lt_is_Some_2 (pagerefs_inuse r) (Z.to_nat (j / 32))) as [x Hx]; [rewrite (ro_len _ Hrok); zlia|]. unfold bit in Hjb. rewrite Hx in Hjb. simpl in Hjb.
      wp_steps. eapply wp_deref; [exact Hx|]. wp_steps. apply wp_kassert; [rewrite land_shiftl_1 by zlia; by rewrite Hjb|]. wp_steps. apply wp_kassert; [apply Z.ltb_lt; by apply (in_use_pos r j)|]. wp_steps. eapply wp_root_put; [exact Hr0|]. wp_steps. apply HQ.
      destruct (unuse_entry r j x Hrok Hju Hx) as [Hok' Hu']. eapply kinv_use; [exact Hi|exact Hr0|done|exact Hok'|lia|done|]. intros h Hh. destruct (ki_used _ _ _ _ Hi h Hh) as (w1 & r1 & k & H1 & Hp1 & Hk & E). rewrite Ei. destruct (decide (w1 = w)) as [->|].
      * assert (r1 = r) as -> by congruence. eexists w, _, k. split_and!; [apply list_lookup_insert_eq; by eapply lookup_lt_Some|done| |done]. unfold with_use in Hu'. rewrite Hu'. apply elem_of_difference. split; [done|]. rewrite elem_of_singleton. intros ->. apply HpG. unfold sizeof_pageref in E. rewrite <- E. by apply list_elem_of_fmap_2.
      * exists w1, r1, k. split_and!; [by rewrite list_lookup_insert_ne|done..].
    + assert (kr_page r0 <> kr_page r) as Hne. { intros E. apply Ei. by eapply (rs_inj _ _ _ Hrs). }
      assert (NPAGEREFS_PER_PAGE <= u32 (Z.quot (kr_page r + j * 16 - kr_page r0) 16)) as Hge.
      { unfold NPAGEREFS_PER_PAGE. destruct (kp_apart _ _ 1 _ 1 (ki_pok _ _ _ _ Hi) Hc0 Hc Hne) as [Hlt|Hlt]; unfold PAGE_SIZE in *.
        - rewrite Z.quot_div_nonneg by lia. rewrite u32_id; zlia.
        - replace (kr_page r + j * 16 - kr_page r0) with (- (kr_page r0 - kr_page r - j * 16)) by lia. rewrite Z.quot_opp_l, Z.quot_div_nonneg by lia. unfold u32. set (d := (kr_page r0 - kr_page r - j * 16) / 16). assert (1 <= d < 2 ^ 31).
          { pose proof (kp_range1 _ _ (ki_pok _ _ _ _ Hi) Hc) as (_ & Hm & _). pose proof (kp_range1 _ _ (ki_pok _ _ _ _ Hi) Hc0) as (_ & Hm0 & _). unfold PAGE_SIZE in *. unfold d. zlia. }
          replace (- d) with (2 ^ 32 - d + (-1) * 2 ^ 32) by lia. rewrite Z.mod_add, Z.mod_small by lia. lia. }
      replace (_ <? _) with false by lia. wp_steps. split; [done|]. lia.
  - intros s' [-> Hle]. unfold NUM_PAGEREFPAGES in *. lia.
Qed.

(** ** Off the lists *)

Lemma wp_unlink base put_base next set_next pr l1 l2 s (Q : unit -> kheap P -> Prop) :
  (forall Q' : Z -> kheap P -> Prop, Q' (hd 0 (l1 ++ pr :: l2)) s -> wp base Q' s) ->
  NoDup (l1 ++ pr :: l2) -> 0 ∉ l1 ++ pr :: l2 -> (length (l1 ++ pr :: l2) < ref_fuel s)%nat -> Forall (fun a => is_ref s a = true) l1 ->
  chain (fun a => next <$> kh_refs s !! a) (l1 ++ pr :: l2) 0 ->
  (l1 = [] -> wp (put_base (hd 0 l2)) Q s) ->
  (forall l y z, l1 = l ++ [y] -> kh_refs s !! y = Some z -> Q tt (set_kh_refs (<[y := set_next (hd 0 l2) z]> (kh_refs s)) s)) ->
  wp (unlink base put_base next set_next pr) Q s.
Proof.
  intros Hbase Hnd Hnz Hfuel Href Hc H0 H1. unfold unlink. wp_steps.
  apply (wp_loop_list _ (l1 ++ pr :: l2) _ _ (fun xs prev s' => s' = s /\ exists pre ys, xs = ys ++ pr :: l2 /\ l1 = pre ++ ys /\ prev = default 0 (last pre))).
  - split; [done|]. by exists [], l1.
  - done.
  - intros xs prev s' (-> & pre & ys & -> & -> & ->). rewrite <- app_assoc in *.
    assert (Hlink : forall Q' : Z -> kheap P -> Prop, Q' (hd 0 (ys ++ pr :: l2)) s -> wp (if default 0 (last pre) =? 0 then base else x <- ref_at (default 0 (last pre)) ;; ret (next x)) Q' s).
    { intros Q' HQ'. destruct (list_eq_nil_dec pre) as [->|Hne]; [by apply Hbase|]. destruct (exists_last Hne) as (l & y & ->). rewrite last_snoc. simpl. assert (y <> 0) by (intros ->; apply Hnz; set_solver). replace (y =? 0) with false by lia.
      rewrite <- app_assoc in Hc. apply chain_app in Hc as [_ [Hy _]]. apply fmap_Some in Hy as (z & Hz & E). wp_steps. eapply wp_ref_at; [exact Hz|]. wp_steps. by rewrite <- E. }
    apply wp_bind. apply Hlink. destruct ys as [|g ys]; simpl.
    + assert (pr <> 0) by (intros ->; apply Hnz; set_solver). replace (pr =? 0) with false by lia. rewrite Z.eqb_refl. pose proof Hc as Hc'. apply chain_app in Hc' as [_ [Hpr _]]. apply fmap_Some in Hpr as (x & Hx & E). wp_steps. eapply wp_ref_at; [exact Hx|]. wp_steps. rewrite app_nil_r in *. rewrite <- E.
      destruct (list_eq_nil_dec pre) as [->|Hne]; [simpl; eapply wp_mono; [by apply H0|]; intros [] s' HQ; by wp_steps|]. destruct (exists_last Hne) as (l & y & ->). rewrite last_snoc. simpl. assert (y <> 0) by (intros ->; apply Hnz; set_solver). replace (y =? 0) with false by lia.
      rewrite <- app_assoc in Hc. apply chain_app in Hc as [_ [Hy _]]. apply fmap_Some in Hy as (z & Hz & Ez). wp_steps. eapply wp_ref_at; [exact Hz|]. rewrite Forall_app, Forall_singleton in Href. apply wp_ref_put; [by apply Href|]. wp_steps. by apply (H1 l y z).
    + assert (g <> 0) by (intros ->; apply Hnz; set_solver). replace (g =? 0) with false by lia. assert (g <> pr) as Hg. { intros ->. apply NoDup_app in Hnd as (_ & _ & Hnd). simpl in Hnd. apply NoDup_cons in Hnd as [Hn _]. apply Hn. set_solver. }
      replace (g =? pr) with false by lia. wp_steps. exists g, (ys ++ pr :: l2). split; [done|]. split; [done|]. exists (pre ++ [g]), ys. split_and!; [done|by rewrite <- app_assoc|by rewrite last_snoc].
Qed.

Definition info (x : pageref) : Z * Z * Z := (pageaddr_and_blocktype x, freelist_offset x, nfree x).

(** The page [h] is off the lists: the heap holds it as a plain chunk. *)
Lemma kinv_remove G1 h G2 big f s s' : kinv (G1 ++ h :: G2) big f s ->
  kh_pages s' = kh_pages s -> kheaproots s' = kheaproots s -> kh_words s' = kh_words s -> (forall a, info <$> kh_refs s' !! a = info <$> kh_refs s !! a) ->
  allbase s' = hd 0 (hp_ref <$> G1 ++ G2) -> chain (link_all s') (hp_ref <$> G1 ++ G2) 0 -> length (sizebases s') = 8%nat ->
  (forall t, 0 <= t < 8 -> sizebases s' !! Z.to_nat t = Some (hd 0 (refs_of t (G1 ++ G2)))) -> (forall t, 0 <= t < 8 -> chain (link_size s') (refs_of t (G1 ++ G2)) 0) ->
  kinv (G1 ++ G2) (<[hp_page h := 1]> big) f s'.
Proof.
  intros Hi Ep Er Ew Ei Ea Hca Hlen Hb Hcs. assert (forall g, g ∈ G1 ++ G2 -> g ∈ G1 ++ h :: G2) as Hsub by set_solver. assert (h ∈ G1 ++ h :: G2) as Hh by set_solver.
  split; rewrite ?Ep, ?Er, ?Ew; try apply Hi; try done.
  - pose proof (ki_refs _ _ _ _ Hi) as Hnd. rewrite fmap_app, fmap_cons in Hnd. apply NoDup_mid in Hnd as (_ & _ & ?). by rewrite fmap_app.
  - apply Forall_forall. intros g Hg. pose proof (ki_page_of _ _ _ _ _ Hi (Hsub g Hg)) as Hok. apply (page_ok_same (kh_refs s) _ (kh_words s)); [done| |done]. destruct (po_ref _ _ _ Hok) as (ns & na & Hr). eexists. split; [exact Hr|]. specialize (Ei (hp_ref g)). rewrite Hr in Ei. cbn in Ei. apply fmap_Some in Ei as ([ns' na' pab off n] & Hx & E). injection E as -> -> ->. by exists ns', na'.
  - pose proof (ki_pages _ _ _ _ Hi) as Hnd. rewrite fmap_app, fmap_cons in Hnd. apply NoDup_mid in Hnd as (_ & _ & ?). by rewrite fmap_app.
  - intros g Hg. destruct (ki_chunk _ _ _ _ Hi g (Hsub g Hg)) as (? & ? & ?). split_and!; [done| |done]. rewrite lookup_insert_ne; [done|]. intros E. pose proof (ki_pages _ _ _ _ Hi) as Hnd. rewrite fmap_app, fmap_cons in Hnd. apply NoDup_mid in Hnd as (Hn1 & Hn2 & _). rewrite E in Hn1, Hn2. apply elem_of_app in Hg as [Hg|Hg]; [apply Hn1|apply Hn2]; by apply list_elem_of_fmap_2.
  - intros a n Ha. apply lookup_insert_Some in Ha as [[<- <-]|[_ Ha]]; [|by apply (ki_big _ _ _ _ Hi)]. by destruct (ki_chunk _ _ _ _ Hi h Hh) as (? & ? & ?).
  - intros g Hg. by apply (ki_used _ _ _ _ Hi), Hsub.
Qed.

Lemma refs_of_app t G1 G2 : refs_of t (G1 ++ G2) = refs_of t G1 ++ refs_of t G2.
Proof. unfold refs_of. by rewrite filter_app, fmap_app. Qed.

Lemma refs_of_cons t h G : refs_of t (h :: G) = if decide (hp_type h = t) then hp_ref h :: refs_of t G else refs_of t G.
Proof. unfold refs_of. rewrite filter_cons. by case_decide. Qed.

Lemma elem_refs_of t G a : a ∈ refs_of t G -> exists h, h ∈ G /\ hp_ref h = a /\ hp_type h = t.
Proof. intros (h & -> & [? ?]%list_elem_of_filter)%list_elem_of_fmap. by exists h. Qed.

Lemma refs_of_nodup t G : NoDup (hp_ref <$> G) -> NoDup (refs_of t G).
Proof. intros Hn. unfold refs_of. eapply sublist_NoDup; [exact Hn|]. apply fmap_sublist. apply sublist_filter. Qed.

Lemma refs_of_type t t' G a : NoDup (hp_ref <$> G) -> a ∈ refs_of t G -> a ∈ refs_of t' G -> t = t'.
Proof.
  intros Hn (h & Hh & <- & <-)%elem_refs_of (h' & Hh' & E & <-)%elem_refs_of. f_equal. apply list_elem_of_lookup in Hh as [i Hi], Hh' as [j Hj].
  assert (i = j) as ->; [|congruence]. eapply (NoDup_lookup (hp_ref <$> G)); [done|by rewrite list_lookup_fmap, Hi|rewrite list_lookup_fmap, Hj; cbn; congruence].
Qed.

Lemma hd_app_ne {A} (e : A) l1 l2 l2' : l1 <> [] -> hd e (l1 ++ l2) = hd e (l1 ++ l2').
Proof. by destruct l1. Qed.

(** The first walk of [remove_lists]. *)
Lemma sizes_unlinked G1 h G2 big f s (s1 : kheap P) : kinv (G1 ++ h :: G2) big f s -> let t := hp_type h in
  (refs_of t G1 = [] /\ s1 = set_sizebases (<[Z.to_nat t := hd 0 (refs_of t G2)]> (sizebases s)) s \/
   exists l y z, refs_of t G1 = l ++ [y] /\ kh_refs s !! y = Some z /\ s1 = set_kh_refs (<[y := set_next_samesize (hd 0 (refs_of t G2)) z]> (kh_refs s)) s) ->
  length (sizebases s1) = 8%nat /\ forall t', 0 <= t' < 8 -> sizebases s1 !! Z.to_nat t' = Some (hd 0 (refs_of t' (G1 ++ G2))) /\ chain (link_size s1) (refs_of t' (G1 ++ G2)) 0.
Proof.
  intros Hi t Hs1. assert (0 <= t < 8) as Ht by (apply (ki_page_of _ _ _ _ _ Hi); set_solver). pose proof (refs_of_nodup t _ (ki_refs _ _ _ _ Hi)) as Hnd. pose proof (ki_size _ _ _ _ Hi t Ht) as Hc. pose proof (ki_base _ _ _ _ Hi t Ht) as Hb.
  rewrite refs_of_app, refs_of_cons, decide_True in Hnd, Hc, Hb by done.
  assert (forall t', t' <> t -> refs_of t' (G1 ++ h :: G2) = refs_of t' (G1 ++ G2)) as Hoth by (intros t' ?; by rewrite !refs_of_app, refs_of_cons, decide_False).
  destruct Hs1 as [[El ->]|(l & y & z & El & Hy & ->)].
  - split; [kh_simpl; rewrite length_insert; apply Hi|]. intros t' Ht'. destruct (decide (t' = t)) as [->|Hne]; kh_simpl.
    + rewrite list_lookup_insert_eq by (rewrite (ki_bases _ _ _ _ Hi); lia). rewrite refs_of_app, El in *. split; [done|]. by apply Hc.
    + rewrite list_lookup_insert_ne by lia. rewrite <- Hoth by done. split; by apply Hi.
  - split; [apply Hi|]. intros t' Ht'. kh_simpl. destruct (decide (t' = t)) as [->|Hne].
    + rewrite refs_of_app. split; [rewrite Hb; f_equal; apply hd_app_ne; rewrite El; by destruct l|]. rewrite El, <- app_assoc in *. apply (chain_unlink (link_size s) _ l y (hp_ref h)); [done| | |done]; unfold link_size; kh_simpl.
      * by rewrite lookup_insert_eq.
      * intros a Ha. by rewrite lookup_insert_ne.
    + rewrite <- Hoth by done. split; [by apply Hi|]. apply (chain_ext (link_size s)); [|by apply Hi]. intros a Ha. unfold link_size. kh_simpl. rewrite lookup_insert_ne; [done|]. intros <-. apply Hne. apply (refs_of_type _ _ _ y (ki_refs _ _ _ _ Hi)); [done|]. rewrite refs_of_app, El. set_solver.
Qed.

Lemma wp_remove_lists G1 h G2 big f s (Q : unit -> kheap P -> Prop) : kinv (G1 ++ h :: G2) big f s ->
  (forall s', kinv (G1 ++ G2) (<[hp_page h := 1]> big) f s' -> kmalloc_spinlock s' = kmalloc_spinlock s -> kh_words s' = kh_words s -> kheaproots s' = kheaproots s -> Q tt s') ->
  wp (remove_lists (hp_ref h) (hp_type h)) Q s.
Proof.
  intros Hi HQ. assert (h ∈ G1 ++ h :: G2) as Hh by set_solver. pose proof (ki_page_of _ _ _ _ _ Hi Hh) as [Ht _ _ _ _]. set (t := hp_type h) in *.
  assert (forall a, a ∈ hp_ref <$> G1 ++ h :: G2 -> a <> 0 /\ is_ref s a = true) as Hrefs. { intros a (g & -> & Hg)%list_elem_of_fmap. destruct (ki_ref _ _ _ _ _ Hi Hg). split; [lia|done]. }
  assert (forall a, a ∈ refs_of t (G1 ++ h :: G2) -> a ∈ hp_ref <$> G1 ++ h :: G2) as Hsub. { intros a (g & Hg & <- & _)%elem_refs_of. by apply list_elem_of_fmap_2. }
  pose proof (refs_of_nodup t _ (ki_refs _ _ _ _ Hi)) as Hnd. pose proof (ki_size _ _ _ _ Hi t Ht) as Hc. pose proof (ki_base _ _ _ _ Hi t Ht) as Hb. pose proof (refs_of_length t (G1 ++ h :: G2)) as Hlen. pose proof (ki_fuel _ _ _ _ Hi) as Hfuel.
  rewrite refs_of_app, refs_of_cons, decide_True in Hnd, Hc, Hb, Hlen, Hsub by done.
  unfold remove_lists. wp_steps. apply wp_kassert; [unfold NSIZES; lia|]. wp_steps.
  assert (forall s1 : kheap P, (refs_of t G1 = [] /\ s1 = set_sizebases (<[Z.to_nat t := hd 0 (refs_of t G2)]> (sizebases s)) s \/
   exists l y z, refs_of t G1 = l ++ [y] /\ kh_refs s !! y = Some z /\ s1 = set_kh_refs (<[y := set_next_samesize (hd 0 (refs_of t G2)) z]> (kh_refs s)) s) ->
   wp (unlink (gets allbase) (fun x => modify (set_allbase x)) next_all set_next_all (hp_ref h)) Q s1) as Hsecond.
  { intros s1 Hs1. destruct (sizes_unlinked G1 h G2 big f s s1 Hi Hs1) as [Hl8 Hsz].
    assert (kh_pages s1 = kh_pages s /\ kheaproots s1 = kheaproots s /\ kh_words s1 = kh_words s /\ kmalloc_spinlock s1 = kmalloc_spinlock s /\ allbase s1 = allbase s /\ size (kh_refs s1) = size (kh_refs s) /\ forall a, info <$> kh_refs s1 !! a = info <$> kh_refs s !! a /\ next_all <$> kh_refs s1 !! a = next_all <$> kh_refs s !! a) as (E1 & E2 & E3 & E4 & E5 & E6 & E7).
    { destruct Hs1 as [[_ ->]|(l & y & z & _ & Hy & ->)]; [done|]. kh_simpl. split_and!; try done; [by apply map_size_insert_Some|]. intros a. destruct (decide (a = y)) as [->|]; [by rewrite lookup_insert_eq, Hy|by rewrite lookup_insert_ne]. }
    assert (chain (fun a => next_all <$> kh_refs s1 !! a) ((hp_ref <$> G1) ++ hp_ref h :: (hp_ref <$> G2)) 0) as Hca. { apply (chain_ext (link_all s)); [intros a _; apply E7|]. pose proof (ki_all _ _ _ _ Hi) as Hca. by rewrite fmap_app, fmap_cons in Hca. }
    pose proof (ki_refs _ _ _ _ Hi) as Hndr. rewrite fmap_app, fmap_cons in Hndr, Hrefs.
    assert (forall s', kh_pages s' = kh_pages s1 -> kheaproots s' = kheaproots s1 -> kh_words s' = kh_words s1 -> kmalloc_spinlock s' = kmalloc_spinlock s1 -> sizebases s' = sizebases s1 -> (forall a, info <$> kh_refs s' !! a = info <$> kh_refs s1 !! a /\ next_samesize <$> kh_refs s' !! a = next_samesize <$> kh_refs s1 !! a) ->
      allbase s' = hd 0 (hp_ref <$> G1 ++ G2) -> chain (link_all s') (hp_ref <$> G1 ++ G2) 0 -> Q tt s') as Hdone.
    { intros s' F1 F2 F3 F4 F5 F6 Fa Fc. apply HQ; [|congruence..]. apply (kinv_remove G1 h G2 big f s); [done|congruence..| |done|done|congruence| |].
      - intros a. transitivity (info <$> kh_refs s1 !! a); [apply F6|apply E7].
      - intros t' Ht'. rewrite F5. by apply Hsz.
      - intros t' Ht'. apply (chain_ext (link_size s1)); [|by apply Hsz]. intros a _. apply F6. }
    apply (wp_unlink _ _ _ _ _ (hp_ref <$> G1) (hp_ref <$> G2)).
    - intros Q' HQ'. wp_steps. rewrite E5, (ki_allbase _ _ _ _ Hi). by rewrite fmap_app, fmap_cons.
    - done.
    - intros Hz. by destruct (Hrefs 0 Hz).
    - unfold ref_fuel in *. rewrite E6, <- fmap_cons, <- fmap_app, length_fmap. done.
    - apply Forall_forall. intros a Ha. unfold is_ref. rewrite E2. apply Hrefs. set_solver.
    - done.
    - intros El. wp_steps. apply Hdone; try done; kh_simpl; rewrite fmap_app, El; [done|]. rewrite El in Hca. by apply Hca.
    - intros l y z El Hy. apply Hdone; try done; kh_simpl; rewrite ?fmap_app.
      + intros a. destruct (decide (a = y)) as [->|]; [by rewrite lookup_insert_eq, Hy|by rewrite lookup_insert_ne].
      + rewrite E5, (ki_allbase _ _ _ _ Hi), fmap_app. apply hd_app_ne. rewrite El. by destruct l.
      + rewrite El, <- app_assoc in *. apply (chain_unlink (fun a => next_all <$> kh_refs s1 !! a) _ l y (hp_ref h)); [done| | |done]; unfold link_all; kh_simpl; [by rewrite lookup_insert_eq|]. intros a Ha. by rewrite lookup_insert_ne. }
  apply (wp_unlink _ _ _ _ _ (refs_of t G1) (refs_of t G2)).
  - intros Q' HQ'. eapply wp_sizebase_at; [lia|exact Hb|done].
  - done.
  - intros Hz. by destruct (Hrefs 0 (Hsub 0 Hz)).
  - lia.
  - apply Forall_forall. intros a Ha. apply Hrefs, Hsub. set_solver.
  - done.
  - intros El. unfold sizebase_put. wp_steps. eapply wp_sizebase_at; [lia|exact Hb|]. wp_steps. apply Hsecond. by left.
  - intros l y z El Hy. apply Hsecond. right. by exists l, y, z.
Qed.
End refs.

(** * The kernel heap as a map of blocks

    [rep A f s]: the heap has handed out the blocks [A], a map from addresses
    to sizes.  [kmalloc] adds a block and [kfree] removes one. *)

(** The size of the block for a request. *)
Definition block_size (sz : Z) : Z :=
  if LARGEST_SUBPAGE_SIZE <=? sz then DIVROUNDUP sz PAGE_SIZE * PAGE_SIZE
  else default 0 (head (filter (fun x => sz <= x) sizes)).

Definition allocated (h : hpage) (p : Z) : Prop := is_block h p /\ p ∉ hp_free h.
Definition tight (h : hpage) : Prop := Z.of_nat (length (hp_free h)) < PAGE_SIZE / hsize h.

(** The block [p] of size [n] is handed out. *)
Definition taken (G : list hpage) (big : gmap Z Z) (p n : Z) : Prop :=
  (exists h, h ∈ G /\ allocated h p /\ n = hsize h) \/ (exists m, big !! p = Some m /\ n = m * PAGE_SIZE).

Section spec.
Context {P : Type} `{KPages P}.
Implicit Types s : kheap P.

Definition rep (A : gmap Z Z) (f : Z) s : Prop := exists G big, kinv G big f s /\ kmalloc_spinlock s = false /\ 0 <= f /\ Forall tight G /\ forall p n, A !! p = Some n <-> taken G big p n.

(** ** Blocks are apart *)

Lemma block_page G big f s g h p : kinv G big f s -> g ∈ G -> h ∈ G -> is_block g p -> hp_page h <= p < hp_page h + PAGE_SIZE -> g = h.
Proof.
  intros Hi Hg Hh Hp Hr. destruct (decide (hp_page g = hp_page h)) as [E|E].
  - apply list_elem_of_lookup in Hg as [i Hg], Hh as [j Hh]. assert (i = j) as ->; [|congruence]. eapply (NoDup_lookup (hp_page <$> G)); [apply Hi|by rewrite list_lookup_fmap, Hg|rewrite list_lookup_fmap, Hh; cbn; congruence].
  - apply (list_elem_of_split G h) in Hh as (G1 & G2 & ->). exfalso. eapply (NoDup_page_apart G1 h G2); [done| |exact Hp|done]. rewrite elem_of_app, elem_of_cons in Hg. rewrite elem_of_app. destruct Hg as [?|[->|?]]; [by left|done|by right].
Qed.

Lemma block_range G big f s h p : kinv G big f s -> h ∈ G -> is_block h p -> hp_page h <= p /\ p + hsize h <= hp_page h + PAGE_SIZE /\ 16 <= hsize h.
Proof.
  intros Hi Hh Hp. pose proof (po_type _ _ _ (ki_page_of _ _ _ _ _ Hi Hh)) as Ht. destruct (is_block_range h p Ht Hp). destruct (tsize_cases _ Ht) as (_ & ? & _). unfold hsize in *. lia.
Qed.

Lemma page_big_apart G big f s h a n : kinv G big f s -> h ∈ G -> big !! a = Some n -> hp_page h + PAGE_SIZE <= a \/ a + n * PAGE_SIZE <= hp_page h.
Proof.
  intros Hi Hh Ha. destruct (ki_chunk _ _ _ _ Hi h Hh) as (Hc & Hb & _). destruct (ki_big _ _ _ _ Hi a n Ha) as [Hca _]. destruct (kp_apart _ _ _ _ _ (ki_pok _ _ _ _ Hi) Hc Hca) as [?|?]; [by intros <-; rewrite Hb in Ha|lia|lia].
Qed.

Lemma big_range G big f s a n : kinv G big f s -> big !! a = Some n -> 1 <= n /\ 2 ^ 31 <= a /\ a mod PAGE_SIZE = 0 /\ a + n * PAGE_SIZE < 2 ^ 32.
Proof. intros Hi Ha. destruct (ki_big _ _ _ _ Hi a n Ha) as [Hc _]. destruct (kp_range _ _ _ (ki_pok _ _ _ _ Hi) Hc) as (? & ? & ? & ?). unfold MIPS_KSEG0 in *. lia. Qed.

Lemma taken_apart G big f s p n q m : kinv G big f s -> taken G big p n -> taken G big q m -> p <> q -> p + n <= q \/ q + m <= p.
Proof.
  intros Hi Hp Hq Hne. destruct Hp as [(h & Hh & [Hp _] & ->)|(a & Hp & ->)], Hq as [(g & Hg & [Hq _] & ->)|(b & Hq & ->)].
  - destruct (block_range _ _ _ _ _ _ Hi Hh Hp) as (? & ? & ?), (block_range _ _ _ _ _ _ Hi Hg Hq) as (? & ? & ?). destruct (decide (hp_page h = hp_page g)) as [E|E].
    + assert (h = g) as <- by (apply (block_page _ _ _ _ _ _ p Hi); [done..|lia]). destruct Hp as (k & Hk & ->), Hq as (k' & Hk' & ->). assert (k <> k') by (by intros ->). destruct (decide (k < k')); nia.
    + destruct (ki_chunk _ _ _ _ Hi h Hh) as [Hc _], (ki_chunk _ _ _ _ Hi g Hg) as [Hc' _]. destruct (kp_apart _ _ _ _ _ (ki_pok _ _ _ _ Hi) Hc Hc' E); lia.
  - destruct (block_range _ _ _ _ _ _ Hi Hh Hp) as (? & ? & ?). destruct (page_big_apart _ _ _ _ _ _ _ Hi Hh Hq); lia.
  - destruct (block_range _ _ _ _ _ _ Hi Hg Hq) as (? & ? & ?). destruct (page_big_apart _ _ _ _ _ _ _ Hi Hg Hp); lia.
  - destruct (ki_big _ _ _ _ Hi _ _ Hp) as [Hc _], (ki_big _ _ _ _ Hi _ _ Hq) as [Hc' _]. destruct (kp_apart _ _ _ _ _ (ki_pok _ _ _ _ Hi) Hc Hc' Hne); lia.
Qed.

Lemma rep_disjoint A f s p n q m : rep A f s -> A !! p = Some n -> A !! q = Some m -> p <> q -> p + n <= q \/ q + m <= p.
Proof. intros (G & big & Hi & _ & _ & _ & HA) Hp%HA Hq%HA. by eapply taken_apart. Qed.

Lemma rep_range A f s p n : rep A f s -> A !! p = Some n -> 16 <= n /\ 2 ^ 31 <= p /\ p + n < 2 ^ 32 /\ p mod 16 = 0.
Proof.
  intros (G & big & Hi & _ & _ & _ & HA) [(h & Hh & [Hp _] & ->)|(m & Hp & ->)]%HA.
  - destruct (block_range _ _ _ _ _ _ Hi Hh Hp) as (? & ? & ?). destruct (ki_range _ _ _ _ _ Hi Hh) as (? & Hm & ?). split_and!; try lia. destruct Hp as (k & _ & ->). pose proof (po_type _ _ _ (ki_page_of _ _ _ _ _ Hi Hh)) as Ht. unfold hsize, PAGE_SIZE in *.
    assert (tsize (hp_type h) mod 16 = 0) as Hs. { assert (hp_type h = 0 \/ hp_type h = 1 \/ hp_type h = 2 \/ hp_type h = 3 \/ hp_type h = 4 \/ hp_type h = 5 \/ hp_type h = 6 \/ hp_type h = 7) as Hc by lia. repeat (destruct Hc as [->|Hc]; [done|]). by rewrite Hc. }
    assert (hp_page h mod 16 = 0) as Hp16 by zlia. rewrite Z.add_mod, Z.mul_mod, Hs, Hp16, Z.mul_0_r by lia. done.
  - destruct (big_range _ _ _ _ _ _ Hi Hp) as (? & ? & ? & ?). unfold PAGE_SIZE in *. split_and!; [lia..|zlia].
Qed.

(** ** What is taken, step by step *)

Lemma taken_mid G1 h G2 big p n : taken (G1 ++ h :: G2) big p n <-> (allocated h p /\ n = hsize h) \/ taken (G1 ++ G2) big p n.
Proof.
  unfold taken. split.
  - intros [(g & Hg & ? & ?)|?]; [|tauto]. rewrite elem_of_app, elem_of_cons in Hg. destruct Hg as [Hg|[->|Hg]]; [right; left; exists g; set_solver|by left|right; left; exists g; set_solver].
  - intros [[? ?]|[(g & Hg & ? & ?)|?]]; [left; exists h; set_solver|left; exists g; set_solver|tauto].
Qed.

(** Nothing else is taken where a block is. *)
Lemma taken_other G1 h G2 big f s p n : kinv (G1 ++ h :: G2) big f s -> is_block h p -> ~ taken (G1 ++ G2) big p n.
Proof.
  intros Hi Hp. assert (h ∈ G1 ++ h :: G2) as Hh by set_solver. destruct (block_range _ _ _ _ _ _ Hi Hh Hp) as (? & ? & ?). intros [(g & Hg & [Hgp _] & _)|(m & Hm & _)].
  - eapply (NoDup_page_apart G1 h G2); [done|exact Hg|exact Hgp|lia].
  - pose proof (big_range _ _ _ _ _ _ Hi Hm). destruct (page_big_apart _ _ _ _ _ _ _ Hi Hh Hm); unfold PAGE_SIZE in *; lia.
Qed.

Lemma taken_doalloc G1 h G2 big f s a l p n : kinv (G1 ++ h :: G2) big f s -> hp_free h = a :: l ->
  taken (G1 ++ with_free l h :: G2) big p n <-> (p = a /\ n = hsize h) \/ (p <> a /\ taken (G1 ++ h :: G2) big p n).
Proof.
  intros Hi Hf. assert (h ∈ G1 ++ h :: G2) as Hh by set_solver. pose proof (ki_page_of _ _ _ _ _ Hi Hh) as [_ _ _ Hn Hb]. rewrite Hf in Hn, Hb. apply NoDup_cons in Hn as [Ha _]. apply Forall_cons in Hb as [Hba _].
  rewrite !taken_mid. unfold allocated. rewrite Hf, with_free_block. change (hsize (with_free l h)) with (hsize h). cbn [hp_free with_free]. rewrite not_elem_of_cons. pose proof (taken_other _ _ _ _ _ _ _ n Hi Hba). destruct (decide (p = a)) as [->|]; tauto.
Qed.

Lemma taken_new h G big p n : (forall a, is_block h a -> a ∈ hp_free h) -> taken (h :: G) big p n <-> taken G big p n.
Proof. intros Hall. rewrite (taken_mid [] h G). unfold allocated. split; [|tauto]. intros [[[Hp Hn] _]|?]; [|done]. by destruct Hn; apply Hall. Qed.

Lemma taken_big_in G big a m p n : big !! a = None -> (forall m, ~ taken G big a m) -> taken G (<[a := m]> big) p n <-> (p = a /\ n = m * PAGE_SIZE) \/ (p <> a /\ taken G big p n).
Proof.
  intros Ha Hno. unfold taken in *. setoid_rewrite lookup_insert_Some. destruct (decide (p = a)) as [->|Hne].
  - split; [|intros [[_ ->]|[? _]]; [right; exists m; split; [by left|done]|done]]. intros [Hs|(m' & [[_ <-]|[? _]] & ->)]; [destruct (Hno n); by left|by left|done].
  - split.
    + intros [Hs|(m' & [[E _]|[_ Hm]] & ->)]; [right; split; [done|by left]|by destruct Hne|right; split; [done|right; eauto]].
    + intros [[? _]|[_ [Hs|(m' & Hm & ->)]]]; [done|by left|right; exists m'; split; [by right|done]].
Qed.

Lemma taken_big_out G big f s a m p n : kinv G big f s -> big !! a = Some m -> taken G (delete a big) p n <-> p <> a /\ taken G big p n.
Proof.
  intros Hi Ha. unfold taken. setoid_rewrite lookup_delete_Some. split.
  - intros [(h & Hh & [Hp Hn] & ->)|(k & [Hne Hk] & ->)]; [|split; [done|right; eauto]]. split; [|left; exists h; by split]. intros ->. destruct (block_range _ _ _ _ _ _ Hi Hh Hp) as (? & ? & ?). pose proof (big_range _ _ _ _ _ _ Hi Ha). destruct (page_big_apart _ _ _ _ _ _ _ Hi Hh Ha); unfold PAGE_SIZE in *; lia.
  - intros [Hne [?|(k & Hk & ->)]]; [by left|right; exists k; split; [done|done]].
Qed.

(** Freeing [p] on its page. *)
Lemma taken_free G1 h G2 big f s p q n : kinv (G1 ++ h :: G2) big f s -> is_block h p -> p ∉ hp_free h ->
  taken (G1 ++ with_free (p :: hp_free h) h :: G2) big q n <-> q <> p /\ taken (G1 ++ h :: G2) big q n.
Proof.
  intros Hi Hp Hf. rewrite !taken_mid. unfold allocated. rewrite with_free_block. change (hsize (with_free _ h)) with (hsize h). cbn [hp_free with_free]. rewrite not_elem_of_cons. pose proof (taken_other _ _ _ _ _ _ _ n Hi Hp). destruct (decide (q = p)) as [->|]; tauto.
Qed.

Lemma full_page h l : 0 <= hp_type h < 8 -> NoDup l -> Forall (is_block h) l -> Z.of_nat (length l) = PAGE_SIZE / hsize h -> forall a, is_block h a -> a ∈ l.
Proof.
  intros Ht Hn Hb Hl a Ha. assert (l ≡ₚ blocks h) as ->; [|by apply elem_of_blocks]. apply submseteq_length_Permutation.
  - apply NoDup_submseteq; [done|]. intros b Hb'. apply elem_of_blocks. rewrite Forall_forall in Hb. by apply Hb.
  - pose proof (blocks_count h Ht). lia.
Qed.

(** ** kmalloc *)

Lemma wp_blocktype sz s (Q : Z -> kheap P -> Prop) : sz <= 2048 ->
  (forall t, 0 <= t < 8 -> sz <= tsize t -> tsize t = default 0 (head (filter (fun x => sz <= x) sizes)) -> Q t s) -> wp (blocktype sz) Q s.
Proof.
  intros Hsz HQ. unfold blocktype. wp_steps. apply (wp_for _ _ _ (fun i s' => s' = s /\ forall j, 0 <= j < i -> tsize j < sz)).
  - split; [done|]. intros. lia.
  - intros i s' Hi [-> Hlt]. unfold NSIZES in Hi. wp_steps. apply wp_size_at; [lia|]. destruct (sz <=? tsize i) eqn:E; boolify; wp_steps.
    + apply HQ; [lia|done|]. destruct (tsize_cases i) as (Hsi & _); [lia|]. rewrite <- (take_drop_middle _ _ _ Hsi). rewrite filter_app, filter_cons, decide_True by done.
      destruct (filter (fun x => sz <= x) (take (Z.to_nat i) sizes)) as [|x l] eqn:Ef; [done|]. exfalso. assert (x ∈ x :: l) as Hx by left. rewrite <- Ef in Hx. apply list_elem_of_filter in Hx as [Hx Hin]. apply list_elem_of_lookup in Hin as [j Hj]. apply lookup_take_Some in Hj as [Hj Hji].
      specialize (Hlt (Z.of_nat j) ltac:(lia)). unfold tsize in Hlt. rewrite Nat2Z.id, Hj in Hlt. simpl in Hlt. lia.
    + split; [done|]. intros j Hj. destruct (decide (j = i)) as [->|]; [done|]. apply Hlt. lia.
  - intros s' [-> Hlt]. exfalso. specialize (Hlt 7 ltac:(unfold NSIZES; lia)). change (tsize 7) with 2048 in Hlt. lia.
Qed.

(** The words of the blocks in [A] are as before. *)
Definition kept (A : gmap Z Z) s s' : Prop := forall p n a, A !! p = Some n -> p <= a < p + n -> kh_words s' !! a = kh_words s !! a.

Lemma kept_refl A s s' : kh_words s' = kh_words s -> kept A s s'.
Proof. by intros E p n a _ _; rewrite E. Qed.

Definition malloced (A : gmap Z Z) (f sz : Z) s (r : Z) s' : Prop :=
  (r = 0 /\ exists f', f <= f' <= f + 1 /\ rep A f' s' /\ kh_words s' = kh_words s) \/
  (r <> 0 /\ A !! r = None /\ rep (<[r := block_size sz]> A) f s' /\ kept A s s').

(** Handing out the first free block of [h]. *)
Lemma doalloc_rep A G1 h G2 big f a l sz s s' : kinv (G1 ++ h :: G2) big f s -> Forall tight (G1 ++ G2) -> 0 <= f -> (forall p n, A !! p = Some n <-> taken (G1 ++ h :: G2) big p n) -> hp_free h = a :: l ->
  kinv (G1 ++ with_free l h :: G2) big f s' -> kmalloc_spinlock s' = false -> hsize h = block_size sz ->
  a <> 0 /\ A !! a = None /\ rep (<[a := block_size sz]> A) f s'.
Proof.
  intros Hi Htight Hf HA Hfree Hi' Hl' Hsz. assert (h ∈ G1 ++ h :: G2) as Hh by set_solver. pose proof (ki_page_of _ _ _ _ _ Hi Hh) as [Ht _ _ Hn Hb]. pose proof (blocks_length h _ Ht Hn Hb) as Hlen. rewrite Hfree in Hn, Hb, Hlen. apply Forall_cons in Hb as [Hba _].
  destruct (block_range _ _ _ _ _ _ Hi Hh Hba) as (? & ? & ?). destruct (ki_range _ _ _ _ _ Hi Hh) as (? & _ & _).
  assert (A !! a = None) as HAa. { destruct (A !! a) as [n|] eqn:E; [|done]. apply HA, taken_mid in E as [[[_ Hno] _]|E]; [rewrite Hfree in Hno; set_solver|by eapply taken_other in E]. }
  split; [lia|]. split; [done|]. exists (G1 ++ with_free l h :: G2), big. split_and!; [done|done|done| |].
  - apply Forall_app in Htight as [? ?]. apply Forall_app. split; [done|]. apply Forall_cons. split; [|done]. unfold tight. simpl in *. change (hsize (with_free l h)) with (hsize h). lia.
  - intros p n. rewrite (taken_doalloc _ _ _ _ _ _ a l p n Hi Hfree), <- HA, <- Hsz, lookup_insert_Some. split; intros [[? ?]|[? ?]]; subst; auto.
Qed.

Lemma wp_subpage_kmalloc junk A f sz s : rep A f s -> sz < LARGEST_SUBPAGE_SIZE -> wp (subpage_kmalloc junk sz) (malloced A f sz s) s.
Proof.
  intros (G & big & Hi & Hl & Hf & Htight & HA) Hsz. unfold subpage_kmalloc. wp_steps. apply wp_blocktype; [unfold LARGEST_SUBPAGE_SIZE in *; lia|]. intros t Ht Hle Hbs. replace (default 0 _) with (block_size sz) in Hbs by (unfold block_size; replace (_ <=? _) with false by lia; done).
  wp_steps. apply wp_heap_acquire; [done|]. wp_steps. eapply wp_sizebase_at; [lia|by apply (ki_base _ _ _ _ Hi)|]. wp_steps. pose proof (kinv_lock _ _ _ true _ Hi) as Hi1. apply (wp_find_free G big f); [done|done| |].
  - intros _. cbn [Z.eqb negb]. wp_steps. apply wp_heap_release; [done|]. wp_steps. eapply wp_pages_alloc; [apply kinv_lock; exact Hi1|lia| |].
    { intros q Hi2. cbn [Z.eqb]. wp_steps. left. split; [done|]. exists f. split_and!; [lia|lia| |done]. by exists G, big. }
    intros p q Hp Hal Hbp HpG Hi2. replace (p =? 0) with false by lia. wp_steps. apply wp_kassert; [by apply Z.eqb_eq|]. wp_steps. apply wp_heap_acquire; [done|]. wp_steps.
    assert (Htk : forall m, ~ taken G big p m).
    { intros m [(g & Hg & [Hgp _] & _)|(k & Hk & _)]; [|by rewrite Hbp in Hk]. pose proof (block_range _ _ _ _ _ _ Hi Hg Hgp) as (? & ? & ?). pose proof (page_big_apart _ _ _ _ _ _ _ Hi2 Hg (lookup_insert_eq _ _ _)). unfold PAGE_SIZE in *. lia. }
    apply (wp_allocpageref G (<[p := 1]> big) f); [by apply kinv_lock|done|lia| |].
    + intros s' Hi3 Hl3 Hw3. cbn [Z.eqb]. wp_steps. apply wp_heap_release; [done|]. wp_steps. eapply wp_pages_free; [apply kinv_lock; exact Hi3|apply lookup_insert_eq|]. intros q' Hi4. rewrite delete_insert_id in Hi4 by done. wp_steps. left. split; [done|]. exists (f + 1). split_and!; [lia|lia| |done]. exists G, big. split_and!; [done|done|lia|done|done].
    + intros s' pr Hpr HprG Hi3 He Hl3 Hw3. replace (pr =? 0) with false by lia. wp_steps. apply (wp_newpage _ G big f); [done..|]. intros s4 Hi4 Hl4 Hw4. set (h := HPage _ _ _ _) in *. destruct (tsize_cases t Ht) as (_ & ? & ? & ?).
      assert (hp_free h = (p + (PAGE_SIZE / tsize t - 1) * tsize t) :: down p (tsize t) (PAGE_SIZE / tsize t - 1)) as Hfree by (cbn [hp_free h]; rewrite <- down_S by lia; f_equal; lia).
      assert (forall a, is_block h a -> a ∈ hp_free h) as Hall by (intros a (k & Hk & ->); apply elem_of_down; exists k; done).
      eapply (wp_doalloc [] h G); [exact Hi4|exact Hfree|done|]. intros s5 Hi5 Hl5 Hw5. right.
      destruct (doalloc_rep A [] h G big f (p + (PAGE_SIZE / tsize t - 1) * tsize t) (down p (tsize t) (PAGE_SIZE / tsize t - 1)) sz s4 s5 Hi4) as (? & ? & ?); [done|done| |done|done|done|done|]; [intros x n; simpl; rewrite taken_new by done; apply HA|].
      split_and!; [done..|]. intros x n b Hx Hb. rewrite Hw5, Hw4, Hw3; [done|]. assert (Hin : taken G (<[p := 1]> big) x n) by (apply taken_big_in; [done|done|]; right; split; [intros ->; by apply HA, Htk in Hx|by apply HA]).
      assert (taken G (<[p := 1]> big) p (1 * PAGE_SIZE)) as Hin' by (right; exists 1; split; [apply lookup_insert_eq|done]).
      pose proof (taken_apart _ _ _ _ _ _ _ _ Hi2 Hin Hin') as Hap. unfold PAGE_SIZE in *. destruct Hap; [|lia|lia]. intros ->. by apply HA, Htk in Hx.
  - intros G1 h G2 -> Hty Hne. destruct (hp_free h) as [|a l] eqn:Hfree; [done|]. assert (h ∈ G1 ++ h :: G2) as Hh by set_solver. destruct (ki_ref _ _ _ _ _ Hi Hh) as [Hnz _]. replace (hp_ref h =? 0) with false by lia. cbn [negb].
    eapply (wp_doalloc G1 h G2); [exact Hi1|exact Hfree|done|]. intros s' Hi' Hl' Hw'. right. destruct (doalloc_rep A G1 h G2 big f a l sz s s' Hi) as (? & ? & ?); try done.
    + rewrite Forall_app, Forall_cons in Htight. apply Forall_app. tauto.
    + unfold hsize. by rewrite Hty.
    + split_and!; [done..|]. by apply kept_refl.
Qed.

Lemma wp_heap_kmalloc junk A f sz s : rep A f s -> 0 <= sz <= 2 ^ 32 - PAGE_SIZE -> wp (kmalloc junk sz) (malloced A f sz s) s.
Proof.
  intros Hr Hsz. unfold kmalloc. destruct (LARGEST_SUBPAGE_SIZE <=? sz) eqn:E; boolify; [|by apply wp_subpage_kmalloc].
  destruct Hr as (G & big & Hi & Hl & Hf & Htight & HA). unfold LARGEST_SUBPAGE_SIZE, PAGE_SIZE in *. rewrite u32_id by lia. wp_steps. eapply wp_pages_alloc; [exact Hi|zlia| |].
  - intros q Hi2. cbn [Z.eqb]. wp_steps. left. split; [done|]. exists f. split_and!; [lia|lia| |done]. by exists G, big.
  - intros a q Ha Hal Hba HaG Hi2. replace (a =? 0) with false by lia. wp_steps. apply wp_kassert; [by apply Z.eqb_eq|]. wp_steps. right.
    assert (Htk : forall m, ~ taken G big a m). { intros m [(g & Hg & [Hgp _] & _)|(k & Hk & _)]; [|by rewrite Hba in Hk]. pose proof (block_range _ _ _ _ _ _ Hi Hg Hgp) as (? & ? & ?). pose proof (page_big_apart _ _ _ _ _ _ _ Hi2 Hg (lookup_insert_eq _ _ _)). unfold PAGE_SIZE in *. zlia. }
    assert (A !! a = None) as HAa. { destruct (A !! a) as [n|] eqn:EA; [|done]. by apply HA, Htk in EA. }
    split_and!; [done|done| |by apply kept_refl]. eexists G, _. split_and!; [exact Hi2|done|done|done|]. intros p n. rewrite taken_big_in, <- HA, lookup_insert_Some by done. unfold block_size, LARGEST_SUBPAGE_SIZE, DIVROUNDUP, PAGE_SIZE. replace (2048 <=? sz) with true by lia. rewrite u32_id by lia. split; intros [[? ?]|[? ?]]; subst; auto.
Qed.

(** ** kfree *)

Lemma wp_fill_deadbeef p len s (Q : unit -> kheap P -> Prop) : 0 <= len ->
  (forall w, (forall a, ~ (p <= a < p + len) -> w !! a = kh_words s !! a) -> Q tt (set_kh_words w s)) -> wp (fill_deadbeef p len) Q s.
Proof.
  intros Hlen HQ. unfold fill_deadbeef. wp_steps. apply (wp_for _ _ _ (fun i s' => exists w, s' = set_kh_words w s /\ forall a, ~ (p <= a < p + len) -> w !! a = kh_words s !! a)).
  - exists (kh_words s). split; [by destruct s|done].
  - intros i s' Hi (w & -> & Hw). unfold word_put. wp_steps. eexists. split; [reflexivity|]. kh_simpl. intros a Ha. rewrite lookup_insert_ne; [by apply Hw|]. zlia.
  - intros s' (w & -> & Hw). wp_steps. by apply HQ.
Qed.

(** A whole page is given back. *)
Lemma wp_release_page A G1 h G2 big f s (Q : unit -> kheap P -> Prop) : kinv (G1 ++ h :: G2) big f s -> kmalloc_spinlock s = true -> 0 <= f -> Forall tight (G1 ++ G2) -> ~ gap (kheaproots s) ->
  (forall p n, A !! p = Some n <-> taken (G1 ++ h :: G2) big p n) -> (forall a, is_block h a -> a ∈ hp_free h) ->
  (forall s', rep A f s' -> kh_words s' = kh_words s -> Q tt s') ->
  wp (remove_lists (hp_ref h) (hp_type h) ;;; freepageref (hp_ref h) ;;; heap_release ;;; pages (kp_free (hp_page h))) Q s.
Proof.
  intros Hi Hl Hf Htight Hgap HA Hall HQ. assert (h ∈ G1 ++ h :: G2) as Hh by set_solver. pose proof (ki_used _ _ _ _ Hi h Hh) as He. destruct (ki_chunk _ _ _ _ Hi h Hh) as (_ & Hnb & _).
  wp_steps. eapply wp_remove_lists; [exact Hi|]. intros s1 Hi1 Hl1 Hw1 Er1. wp_steps. eapply wp_freepageref; [exact Hi1|by rewrite Er1| |by rewrite Er1|].
  { intros (g & E & Hg)%list_elem_of_fmap. by eapply (ref_apart G1 h G2). }
  intros roots Hi2. wp_steps. apply wp_heap_release; [by rewrite <- Hl, <- Hl1|]. eapply wp_pages_free; [apply kinv_lock; exact Hi2|apply lookup_insert_eq|]. intros q Hi3. rewrite delete_insert_id in Hi3 by done. wp_steps. apply HQ; [|done].
  exists (G1 ++ G2), big. split_and!; [done..|]. intros p n. rewrite HA, taken_mid. unfold allocated. split; [|tauto]. intros [[[Hb Hn] _]|?]; [|done]. by destruct Hn; apply Hall.
Qed.

(** The routine up to the point where the block is on the free list again. *)
Definition kfree_end (h : hpage) : M (kheap P) Z :=
  (if Z.of_nat (length (hp_free h)) + 1 =? PAGE_SIZE / hsize h then
     remove_lists (hp_ref h) (hp_type h) ;;; freepageref (hp_ref h) ;;; heap_release ;;; pages (kp_free (hp_page h))
   else heap_release) ;;;
  ret 0.

Lemma subpage_kfree_front G1 h G2 big f p s (R : outcome (kheap P) Z -> Prop) : kinv (G1 ++ h :: G2) big f s -> kmalloc_spinlock s = false -> allocated h p ->
  (forall s1, kinv (G1 ++ with_free (p :: hp_free h) h :: G2) big f s1 -> kmalloc_spinlock s1 = true -> kheaproots s1 = kheaproots s ->
    (forall a, ~ (p <= a < p + hsize h) -> kh_words s1 !! a = kh_words s !! a) -> R (kfree_end h s1)) ->
  R (subpage_kfree p s).
Proof.
  intros Hi Hl [Hbp Hnf] HR. unfold subpage_kfree. apply run_bind, wp_heap_acquire; [done|]. pose proof (kinv_lock _ _ _ true _ Hi) as Hi1.
  assert (h ∈ G1 ++ h :: G2) as Hh by set_solver. pose proof (ki_page_of _ _ _ _ _ Hi Hh) as [Ht (ns & na & Href) Hc Hn Hb]. destruct (ki_range _ _ _ _ _ Hi Hh) as (Hp1 & Hp2 & Hp3). destruct (ki_ref _ _ _ _ _ Hi Hh) as [Hnz Hput].
  destruct (tsize_cases _ Ht) as (_ & Hsz & Hmul & Hcnt). destruct (block_range _ _ _ _ _ _ Hi Hh Hbp) as (Hlo & Hhi & Hs16). assert (Hn' : NoDup (p :: hp_free h)) by (by apply NoDup_cons). assert (Hb' : Forall (is_block h) (p :: hp_free h)) by (by apply Forall_cons).
  pose proof (blocks_length h _ Ht Hn' Hb') as Hlen. apply run_bind. eapply wp_find_page; [exact Hi1| |].
  { intros Hno. destruct (Hno h Hh). lia. }
  intros G1' g G2' E Hr. assert (g = h) as -> by (rewrite E in Hi, Hh; symmetry; apply (block_page _ _ _ _ _ _ p Hi); [done|set_solver|done|done]). clear G1' G2' E.
  replace (hp_ref h =? 0) with false by lia. apply run_bind. eapply wp_ref_at; [exact Href|]. unfold PR_PAGEADDR, PR_BLOCKTYPE. cbn [pageaddr_and_blocktype freelist_offset nfree].
  destruct (page_frame_add (hp_page h) (hp_type h)) as [-> ->]; [unfold PAGE_SIZE in *; lia|done|done|]. apply run_bind, wp_size_at; [done|]. fold (hsize h). rewrite (u32_id (p - hp_page h)) by (unfold PAGE_SIZE in *; lia).
  replace ((PAGE_SIZE <=? p - hp_page h) || negb ((p - hp_page h) mod hsize h =? 0))%bool with false; [|symmetry; apply orb_false_iff; split; [apply Z.leb_gt; lia|apply negb_false_iff, Z.eqb_eq; destruct Hbp as (k & _ & ->); replace (hp_page h + k * hsize h - hp_page h) with (k * hsize h) by lia; apply Z.mod_mul; unfold hsize; lia]].
  apply run_bind, wp_fill_deadbeef; [unfold hsize; lia|]. intros w Hw. replace (hp_page h + (p - hp_page h)) with p by lia. rewrite (u32_id p) by (unfold PAGE_SIZE in *; lia). rewrite (u16_id (p - hp_page h)) by (unfold PAGE_SIZE in *; lia). simpl length in Hlen. rewrite (u16_id (Z.of_nat (length (hp_free h)) + 1)) by (unfold hsize in *; lia).
  set (h' := with_free (p :: hp_free h) h) in *.
  assert (Hrest : forall s0, s0 = set_kh_words (<[p := hd 0 (hp_free h)]> w) (set_kmalloc_spinlock true s) ->
    R ((ref_put (hp_ref h) (set_free (p - hp_page h) (Z.of_nat (length (hp_free h)) + 1) (Pageref ns na (hp_page h + hp_type h) (free_head h) (Z.of_nat (length (hp_free h))))) ;;; kassert (Z.of_nat (length (hp_free h)) + 1 <=? PAGE_SIZE / hsize h) ;;; kfree_end h) s0)).
  { intros s0 ->. apply run_bind, wp_ref_put; [done|]. set (s1 := set_kh_refs _ _). apply run_bind, wp_kassert; [apply Z.leb_le; lia|].
    assert (Hw1 : forall a, ~ (p <= a < p + hsize h) -> kh_words s1 !! a = kh_words s !! a) by (intros a Ha; unfold s1; kh_simpl; rewrite lookup_insert_ne; [by apply Hw|unfold hsize in *; lia]).
    apply HR; [|done|done|done]. eapply (kinv_free G1 h G2 big f _ _ s); [exact Hi|exact Href|done..| | | |done|done].
    - unfold s1. kh_simpl. f_equal. f_equal. simpl. lia.
    - intros a Ha. apply Hw1. lia.
    - split; [unfold s1; kh_simpl; apply lookup_insert_eq|]. apply (chain_ext (fun a => kh_words s !! a)); [|done]. intros a Ha. apply Hw1. assert (a <> p) by (by intros ->). rewrite Forall_forall in Hb. destruct (Hb a Ha) as (k & Hk & ->), Hbp as (k' & Hk' & ->). assert (k <> k') by (by intros ->). destruct (decide (k < k')); unfold hsize in *; nia. }
  unfold kfree_end in Hrest. apply run_bind. unfold free_head in *. destruct (hp_free h) as [|a l] eqn:Efree.
  - rewrite Z.eqb_refl. unfold word_put. apply wp_modify. by apply Hrest.
  - rewrite Forall_forall in Hb. destruct (block_range _ _ _ _ _ a Hi Hh (Hb a ltac:(left))) as (? & ? & ?). unfold INVALID_OFFSET. replace (a - hp_page h =? 65535) with false by (unfold PAGE_SIZE in *; lia). replace (hp_page h + (a - hp_page h)) with a by lia. rewrite u32_id by (unfold PAGE_SIZE in *; lia). unfold word_put. wp_steps. apply wp_kassert; [apply negb_true_iff, Z.eqb_neq; intros ->; apply Hnf; left|]. by apply Hrest.
Qed.

(** [p] is the only block held on its page. *)
Definition last_on_page (A : gmap Z Z) (p : Z) : Prop := forall q m, A !! q = Some m -> q / PAGE_SIZE = p / PAGE_SIZE -> q = p.

Lemma last_on_page_iff A G big f h p s : kinv G big f s -> (forall q k, A !! q = Some k <-> taken G big q k) -> h ∈ G -> allocated h p ->
  last_on_page A p <-> forall a, is_block h a -> a = p \/ a ∈ hp_free h.
Proof.
  intros Hi HA Hh [Hbp Hnf]. destruct (ki_range _ _ _ _ _ Hi Hh) as (Hp1 & Hp2 & Hp3).
  assert (forall a, is_block h a -> a / PAGE_SIZE * PAGE_SIZE = hp_page h) as Hpg by (intros a Ha; destruct (block_range _ _ _ _ _ _ Hi Hh Ha) as (? & ? & ?); unfold PAGE_SIZE in *; zlia). pose proof (Hpg p Hbp) as Epg. split.
  - intros Hlast a Ha. destruct (decide (a ∈ hp_free h)) as [|Hna]; [by right|left]. apply (Hlast a (hsize h)); [apply HA; left; exists h; done|]. pose proof (Hpg a Ha). unfold PAGE_SIZE in *. lia.
  - intros Hall q m Hq E. apply HA in Hq as [(g & Hg & [Hgq Hgn] & ->)|(k & Hk & ->)].
    + assert (g = h) as ->; [|by destruct (Hall q Hgq)]. apply (block_page _ _ _ _ _ _ q Hi); [done..|]. rewrite <- Epg, <- E. unfold PAGE_SIZE. zlia.
    + pose proof (big_range _ _ _ _ _ _ Hi Hk). destruct (page_big_apart _ _ _ _ _ _ _ Hi Hh Hk); unfold PAGE_SIZE in *; zlia.
Qed.

Lemma wp_subpage_kfree A f p n s (Q : Z -> kheap P -> Prop) : rep A f s -> A !! p = Some n -> (n <= LARGEST_SUBPAGE_SIZE -> last_on_page A p -> ~ gap (kheaproots s)) ->
  (forall G big m, kinv G big f s -> 0 <= f -> Forall tight G -> (forall q k, A !! q = Some k <-> taken G big q k) -> big !! p = Some m -> n = m * PAGE_SIZE -> Q (-1) (set_kmalloc_spinlock false (set_kmalloc_spinlock true s))) ->
  (forall s', rep (delete p A) f s' -> (forall a, ~ (p <= a < p + n) -> kh_words s' !! a = kh_words s !! a) -> Q 0 s') ->
  wp (subpage_kfree p) Q s.
Proof.
  intros (G & big & Hi & Hl & Hf & Htight & HA) Hp Hgap Hbig Hsmall. pose proof (proj1 (HA p n) Hp) as [(h & Hh & [Hbp Hnf] & ->)|(m & Hm & ->)].
  - pose proof (last_on_page_iff A G big f h p s Hi HA Hh (conj Hbp Hnf)) as Hlast. pose proof (ki_page_of _ _ _ _ _ Hi Hh) as [Ht _ _ Hn Hb].
    destruct (tsize_cases _ Ht) as (_ & Hsz & _ & Hcnt). assert (Hn' : NoDup (p :: hp_free h)) by (by apply NoDup_cons). assert (Hb' : Forall (is_block h) (p :: hp_free h)) by (by apply Forall_cons). pose proof (blocks_length h _ Ht Hn' Hb') as Hlen.
    apply list_elem_of_split in Hh as (G1 & G2 & ->). apply (subpage_kfree_front G1 h G2 big f p s (fun o => match o with Done a s' => Q a s' | _ => False end)); [done..|]. intros s1 Hi2 Hl1 Er Hw1. set (h' := with_free _ h) in *.
    assert (HA' : forall q k, delete p A !! q = Some k <-> taken (G1 ++ h' :: G2) big q k) by (intros q k; unfold h'; rewrite (taken_free _ _ _ _ _ _ _ _ _ Hi Hbp Hnf), lookup_delete_Some, HA; split; intros [? ?]; auto).
    rewrite Forall_app, Forall_cons in Htight. destruct Htight as (Ht1 & Hth & Ht2). change (wp (kfree_end h) Q s1). unfold kfree_end. wp_step. destruct (Z.of_nat (length (hp_free h)) + 1 =? PAGE_SIZE / hsize h) eqn:En; boolify.
    + assert (forall a, is_block h a -> a ∈ p :: hp_free h) as Hfull by (apply (full_page h); [done..|simpl; lia]).
      apply (wp_release_page (delete p A) G1 h' G2 big f s1); [done|done|done|by apply Forall_app| |done|done|].
      * rewrite Er. apply Hgap; [unfold LARGEST_SUBPAGE_SIZE, hsize; lia|]. apply Hlast. intros a Ha. by apply elem_of_cons, Hfull.
      * intros s' Hr' Hw'. wp_steps. apply Hsmall; [done|]. by rewrite Hw'.
    + apply wp_heap_release; [done|]. wp_steps. apply Hsmall; [|done]. exists (G1 ++ h' :: G2), big. split_and!; [by apply kinv_lock|done|done| |done]. apply Forall_app. split; [done|]. apply Forall_cons. split; [|done]. unfold tight, h'. change (hsize (with_free _ h)) with (hsize h). simpl in *. lia.
  - unfold subpage_kfree. wp_steps. apply wp_heap_acquire; [done|]. wp_steps. pose proof (kinv_lock _ _ _ true _ Hi) as Hi1. pose proof (big_range _ _ _ _ _ _ Hi Hm). eapply wp_find_page; [exact Hi1| |].
    + intros _. cbn [Z.eqb]. wp_steps. apply wp_heap_release; [done|]. wp_steps. by eapply Hbig.
    + intros G1 h G2 -> Hr. assert (h ∈ G1 ++ h :: G2) as Hh by set_solver. destruct (page_big_apart _ _ _ _ _ _ _ Hi Hh Hm); unfold PAGE_SIZE in *; lia.
Qed.

Lemma wp_heap_kfree A f p n s : rep A f s -> A !! p = Some n -> (n <= LARGEST_SUBPAGE_SIZE -> last_on_page A p -> ~ gap (kheaproots s)) ->
  wp (kfree p) (fun _ s' => rep (delete p A) f s' /\ kept (delete p A) s s') s.
Proof.
  intros Hr Hp Hgap. pose proof (rep_range _ _ _ _ _ Hr Hp) as (? & ? & ? & _). unfold kfree. replace (p =? 0) with false by lia. wp_steps. eapply wp_subpage_kfree; [exact Hr|exact Hp|done| |].
  - intros G big m Hi Hf Htight HA Hm ->. cbn. wp_steps. destruct (big_range _ _ _ _ _ _ Hi Hm) as (_ & _ & ? & _). apply wp_kassert; [by apply Z.eqb_eq|]. wp_steps. eapply wp_pages_free; [do 2 apply kinv_lock; exact Hi|exact Hm|]. intros q Hi'. split; [|by apply kept_refl]. exists G, (delete p big). split_and!; [done..|]. intros x k. rewrite (taken_big_out _ _ _ _ _ _ _ _ Hi Hm), <- HA, lookup_delete_Some. split; intros [? ?]; auto.
  - intros s' Hr' Hw. cbn. wp_steps. split; [done|]. intros q m a [Hne Hq]%lookup_delete_Some Ha. apply Hw. destruct (rep_disjoint _ _ _ _ _ _ _ Hr Hp Hq); [done|lia|lia].
Qed.

(** When the first root has entries in use but no page, no page of blocks can
    be given back: [freepageref] starts with that root. *)
Lemma kfree_stuck A f p n r s : rep A f s -> A !! p = Some n -> n <= LARGEST_SUBPAGE_SIZE -> last_on_page A p ->
  kheaproots s !! 0%nat = Some r -> kr_page r = 0 -> numinuse r <> 0 -> kfree p s = Panic.
Proof.
  intros (G & big & Hi & Hl & Hf & Htight & HA) Hp Hn Hlast Hr Hr0 Hm. pose proof (proj1 (HA p n) Hp) as [(h & Hh & Hall & ->)|(m & Hb & ->)].
  - pose proof (ki_range _ _ _ _ _ Hi Hh) as (? & _ & _). pose proof (proj1 (last_on_page_iff A G big f h p s Hi HA Hh Hall) Hlast) as Hfull. destruct Hall as [Hbp Hnf].
    destruct (block_range _ _ _ _ _ _ Hi Hh Hbp) as (? & _). pose proof (ki_page_of _ _ _ _ _ Hi Hh) as [Ht _ _ Hnd Hbl]. assert (Z.of_nat (length (hp_free h)) + 1 = PAGE_SIZE / hsize h) as Hcount.
    { rewrite <- (blocks_count h Ht). assert (blocks h ≡ₚ p :: hp_free h) as E; [|apply Permutation_length in E; simpl in E; lia]. apply NoDup_Permutation.
      - unfold blocks. apply NoDup_fmap_2_strong; [|apply NoDup_seqZ]. intros x y _ _ E. destruct (tsize_cases _ Ht) as (_ & ? & _). unfold hsize in E. nia.
      - by apply NoDup_cons.
      - intros a. rewrite elem_of_blocks, elem_of_cons. split; [apply Hfull|]. intros [->|Ha]; [done|]. rewrite Forall_forall in Hbl. by apply Hbl. }
    apply list_elem_of_split in Hh as (G1 & G2 & ->). assert (subpage_kfree p s = Panic) as E; [|unfold kfree, bind; rewrite (proj2 (Z.eqb_neq p 0)) by lia; by rewrite E].
    apply (subpage_kfree_front G1 h G2 big f p s (fun o => o = Panic)); [done..|]. intros s1 Hi1 _ Er _. unfold kfree_end. rewrite Hcount, Z.eqb_refl. apply bind_panic.
    apply run_bind. eapply (wp_remove_lists G1 (with_free _ h) G2); [exact Hi1|]. intros s2 _ _ _ Er2. apply bind_panic. unfold freepageref. apply bind_panic. cbn [Z.to_nat NUM_PAGEREFPAGES]. change (Z.to_nat NUM_PAGEREFPAGES) with 16%nat. cbn [for_]. apply bind_panic.
    apply run_bind. eapply wp_root_at; [rewrite Er2, Er; exact Hr|]. rewrite Hr0. cbn [Z.eqb]. apply bind_panic. unfold kassert. by rewrite (proj2 (Z.eqb_neq _ _) Hm).
  - destruct (big_range _ _ _ _ _ _ Hi Hb) as [? _]. unfold LARGEST_SUBPAGE_SIZE, PAGE_SIZE in *. lia.
Qed.
End spec.
