(* ===== verification/VmHeap.v ===== *)
(** * What the VM system calls: the kernel heap, sleep locks, the TLB

    The interfaces the code of kern/vm/vm.c and kern/vm/addrspace.c uses: the
    kernel heap over the coremap, wait channels and the swap disk as classes
    with their laws; [lock_create], [lock_destroy], [lock_acquire] and
    [lock_release] of kern/thread/synch.c as one running thread sees them;
    the TLB instructions of kern/arch/mips/vm/tlb-mips161.S. *)

From S2P Require Import Prelude KHeap Bitmap VmState Coremap.

(** ** What a heap call may change

    The heap takes kernel pages from the coremap and gives them back.  It
    never touches a user page or its contents, nor anything else of the VM
    system. *)

Definition user_page (p : coremap_page) : Prop := cp_state p = used \/ cp_state p = in_eviction.

Record kernel_side (s s' : vm) : Prop := {
  ks_ok : cm_ok s -> cm_ok s';
  ks_user : forall k p, user_page p -> coremap s !! k = Some p <-> coremap s' !! k = Some p;
  ks_frames : forall k p, user_page p -> coremap s !! Z.to_nat k = Some p -> frames s' !! k = frames s !! k;
  ks_rest : s' = set_coremap (coremap s') (set_allocated_pages_count (allocated_pages_count s')
                   (set_frames (frames s') (set_heap (heap s') s)));
}.

(** The kernel heap and the wait channels as the VM system uses them.
    [junk] is what an uninitialised word of a new block holds. *)
Class VmHeap := {
  vm_kmalloc :: KMalloc vm;
  vm_heap_live : forall s, heap_live s = heap s;
  vm_heap_ok : forall s, heap_ok s <-> cm_ok s;
  vm_heap_side : forall s s', heap_side s s' -> kernel_side s s';
  wchan_create : M vm Z;
  wchan_destroy : Z -> M vm unit;
  wchan_create_spec : forall s, cm_ok s ->
    wp wchan_create (fun p s' => heap_side s s' /\
      ((p = 0 /\ heap s' = heap s) \/ (0 < p /\ (p ∉ heap s) /\ heap s' = {[p]} ∪ heap s))) s;
  wchan_destroy_spec : forall p s, cm_ok s -> p <> 0 -> p ∈ heap s ->
    wp (wchan_destroy p) (fun _ s' => heap_side s s' /\ heap s' = heap s ∖ {[p]}) s;
  junk : Z;
}.

(** The swap disk: page-sized transfers between physical memory and the raw
    device [swap.vnode].  A transfer that fails leaves its target page in an
    unknown state. *)
Class SwapDevice := {
  vop_read : forall vnode page_paddr offset : Z, M vm Z;
  vop_write : forall vnode page_paddr offset : Z, M vm Z;
  vop_read_spec : forall vnode page_paddr offset s,
    wp (vop_read vnode page_paddr offset) (fun r s' => exists pg,
      s' = set_frames (<[page_paddr / PAGE_SIZE := pg]> (frames s)) s /\
      (r = 0 -> swap_data s !! (offset / PAGE_SIZE) = Some pg)) s;
  vop_write_spec : forall vnode page_paddr offset s,
    wp (vop_write vnode page_paddr offset) (fun r s' => exists pg,
      s' = set_swap_data (<[offset / PAGE_SIZE := pg]> (swap_data s)) s /\
      (r = 0 -> frames s !! (page_paddr / PAGE_SIZE) = Some pg)) s;
}.

(** ** Interrupt level and TLB *)

Definition splx (spl : Z) : M vm Z :=
  s <- get ;;
  modify (set_curspl spl) ;;;
  ret (curspl s).

Definition splhigh : M vm Z := splx IPL_HIGH.

Definition TLBHI_PID : Z := 4032.
Definition TLBLO_GLOBAL : Z := 256.

Definition tlb_read (index : Z) : M vm (Z * Z) :=
  s <- get ;; deref (tlb s !! Z.to_nat index).

Definition tlb_write (entryhi entrylo index : Z) : M vm unit :=
  _ <- tlb_read index ;;
  modify (fun s => set_tlb (<[Z.to_nat index := (entryhi, entrylo)]> (tlb s)) s).

Definition tlb_random (entryhi entrylo : Z) : M vm unit :=
  s <- get ;; tlb_write entryhi entrylo (c0_random s).

(** A slot matches by page and, unless it is global, by address space id. *)
Definition tlb_match (entryhi : Z) (e : Z * Z) : bool :=
  (Z.land e.1 TLBHI_VPAGE =? Z.land entryhi TLBHI_VPAGE) &&
  (negb (Z.land e.2 TLBLO_GLOBAL =? 0) || (Z.land e.1 TLBHI_PID =? Z.land entryhi TLBHI_PID)).

Definition tlb_probe (entryhi entrylo : Z) : M vm Z :=
  s <- get ;;
  ret (match list_find (fun e => tlb_match entryhi e = true) (tlb s) with
       | Some (i, _) => Z.of_nat i
       | None => -1
       end).

Definition tlb_invalidate_entry (remove_vaddr : Z) : M vm unit :=
  old_spl <- splhigh ;;
  tlb_index <- tlb_probe remove_vaddr 0 ;;
  (if 0 <=? tlb_index then tlb_write (TLBHI_INVALID tlb_index) TLBLO_INVALID tlb_index else ret tt) ;;;
  splx old_spl ;;; ret tt.

(** ** Sleep locks *)

Section locks.
Context `{VmHeap}.

Definition lock_create : M vm Z :=
  lock <- kmalloc 32 ;;
  if lock =? 0 then ret 0 else
  name <- kmalloc 9 ;;
  if name =? 0 then kfree lock ;;; ret 0 else
  wc <- wchan_create ;;
  if wc =? 0 then kfree name ;;; kfree lock ;;; ret 0 else
  modify (fun s => set_locks (<[lock := Sleeplock false name wc]> (locks s)) s) ;;;
  ret lock.

Definition lock_destroy (lock : Z) : M vm unit :=
  kassert (negb (lock =? 0)) ;;;
  s <- get ;;
  l <- deref (locks s !! lock) ;;
  wchan_destroy (lk_wchan l) ;;;
  kfree (lk_name l) ;;;
  modify (fun s => set_locks (delete lock (locks s)) s) ;;;
  kfree lock.

(** Acquiring a lock that is held sleeps until another thread releases it;
    one thread running alone never returns from that. *)
Definition lock_acquire (lock : Z) : M vm unit :=
  kassert (negb (lock =? 0)) ;;;
  s <- get ;;
  l <- deref (locks s !! lock) ;;
  if lk_held l then nofuel else
  modify (fun s => set_locks (<[lock := Sleeplock true (lk_name l) (lk_wchan l)]> (locks s)) s).

Definition lock_release (lock : Z) : M vm unit :=
  kassert (negb (lock =? 0)) ;;;
  s <- get ;;
  l <- deref (locks s !! lock) ;;
  kassert (lk_held l) ;;;
  modify (fun s => set_locks (<[lock := Sleeplock false (lk_name l) (lk_wchan l)]> (locks s)) s).
End locks.

(** ** Lemmas *)

#[export] Instance kernel_side_preorder : PreOrder kernel_side.
Proof.
  split.
  - intros s. constructor; try done. by destruct s.
  - intros a b c [A1 A2 A3 A4] [B1 B2 B3 B4]. constructor.
    + auto.
    + intros k p Hp. by rewrite A2, B2.
    + intros k p Hp Hk. rewrite (B3 k p), (A3 k p); [done..|]. by apply A2.
    + rewrite B4, A4. by destruct a.
Qed.

(** The fields a heap call leaves alone. *)
Lemma kernel_side_fields s s' : kernel_side s s' ->
  memory_start s' = memory_start s /\ memory_end s' = memory_end s /\ coremap_lock s' = coremap_lock s /\
  swap_lock s' = swap_lock s /\ swap_bitmap s' = swap_bitmap s /\ tlb s' = tlb s /\ c0_random s' = c0_random s /\
  locks s' = locks s /\ ptes s' = ptes s /\ regions s' = regions s /\ spaces s' = spaces s /\ curas s' = curas s /\
  curspl s' = curspl s /\ swap_data s' = swap_data s.
Proof. intros [_ _ _ E]. rewrite E. by vm_simpl. Qed.

Section heap_lemmas.
Context `{VmHeap}.

Lemma vm_kmalloc_spec sz s : cm_ok s ->
  wp (kmalloc sz) (fun p s' => kernel_side s s' /\
    ((p = 0 /\ heap s' = heap s) \/ (0 < p /\ (p ∉ heap s) /\ heap s' = {[p]} ∪ heap s))) s.
Proof.
  intros Hok. wp_apply kmalloc_spec; [by apply vm_heap_ok|]. intros p s' [Hs Hp].
  rewrite !vm_heap_live in Hp. split; [by apply vm_heap_side|done].
Qed.

Lemma vm_kfree_spec p s : cm_ok s -> p <> 0 -> p ∈ heap s ->
  wp (kfree p) (fun _ s' => kernel_side s s' /\ heap s' = heap s ∖ {[p]}) s.
Proof.
  intros Hok Hp Hin. wp_apply kfree_spec; [by apply vm_heap_ok|done|by rewrite vm_heap_live|].
  intros _ s' [Hs Hl]. rewrite !vm_heap_live in Hl. split; [by apply vm_heap_side|done].
Qed.

Lemma vm_wchan_create_spec s : cm_ok s ->
  wp wchan_create (fun p s' => kernel_side s s' /\
    ((p = 0 /\ heap s' = heap s) \/ (0 < p /\ (p ∉ heap s) /\ heap s' = {[p]} ∪ heap s))) s.
Proof. intros Hok. wp_apply wchan_create_spec; [done|]. intros p s' [Hs Hp]. split; [by apply vm_heap_side|done]. Qed.

Lemma vm_wchan_destroy_spec p s : cm_ok s -> p <> 0 -> p ∈ heap s ->
  wp (wchan_destroy p) (fun _ s' => kernel_side s s' /\ heap s' = heap s ∖ {[p]}) s.
Proof. intros Hok Hp Hin. wp_apply wchan_destroy_spec; [done..|]. intros _ s' [Hs Hl]. split; [by apply vm_heap_side|done]. Qed.
End heap_lemmas.
