(* ===== verification/Swap.v ===== *)
(** * Swapping (kern/vm/vm.c)

    The swap disk and its bitmap, and the clock algorithm that chooses and
    writes out a page. *)

From S2P Require Import Prelude KHeap Bitmap VmState Coremap VmHeap.

(** ** Access to the objects of the VM system *)

Definition pte_at (p : Z) : M vm pte := s <- get ;; deref (ptes s !! p).
Definition pte_put (p : Z) (e : pte) : M vm unit :=
  _ <- pte_at p ;; modify (fun s => set_ptes (<[p := e]> (ptes s)) s).
Definition region_at (p : Z) : M vm region := s <- get ;; deref (regions s !! p).
Definition region_put (p : Z) (r : region) : M vm unit :=
  _ <- region_at p ;; modify (fun s => set_regions (<[p := r]> (regions s)) s).
Definition space_read (p : Z) : M vm addrspace := s <- get ;; deref (spaces s !! p).
Definition space_put (p : Z) (a : addrspace) : M vm unit :=
  _ <- space_read p ;; modify (fun s => set_spaces (<[p := a]> (spaces s)) s).

(** Fuel for a walk along a list of page table entries or of regions: a list
    without a cycle is no longer than the map its nodes live in. *)
Definition pte_fuel (s : vm) : nat := S (size (ptes s)).
Definition region_fuel (s : vm) : nat := S (size (regions s)).

Definition set_pte_state (st : vpage_state) (e : pte) : pte :=
  Pte (as_vpage e) (as_ppage e) (vpage_permission e) st (diskpage_location e) (pte_lock e) (pte_next e).
Definition set_pte_next (q : Z) (e : pte) : pte :=
  Pte (as_vpage e) (as_ppage e) (vpage_permission e) (pte_state e) (diskpage_location e) (pte_lock e) q.
Definition set_pte_ppage (pa : Z) (e : pte) : pte :=
  Pte (as_vpage e) pa (vpage_permission e) (pte_state e) (diskpage_location e) (pte_lock e) (pte_next e).

(** ** The swap bitmap *)

(** [spinlock_acquire(&swap_lock)] and its release. *)
Definition acquire_swap : M vm unit :=
  s <- get ;; if swap_lock s then panic else modify (set_swap_lock true).
Definition release_swap : M vm unit :=
  s <- get ;; kassert (swap_lock s) ;;; modify (set_swap_lock false).

(** An operation on [swap.bitmap]; a null bitmap is dereferenced. *)
Definition on_bitmap {A} (m : M bitmap A) : M vm A := fun s =>
  match swap_bitmap s with
  | None => Fault
  | Some b =>
      match m b with
      | Done a b' => Done a (set_swap_bitmap (Some b') s)
      | Panic => Panic
      | Fault => Fault
      | NoFuel => NoFuel
      end
  end.

Section swap.
Context `{VmHeap} `{SwapDevice}.

(** [open_result] is what [vfs_open] of the disk gives (an error or the
    vnode), [stat_result] what [VOP_STAT] gives (an error or the size). *)
Definition vm_bootstrap (open_result stat_result : err Z) : M vm unit :=
  let no_swap := set_swap_vnode 0 ∘ set_swap_bitmap None ∘ set_swap_disk_present false in
  match open_result with
  | inl _ => modify no_swap
  | inr disk_node =>
      match stat_result with
      | inl _ => modify no_swap
      | inr st_size =>
          if negb (Z.rem st_size PAGE_SIZE =? 0) then modify no_swap else
          b <- bitmap_create (u32 (Z.quot st_size PAGE_SIZE)) ;;
          modify (set_swap_bitmap b) ;;;
          match b with
          | None => modify (set_swap_vnode 0 ∘ set_swap_disk_present false)
          | Some _ => modify (set_swap_vnode disk_node ∘ set_swap_disk_present true)
          end
      end
  end.

Definition read_swap_disk (page_paddr disk_index : Z) (unmark : bool) : M vm Z :=
  set <- on_bitmap (bitmap_isset disk_index) ;;
  if set =? 0 then ret EINVAL else
  s <- get ;;
  result <- vop_read (swap_vnode s) page_paddr (u32 (disk_index * PAGE_SIZE)) ;;
  if negb (result =? 0) then ret result else
  (if unmark then
     acquire_swap ;;;
     on_bitmap (bitmap_unmark disk_index) ;;;
     release_swap
   else ret tt) ;;;
  ret 0.

Definition write_swap_disk (page_paddr : Z) : M vm (err Z) :=
  acquire_swap ;;;
  allocation_result <- on_bitmap bitmap_alloc ;;
  release_swap ;;;
  match allocation_result with
  | inl e => ret (inl e)
  | inr free_index =>
      s <- get ;;
      result <- vop_write (swap_vnode s) page_paddr (u32 (free_index * PAGE_SIZE)) ;;
      if negb (result =? 0) then ret (inl result) else ret (inr free_index)
  end.

Definition unmark_swap_bitmap (index : Z) : M vm unit :=
  acquire_swap ;;;
  set <- on_bitmap (bitmap_isset index) ;;
  (if negb (set =? 0) then on_bitmap (bitmap_unmark index) else ret tt) ;;;
  release_swap.

(** ** Eviction *)

(** The clock: skip pages that are not user pages, give a referenced page a
    second chance.  Two rounds over the coremap are enough. *)
Definition clock_select : M vm unit :=
  s <- get ;;
  loop_ (S (2 * length (coremap s))) tt (fun _ =>
    s <- get ;;
    p <- coremap_at (eviction_pointer s) ;;
    if bool_decide (cp_state p = used) && negb (ref_bit p) then ret (inr tt) else
    (if bool_decide (cp_state p = used)
     then coremap_put (eviction_pointer s)
            (CoremapPage (chunk_size p) (cp_state p) (owner_addrspace p) (owner_vaddr p) false)
     else ret tt) ;;;
    modify (fun s => set_eviction_pointer (u32 (eviction_pointer s + 1) mod (memory_end s / PAGE_SIZE)) s) ;;;
    ret (inl tt)).

(** The entry of [pte]'s list that maps [va], its lock acquired. *)
Definition evict_lookup (va pa pte : Z) : M vm Z :=
  s <- get ;;
  loop_ (pte_fuel s) pte (fun pte =>
    if pte =? 0 then ret (inr 0) else
    e <- pte_at pte ;;
    if as_vpage e =? va then
      lock_acquire (pte_lock e) ;;;
      kassert (as_ppage e =? pa) ;;;
      kassert (bool_decide (pte_state e = MAPPED)) ;;;
      ret (inr pte)
    else ret (inl (pte_next e))).

Definition evict_page : M vm Z :=
  s <- get ;;
  kassert (coremap_lock s) ;;;
  clock_select ;;;
  s <- get ;;
  p <- coremap_at (eviction_pointer s) ;;
  kassert (bool_decide (cp_state p = used)) ;;;
  let evicted_as := owner_addrspace p in
  let evicted_vaddr := owner_vaddr p in
  let evicted_paddr := u32 (eviction_pointer s * PAGE_SIZE) in
  coremap_put (eviction_pointer s)
    (CoremapPage (chunk_size p) in_eviction (owner_addrspace p) (owner_vaddr p) (ref_bit p)) ;;;
  modify (fun s => set_eviction_pointer (u32 (eviction_pointer s + 1) mod (memory_end s / PAGE_SIZE)) s) ;;;
  release_coremap ;;;
  a <- space_read evicted_as ;;
  pte <- evict_lookup evicted_vaddr evicted_paddr (start_page_table a) ;;
  kassert (negb (pte =? 0)) ;;;
  tlb_invalidate_entry evicted_vaddr ;;;
  r <- write_swap_disk evicted_paddr ;;
  match r with
  | inl _ => panic
  | inr disk_block_index =>
      e <- pte_at pte ;;
      pte_put pte (Pte (as_vpage e) (as_ppage e) (vpage_permission e) SWAPPED disk_block_index
                     (pte_lock e) (pte_next e)) ;;;
      lock_release (pte_lock e) ;;;
      acquire_coremap ;;;
      ret evicted_paddr
  end.
End swap.

Definition vm_tlbshootdown : M vm unit := ret tt.
