(* ===== verification/AddrSpace.v ===== *)
(** * Address spaces (kern/vm/addrspace.c)

    Creation, copying and destruction of an address space with its page
    table and its regions, the definition of regions, the heap and the
    stack. *)

From S2P Require Import Prelude KHeap Bitmap VmState Coremap VmHeap Swap.

Section addrspace.
Context `{VmHeap} `{SwapDevice}.

(** [kfree] of a structure: the object is gone. *)
Definition free_pte (p : Z) : M vm unit := modify (fun s => set_ptes (delete p (ptes s)) s) ;;; kfree p.
Definition free_region (p : Z) : M vm unit := modify (fun s => set_regions (delete p (regions s)) s) ;;; kfree p.
Definition free_space (p : Z) : M vm unit := modify (fun s => set_spaces (delete p (spaces s)) s) ;;; kfree p.

Definition as_create : M vm Z :=
  as_ <- kmalloc 16 ;;
  if as_ =? 0 then ret 0 else
  modify (fun s => set_spaces (<[as_ := Addrspace 0 0 0 0]> (spaces s)) s) ;;;
  ret as_.

(** One round of the loop of [as_destroy] over the page table; the next
    entry. *)
Definition destroy_pte (current_pte : Z) : M vm Z :=
  e <- pte_at current_pte ;;
  lock_acquire (pte_lock e) ;;;
  skip <- match pte_state e with
          | SWAPPED => unmark_swap_bitmap (diskpage_location e) ;;; ret false
          | MAPPED => err <- release_physical_page (as_ppage e) ;; ret (negb (err =? 0))
          | UNMAPPED => ret false
          end ;;
  if skip then
    lock_release (pte_lock e) ;;;
    ret (pte_next e)
  else
    lock_release (pte_lock e) ;;;
    lock_destroy (pte_lock e) ;;;
    free_pte current_pte ;;;
    ret (pte_next e).

Definition destroy_ptes (start : Z) : M vm unit :=
  s <- get ;;
  loop_ (pte_fuel s) start (fun current_pte =>
    if current_pte =? 0 then ret (inr tt) else
    next_pte <- destroy_pte current_pte ;;
    ret (inl next_pte)).

Definition destroy_regions (start : Z) : M vm unit :=
  s <- get ;;
  loop_ (region_fuel s) start (fun current_region =>
    if current_region =? 0 then ret (inr tt) else
    r <- region_at current_region ;;
    free_region current_region ;;;
    ret (inl (rg_next r))).

Definition as_destroy (as_ : Z) : M vm unit :=
  kassert (negb (as_ =? 0)) ;;;
  a <- space_read as_ ;;
  destroy_ptes (start_page_table a) ;;;
  destroy_regions (start_region a) ;;;
  free_space as_.

(** [memmove] of a page between physical frames. *)
Definition copy_frame (dst src : Z) : M vm unit :=
  modify (fun s => set_frames (partial_alter (fun _ => frames s !! (src / PAGE_SIZE)) (dst / PAGE_SIZE) (frames s)) s).

(** Where [new_pte_next] points: the head of the new page table or the
    [next] field of its last entry; likewise for regions. *)
Definition link_pte (newas last new_pte : Z) : M vm unit :=
  if last =? 0 then
    a <- space_read newas ;;
    space_put newas (Addrspace (start_region a) new_pte (heap_start a) (heap_end a))
  else e <- pte_at last ;; pte_put last (set_pte_next new_pte e).

Definition link_region (newas last new_region : Z) : M vm unit :=
  if last =? 0 then
    a <- space_read newas ;;
    space_put newas (Addrspace new_region (start_page_table a) (heap_start a) (heap_end a))
  else
    r <- region_at last ;;
    region_put last (Region (rg_start r) (rg_size r) (rg_npages r) (rg_read r) (rg_write r) (rg_execute r) new_region).

(** A new page table entry and its lock, acquired; [as_copy] and [vm_fault]
    begin a new entry the same way. *)
Definition alloc_pte : M vm (option (Z * Z)) :=
  new_pte <- kmalloc 28 ;;
  if new_pte =? 0 then ret None else
  modify (fun s => set_ptes (<[new_pte := Pte junk junk junk UNMAPPED junk junk junk]> (ptes s)) s) ;;;
  lk <- lock_create ;;
  if lk =? 0 then free_pte new_pte ;;; ret None else
  lock_acquire lk ;;;
  ret (Some (new_pte, lk)).

(** Fill the new page from the old entry, under the old entry's lock. *)
Definition copy_contents (new_ppage : Z) (old : pte) : M vm unit :=
  lock_acquire (pte_lock old) ;;;
  match pte_state old with
  | SWAPPED =>
      r <- read_swap_disk new_ppage (diskpage_location old) false ;;
      if negb (r =? 0) then panic else ret tt
  | _ => copy_frame new_ppage (as_ppage old)
  end ;;;
  lock_release (pte_lock old).

(** One round of the copying loop: the new entry, or [ENOMEM] with the new
    address space destroyed. *)
Definition copy_pte (newas last old_pte : Z) : M vm (err Z) :=
  r <- alloc_pte ;;
  match r with
  | None => as_destroy newas ;;; ret (inl ENOMEM)
  | Some (new_pte, lk) =>
      old <- pte_at old_pte ;;
      pte_put new_pte (Pte (as_vpage old) junk (vpage_permission old) UNMAPPED junk lk 0) ;;;
      new_ppage <- allocate_user_page 1 newas (as_vpage old) true ;;
      if new_ppage =? 0 then
        lock_release lk ;;;
        lock_destroy lk ;;;
        as_destroy newas ;;;
        ret (inl ENOMEM)
      else
        copy_contents new_ppage old ;;;
        pte_put new_pte (Pte (as_vpage old) new_ppage (vpage_permission old) MAPPED junk lk 0) ;;;
        lock_release lk ;;;
        link_pte newas last new_pte ;;;
        ret (inr new_pte)
  end.

Definition copy_ptes (newas start : Z) : M vm (option Z) :=
  s <- get ;;
  loop_ (pte_fuel s) (start, 0) (fun '(old_pte, last) =>
    if old_pte =? 0 then ret (inr None) else
    r <- copy_pte newas last old_pte ;;
    match r with
    | inl e => ret (inr (Some e))
    | inr new_pte => old <- pte_at old_pte ;; ret (inl (pte_next old, new_pte))
    end).

Definition copy_regions (newas start : Z) : M vm (option Z) :=
  s <- get ;;
  loop_ (region_fuel s) (start, 0) (fun '(old_region, last) =>
    if old_region =? 0 then ret (inr None) else
    new_region <- kmalloc 20 ;;
    if new_region =? 0 then as_destroy newas ;;; ret (inr (Some ENOMEM)) else
    old <- region_at old_region ;;
    modify (fun s => set_regions (<[new_region := Region (rg_start old) (rg_size old) (rg_npages old)
      (rg_read old) (rg_write old) (rg_execute old) 0]> (regions s)) s) ;;;
    link_region newas last new_region ;;;
    ret (inl (rg_next old, new_region))).

Definition as_copy (old_as : Z) : M vm (err Z) :=
  newas <- as_create ;;
  if newas =? 0 then ret (inl ENOMEM) else
  old <- space_read old_as ;;
  r <- copy_ptes newas (start_page_table old) ;;
  match r with
  | Some e => ret (inl e)
  | None =>
      r <- copy_regions newas (start_region old) ;;
      match r with
      | Some e => ret (inl e)
      | None =>
          a <- space_read newas ;;
          space_put newas (Addrspace (start_region a) (start_page_table a) (heap_start old) (heap_end old)) ;;;
          ret (inr newas)
      end
  end.

(** ** Activation *)

Definition as_activate : M vm unit :=
  s <- get ;;
  if curas s =? 0 then ret tt else
  spl <- splhigh ;;
  for_ (Z.to_nat NUM_TLB) 0 (fun i =>
    tlb_write (TLBHI_INVALID i) TLBLO_INVALID i ;;;
    @ret vm (option unit) None) ;;;
  splx spl ;;; ret tt.

Definition as_deactivate : M vm unit := ret tt.

(** ** Regions, heap and stack *)

Definition as_define_region (as_ vaddr memsize readable writeable executable : Z) : M vm Z :=
  kassert (negb (as_ =? 0)) ;;;
  let vaddr := Z.land vaddr PAGE_FRAME in
  let memsize := Z.land (u32 (u32 (u32 (memsize + Z.land vaddr (u32 (Z.lnot PAGE_FRAME))) + PAGE_SIZE) - 1)) PAGE_FRAME in
  let npages := memsize / PAGE_SIZE in
  new_region <- kmalloc 20 ;;
  if new_region =? 0 then ret ENOMEM else
  modify (fun s => set_regions (<[new_region := Region vaddr memsize npages
    (negb (Z.land readable 4 =? 0)) (negb (Z.land writeable 2 =? 0)) (negb (Z.land executable 1 =? 0)) 0]> (regions s)) s) ;;;
  a <- space_read as_ ;;
  if start_region a =? 0 then
    space_put as_ (Addrspace new_region (start_page_table a) (heap_start a) (heap_end a)) ;;;
    ret 0
  else
    s <- get ;;
    last <- loop_ (region_fuel s) (start_region a) (fun last =>
      r <- region_at last ;;
      if rg_next r =? 0 then ret (inr last) else ret (inl (rg_next r))) ;;
    r <- region_at last ;;
    region_put last (Region (rg_start r) (rg_size r) (rg_npages r) (rg_read r) (rg_write r) (rg_execute r) new_region) ;;;
    ret 0.

(** The largest end of a region, as the loop of [as_prepare_load] computes it. *)
Definition regions_end (start : Z) : M vm Z :=
  s <- get ;;
  loop_ (region_fuel s) (start, 0) (fun '(current, heap_start) =>
    if current =? 0 then ret (inr heap_start) else
    r <- region_at current ;;
    let region_end := u32 (rg_start r + rg_size r) in
    ret (inl (rg_next r, if heap_start <? region_end then region_end else heap_start))).

Definition as_prepare_load (as_ : Z) : M vm Z :=
  kassert (negb (as_ =? 0)) ;;;
  a <- space_read as_ ;;
  e <- regions_end (start_region a) ;;
  let start := Z.land (u32 (u32 (e + PAGE_SIZE) - 1)) PAGE_FRAME in
  space_put as_ (Addrspace (start_region a) (start_page_table a) start start) ;;;
  kassert (start mod PAGE_SIZE =? 0) ;;;
  ret 0.

Definition as_complete_load (as_ : Z) : M vm Z := ret 0.

Definition as_define_stack (as_ : Z) : M vm (err Z) := ret (inr USERSTACK).
End addrspace.
