(* ===== verification/SpaceInv.v ===== *)
(** * The invariant of the VM system

    What an address space owns (its blocks on the kernel heap, its physical
    pages), when it is well formed, and the framing of operations: a call
    that stays [within] some blocks and pages keeps every address space that
    owns none of them. *)

From S2P Require Import Prelude KHeap Bitmap VmState Coremap VmHeap Swap AddrSpace.

(** ** Framing *)

(** From [s] to [s'] only the objects at [X] and the user pages [P] changed,
    besides kernel pages and the heap's set of blocks. *)
Record within (X : gset Z) (P : gset nat) (s s' : vm) : Prop := {
  wi_ok : cm_ok s';
  wi_start : memory_start s' = memory_start s;
  wi_end : memory_end s' = memory_end s;
  wi_user : forall k p, k ∉ P -> user_page p -> coremap s !! k = Some p <-> coremap s' !! k = Some p;
  wi_frames : forall k p, Z.to_nat k ∉ P -> user_page p -> coremap s !! Z.to_nat k = Some p ->
    frames s' !! k = frames s !! k;
  wi_ptes : forall x, x ∉ X -> ptes s' !! x = ptes s !! x;
  wi_locks : forall x, x ∉ X -> locks s' !! x = locks s !! x;
  wi_regions : forall x, x ∉ X -> regions s' !! x = regions s !! x;
  wi_spaces : forall x, x ∉ X -> spaces s' !! x = spaces s !! x;
  wi_cur : curas s' = curas s;
  wi_tlb : tlb s' = tlb s /\ c0_random s' = c0_random s;
  wi_swap : swap_bitmap s' = swap_bitmap s /\ swap_lock s' = swap_lock s /\ swap_data s' = swap_data s;
}.

Lemma within_refl s : cm_ok s -> within ∅ ∅ s s.
Proof. by constructor. Qed.

Lemma within_mono X P X' P' s s' : within X P s s' -> X ⊆ X' -> P ⊆ P' -> within X' P' s s'.
Proof.
  intros [] HX HP. constructor; try done; intros *.
  - intros Hk. apply wi_user0. set_solver.
  - intros Hk. apply wi_frames0. set_solver.
  - intros Hx. apply wi_ptes0. set_solver.
  - intros Hx. apply wi_locks0. set_solver.
  - intros Hx. apply wi_regions0. set_solver.
  - intros Hx. apply wi_spaces0. set_solver.
Qed.

Lemma within_trans X P s1 s2 s3 : within X P s1 s2 -> within X P s2 s3 -> within X P s1 s3.
Proof.
  intros [A1 A2 A3 A4 A5 A6 A7 A8 A9 A10 A11 A12] [B1 B2 B3 B4 B5 B6 B7 B8 B9 B10 B11 B12].
  constructor; [done|congruence|congruence|..|congruence|intuition congruence|intuition congruence].
  - intros k p Hk Hp. rewrite A4 by done. by apply B4.
  - intros k p Hk Hp Hc. rewrite (B5 k p), (A5 k p); try done. by apply A4.
  - intros x Hx. by rewrite B6, A6.
  - intros x Hx. by rewrite B7, A7.
  - intros x Hx. by rewrite B8, A8.
  - intros x Hx. by rewrite B9, A9.
Qed.

(** Composition with different footprints. *)
Lemma within_app X1 P1 X2 P2 s1 s2 s3 :
  within X1 P1 s1 s2 -> within X2 P2 s2 s3 -> within (X1 ∪ X2) (P1 ∪ P2) s1 s3.
Proof.
  intros H1 H2. eapply within_trans; (eapply within_mono; [eassumption|set_solver..]).
Qed.

Lemma within_kernel s s' : cm_ok s -> kernel_side s s' -> within ∅ ∅ s s'.
Proof.
  intros Hok Hk. pose proof (kernel_side_fields _ _ Hk) as F. destruct Hk as [K1 K2 K3 _].
  destruct F as (?&?&?&?&?&?&?&?&Hp&Hr&Hs&?&?&?). constructor; try done; try naive_solver congruence.
Qed.

(** Updates of the object maps. *)
Lemma within_upd X s s' : cm_ok s ->
  (forall x, x ∉ X -> ptes s' !! x = ptes s !! x) -> (forall x, x ∉ X -> locks s' !! x = locks s !! x) ->
  (forall x, x ∉ X -> regions s' !! x = regions s !! x) -> (forall x, x ∉ X -> spaces s' !! x = spaces s !! x) ->
  s' = set_ptes (ptes s') (set_locks (locks s') (set_regions (regions s') (set_spaces (spaces s') (set_heap (heap s') s)))) ->
  within X ∅ s s'.
Proof.
  intros Hok H1 H2 H3 H4 E. pose proof (co_unlocked _ Hok) as Hul.
  constructor; try done; try (rewrite E; done).
  rewrite E. by apply (cm_ok_ext s).
Qed.

Lemma within_set_ptes X s m : cm_ok s -> (forall x, x ∉ X -> m !! x = ptes s !! x) -> within X ∅ s (set_ptes m s).
Proof. intros Hok Hm. apply within_upd; try done; by destruct s. Qed.
Lemma within_set_locks X s m : cm_ok s -> (forall x, x ∉ X -> m !! x = locks s !! x) -> within X ∅ s (set_locks m s).
Proof. intros Hok Hm. apply within_upd; try done; by destruct s. Qed.
Lemma within_set_regions X s m : cm_ok s -> (forall x, x ∉ X -> m !! x = regions s !! x) -> within X ∅ s (set_regions m s).
Proof. intros Hok Hm. apply within_upd; try done; by destruct s. Qed.
Lemma within_set_spaces X s m : cm_ok s -> (forall x, x ∉ X -> m !! x = spaces s !! x) -> within X ∅ s (set_spaces m s).
Proof. intros Hok Hm. apply within_upd; try done; by destruct s. Qed.

Lemma insert_outside {A} (m : gmap Z A) (i : Z) (a : A) (X : gset Z) x :
  i ∈ X -> x ∉ X -> <[i := a]> m !! x = m !! x.
Proof. intros Hi Hx. apply lookup_insert_ne. set_solver. Qed.
Lemma delete_outside {A} (m : gmap Z A) (i : Z) (X : gset Z) x :
  i ∈ X -> x ∉ X -> delete i m !! x = m !! x.
Proof. intros Hi Hx. apply lookup_delete_ne. set_solver. Qed.

(** A user page lies above the reserved ones. *)
Lemma user_page_managed s k p : cm_ok s -> coremap s !! k = Some p -> cp_state p <> fixed ->
  memory_start s / PAGE_SIZE <= Z.of_nat k < memory_end s / PAGE_SIZE.
Proof.
  intros Hok Hk Hp. pose proof (co_len _ Hok). pose proof (lookup_lt_Some _ _ _ Hk). pose proof (cm_idx s Hok).
  split; [|lia]. destruct (decide (memory_start s / PAGE_SIZE <= Z.of_nat k)) as [|Hlt]; [done|]. exfalso.
  pose proof (co_low _ Hok) as Hlow. rewrite Forall_lookup in Hlow.
  destruct (Hlow k p) as [Hst _]; [|done]. rewrite lookup_take_lt; [done|]. unfold start_idx. lia.
Qed.

Lemma within_ualloc s i as_ va cc : cm_ok s -> fits s 1 i ->
  within ∅ {[Z.to_nat i]} s (ualloc_state s i as_ va cc).
Proof.
  intros Hok Hf. pose proof (ualloc_state_ok s i as_ va cc Hok Hf). pose proof (fits_bound s 1 i Hok ltac:(lia) Hf).
  constructor; try done; unfold ualloc_state; vm_simpl.
  - intros k p Hk _. rewrite list_lookup_insert_ne by set_solver. done.
  - intros k p Hk _ _. rewrite lookup_insert_ne; [done|]. intros ->. set_solver.
Qed.

Lemma within_ufree s i p : cm_ok s -> 0 <= i -> coremap s !! Z.to_nat i = Some p -> cp_state p = used ->
  within ∅ {[Z.to_nat i]} s (ufree_state s i).
Proof.
  intros Hok Hi Hp Hst. pose proof (user_page_managed s _ p Hok Hp ltac:(congruence)).
  pose proof (ufree_state_ok s i p Hok ltac:(lia) Hp Hst).
  constructor; try done; unfold ufree_state; vm_simpl.
  intros k q Hk _. rewrite list_lookup_insert_ne by set_solver. done.
Qed.

(** ** Locks *)

Section locks.
Context `{VmHeap}.

Lemma lock_acquire_done lk l s : lk <> 0 -> locks s !! lk = Some l -> lk_held l = false ->
  lock_acquire lk s = Done tt (set_locks (<[lk := Sleeplock true (lk_name l) (lk_wchan l)]> (locks s)) s).
Proof.
  intros Hn Hl Hh. unfold lock_acquire, bind, kassert, get. rewrite (proj2 (Z.eqb_neq lk 0)) by done. simpl.
  rewrite Hl. simpl. by rewrite Hh.
Qed.

Lemma lock_release_done lk l s : lk <> 0 -> locks s !! lk = Some l -> lk_held l = true ->
  lock_release lk s = Done tt (set_locks (<[lk := Sleeplock false (lk_name l) (lk_wchan l)]> (locks s)) s).
Proof.
  intros Hn Hl Hh. unfold lock_release, bind, kassert, get. rewrite (proj2 (Z.eqb_neq lk 0)) by done. simpl.
  rewrite Hl. simpl. by rewrite Hh.
Qed.

(** A new lock: three fresh blocks and a free lock, or nothing. *)
Definition new_lock (s : vm) (lk : Z) (l : sleeplock) (s' : vm) : Prop :=
  Forall (fun x => 0 < x /\ x ∉ heap s) [lk; lk_name l; lk_wchan l] /\ NoDup [lk; lk_name l; lk_wchan l] /\
  within {[lk]} ∅ s s' /\ locks s' !! lk = Some l /\ lk_held l = false /\
  heap s' = list_to_set [lk; lk_name l; lk_wchan l] ∪ heap s.

Lemma lock_create_spec s : cm_ok s ->
  wp lock_create (fun lk s' =>
    (lk = 0 /\ within ∅ ∅ s s' /\ heap s' = heap s) \/ (exists l, new_lock s lk l s')) s.
Proof.
  intros Hok. unfold lock_create. wp_step. wp_apply vm_kmalloc_spec; [done|].
  intros lk s1 [Hk1 [[-> H1]|(Hlk & Hf1 & H1)]]; pose proof (within_kernel _ _ Hok Hk1) as W1; [simpl; wp_step; by left|].
  rewrite (proj2 (Z.eqb_neq lk 0)) by lia. wp_step. wp_apply vm_kmalloc_spec; [apply W1|].
  intros n s2 [Hk2 [[-> H2]|(Hn & Hf2 & H2)]]; pose proof (within_kernel _ _ (wi_ok _ _ _ _ W1) Hk2) as W2;
    pose proof (within_trans _ _ _ _ _ W1 W2) as W12.
  { simpl. wp_step. wp_apply vm_kfree_spec; [apply W2|lia|set_solver|]. intros _ s3 [Hk3 H3]. wp_step. left.
    pose proof (within_kernel _ _ (wi_ok _ _ _ _ W2) Hk3) as W3.
    split_and!; [done|by eapply within_trans|]. rewrite H3, H2, H1. by apply live_alloc_free. }
  rewrite (proj2 (Z.eqb_neq n 0)) by lia. wp_step. wp_apply vm_wchan_create_spec; [apply W2|].
  intros w s3 [Hk3 [[-> H3]|(Hw & Hf3 & H3)]]; pose proof (within_kernel _ _ (wi_ok _ _ _ _ W2) Hk3) as W3;
    pose proof (within_trans _ _ _ _ _ W12 W3) as W13.
  { simpl. wp_step. wp_apply vm_kfree_spec; [apply W3|lia|set_solver|]. intros _ s4 [Hk4 H4].
    pose proof (within_kernel _ _ (wi_ok _ _ _ _ W3) Hk4) as W4. wp_step.
    wp_apply vm_kfree_spec; [apply W4|lia|set_solver|]. intros _ s5 [Hk5 H5]. wp_step. left.
    pose proof (within_kernel _ _ (wi_ok _ _ _ _ W4) Hk5) as W5.
    split_and!; [done|do 2 (eapply within_trans; [|eassumption]); done|].
    rewrite H5, H4, H3, H2, live_alloc_free by done. rewrite H1. by apply live_alloc_free. }
  rewrite (proj2 (Z.eqb_neq w 0)) by lia. wp_steps. right. exists (Sleeplock false n w).
  rewrite H1 in H2, Hf2. rewrite H2 in H3, Hf3. unfold new_lock. simpl.
  split_and!; [..|done|].
  - repeat constructor; try lia; set_solver.
  - repeat constructor; set_solver.
  - eapply within_trans; [eapply within_mono; [exact W13|set_solver..]|].
    apply within_set_locks; [apply W3|]. intros x Hx. apply (insert_outside _ _ _ {[lk]}); set_solver.
  - apply lookup_insert_eq.
  - vm_simpl. rewrite H3. set_solver.
Qed.

Lemma lock_destroy_spec lk l s : cm_ok s ->
  locks s !! lk = Some l -> Forall (fun x => 0 < x) [lk; lk_name l; lk_wchan l] ->
  NoDup [lk; lk_name l; lk_wchan l] -> list_to_set [lk; lk_name l; lk_wchan l] ⊆ heap s ->
  wp (lock_destroy lk) (fun _ s' => within {[lk]} ∅ s s' /\ locks s' !! lk = None /\
    heap s' = heap s ∖ list_to_set [lk; lk_name l; lk_wchan l]) s.
Proof.
  intros Hok Hl Hpos Hnd Hin. rewrite !Forall_cons in Hpos. destruct Hpos as (P1 & P2 & P3 & _).
  rewrite !NoDup_cons in Hnd. destruct Hnd as (N1 & N2 & _). unfold lock_destroy.
  wp_step. apply wp_kassert; [by rewrite (proj2 (Z.eqb_neq lk 0)) by lia|]. wp_steps.
  apply (wp_deref _ l); [done|]. wp_step. wp_apply vm_wchan_destroy_spec; [done|lia|set_solver|].
  intros _ s1 [K1 H1]. pose proof (within_kernel _ _ Hok K1) as W1. wp_step.
  wp_apply vm_kfree_spec; [apply W1|lia|set_solver|]. intros _ s2 [K2 H2].
  pose proof (within_kernel _ _ (wi_ok _ _ _ _ W1) K2) as W2. wp_steps.
  assert (within {[lk]} ∅ s2 (set_locks (delete lk (locks s2)) s2)) as W3.
  { apply within_set_locks; [apply W2|]. intros x Hx. apply (delete_outside _ _ {[lk]}); set_solver. }
  wp_apply vm_kfree_spec; [apply W3|lia|vm_simpl; set_solver|]. intros _ s4 [K4 H4]. vm_simpl.
  pose proof (within_kernel _ _ (wi_ok _ _ _ _ W3) K4) as W4.
  split_and!.
  - eapply within_mono; [eapply within_app; [exact W1|eapply within_app; [exact W2|eapply within_app; [exact W3|exact W4]]]|set_solver..].
  - rewrite (wi_locks _ _ _ _ W4) by set_solver. vm_simpl. apply lookup_delete_eq.
  - rewrite H4, H2, H1. set_solver.
Qed.
End locks.

(** ** Address spaces *)

(** A page table entry with its address and its lock. *)
Record entry := Entry {
  en_ptr : Z;
  en_pte : pte;
  en_lock : sleeplock;
}.

(** An address space with the objects reachable from it, in list order. *)
Record space := Space {
  sp_as : addrspace;
  sp_pt : list entry;
  sp_rg : list (Z * region);
}.

Definition en_vpage (e : entry) : Z := as_vpage (en_pte e).
Definition en_frame (e : entry) : nat := Z.to_nat (as_ppage (en_pte e) / PAGE_SIZE).
Definition en_blocks (e : entry) : list Z :=
  [en_ptr e; pte_lock (en_pte e); lk_name (en_lock e); lk_wchan (en_lock e)].

Definition pt_blocks (l : list entry) : list Z := concat (en_blocks <$> l).

(** The heap blocks and the physical pages of an address space. *)
Definition blocks (as_ : Z) (d : space) : list Z := as_ :: pt_blocks (sp_pt d) ++ (sp_rg d).*1.
Definition pages (d : space) : list nat := en_frame <$> sp_pt d.

(** The [next] pointers follow the list. *)
Fixpoint pt_links (p : Z) (l : list entry) : Prop :=
  match l with
  | [] => p = 0
  | e :: l' => p = en_ptr e /\ pt_links (pte_next (en_pte e)) l'
  end.

Fixpoint rg_links (p : Z) (l : list (Z * region)) : Prop :=
  match l with
  | [] => p = 0
  | (q, r) :: l' => p = q /\ rg_links (rg_next r) l'
  end.

(** A page table entry of address space [as_]: its lock is free, and it maps
    its page to a physical page the coremap records as its own. *)
Record entry_ok (s : vm) (as_ : Z) (e : entry) : Prop := {
  eo_pte : ptes s !! en_ptr e = Some (en_pte e);
  eo_lock : locks s !! pte_lock (en_pte e) = Some (en_lock e);
  eo_free : lk_held (en_lock e) = false;
  eo_state : pte_state (en_pte e) = MAPPED;
  eo_paddr : as_ppage (en_pte e) = Z.of_nat (en_frame e) * PAGE_SIZE;
  eo_vaddr : 0 <= en_vpage e < 2 ^ 32 /\ en_vpage e mod PAGE_SIZE = 0;
  eo_page : exists p, coremap s !! en_frame e = Some p /\ cp_state p = used /\
    owner_addrspace p = as_ /\ owner_vaddr p = en_vpage e;
}.

Record space_at (s : vm) (as_ : Z) (d : space) : Prop := {
  sa_space : spaces s !! as_ = Some (sp_as d);
  sa_links : pt_links (start_page_table (sp_as d)) (sp_pt d);
  sa_rlinks : rg_links (start_region (sp_as d)) (sp_rg d);
  sa_nodup : NoDup (blocks as_ d);
  sa_live : Forall (fun x => 0 < x /\ x ∈ heap s) (blocks as_ d);
  sa_vpages : NoDup (en_vpage <$> sp_pt d);
  sa_entries : Forall (entry_ok s as_) (sp_pt d);
  sa_regions : Forall (fun '(q, r) => regions s !! q = Some r) (sp_rg d);
}.

(** The whole system: the map [A] describes every address space; distinct
    address spaces own distinct blocks; every user page is mapped by one of
    them. *)
Record vm_inv (A : gmap Z space) (s : vm) : Prop := {
  vi_cm : cm_ok s;
  vi_at : forall as_ d, A !! as_ = Some d -> space_at s as_ d;
  vi_disj : forall as1 d1 as2 d2, A !! as1 = Some d1 -> A !! as2 = Some d2 -> as1 <> as2 ->
    forall x, x ∈ blocks as1 d1 -> x ∉ blocks as2 d2;
  vi_used : forall k p, coremap s !! k = Some p -> user_page p ->
    exists as_ d, A !! as_ = Some d /\ k ∈ pages d;
}.

(** *** Lists of blocks *)

Lemma pt_blocks_cons e l : pt_blocks (e :: l) = en_blocks e ++ pt_blocks l.
Proof. done. Qed.
Lemma pt_blocks_app l1 l2 : pt_blocks (l1 ++ l2) = pt_blocks l1 ++ pt_blocks l2.
Proof. unfold pt_blocks. by rewrite fmap_app, concat_app. Qed.

Lemma elem_of_pt_blocks x l : x ∈ pt_blocks l <-> exists e, e ∈ l /\ x ∈ en_blocks e.
Proof.
  induction l as [|e l IH]; [split; [by intros ?%not_elem_of_nil|intros (e & He & _); by apply not_elem_of_nil in He]|].
  rewrite pt_blocks_cons, elem_of_app, IH. setoid_rewrite elem_of_cons. naive_solver.
Qed.

Lemma en_ptr_block e l : e ∈ l -> en_ptr e ∈ pt_blocks l.
Proof. intros He. apply elem_of_pt_blocks. exists e. split; [done|]. apply list_elem_of_here. Qed.
Lemma en_lock_block e l : e ∈ l -> pte_lock (en_pte e) ∈ pt_blocks l.
Proof. intros He. apply elem_of_pt_blocks. exists e. split; [done|]. apply list_elem_of_further, list_elem_of_here. Qed.

Lemma pt_blocks_in_blocks x as_ d : x ∈ pt_blocks (sp_pt d) -> x ∈ blocks as_ d.
Proof. intros Hx. apply list_elem_of_further, elem_of_app. by left. Qed.
Lemma region_in_blocks q r as_ d : (q, r) ∈ sp_rg d -> q ∈ blocks as_ d.
Proof. intros Hx. apply list_elem_of_further, elem_of_app. right. apply list_elem_of_fmap. by exists (q, r). Qed.
Lemma as_in_blocks as_ d : as_ ∈ blocks as_ d.
Proof. apply list_elem_of_here. Qed.

(** *** Framing an address space *)

Lemma entry_ok_within X P s s' as_ e : within X P s s' ->
  en_ptr e ∉ X -> pte_lock (en_pte e) ∉ X -> en_frame e ∉ P -> entry_ok s as_ e -> entry_ok s' as_ e.
Proof.
  intros W H1 H2 H3 []. constructor; try done.
  - by rewrite (wi_ptes _ _ _ _ W).
  - by rewrite (wi_locks _ _ _ _ W).
  - destruct eo_page0 as (p & Hp & Hst & Ho). exists p. split; [|done].
    apply (wi_user _ _ _ _ W); [done|by left|done].
Qed.

Lemma space_at_within X P s s' as_ d : within X P s s' ->
  (forall x, x ∈ blocks as_ d -> x ∉ X) -> (forall k, k ∈ pages d -> k ∉ P) ->
  (forall x, x ∈ blocks as_ d -> x ∈ heap s -> x ∈ heap s') ->
  space_at s as_ d -> space_at s' as_ d.
Proof.
  intros W HX HP Hh []. constructor; try done.
  - rewrite (wi_spaces _ _ _ _ W); [done|]. apply HX, as_in_blocks.
  - rewrite Forall_forall in *. naive_solver.
  - rewrite Forall_forall in *. intros e He. eapply entry_ok_within; [done|..|auto].
    + by apply HX, pt_blocks_in_blocks, en_ptr_block.
    + by apply HX, pt_blocks_in_blocks, en_lock_block.
    + apply HP. apply list_elem_of_fmap. eauto.
  - rewrite Forall_forall in *. intros [q r] Hq. rewrite (wi_regions _ _ _ _ W).
    + by apply (sa_regions0 (q, r)).
    + by eapply HX, region_in_blocks.
Qed.

(** Two entries of one system never share a physical page: the coremap names
    the one owner. *)
Lemma pages_owner s as1 d1 as2 d2 e1 e2 : space_at s as1 d1 -> space_at s as2 d2 ->
  e1 ∈ sp_pt d1 -> e2 ∈ sp_pt d2 -> en_frame e1 = en_frame e2 -> as1 = as2 /\ en_vpage e1 = en_vpage e2.
Proof.
  intros H1 H2 E1 E2 Ef. pose proof (sa_entries _ _ _ H1) as F1. pose proof (sa_entries _ _ _ H2) as F2.
  rewrite Forall_forall in F1, F2. destruct (eo_page _ _ _ (F1 _ E1)) as (p & Hp & _ & <- & <-).
  destruct (eo_page _ _ _ (F2 _ E2)) as (q & Hq & _ & <- & <-). rewrite Ef in Hp. by simplify_eq.
Qed.

Lemma space_entry_unique s as_ d e1 e2 : space_at s as_ d -> e1 ∈ sp_pt d -> e2 ∈ sp_pt d ->
  en_vpage e1 = en_vpage e2 -> e1 = e2.
Proof.
  intros H1 E1 E2 Ev. apply list_elem_of_lookup in E1 as [i Hi]. apply list_elem_of_lookup in E2 as [j Hj].
  pose proof (sa_vpages _ _ _ H1) as Hnd. rewrite NoDup_alt in Hnd.
  assert (i = j) as ->; [|congruence].
  apply (Hnd i j (en_vpage e1)); rewrite list_lookup_fmap; [by rewrite Hi|by rewrite Hj, Ev].
Qed.

Lemma pages_nodup s as_ d : space_at s as_ d -> NoDup (pages d).
Proof.
  intros H1. apply NoDup_alt. intros i j k Hi Hj. unfold pages in *. rewrite list_lookup_fmap in Hi, Hj.
  destruct (sp_pt d !! i) as [e1|] eqn:E1; [|done]. destruct (sp_pt d !! j) as [e2|] eqn:E2; [|done].
  injection Hi as Hi. injection Hj as Hj.
  destruct (pages_owner s as_ d as_ d e1 e2) as [_ Hv]; [done..|by eapply list_elem_of_lookup_2|by eapply list_elem_of_lookup_2|congruence|].
  pose proof (sa_vpages _ _ _ H1) as Hnd. rewrite NoDup_alt in Hnd.
  apply (Hnd i j (en_vpage e1)); rewrite list_lookup_fmap; [by rewrite E1|by rewrite E2, Hv].
Qed.

(** *** Fuel *)

Lemma dom_bound {A} (m : gmap Z A) (l : list Z) :
  NoDup l -> Forall (fun x => is_Some (m !! x)) l -> (length l <= size m)%nat.
Proof.
  intros Hnd Hin. rewrite <- size_dom. rewrite <- (size_list_to_set (C := gset Z) l) by done.
  apply subseteq_size. intros x Hx. apply elem_of_list_to_set in Hx. rewrite Forall_forall in Hin.
  apply elem_of_dom. auto.
Qed.

Lemma sublist_ptrs l : sublist (en_ptr <$> l) (pt_blocks l).
Proof. induction l as [|e l IH]; [done|]. rewrite fmap_cons, pt_blocks_cons. simpl. by repeat constructor. Qed.

Lemma pt_fuel s as_ l : NoDup (pt_blocks l) -> Forall (entry_ok s as_) l -> (length l < pte_fuel s)%nat.
Proof.
  intros Hnd Hl. unfold pte_fuel. apply Nat.lt_succ_r. rewrite <- (length_fmap en_ptr). apply dom_bound.
  - eapply sublist_NoDup; [done|apply sublist_ptrs].
  - apply Forall_fmap. eapply Forall_impl; [done|]. intros e He. simpl. rewrite (eo_pte _ _ _ He). eauto.
Qed.

Lemma rg_fuel s l : NoDup l.*1 -> Forall (fun '(q, r) => regions s !! q = Some r) l -> (length l < region_fuel s)%nat.
Proof.
  intros Hnd Hl. unfold region_fuel. apply Nat.lt_succ_r. rewrite <- (length_fmap fst). apply dom_bound; [done|].
  apply Forall_fmap. eapply Forall_impl; [done|]. intros [q r] Hq. simpl. rewrite Hq. eauto.
Qed.
