(* ===== verification/VmExample.v ===== *)
(** * A small system

    A heap and a swap disk that satisfy the interfaces, and a system of eight
    physical pages with one address space, on which the theorems about the
    VM system can be run. *)

From S2P Require Import Prelude KHeap Bitmap VmState Coremap VmHeap Swap AddrSpace SpaceInv.

(** ** A heap: the next block is above all live ones *)

Definition ex_fresh (s : vm) : Z := 1 + foldr Z.max 0 (elements (heap s)).

Definition ex_kmalloc (sz : Z) : M vm Z := fun s =>
  Done (ex_fresh s) (set_heap ({[ex_fresh s]} ∪ heap s) s).

Definition ex_kfree (p : Z) : M vm unit := fun s =>
  if p =? 0 then Done tt s
  else if bool_decide (p ∈ heap s) then Done tt (set_heap (heap s ∖ {[p]}) s) else Fault.

Definition ex_heap_side (s s' : vm) : Prop := s' = set_heap (heap s') s.

Lemma ex_fresh_spec s : 0 < ex_fresh s /\ ex_fresh s ∉ heap s.
Proof.
  unfold ex_fresh. pose proof (foldr_max_nonneg (elements (heap s))). split; [lia|].
  intros H'. apply elem_of_elements, foldr_max_le in H'. lia.
Qed.

Lemma cm_ok_set_heap h s : cm_ok s -> cm_ok (set_heap h s).
Proof. intros Hok. by apply (cm_ok_ext s); try done; apply (co_unlocked _ Hok). Qed.

Lemma ex_kmalloc_spec sz s :
  wp (ex_kmalloc sz) (fun p s' => ex_heap_side s s' /\
    ((p = 0 /\ heap s' = heap s) \/ (0 < p /\ (p ∉ heap s) /\ heap s' = {[p]} ∪ heap s))) s.
Proof. destruct (ex_fresh_spec s). split; [done|]. right. done. Qed.

Lemma ex_kfree_spec p s : p <> 0 -> p ∈ heap s ->
  wp (ex_kfree p) (fun _ s' => ex_heap_side s s' /\ heap s' = heap s ∖ {[p]}) s.
Proof.
  intros Hp Hin. unfold wp, ex_kfree. rewrite (proj2 (Z.eqb_neq p 0)) by done. by rewrite bool_decide_eq_true_2.
Qed.

#[export, program] Instance ex_kmalloc_inst : KMalloc vm := {|
  kmalloc := ex_kmalloc;
  kfree := ex_kfree;
  heap_live := heap;
  heap_ok := cm_ok;
  heap_side := ex_heap_side;
|}.
Next Obligation.
  split; [intros s; unfold ex_heap_side; by destruct s|]. intros a b c Hab Hbc. unfold ex_heap_side in *.
  rewrite Hbc, Hab. done.
Qed.
Next Obligation. intros s s' Hok ->. by apply cm_ok_set_heap. Qed.
Next Obligation. intros. apply ex_kmalloc_spec. Qed.
Next Obligation. intros. by apply ex_kfree_spec. Qed.
Next Obligation. intros s _. unfold wp, ex_kfree. simpl. split; [|done]. unfold ex_heap_side. by destruct s. Qed.

#[export, program] Instance ex_vmheap : VmHeap := {|
  vm_kmalloc := ex_kmalloc_inst;
  wchan_create := ex_kmalloc 8;
  wchan_destroy := ex_kfree;
  junk := 3735928559;
|}.
Next Obligation. done. Qed.
Next Obligation. done. Qed.
Next Obligation.
  intros s s' E. cbn in E. unfold ex_heap_side in E. rewrite E. constructor; vm_simpl; try done.
  apply cm_ok_set_heap.
Qed.
Next Obligation. intros. apply ex_kmalloc_spec. Qed.
Next Obligation. intros. by apply ex_kfree_spec. Qed.

(** ** A disk: reads of pages never written fail *)

Definition EIO : Z := 32.

Definition ex_vop_read (vnode page_paddr offset : Z) : M vm Z := fun s =>
  match swap_data s !! (offset / PAGE_SIZE) with
  | Some pg => Done 0 (set_frames (<[page_paddr / PAGE_SIZE := pg]> (frames s)) s)
  | None => Done EIO (set_frames (<[page_paddr / PAGE_SIZE := zero_page]> (frames s)) s)
  end.

Definition ex_vop_write (vnode page_paddr offset : Z) : M vm Z := fun s =>
  match frames s !! (page_paddr / PAGE_SIZE) with
  | Some pg => Done 0 (set_swap_data (<[offset / PAGE_SIZE := pg]> (swap_data s)) s)
  | None => Done EIO (set_swap_data (<[offset / PAGE_SIZE := zero_page]> (swap_data s)) s)
  end.

#[export, program] Instance ex_swapdev : SwapDevice := {|
  vop_read := ex_vop_read;
  vop_write := ex_vop_write;
|}.
Next Obligation.
  intros vn pa off s. unfold wp, ex_vop_read. destruct (swap_data s !! _) as [pg|]; eexists; (split; [done|]); done.
Qed.
Next Obligation.
  intros vn pa off s. unfold wp, ex_vop_write. destruct (frames s !! _) as [pg|]; eexists; (split; [done|]); done.
Qed.

(** ** A system with one address space

    Address space 50 has one region of three pages at 0x400000, whose first
    page is resident in frame 4. *)

Definition ex_pte : pte := Pte 4194304 16384 0 MAPPED 0 52 0.
Definition ex_region : region := Region 4194304 12288 3 true true true 0.
Definition ex_as : addrspace := Addrspace 55 51 4206592 4206592.
Definition ex_space : space := Space ex_as [Entry 51 ex_pte (Sleeplock false 53 54)] [(55, ex_region)].
Definition ex_spaces : gmap Z space := {[50 := ex_space]}.

(** [free_pages] says whether the three pages after the address space's own
    are free. *)
Definition ex_sys (nfree : Z) : vm :=
  Vm 8192 32768
    [CoremapPage 0 fixed 0 0 false; CoremapPage 0 fixed 0 0 false;
     CoremapPage 2 fixed 0 0 false; CoremapPage 0 fixed 0 0 false;
     CoremapPage 1 used 50 4194304 false;
     if 0 <? nfree then free_page else CoremapPage 1 fixed 0 0 false;
     if 1 <? nfree then free_page else CoremapPage 1 fixed 0 0 false;
     if 2 <? nfree then free_page else CoremapPage 1 fixed 0 0 false]
    (3 + ((if 0 <? nfree then 0 else 1) + (if 1 <? nfree then 0 else 1) + (if 2 <? nfree then 0 else 1)))
    false false None 0 false 2 {[4 := {[0 := 65]}]} ∅
    (map (fun i => (TLBHI_INVALID (Z.of_nat i), TLBLO_INVALID)) (seq 0 64)) 9 0
    {[50; 51; 52; 53; 54; 55]} {[52 := Sleeplock false 53 54]} {[51 := ex_pte]} {[55 := ex_region]} {[50 := ex_as]} 50.

Lemma ex_sys_cm n : cm_ok (ex_sys n).
Proof.
  assert (forall b : bool, exists p, (if b then free_page else CoremapPage 1 fixed 0 0 false) = p /\ chunks [p] /\
    nbusy [p] = if b then 0 else 1) as Hp.
  { intros []; eexists; (split; [done|]); split; try done; [by apply chunks_free|by apply (chunks_kernel _ [])]. }
  destruct (Hp (0 <? n)) as (p5 & E5 & C5 & B5), (Hp (1 <? n)) as (p6 & E6 & C6 & B6), (Hp (2 <? n)) as (p7 & E7 & C7 & B7).
  unfold ex_sys. rewrite E5, E6, E7. constructor; vm_simpl; try done; try (unfold start_idx; simpl; lia).
  - unfold start_idx. vm_simpl. by repeat constructor.
  - unfold managed, start_idx. vm_simpl. apply (chunks_kernel (CoremapPage 2 fixed 0 0 false) [CoremapPage 0 fixed 0 0 false]); [done..|by repeat constructor|].
    apply chunks_user; [by left|done|]. apply (chunks_app [p5]); [done|]. by apply (chunks_app [p6]).
  - unfold managed, start_idx. vm_simpl.
    change (drop (Z.to_nat (8192 / PAGE_SIZE)) _) with ([CoremapPage 2 fixed 0 0 false; CoremapPage 0 fixed 0 0 false;
      CoremapPage 1 used 50 4194304 false] ++ [p5] ++ [p6] ++ [p7]).
    rewrite !nbusy_app, B5, B6, B7. change (nbusy [_; _; _]) with 3. lia.
Qed.

Lemma ex_spaces_inv as_ d : ex_spaces !! as_ = Some d -> as_ = 50 /\ d = ex_space.
Proof. unfold ex_spaces. by intros [<- <-]%lookup_singleton_Some. Qed.

Lemma ex_sys_inv n : vm_inv ex_spaces (ex_sys n).
Proof.
  constructor; [apply ex_sys_cm|..].
  - intros as_ d [-> ->]%ex_spaces_inv. constructor; try done.
    + by apply (bool_decide_unpack _); vm_compute.
    + apply Forall_forall. intros x Hx. split; [|by vm_simpl; set_solver].
      unfold blocks in Hx. simpl in Hx. set_solver by lia.
    + apply NoDup_singleton.
    + apply Forall_singleton. constructor; try done. eexists. split; [done|]. done.
    + by apply Forall_singleton.
  - by intros as1 d1 as2 d2 [-> ->]%ex_spaces_inv [-> ->]%ex_spaces_inv.
  - intros k p Hk Hu. exists 50, ex_space. split; [done|].
    assert (k = 4%nat) as ->; [|apply list_elem_of_here].
    unfold ex_sys in Hk. vm_simpl. unfold user_page in Hu.
    do 8 (destruct k as [|k]; [cbn in Hk; repeat case_match; simplify_eq; naive_solver|]). done.
Qed.
