(* ===== verification/KmallocProps.v ===== *)
(** * The kernel heap: properties

    The heap calls against the map of blocks, runs from an empty heap, what
    is left when everything is freed, and two ways to panic. *)

From S2P Require Import Prelude VmState Coremap KPages Kmalloc KmallocInv KmallocSpec VmExample.

(** ** Calls *)

Inductive hcall := HMalloc (sz : Z) | HFree (p : Z).

Section calls.
Context {P : Type} `{KPages P}.
Implicit Types s : kheap P.

Definition run_hcall (junk : Z) (c : hcall) : M (kheap P) Z :=
  match c with
  | HMalloc sz => kmalloc junk sz
  | HFree p => kfree p ;;; ret 0
  end.

(** A client asks for less than the address space (the code computes
    [sz + PAGE_SIZE - 1] in 32 bits, so the last page's worth of sizes would
    wrap) and frees what it holds. *)
Definition allowed (A : gmap Z Z) (c : hcall) : Prop :=
  match c with
  | HMalloc sz => 0 <= sz <= 2 ^ 32 - PAGE_SIZE
  | HFree p => p = 0 \/ is_Some (A !! p)
  end.

(** The abstract heap after a call with result [r]. *)
Definition after (A : gmap Z Z) (c : hcall) (r : Z) : gmap Z Z :=
  match c with
  | HMalloc sz => if r =? 0 then A else <[r := block_size sz]> A
  | HFree p => delete p A
  end.

(** The one call of a client that the heap does not survive: freeing the last
    block of a page whose pageref may come after a root that has entries in
    use but no page. *)
Definition stuck (A : gmap Z Z) s (c : hcall) : Prop :=
  match c with
  | HMalloc _ => False
  | HFree p => exists n, A !! p = Some n /\ n <= LARGEST_SUBPAGE_SIZE /\ last_on_page A p /\ gap (kheaproots s)
  end.

Definition failed (c : hcall) (r : Z) : Z :=
  match c with
  | HMalloc _ => if r =? 0 then 1 else 0
  | HFree _ => 0
  end.

(** The heap before the first call: static data, all zero. *)
Definition empty_heap (q : P) : kheap P :=
  Kheap q ∅ (replicate 16 (KheapRoot 0 (replicate 8 0) 0)) (replicate 8 0) 0 ∅ false.

Lemma rep_mono A f f' s : rep A f s -> f <= f' -> rep A f' s.
Proof. intros (G & big & Hi & Hl & Hf & Ht & HA) Hle. exists G, big. split_and!; [by apply (kinv_mono _ _ f)|done|lia|done|done]. Qed.

Lemma roots_empty (c : Z -> Z -> Prop) : roots_ok c (replicate 16 (KheapRoot 0 (replicate 8 0) 0)) 0.
Proof.
  assert (forall w r, replicate 16 (KheapRoot 0 (replicate 8 0) 0) !! w = Some r -> r = KheapRoot 0 (replicate 8 0) 0) as Hr by (by intros w r [-> _]%lookup_replicate). split.
  - done.
  - apply Forall_forall. intros r [w ->%Hr]%list_elem_of_lookup. split; [done|by repeat constructor|done].
  - by intros w r ->%Hr.
  - by intros w w' r r' ->%Hr _ _.
  - by intros _ w w' r r' _ ->%Hr.
  - by intros w r ->%Hr.
Qed.

Lemma rep_empty q : kp_ok q -> rep ∅ 0 (empty_heap q).
Proof.
  intros Hq. exists [], ∅. split_and!; [|done|lia|done|].
  - split; try done; try apply NoDup_nil; try (intros h Hh; by apply not_elem_of_nil in Hh); try apply roots_empty; try exact I. intros t Ht. apply lookup_replicate. split; [done|lia].
  - intros p n. split; [done|]. intros [(h & Hh & _)|(m & Hm & _)]; [by apply not_elem_of_nil in Hh|done].
Qed.

(** What holds after a call. *)
Definition call_done (A : gmap Z Z) (f : Z) (c : hcall) s (r : Z) s' : Prop :=
  rep (after A c r) (f + failed c r) s' /\
  (forall p n a, A !! p = Some n -> after A c r !! p = Some n -> p <= a < p + n -> kh_words s' !! a = kh_words s !! a) /\
  match c with HMalloc sz => r = 0 \/ (A !! r = None /\ sz <= block_size sz) | HFree _ => True end.

Lemma block_size_ge sz : 0 <= sz <= 2 ^ 32 - PAGE_SIZE -> sz <= block_size sz.
Proof.
  unfold block_size, LARGEST_SUBPAGE_SIZE, PAGE_SIZE. intros Hsz. destruct (2048 <=? sz) eqn:E; boolify; [pose proof (DIVROUNDUP_spec sz 4096); lia|].
  destruct (filter (fun x => sz <= x) sizes) as [|x l] eqn:Ef.
  - assert (2048 ∈ filter (fun x => sz <= x) sizes) as Hin; [|rewrite Ef in Hin; by apply not_elem_of_nil in Hin]. apply list_elem_of_filter. split; [lia|]. by apply (bool_decide_unpack _).
  - cbn. assert (x ∈ filter (fun x => sz <= x) sizes) as Hx by (rewrite Ef; left). by apply list_elem_of_filter in Hx as [? _].
Qed.

Lemma wp_run_hcall junk A f c s : rep A f s -> allowed A c -> f < 256 \/ ~ stuck A s c -> wp (run_hcall junk c) (call_done A f c s) s.
Proof.
  intros Hr Hc Hns. destruct c as [sz|p]; cbn [run_hcall allowed] in *.
  - wp_apply wp_heap_kmalloc; [done|done|]. intros r s' [(-> & f' & Hf' & Hr' & Hw)|(Hnz & HA & Hr' & Hk)]; split_and!; unfold after, failed; cbn [Z.eqb].
    + apply (rep_mono _ f'); [done|lia].
    + intros. by rewrite Hw.
    + by left.
    + replace (r =? 0) with false by lia. by rewrite Z.add_0_r.
    + intros p n a Hp _ Ha. by apply (Hk p n).
    + right. split; [done|by apply block_size_ge].
  - wp_step. unfold call_done, after, failed. rewrite Z.add_0_r. destruct Hc as [->|[n Hn]].
    + unfold kfree. cbn [Z.eqb]. wp_steps. split_and!; [|done|done]. rewrite delete_id; [done|]. destruct (A !! 0) as [n|] eqn:E; [|done]. destruct (rep_range _ _ _ _ _ Hr E). lia.
    + wp_apply wp_heap_kfree; [done|done| |].
      { intros Hle Hlast Hgap. destruct Hns as [Hf|Hns]; [|apply Hns; by exists n]. destruct Hr as (G & big & Hi & _). by eapply roots_no_gap; [apply Hi|..]. }
      intros _ s' [Hr' Hk]. wp_steps. split_and!; [done| |done]. intros q m a _ Hq Ha. by apply (Hk q m).
Qed.

(** The states of runs from an empty heap: the blocks held and the number of
    failed calls. *)
Inductive hreach (junk : Z) : gmap Z Z -> Z -> kheap P -> Prop :=
  | hreach_empty q : kp_ok q -> hreach junk ∅ 0 (empty_heap q)
  | hreach_call A f s c r s' : hreach junk A f s -> allowed A c -> f < 256 \/ ~ stuck A s c -> run_hcall junk c s = Done r s' -> hreach junk (after A c r) (f + failed c r) s'.

Lemma hreach_rep junk A f s : hreach junk A f s -> rep A f s.
Proof.
  induction 1 as [q Hq|A f s c r s' _ IH Hc Hns Hrun]; [by apply rep_empty|]. pose proof (wp_run_hcall junk A f c s IH Hc Hns) as Hw. unfold wp in Hw. rewrite Hrun in Hw. by apply Hw.
Qed.
End calls.

(** ** Theorems *)

(** C4: every call of [kmalloc] for at most 2^32 - 4096 bytes (beyond that the
    number of pages wraps around), and every call of [kfree] on a block the
    client holds, returns: [kmalloc] returns 0 or the
    address of a block that was not handed out and is large enough, [kfree]
    takes exactly its block back, and the contents of every other block stay
    as they were.  Left out is only the [kfree] of [stuck], which takes 256
    calls of [kmalloc] that failed. *)
Theorem heap_calls_refine {P} `{KPages P} (junk : Z) (A : gmap Z Z) (f : Z) (c : hcall) (s : kheap P) :
  rep A f s -> allowed A c -> f < 256 \/ ~ stuck A s c -> wp (run_hcall junk c) (call_done A f c s) s.
Proof. apply wp_run_hcall. Qed.

(** C16: in every state that calls reach from an empty heap, with any number
    of failed ones among them and no size beyond 2^32 - 4096, the blocks
    handed out do not overlap, lie in kernel memory and are aligned; the next
    call a client may make returns (no assertion of the heap fails, no list
    walk runs on for ever), unless 256 or more calls have failed and it frees
    the last block of a page behind a root that has entries in use but no
    page. *)
Theorem heap_runs_safe {P} `{KPages P} (junk : Z) (A : gmap Z Z) (f : Z) (s : kheap P) :
  hreach junk A f s ->
  (forall p n, A !! p = Some n -> 16 <= n /\ MIPS_KSEG0 <= p /\ p + n < 2 ^ 32 /\ p mod 16 = 0) /\
  (forall p n q m, A !! p = Some n -> A !! q = Some m -> p <> q -> p + n <= q \/ q + m <= p) /\
  (forall c, allowed A c -> f < 256 \/ ~ stuck A s c -> exists r s', run_hcall junk c s = Done r s').
Proof.
  intros Hr%hreach_rep. split_and!.
  - intros p n. by apply (rep_range _ _ _ _ _ Hr).
  - intros p n q m. by apply (rep_disjoint _ _ _ _ _ _ _ Hr).
  - intros c Hc Hns. pose proof (wp_run_hcall junk A f c s Hr Hc Hns) as (r & s' & ? & _)%wp_done. by exists r, s'.
Qed.

(** when every block has been freed the heap holds no page of blocks
    any more: its lists are empty. *)
Theorem heap_all_freed {P} `{KPages P} (junk f : Z) (s : kheap P) :
  hreach junk ∅ f s -> allbase s = 0 /\ sizebases s = replicate 8 0.
Proof.
  intros (G & big & Hi & _ & _ & Ht & HA)%hreach_rep. assert (G = []) as ->.
  { destruct G as [|h G]; [done|]. exfalso. apply Forall_cons in Ht as [Hh _]. assert (h ∈ h :: G) as Hin by left. pose proof (ki_page_of _ _ _ _ _ Hi Hin) as [Hty _ _ Hn Hb]. unfold tight in Hh. rewrite <- (blocks_count h Hty) in Hh.
    assert (~ blocks h ⊆ hp_free h) as Hex. { intros Hs. assert (blocks h ⊆+ hp_free h) as Hle; [|apply submseteq_length in Hle; lia]. apply NoDup_submseteq; [|done]. unfold blocks. apply NoDup_fmap_2_strong; [|apply NoDup_seqZ]. intros x y _ _ E. destruct (tsize_cases _ Hty) as (_ & ? & _). unfold hsize in E. nia. }
    apply Hex. intros a Ha. destruct (decide (a ∈ hp_free h)) as [|Hno]; [done|]. exfalso. assert (taken (h :: G) big a (hsize h)) as Htk by (left; exists h; split; [done|]; split; [|done]; split; [by apply elem_of_blocks|done]). apply HA in Htk. by rewrite lookup_empty in Htk. }
  split; [apply Hi|]. apply list_eq. intros i. destruct (decide (i < 8)%nat) as [Hlt|].
  - pose proof (ki_base _ _ _ _ Hi (Z.of_nat i) ltac:(lia)) as Hb. rewrite Nat2Z.id in Hb. rewrite Hb. symmetry. by apply lookup_replicate.
  - rewrite !lookup_ge_None_2; [done|by rewrite length_replicate; lia|rewrite (ki_bases _ _ _ _ Hi); lia].
Qed.

(** ** Panics *)

Lemma kfree_on_page {P} `{KPages P} G1 h G2 big f p (s : kheap P) : kinv (G1 ++ h :: G2) big f s -> kmalloc_spinlock s = false -> hp_page h <= p < hp_page h + PAGE_SIZE -> (p - hp_page h) mod hsize h <> 0 -> kfree p s = Panic.
Proof.
  intros Hi Hl Hp Hm. assert (h ∈ G1 ++ h :: G2) as Hh by set_solver. destruct (ki_range _ _ _ _ _ Hi Hh) as (Hp1 & Hp2 & Hp3). destruct (ki_ref _ _ _ _ _ Hi Hh) as [Hnz _]. pose proof (ki_page_of _ _ _ _ _ Hi Hh) as [Ht (ns & na & Hr) _ _ _]. pose proof (kinv_lock _ _ _ true _ Hi) as Hi1.
  set (s1 := set_kmalloc_spinlock true s) in *. assert (find_page p s1 = Done (hp_ref h) s1) as Hfind.
  { assert (wp (find_page p) (fun r s' => r = hp_ref h /\ s' = s1) s1) as (r & s' & E & -> & ->)%wp_done; [|done]. eapply wp_find_page; [exact Hi1| |].
    - intros Hno. by destruct (Hno h Hh).
    - intros G1' g G2' E Hg. split; [|done]. f_equal. assert (g ∈ G1 ++ h :: G2) as Hgin by (rewrite E; set_solver). destruct (ki_chunk _ _ _ _ Hi g Hgin) as [Hcg _], (ki_chunk _ _ _ _ Hi h Hh) as [Hch _]. destruct (decide (hp_page g = hp_page h)) as [Ep|Ep]; [|destruct (kp_apart _ _ _ _ _ (ki_pok _ _ _ _ Hi) Hcg Hch Ep); lia].
      apply list_elem_of_lookup in Hgin as [i Hgi], Hh as [j Hhj]. assert (i = j) as ->; [|congruence]. eapply (NoDup_lookup (hp_page <$> G1 ++ h :: G2)); [apply Hi|by rewrite list_lookup_fmap, Hgi|rewrite list_lookup_fmap, Hhj; cbn; congruence]. }
  unfold kfree. replace (p =? 0) with false by lia. unfold bind at 1, subpage_kfree, heap_acquire. unfold bind at 1 2 3, get at 1, kassert at 1. rewrite Hl. cbn [negb]. unfold modify at 1, ret at 1, bind at 1. fold s1. rewrite Hfind. replace (hp_ref h =? 0) with false by lia.
  unfold ref_at at 1. unfold bind at 1 2, get at 1. change (kh_refs s1) with (kh_refs s). rewrite Hr. unfold deref at 1, ret at 1. unfold PR_PAGEADDR, PR_BLOCKTYPE. cbn [pageaddr_and_blocktype]. destruct (page_frame_add (hp_page h) (hp_type h)) as [-> ->]; [unfold PAGE_SIZE in *; lia|done|done|].
  unfold size_at. replace (hp_type h <? 0) with false by lia. destruct (tsize_cases _ Ht) as (-> & _). unfold bind at 1, deref at 1, ret at 1. fold (hsize h). rewrite (u32_id (p - hp_page h)) by (unfold PAGE_SIZE in *; lia). replace (_ || _)%bool with true; [done|]. symmetry. apply orb_true_iff. right. apply negb_true_iff, Z.eqb_neq. done.
Qed.

Lemma kfree_in_big {P} `{KPages P} G big f a n p (s : kheap P) : kinv G big f s -> kmalloc_spinlock s = false -> big !! a = Some n -> a <= p < a + n * PAGE_SIZE -> p mod PAGE_SIZE <> 0 -> kfree p s = Panic.
Proof.
  intros Hi Hl Ha Hp Hm. pose proof (kinv_lock _ _ _ true _ Hi) as Hi1. destruct (big_range _ _ _ _ _ _ Hi Ha) as (? & ? & _). set (s1 := set_kmalloc_spinlock true s) in *. assert (find_page p s1 = Done 0 s1) as Hfind.
  { assert (wp (find_page p) (fun r s' => r = 0 /\ s' = s1) s1) as (r & s' & E & -> & ->)%wp_done; [|done]. eapply wp_find_page; [exact Hi1|done|]. intros G1 g G2 -> Hg. exfalso. assert (g ∈ G1 ++ g :: G2) as Hin by set_solver. destruct (page_big_apart _ _ _ _ _ _ _ Hi Hin Ha); lia. }
  unfold kfree. replace (p =? 0) with false by lia. unfold bind at 1, subpage_kfree, heap_acquire. unfold bind at 1 2 3, get at 1, kassert at 1. rewrite Hl. cbn [negb]. unfold modify at 1, ret at 1, bind at 1. fold s1. rewrite Hfind. cbn [Z.eqb].
  unfold heap_release, bind, get, kassert, modify, ret. cbn. by rewrite (proj2 (Z.eqb_neq _ _) Hm).
Qed.

(** [kfree] of a pointer into the middle of a block panics: such a bug in
    a client is caught before the heap is damaged. *)
Theorem kfree_interior_panics {P} `{KPages P} (junk : Z) (A : gmap Z Z) (f : Z) (s : kheap P) (q n p : Z) :
  hreach junk A f s -> A !! q = Some n -> q < p < q + n -> p mod PAGE_SIZE <> 0 -> kfree p s = Panic.
Proof.
  intros (G & big & Hi & Hl & _ & _ & HA)%hreach_rep Hq Hp Hm. apply HA in Hq as [(h & Hh & [Hb _] & ->)|(m & Hm' & ->)].
  - destruct (block_range _ _ _ _ _ _ Hi Hh Hb) as (? & ? & ?). apply list_elem_of_split in Hh as (G1 & G2 & ->). eapply (kfree_on_page G1 h G2); [exact Hi|done|lia|]. destruct Hb as (k & Hk & ->). replace (p - hp_page h) with (p - (hp_page h + k * hsize h) + k * hsize h) by lia. rewrite Z.mod_add, Z.mod_small by lia. lia.
  - eapply kfree_in_big; [exact Hi|done|exact Hm'|lia|done].
Qed.

(** C34: a [kmalloc] that fails can leave an entry of a pageref page marked in use
    although the page was never allocated.  Once the first root has such
    entries and no page, [kfree] of a block smaller than a page that is the
    last one held on its page panics, although the client did nothing wrong.
    The witness reaches such a state: 256 calls of [kmalloc(16)] fail while one
    page is free, then memory comes back and [kmalloc(16)] succeeds. *)
Theorem kmalloc_failures_panic {P} `{KPages P} (junk : Z) (A : gmap Z Z) (f : Z) (s : kheap P) (r : kheap_root) (p n : Z) :
  hreach junk A f s -> kheaproots s !! 0%nat = Some r -> kr_page r = 0 -> numinuse r <> 0 ->
  A !! p = Some n -> n <= LARGEST_SUBPAGE_SIZE -> last_on_page A p -> kfree p s = Panic.
Proof. intros Hr%hreach_rep ? ? ? ? ? ?. by eapply kfree_stuck. Qed.

(** ** Witnesses *)

(** Three free pages; a small block, and then a block of a whole page. *)
Definition heap0 : kheap vm := empty_heap (ex_sys 3).
Definition state_after (c : hcall) (s : kheap vm) : kheap vm := match run_hcall 0 c s with Done _ s' => s' | _ => s end.
Definition heap1 : kheap vm := state_after (HMalloc 20) heap0.

Lemma heap1_reach : hreach 0 {[2147508192 := 32]} 0 heap1.
Proof.
  replace {[2147508192 := 32]} with (after ∅ (HMalloc 20) 2147508192) by (by vm_compute). change 0 with (0 + failed (HMalloc 20) 2147508192) at 2. apply (hreach_call 0 ∅ 0 heap0); [apply hreach_empty, ex_sys_cm|cbn; unfold PAGE_SIZE; lia|left; lia|]. vm_compute. reflexivity.
Qed.

Lemma heap_calls_refine_witness : rep {[2147508192 := 32]} 0 heap1 /\ wp (run_hcall 0 (HFree 2147508192)) (call_done {[2147508192 := 32]} 0 (HFree 2147508192) heap1) heap1.
Proof. split; [apply (hreach_rep 0), heap1_reach|]. apply heap_calls_refine; [apply (hreach_rep 0), heap1_reach| |left; lia]. right. by exists 32. Defined.

Lemma heap_runs_safe_witness : exists r s', run_hcall 0 (HMalloc 4096) heap1 = Done r s'.
Proof. destruct (heap_runs_safe 0 _ 0 heap1 heap1_reach) as (_ & _ & Hc). apply Hc; [|left; lia]. cbn. unfold PAGE_SIZE. lia. Defined.

Lemma heap_all_freed_witness : allbase (state_after (HFree 2147508192) heap1) = 0 /\ sizebases (state_after (HFree 2147508192) heap1) = replicate 8 0.
Proof.
  apply (heap_all_freed 0 0). replace ∅ with (after {[2147508192 := 32]} (HFree 2147508192) 0) by (by vm_compute). apply (hreach_call 0 _ 0 heap1); [apply heap1_reach|right; by exists 32|left; lia|]. vm_compute. reflexivity.
Defined.

Lemma kfree_interior_panics_witness : kfree 2147508196 heap1 = Panic.
Proof. apply (kfree_interior_panics 0 _ 0 heap1 2147508192 32 2147508196 heap1_reach); [by vm_compute|lia|by vm_compute]. Defined.

(** A run of calls, with the blocks held and the number of failures. *)
Fixpoint hrun (cs : list hcall) (x : gmap Z Z * Z * kheap vm) : option (gmap Z Z * Z * kheap vm) :=
  match cs with
  | [] => Some x
  | c :: cs' =>
      let '(A, f, s) := x in
      if match c with HMalloc sz => (0 <=? sz) && (sz <=? 2 ^ 32 - PAGE_SIZE)
                    | HFree p => match A !! p with Some n => (f <? 256) || (LARGEST_SUBPAGE_SIZE <? n) | None => false end end
      then match run_hcall 0 c s with Done r s' => hrun cs' (after A c r, f + failed c r, s') | _ => None end
      else None
  end.

Lemma hrun_reach cs x y : hrun cs x = Some y -> hreach 0 x.1.1 x.1.2 x.2 -> hreach 0 y.1.1 y.1.2 y.2.
Proof.
  revert x. induction cs as [|c cs IH]; intros [[A f] s] E Hr; cbn [hrun fst snd] in *; [by simplify_eq|].
  destruct (match c with HMalloc _ => _ | _ => _ end) eqn:Ec; [|done]. destruct (run_hcall 0 c s) as [r s1| | |] eqn:Er; [|done..].
  eapply IH; [exact E|]. cbn [fst snd]. eapply hreach_call; [exact Hr| | |exact Er]; destruct c as [sz|p]; cbn [allowed stuck]; boolify.
  - lia.
  - destruct (A !! p) as [n|]; [|done]. right. by exists n.
  - right. tauto.
  - destruct (A !! p) as [n|] eqn:Ep; [|done]. apply orb_true_iff in Ec as [Ec|Ec]; boolify; [by left|right]. intros (m & [= <-] & Hle & _). lia.
Qed.

(** Two free pages: one is taken, 256 small requests fail, the page comes back
    and the next small request succeeds. *)
Definition low_memory : list hcall := HMalloc 4096 :: replicate 256 (HMalloc 16) ++ [HFree 2147504128; HMalloc 16].

Definition low_after : gmap Z Z * Z * kheap vm := default (∅, 0, heap0) (hrun low_memory (∅, 0, empty_heap (ex_sys 2))).

Lemma low_reach : hreach 0 {[2147508208 := 16]} 256 low_after.2.
Proof.
  assert (low_after.1.1 = {[2147508208 := 16]}) as <- by (vm_compute; reflexivity).
  assert (low_after.1.2 = 256) as <- by (vm_compute; reflexivity).
  apply (hrun_reach low_memory (∅, 0, empty_heap (ex_sys 2))); [vm_compute; reflexivity|]. apply hreach_empty, ex_sys_cm.
Qed.

Lemma kmalloc_failures_panic_witness : hreach 0 {[2147508208 := 16]} 256 low_after.2 /\ kfree 2147508208 low_after.2 = Panic.
Proof.
  split; [exact low_reach|]. apply (kmalloc_failures_panic 0 {[2147508208 := 16]} 256 low_after.2 (KheapRoot 0 (replicate 8 4294967295) 256) 2147508208 16).
  - exact low_reach.
  - vm_compute. reflexivity.
  - reflexivity.
  - discriminate.
  - reflexivity.
  - vm_compute. discriminate.
  - intros q m Hq _. apply lookup_singleton_Some in Hq as [<- _]. reflexivity.
Defined.
