(* ===== verification/SpaceOps.v ===== *)
(** * Appending to a page table and to a region list

    Both [as_copy] and [vm_fault] append an entry at the end of a page
    table; [as_copy] and [as_define_region] append a region.  These lemmas
    give the well-formed address space that results. *)

From S2P Require Import Prelude KHeap Bitmap VmState Coremap VmHeap Swap AddrSpace SpaceInv.

Definition set_next_entry (q : Z) (e : entry) : entry :=
  Entry (en_ptr e) (set_pte_next q (en_pte e)) (en_lock e).

Fixpoint pt_snoc (l : list entry) (e' : entry) : list entry :=
  match l with
  | [] => [e']
  | e :: l' => (match l' with [] => set_next_entry (en_ptr e') e | _ => e end) :: pt_snoc l' e'
  end.

Definition set_start (q : Z) (a : addrspace) : addrspace :=
  Addrspace (start_region a) q (heap_start a) (heap_end a).

Definition space_snoc (d : space) (e' : entry) : space :=
  Space (match sp_pt d with [] => set_start (en_ptr e') (sp_as d) | _ => sp_as d end)
    (pt_snoc (sp_pt d) e') (sp_rg d).

(** The address of the last entry, 0 in an empty table. *)
Definition last_ptr (l : list entry) : Z := match last l with Some e => en_ptr e | None => 0 end.

(** The object whose field is written to append to the table. *)
Definition link_cell (as_ : Z) (l : list entry) : Z := match last l with Some e => en_ptr e | None => as_ end.

Lemma pt_snoc_app l x e' : pt_snoc (l ++ [x]) e' = l ++ [set_next_entry (en_ptr e') x; e'].
Proof.
  induction l as [|y l IH]; [done|]. rewrite <- app_comm_cons. cbn [pt_snoc]. rewrite IH.
  by destruct l.
Qed.

Lemma pt_snoc_blocks l e' : pt_blocks (pt_snoc l e') = pt_blocks l ++ en_blocks e'.
Proof.
  destruct l as [|x l _] using rev_ind; [done|].
  by rewrite pt_snoc_app, !pt_blocks_app, <- app_assoc, !pt_blocks_cons.
Qed.

Lemma pt_snoc_vpages l e' : en_vpage <$> pt_snoc l e' = (en_vpage <$> l) ++ [en_vpage e'].
Proof. destruct l as [|x l _] using rev_ind; [done|]. by rewrite pt_snoc_app, !fmap_app, <- app_assoc. Qed.

Lemma pt_snoc_frames l e' : en_frame <$> pt_snoc l e' = (en_frame <$> l) ++ [en_frame e'].
Proof. destruct l as [|x l _] using rev_ind; [done|]. by rewrite pt_snoc_app, !fmap_app, <- app_assoc. Qed.

Lemma pt_snoc_links p l e' : pt_links p l -> pte_next (en_pte e') = 0 ->
  pt_links (match l with [] => en_ptr e' | _ => p end) (pt_snoc l e').
Proof.
  intros Hl Hn. revert p Hl. induction l as [|x l IH]; intros p Hl; [done|].
  simpl in Hl. destruct Hl as [-> Hl]. specialize (IH _ Hl). split; [by destruct l|].
  by destruct l.
Qed.

Lemma blocks_snoc as_ d e' : blocks as_ (space_snoc d e') ≡ₚ blocks as_ d ++ en_blocks e'.
Proof.
  unfold blocks, space_snoc. cbn [sp_pt sp_rg]. rewrite pt_snoc_blocks. simpl.
  rewrite <- !app_assoc. apply perm_skip. apply Permutation_app_head, Permutation_app_comm.
Qed.

Lemma pages_snoc d e' : pages (space_snoc d e') = pages d ++ [en_frame e'].
Proof. unfold pages, space_snoc. cbn [sp_pt]. apply pt_snoc_frames. Qed.

Lemma last_link_block as_ d : link_cell as_ (sp_pt d) ∈ blocks as_ d.
Proof.
  unfold link_cell. destruct (last (sp_pt d)) as [x|] eqn:E; [|apply as_in_blocks].
  apply pt_blocks_in_blocks, en_ptr_block. apply last_Some in E as [l' ->]. apply elem_of_app. right. apply list_elem_of_here.
Qed.

(** What writing the link leaves in the objects of [d]. *)
Definition linked_to (s : vm) (as_ : Z) (d : space) (q : Z) : Prop :=
  match last (sp_pt d) with
  | None => spaces s !! as_ = Some (set_start q (sp_as d))
  | Some x => spaces s !! as_ = Some (sp_as d) /\ ptes s !! en_ptr x = Some (set_pte_next q (en_pte x))
  end.

(** A new entry appended to the table of [d], when everything else of [d]
    was left alone. *)
Lemma space_at_snoc X P s s' as_ d e' :
  space_at s as_ d -> within X P s s' ->
  (forall x, x ∈ blocks as_ d -> x ∈ X -> x = link_cell as_ (sp_pt d)) ->
  (forall k, k ∈ pages d -> k ∉ P) -> (forall x, x ∈ blocks as_ d -> x ∈ heap s') ->
  linked_to s' as_ d (en_ptr e') -> entry_ok s' as_ e' -> pte_next (en_pte e') = 0 ->
  NoDup (en_blocks e') -> Forall (fun x => 0 < x /\ x ∈ heap s' /\ x ∉ blocks as_ d) (en_blocks e') ->
  en_vpage e' ∉ en_vpage <$> sp_pt d ->
  space_at s' as_ (space_snoc d e').
Proof.
  intros [Hs Hl Hr Hnd Hlive Hv Hents Hrg] W HX HP Hheap Hlink He Hnext Hnde Hblk Hvn.
  assert (sa : forall x, x ∈ pt_blocks (sp_pt d) -> x <> as_).
  { intros x Hx ->. unfold blocks in Hnd. apply NoDup_cons in Hnd as [Hn _]. apply Hn, elem_of_app. by left. }
  constructor.
  - unfold space_snoc, linked_to in *. cbn [sp_as]. destruct (last (sp_pt d)) as [x|] eqn:E.
    + destruct (sp_pt d); [done|]. apply Hlink.
    + apply last_None in E as ->. done.
  - unfold space_snoc. cbn [sp_as sp_pt]. pose proof (pt_snoc_links _ _ e' Hl Hnext) as HL. by destruct (sp_pt d).
  - unfold space_snoc. cbn [sp_as sp_rg]. by destruct (sp_pt d).
  - rewrite blocks_snoc. apply NoDup_app. split_and!; [done| |done].
    intros x Hx Hx'. rewrite Forall_forall in Hblk. by apply (Hblk x).
  - rewrite Forall_forall in *. intros x Hx. rewrite blocks_snoc in Hx.
    apply elem_of_app in Hx as [Hx|Hx]; [|by destruct (Hblk x Hx) as (? & ? & _)]. split; [|by apply Hheap]. by apply Hlive.
  - unfold space_snoc. cbn [sp_pt]. rewrite pt_snoc_vpages. apply NoDup_app. split_and!; [done| |apply NoDup_singleton].
    intros x Hx Hx'. apply list_elem_of_singleton in Hx'. congruence.
  - unfold space_snoc, linked_to, link_cell in *. cbn [sp_pt]. destruct (sp_pt d) as [|x l _] eqn:Ept using rev_ind; [by apply Forall_singleton|].
    rewrite last_snoc in HX, Hlink. destruct Hlink as [_ Hlink]. rewrite pt_snoc_app. apply Forall_app in Hents as [Hents Hx].
    apply Forall_cons in Hx as [Hx _]. rewrite pt_blocks_app, pt_blocks_cons, app_nil_r in sa.
    assert (NoDup (pt_blocks l ++ en_blocks x)) as Hnd'.
    { unfold blocks in Hnd. rewrite Ept, pt_blocks_app, pt_blocks_cons, app_nil_r in Hnd.
      apply NoDup_cons in Hnd as [_ Hnd]. by apply NoDup_app in Hnd as [? _]. }
    assert (forall y, y ∈ pt_blocks (l ++ [x]) -> y ∈ blocks as_ d) as Hin.
    { intros y Hy. apply pt_blocks_in_blocks. by rewrite Ept. }
    assert (forall e, e ∈ l ++ [x] -> en_frame e ∉ P) as HPe.
    { intros e Hel. apply HP. unfold pages. rewrite Ept. apply list_elem_of_fmap. eauto. }
    apply NoDup_app in Hnd' as (_ & Hdis & Hndx). apply Forall_app. split.
    + rewrite Forall_forall in *. intros e Hel. eapply entry_ok_within; [exact W|..|auto].
      * intros HeX. apply HX in HeX; [|apply Hin, en_ptr_block, elem_of_app; by left].
        eapply Hdis; [by apply en_ptr_block|]. rewrite HeX. apply list_elem_of_here.
      * intros HeX. apply HX in HeX; [|apply Hin, en_lock_block, elem_of_app; by left].
        eapply Hdis; [by apply en_lock_block|]. rewrite HeX. apply list_elem_of_here.
      * apply HPe, elem_of_app. by left.
    + apply Forall_cons. split; [|by apply Forall_singleton]. destruct Hx. unfold set_next_entry. constructor; simpl; try done.
      * rewrite (wi_locks _ _ _ _ W); [done|]. intros HeX. apply HX in HeX.
        -- apply NoDup_cons in Hndx as [Hn _]. apply Hn. rewrite <- HeX. apply list_elem_of_here.
        -- apply Hin, en_lock_block, elem_of_app. right. apply list_elem_of_here.
      * destruct eo_page as (pg & Hpg & Hu & Ho). exists pg. split; [|done].
        apply (wi_user _ _ _ _ W); [apply (HPe x), elem_of_app; right; apply list_elem_of_here|by left|done].
  - unfold space_snoc. cbn [sp_rg]. rewrite Forall_forall in *. intros [q r] Hq.
    rewrite (wi_regions _ _ _ _ W); [by apply (Hrg (q, r))|]. intros HqX. apply HX in HqX; [|by eapply region_in_blocks].
    unfold blocks in Hnd. apply NoDup_cons in Hnd as [Hn Hnd]. apply NoDup_app in Hnd as (_ & Hdis & _).
    assert (q ∈ (sp_rg d).*1) as Hq1 by (apply list_elem_of_fmap; by exists (q, r)).
    unfold link_cell in HqX. destruct (last (sp_pt d)) as [x|] eqn:E.
    + apply (Hdis q); [|done]. rewrite HqX. apply last_Some in E as [l' ->]. apply en_ptr_block, elem_of_app. right. apply list_elem_of_here.
    + apply Hn, elem_of_app. right. by rewrite <- HqX.
Qed.

(** ** Regions *)

Definition set_rnext (q : Z) (r : region) : region :=
  Region (rg_start r) (rg_size r) (rg_npages r) (rg_read r) (rg_write r) (rg_execute r) q.

Fixpoint rg_snoc (l : list (Z * region)) (q : Z) (r : region) : list (Z * region) :=
  match l with
  | [] => [(q, r)]
  | (p, x) :: l' => (p, match l' with [] => set_rnext q x | _ => x end) :: rg_snoc l' q r
  end.

Definition set_rstart (q : Z) (a : addrspace) : addrspace :=
  Addrspace q (start_page_table a) (heap_start a) (heap_end a).

Definition space_rsnoc (d : space) (q : Z) (r : region) : space :=
  Space (match sp_rg d with [] => set_rstart q (sp_as d) | _ => sp_as d end) (sp_pt d) (rg_snoc (sp_rg d) q r).

Definition last_region (l : list (Z * region)) : Z := match last l with Some (p, _) => p | None => 0 end.
Definition rlink_cell (as_ : Z) (l : list (Z * region)) : Z := match last l with Some (p, _) => p | None => as_ end.

Lemma rg_snoc_app l p x q r : rg_snoc (l ++ [(p, x)]) q r = l ++ [(p, set_rnext q x); (q, r)].
Proof.
  induction l as [|[p' x'] l IH]; [done|]. rewrite <- app_comm_cons. cbn [rg_snoc]. rewrite IH. by destruct l.
Qed.

Lemma rg_snoc_ptrs l q r : (rg_snoc l q r).*1 = l.*1 ++ [q].
Proof. destruct l as [|[p x] l _] using rev_ind; [done|]. by rewrite rg_snoc_app, !fmap_app, <- app_assoc. Qed.

Lemma rg_snoc_links p l q r : rg_links p l -> rg_next r = 0 ->
  rg_links (match l with [] => q | _ => p end) (rg_snoc l q r).
Proof.
  intros Hl Hn. revert p Hl. induction l as [|[p' x] l IH]; intros p Hl; [done|].
  simpl in Hl. destruct Hl as [-> Hl]. specialize (IH _ Hl). split; [done|]. by destruct l.
Qed.

Lemma blocks_rsnoc as_ d q r : blocks as_ (space_rsnoc d q r) = blocks as_ d ++ [q].
Proof. unfold blocks, space_rsnoc. cbn [sp_pt sp_rg]. by rewrite rg_snoc_ptrs, app_assoc, app_comm_cons. Qed.

Lemma rlink_block as_ d : rlink_cell as_ (sp_rg d) ∈ blocks as_ d.
Proof.
  unfold rlink_cell. destruct (last (sp_rg d)) as [[p x]|] eqn:E; [|apply as_in_blocks].
  eapply region_in_blocks. apply last_Some in E as [l' ->]. apply elem_of_app. right. apply list_elem_of_here.
Qed.

Definition rlinked_to (s : vm) (as_ : Z) (d : space) (q : Z) : Prop :=
  match last (sp_rg d) with
  | None => spaces s !! as_ = Some (set_rstart q (sp_as d))
  | Some (p, x) => spaces s !! as_ = Some (sp_as d) /\ regions s !! p = Some (set_rnext q x)
  end.

Lemma space_at_rsnoc X s s' as_ d q r :
  space_at s as_ d -> within X ∅ s s' ->
  (forall x, x ∈ blocks as_ d -> x ∈ X -> x = rlink_cell as_ (sp_rg d)) ->
  (forall x, x ∈ blocks as_ d -> x ∈ heap s') -> rlinked_to s' as_ d q ->
  regions s' !! q = Some r -> rg_next r = 0 -> 0 < q -> q ∈ heap s' -> q ∉ blocks as_ d ->
  space_at s' as_ (space_rsnoc d q r).
Proof.
  intros [Hs Hl Hr Hnd Hlive Hv Hents Hrg] W HX Hheap Hlink Hq Hnext Hpos Hin Hnew.
  pose proof Hnd as Hnd0. unfold blocks in Hnd0. apply NoDup_cons in Hnd0 as [Has Hnd0].
  apply NoDup_app in Hnd0 as (_ & Hdis & Hndr).
  constructor.
  - unfold space_rsnoc, rlinked_to in *. cbn [sp_as]. destruct (last (sp_rg d)) as [[p x]|] eqn:E.
    + destruct (sp_rg d); [done|]. apply Hlink.
    + apply last_None in E as ->. done.
  - unfold space_rsnoc. cbn [sp_as sp_pt]. by destruct (sp_rg d).
  - unfold space_rsnoc. cbn [sp_as sp_rg]. pose proof (rg_snoc_links _ _ q r Hr Hnext) as HL. by destruct (sp_rg d).
  - rewrite blocks_rsnoc. apply NoDup_app. split_and!; [done| |apply NoDup_singleton].
    intros x Hx Hx'. apply list_elem_of_singleton in Hx'. congruence.
  - rewrite blocks_rsnoc. apply Forall_app. split; [|by apply Forall_singleton].
    rewrite Forall_forall in *. intros x Hx. split; [by apply Hlive|by apply Hheap].
  - done.
  - unfold space_rsnoc. cbn [sp_pt]. rewrite Forall_forall in *.
    assert (forall x, x ∈ pt_blocks (sp_pt d) -> x ∉ X) as Hout.
    { intros x Hx HxX. apply HX in HxX; [|by apply pt_blocks_in_blocks]. unfold rlink_cell in HxX.
      destruct (last (sp_rg d)) as [[p y]|] eqn:E; subst x.
      - eapply Hdis; [exact Hx|]. apply last_Some in E as [l' ->]. rewrite fmap_app. apply elem_of_app. right. apply list_elem_of_here.
      - apply Has, elem_of_app. by left. }
    intros e He. eapply entry_ok_within; [exact W|by apply Hout, en_ptr_block|by apply Hout, en_lock_block|set_solver|auto].
  - unfold space_rsnoc, rlinked_to, rlink_cell in *. cbn [sp_rg].
    destruct (sp_rg d) as [|[p x] l _] eqn:Erg using rev_ind; [by apply Forall_singleton|].
    rewrite last_snoc in HX, Hlink. destruct Hlink as [_ Hlink]. rewrite rg_snoc_app. apply Forall_app in Hrg as [Hrg _].
    rewrite fmap_app in Hndr. simpl in Hndr. apply NoDup_mid in Hndr as (Hnp & _ & _).
    apply Forall_app. split; [|apply Forall_cons; split; [done|by apply Forall_singleton]].
    rewrite Forall_forall in *. intros [y z] Hy. rewrite (wi_regions _ _ _ _ W); [by apply (Hrg (y, z))|].
    intros HyX. apply HX in HyX; [|apply (region_in_blocks y z); rewrite Erg; apply elem_of_app; by left].
    apply Hnp. rewrite <- HyX. apply list_elem_of_fmap. by exists (y, z).
Qed.

(** ** Removing an entry from the middle of a page table *)

(** The entries [l] with the last one's [next] set to [q]. *)
Fixpoint pt_relink (l : list entry) (q : Z) : list entry :=
  match l with
  | [] => []
  | e :: l' => (match l' with [] => set_next_entry q e | _ => e end) :: pt_relink l' q
  end.

(** The address space [d], whose table is [l1 ++ e :: l2], without [e]. *)
Definition space_drop (d : space) (l1 : list entry) (e : entry) (l2 : list entry) : space :=
  Space (match l1 with [] => set_start (pte_next (en_pte e)) (sp_as d) | _ => sp_as d end)
    (pt_relink l1 (pte_next (en_pte e)) ++ l2) (sp_rg d).

Lemma pt_relink_app l x q : pt_relink (l ++ [x]) q = l ++ [set_next_entry q x].
Proof.
  induction l as [|y l IH]; [done|]. rewrite <- app_comm_cons. cbn [pt_relink]. rewrite IH. by destruct l.
Qed.

Lemma pt_relink_blocks l q : pt_blocks (pt_relink l q) = pt_blocks l.
Proof. destruct l as [|x l _] using rev_ind; [done|]. by rewrite pt_relink_app, !pt_blocks_app. Qed.

Lemma pt_relink_vpages l q : en_vpage <$> pt_relink l q = en_vpage <$> l.
Proof. destruct l as [|x l _] using rev_ind; [done|]. by rewrite pt_relink_app, !fmap_app. Qed.

Lemma pt_relink_frames l q : en_frame <$> pt_relink l q = en_frame <$> l.
Proof. destruct l as [|x l _] using rev_ind; [done|]. by rewrite pt_relink_app, !fmap_app. Qed.

Lemma pt_links_app p l1 e l2 : pt_links p (l1 ++ e :: l2) ->
  pt_links (match l1 with [] => pte_next (en_pte e) | _ => p end) (pt_relink l1 (pte_next (en_pte e)) ++ l2).
Proof.
  revert p. induction l1 as [|x l1 IH]; intros p [-> Hl]; [done|]. split; [by destruct l1|].
  specialize (IH _ Hl). destruct l1 as [|y l1]; [done|]. exact IH.
Qed.

Lemma blocks_drop as_ d l1 e l2 : sp_pt d = l1 ++ e :: l2 ->
  blocks as_ d ≡ₚ en_blocks e ++ blocks as_ (space_drop d l1 e l2).
Proof.
  intros E. unfold blocks, space_drop. cbn [sp_pt sp_rg]. rewrite E, !pt_blocks_app, pt_blocks_cons, pt_relink_blocks.
  rewrite <- Permutation_middle. apply perm_skip. rewrite <- !app_assoc. by rewrite !app_assoc, (Permutation_app_comm (pt_blocks l1)).
Qed.

Lemma pages_drop d l1 e l2 : sp_pt d = l1 ++ e :: l2 -> pages d ≡ₚ en_frame e :: pages (space_drop d l1 e l2).
Proof.
  intros E. unfold pages, space_drop. cbn [sp_pt]. rewrite E, !fmap_app, fmap_cons, pt_relink_frames.
  by rewrite Permutation_middle.
Qed.

(** What writing the link around [e] leaves. *)
Definition relinked (s : vm) (as_ : Z) (d : space) (l1 : list entry) (q : Z) : Prop :=
  match last l1 with
  | None => spaces s !! as_ = Some (set_start q (sp_as d))
  | Some x => spaces s !! as_ = Some (sp_as d) /\ ptes s !! en_ptr x = Some (set_pte_next q (en_pte x))
  end.

Lemma link_cell_block as_ d l1 l : sp_pt d = l1 ++ l -> link_cell as_ l1 ∈ blocks as_ d.
Proof.
  intros E. unfold link_cell. destruct (last l1) as [x|] eqn:El; [|apply as_in_blocks].
  apply pt_blocks_in_blocks, en_ptr_block. rewrite E. apply last_Some in El as [l' ->]. rewrite <- app_assoc.
  apply elem_of_app. right. apply list_elem_of_here.
Qed.

(** Entries other than the last of [l1] and [e] are untouched. *)
Lemma entries_drop X P s s' as_ d l1 e l2 : space_at s as_ d -> sp_pt d = l1 ++ e :: l2 -> within X P s s' ->
  (forall x, x ∈ blocks as_ d -> x ∈ X -> x = link_cell as_ l1 \/ x ∈ en_blocks e) ->
  (forall k, k ∈ P -> k = en_frame e) -> relinked s' as_ d l1 (pte_next (en_pte e)) ->
  Forall (entry_ok s' as_) (pt_relink l1 (pte_next (en_pte e)) ++ l2).
Proof.
  intros Hsp E W HX HP Hlink. pose proof (pages_nodup _ _ _ Hsp) as Hpg. unfold pages in Hpg.
  destruct Hsp as [_ _ _ Hnd _ _ Hents _]. unfold blocks in Hnd. apply NoDup_cons in Hnd as [Has Hnd].
  rewrite E in Hents, Hnd, Hpg, Has. apply NoDup_app in Hnd as (Hnd & _ & _). rewrite pt_blocks_app, pt_blocks_cons in Hnd, Has.
  rewrite fmap_app, fmap_cons in Hpg. apply NoDup_mid in Hpg as (Hp1 & Hp2 & _).
  apply Forall_app in Hents as [H1 [_ H2]%Forall_cons].
  assert (forall y, y ∈ pt_blocks l1 \/ y ∈ pt_blocks l2 -> y ∈ blocks as_ d /\ y ∉ en_blocks e /\ y <> as_) as Hin.
  { apply NoDup_app in Hnd as (_ & Hd1 & Hnd). apply NoDup_app in Hnd as (_ & Hd2 & _). intros y Hy. split_and!.
    - apply pt_blocks_in_blocks. rewrite E, pt_blocks_app, pt_blocks_cons. set_solver.
    - intros Hye. destruct Hy as [Hy|Hy]; [eapply (Hd1 y); [done|]; set_solver|by eapply Hd2].
    - intros ->. apply Has. set_solver. }
  assert (forall x, x ∈ l1 ++ l2 -> en_frame x ∉ P) as HPx.
  { intros x Hx Hin'. apply HP in Hin'. apply elem_of_app in Hx as [Hx|Hx]; [apply Hp1|apply Hp2]; rewrite <- Hin'; apply list_elem_of_fmap; eauto. }
  assert (forall y, y ∈ pt_blocks l1 \/ y ∈ pt_blocks l2 -> y <> link_cell as_ l1 -> y ∉ X) as Hout.
  { intros y Hy Hne HyX. destruct (Hin y Hy) as (? & ? & _). by destruct (HX y). }
  assert (forall x, x ∈ l2 -> entry_ok s' as_ x) as Hl2.
  { apply NoDup_app in Hnd as (_ & Hd1 & _). rewrite Forall_forall in H2. intros x Hx.
    assert (forall y, y ∈ pt_blocks l2 -> y <> link_cell as_ l1) as Hne.
    { intros y Hy ->. destruct (Hin _ (or_intror Hy)) as (_ & _ & Hna). unfold link_cell in *.
      destruct (last l1) as [z|] eqn:El; [|done]. apply (Hd1 (en_ptr z)); [|set_solver].
      apply en_ptr_block. apply last_Some in El as [l' ->]. set_solver. }
    eapply entry_ok_within; [exact W|..|by apply H2].
    - apply Hout; [right|apply Hne]; by apply en_ptr_block.
    - apply Hout; [right|apply Hne]; by apply en_lock_block.
    - apply HPx. set_solver. }
  apply Forall_app. split; [|by apply Forall_forall]. clear Hl2 H2.
  destruct l1 as [|x l1 _] using rev_ind; [constructor|]. rewrite pt_relink_app.
  unfold relinked, link_cell in *. rewrite last_snoc in *. destruct Hlink as [_ Hlink].
  rewrite pt_blocks_app, pt_blocks_cons, app_nil_r in *. apply NoDup_app in Hnd as (Hnd & _ & _). apply NoDup_app in Hnd as (_ & Hd & Hndx).
  apply Forall_app in H1 as [H1 [Hx _]%Forall_cons]. apply Forall_app. split.
  - rewrite Forall_forall in *. intros z Hz. eapply entry_ok_within; [exact W|..|by apply H1].
    + apply Hout; [left; apply elem_of_app; left; by apply en_ptr_block|]. intros Ez. apply (Hd (en_ptr z)); [by apply en_ptr_block|].
      rewrite Ez. apply list_elem_of_here.
    + apply Hout; [left; apply elem_of_app; left; by apply en_lock_block|]. intros Ez. apply (Hd (pte_lock (en_pte z))); [by apply en_lock_block|].
      rewrite Ez. apply list_elem_of_here.
    + apply HPx. set_solver.
  - apply Forall_singleton. destruct Hx. unfold set_next_entry. constructor; simpl; try done.
    + rewrite (wi_locks _ _ _ _ W); [done|]. apply Hout; [left; apply elem_of_app; right; apply list_elem_of_further, list_elem_of_here|].
      intros Ez. apply NoDup_cons in Hndx as [Hn _]. apply Hn. rewrite <- Ez. apply list_elem_of_here.
    + destruct eo_page as (pg & Hpg & Hu & Ho). exists pg. split; [|done]. apply (wi_user _ _ _ _ W); [apply (HPx x); set_solver|by left|done].
Qed.

Lemma space_at_drop X P s s' as_ d l1 e l2 : space_at s as_ d -> sp_pt d = l1 ++ e :: l2 -> within X P s s' ->
  (forall x, x ∈ blocks as_ d -> x ∈ X -> x = link_cell as_ l1 \/ x ∈ en_blocks e) ->
  (forall k, k ∈ P -> k = en_frame e) -> (forall x, x ∈ blocks as_ d -> x ∉ en_blocks e -> x ∈ heap s') ->
  relinked s' as_ d l1 (pte_next (en_pte e)) -> space_at s' as_ (space_drop d l1 e l2).
Proof.
  intros Hsp E W HX HP Hheap Hlink. pose proof (entries_drop X P s s' as_ d l1 e l2 Hsp E W HX HP Hlink) as Hents.
  destruct Hsp as [Hs Hl Hr Hnd Hlive Hv _ Hrg]. pose proof (blocks_drop as_ d l1 e l2 E) as Hperm.
  assert (NoDup (en_blocks e ++ blocks as_ (space_drop d l1 e l2))) as Hnd' by (by rewrite <- Hperm).
  apply NoDup_app in Hnd' as (_ & Hdis & Hnd'). rewrite E in Hl, Hv.
  constructor; [..|done|].
  - unfold space_drop, relinked in *. cbn [sp_as]. destruct (last l1) as [x|] eqn:El.
    + destruct l1; [done|]. apply Hlink.
    + apply last_None in El as ->. done.
  - unfold space_drop. cbn [sp_as sp_pt]. pose proof (pt_links_app _ _ _ _ Hl) as HL. by destruct l1.
  - unfold space_drop. cbn [sp_as sp_rg]. by destruct l1.
  - done.
  - rewrite Forall_forall in *. intros x Hx. assert (x ∈ blocks as_ d) as Hxd by (rewrite Hperm; apply elem_of_app; by right).
    split; [by apply Hlive|]. apply Hheap; [done|]. intros Hxe. by eapply Hdis.
  - unfold space_drop. cbn [sp_pt]. rewrite fmap_app, pt_relink_vpages. rewrite fmap_app, fmap_cons in Hv.
    by apply NoDup_mid in Hv as (_ & _ & ?).
  - unfold space_drop. cbn [sp_rg]. rewrite Forall_forall in *. intros [q r] Hq.
    rewrite (wi_regions _ _ _ _ W); [by apply (Hrg (q, r))|]. intros HqX.
    unfold blocks in Hnd. apply NoDup_cons in Hnd as [Hn Hnd]. apply NoDup_app in Hnd as (_ & Hd & _).
    assert (q ∈ (sp_rg d).*1) as Hq1 by (apply list_elem_of_fmap; by exists (q, r)).
    destruct (HX q (region_in_blocks q r as_ d Hq) HqX) as [->|Hqe].
    + unfold link_cell in *. destruct (last l1) as [x|] eqn:El; [|apply Hn; set_solver].
      eapply Hd; [|exact Hq1]. apply en_ptr_block. rewrite E. apply last_Some in El as [l' ->]. set_solver.
    + eapply Hd; [|exact Hq1]. rewrite E, pt_blocks_app, pt_blocks_cons. set_solver.
Qed.

(** * Address space operations keep the invariant

    The specifications of the operations of kern/vm/addrspace.c against the
    description of address spaces in SpaceInv. *)

(** Weaken a framing fact to the goal's footprint. *)
Ltac wmono H := eapply within_mono; [exact H|set_solver..].

Section ops.
Context `{VmHeap} `{SwapDevice}.

Lemma wp_pte_at p e Q s : ptes s !! p = Some e -> Q e s -> wp (pte_at p) Q s.
Proof. intros Hp HQ. unfold pte_at. wp_steps. by apply (wp_deref _ e). Qed.
Lemma wp_pte_put p e e' Q s : ptes s !! p = Some e -> Q tt (set_ptes (<[p := e']> (ptes s)) s) -> wp (pte_put p e') Q s.
Proof. intros Hp HQ. unfold pte_put. wp_step. apply (wp_pte_at p e); [done|]. by wp_step. Qed.
Lemma wp_region_at p r Q s : regions s !! p = Some r -> Q r s -> wp (region_at p) Q s.
Proof. intros Hp HQ. unfold region_at. wp_steps. by apply (wp_deref _ r). Qed.
Lemma wp_region_put p r r' Q s : regions s !! p = Some r -> Q tt (set_regions (<[p := r']> (regions s)) s) -> wp (region_put p r') Q s.
Proof. intros Hp HQ. unfold region_put. wp_step. apply (wp_region_at p r); [done|]. by wp_step. Qed.
Lemma wp_space_read p a Q s : spaces s !! p = Some a -> Q a s -> wp (space_read p) Q s.
Proof. intros Hp HQ. unfold space_read. wp_steps. by apply (wp_deref _ a). Qed.
Lemma wp_space_put p a a' Q s : spaces s !! p = Some a -> Q tt (set_spaces (<[p := a']> (spaces s)) s) -> wp (space_put p a') Q s.
Proof. intros Hp HQ. unfold space_put. wp_step. apply (wp_space_read p a); [done|]. by wp_step. Qed.

Lemma wp_lock_acquire lk l Q s : 0 < lk -> locks s !! lk = Some l -> lk_held l = false ->
  Q tt (set_locks (<[lk := Sleeplock true (lk_name l) (lk_wchan l)]> (locks s)) s) -> wp (lock_acquire lk) Q s.
Proof. intros Hn Hl Hh HQ. unfold wp. rewrite (lock_acquire_done lk l); [done|lia|done..]. Qed.
Lemma wp_lock_release lk l Q s : 0 < lk -> locks s !! lk = Some l -> lk_held l = true ->
  Q tt (set_locks (<[lk := Sleeplock false (lk_name l) (lk_wchan l)]> (locks s)) s) -> wp (lock_release lk) Q s.
Proof. intros Hn Hl Hh HQ. unfold wp. rewrite (lock_release_done lk l); [done|lia|done..]. Qed.

Lemma free_pte_spec p s : cm_ok s -> 0 < p -> p ∈ heap s ->
  wp (free_pte p) (fun _ s' => within {[p]} ∅ s s' /\ heap s' = heap s ∖ {[p]} /\ ptes s' !! p = None) s.
Proof.
  intros Hok Hp Hin. unfold free_pte. wp_steps.
  assert (within {[p]} ∅ s (set_ptes (delete p (ptes s)) s)) as W1.
  { apply within_set_ptes; [done|]. intros x Hx. apply (delete_outside _ _ {[p]}); set_solver. }
  wp_apply vm_kfree_spec; [apply W1|lia|done|]. intros _ s' [K Hh].
  pose proof (within_kernel _ _ (wi_ok _ _ _ _ W1) K) as W2. split_and!; [|done|].
  - eapply within_trans; [exact W1|]. wmono W2.
  - rewrite (wi_ptes _ _ _ _ W2) by set_solver. apply lookup_delete_eq.
Qed.

Lemma free_region_spec p s : cm_ok s -> 0 < p -> p ∈ heap s ->
  wp (free_region p) (fun _ s' => within {[p]} ∅ s s' /\ heap s' = heap s ∖ {[p]}) s.
Proof.
  intros Hok Hp Hin. unfold free_region. wp_steps.
  assert (within {[p]} ∅ s (set_regions (delete p (regions s)) s)) as W1.
  { apply within_set_regions; [done|]. intros x Hx. apply (delete_outside _ _ {[p]}); set_solver. }
  wp_apply vm_kfree_spec; [apply W1|lia|done|]. intros _ s' [K Hh]. split; [|done].
  eapply within_trans; [exact W1|]. wmono (within_kernel _ _ (wi_ok _ _ _ _ W1) K).
Qed.

Lemma free_space_spec p s : cm_ok s -> 0 < p -> p ∈ heap s ->
  wp (free_space p) (fun _ s' => within {[p]} ∅ s s' /\ heap s' = heap s ∖ {[p]} /\ spaces s' !! p = None) s.
Proof.
  intros Hok Hp Hin. unfold free_space. wp_steps.
  assert (within {[p]} ∅ s (set_spaces (delete p (spaces s)) s)) as W1.
  { apply within_set_spaces; [done|]. intros x Hx. apply (delete_outside _ _ {[p]}); set_solver. }
  wp_apply vm_kfree_spec; [apply W1|lia|done|]. intros _ s' [K Hh].
  pose proof (within_kernel _ _ (wi_ok _ _ _ _ W1) K) as W2. split_and!; [|done|].
  - eapply within_trans; [exact W1|]. wmono W2.
  - rewrite (wi_spaces _ _ _ _ W2) by set_solver. apply lookup_delete_eq.
Qed.

(** Acquiring and releasing a lock. *)
Lemma within_lock lk l s : cm_ok s -> within {[lk]} ∅ s (set_locks (<[lk := l]> (locks s)) s).
Proof. intros Hok. apply within_set_locks; [done|]. intros x Hx. apply (insert_outside _ _ _ {[lk]}); set_solver. Qed.

(** Destroying one entry gives back its four blocks and its page. *)
Lemma destroy_pte_spec s as_ e : cm_ok s -> entry_ok s as_ e ->
  NoDup (en_blocks e) -> Forall (fun x => 0 < x /\ x ∈ heap s) (en_blocks e) ->
  wp (destroy_pte (en_ptr e)) (fun r s' => r = pte_next (en_pte e) /\
    within (list_to_set (en_blocks e)) {[en_frame e]} s s' /\
    heap s' = heap s ∖ list_to_set (en_blocks e) /\
    (forall p, coremap s' !! en_frame e = Some p -> ¬ user_page p)) s.
Proof.
  intros Hok [Hpte Hlk Hheld Hst Hpa _ (p & Hp & Hps & _ & _)] Hnd Hlive.
  set (lk := pte_lock (en_pte e)) in *. set (i := Z.of_nat (en_frame e)) in *.
  unfold en_blocks in *. fold lk in Hnd, Hlive |- *.
  rewrite !Forall_cons in Hlive. destruct Hlive as ((P0 & L0) & (P1 & L1) & (P2 & L2) & (P3 & L3) & _).
  rewrite NoDup_cons in Hnd. destruct Hnd as [N0 N1].
  unfold destroy_pte. wp_step. apply (wp_pte_at _ (en_pte e)); [done|]. fold lk.
  wp_step. apply (wp_lock_acquire lk (en_lock e)); [done..|]. rewrite Hst. do 2 wp_step. rewrite Hpa. fold i.
  set (hl := Sleeplock true _ _). pose proof (within_lock lk hl s Hok) as W1.
  set (s1 := set_locks _ s) in *.
  assert (coremap s1 !! Z.to_nat i = Some p) as Hp1 by (by replace (Z.to_nat i) with (en_frame e) by lia).
  pose proof (user_page_managed s1 _ p (wi_ok _ _ _ _ W1) Hp1 ltac:(congruence)).
  wp_apply (release_physical_page_spec s1 i p); [apply W1|lia|done|by left|].
  rewrite Hps. intros r s2 (-> & E2 & Hok2). wp_step.
  pose proof (within_ufree s1 i p (wi_ok _ _ _ _ W1) ltac:(lia) Hp1 Hps) as W2. rewrite <- E2 in W2.
  assert (coremap s2 !! en_frame e = Some free_page) as Hfree.
  { rewrite E2. unfold ufree_state. vm_simpl. replace (en_frame e) with (Z.to_nat i) by lia.
    apply list_lookup_insert_eq. by eapply lookup_lt_Some. }
  assert (locks s2 !! lk = Some hl) as Hl2 by (rewrite E2; unfold ufree_state, s1; vm_simpl; apply lookup_insert_eq).
  assert (heap s2 = heap s) as Hh2 by (rewrite E2; done).
  simpl. wp_step. apply (wp_lock_release lk hl); [done..|]. cbn [lk_name lk_wchan hl].
  set (l3 := Sleeplock false _ _). pose proof (within_lock lk l3 s2 Hok2) as W3. set (s3 := set_locks _ s2) in *.
  wp_step. wp_apply (lock_destroy_spec lk l3 s3); [apply W3|apply lookup_insert_eq|by repeat constructor|done| |].
  { change (heap s3) with (heap s2). rewrite Hh2. simpl. set_solver. }
  intros _ s4 (W4 & _ & H4). wp_step. wp_apply (free_pte_spec (en_ptr e) s4); [apply W4|done| |].
  { rewrite H4. change (heap s3) with (heap s2). rewrite Hh2. apply elem_of_difference. split; [done|]. by rewrite elem_of_list_to_set. }
  intros _ s5 (W5 & H5 & _). wp_step. replace (Z.to_nat i) with (en_frame e) in W2 by lia.
  assert (within {[en_ptr e; lk]} {[en_frame e]} s2 s5) as W25.
  { eapply within_trans; [wmono W3|]. eapply within_trans; [wmono W4|wmono W5]. }
  split_and!; [done| | |].
  - eapply within_trans; [wmono W1|]. eapply within_trans; [wmono W2|]. simpl. wmono W25.
  - rewrite H5, H4. change (heap s3) with (heap s2). rewrite Hh2. simpl. set_solver.
  - intros q Hq Hu. assert (within {[en_ptr e; lk]} ∅ s2 s5) as W25'.
    { eapply within_trans; [wmono W3|]. eapply within_trans; [wmono W4|wmono W5]. }
    apply (wi_user _ _ _ _ W25') in Hq; [|set_solver|done]. rewrite Hfree in Hq. injection Hq as <-.
    by destruct Hu.
Qed.
(** What is left of a list of entries when its first one is gone. *)
Lemma entries_within e l s s' as_ : NoDup (pt_blocks (e :: l)) -> NoDup (en_frame <$> e :: l) ->
  within (list_to_set (en_blocks e)) {[en_frame e]} s s' ->
  Forall (entry_ok s as_) l -> Forall (entry_ok s' as_) l.
Proof.
  rewrite pt_blocks_cons, fmap_cons, NoDup_app, NoDup_cons. intros (_ & Hd & _) [Hf _] W Hl.
  rewrite Forall_forall in *. intros x Hx. eapply entry_ok_within; [exact W|..|auto].
  - rewrite elem_of_list_to_set. intros Hin. eapply Hd; [exact Hin|]. by apply en_ptr_block.
  - rewrite elem_of_list_to_set. intros Hin. eapply Hd; [exact Hin|]. by apply en_lock_block.
  - rewrite elem_of_singleton. intros E. apply Hf. rewrite <- E. apply list_elem_of_fmap. eauto.
Qed.

Lemma destroy_ptes_spec s as_ p l : cm_ok s -> pt_links p l ->
  NoDup (pt_blocks l) -> NoDup (en_frame <$> l) -> Forall (fun x => 0 < x /\ x ∈ heap s) (pt_blocks l) ->
  Forall (entry_ok s as_) l ->
  wp (destroy_ptes p) (fun _ s' =>
    within (list_to_set (pt_blocks l)) (list_to_set (en_frame <$> l)) s s' /\
    heap s' = heap s ∖ list_to_set (pt_blocks l) /\
    (forall k q, k ∈ en_frame <$> l -> coremap s' !! k = Some q -> ¬ user_page q)) s.
Proof.
  intros Hok Hlinks Hnd Hndf Hlive Hents. unfold destroy_ptes. wp_steps.
  eapply (wp_loop_list _ l _ _ (fun l2 p s' => exists l1, l = l1 ++ l2 /\ pt_links p l2 /\
    Forall (entry_ok s' as_) l2 /\
    within (list_to_set (pt_blocks l1)) (list_to_set (en_frame <$> l1)) s s' /\
    heap s' = heap s ∖ list_to_set (pt_blocks l1) /\
    (forall k q, k ∈ en_frame <$> l1 -> coremap s' !! k = Some q -> ¬ user_page q))).
  - exists []. split_and!; [done|done|done|by apply within_refl|set_solver|]. intros k q Hk. by apply not_elem_of_nil in Hk.
  - by apply (pt_fuel s as_).
  - clear p Hlinks. intros l2 p s1 (l1 & -> & Hlinks & Hents1 & W & Hh & Hfree).
    destruct l2 as [|e l2]; simpl in Hlinks; [subst p; wp_steps; by rewrite app_nil_r|].
    destruct Hlinks as [-> Hlinks]. rewrite pt_blocks_app, pt_blocks_cons in Hnd, Hlive.
    rewrite !Forall_app in Hlive. destruct Hlive as (_ & He & _).
    apply NoDup_app in Hnd as (_ & Hd1 & Hnd2). pose proof Hnd2 as (Hnde & _ & _)%NoDup_app.
    rewrite fmap_app in Hndf. apply NoDup_app in Hndf as (_ & Hdf1 & Hndf2).
    apply Forall_cons in Hents1 as [He1 Hents1].
    pose proof (proj1 (Forall_cons _ _ _) He) as [[Hpos _] _].
    rewrite (proj2 (Z.eqb_neq (en_ptr e) 0)) by lia.
    wp_step. wp_apply (destroy_pte_spec s1 as_ e); [apply W|done|done| |].
    { rewrite Forall_forall in *. intros x Hx. destruct (He x Hx). split; [done|].
      rewrite Hh. apply elem_of_difference. split; [done|]. rewrite elem_of_list_to_set. intros Hx1.
      eapply Hd1; [exact Hx1|]. apply elem_of_app. by left. }
    intros r s2 (-> & W2 & H2 & Hfree2). wp_step. exists e, l2. split; [done|]. exists (l1 ++ [e]).
    rewrite pt_blocks_app, fmap_app, !list_to_set_app_L. split_and!.
    + by rewrite <- app_assoc.
    + done.
    + eapply entries_within; [rewrite pt_blocks_cons; done|done|done|done].
    + eapply within_trans; [wmono W|]. eapply within_mono; [exact W2|..].
      * rewrite pt_blocks_cons, app_nil_r. apply union_subseteq_r.
      * set_solver.
    + rewrite H2, Hh, pt_blocks_cons, app_nil_r. by rewrite difference_difference_l_L.
    + intros k q [Hk|Hk]%elem_of_app Hq; [|apply list_elem_of_singleton in Hk as ->; by apply Hfree2].
      intros Hu. apply (wi_user _ _ _ _ W2) in Hq; [by eapply Hfree| |done].
      rewrite elem_of_singleton. intros ->. eapply Hdf1; [exact Hk|]. rewrite fmap_cons. apply list_elem_of_here.
Qed.
Lemma destroy_regions_spec s p l : cm_ok s -> rg_links p l -> NoDup l.*1 ->
  Forall (fun x => 0 < x /\ x ∈ heap s) l.*1 -> Forall (fun '(q, r) => regions s !! q = Some r) l ->
  wp (destroy_regions p) (fun _ s' => within (list_to_set l.*1) ∅ s s' /\ heap s' = heap s ∖ list_to_set l.*1) s.
Proof.
  intros Hok Hlinks Hnd Hlive Hrg. unfold destroy_regions. wp_steps.
  eapply (wp_loop_list _ l _ _ (fun l2 p s' => exists l1, l = l1 ++ l2 /\ rg_links p l2 /\
    Forall (fun '(q, r) => regions s' !! q = Some r) l2 /\
    within (list_to_set l1.*1) ∅ s s' /\ heap s' = heap s ∖ list_to_set l1.*1)).
  - exists []. split_and!; [done|done|done|by apply within_refl|set_solver].
  - by apply rg_fuel.
  - clear p Hlinks. intros l2 p s1 (l1 & -> & Hlinks & Hrg1 & W & Hh).
    destruct l2 as [|[q r] l2]; simpl in Hlinks; [subst p; wp_steps; by rewrite app_nil_r|].
    destruct Hlinks as [-> Hlinks]. rewrite fmap_app, fmap_cons in Hnd, Hlive. simpl in Hnd, Hlive.
    apply NoDup_mid in Hnd as (Hn1 & Hn2 & _). apply Forall_app in Hlive as [_ [[Hpos Hin] _]%Forall_cons].
    apply Forall_cons in Hrg1 as [Hq Hrg1].
    rewrite (proj2 (Z.eqb_neq q 0)) by lia. wp_step. apply (wp_region_at q r); [done|]. wp_step.
    wp_apply (free_region_spec q s1); [apply W|done|rewrite Hh; apply elem_of_difference; by rewrite elem_of_list_to_set|].
    intros _ s2 [W2 H2]. wp_step. exists (q, r), l2. split; [done|]. exists (l1 ++ [(q, r)]).
    rewrite fmap_app, list_to_set_app_L. split_and!.
    + by rewrite <- app_assoc.
    + done.
    + rewrite Forall_forall in *. intros [q' r'] Hin'. rewrite (wi_regions _ _ _ _ W2); [by apply (Hrg1 (q', r'))|].
      rewrite elem_of_singleton. intros ->. apply Hn2. apply list_elem_of_fmap. by exists (q, r').
    + eapply within_trans; [wmono W|]. wmono W2.
    + rewrite H2, Hh, difference_difference_l_L. simpl. set_solver.
Qed.

(** Destroying an address space gives back exactly its blocks and its
    pages. *)
Lemma as_destroy_spec s as_ d : cm_ok s -> space_at s as_ d ->
  wp (as_destroy as_) (fun _ s' =>
    within (list_to_set (blocks as_ d)) (list_to_set (pages d)) s s' /\
    heap s' = heap s ∖ list_to_set (blocks as_ d) /\ spaces s' !! as_ = None /\
    (forall k q, k ∈ pages d -> coremap s' !! k = Some q -> ¬ user_page q)) s.
Proof.
  intros Hok Hsp. pose proof (pages_nodup _ _ _ Hsp) as Hndp. destruct Hsp as [Hs Hl Hr Hnd Hlive _ Hents Hrg].
  unfold blocks in *. apply NoDup_cons in Hnd as [Hn1 Hnd]. apply NoDup_app in Hnd as (Hnp & Hd & Hnr).
  apply Forall_cons in Hlive as [[Hpos Hin] Hlive]. apply Forall_app in Hlive as [Hlp Hlr].
  apply not_elem_of_app in Hn1 as [Hn1 Hn2].
  unfold as_destroy. wp_step. apply wp_kassert; [by rewrite (proj2 (Z.eqb_neq as_ 0)) by lia|].
  wp_step. apply (wp_space_read as_ (sp_as d)); [done|]. wp_step.
  wp_apply (destroy_ptes_spec s as_ _ (sp_pt d)); [done..|]. intros _ s1 (W1 & H1 & Hfree). wp_step.
  wp_apply (destroy_regions_spec s1 _ (sp_rg d)); [apply W1|done|done|..].
  { rewrite Forall_forall in *. intros x Hx. destruct (Hlr x Hx). split; [done|]. rewrite H1.
    apply elem_of_difference. split; [done|]. rewrite elem_of_list_to_set. intros Hx'. by eapply Hd. }
  { rewrite Forall_forall in *. intros [q r] Hq. rewrite (wi_regions _ _ _ _ W1); [by apply (Hrg (q, r))|].
    rewrite elem_of_list_to_set. intros Hx'. eapply Hd; [exact Hx'|]. apply list_elem_of_fmap. by exists (q, r). }
  intros _ s2 (W2 & H2). wp_apply (free_space_spec as_ s2); [apply W2|done| |].
  { rewrite H2, H1, difference_difference_l_L. apply elem_of_difference. split; [done|].
    set_solver. }
  intros _ s3 (W3 & H3 & Hsp3). split_and!; [| |done|].
  - eapply within_trans; [wmono W1|]. eapply within_trans; [wmono W2|wmono W3].
  - rewrite H3, H2, H1, !difference_difference_l_L. f_equal. rewrite list_to_set_cons, list_to_set_app_L. set_solver.
  - intros k q Hk Hq Hu. apply (wi_user _ _ _ _ W3) in Hq; [|set_solver|done].
    apply (wi_user _ _ _ _ W2) in Hq; [by eapply Hfree|set_solver|done].
Qed.
End ops.
