(* ===== verification/SpaceCopy.v ===== *)
(** * Copying an address space

    [as_copy] gives the child the same virtual pages with equal contents in
    physical pages of its own, or fails and gives back what it took. *)

From S2P Require Import Prelude KHeap Bitmap VmState Coremap VmHeap Swap AddrSpace SpaceInv SpaceOps.

Section copy.
Context `{VmHeap} `{SwapDevice}.

(** Blocks that were not in use in [s]. *)
Definition fresh_blocks (s : vm) (l : list Z) : Prop := NoDup l /\ Forall (fun x => 0 < x /\ x ∉ heap s) l.

Lemma as_create_spec s : cm_ok s ->
  wp as_create (fun r s' =>
    (r = 0 /\ within ∅ ∅ s s' /\ heap s' = heap s) \/
    (fresh_blocks s [r] /\ within {[r]} ∅ s s' /\ heap s' = {[r]} ∪ heap s /\
     space_at s' r (Space (Addrspace 0 0 0 0) [] []))) s.
Proof.
  intros Hok. unfold as_create. wp_step. wp_apply vm_kmalloc_spec; [done|].
  intros r s1 [K [[-> Hh]|(Hr & Hf & Hh)]]; pose proof (within_kernel _ _ Hok K) as W.
  { simpl. wp_step. by left. }
  rewrite (proj2 (Z.eqb_neq r 0)) by lia. wp_steps. right. split_and!.
  - split; [apply NoDup_singleton|by apply Forall_singleton].
  - eapply within_trans; [wmono W|]. apply within_set_spaces; [apply W|].
    intros x Hx. apply (insert_outside _ _ _ {[r]}); set_solver.
  - done.
  - constructor; simpl; try done; try (by constructor).
    + apply lookup_insert_eq.
    + apply NoDup_singleton.
    + apply Forall_singleton. split; [done|]. vm_simpl. rewrite Hh. set_solver.
Qed.

Lemma alloc_pte_spec s : cm_ok s ->
  wp alloc_pte (fun r s' =>
    match r with
    | None => exists F, (forall x, x ∈ F -> x ∉ heap s) /\ within F ∅ s s' /\ heap s' = heap s
    | Some (q, lk) => exists n w, fresh_blocks s [q; lk; n; w] /\ within {[q; lk]} ∅ s s' /\
        is_Some (ptes s' !! q) /\ locks s' !! lk = Some (Sleeplock true n w) /\
        heap s' = list_to_set [q; lk; n; w] ∪ heap s
    end) s.
Proof.
  intros Hok. unfold alloc_pte. wp_step. wp_apply vm_kmalloc_spec; [done|].
  intros q s1 [K1 [[-> H1]|(Hq & Hf & H1)]]; pose proof (within_kernel _ _ Hok K1) as W1.
  { simpl. wp_step. exists ∅. split_and!; [set_solver|done|done]. }
  rewrite (proj2 (Z.eqb_neq q 0)) by lia. wp_steps.
  set (s2 := set_ptes _ s1). assert (within {[q]} ∅ s1 s2) as W2.
  { apply within_set_ptes; [apply W1|]. intros x Hx. apply (insert_outside _ _ _ {[q]}); set_solver. }
  wp_apply (lock_create_spec s2); [apply W2|]. intros lk s3 [(-> & W3 & H3)|(l & Hpos & Hnd & W3 & Hl & Hheld & H3)].
  - simpl. wp_step. wp_apply (free_pte_spec q s3); [apply W3|done|rewrite H3; change (heap s2) with (heap s1); rewrite H1; set_solver|].
    intros _ s4 (W4 & H4 & _). wp_step. exists {[q]}. split_and!; [set_solver| |].
    + eapply within_trans; [wmono W1|]. eapply within_trans; [wmono W2|]. eapply within_trans; [wmono W3|wmono W4].
    + rewrite H4, H3. change (heap s2) with (heap s1). rewrite H1. by apply live_alloc_free.
  - change (heap s2) with (heap s1) in *. rewrite H1 in *. destruct l as [hd n w]. cbn [lk_name lk_wchan lk_held] in *. subst hd.
    pose proof Hpos as ((Hlk & _) & _)%Forall_cons. rewrite (proj2 (Z.eqb_neq lk 0)) by lia.
    wp_step. apply (wp_lock_acquire lk (Sleeplock false n w)); [done..|]. wp_step.
    pose proof (within_lock lk (Sleeplock true n w) s3 (wi_ok _ _ _ _ W3)) as W4.
    assert (forall x, x ∈ [lk; n; w] -> 0 < x /\ x <> q /\ x ∉ heap s) as Hx.
    { rewrite Forall_forall in Hpos. intros x Hx. destruct (Hpos x Hx) as [? Hn]. split_and!; [done|..]; set_solver. }
    exists n, w. split_and!.
    + split; [apply NoDup_cons; split; [intros Hin; by apply (Hx q) in Hin as (_ & ? & _)|done]|].
      apply Forall_cons. split; [done|]. apply Forall_forall. intros x Hin. by destruct (Hx x Hin) as (? & _ & ?).
    + eapply within_trans; [wmono W1|]. eapply within_trans; [wmono W2|]. eapply within_trans; [wmono W3|wmono W4].
    + vm_simpl. rewrite (wi_ptes _ _ _ _ W3).
      * unfold s2. vm_simpl. rewrite lookup_insert_eq. eauto.
      * rewrite elem_of_singleton. intros <-. by destruct (Hx q (list_elem_of_here _ _)) as (_ & ? & _).
    + apply lookup_insert_eq.
    + vm_simpl. rewrite H3. simpl. set_solver.
Qed.

(** Copying a resident page changes the target page and nothing else. *)
Lemma copy_contents_spec s as_ e f : entry_ok s as_ e -> 0 < pte_lock (en_pte e) ->
  wp (copy_contents (f * PAGE_SIZE) (en_pte e)) (fun _ s' =>
    s' = set_frames (partial_alter (fun _ => frames s !! Z.of_nat (en_frame e)) f (frames s)) s) s.
Proof.
  intros [_ Hl Hh Hst Hpa _ _] Hpos. unfold copy_contents.
  wp_step. apply (wp_lock_acquire _ (en_lock e)); [done..|]. rewrite Hst. wp_step. unfold copy_frame. wp_step.
  vm_simpl. rewrite Hpa.
  assert (forall k, k * PAGE_SIZE / PAGE_SIZE = k) as Hdiv by (intros; unfold PAGE_SIZE; zlia). rewrite !Hdiv.
  apply (wp_lock_release _ (Sleeplock true (lk_name (en_lock e)) (lk_wchan (en_lock e)))); [done|apply lookup_insert_eq|done|].
  vm_simpl. cbn [lk_name lk_wchan]. rewrite insert_insert_eq, insert_id; [by destruct s|].
  rewrite Hl. destruct (en_lock e). simpl in *. by subst.
Qed.
(** The entry [e'], with fresh blocks and a page that was nobody's, was
    appended to the page table of [d]; nothing else changed. *)
Record appended (s : vm) (as_ : Z) (d : space) (e' : entry) (s' : vm) : Prop := {
  ap_space : space_at s' as_ (space_snoc d e');
  ap_fresh : fresh_blocks s (en_blocks e');
  ap_within : within (list_to_set (link_cell as_ (sp_pt d) :: en_blocks e')) {[en_frame e']} s s';
  ap_heap : heap s' = list_to_set (en_blocks e') ∪ heap s;
  ap_new : forall p, coremap s !! en_frame e' = Some p -> ¬ user_page p;
}.

Lemma live_block s as_ d x : space_at s as_ d -> x ∈ blocks as_ d -> 0 < x /\ x ∈ heap s.
Proof. intros Hsp Hx. pose proof (sa_live _ _ _ Hsp) as Hlive. rewrite Forall_forall in Hlive. by apply Hlive. Qed.

Lemma fresh_not_block s as_ d l : space_at s as_ d -> fresh_blocks s l -> forall x, x ∈ blocks as_ d -> x ∉ l.
Proof.
  intros Hsp [_ Hfr] x Hx Hin. rewrite Forall_forall in Hfr. destruct (Hfr x Hin) as [_ Hn].
  by apply Hn, (live_block s as_ d).
Qed.

Lemma page_not_user s as_ d k : space_at s as_ d -> k ∈ pages d ->
  exists p, coremap s !! k = Some p /\ user_page p.
Proof.
  intros Hsp Hk. apply list_elem_of_fmap in Hk as (x & -> & Hin). pose proof (sa_entries _ _ _ Hsp) as Hen.
  rewrite Forall_forall in Hen. destruct (eo_page _ _ _ (Hen x Hin)) as (p & Hp & Hu & _). exists p. split; [done|by left].
Qed.

Lemma appended_intro s as_ d e' s' : space_at s as_ d -> fresh_blocks s (en_blocks e') ->
  within {[en_ptr e'; pte_lock (en_pte e'); link_cell as_ (sp_pt d)]} {[en_frame e']} s s' ->
  heap s' = list_to_set (en_blocks e') ∪ heap s ->
  (forall p, coremap s !! en_frame e' = Some p -> ¬ user_page p) ->
  linked_to s' as_ d (en_ptr e') -> entry_ok s' as_ e' -> pte_next (en_pte e') = 0 ->
  en_vpage e' ∉ en_vpage <$> sp_pt d -> appended s as_ d e' s'.
Proof.
  intros Hsp Hfr W Hheap Hnew Hlink He Hnext Hv. pose proof (fresh_not_block s as_ d _ Hsp Hfr) as Hsep.
  constructor; [|done| |done|done].
  - eapply (space_at_snoc _ _ s s'); [exact Hsp|exact W|..]; try done.
    + intros x Hx. specialize (Hsep x Hx). rewrite !elem_of_union, !elem_of_singleton.
      intros [[->| ->]|]; [..|done]; exfalso; apply Hsep; [apply list_elem_of_here|apply list_elem_of_further, list_elem_of_here].
    + intros k Hk Hk'. apply elem_of_singleton in Hk' as ->.
      destruct (page_not_user s as_ d _ Hsp Hk) as (p & Hp & Hu). by eapply Hnew.
    + intros x Hx. rewrite Hheap. apply elem_of_union. right. by apply (live_block s as_ d).
    + apply Hfr.
    + destruct Hfr as [_ Hfr]. rewrite Forall_forall in *. intros x Hx. destruct (Hfr x Hx). split_and!; [done| |].
      * rewrite Hheap. apply elem_of_union. left. by apply elem_of_list_to_set.
      * intros Hin. by apply (Hsep x).
  - eapply within_mono; [exact W| |done]. intros x. rewrite !elem_of_union, !elem_of_singleton, elem_of_list_to_set.
    unfold en_blocks. rewrite !elem_of_cons. tauto.
Qed.

(** A round of the copying loop that succeeded: the new entry [e'] maps the
    page of [e] to a page of its own with the same contents. *)
Record copied (s : vm) (newas : Z) (dn : space) (e e' : entry) (s' : vm) : Prop := {
  cp_appended : appended s newas dn e' s';
  cp_vpage : en_vpage e' = en_vpage e;
  cp_perm : vpage_permission (en_pte e') = vpage_permission (en_pte e);
  cp_data : frames s' !! Z.of_nat (en_frame e') = frames s !! Z.of_nat (en_frame e);
}.

(** A copy that failed: the new address space is gone with its blocks and
    pages; [L] are fresh blocks that were not given back. *)
Definition copy_failed (L : gset Z) (s : vm) (newas : Z) (dn : space) (s' : vm) : Prop :=
  exists F, (forall x, x ∈ F -> x ∉ heap s) /\ L ⊆ F /\
    within (F ∪ list_to_set (blocks newas dn)) (list_to_set (pages dn)) s s' /\
    heap s' = L ∪ (heap s ∖ list_to_set (blocks newas dn)) /\ spaces s' !! newas = None /\
    (forall k q, k ∈ pages dn -> coremap s' !! k = Some q -> ¬ user_page q).

Lemma destroy_after F L s s1 newas dn : space_at s newas dn -> within F ∅ s s1 ->
  (forall x, x ∈ F -> x ∉ heap s) -> L ⊆ F -> heap s1 = L ∪ heap s ->
  wp (as_destroy newas) (fun _ s' => copy_failed L s newas dn s') s1.
Proof.
  intros Hsp W HF HL Hh. assert (forall x, x ∈ blocks newas dn -> x ∉ F) as Hb.
  { intros x Hx Hin. pose proof (sa_live _ _ _ Hsp) as Hlive. rewrite Forall_forall in Hlive.
    destruct (Hlive x Hx) as [_ Hl]. by apply (HF x). }
  assert (space_at s1 newas dn) as Hsp1.
  { eapply space_at_within; [exact W|done|set_solver|set_solver|done]. }
  wp_apply (as_destroy_spec s1 newas dn); [apply W|done|]. intros _ s' (W' & Hh' & Hs' & Hfree).
  exists F. split_and!; [done|done| | |done|done].
  - eapply within_trans; [wmono W|wmono W'].
  - rewrite Hh', Hh. assert (L ## list_to_set (blocks newas dn)) as Hd.
    { intros x Hx Hx'. apply elem_of_list_to_set in Hx'. by eapply Hb, HL. }
    set_solver.
Qed.

Lemma link_pte_spec s as_ d q : cm_ok s -> spaces s !! as_ = Some (sp_as d) ->
  Forall (fun e => 0 < en_ptr e /\ ptes s !! en_ptr e = Some (en_pte e)) (sp_pt d) ->
  wp (link_pte as_ (last_ptr (sp_pt d)) q) (fun _ s' => linked_to s' as_ d q /\
    within {[link_cell as_ (sp_pt d)]} ∅ s s' /\ heap s' = heap s) s.
Proof.
  intros Hok Hs Hp. unfold link_pte, last_ptr, linked_to, link_cell. destruct (last (sp_pt d)) as [x|] eqn:E.
  - apply last_Some in E as [l' E]. rewrite E in Hp. apply Forall_app in Hp as [_ Hp]. apply Forall_cons in Hp as [[Hpos Hx] _].
    rewrite (proj2 (Z.eqb_neq _ 0)) by lia. wp_step. apply (wp_pte_at _ (en_pte x)); [done|].
    apply (wp_pte_put _ (en_pte x)); [done|]. split_and!; [done|apply lookup_insert_eq| |done].
    apply within_set_ptes; [done|]. intros y Hy. apply (insert_outside _ _ _ {[en_ptr x]}); set_solver.
  - simpl. wp_step. apply (wp_space_read _ (sp_as d)); [done|]. apply (wp_space_put _ (sp_as d)); [done|].
    split_and!; [apply lookup_insert_eq| |done].
    apply within_set_spaces; [done|]. intros y Hy. apply (insert_outside _ _ _ {[as_]}); set_solver.
Qed.

(** Entries of an address space whose blocks and pages a step left alone. *)
Lemma entries_raw X P s s' as_ d : within X P s s' -> (forall x, x ∈ blocks as_ d -> x ∉ X) ->
  space_at s as_ d ->
  Forall (fun e => 0 < en_ptr e /\ ptes s' !! en_ptr e = Some (en_pte e)) (sp_pt d) /\ spaces s' !! as_ = Some (sp_as d).
Proof.
  intros W HX Hsp. split.
  - pose proof (sa_entries _ _ _ Hsp) as He. pose proof (sa_live _ _ _ Hsp) as Hl.
    rewrite Forall_forall in He. rewrite Forall_forall in Hl. apply Forall_forall. intros e Hin. pose proof (pt_blocks_in_blocks _ as_ d (en_ptr_block e _ Hin)) as Hb.
    split; [by apply Hl|]. rewrite (wi_ptes _ _ _ _ W) by auto. apply (He e Hin).
  - rewrite (wi_spaces _ _ _ _ W) by apply HX, as_in_blocks. apply Hsp.
Qed.
Lemma within_set_frame g f s : cm_ok s -> 0 <= f ->
  within ∅ {[Z.to_nat f]} s (set_frames (partial_alter g f (frames s)) s).
Proof.
  intros Hok Hf. constructor; try done.
  - by apply (cm_ok_ext s); try done; apply (co_unlocked _ Hok).
  - intros k p Hk _ _. vm_simpl. apply lookup_partial_alter_ne. intros ->. set_solver.
Qed.

(** The rest of a round once the page is there: fill it, publish the
    entry. *)
Lemma copy_finish s s5 newas dn old_as e q lk n w f :
  space_at s newas dn -> entry_ok s old_as e -> (0 < pte_lock (en_pte e)) ->
  en_ptr e ∈ heap s -> pte_lock (en_pte e) ∈ heap s -> en_vpage e ∉ en_vpage <$> sp_pt dn ->
  fresh_blocks s [q; lk; n; w] -> within {[q; lk]} ∅ s s5 ->
  is_Some (ptes s5 !! q) -> locks s5 !! lk = Some (Sleeplock true n w) ->
  heap s5 = list_to_set [q; lk; n; w] ∪ heap s -> first_fit s5 1 f ->
  wp (copy_contents (f * PAGE_SIZE) (en_pte e) ;;;
      pte_put q (Pte (as_vpage (en_pte e)) (f * PAGE_SIZE) (vpage_permission (en_pte e)) MAPPED junk lk 0) ;;;
      lock_release lk ;;;
      link_pte newas (last_ptr (sp_pt dn)) q ;;;
      ret (@inr Z Z q)) (fun r s' => r = inr q /\ exists e', q = en_ptr e' /\ copied s newas dn e e' s')
    (ualloc_state s5 f newas (as_vpage (en_pte e)) true).
Proof.
  intros Hsp He Hlkpos Hpin Hlin Hv [Hnd Hfr] W5 Hq Hl Hh [Hf _].
  pose proof (fits_bound _ 1 f (wi_ok _ _ _ _ W5) ltac:(lia) Hf) as Hfb.
  set (vp := as_vpage (en_pte e)). set (s6 := ualloc_state s5 f newas vp true).
  pose proof (within_ualloc s5 f newas vp true (wi_ok _ _ _ _ W5) Hf) as W6. fold s6 in W6.
  assert (forall x, x ∈ [q; lk; n; w] -> 0 < x /\ x ∉ heap s) as Hfr' by (by apply Forall_forall).
  pose proof (fresh_not_block s newas dn _ Hsp (conj Hnd Hfr)) as Hsep.
  assert (lk <> q) as Hlkq by (apply NoDup_cons in Hnd as [Hn _]; intros ->; apply Hn, list_elem_of_here).
  assert (forall p, coremap s5 !! Z.to_nat f = Some p -> cp_state p = free) as Hfree.
  { intros p Hp. destruct Hf as (_ & _ & Hf). specialize (Hf f ltac:(lia)). unfold state_at in Hf.
    rewrite Hp in Hf. by injection Hf. }
  assert (entry_ok s5 old_as e) as He5.
  { assert (forall x, x ∈ heap s -> x ∉ ({[q; lk]} : gset Z)) as Hn.
    { intros x Hx Hin. destruct (Hfr' x) as [_ Hn]; [set_solver|done]. }
    eapply entry_ok_within; [exact W5|by apply Hn|by apply Hn|set_solver|done]. }
  assert (en_frame e <> Z.to_nat f) as Hef.
  { intros E. destruct (eo_page _ _ _ He5) as (p & Hp & Hu & _). rewrite E in Hp. specialize (Hfree p Hp). congruence. }
  assert (entry_ok s6 old_as e) as He6 by (eapply entry_ok_within; [exact W6|set_solver..|done]).
  wp_step. wp_apply (copy_contents_spec s6 old_as e f); [done..|]. intros _ s7 E7.
  pose proof (within_set_frame (fun _ => frames s6 !! Z.of_nat (en_frame e)) f s6 (wi_ok _ _ _ _ W6) ltac:(lia)) as W7.
  rewrite <- E7 in W7. destruct Hq as [pq Hq]. wp_step. apply (wp_pte_put _ pq); [rewrite E7; done|].
  set (s8 := set_ptes _ s7). assert (within {[q]} ∅ s7 s8) as W8.
  { apply within_set_ptes; [apply W7|]. intros x Hx. apply (insert_outside _ _ _ {[q]}); set_solver. }
  wp_step. apply (wp_lock_release lk (Sleeplock true n w)); [apply Hfr'; set_solver|unfold s8; rewrite E7; done|done|].
  cbn [lk_name lk_wchan]. pose proof (within_lock lk (Sleeplock false n w) s8 (wi_ok _ _ _ _ W8)) as W9.
  set (s9 := set_locks _ s8) in *. wp_step.
  assert (within {[q; lk]} {[Z.to_nat f]} s s9) as W59.
  { eapply within_trans; [wmono W5|]. eapply within_trans; [wmono W6|]. eapply within_trans; [wmono W7|].
    eapply within_trans; [wmono W8|wmono W9]. }
  assert (forall x, x ∈ blocks newas dn -> x ∉ ({[q; lk]} : gset Z)) as Hsep'.
  { intros x Hx Hin. eapply Hsep; [exact Hx|]. set_solver. }
  destruct (entries_raw _ _ s s9 newas dn W59 Hsep' Hsp) as [Hraw Hrs].
  wp_apply (link_pte_spec s9 newas dn q); [apply W9|done|done|]. intros _ s10 (Hlink & W10 & Hh10). wp_step.
  split; [done|].
  set (e' := Entry q (Pte vp (f * PAGE_SIZE) (vpage_permission (en_pte e)) MAPPED junk lk 0) (Sleeplock false n w)).
  assert (en_frame e' = Z.to_nat f) as Ef.
  { unfold en_frame. simpl. f_equal. unfold PAGE_SIZE. zlia. }
  exists e'. split; [done|].
  assert (heap s10 = list_to_set [q; lk; n; w] ∪ heap s) as Hheap.
  { rewrite Hh10. change (heap s9) with (heap s7). rewrite E7. done. }
  assert (link_cell newas (sp_pt dn) ∈ blocks newas dn) as Hlc by apply last_link_block.
  assert (coremap s7 !! Z.to_nat f = Some (CoremapPage 1 used newas vp false)) as Hc7.
  { rewrite E7. unfold s6, ualloc_state. vm_simpl. apply list_lookup_insert_eq.
    destruct Hf as (_ & Hhi & _). pose proof (co_len _ (wi_ok _ _ _ _ W5)). lia. }
  assert (entry_ok s10 newas e') as He'.
  { constructor; simpl.
    - rewrite (wi_ptes _ _ _ _ W10); [unfold s9, s8; vm_simpl; apply lookup_insert_eq|].
      rewrite elem_of_singleton. intros ->. eapply Hsep; [exact Hlc|set_solver].
    - rewrite (wi_locks _ _ _ _ W10); [apply lookup_insert_eq|].
      rewrite elem_of_singleton. intros ->. eapply Hsep; [exact Hlc|set_solver].
    - done.
    - done.
    - rewrite Ef. lia.
    - apply (eo_vaddr _ _ _ He).
    - rewrite Ef. exists (CoremapPage 1 used newas vp false). split; [|done].
      apply (wi_user _ _ _ _ W10); [set_solver|by left|]. apply Hc7. }
  constructor; [|done|done|].
  - apply appended_intro; try done; rewrite Ef.
    + eapply within_trans; [wmono W59|wmono W10].
    + intros p Hp Hu. apply (wi_user _ _ _ _ W5) in Hp; [|set_solver|done]. specialize (Hfree p Hp). destruct Hu; congruence.
  - rewrite Ef, Z2Nat.id by lia.
    rewrite (wi_frames _ _ _ _ W10 f _ ltac:(set_solver) (or_introl eq_refl : user_page (CoremapPage 1 used newas vp false))) by apply Hc7.
    change (frames s9) with (frames s7). rewrite E7. vm_simpl. rewrite lookup_partial_alter_eq.
    destruct (eo_page _ _ _ He5) as (p & Hp & Hu & _). rewrite <- (Nat2Z.id (en_frame e)) in Hp, Hef.
    rewrite (wi_frames _ _ _ _ W6 _ p); [|set_solver|by left|done].
    apply (wi_frames _ _ _ _ W5 _ p); [set_solver|by left|]. apply (wi_user _ _ _ _ W5); [set_solver|by left|done].
Qed.
(** One round of the copying loop. *)
Lemma copy_pte_spec s newas dn old_as d e :
  cm_ok s -> space_at s newas dn -> space_at s old_as d -> e ∈ sp_pt d ->
  en_vpage e ∉ en_vpage <$> sp_pt dn ->
  wp (copy_pte newas (last_ptr (sp_pt dn)) (en_ptr e)) (fun r s' =>
    match r with
    | inr q => exists e', q = en_ptr e' /\ copied s newas dn e e' s'
    | inl er => er = ENOMEM /\ exists L, copy_failed L s newas dn s'
    end) s.
Proof.
  intros Hok Hsp Hold He Hv. unfold copy_pte. wp_step. wp_apply (alloc_pte_spec s); [done|].
  intros [[q lk]|] s1; [|intros (F & HF & W & Hh)].
  2:{ wp_step. wp_apply (destroy_after F ∅ s s1 newas dn); [done..|set_solver|by rewrite Hh; set_solver|].
      intros _ s2 Hc. wp_step. eauto. }
  intros (n & w & Hfr & W1 & Hq & Hl & Hh).
  destruct (live_block s old_as d _ Hold (pt_blocks_in_blocks _ old_as d (en_ptr_block e _ He))) as [_ Hp1].
  destruct (live_block s old_as d _ Hold (pt_blocks_in_blocks _ old_as d (en_lock_block e _ He))) as [Hlkpos Hp2].
  pose proof (sa_entries _ _ _ Hold) as Hents. rewrite Forall_forall in Hents. specialize (Hents e He).
  assert (forall x, x ∈ [q; lk; n; w] -> 0 < x /\ x ∉ heap s) as Hfr' by (apply Forall_forall, Hfr).
  wp_step. apply (wp_pte_at _ (en_pte e)).
  { rewrite (wi_ptes _ _ _ _ W1); [apply Hents|]. intros Hin. apply (Hfr' (en_ptr e)); [set_solver|done]. }
  destruct Hq as [pq Hq]. wp_step. apply (wp_pte_put _ pq); [done|].
  set (s5 := set_ptes _ s1). assert (within {[q; lk]} ∅ s s5) as W5.
  { eapply within_trans; [exact W1|]. apply within_set_ptes; [apply W1|].
    intros x Hx. apply (insert_outside _ _ _ {[q; lk]}); set_solver. }
  wp_step. wp_apply (allocate_user_page_spec s5); [apply W5|].
  intros a s6 [Hok6 [(-> & -> & _)|(f & -> & Hff & ->)]].
  - cbn [Z.eqb]. wp_step. apply (wp_lock_release lk (Sleeplock true n w)); [apply Hfr'; set_solver|done|done|].
    cbn [lk_name lk_wchan]. pose proof (within_lock lk (Sleeplock false n w) s5 (wi_ok _ _ _ _ W5)) as W7.
    destruct Hfr as [Hnd Hfr]. pose proof Hnd as [Hn1 Hnd1]%NoDup_cons. set (s7 := set_locks _ s5) in *.
    wp_step. wp_apply (lock_destroy_spec lk (Sleeplock false n w) s7); [apply W7|apply lookup_insert_eq| |done|change (heap s7) with (heap s1); set_solver|].
    { apply Forall_forall. intros x Hx. apply (Hfr' x). by apply list_elem_of_further. }
    intros _ s8 (W8 & _ & H8). wp_step.
    wp_apply (destroy_after {[q; lk]} {[q]} s s8 newas dn); [done| |set_solver|set_solver| |].
    + eapply within_trans; [wmono W5|]. eapply within_trans; [wmono W7|wmono W8].
    + rewrite H8. change (heap s7) with (heap s1). rewrite Hh. cbn [lk_name lk_wchan].
      assert (forall x, x ∈ [lk; n; w] -> x ∉ heap s /\ x <> q) as Hx.
      { intros x Hx. split; [by apply (Hfr' x), list_elem_of_further|]. intros ->. done. }
      simpl. set_solver.
    + intros _ s9 Hc. wp_step. eauto.
  - rewrite (proj2 (Z.eqb_neq _ 0)); [|destruct Hff as [Hf _]; pose proof (fits_bound _ 1 f (wi_ok _ _ _ _ W5) ltac:(lia) Hf); unfold PAGE_SIZE; lia].
    wp_apply (copy_finish s s5 newas dn old_as e q lk n w f); try done.
    + unfold s5. vm_simpl. rewrite lookup_insert_eq. eauto.
    + intros r s' (-> & Hc). exact Hc.
Qed.
End copy.

(** * [as_copy] as a whole

    The loops over the page table and the regions, and the address space
    they leave. *)

(** The copy [e'] in [s'] of the entry [e] in [s]: the same page, the same
    contents. *)
Definition same_page (s s' : vm) (e e' : entry) : Prop :=
  en_vpage e' = en_vpage e /\ vpage_permission (en_pte e') = vpage_permission (en_pte e) /\
  frames s' !! Z.of_nat (en_frame e') = frames s !! Z.of_nat (en_frame e).

Definition same_region (r r' : Z * region) : Prop :=
  rg_start r'.2 = rg_start r.2 /\ rg_size r'.2 = rg_size r.2 /\ rg_npages r'.2 = rg_npages r.2 /\
  rg_read r'.2 = rg_read r.2 /\ rg_write r'.2 = rg_write r.2 /\ rg_execute r'.2 = rg_execute r.2.

(** From [s0], the address space [newas] (one of the blocks of [s0]) grew to
    [dn]: the entries [l] and the regions [rl] have been copied. *)
Record copying (s0 : vm) (newas : Z) (dn : space) (l : list entry) (rl : list (Z * region)) (s1 : vm) : Prop := {
  cy_space : space_at s1 newas dn;
  cy_pages : Forall2 (same_page s0 s1) l (sp_pt dn);
  cy_regions : Forall2 same_region rl (sp_rg dn);
  cy_within : within (list_to_set (blocks newas dn)) (list_to_set (pages dn)) s0 s1;
  cy_heap : heap s1 = list_to_set (blocks newas dn) ∪ heap s0;
  cy_fresh : forall x, x ∈ blocks newas dn -> x = newas \/ x ∉ heap s0;
  cy_new : forall k p, k ∈ pages dn -> coremap s0 !! k = Some p -> ¬ user_page p;
}.

(** An address space of [s0] other than the new one is as it was. *)
Lemma copying_keeps s0 newas dn l rl s1 as_ d : copying s0 newas dn l rl s1 ->
  space_at s0 as_ d -> newas ∉ blocks as_ d -> space_at s1 as_ d.
Proof.
  intros C Hsp Hne. eapply space_at_within; [apply (cy_within _ _ _ _ _ _ C)|..|exact Hsp].
  - intros x Hx Hin. apply elem_of_list_to_set in Hin. destruct (live_block _ _ _ _ Hsp Hx).
    destruct (cy_fresh _ _ _ _ _ _ C x Hin) as [->|]; done.
  - intros k Hk Hin. apply elem_of_list_to_set in Hin. destruct (page_not_user _ _ _ _ Hsp Hk) as (p & Hp & Hu).
    by eapply (cy_new _ _ _ _ _ _ C).
  - intros x _ Hx. rewrite (cy_heap _ _ _ _ _ _ C). set_solver.
Qed.

Lemma Forall2_impl_elem {A B} (P Q : A -> B -> Prop) l k :
  Forall2 P l k -> (forall x y, x ∈ l -> y ∈ k -> P x y -> Q x y) -> Forall2 Q l k.
Proof. induction 1; intros HPQ; constructor; set_solver. Qed.

Lemma pt_snoc_Forall2 {A} (P : A -> entry -> Prop) la l a e' :
  Forall2 P la l -> P a e' -> (forall x y q, P x y -> P x (set_next_entry q y)) -> Forall2 P (la ++ [a]) (pt_snoc l e').
Proof.
  intros Hf He Hset. destruct l as [|y l _] using rev_ind.
  - apply Forall2_nil_inv_r in Hf as ->. by repeat constructor.
  - rewrite pt_snoc_app. apply Forall2_app_inv_r in Hf as (l1 & l2 & H1 & H2 & ->).
    apply Forall2_cons_inv_r in H2 as (x & l2' & Hx & H2 & ->). apply Forall2_nil_inv_r in H2 as ->.
    rewrite <- app_assoc. apply Forall2_app; [done|]. by repeat constructor; [apply Hset|].
Qed.

Lemma rg_snoc_Forall2 {A} (P : A -> Z * region -> Prop) la l a q r :
  Forall2 P la l -> P a (q, r) -> (forall x p y q, P x (p, y) -> P x (p, set_rnext q y)) -> Forall2 P (la ++ [a]) (rg_snoc l q r).
Proof.
  intros Hf He Hset. destruct l as [|[p y] l _] using rev_ind.
  - apply Forall2_nil_inv_r in Hf as ->. by repeat constructor.
  - rewrite rg_snoc_app. apply Forall2_app_inv_r in Hf as (l1 & l2 & H1 & H2 & ->).
    apply Forall2_cons_inv_r in H2 as (x & l2' & Hx & H2 & ->). apply Forall2_nil_inv_r in H2 as ->.
    rewrite <- app_assoc. apply Forall2_app; [done|]. by repeat constructor; [apply Hset|].
Qed.

(** A successful round extends the copy. *)
Lemma copying_step s0 newas dn l rl s1 e e' s2 as_ d : copying s0 newas dn l rl s1 ->
  space_at s0 as_ d -> e ∈ sp_pt d -> copied s1 newas dn e e' s2 -> newas ∈ heap s0 -> newas ∉ blocks as_ d ->
  copying s0 newas (space_snoc dn e') (l ++ [e]) rl s2.
Proof.
  intros C Hsp He [[Hs2 Hfr W Hh Hnew] Hv Hperm Hdata] Hnin Hne.
  pose proof (copying_keeps _ _ _ _ _ _ _ _ C Hsp Hne) as Hsp1. destruct C as [Cs Cp Cr Cw Ch Cf Cn].
  assert (forall k, Z.to_nat k ∈ pages dn -> 0 <= k -> frames s2 !! k = frames s1 !! k) as Hkeep.
  { intros k Hk H0k. destruct (page_not_user _ _ _ _ Cs Hk) as (p & Hp & Hu).
    apply (wi_frames _ _ _ _ W k p); [|done|done]. rewrite elem_of_singleton. intros E. apply (Hnew p); [by rewrite <- E|done]. }
  constructor; [done|..].
  - apply pt_snoc_Forall2; [|split_and!; try done|naive_solver].
    + eapply Forall2_impl_elem; [exact Cp|]. intros x y _ Hy (Hxv & Hxp & Hxf). split_and!; [done..|].
      rewrite Hkeep, <- Hxf; [done|rewrite Nat2Z.id; apply list_elem_of_fmap; eauto|lia].
    + rewrite Hdata. destruct (page_not_user _ _ _ (en_frame e) Hsp) as (p & Hp & Hu); [apply list_elem_of_fmap; eauto|].
      apply (wi_frames _ _ _ _ Cw _ p); [|done|by rewrite Nat2Z.id]. rewrite Nat2Z.id, elem_of_list_to_set.
      intros Hin. by eapply Cn.
  - unfold space_snoc. done.
  - eapply within_trans; (eapply within_mono; [eassumption|..]).
    + intros x. rewrite !elem_of_list_to_set, blocks_snoc. set_solver.
    + intros x. rewrite !elem_of_list_to_set, pages_snoc. set_solver.
    + intros x. rewrite !elem_of_list_to_set, blocks_snoc, elem_of_app, elem_of_cons. intros [->|]; [|by right].
      left. apply last_link_block.
    + intros x. rewrite elem_of_list_to_set, pages_snoc. set_solver.
  - rewrite Hh, Ch, (list_to_set_perm_L _ _ (blocks_snoc newas dn e')), list_to_set_app_L.
    by rewrite (assoc_L (∪)), (comm_L (∪) (list_to_set (en_blocks e'))).
  - intros x. rewrite blocks_snoc, elem_of_app. intros [Hx|Hx]; [by apply Cf|]. right.
    destruct Hfr as [_ Hfr]. rewrite Forall_forall in Hfr. destruct (Hfr x Hx) as [_ Hn]. rewrite Ch in Hn. set_solver.
  - intros k p. rewrite pages_snoc, elem_of_app. intros [Hk|Hk]; [by apply Cn|]. apply list_elem_of_singleton in Hk as ->.
    intros Hp Hu. destruct (decide (en_frame e' ∈ pages dn)) as [Hin|Hin]; [by eapply Cn|].
    apply (wi_user _ _ _ _ Cw) in Hp; [by apply (Hnew p)|by rewrite elem_of_list_to_set|done].
Qed.

(** What a failed copy leaves, seen from before the new address space was
    created: its blocks and pages are back, up to the leak [L]. *)
Definition copy_undone (L : gset Z) (s s' : vm) : Prop :=
  exists F P, (forall x, x ∈ F -> x ∉ heap s) /\ L ⊆ F /\ within F P s s' /\ heap s' = L ∪ heap s /\
    (forall k p, k ∈ P -> coremap s !! k = Some p -> ¬ user_page p) /\
    (forall k p, k ∈ P -> coremap s' !! k = Some p -> ¬ user_page p).

(** [s0] is the state after [as_create]: [newas] is its new block. *)
Definition created (s : vm) (newas : Z) (s0 : vm) : Prop :=
  0 < newas /\ newas ∉ heap s /\ within {[newas]} ∅ s s0 /\ heap s0 = {[newas]} ∪ heap s.

Lemma copying_failed s newas s0 dn l rl s1 L s2 : created s newas s0 ->
  copying s0 newas dn l rl s1 -> copy_failed L s1 newas dn s2 -> copy_undone L s s2.
Proof.
  intros (Hpos & Hnew & W0 & H0) [Cs _ _ Cw Ch Cf Cn] (F & HF & HL & W & Hh & _ & Hfree).
  assert (forall x, x ∈ F ∪ list_to_set (blocks newas dn) -> x ∉ heap s) as HFs.
  { intros x [Hx|Hx]%elem_of_union.
    - specialize (HF x Hx). rewrite Ch, H0 in HF. set_solver.
    - apply elem_of_list_to_set, Cf in Hx as [->|Hx]; [done|]. rewrite H0 in Hx. set_solver. }
  exists (F ∪ list_to_set (blocks newas dn)), (list_to_set (pages dn)). split_and!; [done|set_solver| | |..].
  - eapply within_trans; [|exact W]. eapply within_trans; (eapply within_mono; [eassumption|..]); try done.
    + intros x ->%elem_of_singleton. apply elem_of_union_r, elem_of_list_to_set, as_in_blocks.
    + apply union_subseteq_r.
  - rewrite Hh, Ch, H0. f_equal. apply set_eq. intros x. rewrite elem_of_difference, !elem_of_union, elem_of_singleton.
    assert (x ∈ heap s -> x ∉ (list_to_set (blocks newas dn) : gset Z)) as H1.
    { intros Hx Hin. eapply HFs; [apply elem_of_union_r; exact Hin|done]. }
    assert (newas ∈ (list_to_set (blocks newas dn) : gset Z)) as H2 by apply elem_of_list_to_set, as_in_blocks.
    naive_solver.
  - intros k p Hk Hp Hu. apply elem_of_list_to_set in Hk. apply (wi_user _ _ _ _ W0) in Hp; [by eapply Cn|set_solver|done].
  - intros k p Hk. apply elem_of_list_to_set in Hk. by apply Hfree.
Qed.

Section clone.
Context `{VmHeap} `{SwapDevice}.

Lemma copying_start s newas s0 : created s newas s0 -> space_at s0 newas (Space (Addrspace 0 0 0 0) [] []) ->
  copying s0 newas (Space (Addrspace 0 0 0 0) [] []) [] [] s0.
Proof.
  intros (Hpos & Hnew & W0 & Hh0) Hsp. constructor; try done; try (by constructor).
  - eapply within_mono; [apply within_refl, W0|set_solver..].
  - unfold blocks. simpl. rewrite Hh0. set_solver.
  - intros x Hx. left. by apply list_elem_of_singleton in Hx.
  - intros k p Hk. by apply not_elem_of_nil in Hk.
Qed.

Lemma copying_vpages s0 newas dn l rl s1 : copying s0 newas dn l rl s1 -> en_vpage <$> sp_pt dn = en_vpage <$> l.
Proof. intros [_ Cp _ _ _ _ _]. induction Cp as [|e e' l k (Hv & _) _ IH]; [done|]. rewrite !fmap_cons. by rewrite IH, Hv. Qed.

Lemma copy_ptes_spec s newas s0 old_as d :
  created s newas s0 -> space_at s0 newas (Space (Addrspace 0 0 0 0) [] []) ->
  space_at s0 old_as d -> newas ∉ blocks old_as d ->
  wp (copy_ptes newas (start_page_table (sp_as d))) (fun r s' =>
    match r with
    | None => exists dn, sp_rg dn = [] /\ copying s0 newas dn (sp_pt d) [] s'
    | Some er => er = ENOMEM /\ exists L, copy_undone L s s'
    end) s0.
Proof.
  intros Hcr Hnew Hold Hne. unfold copy_ptes. wp_steps. pose proof Hcr as (Hpos & _ & W0 & Hh0).
  eapply (wp_loop_list _ (sp_pt d) _ _ (fun l2 c s1 => exists l1 dn, sp_pt d = l1 ++ l2 /\ pt_links c.1 l2 /\
    c.2 = last_ptr (sp_pt dn) /\ sp_rg dn = [] /\ copying s0 newas dn l1 [] s1)).
  - exists [], (Space (Addrspace 0 0 0 0) [] []). split_and!; try done; [apply Hold|by eapply copying_start].
  - apply (pt_fuel s0 old_as); [|apply Hold]. pose proof (sa_nodup _ _ _ Hold) as [_ Hnd]%NoDup_cons.
    by apply NoDup_app in Hnd as [? _].
  - intros l2 [p lst] s1 (l1 & dn & Epd & Hlinks & El & Hrg & C). cbn [fst snd] in *. subst lst.
    destruct l2 as [|e l2]; simpl in Hlinks.
    { subst p. rewrite Z.eqb_refl. wp_step. exists dn. rewrite app_nil_r in Epd. by rewrite Epd. }
    destruct Hlinks as [-> Hlinks]. assert (e ∈ sp_pt d) as He by (rewrite Epd; apply elem_of_app; right; apply list_elem_of_here).
    destruct (live_block _ _ _ _ Hold (pt_blocks_in_blocks _ old_as d (en_ptr_block e _ He))) as [Hep _].
    rewrite (proj2 (Z.eqb_neq (en_ptr e) 0)) by lia.
    pose proof (copying_keeps _ _ _ _ _ _ _ _ C Hold Hne) as Hold1. wp_step.
    wp_apply (copy_pte_spec s1 newas dn old_as d e); [apply (cy_within _ _ _ _ _ _ C)|apply C|done|done|..].
    { rewrite (copying_vpages _ _ _ _ _ _ C). pose proof (sa_vpages _ _ _ Hold) as Hv. rewrite Epd, fmap_app in Hv.
      simpl in Hv. by apply NoDup_mid in Hv as (? & _ & _). }
    intros [er|q] s2 Hr; [destruct Hr as (-> & L & Hf); wp_step; split; [done|]; exists L; by eapply copying_failed|].
    destruct Hr as (e' & -> & Hc).
    assert (copying s0 newas (space_snoc dn e') (l1 ++ [e]) [] s2) as C2.
    { eapply copying_step; [exact C|exact Hold|done|done|rewrite Hh0; set_solver|done]. }
    pose proof (copying_keeps _ _ _ _ _ _ _ _ C2 Hold Hne) as Hold2.
    pose proof (sa_entries _ _ _ Hold2) as Hents. rewrite Forall_forall in Hents.
    wp_step. apply (wp_pte_at _ (en_pte e)); [apply (Hents e He)|]. wp_step. exists e, l2. split; [done|].
    exists (l1 ++ [e]), (space_snoc dn e'). cbn [fst snd]. split_and!; try done.
    + by rewrite <- app_assoc.
    + unfold space_snoc, last_ptr. cbn [sp_pt]. destruct (sp_pt dn) as [|x k _] using rev_ind; [done|].
      by rewrite pt_snoc_app, last_app.
Qed.
(** ** Regions *)

(** The fresh region [q] was appended to the list of [d]. *)
Record rappended (s : vm) (as_ : Z) (d : space) (q : Z) (r : region) (s' : vm) : Prop := {
  ra_space : space_at s' as_ (space_rsnoc d q r);
  ra_fresh : 0 < q /\ q ∉ heap s;
  ra_within : within {[q; rlink_cell as_ (sp_rg d)]} ∅ s s';
  ra_heap : heap s' = {[q]} ∪ heap s;
}.

Lemma rappended_intro s s1 as_ d q r s' : space_at s as_ d -> within ∅ ∅ s s1 -> 0 < q -> q ∉ heap s ->
  heap s1 = {[q]} ∪ heap s -> rg_next r = 0 ->
  within {[q; rlink_cell as_ (sp_rg d)]} ∅ s1 s' -> heap s' = heap s1 ->
  rlinked_to s' as_ d q -> regions s' !! q = Some r -> rappended s as_ d q r s'.
Proof.
  intros Hsp W1 Hq Hnew Hh1 Hn W Hh Hlink Hr.
  assert (within {[q; rlink_cell as_ (sp_rg d)]} ∅ s s') as Ws by (eapply within_trans; [wmono W1|done]).
  assert (q ∉ blocks as_ d) as Hqb by (intros Hin; by destruct (live_block _ _ _ _ Hsp Hin)).
  constructor; [|done|done|by rewrite Hh].
  eapply (space_at_rsnoc _ s s'); [exact Hsp|exact Ws|..]; try done.
  - intros x Hx. rewrite elem_of_union, !elem_of_singleton. intros [->|]; done.
  - intros x Hx. rewrite Hh, Hh1. apply elem_of_union_r. by apply (live_block s as_ d).
  - rewrite Hh, Hh1. set_solver.
Qed.

(** Writing the new region and linking it. *)
Lemma link_region_spec s s1 as_ d q r : space_at s as_ d -> within ∅ ∅ s s1 -> 0 < q -> q ∉ heap s ->
  heap s1 = {[q]} ∪ heap s -> rg_next r = 0 ->
  wp (link_region as_ (last_region (sp_rg d)) q) (fun _ s' => rappended s as_ d q r s')
    (set_regions (<[q := r]> (regions s1)) s1).
Proof.
  intros Hsp W1 Hq Hnew Hh1 Hn. assert (q ∉ blocks as_ d) as Hqb by (intros Hin; by destruct (live_block _ _ _ _ Hsp Hin)).
  pose proof (rlink_block as_ d) as Hlc.
  assert (space_at s1 as_ d) as Hsp1.
  { eapply space_at_within; [exact W1|set_solver|set_solver|rewrite Hh1; set_solver|exact Hsp]. }
  set (s2 := set_regions _ s1). assert (within {[q]} ∅ s1 s2) as W2.
  { apply within_set_regions; [apply W1|]. intros x Hx. apply (insert_outside _ _ _ {[q]}); set_solver. }
  unfold link_region, last_region. unfold rlink_cell in Hlc.
  destruct (last (sp_rg d)) as [[p x]|] eqn:E.
  - pose proof E as [l' E']%last_Some. destruct (live_block _ _ _ _ Hsp Hlc) as [Hp _].
    pose proof (sa_regions _ _ _ Hsp1) as Hrg. rewrite E' in Hrg. apply Forall_app in Hrg as [_ [Hx _]%Forall_cons].
    assert (regions s2 !! p = Some x) as Hx2.
    { unfold s2. vm_simpl. rewrite lookup_insert_ne; [done|]. intros ->. done. }
    rewrite (proj2 (Z.eqb_neq _ 0)) by lia. wp_step. apply (wp_region_at _ x); [done|]. apply (wp_region_put _ x); [done|].
    eapply (rappended_intro s s1); try done.
    + eapply within_trans; [wmono W2|]. apply within_set_regions; [apply W2|]. intros y Hy.
      apply (insert_outside _ _ _ {[q; rlink_cell as_ (sp_rg d)]}); [|done]. unfold rlink_cell. rewrite E. set_solver.
    + unfold rlinked_to. rewrite E. split; [apply Hsp1|apply lookup_insert_eq].
    + vm_simpl. rewrite lookup_insert_ne by (intros ->; done). apply lookup_insert_eq.
  - simpl. wp_step. apply (wp_space_read _ (sp_as d)); [apply Hsp1|]. apply (wp_space_put _ (sp_as d)); [apply Hsp1|].
    eapply (rappended_intro s s1); try done.
    + eapply within_trans; [wmono W2|]. apply within_set_spaces; [apply W2|]. intros y Hy.
      apply (insert_outside _ _ _ {[q; rlink_cell as_ (sp_rg d)]}); [|done]. unfold rlink_cell. rewrite E. set_solver.
    + unfold rlinked_to. rewrite E. apply lookup_insert_eq.
    + apply lookup_insert_eq.
Qed.

Lemma copying_rstep s0 newas dn l rl s1 x q r s2 : copying s0 newas dn l rl s1 ->
  rappended s1 newas dn q r s2 -> same_region x (q, r) ->
  copying s0 newas (space_rsnoc dn q r) l (rl ++ [x]) s2.
Proof.
  intros [Cs Cp Cr Cw Ch Cf Cn] [Hs2 [Hq Hnew] W Hh] Hsame. constructor; [done|..].
  - eapply Forall2_impl_elem; [exact Cp|]. intros e e' _ Hin (Hv & Hpm & Hf). split_and!; [done..|]. rewrite <- Hf.
    destruct (page_not_user _ _ _ (en_frame e') Cs) as (p & Hp & Hu); [apply list_elem_of_fmap; eauto|].
    apply (wi_frames _ _ _ _ W _ p); [set_solver|done|by rewrite Nat2Z.id].
  - apply rg_snoc_Forall2; done.
  - eapply within_trans; (eapply within_mono; [eassumption|..]); try done.
    + intros y. rewrite blocks_rsnoc, list_to_set_app_L. apply elem_of_union_l.
    + intros y. rewrite blocks_rsnoc, list_to_set_app_L, !elem_of_union, !elem_of_singleton. intros [->| ->].
      * right. simpl. set_solver.
      * left. apply elem_of_list_to_set, rlink_block.
  - rewrite Hh, Ch, blocks_rsnoc, list_to_set_app_L, (assoc_L (∪)), (comm_L (∪) {[q]}). f_equal. f_equal. simpl. by rewrite right_id_L by apply _.
  - intros y. rewrite blocks_rsnoc, elem_of_app. intros [Hy|Hy]; [by apply Cf|]. apply list_elem_of_singleton in Hy as ->.
    right. rewrite Ch in Hnew. set_solver.
  - exact Cn.
Qed.

Lemma copy_regions_spec s newas s0 old_as d dn0 s1 :
  created s newas s0 -> space_at s0 old_as d -> newas ∉ blocks old_as d ->
  sp_rg dn0 = [] -> copying s0 newas dn0 (sp_pt d) [] s1 ->
  wp (copy_regions newas (start_region (sp_as d))) (fun r s' =>
    match r with
    | None => exists dn, copying s0 newas dn (sp_pt d) (sp_rg d) s'
    | Some er => er = ENOMEM /\ exists L, copy_undone L s s'
    end) s1.
Proof.
  intros Hcr Hold Hne Hrg0 C0. unfold copy_regions. wp_steps.
  pose proof (copying_keeps _ _ _ _ _ _ _ _ C0 Hold Hne) as Hold1.
  eapply (wp_loop_list _ (sp_rg d) _ _ (fun l2 c s2 => exists l1 dn, sp_rg d = l1 ++ l2 /\ rg_links c.1 l2 /\
    c.2 = last_region (sp_rg dn) /\ copying s0 newas dn (sp_pt d) l1 s2)).
  - exists [], dn0. rewrite Hrg0. split_and!; try done. apply Hold.
  - apply rg_fuel; [|apply Hold1]. pose proof (sa_nodup _ _ _ Hold) as [_ Hnd]%NoDup_cons.
    by apply NoDup_app in Hnd as (_ & _ & ?).
  - clear s1 C0 Hold1. intros l2 [p lst] s1 (l1 & dn & Erg & Hlinks & El & C). cbn [fst snd] in *. subst lst.
    destruct l2 as [|[p' x] l2]; simpl in Hlinks.
    { subst p. rewrite Z.eqb_refl. wp_step. exists dn. rewrite app_nil_r in Erg. by rewrite Erg. }
    destruct Hlinks as [-> Hlinks]. assert ((p', x) ∈ sp_rg d) as Hx by (rewrite Erg; apply elem_of_app; right; apply list_elem_of_here).
    destruct (live_block _ _ _ _ Hold (region_in_blocks p' x old_as d Hx)) as [Hp' Hl'].
    rewrite (proj2 (Z.eqb_neq p' 0)) by lia. wp_step. pose proof (wi_ok _ _ _ _ (cy_within _ _ _ _ _ _ C)) as Hok1.
    wp_apply (vm_kmalloc_spec _ s1); [done|].
    intros q s2 [K [[-> Hh]|(Hq & Hnew & Hh)]]; pose proof (within_kernel _ _ Hok1 K) as W2.
    { rewrite Z.eqb_refl. wp_step. wp_apply (destroy_after ∅ ∅ s1 s2 newas dn); [apply C|done|set_solver|done|rewrite Hh; set_solver|].
      intros _ s3 Hf. wp_step. split; [done|]. exists ∅. by eapply copying_failed. }
    rewrite (proj2 (Z.eqb_neq q 0)) by lia. wp_step.
    pose proof (copying_keeps _ _ _ _ _ _ _ _ C Hold Hne) as Hold1.
    pose proof (sa_regions _ _ _ Hold1) as Hrg. rewrite Forall_forall in Hrg. specialize (Hrg _ Hx). cbn in Hrg.
    apply (wp_region_at _ x); [by rewrite (wi_regions _ _ _ _ W2) by set_solver|]. do 3 wp_step.
    wp_apply (link_region_spec s1 s2 newas dn q); [apply C|done..|]. intros _ s3 Hra. wp_step.
    exists (p', x), l2. split; [done|]. exists (l1 ++ [(p', x)]), (space_rsnoc dn q (set_rnext 0 x)).
    cbn [fst snd]. split_and!.
    + by rewrite <- app_assoc.
    + done.
    + unfold space_rsnoc, last_region. cbn [sp_rg]. destruct (sp_rg dn) as [|[p2 x2] k _] using rev_ind; [done|].
      by rewrite rg_snoc_app, last_app.
    + eapply copying_rstep; [exact C|exact Hra|done].
Qed.
(** Changing only the heap bounds of an address space. *)
Lemma space_at_bounds s as_ d hs he : cm_ok s -> space_at s as_ d ->
  let a := Addrspace (start_region (sp_as d)) (start_page_table (sp_as d)) hs he in
  space_at (set_spaces (<[as_ := a]> (spaces s)) s) as_ (Space a (sp_pt d) (sp_rg d)).
Proof. intros Hok [Hs Hl Hr Hnd Hlive Hv Hents Hrg] a. constructor; try done; [apply lookup_insert_eq|].
  eapply Forall_impl; [exact Hents|]. intros e []. by constructor.
Qed.

(** The address space [dn] at [newas] is a copy of [d] with blocks and pages
    of its own. *)
Record cloned (s : vm) (d : space) (newas : Z) (dn : space) (s' : vm) : Prop := {
  cl_space : space_at s' newas dn;
  cl_pages : Forall2 (same_page s s') (sp_pt d) (sp_pt dn);
  cl_regions : Forall2 same_region (sp_rg d) (sp_rg dn);
  cl_bounds : heap_start (sp_as dn) = heap_start (sp_as d) /\ heap_end (sp_as dn) = heap_end (sp_as d);
  cl_within : within (list_to_set (blocks newas dn)) (list_to_set (pages dn)) s s';
  cl_heap : heap s' = list_to_set (blocks newas dn) ∪ heap s;
  cl_fresh : forall x, x ∈ blocks newas dn -> x ∉ heap s;
  cl_new : forall k p, k ∈ pages dn -> coremap s !! k = Some p -> ¬ user_page p;
}.

Lemma cloned_intro s newas s0 d dn s1 : created s newas s0 ->
  (forall k, k ∈ pages d -> exists p, coremap s !! k = Some p /\ user_page p) ->
  copying s0 newas dn (sp_pt d) (sp_rg d) s1 ->
  let a := Addrspace (start_region (sp_as dn)) (start_page_table (sp_as dn)) (heap_start (sp_as d)) (heap_end (sp_as d)) in
  cloned s d newas (Space a (sp_pt dn) (sp_rg dn)) (set_spaces (<[newas := a]> (spaces s1)) s1).
Proof.
  intros (Hpos & Hnew & W0 & Hh0) Hpg [Cs Cp Cr Cw Ch Cf Cn] a.
  assert (newas ∈ (list_to_set (blocks newas dn) : gset Z)) as Hin by apply elem_of_list_to_set, as_in_blocks.
  constructor; try done.
  - by apply space_at_bounds; [apply Cw|].
  - eapply Forall2_impl_elem; [exact Cp|]. intros e e' He _ (Hv & Hpm & Hf). split_and!; [done..|].
    vm_simpl. rewrite Hf. destruct (Hpg (en_frame e)) as (p & Hp & Hu); [apply list_elem_of_fmap; eauto|].
    apply (wi_frames _ _ _ _ W0 _ p); [set_solver|done|by rewrite Nat2Z.id].
  - eapply within_trans; [eapply within_mono; [exact W0|set_solver..]|]. eapply within_trans; [exact Cw|].
    eapply within_mono; [apply (within_set_spaces {[newas]}); [apply Cw|]|set_solver..].
    intros x Hx. apply (insert_outside _ _ _ {[newas]}); set_solver.
  - vm_simpl. rewrite Ch, Hh0, (assoc_L (∪)). f_equal.
    change (blocks newas (Space a (sp_pt dn) (sp_rg dn))) with (blocks newas dn). set_solver.
  - intros x Hx. destruct (Cf x Hx) as [->|Hn]; [done|]. rewrite Hh0 in Hn. set_solver.
  - intros k p Hk Hp Hu. apply (wi_user _ _ _ _ W0) in Hp; [by eapply Cn|set_solver|done].
Qed.

Lemma as_copy_spec s as_ d : cm_ok s -> space_at s as_ d ->
  wp (as_copy as_) (fun r s' =>
    match r with
    | inr newas => exists dn, cloned s d newas dn s'
    | inl er => er = ENOMEM /\ exists L, copy_undone L s s'
    end) s.
Proof.
  intros Hok Hsp. unfold as_copy. wp_step. wp_apply as_create_spec; [done|].
  intros newas s0 [(-> & W & Hh)|([_ Hfr] & W0 & Hh0 & Hnew)].
  { rewrite Z.eqb_refl. wp_step. split; [done|]. exists ∅, ∅, ∅. split_and!; try set_solver. }
  apply Forall_singleton in Hfr as [Hpos Hfr]. rewrite (proj2 (Z.eqb_neq _ 0)) by lia.
  assert (created s newas s0) as Hcr by done.
  assert (newas ∉ blocks as_ d) as Hne by (intros Hin; by destruct (live_block _ _ _ _ Hsp Hin)).
  assert (space_at s0 as_ d) as Hsp0.
  { eapply space_at_within; [exact W0|set_solver|set_solver|rewrite Hh0; set_solver|exact Hsp]. }
  wp_step. apply (wp_space_read _ (sp_as d)); [apply Hsp0|]. wp_step.
  wp_apply (copy_ptes_spec s newas s0 as_ d); [done..|]. intros [er|] s1 Hr; [by wp_step|].
  destruct Hr as (dn0 & Hrg0 & C0). wp_step. wp_apply (copy_regions_spec s newas s0 as_ d dn0 s1); [done..|].
  intros [er|] s2 Hr; [by wp_step|]. destruct Hr as (dn & C). pose proof (cy_space _ _ _ _ _ _ C) as Cs.
  wp_step. apply (wp_space_read _ (sp_as dn)); [apply Cs|]. wp_step. apply (wp_space_put _ (sp_as dn)); [apply Cs|].
  wp_step. eexists. eapply cloned_intro; [exact Hcr| |exact C]. intros k. by apply (page_not_user s as_ d).
Qed.
End clone.
