(* ===== verification/VmInv.v ===== *)
(** * The system invariant under the address space operations

    One lemma moves the system invariant across any operation on one address
    space; the theorems about creating, copying and destroying address
    spaces follow. *)

From S2P Require Import Prelude KHeap Bitmap VmState Coremap VmHeap Swap AddrSpace SpaceInv VmExample SpaceOps SpaceCopy.

(** A block (a page) of the address space [as_] itself. *)
Definition own_block (A : gmap Z space) (as_ x : Z) : Prop := exists d, A !! as_ = Some d /\ x ∈ blocks as_ d.
Definition own_page (A : gmap Z space) (as_ : Z) (k : nat) : Prop := exists d, A !! as_ = Some d /\ k ∈ pages d.

(** An operation on [as_] that touches only blocks and pages that were
    nobody's or its own, and after which the address space is [d'] ([None]
    when it is gone), keeps the invariant. *)
Lemma vm_inv_replace A s s' as_ d' X P :
  vm_inv A s -> within X P s s' ->
  (forall x, x ∈ X -> x ∉ heap s \/ own_block A as_ x) ->
  (forall k p, k ∈ P -> coremap s !! k = Some p -> user_page p -> own_page A as_ k) ->
  (forall x, x ∈ heap s -> x ∈ heap s' \/ own_block A as_ x) ->
  match d' with
  | Some d => space_at s' as_ d /\ (forall x, x ∈ blocks as_ d -> x ∉ heap s \/ own_block A as_ x)
  | None => True
  end ->
  (forall k p, coremap s' !! k = Some p -> user_page p -> k ∈ P \/ own_page A as_ k ->
    exists d, d' = Some d /\ k ∈ pages d) ->
  vm_inv (partial_alter (fun _ => d') as_ A) s'.
Proof.
  intros [Icm Iat Idisj Iused] W HX HP Hheap Hd' Huser.
  assert (forall as1 d1 x, A !! as1 = Some d1 -> as1 <> as_ -> x ∈ blocks as1 d1 -> ¬ own_block A as_ x) as Hother.
  { intros as1 d1 x H1 Hne Hx (d & Hd & Hx'). by apply (Idisj as1 d1 as_ d H1 Hd Hne x). }
  assert (forall as1 d1 x, A !! as1 = Some d1 -> as1 <> as_ -> x ∈ blocks as1 d1 -> (x ∉ heap s \/ own_block A as_ x) -> False) as Hno.
  { intros as1 d1 x H1 Hne Hx [Hn|Hn]; [by apply Hn, (live_block s as1 d1); [apply Iat|]|by eapply Hother]. }
  assert (forall as1 d1, A !! as1 = Some d1 -> as1 <> as_ -> space_at s' as1 d1) as Hkeep.
  { intros as1 d1 H1 Hne. eapply space_at_within; [exact W|..|by apply Iat].
    - intros x Hx Hin. by eapply Hno; [..|by apply HX].
    - intros k Hk Hin. destruct (page_not_user s as1 d1 k (Iat _ _ H1) Hk) as (p & Hp & Hu).
      destruct (HP k p Hin Hp Hu) as (d & Hd & Hk'). apply list_elem_of_fmap in Hk as (e1 & -> & He1).
      apply list_elem_of_fmap in Hk' as (e2 & E & He2).
      destruct (pages_owner s as1 d1 as_ d e1 e2) as [Eas _]; auto.
    - intros x Hx Hin. destruct (Hheap x Hin) as [|Ho]; [done|]. by exfalso; eapply Hother. }
  constructor.
  - apply W.
  - intros as1 d1. rewrite lookup_partial_alter. case_decide as E; [subst as1|by auto].
    intros ->. apply Hd'.
  - intros as1 d1 as2 d2. rewrite !lookup_partial_alter. repeat case_decide; subst; try done.
    + intros -> H2 Hne x Hx Hx'. destruct Hd' as [_ Hb]. by eapply (Hno as2 d2 x); [..|apply Hb].
    + intros H1 -> Hne x Hx Hx'. destruct Hd' as [_ Hb]. by eapply (Hno as1 d1 x); [..|apply Hb].
    + apply Idisj.
  - intros k p Hp Hu. destruct (decide (k ∈ P)) as [Hk|Hk].
    + destruct (Huser k p Hp Hu) as (d & -> & Hin); [by left|]. exists as_, d. by rewrite lookup_partial_alter_eq.
    + destruct (Iused k p) as (as1 & d1 & H1 & Hin); [by apply (wi_user _ _ _ _ W)|done|].
      destruct (decide (as1 = as_)) as [->|Hne].
      * destruct (Huser k p Hp Hu) as (d & -> & Hin'); [right; by exists d1|]. exists as_, d. by rewrite lookup_partial_alter_eq.
      * exists as1, d1. by rewrite lookup_partial_alter_ne by done.
Qed.

(** The same blocks and pages, the invariant as it is. *)
Lemma vm_inv_within A s s' X P : vm_inv A s -> within X P s s' ->
  (forall x, x ∈ X -> x ∉ heap s) -> (forall k p, k ∈ P -> coremap s !! k = Some p -> ¬ user_page p) ->
  (forall k p, k ∈ P -> coremap s' !! k = Some p -> ¬ user_page p) -> heap s ⊆ heap s' -> vm_inv A s'.
Proof.
  intros I W HX HP HP' Hh. assert (A !! 0 = None) as H0.
  { destruct (A !! 0) as [d|] eqn:E; [|done]. destruct (live_block s 0 d 0) as [? _]; [by apply I|apply as_in_blocks|lia]. }
  replace A with (partial_alter (fun _ => None) 0 A).
  - eapply (vm_inv_replace A s s' 0 None X P); try done.
    + intros x Hx. left. auto.
    + intros k p Hk Hp Hu. by exfalso; eapply HP.
    + intros x Hx. left. auto.
    + intros k p Hp Hu [Hk|(d & Hd & _)]; [by exfalso; eapply HP'|congruence].
  - apply map_eq. intros i. rewrite lookup_partial_alter. by case_decide; subst.
Qed.

Lemma vm_inv_undone A L s s' : vm_inv A s -> copy_undone L s s' -> vm_inv A s'.
Proof.
  intros I (F & P & HF & HL & W & Hh & HP & HP'). eapply vm_inv_within; [exact I|exact W|done..|]. rewrite Hh. set_solver.
Qed.

Lemma fresh_not_space A s as_ : vm_inv A s -> as_ ∉ heap s -> A !! as_ = None.
Proof.
  intros I Hn. destruct (A !! as_) as [d|] eqn:E; [|done]. exfalso. apply Hn, (live_block s as_ d); [by apply I|apply as_in_blocks].
Qed.

Lemma vm_inv_cloned A s d newas dn s' : vm_inv A s -> cloned s d newas dn s' -> vm_inv (<[newas := dn]> A) s'.
Proof.
  intros I [Cs _ _ _ Cw Ch Cf Cn]. assert (A !! newas = None) as Hn by (eapply fresh_not_space; [done|apply Cf, as_in_blocks]).
  eapply (vm_inv_replace A s s' newas (Some dn)); [done|exact Cw|..].
  - intros x Hx. apply elem_of_list_to_set in Hx. left. by apply Cf.
  - intros k p Hk Hp Hu. apply elem_of_list_to_set in Hk. by exfalso; eapply Cn.
  - intros x Hx. left. rewrite Ch. set_solver.
  - split; [done|]. intros x Hx. left. by apply Cf.
  - intros k p Hp Hu [Hk|(d0 & Hd0 & _)]; [|congruence]. apply elem_of_list_to_set in Hk. eauto.
Qed.

(** Changing the heap bounds of an address space. *)
Lemma vm_inv_bounds A s as_ d hs he : vm_inv A s -> A !! as_ = Some d ->
  let a := Addrspace (start_region (sp_as d)) (start_page_table (sp_as d)) hs he in
  vm_inv (<[as_ := Space a (sp_pt d) (sp_rg d)]> A) (set_spaces (<[as_ := a]> (spaces s)) s).
Proof.
  intros I Hd a. assert (within {[as_]} ∅ s (set_spaces (<[as_ := a]> (spaces s)) s)) as W.
  { apply within_set_spaces; [apply I|]. intros x Hx. apply (insert_outside _ _ _ {[as_]}); set_solver. }
  eapply (vm_inv_replace A s _ as_ (Some _)); [done|exact W|..].
  - intros x ->%elem_of_singleton. right. exists d. split; [done|apply as_in_blocks].
  - set_solver.
  - intros x Hx. by left.
  - split; [apply space_at_bounds; [apply I|by apply I]|]. intros x Hx. right. by exists d.
  - intros k p Hp Hu [Hk|(d0 & Hd0 & Hk)]; [set_solver|]. simplify_eq. by eexists.
Qed.

Section inv.
Context `{VmHeap} `{SwapDevice}.

Lemma vm_inv_destroy A s as_ d s' : vm_inv A s -> A !! as_ = Some d ->
  within (list_to_set (blocks as_ d)) (list_to_set (pages d)) s s' ->
  heap s' = heap s ∖ list_to_set (blocks as_ d) ->
  (forall k q, k ∈ pages d -> coremap s' !! k = Some q -> ¬ user_page q) ->
  vm_inv (delete as_ A) s'.
Proof.
  intros I Hd W Hh Hfree. eapply (vm_inv_replace A s s' as_ None); [done|exact W|..].
  - intros x Hx. apply elem_of_list_to_set in Hx. right. by exists d.
  - intros k p Hk _ _. apply elem_of_list_to_set in Hk. by exists d.
  - intros x Hx. rewrite Hh. destruct (decide (x ∈ blocks as_ d)) as [Hin|Hin]; [right; by exists d|left].
    apply elem_of_difference. by rewrite elem_of_list_to_set.
  - done.
  - intros k p Hp Hu [Hk|(d0 & Hd0 & Hk)]; exfalso; [apply elem_of_list_to_set in Hk|simplify_eq]; by eapply Hfree.
Qed.

Lemma vm_inv_created A s r s' : vm_inv A s -> r ∉ heap s -> within {[r]} ∅ s s' -> heap s' = {[r]} ∪ heap s ->
  space_at s' r (Space (Addrspace 0 0 0 0) [] []) -> vm_inv (<[r := Space (Addrspace 0 0 0 0) [] []]> A) s'.
Proof.
  intros I Hn W Hh Hsp. assert (A !! r = None) as HA by (by eapply fresh_not_space).
  eapply (vm_inv_replace A s s' r (Some _)); [done|exact W|..].
  - intros x ->%elem_of_singleton. by left.
  - intros k p Hk. set_solver.
  - intros x Hx. left. rewrite Hh. set_solver.
  - split; [done|]. intros x Hx. apply list_elem_of_singleton in Hx as ->. by left.
  - intros k p Hp Hu [Hk|(d & Hd & _)]; [set_solver|congruence].
Qed.
End inv.

(** ** Properties *)

(** C15: copying an address space (the memory half of [fork]) either fails
    with [ENOMEM] and leaves the system well formed, or yields a new address
    space with the same pages, the same contents, the same regions and the
    same heap bounds, whose physical pages are shared with no other address
    space; no page of any existing address space changes, and the system
    invariant holds for the old and the new address spaces together. *)
Theorem as_copy_isolates `{VmHeap} `{SwapDevice} (A : gmap Z space) (s : vm) (as_ : Z) (d : space) :
  vm_inv A s -> A !! as_ = Some d ->
  wp (as_copy as_) (fun r s' =>
    match r with
    | inl e => e = ENOMEM /\ vm_inv A s'
    | inr newas => exists dn, A !! newas = None /\ vm_inv (<[newas := dn]> A) s' /\
        Forall2 (same_page s s') (sp_pt d) (sp_pt dn) /\ Forall2 same_region (sp_rg d) (sp_rg dn) /\
        heap_start (sp_as dn) = heap_start (sp_as d) /\ heap_end (sp_as dn) = heap_end (sp_as d) /\
        (forall as1 d1 e1 e2, A !! as1 = Some d1 -> e1 ∈ sp_pt d1 -> e2 ∈ sp_pt dn ->
          en_frame e1 <> en_frame e2 /\ frames s' !! Z.of_nat (en_frame e1) = frames s !! Z.of_nat (en_frame e1))
    end) s.
Proof.
  intros I Hd. wp_apply (as_copy_spec s as_ d); [apply I|by apply I|]. intros [er|newas] s' Hr.
  - destruct Hr as (-> & L & Hu). split; [done|by eapply vm_inv_undone].
  - destruct Hr as (dn & C). pose proof (vm_inv_cloned A s d newas dn s' I C) as I'. destruct C as [Cs Cp Cr [Cb Cb'] Cw Ch Cf Cn].
    exists dn. split_and!; [eapply fresh_not_space; [done|apply Cf, as_in_blocks]|done..|].
    intros as1 d1 e1 e2 H1 He1 He2.
    destruct (page_not_user s as1 d1 (en_frame e1)) as (p & Hp & Hu); [by apply I|apply list_elem_of_fmap; eauto|].
    assert (en_frame e1 ∉ pages dn) as Hn by (intros Hin; by eapply Cn).
    split; [intros E; apply Hn; rewrite E; apply list_elem_of_fmap; eauto|].
    apply (wi_frames _ _ _ _ Cw _ p); [by rewrite Nat2Z.id, elem_of_list_to_set|done|by rewrite Nat2Z.id].
Qed.

Lemma as_copy_isolates_witness :
  wp (as_copy 50) (fun r s' => exists n, r = inr n /\ frames s' !! 5 = Some {[0 := 65]}) (ex_sys 3) /\
  wp (as_copy 50) (fun r s' => match r with inl _ => vm_inv ex_spaces s' | inr n => exists dn, vm_inv (<[n := dn]> ex_spaces) s' end) (ex_sys 3).
Proof.
  split; [vm_compute; eexists; split; reflexivity|].
  eapply wp_mono; [apply (as_copy_isolates ex_spaces (ex_sys 3) 50 ex_space (ex_sys_inv 3) eq_refl)|].
  intros [e|n] s'; [intros [_ Hi]; exact Hi|]. intros (dn & _ & Hi & _). exists dn. exact Hi.
Defined.

(** destroying an address space returns: it gives back every heap block
    of the address space and nothing else, none of its physical pages stays
    a user page, and every other address space keeps its pages and their
    contents. *)
Theorem as_destroy_releases `{VmHeap} `{SwapDevice} (A : gmap Z space) (s : vm) (as_ : Z) (d : space) :
  vm_inv A s -> A !! as_ = Some d ->
  wp (as_destroy as_) (fun _ s' =>
    vm_inv (delete as_ A) s' /\ heap s' = heap s ∖ list_to_set (blocks as_ d) /\
    (forall k p, k ∈ pages d -> coremap s' !! k = Some p -> ¬ user_page p) /\
    (forall as1 d1 e, delete as_ A !! as1 = Some d1 -> e ∈ sp_pt d1 ->
      frames s' !! Z.of_nat (en_frame e) = frames s !! Z.of_nat (en_frame e))) s.
Proof.
  intros I Hd. wp_apply (as_destroy_spec s as_ d); [apply I|by apply I|]. intros _ s' (W & Hh & _ & Hfree).
  split_and!; [by eapply vm_inv_destroy|done|done|]. intros as1 d1 e [Hne H1]%lookup_delete_Some He.
  destruct (page_not_user s as1 d1 (en_frame e)) as (p & Hp & Hu); [by apply I|apply list_elem_of_fmap; eauto|].
  apply (wi_frames _ _ _ _ W _ p); [|done|by rewrite Nat2Z.id]. rewrite Nat2Z.id, elem_of_list_to_set.
  intros (e2 & E & He2)%list_elem_of_fmap.
  destruct (pages_owner s as1 d1 as_ d e e2) as [Eas _]; [by apply I|by apply I|done..].
Qed.

Lemma as_destroy_releases_witness :
  wp (as_destroy 50) (fun _ s' => vm_inv (delete 50 ex_spaces) s' /\ heap s' = heap (ex_sys 3) ∖ list_to_set (blocks 50 ex_space)) (ex_sys 3).
Proof.
  eapply wp_mono; [apply (as_destroy_releases ex_spaces (ex_sys 3) 50 ex_space (ex_sys_inv 3) eq_refl)|].
  intros _ s' (Hi & Hh & _). split; assumption.
Defined.

(** copying an address space and destroying the copy is a round trip:
    the system is well formed for the same address spaces as before, and if
    the copy was made, the kernel heap has exactly the blocks it had. *)
Theorem as_copy_destroy_roundtrip `{VmHeap} `{SwapDevice} (A : gmap Z space) (s : vm) (as_ : Z) (d : space) :
  vm_inv A s -> A !! as_ = Some d ->
  wp (r <- as_copy as_ ;;
      match r with
      | inl e => ret (Some e)
      | inr newas => as_destroy newas ;;; ret None
      end)
    (fun r s' => vm_inv A s' /\ (r = None -> heap s' = heap s) /\
      (forall as1 d1 e, A !! as1 = Some d1 -> e ∈ sp_pt d1 -> r = None ->
        frames s' !! Z.of_nat (en_frame e) = frames s !! Z.of_nat (en_frame e))) s.
Proof.
  intros I Hd. wp_step. wp_apply (as_copy_spec s as_ d); [apply I|by apply I|]. intros [er|newas] s1 Hr.
  - destruct Hr as (-> & L & Hu). wp_step. split_and!; [by eapply vm_inv_undone|done|done].
  - destruct Hr as (dn & C). pose proof (vm_inv_cloned A s d newas dn s1 I C) as I1. destruct C as [Cs _ _ _ Cw Ch Cf Cn].
    assert (A !! newas = None) as Hn by (eapply fresh_not_space; [done|apply Cf, as_in_blocks]).
    wp_step. wp_apply (as_destroy_spec s1 newas dn); [apply I1|done|]. intros _ s2 (W & Hh & _ & Hfree). wp_step.
    assert (heap s2 = heap s) as Hh2.
    { rewrite Hh, Ch. apply set_eq. intros x. rewrite elem_of_difference, elem_of_union, elem_of_list_to_set.
      specialize (Cf x). tauto. }
    split_and!; [|done|].
    + rewrite <- (delete_insert_id A newas dn) by done. eapply vm_inv_destroy; [exact I1|apply lookup_insert_eq|done..].
    + intros as1 d1 e H1 He _.
      destruct (page_not_user s as1 d1 (en_frame e)) as (p & Hp & Hu); [by apply I|apply list_elem_of_fmap; eauto|].
      assert (en_frame e ∉ pages dn) as Hk by (intros Hin; by eapply Cn).
      rewrite (wi_frames _ _ _ _ W _ p); [apply (wi_frames _ _ _ _ Cw _ p)|..]; rewrite ?Nat2Z.id, ?elem_of_list_to_set; try done.
      apply (wi_user _ _ _ _ Cw); [by rewrite elem_of_list_to_set|done..].
Qed.

Lemma as_copy_destroy_roundtrip_witness :
  wp (r <- as_copy 50 ;;
      match r with
      | inl e => ret (Some e)
      | inr newas => as_destroy newas ;;; ret None
      end) (fun r s' => vm_inv ex_spaces s' /\ (r = None -> heap s' = heap (ex_sys 3))) (ex_sys 3).
Proof.
  eapply wp_mono; [apply (as_copy_destroy_roundtrip ex_spaces (ex_sys 3) 50 ex_space (ex_sys_inv 3) eq_refl)|].
  intros r s' (Hi & Hh & _). split; assumption.
Defined.
