(* ===== verification/VmFault.v ===== *)
(** * Page faults (kern/vm/vm.c, [vm_fault])

    The handler of TLB misses: it checks the address against the address
    space, finds or makes the page and loads the TLB. *)

From S2P Require Import Prelude KHeap Bitmap VmState Coremap VmHeap Swap AddrSpace SpaceInv VmExample SpaceOps SpaceCopy VmInv.

Section fault.
Context `{VmHeap} `{SwapDevice}.

(** Stack, heap or some region. *)
Definition valid_address (a : addrspace) (faultaddress : Z) : M vm bool :=
  let stackbase := USERSTACK - VM_STACKPAGES * PAGE_SIZE in
  let stacktop := USERSTACK in
  if ((stackbase <=? faultaddress) && (faultaddress <? stacktop))
     || ((heap_start a <=? faultaddress) && (faultaddress <? heap_end a)) then ret true else
  s <- get ;;
  loop_ (region_fuel s) (start_region a) (fun region =>
    if region =? 0 then ret (inr false) else
    r <- region_at region ;;
    if (rg_start r <=? faultaddress) && (faultaddress <? u32 (rg_start r + rg_size r)) then ret (inr true)
    else ret (inl (rg_next r))).

(** The search of the page table: an error to return, or the entry found
    (0 if none), the one before it and the physical page. *)
Definition fault_search (as_ faultaddress start : Z) : M vm (err (Z * Z * Z)) :=
  s <- get ;;
  loop_ (pte_fuel s) (start, 0) (fun '(pte, prev_pte) =>
    if pte =? 0 then ret (inr (inr (0, prev_pte, 0))) else
    e <- pte_at pte ;;
    if as_vpage e =? faultaddress then
      lock_acquire (pte_lock e) ;;;
      r <- match pte_state e with
           | SWAPPED =>
               physical_page <- allocate_user_page 1 as_ faultaddress false ;;
               if physical_page =? 0 then
                 lock_release (pte_lock e) ;;;
                 ret (inl ENOMEM)
               else
                 r <- read_swap_disk physical_page (diskpage_location e) true ;;
                 if negb (r =? 0) then panic else
                 pte_put pte (Pte (as_vpage e) physical_page (vpage_permission e) MAPPED
                                (diskpage_location e) (pte_lock e) (pte_next e)) ;;;
                 ret (inr physical_page)
           | MAPPED => ret (inr (as_ppage e))
           | UNMAPPED => ret (inr 0)
           end ;;
      match r with
      | inl e => ret (inr (inl e))
      | inr physical_page =>
          lock_release (pte_lock e) ;;;
          ret (inr (inr (pte, prev_pte, physical_page)))
      end
    else ret (inl (pte_next e, pte))).

(** A new entry at the end of the table with a new page. *)
Definition fault_new (as_ prev_pte faultaddress : Z) : M vm (err Z) :=
  r <- alloc_pte ;;
  match r with
  | None => ret (inl ENOMEM)
  | Some (pte, lk) =>
      pte_put pte (Pte faultaddress junk junk UNMAPPED junk lk 0) ;;;
      link_pte as_ prev_pte pte ;;;
      physical_page <- allocate_user_page 1 as_ faultaddress false ;;
      if physical_page =? 0 then
        lock_release lk ;;;
        lock_destroy lk ;;;
        free_pte pte ;;;
        ret (inl ENOMEM)
      else
        pte_put pte (Pte faultaddress physical_page junk MAPPED junk lk 0) ;;;
        lock_release lk ;;;
        ret (inr physical_page)
  end.

Definition set_ref_bit (physical_page : Z) : M vm unit :=
  p <- coremap_at (physical_page / PAGE_SIZE) ;;
  coremap_put (physical_page / PAGE_SIZE)
    (CoremapPage (chunk_size p) (cp_state p) (owner_addrspace p) (owner_vaddr p) true).

(** Load the mapping into the first invalid TLB slot, or a random one. *)
Definition tlb_load (faultaddress physical_page : Z) : M vm unit :=
  spl <- splhigh ;;
  r <- for_ (Z.to_nat NUM_TLB) 0 (fun i =>
    e <- tlb_read i ;;
    if negb (Z.land e.2 TLBLO_VALID =? 0) then ret None else
    tlb_write faultaddress (Z.lor (Z.lor physical_page TLBLO_DIRTY) TLBLO_VALID) i ;;;
    splx spl ;;;
    set_ref_bit physical_page ;;;
    ret (Some tt)) ;;
  match r with
  | Some _ => ret tt
  | None =>
      tlb_random faultaddress (Z.lor (Z.lor physical_page TLBLO_DIRTY) TLBLO_VALID) ;;;
      splx spl ;;;
      set_ref_bit physical_page
  end.

Definition vm_fault (faulttype faultaddress : Z) : M vm Z :=
  s <- get ;;
  let as_ := curas s in
  if as_ =? 0 then ret EFAULT else
  a <- space_read as_ ;;
  let faultaddress := Z.land faultaddress PAGE_FRAME in
  valid <- valid_address a faultaddress ;;
  if negb valid then ret EFAULT else
  r <- fault_search as_ faultaddress (start_page_table a) ;;
  match r with
  | inl e => ret e
  | inr (pte, prev_pte, physical_page) =>
      if pte =? 0 then
        r <- fault_new as_ prev_pte faultaddress ;;
        match r with
        | inl e => ret e
        | inr physical_page => tlb_load faultaddress physical_page ;;; ret 0
        end
      else tlb_load faultaddress physical_page ;;; ret 0
  end.
End fault.

(** ** The TLB *)

Definition tlb_valid (lo : Z) : bool := negb (Z.land lo TLBLO_VALID =? 0).

(** The entry the handler loads for page [e]. *)
Definition tlb_entry (e : entry) : Z * Z :=
  (en_vpage e, Z.lor (Z.lor (as_ppage (en_pte e)) TLBLO_DIRTY) TLBLO_VALID).

(** Every valid TLB entry is one of the current page table, no page has two,
    and an invalid slot holds an address no user access matches. *)
Record tlb_ok (d : space) (s : vm) : Prop := {
  to_len : length (tlb s) = Z.to_nat NUM_TLB;
  to_random : 0 <= c0_random s < NUM_TLB;
  to_entries : forall i x, tlb s !! i = Some x -> tlb_valid x.2 = true -> exists e, e ∈ sp_pt d /\ x = tlb_entry e;
  to_unique : forall i j x y, tlb s !! i = Some x -> tlb s !! j = Some y ->
    tlb_valid x.2 = true -> tlb_valid y.2 = true -> x.1 = y.1 -> i = j;
  to_invalid : forall i x, tlb s !! i = Some x -> tlb_valid x.2 = false -> MIPS_KSEG0 <= Z.land x.1 TLBHI_VPAGE;
}.

(** The page [va] is in no valid slot: the access missed. *)
Definition tlb_misses (va : Z) (s : vm) : Prop :=
  forall i x, tlb s !! i = Some x -> tlb_valid x.2 = true -> x.1 <> va.


(** Address [fa] lies in the stack, the heap or a region of [d]. *)
Definition in_space (d : space) (fa : Z) : Prop :=
  (USERSTACK - VM_STACKPAGES * PAGE_SIZE <= fa < USERSTACK) \/
  (heap_start (sp_as d) <= fa < heap_end (sp_as d)) \/
  (exists q r, (q, r) ∈ sp_rg d /\ rg_start r <= fa < u32 (rg_start r + rg_size r)).

Lemma tlb_entry_valid e : tlb_valid (tlb_entry e).2 = true.
Proof.
  unfold tlb_valid, tlb_entry. cbn [snd]. change TLBLO_VALID with (Z.shiftl 1 9). rewrite land_shiftl_1 by lia.
  rewrite negb_involutive, testbit_setbit by lia. by rewrite orb_true_r.
Qed.

(** ** Reading the address space *)

Section spec.
Context `{VmHeap} `{SwapDevice}.

(** The check reads the bounds and the regions only. *)
Lemma valid_address_regions s a d fa : start_region a = start_region (sp_as d) ->
  heap_start a = heap_start (sp_as d) -> heap_end a = heap_end (sp_as d) ->
  rg_links (start_region (sp_as d)) (sp_rg d) -> NoDup (sp_rg d).*1 ->
  Forall (fun '(q, r) => 0 < q /\ regions s !! q = Some r) (sp_rg d) ->
  wp (valid_address a fa) (fun b s' => s' = s /\ (b = true <-> in_space d fa)) s.
Proof.
  intros Ea Es Ee Hl0 Hnd Hall. unfold valid_address. rewrite Ea, Es, Ee. destruct (_ || _)%bool eqn:E.
  { wp_step. split; [done|]. split; [intros _|done]. boolify. unfold in_space.
    destruct E as [[? ?]%andb_true_iff|[? ?]%andb_true_iff]; boolify; [left|right; left]; lia. }
  apply orb_false_iff in E as [E1 E2]. rewrite !andb_false_iff, !Z.leb_gt, !Z.ltb_ge in E1, E2. wp_steps.
  eapply (wp_loop_list _ (sp_rg d) _ _ (fun l2 p s' => s' = s /\ exists l1, sp_rg d = l1 ++ l2 /\ rg_links p l2 /\
    forall q r, (q, r) ∈ l1 -> ¬ (rg_start r <= fa < u32 (rg_start r + rg_size r)))).
  - split; [done|]. exists []. split_and!; [done|done|]. intros q r Hq. by apply not_elem_of_nil in Hq.
  - apply rg_fuel; [done|]. eapply Forall_impl; [exact Hall|]. by intros [q r] [_ ?].
  - intros l2 p s' (-> & l1 & Erg & Hlinks & Hnone). destruct l2 as [|[q r] l2]; simpl in Hlinks.
    + subst p. rewrite Z.eqb_refl. wp_step. split; [done|]. split; [done|]. unfold in_space.
      intros [Hin|[Hin|(q & r & Hin & Hb)]]; [lia|lia|]. exfalso. rewrite app_nil_r in Erg. rewrite Erg in Hin. by eapply Hnone.
    + destruct Hlinks as [-> Hlinks].
      assert ((q, r) ∈ sp_rg d) as Hq by (rewrite Erg; apply elem_of_app; right; apply list_elem_of_here).
      rewrite Forall_forall in Hall. destruct (Hall _ Hq) as [Hpos Hrg].
      rewrite (proj2 (Z.eqb_neq q 0)) by lia. wp_step. apply (wp_region_at _ r); [done|]. wp_step; wp_step.
      * split; [done|]. split; [intros _|done]. right; right. exists q, r. boolify. split; [done|lia].
      * exists (q, r), l2. split; [done|]. split; [done|]. exists (l1 ++ [(q, r)]). rewrite <- app_assoc. split_and!; [done..|].
        intros q' r' [Hin|Hin]%elem_of_app; [by apply (Hnone q')|]. apply list_elem_of_singleton in Hin. simplify_eq.
        boolify. lia.
Qed.

(** The regions of an address space, as the check finds them. *)
Lemma space_regions s as_ d : space_at s as_ d ->
  NoDup (sp_rg d).*1 /\ Forall (fun '(q, r) => 0 < q /\ regions s !! q = Some r) (sp_rg d).
Proof.
  intros Hsp. split.
  - pose proof (sa_nodup _ _ _ Hsp) as [_ Hnd]%NoDup_cons. by apply NoDup_app in Hnd as (_ & _ & ?).
  - pose proof (sa_regions _ _ _ Hsp) as Hrg. rewrite Forall_forall in Hrg. apply Forall_forall. intros [q r] Hq.
    split; [|by apply (Hrg (q, r))]. apply (live_block s as_ d); [done|]. by eapply region_in_blocks.
Qed.

Lemma valid_address_spec s as_ d fa : space_at s as_ d ->
  wp (valid_address (sp_as d) fa) (fun b s' => s' = s /\ (b = true <-> in_space d fa)) s.
Proof. intros Hsp. destruct (space_regions s as_ d Hsp). apply valid_address_regions; [done..|apply Hsp|done|done]. Qed.

(** The search finds the entry of the page, or reports that there is none
    and where the table ends. *)
Lemma fault_search_spec s as_ d fa : space_at s as_ d ->
  wp (fault_search as_ fa (start_page_table (sp_as d))) (fun r s' => s' = s /\
    ((exists e prev, e ∈ sp_pt d /\ en_vpage e = fa /\ r = inr (en_ptr e, prev, as_ppage (en_pte e))) \/
     (fa ∉ en_vpage <$> sp_pt d /\ r = inr (0, last_ptr (sp_pt d), 0)))) s.
Proof.
  intros Hsp. unfold fault_search. wp_steps.
  eapply (wp_loop_list _ (sp_pt d) _ _ (fun l2 c s' => s' = s /\ exists l1, sp_pt d = l1 ++ l2 /\ pt_links c.1 l2 /\
    c.2 = last_ptr l1 /\ fa ∉ en_vpage <$> l1)).
  - split; [done|]. exists []. split_and!; [done|apply Hsp|done|]. apply not_elem_of_nil.
  - apply (pt_fuel s as_); [|apply Hsp]. pose proof (sa_nodup _ _ _ Hsp) as [_ Hnd]%NoDup_cons. by apply NoDup_app in Hnd as (? & _ & _).
  - intros l2 [p prev] s' (-> & l1 & Ept & Hlinks & El & Hnone). cbn [fst snd] in *. subst prev.
    destruct l2 as [|e l2]; simpl in Hlinks.
    + subst p. rewrite Z.eqb_refl. wp_step. split; [done|]. right. rewrite app_nil_r in Ept. by rewrite Ept.
    + destruct Hlinks as [-> Hlinks].
      assert (e ∈ sp_pt d) as He by (rewrite Ept; apply elem_of_app; right; apply list_elem_of_here).
      destruct (live_block _ _ _ _ Hsp (pt_blocks_in_blocks _ as_ d (en_ptr_block e _ He))) as [Hpos _].
      destruct (live_block _ _ _ _ Hsp (pt_blocks_in_blocks _ as_ d (en_lock_block e _ He))) as [Hlpos _].
      pose proof (sa_entries _ _ _ Hsp) as Hents. rewrite Forall_forall in Hents. destruct (Hents e He) as [Hpte Hlk Hfree Hst _ _ _].
      rewrite (proj2 (Z.eqb_neq _ 0)) by lia. wp_step. apply (wp_pte_at _ (en_pte e)); [done|]. wp_step; boolify.
      * wp_step. apply (wp_lock_acquire _ (en_lock e)); [done..|]. rewrite Hst. wp_steps.
        apply (wp_lock_release _ (Sleeplock true (lk_name (en_lock e)) (lk_wchan (en_lock e)))); [done|apply lookup_insert_eq|done|].
        wp_step. vm_simpl. cbn [lk_name lk_wchan]. split.
        -- rewrite insert_insert_eq, insert_id; [by destruct s|]. rewrite Hlk. destruct (en_lock e). simpl in *. by subst.
        -- left. exists e, (last_ptr l1). done.
      * wp_step. exists e, l2. split; [done|]. split; [done|]. exists (l1 ++ [e]). cbn [fst snd]. split_and!.
        -- by rewrite <- app_assoc.
        -- done.
        -- unfold last_ptr. by rewrite last_snoc.
        -- rewrite fmap_app. apply not_elem_of_app. split; [done|]. intros ->%list_elem_of_singleton. done.
Qed.
(** ** A new page *)

(** The new entry before it has a page: its blocks are fresh, the table
    links to it. *)
Record begun (s : vm) (as_ : Z) (d : space) (fa q lk n w : Z) (s1 : vm) : Prop := {
  bg_fresh : fresh_blocks s [q; lk; n; w];
  bg_within : within {[q; lk; link_cell as_ (sp_pt d)]} ∅ s s1;
  bg_pte : ptes s1 !! q = Some (Pte fa junk junk UNMAPPED junk lk 0);
  bg_lock : locks s1 !! lk = Some (Sleeplock true n w);
  bg_heap : heap s1 = list_to_set [q; lk; n; w] ∪ heap s;
  bg_link : linked_to s1 as_ d q;
}.

Lemma link_pte_coremap s as_ d q : spaces s !! as_ = Some (sp_as d) ->
  Forall (fun e => 0 < en_ptr e /\ ptes s !! en_ptr e = Some (en_pte e)) (sp_pt d) ->
  wp (link_pte as_ (last_ptr (sp_pt d)) q) (fun _ s' => coremap s' = coremap s) s.
Proof.
  intros Hs Hp. unfold link_pte, last_ptr. destruct (last (sp_pt d)) as [x|] eqn:E.
  - apply last_Some in E as [l' E]. rewrite E in Hp. apply Forall_app in Hp as [_ Hp]. apply Forall_cons in Hp as [[Hpos Hx] _].
    rewrite (proj2 (Z.eqb_neq _ 0)) by lia. wp_step. apply (wp_pte_at _ (en_pte x)); [done|]. by apply (wp_pte_put _ (en_pte x)).
  - simpl. wp_step. apply (wp_space_read _ (sp_as d)); [done|]. by apply (wp_space_put _ (sp_as d)).
Qed.

Lemma begin_spec s s1 as_ d fa q lk n w : space_at s as_ d -> fresh_blocks s [q; lk; n; w] ->
  within {[q; lk]} ∅ s s1 -> is_Some (ptes s1 !! q) -> locks s1 !! lk = Some (Sleeplock true n w) ->
  heap s1 = list_to_set [q; lk; n; w] ∪ heap s ->
  wp (pte_put q (Pte fa junk junk UNMAPPED junk lk 0) ;;; link_pte as_ (last_ptr (sp_pt d)) q)
    (fun _ s' => begun s as_ d fa q lk n w s' /\ coremap s' = coremap s1) s1.
Proof.
  intros Hsp Hfr W1 [pq Hq] Hl Hh. pose proof (fresh_not_block s as_ d _ Hsp Hfr) as Hsep.
  wp_step. apply (wp_pte_put _ pq); [done|]. set (s2 := set_ptes _ s1).
  assert (within {[q; lk]} ∅ s s2) as W2.
  { eapply within_trans; [exact W1|]. apply within_set_ptes; [apply W1|].
    intros x Hx. apply (insert_outside _ _ _ {[q; lk]}); set_solver. }
  assert (forall x, x ∈ blocks as_ d -> x ∉ ({[q; lk]} : gset Z)) as Hsep'.
  { intros x Hx Hin. eapply Hsep; [exact Hx|]. set_solver. }
  destruct (entries_raw _ _ s s2 as_ d W2 Hsep' Hsp) as [Hraw Hrs].
  eapply wp_mono; [apply wp_and; [by apply (link_pte_spec s2 as_ d q); [apply W2|..]|by apply link_pte_coremap]|cbv beta].
  intros _ s3 [(Hlink & W3 & Hh3) Hc3].
  pose proof (last_link_block as_ d) as Hlc. split; [|done].
  constructor; [done| | | |by rewrite Hh3|done].
  - eapply within_trans; [wmono W2|wmono W3].
  - rewrite (wi_ptes _ _ _ _ W3); [apply lookup_insert_eq|].
    rewrite elem_of_singleton. intros ->. eapply Hsep; [exact Hlc|apply list_elem_of_here].
  - rewrite (wi_locks _ _ _ _ W3); [done|].
    rewrite elem_of_singleton. intros ->. eapply Hsep; [exact Hlc|apply list_elem_of_further, list_elem_of_here].
Qed.

(** The end of a fault that found memory. *)
Lemma publish_spec s s1 as_ d fa q lk n w f : space_at s as_ d -> begun s as_ d fa q lk n w s1 ->
  0 <= fa < 2 ^ 32 -> fa mod PAGE_SIZE = 0 -> fa ∉ en_vpage <$> sp_pt d -> first_fit s1 1 f ->
  wp (pte_put q (Pte fa (f * PAGE_SIZE) junk MAPPED junk lk 0) ;;; lock_release lk ;;; ret (inr (f * PAGE_SIZE)))
    (fun (r : err Z) s' => r = inr (f * PAGE_SIZE) /\ exists e', appended s as_ d e' s' /\ en_vpage e' = fa /\
      as_ppage (en_pte e') = f * PAGE_SIZE /\ frames s' !! Z.of_nat (en_frame e') = Some zero_page)
    (ualloc_state s1 f as_ fa false).
Proof.
  intros Hsp [Hfr W1 Hq Hl Hh Hlink] Hfa Hal Hv [Hf _]. pose proof (fresh_not_block s as_ d _ Hsp Hfr) as Hsep.
  pose proof (fits_bound _ 1 f (wi_ok _ _ _ _ W1) ltac:(lia) Hf) as Hfb.
  pose proof (within_ualloc s1 f as_ fa false (wi_ok _ _ _ _ W1) Hf) as W2. set (s2 := ualloc_state _ _ _ _ _) in *.
  wp_step. eapply (wp_pte_put _ _); [exact Hq|]. set (s3 := set_ptes _ s2). assert (within {[q]} ∅ s2 s3) as W3.
  { apply within_set_ptes; [apply W2|]. intros x Hx. apply (insert_outside _ _ _ {[q]}); set_solver. }
  assert (0 < lk) as Hlk by (destruct Hfr as [_ Hfr]; rewrite Forall_forall in Hfr; apply (Hfr lk); apply list_elem_of_further, list_elem_of_here).
  wp_step. apply (wp_lock_release lk (Sleeplock true n w)); [done..|]. cbn [lk_name lk_wchan].
  pose proof (within_lock lk (Sleeplock false n w) s3 (wi_ok _ _ _ _ W3)) as W4. set (s4 := set_locks _ s3) in *.
  wp_step. split; [done|].
  set (e' := Entry q (Pte fa (f * PAGE_SIZE) junk MAPPED junk lk 0) (Sleeplock false n w)).
  assert (en_frame e' = Z.to_nat f) as Ef by (unfold en_frame; simpl; f_equal; unfold PAGE_SIZE; zlia).
  assert (coremap s4 !! Z.to_nat f = Some (CoremapPage 1 used as_ fa true)) as Hc.
  { unfold s4, s3, s2, ualloc_state. vm_simpl. apply list_lookup_insert_eq.
    destruct Hf as (_ & Hhi & _). pose proof (co_len _ (wi_ok _ _ _ _ W1)). lia. }
  assert (link_cell as_ (sp_pt d) <> q) as Hlq.
  { intros E. eapply Hsep; [apply last_link_block|]. rewrite E. apply list_elem_of_here. }
  exists e'. split_and!; [|done|done|].
  - apply appended_intro; try done; rewrite ?Ef.
    + eapply within_trans; [wmono W1|]. eapply within_trans; [wmono W2|]. eapply within_trans; [wmono W3|wmono W4].
    + intros p Hp Hu. apply (wi_user _ _ _ _ W1) in Hp; [|set_solver|done].
      destruct Hf as (_ & _ & Hf). specialize (Hf f ltac:(lia)). unfold state_at in Hf. rewrite Hp in Hf.
      injection Hf as Hf. destruct Hu; congruence.
    + unfold linked_to, link_cell in *. destruct (last (sp_pt d)) as [x|]; [|exact Hlink].
      unfold s4, s3. vm_simpl. by rewrite lookup_insert_ne.
    + constructor; simpl; try done; [apply lookup_insert_eq|apply lookup_insert_eq|rewrite Ef; lia|].
      rewrite Ef. eexists. split; [exact Hc|done].
  - rewrite Ef, Z2Nat.id by lia. unfold s4, s3, s2, ualloc_state. vm_simpl. apply lookup_insert_eq.
Qed.

(** The page table links to the freed entry [q]; the rest of the system is
    as before the fault. *)
Record dangles (q lk : Z) (s : vm) (as_ : Z) (d : space) (s' : vm) : Prop := {
  dg_pos : 0 < q;
  dg_fresh : q ∉ heap s /\ lk ∉ heap s;
  dg_within : within {[q; lk; link_cell as_ (sp_pt d)]} ∅ s s';
  dg_link : linked_to s' as_ d q;
  dg_freed : ptes s' !! q = None;
}.

Definition dangling (s : vm) (as_ : Z) (d : space) (s' : vm) : Prop := exists q lk, dangles q lk s as_ d s'.

Lemma abandon_spec s s1 as_ d fa q lk n w : space_at s as_ d -> begun s as_ d fa q lk n w s1 ->
  wp (lock_release lk ;;; lock_destroy lk ;;; free_pte q ;;; ret (inl ENOMEM))
    (fun (r : err Z) s' => r = inl ENOMEM /\ dangles q lk s as_ d s') s1.
Proof.
  intros Hsp [Hfr W1 Hq Hl Hh Hlink]. pose proof (fresh_not_block s as_ d _ Hsp Hfr) as Hsep. destruct Hfr as [Hnd Hfr].
  rewrite Forall_forall in Hfr. pose proof Hnd as [Hn1 Hnd1]%NoDup_cons.
  assert (0 < lk) as Hlk by (apply Hfr, list_elem_of_further, list_elem_of_here).
  wp_step. apply (wp_lock_release lk (Sleeplock true n w)); [done..|]. cbn [lk_name lk_wchan].
  pose proof (within_lock lk (Sleeplock false n w) s1 (wi_ok _ _ _ _ W1)) as W2. set (s2 := set_locks _ s1) in *.
  wp_step. wp_apply (lock_destroy_spec lk (Sleeplock false n w) s2); [apply W2|apply lookup_insert_eq| |done|change (heap s2) with (heap s1); set_solver|].
  { apply Forall_forall. intros x Hx. apply (Hfr x). by apply list_elem_of_further. }
  intros _ s3 (W3 & _ & H3). wp_step. destruct (Hfr q (list_elem_of_here _ _)) as [Hqpos Hqn].
  wp_apply (free_pte_spec q s3); [apply W3|done| |].
  { rewrite H3. change (heap s2) with (heap s1). rewrite Hh. apply elem_of_difference. rewrite !elem_of_list_to_set. split; [set_solver|done]. }
  assert (lk ∉ heap s) as Hlkn by (apply (Hfr lk), list_elem_of_further, list_elem_of_here).
  intros _ s4 (W4 & _ & Hgone). wp_step. split; [done|].
  assert (within {[q; lk]} ∅ s1 s4) as W by (eapply within_trans; [wmono W2|]; eapply within_trans; [wmono W3|wmono W4]).
  constructor; [done|done|eapply within_trans; [wmono W1|wmono W]| |done].
  assert (forall x, x ∈ blocks as_ d -> x ∉ ({[q; lk]} : gset Z)) as Hsep'.
  { intros x Hx Hin. eapply Hsep; [exact Hx|]. set_solver. }
  pose proof (last_link_block as_ d) as Hlc. unfold linked_to, link_cell in *.
  destruct (last (sp_pt d)) as [x|]; rewrite (wi_spaces _ _ _ _ W) by apply Hsep', as_in_blocks; [|done].
  by rewrite (wi_ptes _ _ _ _ W) by by apply Hsep'.
Qed.

Lemma fault_new_spec s as_ d fa : cm_ok s -> space_at s as_ d ->
  0 <= fa < 2 ^ 32 -> fa mod PAGE_SIZE = 0 -> fa ∉ en_vpage <$> sp_pt d ->
  wp (fault_new as_ (last_ptr (sp_pt d)) fa) (fun r s' =>
    match r with
    | inr pp => exists e', appended s as_ d e' s' /\ en_vpage e' = fa /\ as_ppage (en_pte e') = pp /\
        frames s' !! Z.of_nat (en_frame e') = Some zero_page
    | inl er => er = ENOMEM /\
        ((exists F, (forall x, x ∈ F -> x ∉ heap s) /\ within F ∅ s s' /\ heap s' = heap s) \/ dangling s as_ d s')
    end) s.
Proof.
  intros Hok Hsp Hfa Hal Hv. unfold fault_new. wp_step. wp_apply (alloc_pte_spec s); [done|].
  intros [[q lk]|] s1; [|intros Hf; wp_step; split; [done|by left]].
  intros (n & w & Hfr & W1 & Hq & Hl & Hh).
  pose proof (begin_spec s s1 as_ d fa q lk n w Hsp Hfr W1 Hq Hl Hh) as Hb.
  wp_step. apply wp_bind_inv in Hb. eapply wp_mono; [exact Hb|cbv beta]. intros _ s2 Hb2. wp_step. eapply wp_mono; [exact Hb2|cbv beta].
  intros _ s3 [Hbg _]. wp_step. wp_apply (allocate_user_page_spec s3); [apply (bg_within _ _ _ _ _ _ _ _ _ Hbg)|].
  intros a s4 [Hok4 [(-> & -> & _)|(f & -> & Hff & ->)]].
  - rewrite Z.eqb_refl. wp_apply abandon_spec; [done..|]. intros r s5 [-> Hd]. split; [done|]. right. by exists q, lk.
  - rewrite (proj2 (Z.eqb_neq _ 0)); [|destruct Hff as [Hf _]; pose proof (fits_bound _ 1 f (wi_ok _ _ _ _ (bg_within _ _ _ _ _ _ _ _ _ Hbg)) ltac:(lia) Hf); unfold PAGE_SIZE; lia].
    wp_apply publish_spec; [done..|]. by intros r s5 [-> He'].
Qed.

(** A fault that gets an entry but finds no free page. *)
Lemma fault_new_nopage s as_ d fa q lk s1 : cm_ok s -> space_at s as_ d ->
  alloc_pte s = Done (Some (q, lk)) s1 -> (forall i, ¬ fits s1 1 i) ->
  wp (fault_new as_ (last_ptr (sp_pt d)) fa) (fun r s' => r = inl ENOMEM /\ dangles q lk s as_ d s') s.
Proof.
  intros Hok Hsp Hal Hno. pose proof (alloc_pte_spec s Hok) as Ha. unfold wp in Ha. rewrite Hal in Ha. destruct Ha as (n & w & Hfr & W1 & Hq & Hl & Hh).
  unfold fault_new. wp_step. unfold wp at 1. rewrite Hal. pose proof (begin_spec s s1 as_ d fa q lk n w Hsp Hfr W1 Hq Hl Hh) as Hb.
  wp_step. apply wp_bind_inv in Hb. eapply wp_mono; [exact Hb|cbv beta]. intros _ s2 Hb2. wp_step. eapply wp_mono; [exact Hb2|cbv beta].
  intros _ s3 [Hbg Hc]. pose proof (bg_within _ _ _ _ _ _ _ _ _ Hbg) as W. wp_step. wp_apply (allocate_user_page_spec s3); [apply W|].
  intros a s4 [_ [(-> & -> & _)|(f & _ & [Hff _] & _)]].
  - rewrite Z.eqb_refl. by wp_apply abandon_spec.
  - exfalso. apply (Hno f). destruct Hff as (Hlo & Hhi & Hst). rewrite (wi_start _ _ _ _ W), (wi_end _ _ _ _ W) in *.
    unfold fits. rewrite (wi_start _ _ _ _ W1), (wi_end _ _ _ _ W1). split_and!; [done|done|]. intros k Hk. rewrite <- (Hst k Hk).
    unfold state_at. by rewrite Hc.
Qed.

(** ** A table with a link to a freed entry *)

(** The links from [p] through [l] lead to [q]. *)
Fixpoint pt_leads (p : Z) (l : list entry) (q : Z) : Prop :=
  match l with
  | [] => p = q
  | e :: l' => p = en_ptr e /\ pt_leads (pte_next (en_pte e)) l' q
  end.

(** What is left of address space [as_] in [s'], as the handler finds it. *)
Record dangled (d : space) (s' : vm) (as_ q : Z) (a : addrspace) (l : list entry) : Prop := {
  dd_space : spaces s' !! as_ = Some a;
  dd_bounds : start_region a = start_region (sp_as d) /\ heap_start a = heap_start (sp_as d) /\ heap_end a = heap_end (sp_as d);
  dd_leads : pt_leads (start_page_table a) l q;
  dd_pages : en_vpage <$> l = en_vpage <$> sp_pt d;
  dd_fuel : (length l < pte_fuel s')%nat;
  dd_entries : Forall (fun e => 0 < en_ptr e /\ ptes s' !! en_ptr e = Some (en_pte e)) l;
  dd_regions : Forall (fun '(p, r) => 0 < p /\ regions s' !! p = Some r) (sp_rg d);
}.

Lemma pt_leads_snoc p l x q : pt_links p (l ++ [x]) -> pt_leads p (l ++ [set_next_entry q x]) q.
Proof. revert p. induction l as [|y l IH]; intros p; cbn; [by intros [-> _]|]. intros [-> Hl]. split; [done|by apply IH]. Qed.

Lemma dangles_table q lk s as_ d s' : space_at s as_ d -> dangles q lk s as_ d s' -> exists a l, dangled d s' as_ q a l.
Proof.
  intros Hsp [Hpos [Hq Hlk] W Hlink Hgone].
  assert (forall x, x ∈ blocks as_ d -> x <> link_cell as_ (sp_pt d) -> x ∉ ({[q; lk; link_cell as_ (sp_pt d)]} : gset Z)) as Hsep.
  { intros x Hx Hne. destruct (live_block _ _ _ _ Hsp Hx) as [_ Hl]. set_solver. }
  pose proof (sa_nodup _ _ _ Hsp) as [Has Hnd]%NoDup_cons. apply NoDup_app in Hnd as (Hndp & Hdis & _).
  assert (NoDup (en_ptr <$> sp_pt d)) as Hptr by (eapply sublist_NoDup; [exact Hndp|apply sublist_ptrs]).
  pose proof (sa_entries _ _ _ Hsp) as Hents. rewrite Forall_forall in Hents.
  assert (forall e, e ∈ sp_pt d -> 0 < en_ptr e) as Hepos.
  { intros e He. apply (live_block s as_ d); [done|]. by apply pt_blocks_in_blocks, en_ptr_block. }
  assert (Forall (fun '(p, r) => 0 < p /\ regions s' !! p = Some r) (sp_rg d)) as Hrg.
  { destruct (space_regions s as_ d Hsp) as [_ Hall]. rewrite Forall_forall in Hall. apply Forall_forall. intros [p r] Hin.
    destruct (Hall _ Hin) as [Hp Hr]. split; [done|]. rewrite (wi_regions _ _ _ _ W); [done|]. apply Hsep; [by eapply region_in_blocks|].
    assert (p ∈ (sp_rg d).*1) as Hp1 by (apply list_elem_of_fmap; by exists (p, r)).
    unfold link_cell. destruct (last (sp_pt d)) as [x|] eqn:E; [|intros ->; apply Has, elem_of_app; by right].
    intros ->. eapply Hdis; [|exact Hp1]. apply last_Some in E as [l' ->]. apply en_ptr_block, elem_of_app. right. apply list_elem_of_here. }
  assert (forall l : list entry, NoDup (en_ptr <$> l) -> Forall (fun e => 0 < en_ptr e /\ ptes s' !! en_ptr e = Some (en_pte e)) l ->
    (length l < pte_fuel s')%nat) as Hfuel.
  { intros l Hn Hl. unfold pte_fuel. apply Nat.lt_succ_r. rewrite <- (length_fmap en_ptr). apply dom_bound; [done|].
    apply Forall_fmap. eapply Forall_impl; [exact Hl|]. intros e [_ He]. simpl. rewrite He. eauto. }
  pose proof (sa_links _ _ _ Hsp) as Hl. unfold linked_to in Hlink. destruct (sp_pt d) as [|x l _] eqn:Ept using rev_ind.
  - exists (set_start q (sp_as d)), []. constructor; rewrite ?Ept; try done. by apply Hfuel; [apply NoDup_nil_2|].
  - rewrite last_snoc in Hlink. destruct Hlink as [Hs Hx]. exists (sp_as d), (l ++ [set_next_entry q x]).
    unfold link_cell in Hsep. rewrite last_snoc in Hsep. rewrite fmap_app in Hptr. cbn [fmap list_fmap] in Hptr.
    assert (Forall (fun e => 0 < en_ptr e /\ ptes s' !! en_ptr e = Some (en_pte e)) (l ++ [set_next_entry q x])) as Hall.
    { apply Forall_app. split; [|apply Forall_singleton; split; [apply (Hepos x); set_solver|done]]. apply Forall_forall. intros e He.
      assert (e ∈ l ++ [x]) as Hin by set_solver. split; [by apply Hepos|]. rewrite (wi_ptes _ _ _ _ W); [by apply Hents|].
      unfold link_cell. rewrite last_snoc. apply Hsep; [apply pt_blocks_in_blocks; rewrite Ept; by apply en_ptr_block|].
      intros E. apply NoDup_app in Hptr as (_ & Hd & _). apply (Hd (en_ptr e)); [by apply list_elem_of_fmap_2|rewrite E; apply list_elem_of_here]. }
    constructor; [done|done|by apply pt_leads_snoc|by rewrite Ept, !fmap_app| |done|done].
    apply Hfuel; [|done]. by rewrite fmap_app.
Qed.

Lemma fault_search_faults s' as_ fa q : 0 < q -> ptes s' !! q = None -> forall l p, pt_leads p l q ->
  Forall (fun e => 0 < en_ptr e /\ ptes s' !! en_ptr e = Some (en_pte e)) l -> fa ∉ en_vpage <$> l -> (length l < pte_fuel s')%nat ->
  fault_search as_ fa p s' = Fault.
Proof.
  intros Hq Hn l p Hl Hents Hv Hlen. unfold fault_search, bind at 1, get at 1. match goal with |- loop_ _ _ ?b _ = _ => set (body := b) end.
  generalize dependent (pte_fuel s'). enough (forall prev n, (length l < n)%nat -> loop_ n (p, prev) body s' = Fault) by auto.
  revert p Hl Hents Hv. induction l as [|e l IH]; intros p Hl Hents Hv prev [|n] Hlen; cbn [length] in Hlen; try lia;
    cbn [loop_ pt_leads] in *; unfold bind at 1, body at 1.
  - subst p. rewrite (proj2 (Z.eqb_neq q 0)) by lia. unfold pte_at, bind at 1, bind at 1, get. by rewrite Hn.
  - destruct Hl as [-> Hl]. apply Forall_cons in Hents as [[Hpos He] Hents]. rewrite (proj2 (Z.eqb_neq (en_ptr e) 0)) by lia.
    unfold pte_at, bind at 1, bind at 1, get. rewrite He. cbn [deref]. unfold ret at 1. rewrite fmap_cons in Hv. apply not_elem_of_cons in Hv as [Hv0 Hv].
    rewrite (proj2 (Z.eqb_neq (as_vpage (en_pte e)) fa)) by (intros E; by apply Hv0). unfold ret at 1. apply IH; [done..|lia].
Qed.

(** ** Loading the TLB *)

(** The state after loading slot [i] and marking the page referenced. *)
Definition loaded (s : vm) (e : entry) (i : nat) (p : coremap_page) : vm :=
  set_coremap (<[en_frame e := CoremapPage (chunk_size p) (cp_state p) (owner_addrspace p) (owner_vaddr p) true]> (coremap s))
    (set_tlb (<[i := tlb_entry e]> (tlb s)) s).

Lemma set_ref_bit_done s e p : as_ppage (en_pte e) = Z.of_nat (en_frame e) * PAGE_SIZE -> coremap s !! en_frame e = Some p ->
  set_ref_bit (as_ppage (en_pte e)) s =
    Done tt (set_coremap (<[en_frame e := CoremapPage (chunk_size p) (cp_state p) (owner_addrspace p) (owner_vaddr p) true]> (coremap s)) s).
Proof.
  intros Hpa Hp. unfold set_ref_bit. rewrite Hpa. assert (Z.of_nat (en_frame e) * PAGE_SIZE / PAGE_SIZE = Z.of_nat (en_frame e)) as -> by (unfold PAGE_SIZE; zlia).
  unfold bind. rewrite (coremap_at_done _ p), (coremap_put_done _ _ p) by (rewrite ?Nat2Z.id; done || lia).
  by rewrite Nat2Z.id.
Qed.

Lemma tlb_load_spec s e p : length (tlb s) = Z.to_nat NUM_TLB -> 0 <= c0_random s < NUM_TLB ->
  as_ppage (en_pte e) = Z.of_nat (en_frame e) * PAGE_SIZE -> coremap s !! en_frame e = Some p ->
  wp (tlb_load (en_vpage e) (as_ppage (en_pte e))) (fun _ s' => exists i, (i < length (tlb s))%nat /\ s' = loaded s e i p) s.
Proof.
  intros Hlen Hrand Hpa Hp. unfold tlb_load, splhigh, splx. wp_steps.
  set (s1 := set_curspl IPL_HIGH s).
  assert (forall i : Z, 0 <= i < NUM_TLB -> exists x, tlb s1 !! Z.to_nat i = Some x) as Hslot.
  { intros i Hi. apply lookup_lt_is_Some_2. change (tlb s1) with (tlb s). lia. }
  assert (forall (i : Z), 0 <= i < NUM_TLB -> forall Q,
    (Q tt (loaded s e (Z.to_nat i) p)) ->
    wp (tlb_write (en_vpage e) (Z.lor (Z.lor (as_ppage (en_pte e)) TLBLO_DIRTY) TLBLO_VALID) i ;;;
        (s0 <- get ;; modify (set_curspl (curspl s)) ;;; ret (curspl s0)) ;;; set_ref_bit (as_ppage (en_pte e))) Q s1) as Hwrite.
  { intros i Hi Q HQ. destruct (Hslot i Hi) as [x Hx]. unfold tlb_write, tlb_read. wp_steps.
    apply (wp_deref _ x); [done|]. wp_steps. unfold wp. rewrite (set_ref_bit_done _ e p) by done.
    unfold loaded, tlb_entry in HQ. unfold s1. clear -HQ. destruct s. exact HQ. }
  apply (wp_for _ _ _ (fun _ s' => s' = s1)); [done|..].
  - intros i s' Hi ->. destruct (Hslot i) as [x Hx]; [unfold NUM_TLB in *; lia|]. wp_step. unfold tlb_read at 1. wp_steps.
    apply (wp_deref _ x); [done|]. wp_step; [by wp_step|].
    specialize (Hwrite i ltac:(unfold NUM_TLB in *; lia) (fun _ s' => s' = loaded s e (Z.to_nat i) p) eq_refl).
    apply wp_bind_inv in Hwrite. wp_step. eapply wp_mono; [exact Hwrite|cbv beta]. intros _ s2 H2. apply wp_bind_inv in H2.
    wp_step. eapply wp_mono; [exact H2|cbv beta]. intros _ s3 H3. wp_step. eapply wp_mono; [exact H3|cbv beta].
    intros _ s4 ->. do 2 wp_step. exists (Z.to_nat i). split; [unfold NUM_TLB in *; lia|done].
  - intros s' ->. unfold tlb_random. wp_steps. change (c0_random s1) with (c0_random s).
    specialize (Hwrite _ Hrand (fun _ s' => s' = loaded s e (Z.to_nat (c0_random s)) p) eq_refl). apply wp_bind_inv in Hwrite.
    eapply wp_mono; [exact Hwrite|cbv beta]. intros _ s2 H2. wp_steps. eapply wp_mono; [exact H2|cbv beta].
    intros _ s4 ->. exists (Z.to_nat (c0_random s)). split; [unfold NUM_TLB in *; lia|done].
Qed.
End spec.

(** Marking a page referenced and loading the TLB keeps the system
    invariant. *)
Lemma chunks_user_one l p : chunks l -> p ∈ l -> cp_state p = used -> chunk_size p = 1.
Proof.
  induction 1 as [|x l Hs Hc Hl IH|x l Hs Hc Hl IH|x q l Hs Hc Hq Hl IH]; intros Hin Hst.
  - by apply not_elem_of_nil in Hin.
  - apply elem_of_cons in Hin as [->|]; [congruence|auto].
  - apply elem_of_cons in Hin as [->|]; [lia|auto].
  - apply elem_of_cons in Hin as [->|[Hin|]%elem_of_app]; [congruence| |auto].
    rewrite Forall_forall in Hq. destruct (Hq p Hin). congruence.
Qed.

Lemma used_chunk_one s k p : cm_ok s -> coremap s !! k = Some p -> cp_state p = used -> chunk_size p = 1.
Proof.
  intros Hok Hk Hst. pose proof (user_page_managed s k p Hok Hk ltac:(congruence)).
  eapply chunks_user_one; [apply (co_chunks _ Hok)| |done]. unfold managed. apply list_elem_of_lookup.
  exists (k - start_idx s)%nat. rewrite lookup_drop. rewrite <- Hk. f_equal. unfold start_idx. lia.
Qed.

Lemma cm_ok_loaded s e i p : cm_ok s -> coremap s !! en_frame e = Some p -> cp_state p = used -> cm_ok (loaded s e i p).
Proof.
  intros Hok Hp Hst. pose proof (user_page_managed s _ p Hok Hp ltac:(congruence)).
  eapply (cm_ok_put s _ (Z.of_nat (en_frame e)) p); try done; rewrite ?Nat2Z.id; try done.
  - lia.
  - congruence.
  - apply chunks_user; [by left|simpl; by eapply used_chunk_one|constructor].
  - apply (co_unlocked _ Hok).
  - unfold loaded. vm_simpl. simpl. rewrite (busy_true p) by congruence. rewrite busy_true by (simpl; congruence). lia.
Qed.

Lemma entry_ok_loaded s as_ e x i p : entry_ok s as_ x -> coremap s !! en_frame e = Some p -> entry_ok (loaded s e i p) as_ x.
Proof.
  intros [] Hp. constructor; try done. destruct eo_page as (q & Hq & Hst & Ho & Hv).
  unfold loaded. vm_simpl. destruct (decide (en_frame x = en_frame e)) as [E|Hne].
  - rewrite E in *. simplify_eq. rewrite list_lookup_insert_eq by (by eapply lookup_lt_Some). eauto.
  - rewrite list_lookup_insert_ne by done. eauto.
Qed.

Lemma vm_inv_loaded A s e i p : vm_inv A s -> coremap s !! en_frame e = Some p -> cp_state p = used ->
  vm_inv A (loaded s e i p).
Proof.
  intros [Icm Iat Idisj Iused] Hp Hst. constructor; [by apply cm_ok_loaded| |done|].
  - intros as_ d Hd. destruct (Iat as_ d Hd). constructor; try done.
    eapply Forall_impl; [exact sa_entries|]. intros x Hx. by apply entry_ok_loaded.
  - intros k q Hq Hu. unfold loaded in Hq. vm_simpl. destruct (decide (k = en_frame e)) as [->|Hne].
    + eapply Iused; [exact Hp|by left].
    + rewrite list_lookup_insert_ne in Hq by done. by eapply Iused.
Qed.

Lemma tlb_ok_loaded d d' s e i p : tlb_ok d s -> (i < length (tlb s))%nat -> tlb_misses (en_vpage e) s ->
  e ∈ sp_pt d' -> (forall x, x ∈ sp_pt d -> exists x', x' ∈ sp_pt d' /\ tlb_entry x' = tlb_entry x) ->
  tlb_ok d' (loaded s e i p).
Proof.
  intros [Tl Tr Te Tu Ti] Hi Hmiss He Hsub. constructor; unfold loaded; vm_simpl.
  - by rewrite length_insert.
  - done.
  - intros j x Hj Hv. destruct (decide (i = j)) as [->|Hne].
    + rewrite list_lookup_insert_eq in Hj by done. injection Hj as <-. eauto.
    + rewrite list_lookup_insert_ne in Hj by done. destruct (Te j x Hj Hv) as (y & Hy & ->).
      destruct (Hsub y Hy) as (y' & Hy' & E). exists y'. by rewrite E.
  - intros j k x y Hj Hk Hvx Hvy Exy.
    destruct (decide (i = j)) as [<-|Hnj], (decide (i = k)) as [<-|Hnk]; [done|..].
    + rewrite list_lookup_insert_eq in Hj by done. injection Hj as <-. rewrite list_lookup_insert_ne in Hk by done.
      exfalso. by eapply (Hmiss k y).
    + rewrite list_lookup_insert_eq in Hk by done. injection Hk as <-. rewrite list_lookup_insert_ne in Hj by done.
      exfalso. by eapply (Hmiss j x).
    + rewrite list_lookup_insert_ne in Hj, Hk by done. by eapply Tu.
  - intros j x Hj Hv. destruct (decide (i = j)) as [<-|Hne].
    + rewrite list_lookup_insert_eq in Hj by done. injection Hj as <-. by rewrite tlb_entry_valid in Hv.
    + rewrite list_lookup_insert_ne in Hj by done. by eapply Ti.
Qed.

(** Entries of the table keep their mapping when one is appended. *)
Lemma snoc_tlb_entries d e' x : x ∈ sp_pt d ->
  exists x', x' ∈ sp_pt (space_snoc d e') /\ tlb_entry x' = tlb_entry x /\ en_frame x' = en_frame x /\ en_vpage x' = en_vpage x.
Proof.
  unfold space_snoc. cbn [sp_pt]. destruct (sp_pt d) as [|y l _] using rev_ind; [by intros ?%not_elem_of_nil|].
  rewrite pt_snoc_app. intros [Hx|Hx]%elem_of_app.
  - exists x. split_and!; try done. apply elem_of_app. by left.
  - apply list_elem_of_singleton in Hx as ->. exists (set_next_entry (en_ptr e') y).
    split_and!; try done. apply elem_of_app. right. apply list_elem_of_here.
Qed.

Lemma snoc_elem d e' : e' ∈ sp_pt (space_snoc d e').
Proof.
  unfold space_snoc. cbn [sp_pt]. destruct (sp_pt d) as [|y l _] using rev_ind; [apply list_elem_of_here|].
  rewrite pt_snoc_app. apply elem_of_app. right. apply list_elem_of_further, list_elem_of_here.
Qed.

(** The invariant after a page was appended. *)
Lemma vm_inv_appended A s as_ d e' s' : vm_inv A s -> A !! as_ = Some d -> appended s as_ d e' s' ->
  vm_inv (<[as_ := space_snoc d e']> A) s'.
Proof.
  intros I Hd [Hsp [_ Hfr] W Hh Hnew]. rewrite Forall_forall in Hfr.
  eapply (vm_inv_replace A s s' as_ (Some _)); [done|exact W|..].
  - intros x. rewrite elem_of_list_to_set, elem_of_cons. intros [->|Hx]; [right; exists d; split; [done|apply last_link_block]|].
    left. by apply Hfr.
  - intros k p ->%elem_of_singleton Hp Hu. by exfalso; eapply Hnew.
  - intros x Hx. left. rewrite Hh. set_solver.
  - split; [done|]. intros x. rewrite blocks_snoc, elem_of_app. intros [Hx|Hx]; [right; by exists d|left; by apply Hfr].
  - intros k p Hp Hu Hk. exists (space_snoc d e'). split; [done|]. rewrite pages_snoc, elem_of_app.
    destruct Hk as [Hk|(d0 & Hd0 & Hk)]; [right; set_solver|left; congruence].
Qed.

Lemma page_of_fault fa : 0 <= fa < 2 ^ 32 ->
  Z.land fa PAGE_FRAME = fa / PAGE_SIZE * PAGE_SIZE /\ 0 <= Z.land fa PAGE_FRAME < 2 ^ 32 /\ Z.land fa PAGE_FRAME mod PAGE_SIZE = 0.
Proof. intros Hfa. unfold PAGE_FRAME. rewrite land_page_frame by done. unfold PAGE_SIZE. split; [done|]. zlia. Qed.

Section handler.
Context `{VmHeap} `{SwapDevice}.
Context (A : gmap Z space) (s : vm) (d : space) (faulttype fa : Z).
Context (I : vm_inv A s) (Hd : A !! curas s = Some d) (Hfa : 0 <= fa < 2 ^ 32).

Lemma curas_space : space_at s (curas s) d.
Proof. by apply I. Qed.

Lemma curas_pos : 0 < curas s.
Proof. apply (live_block s (curas s) d); [apply curas_space|apply as_in_blocks]. Qed.

(** The handler up to the point where the page table has been searched. *)
Lemma vm_fault_prefix (Q : Z -> vm -> Prop) :
  (¬ in_space d (Z.land fa PAGE_FRAME) -> Q EFAULT s) ->
  (in_space d (Z.land fa PAGE_FRAME) -> forall e, e ∈ sp_pt d -> en_vpage e = Z.land fa PAGE_FRAME ->
    wp (tlb_load (en_vpage e) (as_ppage (en_pte e)) ;;; ret 0) Q s) ->
  (in_space d (Z.land fa PAGE_FRAME) -> Z.land fa PAGE_FRAME ∉ en_vpage <$> sp_pt d ->
    wp (r <- fault_new (curas s) (last_ptr (sp_pt d)) (Z.land fa PAGE_FRAME) ;;
        match r with
        | inl e => ret e
        | inr physical_page => tlb_load (Z.land fa PAGE_FRAME) physical_page ;;; ret 0
        end) Q s) ->
  wp (vm_fault faulttype fa) Q s.
Proof.
  intros HQ1 HQ2 HQ3. pose proof curas_pos as Hpos. pose proof curas_space as Hsp. unfold vm_fault. wp_steps.
  rewrite (proj2 (Z.eqb_neq _ 0)) by lia. wp_step. apply (wp_space_read _ (sp_as d)); [apply Hsp|]. wp_step.
  wp_apply (valid_address_spec s _ d); [exact Hsp|]. intros b s' [-> Hb]. destruct b; cbn [negb].
  - assert (in_space d (Z.land fa PAGE_FRAME)) as Hin by (by apply Hb). wp_step.
    wp_apply (fault_search_spec s _ d); [exact Hsp|]. intros r s' [-> [(e & prev & He & Hv & ->)|[Hn ->]]].
    + destruct (live_block _ _ _ _ Hsp (pt_blocks_in_blocks _ (curas s) d (en_ptr_block e _ He))) as [He0 _].
      rewrite (proj2 (Z.eqb_neq _ 0)) by lia. rewrite <- Hv. by apply HQ2.
    + rewrite Z.eqb_refl. by apply HQ3.
  - wp_step. apply HQ1. intros Hin. by apply Hb in Hin.
Qed.
End handler.

(** ** Properties *)

Lemma vm_fault_efault_spec `{VmHeap} `{SwapDevice} (A : gmap Z space) (s : vm) (d : space) (faulttype fa : Z) :
  vm_inv A s -> A !! curas s = Some d -> 0 <= fa < 2 ^ 32 -> ¬ in_space d (fa / PAGE_SIZE * PAGE_SIZE) ->
  vm_fault faulttype fa s = Done EFAULT s.
Proof.
  intros I Hd Hfa Hn. destruct (page_of_fault fa Hfa) as [E _]. rewrite <- E in Hn.
  assert (wp (vm_fault faulttype fa) (fun r s' => r = EFAULT /\ s' = s) s) as Hw.
  { apply (vm_fault_prefix A s d faulttype fa I Hd); done. }
  unfold wp in Hw. destruct (vm_fault faulttype fa s); [|done..]. by destruct Hw as [-> ->].
Qed.

(** a fault outside the stack, the heap and every region is refused with
    [EFAULT] and changes nothing. *)
Theorem vm_fault_efault `{VmHeap} `{SwapDevice} (A : gmap Z space) (s : vm) (d : space) (faulttype fa : Z) :
  vm_inv A s -> A !! curas s = Some d -> 0 <= fa < 2 ^ 32 -> ¬ in_space d (fa / PAGE_SIZE * PAGE_SIZE) ->
  vm_fault faulttype fa s = Done EFAULT s.
Proof. apply vm_fault_efault_spec. Qed.

Lemma vm_fault_efault_witness : vm_fault 0 8388608 (ex_sys 3) = Done EFAULT (ex_sys 3).
Proof.
  apply (vm_fault_efault ex_spaces (ex_sys 3) ex_space); [exact (ex_sys_inv 3)|reflexivity|lia|].
  unfold in_space. simpl. unfold PAGE_SIZE, USERSTACK, USERSPACETOP, MIPS_KSEG0, VM_STACKPAGES.
  change (8388608 / 4096 * 4096) with 8388608. intros [Hs|[Hh|(q & r & Hin & Hr)]]; [lia|lia|].
  apply list_elem_of_singleton in Hin. injection Hin as -> ->. vm_compute in Hr. destruct Hr as [_ Hr]. discriminate.
Defined.

Lemma vm_fault_resident_spec `{VmHeap} `{SwapDevice} (A : gmap Z space) (s : vm) (d : space) (faulttype fa : Z) (e : entry) :
  vm_inv A s -> A !! curas s = Some d -> 0 <= fa < 2 ^ 32 -> tlb_ok d s ->
  in_space d (fa / PAGE_SIZE * PAGE_SIZE) -> tlb_misses (fa / PAGE_SIZE * PAGE_SIZE) s ->
  e ∈ sp_pt d -> en_vpage e = fa / PAGE_SIZE * PAGE_SIZE ->
  wp (vm_fault faulttype fa) (fun r s' => r = 0 /\ vm_inv A s' /\ tlb_ok d s' /\ tlb_entry e ∈ tlb s' /\
    frames s' = frames s /\ heap s' = heap s /\ ptes s' = ptes s /\ curas s' = curas s) s.
Proof.
  intros I Hd Hfa Htlb Hin Hmiss He Hv. destruct (page_of_fault fa Hfa) as [E _]. rewrite <- E in *.
  pose proof (curas_space A s d I Hd) as Hsp. apply (vm_fault_prefix A s d faulttype fa I Hd).
  - done.
  - intros _ e' He' Hv'. assert (e' = e) as -> by (eapply space_entry_unique; [exact Hsp|done|done|congruence]).
    pose proof (sa_entries _ _ _ Hsp) as Hents. rewrite Forall_forall in Hents. destruct (Hents e He) as [_ _ _ _ Hpa _ (p & Hp & Hst & _)].
    wp_step. wp_apply (tlb_load_spec s e p); [apply Htlb|apply Htlb|done|done|]. intros _ s' (i & Hi & ->). wp_step.
    rewrite <- Hv in Hmiss. split_and!; [done|by apply vm_inv_loaded| | |done|done|done|done].
    + eapply tlb_ok_loaded; [done..|]. intros x Hx. eauto.
    + unfold loaded. vm_simpl. apply list_elem_of_lookup. exists i. by apply list_lookup_insert_eq.
  - intros _ Hn. exfalso. apply Hn. rewrite <- Hv. apply list_elem_of_fmap. eauto.
Qed.

(** a fault on a page the address space has resident returns 0: the TLB
    then holds the page's own frame (writable and valid), holds no page
    twice and no page of another address space, and no page, page table or
    memory contents change. *)
Theorem vm_fault_resident `{VmHeap} `{SwapDevice} (A : gmap Z space) (s : vm) (d : space) (faulttype fa : Z) (e : entry) :
  vm_inv A s -> A !! curas s = Some d -> 0 <= fa < 2 ^ 32 -> tlb_ok d s ->
  in_space d (fa / PAGE_SIZE * PAGE_SIZE) -> tlb_misses (fa / PAGE_SIZE * PAGE_SIZE) s ->
  e ∈ sp_pt d -> en_vpage e = fa / PAGE_SIZE * PAGE_SIZE ->
  wp (vm_fault faulttype fa) (fun r s' => r = 0 /\ vm_inv A s' /\ tlb_ok d s' /\ tlb_entry e ∈ tlb s' /\
    frames s' = frames s /\ heap s' = heap s /\ ptes s' = ptes s /\ curas s' = curas s) s.
Proof. apply vm_fault_resident_spec. Qed.

Lemma ex_tlb_ok n : tlb_ok ex_space (ex_sys n) /\ forall va, tlb_misses va (ex_sys n).
Proof.
  assert (forall i x, tlb (ex_sys n) !! i = Some x -> tlb_valid x.2 = false) as Hinv.
  { intros i x Hx. unfold ex_sys in Hx. vm_simpl. rewrite list_lookup_fmap in Hx.
    destruct (seq 0 64 !! i); [|done]. by injection Hx as <-. }
  split; [constructor; try done|].
  - intros i x Hx Hv. by rewrite (Hinv i x Hx) in Hv.
  - intros i j x y Hx _ Hv. by rewrite (Hinv i x Hx) in Hv.
  - intros i x Hx _. unfold ex_sys in Hx. vm_simpl. rewrite list_lookup_fmap in Hx.
    destruct (seq 0 64 !! i) as [k|] eqn:Ek; [|done]. injection Hx as <-. apply lookup_seq in Ek as [-> Hi].
    do 64 (destruct i as [|i]; [by vm_compute|]). lia.
  - intros va i x Hx Hv. by rewrite (Hinv i x Hx) in Hv.
Qed.

Lemma ex_in_space fa : 4194304 <= fa < 4206592 -> in_space ex_space fa.
Proof. intros Hfa. right; right. exists 55, ex_region. split; [apply list_elem_of_here|]. simpl. rewrite u32_id; lia. Qed.

Lemma vm_fault_resident_witness :
  wp (vm_fault 0 4194999) (fun r s' => r = 0 /\ (4194304, Z.lor (Z.lor 16384 TLBLO_DIRTY) TLBLO_VALID) ∈ tlb s') (ex_sys 3).
Proof.
  destruct (ex_tlb_ok 3) as [Ht Hm].
  eapply wp_mono; [apply (vm_fault_resident ex_spaces (ex_sys 3) ex_space 0 4194999 (Entry 51 ex_pte (Sleeplock false 53 54)));
    [exact (ex_sys_inv 3)|reflexivity|lia|exact Ht|apply ex_in_space; vm_compute; split; [intros ?; discriminate|reflexivity]|apply Hm|apply list_elem_of_here|reflexivity]|].
  intros r s' (Hr & _ & _ & Ht' & _). split; [exact Hr|exact Ht'].
Defined.

Lemma vm_fault_demand_zero_spec `{VmHeap} `{SwapDevice} (A : gmap Z space) (s : vm) (d : space) (faulttype fa : Z) :
  vm_inv A s -> A !! curas s = Some d -> 0 <= fa < 2 ^ 32 -> tlb_ok d s ->
  in_space d (fa / PAGE_SIZE * PAGE_SIZE) -> tlb_misses (fa / PAGE_SIZE * PAGE_SIZE) s ->
  fa / PAGE_SIZE * PAGE_SIZE ∉ en_vpage <$> sp_pt d ->
  wp (vm_fault faulttype fa) (fun r s' =>
    (r = 0 /\ exists e', en_vpage e' = fa / PAGE_SIZE * PAGE_SIZE /\
       vm_inv (<[curas s := space_snoc d e']> A) s' /\ tlb_ok (space_snoc d e') s' /\ tlb_entry e' ∈ tlb s' /\
       frames s' !! Z.of_nat (en_frame e') = Some zero_page /\ curas s' = curas s /\
       forall as1 d1 e1, A !! as1 = Some d1 -> e1 ∈ sp_pt d1 ->
         en_frame e1 <> en_frame e' /\ frames s' !! Z.of_nat (en_frame e1) = frames s !! Z.of_nat (en_frame e1)) \/
    (r = ENOMEM /\ ((vm_inv A s' /\ exists F, within F ∅ s s') \/ dangling s (curas s) d s'))) s.
Proof.
  intros I Hd Hfa Htlb Hin Hmiss Hn. destruct (page_of_fault fa Hfa) as (E & Hr & Hal). rewrite <- E in *.
  pose proof (curas_space A s d I Hd) as Hsp. apply (vm_fault_prefix A s d faulttype fa I Hd); [done|..].
  - intros _ e He Hv. exfalso. apply Hn. rewrite <- Hv. apply list_elem_of_fmap. eauto.
  - intros _ _. wp_step. wp_apply (fault_new_spec s _ d); [apply I|done..|]. intros [er|pp] s1.
    + intros [-> Hf]. wp_step. right. split; [done|]. destruct Hf as [(F & HF & W & Hh)|]; [left|by right]. split; [|by exists F].
      eapply vm_inv_within; [exact I|exact W|done|set_solver|set_solver|by rewrite Hh].
    + intros (e' & Ha & Hv & <- & Hz). pose proof (vm_inv_appended A s _ d e' s1 I Hd Ha) as I1. destruct Ha as [Hsp1 Hfr W Hh Hnew].
      pose proof (sa_entries _ _ _ Hsp1) as Hents. rewrite Forall_forall in Hents.
      destruct (Hents e' (snoc_elem d e')) as [_ _ _ _ Hpa _ (p & Hp & Hst & _)]. destruct (wi_tlb _ _ _ _ W) as [Wt Wr].
      wp_step. rewrite <- Hv. wp_apply (tlb_load_spec s1 e' p); [rewrite Wt; apply Htlb|rewrite Wr; apply Htlb|done|done|].
      intros _ s' (i & Hi & ->). wp_step. left. split; [done|]. exists e'. split_and!; [done|by apply vm_inv_loaded|..].
      * eapply (tlb_ok_loaded d); [|done| |apply snoc_elem|].
        -- destruct Htlb. constructor; rewrite ?Wt, ?Wr; done.
        -- unfold tlb_misses. rewrite Wt, Hv. done.
        -- intros x Hx. destruct (snoc_tlb_entries d e' x Hx) as (x' & ? & ? & _). eauto.
      * unfold loaded. vm_simpl. apply list_elem_of_lookup. exists i. by apply list_lookup_insert_eq.
      * done.
      * apply (wi_cur _ _ _ _ W).
      * intros as1 d1 e1 H1 He1. destruct (page_not_user s as1 d1 (en_frame e1)) as (q & Hq & Hu); [by apply I|apply list_elem_of_fmap; eauto|].
        assert (en_frame e1 <> en_frame e') as Hne by (intros Ef; rewrite Ef in Hq; by eapply Hnew).
        split; [done|]. unfold loaded. vm_simpl. apply (wi_frames _ _ _ _ W _ q); rewrite ?Nat2Z.id; [set_solver|done|done].
Qed.

(** C40: a fault on a valid page that is not resident returns 0 after giving
    it a physical page of its own, filled with zeros, appending it to the
    page table and loading the TLB, with every other page of the system as
    it was; or it returns [ENOMEM], and then the system is as before unless
    the page allocator was what failed, in which case the page table links
    to the entry just freed. *)
Theorem vm_fault_demand_zero `{VmHeap} `{SwapDevice} (A : gmap Z space) (s : vm) (d : space) (faulttype fa : Z) :
  vm_inv A s -> A !! curas s = Some d -> 0 <= fa < 2 ^ 32 -> tlb_ok d s ->
  in_space d (fa / PAGE_SIZE * PAGE_SIZE) -> tlb_misses (fa / PAGE_SIZE * PAGE_SIZE) s ->
  fa / PAGE_SIZE * PAGE_SIZE ∉ en_vpage <$> sp_pt d ->
  wp (vm_fault faulttype fa) (fun r s' =>
    (r = 0 /\ exists e', en_vpage e' = fa / PAGE_SIZE * PAGE_SIZE /\
       vm_inv (<[curas s := space_snoc d e']> A) s' /\ tlb_ok (space_snoc d e') s' /\ tlb_entry e' ∈ tlb s' /\
       frames s' !! Z.of_nat (en_frame e') = Some zero_page /\ curas s' = curas s /\
       forall as1 d1 e1, A !! as1 = Some d1 -> e1 ∈ sp_pt d1 ->
         en_frame e1 <> en_frame e' /\ frames s' !! Z.of_nat (en_frame e1) = frames s !! Z.of_nat (en_frame e1)) \/
    (r = ENOMEM /\ ((vm_inv A s' /\ exists F, within F ∅ s s') \/ dangling s (curas s) d s'))) s.
Proof. apply vm_fault_demand_zero_spec. Qed.

Lemma vm_fault_demand_zero_witness :
  wp (vm_fault 1 4198500) (fun r s' => r = 0 /\ frames s' !! 5 = Some zero_page) (ex_sys 3) /\
  wp (vm_fault 1 4198500) (fun r s' => r = 0 \/ r = ENOMEM) (ex_sys 3).
Proof.
  split; [vm_compute; split; reflexivity|]. destruct (ex_tlb_ok 3) as [Ht Hm].
  eapply wp_mono; [apply (vm_fault_demand_zero ex_spaces (ex_sys 3) ex_space 1 4198500);
    [exact (ex_sys_inv 3)|reflexivity|lia|exact Ht|apply ex_in_space; vm_compute; split; [intros ?; discriminate|reflexivity]|apply Hm|]|].
  - intros Hx. apply list_elem_of_singleton in Hx. vm_compute in Hx. discriminate.
  - intros r s' [[Hr _]|[Hr _]]; [left|right]; exact Hr.
Defined.

Lemma vm_fault_dangled `{VmHeap} `{SwapDevice} (s : vm) (as_ : Z) (d : space) (q lk : Z) (s' : vm) (faulttype fa : Z) :
  space_at s as_ d -> curas s = as_ -> dangles q lk s as_ d s' -> 0 <= fa < 2 ^ 32 -> in_space d (fa / PAGE_SIZE * PAGE_SIZE) ->
  fa / PAGE_SIZE * PAGE_SIZE ∉ en_vpage <$> sp_pt d -> vm_fault faulttype fa s' = Fault.
Proof.
  intros Hsp Hc Hdg Hfa Hin Hn. destruct (page_of_fault fa Hfa) as [E _]. rewrite <- E in *.
  destruct (dangles_table q lk s as_ d s' Hsp Hdg) as (a & l & [Ds (Er & Es & Ee) Dl Dp Df De Dr]). destruct Hdg as [Hpos _ W _ Hgone].
  destruct (live_block _ _ _ _ Hsp (as_in_blocks as_ d)) as [Hasp _]. unfold vm_fault, bind at 1, get at 1. rewrite (wi_cur _ _ _ _ W), Hc.
  rewrite (proj2 (Z.eqb_neq as_ 0)) by lia. unfold space_read, bind at 1, bind at 1, get at 1. rewrite Ds. cbn [deref]. unfold ret at 1.
  pose proof (valid_address_regions s' a d (Z.land fa PAGE_FRAME) Er Es Ee (sa_rlinks _ _ _ Hsp) (proj1 (space_regions s as_ d Hsp)) Dr) as Hv.
  unfold bind at 1. unfold wp in Hv. destruct (valid_address a _ s') as [b s1| | |]; [|done..]. destruct Hv as [-> Hb].
  rewrite (proj2 Hb Hin). cbn [negb]. unfold bind at 1. rewrite (fault_search_faults s' as_ _ q Hpos Hgone l); [done|done|done|by rewrite Dp|done].
Qed.


