(* ===== verification/Sbrk.v ===== *)
(** * Moving the end of the heap (kern/syscall/proc_syscalls.c, [sys_sbrk])

    Growing the heap moves its end; shrinking it removes the pages between
    the new and the old end from the page table, the TLB and memory. *)

From S2P Require Import Prelude KHeap Bitmap VmState Coremap VmHeap Swap AddrSpace SpaceInv VmExample SpaceOps SpaceCopy VmInv VmFault.

Section sbrk.
Context `{VmHeap} `{SwapDevice}.

(** Give back the page of the entry found; [true] when the page is being
    evicted and the code tries again. *)
Definition sbrk_release (remove_vaddr : Z) (e : pte) : M vm bool :=
  lock_acquire (pte_lock e) ;;;
  match pte_state e with
  | SWAPPED => unmark_swap_bitmap (diskpage_location e) ;;; ret false
  | _ =>
      err <- release_physical_page (as_ppage e) ;;
      if negb (err =? 0) then lock_release (pte_lock e) ;;; ret true
      else tlb_invalidate_entry remove_vaddr ;;; ret false
  end.

(** Take the entry out of the table and free it. *)
Definition sbrk_unlink (addr_space current_pte previous_pte : Z) (e : pte) : M vm unit :=
  lock_release (pte_lock e) ;;;
  a <- space_read addr_space ;;
  (if current_pte =? start_page_table a then
     space_put addr_space (Addrspace (start_region a) (pte_next e) (heap_start a) (heap_end a))
   else
     p <- pte_at previous_pte ;;
     pte_put previous_pte (set_pte_next (pte_next e) p)) ;;;
  lock_destroy (pte_lock e) ;;;
  free_pte current_pte.

(** The inner loop: find the entry of [remove_vaddr] and remove it. *)
Definition sbrk_remove (addr_space remove_vaddr : Z) : M vm unit :=
  a <- space_read addr_space ;;
  s <- get ;;
  loop_ (pte_fuel s) (start_page_table a, 0) (fun '(current_pte, previous_pte) =>
    if current_pte =? 0 then ret (inr tt) else
    e <- pte_at current_pte ;;
    if as_vpage e =? remove_vaddr then
      retry <- sbrk_release remove_vaddr e ;;
      if retry then ret (inl (current_pte, previous_pte)) else
      sbrk_unlink addr_space current_pte previous_pte e ;;;
      ret (inr tt)
    else ret (inl (pte_next e, current_pte))).

Definition set_heap_end (addr_space heap_end : Z) : M vm unit :=
  a <- space_read addr_space ;;
  space_put addr_space (Addrspace (start_region a) (start_page_table a) (heap_start a) heap_end).

Definition sys_sbrk (increment : Z) : M vm (err Z) :=
  s <- get ;;
  let addr_space := curas s in
  kassert (negb (addr_space =? 0)) ;;;
  a <- space_read addr_space ;;
  let old_heap_end := s32 (heap_end a) in
  if increment =? 0 then ret (inr (heap_end a)) else
  let new_heap_end := s32 (old_heap_end + increment) in
  if ((0 <? increment) && (new_heap_end <? old_heap_end))
     || ((increment <? 0) && (new_heap_end <? s32 (heap_start a)))
  then ret (inl (if 0 <? increment then ENOMEM else EINVAL)) else
  if (0 <? increment) && (s32 (USERSTACK - VM_STACKPAGES * PAGE_SIZE) <=? new_heap_end) then ret (inl ENOMEM) else
  if negb (Z.rem increment PAGE_SIZE =? 0) then ret (inl EINVAL) else
  let num_pages := Z.quot increment PAGE_SIZE in
  if num_pages =? 0 then ret (inr (heap_end a)) else
  (if 0 <? increment then set_heap_end addr_space (u32 new_heap_end)
   else
     for_ (Z.to_nat (- num_pages)) 0 (fun i =>
       sbrk_remove addr_space (u32 (old_heap_end - (i + 1) * PAGE_SIZE)) ;;;
       @ret vm (option unit) None) ;;;
     set_heap_end addr_space (u32 new_heap_end)) ;;;
  ret (inr (u32 old_heap_end)).
End sbrk.

(** ** The TLB after an invalidation *)

Definition tlb_dropped (va : Z) (t : list (Z * Z)) : list (Z * Z) :=
  match list_find (fun e => tlb_match va e = true) t with
  | Some (i, _) => <[i := (TLBHI_INVALID (Z.of_nat i), TLBLO_INVALID)]> t
  | None => t
  end.

Lemma tlb_invalidate_done va s : tlb_invalidate_entry va s = Done tt (set_tlb (tlb_dropped va (tlb s)) s).
Proof.
  unfold tlb_invalidate_entry, splhigh, splx, tlb_probe, tlb_dropped, bind, get, modify, ret. vm_simpl.
  destruct (list_find _ (tlb s)) as [[i x]|] eqn:E.
  - apply list_find_Some in E as (Hi & _ & _). rewrite (proj2 (Z.leb_le 0 _)) by lia.
    unfold tlb_write, tlb_read, bind, get, deref, modify. vm_simpl. rewrite Nat2Z.id, Hi. simpl. by destruct s.
  - simpl. by destruct s.
Qed.

Lemma land_page_aligned x : 0 <= x < 2 ^ 32 -> x mod PAGE_SIZE = 0 -> Z.land x TLBHI_VPAGE = x.
Proof. intros Hx Ha. unfold TLBHI_VPAGE. rewrite land_page_frame by done. unfold PAGE_SIZE in Ha. zlia. Qed.

(** Dropping the page of the entry that leaves the table. *)
Lemma tlb_ok_dropped d d' s s' va : tlb_ok d s -> 0 <= va < MIPS_KSEG0 -> va mod PAGE_SIZE = 0 ->
  tlb s' = tlb_dropped va (tlb s) -> c0_random s' = c0_random s ->
  (forall x, x ∈ sp_pt d -> 0 <= en_vpage x < 2 ^ 32 /\ en_vpage x mod PAGE_SIZE = 0) ->
  (forall x, x ∈ sp_pt d -> en_vpage x <> va -> exists x', x' ∈ sp_pt d' /\ tlb_entry x' = tlb_entry x) -> tlb_ok d' s'.
Proof.
  intros [Tl Tr Te Tu Ti] Hva Hal Et Er Hwf Hsub. unfold tlb_dropped in Et.
  assert (forall j x, tlb s !! j = Some x -> tlb_valid x.2 = true -> x.1 = va -> tlb_match va x = true) as Hmatch.
  { intros j x Hj Hv <-. unfold tlb_match. by rewrite !Z.eqb_refl, orb_true_r. }
  assert (forall j x, tlb s !! j = Some x -> tlb_match va x = true -> tlb_valid x.2 = true /\ x.1 = va) as Hmatch'.
  { intros j x Hj Hm. unfold tlb_match in Hm. apply andb_true_iff in Hm as [Hm _]. apply Z.eqb_eq in Hm.
    rewrite (land_page_aligned va) in Hm by (unfold MIPS_KSEG0 in *; lia || done).
    destruct (tlb_valid x.2) eqn:Hv; [|specialize (Ti j x Hj Hv); lia]. split; [done|].
    destruct (Te j x Hj Hv) as (e & He & ->). destruct (Hwf e He) as [Hr Ha]. unfold tlb_entry in *. cbn [fst] in *.
    by rewrite land_page_aligned in Hm. }
  assert (forall j x, tlb s' !! j = Some x -> tlb_valid x.2 = true -> tlb s !! j = Some x /\ x.1 <> va) as Hkeep.
  { intros j x Hj Hv. rewrite Et in Hj. destruct (list_find _ (tlb s)) as [[i y]|] eqn:E.
    - apply list_find_Some in E as (Hi & Hm & _). destruct (decide (i = j)) as [<-|Hne].
      + rewrite list_lookup_insert_eq in Hj by (by eapply lookup_lt_Some). by injection Hj as <-.
      + rewrite list_lookup_insert_ne in Hj by done. split; [done|]. intros Ex. destruct (Hmatch' i y Hi Hm) as [Hvy Ey].
        apply Hne. apply (Tu i j y x); congruence.
    - split; [done|]. intros Ex. apply list_find_None in E. rewrite Forall_forall in E.
      eapply E; [by eapply list_elem_of_lookup_2|]. by eapply Hmatch. }
  constructor.
  - rewrite Et. case_match; [|done]. destruct p. by rewrite length_insert.
  - by rewrite Er.
  - intros j x Hj Hv. destruct (Hkeep j x Hj Hv) as [Hj' Hne]. destruct (Te j x Hj' Hv) as (e & He & ->).
    destruct (Hsub e He Hne) as (e' & He' & <-). eauto.
  - intros j k x y Hj Hk Hvx Hvy Exy. apply Hkeep in Hj as [Hj _]; [|done]. apply Hkeep in Hk as [Hk _]; [|done]. by eapply Tu.
  - intros j x Hj Hv. rewrite Et in Hj. destruct (list_find _ (tlb s)) as [[i y]|] eqn:E; [|by eapply Ti].
    destruct (decide (i = j)) as [<-|Hne]; [|rewrite list_lookup_insert_ne in Hj by done; by eapply Ti].
    apply list_find_Some in E as (Hi & _ & _). pose proof (lookup_lt_Some _ _ _ Hi) as Hlt. rewrite Tl in Hlt.
    rewrite list_lookup_insert_eq in Hj by (by eapply lookup_lt_Some). injection Hj as <-. cbn [fst].
    unfold TLBHI_INVALID. rewrite Z.shiftl_mul_pow2 by lia. unfold NUM_TLB in Hlt.
    rewrite land_page_aligned; unfold MIPS_KSEG0, PAGE_SIZE; [lia|lia|]. rewrite Z.mod_mul; lia.
Qed.

(** ** Removing one page *)

Lemma cm_ok_set_tlb t s : cm_ok s -> cm_ok (set_tlb t s).
Proof. intros Hok. by apply (cm_ok_ext s); try done; apply (co_unlocked _ Hok). Qed.

Lemma within_set_tlb X P s s' t : within X P s s' -> within X P (set_tlb t s) (set_tlb t s').
Proof. intros []. constructor; try done; [by apply cm_ok_set_tlb|]. split; [done|]. by apply wi_tlb. Qed.

Lemma space_at_set_tlb s as_ d t : space_at s as_ d -> space_at (set_tlb t s) as_ d.
Proof.
  intros []. constructor; try done. eapply Forall_impl; [exact sa_entries|]. intros e []. by constructor.
Qed.

Lemma vm_inv_set_tlb A s t : vm_inv A s -> vm_inv A (set_tlb t s).
Proof.
  intros [Icm Iat Idisj Iused]. constructor; try done; [by apply cm_ok_set_tlb|].
  intros as_ d Hd. by apply space_at_set_tlb, Iat.
Qed.

Lemma set_tlb_id s : set_tlb (tlb s) s = s.
Proof. by destruct s. Qed.

(** The entry [e] is gone from the table, with its blocks, its page and its
    TLB slot. *)
Record removed (s : vm) (as_ : Z) (d : space) (l1 : list entry) (e : entry) (l2 : list entry) (s' : vm) : Prop := {
  rm_space : space_at s' as_ (space_drop d l1 e l2);
  rm_within : within (list_to_set (link_cell as_ l1 :: en_blocks e)) {[en_frame e]} s (set_tlb (tlb s) s');
  rm_heap : heap s' = heap s ∖ list_to_set (en_blocks e);
  rm_tlb : tlb s' = tlb_dropped (en_vpage e) (tlb s);
  rm_free : forall p, coremap s' !! en_frame e = Some p -> ¬ user_page p;
}.

Section remove.
Context `{VmHeap} `{SwapDevice}.

Lemma sbrk_release_spec s as_ e : cm_ok s -> entry_ok s as_ e -> 0 < pte_lock (en_pte e) ->
  wp (sbrk_release (en_vpage e) (en_pte e)) (fun r s' => r = false /\ exists s2,
    within {[pte_lock (en_pte e)]} {[en_frame e]} s s2 /\ heap s2 = heap s /\ coremap s2 !! en_frame e = Some free_page /\
    locks s2 !! pte_lock (en_pte e) = Some (Sleeplock true (lk_name (en_lock e)) (lk_wchan (en_lock e))) /\
    s' = set_tlb (tlb_dropped (en_vpage e) (tlb s)) s2) s.
Proof.
  intros Hok [Hpte Hlk Hheld Hst Hpa _ (p & Hp & Hps & _ & _)] Hpos.
  set (lk := pte_lock (en_pte e)) in *. set (i := Z.of_nat (en_frame e)) in *.
  unfold sbrk_release. fold lk. wp_step. apply (wp_lock_acquire lk (en_lock e)); [done..|]. rewrite Hst. wp_step. rewrite Hpa. fold i.
  set (hl := Sleeplock true _ _). pose proof (within_lock lk hl s Hok) as W1. set (s1 := set_locks _ s) in *.
  assert (coremap s1 !! Z.to_nat i = Some p) as Hp1 by (by replace (Z.to_nat i) with (en_frame e) by lia).
  pose proof (user_page_managed s1 _ p (wi_ok _ _ _ _ W1) Hp1 ltac:(congruence)).
  wp_apply (release_physical_page_spec s1 i p); [apply W1|lia|done|by left|].
  rewrite Hps. intros r s2 (-> & E2 & Hok2). cbn [Z.eqb negb].
  pose proof (within_ufree s1 i p (wi_ok _ _ _ _ W1) ltac:(lia) Hp1 Hps) as W2. rewrite <- E2 in W2.
  wp_step. unfold wp at 1. rewrite tlb_invalidate_done. wp_step. split; [done|]. exists s2.
  replace (Z.to_nat i) with (en_frame e) in * by lia. split_and!.
  - eapply within_trans; [wmono W1|wmono W2].
  - by rewrite E2.
  - rewrite E2. unfold ufree_state. vm_simpl. replace (Z.to_nat i) with (en_frame e) by lia.
    apply list_lookup_insert_eq. by eapply lookup_lt_Some.
  - rewrite E2. apply lookup_insert_eq.
  - by rewrite E2.
Qed.

(** The blocks of [e] are its own. *)
Lemma drop_blocks s as_ d l1 e l2 : space_at s as_ d -> sp_pt d = l1 ++ e :: l2 ->
  NoDup (en_blocks e) /\ (forall x, x ∈ en_blocks e -> 0 < x /\ x ∈ heap s) /\
  (link_cell as_ l1 ∉ en_blocks e) /\ (as_ ∉ en_blocks e) /\
  (match l1 with [] => True | x :: _ => en_ptr x <> en_ptr e end).
Proof.
  intros Hsp E. pose proof (sa_nodup _ _ _ Hsp) as Hnd. rewrite (blocks_drop as_ d l1 e l2 E) in Hnd.
  apply NoDup_app in Hnd as (Hnde & Hd & _).
  assert (forall x, x ∈ blocks as_ (space_drop d l1 e l2) -> x ∉ en_blocks e) as Hdis by (intros x Hx Hxe; by eapply Hd).
  assert (forall x, x ∈ l1 -> en_ptr x ∉ en_blocks e) as Hl1.
  { intros x Hx. apply Hdis, pt_blocks_in_blocks. unfold space_drop. cbn [sp_pt]. rewrite pt_blocks_app, pt_relink_blocks.
    apply elem_of_app. left. by apply en_ptr_block. }
  split_and!; [done| | |apply Hdis, as_in_blocks|].
  - intros x Hx. apply (live_block s as_ d); [done|]. apply pt_blocks_in_blocks, elem_of_pt_blocks. exists e. split; [|done].
    rewrite E. apply elem_of_app. right. apply list_elem_of_here.
  - unfold link_cell. destruct (last l1) as [x|] eqn:El; [|apply Hdis, as_in_blocks].
    apply Hl1. apply last_Some in El as [l' ->]. apply elem_of_app. right. apply list_elem_of_here.
  - destruct l1 as [|x l1]; [done|]. intros Ex. apply (Hl1 x); [apply list_elem_of_here|]. rewrite Ex. apply list_elem_of_here.
Qed.

(** Writing the link around the entry [e]. *)
Lemma sbrk_relink_spec s s4 as_ d l1 e l2 (X : gset Z) : space_at s as_ d -> sp_pt d = l1 ++ e :: l2 ->
  cm_ok s4 -> X ⊆ list_to_set (en_blocks e) ->
  (forall x, x ∉ X -> ptes s4 !! x = ptes s !! x /\ spaces s4 !! x = spaces s !! x) ->
  wp (if en_ptr e =? start_page_table (sp_as d)
      then space_put as_ (Addrspace (start_region (sp_as d)) (pte_next (en_pte e)) (heap_start (sp_as d)) (heap_end (sp_as d)))
      else p <- pte_at (last_ptr l1) ;; pte_put (last_ptr l1) (set_pte_next (pte_next (en_pte e)) p))
    (fun _ s5 => relinked s5 as_ d l1 (pte_next (en_pte e)) /\ within {[link_cell as_ l1]} ∅ s4 s5 /\ heap s5 = heap s4) s4.
Proof.
  intros Hsp E Hok HX Hsame. destruct (drop_blocks s as_ d l1 e l2 Hsp E) as (_ & _ & Hlce & Has & Hhead).
  assert (forall x, x ∉ en_blocks e -> ptes s4 !! x = ptes s !! x /\ spaces s4 !! x = spaces s !! x) as Hsame'.
  { intros x Hx. apply Hsame. intros HxX. apply Hx. apply HX in HxX. by apply elem_of_list_to_set in HxX. }
  assert (spaces s4 !! as_ = Some (sp_as d)) as Hs4 by (rewrite (proj2 (Hsame' as_ Has)); apply Hsp).
  pose proof (sa_links _ _ _ Hsp) as Hl. rewrite E in Hl. unfold relinked, link_cell, last_ptr in *.
  destruct (last l1) as [x|] eqn:El.
  - assert (en_ptr e <> start_page_table (sp_as d)) as Hne.
    { destruct l1 as [|z k]; [done|]. destruct Hl as [-> _]. intros Ee. by apply Hhead. }
    assert (ptes s4 !! en_ptr x = Some (en_pte x)) as Hx.
    { rewrite (proj1 (Hsame' _ Hlce)). pose proof (sa_entries _ _ _ Hsp) as Hents. rewrite Forall_forall in Hents.
      apply (Hents x). rewrite E. apply last_Some in El as [l' ->]. rewrite <- app_assoc. apply elem_of_app. right. apply list_elem_of_here. }
    rewrite (proj2 (Z.eqb_neq _ _)) by done. wp_step. apply (wp_pte_at _ (en_pte x)); [done|]. apply (wp_pte_put _ (en_pte x)); [done|].
    split_and!; [done|apply lookup_insert_eq| |done].
    apply within_set_ptes; [done|]. intros y Hy. apply (insert_outside _ _ _ {[en_ptr x]}); set_solver.
  - apply last_None in El as ->. destruct Hl as [-> _]. rewrite Z.eqb_refl.
    apply (wp_space_put _ (sp_as d)); [done|]. split_and!; [apply lookup_insert_eq| |done].
    apply within_set_spaces; [done|]. intros y Hy. apply (insert_outside _ _ _ {[as_]}); set_solver.
Qed.

(** Putting the facts about a removal together. *)
Lemma removed_intro s s3 s5 s7 as_ d l1 e l2 : space_at s as_ d -> sp_pt d = l1 ++ e :: l2 ->
  within {[pte_lock (en_pte e)]} {[en_frame e]} s (set_tlb (tlb s) s3) ->
  within (list_to_set (link_cell as_ l1 :: en_blocks e)) ∅ s3 s5 -> within (list_to_set (en_blocks e)) ∅ s5 s7 ->
  coremap s3 !! en_frame e = Some free_page -> tlb s3 = tlb_dropped (en_vpage e) (tlb s) ->
  relinked s5 as_ d l1 (pte_next (en_pte e)) -> heap s7 = heap s ∖ list_to_set (en_blocks e) ->
  removed s as_ d l1 e l2 s7.
Proof.
  intros Hsp E W3 W5 W7 Hc3 Ht3 Hre Hh. destruct (drop_blocks s as_ d l1 e l2 Hsp E) as (_ & _ & Hlce & Has & _).
  assert (within (list_to_set (link_cell as_ l1 :: en_blocks e)) ∅ s3 s7) as W37 by (eapply within_trans; [exact W5|wmono W7]).
  assert (within (list_to_set (link_cell as_ l1 :: en_blocks e)) {[en_frame e]} s (set_tlb (tlb s) s7)) as W.
  { eapply within_trans; [eapply within_mono; [exact W3| |done]|apply within_set_tlb; wmono W37].
    intros x ->%elem_of_singleton. apply elem_of_list_to_set. do 2 apply list_elem_of_further. apply list_elem_of_here. }
  assert (relinked s7 as_ d l1 (pte_next (en_pte e))) as Hre7.
  { assert (forall x, x ∉ en_blocks e -> spaces s7 !! x = spaces s5 !! x /\ ptes s7 !! x = ptes s5 !! x) as Hk.
    { intros x Hx. split; [apply (wi_spaces _ _ _ _ W7)|apply (wi_ptes _ _ _ _ W7)]; by rewrite elem_of_list_to_set. }
    unfold relinked, link_cell in *. destruct (last l1) as [x|]; destruct (Hk as_ Has) as [-> _]; [|done].
    by destruct (Hk (en_ptr x) Hlce) as [_ ->]. }
  constructor; [|done|done| |].
  - replace s7 with (set_tlb (tlb s7) (set_tlb (tlb s) s7)) by (by destruct s7). apply space_at_set_tlb.
    eapply (space_at_drop _ _ s); [exact Hsp|exact E|exact W|..].
    + intros x _. rewrite elem_of_list_to_set, elem_of_cons. tauto.
    + intros k. by rewrite elem_of_singleton.
    + intros x Hx Hxe. vm_simpl. rewrite Hh. apply elem_of_difference. rewrite elem_of_list_to_set. split; [|done]. by apply (live_block s as_ d).
    + exact Hre7.
  - by rewrite (proj1 (wi_tlb _ _ _ _ W37)).
  - intros p Hp Hu. apply (wi_user _ _ _ _ W37) in Hp; [|set_solver|done]. rewrite Hc3 in Hp. injection Hp as <-. by destruct Hu.
Qed.

Lemma sbrk_unlink_spec s s3 as_ d l1 e l2 : space_at s as_ d -> sp_pt d = l1 ++ e :: l2 ->
  within {[pte_lock (en_pte e)]} {[en_frame e]} s (set_tlb (tlb s) s3) -> cm_ok s3 -> heap s3 = heap s ->
  coremap s3 !! en_frame e = Some free_page ->
  locks s3 !! pte_lock (en_pte e) = Some (Sleeplock true (lk_name (en_lock e)) (lk_wchan (en_lock e))) ->
  tlb s3 = tlb_dropped (en_vpage e) (tlb s) ->
  wp (sbrk_unlink as_ (en_ptr e) (last_ptr l1) (en_pte e)) (fun _ s' => removed s as_ d l1 e l2 s') s3.
Proof.
  intros Hsp E W3 Hok3 Hh3 Hc3 Hl3 Ht3. set (lk := pte_lock (en_pte e)) in *.
  destruct (drop_blocks s as_ d l1 e l2 Hsp E) as (Hnde & Hlive & Hlce & Has & _).
  assert (lk ∈ en_blocks e) as Hlke by (apply list_elem_of_further, list_elem_of_here).
  destruct (Hlive lk Hlke) as [Hlkpos _]. unfold sbrk_unlink. fold lk.
  wp_step. apply (wp_lock_release lk (Sleeplock true (lk_name (en_lock e)) (lk_wchan (en_lock e)))); [done..|]. cbn [lk_name lk_wchan].
  set (l0 := Sleeplock false _ _). pose proof (within_lock lk l0 s3 Hok3) as W4. set (s4 := set_locks _ s3) in *.
  assert (forall x, x ∉ ({[lk]} : gset Z) -> ptes s4 !! x = ptes s !! x /\ spaces s4 !! x = spaces s !! x) as Hsame.
  { intros x Hx. split; [apply (wi_ptes _ _ _ _ W3 x Hx)|apply (wi_spaces _ _ _ _ W3 x Hx)]. }
  wp_step. apply (wp_space_read _ (sp_as d)).
  { rewrite (proj2 (Hsame as_ ltac:(rewrite elem_of_singleton; intros ->; done))). apply Hsp. }
  wp_step. wp_apply (sbrk_relink_spec s s4 as_ d l1 e l2 {[lk]}); [done..|apply W4| |done|].
  { intros x ->%elem_of_singleton. by apply elem_of_list_to_set. }
  intros _ s5 (Hre & W5 & Hh5). unfold en_blocks in Hnde. pose proof Hnde as [Hn0 Hnd1]%NoDup_cons.
  assert (heap s5 = heap s) as Hh5' by (rewrite Hh5; exact Hh3).
  wp_step. wp_apply (lock_destroy_spec lk l0 s5); [apply W5| | |done| |].
  { rewrite (wi_locks _ _ _ _ W5); [apply lookup_insert_eq|]. rewrite elem_of_singleton. intros El. apply Hlce. by rewrite <- El. }
  { apply Forall_forall. intros x Hx. apply (Hlive x). by apply list_elem_of_further. }
  { intros x Hx. apply elem_of_list_to_set in Hx. rewrite Hh5'. apply Hlive. by apply list_elem_of_further. }
  intros _ s6 (W6 & _ & Hh6). destruct (Hlive (en_ptr e) (list_elem_of_here _ _)) as [Hep Hel].
  wp_apply (free_pte_spec (en_ptr e) s6); [apply W6|done| |].
  { rewrite Hh6, Hh5'. apply elem_of_difference. split; [done|]. by rewrite elem_of_list_to_set. }
  intros _ s7 (W7 & Hh7 & _). eapply (removed_intro s s3 s5); [done..| | | | |done|].
  - eapply within_trans; [eapply within_mono; [exact W4|set_solver..]|wmono W5].
  - eapply within_trans; (eapply within_mono; [eassumption|set_solver..]).
  - done.
  - done.
  - rewrite Hh7, Hh6, Hh5'. unfold en_blocks. simpl. set_solver.
Qed.

(** Removing the page [va]: nothing happens when it is not there. *)
Lemma sbrk_remove_spec s as_ d va : cm_ok s -> space_at s as_ d ->
  wp (sbrk_remove as_ va) (fun _ s' =>
    (va ∉ en_vpage <$> sp_pt d /\ s' = s) \/
    (exists l1 e l2, sp_pt d = l1 ++ e :: l2 /\ en_vpage e = va /\ removed s as_ d l1 e l2 s')) s.
Proof.
  intros Hok Hsp. unfold sbrk_remove. wp_step. apply (wp_space_read _ (sp_as d)); [apply Hsp|]. wp_steps.
  eapply (wp_loop_list _ (sp_pt d) _ _ (fun l2 c s' => s' = s /\ exists l1, sp_pt d = l1 ++ l2 /\ pt_links c.1 l2 /\
    c.2 = last_ptr l1 /\ va ∉ en_vpage <$> l1)).
  - split; [done|]. exists []. split_and!; [done|apply Hsp|done|]. apply not_elem_of_nil.
  - apply (pt_fuel s as_); [|apply Hsp]. pose proof (sa_nodup _ _ _ Hsp) as [_ Hnd]%NoDup_cons. by apply NoDup_app in Hnd as (? & _ & _).
  - intros l2 [p prev] s' (-> & l1 & Ept & Hlinks & El & Hnone). cbn [fst snd] in *. subst prev.
    destruct l2 as [|e l2]; simpl in Hlinks.
    { subst p. rewrite Z.eqb_refl. wp_step. left. rewrite app_nil_r in Ept. by rewrite Ept. }
    destruct Hlinks as [-> Hlinks]. destruct (drop_blocks s as_ d l1 e l2 Hsp Ept) as (_ & Hlive & _).
    destruct (Hlive (en_ptr e) (list_elem_of_here _ _)) as [Hpos _].
    destruct (Hlive (pte_lock (en_pte e)) ltac:(apply list_elem_of_further, list_elem_of_here)) as [Hlpos _].
    pose proof (sa_entries _ _ _ Hsp) as Hents. rewrite Forall_forall in Hents.
    assert (entry_ok s as_ e) as He by (apply Hents; rewrite Ept; apply elem_of_app; right; apply list_elem_of_here).
    rewrite (proj2 (Z.eqb_neq _ 0)) by lia. wp_step. apply (wp_pte_at _ (en_pte e)); [apply He|]. wp_step; boolify.
    + wp_step. match goal with H : as_vpage _ = va |- _ => rename H into Hva; rewrite <- Hva end.
      wp_apply (sbrk_release_spec s as_ e); [done..|]. intros r s3 (-> & s2 & W2 & Hh2 & Hc2 & Hl2 & ->).
      wp_step. wp_apply (sbrk_unlink_spec s _ as_ d l1 e l2); [done|done| |apply cm_ok_set_tlb, W2|done..|].
      * replace (set_tlb (tlb s) (set_tlb _ s2)) with s2; [exact W2|]. rewrite <- (proj1 (wi_tlb _ _ _ _ W2)). by destruct s2.
      * intros _ s4 Hr. wp_step. right. by exists l1, e, l2.
    + wp_step. exists e, l2. split; [done|]. split; [done|]. exists (l1 ++ [e]). cbn [fst snd]. split_and!.
      * by rewrite <- app_assoc.
      * done.
      * unfold last_ptr. by rewrite last_snoc.
      * rewrite fmap_app. apply not_elem_of_app. split; [done|]. intros ->%list_elem_of_singleton. done.
Qed.
End remove.

(** ** Shrinking *)

(** From [s], where [as_] is [d], the pages of [[lo, hi)] were removed: the
    others are where they were with the contents they had. *)
Record shrunk (A : gmap Z space) (s : vm) (as_ : Z) (d : space) (lo hi : Z) (d' : space) (s' : vm) : Prop := {
  sh_inv : vm_inv (<[as_ := d']> A) s';
  sh_tlb : tlb_ok d' s';
  sh_cur : curas s' = curas s;
  sh_start : heap_start (sp_as d') = heap_start (sp_as d);
  sh_regions : sp_rg d' = sp_rg d;
  sh_pages : forall va, va ∈ en_vpage <$> sp_pt d' <-> va ∈ en_vpage <$> sp_pt d /\ ¬ (lo <= va < hi);
  sh_kept : forall e', e' ∈ sp_pt d' -> exists e, e ∈ sp_pt d /\ tlb_entry e' = tlb_entry e /\ en_frame e' = en_frame e /\
    frames s' !! Z.of_nat (en_frame e') = frames s !! Z.of_nat (en_frame e);
  sh_others : forall as1 d1 e1, A !! as1 = Some d1 -> as1 <> as_ -> e1 ∈ sp_pt d1 ->
    frames s' !! Z.of_nat (en_frame e1) = frames s !! Z.of_nat (en_frame e1);
}.

Lemma shrunk_refl A s as_ d lo hi : vm_inv A s -> A !! as_ = Some d -> tlb_ok d s -> hi <= lo -> shrunk A s as_ d lo hi d s.
Proof. intros I Hd Ht Hle. constructor; try done; [by rewrite insert_id| |by eauto 6]. intros va. split; [|tauto]. intros. split; [done|lia]. Qed.

(** The entries that stay keep their mapping. *)
Lemma drop_entries d l1 e l2 x' : sp_pt d = l1 ++ e :: l2 -> x' ∈ sp_pt (space_drop d l1 e l2) ->
  exists x, x ∈ sp_pt d /\ x ∈ l1 ++ l2 /\ tlb_entry x' = tlb_entry x /\ en_frame x' = en_frame x.
Proof.
  intros E. unfold space_drop. cbn [sp_pt]. intros [Hx|Hx]%elem_of_app; [|exists x'; rewrite E; set_solver].
  destruct l1 as [|y l1 _] using rev_ind; [by apply not_elem_of_nil in Hx|]. rewrite pt_relink_app in Hx.
  apply elem_of_app in Hx as [Hx|Hx]; [exists x'; rewrite E; set_solver|].
  apply list_elem_of_singleton in Hx as ->. exists y. rewrite E. set_solver.
Qed.

Lemma drop_entries_rev d l1 e l2 x : sp_pt d = l1 ++ e :: l2 -> x ∈ l1 ++ l2 ->
  exists x', x' ∈ sp_pt (space_drop d l1 e l2) /\ tlb_entry x' = tlb_entry x.
Proof.
  intros E. unfold space_drop. cbn [sp_pt]. intros [Hx|Hx]%elem_of_app; [|exists x; set_solver].
  destruct l1 as [|y l1 _] using rev_ind; [by apply not_elem_of_nil in Hx|]. rewrite pt_relink_app.
  apply elem_of_app in Hx as [Hx|Hx]; [exists x; set_solver|].
  apply list_elem_of_singleton in Hx as ->. exists (set_next_entry (pte_next (en_pte e)) y). set_solver.
Qed.

Lemma vm_inv_removed A s as_ d l1 e l2 s' : vm_inv A s -> A !! as_ = Some d -> sp_pt d = l1 ++ e :: l2 ->
  removed s as_ d l1 e l2 s' -> vm_inv (<[as_ := space_drop d l1 e l2]> A) s'.
Proof.
  intros I Hd E [Hsp W Hh Ht Hfree]. replace s' with (set_tlb (tlb s') (set_tlb (tlb s) s')) by (by destruct s').
  apply vm_inv_set_tlb. pose proof (blocks_drop as_ d l1 e l2 E) as Hb. pose proof (pages_drop d l1 e l2 E) as Hp.
  eapply (vm_inv_replace A s _ as_ (Some _)); [done|exact W|..].
  - intros x. rewrite elem_of_list_to_set, elem_of_cons. intros [->|Hx]; right; exists d; (split; [done|]).
    + by eapply link_cell_block.
    + rewrite Hb. apply elem_of_app. by left.
  - intros k p ->%elem_of_singleton _ _. exists d. split; [done|]. rewrite Hp. apply list_elem_of_here.
  - intros x Hx. vm_simpl. rewrite Hh. destruct (decide (x ∈ en_blocks e)) as [Hin|Hin].
    + right. exists d. split; [done|]. rewrite Hb. apply elem_of_app. by left.
    + left. apply elem_of_difference. by rewrite elem_of_list_to_set.
  - split; [by apply space_at_set_tlb|]. intros x Hx. right. exists d. split; [done|]. rewrite Hb. apply elem_of_app. by right.
  - intros k p Hkp Hu Hk. exists (space_drop d l1 e l2). split; [done|]. vm_simpl.
    assert (k <> en_frame e) as Hne by (intros ->; by eapply Hfree).
    destruct Hk as [Hk|(d0 & Hd0 & Hk)]; [set_solver|]. simplify_eq. rewrite Hp in Hk. apply elem_of_cons in Hk as [->|]; done.
Qed.

Lemma removed_frames s as_ d l1 e l2 s' as1 d1 x : removed s as_ d l1 e l2 s' ->
  space_at s as_ d -> space_at s as1 d1 -> sp_pt d = l1 ++ e :: l2 -> x ∈ sp_pt d1 -> (as1 <> as_ \/ en_vpage x <> en_vpage e) ->
  frames s' !! Z.of_nat (en_frame x) = frames s !! Z.of_nat (en_frame x).
Proof.
  intros [_ W _ _ _] Hsp Hsp1 E Hx Hne.
  destruct (page_not_user s as1 d1 (en_frame x)) as (p & Hp & Hu); [done|apply list_elem_of_fmap; eauto|].
  apply (wi_frames _ _ _ _ W _ p); rewrite ?Nat2Z.id; [|done|done]. rewrite elem_of_singleton. intros Ef.
  destruct (pages_owner s as1 d1 as_ d x e) as [? ?]; try done; [rewrite E; set_solver|]. tauto.
Qed.

Section shrink.
Context `{VmHeap} `{SwapDevice}.

(** One page further down. *)
Lemma shrunk_step A s as_ d lo hi d' s' : vm_inv A s -> A !! as_ = Some d -> as_ = curas s ->
  lo mod PAGE_SIZE = 0 -> PAGE_SIZE <= lo <= hi -> lo <= MIPS_KSEG0 ->
  shrunk A s as_ d lo hi d' s' ->
  wp (sbrk_remove as_ (lo - PAGE_SIZE)) (fun _ s2 => exists d2, shrunk A s as_ d (lo - PAGE_SIZE) hi d2 s2) s'.
Proof.
  intros I Hd Hcur Hal Hlo Hmax Sh. destruct (Sh) as [I' Ht' Hc' Hs' Hr' Hpg' Hk' Ho'].
  assert (space_at s' as_ d') as Hsp' by (apply I', lookup_insert_eq).
  assert (forall va, va ∈ en_vpage <$> sp_pt d' -> va mod PAGE_SIZE = 0) as Hvm.
  { intros va (e & -> & He)%list_elem_of_fmap. pose proof (sa_entries _ _ _ Hsp') as Hents. rewrite Forall_forall in Hents.
    apply (eo_vaddr _ _ _ (Hents e He)). }
  assert (forall va, va mod PAGE_SIZE = 0 -> (lo - PAGE_SIZE <= va < hi <-> va = lo - PAGE_SIZE \/ lo <= va < hi)) as Hrange.
  { intros va Hva. unfold PAGE_SIZE in *. split; [|lia]. intros Hb. destruct (decide (lo <= va)); [lia|left; zlia]. }
  wp_apply (sbrk_remove_spec s' as_ d' (lo - PAGE_SIZE)); [apply I'|done|]. intros _ s2 [[Hn ->]|(l1 & e & l2 & E & Hv & Rm)].
  - exists d'. destruct Sh. constructor; try done. intros va. rewrite Hpg'. split; intros [Hin Hb].
    + split; [done|]. rewrite Hrange; [|apply Hvm, Hpg'; done]. intros [->|]; [|done]. apply Hn, Hpg'. done.
    + split; [done|]. unfold PAGE_SIZE in *. lia.
  - exists (space_drop d' l1 e l2). pose proof (rm_within _ _ _ _ _ _ _ Rm) as W.
    assert (forall x, x ∈ l1 ++ l2 <-> x ∈ sp_pt d' /\ en_vpage x <> en_vpage e) as Hl.
    { intros x. split.
      - intros Hx. split; [rewrite E; set_solver|]. pose proof (sa_vpages _ _ _ Hsp') as Hnd. rewrite E, fmap_app, fmap_cons in Hnd.
        apply NoDup_mid in Hnd as (H1 & H2 & _). intros Ex. apply elem_of_app in Hx as [Hx|Hx]; [apply H1|apply H2]; rewrite <- Ex; apply list_elem_of_fmap; eauto.
      - rewrite E. intros [Hx Hne]. apply elem_of_app in Hx as [Hx|[->|Hx]%elem_of_cons]; [set_solver|done|set_solver]. }
    constructor.
    + rewrite <- (insert_insert_eq A as_ _ d'). eapply vm_inv_removed; [exact I'|apply lookup_insert_eq|done|done].
    + eapply (tlb_ok_dropped d' _ s' s2 (lo - PAGE_SIZE)); [done| | |by rewrite <- Hv; apply Rm|apply (wi_tlb _ _ _ _ W)|..].
      * unfold PAGE_SIZE, MIPS_KSEG0 in *. lia.
      * unfold PAGE_SIZE in *. zlia.
      * intros x Hx. pose proof (sa_entries _ _ _ Hsp') as Hents. rewrite Forall_forall in Hents. apply (eo_vaddr _ _ _ (Hents x Hx)).
      * intros x Hx Hne. apply drop_entries_rev; [done|]. apply Hl. split; [done|]. congruence.
    + rewrite <- Hc'. apply (wi_cur _ _ _ _ W).
    + rewrite <- Hs'. unfold space_drop. cbn [sp_as]. by destruct l1.
    + exact Hr'.
    + intros va. unfold space_drop. cbn [sp_pt]. rewrite fmap_app, pt_relink_vpages, <- fmap_app.
      rewrite list_elem_of_fmap. setoid_rewrite Hl. split.
      * intros (x & -> & Hx & Hne). assert (en_vpage x ∈ en_vpage <$> sp_pt d') as Hin by (apply list_elem_of_fmap; eauto).
        pose proof (Hvm _ Hin). apply Hpg' in Hin as [Hin Hb]. split; [done|]. rewrite Hrange by done. intros [?|?]; [congruence|done].
      * intros [Hin Hb]. assert (va ∈ en_vpage <$> sp_pt d') as Hin' by (apply Hpg'; split; [done|unfold PAGE_SIZE in *; lia]).
        pose proof (Hvm _ Hin'). apply list_elem_of_fmap in Hin' as (x & -> & Hx). exists x. split_and!; [done|done|].
        intros Ex. apply Hb, Hrange; [done|]. left. congruence.
    + intros x' Hx'. destruct (drop_entries d' l1 e l2 x' E Hx') as (x & Hx & Hx12 & Et & Ef). apply Hl in Hx12 as [_ Hne].
      destruct (Hk' x Hx) as (y & Hy & Ey & Efy & Eff). exists y. split_and!; [done|congruence|congruence|].
      rewrite Ef, (removed_frames s' as_ d' l1 e l2 s2 as_ d' x Rm); try done. by right.
    + intros as1 d1 e1 H1 Hne He1. rewrite <- (Ho' as1 d1 e1 H1 Hne He1).
      eapply (removed_frames s' as_ d' l1 e l2 s2 as1 d1); try done; [apply I'; by rewrite lookup_insert_ne|by left].
Qed.
Lemma tlb_ok_ext d d' s s' : tlb_ok d s -> tlb s' = tlb s -> c0_random s' = c0_random s -> sp_pt d' = sp_pt d -> tlb_ok d' s'.
Proof. intros [] E1 E2 E3. constructor; rewrite ?E1, ?E2, ?E3; done. Qed.

Lemma set_heap_end_spec A s as_ d lo hi d' s' he : shrunk A s as_ d lo hi d' s' ->
  wp (set_heap_end as_ he) (fun _ s2 => exists d2, shrunk A s as_ d lo hi d2 s2 /\ heap_end (sp_as d2) = he) s'.
Proof.
  intros [I Ht Hc Hs Hr Hpg Hk Ho]. assert (spaces s' !! as_ = Some (sp_as d')) as Hsp by (apply I, lookup_insert_eq).
  unfold set_heap_end. wp_step. apply (wp_space_read _ (sp_as d')); [done|]. apply (wp_space_put _ (sp_as d')); [done|].
  exists (Space (Addrspace (start_region (sp_as d')) (start_page_table (sp_as d')) (heap_start (sp_as d')) he) (sp_pt d') (sp_rg d')).
  split; [|reflexivity].
  pose proof (vm_inv_bounds _ s' as_ d' (heap_start (sp_as d')) he I (lookup_insert_eq _ _ _)) as I2. cbv zeta in I2.
  rewrite insert_insert_eq in I2. constructor; [exact I2|..]; try done. by apply (tlb_ok_ext d' _ s').
Qed.

Definition STACKBASE : Z := USERSTACK - VM_STACKPAGES * PAGE_SIZE.

(** The heap of [d] is page-aligned and below the stack. *)
Definition heap_wf (d : space) : Prop :=
  0 <= heap_start (sp_as d) <= heap_end (sp_as d) /\ heap_end (sp_as d) <= STACKBASE /\
  heap_start (sp_as d) mod PAGE_SIZE = 0 /\ heap_end (sp_as d) mod PAGE_SIZE = 0.

(** The error [sbrk] reports, if any. *)
Definition sbrk_verdict (d : space) (increment : Z) : option Z :=
  let new_end := heap_end (sp_as d) + increment in
  if (0 <? increment) && (STACKBASE <=? new_end) then Some ENOMEM
  else if (increment <? 0) && (new_end <? heap_start (sp_as d)) then Some EINVAL
  else if negb (increment mod PAGE_SIZE =? 0) then Some EINVAL
  else None.

(** The loop over the pages given back. *)
Lemma sbrk_loop_spec A s d n : vm_inv A s -> A !! curas s = Some d -> tlb_ok d s -> heap_wf d ->
  0 <= n -> heap_start (sp_as d) <= heap_end (sp_as d) - n * PAGE_SIZE ->
  wp (for_ (Z.to_nat n) 0 (fun i =>
        sbrk_remove (curas s) (u32 (heap_end (sp_as d) - (i + 1) * PAGE_SIZE)) ;;; @ret vm (option unit) None))
    (fun _ s' => exists d', shrunk A s (curas s) d (heap_end (sp_as d) - n * PAGE_SIZE) (heap_end (sp_as d)) d' s') s.
Proof.
  intros I Hd Ht (Hb & Hmax & Ha1 & Ha2) Hn Hlow. unfold STACKBASE, USERSTACK, USERSPACETOP, MIPS_KSEG0, VM_STACKPAGES, PAGE_SIZE in Hmax, Ha1, Ha2, Hlow.
  eapply (wp_for _ _ _ (fun i s' => exists d', shrunk A s (curas s) d (heap_end (sp_as d) - i * PAGE_SIZE) (heap_end (sp_as d)) d' s')).
  - exists d. apply shrunk_refl; [done..|]. unfold PAGE_SIZE. lia.
  - intros i s' Hi (d' & Sh). wp_step. rewrite u32_id by (unfold PAGE_SIZE; lia).
    replace (heap_end (sp_as d) - (i + 1) * PAGE_SIZE) with (heap_end (sp_as d) - i * PAGE_SIZE - PAGE_SIZE) by (unfold PAGE_SIZE; lia).
    wp_apply (shrunk_step A s (curas s) d (heap_end (sp_as d) - i * PAGE_SIZE) (heap_end (sp_as d)) d' s'); [exact I|exact Hd|reflexivity|unfold PAGE_SIZE; zlia|unfold PAGE_SIZE; lia|unfold PAGE_SIZE, MIPS_KSEG0; lia|exact Sh|].
    intros _ s2 Hs2. by wp_step.
  - intros s' Hs'. replace (0 + Z.of_nat (Z.to_nat n)) with n in Hs' by lia. exact Hs'.
Qed.
End shrink.

(** ** Properties *)

Lemma sys_sbrk_correct_spec `{VmHeap} `{SwapDevice} (A : gmap Z space) (s : vm) (d : space) (increment : Z) :
  vm_inv A s -> A !! curas s = Some d -> tlb_ok d s -> heap_wf d -> - 2 ^ 31 <= increment < 2 ^ 31 ->
  wp (sys_sbrk increment) (fun r s' =>
    match sbrk_verdict d increment with
    | Some e => r = inl e /\ s' = s
    | None => r = inr (heap_end (sp_as d)) /\ exists d',
        shrunk A s (curas s) d (heap_end (sp_as d) + increment) (heap_end (sp_as d)) d' s' /\
        heap_end (sp_as d') = heap_end (sp_as d) + increment
    end) s.
Proof.
  intros I Hd Ht Hwf Hinc. pose proof Hwf as (Hb & Hmax & Ha1 & Ha2). pose proof (curas_pos A s d I Hd) as Hpos.
  pose proof (curas_space A s d I Hd) as Hsp. set (he := heap_end (sp_as d)) in *. set (hs := heap_start (sp_as d)) in *.
  unfold sys_sbrk. wp_step. wp_step. wp_step. apply wp_kassert; [by rewrite (proj2 (Z.eqb_neq _ 0)) by lia|].
  wp_step. apply (wp_space_read _ (sp_as d)); [apply Hsp|]. fold he hs.
  unfold sbrk_verdict. fold he hs. change (s32 (USERSTACK - VM_STACKPAGES * PAGE_SIZE)) with STACKBASE.
  unfold STACKBASE, USERSTACK, USERSPACETOP, MIPS_KSEG0, VM_STACKPAGES, PAGE_SIZE in *.
  rewrite (s32_id he), (s32_id hs), (u32_id he) by lia.
  destruct (increment =? 0) eqn:E0; boolify.
  { subst increment. wp_step. split; [done|]. exists d. split; [apply shrunk_refl; done || lia|lia]. }
  destruct (0 <? increment) eqn:Ep; boolify; cbn [andb orb].
  - rewrite (proj2 (Z.ltb_ge increment 0)) by lia. cbn [andb orb]. rewrite orb_false_r.
    destruct (Z.ltb_spec (s32 (he + increment)) he) as [Hov|Hov].
    { wp_step. rewrite (proj2 (Z.leb_le _ _)); [done|]. destruct (decide (he + increment < 2 ^ 31)); [rewrite s32_id in Hov by lia|]; lia. }
    assert (he + increment < 2 ^ 31) as Hno.
    { destruct (decide (he + increment < 2 ^ 31)) as [|Hge]; [done|]. exfalso. unfold s32 in Hov.
      rewrite <- (Z.mod_add _ (-1)), Z.mod_small in Hov by lia. lia. }
    rewrite (s32_id (he + increment)) by lia.
    destruct (_ <=? he + increment) eqn:Est; boolify; [by wp_step|].
    rewrite Z.rem_mod_nonneg by lia. destruct (increment mod 4096 =? 0) eqn:Em; boolify; cbn [negb]; [|by wp_step].
    rewrite Z.quot_div_nonneg by lia. rewrite (proj2 (Z.eqb_neq _ 0)) by zlia. rewrite u32_id by lia. wp_step.
    wp_apply (set_heap_end_spec A s (curas s) d (he + increment) he d s); [apply shrunk_refl; done || lia|].
    intros _ s2 Hs2. by wp_step.
  - rewrite (proj2 (Z.ltb_lt increment 0)) by lia. cbn [andb orb]. rewrite (s32_id (he + increment)) by lia.
    destruct (he + increment <? hs) eqn:El; boolify; [by wp_step|].
    assert (Z.rem increment 4096 = - (- increment mod 4096)) as -> by (rewrite <- (Z.opp_involutive increment) at 1; rewrite Z.rem_opp_l, Z.rem_mod_nonneg by lia; done).
    assert (Z.quot increment 4096 = - (- increment / 4096)) as -> by (rewrite <- (Z.opp_involutive increment) at 1; rewrite Z.quot_opp_l, Z.quot_div_nonneg by lia; done).
    assert ((- (- increment mod 4096) =? 0) = (increment mod 4096 =? 0)) as ->.
    { apply eq_true_iff_eq. rewrite !Z.eqb_eq. zlia. }
    destruct (increment mod 4096 =? 0) eqn:Em; boolify; cbn [negb]; [|by wp_step].
    rewrite (proj2 (Z.eqb_neq _ 0)) by zlia. rewrite Z.opp_involutive, u32_id by lia. do 2 wp_step.
    assert (he - - increment / 4096 * PAGE_SIZE = he + increment) as Eend by (unfold PAGE_SIZE; zlia).
    wp_apply (sbrk_loop_spec A s d (- increment / 4096)); [done..|zlia|fold he hs; rewrite Eend; lia|].
    intros _ s2 (d2 & Sh). fold he in Sh. rewrite Eend in Sh. wp_apply (set_heap_end_spec A s (curas s) d _ he d2 s2); [exact Sh|].
    intros _ s3 Hs3. by wp_step.
Qed.

(** C32: [sbrk] either reports [ENOMEM] (the heap would reach the stack) or
    [EINVAL] (below the heap's start, or not a multiple of the page size)
    and changes nothing, or returns the old end of the heap and moves it by
    the increment.  After a shrink exactly the pages of the returned range
    are gone from the page table, from memory and from the TLB; every other
    page of this and of every other address space keeps its frame and its
    contents, and the system invariant holds. *)
Theorem sys_sbrk_correct `{VmHeap} `{SwapDevice} (A : gmap Z space) (s : vm) (d : space) (increment : Z) :
  vm_inv A s -> A !! curas s = Some d -> tlb_ok d s -> heap_wf d -> - 2 ^ 31 <= increment < 2 ^ 31 ->
  wp (sys_sbrk increment) (fun r s' =>
    match sbrk_verdict d increment with
    | Some e => r = inl e /\ s' = s
    | None => r = inr (heap_end (sp_as d)) /\ exists d',
        shrunk A s (curas s) d (heap_end (sp_as d) + increment) (heap_end (sp_as d)) d' s' /\
        heap_end (sp_as d') = heap_end (sp_as d) + increment
    end) s.
Proof. apply sys_sbrk_correct_spec. Qed.

Lemma sys_sbrk_correct_witness :
  wp (sys_sbrk 8192) (fun r s' => r = inr 4206592) (ex_sys 3) /\
  wp (sys_sbrk (-4096)) (fun r s' => r = inl EINVAL /\ s' = ex_sys 3) (ex_sys 3) /\
  wp (sys_sbrk 8192 ;;; vm_fault 1 4210700 ;;; sys_sbrk (-4096)) (fun r s' => r = inr 4214784 /\ allocated_pages_count s' = 3) (ex_sys 3).
Proof.
  assert (heap_wf ex_space) as Hwf by (unfold heap_wf; vm_compute; intuition discriminate).
  destruct (ex_tlb_ok 3) as [Ht _]. split; [|split].
  - eapply wp_mono; [apply (sys_sbrk_correct ex_spaces (ex_sys 3) ex_space 8192);
      [exact (ex_sys_inv 3)|reflexivity|exact Ht|exact Hwf|lia]|].
    intros r s' Hr. change (sbrk_verdict ex_space 8192) with (@None Z) in Hr. destruct Hr as [Hr _]. exact Hr.
  - eapply wp_mono; [apply (sys_sbrk_correct ex_spaces (ex_sys 3) ex_space (-4096));
      [exact (ex_sys_inv 3)|reflexivity|exact Ht|exact Hwf|lia]|].
    intros r s' Hr. exact Hr.
  - vm_compute. split; reflexivity.
Defined.
