(* ===== verification/Loading.v ===== *)
(** * Setting up an address space for a program

    [as_define_region], [as_prepare_load], [as_activate] and
    [as_define_stack] of kern/vm/addrspace.c. *)

From S2P Require Import Prelude KHeap Bitmap VmState Coremap VmHeap Swap AddrSpace SpaceInv VmExample SpaceOps SpaceCopy VmInv VmFault Sbrk.

(** The region [as_define_region] makes. *)
Definition region_of (vaddr memsize readable writeable executable : Z) : region :=
  Region (vaddr / PAGE_SIZE * PAGE_SIZE) (u32 (memsize + PAGE_SIZE - 1) / PAGE_SIZE * PAGE_SIZE)
    (u32 (memsize + PAGE_SIZE - 1) / PAGE_SIZE)
    (negb (Z.land readable 4 =? 0)) (negb (Z.land writeable 2 =? 0)) (negb (Z.land executable 1 =? 0)) 0.

(** The arithmetic of [as_define_region]: the offset within the page is
    taken after it has been masked away, so it is 0. *)
Lemma define_region_arith vaddr memsize : 0 <= vaddr < 2 ^ 32 -> 0 <= memsize < 2 ^ 32 ->
  let va := Z.land vaddr PAGE_FRAME in
  let sz := Z.land (u32 (u32 (u32 (memsize + Z.land va (u32 (Z.lnot PAGE_FRAME))) + PAGE_SIZE) - 1)) PAGE_FRAME in
  va = vaddr / PAGE_SIZE * PAGE_SIZE /\ sz = u32 (memsize + PAGE_SIZE - 1) / PAGE_SIZE * PAGE_SIZE /\
  sz / PAGE_SIZE = u32 (memsize + PAGE_SIZE - 1) / PAGE_SIZE.
Proof.
  intros Hv Hm va sz. assert (va = vaddr / 4096 * 4096) as Eva by (by apply land_page_frame).
  assert (Z.land va (u32 (Z.lnot PAGE_FRAME)) = 0) as E0.
  { change (u32 (Z.lnot PAGE_FRAME)) with (Z.ones 12). rewrite Z.land_ones by lia. rewrite Eva. change (2 ^ 12) with 4096. apply Z.mod_mul. lia. }
  assert (u32 (u32 (u32 (memsize + 0) + PAGE_SIZE) - 1) = u32 (memsize + PAGE_SIZE - 1)) as E1.
  { rewrite Z.add_0_r, (u32_id memsize) by lia. unfold u32. rewrite Zminus_mod_idemp_l. f_equal. }
  unfold sz. rewrite E0, E1. pose proof (u32_range (memsize + PAGE_SIZE - 1)) as Hr.
  unfold PAGE_FRAME. rewrite land_page_frame by done. unfold PAGE_SIZE in *. split_and!; [done|done|]. by rewrite Z.div_mul.
Qed.

Lemma vm_inv_rappended A s as_ d q r s' : vm_inv A s -> A !! as_ = Some d -> rappended s as_ d q r s' ->
  vm_inv (<[as_ := space_rsnoc d q r]> A) s'.
Proof.
  intros I Hd [Hsp [Hq Hnew] W Hh]. eapply (vm_inv_replace A s s' as_ (Some _)); [done|exact W|..].
  - intros x. rewrite elem_of_union, !elem_of_singleton. intros [->| ->]; [by left|]. right. exists d. split; [done|apply rlink_block].
  - set_solver.
  - intros x Hx. left. rewrite Hh. set_solver.
  - split; [done|]. intros x. rewrite blocks_rsnoc, elem_of_app. intros [Hx|Hx]; [right; by exists d|].
    apply list_elem_of_singleton in Hx as ->. by left.
  - intros k p Hp Hu [Hk|(d0 & Hd0 & Hk)]; [set_solver|]. simplify_eq. by eexists.
Qed.

Section load.
Context `{VmHeap} `{SwapDevice}.

(** Reading a known object is a step of the evaluation. *)
Lemma space_read_inv {B} as_ a (f : addrspace -> M vm B) Q s : spaces s !! as_ = Some a ->
  wp (x <- space_read as_ ;; f x) Q s -> wp (f a) Q s.
Proof. intros E Hw. apply wp_bind_inv in Hw. unfold wp at 1, space_read, bind, get in Hw. rewrite E in Hw. exact Hw. Qed.

Lemma region_at_inv {B} p r (f : region -> M vm B) Q s : regions s !! p = Some r ->
  wp (x <- region_at p ;; f x) Q s -> wp (f r) Q s.
Proof. intros E Hw. apply wp_bind_inv in Hw. unfold wp at 1, region_at, bind, get in Hw. rewrite E in Hw. exact Hw. Qed.

(** Walking to the last region of a list. *)
Lemma last_region_spec s l p : l <> [] -> rg_links p l -> NoDup l.*1 ->
  Forall (fun '(q, r) => 0 < q /\ regions s !! q = Some r) l -> (length l < region_fuel s)%nat ->
  wp (loop_ (region_fuel s) p (fun last => r <- region_at last ;; if rg_next r =? 0 then ret (inr last) else ret (inl (rg_next r))))
    (fun q s' => s' = s /\ q = last_region l) s.
Proof.
  intros Hne Hl Hnd Hrg Hfuel.
  eapply (wp_loop_list _ l _ _ (fun l2 p s' => s' = s /\ l2 <> [] /\ rg_links p l2 /\ exists l1, l = l1 ++ l2)); [|done|].
  - split_and!; try done. by exists [].
  - intros l2 p' s' (-> & Hne2 & Hl2 & l1 & ->). destruct l2 as [|[q r] l2]; [done|]. destruct Hl2 as [-> Hl2].
    apply Forall_app in Hrg as [_ [[_ Hq] Hrg2]%Forall_cons]. wp_step. apply (wp_region_at _ r); [done|].
    destruct l2 as [|[q2 r2] l2].
    + simpl in Hl2. rewrite Hl2, Z.eqb_refl. wp_step. split; [done|]. unfold last_region. by rewrite last_snoc.
    + destruct Hl2 as [E Hl2]. apply Forall_cons in Hrg2 as [[Hpos _] _]. rewrite (proj2 (Z.eqb_neq _ 0)) by lia. wp_step.
      exists (q, r), ((q2, r2) :: l2). split; [done|]. split_and!; [done|done|split; done|]. exists (l1 ++ [(q, r)]). by rewrite <- app_assoc.
Qed.

Lemma as_define_region_spec s as_ d va sz r w x : cm_ok s -> space_at s as_ d -> 0 <= va < 2 ^ 32 -> 0 <= sz < 2 ^ 32 ->
  wp (as_define_region as_ va sz r w x) (fun res s' =>
    (res = ENOMEM /\ within ∅ ∅ s s' /\ heap s' = heap s) \/
    (res = 0 /\ exists q, rappended s as_ d q (region_of va sz r w x) s')) s.
Proof.
  intros Hok Hsp Hva Hsz. destruct (live_block _ _ _ _ Hsp (as_in_blocks as_ d)) as [Hpos _]. unfold as_define_region.
  wp_step. apply wp_kassert; [by rewrite (proj2 (Z.eqb_neq as_ 0)) by lia|].
  destruct (define_region_arith va sz Hva Hsz) as (E1 & E2 & E3). cbv zeta in E1, E2, E3. rewrite E3, E2, E1.
  wp_step. wp_apply (vm_kmalloc_spec _ s); [done|]. intros q s1 [K [[-> Hh]|(Hq & Hnew & Hh)]]; pose proof (within_kernel _ _ Hok K) as W1.
  { rewrite Z.eqb_refl. wp_step. by left. }
  rewrite (proj2 (Z.eqb_neq q 0)) by lia. wp_step. wp_step. change (Region _ _ _ _ _ _ 0) with (region_of va sz r w x).
  pose proof (link_region_spec s s1 as_ d q (region_of va sz r w x) Hsp W1 Hq Hnew Hh eq_refl) as HL.
  set (s2 := set_regions _ s1) in *.
  assert (space_at s1 as_ d) as Hsp1 by (eapply space_at_within; [exact W1|set_solver|set_solver|rewrite Hh; set_solver|exact Hsp]).
  wp_step. apply (wp_space_read _ (sp_as d)); [apply Hsp1|].
  pose proof (sa_rlinks _ _ _ Hsp) as Hrl. unfold link_region, last_region in HL. destruct (sp_rg d) as [|[p0 r0] l] eqn:Erg.
  - simpl in HL, Hrl. rewrite Hrl, Z.eqb_refl. apply (space_read_inv as_ (sp_as d)) in HL; [|apply Hsp1].
    wp_step. eapply wp_mono; [exact HL|cbv beta]. intros _ s3 Hr. wp_step. right. eauto.
  - assert (start_region (sp_as d) = p0) as E0 by apply Hrl.
    assert (p0 ∈ blocks as_ d) as Hp0 by (apply (region_in_blocks p0 r0); rewrite Erg; apply list_elem_of_here).
    rewrite (proj2 (Z.eqb_neq _ 0)) by (rewrite E0; destruct (live_block _ _ _ _ Hsp Hp0); lia).
    assert (forall q' r', (q', r') ∈ (p0, r0) :: l -> 0 < q' /\ regions s2 !! q' = Some r') as Hin.
    { intros q' r' Hin. rewrite <- Erg in Hin. destruct (live_block _ _ _ _ Hsp (region_in_blocks q' r' as_ d Hin)) as [Hp Hl]. split; [done|].
      unfold s2. vm_simpl. rewrite lookup_insert_ne by (intros ->; done). pose proof (sa_regions _ _ _ Hsp1) as Hf.
      rewrite Forall_forall in Hf. by apply (Hf (q', r')). }
    assert (NoDup ((p0, r0) :: l).*1) as Hnd.
    { pose proof (sa_nodup _ _ _ Hsp) as [_ Hnd]%NoDup_cons. apply NoDup_app in Hnd as (_ & _ & Hnd). by rewrite Erg in Hnd. }
    wp_steps. wp_apply (last_region_spec s2 ((p0, r0) :: l)); [done|done|done| | |].
    { apply Forall_forall. intros [q' r'] Hq'. by apply Hin. }
    { apply rg_fuel; [done|]. apply Forall_forall. intros [q' r'] Hq'. by apply Hin. }
    intros q' s' [-> ->]. unfold last_region. destruct (last ((p0, r0) :: l)) as [[pl rl]|] eqn:El; [|by apply last_None in El].
    assert ((pl, rl) ∈ (p0, r0) :: l) as Hpl by (apply last_Some in El as [l' ->]; apply elem_of_app; right; apply list_elem_of_here).
    destruct (Hin pl rl Hpl) as [Hplpos _]. rewrite (proj2 (Z.eqb_neq pl 0)) in HL by lia.
    apply (region_at_inv pl rl) in HL; [|by apply Hin]. wp_step. apply (wp_region_at _ rl); [by apply Hin|].
    wp_step. eapply wp_mono; [exact HL|cbv beta]. intros _ s4 Hr. wp_step. right. eauto.
Qed.

(** The end of the highest region, without wrap-around. *)
Definition region_end (r : region) : Z := rg_start r + rg_size r.

Lemma regions_end_spec s as_ d bound : space_at s as_ d ->
  (forall q r, (q, r) ∈ sp_rg d -> 0 <= region_end r <= bound) -> 0 <= bound < 2 ^ 32 ->
  wp (regions_end (start_region (sp_as d))) (fun e s' => s' = s /\ 0 <= e <= bound /\
    (forall q r, (q, r) ∈ sp_rg d -> region_end r <= e) /\ (e = 0 \/ exists q r, (q, r) ∈ sp_rg d /\ e = region_end r)) s.
Proof.
  intros Hsp Hb Hbound. unfold regions_end. wp_steps.
  eapply (wp_loop_list _ (sp_rg d) _ _ (fun l2 c s' => s' = s /\ exists l1, sp_rg d = l1 ++ l2 /\ rg_links c.1 l2 /\
    0 <= c.2 <= bound /\ (forall q r, (q, r) ∈ l1 -> region_end r <= c.2) /\
    (c.2 = 0 \/ exists q r, (q, r) ∈ sp_rg d /\ c.2 = region_end r))).
  - split; [done|]. exists []. split_and!; [done|apply Hsp|simpl; lia|simpl; lia| |by left]. intros q r Hq. by apply not_elem_of_nil in Hq.
  - apply rg_fuel; [|apply Hsp]. pose proof (sa_nodup _ _ _ Hsp) as [_ Hnd]%NoDup_cons. by apply NoDup_app in Hnd as (_ & _ & ?).
  - intros l2 [p e] s' (-> & l1 & Erg & Hlinks & He & Hmax & Hwhich). cbn [fst snd] in *. destruct l2 as [|[q r] l2]; simpl in Hlinks.
    + subst p. rewrite Z.eqb_refl. wp_step. rewrite app_nil_r in Erg. rewrite <- Erg in Hmax. done.
    + destruct Hlinks as [-> Hlinks]. assert ((q, r) ∈ sp_rg d) as Hq by (rewrite Erg; apply elem_of_app; right; apply list_elem_of_here).
      destruct (live_block _ _ _ _ Hsp (region_in_blocks q r as_ d Hq)) as [Hpos _].
      pose proof (sa_regions _ _ _ Hsp) as Hrg. rewrite Forall_forall in Hrg. specialize (Hrg _ Hq). cbn in Hrg.
      rewrite (proj2 (Z.eqb_neq q 0)) by lia. wp_step. apply (wp_region_at _ r); [done|]. wp_step.
      pose proof (Hb q r Hq) as Hqr. unfold region_end in Hqr at 1 2. rewrite u32_id by lia. fold (region_end r) in *.
      exists (q, r), l2. split; [done|]. split; [done|]. exists (l1 ++ [(q, r)]). rewrite <- app_assoc. cbn [fst snd].
      split_and!; [done|done|destruct (Z.ltb_spec e (region_end r)); lia|destruct (Z.ltb_spec e (region_end r)); lia| |destruct (Z.ltb_spec e (region_end r)); eauto].
      intros q' r' [Hin|Hin]%elem_of_app.
      * specialize (Hmax q' r' Hin). destruct (Z.ltb_spec e (region_end r)); lia.
      * apply list_elem_of_singleton in Hin. simplify_eq. destruct (Z.ltb_spec e (region_end r)); lia.
Qed.

(** The loop of [as_activate] over the slots. *)
Lemma flush_spec s : length (tlb s) = Z.to_nat NUM_TLB ->
  wp (for_ (Z.to_nat NUM_TLB) 0 (fun i => tlb_write (TLBHI_INVALID i) TLBLO_INVALID i ;;; @ret vm (option unit) None))
    (fun _ s' => exists t, s' = set_tlb t s /\ length t = Z.to_nat NUM_TLB /\
      forall i x, t !! i = Some x -> x = (TLBHI_INVALID (Z.of_nat i), TLBLO_INVALID)) s.
Proof.
  intros Hlen. eapply (wp_for _ _ _ (fun i s' => exists t, s' = set_tlb t s /\ length t = Z.to_nat NUM_TLB /\
    forall j x, Z.of_nat j < i -> t !! j = Some x -> x = (TLBHI_INVALID (Z.of_nat j), TLBLO_INVALID))).
  - exists (tlb s). split_and!; [by destruct s|done|]. lia.
  - intros i s' Hi (t & -> & Ht & Hinv). destruct (lookup_lt_is_Some_2 t (Z.to_nat i)) as [y Hy]; [unfold NUM_TLB in *; lia|].
    wp_step. unfold tlb_write, tlb_read. wp_steps. apply (wp_deref _ y); [done|]. wp_steps.
    exists (<[Z.to_nat i := (TLBHI_INVALID i, TLBLO_INVALID)]> t). split_and!; [by destruct s|by rewrite length_insert|].
    intros j x Hj Hx. destruct (decide (j = Z.to_nat i)) as [->|Hne].
    + rewrite list_lookup_insert_eq in Hx by (unfold NUM_TLB in *; lia). injection Hx as <-. by rewrite Z2Nat.id by lia.
    + rewrite list_lookup_insert_ne in Hx by done. apply (Hinv j x); [lia|done].
  - intros s' (t & -> & Ht & Hinv). exists t. split_and!; [done|done|]. intros j x Hx. apply (Hinv j x); [|done].
    pose proof (lookup_lt_Some _ _ _ Hx). unfold NUM_TLB in *. lia.
Qed.

Lemma as_activate_spec s : length (tlb s) = Z.to_nat NUM_TLB -> curas s <> 0 ->
  wp as_activate (fun _ s' => exists t, s' = set_tlb t s /\ length t = Z.to_nat NUM_TLB /\
    forall i x, t !! i = Some x -> x = (TLBHI_INVALID (Z.of_nat i), TLBLO_INVALID)) s.
Proof.
  intros Hlen Hc. unfold as_activate. wp_steps. rewrite (proj2 (Z.eqb_neq _ 0)) by done. unfold splhigh, splx at 1. wp_steps.
  wp_apply (flush_spec (set_curspl IPL_HIGH s)); [done|]. intros _ s' (t & -> & Ht & Hinv). unfold splx. wp_steps.
  exists t. split_and!; [by destruct s|done|done].
Qed.
End load.

(** The addresses of an address space that got one more region. *)
Lemma in_space_rsnoc d q r fa :
  in_space (space_rsnoc d q r) fa <-> in_space d fa \/ rg_start r <= fa < u32 (rg_start r + rg_size r).
Proof.
  unfold in_space, space_rsnoc. cbn [sp_rg sp_as].
  assert (forall P : Z -> Z -> Prop, (exists q' r', (q', r') ∈ rg_snoc (sp_rg d) q r /\ P (rg_start r') (rg_size r')) <->
    (exists q' r', (q', r') ∈ sp_rg d /\ P (rg_start r') (rg_size r')) \/ P (rg_start r) (rg_size r)) as Hsnoc.
  { intros P. destruct (sp_rg d) as [|[p x] l _] using rev_ind.
    - simpl. setoid_rewrite list_elem_of_singleton. split; [intros (? & ? & [= -> ->] & ?); by right|].
      intros [(? & ? & Hn & _)|Hp]; [by apply not_elem_of_nil in Hn|eauto].
    - rewrite rg_snoc_app. split.
      + intros (q' & r' & Hin & HP). apply elem_of_app in Hin as [Hin|Hin]; [left; exists q', r'; set_solver|].
        apply elem_of_cons in Hin as [[= -> ->]|Hin]; [left; exists p, x; set_solver|].
        apply list_elem_of_singleton in Hin as [= -> ->]. by right.
      + intros [(q' & r' & Hin & HP)|HP]; [|exists q, r; set_solver]. apply elem_of_app in Hin as [Hin|Hin]; [exists q', r'; set_solver|].
        apply list_elem_of_singleton in Hin as [= -> ->]. exists p, (set_rnext q x). set_solver. }
  specialize (Hsnoc (fun a b => a <= fa < u32 (a + b))). cbv beta in Hsnoc. rewrite Hsnoc.
  destruct (sp_rg d); unfold set_rstart; cbn [heap_start heap_end]; tauto.
Qed.

(** Rounding up to a page. *)
Lemma round_up_page x : 0 <= x <= 2 ^ 32 - PAGE_SIZE ->
  let h := Z.land (u32 (u32 (x + PAGE_SIZE) - 1)) PAGE_FRAME in h mod PAGE_SIZE = 0 /\ x <= h < x + PAGE_SIZE.
Proof.
  intros Hx h. unfold PAGE_SIZE in *. assert (u32 (u32 (x + 4096) - 1) = x + 4095) as E.
  { unfold u32. rewrite Zminus_mod_idemp_l. rewrite Z.mod_small; lia. }
  unfold h. rewrite E. unfold PAGE_FRAME. rewrite land_page_frame by lia. split; [apply Z.mod_mul; lia|]. zlia.
Qed.

(** [as_prepare_load] puts the heap at the first page after the regions. *)
Lemma as_prepare_load_spec `{VmHeap} `{SwapDevice} s as_ d : space_at s as_ d ->
  (forall q r, (q, r) ∈ sp_rg d -> 0 <= region_end r <= STACKBASE) ->
  wp (as_prepare_load as_) (fun res s' => res = 0 /\ exists e h, h mod PAGE_SIZE = 0 /\ e <= h < e + PAGE_SIZE /\
    0 <= e <= STACKBASE /\ (forall q r, (q, r) ∈ sp_rg d -> region_end r <= e) /\
    (e = 0 \/ exists q r, (q, r) ∈ sp_rg d /\ e = region_end r) /\
    s' = set_spaces (<[as_ := Addrspace (start_region (sp_as d)) (start_page_table (sp_as d)) h h]> (spaces s)) s) s.
Proof.
  intros Hsp Hb. destruct (live_block _ _ _ _ Hsp (as_in_blocks as_ d)) as [Hpos _].
  unfold as_prepare_load. wp_step. apply wp_kassert; [by rewrite (proj2 (Z.eqb_neq as_ 0)) by lia|].
  wp_step. apply (wp_space_read _ (sp_as d)); [apply Hsp|]. wp_step.
  wp_apply (regions_end_spec s as_ d STACKBASE); [done|done|by vm_compute|]. intros e s' (-> & He & Hmax & Hwhich).
  assert (STACKBASE < 2 ^ 31) as HSB' by done.
  destruct (round_up_page e) as [Hal Hr]; [unfold PAGE_SIZE; lia|]. cbv zeta in *. set (h := Z.land _ PAGE_FRAME) in *.
  wp_step. apply (wp_space_put _ (sp_as d)); [apply Hsp|]. wp_step. apply wp_kassert; [by rewrite Hal|]. wp_step.
  split; [done|]. by exists e, h.
Qed.

(** A TLB with only invalid entries agrees with every page table. *)
Lemma tlb_ok_flushed d s t : length t = Z.to_nat NUM_TLB -> 0 <= c0_random s < NUM_TLB ->
  (forall i x, t !! i = Some x -> x = (TLBHI_INVALID (Z.of_nat i), TLBLO_INVALID)) -> tlb_ok d (set_tlb t s).
Proof.
  intros Ht Hr Hinv. assert (forall i x, t !! i = Some x -> tlb_valid x.2 = false) as Hv by (intros i x Hx; by rewrite (Hinv i x Hx)).
  constructor; vm_simpl; try done.
  - intros i x Hx. by rewrite (Hv i x Hx).
  - intros i j x y Hx _. by rewrite (Hv i x Hx).
  - intros i x Hx _. rewrite (Hinv i x Hx). pose proof (lookup_lt_Some _ _ _ Hx) as Hi. rewrite Ht in Hi.
    change (Z.to_nat NUM_TLB) with 64%nat in Hi. do 64 (destruct i as [|i]; [by vm_compute|]). lia.
Qed.

(** ** Properties *)

(** defining a region at a page boundary either fails with [ENOMEM] and
    changes no address space, or adds to the address space exactly the
    addresses of the whole pages that cover the region, without touching its
    page table, its heap or any other address space. *)
Theorem as_define_region_maps `{VmHeap} `{SwapDevice} (A : gmap Z space) (s : vm) (as_ : Z) (d : space)
    (vaddr memsize readable writeable executable : Z) :
  vm_inv A s -> A !! as_ = Some d -> 0 <= vaddr -> vaddr mod PAGE_SIZE = 0 -> 0 <= memsize -> vaddr + memsize <= USERSTACK ->
  wp (as_define_region as_ vaddr memsize readable writeable executable) (fun res s' =>
    (res = ENOMEM /\ vm_inv A s') \/
    (res = 0 /\ exists d', vm_inv (<[as_ := d']> A) s' /\ sp_pt d' = sp_pt d /\
      heap_start (sp_as d') = heap_start (sp_as d) /\ heap_end (sp_as d') = heap_end (sp_as d) /\
      (forall fa, in_space d' fa <-> in_space d fa \/ vaddr <= fa < vaddr + (memsize + PAGE_SIZE - 1) / PAGE_SIZE * PAGE_SIZE) /\
      (forall as1 d1 e1, A !! as1 = Some d1 -> e1 ∈ sp_pt d1 ->
        frames s' !! Z.of_nat (en_frame e1) = frames s !! Z.of_nat (en_frame e1)))) s.
Proof.
  intros I Hd Hva Hal Hsz Hend. unfold USERSTACK, USERSPACETOP, MIPS_KSEG0, PAGE_SIZE in *.
  wp_apply (as_define_region_spec s as_ d vaddr memsize); [apply I|by apply I|lia|lia|].
  intros res s' [(-> & W & Hh)|(-> & q & Hr)].
  - left. split; [done|]. eapply vm_inv_within; [exact I|exact W|set_solver|set_solver|set_solver|by rewrite Hh].
  - right. split; [done|]. pose proof (vm_inv_rappended A s as_ d q _ s' I Hd Hr) as I'. eexists. split; [exact I'|].
    split_and!; [done|unfold space_rsnoc; by destruct (sp_rg d)..| |].
    + intros fa. rewrite in_space_rsnoc. unfold region_of, PAGE_SIZE. cbn [rg_start rg_size].
      rewrite (u32_id (memsize + 4096 - 1)) by lia. rewrite u32_id by zlia. replace (vaddr / 4096 * 4096) with vaddr by zlia. done.
    + intros as1 d1 e1 H1 He1. destruct (page_not_user s as1 d1 (en_frame e1)) as (p & Hp & Hu); [by apply I|apply list_elem_of_fmap; eauto|].
      destruct Hr as [_ _ W _]. apply (wi_frames _ _ _ _ W _ p); rewrite ?Nat2Z.id; [set_solver|done|done].
Qed.

Lemma as_define_region_maps_witness :
  wp (as_define_region 50 8388608 5000 4 2 0) (fun res s' => res = ENOMEM \/ res = 0) (ex_sys 3) /\
  wp (as_define_region 50 8388608 5000 4 2 0 ;;; vm_fault 1 8396000) (fun res s' => res = 0) (ex_sys 3).
Proof.
  split; [|vm_compute; reflexivity].
  eapply wp_mono; [apply (as_define_region_maps ex_spaces (ex_sys 3) 50 ex_space);
    [exact (ex_sys_inv 3)|reflexivity|lia|reflexivity|lia|vm_compute; discriminate]|].
  intros res s' [[Hr _]|[Hr _]]; [left|right]; exact Hr.
Defined.

(** once the regions are defined, the heap starts empty at the first page
    boundary at or after the end of every region, so it overlaps none of
    them, and it is well formed for [sbrk]. *)
Theorem as_prepare_load_heap `{VmHeap} `{SwapDevice} (A : gmap Z space) (s : vm) (as_ : Z) (d : space) :
  vm_inv A s -> A !! as_ = Some d -> (forall q r, (q, r) ∈ sp_rg d -> 0 <= region_end r <= STACKBASE) ->
  wp (as_prepare_load as_) (fun res s' => res = 0 /\ exists h d', vm_inv (<[as_ := d']> A) s' /\
    sp_pt d' = sp_pt d /\ sp_rg d' = sp_rg d /\ heap_start (sp_as d') = h /\ heap_end (sp_as d') = h /\ heap_wf d' /\
    (forall q r, (q, r) ∈ sp_rg d -> region_end r <= h) /\
    (h = 0 \/ exists q r, (q, r) ∈ sp_rg d /\ h - PAGE_SIZE < region_end r)) s.
Proof.
  intros I Hd Hb. wp_apply (as_prepare_load_spec s as_ d); [by apply I|done|]. intros res s' (-> & e & h & Hh & Hr & He & Hmax & Hwhich & ->).
  assert (STACKBASE mod PAGE_SIZE = 0) as HSB by done. split; [done|]. exists h. eexists. split; [by apply vm_inv_bounds|].
  split_and!; try done.
  - unfold heap_wf. cbn [heap_start heap_end sp_as]. unfold PAGE_SIZE in *. split_and!; [lia|lia|zlia|done|done].
  - intros q r Hq. specialize (Hmax q r Hq). lia.
  - destruct Hwhich as [->|(q & r & Hq & ->)]; [left; unfold PAGE_SIZE in *; zlia|]. right. exists q, r. split; [done|lia].
Qed.

Lemma as_prepare_load_heap_witness :
  wp (as_prepare_load 50) (fun res s' => res = 0) (ex_sys 3) /\
  wp (as_define_region 50 8388608 5000 4 2 0 ;;; as_prepare_load 50 ;;; space_read 50) (fun a s' => heap_start a = 8396800) (ex_sys 3).
Proof.
  split; [|vm_compute; reflexivity].
  eapply wp_mono; [apply (as_prepare_load_heap ex_spaces (ex_sys 3) 50 ex_space); [exact (ex_sys_inv 3)|reflexivity|]|].
  - intros q r Hin. apply list_elem_of_singleton in Hin. injection Hin as -> ->. vm_compute. split; discriminate.
  - intros res s' [Hr _]. exact Hr.
Defined.

(** activating an address space empties the TLB: whatever page table the
    entries came from, none is left, so the TLB agrees with the page table of
    any address space; nothing else changes. *)
Theorem as_activate_flushes (s : vm) (d : space) :
  length (tlb s) = Z.to_nat NUM_TLB -> 0 <= c0_random s < NUM_TLB -> curas s <> 0 ->
  wp as_activate (fun _ s' => tlb_ok d s' /\ (forall va, tlb_misses va s') /\ s' = set_tlb (tlb s') s) s.
Proof.
  intros Hlen Hr Hc. wp_apply (as_activate_spec s); [done..|]. intros _ s' (t & -> & Ht & Hinv).
  split_and!; [by apply tlb_ok_flushed| |by destruct s]. intros va i x Hx. vm_simpl. by rewrite (Hinv i x Hx).
Qed.

(** The example system after a fault has loaded the TLB. *)
Definition ex_faulted : vm := match vm_fault 0 4194304 (ex_sys 3) with Done _ s => s | _ => ex_sys 3 end.

Lemma as_activate_flushes_witness :
  (16384 + 1536) ∈ (tlb ex_faulted).*2 /\ wp as_activate (fun _ s' => forall va, tlb_misses va s') ex_faulted.
Proof.
  split; [apply list_elem_of_In; vm_compute; repeat (left; reflexivity || right)|].
  eapply wp_mono; [apply (as_activate_flushes ex_faulted ex_space); [vm_compute; reflexivity|vm_compute; split; [discriminate|reflexivity]|vm_compute; discriminate]|].
  intros _ s' (_ & Hm & _). exact Hm.
Defined.


