(* ===== verification/VmSystem.v ===== *)
(** * The virtual memory system as a whole

    What the calls of kern/vm/addrspace.c, kern/vm/vm.c and [sys_sbrk]
    promise together: an abstract machine with one memory per address space,
    and the proof that every call of the detailed system is a step of the
    abstract one. *)

From S2P Require Import Prelude KHeap Bitmap VmState Coremap VmHeap Swap AddrSpace SpaceInv VmExample SpaceOps SpaceCopy VmInv VmFault Sbrk Loading.

(** ** The calls *)

Inductive call :=
  | Create
  | Copy (as_ : Z)
  | Destroy (as_ : Z)
  | DefineRegion (as_ vaddr memsize readable writeable executable : Z)
  | PrepareLoad (as_ : Z)
  | Activate (as_ : Z)
  | VmFault (faulttype faultaddress : Z)
  | Sbrk (increment : Z).

(** The result of a call: an error code or a value. *)
Definition run_call `{VmHeap} `{SwapDevice} (c : call) : M vm (err Z) :=
  match c with
  | Create => r <- as_create ;; ret (if r =? 0 then inl ENOMEM else inr r)
  | Copy a => as_copy a
  | Destroy a => as_destroy a ;;; ret (inr 0)
  | DefineRegion a va sz r w x => e <- as_define_region a va sz r w x ;; ret (if e =? 0 then inr 0 else inl e)
  | PrepareLoad a => e <- as_prepare_load a ;; ret (if e =? 0 then inr 0 else inl e)
  | Activate a => modify (set_curas a) ;;; as_activate ;;; ret (inr 0)
  | VmFault ft fa => e <- vm_fault ft fa ;; ret (if e =? 0 then inr 0 else inl e)
  | Sbrk inc => sys_sbrk inc
  end.

(** ** The abstract machine *)

Record aspace := ASpace {
  a_pages : gmap Z (option page);
  a_regions : list (Z * Z);
  a_heap : Z * Z;
}.

Definition a_empty : aspace := ASpace ∅ [] (0, 0).

(** The addresses a program may use. *)
Definition a_valid (x : aspace) (fa : Z) : Prop :=
  (STACKBASE <= fa < USERSTACK) \/ (a_heap x).1 <= fa < (a_heap x).2 \/
  exists r, r ∈ a_regions x /\ r.1 <= fa < r.1 + r.2.

Definition page_of (fa : Z) : Z := fa / PAGE_SIZE * PAGE_SIZE.
Definition round_up (x : Z) : Z := (x + PAGE_SIZE - 1) / PAGE_SIZE * PAGE_SIZE.

(** The end of the highest region. *)
Definition a_end (x : aspace) : Z := foldr Z.max 0 ((fun r => r.1 + r.2) <$> a_regions x).

Definition a_sbrk_verdict (x : aspace) (increment : Z) : option Z :=
  let new_end := (a_heap x).2 + increment in
  if (0 <? increment) && (STACKBASE <=? new_end) then Some ENOMEM
  else if (increment <? 0) && (new_end <? (a_heap x).1) then Some EINVAL
  else if negb (increment mod PAGE_SIZE =? 0) then Some EINVAL
  else None.

(** The address spaces and the current one; every clause says what happens
    to the one address space a call is about, and that all others stay. *)
Inductive astep (m : gmap Z aspace) (cur : Z) : call -> err Z -> gmap Z aspace -> Z -> Prop :=
  | a_create n : m !! n = None -> astep m cur Create (inr n) (<[n := a_empty]> m) cur
  | a_create_fail : astep m cur Create (inl ENOMEM) m cur
  | a_copy a x n : m !! a = Some x -> m !! n = None -> astep m cur (Copy a) (inr n) (<[n := x]> m) cur
  | a_copy_fail a : astep m cur (Copy a) (inl ENOMEM) m cur
  | a_destroy a : astep m cur (Destroy a) (inr 0) (delete a m) cur
  | a_region a x va sz r w e : m !! a = Some x ->
      astep m cur (DefineRegion a va sz r w e) (inr 0)
        (<[a := ASpace (a_pages x) (a_regions x ++ [(va, round_up sz)]) (a_heap x)]> m) cur
  | a_region_fail a va sz r w e : astep m cur (DefineRegion a va sz r w e) (inl ENOMEM) m cur
  | a_prepare a x : m !! a = Some x ->
      astep m cur (PrepareLoad a) (inr 0)
        (<[a := ASpace (a_pages x) (a_regions x) (round_up (a_end x), round_up (a_end x))]> m) cur
  | a_activate a : astep m cur (Activate a) (inr 0) m a
  | a_fault_bad x ft fa : m !! cur = Some x -> ¬ a_valid x (page_of fa) -> astep m cur (VmFault ft fa) (inl EFAULT) m cur
  | a_fault_resident x ft fa : m !! cur = Some x -> a_valid x (page_of fa) -> is_Some (a_pages x !! page_of fa) ->
      astep m cur (VmFault ft fa) (inr 0) m cur
  | a_fault_new x ft fa : m !! cur = Some x -> a_valid x (page_of fa) -> a_pages x !! page_of fa = None ->
      astep m cur (VmFault ft fa) (inr 0)
        (<[cur := ASpace (<[page_of fa := Some zero_page]> (a_pages x)) (a_regions x) (a_heap x)]> m) cur
  | a_fault_nomem x ft fa : m !! cur = Some x -> a_valid x (page_of fa) -> a_pages x !! page_of fa = None ->
      astep m cur (VmFault ft fa) (inl ENOMEM) m cur
  | a_sbrk_bad x inc e : m !! cur = Some x -> a_sbrk_verdict x inc = Some e -> astep m cur (Sbrk inc) (inl e) m cur
  | a_sbrk x inc : m !! cur = Some x -> a_sbrk_verdict x inc = None ->
      astep m cur (Sbrk inc) (inr (a_heap x).2)
        (<[cur := ASpace (filter (fun p => ¬ ((a_heap x).2 + inc <= p.1 < (a_heap x).2)) (a_pages x))
                    (a_regions x) ((a_heap x).1, (a_heap x).2 + inc)]> m) cur.

(** ** What the kernel may call when *)

(** [L] holds the live address spaces.  A fault is taken by the current
    process on a page the TLB does not have; an address space is not
    destroyed while it is the current one. *)
Definition permitted (L : gset Z) (s : vm) (c : call) : Prop :=
  match c with
  | Create => True
  | Copy a | PrepareLoad a | Activate a => a ∈ L
  | Destroy a => a ∈ L /\ a <> curas s
  | DefineRegion a va sz _ _ _ => a ∈ L /\ 0 <= va /\ va mod PAGE_SIZE = 0 /\ 0 <= sz /\ va + sz <= STACKBASE
  | VmFault _ fa => curas s ∈ L /\ 0 <= fa < 2 ^ 32 /\ tlb_misses (page_of fa) s
  | Sbrk inc => curas s ∈ L /\ - 2 ^ 31 <= inc < 2 ^ 31
  end.

Definition live_after (c : call) (r : err Z) (L : gset Z) : gset Z :=
  match c, r with
  | Create, inr n | Copy _, inr n => {[n]} ∪ L
  | Destroy a, inr _ => L ∖ {[a]}
  | _, _ => L
  end.

(** A fault that gets an entry but finds no free page leaves the page table
    with a link to the entry it freed ([vm_fault_enomem_dangles]): the walk
    along the table reaches an entry that is not there. *)
Fixpoint walk_broken (fuel : nat) (s : vm) (p : Z) : bool :=
  match fuel with
  | O => false
  | S n =>
      if p =? 0 then false else
      match ptes s !! p with Some e => walk_broken n s (pte_next e) | None => true end
  end.

Definition table_broken (s : vm) (as_ : Z) : bool :=
  match spaces s !! as_ with Some a => walk_broken (pte_fuel s) s (start_page_table a) | None => false end.

(** ** The invariant and the abstraction *)

Definition regions_wf (d : space) : Prop :=
  forall q r, (q, r) ∈ sp_rg d -> 0 <= rg_start r /\ 0 <= rg_size r /\ rg_start r + rg_size r <= STACKBASE.

Record sys_inv (A : gmap Z space) (s : vm) : Prop := {
  si_vm : vm_inv A s;
  si_heap : forall as_ d, A !! as_ = Some d -> heap_wf d /\ regions_wf d;
  si_len : length (tlb s) = Z.to_nat NUM_TLB;
  si_random : 0 <= c0_random s < NUM_TLB;
  si_cur : curas s = 0 \/ exists d, A !! curas s = Some d /\ tlb_ok d s;
}.

Definition user_mem (s : vm) (d : space) : gmap Z (option page) :=
  list_to_map ((fun e => (en_vpage e, frames s !! Z.of_nat (en_frame e))) <$> sp_pt d).

Definition abs_space (s : vm) (d : space) : aspace :=
  ASpace (user_mem s d) ((fun r => (rg_start r.2, rg_size r.2)) <$> sp_rg d) (heap_start (sp_as d), heap_end (sp_as d)).

Definition abs (A : gmap Z space) (s : vm) : gmap Z aspace := abs_space s <$> A.

(** ** The abstraction and the detailed operations *)

Lemma user_mem_eq s s' d : (forall e, e ∈ sp_pt d -> frames s' !! Z.of_nat (en_frame e) = frames s !! Z.of_nat (en_frame e)) ->
  user_mem s' d = user_mem s d.
Proof. intros Hf. unfold user_mem. f_equal. apply list_fmap_ext. intros i e He. f_equal. apply Hf. by eapply list_elem_of_lookup_2. Qed.

Lemma user_mem_lookup s d va pg : NoDup (en_vpage <$> sp_pt d) ->
  user_mem s d !! va = Some pg <-> exists e, e ∈ sp_pt d /\ va = en_vpage e /\ pg = frames s !! Z.of_nat (en_frame e).
Proof.
  intros Hnd. unfold user_mem. rewrite <- elem_of_list_to_map by (by rewrite <- list_fmap_compose).
  rewrite list_elem_of_fmap. naive_solver.
Qed.

Lemma user_mem_none s d va : user_mem s d !! va = None <-> va ∉ en_vpage <$> sp_pt d.
Proof. unfold user_mem. rewrite <- not_elem_of_list_to_map. by rewrite <- list_fmap_compose. Qed.

(** The contents of user pages the operation does not own stay. *)
Definition keeps (s s' : vm) (d : space) : Prop :=
  forall e, e ∈ sp_pt d -> frames s' !! Z.of_nat (en_frame e) = frames s !! Z.of_nat (en_frame e).

Lemma within_keeps A s s' X P a d : vm_inv A s -> A !! a = Some d -> within X P s s' ->
  (forall k, k ∈ P -> k ∉ pages d) -> keeps s s' d.
Proof.
  intros I Hd W HP e He. destruct (page_not_user s a d (en_frame e)) as (p & Hp & Hu); [by apply I|apply list_elem_of_fmap; eauto|].
  apply (wi_frames _ _ _ _ W _ p); rewrite ?Nat2Z.id; [|done|done]. intros Hin. apply (HP _ Hin). apply list_elem_of_fmap. eauto.
Qed.

Lemma abs_space_keeps s s' d : keeps s s' d -> abs_space s' d = abs_space s d.
Proof. intros Hk. unfold abs_space. by rewrite (user_mem_eq s s'). Qed.

Lemma abs_insert A s s' a d' : (forall b d, A !! b = Some d -> b <> a -> keeps s s' d) ->
  abs (<[a := d']> A) s' = <[a := abs_space s' d']> (abs A s).
Proof.
  intros Hk. apply map_eq. intros b. unfold abs. rewrite lookup_fmap. destruct (decide (b = a)) as [->|Hne].
  - by rewrite !lookup_insert_eq.
  - rewrite !lookup_insert_ne, lookup_fmap by done. destruct (A !! b) as [d|] eqn:E; [|done]. simpl. f_equal. apply abs_space_keeps. eauto.
Qed.

Lemma abs_same A s s' : (forall b d, A !! b = Some d -> keeps s s' d) -> abs A s' = abs A s.
Proof. intros Hk. apply map_fmap_ext. intros b d E. apply abs_space_keeps. eauto. Qed.

Lemma abs_delete A s s' a : (forall b d, A !! b = Some d -> b <> a -> keeps s s' d) -> abs (delete a A) s' = delete a (abs A s).
Proof.
  intros Hk. unfold abs. rewrite <- fmap_delete. apply map_fmap_ext. intros b d [Hne E]%lookup_delete_Some. apply abs_space_keeps. eauto.
Qed.

Lemma abs_at A s a d : A !! a = Some d -> abs A s !! a = Some (abs_space s d).
Proof. intros E. unfold abs. by rewrite lookup_fmap, E. Qed.

Lemma abs_none A s a : A !! a = None -> abs A s !! a = None.
Proof. intros E. unfold abs. by rewrite lookup_fmap, E. Qed.

Lemma in_space_abs s d fa : regions_wf d -> in_space d fa <-> a_valid (abs_space s d) fa.
Proof.
  intros Hwf. unfold in_space, a_valid, abs_space. cbn [a_heap a_regions fst snd].
  change (USERSTACK - VM_STACKPAGES * PAGE_SIZE) with STACKBASE.
  assert ((exists q r, (q, r) ∈ sp_rg d /\ rg_start r <= fa < u32 (rg_start r + rg_size r)) <->
    (exists r : Z * Z, r ∈ ((fun r : Z * region => (rg_start r.2, rg_size r.2)) <$> sp_rg d) /\ r.1 <= fa < r.1 + r.2)) as ->; [|done].
  assert (STACKBASE < 2 ^ 32) as HS by done. split.
  - intros (q & r & Hin & Hr). destruct (Hwf q r Hin) as (? & ? & ?). rewrite u32_id in Hr by lia.
    exists (rg_start r, rg_size r). split; [|done]. apply list_elem_of_fmap. by exists (q, r).
  - intros (x & ([q r] & -> & Hin)%list_elem_of_fmap & Hr). destruct (Hwf q r Hin) as (? & ? & ?). cbn [fst snd] in *.
    exists q, r. rewrite u32_id by lia. done.
Qed.

Lemma in_space_dec d fa : in_space d fa \/ ¬ in_space d fa.
Proof.
  destruct (decide (Exists (fun x : Z * region => rg_start x.2 <= fa < u32 (rg_start x.2 + rg_size x.2)) (sp_rg d))) as [He|He].
  - apply Exists_exists in He as ([q r] & Hin & Hr). left. right; right. by exists q, r.
  - destruct (decide ((USERSTACK - VM_STACKPAGES * PAGE_SIZE <= fa < USERSTACK) \/ (heap_start (sp_as d) <= fa < heap_end (sp_as d)))) as [Hb|Hb].
    + left. destruct Hb; [by left|by right; left].
    + right. intros [?|[?|(q & r & Hin & Hr)]]; [tauto..|]. apply He, Exists_exists. by exists (q, r).
Qed.

Lemma wp_eq {A} (m : M vm A) a s s' (Q : A -> vm -> Prop) : m s = Done a s' -> Q a s' -> wp m Q s.
Proof. intros E HQ. unfold wp. by rewrite E. Qed.

Lemma user_mem_snoc s s' d e' : keeps s s' d -> NoDup (en_vpage <$> sp_pt d) -> en_vpage e' ∉ en_vpage <$> sp_pt d ->
  user_mem s' (space_snoc d e') = <[en_vpage e' := frames s' !! Z.of_nat (en_frame e')]> (user_mem s d).
Proof.
  intros Hk Hnd Hv. rewrite <- (user_mem_eq s s') by done. unfold user_mem, space_snoc. cbn [sp_pt].
  rewrite <- list_to_map_snoc by (by rewrite <- list_fmap_compose). f_equal.
  destruct (sp_pt d) as [|x l _] using rev_ind; [done|]. by rewrite pt_snoc_app, !fmap_app, <- app_assoc.
Qed.

(** The system invariant when one address space changes. *)
Lemma tlb_ok_move d d' s s' : tlb_ok d s -> tlb s' = tlb s -> c0_random s' = c0_random s -> sp_pt d' = sp_pt d -> tlb_ok d' s'.
Proof. intros [Tl Tr Te Tu Ti] E1 E2 E3. constructor; rewrite ?E1, ?E2, ?E3; done. Qed.

Lemma sys_inv_other A s a d' s' : sys_inv A s -> vm_inv (<[a := d']> A) s' -> heap_wf d' -> regions_wf d' ->
  tlb s' = tlb s -> c0_random s' = c0_random s -> curas s' = curas s ->
  (A !! a = None \/ exists d, A !! a = Some d /\ sp_pt d' = sp_pt d) -> sys_inv (<[a := d']> A) s'.
Proof.
  intros [Iv Ih Il Ir Ic] I' Hwf Hrwf Et Er Ec Ha. constructor; rewrite ?Et, ?Er, ?Ec; try done.
  - intros b d [[<- <-]|[_ Hb]]%lookup_insert_Some; [done|by eapply Ih].
  - destruct Ic as [|(d & Hd & Ht)]; [by left|right]. destruct (decide (a = curas s)) as [->|Hne].
    + exists d'. split; [apply lookup_insert_eq|]. destruct Ha as [Ha|(d0 & Hd0 & E)]; [congruence|]. simplify_eq. by eapply tlb_ok_move.
    + exists d. split; [by rewrite lookup_insert_ne|]. by eapply tlb_ok_move.
Qed.

Lemma sys_inv_same A s s' : sys_inv A s -> vm_inv A s' ->
  tlb s' = tlb s -> c0_random s' = c0_random s -> curas s' = curas s -> sys_inv A s'.
Proof.
  intros [Iv Ih Il Ir Ic] I' Et Er Ec. constructor; rewrite ?Et, ?Er, ?Ec; try done.
  destruct Ic as [|(d & Hd & Ht)]; [by left|right]. exists d. split; [done|]. by eapply tlb_ok_move.
Qed.

Lemma foldr_max_eq (l : list Z) e : 0 <= e -> Forall (fun x => x <= e) l -> e = 0 \/ e ∈ l -> foldr Z.max 0 l = e.
Proof.
  intros He Hle Hin. assert (0 <= foldr Z.max 0 l <= e /\ forall x, x ∈ l -> x <= foldr Z.max 0 l) as [Hb Hx].
  { clear Hin. induction Hle as [|y l Hy _ [IH1 IH2]]; cbn [foldr]; [split; [lia|by intros x ?%not_elem_of_nil]|].
    split; [lia|]. intros x [->|Hx]%elem_of_cons; [|specialize (IH2 x Hx)]; lia. }
  destruct Hin as [|Hin]; [|specialize (Hx e Hin)]; lia.
Qed.

Lemma rg_snoc_fmap {B} (f : Z * region -> B) l q r : (forall p x n, f (p, set_rnext n x) = f (p, x)) ->
  f <$> rg_snoc l q r = (f <$> l) ++ [f (q, r)].
Proof.
  intros Hf. destruct l as [|[p y] l _] using rev_ind; [done|]. rewrite rg_snoc_app, !fmap_app, <- app_assoc. cbn. by rewrite Hf.
Qed.

(** ** Every call is a step of the abstract machine *)

Definition refined (A : gmap Z space) (s : vm) (c : call) (r : err Z) (s' : vm) : Prop :=
  exists A', dom A' = live_after c r (dom A) /\ sys_inv A' s' /\ astep (abs A s) (curas s) c r (abs A' s') (curas s').

(** The one other outcome: a fault out of memory that broke the table. *)
Definition broke (s : vm) (c : call) (r : err Z) (s' : vm) : Prop :=
  match c with VmFault _ _ => r = inl ENOMEM /\ curas s' = curas s /\ table_broken s' (curas s) = true | _ => False end.

Lemma walk_broken_leads s q : 0 < q -> ptes s !! q = None -> forall l p n, pt_leads p l q ->
  Forall (fun e => 0 < en_ptr e /\ ptes s !! en_ptr e = Some (en_pte e)) l -> (length l < n)%nat -> walk_broken n s p = true.
Proof.
  intros Hq Hn l. induction l as [|e l IH]; intros p [|n] Hl Hents Hlen; cbn [length] in Hlen; try lia; cbn [pt_leads walk_broken] in *.
  - subst p. by rewrite (proj2 (Z.eqb_neq q 0)), Hn by lia.
  - destruct Hl as [-> Hl]. apply Forall_cons in Hents as [[Hpos He] Hents]. rewrite (proj2 (Z.eqb_neq _ 0)), He by lia.
    apply IH; [done|done|lia].
Qed.

Lemma dangling_broken `{VmHeap} `{SwapDevice} s as_ d s' : space_at s as_ d -> dangling s as_ d s' -> table_broken s' as_ = true.
Proof.
  intros Hsp (q & lk & Hdg). destruct (dangles_table q lk s as_ d s' Hsp Hdg) as (a & l & [Ds _ Dl _ Df De _]).
  unfold table_broken. rewrite Ds. eapply walk_broken_leads; [apply Hdg|apply Hdg|done..].
Qed.

Section refine.
Context `{VmHeap} `{SwapDevice} (A : gmap Z space) (s : vm) (IS : sys_inv A s).

(** Operations that change no user page. *)
Lemma keeps_all s' X : within X ∅ s s' -> forall b d, A !! b = Some d -> keeps s s' d.
Proof. intros W b d Hb. eapply within_keeps; [apply IS|done|exact W|set_solver]. Qed.

Lemma create_refines : wp (run_call Create) (refined A s Create) s.
Proof.
  cbn [run_call]. wp_step. wp_apply as_create_spec; [apply IS|]. intros r s' [(-> & W & Hh)|([_ Hfr] & W & Hh & Hsp)].
  - rewrite Z.eqb_refl. wp_step. exists A. rewrite (wi_cur _ _ _ _ W), (abs_same A s s') by (by eapply keeps_all).
    split_and!; [done| |constructor]. apply (sys_inv_same A s); [done| |apply W..].
    eapply vm_inv_within; [apply IS|exact W|set_solver|set_solver|set_solver|by rewrite Hh].
  - apply Forall_singleton in Hfr as [Hpos Hn]. assert (A !! r = None) as HA by (eapply fresh_not_space; [apply IS|done]).
    rewrite (proj2 (Z.eqb_neq r 0)) by lia. wp_step. exists (<[r := Space (Addrspace 0 0 0 0) [] []]> A).
    rewrite (abs_insert A s s') by (intros b d Hb _; by eapply keeps_all). rewrite (wi_cur _ _ _ _ W).
    split_and!; [by rewrite dom_insert_L| |constructor; by apply abs_none].
    apply (sys_inv_other A s); [done| |by vm_compute|by intros ? ? ?%not_elem_of_nil|apply W..|by left].
    apply (vm_inv_created A s); [apply IS|done..].
Qed.

Lemma copy_refines a : a ∈ dom A -> wp (run_call (Copy a)) (refined A s (Copy a)) s.
Proof.
  intros [d Hd]%elem_of_dom. cbn [run_call]. wp_apply (as_copy_spec s a d); [apply IS|by apply IS|]. intros [er|n] s' Hr.
  - destruct Hr as (-> & L & Hu). pose proof (vm_inv_undone A L s s' (si_vm _ _ IS) Hu) as I'. destruct Hu as (F & P & _ & _ & W & _ & HP & _).
    exists A. rewrite (wi_cur _ _ _ _ W), (abs_same A s s').
    + split_and!; [done|apply (sys_inv_same A s); [done|done|apply W..]|constructor].
    + intros b d' Hb. eapply within_keeps; [apply IS|done|exact W|]. intros k Hk Hin.
      destruct (page_not_user s b d' k) as (p & Hp & Hpu); [by apply IS|done|]. by eapply HP.
  - destruct Hr as (dn & C). pose proof (vm_inv_cloned A s d n dn s' (si_vm _ _ IS) C) as I'.
    destruct C as [Cs Cp Cr [Cb Cb'] Cw Ch Cf Cn]. destruct (si_heap _ _ IS a d Hd) as [Hwf Hrwf].
    assert (A !! n = None) as Hn by (eapply fresh_not_space; [apply IS|apply Cf, as_in_blocks]).
    assert (abs_space s' dn = abs_space s d) as Eabs.
    { unfold abs_space. rewrite Cb, Cb'. f_equal; [unfold user_mem; f_equal|].
      - clear -Cp. induction Cp as [|e e' l l' (E1 & _ & E2) _ IH]; [done|]. rewrite !fmap_cons, E1, E2. by f_equal.
      - clear -Cr. induction Cr as [|e e' l l' (E1 & E2 & _) _ IH]; [done|]. rewrite !fmap_cons, E1, E2. by f_equal. }
    exists (<[n := dn]> A). rewrite (wi_cur _ _ _ _ Cw), (abs_insert A s s').
    + rewrite Eabs. split_and!; [by rewrite dom_insert_L| |apply a_copy; [by apply abs_at|by apply abs_none]].
      apply (sys_inv_other A s); [done|done| | |apply Cw..|by left].
      * unfold heap_wf in *. by rewrite Cb, Cb'.
      * intros q' r' Hin. destruct (list_elem_of_lookup_1 _ _ Hin) as [i Hi].
        destruct (Forall2_lookup_r _ _ _ _ _ Cr Hi) as ([q0 r0] & H1 & (E1 & E2 & _)). cbn [snd] in *.
        rewrite E1, E2. apply (Hrwf q0). by eapply list_elem_of_lookup_2.
    + intros b d' Hb _. eapply within_keeps; [apply IS|done|exact Cw|]. intros k Hk Hin. apply elem_of_list_to_set in Hk.
      destruct (page_not_user s b d' k) as (p & Hp & Hpu); [by apply IS|done|]. by eapply Cn.
Qed.

Lemma destroy_refines a : a ∈ dom A -> a <> curas s -> wp (run_call (Destroy a)) (refined A s (Destroy a)) s.
Proof.
  intros [d Hd]%elem_of_dom Hne. cbn [run_call]. wp_step. wp_apply (as_destroy_spec s a d); [apply IS|by apply IS|].
  intros _ s' (W & Hh & _ & Hfree). wp_step. pose proof (vm_inv_destroy A s a d s' (si_vm _ _ IS) Hd W Hh Hfree) as I'.
  exists (delete a A). rewrite (wi_cur _ _ _ _ W), (abs_delete A s s').
  - split_and!; [by rewrite dom_delete_L| |constructor]. destruct IS as [Iv Ih Il Ir Ic].
    destruct (wi_tlb _ _ _ _ W) as [Et Er]. constructor; rewrite ?Et, ?Er, ?(wi_cur _ _ _ _ W); try done.
    + intros b d' [_ Hb]%lookup_delete_Some. by eapply Ih.
    + destruct Ic as [|(dc & Hdc & Ht)]; [by left|right]. exists dc. rewrite lookup_delete_ne by done.
      split; [done|]. by eapply tlb_ok_move.
  - intros b d' Hb Hba. eapply within_keeps; [apply IS|done|exact W|]. intros k Hk Hin. apply elem_of_list_to_set in Hk.
    apply list_elem_of_fmap in Hk as (e1 & -> & He1), Hin as (e2 & E & He2).
    destruct (pages_owner s a d b d' e1 e2) as [-> _]; [by apply IS|by apply IS|done..].
Qed.

Lemma define_region_refines a va sz r w x : a ∈ dom A -> 0 <= va -> va mod PAGE_SIZE = 0 -> 0 <= sz -> va + sz <= STACKBASE ->
  wp (run_call (DefineRegion a va sz r w x)) (refined A s (DefineRegion a va sz r w x)) s.
Proof.
  intros [d Hd]%elem_of_dom Hva Hal Hsz Hend. assert (STACKBASE < 2 ^ 31 /\ STACKBASE mod 4096 = 0) as [HS HSa] by done.
  destruct (si_heap _ _ IS a d Hd) as [Hwf Hrwf]. cbn [run_call]. wp_step.
  wp_apply (as_define_region_spec s a d va sz); [apply IS|by apply IS|lia|lia|]. intros res s' [(-> & W & Hh)|(-> & q & Hr)]; wp_step.
  - exists A. rewrite (wi_cur _ _ _ _ W), (abs_same A s s') by (by eapply keeps_all). split_and!; [done| |constructor].
    apply (sys_inv_same A s); [done| |apply W..]. eapply vm_inv_within; [apply IS|exact W|set_solver|set_solver|set_solver|by rewrite Hh].
  - pose proof (vm_inv_rappended A s a d q _ s' (si_vm _ _ IS) Hd Hr) as I'. destruct Hr as [_ _ W _].
    pose proof (keeps_all s' _ W) as HK. set (rg := region_of va sz r w x) in *.
    assert (rg_start rg = va /\ rg_size rg = round_up sz) as [E1 E2].
    { unfold rg, region_of, round_up. cbn [rg_start rg_size]. unfold PAGE_SIZE in *. rewrite u32_id by lia. split; [zlia|done]. }
    assert (va + round_up sz <= STACKBASE /\ 0 <= round_up sz) as Hru by (unfold round_up, PAGE_SIZE in *; zlia).
    exists (<[a := space_rsnoc d q rg]> A). rewrite (wi_cur _ _ _ _ W), (abs_insert A s s') by (intros b d' Hb _; by eapply HK).
    assert (heap_start (sp_as (space_rsnoc d q rg)) = heap_start (sp_as d) /\ heap_end (sp_as (space_rsnoc d q rg)) = heap_end (sp_as d)) as [B1 B2].
    { unfold space_rsnoc. by destruct (sp_rg d). }
    split_and!; [rewrite dom_insert_L; apply elem_of_dom_2 in Hd; set_solver| |].
    + apply (sys_inv_other A s); [done|done|unfold heap_wf; by rewrite B1, B2| |apply W..|right; by exists d].
      intros q' r' Hin. unfold regions_wf in Hrwf.
      assert ((rg_start r', rg_size r') ∈ ((fun x : Z * region => (rg_start x.2, rg_size x.2)) <$> sp_rg (space_rsnoc d q rg))) as Hin'.
      { apply list_elem_of_fmap. by exists (q', r'). }
      unfold space_rsnoc in Hin'. cbn [sp_rg] in Hin'. rewrite rg_snoc_fmap in Hin' by done. apply elem_of_app in Hin' as [Hin'|Hin'].
      * apply list_elem_of_fmap in Hin' as ([q0 r0] & [= -> ->] & H1). by apply (Hrwf q0).
      * apply list_elem_of_singleton in Hin'. cbn [snd] in Hin'. rewrite E1, E2 in Hin'. injection Hin' as -> ->. lia.
    + assert (abs_space s' (space_rsnoc d q rg) = ASpace (a_pages (abs_space s d)) (a_regions (abs_space s d) ++ [(va, round_up sz)]) (a_heap (abs_space s d))) as ->.
      { unfold abs_space. rewrite B1, B2. cbn [a_pages a_regions a_heap]. f_equal; [|unfold space_rsnoc; cbn [sp_rg]; rewrite rg_snoc_fmap by done; cbn [snd]; by rewrite E1, E2].
        rewrite <- (user_mem_eq s s' d); [done|]. by eapply HK. }
      constructor. by apply abs_at.
Qed.

Lemma prepare_load_refines a : a ∈ dom A -> wp (run_call (PrepareLoad a)) (refined A s (PrepareLoad a)) s.
Proof.
  intros [d Hd]%elem_of_dom. destruct (si_heap _ _ IS a d Hd) as [Hwf Hrwf]. cbn [run_call]. wp_step.
  wp_apply (as_prepare_load_spec s a d); [by apply IS|intros q r Hq; destruct (Hrwf q r Hq) as (? & ? & ?); unfold region_end; lia|].
  intros res s' (-> & e & h & Hal & Hr & He & Hmax & Hwhich & ->). wp_step.
  assert (STACKBASE mod PAGE_SIZE = 0) as HSB by done.
  assert (a_end (abs_space s d) = e) as Eend.
  { unfold a_end, abs_space. cbn [a_regions]. rewrite <- list_fmap_compose. apply foldr_max_eq; [lia| |].
    - apply Forall_fmap, Forall_forall. intros [q r] Hq. by apply (Hmax q r).
    - destruct Hwhich as [|(q & r & Hq & ->)]; [by left|right]. apply list_elem_of_fmap. by exists (q, r). }
  exists (<[a := Space (Addrspace (start_region (sp_as d)) (start_page_table (sp_as d)) h h) (sp_pt d) (sp_rg d)]> A).
  rewrite (abs_insert A s) by done.
  split_and!; [rewrite dom_insert_L; apply elem_of_dom_2 in Hd; set_solver| |].
  - apply (sys_inv_other A s); [done|by apply vm_inv_bounds; [apply IS|]| |done|done|done|done|right; by exists d].
    unfold heap_wf. cbn [heap_start heap_end sp_as]. unfold PAGE_SIZE in *. split_and!; [lia|lia|zlia|done|done].
  - assert (round_up (a_end (abs_space s d)) = h) as Eh by (rewrite Eend; unfold round_up, PAGE_SIZE in *; zlia).
    rewrite <- Eh. by apply (a_prepare _ _ a (abs_space s d)), abs_at.
Qed.

Lemma activate_refines a : a ∈ dom A -> wp (run_call (Activate a)) (refined A s (Activate a)) s.
Proof.
  intros [d Hd]%elem_of_dom. cbn [run_call]. do 2 wp_step. wp_step.
  assert (0 < a) as Ha by (apply (live_block s a d); [by apply IS|apply as_in_blocks]).
  wp_apply (as_activate_spec (set_curas a s)); [apply IS|vm_simpl; lia|]. intros _ s' (t & -> & Ht & Hinv). wp_step.
  destruct IS as [Iv Ih Il Ir _]. exists A. rewrite (abs_same A s (set_tlb t _)) by done. split_and!; [done| |constructor].
  constructor; vm_simpl; try done.
  - destruct Iv as [Ic Ia Idj Iu]. constructor; try done.
    + by destruct Ic.
    + intros b d' Hb. destruct (Ia b d' Hb). constructor; try done. eapply Forall_impl; [done|]. intros e []. by constructor.
  - right. exists d. split; [done|]. by apply tlb_ok_flushed.
Qed.

Lemma fault_refines ft fa : curas s ∈ dom A -> 0 <= fa < 2 ^ 32 -> tlb_misses (page_of fa) s ->
  wp (run_call (VmFault ft fa)) (fun r s' => refined A s (VmFault ft fa) r s' \/ broke s (VmFault ft fa) r s') s.
Proof.
  intros Hcur Hfa Hmiss. destruct (si_cur _ _ IS) as [E0|(d & Hd & Ht)].
  { apply elem_of_dom in Hcur as [d Hd]. destruct (live_block s (curas s) d (curas s)) as [Hpos _]; [by apply IS|apply as_in_blocks|lia]. }
  destruct (si_heap _ _ IS _ d Hd) as [Hwf Hrwf]. assert (space_at s (curas s) d) as Hsp by (by apply IS). cbn [run_call]. wp_step.
  destruct (in_space_dec d (page_of fa)) as [Hin|Hout].
  - destruct (decide (page_of fa ∈ en_vpage <$> sp_pt d)) as [Hres|Hnew].
    + apply list_elem_of_fmap in Hres as (e & Ev & He).
      wp_apply (vm_fault_resident_spec A s d ft fa e); [apply IS|done|done|done|done|done|done|done|].
      intros r s' (-> & I' & Ht' & _ & Hf & _ & _ & Hc). wp_step. left. exists A. rewrite Hc, (abs_same A s s') by (intros b d' _ x _; by rewrite Hf).
      split_and!; [done| |].
      * constructor; [done|apply IS|apply Ht'|apply Ht'|]. right. exists d. by rewrite Hc.
      * apply (a_fault_resident _ _ (abs_space s d)); [by apply abs_at|by apply in_space_abs|].
        exists (frames s !! Z.of_nat (en_frame e)). apply user_mem_lookup; [apply Hsp|eauto].
    + wp_apply (vm_fault_demand_zero_spec A s d ft fa); [apply IS|done..|].
      intros r s' [(-> & e' & Ev & I' & Ht' & _ & Hz & Hc & Hk)|[-> [[I' [F W]]|Hdg]]].
      2: { wp_step. left. exists A. rewrite (wi_cur _ _ _ _ W), (abs_same A s s') by (by eapply keeps_all).
           split_and!; [done|apply (sys_inv_same A s); [done|done|apply W..]|].
           apply (a_fault_nomem _ _ (abs_space s d)); [by apply abs_at|by apply in_space_abs|by apply user_mem_none]. }
      2: { wp_step. right. split_and!; [done| |by eapply dangling_broken]. destruct Hdg as (q & lk & Hdg). apply (dg_within _ _ _ _ _ _ Hdg). }
      wp_step. left. exists (<[curas s := space_snoc d e']> A).
      assert (sp_rg (space_snoc d e') = sp_rg d /\ heap_start (sp_as (space_snoc d e')) = heap_start (sp_as d) /\
        heap_end (sp_as (space_snoc d e')) = heap_end (sp_as d)) as (B1 & B2 & B3) by (unfold space_snoc; by destruct (sp_pt d)).
      rewrite Hc, (abs_insert A s s') by (intros b d' Hb _ x Hx; by eapply Hk). split_and!.
      * rewrite dom_insert_L. set_solver.
      * constructor; [done| |apply Ht'|apply Ht'|].
        -- intros b d' [[<- <-]|[_ Hb]]%lookup_insert_Some; [|by eapply si_heap]. unfold heap_wf, regions_wf. by rewrite B1, B2, B3.
        -- right. exists (space_snoc d e'). rewrite Hc. split; [apply lookup_insert_eq|done].
      * assert (user_mem s' (space_snoc d e') = <[page_of fa := Some zero_page]> (user_mem s d)) as Em.
        { rewrite (user_mem_snoc s s'); [by rewrite Ev, Hz| |apply Hsp|by rewrite Ev]. intros x Hx. by eapply Hk. }
        unfold abs_space at 1. rewrite B1, B2, B3, Em.
        apply (a_fault_new _ _ (abs_space s d)); [by apply abs_at|by apply in_space_abs|by apply user_mem_none].
  - eapply wp_eq; [by apply (vm_fault_efault_spec A s d ft fa); [apply IS|..]|]. wp_step. left. exists A. split_and!; [done|done|]. apply (a_fault_bad _ _ (abs_space s d)); [by apply abs_at|].
    by rewrite <- in_space_abs.
Qed.

Lemma sbrk_refines inc : curas s ∈ dom A -> - 2 ^ 31 <= inc < 2 ^ 31 -> wp (run_call (Sbrk inc)) (refined A s (Sbrk inc)) s.
Proof.
  intros Hcur Hinc. destruct (si_cur _ _ IS) as [E0|(d & Hd & Ht)].
  { apply elem_of_dom in Hcur as [d Hd]. destruct (live_block s (curas s) d (curas s)) as [Hpos _]; [by apply IS|apply as_in_blocks|lia]. }
  destruct (si_heap _ _ IS _ d Hd) as [Hwf Hrwf]. assert (space_at s (curas s) d) as Hsp by (by apply IS). cbn [run_call].
  wp_apply (sys_sbrk_correct_spec A s d inc); [apply IS|done..|]. intros r s'. change (sbrk_verdict d inc) with (a_sbrk_verdict (abs_space s d) inc).
  destruct (a_sbrk_verdict (abs_space s d) inc) as [er|] eqn:Ev.
  - intros [-> ->]. exists A. split_and!; [done|done|]. apply (a_sbrk_bad _ _ (abs_space s d)); [by apply abs_at|done].
  - intros (-> & d' & [I' Ht' Hc Hs Hr Hp Hk Ho] & He). exists (<[curas s := d']> A).
    assert (heap_wf d') as Hwf'.
    { unfold a_sbrk_verdict, abs_space in Ev. cbn [a_heap fst snd] in Ev. unfold heap_wf in *. rewrite Hs, He.
      destruct Hwf as (Hb & Hmax & Ha1 & Ha2). repeat case_match; simplify_eq; boolify. unfold PAGE_SIZE in *. zlia. }
    rewrite Hc, (abs_insert A s s') by (intros b d1 Hb Hne x Hx; by eapply Ho). split_and!.
    + rewrite dom_insert_L. set_solver.
    + constructor; [done| |apply Ht'|apply Ht'|].
      * intros b d1 [[<- <-]|[_ Hb]]%lookup_insert_Some; [|by eapply si_heap]. unfold regions_wf. by rewrite Hr.
      * right. exists d'. rewrite Hc. split; [apply lookup_insert_eq|done].
    + assert (user_mem s' d' = filter (fun p => ¬ (heap_end (sp_as d) + inc <= p.1 < heap_end (sp_as d))) (user_mem s d)) as Em.
      { assert (NoDup (en_vpage <$> sp_pt d')) as Hnd' by (apply (vi_at _ _ I' (curas s)), lookup_insert_eq).
        apply map_eq. intros va. apply option_eq. intros pg. rewrite map_lookup_filter_Some, !user_mem_lookup by (done || apply Hsp).
        cbn [fst]. split.
        - intros (e' & He' & -> & ->). destruct (Hk e' He') as (e & Hin & Et & Ef & Efr). unfold tlb_entry in Et. injection Et as Ev' _.
          split; [exists e; by rewrite Ev', Efr|]. apply (Hp (en_vpage e')). apply list_elem_of_fmap. eauto.
        - intros [(e & Hin & -> & ->) Hout]. assert (en_vpage e ∈ en_vpage <$> sp_pt d') as Hin' by (apply Hp; split; [apply list_elem_of_fmap; eauto|done]).
          apply list_elem_of_fmap in Hin' as (e' & Ev' & He'). exists e'. split_and!; [done..|].
          destruct (Hk e' He') as (e2 & Hin2 & Et & Ef & Efr). rewrite Efr. unfold tlb_entry in Et. injection Et as Ev2 _.
          by rewrite (space_entry_unique s (curas s) d e e2) by (done || congruence). }
      unfold abs_space at 1. rewrite Hr, Hs, He, Em. apply (a_sbrk _ _ (abs_space s d)); [by apply abs_at|done].
Qed.
End refine.

Lemma call_refines `{VmHeap} `{SwapDevice} A s c : sys_inv A s -> permitted (dom A) s c ->
  wp (run_call c) (fun r s' => refined A s c r s' \/ broke s c r s') s.
Proof.
  intros IS Hp. destruct c; cbn [permitted] in Hp.
  7: destruct Hp as (Hc & Hfa & Hm); by apply fault_refines.
  all: eapply wp_mono; [|intros r s' Hr; left; exact Hr].
  - by apply create_refines.
  - by apply copy_refines.
  - destruct Hp as [Ha Hne]. by apply destroy_refines.
  - destruct Hp as (Ha & Hva & Hal & Hsz & Hend). by apply define_region_refines.
  - by apply prepare_load_refines.
  - by apply activate_refines.
  - destruct Hp as [Hc Hinc]. by apply sbrk_refines.
Qed.

(** ** Runs of the system *)

(** A run goes on as long as the current page table is whole: also after a
    fault that ran out of memory before it linked a new entry. *)

(** A freshly booted machine: no address space, no user page. *)
Record booted (s : vm) : Prop := {
  bo_cm : cm_ok s;
  bo_free : forall k p, coremap s !! k = Some p -> ¬ user_page p;
  bo_len : length (tlb s) = Z.to_nat NUM_TLB;
  bo_random : 0 <= c0_random s < NUM_TLB;
  bo_cur : curas s = 0;
}.

Inductive sys_step `{VmHeap} `{SwapDevice} : gset Z * vm -> gset Z * vm -> Prop :=
  | sys_call L s c r s' : permitted L s c -> run_call c s = Done r s' -> table_broken s' (curas s') = false ->
      sys_step (L, s) (live_after c r L, s').

Lemma booted_inv s : booted s -> sys_inv ∅ s.
Proof.
  intros [Bc Bf Bl Br Bu]. constructor; try done; [|by left]. constructor; try done. intros k p Hp Hu. by exfalso; eapply Bf.
Qed.

Lemma reachable_inv `{VmHeap} `{SwapDevice} s0 L s : booted s0 -> rtc sys_step (∅, s0) (L, s) -> exists A, dom A = L /\ sys_inv A s.
Proof.
  intros Hb Hr. assert (forall x y, rtc sys_step x y -> (exists A, dom A = x.1 /\ sys_inv A x.2) -> exists A, dom A = y.1 /\ sys_inv A y.2) as Hind.
  { intros x y Hxy. induction Hxy as [|x y z Hstep _ IH]; [done|]. intros (A & HA & IA). apply IH. destruct Hstep as [L0 s1 c r s' Hp Hrun Hwhole].
    cbn [fst snd] in *. subst L0. pose proof (call_refines A s1 c IA Hp) as Hw. unfold wp in Hw. rewrite Hrun in Hw.
    destruct Hw as [(A' & HA' & IA' & _)|Hbr]; [by exists A'|]. destruct c; try done. destruct Hbr as (_ & E & Hb'). congruence. }
  apply (Hind _ _ Hr). exists ∅. split; [apply dom_empty_L|by apply booted_inv].
Qed.

(** The translation the page table of [as_] gives, as the walk in
    [vm_fault] finds it. *)
Fixpoint pt_walk (fuel : nat) (s : vm) (p va : Z) : option Z :=
  match fuel with
  | O => None
  | S n =>
      if p =? 0 then None else
      match ptes s !! p with
      | Some e => if as_vpage e =? va then Some (as_ppage e) else pt_walk n s (pte_next e) va
      | None => None
      end
  end.

Definition translate (s : vm) (as_ va : Z) : option Z :=
  match spaces s !! as_ with Some a => pt_walk (pte_fuel s) s (start_page_table a) va | None => None end.

Lemma translate_walk s a d va pa : space_at s a d ->
  translate s a va = Some pa <-> exists e, e ∈ sp_pt d /\ en_vpage e = va /\ as_ppage (en_pte e) = pa.
Proof.
  intros Hsp. unfold translate. rewrite (sa_space _ _ _ Hsp).
  assert ((length (sp_pt d) < pte_fuel s)%nat) as Hf.
  { pose proof (sa_nodup _ _ _ Hsp) as [_ Hnd]%NoDup_cons. apply NoDup_app in Hnd as (Hnd & _ & _). eapply pt_fuel; [done|apply Hsp]. }
  assert (Forall (fun e => 0 < en_ptr e /\ ptes s !! en_ptr e = Some (en_pte e)) (sp_pt d)) as Hents.
  { pose proof (sa_entries _ _ _ Hsp) as He. rewrite Forall_forall in *. intros e Hin. split; [|by apply He].
    apply (live_block s a d); [done|]. by apply pt_blocks_in_blocks, en_ptr_block. }
  pose proof (sa_links _ _ _ Hsp) as Hl. pose proof (sa_vpages _ _ _ Hsp) as Hnd. clear Hsp.
  revert Hf Hl. generalize (start_page_table (sp_as d)), (pte_fuel s). intros p n. revert p n.
  induction (sp_pt d) as [|e l IH]; intros p [|n] Hf Hl; cbn [length] in Hf; try lia; cbn [pt_links] in Hl; cbn [pt_walk].
  - subst p. rewrite Z.eqb_refl. split; [done|]. by intros (e & He%not_elem_of_nil & _).
  - destruct Hl as [-> Hl]. apply Forall_cons in Hents as [[Hpos He] Hents]. rewrite (proj2 (Z.eqb_neq _ 0)), He by lia.
    apply NoDup_cons in Hnd as [Hn Hnd]. change (as_vpage (en_pte e)) with (en_vpage e). destruct (Z.eqb_spec (en_vpage e) va) as [<-|Hne].
    + split; [intros [= <-]; exists e; by split_and!; [apply list_elem_of_here|..]|]. intros (e' & [->|Hin]%elem_of_cons & Ev & <-); [done|].
      exfalso. apply Hn. rewrite <- Ev. apply list_elem_of_fmap. eauto.
    + rewrite IH by (done || lia). split; intros (e' & Hin & ? & ?); exists e'; (split; [|done]); [by apply list_elem_of_further|].
      apply elem_of_cons in Hin as [->|]; done.
Qed.

(** ** An example run *)

Definition ex_boot : vm :=
  Vm 8192 32768
    [CoremapPage 0 fixed 0 0 false; CoremapPage 0 fixed 0 0 false; CoremapPage 2 fixed 0 0 false; CoremapPage 0 fixed 0 0 false;
     free_page; free_page; free_page; free_page]
    2 false false None 0 false 2 ∅ ∅
    (map (fun i => (TLBHI_INVALID (Z.of_nat i), TLBLO_INVALID)) (seq 0 64)) 9 0 ∅ ∅ ∅ ∅ ∅ 0.

Lemma ex_boot_booted : booted ex_boot.
Proof.
  constructor; try done.
  - constructor; vm_simpl; try done; try (unfold start_idx; simpl; lia).
    + unfold start_idx. vm_simpl. by repeat constructor.
    + unfold managed, start_idx. vm_simpl. apply (chunks_kernel (CoremapPage 2 fixed 0 0 false) [CoremapPage 0 fixed 0 0 false]); [done..|by repeat constructor|].
      by repeat (apply chunks_free || constructor).
  - intros k p Hk Hu. unfold user_page in Hu. do 8 (destruct k as [|k]; [cbn in Hk; simplify_eq; naive_solver|]). done.
Qed.

(** A program of one page: create, define a region, activate, fault. *)
Definition ex_calls : list call := [Create; DefineRegion 1 4194304 4096 4 2 1; PrepareLoad 1; Activate 1; VmFault 0 4194400; Copy 1].

Fixpoint run_calls (cs : list call) (x : gset Z * vm) : gset Z * vm :=
  match cs with
  | [] => x
  | c :: cs' => match run_call c x.2 with Done r s' => run_calls cs' (live_after c r x.1, s') | _ => x end
  end.

Definition ex_after (n : nat) : gset Z * vm := run_calls (take n ex_calls) (∅, ex_boot).

Lemma ex_step n c r s' : permitted (ex_after n).1 (ex_after n).2 c -> run_call c (ex_after n).2 = Done r s' ->
  table_broken s' (curas s') = false -> ex_after (S n) = (live_after c r (ex_after n).1, s') ->
  rtc sys_step (∅, ex_boot) (ex_after n) -> rtc sys_step (∅, ex_boot) (ex_after (S n)).
Proof. intros Hp Hr Ho E Hrun. eapply rtc_r; [exact Hrun|]. rewrite E. destruct (ex_after n) as [L s]. by econstructor. Qed.

Lemma tlb_misses_check va s : forallb (fun x => negb (tlb_valid x.2 && (x.1 =? va))) (tlb s) = true -> tlb_misses va s.
Proof.
  intros Hf i x Hx Hv E. rewrite forallb_forall in Hf. specialize (Hf x (proj1 (list_elem_of_In _ _) (list_elem_of_lookup_2 _ _ _ Hx))).
  by rewrite Hv, (proj2 (Z.eqb_eq _ _) E) in Hf.
Qed.

Lemma ex_reach : rtc sys_step (∅, ex_boot) (ex_after 6).
Proof.
  assert (forall n, bool_decide (1 ∈ (ex_after (S n)).1) = true -> 1 ∈ (ex_after (S n)).1) as Hlive by (intros n Hb; by apply bool_decide_eq_true in Hb).
  eapply (ex_step 5 (Copy 1)); [by apply Hlive|vm_compute; reflexivity..|].
  eapply (ex_step 4 (VmFault 0 4194400)); [|vm_compute; reflexivity..|].
  { split_and!; [by apply Hlive|done|done|]. by apply tlb_misses_check. }
  eapply (ex_step 3 (Activate 1)); [by apply Hlive|vm_compute; reflexivity..|].
  eapply (ex_step 2 (PrepareLoad 1)); [by apply Hlive|vm_compute; reflexivity..|].
  eapply (ex_step 1 (DefineRegion 1 4194304 4096 4 2 1)); [split_and!; by (apply Hlive || vm_compute)|vm_compute; reflexivity..|].
  eapply (ex_step 0 Create); [done|vm_compute; reflexivity..|]. apply rtc_refl.
Qed.

(** ** Properties *)

(** C1: the virtual memory system implements the abstract machine: from a
    well-formed state, every permitted call returns (it does not panic,
    touch a wild address or run forever), its result and its effect are
    those of an abstract step on the memory contents, regions and heap of
    every address space, and the system is well formed again.  The one
    exception is a fault that returns [ENOMEM] with the current page table
    broken: the walk along it reaches an entry that was freed. *)
Theorem vm_calls_refine `{VmHeap} `{SwapDevice} (A : gmap Z space) (s : vm) (c : call) :
  sys_inv A s -> permitted (dom A) s c ->
  wp (run_call c) (fun r s' =>
    (exists A', dom A' = live_after c r (dom A) /\ sys_inv A' s' /\
      astep (abs A s) (curas s) c r (abs A' s') (curas s')) \/
    (exists faulttype faultaddress, c = VmFault faulttype faultaddress /\ r = inl ENOMEM /\ table_broken s' (curas s') = true)) s.
Proof.
  intros IS Hp. eapply wp_mono; [by apply call_refines|]. intros r s' [Hr|Hbr]; [by left|right].
  destruct c; try done. destruct Hbr as (-> & -> & Hb). eauto.
Qed.

Lemma vm_calls_refine_witness :
  wp (run_call Create) (fun r s' => exists A', sys_inv A' s' /\ astep ∅ 0 Create r (abs A' s') (curas s')) ex_boot.
Proof.
  eapply wp_mono; [apply (vm_calls_refine ∅ ex_boot Create); [apply booted_inv, ex_boot_booted|exact I]|].
  intros r s' [(A' & _ & IA & Hst)|(ft & fa & Hc & _)]; [|discriminate Hc]. exists A'. split; [exact IA|exact Hst].
Defined.

(** C7: memory isolation.  In every state a booted system reaches by permitted
    calls, none of which left the current page table broken (only a fault
    that ran out of memory can), a
    physical page is mapped by one page of one address space only; a mapped
    page is a user page the coremap records as that page of that address
    space, never kernel memory; and every valid TLB entry is a translation
    of the current address space's own page table. *)
Theorem vm_isolation `{VmHeap} `{SwapDevice} (s0 s : vm) (L : gset Z) :
  booted s0 -> rtc sys_step (∅, s0) (L, s) ->
  (forall a1 a2 v1 v2 pa, a1 ∈ L -> a2 ∈ L -> translate s a1 v1 = Some pa -> translate s a2 v2 = Some pa -> a1 = a2 /\ v1 = v2) /\
  (forall a va pa, a ∈ L -> translate s a va = Some pa -> exists p, coremap s !! Z.to_nat (pa / PAGE_SIZE) = Some p /\
    cp_state p = used /\ owner_addrspace p = a /\ owner_vaddr p = va) /\
  (curas s ∈ L -> forall i hi lo, tlb s !! i = Some (hi, lo) -> tlb_valid lo = true ->
    exists pa, translate s (curas s) hi = Some pa /\ lo = Z.lor (Z.lor pa TLBLO_DIRTY) TLBLO_VALID).
Proof.
  intros Hb Hr. destruct (reachable_inv s0 L s Hb Hr) as (A & <- & IA). split_and!.
  - intros a1 a2 v1 v2 pa [d1 H1]%elem_of_dom [d2 H2]%elem_of_dom T1 T2.
    assert (space_at s a1 d1) as S1 by (by apply IA). assert (space_at s a2 d2) as S2 by (by apply IA).
    apply (translate_walk _ _ _ _ _ S1) in T1 as (e1 & He1 & <- & <-). apply (translate_walk _ _ _ _ _ S2) in T2 as (e2 & He2 & <- & Ep).
    apply (pages_owner s a1 d1 a2 d2); try done. unfold en_frame. by rewrite Ep.
  - intros a va pa [d Hd]%elem_of_dom T. assert (space_at s a d) as Sd by (by apply IA).
    apply (translate_walk _ _ _ _ _ Sd) in T as (e & He & <- & <-). pose proof (sa_entries _ _ _ Sd) as Hen. rewrite Forall_forall in Hen.
    apply (Hen e He).
  - intros Hc i hi lo Hi Hv. destruct (si_cur _ _ IA) as [E0|(d & Hd & Ht)].
    { apply elem_of_dom in Hc as [d Hd]. destruct (live_block s (curas s) d (curas s)) as [Hpos _]; [by apply IA|apply as_in_blocks|lia]. }
    destruct (to_entries _ _ Ht i _ Hi Hv) as (e & He & [= -> ->]). exists (as_ppage (en_pte e)). split; [|done].
    apply (translate_walk _ _ d); [by apply IA|eauto].
Qed.

Lemma vm_isolation_witness :
  translate (ex_after 6).2 1 4194304 = Some 16384 /\ translate (ex_after 6).2 7 4194304 = Some 20480 /\
  (forall a v, a ∈ (ex_after 6).1 -> translate (ex_after 6).2 a v = Some 16384 -> a = 1 /\ v = 4194304).
Proof.
  split; [vm_compute; reflexivity|]. split; [vm_compute; reflexivity|].
  destruct (vm_isolation ex_boot (ex_after 6).2 (ex_after 6).1 ex_boot_booted) as [Hiso _]; [rewrite <- surjective_pairing; exact ex_reach|].
  intros a v Ha Ht. apply (Hiso a 1 v 4194304 16384); [exact Ha| |exact Ht|vm_compute; reflexivity].
  apply (bool_decide_unpack _). vm_compute. exact I.
Defined.

(** C10: in every state a booted system reaches by permitted calls, none of
    which left the current page table broken (only a fault that ran out of
    memory can), every permitted call returns
    a result: none panics (no [KASSERT] of the memory system fails, no lock
    is taken twice), reads a freed or unmapped object, or loops forever. *)
Theorem vm_calls_safe `{VmHeap} `{SwapDevice} (s0 s : vm) (L : gset Z) (c : call) :
  booted s0 -> rtc sys_step (∅, s0) (L, s) -> permitted L s c -> exists r s', run_call c s = Done r s'.
Proof.
  intros Hb Hr Hp. destruct (reachable_inv s0 L s Hb Hr) as (A & <- & IA). pose proof (call_refines A s c IA Hp) as Hw.
  unfold wp in Hw. destruct (run_call c s) as [r s'| | |]; [eauto|done..].
Qed.

Lemma vm_calls_safe_witness : exists r s', run_call (Sbrk 8192) (ex_after 6).2 = Done r s'.
Proof.
  apply (vm_calls_safe ex_boot (ex_after 6).2 (ex_after 6).1 (Sbrk 8192) ex_boot_booted); [rewrite <- surjective_pairing; exact ex_reach|].
  split; [apply (bool_decide_unpack _); vm_compute; exact I|lia].
Defined.
