(* ===== verification/ThreadState.v ===== *)
(** * The data of the thread system

    The objects of kern/include/thread.h, cpu.h, spinlock.h, wchan.h and
    synch.h.  Thread lists (run queues, wait channels, zombies) are lists of
    thread addresses: [Threadlist] proves that the linked lists of the code
    behave as such. *)

From S2P Require Import Prelude KHeap Array.

Definition IPL_NONE : Z := 0.
Definition IPL_HIGH : Z := 1.

Inductive threadstate := S_RUN | S_READY | S_SLEEP | S_ZOMBIE.

#[export] Instance threadstate_eq_dec : EqDecision threadstate.
Proof. solve_decision. Defined.

(** Where a thread goes on when it is switched to: the saved context
    ([t_context]) of a thread that called [thread_switch]. *)
Inductive cont :=
  | Creturn                    (* returns to its caller *)
  | Cstart                     (* a new thread, [thread_startup] *)
  | CP (sem : Z)               (* in the loop of [P] *)
  | Cacquire (lk : Z)          (* in the loop of [lock_acquire] *)
  | Cwait (cv lk : Z).         (* asleep in [cv_wait] *)

#[export] Instance cont_eq_dec : EqDecision cont.
Proof. solve_decision. Defined.

Record thread := Thread {
  t_name : Z;
  t_state : threadstate;
  t_stack : Z;
  t_cont : cont;
  t_spl : Z;               (* the local [spl] of its [thread_switch] call *)
  t_wchan : Z;             (* the local [wc] of that call *)
  t_cpu : Z;
  t_proc : Z;
  t_in_interrupt : bool;
  t_curspl : Z;
  t_iplhigh_count : Z;
}.

Record spinlock := Spinlock {
  splk_lock : Z;
  splk_holder : Z;         (* the cpu, 0 for NULL *)
}.

Definition free_spinlock : spinlock := Spinlock 0 0.

Record cpu := Cpu {
  c_curthread : Z;
  c_zombies : list Z;
  c_spinlocks : Z;
  c_irq : bool;            (* interrupts enabled on this processor *)
  c_isidle : bool;
  c_runqueue : list Z;
  c_runqueue_lock : spinlock;
  c_ipi_pending : Z;
  c_ipi_lock : spinlock;
}.

Record wchan := Wchan {
  wc_name : Z;
  wc_threads : list Z;
  wc_index : Z;
}.

Record semaphore := Semaphore {
  sem_name : Z;
  sem_wchan : Z;
  sem_lock : spinlock;
  sem_count : Z;
}.

Record lock := Lock {
  lk_name : Z;
  lk_lock : Z;
  lk_holder : Z;
  lk_spinlock : spinlock;
  lk_wchan : Z;
}.

Record cv := Cv {
  cv_name : Z;
  cv_wchan : Z;
  cv_spinlock : spinlock;
}.

(** The fields of [struct proc] the thread system uses. *)
Record pthread := Pthread {
  p_threads : array;
  p_lock : spinlock;
}.

Record kst := Kst {
  cpus : gmap Z cpu;  (* struct cpu objects *)
  threads : gmap Z thread;  (* struct thread objects *)
  wchans : gmap Z wchan;  (* struct wchan objects *)
  allwchans : array;  (* the array of all wait channels *)
  allwchans_lock : spinlock;
  sems : gmap Z semaphore;  (* struct semaphore objects *)
  slocks : gmap Z lock;  (* struct lock objects *)
  cvs : gmap Z cv;  (* struct cv objects *)
  pthreads : gmap Z pthread;  (* the threads and the spinlock of each struct proc *)
  kheap : gset Z;  (* kernel heap blocks in use *)
}.

Definition set_cpus (x : gmap Z cpu) (s : kst) : kst :=
  Kst x (threads s) (wchans s) (allwchans s) (allwchans_lock s) (sems s) (slocks s) (cvs s) (pthreads s) (kheap s).
Definition set_threads (x : gmap Z thread) (s : kst) : kst :=
  Kst (cpus s) x (wchans s) (allwchans s) (allwchans_lock s) (sems s) (slocks s) (cvs s) (pthreads s) (kheap s).
Definition set_wchans (x : gmap Z wchan) (s : kst) : kst :=
  Kst (cpus s) (threads s) x (allwchans s) (allwchans_lock s) (sems s) (slocks s) (cvs s) (pthreads s) (kheap s).
Definition set_allwchans (x : array) (s : kst) : kst :=
  Kst (cpus s) (threads s) (wchans s) x (allwchans_lock s) (sems s) (slocks s) (cvs s) (pthreads s) (kheap s).
Definition set_allwchans_lock (x : spinlock) (s : kst) : kst :=
  Kst (cpus s) (threads s) (wchans s) (allwchans s) x (sems s) (slocks s) (cvs s) (pthreads s) (kheap s).
Definition set_sems (x : gmap Z semaphore) (s : kst) : kst :=
  Kst (cpus s) (threads s) (wchans s) (allwchans s) (allwchans_lock s) x (slocks s) (cvs s) (pthreads s) (kheap s).
Definition set_slocks (x : gmap Z lock) (s : kst) : kst :=
  Kst (cpus s) (threads s) (wchans s) (allwchans s) (allwchans_lock s) (sems s) x (cvs s) (pthreads s) (kheap s).
Definition set_cvs (x : gmap Z cv) (s : kst) : kst :=
  Kst (cpus s) (threads s) (wchans s) (allwchans s) (allwchans_lock s) (sems s) (slocks s) x (pthreads s) (kheap s).
Definition set_pthreads (x : gmap Z pthread) (s : kst) : kst :=
  Kst (cpus s) (threads s) (wchans s) (allwchans s) (allwchans_lock s) (sems s) (slocks s) (cvs s) x (kheap s).
Definition set_kheap (x : gset Z) (s : kst) : kst :=
  Kst (cpus s) (threads s) (wchans s) (allwchans s) (allwchans_lock s) (sems s) (slocks s) (cvs s) (pthreads s) x.

Definition set_t_state (x : threadstate) (t : thread) : thread :=
  Thread (t_name t) x (t_stack t) (t_cont t) (t_spl t) (t_wchan t) (t_cpu t) (t_proc t) (t_in_interrupt t) (t_curspl t) (t_iplhigh_count t).
Definition set_t_stack (x : Z) (t : thread) : thread :=
  Thread (t_name t) (t_state t) x (t_cont t) (t_spl t) (t_wchan t) (t_cpu t) (t_proc t) (t_in_interrupt t) (t_curspl t) (t_iplhigh_count t).
Definition set_t_cont (x : cont) (t : thread) : thread :=
  Thread (t_name t) (t_state t) (t_stack t) x (t_spl t) (t_wchan t) (t_cpu t) (t_proc t) (t_in_interrupt t) (t_curspl t) (t_iplhigh_count t).
Definition set_t_spl (x : Z) (t : thread) : thread :=
  Thread (t_name t) (t_state t) (t_stack t) (t_cont t) x (t_wchan t) (t_cpu t) (t_proc t) (t_in_interrupt t) (t_curspl t) (t_iplhigh_count t).
Definition set_t_wchan (x : Z) (t : thread) : thread :=
  Thread (t_name t) (t_state t) (t_stack t) (t_cont t) (t_spl t) x (t_cpu t) (t_proc t) (t_in_interrupt t) (t_curspl t) (t_iplhigh_count t).
Definition set_t_cpu (x : Z) (t : thread) : thread :=
  Thread (t_name t) (t_state t) (t_stack t) (t_cont t) (t_spl t) (t_wchan t) x (t_proc t) (t_in_interrupt t) (t_curspl t) (t_iplhigh_count t).
Definition set_t_proc (x : Z) (t : thread) : thread :=
  Thread (t_name t) (t_state t) (t_stack t) (t_cont t) (t_spl t) (t_wchan t) (t_cpu t) x (t_in_interrupt t) (t_curspl t) (t_iplhigh_count t).
Definition set_t_curspl (x : Z) (t : thread) : thread :=
  Thread (t_name t) (t_state t) (t_stack t) (t_cont t) (t_spl t) (t_wchan t) (t_cpu t) (t_proc t) (t_in_interrupt t) x (t_iplhigh_count t).
Definition set_t_iplhigh_count (x : Z) (t : thread) : thread :=
  Thread (t_name t) (t_state t) (t_stack t) (t_cont t) (t_spl t) (t_wchan t) (t_cpu t) (t_proc t) (t_in_interrupt t) (t_curspl t) x.

Definition set_c_curthread (x : Z) (c : cpu) : cpu :=
  Cpu x (c_zombies c) (c_spinlocks c) (c_irq c) (c_isidle c) (c_runqueue c) (c_runqueue_lock c) (c_ipi_pending c) (c_ipi_lock c).
Definition set_c_zombies (x : list Z) (c : cpu) : cpu :=
  Cpu (c_curthread c) x (c_spinlocks c) (c_irq c) (c_isidle c) (c_runqueue c) (c_runqueue_lock c) (c_ipi_pending c) (c_ipi_lock c).
Definition set_c_spinlocks (x : Z) (c : cpu) : cpu :=
  Cpu (c_curthread c) (c_zombies c) x (c_irq c) (c_isidle c) (c_runqueue c) (c_runqueue_lock c) (c_ipi_pending c) (c_ipi_lock c).
Definition set_c_irq (x : bool) (c : cpu) : cpu :=
  Cpu (c_curthread c) (c_zombies c) (c_spinlocks c) x (c_isidle c) (c_runqueue c) (c_runqueue_lock c) (c_ipi_pending c) (c_ipi_lock c).
Definition set_c_isidle (x : bool) (c : cpu) : cpu :=
  Cpu (c_curthread c) (c_zombies c) (c_spinlocks c) (c_irq c) x (c_runqueue c) (c_runqueue_lock c) (c_ipi_pending c) (c_ipi_lock c).
Definition set_c_runqueue (x : list Z) (c : cpu) : cpu :=
  Cpu (c_curthread c) (c_zombies c) (c_spinlocks c) (c_irq c) (c_isidle c) x (c_runqueue_lock c) (c_ipi_pending c) (c_ipi_lock c).
Definition set_c_runqueue_lock (x : spinlock) (c : cpu) : cpu :=
  Cpu (c_curthread c) (c_zombies c) (c_spinlocks c) (c_irq c) (c_isidle c) (c_runqueue c) x (c_ipi_pending c) (c_ipi_lock c).
Definition set_c_ipi_pending (x : Z) (c : cpu) : cpu :=
  Cpu (c_curthread c) (c_zombies c) (c_spinlocks c) (c_irq c) (c_isidle c) (c_runqueue c) (c_runqueue_lock c) x (c_ipi_lock c).
Definition set_c_ipi_lock (x : spinlock) (c : cpu) : cpu :=
  Cpu (c_curthread c) (c_zombies c) (c_spinlocks c) (c_irq c) (c_isidle c) (c_runqueue c) (c_runqueue_lock c) (c_ipi_pending c) x.

(** Reduce projections of updated objects. *)
Ltac k_simpl := cbn [cpus threads wchans allwchans allwchans_lock sems slocks cvs pthreads kheap set_cpus set_threads set_wchans set_allwchans set_allwchans_lock set_sems set_slocks set_cvs set_pthreads set_kheap t_name t_state t_stack t_cont t_spl t_wchan t_cpu t_proc t_in_interrupt t_curspl t_iplhigh_count set_t_state set_t_cont set_t_spl set_t_wchan set_t_cpu set_t_proc set_t_curspl set_t_iplhigh_count set_t_stack c_curthread c_zombies c_spinlocks c_irq c_isidle c_runqueue c_runqueue_lock c_ipi_pending c_ipi_lock set_c_curthread set_c_zombies set_c_spinlocks set_c_irq set_c_isidle set_c_runqueue set_c_runqueue_lock set_c_ipi_pending set_c_ipi_lock splk_lock splk_holder wc_name wc_threads wc_index sem_name sem_wchan sem_lock sem_count lk_name lk_lock lk_holder lk_spinlock lk_wchan cv_name cv_wchan cv_spinlock p_threads p_lock] in *.
