(* ===== verification/Thread.v ===== *)
(** * Interrupt levels, spinlocks, threads and wait channels

    kern/thread/spl.c, kern/thread/spinlock.c and the scheduler of
    kern/thread/thread.c.  Every operation takes [me], the cpu it runs on
    ([curcpu->c_self]).  A piece of code between two points where another
    thread can run on the same cpu is one operation; [thread_switch] ends in
    the thread switched to. *)

From S2P Require Import Prelude KHeap Array ThreadState.

(** ** Objects *)

Definition cpu_at (c : Z) : M kst cpu := s <- get ;; deref (cpus s !! c).
Definition cpu_put (c : Z) (k : cpu) : M kst unit :=
  _ <- cpu_at c ;; modify (fun s => set_cpus (<[c := k]> (cpus s)) s).
Definition thread_at (t : Z) : M kst thread := s <- get ;; deref (threads s !! t).
Definition thread_put (t : Z) (x : thread) : M kst unit :=
  _ <- thread_at t ;; modify (fun s => set_threads (<[t := x]> (threads s)) s).
Definition wchan_at (w : Z) : M kst wchan := s <- get ;; deref (wchans s !! w).
Definition wchan_put (w : Z) (x : wchan) : M kst unit :=
  _ <- wchan_at w ;; modify (fun s => set_wchans (<[w := x]> (wchans s)) s).
Definition sem_at (p : Z) : M kst semaphore := s <- get ;; deref (sems s !! p).
Definition sem_put (p : Z) (x : semaphore) : M kst unit :=
  _ <- sem_at p ;; modify (fun s => set_sems (<[p := x]> (sems s)) s).
Definition lock_at (p : Z) : M kst lock := s <- get ;; deref (slocks s !! p).
Definition lock_put (p : Z) (x : lock) : M kst unit :=
  _ <- lock_at p ;; modify (fun s => set_slocks (<[p := x]> (slocks s)) s).
Definition cv_at (p : Z) : M kst cv := s <- get ;; deref (cvs s !! p).
Definition cv_put (p : Z) (x : cv) : M kst unit :=
  _ <- cv_at p ;; modify (fun s => set_cvs (<[p := x]> (cvs s)) s).
Definition proc_at (p : Z) : M kst pthread := s <- get ;; deref (pthreads s !! p).
Definition proc_put (p : Z) (x : pthread) : M kst unit :=
  _ <- proc_at p ;; modify (fun s => set_pthreads (<[p := x]> (pthreads s)) s).

(** The spinlocks by the object they are embedded in. *)
Inductive splk :=
  | RunqueueLock (c : Z)
  | IpiLock (c : Z)
  | AllwchansLock
  | SemLock (p : Z)
  | LkSpinlock (p : Z)
  | CvSpinlock (p : Z)
  | PLock (p : Z).

Definition splk_read (l : splk) : M kst spinlock :=
  match l with
  | RunqueueLock c => k <- cpu_at c ;; ret (c_runqueue_lock k)
  | IpiLock c => k <- cpu_at c ;; ret (c_ipi_lock k)
  | AllwchansLock => s <- get ;; ret (allwchans_lock s)
  | SemLock p => x <- sem_at p ;; ret (sem_lock x)
  | LkSpinlock p => x <- lock_at p ;; ret (lk_spinlock x)
  | CvSpinlock p => x <- cv_at p ;; ret (cv_spinlock x)
  | PLock p => x <- proc_at p ;; ret (p_lock x)
  end.

Definition splk_write (l : splk) (v : spinlock) : M kst unit :=
  match l with
  | RunqueueLock c => k <- cpu_at c ;; cpu_put c (set_c_runqueue_lock v k)
  | IpiLock c => k <- cpu_at c ;; cpu_put c (set_c_ipi_lock v k)
  | AllwchansLock => modify (set_allwchans_lock v)
  | SemLock p => x <- sem_at p ;; sem_put p (Semaphore (sem_name x) (sem_wchan x) v (sem_count x))
  | LkSpinlock p => x <- lock_at p ;; lock_put p (Lock (lk_name x) (lk_lock x) (lk_holder x) v (lk_wchan x))
  | CvSpinlock p => x <- cv_at p ;; cv_put p (Cv (cv_name x) (cv_wchan x) v)
  | PLock p => x <- proc_at p ;; proc_put p (Pthread (p_threads x) v)
  end.

(** ** Interrupt levels *)

Definition curthread (me : Z) : M kst Z := k <- cpu_at me ;; ret (c_curthread k).

Definition cpu_irqoff (me : Z) : M kst unit := k <- cpu_at me ;; cpu_put me (set_c_irq false k).
Definition cpu_irqon (me : Z) : M kst unit := k <- cpu_at me ;; cpu_put me (set_c_irq true k).

Definition splraise (me oldspl newspl : Z) : M kst unit :=
  cur <- curthread me ;;
  kassert (oldspl =? IPL_NONE) ;;;
  kassert (newspl =? IPL_HIGH) ;;;
  t <- thread_at cur ;;
  (if t_iplhigh_count t =? 0 then cpu_irqoff me else ret tt) ;;;
  thread_put cur (set_t_iplhigh_count (t_iplhigh_count t + 1) t).

Definition spllower (me oldspl newspl : Z) : M kst unit :=
  cur <- curthread me ;;
  kassert (oldspl =? IPL_HIGH) ;;;
  kassert (newspl =? IPL_NONE) ;;;
  t <- thread_at cur ;;
  thread_put cur (set_t_iplhigh_count (t_iplhigh_count t - 1) t) ;;;
  if t_iplhigh_count t - 1 =? 0 then cpu_irqon me else ret tt.

Definition splx (me spl : Z) : M kst Z :=
  cur <- curthread me ;;
  t <- thread_at cur ;;
  if t_curspl t <? spl then
    splraise me (t_curspl t) spl ;;;
    t' <- thread_at cur ;;
    thread_put cur (set_t_curspl spl t') ;;;
    ret (t_curspl t)
  else if spl <? t_curspl t then
    thread_put cur (set_t_curspl spl t) ;;;
    spllower me (t_curspl t) spl ;;;
    ret (t_curspl t)
  else ret spl.

Definition splhigh (me : Z) : M kst Z := splx me IPL_HIGH.
Definition spl0 (me : Z) : M kst Z := splx me IPL_NONE.

(** ** Spinlocks *)

Definition spinlock_init (l : splk) : M kst unit := splk_write l free_spinlock.

Definition spinlock_cleanup (l : splk) : M kst unit :=
  v <- splk_read l ;;
  kassert (splk_holder v =? 0) ;;;
  kassert (splk_lock v =? 0).

(** Another cpu that holds the lock is waited for: run alone, the loop does
    not end. *)
Definition spinlock_acquire (me : Z) (l : splk) : M kst unit :=
  splraise me IPL_NONE IPL_HIGH ;;;
  v <- splk_read l ;;
  if splk_holder v =? me then panic else
  k <- cpu_at me ;;
  cpu_put me (set_c_spinlocks (c_spinlocks k + 1) k) ;;;
  v <- splk_read l ;;
  if negb (splk_lock v =? 0) then nofuel else
  splk_write l (Spinlock 1 me).

Definition spinlock_release (me : Z) (l : splk) : M kst unit :=
  v <- splk_read l ;;
  kassert (splk_holder v =? me) ;;;
  k <- cpu_at me ;;
  kassert (0 <? c_spinlocks k) ;;;
  cpu_put me (set_c_spinlocks (c_spinlocks k - 1) k) ;;;
  splk_write l free_spinlock ;;;
  spllower me IPL_HIGH IPL_NONE.

Definition spinlock_do_i_hold (me : Z) (l : splk) : M kst bool :=
  v <- splk_read l ;; ret (splk_holder v =? me).

(** ** Threads *)

(** The heap behind the thread system: an allocation changes the set of live
    blocks and nothing else of the state. *)
Class ThreadHeap := {
  th_kmalloc :: KMalloc kst;
  th_live : forall s, heap_live s = kheap s;
  th_ok : forall s, heap_ok s;
  th_side : forall s s', heap_side s s' -> s' = set_kheap (kheap s') s;
}.

Definition STACK_SIZE : Z := 4096.
Definition IPI_UNIDLE : Z := 2.

Section threads.
Context `{ThreadHeap}.

Definition ipi_send (me target code : Z) : M kst unit :=
  kassert ((0 <=? code) && (code <? 32)) ;;;
  spinlock_acquire me (IpiLock target) ;;;
  k <- cpu_at target ;;
  cpu_put target (set_c_ipi_pending (Z.lor (c_ipi_pending k) (Z.shiftl 1 code)) k) ;;;
  spinlock_release me (IpiLock target).

Definition thread_create (name : list Z) : M kst Z :=
  thread <- kmalloc 100 ;;
  if thread =? 0 then ret 0 else
  nm <- kstrdup name ;;
  if nm =? 0 then kfree thread ;;; ret 0 else
  modify (fun s => set_threads (<[thread := Thread nm S_READY 0 Creturn 0 0 0 0 false IPL_HIGH 1]> (threads s)) s) ;;;
  ret thread.

Definition thread_destroy (me thread : Z) : M kst unit :=
  cur <- curthread me ;;
  kassert (negb (thread =? cur)) ;;;
  t <- thread_at thread ;;
  kassert (negb (bool_decide (t_state t = S_RUN))) ;;;
  kassert (t_proc t =? 0) ;;;
  (if negb (t_stack t =? 0) then kfree (t_stack t) else ret tt) ;;;
  kfree (t_name t) ;;;
  modify (fun s => set_threads (delete thread (threads s)) s) ;;;
  kfree thread.

Definition exorcise (me : Z) : M kst unit :=
  k <- cpu_at me ;;
  loop_ (S (length (c_zombies k))) tt (fun _ =>
    k <- cpu_at me ;;
    match c_zombies k with
    | [] => ret (inr tt)
    | z :: rest =>
        cpu_put me (set_c_zombies rest k) ;;;
        kassert (negb (z =? c_curthread k)) ;;;
        t <- thread_at z ;;
        kassert (bool_decide (t_state t = S_ZOMBIE)) ;;;
        thread_destroy me z ;;;
        ret (inl tt)
    end).

Definition thread_make_runnable (me target : Z) (already_have_lock : bool) : M kst unit :=
  t <- thread_at target ;;
  let targetcpu := t_cpu t in
  (if already_have_lock then
     b <- spinlock_do_i_hold me (RunqueueLock targetcpu) ;; kassert b
   else spinlock_acquire me (RunqueueLock targetcpu)) ;;;
  t <- thread_at target ;;
  thread_put target (set_t_state S_READY t) ;;;
  k <- cpu_at targetcpu ;;
  cpu_put targetcpu (set_c_runqueue (c_runqueue k ++ [target]) k) ;;;
  (if c_isidle k then ipi_send me targetcpu IPI_UNIDLE else ret tt) ;;;
  if already_have_lock then ret tt else spinlock_release me (RunqueueLock targetcpu).

(** The end of [thread_switch], and the beginning of [thread_startup], run
    by the thread switched to. *)
Definition switched_to (me : Z) : M kst unit :=
  cur <- curthread me ;;
  t <- thread_at cur ;;
  thread_put cur (set_t_wchan 0 (set_t_state S_RUN t)) ;;;
  spinlock_release me (RunqueueLock me) ;;;
  exorcise me ;;;
  match t_cont t with
  | Cstart => spl0 me ;;; ret tt
  | _ => splx me (t_spl t) ;;; ret tt
  end.

(** One round of the loop that picks the next thread; without one the cpu
    releases its run queue and idles. *)
Definition pick_next (me : Z) : M kst unit :=
  k <- cpu_at me ;;
  match c_runqueue k with
  | [] => spinlock_release me (RunqueueLock me)
  | next :: rest =>
      cpu_put me (set_c_curthread next (set_c_isidle false (set_c_runqueue rest k))) ;;;
      switched_to me
  end.

(** An idle cpu that was interrupted looks at its run queue again. *)
Definition idle_again (me : Z) : M kst unit :=
  spinlock_acquire me (RunqueueLock me) ;;;
  pick_next me.

(** [k] is where the thread goes on after the switch.  [true] when the cpu
    went on to another thread or idles, [false] when it returned at once. *)
Definition thread_switch (me : Z) (newstate : threadstate) (wc : Z) (lk : option splk) (k : cont) : M kst bool :=
  spl <- splhigh me ;;
  c <- cpu_at me ;;
  let cur := c_curthread c in
  if c_isidle c then splx me spl ;;; ret false else
  spinlock_acquire me (RunqueueLock me) ;;;
  c <- cpu_at me ;;
  if bool_decide (newstate = S_READY) && bool_decide (c_runqueue c = []) then
    spinlock_release me (RunqueueLock me) ;;; splx me spl ;;; ret false
  else
  (match newstate with
   | S_RUN => panic
   | S_READY => thread_make_runnable me cur true
   | S_SLEEP =>
       w <- wchan_at wc ;;
       wchan_put wc (Wchan (wc_name w) (wc_threads w ++ [cur]) (wc_index w)) ;;;
       l <- deref lk ;;
       spinlock_release me l
   | S_ZOMBIE =>
       c <- cpu_at me ;;
       cpu_put me (set_c_zombies (c_zombies c ++ [cur]) c)
   end) ;;;
  t <- thread_at cur ;;
  thread_put cur (set_t_state newstate (set_t_cont k (set_t_spl spl (set_t_wchan wc t)))) ;;;
  c <- cpu_at me ;;
  cpu_put me (set_c_isidle true c) ;;;
  pick_next me ;;;
  ret true.

Definition thread_yield (me : Z) : M kst bool := thread_switch me S_READY 0 None Creturn.

(** ** Threads of a process (kern/proc/proc.c) *)

Definition on_pthreads {A} (p : Z) (m : M (kst * array) A) : M kst A :=
  x <- proc_at p ;;
  zoom (fun s => (s, p_threads x)) (fun r _ => set_pthreads (<[p := Pthread r.2 (p_lock x)]> (pthreads r.1)) r.1) m.

Definition proc_addthread (me proc t : Z) : M kst Z :=
  x <- thread_at t ;;
  kassert (t_proc x =? 0) ;;;
  spinlock_acquire me (PLock proc) ;;;
  result <- on_pthreads proc (array_add t) ;;
  spinlock_release me (PLock proc) ;;;
  match result with
  | inl e => ret e
  | inr _ =>
      spl <- splhigh me ;;
      x <- thread_at t ;;
      thread_put t (set_t_proc proc x) ;;;
      splx me spl ;;;
      ret 0
  end.

Definition proc_remthread (me t : Z) : M kst unit :=
  x <- thread_at t ;;
  let proc := t_proc x in
  kassert (negb (proc =? 0)) ;;;
  spinlock_acquire me (PLock proc) ;;;
  num <- on_pthreads proc array_num ;;
  r <- for_ (Z.to_nat num) 0 (fun i =>
    y <- on_pthreads proc (array_get i) ;;
    if y =? t then
      on_pthreads proc (array_remove i) ;;;
      spinlock_release me (PLock proc) ;;;
      spl <- splhigh me ;;
      x <- thread_at t ;;
      thread_put t (set_t_proc 0 x) ;;;
      splx me spl ;;;
      ret (Some tt)
    else ret None) ;;
  match r with
  | Some _ => ret tt
  | None => spinlock_release me (PLock proc) ;;; panic
  end.

Definition thread_exit (me : Z) : M kst unit :=
  cur <- curthread me ;;
  proc_remthread me cur ;;;
  t <- thread_at cur ;;
  kassert (t_proc t =? 0) ;;;
  splhigh me ;;;
  thread_switch me S_ZOMBIE 0 None Creturn ;;;
  ret tt.

Definition thread_fork (me : Z) (name : list Z) (proc : Z) : M kst Z :=
  newthread <- thread_create name ;;
  if newthread =? 0 then ret ENOMEM else
  stack <- kmalloc STACK_SIZE ;;
  t <- thread_at newthread ;;
  thread_put newthread (set_t_stack stack t) ;;;
  if stack =? 0 then thread_destroy me newthread ;;; ret ENOMEM else
  cur <- curthread me ;;
  x <- thread_at cur ;;
  t <- thread_at newthread ;;
  thread_put newthread (set_t_cpu (t_cpu x) t) ;;;
  let proc := if proc =? 0 then t_proc x else proc in
  result <- proc_addthread me proc newthread ;;
  if negb (result =? 0) then thread_destroy me newthread ;;; ret result else
  t <- thread_at newthread ;;
  thread_put newthread (set_t_cont Cstart (set_t_iplhigh_count (t_iplhigh_count t + 1) t)) ;;;
  thread_make_runnable me newthread false ;;;
  ret 0.

(** ** Wait channels *)

Definition on_allwchans {A} (m : M (kst * array) A) : M kst A :=
  zoom (fun s => (s, allwchans s)) (fun r _ => set_allwchans r.2 r.1) m.

Definition wchan_create (me name : Z) : M kst Z :=
  wc <- kmalloc 20 ;;
  if wc =? 0 then ret 0 else
  modify (fun s => set_wchans (<[wc := Wchan name [] 0]> (wchans s)) s) ;;;
  spinlock_acquire me AllwchansLock ;;;
  result <- on_allwchans (array_add wc) ;;
  (match result with
   | inr i => w <- wchan_at wc ;; wchan_put wc (Wchan (wc_name w) (wc_threads w) i)
   | inl _ => ret tt
   end) ;;;
  spinlock_release me AllwchansLock ;;;
  match result with
  | inl e =>
      kassert (e =? ENOMEM) ;;;
      w <- wchan_at wc ;;
      kassert (bool_decide (wc_threads w = [])) ;;;
      modify (fun s => set_wchans (delete wc (wchans s)) s) ;;;
      kfree wc ;;; ret 0
  | inr _ => ret wc
  end.

Definition wchan_destroy (me wc : Z) : M kst unit :=
  spinlock_acquire me AllwchansLock ;;;
  num <- on_allwchans array_num ;;
  w <- wchan_at wc ;;
  x <- on_allwchans (array_get (wc_index w)) ;;
  kassert (x =? wc) ;;;
  (if wc_index w <? u32 (num - 1) then
     wc2 <- on_allwchans (array_get (u32 (num - 1))) ;;
     on_allwchans (array_set (wc_index w) wc2) ;;;
     w2 <- wchan_at wc2 ;;
     wchan_put wc2 (Wchan (wc_name w2) (wc_threads w2) (wc_index w))
   else ret tt) ;;;
  on_allwchans (array_setsize (u32 (num - 1))) ;;;
  spinlock_release me AllwchansLock ;;;
  w <- wchan_at wc ;;
  kassert (bool_decide (wc_threads w = [])) ;;;
  modify (fun s => set_wchans (delete wc (wchans s)) s) ;;;
  kfree wc.

(** Up to the point where the thread sleeps; on waking up it takes [lk]
    again, which is the first thing its continuation does. *)
Definition wchan_sleep (me wc : Z) (lk : splk) (k : cont) : M kst bool :=
  cur <- curthread me ;;
  t <- thread_at cur ;;
  kassert (negb (t_in_interrupt t)) ;;;
  b <- spinlock_do_i_hold me lk ;;
  kassert b ;;;
  c <- cpu_at me ;;
  kassert (c_spinlocks c =? 1) ;;;
  thread_switch me S_SLEEP wc (Some lk) k.

Definition wchan_remhead (wc : Z) : M kst (option Z) :=
  w <- wchan_at wc ;;
  match wc_threads w with
  | [] => ret None
  | t :: rest => wchan_put wc (Wchan (wc_name w) rest (wc_index w)) ;;; ret (Some t)
  end.

Definition wchan_wakeone (me wc : Z) (lk : splk) : M kst unit :=
  b <- spinlock_do_i_hold me lk ;;
  kassert b ;;;
  target <- wchan_remhead wc ;;
  match target with
  | None => ret tt
  | Some t => thread_make_runnable me t false
  end.

Definition wchan_wakeall (me wc : Z) (lk : splk) : M kst unit :=
  b <- spinlock_do_i_hold me lk ;;
  kassert b ;;;
  w <- wchan_at wc ;;
  list <- loop_ (S (length (wc_threads w))) [] (fun list =>
    target <- wchan_remhead wc ;;
    match target with
    | None => ret (inr list)
    | Some t => ret (inl (list ++ [t]))
    end) ;;
  loop_ (S (length list)) list (fun list =>
    match list with
    | [] => ret (inr tt)
    | t :: rest => thread_make_runnable me t false ;;; ret (inl rest)
    end).

Definition wchan_isempty (me wc : Z) (lk : splk) : M kst bool :=
  b <- spinlock_do_i_hold me lk ;;
  kassert b ;;;
  w <- wchan_at wc ;;
  ret (bool_decide (wc_threads w = [])).
End threads.
