(* ===== verification/Synch.v ===== *)
(** * Semaphores, locks and condition variables (kern/thread/synch.c)

    An operation runs to the point where its thread sleeps, and says [true]
    when it returned to its caller and [false] when the thread sleeps in it;
    [continue] is the rest of the operation, run when the thread has been
    woken up and switched to. *)

From S2P Require Import Prelude KHeap Array ThreadState Thread.

Section synch.
Context `{ThreadHeap}.

(** ** Semaphores *)

Definition sem_create (me : Z) (name : list Z) (initial_count : Z) : M kst Z :=
  sem <- kmalloc 20 ;;
  if sem =? 0 then ret 0 else
  nm <- kstrdup name ;;
  if nm =? 0 then kfree sem ;;; ret 0 else
  wc <- wchan_create me nm ;;
  if wc =? 0 then kfree nm ;;; kfree sem ;;; ret 0 else
  modify (fun s => set_sems (<[sem := Semaphore nm wc free_spinlock initial_count]> (sems s)) s) ;;;
  ret sem.

Definition sem_destroy (me sem : Z) : M kst unit :=
  kassert (negb (sem =? 0)) ;;;
  x <- sem_at sem ;;
  spinlock_cleanup (SemLock sem) ;;;
  wchan_destroy me (sem_wchan x) ;;;
  kfree (sem_name x) ;;;
  modify (fun s => set_sems (delete sem (sems s)) s) ;;;
  kfree sem.

(** One test of the loop condition, with the spinlock held: sleep, or take
    the semaphore and return. *)
Definition P_loop (me sem : Z) : M kst bool :=
  x <- sem_at sem ;;
  if sem_count x =? 0 then
    wchan_sleep me (sem_wchan x) (SemLock sem) (CP sem) ;;;
    ret false
  else
    kassert (0 <? sem_count x) ;;;
    sem_put sem (Semaphore (sem_name x) (sem_wchan x) (sem_lock x) (sem_count x - 1)) ;;;
    spinlock_release me (SemLock sem) ;;;
    ret true.

Definition P (me sem : Z) : M kst bool :=
  kassert (negb (sem =? 0)) ;;;
  cur <- curthread me ;;
  t <- thread_at cur ;;
  kassert (negb (t_in_interrupt t)) ;;;
  spinlock_acquire me (SemLock sem) ;;;
  P_loop me sem.

Definition V (me sem : Z) : M kst unit :=
  kassert (negb (sem =? 0)) ;;;
  spinlock_acquire me (SemLock sem) ;;;
  x <- sem_at sem ;;
  let count := u32 (sem_count x + 1) in
  sem_put sem (Semaphore (sem_name x) (sem_wchan x) (sem_lock x) count) ;;;
  kassert (0 <? count) ;;;
  wchan_wakeone me (sem_wchan x) (SemLock sem) ;;;
  spinlock_release me (SemLock sem).

(** ** Locks *)

(** [lk_holder] is not set: it keeps [junk], what the allocated memory held. *)
Definition lock_create (me : Z) (name : list Z) (junk : Z) : M kst Z :=
  lock <- kmalloc 28 ;;
  if lock =? 0 then ret 0 else
  nm <- kstrdup name ;;
  if nm =? 0 then kfree lock ;;; ret 0 else
  wc <- wchan_create me nm ;;
  if wc =? 0 then kfree nm ;;; kfree lock ;;; ret 0 else
  modify (fun s => set_slocks (<[lock := Lock nm 0 junk free_spinlock wc]> (slocks s)) s) ;;;
  ret lock.

Definition lock_destroy (me lock : Z) : M kst unit :=
  kassert (negb (lock =? 0)) ;;;
  x <- lock_at lock ;;
  spinlock_cleanup (LkSpinlock lock) ;;;
  wchan_destroy me (lk_wchan x) ;;;
  kfree (lk_name x) ;;;
  modify (fun s => set_slocks (delete lock (slocks s)) s) ;;;
  kfree lock.

Definition acquire_loop (me lock : Z) : M kst bool :=
  x <- lock_at lock ;;
  if lk_lock x =? 1 then
    wchan_sleep me (lk_wchan x) (LkSpinlock lock) (Cacquire lock) ;;;
    ret false
  else
    cur <- curthread me ;;
    lock_put lock (Lock (lk_name x) 1 cur (lk_spinlock x) (lk_wchan x)) ;;;
    spinlock_release me (LkSpinlock lock) ;;;
    ret true.

Definition lock_acquire (me lock : Z) : M kst bool :=
  kassert (negb (lock =? 0)) ;;;
  spinlock_acquire me (LkSpinlock lock) ;;;
  acquire_loop me lock.

Definition lock_release (me lock : Z) : M kst unit :=
  kassert (negb (lock =? 0)) ;;;
  x <- lock_at lock ;;
  kassert (lk_lock x =? 1) ;;;
  cur <- curthread me ;;
  kassert (lk_holder x =? cur) ;;;
  spinlock_acquire me (LkSpinlock lock) ;;;
  x <- lock_at lock ;;
  lock_put lock (Lock (lk_name x) 0 0 (lk_spinlock x) (lk_wchan x)) ;;;
  wchan_wakeone me (lk_wchan x) (LkSpinlock lock) ;;;
  spinlock_release me (LkSpinlock lock).

Definition lock_do_i_hold (me lock : Z) : M kst bool :=
  kassert (negb (lock =? 0)) ;;;
  spinlock_acquire me (LkSpinlock lock) ;;;
  x <- lock_at lock ;;
  cur <- curthread me ;;
  let result := (lk_lock x =? 1) && (lk_holder x =? cur) in
  spinlock_release me (LkSpinlock lock) ;;;
  ret result.

(** ** Condition variables *)

Definition cv_create (me : Z) (name : list Z) : M kst Z :=
  cv <- kmalloc 16 ;;
  if cv =? 0 then ret 0 else
  nm <- kstrdup name ;;
  if nm =? 0 then kfree cv ;;; ret 0 else
  wc <- wchan_create me nm ;;
  if wc =? 0 then kfree nm ;;; kfree cv ;;; ret 0 else
  modify (fun s => set_cvs (<[cv := Cv nm wc free_spinlock]> (cvs s)) s) ;;;
  ret cv.

Definition cv_destroy (me cv : Z) : M kst unit :=
  kassert (negb (cv =? 0)) ;;;
  x <- cv_at cv ;;
  spinlock_cleanup (CvSpinlock cv) ;;;
  wchan_destroy me (cv_wchan x) ;;;
  kfree (cv_name x) ;;;
  modify (fun s => set_cvs (delete cv (cvs s)) s) ;;;
  kfree cv.

Definition cv_wait (me cv lock : Z) : M kst bool :=
  kassert (negb (cv =? 0)) ;;;
  kassert (negb (lock =? 0)) ;;;
  b <- lock_do_i_hold me lock ;;
  kassert b ;;;
  spinlock_acquire me (CvSpinlock cv) ;;;
  lock_release me lock ;;;
  x <- cv_at cv ;;
  wchan_sleep me (cv_wchan x) (CvSpinlock cv) (Cwait cv lock) ;;;
  ret false.

Definition cv_signal (me cv lock : Z) : M kst unit :=
  kassert (negb (cv =? 0)) ;;;
  b <- lock_do_i_hold me lock ;;
  kassert b ;;;
  spinlock_acquire me (CvSpinlock cv) ;;;
  x <- cv_at cv ;;
  wchan_wakeone me (cv_wchan x) (CvSpinlock cv) ;;;
  spinlock_release me (CvSpinlock cv).

Definition cv_broadcast (me cv lock : Z) : M kst unit :=
  kassert (negb (cv =? 0)) ;;;
  b <- lock_do_i_hold me lock ;;
  kassert b ;;;
  spinlock_acquire me (CvSpinlock cv) ;;;
  x <- cv_at cv ;;
  wchan_wakeall me (cv_wchan x) (CvSpinlock cv) ;;;
  spinlock_release me (CvSpinlock cv).

(** ** After a wakeup

    [wchan_sleep] takes the spinlock again and the operation goes on. *)
Definition continue (me : Z) (k : cont) : M kst bool :=
  match k with
  | Creturn | Cstart => ret true
  | CP sem => spinlock_acquire me (SemLock sem) ;;; P_loop me sem
  | Cacquire lock => spinlock_acquire me (LkSpinlock lock) ;;; acquire_loop me lock
  | Cwait cv lock =>
      spinlock_acquire me (CvSpinlock cv) ;;;
      spinlock_release me (CvSpinlock cv) ;;;
      lock_acquire me lock
  end.
End synch.
