(* ===== verification/ThreadSwitch.v ===== *)
(** * The spinlock discipline

    What spinlocks and interrupt levels add to the state is separated from
    the rest: [core] erases it, [kspin] describes it.  Each primitive keeps
    the discipline and acts on the core as a pure function. *)

From S2P Require Import Prelude KHeap Array ThreadState Thread.

(** ** The core of a state *)

Definition er_cpu (k : cpu) : cpu :=
  Cpu (c_curthread k) (c_zombies k) 0 true (c_isidle k) (c_runqueue k) free_spinlock 0 free_spinlock.
Definition er_thread (t : thread) : thread :=
  Thread (t_name t) (t_state t) (t_stack t) (t_cont t) 0 (t_wchan t) (t_cpu t) (t_proc t) (t_in_interrupt t) 0 0.
Definition er_sem (x : semaphore) : semaphore := Semaphore (sem_name x) (sem_wchan x) free_spinlock (sem_count x).
Definition er_lock (x : lock) : lock := Lock (lk_name x) (lk_lock x) (lk_holder x) free_spinlock (lk_wchan x).
Definition er_cv (x : cv) : cv := Cv (cv_name x) (cv_wchan x) free_spinlock.
Definition er_proc (x : pthread) : pthread := Pthread (p_threads x) free_spinlock.

Definition core (s : kst) : kst :=
  Kst (er_cpu <$> cpus s) (er_thread <$> threads s) (wchans s) (allwchans s) free_spinlock
    (er_sem <$> sems s) (er_lock <$> slocks s) (er_cv <$> cvs s) (er_proc <$> pthreads s) (kheap s).

(** Replacing an object by one with the same core leaves the core. *)
Lemma fmap_same {A B} (f : A -> B) (m : gmap Z A) i x y : m !! i = Some x -> f y = f x -> f <$> <[i := y]> m = f <$> m.
Proof. intros E Hf. rewrite fmap_insert, Hf. apply insert_id. by rewrite lookup_fmap, E. Qed.

Lemma core_set_cpu s c k k' : cpus s !! c = Some k -> er_cpu k' = er_cpu k -> core (set_cpus (<[c := k']> (cpus s)) s) = core s.
Proof. intros E Hk. unfold core. k_simpl. by rewrite (fmap_same er_cpu _ c k). Qed.

Lemma core_set_thread s x t t' : threads s !! x = Some t -> er_thread t' = er_thread t ->
  core (set_threads (<[x := t']> (threads s)) s) = core s.
Proof. intros E Ht. unfold core. k_simpl. by rewrite (fmap_same er_thread _ x t). Qed.

Lemma core_cpu s s' c k : core s' = core s -> cpus s !! c = Some k -> exists k', cpus s' !! c = Some k' /\ er_cpu k' = er_cpu k.
Proof.
  intros E Hk. assert (cpus (core s') !! c = cpus (core s) !! c) as Ec by (by rewrite E). unfold core in Ec. k_simpl.
  rewrite !lookup_fmap, Hk in Ec. destruct (cpus s' !! c) as [k'|]; [|done]. exists k'. split; [done|]. by apply (inj Some) in Ec.
Qed.

Lemma core_thread s s' x t : core s' = core s -> threads s !! x = Some t -> exists t', threads s' !! x = Some t' /\ er_thread t' = er_thread t.
Proof.
  intros E Hk. assert (threads (core s') !! x = threads (core s) !! x) as Ec by (by rewrite E). unfold core in Ec. k_simpl.
  rewrite !lookup_fmap, Hk in Ec. destruct (threads s' !! x) as [k'|]; [|done]. exists k'. split; [done|]. by apply (inj Some) in Ec.
Qed.

(** ** The discipline *)

#[export] Instance splk_eq_dec : EqDecision splk.
Proof. solve_decision. Defined.

Definition splk_val (s : kst) (l : splk) : option spinlock :=
  match l with
  | RunqueueLock c => c_runqueue_lock <$> cpus s !! c
  | IpiLock c => c_ipi_lock <$> cpus s !! c
  | AllwchansLock => Some (allwchans_lock s)
  | SemLock p => sem_lock <$> sems s !! p
  | LkSpinlock p => lk_spinlock <$> slocks s !! p
  | CvSpinlock p => cv_spinlock <$> cvs s !! p
  | PLock p => p_lock <$> pthreads s !! p
  end.

Definition upd (f : Z -> Z) (x v : Z) : Z -> Z := fun y => if bool_decide (y = x) then v else f y.

(** Only cpu [me] holds spinlocks, those of [L]; [D] and [C] are the raise
    counts and interrupt levels of the threads. *)
Record kspin (me : Z) (L : list splk) (D C : Z -> Z) (s : kst) : Prop := {
  ks_locks : forall l v, splk_val s l = Some v -> v = if bool_decide (l ∈ L) then Spinlock 1 me else free_spinlock;
  ks_count : forall c k, cpus s !! c = Some k -> c_spinlocks k = if bool_decide (c = me) then Z.of_nat (length L) else 0;
  ks_ipl : forall x t, threads s !! x = Some t -> t_iplhigh_count t = D x /\ t_curspl t = C x;
  ks_pos : forall x, 0 <= D x;
  ks_spl : forall x t, threads s !! x = Some t -> t_spl t = 0 \/ t_spl t = 1;
  ks_irq : forall c k, cpus s !! c = Some k -> c_irq k = (D (c_curthread k) =? 0);
}.

(** The running cpu and its thread. *)
Record running (me cur : Z) (s : kst) : Prop := {
  ru_me : 0 < me;
  ru_cpu : exists k, cpus s !! me = Some k /\ c_curthread k = cur;
  ru_thread : is_Some (threads s !! cur);
  ru_only : forall c k, cpus s !! c = Some k -> c <> me -> c_curthread k <> cur;
}.

Lemma running_core me cur s s' : running me cur s -> core s' = core s -> running me cur s'.
Proof.
  intros [Hme (k & Hk & Hc) [t Ht] Ho] E. destruct (core_cpu s s' me k E Hk) as (k' & Hk' & Ek), (core_thread s s' cur t E Ht) as (t' & Ht' & _).
  constructor; [done| |by eexists|].
  - exists k'. split; [done|]. unfold er_cpu in Ek. congruence.
  - intros c k2 Hk2 Hne. destruct (core_cpu s' s c k2 (eq_sym E) Hk2) as (k3 & Hk3 & Ek3). specialize (Ho c k3 Hk3 Hne). unfold er_cpu in Ek3. congruence.
Qed.

Lemma wp_cpu_at c k Q s : cpus s !! c = Some k -> Q k s -> wp (cpu_at c) Q s.
Proof. intros E HQ. unfold cpu_at. wp_steps. by apply (wp_deref _ k). Qed.
Lemma wp_cpu_put c k k' Q s : cpus s !! c = Some k -> Q tt (set_cpus (<[c := k']> (cpus s)) s) -> wp (cpu_put c k') Q s.
Proof. intros E HQ. unfold cpu_put. wp_step. apply (wp_cpu_at c k); [done|]. by wp_step. Qed.
Lemma wp_thread_at c k Q s : threads s !! c = Some k -> Q k s -> wp (thread_at c) Q s.
Proof. intros E HQ. unfold thread_at. wp_steps. by apply (wp_deref _ k). Qed.
Lemma wp_thread_put c k k' Q s : threads s !! c = Some k -> Q tt (set_threads (<[c := k']> (threads s)) s) -> wp (thread_put c k') Q s.
Proof. intros E HQ. unfold thread_put. wp_step. apply (wp_thread_at c k); [done|]. by wp_step. Qed.
Lemma wp_wchan_at c k Q s : wchans s !! c = Some k -> Q k s -> wp (wchan_at c) Q s.
Proof. intros E HQ. unfold wchan_at. wp_steps. by apply (wp_deref _ k). Qed.
Lemma wp_wchan_put c k k' Q s : wchans s !! c = Some k -> Q tt (set_wchans (<[c := k']> (wchans s)) s) -> wp (wchan_put c k') Q s.
Proof. intros E HQ. unfold wchan_put. wp_step. apply (wp_wchan_at c k); [done|]. by wp_step. Qed.
Lemma wp_sem_at c k Q s : sems s !! c = Some k -> Q k s -> wp (sem_at c) Q s.
Proof. intros E HQ. unfold sem_at. wp_steps. by apply (wp_deref _ k). Qed.
Lemma wp_sem_put c k k' Q s : sems s !! c = Some k -> Q tt (set_sems (<[c := k']> (sems s)) s) -> wp (sem_put c k') Q s.
Proof. intros E HQ. unfold sem_put. wp_step. apply (wp_sem_at c k); [done|]. by wp_step. Qed.
Lemma wp_lock_at c k Q s : slocks s !! c = Some k -> Q k s -> wp (lock_at c) Q s.
Proof. intros E HQ. unfold lock_at. wp_steps. by apply (wp_deref _ k). Qed.
Lemma wp_lock_put c k k' Q s : slocks s !! c = Some k -> Q tt (set_slocks (<[c := k']> (slocks s)) s) -> wp (lock_put c k') Q s.
Proof. intros E HQ. unfold lock_put. wp_step. apply (wp_lock_at c k); [done|]. by wp_step. Qed.
Lemma wp_cv_at c k Q s : cvs s !! c = Some k -> Q k s -> wp (cv_at c) Q s.
Proof. intros E HQ. unfold cv_at. wp_steps. by apply (wp_deref _ k). Qed.
Lemma wp_cv_put c k k' Q s : cvs s !! c = Some k -> Q tt (set_cvs (<[c := k']> (cvs s)) s) -> wp (cv_put c k') Q s.
Proof. intros E HQ. unfold cv_put. wp_step. apply (wp_cv_at c k); [done|]. by wp_step. Qed.
Lemma wp_t_proc_at c k Q s : pthreads s !! c = Some k -> Q k s -> wp (proc_at c) Q s.
Proof. intros E HQ. unfold proc_at. wp_steps. by apply (wp_deref _ k). Qed.
Lemma wp_t_proc_put c k k' Q s : pthreads s !! c = Some k -> Q tt (set_pthreads (<[c := k']> (pthreads s)) s) -> wp (proc_put c k') Q s.
Proof. intros E HQ. unfold proc_put. wp_step. apply (wp_t_proc_at c k); [done|]. by wp_step. Qed.

Lemma wp_curthread me cur Q s : running me cur s -> Q cur s -> wp (curthread me) Q s.
Proof. intros [_ (k & Hk & <-) _ _] HQ. unfold curthread. wp_step. apply (wp_cpu_at me k); [done|]. by wp_step. Qed.

(** *** Updates of the current cpu and thread *)

(** The cpu's interrupt flag and the thread's counts change together. *)
Lemma kspin_ipl me cur L D C s k t n c b : running me cur s -> kspin me L D C s ->
  cpus s !! me = Some k -> threads s !! cur = Some t -> 0 <= n -> b = (n =? 0) ->
  kspin me L (upd D cur n) (upd C cur c)
    (set_threads (<[cur := set_t_iplhigh_count n (set_t_curspl c t)]> (threads s))
      (set_cpus (<[me := set_c_irq b k]> (cpus s)) s)).
Proof.
  intros [_ (k0 & Hk0 & Hc) _ Ho] [K1 K2 K3 K4 K5 K6] Hk Ht Hn ->. assert (k0 = k) as -> by congruence. subst cur. constructor; k_simpl.
  - intros l v Hl. apply (K1 l v). rewrite <- Hl. destruct l; cbn [splk_val]; k_simpl; try done.
    all: match goal with |- _ <$> _ !! ?i = _ => destruct (decide (i = me)) as [->|] end; [by rewrite lookup_insert_eq, Hk|by rewrite lookup_insert_ne].
  - intros c0 k2 [[<- <-]|[_ H2]]%lookup_insert_Some; [by apply (K2 me k)|by apply K2].
  - intros x t2 [[<- <-]|[Hne H2]]%lookup_insert_Some; unfold upd.
    + by rewrite !bool_decide_eq_true_2.
    + rewrite !bool_decide_eq_false_2 by congruence. by apply K3.
  - intros x. unfold upd. case_bool_decide; [done|apply K4].
  - intros x t2 [[<- <-]|[_ H2]]%lookup_insert_Some; [by apply (K5 (c_curthread k) t)|by apply (K5 x)].
  - intros c0 k2 [[<- <-]|[Hne H2]]%lookup_insert_Some; unfold upd; k_simpl; [by rewrite bool_decide_eq_true_2|].
    rewrite bool_decide_eq_false_2; [by apply (K6 c0)|]. by apply (Ho c0).
Qed.

(** Weakening to equal functions. *)
Lemma kspin_ext me L D C D' C' s : (forall x, D' x = D x) -> (forall x, C' x = C x) -> kspin me L D C s -> kspin me L D' C' s.
Proof.
  intros ED EC [K1 K2 K3 K4 K5 K6]. constructor; try done.
  - intros x t Ht. rewrite ED, EC. by apply K3.
  - intros x. rewrite ED. apply K4.
  - intros c k Hk. rewrite ED. by apply (K6 c).
Qed.

Lemma set_cpus_id s c k : cpus s !! c = Some k -> set_cpus (<[c := k]> (cpus s)) s = s.
Proof. intros E. rewrite insert_id by done. by destruct s. Qed.

Lemma set_irq_id k b : c_irq k = b -> set_c_irq b k = k.
Proof. intros <-. by destruct k. Qed.

Lemma splraise_spec me cur L D C s : running me cur s -> kspin me L D C s ->
  wp (splraise me IPL_NONE IPL_HIGH) (fun _ s' => kspin me L (upd D cur (D cur + 1)) C s' /\ core s' = core s) s.
Proof.
  intros Hr Hks. pose proof Hr as [_ (k & Hk & Hc) [t Ht] _]. pose proof (ks_ipl _ _ _ _ _ Hks cur t Ht) as [ED EC].
  pose proof (ks_pos _ _ _ _ _ Hks cur) as Hpos. pose proof (ks_irq _ _ _ _ _ Hks me k Hk) as Hirq.
  pose proof (kspin_ipl me cur L D C s k t (D cur + 1) (C cur) false Hr Hks Hk Ht ltac:(lia) ltac:(symmetry; apply Z.eqb_neq; lia)) as Hks'.
  assert (set_t_iplhigh_count (D cur + 1) (set_t_curspl (C cur) t) = set_t_iplhigh_count (t_iplhigh_count t + 1) t) as Et.
  { rewrite ED, <- EC. by destruct t. }
  unfold splraise. wp_step. apply (wp_curthread me cur); [done|]. do 2 (wp_step; apply wp_kassert; [done|]).
  wp_step. apply (wp_thread_at cur t); [done|]. wp_step.
  assert (forall s1, s1 = set_cpus (<[me := set_c_irq false k]> (cpus s)) s ->
    wp (thread_put cur (set_t_iplhigh_count (t_iplhigh_count t + 1) t)) (fun _ s' => kspin me L (upd D cur (D cur + 1)) C s' /\ core s' = core s) s1) as Hend.
  { intros s1 ->. apply (wp_thread_put cur t); [done|]. rewrite <- Et. split.
    - eapply kspin_ext; [done| |exact Hks']. intros x. unfold upd. by case_bool_decide; subst.
    - etransitivity; [by apply (core_set_thread _ cur t)|]. by apply (core_set_cpu s me k). }
  destruct (t_iplhigh_count t =? 0) eqn:E0; boolify.
  - unfold cpu_irqoff. wp_step. apply (wp_cpu_at me k); [done|]. apply (wp_cpu_put me k); [done|]. by apply Hend.
  - wp_step. apply Hend. rewrite set_irq_id; [symmetry; by apply set_cpus_id|]. rewrite Hirq, Hc, <- ED. by apply Z.eqb_neq.
Qed.

Lemma spllower_spec me cur L D C s : running me cur s -> kspin me L D C s -> 0 < D cur ->
  wp (spllower me IPL_HIGH IPL_NONE) (fun _ s' => kspin me L (upd D cur (D cur - 1)) C s' /\ core s' = core s) s.
Proof.
  intros Hr Hks Hpos. pose proof Hr as [_ (k & Hk & Hc) [t Ht] _]. pose proof (ks_ipl _ _ _ _ _ Hks cur t Ht) as [ED EC].
  pose proof (ks_irq _ _ _ _ _ Hks me k Hk) as Hirq.
  pose proof (kspin_ipl me cur L D C s k t (D cur - 1) (C cur) _ Hr Hks Hk Ht ltac:(lia) eq_refl) as Hks'.
  assert (set_t_iplhigh_count (D cur - 1) (set_t_curspl (C cur) t) = set_t_iplhigh_count (t_iplhigh_count t - 1) t) as Et.
  { rewrite ED, <- EC. by destruct t. }
  unfold spllower. wp_step. apply (wp_curthread me cur); [done|]. do 2 (wp_step; apply wp_kassert; [done|]).
  wp_step. apply (wp_thread_at cur t); [done|]. wp_step. apply (wp_thread_put cur t); [done|]. rewrite ED in *.
  assert (forall s1, s1 = set_threads (<[cur := set_t_iplhigh_count (D cur - 1) t]> (threads s)) (set_cpus (<[me := set_c_irq (D cur - 1 =? 0) k]> (cpus s)) s) ->
    kspin me L (upd D cur (D cur - 1)) C s1 /\ core s1 = core s) as Hend.
  { intros s1 ->. rewrite <- Et. split.
    - eapply kspin_ext; [done| |exact Hks']. intros x. unfold upd. by case_bool_decide; subst.
    - etransitivity; [by apply (core_set_thread (set_cpus _ s) cur t)|]. by apply (core_set_cpu s me k). }
  destruct (D cur - 1 =? 0) eqn:E0.
  - unfold cpu_irqon. wp_step. apply (wp_cpu_at me k); [done|]. apply (wp_cpu_put me k); [done|]. by apply Hend.
  - wp_step. apply Hend. rewrite set_irq_id; [by rewrite set_cpus_id|]. rewrite Hirq, Hc. apply Z.eqb_neq. lia.
Qed.

(** *** Spinlocks *)

Definition splk_put (l : splk) (v : spinlock) (s : kst) : kst :=
  match l with
  | RunqueueLock c => match cpus s !! c with Some k => set_cpus (<[c := set_c_runqueue_lock v k]> (cpus s)) s | None => s end
  | IpiLock c => match cpus s !! c with Some k => set_cpus (<[c := set_c_ipi_lock v k]> (cpus s)) s | None => s end
  | AllwchansLock => set_allwchans_lock v s
  | SemLock p => match sems s !! p with Some x => set_sems (<[p := Semaphore (sem_name x) (sem_wchan x) v (sem_count x)]> (sems s)) s | None => s end
  | LkSpinlock p => match slocks s !! p with Some x => set_slocks (<[p := Lock (lk_name x) (lk_lock x) (lk_holder x) v (lk_wchan x)]> (slocks s)) s | None => s end
  | CvSpinlock p => match cvs s !! p with Some x => set_cvs (<[p := Cv (cv_name x) (cv_wchan x) v]> (cvs s)) s | None => s end
  | PLock p => match pthreads s !! p with Some x => set_pthreads (<[p := Pthread (p_threads x) v]> (pthreads s)) s | None => s end
  end.

Lemma wp_splk_read l v Q s : splk_val s l = Some v -> Q v s -> wp (splk_read l) Q s.
Proof.
  intros Hv HQ. destruct l; cbn [splk_val splk_read] in *;
    try (apply fmap_Some in Hv as (x & Hx & ->); wp_step; unfold cpu_at, sem_at, lock_at, cv_at, proc_at; wp_steps; apply (wp_deref _ x); [done|]; by wp_step).
  wp_steps. by simplify_eq.
Qed.

Lemma wp_splk_write l v Q s : is_Some (splk_val s l) -> Q tt (splk_put l v s) -> wp (splk_write l v) Q s.
Proof.
  intros [v0 Hv] HQ. destruct l; cbn [splk_val splk_put splk_write] in *;
    try (apply fmap_Some in Hv as (x & Hx & ->); rewrite Hx in HQ; wp_step;
         unfold cpu_put, sem_put, lock_put, cv_put, proc_put, cpu_at, sem_at, lock_at, cv_at, proc_at;
         wp_steps; apply (wp_deref _ x); [done|]; wp_steps; apply (wp_deref _ x); [done|]; by wp_steps).
  by wp_step.
Qed.

Lemma core_splk_put l v s : core (splk_put l v s) = core s.
Proof.
  destruct l; cbn [splk_put]; [| |done|..]; match goal with |- core (match ?o with _ => _ end) = _ => destruct o as [x|] eqn:E; [|done] end;
    unfold core; k_simpl; f_equal; by apply (fmap_same _ _ _ x).
Qed.

Lemma splk_val_put l v s l' : splk_val (splk_put l v s) l' = if bool_decide (l' = l) then (fun _ => v) <$> splk_val s l else splk_val s l'.
Proof.
  case_bool_decide as E; [subst l'|].
  - destruct l; cbn [splk_val splk_put]; [| |done|..]; match goal with |- context [match ?o with Some _ => _ | None => _ end] => destruct o as [x|] eqn:E end;
      k_simpl; try rewrite E; rewrite ?lookup_insert_eq; done.
  - destruct l; cbn [splk_put]; try match goal with |- context [match ?o with Some _ => _ | None => _ end] => destruct o as [x|] eqn:Ex; [|done] end;
      destruct l'; cbn [splk_val]; k_simpl; try done;
      match goal with |- _ <$> <[?i := _]> _ !! ?j = _ => destruct (decide (i = j)) as [->|]; [|by rewrite lookup_insert_ne] end;
      try congruence; by rewrite lookup_insert_eq, Ex.
Qed.

Lemma splk_put_cpu l v s c k : cpus (splk_put l v s) !! c = Some k ->
  exists k0, cpus s !! c = Some k0 /\ c_spinlocks k = c_spinlocks k0 /\ c_irq k = c_irq k0 /\ c_curthread k = c_curthread k0.
Proof.
  destruct l; cbn [splk_put]; try (case_match; k_simpl); eauto.
  all: intros [[<- <-]|[_ H2]]%lookup_insert_Some; eauto.
Qed.

Lemma splk_put_threads l v s : threads (splk_put l v s) = threads s.
Proof. destruct l; cbn [splk_put]; try case_match; done. Qed.

(** Taking or giving back one spinlock. *)
Lemma kspin_put me L L' D C s l v k n : kspin me L D C s -> cpus s !! me = Some k ->
  (forall l', v = (if bool_decide (l ∈ L') then Spinlock 1 me else free_spinlock) /\ (l' <> l -> l' ∈ L' <-> l' ∈ L)) ->
  n = Z.of_nat (length L') ->
  kspin me L' D C (splk_put l v (set_cpus (<[me := set_c_spinlocks n k]> (cpus s)) s)).
Proof.
  intros [K1 K2 K3 K4 K5 K6] Hk HL ->. set (s1 := set_cpus _ s).
  assert (forall l', splk_val s1 l' = splk_val s l') as Ev.
  { intros l'. destruct l'; cbn [splk_val]; unfold s1; k_simpl; try done.
    all: match goal with |- _ <$> _ !! ?i = _ => destruct (decide (i = me)) as [->|] end; [by rewrite lookup_insert_eq, Hk|by rewrite lookup_insert_ne]. }
  constructor.
  - intros l' v'. rewrite splk_val_put, !Ev. destruct (HL l') as [-> Hiff]. destruct (bool_decide_reflect (l' = l)) as [->|E].
    + intros Hl. destruct (splk_val s l); [|done]. by injection Hl as <-.
    + intros Hl. rewrite (K1 l' v' Hl). by rewrite (bool_decide_ext _ _ (Hiff E)).
  - intros c k2 Hk2. apply splk_put_cpu in Hk2 as (k0 & Hk0 & -> & _ & _). unfold s1 in Hk0. k_simpl.
    apply lookup_insert_Some in Hk0 as [[<- <-]|[Hne Hk0]]; [by rewrite bool_decide_eq_true_2|]. rewrite (K2 c k0 Hk0).
    by rewrite !bool_decide_eq_false_2 by congruence.
  - rewrite splk_put_threads. apply K3.
  - done.
  - rewrite splk_put_threads. apply K5.
  - intros c k2 Hk2. apply splk_put_cpu in Hk2 as (k0 & Hk0 & _ & -> & ->). unfold s1 in Hk0. k_simpl.
    apply lookup_insert_Some in Hk0 as [[<- <-]|[Hne Hk0]]; [by apply (K6 me k)|by apply (K6 c)].
Qed.

Lemma splk_some_core s l : is_Some (splk_val s l) <-> is_Some (splk_val (core s) l).
Proof.
  destruct l; cbn [splk_val]; unfold core; k_simpl; [..|split; by eexists| | | |]; rewrite lookup_fmap, !fmap_is_Some; done.
Qed.

Lemma splk_some s s' l : core s' = core s -> is_Some (splk_val s l) -> is_Some (splk_val s' l).
Proof. intros E Hl. apply splk_some_core. rewrite E. by apply (proj1 (splk_some_core s l)). Qed.

Lemma spinlock_acquire_spec me cur L D C s l : running me cur s -> kspin me L D C s -> l ∉ L -> is_Some (splk_val s l) ->
  wp (spinlock_acquire me l) (fun _ s' => kspin me (l :: L) (upd D cur (D cur + 1)) C s' /\ core s' = core s) s.
Proof.
  intros Hr Hks Hl Hsome. unfold spinlock_acquire. wp_step. wp_apply splraise_spec; [done..|]. intros _ s1 [Hks1 Hc1].
  pose proof (running_core _ _ _ _ Hr Hc1) as Hr1. destruct (splk_some s s1 l Hc1 Hsome) as [v Hv].
  pose proof (ks_locks _ _ _ _ _ Hks1 l v Hv) as Ev. rewrite bool_decide_eq_false_2 in Ev by done. subst v.
  pose proof Hr1 as [Hme (k & Hk & _) _ _]. wp_step. apply (wp_splk_read l _ _ _ Hv). cbn [splk_holder free_spinlock].
  rewrite (proj2 (Z.eqb_neq 0 me)) by lia. wp_step. apply (wp_cpu_at me k); [done|]. wp_step. apply (wp_cpu_put me k); [done|].
  set (s2 := set_cpus _ s1). assert (core s2 = core s1) as Hc2 by (by apply (core_set_cpu s1 me k)).
  assert (splk_val s2 l = Some free_spinlock) as Hv2.
  { rewrite <- Hv. unfold s2. destruct l; cbn [splk_val]; k_simpl; try done;
      (match goal with |- _ <$> _ !! ?i = _ => destruct (decide (i = me)) as [->|] end; [by rewrite lookup_insert_eq, Hk|by rewrite lookup_insert_ne]). }
  wp_step. apply (wp_splk_read l _ _ _ Hv2). cbn [splk_lock free_spinlock negb]. rewrite Z.eqb_refl. cbn [negb].
  apply wp_splk_write; [by eexists|]. split; [|by rewrite core_splk_put, Hc2].
  pose proof (ks_count _ _ _ _ _ Hks1 me k Hk) as Hcnt. rewrite bool_decide_eq_true_2 in Hcnt by done.
  apply kspin_put with (L := L); [done|done| |cbn [length]; lia].
  intros l'. rewrite bool_decide_eq_true_2 by apply list_elem_of_here. split; [done|]. intros Hne. rewrite elem_of_cons. naive_solver.
Qed.

Lemma spinlock_release_spec me cur L1 L2 D C s l : running me cur s -> kspin me (L1 ++ l :: L2) D C s -> l ∉ L1 ++ L2 ->
  is_Some (splk_val s l) -> 0 < D cur ->
  wp (spinlock_release me l) (fun _ s' => kspin me (L1 ++ L2) (upd D cur (D cur - 1)) C s' /\ core s' = core s) s.
Proof.
  intros Hr Hks Hl [v Hv] HD. pose proof (ks_locks _ _ _ _ _ Hks l v Hv) as Ev. rewrite bool_decide_eq_true_2 in Ev by set_solver. subst v.
  pose proof Hr as [Hme (k & Hk & _) _ _]. pose proof (ks_count _ _ _ _ _ Hks me k Hk) as Hcnt. rewrite bool_decide_eq_true_2, length_app in Hcnt by done.
  cbn [length] in Hcnt. unfold spinlock_release. wp_step. apply (wp_splk_read l _ _ _ Hv). cbn [splk_holder].
  wp_step. apply wp_kassert; [apply Z.eqb_refl|]. wp_step. apply (wp_cpu_at me k); [done|].
  wp_step. apply wp_kassert; [apply Z.ltb_lt; lia|]. wp_step. apply (wp_cpu_put me k); [done|].
  set (s2 := set_cpus _ s). assert (core s2 = core s) as Hc2 by (by apply (core_set_cpu s me k)).
  wp_step. apply wp_splk_write; [eapply splk_some; [exact Hc2|by eexists]|]. set (s3 := splk_put l free_spinlock s2).
  assert (kspin me (L1 ++ L2) D C s3) as Hks3.
  { apply kspin_put with (L := L1 ++ l :: L2); [done|done| |rewrite length_app; lia].
    intros l'. rewrite bool_decide_eq_false_2 by done. split; [done|]. intros Hne. rewrite !elem_of_app, elem_of_cons. naive_solver. }
  assert (core s3 = core s) as Hc3 by (unfold s3; by rewrite core_splk_put).
  wp_apply (spllower_spec me cur (L1 ++ L2) D C s3); [by eapply running_core|done|done|]. intros _ s4 [Hks4 Hc4]. split; [done|by rewrite Hc4].
Qed.

Lemma wp_spinlock_do_i_hold me L D C s l Q : kspin me L D C s -> 0 < me -> is_Some (splk_val s l) ->
  Q (bool_decide (l ∈ L)) s -> wp (spinlock_do_i_hold me l) Q s.
Proof.
  intros Hks Hme [v Hv] HQ. unfold spinlock_do_i_hold. wp_step. apply (wp_splk_read l _ _ _ Hv). wp_step.
  rewrite (ks_locks _ _ _ _ _ Hks l v Hv). case_bool_decide; cbn [splk_holder free_spinlock].
  - by rewrite Z.eqb_refl.
  - by rewrite (proj2 (Z.eqb_neq 0 me)) by lia.
Qed.

(** *** Updates of the core under the discipline *)

(** A state with other core data but the same spinlocks, counts and levels. *)
Record same_spin (s s' : kst) : Prop := {
  sp_cpus : forall c k', cpus s' !! c = Some k' -> exists k, cpus s !! c = Some k /\ c_spinlocks k' = c_spinlocks k /\ c_irq k' = c_irq k /\
    c_curthread k' = c_curthread k /\ c_runqueue_lock k' = c_runqueue_lock k /\ c_ipi_lock k' = c_ipi_lock k;
  sp_threads : forall x t', threads s' !! x = Some t' -> exists t, threads s !! x = Some t /\ t_iplhigh_count t' = t_iplhigh_count t /\
    t_curspl t' = t_curspl t /\ (t_spl t' = t_spl t \/ t_spl t' = 0 \/ t_spl t' = 1);
  sp_sems : forall p x', sems s' !! p = Some x' -> exists x, sems s !! p = Some x /\ sem_lock x' = sem_lock x;
  sp_locks : forall p x', slocks s' !! p = Some x' -> exists x, slocks s !! p = Some x /\ lk_spinlock x' = lk_spinlock x;
  sp_cvs : forall p x', cvs s' !! p = Some x' -> exists x, cvs s !! p = Some x /\ cv_spinlock x' = cv_spinlock x;
  sp_procs : forall p x', pthreads s' !! p = Some x' -> exists x, pthreads s !! p = Some x /\ p_lock x' = p_lock x;
  sp_all : allwchans_lock s' = allwchans_lock s;
}.

Lemma kspin_same me L D C s s' : kspin me L D C s -> same_spin s s' -> kspin me L D C s'.
Proof.
  intros [K1 K2 K3 K4 K5 K6] [S1 S2 S3 S4 S5 S6 S7]. constructor; try done.
  - intros l v Hv. apply (K1 l). rewrite <- Hv. destruct l; cbn [splk_val] in *; [..|by rewrite S7| | | |].
    all: apply fmap_Some in Hv as (x' & Hx' & ->); rewrite Hx'.
    all: first [destruct (S1 _ _ Hx') as (x & Hx & _ & _ & _ & E1 & E2) | destruct (S3 _ _ Hx') as (x & Hx & E1) | destruct (S4 _ _ Hx') as (x & Hx & E1) | destruct (S5 _ _ Hx') as (x & Hx & E1) | destruct (S6 _ _ Hx') as (x & Hx & E1)].
    all: rewrite Hx; cbn; congruence.
  - intros c k' Hk'. destruct (S1 c k' Hk') as (k & Hk & -> & _). by apply K2.
  - intros x t' Ht'. destruct (S2 x t' Ht') as (t & Ht & -> & -> & _). by apply K3.
  - intros x t' Ht'. destruct (S2 x t' Ht') as (t & Ht & _ & _ & [->|Hs]); [by eapply K5|done].
  - intros c k' Hk'. destruct (S1 c k' Hk') as (k & Hk & _ & -> & -> & _). by apply (K6 c).
Qed.

(** *** Reading and writing through the core *)

Lemma thread_of_core s x tc : threads (core s) !! x = Some tc -> exists t, threads s !! x = Some t /\ tc = er_thread t.
Proof. unfold core. k_simpl. rewrite lookup_fmap. intros (t & Ht & ->)%fmap_Some. eauto. Qed.
Lemma cpu_of_core s x kc : cpus (core s) !! x = Some kc -> exists k, cpus s !! x = Some k /\ kc = er_cpu k.
Proof. unfold core. k_simpl. rewrite lookup_fmap. intros (t & Ht & ->)%fmap_Some. eauto. Qed.
Lemma sem_of_core s x c : sems (core s) !! x = Some c -> exists t, sems s !! x = Some t /\ c = er_sem t.
Proof. unfold core. k_simpl. rewrite lookup_fmap. intros (t & Ht & ->)%fmap_Some. eauto. Qed.
Lemma lock_of_core s x c : slocks (core s) !! x = Some c -> exists t, slocks s !! x = Some t /\ c = er_lock t.
Proof. unfold core. k_simpl. rewrite lookup_fmap. intros (t & Ht & ->)%fmap_Some. eauto. Qed.
Lemma cv_of_core s x c : cvs (core s) !! x = Some c -> exists t, cvs s !! x = Some t /\ c = er_cv t.
Proof. unfold core. k_simpl. rewrite lookup_fmap. intros (t & Ht & ->)%fmap_Some. eauto. Qed.

Lemma core_threads s x t : core (set_threads (<[x := t]> (threads s)) s) = set_threads (<[x := er_thread t]> (threads (core s))) (core s).
Proof. unfold core. k_simpl. unfold set_threads. k_simpl. by rewrite fmap_insert. Qed.
Lemma core_cpus s x k : core (set_cpus (<[x := k]> (cpus s)) s) = set_cpus (<[x := er_cpu k]> (cpus (core s))) (core s).
Proof. unfold core. k_simpl. unfold set_cpus. k_simpl. by rewrite fmap_insert. Qed.
Lemma core_sems s x k : core (set_sems (<[x := k]> (sems s)) s) = set_sems (<[x := er_sem k]> (sems (core s))) (core s).
Proof. unfold core. k_simpl. unfold set_sems. k_simpl. by rewrite fmap_insert. Qed.
Lemma core_slocks s x k : core (set_slocks (<[x := k]> (slocks s)) s) = set_slocks (<[x := er_lock k]> (slocks (core s))) (core s).
Proof. unfold core. k_simpl. unfold set_slocks. k_simpl. by rewrite fmap_insert. Qed.
Lemma core_wchans s m : core (set_wchans m s) = set_wchans m (core s).
Proof. done. Qed.

Lemma same_spin_threads s x t t' : threads s !! x = Some t -> t_iplhigh_count t' = t_iplhigh_count t -> t_curspl t' = t_curspl t ->
  t_spl t' = t_spl t \/ t_spl t' = 0 \/ t_spl t' = 1 -> same_spin s (set_threads (<[x := t']> (threads s)) s).
Proof. intros Hx E1 E2 E3. constructor; k_simpl; eauto 10. intros y t0 [[<- <-]|[_ Hy]]%lookup_insert_Some; eauto 10. Qed.
Lemma same_spin_cpus s x k k' : cpus s !! x = Some k -> c_spinlocks k' = c_spinlocks k -> c_irq k' = c_irq k -> c_curthread k' = c_curthread k ->
  c_runqueue_lock k' = c_runqueue_lock k -> c_ipi_lock k' = c_ipi_lock k -> same_spin s (set_cpus (<[x := k']> (cpus s)) s).
Proof. intros Hx E1 E2 E3 E4 E5. constructor; k_simpl; eauto 10. intros y t0 [[<- <-]|[_ Hy]]%lookup_insert_Some; eauto 10. Qed.
Lemma same_spin_sems s x k k' : sems s !! x = Some k -> sem_lock k' = sem_lock k -> same_spin s (set_sems (<[x := k']> (sems s)) s).
Proof. intros Hx E1. constructor; k_simpl; eauto 10. intros y t0 [[<- <-]|[_ Hy]]%lookup_insert_Some; eauto. Qed.
Lemma same_spin_slocks s x k k' : slocks s !! x = Some k -> lk_spinlock k' = lk_spinlock k -> same_spin s (set_slocks (<[x := k']> (slocks s)) s).
Proof. intros Hx E1. constructor; k_simpl; eauto 10. intros y t0 [[<- <-]|[_ Hy]]%lookup_insert_Some; eauto. Qed.
Lemma same_spin_wchans s m : same_spin s (set_wchans m s).
Proof. constructor; k_simpl; eauto 10. Qed.

(** ** Pure operations on the core *)

(** Thread [x] becomes ready on the run queue of its cpu. *)
Definition c_ready (x : Z) (s : kst) : kst :=
  match threads s !! x with
  | Some t => match cpus s !! t_cpu t with
              | Some k => set_cpus (<[t_cpu t := set_c_runqueue (c_runqueue k ++ [x]) k]> (cpus s))
                            (set_threads (<[x := set_t_state S_READY t]> (threads s)) s)
              | None => s
              end
  | None => s
  end.

(** The first sleeper of wait channel [w], if any, becomes ready. *)
Definition c_wakeone (w : Z) (s : kst) : kst :=
  match wchans s !! w with
  | Some (Wchan n (x :: l) i) => c_ready x (set_wchans (<[w := Wchan n l i]> (wchans s)) s)
  | _ => s
  end.

Definition c_wakeall (w : Z) (s : kst) : kst :=
  match wchans s !! w with
  | Some (Wchan n l i) => foldl (fun s x => c_ready x s) (set_wchans (<[w := Wchan n [] i]> (wchans s)) s) l
  | None => s
  end.

(** The state of a spinlock discipline after an operation that acted on the
    core as [f]. *)
Definition acts (me : Z) (L : list splk) (D C : Z -> Z) (s : kst) (f : kst -> kst) (s' : kst) : Prop :=
  kspin me L D C s' /\ core s' = f (core s).

Section wake.
Context `{ThreadHeap}.

Lemma upd_back D x n m : forall y, upd (upd D x n) x m y = upd D x m y.
Proof. intros y. unfold upd. by case_bool_decide. Qed.
Lemma upd_same D x : forall y, D y = upd D x (D x) y.
Proof. intros y. unfold upd. by case_bool_decide; subst. Qed.
Lemma upd_eq D x n : upd D x n x = n.
Proof. unfold upd. by rewrite bool_decide_eq_true_2. Qed.
Lemma upd_inc_dec D x : forall y, D y = upd (upd D x (D x + 1)) x (upd D x (D x + 1) x - 1) y.
Proof. intros y. rewrite upd_back, upd_eq. replace (D x + 1 - 1) with (D x) by lia. apply upd_same. Qed.

Lemma ipi_send_spec me cur L D C s target code : running me cur s -> kspin me L D C s -> IpiLock target ∉ L ->
  is_Some (cpus (core s) !! target) -> 0 <= code < 32 ->
  wp (ipi_send me target code) (fun _ s' => acts me L D C s (fun c => c) s') s.
Proof.
  intros Hr Hks Hl [kc Hkc] Hcode. unfold ipi_send. wp_step. apply wp_kassert; [apply andb_true_iff; split; [apply Z.leb_le|apply Z.ltb_lt]; lia|].
  wp_step. wp_apply spinlock_acquire_spec; [done|done|done| |].
  { destruct (cpu_of_core _ _ _ Hkc) as (k & Hk & _). cbn [splk_val]. rewrite Hk. by eexists. }
  intros _ s1 [Hks1 Hc1]. rewrite <- Hc1 in Hkc. destruct (cpu_of_core _ _ _ Hkc) as (k & Hk & ->).
  wp_step. apply (wp_cpu_at target k); [done|]. wp_step. apply (wp_cpu_put target k); [done|]. set (s2 := set_cpus _ s1).
  assert (core s2 = core s1) as Hc2 by (by apply (core_set_cpu s1 target k)).
  assert (kspin me (IpiLock target :: L) (upd D cur (D cur + 1)) C s2) as Hks2 by (eapply kspin_same; [exact Hks1|by apply (same_spin_cpus s1 target k)]).
  wp_apply (spinlock_release_spec me cur [] L); [eapply running_core; [exact Hr|congruence]|done|done| |rewrite upd_eq; pose proof (ks_pos _ _ _ _ _ Hks cur); lia|].
  { cbn [splk_val]. unfold s2. k_simpl. rewrite lookup_insert_eq. by eexists. }
  intros _ s3 [Hks3 Hc3]. split; [|congruence]. eapply kspin_ext; [apply upd_inc_dec|done|exact Hks3].
Qed.

Lemma thread_make_runnable_spec me cur L D C s x tc : running me cur s -> kspin me L D C s ->
  threads (core s) !! x = Some tc -> is_Some (cpus (core s) !! t_cpu tc) ->
  (RunqueueLock (t_cpu tc) ∉ L) -> (IpiLock (t_cpu tc) ∉ L) ->
  wp (thread_make_runnable me x false) (fun _ s' => acts me L D C s (c_ready x) s') s.
Proof.
  intros Hr Hks Htc [kc Hkc] Hl1 Hl2. unfold thread_make_runnable. destruct (thread_of_core _ _ _ Htc) as (t & Ht & Etc).
  assert (t_cpu tc = t_cpu t) as Ecpu by (by rewrite Etc). wp_step. apply (wp_thread_at x t); [done|]. rewrite <- Ecpu.
  wp_step. wp_apply spinlock_acquire_spec; [done|done|done| |].
  { destruct (cpu_of_core _ _ _ Hkc) as (k & Hk & _). cbn [splk_val]. rewrite Hk. by eexists. }
  intros _ s1 [Hks1 Hc1]. assert (threads (core s1) !! x = Some tc) as Htc1 by congruence. assert (cpus (core s1) !! t_cpu tc = Some kc) as Hkc1 by congruence.
  destruct (thread_of_core _ _ _ Htc1) as (t1 & Ht1 & Et1), (cpu_of_core _ _ _ Hkc1) as (k1 & Hk1 & Ek1).
  wp_step. apply (wp_thread_at x t1); [done|]. wp_step. apply (wp_thread_put x t1); [done|]. set (s2 := set_threads _ s1).
  wp_step. apply (wp_cpu_at (t_cpu tc) k1); [done|]. wp_step. apply (wp_cpu_put (t_cpu tc) k1); [done|]. set (s3 := set_cpus _ s2).
  assert (kspin me (RunqueueLock (t_cpu tc) :: L) (upd D cur (D cur + 1)) C s3) as Hks3.
  { eapply kspin_same; [|by apply (same_spin_cpus s2 (t_cpu tc) k1)]. eapply kspin_same; [exact Hks1|]. apply (same_spin_threads s1 x t1); eauto. }
  assert (core s3 = c_ready x (core s)) as Hc3.
  { unfold s3. rewrite (core_cpus s2). assert (core s2 = set_threads (<[x := er_thread (set_t_state S_READY t1)]> (threads (core s))) (core s)) as ->
      by (rewrite <- Hc1; apply core_threads). unfold c_ready. by rewrite Htc, Hkc, Ek1, Et1. }
  assert (running me cur s3) as Hr3.
  { pose proof (running_core _ _ _ _ Hr Hc1) as [Hme (k & Hk & Hc) Hth Ho]. constructor; [done|..]; unfold s3, s2; k_simpl.
    - destruct (decide (t_cpu tc = me)) as [E|]; [|exists k; by rewrite lookup_insert_ne]. rewrite E, lookup_insert_eq. eexists. split; [done|].
      k_simpl. rewrite E in Hk1. congruence.
    - destruct (decide (cur = x)) as [->|]; [by rewrite lookup_insert_eq|by rewrite lookup_insert_ne].
    - intros c k2 [[<- <-]|[_ H2]]%lookup_insert_Some Hne; [by apply (Ho (t_cpu tc) k1)|by apply (Ho c)]. }
  wp_step. match goal with |- wp _ ?Q s3 => assert (forall s4, kspin me (RunqueueLock (t_cpu tc) :: L) (upd D cur (D cur + 1)) C s4 -> core s4 = core s3 -> Q tt s4) as Hend end.
  { intros s4 Hks4 Hc4. wp_apply (spinlock_release_spec me cur [] L); [by eapply running_core|done|done| |rewrite upd_eq; pose proof (ks_pos _ _ _ _ _ Hks cur); lia|].
    - eapply splk_some; [exact Hc4|]. cbn [splk_val]. unfold s3. k_simpl. rewrite lookup_insert_eq. by eexists.
    - intros _ s5 [Hks5 Hc5]. split; [|congruence]. eapply kspin_ext; [apply upd_inc_dec|done|exact Hks5]. }
  destruct (c_isidle k1).
  - wp_apply (ipi_send_spec me cur (RunqueueLock (t_cpu tc) :: L)); [done|exact Hks3|set_solver| |done|].
    + unfold s3. rewrite core_cpus. k_simpl. rewrite lookup_insert_eq. by eexists.
    + intros [] s4 [Hks4 Hc4]. by apply Hend.
  - wp_step. by apply Hend.
Qed.
End wake.

(** * Wakeups and context switches on the core

    The code of [wchan_wakeone], [wchan_wakeall] and [thread_switch] acts on
    the core as the pure operations [c_wakeone], [c_wakeall], [c_sleep],
    [c_yield] and [c_pick]. *)

(** The current thread [cur] of cpu [me] is put to sleep on [w]. *)
Definition c_sleep (me cur w : Z) (k : cont) (s : kst) : kst :=
  match wchans s !! w, threads s !! cur, cpus s !! me with
  | Some wc, Some t, Some c =>
      set_cpus (<[me := set_c_isidle true c]> (cpus s))
        (set_threads (<[cur := set_t_state S_SLEEP (set_t_cont k (set_t_wchan w t))]> (threads s))
          (set_wchans (<[w := Wchan (wc_name wc) (wc_threads wc ++ [cur]) (wc_index wc)]> (wchans s)) s))
  | _, _, _ => s
  end.

(** The current thread goes to the end of its run queue. *)
Definition c_yield (me cur : Z) (s : kst) : kst :=
  match threads s !! cur, cpus s !! me with
  | Some t, Some c =>
      set_cpus (<[me := set_c_isidle true (set_c_runqueue (c_runqueue c ++ [cur]) c)]> (cpus s))
        (set_threads (<[cur := set_t_state S_READY (set_t_cont Creturn (set_t_wchan 0 t))]> (threads s)) s)
  | _, _ => s
  end.

(** The cpu takes the first thread of its run queue, if any. *)
Definition c_pick (me : Z) (s : kst) : kst :=
  match cpus s !! me with
  | Some c =>
      match c_runqueue c with
      | next :: rest =>
          match threads s !! next with
          | Some t => set_threads (<[next := set_t_wchan 0 (set_t_state S_RUN t)]> (threads s))
                        (set_cpus (<[me := set_c_curthread next (set_c_isidle false (set_c_runqueue rest c))]> (cpus s)) s)
          | None => s
          end
      | [] => s
      end
  | None => s
  end.

(** No run queue or IPI lock is held. *)
Definition low (L : list splk) : Prop := forall c, RunqueueLock c ∉ L /\ IpiLock c ∉ L.

(** Every thread on the list [l] exists and has a cpu. *)
Definition listed (l : list Z) (s : kst) : Prop :=
  forall x, x ∈ l -> exists t, threads s !! x = Some t /\ is_Some (cpus s !! t_cpu t).

Lemma listed_ready l x s : listed l s -> listed l (c_ready x s).
Proof.
  intros Hl y Hy. destruct (Hl y Hy) as (t & Ht & Hk). unfold c_ready. destruct (threads s !! x) as [tx|] eqn:Ex; [|by eauto].
  destruct (cpus s !! t_cpu tx) as [k|] eqn:Ek; [|by eauto]. k_simpl. destruct (decide (x = y)) as [->|Hne].
  - rewrite lookup_insert_eq. eexists. split; [done|]. k_simpl. by rewrite lookup_insert_eq.
  - rewrite lookup_insert_ne by done. exists t. split; [done|]. destruct (decide (t_cpu tx = t_cpu t)) as [E|]; [rewrite E, lookup_insert_eq; by eexists|by rewrite lookup_insert_ne].
Qed.

Lemma running_ready me cur x s s' : running me cur s -> core s' = c_ready x (core s) -> running me cur s'.
Proof.
  intros Hr E. assert (running me cur (core s)) as Hrc.
  { destruct Hr as [Hme (k & Hk & Hc) [t Ht] Ho]. constructor; [done|..]; unfold core; k_simpl; setoid_rewrite lookup_fmap.
    - exists (er_cpu k). by rewrite Hk.
    - rewrite Ht. by eexists.
    - intros c k2 (k3 & Hk3 & ->)%fmap_Some Hne. exact (Ho c k3 Hk3 Hne). }
  assert (running me cur (core s')) as Hrs.
  { rewrite E. unfold c_ready. destruct (threads (core s) !! x) as [tx|] eqn:Ex; [|done]. destruct (cpus (core s) !! t_cpu tx) as [k|] eqn:Ek; [|done].
    destruct Hrc as [Hme (k0 & Hk0 & Hc) Hth Ho]. constructor; [done|..]; k_simpl.
    - destruct (decide (t_cpu tx = me)) as [E1|]; [|exists k0; by rewrite lookup_insert_ne]. rewrite E1 in *. rewrite lookup_insert_eq. eexists. split; [done|]. k_simpl. congruence.
    - destruct (decide (cur = x)) as [->|]; [by rewrite lookup_insert_eq|by rewrite lookup_insert_ne].
    - intros c k2 [[<- <-]|[_ H2]]%lookup_insert_Some Hne; [by apply (Ho (t_cpu tx) k)|by apply (Ho c)]. }
  destruct Hrs as [Hme (kc & Hk & Hc) [tc Ht] Ho]. destruct (cpu_of_core _ _ _ Hk) as (k & Hk' & ->), (thread_of_core _ _ _ Ht) as (t & Ht' & ->).
  constructor; [done|by exists k|by eexists|]. intros c k2 Hk2 Hne. apply (Ho c (er_cpu k2)); [|done]. unfold core. k_simpl. by rewrite lookup_fmap, Hk2.
Qed.

Section switch.
Context `{ThreadHeap}.

Lemma wp_wchan_remhead w wc Q s : wchans s !! w = Some wc ->
  match wc_threads wc with
  | [] => Q None s
  | x :: l => Q (Some x) (set_wchans (<[w := Wchan (wc_name wc) l (wc_index wc)]> (wchans s)) s)
  end -> wp (wchan_remhead w) Q s.
Proof.
  intros Hw HQ. unfold wchan_remhead. wp_step. apply (wp_wchan_at w wc); [done|]. destruct (wc_threads wc); [by wp_step|].
  wp_step. apply (wp_wchan_put w wc); [done|]. by wp_step.
Qed.

Lemma wchan_wakeone_spec me cur L D C s w wc lk : running me cur s -> kspin me L D C s -> low L -> lk ∈ L -> is_Some (splk_val s lk) ->
  wchans s !! w = Some wc -> listed (wc_threads wc) (core s) ->
  wp (wchan_wakeone me w lk) (fun _ s' => acts me L D C s (c_wakeone w) s' /\ running me cur s') s.
Proof.
  intros Hr Hks Hlow Hlk Hsome Hw Hlist. unfold wchan_wakeone. wp_step. apply (wp_spinlock_do_i_hold me L D C); [done|apply Hr|done|].
  rewrite bool_decide_eq_true_2 by done. wp_step. apply wp_kassert; [done|]. wp_step. apply (wp_wchan_remhead w wc); [done|].
  destruct wc as [n [|x l] i]; cbn [wc_threads wc_name wc_index] in *.
  - wp_step. split; [|done]. split; [done|]. unfold c_wakeone. change (wchans (core s)) with (wchans s). by rewrite Hw.
  - destruct (Hlist x) as (tc & Htc & Hk); [apply list_elem_of_here|]. set (s1 := set_wchans _ s).
    assert (kspin me L D C s1) as Hks1 by (eapply kspin_same; [exact Hks|apply same_spin_wchans]).
    assert (running me cur s1) as Hr1 by (destruct Hr; by constructor).
    wp_apply (thread_make_runnable_spec me cur L D C s1 x tc); [done|done|done|done|apply Hlow|apply Hlow|]. intros _ s2 [Hks2 Hc2].
    split; [|by eapply running_ready]. split; [done|]. rewrite Hc2. unfold c_wakeone. change (wchans (core s)) with (wchans s). by rewrite Hw.
Qed.

Lemma wchan_wakeall_spec me cur L D C s w wc lk : running me cur s -> kspin me L D C s -> low L -> lk ∈ L -> is_Some (splk_val s lk) ->
  wchans s !! w = Some wc -> listed (wc_threads wc) (core s) ->
  wp (wchan_wakeall me w lk) (fun _ s' => acts me L D C s (c_wakeall w) s' /\ running me cur s') s.
Proof.
  intros Hr Hks Hlow Hlk Hsome Hw Hlist. unfold wchan_wakeall. wp_step. apply (wp_spinlock_do_i_hold me L D C); [done|apply Hr|done|].
  rewrite bool_decide_eq_true_2 by done. wp_step. apply wp_kassert; [done|]. wp_step. apply (wp_wchan_at w wc); [done|]. wp_step.
  eapply (wp_loop_list _ (wc_threads wc) _ _ (fun l acc s' => acc ++ l = wc_threads wc /\
    s' = set_wchans (<[w := Wchan (wc_name wc) l (wc_index wc)]> (wchans s)) s)).
  - split; [done|]. rewrite insert_id by (rewrite Hw; by destruct wc). by destruct s.
  - lia.
  - intros l acc s' [El ->]. wp_step. eapply wp_wchan_remhead; [apply lookup_insert_eq|]. cbn [wc_threads wc_name wc_index]. destruct l as [|x l].
    + wp_step. rewrite app_nil_r in El. subst acc. set (s1 := set_wchans _ s).
      assert (kspin me L D C s1) as Hks1 by (eapply kspin_same; [exact Hks|apply same_spin_wchans]).
      assert (running me cur s1) as Hr1 by (destruct Hr; by constructor).
      assert (listed (wc_threads wc) (core s1)) as Hl1 by exact Hlist.
      eapply (wp_loop_list _ (wc_threads wc) _ _ (fun l acc s' => l = acc /\ kspin me L D C s' /\ running me cur s' /\ listed l (core s') /\
        foldl (fun s x => c_ready x s) (core s') l = c_wakeall w (core s))).
      * split_and!; [done|done|done|done|]. unfold c_wakeall. change (wchans (core s)) with (wchans s). rewrite Hw. by destruct wc.
      * lia.
      * intros l acc s2 (-> & Hks2 & Hr2 & Hl2 & Hf). destruct acc as [|x l]; [wp_step; by split|].
        destruct (Hl2 x) as (tc & Htc & Hk); [apply list_elem_of_here|]. wp_step.
        wp_apply (thread_make_runnable_spec me cur L D C s2 x tc); [done|done|done|done|apply Hlow|apply Hlow|]. intros _ s3 [Hks3 Hc3]. wp_step.
        exists x, l. split; [done|]. split_and!; [done|done|by eapply running_ready| |].
        -- rewrite Hc3. apply listed_ready. intros y Hy. apply Hl2. by apply list_elem_of_further.
        -- by rewrite Hc3.
    + wp_step. exists x, l. split; [done|]. split; [by rewrite <- app_assoc|]. unfold set_wchans. k_simpl. by rewrite insert_insert_eq.
Qed.

Lemma splhigh_spec me cur L D C s : running me cur s -> kspin me L D C s -> C cur = 0 \/ C cur = 1 ->
  wp (splhigh me) (fun r s' => r = C cur /\ kspin me L (upd D cur (D cur + (1 - C cur))) (upd C cur 1) s' /\ core s' = core s) s.
Proof.
  intros Hr Hks HC. unfold splhigh, splx. pose proof Hr as [_ _ [t Ht] _]. pose proof (ks_ipl _ _ _ _ _ Hks cur t Ht) as [ED EC].
  wp_step. apply (wp_curthread me cur); [done|]. wp_step. apply (wp_thread_at cur t); [done|]. rewrite EC. destruct HC as [E0|E0]; rewrite E0.
  - cbn [Z.ltb Z.compare IPL_HIGH]. change (0 <? IPL_HIGH) with true. cbv iota. wp_step. change 0 with IPL_NONE at 1.
    wp_apply splraise_spec; [done|done|]. intros _ s1 [Hks1 Hc1]. destruct (core_thread s s1 cur t Hc1 Ht) as (t1 & Ht1 & _).
    pose proof (running_core _ _ _ _ Hr Hc1) as Hr1. pose proof Hr1 as [_ (k & Hk & Hck) _ _].
    wp_step. apply (wp_thread_at cur t1); [done|]. wp_step. apply (wp_thread_put cur t1); [done|]. wp_step.
    split; [done|]. split; [|rewrite <- Hc1; by apply (core_set_thread s1 cur t1)].
    pose proof (ks_ipl _ _ _ _ _ Hks1 cur t1 Ht1) as [ED1 _]. pose proof (ks_irq _ _ _ _ _ Hks1 me k Hk) as Hirq. rewrite Hck in Hirq.
    pose proof (ks_pos _ _ _ _ _ Hks cur) as Hpos. assert (0 <= D cur + 1) as Hpos1 by lia.
    pose proof (kspin_ipl me cur L _ C s1 k t1 (D cur + 1) 1 _ Hr1 Hks1 Hk Ht1 Hpos1 eq_refl) as Hk2.
    rewrite upd_eq in Hirq, ED1. rewrite (set_irq_id k _ Hirq), set_cpus_id in Hk2 by done.
    replace (set_t_iplhigh_count (D cur + 1) (set_t_curspl 1 t1)) with (set_t_curspl IPL_HIGH t1) in Hk2 by (rewrite <- ED1; by destruct t1).
    eapply kspin_ext; [| |exact Hk2]; [|done]. intros x. by rewrite upd_back.
  - change (1 <? IPL_HIGH) with false. change (IPL_HIGH <? 1) with false. cbv iota. wp_step. split; [done|]. split; [|done].
    eapply kspin_ext; [| |exact Hks]; intros x; unfold upd; case_bool_decide; subst; lia.
Qed.

Lemma splx_spec me cur L D C s spl : running me cur s -> kspin me L D C s -> C cur = 1 -> spl = 0 \/ spl = 1 -> 0 < D cur ->
  wp (splx me spl) (fun _ s' => kspin me L (upd D cur (D cur - (1 - spl))) (upd C cur spl) s' /\ core s' = core s) s.
Proof.
  intros Hr Hks HC Hspl HD. unfold splx. pose proof Hr as [_ (k & Hk & Hck) [t Ht] Ho]. pose proof (ks_ipl _ _ _ _ _ Hks cur t Ht) as [ED EC].
  wp_step. apply (wp_curthread me cur); [done|]. wp_step. apply (wp_thread_at cur t); [done|]. rewrite EC, HC. destruct Hspl as [->| ->].
  - change (1 <? 0) with false. change (0 <? 1) with true. cbv iota. wp_step. apply (wp_thread_put cur t); [done|].
    pose proof (ks_irq _ _ _ _ _ Hks me k Hk) as Hirq. rewrite Hck in Hirq.
    pose proof (kspin_ipl me cur L D C s k t (D cur) 0 _ Hr Hks Hk Ht ltac:(lia) eq_refl) as Hk2.
    rewrite (set_irq_id k _ Hirq), set_cpus_id in Hk2 by done.
    replace (set_t_iplhigh_count (D cur) (set_t_curspl 0 t)) with (set_t_curspl 0 t) in Hk2 by (rewrite <- ED; by destruct t).
    set (s1 := set_threads _ s) in *. assert (core s1 = core s) as Hc1 by (by apply (core_set_thread s cur t)).
    wp_step. change 1 with IPL_HIGH at 1. change 0 with IPL_NONE at 1.
    wp_apply (spllower_spec me cur L (upd D cur (D cur)) (upd C cur 0) s1); [by eapply running_core|done|by rewrite upd_eq|].
    intros _ s2 [Hks2 Hc2]. wp_step. split; [|congruence]. eapply kspin_ext; [| |exact Hks2]; [|done]. intros x. rewrite upd_back, upd_eq. f_equal.
  - change (1 <? 1) with false. cbv iota. wp_step. split; [|done]. eapply kspin_ext; [| |exact Hks]; intros x; unfold upd; case_bool_decide; subst; lia.
Qed.

(** The cpu takes another current thread; both have interrupts off. *)
Lemma kspin_curthread me L D C s k k' : kspin me L D C s -> cpus s !! me = Some k ->
  c_spinlocks k' = c_spinlocks k -> c_irq k' = c_irq k -> c_runqueue_lock k' = c_runqueue_lock k -> c_ipi_lock k' = c_ipi_lock k ->
  0 < D (c_curthread k) -> 0 < D (c_curthread k') -> kspin me L D C (set_cpus (<[me := k']> (cpus s)) s).
Proof.
  intros [K1 K2 K3 K4 K5 K6] Hk E1 E2 E3 E4 D1 D2. constructor; k_simpl; try done.
  - intros l v Hl. apply (K1 l v). rewrite <- Hl. destruct l; cbn [splk_val]; k_simpl; try done.
    all: match goal with |- _ <$> _ !! ?i = _ => destruct (decide (i = me)) as [->|] end; [rewrite lookup_insert_eq, Hk; cbn; congruence|by rewrite lookup_insert_ne].
  - intros c k2 [[<- <-]|[_ H2]]%lookup_insert_Some; [rewrite E1; by apply (K2 me k)|by apply K2].
  - intros c k2 [[<- <-]|[Hne H2]]%lookup_insert_Some; [|by apply (K6 c)]. rewrite E2, (K6 me k Hk).
    rewrite !(proj2 (Z.eqb_neq _ 0)) by lia. done.
Qed.

Lemma exorcise_none me k Q s : cpus s !! me = Some k -> c_zombies k = [] -> Q tt s -> wp (exorcise me) Q s.
Proof.
  intros Hk Hz HQ. unfold exorcise. wp_step. apply (wp_cpu_at me k); [done|]. rewrite Hz. cbn [length loop_]. wp_step. wp_step.
  apply (wp_cpu_at me k); [done|]. rewrite Hz. by do 2 wp_step.
Qed.

(** What the next thread of a run queue satisfies. *)
Record pickable (me next : Z) (D C : Z -> Z) (s : kst) : Prop := {
  pk_thread : is_Some (threads s !! next);
  pk_ipl : D next = 2 /\ C next = 1;
  pk_only : forall c k, cpus s !! c = Some k -> c <> me -> c_curthread k <> next;
}.

Lemma switched_to_spec me next D C s k : running me next s -> kspin me [RunqueueLock me] D C s -> D next = 2 -> C next = 1 ->
  cpus s !! me = Some k -> c_zombies k = [] ->
  wp (switched_to me) (fun _ s' => exists t c, threads (core s) !! next = Some t /\ (c = 0 \/ c = 1) /\
    kspin me [] (upd D next c) (upd C next c) s' /\
    core s' = set_threads (<[next := set_t_wchan 0 (set_t_state S_RUN t)]> (threads (core s))) (core s)) s.
Proof.
  intros Hr Hks HD HC Hk Hz. pose proof Hr as [_ _ [t Ht] _]. unfold switched_to. wp_step. apply (wp_curthread me next); [done|].
  wp_step. apply (wp_thread_at next t); [done|]. wp_step. apply (wp_thread_put next t); [done|]. set (s1 := set_threads _ s).
  assert (kspin me [RunqueueLock me] D C s1) as Hks1 by (eapply kspin_same; [exact Hks|apply (same_spin_threads s next t); eauto]).
  assert (running me next s1) as Hr1.
  { destruct Hr as [Hme Hc Hth Ho]. constructor; [done|done| |done]. unfold s1. k_simpl. rewrite lookup_insert_eq. by eexists. }
  assert (core s1 = set_threads (<[next := set_t_wchan 0 (set_t_state S_RUN (er_thread t))]> (threads (core s))) (core s)) as Hc1 by apply core_threads.
  wp_step. wp_apply (spinlock_release_spec me next [] [] D C s1); [done|done|by intros ?%not_elem_of_nil| |lia|].
  { cbn [splk_val]. change (cpus s1) with (cpus s). rewrite Hk. by eexists. }
  intros _ s2 [Hks2 Hc2]. cbn [app] in Hks2. destruct (core_cpu s1 s2 me k Hc2 Hk) as (k2 & Hk2 & Ek2).
  wp_step. apply (exorcise_none me k2); [done|unfold er_cpu in Ek2; congruence|].
  assert (threads (core s) !! next = Some (er_thread t)) as Htc by (unfold core; k_simpl; by rewrite lookup_fmap, Ht).
  assert (forall spl, spl = 0 \/ spl = 1 -> wp (splx me spl ;;; ret tt) (fun _ s' => exists t c, threads (core s) !! next = Some t /\ (c = 0 \/ c = 1) /\
    kspin me [] (upd D next c) (upd C next c) s' /\
    core s' = set_threads (<[next := set_t_wchan 0 (set_t_state S_RUN t)]> (threads (core s))) (core s)) s2) as Hend.
  { intros spl Hspl. wp_step. wp_apply (splx_spec me next [] (upd D next (D next - 1)) C s2 spl); [by eapply running_core|done|done|done|rewrite upd_eq; lia|].
    intros _ s3 [Hks3 Hc3]. wp_step. exists (er_thread t), spl. split_and!; [done|done| |congruence].
    eapply kspin_ext; [| |exact Hks3]; [|done]. intros x. rewrite upd_back, upd_eq. unfold upd. case_bool_decide; [lia|done]. }
  destruct (t_cont t); apply Hend; try (by apply (ks_spl _ _ _ _ _ Hks next t)). by left.
Qed.

Lemma pick_next_spec me cur D C s kc : running me cur s -> kspin me [RunqueueLock me] D C s -> cpus (core s) !! me = Some kc ->
  c_zombies kc = [] -> 0 < D cur -> (forall next rest, c_runqueue kc = next :: rest -> pickable me next D C (core s)) ->
  wp (pick_next me) (fun _ s' => core s' = c_pick me (core s) /\ exists D' C', kspin me [] D' C' s' /\
    match c_runqueue kc with
    | [] => (forall x, D' x = upd D cur (D cur - 1) x) /\ (forall x, C' x = C x)
    | next :: _ => exists c, (c = 0 \/ c = 1) /\ (forall x, D' x = upd D next c x) /\ (forall x, C' x = upd C next c x)
    end) s.
Proof.
  intros Hr Hks Hkc Hz HD Hpick. destruct (cpu_of_core _ _ _ Hkc) as (k & Hk & Ekc). assert (c_runqueue kc = c_runqueue k) as Erq by (by rewrite Ekc).
  unfold pick_next. wp_step. apply (wp_cpu_at me k); [done|]. rewrite <- Erq. destruct (c_runqueue kc) as [|next rest] eqn:Eq.
  - wp_apply (spinlock_release_spec me cur [] [] D C s); [done|done|by intros ?%not_elem_of_nil|cbn [splk_val]; rewrite Hk; by eexists|done|].
    intros _ s1 [Hks1 Hc1]. split; [unfold c_pick; by rewrite Hkc, Eq|]. by eexists _, _.
  - destruct (Hpick next rest eq_refl) as [[tc Htc] [HDn HCn] Ho]. destruct (thread_of_core _ _ _ Htc) as (t & Ht & ->).
    wp_step. apply (wp_cpu_put me k); [done|]. set (k' := set_c_curthread _ _). set (s1 := set_cpus _ s).
    pose proof Hr as [Hme (k0 & Hk0 & Hck) _ _]. assert (k0 = k) as -> by congruence.
    assert (kspin me [RunqueueLock me] D C s1) as Hks1 by (apply (kspin_curthread me _ D C s k); try done; [by rewrite Hck|cbn; lia]).
    assert (running me next s1) as Hr1.
    { constructor; [done| |by eexists|].
      - exists k'. split; [apply lookup_insert_eq|done].
      - unfold s1. k_simpl. intros c k2 [[<- <-]|[_ H2]]%lookup_insert_Some Hne; [done|]. apply (Ho c (er_cpu k2)); [|done]. unfold core. k_simpl. by rewrite lookup_fmap, H2. }
    wp_apply (switched_to_spec me next D C s1 k'); [done|done|done|done|apply lookup_insert_eq|by rewrite Ekc in Hz|].
    intros _ s2 (t2 & c & Ht2 & Hc & Hks2 & Hc2). split.
    + rewrite Hc2. unfold c_pick. rewrite Hkc, Eq, Htc. change (threads (core s1)) with (threads (core s)) in *. assert (t2 = er_thread t) as -> by congruence.
      unfold s1. rewrite core_cpus, Ekc. done.
    + eexists _, _. split; [exact Hks2|]. by exists c.
Qed.
End switch.
