(* ===== verification/ThreadInv.v ===== *)
(** * Where every thread is

    The placement invariant of the scheduler: a thread runs on one cpu, or
    waits on one run queue, or sleeps on one wait channel, as its state
    says; and the interrupt accounting between operations. *)

From S2P Require Import Prelude KHeap Array ThreadState Thread ThreadSwitch.

(** ** Placement *)

Definition placed (s : kst) (x : Z) (t : thread) (k : cpu) : Prop :=
  match t_state t with
  | S_RUN => c_isidle k = false /\ c_curthread k = x
  | S_READY => x ∈ c_runqueue k
  | S_SLEEP => exists wc, wchans s !! t_wchan t = Some wc /\ x ∈ wc_threads wc
  | S_ZOMBIE => False
  end.

Record cinv (s : kst) : Prop := {
  ci_cpu : forall c k, cpus s !! c = Some k -> 0 < c /\ c_zombies k = [] /\
    exists t, threads s !! c_curthread k = Some t /\ t_cpu t = c /\ (c_isidle k = false <-> t_state t = S_RUN);
  ci_rq : forall c k, cpus s !! c = Some k -> NoDup (c_runqueue k) /\
    forall x, x ∈ c_runqueue k -> exists t, threads s !! x = Some t /\ t_state t = S_READY /\ t_cpu t = c;
  ci_th : forall x t, threads s !! x = Some t -> t_in_interrupt t = false /\ exists k, cpus s !! t_cpu t = Some k /\ placed s x t k;
  ci_wc : forall w wc, wchans s !! w = Some wc -> NoDup (wc_threads wc) /\
    forall x, x ∈ wc_threads wc -> exists t, threads s !! x = Some t /\ t_state t = S_SLEEP /\ t_wchan t = w;
}.

(** Thread [x] is the current thread of its idle cpu. *)
Definition idle_cur (s : kst) (x : Z) (t : thread) : bool :=
  match cpus s !! t_cpu t with
  | Some k => c_isidle k && (c_curthread k =? x)
  | None => false
  end.

(** The raise counts and interrupt levels between operations. *)
Record kbase (D C : Z -> Z) (s : kst) : Prop := {
  kb_run : forall x t, threads s !! x = Some t -> t_state t = S_RUN -> D x = C x /\ (C x = 0 \/ C x = 1);
  kb_off : forall x t, threads s !! x = Some t -> t_state t <> S_RUN -> C x = 1 /\ D x = if idle_cur s x t then 1 else 2;
}.

Lemma kbase_ext D C D' C' s : (forall x, D' x = D x) -> (forall x, C' x = C x) -> kbase D C s -> kbase D' C' s.
Proof. intros ED EC [K1 K2]. constructor; intros x t Ht; rewrite ED, EC; by apply K1 || by apply K2. Qed.

(** The current thread of a cpu is current nowhere else. *)
Lemma cinv_running s me k : cinv (core s) -> cpus s !! me = Some k -> running me (c_curthread k) s.
Proof.
  intros I Hk. assert (cpus (core s) !! me = Some (er_cpu k)) as Hkc by (unfold core; k_simpl; by rewrite lookup_fmap, Hk).
  destruct (ci_cpu _ I me _ Hkc) as (Hme & _ & tc & Htc & Hcpu & _). destruct (thread_of_core _ _ _ Htc) as (t & Ht & ->).
  constructor; [done|by eexists|by eexists|]. intros c k2 Hk2 Hne E.
  destruct (ci_cpu _ I c (er_cpu k2)) as (_ & _ & t2 & Ht2 & Hcpu2 & _); [unfold core; k_simpl; by rewrite lookup_fmap, Hk2|].
  cbn [er_cpu c_curthread] in Ht2. rewrite E in Ht2. cbn [er_cpu c_curthread] in Htc. congruence.
Qed.

Lemma sleepers_listed s w wc : cinv s -> wchans s !! w = Some wc -> listed (wc_threads wc) s.
Proof.
  intros I Hw x Hx. destruct (ci_wc _ I w wc Hw) as [_ Hs]. destruct (Hs x Hx) as (t & Ht & _). exists t. split; [done|].
  destruct (ci_th _ I x t Ht) as (_ & k & Hk & _). by eexists.
Qed.

(** ** The pure operations keep the placement *)

Lemma cinv_pick s me k : cinv s -> cpus s !! me = Some k -> c_isidle k = true -> cinv (c_pick me s).
Proof.
  intros I Hk Hidle. unfold c_pick. rewrite Hk. destruct (c_runqueue k) as [|next rest] eqn:Eq; [done|].
  destruct (ci_rq _ I me k Hk) as [Hnd Hrq]. rewrite Eq in Hnd, Hrq. destruct (Hrq next (list_elem_of_here _ _)) as (t & Ht & Hst & Hcpu).
  rewrite Ht. apply NoDup_cons in Hnd as [Hn Hnd]. destruct (ci_cpu _ I me k Hk) as (Hme & Hz & _).
  constructor; k_simpl.
  - intros c k2 [[<- <-]|[Hne Hk2]]%lookup_insert_Some; k_simpl.
    + split_and!; [done|done|]. rewrite lookup_insert_eq. eexists. split_and!; [done|done|]. by k_simpl.
    + destruct (ci_cpu _ I c k2 Hk2) as (Hc & Hz2 & t2 & Ht2 & Hcpu2 & Hid2). split_and!; [done|done|]. exists t2. split_and!; [|done|done].
      rewrite lookup_insert_ne; [done|]. intros E. rewrite E in Ht. congruence.
  - intros c k2 [[<- <-]|[Hne Hk2]]%lookup_insert_Some; k_simpl.
    + split; [done|]. intros x Hx. destruct (Hrq x) as (t2 & Ht2 & Hs2 & Hc2); [by apply list_elem_of_further|]. exists t2.
      rewrite lookup_insert_ne by (intros ->; done). done.
    + destruct (ci_rq _ I c k2 Hk2) as [Hnd2 Hrq2]. split; [done|]. intros x Hx. destruct (Hrq2 x Hx) as (t2 & Ht2 & Hs2 & Hc2). exists t2.
      rewrite lookup_insert_ne; [done|]. intros E. rewrite E in Ht. congruence.
  - intros x t2 [[<- <-]|[Hne Ht2]]%lookup_insert_Some.
    + destruct (ci_th _ I next t Ht) as (Hi & _). split; [done|]. unfold placed. k_simpl. rewrite Hcpu, lookup_insert_eq. eexists. split; [done|]. by k_simpl.
    + destruct (ci_th _ I x t2 Ht2) as (Hi & k2 & Hk2 & Hp). split; [done|]. destruct (decide (me = t_cpu t2)) as [E|Hm].
      * rewrite <- E in *. rewrite lookup_insert_eq. eexists. split; [done|]. assert (k2 = k) as -> by congruence. unfold placed in *. k_simpl.
        destruct (t_state t2); [destruct Hp; congruence| |done|done]. rewrite Eq in Hp. apply elem_of_cons in Hp as [->|]; [congruence|done].
      * rewrite lookup_insert_ne by done. by exists k2.
  - intros w wc Hw. destruct (ci_wc _ I w wc Hw) as [Hnd2 Hs]. split; [done|]. intros x Hx. destruct (Hs x Hx) as (t2 & Ht2 & Hs2 & Hw2).
    exists t2. rewrite lookup_insert_ne; [done|]. intros E. rewrite E in Ht. congruence.
Qed.

Lemma cinv_sleep s me k w wc kt : cinv s -> cpus s !! me = Some k -> c_isidle k = false -> wchans s !! w = Some wc ->
  cinv (c_sleep me (c_curthread k) w kt s).
Proof.
  intros I Hk Hidle Hw. destruct (ci_cpu _ I me k Hk) as (Hme & Hz & t & Ht & Hcpu & Hid). assert (t_state t = S_RUN) as Hst by (by apply Hid).
  unfold c_sleep. rewrite Hw, Ht, Hk. set (cur := c_curthread k) in *. destruct (ci_th _ I cur t Ht) as (Hi & _).
  constructor; k_simpl.
  - intros c k2 [[<- <-]|[Hne Hk2]]%lookup_insert_Some; k_simpl.
    + split_and!; [done|done|]. fold cur. rewrite lookup_insert_eq. eexists. split_and!; [done|done|]. by k_simpl.
    + destruct (ci_cpu _ I c k2 Hk2) as (Hc & Hz2 & t2 & Ht2 & Hcpu2 & Hid2). split_and!; [done|done|]. exists t2. split_and!; [|done|done].
      rewrite lookup_insert_ne; [done|]. intros E. rewrite E in Ht. congruence.
  - intros c k2 Hk2. assert (exists k3, cpus s !! c = Some k3 /\ c_runqueue k2 = c_runqueue k3) as (k3 & Hk3 & ->).
    { apply lookup_insert_Some in Hk2 as [[<- <-]|[_ Hk2]]; [by exists k|by exists k2]. }
    destruct (ci_rq _ I c k3 Hk3) as [Hnd2 Hrq2]. split; [done|]. intros x Hx. destruct (Hrq2 x Hx) as (t2 & Ht2 & Hs2 & Hc2). exists t2.
    rewrite lookup_insert_ne; [done|]. intros E. rewrite E in Ht. congruence.
  - intros x t2 [[<- <-]|[Hne Ht2]]%lookup_insert_Some.
    + split; [done|]. unfold placed. k_simpl. rewrite Hcpu, lookup_insert_eq. eexists. split; [done|]. eexists. split; [apply lookup_insert_eq|]. cbn [wc_threads]. set_solver.
    + destruct (ci_th _ I x t2 Ht2) as (Hi2 & k2 & Hk2 & Hp). split; [done|].
      assert (exists k3, <[me := set_c_isidle true k]> (cpus s) !! t_cpu t2 = Some k3 /\ c_runqueue k3 = c_runqueue k2 /\ (t_cpu t2 <> me -> k3 = k2)) as (k3 & Hk3 & Er & Hsame).
      { destruct (decide (me = t_cpu t2)) as [E|]; [|exists k2; by rewrite lookup_insert_ne]. rewrite <- E in Hk2 |- *.
        assert (k2 = k) as -> by congruence. rewrite lookup_insert_eq. by eexists. }
      exists k3. split; [done|]. unfold placed in *. k_simpl. destruct (t_state t2) eqn:Es.
      * destruct Hp as [Hp1 Hp2]. assert (t_cpu t2 <> me) as Hm by (intros E; rewrite E in Hk2; assert (k2 = k) as -> by congruence; by apply Hne). by rewrite Hsame.
      * by rewrite Er.
      * destruct Hp as (wc2 & Hw2 & Hx). destruct (decide (w = t_wchan t2)) as [E|]; [|exists wc2; by rewrite lookup_insert_ne].
        rewrite <- E in Hw2 |- *. rewrite lookup_insert_eq. eexists. split; [done|]. cbn [wc_threads]. assert (wc2 = wc) as -> by congruence. set_solver.
      * done.
  - intros w2 wc2 [[<- <-]|[Hne Hw2]]%lookup_insert_Some; cbn [wc_threads].
    + destruct (ci_wc _ I w wc Hw) as [Hnd2 Hs]. split.
      * apply NoDup_app. split_and!; [done| |apply NoDup_singleton]. intros x Hx ->%list_elem_of_singleton. destruct (Hs _ Hx) as (t2 & Ht2 & Hs2 & _). congruence.
      * intros x [Hx|Hx]%elem_of_app.
        -- destruct (Hs x Hx) as (t2 & Ht2 & Hs2 & Hw2). exists t2. rewrite lookup_insert_ne; [done|]. intros <-. congruence.
        -- apply list_elem_of_singleton in Hx as ->. rewrite lookup_insert_eq. eexists. split; [done|]. by k_simpl.
    + destruct (ci_wc _ I w2 wc2 Hw2) as [Hnd2 Hs]. split; [done|]. intros x Hx. destruct (Hs x Hx) as (t2 & Ht2 & Hs2 & Hw3). exists t2.
      rewrite lookup_insert_ne; [done|]. intros <-. congruence.
Qed.

Lemma cinv_yield s me k : cinv s -> cpus s !! me = Some k -> c_isidle k = false -> cinv (c_yield me (c_curthread k) s).
Proof.
  intros I Hk Hidle. destruct (ci_cpu _ I me k Hk) as (Hme & Hz & t & Ht & Hcpu & Hid). assert (t_state t = S_RUN) as Hst by (by apply Hid).
  unfold c_yield. rewrite Ht, Hk. set (cur := c_curthread k) in *. destruct (ci_th _ I cur t Ht) as (Hi & _).
  destruct (ci_rq _ I me k Hk) as [Hnd Hrq].
  constructor; k_simpl.
  - intros c k2 [[<- <-]|[Hne Hk2]]%lookup_insert_Some; k_simpl.
    + split_and!; [done|done|]. fold cur. rewrite lookup_insert_eq. eexists. split_and!; [done|done|]. by k_simpl.
    + destruct (ci_cpu _ I c k2 Hk2) as (Hc & Hz2 & t2 & Ht2 & Hcpu2 & Hid2). split_and!; [done|done|]. exists t2. split_and!; [|done|done].
      rewrite lookup_insert_ne; [done|]. intros E. rewrite E in Ht. congruence.
  - intros c k2 [[<- <-]|[Hne Hk2]]%lookup_insert_Some; k_simpl.
    + split.
      * apply NoDup_app. split_and!; [done| |apply NoDup_singleton]. intros x Hx ->%list_elem_of_singleton. destruct (Hrq _ Hx) as (t2 & Ht2 & Hs2 & _). congruence.
      * intros x [Hx|Hx]%elem_of_app.
        -- destruct (Hrq x Hx) as (t2 & Ht2 & Hs2 & Hc2). exists t2. rewrite lookup_insert_ne; [done|]. intros E. rewrite E in Ht. congruence.
        -- apply list_elem_of_singleton in Hx as ->. rewrite lookup_insert_eq. eexists. split; [done|]. by k_simpl.
    + destruct (ci_rq _ I c k2 Hk2) as [Hnd2 Hrq2]. split; [done|]. intros x Hx. destruct (Hrq2 x Hx) as (t2 & Ht2 & Hs2 & Hc2). exists t2.
      rewrite lookup_insert_ne; [done|]. intros E. rewrite E in Ht. congruence.
  - intros x t2 [[<- <-]|[Hne Ht2]]%lookup_insert_Some.
    + split; [done|]. unfold placed. k_simpl. rewrite Hcpu, lookup_insert_eq. eexists. split; [done|]. k_simpl. set_solver.
    + destruct (ci_th _ I x t2 Ht2) as (Hi2 & k2 & Hk2 & Hp). split; [done|]. destruct (decide (me = t_cpu t2)) as [E|]; [|exists k2; by rewrite lookup_insert_ne].
      rewrite <- E in Hk2 |- *. assert (k2 = k) as -> by congruence. rewrite lookup_insert_eq. eexists. split; [done|]. unfold placed in *. k_simpl.
      destruct (t_state t2); [destruct Hp as [_ Hp]; by destruct Hne|set_solver|done|done].
  - intros w wc Hw. destruct (ci_wc _ I w wc Hw) as [Hnd2 Hs]. split; [done|]. intros x Hx. destruct (Hs x Hx) as (t2 & Ht2 & Hs2 & Hw2).
    exists t2. rewrite lookup_insert_ne; [done|]. intros E. rewrite E in Ht. congruence.
Qed.

(** Placement with the threads [E] taken off their wait channel but not yet
    ready. *)
Record cinvx (E : list Z) (s : kst) : Prop := {
  cx_cpu : forall c k, cpus s !! c = Some k -> 0 < c /\ c_zombies k = [] /\
    exists t, threads s !! c_curthread k = Some t /\ t_cpu t = c /\ (c_isidle k = false <-> t_state t = S_RUN);
  cx_rq : forall c k, cpus s !! c = Some k -> NoDup (c_runqueue k) /\
    forall x, x ∈ c_runqueue k -> exists t, threads s !! x = Some t /\ t_state t = S_READY /\ t_cpu t = c;
  cx_th : forall x t, threads s !! x = Some t -> t_in_interrupt t = false /\ exists k, cpus s !! t_cpu t = Some k /\
    if bool_decide (x ∈ E) then t_state t = S_SLEEP else placed s x t k;
  cx_wc : forall w wc, wchans s !! w = Some wc -> NoDup (wc_threads wc) /\
    forall x, x ∈ wc_threads wc -> x ∉ E /\ exists t, threads s !! x = Some t /\ t_state t = S_SLEEP /\ t_wchan t = w;
}.

Lemma cinvx_nil s : cinvx [] s -> cinv s.
Proof.
  intros [X1 X2 X3 X4]. constructor; [done|done| |].
  - intros x t Ht. destruct (X3 x t Ht) as (Hi & k & Hk & Hp). split; [done|]. exists k. split; [done|]. by rewrite bool_decide_eq_false_2 in Hp by apply not_elem_of_nil.
  - intros w wc Hw. destruct (X4 w wc Hw) as [Hnd Hs]. split; [done|]. intros x Hx. by destruct (Hs x Hx).
Qed.

(** Taking a prefix of the sleepers off a wait channel. *)
Lemma cinvx_take s w n E l i : cinv s -> wchans s !! w = Some (Wchan n (E ++ l) i) ->
  cinvx E (set_wchans (<[w := Wchan n l i]> (wchans s)) s).
Proof.
  intros [I1 I2 I3 I4] Hw. destruct (I4 w _ Hw) as [Hnd Hs]. cbn [wc_threads] in *. apply NoDup_app in Hnd as (Hnd1 & Hsep & Hnd2).
  constructor; k_simpl; [done|done| |].
  - intros x t Ht. destruct (I3 x t Ht) as (Hi & k & Hk & Hp). split; [done|]. exists k. split; [done|]. case_bool_decide as HE.
    + destruct (Hs x) as (t2 & Ht2 & Hst & _); [set_solver|]. congruence.
    + unfold placed in *. k_simpl. destruct (t_state t); try done. destruct Hp as (wc & Hwc & Hx).
      destruct (decide (w = t_wchan t)) as [Ew|]; [|exists wc; by rewrite lookup_insert_ne]. rewrite <- Ew in Hwc |- *. rewrite lookup_insert_eq.
      eexists. split; [done|]. cbn [wc_threads]. assert (wc = Wchan n (E ++ l) i) as -> by congruence. cbn [wc_threads] in Hx. set_solver.
  - intros w2 wc2 [[<- <-]|[Hne Hw2]]%lookup_insert_Some; cbn [wc_threads].
    + split; [done|]. intros x Hx. split; [intros HE; by apply (Hsep x)|]. apply Hs. set_solver.
    + destruct (I4 w2 wc2 Hw2) as [Hnd3 Hs3]. split; [done|]. intros x Hx. destruct (Hs3 x Hx) as (t & Ht & Hst & Hwt). split; [|by exists t].
      intros HE. destruct (Hs x) as (t2 & Ht2 & _ & Hwt2); [set_solver|]. congruence.
Qed.

Lemma cinvx_ready x E s : cinvx (x :: E) s -> x ∉ E -> is_Some (threads s !! x) -> cinvx E (c_ready x s).
Proof.
  intros [X1 X2 X3 X4] Hx [t Ht]. destruct (X3 x t Ht) as (Hi & k & Hk & Hst). rewrite bool_decide_eq_true_2 in Hst by apply list_elem_of_here.
  unfold c_ready. rewrite Ht, Hk.
  assert (forall y t2, y <> x -> threads s !! y = Some t2 -> <[x := set_t_state S_READY t]> (threads s) !! y = Some t2) as Hoth by (intros; by rewrite lookup_insert_ne).
  constructor; k_simpl.
  - intros c k2 Hk2. assert (exists k3, cpus s !! c = Some k3 /\ c_curthread k2 = c_curthread k3 /\ c_isidle k2 = c_isidle k3 /\ c_zombies k2 = c_zombies k3) as (k3 & Hk3 & -> & -> & ->).
    { apply lookup_insert_Some in Hk2 as [[<- <-]|[_ Hk2]]; [by exists k|by exists k2]. }
    destruct (X1 c k3 Hk3) as (Hc & Hz & t2 & Ht2 & Hcpu & Hid). split_and!; [done|done|]. destruct (decide (c_curthread k3 = x)) as [E1|].
    + rewrite E1 in *. rewrite lookup_insert_eq. assert (t2 = t) as -> by congruence.
      exists (set_t_state S_READY t). split_and!; [done|done|]. k_simpl. rewrite Hid, Hst. split; intros ?; discriminate.
    + exists t2. by rewrite lookup_insert_ne.
  - intros c k2 Hk2. apply lookup_insert_Some in Hk2 as [[<- <-]|[Hne Hk2]]; k_simpl.
    + destruct (X2 _ k Hk) as [Hnd Hrq]. assert (x ∉ c_runqueue k) as Hnx by (intros Hin; destruct (Hrq x Hin) as (t2 & Ht2 & Hs2 & _); congruence). split.
      * apply NoDup_app. split_and!; [done| |apply NoDup_singleton]. by intros y Hy ->%list_elem_of_singleton.
      * intros y [Hy|Hy]%elem_of_app.
        -- destruct (Hrq y Hy) as (t2 & Ht2 & Hs2 & Hc2). exists t2. split; [|done]. apply Hoth; [congruence|done].
        -- apply list_elem_of_singleton in Hy as ->. rewrite lookup_insert_eq. eexists. split; [done|]. by k_simpl.
    + destruct (X2 _ k2 Hk2) as [Hnd Hrq]. split; [done|]. intros y Hy. destruct (Hrq y Hy) as (t2 & Ht2 & Hs2 & Hc2). exists t2. split; [|done]. apply Hoth; [congruence|done].
  - intros y t2 [[<- <-]|[Hne Ht2]]%lookup_insert_Some; k_simpl.
    + split; [done|]. rewrite lookup_insert_eq. eexists. split; [done|]. rewrite bool_decide_eq_false_2 by done. unfold placed. k_simpl. set_solver.
    + destruct (X3 y t2 Ht2) as (Hi2 & k2 & Hk2 & Hp). split; [done|].
      rewrite (bool_decide_ext (y ∈ x :: E) (y ∈ E)) in Hp by (rewrite elem_of_cons; naive_solver).
      destruct (decide (t_cpu t = t_cpu t2)) as [E1|]; [|exists k2; by rewrite lookup_insert_ne].
      rewrite E1 in Hk |- *. assert (k2 = k) as -> by congruence. rewrite lookup_insert_eq. eexists. split; [done|]. case_bool_decide; [done|].
      unfold placed in *. k_simpl. destruct (t_state t2); try done. set_solver.
  - intros w wc Hw. destruct (X4 w wc Hw) as [Hnd Hs]. split; [done|]. intros y Hy. destruct (Hs y Hy) as [Hny (t2 & Ht2 & Hs2 & Hw2)]. split; [set_solver|].
    exists t2. split; [|done]. apply Hoth; [set_solver|done].
Qed.

Lemma cinv_wakeone s w : cinv s -> cinv (c_wakeone w s).
Proof.
  intros I. unfold c_wakeone. destruct (wchans s !! w) as [[n [|x l] i]|] eqn:Hw; [done| |done].
  apply cinvx_nil, cinvx_ready; [by apply (cinvx_take s w n [x] l i)|apply not_elem_of_nil|].
  destruct (ci_wc _ I w _ Hw) as [_ Hs]. destruct (Hs x) as (t & Ht & _); [apply list_elem_of_here|]. by eexists.
Qed.

Lemma cinv_wakeall s w : cinv s -> cinv (c_wakeall w s).
Proof.
  intros I. unfold c_wakeall. destruct (wchans s !! w) as [[n l i]|] eqn:Hw; [|done]. pose proof (ci_wc _ I w _ Hw) as [Hnd Hs]. cbn [wc_threads] in *.
  assert (cinvx l (set_wchans (<[w := Wchan n [] i]> (wchans s)) s)) as IX by (apply cinvx_take; [done|by rewrite app_nil_r]).
  assert (forall x, x ∈ l -> is_Some (threads (set_wchans (<[w := Wchan n [] i]> (wchans s)) s) !! x)) as Hth by (intros x Hx; destruct (Hs x Hx) as (t & Ht & _); by eexists).
  clear Hs Hw. revert IX Hth. generalize (set_wchans (<[w := Wchan n [] i]> (wchans s)) s). induction l as [|x l IH]; intros s1 IX Hth; [by apply cinvx_nil|].
  apply NoDup_cons in Hnd as [Hn Hnd]. cbn [foldl]. apply IH; [done| |].
  - apply cinvx_ready; [done|done|apply Hth, list_elem_of_here].
  - intros y Hy. unfold c_ready. repeat case_match; k_simpl; try (by apply Hth, list_elem_of_further).
    destruct (decide (x = y)) as [->|]; [by rewrite lookup_insert_eq|rewrite lookup_insert_ne by done]. by apply Hth, list_elem_of_further.
Qed.

(** ** Interrupt accounting *)

Lemma kspin_nil me me' D C s : kspin me [] D C s -> kspin me' [] D C s.
Proof.
  intros [K1 K2 K3 K4 K5 K6]. constructor; try done. intros c k Hk. rewrite (K2 c k Hk). cbn [length]. by do 2 case_bool_decide.
Qed.

Lemma kbase_ready D C s x t : threads s !! x = Some t -> t_state t <> S_RUN -> kbase D C s -> kbase D C (c_ready x s).
Proof.
  intros Ht Hst [B1 B2]. unfold c_ready. rewrite Ht. destruct (cpus s !! t_cpu t) as [k|] eqn:Hk; [|done].
  assert (forall y t2, idle_cur (set_cpus (<[t_cpu t := set_c_runqueue (c_runqueue k ++ [x]) k]> (cpus s)) (set_threads (<[x := set_t_state S_READY t]> (threads s)) s)) y t2 = idle_cur s y t2) as Hidle.
  { intros y t2. unfold idle_cur. k_simpl. destruct (decide (t_cpu t = t_cpu t2)) as [E|]; [rewrite <- E, lookup_insert_eq, Hk|rewrite lookup_insert_ne by done]; done. }
  constructor; k_simpl; intros y t2 [[<- <-]|[Hne Ht2]]%lookup_insert_Some Hs2; rewrite ?Hidle.
  - done.
  - by apply (B1 y t2).
  - by apply (B2 x t).
  - by apply (B2 y t2).
Qed.

Lemma kbase_wakeone D C s w : cinv s -> kbase D C s -> kbase D C (c_wakeone w s).
Proof.
  intros I B. unfold c_wakeone. destruct (wchans s !! w) as [[n [|x l] i]|] eqn:Hw; [done| |done].
  destruct (ci_wc _ I w _ Hw) as [_ Hs]. destruct (Hs x) as (t & Ht & Hst & _); [apply list_elem_of_here|].
  apply (kbase_ready _ _ _ x t); [done|by rewrite Hst|]. destruct B. by constructor.
Qed.

Lemma kbase_wakeall D C s w : cinv s -> kbase D C s -> kbase D C (c_wakeall w s).
Proof.
  intros I B. unfold c_wakeall. destruct (wchans s !! w) as [[n l i]|] eqn:Hw; [|done]. destruct (ci_wc _ I w _ Hw) as [_ Hs]. cbn [wc_threads] in Hs.
  assert (forall x, x ∈ l -> exists t, threads (set_wchans (<[w := Wchan n [] i]> (wchans s)) s) !! x = Some t /\ t_state t <> S_RUN) as Hth.
  { intros x Hx. destruct (Hs x Hx) as (t & Ht & Hst & _). exists t. split; [done|by rewrite Hst]. }
  assert (kbase D C (set_wchans (<[w := Wchan n [] i]> (wchans s)) s)) as B1 by (destruct B; by constructor).
  clear Hs Hw B. revert B1 Hth. generalize (set_wchans (<[w := Wchan n [] i]> (wchans s)) s). induction l as [|x l IH]; intros s1 B1 Hth; [done|].
  cbn [foldl]. destruct (Hth x) as (t & Ht & Hst); [apply list_elem_of_here|]. apply IH; [by apply (kbase_ready _ _ _ x t)|].
  intros y Hy. destruct (Hth y) as (t2 & Ht2 & Hs2); [by apply list_elem_of_further|]. unfold c_ready. rewrite Ht. case_match; [|by eauto]. k_simpl.
  destruct (decide (x = y)) as [->|]; [rewrite lookup_insert_eq; by eexists|rewrite lookup_insert_ne by done; by eauto].
Qed.

(** Picking the next thread with the run queue locked. *)
Lemma kbase_pick D C D' C' s me k : cinv s -> kbase D C s -> cpus s !! me = Some k -> c_isidle k = true ->
  match c_runqueue k with
  | [] => (forall x, D' x = upd (upd D (c_curthread k) (D (c_curthread k) + 1)) (c_curthread k) (upd D (c_curthread k) (D (c_curthread k) + 1) (c_curthread k) - 1) x) /\ (forall x, C' x = C x)
  | next :: _ => exists c, (c = 0 \/ c = 1) /\ (forall x, D' x = upd (upd D (c_curthread k) (D (c_curthread k) + 1)) next c x) /\ (forall x, C' x = upd C next c x)
  end -> kbase D' C' (c_pick me s).
Proof.
  intros I B Hk Hidle. unfold c_pick. rewrite Hk. set (cur := c_curthread k). destruct (c_runqueue k) as [|next rest] eqn:Eq.
  { intros [ED EC]. eapply kbase_ext; [|exact EC|exact B]. intros x. rewrite ED. symmetry. apply upd_inc_dec. }
  intros (c & Hc & ED & EC). destruct (ci_rq _ I me k Hk) as [_ Hrq]. rewrite Eq in Hrq. destruct (Hrq next (list_elem_of_here _ _)) as (t & Ht & Hst & Hcpu). rewrite Ht.
  destruct (ci_cpu _ I me k Hk) as (_ & _ & tc & Htc & Hcc & Hid). destruct B as [B1 B2].
  constructor; k_simpl; intros y t2 [[<- <-]|[Hne Ht2]]%lookup_insert_Some Hs2; rewrite ED, EC; k_simpl.
  - rewrite !upd_eq. done.
  - assert (y <> cur) as Hyc by (intros ->; fold cur in Htc; assert (t2 = tc) as -> by congruence; apply Hid in Hs2; congruence).
    unfold upd. rewrite !bool_decide_eq_false_2 by congruence. by apply (B1 y t2).
  - done.
  - destruct (B2 y t2 Ht2 Hs2) as [E1 E2]. unfold upd. rewrite (bool_decide_eq_false_2 (y = next)) by congruence. split; [done|]. unfold idle_cur in *. k_simpl.
    destruct (decide (me = t_cpu t2)) as [Em|Hm].
    + rewrite <- Em in *. rewrite lookup_insert_eq. k_simpl. cbn [andb]. rewrite Hk, Hidle in E2. cbn [andb] in E2. case_bool_decide as Ey.
      * subst y. rewrite Z.eqb_refl in E2. fold cur. lia.
      * fold cur in E2. rewrite (proj2 (Z.eqb_neq cur y)) in E2 by congruence. done.
    + rewrite lookup_insert_ne by done. rewrite bool_decide_eq_false_2; [done|]. intros ->. fold cur in Htc. congruence.
Qed.

(** ** Context switches *)

(** A state between two operations. *)
Record settled (D C : Z -> Z) (s : kst) : Prop := {
  se_spin : forall me, kspin me [] D C s;
  se_base : kbase D C (core s);
  se_inv : cinv (core s);
}.

Section switches.
Context `{ThreadHeap}.

(** Picking the next thread from a state where the cpu is idle and holds its
    run queue lock. *)
Lemma pick_settled me cur D C s k : running me cur s -> kspin me [RunqueueLock me] (upd D cur (D cur + 1)) C s ->
  kbase D C (core s) -> cinv (core s) -> cpus (core s) !! me = Some k -> c_isidle k = true -> c_curthread k = cur ->
  wp (pick_next me) (fun _ s' => core s' = c_pick me (core s) /\ exists D' C', settled D' C' s') s.
Proof.
  intros Hr Hks B I Hk Hidle Hcur. destruct (ci_cpu _ I me k Hk) as (_ & Hz & tc & Htc & Hcc & Hid). rewrite Hcur in Htc.
  assert (t_state tc <> S_RUN) as Hst by (rewrite <- Hid; congruence). pose proof (kb_off _ _ _ B cur tc Htc Hst) as [EC ED].
  assert (idle_cur (core s) cur tc = true) as Eic by (unfold idle_cur; rewrite Hcc, Hk, Hidle, Hcur; apply Z.eqb_refl). rewrite Eic in ED.
  wp_apply (pick_next_spec me cur (upd D cur (D cur + 1)) C s k); [done|done|done|done|rewrite upd_eq; lia| |].
  - intros next rest Eq. destruct (ci_rq _ I me k Hk) as [_ Hrq]. rewrite Eq in Hrq. destruct (Hrq next (list_elem_of_here _ _)) as (t & Ht & Hs & Hcpu).
    pose proof (kb_off _ _ _ B next t Ht ltac:(by rewrite Hs)) as [EC2 ED2]. constructor; [by eexists| |].
    + split; [|done]. destruct (decide (next = cur)) as [->|Hne]; [rewrite upd_eq; lia|]. unfold upd. rewrite bool_decide_eq_false_2 by done.
      rewrite ED2. unfold idle_cur. rewrite Hcpu, Hk, Hidle, Hcur. cbn [andb]. by rewrite (proj2 (Z.eqb_neq cur next)) by congruence.
    + intros c k2 Hk2 Hne E. destruct (ci_cpu _ I c k2 Hk2) as (_ & _ & t2 & Ht2 & Hc2 & _). rewrite E in Ht2. congruence.
  - intros _ s' [Hc' (D' & C' & Hks' & Hm)]. split; [done|]. exists D', C'. constructor; [intros me'; by eapply kspin_nil|rewrite Hc'|rewrite Hc'; by eapply cinv_pick].
    eapply kbase_pick; [exact I|exact B|exact Hk|exact Hidle|]. rewrite Hcur. destruct (c_runqueue k); exact Hm.
Qed.

Lemma idle_again_spec me D C s k : settled D C s -> cpus s !! me = Some k -> c_isidle k = true ->
  wp (idle_again me) (fun _ s' => core s' = c_pick me (core s) /\ exists D' C', settled D' C' s') s.
Proof.
  intros [Hs B I] Hk Hidle. pose proof (cinv_running s me k I Hk) as Hr. unfold idle_again. wp_step.
  wp_apply (spinlock_acquire_spec me _ [] D C s (RunqueueLock me) Hr (Hs me)); [apply not_elem_of_nil|cbn [splk_val]; rewrite Hk; by eexists|].
  intros _ s1 [Hks1 Hc1]. rewrite <- Hc1. eapply (pick_settled me (c_curthread k) D C s1 (er_cpu k)); [by eapply running_core|done|by rewrite Hc1|by rewrite Hc1| |done|done].
  rewrite Hc1. unfold core. k_simpl. by rewrite lookup_fmap, Hk.
Qed.

Lemma kbase_sleep D C s me k w wc kt : cinv s -> kbase D C s -> cpus s !! me = Some k -> c_isidle k = false -> wchans s !! w = Some wc ->
  kbase (upd D (c_curthread k) 1) (upd C (c_curthread k) 1) (c_sleep me (c_curthread k) w kt s).
Proof.
  intros I [B1 B2] Hk Hidle Hw. destruct (ci_cpu _ I me k Hk) as (_ & _ & t & Ht & Hcpu & Hid). unfold c_sleep. rewrite Hw, Ht, Hk. set (cur := c_curthread k) in *.
  constructor; k_simpl; intros y t2 [[<- <-]|[Hne Ht2]]%lookup_insert_Some Hs2; k_simpl.
  - done.
  - unfold upd. rewrite !bool_decide_eq_false_2 by congruence. by apply (B1 y t2).
  - rewrite !upd_eq. split; [done|]. unfold idle_cur. k_simpl. rewrite Hcpu, lookup_insert_eq. k_simpl. cbn [andb]. fold cur. by rewrite Z.eqb_refl.
  - unfold upd. rewrite !bool_decide_eq_false_2 by congruence. destruct (B2 y t2 Ht2 Hs2) as [E1 ->]. split; [done|]. unfold idle_cur. k_simpl.
    destruct (decide (me = t_cpu t2)) as [Em|]; [|by rewrite lookup_insert_ne]. rewrite <- Em, lookup_insert_eq, Hk. k_simpl. rewrite Hidle. cbn [andb]. fold cur.
    by rewrite (proj2 (Z.eqb_neq cur y)) by congruence.
Qed.

Lemma kbase_yield D C s me k : cinv s -> kbase D C s -> cpus s !! me = Some k -> c_isidle k = false ->
  kbase (upd D (c_curthread k) 1) (upd C (c_curthread k) 1) (c_yield me (c_curthread k) s).
Proof.
  intros I [B1 B2] Hk Hidle. destruct (ci_cpu _ I me k Hk) as (_ & _ & t & Ht & Hcpu & Hid). unfold c_yield. rewrite Ht, Hk. set (cur := c_curthread k) in *.
  constructor; k_simpl; intros y t2 [[<- <-]|[Hne Ht2]]%lookup_insert_Some Hs2; k_simpl.
  - done.
  - unfold upd. rewrite !bool_decide_eq_false_2 by congruence. by apply (B1 y t2).
  - rewrite !upd_eq. split; [done|]. unfold idle_cur. k_simpl. rewrite Hcpu, lookup_insert_eq. k_simpl. cbn [andb]. fold cur. by rewrite Z.eqb_refl.
  - unfold upd. rewrite !bool_decide_eq_false_2 by congruence. destruct (B2 y t2 Ht2 Hs2) as [E1 ->]. split; [done|]. unfold idle_cur. k_simpl.
    destruct (decide (me = t_cpu t2)) as [Em|]; [|by rewrite lookup_insert_ne]. rewrite <- Em, lookup_insert_eq, Hk. k_simpl. rewrite Hidle. cbn [andb]. fold cur.
    by rewrite (proj2 (Z.eqb_neq cur y)) by congruence.
Qed.

Lemma running_same me cur s s' : running me cur s -> same_spin s s' -> is_Some (threads s' !! cur) -> is_Some (cpus s' !! me) -> running me cur s'.
Proof.
  intros [Hme (k & Hk & Hc) _ Ho] [S1 _ _ _ _ _ _] Ht [k' Hk']. constructor; [done| |done|].
  - exists k'. split; [done|]. destruct (S1 me k' Hk') as (k0 & Hk0 & _ & _ & E & _). congruence.
  - intros c k2 Hk2 Hne. destruct (S1 c k2 Hk2) as (k0 & Hk0 & _ & _ & -> & _). by apply (Ho c).
Qed.

(** Going to sleep with the channel's spinlock [lk] held. *)
Lemma thread_switch_sleep me D C s k w wc lk kt : kbase D C (core s) -> cinv (core s) -> cpus s !! me = Some k -> c_isidle k = false ->
  kspin me [lk] (upd D (c_curthread k) (D (c_curthread k) + 1)) C s -> lk <> RunqueueLock me -> is_Some (splk_val s lk) -> wchans s !! w = Some wc ->
  wp (thread_switch me S_SLEEP w (Some lk) kt) (fun b s' => b = true /\
    core s' = c_pick me (c_sleep me (c_curthread k) w kt (core s)) /\ exists D' C', settled D' C' s') s.
Proof.
  intros B I Hk Hidle Hks Hlk Hsome Hw. pose proof (cinv_running s me k I Hk) as Hr. set (cur := c_curthread k) in *.
  assert (cpus (core s) !! me = Some (er_cpu k)) as Hkc by (unfold core; k_simpl; by rewrite lookup_fmap, Hk).
  destruct (ci_cpu _ I me _ Hkc) as (_ & Hz & tc & Htc & Hcpu & Hid). cbn [er_cpu c_curthread c_isidle] in *. fold cur in Htc.
  assert (t_state tc = S_RUN) as Hst by (by apply Hid). destruct (kb_run _ _ _ B cur tc Htc Hst) as [ED EC].
  unfold thread_switch. wp_step. wp_apply (splhigh_spec me cur [lk] _ C s Hr Hks EC). intros spl s1 (-> & Hks1 & Hc1). rewrite upd_eq in Hks1.
  pose proof (running_core _ _ _ _ Hr Hc1) as Hr1. destruct (core_cpu s s1 me k Hc1 Hk) as (k1 & Hk1 & Ek1).
  assert (c_curthread k1 = cur /\ c_isidle k1 = false) as [Ecur1 Eidle1].
  { split; [change (c_curthread (er_cpu k1) = cur)|change (c_isidle (er_cpu k1) = false)]; by rewrite Ek1. }
  wp_step. apply (wp_cpu_at me k1); [done|]. rewrite Eidle1, Ecur1. wp_step.
  wp_apply (spinlock_acquire_spec me cur [lk] _ _ s1 (RunqueueLock me) Hr1 Hks1); [set_solver|cbn [splk_val]; rewrite Hk1; by eexists|].
  intros _ s2 [Hks2 Hc2]. rewrite upd_eq in Hks2. pose proof (running_core _ _ _ _ Hr1 Hc2) as Hr2. destruct (core_cpu s1 s2 me k1 Hc2 Hk1) as (k2 & Hk2 & Ek2).
  wp_step. apply (wp_cpu_at me k2); [done|]. cbn [bool_decide decide threadstate_eq_dec]. change (bool_decide (S_SLEEP = S_READY)) with false. cbn [andb].
  assert (wchans s2 !! w = Some wc) as Hw2 by (change (wchans (core s2) !! w = Some wc); rewrite Hc2, Hc1; exact Hw).
  wp_step. wp_step. apply (wp_wchan_at w wc); [done|]. wp_step. apply (wp_wchan_put w wc); [done|]. set (s3 := set_wchans _ s2).
  assert (kspin me (RunqueueLock me :: lk :: []) (upd (upd (upd D cur (D cur + 1)) cur (D cur + 1 + (1 - C cur))) cur (D cur + 1 + (1 - C cur) + 1)) (upd C cur 1) s3) as Hks3
    by (eapply kspin_same; [exact Hks2|apply same_spin_wchans]).
  wp_step. apply (wp_deref _ lk); [done|].
  wp_apply (spinlock_release_spec me cur [RunqueueLock me] [] _ _ s3 lk); [destruct Hr2; by constructor|exact Hks3|set_solver| |rewrite upd_eq; lia|].
  { assert (splk_val s3 lk = splk_val s2 lk) as -> by (by destruct lk). apply (splk_some s s2); [congruence|done]. }
  intros _ s4 [Hks4 Hc4]. cbn [app] in Hks4. rewrite upd_eq in Hks4.
  assert (core s4 = set_wchans (<[w := Wchan (wc_name wc) (wc_threads wc ++ [cur]) (wc_index wc)]> (wchans s)) (core s)) as Hc4'.
  { rewrite Hc4. unfold s3. rewrite core_wchans, Hc2, Hc1. f_equal. f_equal. change (wchans (core s2) = wchans (core s)). by rewrite Hc2, Hc1. }
  assert (threads (core s4) !! cur = Some tc) as Htc4 by (by rewrite Hc4'). destruct (thread_of_core _ _ _ Htc4) as (t4 & Ht4 & Et4).
  assert (cpus (core s4) !! me = Some (er_cpu k)) as Hkc4 by (by rewrite Hc4'). destruct (cpu_of_core _ _ _ Hkc4) as (k4 & Hk4 & Ek4).
  wp_step. apply (wp_thread_at cur t4); [done|]. wp_step. apply (wp_thread_put cur t4); [done|]. set (s5 := set_threads _ s4).
  wp_step. apply (wp_cpu_at me k4); [done|]. wp_step. apply (wp_cpu_put me k4); [done|]. set (s6 := set_cpus _ s5).
  assert (same_spin s4 s5) as Ss5 by (apply (same_spin_threads s4 cur t4); [done|done|done|right; k_simpl; exact EC]).
  assert (same_spin s5 s6) as Ss6 by (by apply (same_spin_cpus s5 me k4)).
  assert (core s6 = c_sleep me cur w kt (core s)) as Hc6.
  { unfold s6. rewrite (core_cpus s5). assert (core s5 = set_threads (<[cur := er_thread (set_t_state S_SLEEP (set_t_cont kt (set_t_spl (C cur) (set_t_wchan w t4))))]> (threads (core s4))) (core s4)) as ->
      by apply core_threads. unfold c_sleep. change (wchans (core s)) with (wchans s). rewrite Hw, Htc, Hkc, Hc4', Ek4, Et4. done. }
  assert (running me cur s4) as Hr4.
  { eapply running_core; [|exact Hc4]. destruct Hr2. by constructor. }
  wp_step. wp_apply (pick_settled me cur (upd D cur 1) (upd C cur 1) s6 (set_c_isidle true (er_cpu k))).
  - eapply running_same; [|exact Ss6|..].
    + eapply running_same; [exact Hr4|exact Ss5|unfold s5; k_simpl; rewrite lookup_insert_eq; by eexists|by eexists].
    + unfold s6, s5. k_simpl. rewrite lookup_insert_eq. by eexists.
    + unfold s6. k_simpl. rewrite lookup_insert_eq. by eexists.
  - eapply kspin_same; [|exact Ss6]. eapply kspin_same; [|exact Ss5]. eapply kspin_ext; [| |exact Hks4]; [|done].
    intros x. rewrite !upd_back, upd_eq. unfold upd. case_bool_decide; [|done]. lia.
  - rewrite Hc6. by apply (kbase_sleep D C (core s) me (er_cpu k) w wc).
  - rewrite Hc6. by apply (cinv_sleep (core s) me (er_cpu k) w wc).
  - unfold s6. rewrite (core_cpus s5). k_simpl. rewrite lookup_insert_eq. by rewrite Ek4.
  - done.
  - done.
  - intros _ s7 [Hc7 Hset]. wp_step. rewrite Hc6 in Hc7. done.
Qed.

(** Giving up the cpu. *)
Lemma thread_yield_spec me D C s k : settled D C s -> cpus s !! me = Some k -> c_isidle k = false ->
  wp (thread_yield me) (fun b s' => (exists D' C', settled D' C' s') /\
    core s' = if bool_decide (c_runqueue k = []) then core s else c_pick me (c_yield me (c_curthread k) (core s))) s.
Proof.
  intros [Hs B I] Hk Hidle. pose proof (cinv_running s me k I Hk) as Hr. set (cur := c_curthread k) in *.
  assert (cpus (core s) !! me = Some (er_cpu k)) as Hkc by (unfold core; k_simpl; by rewrite lookup_fmap, Hk).
  destruct (ci_cpu _ I me _ Hkc) as (_ & Hz & tc & Htc & Hcpu & Hid). cbn [er_cpu c_curthread c_isidle] in *. fold cur in Htc.
  assert (t_state tc = S_RUN) as Hst by (by apply Hid). destruct (kb_run _ _ _ B cur tc Htc Hst) as [ED EC].
  unfold thread_yield, thread_switch. wp_step. wp_apply (splhigh_spec me cur [] D C s Hr (Hs me) EC). intros spl s1 (-> & Hks1 & Hc1).
  replace (D cur + (1 - C cur)) with 1 in Hks1 by lia.
  pose proof (running_core _ _ _ _ Hr Hc1) as Hr1. destruct (core_cpu s s1 me k Hc1 Hk) as (k1 & Hk1 & Ek1).
  assert (c_curthread k1 = cur /\ c_isidle k1 = false) as [Ecur1 Eidle1].
  { split; [change (c_curthread (er_cpu k1) = cur)|change (c_isidle (er_cpu k1) = false)]; by rewrite Ek1. }
  wp_step. apply (wp_cpu_at me k1); [done|]. rewrite Eidle1, Ecur1. wp_step.
  wp_apply (spinlock_acquire_spec me cur [] _ _ s1 (RunqueueLock me) Hr1 Hks1); [apply not_elem_of_nil|cbn [splk_val]; rewrite Hk1; by eexists|].
  intros _ s2 [Hks2 Hc2]. rewrite upd_eq in Hks2. pose proof (running_core _ _ _ _ Hr1 Hc2) as Hr2.
  assert (cpus (core s2) !! me = Some (er_cpu k)) as Hkc2 by congruence. destruct (cpu_of_core _ _ _ Hkc2) as (k2 & Hk2 & Ek2).
  assert (c_runqueue k2 = c_runqueue k) as Erq by (change (c_runqueue (er_cpu k2) = c_runqueue k); by rewrite <- Ek2).
  wp_step. apply (wp_cpu_at me k2); [done|]. rewrite (bool_decide_eq_true_2 (S_READY = S_READY)) by done. rewrite Erq. cbn [andb].
  destruct (bool_decide (c_runqueue k = [])) eqn:Eempty.
  - wp_step. wp_apply (spinlock_release_spec me cur [] [] _ _ s2 (RunqueueLock me) Hr2 Hks2); [apply not_elem_of_nil|cbn [splk_val]; rewrite Hk2; by eexists|rewrite upd_eq; lia|].
    intros _ s3 [Hks3 Hc3]. rewrite upd_eq in Hks3. wp_step.
    wp_apply (splx_spec me cur [] _ _ s3 (C cur)); [by eapply running_core|exact Hks3|by rewrite upd_eq|done|rewrite upd_eq; lia|].
    intros _ s4 [Hks4 Hc4]. wp_step. assert (core s4 = core s) as E by congruence. split; [|done]. exists D, C. constructor; [|by rewrite E|by rewrite E].
    intros me'. eapply kspin_nil, kspin_ext; [| |exact Hks4]; intros x; rewrite ?upd_back, ?upd_eq; unfold upd; repeat case_bool_decide; subst; lia || done.
  - assert (threads (core s2) !! cur = Some tc) as Htc2 by congruence. destruct (thread_of_core _ _ _ Htc2) as (t2 & Ht2 & Et2).
    assert (t_cpu t2 = me) as Ecpu by (change (t_cpu (er_thread t2) = me); by rewrite <- Et2).
    wp_step. unfold thread_make_runnable. wp_step. apply (wp_thread_at cur t2); [done|]. rewrite Ecpu. wp_step. wp_step.
    apply (wp_spinlock_do_i_hold me _ _ _ s2 (RunqueueLock me) _ Hks2); [apply Hr|cbn [splk_val]; rewrite Hk2; by eexists|].
    rewrite bool_decide_eq_true_2 by apply list_elem_of_here. apply wp_kassert; [done|].
    wp_step. apply (wp_thread_at cur t2); [done|]. wp_step. apply (wp_thread_put cur t2); [done|]. set (s3 := set_threads _ s2).
    wp_step. apply (wp_cpu_at me k2); [done|]. wp_step. apply (wp_cpu_put me k2); [done|]. set (s4 := set_cpus _ s3).
    assert (c_isidle k2 = false) as -> by (change (c_isidle (er_cpu k2) = false); by rewrite <- Ek2). wp_step. wp_step. wp_step.
    wp_step. apply (wp_thread_at cur (set_t_state S_READY t2)); [apply lookup_insert_eq|]. wp_step. apply (wp_thread_put cur (set_t_state S_READY t2)); [apply lookup_insert_eq|].
    set (s5 := set_threads _ s4). wp_step. apply (wp_cpu_at me (set_c_runqueue (c_runqueue k2 ++ [cur]) k2)); [apply lookup_insert_eq|].
    wp_step. eapply wp_cpu_put; [apply lookup_insert_eq|]. set (s6 := set_cpus _ s5).
    assert (same_spin s2 s3) as S3 by (apply (same_spin_threads s2 cur t2); eauto). assert (same_spin s3 s4) as S4 by (by apply (same_spin_cpus s3 me k2)).
    assert (same_spin s4 s5) as S5 by (apply (same_spin_threads s4 cur (set_t_state S_READY t2)); [apply lookup_insert_eq|done|done|right; k_simpl; exact EC]).
    assert (same_spin s5 s6) as S6 by (apply (same_spin_cpus s5 me (set_c_runqueue (c_runqueue k2 ++ [cur]) k2)); [apply lookup_insert_eq|done..]).
    assert (core s6 = c_yield me cur (core s)) as Hc6.
    { unfold s6. rewrite (core_cpus s5). unfold s5. rewrite (core_threads s4). unfold s4. rewrite (core_cpus s3). unfold s3. rewrite (core_threads s2).
      rewrite Hc2, Hc1. unfold c_yield. rewrite Htc, Hkc. unfold set_cpus, set_threads. k_simpl. rewrite !insert_insert_eq. rewrite Et2, Ek2. done. }
    assert (is_Some (cpus s3 !! me)) as H3 by (by eexists). assert (is_Some (threads s3 !! cur)) as H3t by (unfold s3; k_simpl; rewrite lookup_insert_eq; by eexists).
    assert (is_Some (cpus s4 !! me)) as H4 by (unfold s4; k_simpl; rewrite lookup_insert_eq; by eexists).
    assert (is_Some (threads s5 !! cur)) as H5 by (unfold s5; k_simpl; rewrite lookup_insert_eq; by eexists).
    assert (is_Some (cpus s6 !! me)) as H6 by (unfold s6; k_simpl; rewrite lookup_insert_eq; by eexists).
    wp_step. wp_apply (pick_settled me cur (upd D cur 1) (upd C cur 1) s6 (set_c_isidle true (set_c_runqueue (c_runqueue k ++ [cur]) (er_cpu k)))).
    + eapply running_same; [eapply running_same; [eapply running_same; [eapply running_same; [exact Hr2|exact S3|done|done]|exact S4|done|done]|exact S5|done|done]|exact S6|done|done].
    + eapply kspin_same; [eapply kspin_same; [eapply kspin_same; [eapply kspin_same; [|exact S3]|exact S4]|exact S5]|exact S6].
      eapply kspin_ext; [| |exact Hks2]; [|done]. intros x. rewrite !upd_back, upd_eq. unfold upd. case_bool_decide; [|done]. lia.
    + rewrite Hc6. by apply (kbase_yield D C (core s) me (er_cpu k)).
    + rewrite Hc6. by apply (cinv_yield (core s) me (er_cpu k)).
    + rewrite Hc6. unfold c_yield. rewrite Htc, Hkc. k_simpl. apply lookup_insert_eq.
    + done.
    + done.
    + intros _ s7 [Hc7 Hset]. wp_step. rewrite Hc6 in Hc7. done.
Qed.
End switches.
