(* ===== verification/SynchSpec.v ===== *)
(** * The synchronisation operations on the core

    Each operation of kern/thread/synch.c, run on a settled state, acts on
    the core as one atomic step and leaves a settled state. *)

From S2P Require Import Prelude KHeap Array ThreadState Thread ThreadSwitch ThreadInv Synch.

Lemma cinv_set_sems m s : cinv s -> cinv (set_sems m s).
Proof. intros []. by constructor. Qed.
Lemma cinv_set_slocks m s : cinv s -> cinv (set_slocks m s).
Proof. intros []. by constructor. Qed.
Lemma kbase_set_sems D C m s : kbase D C s -> kbase D C (set_sems m s).
Proof. intros []. by constructor. Qed.
Lemma kbase_set_slocks D C m s : kbase D C s -> kbase D C (set_slocks m s).
Proof. intros []. by constructor. Qed.

(** Cpu [me] runs thread [cur]. *)
Definition on_cpu (me cur : Z) (s : kst) : Prop :=
  exists k, cpus s !! me = Some k /\ c_isidle k = false /\ c_curthread k = cur.

(** Inside the critical sections of the spinlocks [L]. *)
Record inside (me cur : Z) (L : list splk) (D C : Z -> Z) (s : kst) : Prop := {
  in_spin : kspin me L (upd D cur (D cur + Z.of_nat (length L))) C s;
  in_base : kbase D C (core s);
  in_inv : cinv (core s);
  in_cpu : on_cpu me cur s;
  in_some : forall lk, lk ∈ L -> is_Some (splk_val s lk);
}.

Lemma on_cpu_running me cur s : on_cpu me cur s -> cinv (core s) -> running me cur s.
Proof. intros (k & Hk & _ & <-) I. by apply cinv_running. Qed.

Lemma on_cpu_core me cur s s' : on_cpu me cur s -> core s' = core s -> on_cpu me cur s'.
Proof.
  intros (k & Hk & Hi & Hc) E. destruct (core_cpu s s' me k E Hk) as (k' & Hk' & Ek). exists k'. split; [done|].
  split; [change (c_isidle (er_cpu k') = false)|change (c_curthread (er_cpu k') = cur)]; by rewrite Ek.
Qed.

Lemma on_cpu_of_core me cur s : on_cpu me cur (core s) <-> on_cpu me cur s.
Proof.
  unfold on_cpu, core. k_simpl. setoid_rewrite lookup_fmap. split.
  - intros (kc & (k & Hk & ->)%fmap_Some & Hi & Hc). by exists k.
  - intros (k & Hk & Hi & Hc). exists (er_cpu k). by rewrite Hk.
Qed.

Lemma ready_on_cpu me cur x s : on_cpu me cur s -> on_cpu me cur (c_ready x s).
Proof.
  intros (k & Hk & Hi & Hc). unfold c_ready, on_cpu. repeat (case_match; k_simpl); eauto.
  match goal with |- context [<[?a := _]> _ !! _] => destruct (decide (a = me)) as [E|] end; [|exists k; by rewrite lookup_insert_ne].
  rewrite E in *. rewrite lookup_insert_eq. eexists. split; [done|]. k_simpl. split; congruence.
Qed.

Lemma ready_splk x l s : is_Some (splk_val s l) -> is_Some (splk_val (c_ready x s) l).
Proof.
  intros Hl. unfold c_ready. destruct l; cbn [splk_val] in *; repeat (case_match; k_simpl); try done;
    match goal with |- is_Some (_ <$> <[?a := _]> _ !! ?b) => destruct (decide (a = b)) as [->|]; [rewrite lookup_insert_eq; by eexists|by rewrite lookup_insert_ne] end.
Qed.

Lemma wakeone_on_cpu me cur w s : on_cpu me cur s -> on_cpu me cur (c_wakeone w s).
Proof. intros Hc. unfold c_wakeone. destruct (wchans s !! w) as [[n [|x l] i]|]; [done|by apply ready_on_cpu|done]. Qed.
Lemma wakeone_splk w l s : is_Some (splk_val s l) -> is_Some (splk_val (c_wakeone w s) l).
Proof. intros Hl. unfold c_wakeone. destruct (wchans s !! w) as [[n [|x l'] i]|]; [done| |done]. apply ready_splk. by destruct l. Qed.
Lemma wakeall_on_cpu me cur w s : on_cpu me cur s -> on_cpu me cur (c_wakeall w s).
Proof.
  intros Hc. unfold c_wakeall. destruct (wchans s !! w) as [[n l i]|]; [|done].
  assert (on_cpu me cur (set_wchans (<[w := Wchan n [] i]> (wchans s)) s)) as Hc1 by done. revert Hc1. generalize (set_wchans (<[w := Wchan n [] i]> (wchans s)) s).
  induction l as [|x l IH]; intros s1 Hc1; [done|]. by apply IH, ready_on_cpu.
Qed.
Lemma wakeall_splk w lk s : is_Some (splk_val s lk) -> is_Some (splk_val (c_wakeall w s) lk).
Proof.
  intros Hc. unfold c_wakeall. destruct (wchans s !! w) as [[n l i]|]; [|done].
  assert (is_Some (splk_val (set_wchans (<[w := Wchan n [] i]> (wchans s)) s) lk)) as Hc1 by (by destruct lk). revert Hc1. generalize (set_wchans (<[w := Wchan n [] i]> (wchans s)) s).
  induction l as [|x l IH]; intros s1 Hc1; [done|]. by apply IH, ready_splk.
Qed.

Section ops.
Context `{ThreadHeap}.

Lemma settled_inside me cur D C s : settled D C s -> on_cpu me cur s -> inside me cur [] D C s.
Proof.
  intros [Hs B I] Hc. constructor; [|done|done|done|by intros ? ?%not_elem_of_nil]. eapply kspin_ext; [| |apply (Hs me)]; [|done].
  intros x. cbn [length]. rewrite Z.add_0_r. symmetry. apply upd_same.
Qed.

Lemma inside_settled me cur D C s : inside me cur [] D C s -> settled D C s.
Proof.
  intros [Hks B I _ _]. constructor; [|done|done]. intros me'. eapply kspin_nil, kspin_ext; [| |exact Hks]; [|done].
  intros x. cbn [length]. rewrite Z.add_0_r. apply upd_same.
Qed.

Lemma enter_spec me cur L D C s lk : inside me cur L D C s -> lk ∉ L -> is_Some (splk_val s lk) ->
  wp (spinlock_acquire me lk) (fun _ s' => inside me cur (lk :: L) D C s' /\ core s' = core s) s.
Proof.
  intros [Hks B I Hcpu Hin] Hn Hsome. wp_apply (spinlock_acquire_spec me cur L _ C s lk); [by apply on_cpu_running|exact Hks|done|done|].
  intros _ s1 [Hks1 Hc]. split; [|done]. constructor; [|by rewrite Hc|by rewrite Hc|by eapply on_cpu_core|].
  - eapply kspin_ext; [| |exact Hks1]; [|done]. intros x. rewrite upd_back, upd_eq. cbn [length]. f_equal. lia.
  - intros l [->|Hl]%elem_of_cons; eapply splk_some; eauto.
Qed.

Lemma cur_count me cur L D C s : inside me cur L D C s -> 0 <= D cur.
Proof.
  intros [_ B I (k & Hk & Hi & <-) _]. assert (cpus (core s) !! me = Some (er_cpu k)) as Hkc by (unfold core; k_simpl; by rewrite lookup_fmap, Hk).
  destruct (ci_cpu _ I me _ Hkc) as (_ & _ & tc & Htc & _ & Hid). cbn [er_cpu c_curthread c_isidle] in *.
  destruct (kb_run _ _ _ B _ tc Htc) as [ED Hc]; [by apply Hid|]. lia.
Qed.

Lemma leave_spec me cur L D C s lk : inside me cur (lk :: L) D C s -> lk ∉ L ->
  wp (spinlock_release me lk) (fun _ s' => inside me cur L D C s' /\ core s' = core s) s.
Proof.
  intros IN Hn. pose proof (cur_count _ _ _ _ _ _ IN) as HD. destruct IN as [Hks B I Hcpu Hin]. assert (running me cur s) as Hr by (by apply on_cpu_running).
  wp_apply (spinlock_release_spec me cur [] L _ C s lk); [done|exact Hks|done|apply Hin, list_elem_of_here|rewrite upd_eq; cbn [length]; lia|].
  intros _ s1 [Hks1 Hc]. split; [|done]. constructor; [|by rewrite Hc|by rewrite Hc|by eapply on_cpu_core|].
  - eapply kspin_ext; [| |exact Hks1]; [|done]. intros x. rewrite upd_back, upd_eq. cbn [length]. f_equal. lia.
  - intros l Hl. eapply splk_some; [done|]. apply Hin. by apply list_elem_of_further.
Qed.

(** Waking up inside a critical section. *)
Lemma wakeone_inside me cur L D C s lk w : inside me cur L D C s -> low L -> lk ∈ L -> is_Some (wchans s !! w) ->
  wp (wchan_wakeone me w lk) (fun _ s' => inside me cur L D C s' /\ core s' = c_wakeone w (core s)) s.
Proof.
  intros [Hks B I Hcpu Hin] Hlow Hlk [wc Hw]. assert (running me cur s) as Hr by (by apply on_cpu_running).
  wp_apply (wchan_wakeone_spec me cur L _ C s w wc lk); [done|exact Hks|done|done|by apply Hin|done|by eapply sleepers_listed|].
  intros _ s1 [[Hks1 Hc1] Hr1]. split; [|done]. constructor; [done|rewrite Hc1; by apply kbase_wakeone|rewrite Hc1; by apply cinv_wakeone| |].
  - apply on_cpu_of_core. rewrite Hc1. by apply wakeone_on_cpu, on_cpu_of_core.
  - intros l Hl. apply splk_some_core. rewrite Hc1. apply wakeone_splk. by apply (proj1 (splk_some_core s l)), Hin.
Qed.

Lemma wakeall_inside me cur L D C s lk w : inside me cur L D C s -> low L -> lk ∈ L -> is_Some (wchans s !! w) ->
  wp (wchan_wakeall me w lk) (fun _ s' => inside me cur L D C s' /\ core s' = c_wakeall w (core s)) s.
Proof.
  intros [Hks B I Hcpu Hin] Hlow Hlk [wc Hw]. assert (running me cur s) as Hr by (by apply on_cpu_running).
  wp_apply (wchan_wakeall_spec me cur L _ C s w wc lk); [done|exact Hks|done|done|by apply Hin|done|by eapply sleepers_listed|].
  intros _ s1 [[Hks1 Hc1] Hr1]. split; [|done]. constructor; [done|rewrite Hc1; by apply kbase_wakeall|rewrite Hc1; by apply cinv_wakeall| |].
  - apply on_cpu_of_core. rewrite Hc1. by apply wakeall_on_cpu, on_cpu_of_core.
  - intros l Hl. apply splk_some_core. rewrite Hc1. apply wakeall_splk. by apply (proj1 (splk_some_core s l)), Hin.
Qed.

(** Sleeping inside a critical section. *)
Lemma sleep_inside me cur D C s lk w kt : inside me cur [lk] D C s -> low [lk] -> is_Some (wchans s !! w) ->
  wp (wchan_sleep me w lk kt) (fun _ s' => (exists D' C', settled D' C' s') /\ core s' = c_pick me (c_sleep me cur w kt (core s))) s.
Proof.
  intros [Hks B I Hcpu Hin] Hlow [wc Hw]. assert (running me cur s) as Hr by (by apply on_cpu_running).
  assert (is_Some (splk_val s lk)) as Hsome by apply Hin, list_elem_of_here.
  pose proof Hr as [Hme _ [t Ht] _]. destruct Hcpu as (k & Hk & Hi & <-). unfold wchan_sleep.
  wp_step. apply (wp_curthread me (c_curthread k)); [done|]. wp_step. apply (wp_thread_at _ t); [done|].
  wp_step. apply wp_kassert.
  { destruct (ci_th _ I (c_curthread k) (er_thread t)) as [Hint _]; [unfold core; k_simpl; by rewrite lookup_fmap, Ht|]. cbn [er_thread t_in_interrupt] in Hint. by rewrite Hint. }
  wp_step. apply (wp_spinlock_do_i_hold me _ _ _ s lk _ Hks); [done|done|]. rewrite bool_decide_eq_true_2 by apply list_elem_of_here.
  wp_step. apply wp_kassert; [done|]. wp_step. apply (wp_cpu_at me k); [done|]. wp_step. apply wp_kassert.
  { rewrite (ks_count _ _ _ _ _ Hks me k Hk). by rewrite bool_decide_eq_true_2. }
  wp_apply (thread_switch_sleep me D C s k w wc lk kt); [done|done|done|done|done| |done|done|].
  - intros ->. destruct (Hlow me) as [Hl _]. apply Hl, list_elem_of_here.
  - intros b s' (_ & Hc & Hset). done.
Qed.

(** Changing the data of an object inside its critical section. *)
Lemma inside_sem me cur L D C s p x x' : inside me cur L D C s -> sems s !! p = Some x -> sem_lock x' = sem_lock x ->
  inside me cur L D C (set_sems (<[p := x']> (sems s)) s).
Proof.
  intros [Hks B I Hcpu Hin] Hp E. constructor; [eapply kspin_same; [exact Hks|by apply (same_spin_sems s p x)]| | |done|].
  - rewrite core_sems. by apply kbase_set_sems.
  - rewrite core_sems. by apply cinv_set_sems.
  - intros l Hl. specialize (Hin l Hl). destruct l; cbn [splk_val] in *; k_simpl; try done. rewrite fmap_is_Some in *. by apply lookup_insert_is_Some'; right.
Qed.

Lemma inside_lock me cur L D C s p x x' : inside me cur L D C s -> slocks s !! p = Some x -> lk_spinlock x' = lk_spinlock x ->
  inside me cur L D C (set_slocks (<[p := x']> (slocks s)) s).
Proof.
  intros [Hks B I Hcpu Hin] Hp E. constructor; [eapply kspin_same; [exact Hks|by apply (same_spin_slocks s p x)]| | |done|].
  - rewrite core_slocks. by apply kbase_set_slocks.
  - rewrite core_slocks. by apply cinv_set_slocks.
  - intros l Hl. specialize (Hin l Hl). destruct l; cbn [splk_val] in *; k_simpl; try done. rewrite fmap_is_Some in *. by apply lookup_insert_is_Some'; right.
Qed.

Lemma low_sem p L : low L -> low (SemLock p :: L).
Proof. intros HL c. destruct (HL c). split; by rewrite not_elem_of_cons. Qed.
Lemma low_lk p L : low L -> low (LkSpinlock p :: L).
Proof. intros HL c. destruct (HL c). split; by rewrite not_elem_of_cons. Qed.
Lemma low_cv p L : low L -> low (CvSpinlock p :: L).
Proof. intros HL c. destruct (HL c). split; by rewrite not_elem_of_cons. Qed.
Lemma low_nil : low [].
Proof. intros c. split; apply not_elem_of_nil. Qed.

(** The semaphore's count on the core. *)
Definition c_setcount (p n : Z) (s : kst) : kst :=
  match sems s !! p with Some x => set_sems (<[p := Semaphore (sem_name x) (sem_wchan x) (sem_lock x) n]> (sems s)) s | None => s end.
Definition c_setlock (p b h : Z) (s : kst) : kst :=
  match slocks s !! p with Some x => set_slocks (<[p := Lock (lk_name x) b h (lk_spinlock x) (lk_wchan x)]> (slocks s)) s | None => s end.

Definition slept (s' : kst) (f : kst -> kst) (s : kst) : Prop := (exists D' C', settled D' C' s') /\ core s' = f (core s).

Lemma P_enter_spec me cur D C s sem x : settled D C s -> on_cpu me cur s -> sems (core s) !! sem = Some x -> 0 <= sem_count x -> is_Some (wchans s !! sem_wchan x) ->
  wp (spinlock_acquire me (SemLock sem) ;;; P_loop me sem) (fun b s' =>
    if sem_count x =? 0 then b = false /\ slept s' (fun c => c_pick me (c_sleep me cur (sem_wchan x) (CP sem) c)) s
    else b = true /\ settled D C s' /\ core s' = c_setcount sem (sem_count x - 1) (core s)) s.
Proof.
  intros Hs Hcpu Hx Hpos Hw. destruct (sem_of_core _ _ _ Hx) as (x0 & Hx0 & ->). cbn [er_sem sem_count sem_wchan] in *.
  wp_step. wp_apply (enter_spec me cur [] D C s (SemLock sem)); [by apply settled_inside|apply not_elem_of_nil|cbn [splk_val]; rewrite Hx0; by eexists|].
  intros _ s1 [IN Hc1]. assert (sems (core s1) !! sem = Some (er_sem x0)) as Hx1 by congruence. destruct (sem_of_core _ _ _ Hx1) as (x1 & Hx1' & E1).
  assert (sem_count x1 = sem_count x0 /\ sem_wchan x1 = sem_wchan x0) as [Ec Ew] by (unfold er_sem in E1; split; congruence).
  unfold P_loop. wp_step. apply (wp_sem_at sem x1); [done|]. rewrite Ec, Ew. destruct (sem_count x0 =? 0) eqn:E0; boolify.
  - wp_step. wp_apply (sleep_inside me cur D C s1 (SemLock sem)); [done|apply low_sem, low_nil| |].
    + change (is_Some (wchans (core s1) !! sem_wchan x0)). by rewrite Hc1.
    + intros _ s2 [Hset Hc2]. wp_step. split; [done|]. split; [done|]. by rewrite Hc2, Hc1.
  - wp_step. apply wp_kassert; [apply Z.ltb_lt; lia|]. wp_step. apply (wp_sem_put sem x1); [done|]. wp_step.
    wp_apply (leave_spec me cur [] D C); [by apply (inside_sem _ _ _ _ _ s1 sem x1)|apply not_elem_of_nil|]. intros _ s2 [IN2 Hc2]. wp_step.
    split; [done|]. split; [by eapply inside_settled|]. rewrite Hc2, core_sems, Hc1. unfold c_setcount. rewrite Hx. unfold er_sem in *. cbn. congruence.
Qed.

Lemma V_spec me cur D C s sem x : settled D C s -> on_cpu me cur s -> sem <> 0 -> sems (core s) !! sem = Some x -> 0 <= sem_count x < 2 ^ 32 - 1 ->
  is_Some (wchans s !! sem_wchan x) ->
  wp (V me sem) (fun _ s' => settled D C s' /\ core s' = c_wakeone (sem_wchan x) (c_setcount sem (sem_count x + 1) (core s))) s.
Proof.
  intros Hs Hcpu Hne Hx Hpos Hw. destruct (sem_of_core _ _ _ Hx) as (x0 & Hx0 & ->). cbn [er_sem sem_count sem_wchan] in *.
  unfold V. wp_step. apply wp_kassert; [by rewrite (proj2 (Z.eqb_neq sem 0))|].
  wp_step. wp_apply (enter_spec me cur [] D C s (SemLock sem)); [by apply settled_inside|apply not_elem_of_nil|cbn [splk_val]; rewrite Hx0; by eexists|].
  intros _ s1 [IN Hc1]. assert (sems (core s1) !! sem = Some (er_sem x0)) as Hx1 by congruence. destruct (sem_of_core _ _ _ Hx1) as (x1 & Hx1' & E1).
  assert (sem_count x1 = sem_count x0 /\ sem_wchan x1 = sem_wchan x0) as [Ec Ew] by (unfold er_sem in E1; split; congruence).
  wp_step. apply (wp_sem_at sem x1); [done|]. rewrite Ec, Ew, u32_id by lia. wp_step. apply (wp_sem_put sem x1); [done|].
  wp_step. apply wp_kassert; [apply Z.ltb_lt; lia|]. wp_step. set (s2 := set_sems _ s1).
  assert (inside me cur [SemLock sem] D C s2) as IN2 by (by apply (inside_sem _ _ _ _ _ s1 sem x1)).
  wp_apply (wakeone_inside me cur _ D C s2 (SemLock sem)); [exact IN2|apply low_sem, low_nil|apply list_elem_of_here| |].
  { change (is_Some (wchans (core s1) !! sem_wchan x0)). by rewrite Hc1. }
  intros _ s3 [IN3 Hc3]. wp_apply (leave_spec me cur [] D C s3 (SemLock sem)); [exact IN3|apply not_elem_of_nil|]. intros _ s4 [IN4 Hc4].
  split; [by eapply inside_settled|]. rewrite Hc4, Hc3. f_equal. unfold s2. rewrite core_sems, Hc1. unfold c_setcount. rewrite Hx. unfold er_sem in *. cbn. congruence.
Qed.

(** The fields of a lock that its spinlock does not hide. *)
Lemma lock_after s s1 lk x0 : slocks s !! lk = Some x0 -> core s1 = core s ->
  exists x1, slocks s1 !! lk = Some x1 /\ er_lock x1 = er_lock x0 /\ lk_lock x1 = lk_lock x0 /\ lk_holder x1 = lk_holder x0 /\ lk_wchan x1 = lk_wchan x0.
Proof.
  intros Hx Hc. assert (slocks (core s1) !! lk = Some (er_lock x0)) as H1.
  { rewrite Hc. unfold core. k_simpl. by rewrite lookup_fmap, Hx. }
  destruct (lock_of_core _ _ _ H1) as (x1 & ? & E). exists x1. unfold er_lock in *. repeat split; congruence.
Qed.

Lemma inside_running me cur L D C s : inside me cur L D C s -> running me cur s.
Proof. intros [_ _ I Hcpu _]. by apply on_cpu_running. Qed.

Lemma acquire_enter_spec me cur D C s lk x : settled D C s -> on_cpu me cur s -> slocks (core s) !! lk = Some x -> is_Some (wchans s !! lk_wchan x) ->
  wp (spinlock_acquire me (LkSpinlock lk) ;;; acquire_loop me lk) (fun b s' =>
    if lk_lock x =? 1 then b = false /\ slept s' (fun c => c_pick me (c_sleep me cur (lk_wchan x) (Cacquire lk) c)) s
    else b = true /\ settled D C s' /\ core s' = c_setlock lk 1 cur (core s)) s.
Proof.
  intros Hs Hcpu Hx Hw. destruct (lock_of_core _ _ _ Hx) as (x0 & Hx0 & ->). cbn [er_lock lk_lock lk_wchan] in *.
  wp_step. wp_apply (enter_spec me cur [] D C s (LkSpinlock lk)); [by apply settled_inside|apply not_elem_of_nil|cbn [splk_val]; rewrite Hx0; by eexists|].
  intros _ s1 [IN Hc1]. destruct (lock_after s s1 lk x0) as (x1 & Hx1 & E1 & Ec & _ & Ew); [done..|].
  unfold acquire_loop. wp_step. apply (wp_lock_at lk x1); [done|]. rewrite Ec, Ew. destruct (lk_lock x0 =? 1) eqn:E0; boolify.
  - wp_step. wp_apply (sleep_inside me cur D C s1 (LkSpinlock lk)); [done|apply low_lk, low_nil| |].
    + change (is_Some (wchans (core s1) !! lk_wchan x0)). by rewrite Hc1.
    + intros _ s2 [Hset Hc2]. wp_step. split; [done|]. split; [done|]. by rewrite Hc2, Hc1.
  - wp_step. apply (wp_curthread me cur); [by eapply inside_running|].
    wp_step. apply (wp_lock_put lk x1); [done|]. wp_step.
    wp_apply (leave_spec me cur [] D C); [by apply (inside_lock _ _ _ _ _ s1 lk x1)|apply not_elem_of_nil|]. intros _ s2 [IN2 Hc2]. wp_step.
    split; [done|]. split; [by eapply inside_settled|]. rewrite Hc2, core_slocks, Hc1. unfold c_setlock. rewrite Hx. unfold er_lock in *. cbn. congruence.
Qed.

Lemma lock_release_inside me cur L D C s lk x : inside me cur L D C s -> low L -> LkSpinlock lk ∉ L -> lk <> 0 ->
  slocks (core s) !! lk = Some x -> lk_lock x = 1 -> lk_holder x = cur -> is_Some (wchans s !! lk_wchan x) ->
  wp (lock_release me lk) (fun _ s' => inside me cur L D C s' /\ core s' = c_wakeone (lk_wchan x) (c_setlock lk 0 0 (core s))) s.
Proof.
  intros IN0 HL Hn Hne Hx H1 Hh Hw. destruct (lock_of_core _ _ _ Hx) as (x0 & Hx0 & ->). cbn [er_lock lk_lock lk_wchan lk_holder] in *.
  unfold lock_release. wp_step. apply wp_kassert; [by rewrite (proj2 (Z.eqb_neq lk 0))|].
  wp_step. apply (wp_lock_at lk x0); [done|]. wp_step. apply wp_kassert; [by apply Z.eqb_eq|].
  wp_step. apply (wp_curthread me cur); [by eapply inside_running|]. wp_step. apply wp_kassert; [apply Z.eqb_eq; congruence|].
  wp_step. wp_apply (enter_spec me cur L D C s (LkSpinlock lk)); [done|done|cbn [splk_val]; rewrite Hx0; by eexists|].
  intros _ s1 [IN Hc1]. destruct (lock_after s s1 lk x0) as (x1 & Hx1 & E1 & Ec & _ & Ew); [done..|].
  wp_step. apply (wp_lock_at lk x1); [done|]. rewrite Ew. wp_step. apply (wp_lock_put lk x1); [done|]. wp_step. set (s2 := set_slocks _ s1).
  assert (inside me cur (LkSpinlock lk :: L) D C s2) as IN2 by (by apply (inside_lock _ _ _ _ _ s1 lk x1)).
  wp_apply (wakeone_inside me cur _ D C s2 (LkSpinlock lk)); [exact IN2|by apply low_lk|apply list_elem_of_here| |].
  { change (is_Some (wchans (core s1) !! lk_wchan x0)). by rewrite Hc1. }
  intros _ s3 [IN3 Hc3]. wp_apply (leave_spec me cur L D C s3 (LkSpinlock lk)); [exact IN3|done|]. intros _ s4 [IN4 Hc4].
  split; [done|]. rewrite Hc4, Hc3. f_equal. unfold s2. rewrite core_slocks, Hc1. unfold c_setlock. rewrite Hx. unfold er_lock in *. cbn. congruence.
Qed.

Lemma lock_do_i_hold_spec me cur L D C s lk x : inside me cur L D C s -> LkSpinlock lk ∉ L -> lk <> 0 -> slocks (core s) !! lk = Some x ->
  wp (lock_do_i_hold me lk) (fun b s' => b = (lk_lock x =? 1) && (lk_holder x =? cur) /\ inside me cur L D C s' /\ core s' = core s) s.
Proof.
  intros IN0 Hn Hne Hx. destruct (lock_of_core _ _ _ Hx) as (x0 & Hx0 & ->). cbn [er_lock lk_lock lk_holder] in *.
  unfold lock_do_i_hold. wp_step. apply wp_kassert; [by rewrite (proj2 (Z.eqb_neq lk 0))|].
  wp_step. wp_apply (enter_spec me cur L D C s (LkSpinlock lk)); [done|done|cbn [splk_val]; rewrite Hx0; by eexists|].
  intros _ s1 [IN Hc1]. destruct (lock_after s s1 lk x0) as (x1 & Hx1 & E1 & Ec & Eh & Ew); [done..|].
  wp_step. apply (wp_lock_at lk x1); [done|]. wp_step. apply (wp_curthread me cur); [by eapply inside_running|]. rewrite Ec, Eh.
  wp_step. wp_apply (leave_spec me cur L D C s1 (LkSpinlock lk)); [exact IN|done|]. intros _ s4 [IN4 Hc4]. wp_step.
  split; [done|]. split; [done|]. congruence.
Qed.

(** What the pure operations leave alone. *)
Lemma ready_objects x s : sems (c_ready x s) = sems s /\ slocks (c_ready x s) = slocks s /\ cvs (c_ready x s) = cvs s /\ wchans (c_ready x s) = wchans s.
Proof. unfold c_ready. destruct (threads s !! x) as [t|]; [|done]. by destruct (cpus s !! t_cpu t). Qed.

Lemma wakeone_objects w s : sems (c_wakeone w s) = sems s /\ slocks (c_wakeone w s) = slocks s /\ cvs (c_wakeone w s) = cvs s.
Proof. unfold c_wakeone. destruct (wchans s !! w) as [[n [|x l] i]|]; [done| |done]. by destruct (ready_objects x (set_wchans (<[w:=Wchan n l i]> (wchans s)) s)) as (-> & -> & -> & _). Qed.

Lemma wakeone_wchans w s v : is_Some (wchans s !! v) -> is_Some (wchans (c_wakeone w s) !! v).
Proof.
  unfold c_wakeone. destruct (wchans s !! w) as [[n [|x l] i]|] eqn:Hw; [done| |done].
  destruct (ready_objects x (set_wchans (<[w:=Wchan n l i]> (wchans s)) s)) as (_ & _ & _ & ->). k_simpl. intros Hv. by apply lookup_insert_is_Some'; right.
Qed.

Lemma setlock_cvs p b h s : cvs (c_setlock p b h s) = cvs s.
Proof. unfold c_setlock. by destruct (slocks s !! p). Qed.
Lemma setlock_wchans p b h s : wchans (c_setlock p b h s) = wchans s.
Proof. unfold c_setlock. by destruct (slocks s !! p). Qed.

Lemma lock_release_spec me cur D C s lk x : settled D C s -> on_cpu me cur s -> lk <> 0 ->
  slocks (core s) !! lk = Some x -> lk_lock x = 1 -> lk_holder x = cur -> is_Some (wchans s !! lk_wchan x) ->
  wp (lock_release me lk) (fun _ s' => settled D C s' /\ core s' = c_wakeone (lk_wchan x) (c_setlock lk 0 0 (core s))) s.
Proof.
  intros Hs Hcpu Hne Hx H1 Hh Hw. eapply wp_mono; [apply (lock_release_inside me cur [] D C s lk x); try done|].
  - by apply settled_inside.
  - apply low_nil.
  - apply not_elem_of_nil.
  - intros _ s' [IN ->]. split; [by eapply inside_settled|done].
Qed.

Section held.
Variables (me cur lk : Z) (D C : Z -> Z) (s : kst) (x : lock).
Hypotheses (Hs : settled D C s) (Hcpu : on_cpu me cur s) (Hlk : lk <> 0) (Hx : slocks (core s) !! lk = Some x).
Hypotheses (H1 : lk_lock x = 1) (Hh : lk_holder x = cur).

(** [KASSERT(lock_do_i_hold(lock))] holds. *)
Lemma assert_held {A} (f : M kst A) Q : (forall s1, inside me cur [] D C s1 -> core s1 = core s -> wp f Q s1) ->
  wp (b <- lock_do_i_hold me lk ;; kassert b ;;; f) Q s.
Proof.
  intros Hf. wp_step. wp_apply (lock_do_i_hold_spec me cur [] D C s lk x); [by apply settled_inside|apply not_elem_of_nil|done|done|].
  intros b s1 (-> & IN & Hc). wp_step. apply wp_kassert; [by rewrite H1, Hh, !Z.eqb_refl|]. by apply Hf.
Qed.

Variables (cv : Z) (y : ThreadState.cv).
Hypotheses (Hcv : cv <> 0) (Hy : cvs (core s) !! cv = Some y) (Hw : is_Some (wchans s !! cv_wchan y)).

Lemma cv_at_spec Q s1 : cvs (core s1) = cvs (core s) -> (forall z, cv_wchan z = cv_wchan y -> Q z s1) -> wp (cv_at cv) Q s1.
Proof.
  intros E HQ. rewrite <- E in Hy. destruct (cv_of_core _ _ _ Hy) as (z & Hz & ->). apply (wp_cv_at cv z); [done|]. by apply HQ.
Qed.

Lemma cv_enter_spec s1 : inside me cur [] D C s1 -> core s1 = core s ->
  wp (spinlock_acquire me (CvSpinlock cv)) (fun _ s2 => inside me cur [CvSpinlock cv] D C s2 /\ core s2 = core s /\ is_Some (wchans s2 !! cv_wchan y)) s1.
Proof.
  intros IN Hc. wp_apply (enter_spec me cur [] D C s1 (CvSpinlock cv)); [done|apply not_elem_of_nil| |].
  - rewrite <- Hc in Hy. destruct (cv_of_core _ _ _ Hy) as (z & Hz & _). cbn [splk_val]. rewrite Hz. by eexists.
  - intros _ s2 [IN2 Hc2]. split; [done|]. split; [congruence|]. change (is_Some (wchans (core s2) !! cv_wchan y)). by rewrite Hc2, Hc.
Qed.

Lemma cv_signal_spec : wp (cv_signal me cv lk) (fun _ s' => settled D C s' /\ core s' = c_wakeone (cv_wchan y) (core s)) s.
Proof.
  unfold cv_signal. wp_step. apply wp_kassert; [by rewrite (proj2 (Z.eqb_neq cv 0))|]. apply assert_held. intros s1 IN1 Hc1.
  wp_step. wp_apply (cv_enter_spec s1); [done|done|]. intros _ s2 (IN2 & Hc2 & Hw2). wp_step. apply cv_at_spec; [by rewrite Hc2|]. intros z ->.
  wp_step. wp_apply (wakeone_inside me cur [CvSpinlock cv] D C s2 (CvSpinlock cv)); [done|apply low_cv, low_nil|apply list_elem_of_here|done|].
  intros _ s3 [IN3 Hc3]. wp_apply (leave_spec me cur [] D C s3 (CvSpinlock cv)); [done|apply not_elem_of_nil|].
  intros _ s4 [IN4 Hc4]. split; [by eapply inside_settled|]. by rewrite Hc4, Hc3, Hc2.
Qed.

Lemma cv_broadcast_spec : wp (cv_broadcast me cv lk) (fun _ s' => settled D C s' /\ core s' = c_wakeall (cv_wchan y) (core s)) s.
Proof.
  unfold cv_broadcast. wp_step. apply wp_kassert; [by rewrite (proj2 (Z.eqb_neq cv 0))|]. apply assert_held. intros s1 IN1 Hc1.
  wp_step. wp_apply (cv_enter_spec s1); [done|done|]. intros _ s2 (IN2 & Hc2 & Hw2). wp_step. apply cv_at_spec; [by rewrite Hc2|]. intros z ->.
  wp_step. wp_apply (wakeall_inside me cur [CvSpinlock cv] D C s2 (CvSpinlock cv)); [done|apply low_cv, low_nil|apply list_elem_of_here|done|].
  intros _ s3 [IN3 Hc3]. wp_apply (leave_spec me cur [] D C s3 (CvSpinlock cv)); [done|apply not_elem_of_nil|].
  intros _ s4 [IN4 Hc4]. split; [by eapply inside_settled|]. by rewrite Hc4, Hc3, Hc2.
Qed.

Lemma cv_wait_spec : is_Some (wchans s !! lk_wchan x) -> wp (cv_wait me cv lk) (fun b s' => b = false /\
  slept s' (fun c => c_pick me (c_sleep me cur (cv_wchan y) (Cwait cv lk) (c_wakeone (lk_wchan x) (c_setlock lk 0 0 c)))) s) s.
Proof.
  intros Hlw. unfold cv_wait. wp_step. apply wp_kassert; [by rewrite (proj2 (Z.eqb_neq cv 0))|]. wp_step. apply wp_kassert; [by rewrite (proj2 (Z.eqb_neq lk 0))|].
  apply assert_held. intros s1 IN1 Hc1. wp_step. wp_apply (cv_enter_spec s1); [done|done|]. intros _ s2 (IN2 & Hc2 & Hw2).
  wp_step. wp_apply (lock_release_inside me cur [CvSpinlock cv] D C s2 lk x); [done|apply low_cv, low_nil| |done|by rewrite Hc2|done|done| |].
  { by intros E%list_elem_of_singleton. }
  { change (is_Some (wchans (core s2) !! lk_wchan x)). by rewrite Hc2. }
  intros _ s3 [IN3 Hc3]. rewrite Hc2 in Hc3. wp_step. apply cv_at_spec.
  { destruct (wakeone_objects (lk_wchan x) (c_setlock lk 0 0 (core s))) as (_ & _ & E). by rewrite Hc3, E, setlock_cvs. }
  intros z ->. wp_step. wp_apply (sleep_inside me cur D C s3 (CvSpinlock cv) (cv_wchan y)); [done|apply low_cv, low_nil| |].
  { change (is_Some (wchans (core s3) !! cv_wchan y)). rewrite Hc3. apply wakeone_wchans. by rewrite setlock_wchans. }
  intros _ s4 [Hset Hc4]. wp_step. split; [done|]. split; [done|]. by rewrite Hc4, Hc3.
Qed.
End held.
End ops.
