(* ===== verification/SynchSystem.v ===== *)
(** * The synchronisation objects as an abstract machine

    The abstract machine knows which threads are awake, who waits on which
    object in which order, the counts of the semaphores and the holders of
    the locks.  Every operation of kern/thread/synch.c, run to the point
    where it returns or its thread sleeps, terminates without a panic and
    does on this machine what its definition [a_call] says. *)

From S2P Require Import Prelude KHeap Array ThreadState Thread Synch ThreadSwitch ThreadInv SynchSpec.

(** ** The calls *)

Inductive kcall :=
  | KP (sem : Z) | KV (sem : Z)
  | KAcquire (lk : Z) | KRelease (lk : Z) | KHold (lk : Z)
  | KWait (cv lk : Z) | KSignal (cv lk : Z) | KBroadcast (cv lk : Z)
  | KYield.

(** What the calling thread sees: it sleeps in the call, or has its result. *)
Inductive reply := Blocked | Returned (b : bool).

Definition replied (b : bool) : reply := if b then Returned true else Blocked.

Section calls.
Context `{ThreadHeap}.

Definition run_kcall (me : Z) (c : kcall) : M kst reply :=
  match c with
  | KP sem => b <- P me sem ;; ret (replied b)
  | KV sem => V me sem ;;; ret (Returned true)
  | KAcquire lk => b <- lock_acquire me lk ;; ret (replied b)
  | KRelease lk => lock_release me lk ;;; ret (Returned true)
  | KHold lk => b <- lock_do_i_hold me lk ;; ret (Returned b)
  | KWait cv lk => b <- cv_wait me cv lk ;; ret (replied b)
  | KSignal cv lk => cv_signal me cv lk ;;; ret (Returned true)
  | KBroadcast cv lk => cv_broadcast me cv lk ;;; ret (Returned true)
  | KYield => thread_yield me ;;; ret (Returned true)
  end.

(** A thread that was switched to again goes on in the call it slept in. *)
Definition resume (me : Z) : M kst reply :=
  cur <- curthread me ;;
  t <- thread_at cur ;;
  thread_put cur (set_t_cont Creturn t) ;;;
  b <- continue me (t_cont t) ;;
  ret (replied b).
End calls.

(** ** The abstract machine *)

Inductive obj := OSem (p : Z) | OLock (p : Z) | OCv (p : Z).

#[export] Instance obj_eq_dec : EqDecision obj.
Proof. solve_decision. Defined.
#[export] Program Instance obj_countable : Countable obj :=
  inj_countable' (fun o => match o with OSem p => inl (inl p) | OLock p => inl (inr p) | OCv p => inr p end)
    (fun x => match x with inl (inl p) => OSem p | inl (inr p) => OLock p | inr p => OCv p end) _.
Next Obligation. by intros []. Qed.

Record ast := Ast {
  a_awake : gmap Z cont;             (* the threads that are not asleep, and what they do next *)
  a_asleep : gmap Z cont;            (* the sleeping threads, and what they do when woken *)
  a_queue : gmap obj (list Z);       (* the threads asleep on each object, in order *)
  a_count : gmap Z Z;                (* semaphore counts *)
  a_holder : gmap Z (option Z);      (* lock holders *)
}.

Definition a_ready (x : Z) (a : ast) : ast :=
  match a_asleep a !! x with
  | Some k => Ast (<[x := k]> (a_awake a)) (delete x (a_asleep a)) (a_queue a) (a_count a) (a_holder a)
  | None => a
  end.
Definition a_setqueue (o : obj) (l : list Z) (a : ast) : ast :=
  Ast (a_awake a) (a_asleep a) (<[o := l]> (a_queue a)) (a_count a) (a_holder a).
Definition a_setcount (p n : Z) (a : ast) : ast :=
  Ast (a_awake a) (a_asleep a) (a_queue a) (<[p := n]> (a_count a)) (a_holder a).
Definition a_setholder (p : Z) (h : option Z) (a : ast) : ast :=
  Ast (a_awake a) (a_asleep a) (a_queue a) (a_count a) (<[p := h]> (a_holder a)).
Definition a_setcont (x : Z) (k : cont) (a : ast) : ast :=
  Ast (<[x := k]> (a_awake a)) (a_asleep a) (a_queue a) (a_count a) (a_holder a).

Definition a_wakeone (o : obj) (a : ast) : ast :=
  match a_queue a !! o with
  | Some (x :: l) => a_ready x (a_setqueue o l a)
  | _ => a
  end.
Definition a_wakeall (o : obj) (a : ast) : ast :=
  match a_queue a !! o with
  | Some l => foldl (fun a x => a_ready x a) (a_setqueue o [] a) l
  | None => a
  end.
Definition a_block (t : Z) (o : obj) (k : cont) (a : ast) : ast :=
  match a_queue a !! o with
  | Some l => Ast (delete t (a_awake a)) (<[t := k]> (a_asleep a)) (<[o := l ++ [t]]> (a_queue a)) (a_count a) (a_holder a)
  | None => a
  end.

Definition a_P (t p : Z) (a : ast) : ast * reply :=
  match a_count a !! p with
  | Some n => if n =? 0 then (a_block t (OSem p) (CP p) a, Blocked) else (a_setcount p (n - 1) a, Returned true)
  | None => (a, Blocked)
  end.
Definition a_acquire (t lk : Z) (a : ast) : ast * reply :=
  match a_holder a !! lk with
  | Some (Some _) => (a_block t (OLock lk) (Cacquire lk) a, Blocked)
  | Some None => (a_setholder lk (Some t) a, Returned true)
  | None => (a, Blocked)
  end.
Definition a_release (lk : Z) (a : ast) : ast := a_wakeone (OLock lk) (a_setholder lk None a).

Definition a_call (t : Z) (c : kcall) (a : ast) : ast * reply :=
  match c with
  | KP p => a_P t p a
  | KV p => (a_wakeone (OSem p) (a_setcount p (default 0 (a_count a !! p) + 1) a), Returned true)
  | KAcquire lk => a_acquire t lk a
  | KRelease lk => (a_release lk a, Returned true)
  | KHold lk => (a, Returned (bool_decide (a_holder a !! lk = Some (Some t))))
  | KWait cv lk => (a_block t (OCv cv) (Cwait cv lk) (a_release lk a), Blocked)
  | KSignal cv _ => (a_wakeone (OCv cv) a, Returned true)
  | KBroadcast cv _ => (a_wakeall (OCv cv) a, Returned true)
  | KYield => (a, Returned true)
  end.

(** The rest of a call whose thread slept. *)
Definition a_continue (t : Z) (k : cont) (a : ast) : ast * reply :=
  match k with
  | Creturn | Cstart => (a, Returned true)
  | CP p => a_P t p a
  | Cacquire lk | Cwait _ lk => a_acquire t lk a
  end.
Definition a_resume (t : Z) (k : cont) (a : ast) : ast * reply := a_continue t k (a_setcont t Creturn a).

(** The calls of thread [t] that are legal: the objects exist, a lock is
    released and a condition variable used by the lock's holder, a
    semaphore's count stays within an [unsigned]. *)
Definition legal (t : Z) (c : kcall) (a : ast) : Prop :=
  match c with
  | KP p => is_Some (a_count a !! p)
  | KV p => exists n, a_count a !! p = Some n /\ n < 2 ^ 32 - 1
  | KAcquire lk | KHold lk => is_Some (a_holder a !! lk)
  | KRelease lk => a_holder a !! lk = Some (Some t)
  | KWait cv lk | KSignal cv lk | KBroadcast cv lk => a_holder a !! lk = Some (Some t) /\ is_Some (a_queue a !! OCv cv)
  | KYield => True
  end.

(** ** The states an abstract state stands for *)

Definition obj_wchan (s : kst) (o : obj) : option Z :=
  match o with
  | OSem p => sem_wchan <$> sems s !! p
  | OLock p => lk_wchan <$> slocks s !! p
  | OCv p => cv_wchan <$> cvs s !! p
  end.

Definition obj_addr (o : obj) : Z := match o with OSem p | OLock p | OCv p => p end.

Definition is_asleep (t : thread) : bool := bool_decide (t_state t = S_SLEEP).
Definition awake_cont (t : thread) : option cont := if is_asleep t then None else Some (t_cont t).
Definition asleep_cont (t : thread) : option cont := if is_asleep t then Some (t_cont t) else None.
Definition lk_owner (x : lock) : option Z := if lk_lock x =? 1 then Some (lk_holder x) else None.

Record sim (c : kst) (a : ast) : Prop := {
  sm_awake : a_awake a = omap awake_cont (threads c);
  sm_asleep : a_asleep a = omap asleep_cont (threads c);
  sm_queue : forall o, a_queue a !! o = (w ← obj_wchan c o; wc_threads <$> wchans c !! w);
  sm_count : a_count a = sem_count <$> sems c;
  sm_holder : a_holder a = lk_owner <$> slocks c;
}.

(** The objects are where they should be: each has its own wait channel. *)
Record objs_ok (c : kst) : Prop := {
  ob_wchan : forall o w, obj_wchan c o = Some w -> obj_addr o <> 0 /\ is_Some (wchans c !! w);
  ob_inj : forall o1 o2 w, obj_wchan c o1 = Some w -> obj_wchan c o2 = Some w -> o1 = o2;
  ob_sem : forall p x, sems c !! p = Some x -> 0 <= sem_count x < 2 ^ 32;
  ob_lock : forall p x, slocks c !! p = Some x -> lk_lock x = 0 \/ lk_lock x = 1;
}.

(** ** The simulation *)

Lemma objs_same c c' : sems c' = sems c -> slocks c' = slocks c -> cvs c' = cvs c ->
  (forall w, is_Some (wchans c !! w) -> is_Some (wchans c' !! w)) -> objs_ok c -> objs_ok c'.
Proof.
  intros E1 E2 E3 Hw [O1 O2 O3 O4]. assert (forall o, obj_wchan c' o = obj_wchan c o) as Eo by (intros []; cbn [obj_wchan]; congruence).
  constructor.
  - intros o w. rewrite Eo. intros Ho. destruct (O1 o w Ho). eauto.
  - intros o1 o2 w. rewrite !Eo. apply O2.
  - rewrite E1. apply O3.
  - rewrite E2. apply O4.
Qed.

Lemma sim_queue_some c a o w : sim c a -> obj_wchan c o = Some w -> a_queue a !! o = wc_threads <$> wchans c !! w.
Proof. intros S Ho. by rewrite (sm_queue _ _ S), Ho. Qed.

(** Replacing the record of thread [x]. *)
Lemma omap_thread {A} (f : thread -> option A) (m : gmap Z thread) x t :
  omap f (<[x := t]> m) = match f t with Some k => <[x := k]> (omap f m) | None => delete x (omap f m) end.
Proof.
  apply map_eq. intros i. rewrite lookup_omap. destruct (f t) eqn:E, (decide (i = x)) as [->|Hne];
    rewrite ?lookup_insert_eq, ?lookup_insert_ne, ?lookup_delete_eq, ?lookup_delete_ne, ?lookup_omap by done; cbn; done.
Qed.

Lemma sim_ready x c a t : sim c a -> threads c !! x = Some t -> is_Some (cpus c !! t_cpu t) -> sim (c_ready x c) (a_ready x a).
Proof.
  intros [S1 S2 S3 S4 S5] Ht [k Hk]. unfold c_ready, a_ready. rewrite Ht, Hk, S2, lookup_omap, Ht. cbn [mbind option_bind].
  unfold asleep_cont at 1. destruct (is_asleep t) eqn:E.
  - constructor; k_simpl; cbn [a_awake a_asleep a_queue a_count a_holder]; [| |done|done|done].
    + rewrite omap_thread, S1. done.
    + rewrite omap_thread. done.
  - constructor; k_simpl; [| |done|done|done].
    + rewrite omap_thread, S1. cbn. symmetry. apply insert_id. rewrite lookup_omap, Ht. cbn. unfold awake_cont. by rewrite E.
    + rewrite omap_thread, S2. cbn. symmetry. apply delete_id. rewrite lookup_omap, Ht. cbn. unfold asleep_cont. by rewrite E.
Qed.

Lemma sim_setqueue c a o w n l i : sim c a -> objs_ok c -> obj_wchan c o = Some w ->
  sim (set_wchans (<[w := Wchan n l i]> (wchans c)) c) (a_setqueue o l a).
Proof.
  intros [S1 S2 S3 S4 S5] O Ho. constructor; k_simpl; cbn [a_setqueue a_awake a_asleep a_queue a_count a_holder]; [done|done| |done|done].
  intros o'. change (obj_wchan (set_wchans _ c) o') with (obj_wchan c o'). destruct (decide (o' = o)) as [->|Hne].
  - rewrite lookup_insert_eq, Ho. cbn. by rewrite lookup_insert_eq.
  - rewrite lookup_insert_ne, S3 by done. destruct (obj_wchan c o') as [w'|] eqn:Ho'; [|done]. cbn.
    rewrite lookup_insert_ne; [done|]. intros ->. by apply Hne, (ob_inj _ O o' o w').
Qed.

Lemma objs_setqueue c w v : objs_ok c -> objs_ok (set_wchans (<[w := v]> (wchans c)) c).
Proof. apply objs_same; [done..|]. intros w' Hw. k_simpl. by apply lookup_insert_is_Some'; right. Qed.

Lemma objs_ready x c : objs_ok c -> objs_ok (c_ready x c).
Proof. destruct (ready_objects x c) as (? & ? & ? & E). apply objs_same; [done..|]. by rewrite E. Qed.

Lemma sim_wakeone c a o w : cinv c -> sim c a -> objs_ok c -> obj_wchan c o = Some w ->
  sim (c_wakeone w c) (a_wakeone o a) /\ objs_ok (c_wakeone w c).
Proof.
  intros I S O Ho. unfold c_wakeone, a_wakeone. rewrite (sim_queue_some c a o w S Ho).
  destruct (wchans c !! w) as [[n [|x l] i]|] eqn:Hw; cbn; [done| |done].
  destruct (sleepers_listed c w _ I Hw x) as (t & Ht & Hk); [apply list_elem_of_here|]. split.
  - eapply sim_ready; [by apply sim_setqueue|done|done].
  - by apply objs_ready, objs_setqueue.
Qed.

Lemma sim_readys l c a : sim c a -> objs_ok c -> listed l c ->
  sim (foldl (fun s x => c_ready x s) c l) (foldl (fun a x => a_ready x a) a l) /\ objs_ok (foldl (fun s x => c_ready x s) c l).
Proof.
  revert c a. induction l as [|x l IH]; intros c a S O Hl; [done|]. cbn [foldl]. destruct (Hl x) as (t & Ht & Hk); [apply list_elem_of_here|].
  apply IH; [by eapply sim_ready|by apply objs_ready|]. apply listed_ready. intros y Hy. apply Hl. by apply list_elem_of_further.
Qed.

Lemma sim_wakeall c a o w : cinv c -> sim c a -> objs_ok c -> obj_wchan c o = Some w ->
  sim (c_wakeall w c) (a_wakeall o a) /\ objs_ok (c_wakeall w c).
Proof.
  intros I S O Ho. unfold c_wakeall, a_wakeall. rewrite (sim_queue_some c a o w S Ho).
  destruct (wchans c !! w) as [[n l i]|] eqn:Hw; cbn; [|done].
  apply sim_readys; [by apply sim_setqueue|by apply objs_setqueue|]. intros x Hx. by destruct (sleepers_listed c w _ I Hw x Hx) as (t & Ht & Hk); eauto.
Qed.

Lemma sim_sleep c a o w me cur kt : sim c a -> objs_ok c -> obj_wchan c o = Some w -> is_Some (threads c !! cur) -> is_Some (cpus c !! me) ->
  sim (c_sleep me cur w kt c) (a_block cur o kt a) /\ objs_ok (c_sleep me cur w kt c).
Proof.
  intros S O Ho [t Ht] [k Hk]. unfold c_sleep, a_block. rewrite (sim_queue_some c a o w S Ho).
  destruct (ob_wchan _ O o w Ho) as [_ [wc Hw]]. rewrite Hw, Ht, Hk. cbn. split.
  - destruct (sim_setqueue c a o w (wc_name wc) (wc_threads wc ++ [cur]) (wc_index wc) S O Ho) as [S1 S2 S3 S4 S5].
    constructor; k_simpl; cbn [a_setqueue a_awake a_asleep a_queue a_count a_holder] in *; [| |exact S3|done|done].
    + by rewrite omap_thread, S1.
    + by rewrite omap_thread, S2.
  - pose proof (objs_setqueue c w (Wchan (wc_name wc) (wc_threads wc ++ [cur]) (wc_index wc)) O) as O'. eapply objs_same; [| | | |exact O']; done.
Qed.

(** A thread whose state changes without going to sleep or waking up. *)
Lemma sim_thread c a x t t' : sim c a -> threads c !! x = Some t -> is_asleep t' = is_asleep t -> t_cont t' = t_cont t ->
  sim (set_threads (<[x := t']> (threads c)) c) a.
Proof.
  intros [S1 S2 S3 S4 S5] Ht E Ec. constructor; k_simpl; [| |done|done|done].
  - rewrite omap_thread, S1. unfold awake_cont at 2. rewrite E, Ec. destruct (is_asleep t) eqn:E'.
    + symmetry. apply delete_id. rewrite lookup_omap, Ht. cbn. unfold awake_cont. by rewrite E'.
    + symmetry. apply insert_id. rewrite lookup_omap, Ht. cbn. unfold awake_cont. by rewrite E'.
  - rewrite omap_thread, S2. unfold asleep_cont at 2. rewrite E, Ec. destruct (is_asleep t) eqn:E'.
    + symmetry. apply insert_id. rewrite lookup_omap, Ht. cbn. unfold asleep_cont. by rewrite E'.
    + symmetry. apply delete_id. rewrite lookup_omap, Ht. cbn. unfold asleep_cont. by rewrite E'.
Qed.

Lemma sim_cpus c a m : sim c a -> sim (set_cpus m c) a.
Proof. by intros []; constructor. Qed.

Lemma sim_pick c a me : cinv c -> sim c a -> objs_ok c -> sim (c_pick me c) a /\ objs_ok (c_pick me c).
Proof.
  intros I S O. unfold c_pick. destruct (cpus c !! me) as [k|] eqn:Hk; [|done]. destruct (c_runqueue k) as [|x r] eqn:Er; [done|].
  destruct (ci_rq _ I me k Hk) as [_ Hrq]. destruct (Hrq x) as (t & Ht & Hst & _); [rewrite Er; apply list_elem_of_here|]. rewrite Ht. split.
  - eapply (sim_thread (set_cpus _ c)); [by apply sim_cpus|exact Ht| |done]. unfold is_asleep. k_simpl. by rewrite Hst.
  - by eapply objs_same; [| | | |exact O].
Qed.

Lemma sim_yield c a me cur : cinv c -> sim c a -> objs_ok c -> a_awake a !! cur = Some Creturn -> is_Some (cpus c !! me) ->
  sim (c_yield me cur c) a /\ objs_ok (c_yield me cur c).
Proof.
  intros I S O Ha [k Hk]. rewrite (sm_awake _ _ S), lookup_omap in Ha. destruct (threads c !! cur) as [t|] eqn:Ht; [|done]. cbn in Ha. unfold awake_cont in Ha.
  destruct (is_asleep t) eqn:Es; [done|]. assert (t_cont t = Creturn) as Ec by congruence. unfold c_yield. rewrite Ht, Hk. split.
  - apply sim_cpus. eapply sim_thread; [done|exact Ht| |by k_simpl]. rewrite Es. done.
  - by eapply objs_same; [| | | |exact O].
Qed.

Lemma sim_setcount c a p n : sim c a -> objs_ok c -> is_Some (sems c !! p) -> 0 <= n < 2 ^ 32 ->
  sim (c_setcount p n c) (a_setcount p n a) /\ objs_ok (c_setcount p n c).
Proof.
  intros [S1 S2 S3 S4 S5] [O1 O2 O3 O4] [x Hx] Hn. unfold c_setcount. rewrite Hx.
  assert (forall o, obj_wchan (set_sems (<[p := Semaphore (sem_name x) (sem_wchan x) (sem_lock x) n]> (sems c)) c) o = obj_wchan c o) as Eo.
  { intros [q|q|q]; cbn [obj_wchan]; k_simpl; [|done|done]. destruct (decide (p = q)) as [<-|]; [by rewrite lookup_insert_eq, Hx|by rewrite lookup_insert_ne]. }
  split; constructor.
  - done.
  - done.
  - intros o. rewrite Eo. apply S3.
  - k_simpl. cbn [a_setcount a_count]. by rewrite fmap_insert, S4.
  - done.
  - intros o w. rewrite Eo. apply O1.
  - intros o1 o2 w. rewrite !Eo. apply O2.
  - k_simpl. intros q y [[<- <-]|[_ Hy]]%lookup_insert_Some; [done|by eapply O3].
  - apply O4.
Qed.

Lemma sim_setlock c a p b h : sim c a -> objs_ok c -> is_Some (slocks c !! p) -> b = 0 \/ b = 1 ->
  sim (c_setlock p b h c) (a_setholder p (if b =? 1 then Some h else None) a) /\ objs_ok (c_setlock p b h c).
Proof.
  intros [S1 S2 S3 S4 S5] [O1 O2 O3 O4] [x Hx] Hn. unfold c_setlock. rewrite Hx.
  assert (forall o, obj_wchan (set_slocks (<[p := Lock (lk_name x) b h (lk_spinlock x) (lk_wchan x)]> (slocks c)) c) o = obj_wchan c o) as Eo.
  { intros [q|q|q]; cbn [obj_wchan]; k_simpl; [done| |done]. destruct (decide (p = q)) as [<-|]; [by rewrite lookup_insert_eq, Hx|by rewrite lookup_insert_ne]. }
  split; constructor.
  - done.
  - done.
  - intros o. rewrite Eo. apply S3.
  - done.
  - k_simpl. cbn [a_setholder a_holder]. by rewrite fmap_insert, S5.
  - intros o w. rewrite Eo. apply O1.
  - intros o1 o2 w. rewrite !Eo. apply O2.
  - apply O3.
  - k_simpl. intros q y [[<- <-]|[_ Hy]]%lookup_insert_Some; [done|by eapply O4].
Qed.

(** ** The operations refine the machine *)

Record ksim (s : kst) (a : ast) : Prop := {
  km_settled : exists D C, settled D C s;
  km_sim : sim (core s) a;
  km_objs : objs_ok (core s);
}.

Lemma ksim_sem s a p n : ksim s a -> a_count a !! p = Some n ->
  exists x, sems (core s) !! p = Some x /\ sem_count x = n /\ p <> 0 /\ 0 <= n < 2 ^ 32 /\ is_Some (wchans s !! sem_wchan x) /\ obj_wchan (core s) (OSem p) = Some (sem_wchan x).
Proof.
  intros [_ S O]. rewrite (sm_count _ _ S), lookup_fmap. destruct (sems (core s) !! p) as [x|] eqn:Hx; [|done]. intros [= <-].
  assert (obj_wchan (core s) (OSem p) = Some (sem_wchan x)) as Ho by (cbn [obj_wchan]; by rewrite Hx).
  destruct (ob_wchan _ O _ _ Ho) as [Hne Hw]. exists x. split_and!; try done; by apply (ob_sem _ O p x).
Qed.

Lemma ksim_lock s a p h : ksim s a -> a_holder a !! p = Some h ->
  exists x, slocks (core s) !! p = Some x /\ lk_owner x = h /\ (lk_lock x = 0 \/ lk_lock x = 1) /\ p <> 0 /\ is_Some (wchans s !! lk_wchan x) /\
    obj_wchan (core s) (OLock p) = Some (lk_wchan x).
Proof.
  intros [_ S O]. rewrite (sm_holder _ _ S), lookup_fmap. destruct (slocks (core s) !! p) as [x|] eqn:Hx; [|done]. intros [= <-].
  assert (obj_wchan (core s) (OLock p) = Some (lk_wchan x)) as Ho by (cbn [obj_wchan]; by rewrite Hx).
  destruct (ob_wchan _ O _ _ Ho) as [Hne Hw]. exists x. split_and!; try done; by apply (ob_lock _ O p x).
Qed.

Lemma ksim_cv s a p : ksim s a -> is_Some (a_queue a !! OCv p) ->
  exists y, cvs (core s) !! p = Some y /\ p <> 0 /\ is_Some (wchans s !! cv_wchan y) /\ obj_wchan (core s) (OCv p) = Some (cv_wchan y).
Proof.
  intros [_ S O]. rewrite (sm_queue _ _ S). cbn [obj_wchan]. destruct (cvs (core s) !! p) as [y|] eqn:Hy; [|intros []; done]. intros _.
  assert (obj_wchan (core s) (OCv p) = Some (cv_wchan y)) as Ho by (cbn [obj_wchan]; by rewrite Hy).
  destruct (ob_wchan _ O _ _ Ho) as [Hne Hw]. exists y. done.
Qed.

(** An operation that slept: the current thread is queued and the cpu takes
    the next thread. *)
Lemma ksim_slept me cur s s' a o w kt f b : slept s' (fun c => c_pick me (c_sleep me cur w kt (f c))) s -> on_cpu me cur s ->
  cinv (f (core s)) -> on_cpu me cur (f (core s)) -> sim (f (core s)) b -> objs_ok (f (core s)) -> obj_wchan (f (core s)) o = Some w ->
  a = a_block cur o kt b -> ksim s' a.
Proof.
  intros [Hset Hc] Hcpu I (k & Hk & Hi & Hcur) S O Ho ->. destruct (ci_cpu _ I me k Hk) as (_ & _ & t & Ht & _). rewrite Hcur in Ht.
  destruct (ob_wchan _ O _ _ Ho) as [_ [wc Hw]].
  destruct (sim_sleep _ b o w me cur kt S O Ho) as [S1 O1]; [by eexists|by eexists|].
  destruct (sim_pick (c_sleep me cur w kt (f (core s))) (a_block cur o kt b) me) as [S2 O2]; [|done|done|].
  - rewrite <- Hcur. by eapply cinv_sleep.
  - constructor; [done|by rewrite Hc..].
Qed.

Section refinement.
Context `{ThreadHeap}.
Variables (me t : Z).

Lemma P_refines p s a : ksim s a -> on_cpu me t s -> is_Some (a_count a !! p) ->
  wp (b <- (spinlock_acquire me (SemLock p) ;;; P_loop me p) ;; ret (replied b)) (fun r s' => (a_P t p a).2 = r /\ ksim s' (a_P t p a).1) s.
Proof.
  intros K Hcpu [n Hn]. destruct (ksim_sem s a p n K Hn) as (x & Hx & <- & Hne & Hpos & Hw & Ho). destruct K as [(D & C & Hs) S O].
  wp_step. wp_apply (P_enter_spec me t D C s p x); [done|done|done|lia|done|]. intros b s'. unfold a_P. rewrite Hn.
  destruct (sem_count x =? 0) eqn:E; boolify.
  - intros [-> Hsl]. wp_step. split; [done|]. eapply (ksim_slept me t s s' _ (OSem p) _ _ (fun c => c)); try done; [by destruct Hs|by apply on_cpu_of_core].
  - intros (-> & Hs' & Hc). wp_step. split; [done|]. destruct (sim_setcount (core s) a p (sem_count x - 1)) as [S' O']; [done|done|by eexists|lia|].
    constructor; [by do 2 eexists|by rewrite Hc..].
Qed.

Lemma acquire_refines lk s a : ksim s a -> on_cpu me t s -> is_Some (a_holder a !! lk) ->
  wp (b <- (spinlock_acquire me (LkSpinlock lk) ;;; acquire_loop me lk) ;; ret (replied b)) (fun r s' => (a_acquire t lk a).2 = r /\ ksim s' (a_acquire t lk a).1) s.
Proof.
  intros K Hcpu [h Hh]. destruct (ksim_lock s a lk h K Hh) as (x & Hx & How & H01 & Hne & Hw & Ho). destruct K as [(D & C & Hs) S O].
  wp_step. wp_apply (acquire_enter_spec me t D C s lk x); [done|done|done|done|]. intros b s'. unfold a_acquire. rewrite Hh, <- How. unfold lk_owner.
  destruct (lk_lock x =? 1) eqn:E; boolify.
  - intros [-> Hsl]. wp_step. split; [done|]. eapply (ksim_slept me t s s' _ (OLock lk) _ _ (fun c => c)); try done; [by destruct Hs|by apply on_cpu_of_core].
  - intros (-> & Hs' & Hc). wp_step. split; [done|]. destruct (sim_setlock (core s) a lk 1 t) as [S' O']; [done|done|by eexists|by right|].
    constructor; [by do 2 eexists|by rewrite Hc..].
Qed.

Lemma holder_owner x : lk_owner x = Some t -> lk_lock x = 1 /\ lk_holder x = t.
Proof. unfold lk_owner. destruct (lk_lock x =? 1) eqn:E; [|done]. boolify. intros [= <-]. done. Qed.

Lemma setlock_wchan c p b h o : obj_wchan (c_setlock p b h c) o = obj_wchan c o.
Proof.
  unfold c_setlock. destruct (slocks c !! p) as [x|] eqn:Hx; [|done]. destruct o as [q|q|q]; cbn [obj_wchan]; k_simpl; [done| |done].
  destruct (decide (p = q)) as [<-|]; [by rewrite lookup_insert_eq, Hx|by rewrite lookup_insert_ne].
Qed.

Lemma cinv_setlock c p b h : cinv c -> cinv (c_setlock p b h c).
Proof. intros I. unfold c_setlock. destruct (slocks c !! p); [by apply cinv_set_slocks|done]. Qed.
Lemma cinv_setcount c p n : cinv c -> cinv (c_setcount p n c).
Proof. intros I. unfold c_setcount. destruct (sems c !! p); [by apply cinv_set_sems|done]. Qed.

(** The release of a lock, on the core. *)
Lemma release_sim c a lk x : cinv c -> sim c a -> objs_ok c -> slocks c !! lk = Some x ->
  let c' := c_wakeone (lk_wchan x) (c_setlock lk 0 0 c) in sim c' (a_release lk a) /\ objs_ok c' /\ cinv c'.
Proof.
  intros I S O Hx. destruct (sim_setlock c a lk 0 0) as [S1 O1]; [done|done|by eexists|by left|].
  destruct (sim_wakeone (c_setlock lk 0 0 c) (a_setholder lk None a) (OLock lk) (lk_wchan x)) as [S2 O2].
  - by apply cinv_setlock.
  - done.
  - done.
  - rewrite setlock_wchan. cbn [obj_wchan]. by rewrite Hx.
  - split_and!; [done|done|]. by apply cinv_wakeone, cinv_setlock.
Qed.

Lemma V_refines p s a : ksim s a -> on_cpu me t s -> legal t (KV p) a ->
  wp (run_kcall me (KV p)) (fun r s' => (a_call t (KV p) a).2 = r /\ ksim s' (a_call t (KV p) a).1) s.
Proof.
  intros K Hcpu (n & Hn & Hmax). destruct (ksim_sem s a p n K Hn) as (x & Hx & <- & Hne & Hpos & Hw & Ho). destruct K as [(D & C & Hs) S O].
  cbn [run_kcall a_call]. wp_step. wp_apply (V_spec me t D C s p x); [done..|lia|done|]. intros _ s' [Hs' Hc]. wp_step. split; [done|]. rewrite Hn. cbn [default snd fst].
  destruct (sim_setcount (core s) a p (sem_count x + 1)) as [S1 O1]; [done|done|by eexists|lia|].
  destruct (sim_wakeone (c_setcount p (sem_count x + 1) (core s)) _ (OSem p) (sem_wchan x) (cinv_setcount _ _ _ (se_inv _ _ _ Hs)) S1 O1) as [S2 O2].
  - unfold c_setcount. rewrite Hx. cbn [obj_wchan]. k_simpl. by rewrite lookup_insert_eq.
  - constructor; [by do 2 eexists|by rewrite Hc..].
Qed.

Lemma release_refines lk s a : ksim s a -> on_cpu me t s -> legal t (KRelease lk) a ->
  wp (run_kcall me (KRelease lk)) (fun r s' => (a_call t (KRelease lk) a).2 = r /\ ksim s' (a_call t (KRelease lk) a).1) s.
Proof.
  intros K Hcpu Hh. destruct (ksim_lock s a lk _ K Hh) as (x & Hx & [Hl Hw0]%holder_owner & H01 & Hne & Hw & Ho). destruct K as [(D & C & Hs) S O].
  cbn [run_kcall a_call]. wp_step. wp_apply (lock_release_spec me t D C s lk x); [done..|]. intros _ s' [Hs' Hc]. wp_step. split; [done|].
  destruct (release_sim (core s) a lk x (se_inv _ _ _ Hs) S O Hx) as (S2 & O2 & _). constructor; [by do 2 eexists|by rewrite Hc..].
Qed.

Lemma hold_refines lk s a : ksim s a -> on_cpu me t s -> legal t (KHold lk) a ->
  wp (run_kcall me (KHold lk)) (fun r s' => (a_call t (KHold lk) a).2 = r /\ ksim s' (a_call t (KHold lk) a).1) s.
Proof.
  intros K Hcpu [h Hh]. destruct (ksim_lock s a lk h K Hh) as (x & Hx & How & H01 & Hne & Hw & Ho). destruct K as [(D & C & Hs) S O].
  cbn [run_kcall a_call]. wp_step. wp_apply (lock_do_i_hold_spec me t [] D C s lk x); [by apply settled_inside|apply not_elem_of_nil|done|done|].
  intros b s' (-> & IN & Hc). wp_step. split.
  - cbn [snd]. f_equal. rewrite Hh, <- How. unfold lk_owner. destruct (lk_lock x =? 1) eqn:E; cbn [andb]; [|by apply bool_decide_eq_false].
    destruct (lk_holder x =? t) eqn:E2; boolify; [apply bool_decide_eq_true; congruence|apply bool_decide_eq_false; congruence].
  - constructor; [do 2 eexists; by eapply inside_settled|by rewrite Hc..].
Qed.

Lemma wake_refines (all : bool) cv lk s a : ksim s a -> on_cpu me t s -> a_holder a !! lk = Some (Some t) -> is_Some (a_queue a !! OCv cv) ->
  let c := if all then KBroadcast cv lk else KSignal cv lk in
  wp (run_kcall me c) (fun r s' => (a_call t c a).2 = r /\ ksim s' (a_call t c a).1) s.
Proof.
  intros K Hcpu Hh Hq. destruct (ksim_lock s a lk _ K Hh) as (x & Hx & [Hl Hw0]%holder_owner & _ & Hne & _ & _).
  destruct (ksim_cv s a cv K Hq) as (y & Hy & Hcv & Hw & Ho). destruct K as [(D & C & Hs) S O]. destruct all; cbn [run_kcall a_call]; wp_step.
  - wp_apply (cv_broadcast_spec me t lk D C s x Hs Hcpu Hne Hx Hl Hw0 cv y); [done..|]. intros _ s' [Hs' Hc]. wp_step. split; [done|].
    destruct (sim_wakeall (core s) a (OCv cv) (cv_wchan y) (se_inv _ _ _ Hs) S O Ho) as [S2 O2]. constructor; [by do 2 eexists|by rewrite Hc..].
  - wp_apply (cv_signal_spec me t lk D C s x Hs Hcpu Hne Hx Hl Hw0 cv y); [done..|]. intros _ s' [Hs' Hc]. wp_step. split; [done|].
    destruct (sim_wakeone (core s) a (OCv cv) (cv_wchan y) (se_inv _ _ _ Hs) S O Ho) as [S2 O2]. constructor; [by do 2 eexists|by rewrite Hc..].
Qed.

Lemma setlock_on_cpu c p b h : on_cpu me t c -> on_cpu me t (c_setlock p b h c).
Proof. unfold c_setlock. by destruct (slocks c !! p). Qed.

Lemma wakeone_wchan c w o : obj_wchan (c_wakeone w c) o = obj_wchan c o.
Proof. destruct (wakeone_objects w c) as (E1 & E2 & E3). destruct o; cbn [obj_wchan]; congruence. Qed.

Lemma wait_refines cv lk s a : ksim s a -> on_cpu me t s -> legal t (KWait cv lk) a ->
  wp (run_kcall me (KWait cv lk)) (fun r s' => (a_call t (KWait cv lk) a).2 = r /\ ksim s' (a_call t (KWait cv lk) a).1) s.
Proof.
  intros K Hcpu [Hh Hq]. destruct (ksim_lock s a lk _ K Hh) as (x & Hx & [Hl Hw0]%holder_owner & _ & Hne & Hlw & _).
  destruct (ksim_cv s a cv K Hq) as (y & Hy & Hcv & Hw & Ho). destruct K as [(D & C & Hs) S O]. cbn [run_kcall a_call]. wp_step.
  wp_apply (cv_wait_spec me t lk D C s x Hs Hcpu Hne Hx Hl Hw0 cv y); [done..|]. intros b s' [-> Hsl]. wp_step. split; [done|].
  destruct (release_sim (core s) a lk x (se_inv _ _ _ Hs) S O Hx) as (S2 & O2 & I2).
  eapply (ksim_slept me t s s' _ (OCv cv) _ _ (fun c => c_wakeone (lk_wchan x) (c_setlock lk 0 0 c))); try done.
  - by apply wakeone_on_cpu, setlock_on_cpu, on_cpu_of_core.
  - by rewrite wakeone_wchan, setlock_wchan.
Qed.

Lemma yield_refines s a : ksim s a -> on_cpu me t s -> a_awake a !! t = Some Creturn ->
  wp (run_kcall me KYield) (fun r s' => Returned true = r /\ ksim s' a) s.
Proof.
  intros [(D & C & Hs) S O] (k & Hk & Hi & <-) Ha. cbn [run_kcall]. wp_step. wp_apply (thread_yield_spec me D C s k); [done..|].
  intros b s' [Hset Hc]. wp_step. split; [done|]. case_bool_decide; [constructor; [done|by rewrite Hc..]|].
  assert (cpus (core s) !! me = Some (er_cpu k)) as Hkc by (unfold core; k_simpl; by rewrite lookup_fmap, Hk).
  destruct (sim_yield (core s) a me (c_curthread k) (se_inv _ _ _ Hs) S O Ha) as [S1 O1]; [by eexists|].
  destruct (sim_pick (c_yield me (c_curthread k) (core s)) a me) as [S2 O2]; [|done|done|constructor; [done|by rewrite Hc..]].
  apply (cinv_yield _ me (er_cpu k)); [by destruct Hs|done|done].
Qed.

(** Every legal call of the thread running on [me] returns or sleeps, as the
    abstract machine says. *)
Lemma kcall_refines c s a : ksim s a -> on_cpu me t s -> a_awake a !! t = Some Creturn -> legal t c a ->
  wp (run_kcall me c) (fun r s' => (a_call t c a).2 = r /\ ksim s' (a_call t c a).1) s.
Proof.
  intros K Hcpu Ha Hl. destruct c as [p|p|lk|lk|lk|cv lk|cv lk|cv lk|].
  - destruct Hl as [n Hn]. destruct (ksim_sem s a p n K Hn) as (x & _ & _ & Hne & _). pose proof K as [(D & C & Hs) _ _].
    cbn [run_kcall]. unfold P. wp_step. wp_step. apply wp_kassert; [by rewrite (proj2 (Z.eqb_neq p 0))|]. wp_step. pose proof (on_cpu_running _ _ _ Hcpu (se_inv _ _ _ Hs)) as Hr.
    apply (wp_curthread me t); [done|]. destruct Hr as [_ _ [th Hth] _]. wp_step. apply (wp_thread_at t th); [done|]. wp_step. apply wp_kassert.
    + destruct (ci_th _ (se_inv _ _ _ Hs) t (er_thread th)) as [Hi _]; [unfold core; k_simpl; by rewrite lookup_fmap, Hth|]. cbn [er_thread t_in_interrupt] in Hi. by rewrite Hi.
    + by apply wp_bind_inv, P_refines.
  - by apply V_refines.
  - destruct Hl as [h Hh]. destruct (ksim_lock s a lk h K Hh) as (x & _ & _ & _ & Hne & _). cbn [run_kcall]. unfold lock_acquire. wp_step. wp_step.
    apply wp_kassert; [by rewrite (proj2 (Z.eqb_neq lk 0))|]. by apply wp_bind_inv, acquire_refines.
  - by apply release_refines.
  - by apply hold_refines.
  - by apply wait_refines.
  - destruct Hl as [Hh Hq]. by apply (wake_refines false cv lk).
  - destruct Hl as [Hh Hq]. by apply (wake_refines true cv lk).
  - by apply yield_refines.
Qed.

(** The objects a continuation uses exist. *)
Definition cont_ok (k : cont) (a : ast) : Prop :=
  match k with
  | Creturn | Cstart => True
  | CP p => is_Some (a_count a !! p)
  | Cacquire lk => is_Some (a_holder a !! lk)
  | Cwait cv lk => is_Some (a_holder a !! lk) /\ is_Some (a_queue a !! OCv cv)
  end.

Lemma setcont_cinv c x th k : cinv c -> threads c !! x = Some th -> cinv (set_threads (<[x := set_t_cont k th]> (threads c)) c).
Proof.
  intros I Hx. assert (forall y ty, threads c !! y = Some ty -> exists ty', <[x := set_t_cont k th]> (threads c) !! y = Some ty' /\
    t_state ty' = t_state ty /\ t_cpu ty' = t_cpu ty /\ t_wchan ty' = t_wchan ty) as Hf.
  { intros y ty Hy. destruct (decide (x = y)) as [<-|]; [rewrite lookup_insert_eq; eexists; split; [done|]; by simplify_eq|exists ty; by rewrite lookup_insert_ne]. }
  constructor; k_simpl.
  - intros c0 k0 Hk0. destruct (ci_cpu _ I c0 k0 Hk0) as (? & ? & ty & Hy & ? & ?). destruct (Hf _ _ Hy) as (ty' & Hy' & Es & Ec & Ew).
    split_and!; [done|done|]. exists ty'. by rewrite Es, Ec.
  - intros c0 k0 Hk0. destruct (ci_rq _ I c0 k0 Hk0) as (? & Hr). split; [done|]. intros y Hy. destruct (Hr y Hy) as (ty & Hty & ? & ?).
    destruct (Hf _ _ Hty) as (ty' & Hy' & Es & Ec & Ew). exists ty'. by rewrite Es, Ec.
  - intros y ty [[<- <-]|[_ Hy]]%lookup_insert_Some; [by apply (ci_th _ I x th)|by apply (ci_th _ I y ty)].
  - intros w wc Hw. destruct (ci_wc _ I w wc Hw) as (? & Hr). split; [done|]. intros y Hy. destruct (Hr y Hy) as (ty & Hty & ? & ?).
    destruct (Hf _ _ Hty) as (ty' & Hy' & Es & Ec & Ew). exists ty'. by rewrite Es, Ew.
Qed.

Lemma setcont_settled D C s x th k : settled D C s -> threads s !! x = Some th -> settled D C (set_threads (<[x := set_t_cont k th]> (threads s)) s).
Proof.
  intros [Hs [B1 B2] I] Hx. assert (threads (core s) !! x = Some (er_thread th)) as Hxc by (unfold core; k_simpl; by rewrite lookup_fmap, Hx).
  assert (core (set_threads (<[x := set_t_cont k th]> (threads s)) s) = set_threads (<[x := set_t_cont k (er_thread th)]> (threads (core s))) (core s)) as Hc
    by apply core_threads. constructor.
  - intros me'. eapply kspin_same; [apply (Hs me')|]. apply (same_spin_threads s x th); [done..|by left].
  - rewrite Hc. constructor; k_simpl; intros y ty [[<- <-]|[_ Hy]]%lookup_insert_Some; [by apply (B1 x _ Hxc)|by apply (B1 y)|by apply (B2 x _ Hxc)|by apply (B2 y)].
  - rewrite Hc. by apply setcont_cinv.
Qed.

Lemma setcont_ksim s a x th : ksim s a -> threads s !! x = Some th -> is_asleep th = false ->
  ksim (set_threads (<[x := set_t_cont Creturn th]> (threads s)) s) (a_setcont x Creturn a).
Proof.
  intros [(D & C & Hs) S O] Hx Ha. assert (core (set_threads (<[x := set_t_cont Creturn th]> (threads s)) s) =
    set_threads (<[x := set_t_cont Creturn (er_thread th)]> (threads (core s))) (core s)) as Hc by apply core_threads. constructor.
  - do 2 eexists. by apply setcont_settled.
  - rewrite Hc. destruct S as [S1 S2 S3 S4 S5]. constructor; k_simpl; cbn [a_setcont a_awake a_asleep a_queue a_count a_holder]; [| |done|done|done].
    + rewrite omap_thread, S1. change (awake_cont (set_t_cont Creturn (er_thread th))) with (if is_asleep th then None else Some Creturn). by rewrite Ha.
    + rewrite omap_thread, S2. change (asleep_cont (set_t_cont Creturn (er_thread th))) with (if is_asleep th then Some Creturn else None). rewrite Ha.
      symmetry. apply delete_id. rewrite lookup_omap. unfold core. k_simpl. rewrite lookup_fmap, Hx. cbn.
      change (asleep_cont (er_thread th)) with (if is_asleep th then Some (t_cont th) else None). by rewrite Ha.
  - rewrite Hc. by eapply objs_same; [| | | |exact O].
Qed.

Lemma continue_refines k s a : ksim s a -> on_cpu me t s -> cont_ok k a ->
  wp (b <- continue me k ;; ret (replied b)) (fun r s' => (a_continue t k a).2 = r /\ ksim s' (a_continue t k a).1) s.
Proof.
  intros K Hcpu Hk. destruct k as [| |p|lk|cv lk]; cbn [continue a_continue].
  - by wp_steps.
  - by wp_steps.
  - by apply P_refines.
  - by apply acquire_refines.
  - destruct Hk as [[h Hh] Hq]. destruct (ksim_cv s a cv K Hq) as (y & Hy & Hcv & Hw & Ho). destruct (ksim_lock s a lk h K Hh) as (x & _ & _ & _ & Hne & _).
    pose proof K as [(D & C & Hs) S O]. wp_step. wp_step. wp_apply (enter_spec me t [] D C s (CvSpinlock cv)); [by apply settled_inside|apply not_elem_of_nil| |].
    { destruct (cv_of_core _ _ _ Hy) as (z & Hz & _). cbn [splk_val]. rewrite Hz. by eexists. }
    intros _ s1 [IN1 Hc1]. wp_step. wp_apply (leave_spec me t [] D C s1 (CvSpinlock cv)); [done|apply not_elem_of_nil|]. intros _ s2 [IN2 Hc2].
    rewrite Hc1 in Hc2. unfold lock_acquire. wp_step. apply wp_kassert; [by rewrite (proj2 (Z.eqb_neq lk 0))|]. apply wp_bind_inv, acquire_refines; [|by eapply on_cpu_core|by eexists].
    constructor; [do 2 eexists; by eapply inside_settled|by rewrite Hc2..].
Qed.

Lemma resume_refines k s a : ksim s a -> on_cpu me t s -> a_awake a !! t = Some k -> cont_ok k a ->
  wp (resume me) (fun r s' => (a_resume t k a).2 = r /\ ksim s' (a_resume t k a).1) s.
Proof.
  intros K Hcpu Ha Hok. pose proof K as [(D & C & Hs) S O]. pose proof (on_cpu_running _ _ _ Hcpu (se_inv _ _ _ Hs)) as [Hme Hr [th Hth] Hon].
  rewrite (sm_awake _ _ S), lookup_omap in Ha. unfold core in Ha. k_simpl. rewrite lookup_fmap, Hth in Ha. cbn in Ha.
  change (awake_cont (er_thread th)) with (if is_asleep th then None else Some (t_cont th)) in Ha. destruct (is_asleep th) eqn:Es; [done|]. injection Ha as <-.
  unfold resume. wp_step. apply (wp_curthread me t); [by constructor; eauto|]. wp_step. apply (wp_thread_at t th); [done|]. wp_step. apply (wp_thread_put t th); [done|].
  apply continue_refines; [by apply setcont_ksim|done|by destruct (t_cont th)].
Qed.

(** An idle cpu that looks at its run queue. *)
Lemma idle_refines s a k : ksim s a -> cpus s !! me = Some k -> c_isidle k = true -> wp (idle_again me) (fun _ s' => ksim s' a) s.
Proof.
  intros [(D & C & Hs) S O] Hk Hi. wp_apply (idle_again_spec me D C s k); [done..|]. intros _ s' [Hc Hset].
  destruct (sim_pick (core s) a me (se_inv _ _ _ Hs) S O) as [S' O']. constructor; [done|by rewrite Hc..].
Qed.
End refinement.
