(* ===== verification/SynchInv.v ===== *)
(** * Mutual exclusion and no lost wakeups

    Runs of any number of threads on any number of cpus, calling the
    operations of kern/thread/synch.c in any legal order: who holds which
    lock, what the semaphores count, and that a thread sleeping on an object
    that is available has another thread awake to take it. *)

From S2P Require Import Prelude KHeap Array ThreadState Thread Synch ThreadSwitch ThreadInv SynchSpec SynchSystem.

(** ** Runs *)

(** What the callers did: the locks they got and have not given back, how
    often each semaphore was taken and given. *)
Record ghost := Ghost {
  held : gset (Z * Z);     (* (thread, lock) *)
  taken : Z -> Z;
  given : Z -> Z;
}.

Definition ghost0 : ghost := Ghost ∅ (fun _ => 0) (fun _ => 0).

Definition got_lock (t lk : Z) (r : reply) (g : ghost) : ghost :=
  match r with Returned _ => Ghost (held g ∪ {[(t, lk)]}) (taken g) (given g) | Blocked => g end.
Definition lost_lock (t lk : Z) (g : ghost) : ghost := Ghost (held g ∖ {[(t, lk)]}) (taken g) (given g).
Definition took (p : Z) (r : reply) (g : ghost) : ghost :=
  match r with Returned _ => Ghost (held g) (upd (taken g) p (taken g p + 1)) (given g) | Blocked => g end.
Definition gave (p : Z) (g : ghost) : ghost := Ghost (held g) (taken g) (upd (given g) p (given g p + 1)).

Definition after_call (t : Z) (c : kcall) (r : reply) (g : ghost) : ghost :=
  match c with
  | KP p => took p r g
  | KV p => gave p g
  | KAcquire lk => got_lock t lk r g
  | KRelease lk | KWait _ lk => lost_lock t lk g
  | _ => g
  end.
Definition after_resume (t : Z) (k : cont) (r : reply) (g : ghost) : ghost :=
  match k with
  | CP p => took p r g
  | Cacquire lk | Cwait _ lk => got_lock t lk r g
  | _ => g
  end.

(** What a caller has to respect. *)
Definition may_call (t : Z) (c : kcall) (s : kst) (g : ghost) : Prop :=
  match c with
  | KP p => is_Some (sems s !! p)
  | KV p => exists x, sems s !! p = Some x /\ sem_count x < 2 ^ 32 - 1
  | KAcquire lk | KHold lk => is_Some (slocks s !! lk)
  | KRelease lk => (t, lk) ∈ held g
  | KWait cv lk | KSignal cv lk | KBroadcast cv lk => (t, lk) ∈ held g /\ is_Some (cvs s !! cv)
  | KYield => True
  end.

(** Thread [t] runs on cpu [me] and goes on with [k]. *)
Definition runs (me t : Z) (k : cont) (s : kst) : Prop := on_cpu me t s /\ exists th, threads s !! t = Some th /\ t_cont th = k.

Section runs.
Context `{ThreadHeap}.

Inductive kstep : kst * ghost -> kst * ghost -> Prop :=
  | kstep_call me t c s g r s' : runs me t Creturn s -> may_call t c s g -> run_kcall me c s = Done r s' ->
      kstep (s, g) (s', after_call t c r g)
  | kstep_resume me t k s g r s' : runs me t k s -> k <> Creturn -> resume me s = Done r s' ->
      kstep (s, g) (s', after_resume t k r g)
  | kstep_idle me c s g s' : cpus s !! me = Some c -> c_isidle c = true -> idle_again me s = Done tt s' ->
      kstep (s, g) (s', g).
End runs.

(** ** The invariant of the abstract machine *)

Definition cont_obj (k : cont) : option obj :=
  match k with
  | CP p => Some (OSem p)
  | Cacquire lk => Some (OLock lk)
  | Cwait cv _ => Some (OCv cv)
  | Creturn | Cstart => None
  end.

Record abase (a : ast) : Prop := {
  ab_disj : forall x, is_Some (a_asleep a !! x) -> a_awake a !! x = None;
  ab_queue : forall o l, a_queue a !! o = Some l -> NoDup l /\ forall x, x ∈ l -> exists k, a_asleep a !! x = Some k /\ cont_obj k = Some o;
  ab_awake : forall x k, a_awake a !! x = Some k -> cont_ok k a;
  ab_asleep : forall x k, a_asleep a !! x = Some k -> cont_ok k a;
}.

(** How many awake threads go on with [k]. *)
Definition naw (k : cont) (m : gmap Z cont) : Z := count_val id k m.

(** How many threads an object could serve now, and the threads that come for it. *)
Definition need (a : ast) (o : obj) : Z :=
  match o with
  | OSem p => default 0 (a_count a !! p)
  | OLock lk => if bool_decide (a_holder a !! lk = Some None) then 1 else 0
  | OCv _ => 0
  end.
Definition cont_of (o : obj) : cont :=
  match o with OSem p => CP p | OLock lk => Cacquire lk | OCv _ => Creturn end.

(** No wakeup is lost: when threads sleep on [o], enough threads are awake
    and coming for what it can give. *)
Definition live_at (a : ast) (o : obj) : Prop :=
  forall l, a_queue a !! o = Some l -> l <> [] -> need a o <= naw (cont_of o) (a_awake a).

Record ainv (n0 : Z -> Z) (a : ast) (g : ghost) : Prop := {
  ai_base : abase a;
  ai_live : forall o, live_at a o;
  ai_held : forall t lk, (t, lk) ∈ held g <-> a_holder a !! lk = Some (Some t);
  ai_count : forall p n, a_count a !! p = Some n -> 0 <= n /\ n = n0 p + given g p - taken g p;
}.

(** ** Counting awake threads *)

Lemma naw_pos k m : 0 <= naw k m.
Proof. apply count_nonneg. Qed.

Lemma naw_insert k m x k' : m !! x = None -> naw k (<[x := k']> m) = naw k m + (if decide (k' = k) then 1 else 0).
Proof. apply (count_insert id). Qed.

Lemma naw_delete k m x k' : m !! x = Some k' -> naw k (delete x m) = naw k m - (if decide (k' = k) then 1 else 0).
Proof. apply (count_delete id). Qed.

Lemma naw_some k m : 0 < naw k m -> exists x, m !! x = Some k.
Proof. intros (x & a & Hx & <-)%count_some. by exists x. Qed.

(** ** The invariant is kept *)

(** The objects of [a] are in [a']. *)
Record grows (a a' : ast) : Prop := {
  gr_queue : forall o, is_Some (a_queue a !! o) -> is_Some (a_queue a' !! o);
  gr_count : forall p, is_Some (a_count a !! p) -> is_Some (a_count a' !! p);
  gr_holder : forall p, is_Some (a_holder a !! p) -> is_Some (a_holder a' !! p);
}.

Lemma cont_ok_grows a a' k : grows a a' -> cont_ok k a -> cont_ok k a'.
Proof. intros [G1 G2 G3]. destruct k; cbn [cont_ok]; naive_solver. Qed.

Lemma insert_is_Some' `{Countable K} {A} (m : gmap K A) i j x : is_Some (m !! j) -> is_Some (<[i := x]> m !! j).
Proof. intros Hj. apply lookup_insert_is_Some'. by right. Qed.

Lemma abase_setcount a p n : is_Some (a_count a !! p) -> abase a -> abase (a_setcount p n a).
Proof.
  intros Hp [B1 B2 B3 B4]. assert (grows a (a_setcount p n a)) as G by (constructor; [done|intros q; apply insert_is_Some'|done]).
  constructor; [done|done| |]; intros x k Hx; (eapply cont_ok_grows; [exact G|]); eauto.
Qed.

Lemma abase_setholder a p h : abase a -> abase (a_setholder p h a).
Proof.
  intros [B1 B2 B3 B4]. assert (grows a (a_setholder p h a)) as G by (constructor; [done|done|intros q; apply insert_is_Some']).
  constructor; [done|done| |]; intros x k Hx; (eapply cont_ok_grows; [exact G|]); eauto.
Qed.

Lemma abase_setcont a t k : abase a -> is_Some (a_awake a !! t) -> cont_ok k a -> abase (a_setcont t k a).
Proof.
  intros [B1 B2 B3 B4] [k0 Ht] Hk. constructor; cbn [a_setcont a_awake a_asleep a_queue] in *.
  - intros x Hx. specialize (B1 x Hx). rewrite lookup_insert_ne; [done|congruence].
  - done.
  - intros x k' [[<- <-]|[_ Hx]]%lookup_insert_Some; [done|by apply (B3 x)].
  - intros x k' Hx. by apply (B4 x).
Qed.

(** Taking the first thread off a queue and making it ready. *)
Lemma wake_step a o x l : abase a -> a_queue a !! o = Some (x :: l) ->
  exists k, a_asleep a !! x = Some k /\ cont_obj k = Some o /\
    a_ready x (a_setqueue o l a) = Ast (<[x := k]> (a_awake a)) (delete x (a_asleep a)) (<[o := l]> (a_queue a)) (a_count a) (a_holder a) /\
    abase (a_ready x (a_setqueue o l a)).
Proof.
  intros [B1 B2 B3 B4] Hq. destruct (B2 o _ Hq) as [[Hn Hnd]%NoDup_cons Hl]. destruct (Hl x (list_elem_of_here _ _)) as (k & Hk & Ho).
  exists k. split_and!; [done|done|unfold a_ready; cbn [a_setqueue a_asleep]; by rewrite Hk|].
  unfold a_ready. cbn [a_setqueue a_asleep a_awake a_queue a_count a_holder]. rewrite Hk.
  assert (grows a (Ast (<[x := k]> (a_awake a)) (delete x (a_asleep a)) (<[o := l]> (a_queue a)) (a_count a) (a_holder a))) as G
    by (constructor; [intros q; apply insert_is_Some'|done|done]).
  constructor; cbn [a_awake a_asleep a_queue].
  - intros y [ky Hy]. apply lookup_delete_Some in Hy as [Hne Hy]. rewrite lookup_insert_ne by done. apply B1. by eexists.
  - intros o' l' [[<- <-]|[Hne Hq']]%lookup_insert_Some.
    + split; [done|]. intros y Hy. rewrite lookup_delete_ne by (intros ->; done). apply Hl. by apply list_elem_of_further.
    + destruct (B2 o' l' Hq') as [Hnd' Hl']. split; [done|]. intros y Hy. destruct (Hl' y Hy) as (ky & Hky & Hoy). rewrite lookup_delete_ne; [eauto|]. intros <-. congruence.
  - intros y ky [[<- <-]|[_ Hy]]%lookup_insert_Some; (eapply cont_ok_grows; [exact G|]); eauto.
  - intros y ky [_ Hy]%lookup_delete_Some. eapply cont_ok_grows; [exact G|]. eauto.
Qed.

(** A wakeup on [o] repairs the object when one more thread was needed. *)
Lemma live_wake a o x l k : abase a -> a_queue a !! o = Some (x :: l) -> a_asleep a !! x = Some k -> cont_obj k = Some o ->
  (forall o', o' <> o -> live_at a o') -> need a o <= naw (cont_of o) (a_awake a) + 1 ->
  forall o', live_at (a_ready x (a_setqueue o l a)) o'.
Proof.
  intros B Hq Hk Ho Hl Hneed. destruct (wake_step a o x l B Hq) as (k' & Hk' & _ & E & _). assert (k' = k) as -> by congruence.
  rewrite E. clear E Hk'. intros o' l'. assert (a_awake a !! x = None) as Hx by (apply (ab_disj _ B); by eexists).
  unfold live_at. change (need (Ast _ _ _ (a_count a) (a_holder a)) o') with (need a o'). cbn [a_queue a_awake]. rewrite naw_insert by done.
  intros [[<- <-]|[Hne Hq']]%lookup_insert_Some Hl'.
  - destruct o as [p|p|p].
    + destruct k; try done. injection Ho as ->. cbn [cont_of]. by rewrite decide_True.
    + destruct k; try done. injection Ho as ->. cbn [cont_of]. by rewrite decide_True.
    + cbn [need]. pose proof (naw_pos (cont_of (OCv p)) (a_awake a)). destruct (decide _); lia.
  - pose proof (Hl o' (not_eq_sym Hne) l' Hq' Hl'). destruct (decide _); lia.
Qed.

Lemma wakeone_inv a o : abase a -> (forall o', o' <> o -> live_at a o') ->
  (forall l, a_queue a !! o = Some l -> l <> [] -> need a o <= naw (cont_of o) (a_awake a) + 1) ->
  abase (a_wakeone o a) /\ (forall o', live_at (a_wakeone o a) o').
Proof.
  intros B Hl Hn. unfold a_wakeone. destruct (a_queue a !! o) as [[|x l]|] eqn:Hq.
  - split; [done|]. intros o' l' Hq'. destruct (decide (o' = o)) as [->|]; [congruence|by apply Hl].
  - destruct (wake_step a o x l B Hq) as (k & Hk & Ho & _ & B'). split; [done|]. eapply live_wake; eauto.
  - split; [done|]. intros o' l' Hq'. destruct (decide (o' = o)) as [->|]; [congruence|by apply Hl].
Qed.

Lemma wakeone_frame a o : a_count (a_wakeone o a) = a_count a /\ a_holder (a_wakeone o a) = a_holder a /\
  (forall x k, a_awake a !! x = Some k -> abase a -> a_awake (a_wakeone o a) !! x = Some k) /\ (forall o', is_Some (a_queue a !! o') -> is_Some (a_queue (a_wakeone o a) !! o')).
Proof.
  unfold a_wakeone. destruct (a_queue a !! o) as [[|x l]|] eqn:Hq; [done| |done]. unfold a_ready. cbn [a_setqueue a_asleep].
  destruct (a_asleep a !! x) as [kx|] eqn:Hx.
  - split_and!; [done|done| |]; cbn [a_awake a_queue a_setqueue].
    + intros y k Hy B. rewrite lookup_insert_ne; [done|]. intros ->. rewrite (ab_disj _ B y) in Hy; [done|by eexists].
    + intros o' Ho'. by apply insert_is_Some'.
  - split_and!; [done|done|done|]. cbn [a_queue a_setqueue]. intros o' Ho'. by apply insert_is_Some'.
Qed.

(** A thread that goes to sleep on an object that can serve nobody. *)
Lemma block_inv a t o k : abase a -> (forall o', live_at a o') -> a_awake a !! t = Some Creturn -> need a o = 0 -> cont_obj k = Some o -> cont_ok k a ->
  is_Some (a_queue a !! o) -> abase (a_block t o k a) /\ (forall o', live_at (a_block t o k a) o').
Proof.
  intros [B1 B2 B3 B4] Hl Ht Hn Ho Hk [l Hq]. unfold a_block. rewrite Hq. assert (a_asleep a !! t = None) as Hta.
  { destruct (a_asleep a !! t) eqn:E; [|done]. rewrite B1 in Ht; [done|by eexists]. }
  set (a' := Ast _ _ _ _ _). assert (grows a a') as G by (constructor; [intros q; apply insert_is_Some'|done|done]). split.
  - constructor; unfold a'; cbn [a_awake a_asleep a_queue].
    + intros x [kx Hx]. destruct (decide (t = x)) as [->|Hne]; [apply lookup_delete_eq|]. rewrite lookup_insert_ne in Hx by done. rewrite lookup_delete_ne by done. apply B1. by eexists.
    + intros o' l' [[<- <-]|[Hne Hq']]%lookup_insert_Some.
      * destruct (B2 o l Hq) as [Hnd Hs]. split.
        -- apply NoDup_app. split_and!; [done| |apply NoDup_singleton]. intros x Hx ->%list_elem_of_singleton. destruct (Hs t Hx) as (? & ? & _). congruence.
        -- intros x [Hx|Hx]%elem_of_app; [|apply list_elem_of_singleton in Hx as ->; exists k; by rewrite lookup_insert_eq].
           destruct (Hs x Hx) as (kx & Hkx & Hox). exists kx. rewrite lookup_insert_ne; [done|congruence].
      * destruct (B2 o' l' Hq') as [Hnd Hs]. split; [done|]. intros x Hx. destruct (Hs x Hx) as (kx & Hkx & Hox). exists kx. rewrite lookup_insert_ne; [done|congruence].
    + intros x kx [_ Hx]%lookup_delete_Some. eapply cont_ok_grows; [exact G|]. eauto.
    + intros x kx [[<- <-]|[_ Hx]]%lookup_insert_Some; (eapply cont_ok_grows; [exact G|]); eauto.
  - intros o' l'. change (need a' o') with (need a o'). unfold a'. cbn [a_queue a_awake]. rewrite (naw_delete _ _ _ _ Ht).
    pose proof (naw_pos (cont_of o') (a_awake a)) as Hp. intros [[<- <-]|[Hne Hq']]%lookup_insert_Some Hl'.
    + rewrite Hn. destruct o; cbn [cont_of] in *; [by rewrite decide_False, Z.sub_0_r|by rewrite decide_False, Z.sub_0_r|]. 
      pose proof (naw_pos Creturn (delete t (a_awake a))) as Hp'. by rewrite (naw_delete _ _ _ _ Ht) in Hp'.
    + pose proof (Hl o' l' Hq' Hl') as Hn'. destruct o'; cbn [cont_of need] in *; [by rewrite decide_False, Z.sub_0_r|by rewrite decide_False, Z.sub_0_r|].
      pose proof (naw_pos Creturn (delete t (a_awake a))) as Hp'. by rewrite (naw_delete _ _ _ _ Ht) in Hp'.
Qed.

(** Waking all is waking one after the other. *)
Lemma wakeall_step a o x l : abase a -> a_queue a !! o = Some (x :: l) ->
  a_wakeall o a = a_wakeall o (a_wakeone o a) /\ a_queue (a_wakeone o a) !! o = Some l.
Proof.
  intros B Hq. destruct (wake_step a o x l B Hq) as (k & Hk & Ho & E & _). unfold a_wakeall, a_wakeone. rewrite Hq, E. cbn [a_queue]. rewrite lookup_insert_eq.
  split; [|done]. cbn [foldl]. f_equal. unfold a_ready. cbn [a_setqueue a_asleep a_awake a_queue a_count a_holder]. rewrite Hk. unfold a_setqueue. cbn. by rewrite insert_insert_eq.
Qed.

Lemma wakeall_cv a cv (Q : ast -> Prop) : abase a -> Q a -> is_Some (a_queue a !! OCv cv) ->
  (forall b, abase b -> Q b -> abase (a_wakeone (OCv cv) b) /\ Q (a_wakeone (OCv cv) b)) -> abase (a_wakeall (OCv cv) a) /\ Q (a_wakeall (OCv cv) a).
Proof.
  intros B HQ [l Hq] Hstep. revert a B HQ Hq. induction l as [|x l IH]; intros a B HQ Hq.
  - unfold a_wakeall. rewrite Hq. cbn [foldl]. assert (a_setqueue (OCv cv) [] a = a) as ->; [|done].
    destruct a. unfold a_setqueue. cbn in *. by rewrite insert_id.
  - destruct (wakeall_step a _ x l B Hq) as [-> Hq']. destruct (Hstep a B HQ). by apply IH.
Qed.

(** Every semaphore and lock has its queue. *)
Definition queued (a : ast) : Prop :=
  (forall p, is_Some (a_count a !! p) -> is_Some (a_queue a !! OSem p)) /\ (forall p, is_Some (a_holder a !! p) -> is_Some (a_queue a !! OLock p)).

(** What a thread sees between calls; [miss] is the object the current thread
    came for, which may lack one thread. *)
Record amid (miss : option obj) (n0 : Z -> Z) (a : ast) (g : ghost) : Prop := {
  am_base : abase a;
  am_live : forall o, miss <> Some o -> live_at a o;
  am_miss : forall o l, miss = Some o -> a_queue a !! o = Some l -> l <> [] -> need a o <= naw (cont_of o) (a_awake a) + 1;
  am_held : forall t lk, (t, lk) ∈ held g <-> a_holder a !! lk = Some (Some t);
  am_count : forall p n, a_count a !! p = Some n -> 0 <= n /\ n = n0 p + given g p - taken g p;
  am_queued : queued a;
}.

Lemma amid_ainv n0 a g : amid None n0 a g -> ainv n0 a g.
Proof. intros []. constructor; [done| |done|done]. intros o. by apply am_live0. Qed.
Lemma ainv_amid n0 a g : ainv n0 a g -> queued a -> amid None n0 a g.
Proof. intros [] ?. by constructor. Qed.

Lemma P_inv n0 a g t p miss : amid miss n0 a g -> miss = None \/ miss = Some (OSem p) -> a_awake a !! t = Some Creturn -> is_Some (a_count a !! p) ->
  ainv n0 (a_P t p a).1 (took p (a_P t p a).2 g).
Proof.
  intros [B L1 L2 Hh Hc Hq] Hm Ht [n Hn]. destruct (Hc p n Hn) as [Hpos Hn0]. unfold a_P. rewrite Hn. destruct (n =? 0) eqn:E; boolify; cbn [fst snd took].
  - assert (forall o, live_at a o) as L.
    { intros o. destruct (decide (miss = Some o)) as [Eo|]; [|by apply L1]. destruct Hm as [|Hm]; [congruence|]. assert (o = OSem p) as -> by congruence.
      intros l _ _. cbn [need]. rewrite Hn. cbn [default]. rewrite E. apply naw_pos. }
    destruct (block_inv a t (OSem p) (CP p) B L Ht) as [B' L']; [cbn [need]; by rewrite Hn|done|by eexists|by apply Hq; eexists|].
    destruct Hq as [Hq _]. destruct (Hq p) as [l Hl]; [by eexists|]. constructor; [done|done| |]; unfold a_block; rewrite Hl; done.
  - constructor.
    + by apply abase_setcount; [eexists|].
    + intros o l Hol Hne. cbn [a_setcount a_queue a_awake] in *. destruct (decide (o = OSem p)) as [->|Hop].
      * cbn [need a_setcount a_count]. rewrite lookup_insert_eq. cbn [default]. destruct Hm as [->| ->].
        -- pose proof (L1 (OSem p) ltac:(done) l Hol Hne) as Hx. cbn [need cont_of] in *. rewrite Hn in Hx. cbn in Hx |- *. lia.
        -- pose proof (L2 (OSem p) l eq_refl Hol Hne) as Hx. cbn [need cont_of] in *. rewrite Hn in Hx. cbn in Hx |- *. lia.
      * assert (need (a_setcount p (n - 1) a) o = need a o) as ->.
        { destruct o as [q| |]; cbn [need a_setcount a_count]; [|done|done]. rewrite lookup_insert_ne; [done|congruence]. }
        apply (L1 o) with (l := l); [|done|done]. destruct Hm as [->| ->]; congruence.
    + done.
    + cbn [a_setcount a_count took given taken]. intros q m [[<- <-]|[Hne Hq']]%lookup_insert_Some.
      * unfold upd. rewrite bool_decide_true by done. lia.
      * unfold upd. rewrite bool_decide_false by done. by apply Hc.
Qed.

Lemma acquire_inv n0 a g t lk miss : amid miss n0 a g -> miss = None \/ miss = Some (OLock lk) -> a_awake a !! t = Some Creturn -> is_Some (a_holder a !! lk) ->
  ainv n0 (a_acquire t lk a).1 (got_lock t lk (a_acquire t lk a).2 g).
Proof.
  intros [B L1 L2 Hh Hc Hq] Hm Ht [h Hn]. unfold a_acquire. rewrite Hn. destruct h as [h|]; cbn [fst snd got_lock].
  - assert (need a (OLock lk) = 0) as Hn0 by (cbn [need]; rewrite bool_decide_false; [done|congruence]).
    assert (forall o, live_at a o) as L.
    { intros o. destruct (decide (miss = Some o)) as [Eo|]; [|by apply L1]. destruct Hm as [|Hm]; [congruence|]. assert (o = OLock lk) as -> by congruence.
      intros l _ _. rewrite Hn0. apply naw_pos. }
    destruct Hq as [_ Hq]. destruct (Hq lk) as [l Hl]; [by eexists|].
    destruct (block_inv a t (OLock lk) (Cacquire lk) B L Ht) as [B' L']; [done|done|by eexists|by eexists|].
    constructor; [done|done| |]; unfold a_block; rewrite Hl; done.
  - constructor.
    + by apply abase_setholder.
    + intros o l Hol Hne. cbn [a_setholder a_queue a_awake] in *. destruct (decide (o = OLock lk)) as [->|Hop].
      * cbn [need a_setholder a_holder]. rewrite lookup_insert_eq. rewrite bool_decide_false by done. apply naw_pos.
      * assert (need (a_setholder lk (Some t) a) o = need a o) as ->.
        { destruct o as [|q|]; cbn [need a_setholder a_holder]; [done| |done]. rewrite lookup_insert_ne; [done|congruence]. }
        apply (L1 o) with (l := l); [|done|done]. destruct Hm as [->| ->]; congruence.
    + cbn [a_setholder a_holder held]. intros t' lk'. rewrite elem_of_union, elem_of_singleton, Hh. destruct (decide (lk' = lk)) as [->|Hne].
      * rewrite lookup_insert_eq, Hn. naive_solver.
      * rewrite lookup_insert_ne by done. naive_solver.
    + done.
Qed.

Lemma release_inv n0 a g t lk : amid None n0 a g -> a_holder a !! lk = Some (Some t) -> ainv n0 (a_release lk a) (lost_lock t lk g).
Proof.
  intros [B L1 _ Hh Hc Hq] Hn. unfold a_release. destruct (wakeone_frame (a_setholder lk None a) (OLock lk)) as (Ec & Ehd & _ & _).
  destruct (wakeone_inv (a_setholder lk None a) (OLock lk)) as [B' L'].
  - by apply abase_setholder.
  - intros o Hne l Ho Hl. assert (need (a_setholder lk None a) o = need a o) as ->; [|by apply (L1 o) with (l := l)].
    destruct o as [|q|]; cbn [need a_setholder a_holder]; [done| |done]. rewrite lookup_insert_ne; [done|congruence].
  - intros l _ _. cbn [need a_setholder a_holder]. rewrite lookup_insert_eq, bool_decide_true by done. pose proof (naw_pos (cont_of (OLock lk)) (a_awake (a_setholder lk None a))). lia.
  - constructor; [done|done| |by rewrite Ec]. rewrite Ehd. intros t' lk'. cbn [lost_lock held a_setholder a_holder].
    rewrite elem_of_difference, elem_of_singleton, Hh. destruct (decide (lk' = lk)) as [->|Hne].
    + rewrite lookup_insert_eq, Hn. naive_solver.
    + rewrite lookup_insert_ne by done. naive_solver.
Qed.

Lemma V_inv n0 a g p n : amid None n0 a g -> a_count a !! p = Some n -> ainv n0 (a_wakeone (OSem p) (a_setcount p (n + 1) a)) (gave p g).
Proof.
  intros [B L1 _ Hh Hc Hq] Hn. destruct (wakeone_frame (a_setcount p (n + 1) a) (OSem p)) as (Ec & Ehd & _ & _).
  destruct (wakeone_inv (a_setcount p (n + 1) a) (OSem p)) as [B' L'].
  - by apply abase_setcount; [eexists|].
  - intros o Hne l Ho Hl. assert (need (a_setcount p (n + 1) a) o = need a o) as ->; [|by apply (L1 o) with (l := l)].
    destruct o as [q| |]; cbn [need a_setcount a_count]; [|done|done]. rewrite lookup_insert_ne; [done|congruence].
  - intros l Hl Hne. cbn [need a_setcount a_count]. rewrite lookup_insert_eq. cbn. pose proof (L1 (OSem p) ltac:(done) l Hl Hne) as Hx. cbn [need cont_of] in Hx. rewrite Hn in Hx. cbn in Hx. lia.
  - constructor; [done|done|by rewrite Ehd|]. rewrite Ec. cbn [gave given taken a_setcount a_count]. intros q m [[<- <-]|[Hne Hq']]%lookup_insert_Some.
    + unfold upd. rewrite bool_decide_true by done. destruct (Hc p n Hn). lia.
    + unfold upd. rewrite bool_decide_false by done. by apply Hc.
Qed.

(** Waking threads of a condition variable. *)
Lemma signal_inv n0 a g cv : ainv n0 a g -> ainv n0 (a_wakeone (OCv cv) a) g.
Proof.
  intros [B L Hh Hc]. destruct (wakeone_frame a (OCv cv)) as (Ec & Ehd & _ & _). destruct (wakeone_inv a (OCv cv)) as [B' L']; [done|done| |].
  - intros l _ _. cbn [need]. pose proof (naw_pos (cont_of (OCv cv)) (a_awake a)). lia.
  - constructor; [done|done|by rewrite Ehd|by rewrite Ec].
Qed.

Lemma release_queue a lk o : is_Some (a_queue a !! o) -> is_Some (a_queue (a_release lk a) !! o).
Proof. intros Ho. unfold a_release. destruct (wakeone_frame (a_setholder lk None a) (OLock lk)) as (_ & _ & _ & Hq). by apply Hq. Qed.

Lemma release_awake a lk t k : abase a -> a_awake a !! t = Some k -> a_awake (a_release lk a) !! t = Some k.
Proof. intros B Ht. unfold a_release. destruct (wakeone_frame (a_setholder lk None a) (OLock lk)) as (_ & _ & Hq & _). apply Hq; [done|by apply abase_setholder]. Qed.

Lemma release_holder a lk : is_Some (a_holder a !! lk) -> is_Some (a_holder (a_release lk a) !! lk).
Proof. intros Ho. unfold a_release. destruct (wakeone_frame (a_setholder lk None a) (OLock lk)) as (_ & -> & _ & _). by apply insert_is_Some'. Qed.

Lemma wait_inv n0 a g t cv lk : amid None n0 a g -> a_awake a !! t = Some Creturn -> a_holder a !! lk = Some (Some t) -> is_Some (a_queue a !! OCv cv) ->
  ainv n0 (a_block t (OCv cv) (Cwait cv lk) (a_release lk a)) (lost_lock t lk g).
Proof.
  intros M Ht Hh Hq. pose proof (release_inv n0 a g t lk M Hh) as [B L Hd Hc].
  destruct (block_inv (a_release lk a) t (OCv cv) (Cwait cv lk)) as [B' L']; [done|done|by apply release_awake; [destruct M|]|done|done| |by apply release_queue|].
  - split; [apply release_holder; by eexists|by apply release_queue].
  - destruct (release_queue a lk _ Hq) as [l Hl]. constructor; [done|done|..]; unfold a_block; by rewrite Hl.
Qed.

Lemma call_inv n0 a g t c : ainv n0 a g -> queued a -> a_awake a !! t = Some Creturn -> legal t c a ->
  ainv n0 (a_call t c a).1 (after_call t c (a_call t c a).2 g).
Proof.
  intros A Q Ht Hl. pose proof (ainv_amid _ _ _ A Q) as M. destruct c as [p|p|lk|lk|lk|cv lk|cv lk|cv lk|]; cbn [a_call after_call legal fst snd] in *.
  - eapply P_inv; eauto.
  - destruct Hl as (n & Hn & _). rewrite Hn. by apply V_inv.
  - eapply acquire_inv; eauto.
  - by apply release_inv.
  - done.
  - destruct Hl. by apply wait_inv.
  - by apply signal_inv.
  - destruct Hl as [_ Hq]. apply (wakeall_cv a cv (fun b => ainv n0 b g)); [by destruct A|done|done|].
    intros b B A'. pose proof (signal_inv _ _ _ cv A') as A2. split; [by destruct A2|done].
  - done.
Qed.

(** A woken thread that goes on was the one its object counts on. *)
Lemma setcont_mid n0 a g t k : ainv n0 a g -> queued a -> a_awake a !! t = Some k -> k <> Creturn ->
  amid (cont_obj k) n0 (a_setcont t Creturn a) g.
Proof.
  intros [B L Hh Hc] Q Ht Hk. assert (forall k', naw k' (<[t := Creturn]> (a_awake a)) = naw k' (a_awake a) - (if decide (k = k') then 1 else 0) + (if decide (Creturn = k') then 1 else 0)) as En.
  { intros k'. rewrite <- insert_delete_eq, naw_insert by apply lookup_delete_eq. by rewrite (naw_delete _ _ _ _ Ht). }
  constructor; [apply abase_setcont; [done|by eexists|done]| | |done|done|done].
  - intros o Ho l Hl Hne. change (need (a_setcont t Creturn a) o) with (need a o). cbn [a_setcont a_awake a_queue] in *. rewrite En.
    pose proof (L o l Hl Hne) as Hx. destruct (decide (k = cont_of o)) as [->|]; [|destruct (decide _); lia]. by destruct o.
  - intros o l Ho Hl Hne. change (need (a_setcont t Creturn a) o) with (need a o). cbn [a_setcont a_awake a_queue] in *. rewrite En.
    pose proof (L o l Hl Hne) as Hx. repeat destruct (decide _); lia.
Qed.

Lemma amid_cv n0 a g cv : amid (Some (OCv cv)) n0 a g -> amid None n0 a g.
Proof.
  intros [B L1 L2 Hh Hc Q]. constructor; [done| |done|done|done|done]. intros o _. destruct (decide (o = OCv cv)) as [->|]; [|apply L1; congruence].
  intros l _ _. apply naw_pos.
Qed.

Lemma resume_inv n0 a g t k : ainv n0 a g -> queued a -> a_awake a !! t = Some k -> k <> Creturn ->
  ainv n0 (a_resume t k a).1 (after_resume t k (a_resume t k a).2 g).
Proof.
  intros A Q Ht Hk. pose proof (setcont_mid n0 a g t k A Q Ht Hk) as M. pose proof (ab_awake _ (ai_base _ _ _ A) t k Ht) as Hok.
  assert (a_awake (a_setcont t Creturn a) !! t = Some Creturn) as Ht' by apply lookup_insert_eq. unfold a_resume.
  destruct k as [| |p|lk|cv lk]; cbn [a_continue after_resume cont_obj cont_ok] in *.
  - done.
  - by apply amid_ainv.
  - eapply P_inv; eauto.
  - eapply acquire_inv; eauto.
  - apply amid_cv in M. destruct Hok. eapply acquire_inv; eauto.
Qed.

(** ** Runs keep the invariant *)

Definition sysinv (n0 : Z -> Z) (sg : kst * ghost) : Prop := exists a, ksim sg.1 a /\ ainv n0 a sg.2.

Lemma ksim_queued s a : ksim s a -> queued a.
Proof.
  intros K. split; intros p [x Hx].
  - destruct (ksim_sem s a p x K Hx) as (y & _ & _ & _ & _ & Hw & Ho). rewrite (sim_queue_some _ _ _ _ (km_sim _ _ K) Ho). by apply fmap_is_Some.
  - destruct (ksim_lock s a p x K Hx) as (y & _ & _ & _ & _ & Hw & Ho). rewrite (sim_queue_some _ _ _ _ (km_sim _ _ K) Ho). by apply fmap_is_Some.
Qed.

Lemma ksim_count s a p x : ksim s a -> sems s !! p = Some x -> a_count a !! p = Some (sem_count x).
Proof. intros K Hx. rewrite (sm_count _ _ (km_sim _ _ K)), lookup_fmap. unfold core. k_simpl. by rewrite lookup_fmap, Hx. Qed.

Lemma ksim_holder s a p x : ksim s a -> slocks s !! p = Some x -> a_holder a !! p = Some (lk_owner x).
Proof. intros K Hx. rewrite (sm_holder _ _ (km_sim _ _ K)), lookup_fmap. unfold core. k_simpl. by rewrite lookup_fmap, Hx. Qed.

Lemma ksim_cvqueue s a p : ksim s a -> is_Some (cvs s !! p) -> is_Some (a_queue a !! OCv p).
Proof.
  intros K [x Hx]. assert (obj_wchan (core s) (OCv p) = Some (cv_wchan x)) as Ho by (cbn [obj_wchan]; unfold core; k_simpl; by rewrite lookup_fmap, Hx).
  rewrite (sim_queue_some _ _ _ _ (km_sim _ _ K) Ho). apply fmap_is_Some. by destruct (ob_wchan _ (km_objs _ _ K) _ _ Ho).
Qed.

(** A running thread is awake. *)
Lemma ksim_runs s a me t k : ksim s a -> runs me t k s -> a_awake a !! t = Some k.
Proof.
  intros [(D & C & Hs) S O] [(c & Hc & Hi & <-) (th & Hth & <-)]. assert (cpus (core s) !! me = Some (er_cpu c)) as Hcc by (unfold core; k_simpl; by rewrite lookup_fmap, Hc).
  destruct (ci_cpu _ (se_inv _ _ _ Hs) me _ Hcc) as (_ & _ & t' & Ht' & _ & Hid). cbn [er_cpu c_curthread c_isidle] in *.
  rewrite (sm_awake _ _ S), lookup_omap, Ht'. cbn. unfold core in Ht'. k_simpl. rewrite lookup_fmap, Hth in Ht'. injection Ht' as <-.
  unfold awake_cont, is_asleep. rewrite bool_decide_false; [done|]. by rewrite (proj1 Hid Hi).
Qed.

Lemma may_call_legal n0 s g a t c : ksim s a -> ainv n0 a g -> may_call t c s g -> legal t c a.
Proof.
  intros K A Hm. destruct c as [p|p|lk|lk|lk|cv lk|cv lk|cv lk|]; cbn [may_call legal] in *; try done.
  - destruct Hm as [x Hx]. eexists. by eapply ksim_count.
  - destruct Hm as (x & Hx & Hc). eexists. split; [by eapply ksim_count|done].
  - destruct Hm as [x Hx]. eexists. by eapply ksim_holder.
  - by apply (ai_held _ _ _ A).
  - destruct Hm as [x Hx]. eexists. by eapply ksim_holder.
  - destruct Hm. split; [by apply (ai_held _ _ _ A)|by eapply ksim_cvqueue].
  - destruct Hm. split; [by apply (ai_held _ _ _ A)|by eapply ksim_cvqueue].
  - destruct Hm. split; [by apply (ai_held _ _ _ A)|by eapply ksim_cvqueue].
Qed.

Section system.
Context `{ThreadHeap}.

Lemma kstep_inv n0 sg sg' : sysinv n0 sg -> kstep sg sg' -> sysinv n0 sg'.
Proof.
  intros (a & K & A) Hst. destruct Hst as [me t c s g r s' Hr Hm E|me t k s g r s' Hr Hk E|me c s g s' Hc Hi E]; cbn [fst snd] in *.
  - pose proof (ksim_runs _ _ _ _ _ K Hr) as Ha. pose proof (may_call_legal _ _ _ _ _ _ K A Hm) as Hl. destruct Hr as [Hcpu _].
    pose proof (kcall_refines me t c s a K Hcpu Ha Hl) as W. unfold wp in W. rewrite E in W. destruct W as [<- K'].
    eexists. split; [exact K'|]. apply call_inv; [done|by eapply ksim_queued|done|done].
  - pose proof (ksim_runs _ _ _ _ _ K Hr) as Ha. destruct Hr as [Hcpu _].
    pose proof (resume_refines me t k s a K Hcpu Ha (ab_awake _ (ai_base _ _ _ A) t k Ha)) as W. unfold wp in W. rewrite E in W. destruct W as [<- K'].
    eexists. split; [exact K'|]. apply resume_inv; [done|by eapply ksim_queued|done|done].
  - pose proof (idle_refines me s a c K Hc Hi) as W. unfold wp in W. rewrite E in W. by exists a.
Qed.

Lemma ksteps_inv n0 sg sg' : sysinv n0 sg -> rtc kstep sg sg' -> sysinv n0 sg'.
Proof. intros I. induction 1 as [|x y z Hxy _ IH]; [done|]. apply IH. by eapply kstep_inv. Qed.
End system.

(** ** The start *)

(** The abstract state of a core. *)
Definition abs_synch (c : kst) : ast :=
  let q (w : Z) := default [] (wc_threads <$> wchans c !! w) in
  Ast (omap awake_cont (threads c)) (omap asleep_cont (threads c))
    (kmap OSem ((fun x => q (sem_wchan x)) <$> sems c) ∪ (kmap OLock ((fun x => q (lk_wchan x)) <$> slocks c) ∪ kmap OCv ((fun x => q (cv_wchan x)) <$> cvs c)))
    (sem_count <$> sems c) (lk_owner <$> slocks c).

#[export] Instance OSem_inj : Inj (=) (=) OSem.
Proof. by intros ?? [=]. Qed.
#[export] Instance OLock_inj : Inj (=) (=) OLock.
Proof. by intros ?? [=]. Qed.
#[export] Instance OCv_inj : Inj (=) (=) OCv.
Proof. by intros ?? [=]. Qed.

Lemma kmap_none (f : Z -> obj) `{!Inj (=) (=) f} (m : gmap Z (list Z)) o : (forall i, f i <> o) -> (kmap f m : gmap obj (list Z)) !! o = None.
Proof. intros Hf. apply lookup_kmap_None; [done|]. intros i E. by destruct (Hf i). Qed.

Lemma abs_synch_sim c : objs_ok c -> sim c (abs_synch c).
Proof.
  intros O. constructor; [done|done| |done|done]. intros o. cbn [abs_synch a_queue].
  destruct o as [p|p|p].
  - destruct (sems c !! p) as [x|] eqn:Hx.
    + assert (obj_wchan c (OSem p) = Some (sem_wchan x)) as Ho by (cbn [obj_wchan]; by rewrite Hx). destruct (ob_wchan _ O _ _ Ho) as [_ [wc Hw]].
      rewrite Ho. cbn [mbind option_bind]. rewrite Hw. apply lookup_union_Some_l. rewrite (lookup_kmap OSem), lookup_fmap, Hx. cbn. by rewrite Hw.
    + cbn [obj_wchan]. rewrite Hx. cbn. rewrite lookup_union_None_2; [done| |]; [by rewrite (lookup_kmap OSem), lookup_fmap, Hx|].
      rewrite lookup_union_None_2; [done|by apply (kmap_none _)..].
  - rewrite lookup_union_r by (by apply (kmap_none _)). destruct (slocks c !! p) as [x|] eqn:Hx.
    + assert (obj_wchan c (OLock p) = Some (lk_wchan x)) as Ho by (cbn [obj_wchan]; by rewrite Hx). destruct (ob_wchan _ O _ _ Ho) as [_ [wc Hw]].
      rewrite Ho. cbn [mbind option_bind]. rewrite Hw. apply lookup_union_Some_l. rewrite (lookup_kmap OLock), lookup_fmap, Hx. cbn. by rewrite Hw.
    + cbn [obj_wchan]. rewrite Hx. cbn. rewrite lookup_union_None_2; [done| |]; [by rewrite (lookup_kmap OLock), lookup_fmap, Hx|by apply (kmap_none _)].
  - rewrite lookup_union_r, lookup_union_r by (by apply (kmap_none _)). rewrite (lookup_kmap OCv), lookup_fmap. cbn [obj_wchan]. destruct (cvs c !! p) as [x|] eqn:Hx; [|done].
    assert (obj_wchan c (OCv p) = Some (cv_wchan x)) as Ho by (cbn [obj_wchan]; by rewrite Hx). destruct (ob_wchan _ O _ _ Ho) as [_ [wc Hw]]. cbn. by rewrite Hw.
Qed.
