(* ===== verification/ThreadExample.v ===== *)
(** * A small thread system

    A heap that satisfies the interface of the thread system, and a machine
    of two cpus and three threads with a semaphore, a lock and a condition
    variable, on which the theorems about threads can be run. *)

From S2P Require Import Prelude KHeap Array ThreadState Thread Synch ThreadSwitch ThreadInv SynchSpec SynchSystem SynchInv.

(** ** A heap: the next block is above all live ones *)

Definition kx_fresh (s : kst) : Z := 1 + foldr Z.max 0 (elements (kheap s)).

Definition kx_kmalloc (sz : Z) : M kst Z := fun s =>
  Done (kx_fresh s) (set_kheap ({[kx_fresh s]} ∪ kheap s) s).

Definition kx_kfree (p : Z) : M kst unit := fun s =>
  if p =? 0 then Done tt s
  else if bool_decide (p ∈ kheap s) then Done tt (set_kheap (kheap s ∖ {[p]}) s) else Fault.

Definition kx_side (s s' : kst) : Prop := s' = set_kheap (kheap s') s.

Lemma kx_fresh_spec s : 0 < kx_fresh s /\ kx_fresh s ∉ kheap s.
Proof.
  unfold kx_fresh. pose proof (foldr_max_nonneg (elements (kheap s))). split; [lia|].
  intros H'. apply elem_of_elements, foldr_max_le in H'. lia.
Qed.

#[export, program] Instance kx_kmalloc_inst : KMalloc kst := {|
  kmalloc := kx_kmalloc;
  kfree := kx_kfree;
  heap_live := kheap;
  heap_ok := fun _ => True;
  heap_side := kx_side;
|}.
Next Obligation.
  split; [intros s; unfold kx_side; by destruct s|]. intros a b c Hab Hbc. unfold kx_side in *. by rewrite Hbc, Hab.
Qed.
Next Obligation. done. Qed.
Next Obligation. intros sz s _. destruct (kx_fresh_spec s). split; [done|]. right. done. Qed.
Next Obligation.
  intros p s _ Hp Hin. unfold wp, kx_kfree. rewrite (proj2 (Z.eqb_neq p 0)) by done. by rewrite bool_decide_eq_true_2.
Qed.
Next Obligation. intros s _. unfold wp, kx_kfree. simpl. split; [|done]. unfold kx_side. by destruct s. Qed.

#[export, program] Instance kx_heap : ThreadHeap := {| th_kmalloc := kx_kmalloc_inst |}.
Next Obligation. done. Qed.
Next Obligation. done. Qed.
Next Obligation. by intros s s' E. Qed.

(** ** Two cpus *)

Definition kx_cpu (cur : Z) (q : list Z) : cpu := Cpu cur [] 0 true false q free_spinlock 0 free_spinlock.

Definition kx_running (c : Z) : thread := Thread 50 S_RUN 60 Creturn 0 0 c 0 false IPL_NONE 0.
Definition kx_ready (c : Z) : thread := Thread 50 S_READY 60 Creturn 0 0 c 0 false IPL_HIGH 2.

(** Threads 101 and 102 run, thread 103 waits on the first cpu's queue. *)
Definition kx_state : kst :=
  Kst (<[1 := kx_cpu 101 [103]]> (<[2 := kx_cpu 102 []]> ∅))
    (<[101 := kx_running 1]> (<[102 := kx_running 2]> (<[103 := kx_ready 1]> ∅)))
    (<[21 := Wchan 51 [] 0]> (<[22 := Wchan 52 [] 1]> (<[23 := Wchan 53 [] 2]> ∅)))
    (Array [] 0 0 0) free_spinlock
    (<[11 := Semaphore 51 21 free_spinlock 0]> ∅)
    (<[12 := Lock 52 0 0 free_spinlock 22]> ∅)
    (<[13 := Cv 53 23 free_spinlock]> ∅)
    ∅ ∅.

(** The state after a call that ends. *)
Definition end_state {A} (m : M kst A) (s : kst) : kst := match m s with Done _ s' => s' | _ => s end.
Definition kx_reply (m : M kst reply) (s : kst) : reply := match m s with Done r _ => r | _ => Blocked end.
