(* ===== verification/SynchProps.v ===== *)
(** * What the synchronisation objects promise

    The theorems about every run of the kernel's threads that starts from a
    state where all threads are awake and the objects are fresh, and a
    concrete system of two cpus that meets their hypotheses. *)

From S2P Require Import Prelude KHeap Array ThreadState Thread Synch ThreadSwitch ThreadInv SynchSpec SynchSystem SynchInv ThreadExample.

(** ** The start *)

Record kbooted (s : kst) : Prop := {
  bo_settled : exists D C, settled D C s;
  bo_objs : objs_ok (core s);
  bo_threads : forall x t, threads s !! x = Some t -> t_state t <> S_SLEEP /\ (t_cont t = Creturn \/ t_cont t = Cstart);
  bo_wchans : forall w wc, wchans s !! w = Some wc -> wc_threads wc = [];
  bo_locks : forall p x, slocks s !! p = Some x -> lk_lock x = 0;
}.

(** The count a semaphore has in [s]. *)
Definition sem_val (s : kst) (p : Z) : Z := default 0 (sem_count <$> sems s !! p).

Lemma booted_awake s : kbooted s -> omap asleep_cont (threads (core s)) = ∅ /\
  forall x k, omap awake_cont (threads (core s)) !! x = Some k -> k = Creturn \/ k = Cstart.
Proof.
  intros [_ _ B _ _]. split.
  - apply map_empty. intros x. rewrite lookup_omap. unfold core. k_simpl. rewrite lookup_fmap. destruct (threads s !! x) as [t|] eqn:Ht; [|done]. cbn.
    destruct (B x t Ht) as [Hst _]. unfold asleep_cont, is_asleep. by rewrite bool_decide_false.
  - intros x k. rewrite lookup_omap. unfold core. k_simpl. rewrite lookup_fmap. destruct (threads s !! x) as [t|] eqn:Ht; [|done]. cbn.
    destruct (B x t Ht) as [Hst Hc]. unfold awake_cont, is_asleep. rewrite bool_decide_false by done. intros [= <-]. done.
Qed.

Lemma kbooted_inv s : kbooted s -> sysinv (sem_val s) (s, ghost0).
Proof.
  intros Bo. destruct (booted_awake s Bo) as [Hsl Haw]. destruct Bo as [Hset O _ Hw Hl]. pose proof (abs_synch_sim _ O) as S. exists (abs_synch (core s)).
  split; [by constructor|]. assert (forall o l, a_queue (abs_synch (core s)) !! o = Some l -> l = []) as Hq.
  { intros o l. rewrite (sm_queue _ _ S). destruct (obj_wchan (core s) o) as [w|]; [|done]. cbn. intros E. apply fmap_Some in E as (wc & Ewc & ->).
    by apply (Hw w). }
  constructor.
  - constructor.
    + intros x [k Hk]. rewrite (sm_asleep _ _ S), Hsl in Hk. done.
    + intros o l Ho. rewrite (Hq o l Ho). split; [constructor|]. by intros x ?%not_elem_of_nil.
    + intros x k Hk. destruct (Haw x k Hk) as [->| ->]; done.
    + intros x k Hk. rewrite (sm_asleep _ _ S), Hsl in Hk. done.
  - intros o l Ho Hne. by rewrite (Hq o l Ho) in Hne.
  - intros t lk. split; [set_solver|]. rewrite (sm_holder _ _ S), lookup_fmap. unfold core. k_simpl. rewrite lookup_fmap.
    destruct (slocks s !! lk) as [x|] eqn:Hx; [|done]. cbn. unfold lk_owner. cbn [er_lock lk_lock]. by rewrite (Hl lk x Hx).
  - intros p n. rewrite (sm_count _ _ S), lookup_fmap. unfold sem_val. destruct (sems (core s) !! p) as [x|] eqn:Hx; [|done]. cbn. intros [= <-].
    pose proof (ob_sem _ O p x Hx). unfold core in Hx. k_simpl. rewrite lookup_fmap in Hx. apply fmap_Some in Hx as (y & -> & ->). cbn in *. lia.
Qed.

(** The threads awake that go on with [k]. *)
Definition coming (s : kst) (k : cont) : Z := naw k (omap awake_cont (threads s)).

Lemma awake_core s : omap awake_cont (threads (core s)) = omap awake_cont (threads s).
Proof. apply map_eq. intros x. rewrite !lookup_omap. unfold core. k_simpl. rewrite lookup_fmap. by destruct (threads s !! x). Qed.

Lemma awake_thread s a y k : ksim s a -> a_awake a !! y = Some k -> exists y t, threads s !! y = Some t /\ t_state t <> S_SLEEP /\ t_cont t = k.
Proof.
  intros K. rewrite (sm_awake _ _ (km_sim _ _ K)), awake_core, lookup_omap. destruct (threads s !! y) as [t|] eqn:Ht; [|done]. cbn. unfold awake_cont, is_asleep.
  case_bool_decide; [done|]. intros [= <-]. eauto.
Qed.

Lemma ksim_queue s a o w wc : ksim s a -> obj_wchan (core s) o = Some w -> wchans s !! w = Some wc -> a_queue a !! o = Some (wc_threads wc).
Proof. intros K Ho Hw. rewrite (sim_queue_some _ _ _ _ (km_sim _ _ K) Ho). change (wchans (core s)) with (wchans s). by rewrite Hw. Qed.

Lemma lock_wchan_core s lk x : slocks s !! lk = Some x -> obj_wchan (core s) (OLock lk) = Some (lk_wchan x).
Proof. intros Hx. cbn [obj_wchan]. unfold core. k_simpl. by rewrite lookup_fmap, Hx. Qed.
Lemma sem_wchan_core s p x : sems s !! p = Some x -> obj_wchan (core s) (OSem p) = Some (sem_wchan x).
Proof. intros Hx. cbn [obj_wchan]. unfold core. k_simpl. by rewrite lookup_fmap, Hx. Qed.

(** ** Where a thread is *)

Inductive place := Running (c : Z) | Queued (c : Z) | Sleeping (w : Z).

Definition at_place (s : kst) (x : Z) (pl : place) : Prop :=
  match pl with
  | Running c => exists k, cpus s !! c = Some k /\ c_isidle k = false /\ c_curthread k = x
  | Queued c => exists k, cpus s !! c = Some k /\ x ∈ c_runqueue k
  | Sleeping w => exists wc, wchans s !! w = Some wc /\ x ∈ wc_threads wc
  end.

Lemma core_lookup_cpu s c k : cpus s !! c = Some k -> cpus (core s) !! c = Some (er_cpu k).
Proof. intros Hk. unfold core. k_simpl. by rewrite lookup_fmap, Hk. Qed.

Definition place_of (t : thread) : place :=
  match t_state t with S_RUN => Running (t_cpu t) | S_SLEEP => Sleeping (t_wchan t) | _ => Queued (t_cpu t) end.

(** The record of a thread names its place. *)
Lemma at_place_of s x t pl : cinv (core s) -> threads s !! x = Some t -> at_place s x pl -> pl = place_of t.
Proof.
  intros I Hx Hp. assert (threads (core s) !! x = Some (er_thread t)) as Hxc by (unfold core; k_simpl; by rewrite lookup_fmap, Hx). unfold place_of. destruct pl as [c|c|w].
  - destruct Hp as (k & Hk & Hi & Hc). destruct (ci_cpu _ I c _ (core_lookup_cpu _ _ _ Hk)) as (_ & _ & t' & Ht' & Hcpu & Hid).
    cbn [er_cpu c_curthread c_isidle] in *. rewrite Hc, Hxc in Ht'. injection Ht' as <-. cbn [er_thread t_cpu t_state] in *. by rewrite (proj1 Hid Hi), Hcpu.
  - destruct Hp as (k & Hk & Hq). destruct (ci_rq _ I c _ (core_lookup_cpu _ _ _ Hk)) as [_ Hr]. destruct (Hr x Hq) as (t' & Ht' & Hst & Hcpu).
    rewrite Hxc in Ht'. injection Ht' as <-. cbn [er_thread t_cpu t_state] in *. by rewrite Hst, Hcpu.
  - destruct Hp as (wc & Hw & Hq). destruct (ci_wc _ I w wc Hw) as [_ Hr]. destruct (Hr x Hq) as (t' & Ht' & Hst & Hwc).
    rewrite Hxc in Ht'. injection Ht' as <-. cbn [er_thread t_wchan t_state] in *. by rewrite Hst, Hwc.
Qed.

Lemma one_place s x t : cinv (core s) -> threads s !! x = Some t -> exists pl, at_place s x pl /\ forall pl', at_place s x pl' -> pl' = pl.
Proof.
  intros I Hx. exists (place_of t). split; [|intros pl'; by apply at_place_of]. assert (threads (core s) !! x = Some (er_thread t)) as Hxc by (unfold core; k_simpl; by rewrite lookup_fmap, Hx).
  destruct (ci_th _ I x _ Hxc) as (_ & kc & Hkc & Hp). destruct (cpu_of_core _ _ _ Hkc) as (k & Hk & ->). unfold placed, place_of in *. cbn [er_thread t_state t_cpu t_wchan er_cpu c_isidle c_curthread c_runqueue] in *.
  destruct (t_state t); cbn [at_place]; [by exists k; destruct Hp|by exists k|done|done].
Qed.

Section promises.
Context `{ThreadHeap}.

Lemma run_inv s0 s g : kbooted s0 -> rtc kstep (s0, ghost0) (s, g) -> exists a, ksim s a /\ ainv (sem_val s0) a g.
Proof. intros B R. destruct (ksteps_inv _ _ _ (kbooted_inv s0 B) R) as (a & K & A). by exists a. Qed.

(** C2: every operation of synch.c (and thread_yield) refines its definition on the abstract machine: called by the running thread with existing objects, a lock released or a condition variable used by the lock's holder and a semaphore below UINT_MAX, it ends without panic, fault or endless spinning, gives the caller the reply the machine gives, and leaves the kernel in a state of the machine's next state. *)
Theorem synch_calls_refine me t c s a : ksim s a -> runs me t Creturn s -> legal t c a ->
  exists r s', run_kcall me c s = Done r s' /\ r = (a_call t c a).2 /\ ksim s' (a_call t c a).1.
Proof.
  intros K Hr Hl. destruct (proj1 (wp_done _ _ _) (kcall_refines me t c s a K (proj1 Hr) (ksim_runs _ _ _ _ _ K Hr) Hl)) as (r & s' & E & <- & K'). by eexists _, s'.
Qed.

(** C17: in every run, a legal call, the rest of a call after a wakeup and an idle cpu's look at its run queue all end normally: no assertion of thread.c, spinlock.c, spl.c or synch.c fails and no spinlock is waited for in vain. *)
Theorem synch_runs_safe s0 s g : kbooted s0 -> rtc kstep (s0, ghost0) (s, g) ->
  (forall me t c, runs me t Creturn s -> may_call t c s g -> exists r s', run_kcall me c s = Done r s') /\
  (forall me t k, runs me t k s -> exists r s', resume me s = Done r s') /\
  (forall me c, cpus s !! me = Some c -> c_isidle c = true -> exists s', idle_again me s = Done tt s').
Proof.
  intros B R. destruct (run_inv s0 s g B R) as (a & K & A). split_and!.
  - intros me t c Hr Hm. destruct (proj1 (wp_done _ _ _) (kcall_refines me t c s a K (proj1 Hr) (ksim_runs _ _ _ _ _ K Hr) (may_call_legal _ _ _ _ _ _ K A Hm))) as (r & s' & E & _). eauto.
  - intros me t k Hr. pose proof (ksim_runs _ _ _ _ _ K Hr) as Ha.
    destruct (proj1 (wp_done _ _ _) (resume_refines me t k s a K (proj1 Hr) Ha (ab_awake _ (ai_base _ _ _ A) t k Ha))) as (r & s' & E & _). eauto.
  - intros me c Hc Hi. destruct (proj1 (wp_done _ _ _) (idle_refines me s a c K Hc Hi)) as ([] & s' & E & _). eauto.
Qed.

(** C21: mutual exclusion: in every run a lock that some thread got (from lock_acquire, or back from cv_wait) and has not given up is marked held by that thread in struct lock, and no other thread has it. *)
Theorem lock_mutual_exclusion s0 s g t1 t2 lk : kbooted s0 -> rtc kstep (s0, ghost0) (s, g) -> (t1, lk) ∈ held g ->
  (exists x, slocks s !! lk = Some x /\ lk_lock x = 1 /\ lk_holder x = t1) /\ ((t2, lk) ∈ held g -> t2 = t1).
Proof.
  intros B R H1. destruct (run_inv s0 s g B R) as (a & K & A). apply (ai_held _ _ _ A) in H1. split.
  - destruct (ksim_lock s a lk _ K H1) as (x & Hx & [Hl Ho]%holder_owner & _). destruct (lock_of_core _ _ _ Hx) as (x0 & Hx0 & ->). by exists x0.
  - intros H2. apply (ai_held _ _ _ A) in H2. congruence.
Qed.

(** C22: no lost wakeup on locks: in every run, when a lock is free and threads sleep on it, some thread is awake inside lock_acquire of that lock and will take it. *)
Theorem lock_no_lost_wakeup s0 s g lk x wc : kbooted s0 -> rtc kstep (s0, ghost0) (s, g) ->
  slocks s !! lk = Some x -> lk_lock x = 0 -> wchans s !! lk_wchan x = Some wc -> wc_threads wc <> [] ->
  exists y t, threads s !! y = Some t /\ t_state t <> S_SLEEP /\ t_cont t = Cacquire lk.
Proof.
  intros B R Hx Hl Hw Hne. destruct (run_inv s0 s g B R) as (a & K & A).
  assert (need a (OLock lk) = 1) as Hn.
  { cbn [need]. rewrite (ksim_holder s a lk x K Hx). unfold lk_owner. by rewrite Hl. }
  pose proof (ai_live _ _ _ A (OLock lk) (wc_threads wc)) as L. rewrite Hn in L. cbn [cont_of] in L.
  destruct (naw_some (Cacquire lk) (a_awake a)) as [y Hy]; [|by eapply awake_thread].
  specialize (L (ksim_queue s a (OLock lk) _ wc K (lock_wchan_core _ _ _ Hx) Hw) Hne). lia.
Qed.

(** no lost wakeup on semaphores: in every run, when threads sleep on a semaphore, at least as many threads as its count are awake inside P on it and will take it. *)
Theorem sem_no_lost_wakeup s0 s g p x wc : kbooted s0 -> rtc kstep (s0, ghost0) (s, g) ->
  sems s !! p = Some x -> wchans s !! sem_wchan x = Some wc -> wc_threads wc <> [] -> sem_count x <= coming s (CP p).
Proof.
  intros B R Hx Hw Hne. destruct (run_inv s0 s g B R) as (a & K & A).
  pose proof (ai_live _ _ _ A (OSem p) (wc_threads wc) (ksim_queue s a (OSem p) _ wc K (sem_wchan_core _ _ _ Hx) Hw) Hne) as L.
  cbn [need cont_of] in L. rewrite (ksim_count s a p x K Hx), (sm_awake _ _ (km_sim _ _ K)), awake_core in L. done.
Qed.

(** a semaphore's count is what it started with plus the V calls made on it minus the P calls that returned, and is never negative: no more P calls return than the count allows. *)
Theorem sem_conservation s0 s g p x : kbooted s0 -> rtc kstep (s0, ghost0) (s, g) -> sems s !! p = Some x ->
  sem_count x = sem_val s0 p + given g p - taken g p /\ taken g p <= sem_val s0 p + given g p.
Proof.
  intros B R Hx. destruct (run_inv s0 s g B R) as (a & K & A). destruct (ai_count _ _ _ A p _ (ksim_count s a p x K Hx)). lia.
Qed.

(** in every run each thread is in exactly one place, the one its state names: current on a cpu that is not idle, on one run queue, or on one wait channel, and on no list twice. *)
Theorem threads_one_place s0 s g y t : kbooted s0 -> rtc kstep (s0, ghost0) (s, g) -> threads s !! y = Some t ->
  (exists pl, at_place s y pl /\ forall pl', at_place s y pl' -> pl' = pl) /\
  (forall c k, cpus s !! c = Some k -> NoDup (c_runqueue k)) /\ (forall w wc, wchans s !! w = Some wc -> NoDup (wc_threads wc)).
Proof.
  intros B R Hy. destruct (run_inv s0 s g B R) as (a & [(D & C & Hs) _ _] & _). pose proof (se_inv _ _ _ Hs) as I. split_and!.
  - by eapply one_place.
  - intros c k Hk. by apply (ci_rq _ I c (er_cpu k)), core_lookup_cpu.
  - intros w wc Hw. by apply (ci_wc _ I w wc).
Qed.
End promises.

(** ** The small system *)

(** Case analysis on the finitely many entries of a concrete map. *)
Ltac kx_cases := repeat (match goal with
  | E : <[_ := _]> _ !! _ = Some _ |- _ => apply lookup_insert_Some in E as [[<- <-]|[_ E]]
  | E : (∅ : gmap _ _) !! _ = Some _ |- _ => by rewrite lookup_empty in E
  end).

Definition kx_D (x : Z) : Z := if x =? 103 then 2 else 0.
Definition kx_C (x : Z) : Z := if x =? 103 then 1 else 0.

Lemma kx_core : core kx_state = Kst (cpus kx_state) (<[101 := kx_running 1]> (<[102 := kx_running 2]> (<[103 := set_t_curspl 0 (set_t_iplhigh_count 0 (kx_ready 1))]> ∅)))
  (wchans kx_state) (allwchans kx_state) free_spinlock (sems kx_state) (slocks kx_state) (cvs kx_state) ∅ ∅.
Proof. vm_compute. reflexivity. Qed.

Lemma kx_cinv : cinv (core kx_state).
Proof.
  rewrite kx_core. constructor; k_simpl.
  - intros c k Hk. unfold kx_state in Hk. k_simpl. kx_cases; (split_and!; [done|done|]); eexists; (split; [by vm_compute|]); done.
  - intros c k Hk. unfold kx_state in Hk. k_simpl. kx_cases; k_simpl.
    + split; [apply NoDup_singleton|]. intros x ->%list_elem_of_singleton. eexists. split; [by vm_compute|]. done.
    + split; [constructor|]. by intros x ?%not_elem_of_nil.
  - intros x t Ht. kx_cases; (split; [done|]); eexists; (split; [by vm_compute|]); [done|done|apply list_elem_of_here].
  - intros w wc Hw. unfold kx_state in Hw. k_simpl. kx_cases; (split; [constructor|]); by intros x ?%not_elem_of_nil.
Qed.

Lemma kx_settled : settled kx_D kx_C kx_state.
Proof.
  constructor; [|constructor|apply kx_cinv].
  - intros me. constructor.
    + intros l v Hv. rewrite bool_decide_false by apply not_elem_of_nil. destruct l; cbn [splk_val] in Hv; try (apply fmap_Some in Hv as (k & Hk & ->)); unfold kx_state in *; k_simpl; kx_cases; try done. by injection Hv as <-.
    + intros c k Hk. unfold kx_state in Hk. k_simpl. kx_cases; by case_bool_decide.
    + intros x t Ht. unfold kx_state in Ht. k_simpl. kx_cases; done.
    + intros x. unfold kx_D. destruct (x =? 103); lia.
    + intros x t Ht. unfold kx_state in Ht. k_simpl. kx_cases; by left.
    + intros c k Hk. unfold kx_state in Hk. k_simpl. kx_cases; done.
  - intros x t Ht. rewrite kx_core in Ht. k_simpl. kx_cases; intros Hst; try done; by (split; [|left]).
  - intros x t Ht. rewrite kx_core in Ht. k_simpl. kx_cases; intros Hst; done.
Qed.

Lemma kx_objs : objs_ok (core kx_state).
Proof.
  rewrite kx_core. constructor; k_simpl.
  - intros [p|p|p] w Ho; cbn [obj_wchan] in Ho; apply fmap_Some in Ho as (x & Hx & ->); unfold kx_state in *; k_simpl; kx_cases; (split; [done|]); eexists; by vm_compute.
  - intros [p|p|p] [q|q|q] w Ho Hp; cbn [obj_wchan] in Ho, Hp; apply fmap_Some in Ho as (x & Hx & ->); apply fmap_Some in Hp as (y & Hy & E); unfold kx_state in *; k_simpl; kx_cases; done.
  - intros p x Hx. unfold kx_state in Hx. k_simpl. kx_cases. cbn. lia.
  - intros p x Hx. unfold kx_state in Hx. k_simpl. kx_cases. by left.
Qed.

Lemma kx_booted : kbooted kx_state.
Proof.
  constructor; [do 2 eexists; apply kx_settled|apply kx_objs|..]; intros i x Hx; unfold kx_state in Hx; k_simpl; kx_cases; try done; (split; [done|by left]).
Qed.

(** One call of the run: cpu, thread, call. *)
Definition kx_do (sg : kst * ghost) (e : Z * Z * kcall) : kst * ghost :=
  let '(me, t, c) := e in
  (end_state (run_kcall me c) sg.1, after_call t c (kx_reply (run_kcall me c) sg.1) sg.2).

Definition is_done {A} (o : outcome kst A) : bool := match o with Done _ _ => true | _ => false end.

Definition runs_b (me t : Z) (s : kst) : bool :=
  match cpus s !! me, threads s !! t with
  | Some k, Some th => negb (c_isidle k) && (c_curthread k =? t) && bool_decide (t_cont th = Creturn)
  | _, _ => false
  end.

Definition may_call_b (t : Z) (c : kcall) (s : kst) (g : ghost) : bool :=
  match c with
  | KP p => bool_decide (is_Some (sems s !! p))
  | KV p => match sems s !! p with Some x => sem_count x <? 2 ^ 32 - 1 | None => false end
  | KAcquire lk | KHold lk => bool_decide (is_Some (slocks s !! lk))
  | KRelease lk => bool_decide ((t, lk) ∈ held g)
  | KWait cv lk | KSignal cv lk | KBroadcast cv lk => bool_decide ((t, lk) ∈ held g) && bool_decide (is_Some (cvs s !! cv))
  | KYield => true
  end.

Lemma runs_b_spec me t s : runs_b me t s = true -> runs me t Creturn s.
Proof.
  unfold runs_b. destruct (cpus s !! me) as [k|] eqn:Hk; [|done]. destruct (threads s !! t) as [th|] eqn:Ht; [|done].
  intros [[H1 H2]%andb_prop H3%bool_decide_eq_true]%andb_prop. boolify. split; [|by exists th]. exists k. by destruct (c_isidle k).
Qed.

Lemma may_call_b_spec t c s g : may_call_b t c s g = true -> may_call t c s g.
Proof.
  destruct c; cbn [may_call_b may_call]; try (by intros ?%bool_decide_eq_true); try (intros [?%bool_decide_eq_true ?%bool_decide_eq_true]%andb_prop; done); try done.
  destruct (sems s !! sem) as [x|]; [|done]. intros ?%Z.ltb_lt. by exists x.
Qed.

(** Every call of the list is legal and ends. *)
Fixpoint run_b (sg : kst * ghost) (es : list (Z * Z * kcall)) : bool :=
  match es with
  | [] => true
  | e :: es => let '(me, t, c) := e in
      runs_b me t sg.1 && may_call_b t c sg.1 sg.2 && is_done (run_kcall me c sg.1) && run_b (kx_do sg e) es
  end.

Lemma run_b_spec es sg : run_b sg es = true -> rtc kstep sg (foldl kx_do sg es).
Proof.
  revert sg. induction es as [|[[me t] c] es IH]; intros [s g] Hb; [by apply rtc_refl|]. cbn [run_b foldl] in *.
  apply andb_prop in Hb as [[[H1%runs_b_spec H2%may_call_b_spec]%andb_prop H3]%andb_prop H4]. eapply rtc_l; [|by apply IH].
  unfold kx_do, end_state, kx_reply. cbn [fst snd] in *. destruct (run_kcall me c s) as [r s'| | |] eqn:E; [|done..]. by apply (kstep_call me).
Qed.

(** The lock: 101 gets it, 102 and 103 sleep on it, 101 gives it back. *)
Definition kx_lock_calls : list (Z * Z * kcall) := [(1, 101, KAcquire 12); (2, 102, KAcquire 12); (1, 101, KYield); (1, 103, KAcquire 12)].
Definition kx_lock_held : kst * ghost := foldl kx_do (kx_state, ghost0) kx_lock_calls.
Definition kx_lock_free : kst * ghost := foldl kx_do (kx_state, ghost0) (kx_lock_calls ++ [(1, 101, KRelease 12)]).

Lemma kx_lock_held_run : rtc kstep (kx_state, ghost0) (kx_lock_held.1, kx_lock_held.2).
Proof. rewrite <- surjective_pairing. apply run_b_spec. vm_compute. reflexivity. Qed.

Lemma kx_lock_free_run : rtc kstep (kx_state, ghost0) (kx_lock_free.1, kx_lock_free.2).
Proof. rewrite <- surjective_pairing. apply run_b_spec. vm_compute. reflexivity. Qed.

(** The semaphore: 102 and 103 sleep on it, 101 gives it. *)
Definition kx_sem_given : kst * ghost :=
  foldl kx_do (kx_state, ghost0) [(2, 102, KP 11); (1, 101, KYield); (1, 103, KP 11); (1, 101, KV 11)].

Lemma kx_sem_given_run : rtc kstep (kx_state, ghost0) (kx_sem_given.1, kx_sem_given.2).
Proof. rewrite <- surjective_pairing. apply run_b_spec. vm_compute. reflexivity. Qed.

(** ** The theorems on the small system *)

Lemma synch_calls_refine_witness : exists r s', run_kcall 1 (KAcquire 12) kx_state = Done r s' /\
  r = (a_call 101 (KAcquire 12) (abs_synch (core kx_state))).2 /\ ksim s' (a_call 101 (KAcquire 12) (abs_synch (core kx_state))).1.
Proof.
  apply (synch_calls_refine 1 101 (KAcquire 12) kx_state (abs_synch (core kx_state))).
  - constructor; [do 2 eexists; apply kx_settled|apply abs_synch_sim, kx_objs|apply kx_objs].
  - by apply runs_b_spec.
  - hnf. eexists. vm_compute. reflexivity.
Defined.

Lemma synch_runs_safe_witness : exists s', idle_again 2 kx_lock_held.1 = Done tt s'.
Proof.
  eapply (proj2 (proj2 (synch_runs_safe kx_state kx_lock_held.1 kx_lock_held.2 kx_booted kx_lock_held_run))); vm_compute; reflexivity.
Defined.

Lemma lock_mutual_exclusion_witness : exists x, slocks kx_lock_held.1 !! 12 = Some x /\ lk_lock x = 1 /\ lk_holder x = 101.
Proof.
  apply (lock_mutual_exclusion kx_state kx_lock_held.1 kx_lock_held.2 101 101 12 kx_booted kx_lock_held_run). apply (bool_decide_unpack _). vm_compute. exact I.
Defined.

Lemma lock_no_lost_wakeup_witness : exists y t, threads kx_lock_free.1 !! y = Some t /\ t_state t <> S_SLEEP /\ t_cont t = Cacquire 12.
Proof.
  apply (lock_no_lost_wakeup kx_state kx_lock_free.1 kx_lock_free.2 12 (Lock 52 0 0 free_spinlock 22) (Wchan 52 [103] 1) kx_booted kx_lock_free_run); [vm_compute; reflexivity|done|vm_compute; reflexivity|done].
Defined.

Lemma sem_no_lost_wakeup_witness : 1 <= coming kx_sem_given.1 (CP 11).
Proof.
  apply (sem_no_lost_wakeup kx_state kx_sem_given.1 kx_sem_given.2 11 (Semaphore 51 21 free_spinlock 1) (Wchan 51 [103] 0) kx_booted kx_sem_given_run); [vm_compute; reflexivity|vm_compute; reflexivity|done].
Defined.

Lemma sem_conservation_witness : 1 = sem_val kx_state 11 + given kx_sem_given.2 11 - taken kx_sem_given.2 11.
Proof.
  apply (sem_conservation kx_state kx_sem_given.1 kx_sem_given.2 11 (Semaphore 51 21 free_spinlock 1) kx_booted kx_sem_given_run). vm_compute. reflexivity.
Defined.

Lemma threads_one_place_witness : exists pl, at_place kx_state 103 pl /\ forall pl', at_place kx_state 103 pl' -> pl' = pl.
Proof.
  apply (threads_one_place kx_state kx_state ghost0 103 (kx_ready 1) kx_booted (rtc_refl _ _)). vm_compute. reflexivity.
Defined.
