(* ===== verification/Balloon.v ===== *)
(** * The balloon problem (kern/synchprobs/airballoon.c)

    Dandelion and Marigold cut ropes, eight Lords FlowerKiller exchange the
    stakes of ropes, the balloon waits until no rope is left, and the main
    thread waits for all of them and destroys the locks.  The threads are
    interleaved: a step is one access to a shared variable, one operation on a
    lock or a semaphore, one choice of random ropes; only the assignment of
    one stake to another reads and writes in one step, with the locks of
    both ropes held ([KMove]).  A step that would
    release a lock the thread does not hold, take one it holds already or use
    one that was destroyed is a crash.  The locks and semaphores are what the
    theorems of the synchronisation objects say of them; they are taken to
    have been created.  [ropelist] is kept as one list per field; [hook] is
    written once and never read, and what is printed has no effect. *)

From S2P Require Import Prelude.

Definition N_LORD_FLOWERKILLER : nat := 8.
Definition NROPES : nat := 16.

(** ** Threads *)

(** Where a thread is, with its local variables. *)
Inductive cutter_pc :=
| CIdle
| CTest                          (* while (ropes_left > 0) *)
| CPick
| CAcquire (r : nat)
| CCheck (r : nat)
| CCut (r : nat)
| CLeftAcquire (r : nat)
| CLoad (r : nat)                (* ropes_left--, in two steps *)
| CStore (r : nat) (v : Z)
| CLeftRelease (r : nat)
| CRelease (r : nat)
| CSignal
| CGone.

Inductive killer_pc :=
| KIdle
| KTest                          (* while (ropes_left > 1) *)
| KPick
| KAcquire1 (rope1 rope2 : nat)
| KAcquire2 (rope1 rope2 : nat)
| KCheck1 (rope1 rope2 : nat)
| KCheck2 (rope1 rope2 : nat)
| KLoad (rope1 rope2 : nat)      (* the exchange of the stakes *)
| KMove (rope1 rope2 : nat) (temp : Z)
| KStore (rope1 rope2 : nat) (temp : Z)
| KRelease1 (rope1 rope2 : nat)
| KRelease2 (rope2 : nat)
| KSignal
| KGone.

Inductive balloon_pc := BIdle | BTest | BSignal | BGone.

(** [MFork k] starts the thread number [k], [MWait k] waits for the [k]th,
    [MPanic k] stopped when it could not start the [k]th. *)
Inductive main_pc :=
| MFork (k : nat)
| MWait (k : nat)
| MReset
| MDestroy
| MDone
| MPanic (k : nat).

(** Cutter 0 is Dandelion, cutter 1 Marigold. *)
Inductive who := Cutter (i : nat) | Killer (k : nat) | TheBalloon | Main.

#[export] Instance who_eq_dec : EqDecision who.
Proof. solve_decision. Defined.

(** ** The shared variables *)

Record bst := Bst {
  ropes_left : Z;
  stake : list Z;
  cut : list bool;
  rope_lock : list (option who);   (* who holds each *)
  ropes_left_lock : option who;
  cutter_done : list Z;            (* dandelion_done, marigold_done *)
  flowerkiller_done : Z;
  balloon_done : Z;
  destroyed : bool;
  cutters : list cutter_pc;
  killers : list killer_pc;
  balloon : balloon_pc;
  main : main_pc;
}.

Definition set_ropes_left x s := Bst x (stake s) (cut s) (rope_lock s) (ropes_left_lock s) (cutter_done s) (flowerkiller_done s) (balloon_done s) (destroyed s) (cutters s) (killers s) (balloon s) (main s).
Definition set_stake x s := Bst (ropes_left s) x (cut s) (rope_lock s) (ropes_left_lock s) (cutter_done s) (flowerkiller_done s) (balloon_done s) (destroyed s) (cutters s) (killers s) (balloon s) (main s).
Definition set_cut x s := Bst (ropes_left s) (stake s) x (rope_lock s) (ropes_left_lock s) (cutter_done s) (flowerkiller_done s) (balloon_done s) (destroyed s) (cutters s) (killers s) (balloon s) (main s).
Definition set_rope_lock x s := Bst (ropes_left s) (stake s) (cut s) x (ropes_left_lock s) (cutter_done s) (flowerkiller_done s) (balloon_done s) (destroyed s) (cutters s) (killers s) (balloon s) (main s).
Definition set_left_lock x s := Bst (ropes_left s) (stake s) (cut s) (rope_lock s) x (cutter_done s) (flowerkiller_done s) (balloon_done s) (destroyed s) (cutters s) (killers s) (balloon s) (main s).
Definition set_done c f b s := Bst (ropes_left s) (stake s) (cut s) (rope_lock s) (ropes_left_lock s) c f b (destroyed s) (cutters s) (killers s) (balloon s) (main s).
Definition set_destroyed s := Bst (ropes_left s) (stake s) (cut s) (rope_lock s) (ropes_left_lock s) (cutter_done s) (flowerkiller_done s) (balloon_done s) true (cutters s) (killers s) (balloon s) (main s).
Definition set_cutter i p s := Bst (ropes_left s) (stake s) (cut s) (rope_lock s) (ropes_left_lock s) (cutter_done s) (flowerkiller_done s) (balloon_done s) (destroyed s) (<[i := p]> (cutters s)) (killers s) (balloon s) (main s).
Definition set_killer k p s := Bst (ropes_left s) (stake s) (cut s) (rope_lock s) (ropes_left_lock s) (cutter_done s) (flowerkiller_done s) (balloon_done s) (destroyed s) (cutters s) (<[k := p]> (killers s)) (balloon s) (main s).
Definition set_balloon p s := Bst (ropes_left s) (stake s) (cut s) (rope_lock s) (ropes_left_lock s) (cutter_done s) (flowerkiller_done s) (balloon_done s) (destroyed s) (cutters s) (killers s) p (main s).
Definition set_main p s := Bst (ropes_left s) (stake s) (cut s) (rope_lock s) (ropes_left_lock s) (cutter_done s) (flowerkiller_done s) (balloon_done s) (destroyed s) (cutters s) (killers s) (balloon s) p.

(** After [init_mappings]; the static value of [ropes_left] is put back by
    [airballoon] each time. *)
Definition init_mappings : bst :=
  Bst (Z.of_nat NROPES) (seqZ 0 (Z.of_nat NROPES)) (replicate NROPES false) (replicate NROPES None) None
    [0; 0] 0 0 false [CIdle; CIdle] (replicate N_LORD_FLOWERKILLER KIdle) BIdle (MFork 0).

(** ** Steps *)

Inductive bresult := Step (s : bst) | Blocked | Crash.

(** [lock_acquire], [lock_release], [V], [P] on an existing object. *)
Definition lock_take (s : bst) (t : who) (o : option who) (f : option who -> bst) : bresult :=
  if destroyed s then Crash else
  match o with
  | None => Step (f (Some t))
  | Some u => if decide (u = t) then Crash else Blocked
  end.

Definition lock_give (s : bst) (t : who) (o : option who) (f : option who -> bst) : bresult :=
  if destroyed s then Crash else
  if decide (o = Some t) then Step (f None) else Crash.

Definition acquire_rope (t : who) (r : nat) (s : bst) : bresult :=
  match rope_lock s !! r with
  | None => Crash
  | Some o => lock_take s t o (fun x => set_rope_lock (<[r := x]> (rope_lock s)) s)
  end.

Definition release_rope (t : who) (r : nat) (s : bst) : bresult :=
  match rope_lock s !! r with
  | None => Crash
  | Some o => lock_give s t o (fun x => set_rope_lock (<[r := x]> (rope_lock s)) s)
  end.

Definition and_then (o : bresult) (f : bst -> bst) : bresult :=
  match o with Step s => Step (f s) | _ => o end.

Definition signal (s : bst) (s' : bst) : bresult := if destroyed s then Crash else Step s'.

(** [random() % NROPES]. *)
Definition random_rope (c : Z) : nat := Z.to_nat (c mod Z.of_nat NROPES).

(** [dandelion], [marigold]. *)
Definition cutter_step (i : nat) (c : Z) (s : bst) : bresult :=
  let t := Cutter i in
  match cutters s !! i with
  | None | Some CIdle | Some CGone => Blocked
  | Some p =>
  match p with
  | CIdle | CGone => Blocked
  | CTest => Step (set_cutter i (if 0 <? ropes_left s then CPick else CSignal) s)
  | CPick => Step (set_cutter i (CAcquire (random_rope c)) s)
  | CAcquire r => and_then (acquire_rope t r s) (set_cutter i (CCheck r))
  | CCheck r =>
      match (cut s !! r : option bool) with
      | None => Crash
      | Some b => Step (set_cutter i (if b then CRelease r else CCut r) s)
      end
  | CCut r => Step (set_cutter i (CLeftAcquire r) (set_cut (<[r := true]> (cut s)) s))
  | CLeftAcquire r => and_then (lock_take s t (ropes_left_lock s) (fun x => set_left_lock x s)) (set_cutter i (CLoad r))
  | CLoad r => Step (set_cutter i (CStore r (ropes_left s)) s)
  | CStore r v => Step (set_cutter i (CLeftRelease r) (set_ropes_left (v - 1) s))
  | CLeftRelease r => and_then (lock_give s t (ropes_left_lock s) (fun x => set_left_lock x s)) (set_cutter i (CRelease r))
  | CRelease r => and_then (release_rope t r s) (set_cutter i CTest)
  | CSignal => signal s (set_cutter i CGone (set_done (alter (Z.add 1) i (cutter_done s)) (flowerkiller_done s) (balloon_done s) s))
  end
  end.

(** [flowerkiller]. *)
Definition killer_step (k : nat) (c1 c2 : Z) (s : bst) : bresult :=
  let t := Killer k in
  match killers s !! k with
  | None | Some KIdle | Some KGone => Blocked
  | Some p =>
  match p with
  | KIdle | KGone => Blocked
  | KTest => Step (set_killer k (if 1 <? ropes_left s then KPick else KSignal) s)
  | KPick =>
      let rope1 := random_rope c1 in
      let rope2 := random_rope c2 in
      Step (set_killer k (if (rope1 =? rope2)%nat then KTest
                          else if (rope2 <? rope1)%nat then KAcquire1 rope2 rope1 else KAcquire1 rope1 rope2) s)
  | KAcquire1 a b => and_then (acquire_rope t a s) (set_killer k (KAcquire2 a b))
  | KAcquire2 a b => and_then (acquire_rope t b s) (set_killer k (KCheck1 a b))
  | KCheck1 a b =>
      match (cut s !! a : option bool) with
      | None => Crash
      | Some x => Step (set_killer k (if x then KRelease1 a b else KCheck2 a b) s)
      end
  | KCheck2 a b =>
      match (cut s !! b : option bool) with
      | None => Crash
      | Some x => Step (set_killer k (if x then KRelease1 a b else KLoad a b) s)
      end
  | KLoad a b =>
      match stake s !! a with
      | None => Crash
      | Some temp => Step (set_killer k (KMove a b temp) s)
      end
  | KMove a b temp =>
      match stake s !! b with
      | None => Crash
      | Some x => Step (set_killer k (KStore a b temp) (set_stake (<[a := x]> (stake s)) s))
      end
  | KStore a b temp => Step (set_killer k (KRelease1 a b) (set_stake (<[b := temp]> (stake s)) s))
  | KRelease1 a b => and_then (release_rope t a s) (set_killer k (KRelease2 b))
  | KRelease2 b => and_then (release_rope t b s) (set_killer k KTest)
  | KSignal => signal s (set_killer k KGone (set_done (cutter_done s) (flowerkiller_done s + 1) (balloon_done s) s))
  end
  end.

(** [balloon]. *)
Definition balloon_step (s : bst) : bresult :=
  match balloon s with
  | BIdle | BGone => Blocked
  | BTest => if 0 <? ropes_left s then Step s else Step (set_balloon BSignal s)
  | BSignal => signal s (set_balloon BGone (set_done (cutter_done s) (flowerkiller_done s) (balloon_done s + 1) s))
  end.

(** The threads in the order they are started: Marigold, Dandelion, the lords,
    the balloon. *)
Definition forked (k : nat) (s : bst) : bst :=
  if (k =? 0)%nat then set_cutter 1 CTest s
  else if (k =? 1)%nat then set_cutter 0 CTest s
  else if (k <? 2 + N_LORD_FLOWERKILLER)%nat then set_killer (k - 2) KTest s
  else set_balloon BTest s.

Definition last_thread : nat := 2 + N_LORD_FLOWERKILLER.

(** The semaphores in the order they are waited for: Dandelion's, Marigold's,
    the lords' eight times, the balloon's. *)
Definition semaphore_of (k : nat) (s : bst) : Z :=
  if (k <? 2)%nat then default 0 (cutter_done s !! k)
  else if (k <? last_thread)%nat then flowerkiller_done s else balloon_done s.

Definition semaphore_dec (k : nat) (s : bst) : bst :=
  if (k <? 2)%nat then set_done (alter (fun v => v - 1) k (cutter_done s)) (flowerkiller_done s) (balloon_done s) s
  else if (k <? last_thread)%nat then set_done (cutter_done s) (flowerkiller_done s - 1) (balloon_done s) s
  else set_done (cutter_done s) (flowerkiller_done s) (balloon_done s - 1) s.

(** [destroy_resources].  No thread may hold a lock that is destroyed
    (kern/include/synch.h); [lock_destroy] itself does not check it, so that
    breaking this rule counts as a crash here. *)
Definition destroy_resources (s : bst) : bresult :=
  if bool_decide (Forall (fun o => o = None) (rope_lock s)) && bool_decide (ropes_left_lock s = None) then Step (set_destroyed s) else Crash.

(** [airballoon]; [c] is what [thread_fork] returns. *)
Definition main_step (c : Z) (s : bst) : bresult :=
  match main s with
  | MFork k =>
      if c =? 0 then Step (set_main (if (k <? last_thread)%nat then MFork (S k) else MWait 0) (forked k s))
      else Step (set_main (MPanic k) s)
  | MWait k =>
      if 0 <? semaphore_of k s then Step (set_main (if (k <? last_thread)%nat then MWait (S k) else MReset) (semaphore_dec k s))
      else Blocked
  | MReset => Step (set_main MDestroy (set_ropes_left (Z.of_nat NROPES) s))
  | MDestroy => and_then (destroy_resources s) (set_main MDone)
  | MDone | MPanic _ => Blocked
  end.

Definition step (t : who) (c1 c2 : Z) (s : bst) : bresult :=
  match t with
  | Cutter i => cutter_step i c1 s
  | Killer k => killer_step k c1 c2 s
  | TheBalloon => balloon_step s
  | Main => main_step c1 s
  end.

Inductive reach : bst -> Prop :=
| reach_init : reach init_mappings
| reach_step s t c1 c2 s' : reach s -> step t c1 c2 s = Step s' -> reach s'.
