(* ===== verification/BalloonInv.v ===== *)
(** The invariant of the balloon problem: who holds which lock, how many
    ropes are left, where the stakes are, what the semaphores count. *)
From S2P Require Import Prelude Balloon.

(** ** Where the threads are *)

Definition cpc (s : bst) (i : nat) : cutter_pc := default CIdle (cutters s !! i).
Definition kpc (s : bst) (k : nat) : killer_pc := default KIdle (killers s !! k).

(** The ropes whose locks a thread holds. *)
Definition cutter_ropes (p : cutter_pc) : list nat :=
  match p with
  | CCheck r | CCut r | CLeftAcquire r | CLoad r | CStore r _ | CLeftRelease r | CRelease r => [r]
  | _ => []
  end.

Definition killer_ropes (p : killer_pc) : list nat :=
  match p with
  | KAcquire2 a b => [a]
  | KCheck1 a b | KCheck2 a b | KLoad a b | KMove a b _ | KStore a b _ | KRelease1 a b => [a; b]
  | KRelease2 b => [b]
  | _ => []
  end.

Definition cutter_left (p : cutter_pc) : bool := match p with CLoad _ | CStore _ _ | CLeftRelease _ => true | _ => false end.

Definition held (t : who) (s : bst) : list nat :=
  match t with
  | Cutter i => cutter_ropes (cpc s i)
  | Killer k => killer_ropes (kpc s k)
  | _ => []
  end.

Definition holds_left (t : who) (s : bst) : bool := match t with Cutter i => cutter_left (cpc s i) | _ => false end.

(** The ropes in a thread's variables exist, and a lord's are in order. *)
Definition cutter_ok (p : cutter_pc) : Prop :=
  match p with
  | CAcquire r | CCheck r | CCut r | CLeftAcquire r | CLoad r | CStore r _ | CLeftRelease r | CRelease r => (r < NROPES)%nat
  | _ => True
  end.

Definition killer_ok (p : killer_pc) : Prop :=
  match p with
  | KAcquire1 a b | KAcquire2 a b | KCheck1 a b | KCheck2 a b | KLoad a b | KMove a b _ | KStore a b _ | KRelease1 a b => (a < b < NROPES)%nat
  | KRelease2 b => (b < NROPES)%nat
  | _ => True
  end.

Lemma cpc_Some s i p : cutters s !! i = Some p -> cpc s i = p.
Proof. unfold cpc. by intros ->. Qed.

Lemma kpc_Some s k p : killers s !! k = Some p -> kpc s k = p.
Proof. unfold kpc. by intros ->. Qed.

Lemma default_insert {A} (d x : A) (l : list A) i j y : l !! i = Some y -> default d (<[i := x]> l !! j) = if decide (j = i) then x else default d (l !! j).
Proof.
  intros Hi. apply lookup_lt_Some in Hi. case_decide as E; [subst; by rewrite list_lookup_insert_eq|by rewrite list_lookup_insert_ne].
Qed.

(** ** Locks *)

Record locks (s : bst) : Prop := {
  lk_ropes : length (rope_lock s) = NROPES;
  lk_cutters : length (cutters s) = 2%nat;
  lk_killers : length (killers s) = N_LORD_FLOWERKILLER;
  lk_rope : forall r t, rope_lock s !! r = Some (Some t) <-> r ∈ held t s;
  lk_left : forall t, ropes_left_lock s = Some t <-> holds_left t s = true;
  lk_cutter_ok : forall i, cutter_ok (cpc s i);
  lk_killer_ok : forall k, killer_ok (kpc s k);
  lk_destroyed : destroyed s = true -> forall t, held t s = [] /\ holds_left t s = false }.

(** Taking and giving back one lock of a family. *)
Lemma owner_same (l : list (option who)) (h h' : who -> list nat) t : (forall r u, l !! r = Some (Some u) <-> r ∈ h u) ->
  (forall u, u <> t -> h' u = h u) -> (forall r, r ∈ h' t <-> r ∈ h t) -> forall r u, l !! r = Some (Some u) <-> r ∈ h' u.
Proof. intros Hl Hu Ht r u. rewrite Hl. destruct (decide (u = t)) as [->|Hn]; [by rewrite Ht|by rewrite Hu]. Qed.

Lemma owner_take (l : list (option who)) (h h' : who -> list nat) t q : (forall r u, l !! r = Some (Some u) <-> r ∈ h u) -> l !! q = Some None ->
  (forall u, u <> t -> h' u = h u) -> (forall r, r ∈ h' t <-> r = q \/ r ∈ h t) -> forall r u, <[q := Some t]> l !! r = Some (Some u) <-> r ∈ h' u.
Proof.
  intros Hl Hq Hu Ht r u. pose proof (lookup_lt_Some _ _ _ Hq). destruct (decide (r = q)) as [->|Hn].
  - rewrite list_lookup_insert_eq by done. destruct (decide (u = t)) as [->|Hnu]; [rewrite Ht; naive_solver|]. rewrite Hu by done. split; [intros [= ->]; done|]. intros Hin%Hl. congruence.
  - rewrite list_lookup_insert_ne, Hl by done. destruct (decide (u = t)) as [->|Hnu]; [rewrite Ht; naive_solver|by rewrite Hu].
Qed.

Lemma owner_give (l : list (option who)) (h h' : who -> list nat) t q : (forall r u, l !! r = Some (Some u) <-> r ∈ h u) -> l !! q = Some (Some t) ->
  (forall u, u <> t -> h' u = h u) -> (forall r, r ∈ h' t <-> r <> q /\ r ∈ h t) -> forall r u, <[q := None]> l !! r = Some (Some u) <-> r ∈ h' u.
Proof.
  intros Hl Hq Hu Ht r u. pose proof (lookup_lt_Some _ _ _ Hq). destruct (decide (r = q)) as [->|Hn].
  - rewrite list_lookup_insert_eq by done. split; [done|]. destruct (decide (u = t)) as [->|Hnu]; [rewrite Ht; naive_solver|]. rewrite Hu by done. intros Hin%Hl. congruence.
  - rewrite list_lookup_insert_ne, Hl by done. destruct (decide (u = t)) as [->|Hnu]; [rewrite Ht; naive_solver|by rewrite Hu].
Qed.

(** A thread that does not take part in a step stays where it is. *)
Lemma cpc_set s i j p q : cutters s !! i = Some q -> cpc (set_cutter i p s) j = if decide (j = i) then p else cpc s j.
Proof. intros Hi. unfold cpc. cbn [cutters set_cutter]. by eapply default_insert. Qed.

Lemma kpc_set s k j p q : killers s !! k = Some q -> kpc (set_killer k p s) j = if decide (j = k) then p else kpc s j.
Proof. intros Hi. unfold kpc. cbn [killers set_killer]. by eapply default_insert. Qed.

Lemma held_cutter s i p q u : cutters s !! i = Some q -> u <> Cutter i -> held u (set_cutter i p s) = held u s /\ holds_left u (set_cutter i p s) = holds_left u s.
Proof.
  intros Hi Hu. destruct u as [j|k| |]; cbn [held holds_left]; try done. rewrite (cpc_set _ _ _ _ _ Hi). rewrite decide_False by congruence. done.
Qed.

Lemma held_killer s k p q u : killers s !! k = Some q -> u <> Killer k -> held u (set_killer k p s) = held u s /\ holds_left u (set_killer k p s) = holds_left u s.
Proof.
  intros Hi Hu. destruct u as [j|j| |]; cbn [held holds_left]; try done. rewrite (kpc_set _ _ _ _ _ Hi). rewrite decide_False by congruence. done.
Qed.

(** What a step may do to the locks: [t] goes from holding [l] to holding [l'],
    and the same for the counter's lock. *)
Inductive rope_change (t : who) (l l' : list nat) (s s1 : bst) : Prop :=
| RKeep : rope_lock s1 = rope_lock s -> (forall r, r ∈ l' <-> r ∈ l) -> rope_change t l l' s s1
| RTake q : destroyed s = false -> rope_lock s !! q = Some None -> rope_lock s1 = <[q := Some t]> (rope_lock s) -> (forall r, r ∈ l' <-> r = q \/ r ∈ l) -> rope_change t l l' s s1
| RGive q : rope_lock s !! q = Some (Some t) -> rope_lock s1 = <[q := None]> (rope_lock s) -> (forall r, r ∈ l' <-> r <> q /\ r ∈ l) -> rope_change t l l' s s1.

Inductive left_change (t : who) (b b' : bool) (s s1 : bst) : Prop :=
| LKeep : ropes_left_lock s1 = ropes_left_lock s -> b' = b -> left_change t b b' s s1
| LTake : destroyed s = false -> ropes_left_lock s = None -> ropes_left_lock s1 = Some t -> b' = true -> left_change t b b' s s1
| LGive : ropes_left_lock s = Some t -> ropes_left_lock s1 = None -> b' = false -> left_change t b b' s s1.

Lemma rope_change_inv t s s' : (forall r u, rope_lock s !! r = Some (Some u) <-> r ∈ held u s) -> (forall u, u <> t -> held u s' = held u s) -> rope_change t (held t s) (held t s') s s' ->
  forall r u, rope_lock s' !! r = Some (Some u) <-> r ∈ held u s'.
Proof.
  intros Hl Hu [E Ht|q _ Hq E Ht|q Hq E Ht]; rewrite E.
  - eapply (owner_same _ (fun u => held u s) (fun u => held u s')); [done|exact Hu|exact Ht].
  - eapply (owner_take _ (fun u => held u s) (fun u => held u s')); [done|done|exact Hu|exact Ht].
  - eapply (owner_give _ (fun u => held u s) (fun u => held u s')); [done|done|exact Hu|exact Ht].
Qed.

Lemma left_change_inv t s s' : (forall u, ropes_left_lock s = Some u <-> holds_left u s = true) -> (forall u, u <> t -> holds_left u s' = holds_left u s) -> left_change t (holds_left t s) (holds_left t s') s s' ->
  forall u, ropes_left_lock s' = Some u <-> holds_left u s' = true.
Proof.
  intros Hl Hu [E Ht|_ Hn E Ht|Hs E Ht] u; rewrite E; destruct (decide (u = t)) as [->|Hne]; rewrite ?Ht, ?(Hu u) by done.
  - apply Hl.
  - apply Hl.
  - done.
  - rewrite <- Hl. rewrite Hn. split; [intros [=]; congruence|done].
  - done.
  - rewrite <- Hl, Hs. split; [done|intros [=]; congruence].
Qed.

Lemma rope_change_length t l l' s s1 : rope_change t l l' s s1 -> length (rope_lock s1) = length (rope_lock s).
Proof. intros [->| |]; [done| |]; (match goal with E : rope_lock s1 = _ |- _ => rewrite E end); by rewrite length_insert. Qed.

Lemma empty_held l : (forall r, r ∈ l <-> r ∈ @nil nat) -> l = [].
Proof. intros H. destruct l as [|x l]; [done|]. exfalso. by apply (not_elem_of_nil x), H, elem_of_cons; left. Qed.

Lemma change_destroyed t s s' : (destroyed s = true -> forall u, held u s = [] /\ holds_left u s = false) -> (forall r u, rope_lock s !! r = Some (Some u) <-> r ∈ held u s) -> (forall u, ropes_left_lock s = Some u <-> holds_left u s = true) ->
  (forall u, u <> t -> held u s' = held u s /\ holds_left u s' = holds_left u s) -> rope_change t (held t s) (held t s') s s' -> left_change t (holds_left t s) (holds_left t s') s s' -> destroyed s' = destroyed s ->
  destroyed s' = true -> forall u, held u s' = [] /\ holds_left u s' = false.
Proof.
  intros Hd Hl Hll Hu HR HL E Et u. rewrite E in Et. specialize (Hd Et). destruct (decide (u = t)) as [->|Hn]; [|destruct (Hu u Hn) as [-> ->]; apply Hd].
  destruct (Hd t) as [H1 H2]. rewrite H1 in HR. rewrite H2 in HL. split.
  - destruct HR as [_ Ht|q Hf _ _ _|q Hq _ _]; [by apply empty_held|congruence|]. apply Hl in Hq. rewrite H1 in Hq. by apply not_elem_of_nil in Hq.
  - destruct HL as [_ ->|Hf _ _ _|Hs _ _]; [done|congruence|]. apply Hll in Hs. congruence.
Qed.

(** A step of one thread, seen by the locks. *)
Lemma locks_change t s s' : locks s -> (forall u, u <> t -> held u s' = held u s /\ holds_left u s' = holds_left u s) ->
  rope_change t (held t s) (held t s') s s' -> left_change t (holds_left t s) (holds_left t s') s s' ->
  length (cutters s') = length (cutters s) -> length (killers s') = length (killers s) -> (forall i, cutter_ok (cpc s' i)) -> (forall k, killer_ok (kpc s' k)) -> destroyed s' = destroyed s -> locks s'.
Proof.
  intros [L1 L2 L3 L4 L5 L6 L7 L8] Hu HR HL E1 E2 H1 H2 E. split; try done; try congruence.
  - by rewrite (rope_change_length _ _ _ _ _ HR).
  - apply (rope_change_inv t s s'); [done| |done]. intros u Hn. by apply Hu.
  - apply (left_change_inv t s s'); [done| |done]. intros u Hn. by apply Hu.
  - by apply (change_destroyed t s s').
Qed.

Lemma locks_cutter i p p' s s1 : locks s -> cutters s !! i = Some p -> cutters s1 = cutters s -> killers s1 = killers s -> destroyed s1 = destroyed s -> cutter_ok p' ->
  rope_change (Cutter i) (cutter_ropes p) (cutter_ropes p') s s1 -> left_change (Cutter i) (cutter_left p) (cutter_left p') s s1 -> locks (set_cutter i p' s1).
Proof.
  intros L Hp Ec Ek Ed Hok HR HL. assert (cutters s1 !! i = Some p) as Hp1 by (by rewrite Ec). assert (forall j, cpc s1 j = cpc s j) as Hc by (intros j; unfold cpc; by rewrite Ec). assert (forall j, kpc s1 j = kpc s j) as Hk by (intros j; unfold kpc; by rewrite Ek).
  assert (forall j, cpc (set_cutter i p' s1) j = if decide (j = i) then p' else cpc s j) as Hcs by (intros j; by rewrite (cpc_set _ _ _ _ _ Hp1), Hc).
  apply (locks_change (Cutter i) s); try done; cbn [held holds_left].
  - intros u Hu. destruct (held_cutter s1 i p' p u Hp1 Hu) as [-> ->]. destruct u as [j|j| |]; cbn [held holds_left]; rewrite ?Hc, ?Hk; done.
  - rewrite Hcs, decide_True, (cpc_Some _ _ _ Hp) by done. destruct HR as [E Ht|q Hf Hq E Ht|q Hq E Ht]; [by apply RKeep|by apply (RTake _ _ _ _ _ q)|by apply (RGive _ _ _ _ _ q)].
  - rewrite Hcs, decide_True, (cpc_Some _ _ _ Hp) by done. destruct HL as [E Ht|Hf Hn E Ht|Hs E Ht]; [by apply LKeep|by apply LTake|by apply LGive].
  - cbn. by rewrite length_insert, Ec.
  - cbn. by rewrite Ek.
  - intros j. rewrite Hcs. case_decide; [done|apply L].
  - intros j. unfold kpc. cbn. rewrite Ek. apply L.
Qed.

Lemma locks_killer k p p' s s1 : locks s -> killers s !! k = Some p -> cutters s1 = cutters s -> killers s1 = killers s -> destroyed s1 = destroyed s -> ropes_left_lock s1 = ropes_left_lock s -> killer_ok p' ->
  rope_change (Killer k) (killer_ropes p) (killer_ropes p') s s1 -> locks (set_killer k p' s1).
Proof.
  intros L Hp Ec Ek Ed El Hok HR. assert (killers s1 !! k = Some p) as Hp1 by (by rewrite Ek). assert (forall j, cpc s1 j = cpc s j) as Hc by (intros j; unfold cpc; by rewrite Ec). assert (forall j, kpc s1 j = kpc s j) as Hk by (intros j; unfold kpc; by rewrite Ek).
  assert (forall j, kpc (set_killer k p' s1) j = if decide (j = k) then p' else kpc s j) as Hks by (intros j; by rewrite (kpc_set _ _ _ _ _ Hp1), Hk).
  apply (locks_change (Killer k) s); try done; cbn [held holds_left].
  - intros u Hu. destruct (held_killer s1 k p' p u Hp1 Hu) as [-> ->]. destruct u as [j|j| |]; cbn [held holds_left]; rewrite ?Hc, ?Hk; done.
  - rewrite Hks, decide_True, (kpc_Some _ _ _ Hp) by done. destruct HR as [E Ht|q Hf Hq E Ht|q Hq E Ht]; [by apply RKeep|by apply (RTake _ _ _ _ _ q)|by apply (RGive _ _ _ _ _ q)].
  - by apply LKeep.
  - cbn. by rewrite Ec.
  - cbn. by rewrite length_insert, Ek.
  - intros j. unfold cpc. cbn. rewrite Ec. apply L.
  - intros j. rewrite Hks. case_decide; [done|apply L].
Qed.

(** ** Steps as rules *)

Inductive cutter_move (i : nat) (s : bst) : cutter_pc -> cutter_pc -> bst -> Prop :=
| cm_test : cutter_move i s CTest (if 0 <? ropes_left s then CPick else CSignal) s
| cm_pick r : (r < NROPES)%nat -> cutter_move i s CPick (CAcquire r) s
| cm_acquire r : destroyed s = false -> rope_lock s !! r = Some None ->
    cutter_move i s (CAcquire r) (CCheck r) (set_rope_lock (<[r := Some (Cutter i)]> (rope_lock s)) s)
| cm_check r b : cut s !! r = Some b -> cutter_move i s (CCheck r) (if (b : bool) then CRelease r else CCut r) s
| cm_cut r : cutter_move i s (CCut r) (CLeftAcquire r) (set_cut (<[r := true]> (cut s)) s)
| cm_left_acquire r : destroyed s = false -> ropes_left_lock s = None -> cutter_move i s (CLeftAcquire r) (CLoad r) (set_left_lock (Some (Cutter i)) s)
| cm_load r : cutter_move i s (CLoad r) (CStore r (ropes_left s)) s
| cm_store r v : cutter_move i s (CStore r v) (CLeftRelease r) (set_ropes_left (v - 1) s)
| cm_left_release r : ropes_left_lock s = Some (Cutter i) -> cutter_move i s (CLeftRelease r) (CRelease r) (set_left_lock None s)
| cm_release r : rope_lock s !! r = Some (Some (Cutter i)) -> cutter_move i s (CRelease r) CTest (set_rope_lock (<[r := None]> (rope_lock s)) s)
| cm_signal : cutter_move i s CSignal CGone (set_done (alter (Z.add 1) i (cutter_done s)) (flowerkiller_done s) (balloon_done s) s).

Inductive killer_move (k : nat) (s : bst) : killer_pc -> killer_pc -> bst -> Prop :=
| km_test : killer_move k s KTest (if 1 <? ropes_left s then KPick else KSignal) s
| km_again : killer_move k s KPick KTest s
| km_pick a b : (a < b < NROPES)%nat -> killer_move k s KPick (KAcquire1 a b) s
| km_acquire1 a b : destroyed s = false -> rope_lock s !! a = Some None ->
    killer_move k s (KAcquire1 a b) (KAcquire2 a b) (set_rope_lock (<[a := Some (Killer k)]> (rope_lock s)) s)
| km_acquire2 a b : destroyed s = false -> rope_lock s !! b = Some None ->
    killer_move k s (KAcquire2 a b) (KCheck1 a b) (set_rope_lock (<[b := Some (Killer k)]> (rope_lock s)) s)
| km_check1 a b x : cut s !! a = Some x -> killer_move k s (KCheck1 a b) (if (x : bool) then KRelease1 a b else KCheck2 a b) s
| km_check2 a b x : cut s !! b = Some x -> killer_move k s (KCheck2 a b) (if (x : bool) then KRelease1 a b else KLoad a b) s
| km_load a b temp : stake s !! a = Some temp -> killer_move k s (KLoad a b) (KMove a b temp) s
| km_move a b temp x : stake s !! b = Some x -> killer_move k s (KMove a b temp) (KStore a b temp) (set_stake (<[a := x]> (stake s)) s)
| km_store a b temp : killer_move k s (KStore a b temp) (KRelease1 a b) (set_stake (<[b := temp]> (stake s)) s)
| km_release1 a b : rope_lock s !! a = Some (Some (Killer k)) -> killer_move k s (KRelease1 a b) (KRelease2 b) (set_rope_lock (<[a := None]> (rope_lock s)) s)
| km_release2 b : rope_lock s !! b = Some (Some (Killer k)) -> killer_move k s (KRelease2 b) KTest (set_rope_lock (<[b := None]> (rope_lock s)) s)
| km_signal : killer_move k s KSignal KGone (set_done (cutter_done s) (flowerkiller_done s + 1) (balloon_done s) s).

Inductive move : who -> bst -> bst -> Prop :=
| mv_cutter i p p' s s1 : cutters s !! i = Some p -> cutter_move i s p p' s1 -> move (Cutter i) s (set_cutter i p' s1)
| mv_killer k p p' s s1 : killers s !! k = Some p -> killer_move k s p p' s1 -> move (Killer k) s (set_killer k p' s1)
| mv_spin s : balloon s = BTest -> move TheBalloon s s
| mv_free s : balloon s = BTest -> ropes_left s <= 0 -> move TheBalloon s (set_balloon BSignal s)
| mv_signal s : balloon s = BSignal -> move TheBalloon s (set_balloon BGone (set_done (cutter_done s) (flowerkiller_done s) (balloon_done s + 1) s))
| mv_fork k s : main s = MFork k -> move Main s (set_main (if (k <? last_thread)%nat then MFork (S k) else MWait 0) (forked k s))
| mv_panic k s : main s = MFork k -> move Main s (set_main (MPanic k) s)
| mv_wait k s : main s = MWait k -> 0 < semaphore_of k s -> move Main s (set_main (if (k <? last_thread)%nat then MWait (S k) else MReset) (semaphore_dec k s))
| mv_reset s : main s = MReset -> move Main s (set_main MDestroy (set_ropes_left (Z.of_nat NROPES) s))
| mv_destroy s : main s = MDestroy -> Forall (fun o => o = None) (rope_lock s) -> ropes_left_lock s = None -> move Main s (set_main MDone (set_destroyed s)).

Lemma random_rope_lt c : (random_rope c < NROPES)%nat.
Proof. unfold random_rope, NROPES. zlia. Qed.

Ltac step_cases H := unfold acquire_rope, release_rope, lock_take, lock_give, signal in H; repeat case_match; simplify_eq; cbn [and_then] in H; simplify_eq.

Lemma cutter_step_move i c s s' : cutter_step i c s = Step s' -> move (Cutter i) s s'.
Proof.
  unfold cutter_step. destruct (cutters s !! i) as [p|] eqn:Ep; [|done]. intros H.
  destruct p; try done; [by injection H as <-; eapply mv_cutter; [exact Ep|constructor]|..]; step_cases H; (eapply mv_cutter; [exact Ep|]); try (by constructor).
  - constructor. apply random_rope_lt.
  - by apply (cm_check _ _ _ true).
  - by apply (cm_check _ _ _ false).
Qed.

Lemma killer_step_move k c1 c2 s s' : killer_step k c1 c2 s = Step s' -> move (Killer k) s s'.
Proof.
  unfold killer_step. destruct (killers s !! k) as [p|] eqn:Ep; [|done]. intros H.
  pose proof (random_rope_lt c1). pose proof (random_rope_lt c2).
  destruct p; try done; [by injection H as <-; eapply mv_killer; [exact Ep|constructor]|..]; step_cases H; (eapply mv_killer; [exact Ep|]); try (by constructor).
  - constructor. repeat match goal with H : (_ =? _)%nat = _ |- _ => apply Nat.eqb_neq in H | H : (_ <? _)%nat = true |- _ => apply Nat.ltb_lt in H | H : (_ <? _)%nat = false |- _ => apply Nat.ltb_ge in H end. lia.
  - constructor. repeat match goal with H : (_ =? _)%nat = _ |- _ => apply Nat.eqb_neq in H | H : (_ <? _)%nat = true |- _ => apply Nat.ltb_lt in H | H : (_ <? _)%nat = false |- _ => apply Nat.ltb_ge in H end. lia.
  - by apply (km_check1 _ _ _ _ true).
  - by apply (km_check1 _ _ _ _ false).
  - by apply (km_check2 _ _ _ _ true).
  - by apply (km_check2 _ _ _ _ false).
Qed.

Lemma step_move t c1 c2 s s' : step t c1 c2 s = Step s' -> move t s s'.
Proof.
  destruct t as [i|k| |]; cbn [step].
  - apply cutter_step_move.
  - apply killer_step_move.
  - unfold balloon_step. intros H. destruct (balloon s) eqn:E; try done; step_cases H; [by constructor| |by constructor]. apply mv_free; [done|]. boolify. lia.
  - unfold main_step. intros H. destruct (main s) as [k|k| | | |] eqn:E; try done.
    + destruct (c1 =? 0); injection H as <-; by constructor.
    + destruct (0 <? semaphore_of k s) eqn:Es; [|done]. injection H as <-. constructor; [done|]. boolify. lia.
    + injection H as <-. by constructor.
    + unfold destroy_resources in H. destruct (bool_decide (Forall _ _) && bool_decide (ropes_left_lock s = None)) eqn:Eb; [|done]. apply andb_prop in Eb as [E1%bool_decide_eq_true E2%bool_decide_eq_true]. injection H as <-. by constructor.
Qed.

(** ** Who has been started *)

Definition fork_count (m : main_pc) : nat := match m with MFork k | MPanic k => k | _ => Datatypes.S last_thread end.

Definition thread_idle (k : nat) (s : bst) : Prop :=
  match k with
  | O => cpc s 1 = CIdle
  | 1%nat => cpc s 0 = CIdle
  | _ => if (k <? last_thread)%nat then kpc s (k - 2) = KIdle else balloon s = BIdle
  end.

Record started (s : bst) : Prop := {
  sd_cutters : length (cutters s) = 2%nat;
  sd_killers : length (killers s) = N_LORD_FLOWERKILLER;
  sd_main : match main s with MFork k | MWait k | MPanic k => (k <= last_thread)%nat | _ => True end;
  sd_idle : forall k, (k <= last_thread)%nat -> thread_idle k s <-> (fork_count (main s) <= k)%nat }.

Lemma cutter_move_active i s p p' s1 : cutter_move i s p p' s1 -> p <> CIdle /\ p' <> CIdle /\ cutters s1 = cutters s /\ killers s1 = killers s /\ balloon s1 = balloon s /\ main s1 = main s /\ destroyed s1 = destroyed s.
Proof. destruct 1; repeat case_match; done. Qed.

Lemma killer_move_active k s p p' s1 : killer_move k s p p' s1 -> p <> KIdle /\ p' <> KIdle /\ cutters s1 = cutters s /\ killers s1 = killers s /\ balloon s1 = balloon s /\ main s1 = main s /\ destroyed s1 = destroyed s.
Proof. destruct 1; repeat case_match; done. Qed.

Lemma idle_cutter i p p' s s1 k : cutters s !! i = Some p -> p <> CIdle -> p' <> CIdle -> cutters s1 = cutters s -> killers s1 = killers s -> balloon s1 = balloon s -> thread_idle k (set_cutter i p' s1) <-> thread_idle k s.
Proof.
  intros Hp H1 H2 Ec Ek Eb. assert (forall j, cpc (set_cutter i p' s1) j = if decide (j = i) then p' else cpc s j) as Hc by (intros j; rewrite (cpc_set _ _ _ _ p) by (by rewrite Ec); unfold cpc; by rewrite Ec).
  pose proof (cpc_Some _ _ _ Hp) as Hi. assert (forall j, cpc (set_cutter i p' s1) j = CIdle <-> cpc s j = CIdle) as Hj by (intros j; rewrite Hc; case_decide; subst; naive_solver).
  unfold thread_idle. destruct k as [|[|k]]; [apply Hj..|]. unfold kpc. cbn [killers balloon set_cutter]. by rewrite Ek, Eb.
Qed.

Lemma idle_killer i p p' s s1 k : killers s !! i = Some p -> p <> KIdle -> p' <> KIdle -> cutters s1 = cutters s -> killers s1 = killers s -> balloon s1 = balloon s -> thread_idle k (set_killer i p' s1) <-> thread_idle k s.
Proof.
  intros Hp H1 H2 Ec Ek Eb. assert (forall j, kpc (set_killer i p' s1) j = if decide (j = i) then p' else kpc s j) as Hc by (intros j; rewrite (kpc_set _ _ _ _ p) by (by rewrite Ek); unfold kpc; by rewrite Ek).
  pose proof (kpc_Some _ _ _ Hp) as Hi. assert (forall j, kpc (set_killer i p' s1) j = KIdle <-> kpc s j = KIdle) as Hj by (intros j; rewrite Hc; case_decide; subst; naive_solver).
  unfold thread_idle. destruct k as [|[|k]]; [unfold cpc; cbn [cutters set_killer]; by rewrite Ec..|]. case_match; [apply Hj|]. cbn [balloon set_killer]. by rewrite Eb.
Qed.

Lemma forked_lengths k s : length (cutters (forked k s)) = length (cutters s) /\ length (killers (forked k s)) = length (killers s).
Proof. unfold forked. repeat case_match; cbn; rewrite ?length_insert; done. Qed.

(** Thread [k] is started, the others stay. *)
Lemma forked_idle k j s : length (cutters s) = 2%nat -> length (killers s) = N_LORD_FLOWERKILLER -> (k <= last_thread)%nat -> (j <= last_thread)%nat -> thread_idle j (forked k s) <-> j <> k /\ thread_idle j s.
Proof.
  intros H1 H2 Hk Hj. unfold last_thread, N_LORD_FLOWERKILLER in *.
  destruct (cutters s) as [|c0 [|c1 [|? ?]]] eqn:Ec; try done. destruct (killers s) as [|k0 [|k1 [|k2 [|k3 [|k4 [|k5 [|k6 [|k7 [|? ?]]]]]]]]] eqn:Ek; try done.
  do 11 (destruct k as [|k]; [do 11 (destruct j as [|j]; [unfold forked, thread_idle, cpc, kpc; cbn; rewrite ?Ec, ?Ek; cbn; naive_solver|]); lia|]). lia.
Qed.

Lemma semaphore_dec_same k s : cutters (semaphore_dec k s) = cutters s /\ killers (semaphore_dec k s) = killers s /\ balloon (semaphore_dec k s) = balloon s /\ rope_lock (semaphore_dec k s) = rope_lock s /\
  ropes_left_lock (semaphore_dec k s) = ropes_left_lock s /\ destroyed (semaphore_dec k s) = destroyed s /\ ropes_left (semaphore_dec k s) = ropes_left s /\ cut (semaphore_dec k s) = cut s /\ stake (semaphore_dec k s) = stake s.
Proof. unfold semaphore_dec. by repeat case_match. Qed.

Lemma started_main m' s s1 : started s -> cutters s1 = cutters s -> killers s1 = killers s -> balloon s1 = balloon s -> fork_count m' = fork_count (main s) ->
  match m' with MFork k | MWait k | MPanic k => (k <= last_thread)%nat | _ => True end -> started (set_main m' s1).
Proof.
  intros [S1 S2 S3 S4] Ec Ek Eb Em Hm. split; cbn [cutters killers main set_main]; try congruence; try done. intros k Hk. rewrite Em, <- S4 by done.
  unfold thread_idle, cpc, kpc. cbn [cutters killers balloon set_main]. by rewrite Ec, Ek, Eb.
Qed.

Lemma move_started t s s' : started s -> move t s s' -> started s'.
Proof.
  intros St M. pose proof St as [S1 S2 S3 S4]. destruct M as [i p p' s s1 Hp C|i p p' s s1 Hp C|s Hb|s Hb _|s Hb|k s Hm|k s Hm|k s Hm _|s Hm|s Hm _ _].
  - destruct (cutter_move_active _ _ _ _ _ C) as (H1 & H2 & H3 & H4 & H5 & H6 & _). split; cbn [cutters killers main set_cutter]; rewrite ?length_insert, ?H3, ?H4, ?H6; try done.
    intros k Hk. rewrite <- S4 by done. by eapply idle_cutter.
  - destruct (killer_move_active _ _ _ _ _ C) as (H1 & H2 & H3 & H4 & H5 & H6 & _). split; cbn [cutters killers main set_killer]; rewrite ?length_insert, ?H3, ?H4, ?H6; try done.
    intros k Hk. rewrite <- S4 by done. by eapply idle_killer.
  - done.
  - split; try done. intros k Hk. rewrite <- S4 by done. unfold thread_idle, cpc, kpc. cbn. rewrite Hb. by repeat case_match.
  - split; try done. intros k Hk. rewrite <- S4 by done. unfold thread_idle, cpc, kpc. cbn. rewrite Hb. by repeat case_match.
  - rewrite Hm in S3, S4. destruct (forked_lengths k s) as [E1 E2]. split; cbn [cutters killers main set_main]; try congruence.
    + destruct (k <? last_thread)%nat eqn:E; [apply Nat.ltb_lt in E; lia|apply Nat.le_0_l].
    + intros j Hj. assert (thread_idle j (set_main (if (k <? last_thread)%nat then MFork (S k) else MWait 0) (forked k s)) <-> thread_idle j (forked k s)) as -> by done.
      rewrite forked_idle, S4 by done. cbn [fork_count]. destruct (k <? last_thread)%nat eqn:E; cbn [fork_count]; [lia|]. apply Nat.ltb_ge in E. lia.
  - apply (started_main _ s); try done; rewrite Hm in *; done.
  - destruct (semaphore_dec_same k s) as (E1 & E2 & E3 & _). rewrite Hm in S3. apply (started_main _ s); try done; destruct (k <? last_thread)%nat eqn:E; try done; [by rewrite Hm..|]. apply Nat.ltb_lt in E. lia.
  - apply (started_main _ s); try done; by rewrite Hm.
  - apply (started_main _ s); try done; by rewrite Hm.
Qed.

Lemma cutter_move_change i s p p' s1 : cutter_ok p -> cutter_move i s p p' s1 -> cutter_ok p' /\ rope_change (Cutter i) (cutter_ropes p) (cutter_ropes p') s s1 /\ left_change (Cutter i) (cutter_left p) (cutter_left p') s s1.
Proof.
  intros Hok C. destruct C; repeat case_match; cbn [cutter_ok cutter_ropes cutter_left] in *; (split; [done|]); split; try (by apply RKeep); try (by apply LKeep); try (by apply LTake); try (by apply LGive).
  - apply (RTake _ _ _ _ _ r); [done|done|done|set_solver].
  - apply (RGive _ _ _ _ _ r); [done|done|set_solver].
Qed.

Lemma killer_move_change k s p p' s1 : killer_ok p -> killer_move k s p p' s1 -> killer_ok p' /\ ropes_left_lock s1 = ropes_left_lock s /\ rope_change (Killer k) (killer_ropes p) (killer_ropes p') s s1.
Proof.
  intros Hok C. destruct C; repeat case_match; cbn [killer_ok killer_ropes] in *; (split; [done || lia|]); (split; [done|]); try (by apply RKeep).
  - apply (RTake _ _ _ _ _ a); [done|done|done|set_solver].
  - apply (RTake _ _ _ _ _ b); [done|done|done|set_solver].
  - apply (RGive _ _ _ _ _ a); [done|done|]. intros r. rewrite !elem_of_cons, elem_of_nil. naive_solver lia.
  - apply (RGive _ _ _ _ _ b); [done|done|set_solver].
Qed.

(** The locks are the same and so is where everybody holding one is. *)
Lemma locks_frame s s' : locks s -> rope_lock s' = rope_lock s -> ropes_left_lock s' = ropes_left_lock s -> cutters s' = cutters s -> killers s' = killers s -> destroyed s' = destroyed s -> locks s'.
Proof.
  intros [L1 L2 L3 L4 L5 L6 L7 L8] Er El Ec Ek Ed. assert (forall t, held t s' = held t s /\ holds_left t s' = holds_left t s) as Hh by (intros []; cbn; unfold cpc, kpc; by rewrite ?Ec, ?Ek).
  split; rewrite ?Er, ?El, ?Ec, ?Ek, ?Ed; try done.
  - intros r t. destruct (Hh t) as [-> _]. apply L4.
  - intros t. destruct (Hh t) as [_ ->]. apply L5.
  - intros i. unfold cpc. rewrite Ec. apply L6.
  - intros k. unfold kpc. rewrite Ek. apply L7.
  - intros Hd t. destruct (Hh t) as [-> ->]. by apply L8.
Qed.

Lemma cutter_at s i : length (cutters s) = 2%nat -> (i < 2)%nat -> cutters s !! i = Some (cpc s i).
Proof. intros Hl Hi. unfold cpc. destruct (cutters s !! i) eqn:E; [done|]. apply lookup_ge_None in E. lia. Qed.

Lemma killer_at s k : length (killers s) = N_LORD_FLOWERKILLER -> (k < N_LORD_FLOWERKILLER)%nat -> killers s !! k = Some (kpc s k).
Proof. intros Hl Hi. unfold kpc. destruct (killers s !! k) eqn:E; [done|]. apply lookup_ge_None in E. lia. Qed.

(** The thread that is started, and that it was not before. *)
Lemma forked_cases k s : started s -> main s = MFork k ->
  (exists i, (i < 2)%nat /\ forked k s = set_cutter i CTest s /\ cutters s !! i = Some CIdle) \/
  (exists i, (i < N_LORD_FLOWERKILLER)%nat /\ forked k s = set_killer i KTest s /\ killers s !! i = Some KIdle) \/
  (forked k s = set_balloon BTest s /\ balloon s = BIdle).
Proof.
  intros [S1 S2 S3 S4] Hm. rewrite Hm in S3, S4. specialize (S4 k S3). destruct S4 as [_ Hi]. cbn [fork_count] in Hi. specialize (Hi (le_n k)).
  unfold forked. unfold thread_idle in Hi. destruct k as [|[|k]].
  - left. exists 1%nat. split; [lia|]. split; [done|]. by rewrite cutter_at, Hi by (done || lia).
  - left. exists 0%nat. split; [lia|]. split; [done|]. by rewrite cutter_at, Hi by (done || lia).
  - right. change (S (S k) =? 0)%nat with false. change (S (S k) =? 1)%nat with false. cbv iota. unfold last_thread in Hi. destruct (S (S k) <? 2 + N_LORD_FLOWERKILLER)%nat eqn:E.
    + left. apply Nat.ltb_lt in E. exists (S (S k) - 2)%nat. split; [lia|]. split; [done|]. by rewrite killer_at, Hi by (done || lia).
    + by right.
Qed.

Lemma move_locks t s s' : started s -> locks s -> move t s s' -> locks s'.
Proof.
  intros St L M. destruct M as [i p p' s s1 Hp C|i p p' s s1 Hp C|s Hb|s Hb _|s Hb|k s Hm|k s Hm|k s Hm _|s Hm|s Hm Hr Hl].
  - destruct (cutter_move_active _ _ _ _ _ C) as (_ & _ & H3 & H4 & _ & _ & H7). pose proof (lk_cutter_ok _ L i) as Hok. rewrite (cpc_Some _ _ _ Hp) in Hok.
    destruct (cutter_move_change _ _ _ _ _ Hok C) as (H8 & H9 & H10). by apply (locks_cutter i p p' s).
  - destruct (killer_move_active _ _ _ _ _ C) as (_ & _ & H3 & H4 & _ & _ & H7). pose proof (lk_killer_ok _ L i) as Hok. rewrite (kpc_Some _ _ _ Hp) in Hok.
    destruct (killer_move_change _ _ _ _ _ Hok C) as (H8 & H9 & H10). by apply (locks_killer i p p' s).
  - done.
  - by apply (locks_frame s).
  - by apply (locks_frame s).
  - apply (locks_frame (forked k s)); try done. destruct (forked_cases k s St Hm) as [(i & _ & -> & Hi)|[(i & _ & -> & Hi)|[-> _]]].
    + apply (locks_cutter i CIdle CTest s s); try done; [by apply RKeep|by apply LKeep].
    + apply (locks_killer i KIdle KTest s s); try done. by apply RKeep.
    + by apply (locks_frame s).
  - by apply (locks_frame s).
  - destruct (semaphore_dec_same k s) as (E1 & E2 & E3 & E4 & E5 & E6 & _). by apply (locks_frame s).
  - by apply (locks_frame s).
  - assert (forall t, held t s = [] /\ holds_left t s = false) as Hh.
    { intros t. split.
      - destruct (held t s) as [|r l] eqn:E; [done|]. exfalso. assert (r ∈ held t s) as Hin by (rewrite E; by left). apply (lk_rope _ L) in Hin. rewrite Forall_lookup in Hr. by specialize (Hr _ _ Hin).
      - apply not_true_is_false. intros E. apply (lk_left _ L) in E. congruence. }
    destruct L. by split.
Qed.

(** A lock has one holder. *)
Lemma exclusive s t u r : locks s -> r ∈ held t s -> r ∈ held u s -> t = u.
Proof. intros L Ht Hu. apply (lk_rope _ L) in Ht, Hu. congruence. Qed.

Lemma exclusive_left s t u : locks s -> holds_left t s = true -> holds_left u s = true -> t = u.
Proof. intros L Ht Hu. apply (lk_left _ L) in Ht, Hu. congruence. Qed.

(** ** Ropes *)

Definition uncut (l : list bool) : Z := Z.of_nat (length (filter (fun b => b = false) l)).

(** A rope that is cut and not yet counted. *)
Definition pending (p : cutter_pc) : Z := match p with CLeftAcquire _ | CLoad _ | CStore _ _ => 1 | _ => 0 end.
Definition pendings (s : bst) : Z := pending (cpc s 0) + pending (cpc s 1).

(** What a thread knows about the ropes whose locks it holds. *)
Definition cutter_knows (l : list bool) (p : cutter_pc) : Prop :=
  match p with
  | CCut r => l !! r = Some false
  | CLeftAcquire r | CLoad r | CStore r _ | CLeftRelease r | CRelease r => l !! r = Some true
  | _ => True
  end.

Definition killer_knows (l : list bool) (p : killer_pc) : Prop :=
  match p with
  | KCheck2 a b => l !! a = Some false
  | KLoad a b | KMove a b _ | KStore a b _ => l !! a = Some false /\ l !! b = Some false
  | _ => True
  end.

(** The count was put back for the next time. *)
Definition counting (m : main_pc) : bool := match m with MDestroy | MDone => false | _ => true end.

Record counts (s : bst) : Prop := {
  ct_length : length (cut s) = NROPES;
  ct_left : counting (main s) = true -> ropes_left s = uncut (cut s) + pendings s;
  ct_store : forall i r v, cpc s i = CStore r v -> counting (main s) = true /\ v = ropes_left s;
  ct_cutters : forall i, cutter_knows (cut s) (cpc s i);
  ct_killers : forall k, killer_knows (cut s) (kpc s k);
  ct_cutters_end : forall i, cpc s i = CSignal \/ cpc s i = CGone -> counting (main s) = true -> ropes_left s <= 0;
  ct_killers_end : forall k, kpc s k = KSignal \/ kpc s k = KGone -> counting (main s) = true -> ropes_left s <= 1;
  ct_balloon_end : balloon s = BSignal \/ balloon s = BGone -> counting (main s) = true -> ropes_left s <= 0 }.

Lemma uncut_insert l r : l !! r = Some false -> uncut (<[r := true]> l) = uncut l - 1.
Proof.
  intros Hr. unfold uncut. rewrite <- (take_drop_middle l r false Hr) at 2. rewrite insert_take_drop by (by eapply lookup_lt_Some). rewrite !filter_app, !length_app, !filter_cons.
  rewrite decide_False by done. rewrite decide_True by done. cbn [length]. lia.
Qed.

Lemma uncut_nonneg l : 0 <= uncut l.
Proof. unfold uncut. lia. Qed.

Lemma pending_nonneg p : 0 <= pending p <= 1.
Proof. destruct p; cbn; lia. Qed.

(** One cutter goes on: the sum changes by its part. *)
Lemma pendings_set s s1 i p p' : length (cutters s) = 2%nat -> cutters s !! i = Some p -> cutters s1 = cutters s -> pendings (set_cutter i p' s1) = pendings s + pending p' - pending p.
Proof.
  intros Hl Hp Ec. assert (forall j, cpc (set_cutter i p' s1) j = if decide (j = i) then p' else cpc s j) as Hc by (intros j; rewrite (cpc_set _ _ _ _ p) by (by rewrite Ec); unfold cpc; by rewrite Ec).
  unfold pendings. rewrite !Hc. pose proof (cpc_Some _ _ _ Hp) as Hi. apply lookup_lt_Some in Hp. destruct i as [|[|i]]; [| |lia]; rewrite Hi; cbn [decide]; repeat case_decide; try lia.
Qed.

(** What others know stays true when a rope is cut under its lock. *)
Lemma cutter_knows_cut l r p : (forall q, q ∈ cutter_ropes p -> q <> r) -> cutter_knows l p -> cutter_knows (<[r := true]> l) p.
Proof. intros Hn. destruct p; cbn [cutter_knows cutter_ropes] in *; try done; intros H; rewrite list_lookup_insert_ne; try done; apply not_eq_sym, Hn; by left. Qed.

Lemma killer_knows_cut l r p : (forall q, q ∈ killer_ropes p -> q <> r) -> killer_knows l p -> killer_knows (<[r := true]> l) p.
Proof.
  intros Hn. assert (forall q, q ∈ killer_ropes p -> r <> q) as Hn' by (intros q Hq; by apply not_eq_sym, Hn).
  destruct p; cbn [killer_knows killer_ropes] in *; try done; intros H; rewrite ?list_lookup_insert_ne; try done; apply Hn'; set_solver.
Qed.

(** Nothing about the ropes changed. *)
Lemma counts_frame s s' : counts s -> cut s' = cut s -> ropes_left s' = ropes_left s -> cutters s' = cutters s -> killers s' = killers s -> (balloon s' = balloon s \/ (balloon s' = BGone /\ balloon s = BSignal) \/ (balloon s' = BTest)) -> counting (main s') = counting (main s) -> counts s'.
Proof.
  intros [C1 C2 C3 C4 C5 C6 C7 C8] E1 E2 E3 E4 E5 E6. assert (forall i, cpc s' i = cpc s i) as Hc by (intros i; unfold cpc; by rewrite E3). assert (forall i, kpc s' i = kpc s i) as Hk by (intros i; unfold kpc; by rewrite E4).
  split; rewrite ?E1, ?E2, ?E6; try done.
  - intros Hm. unfold pendings. rewrite !Hc. by apply C2.
  - intros i r v. rewrite Hc. apply C3.
  - intros i. rewrite Hc. apply C4.
  - intros i. rewrite Hk. apply C5.
  - intros i. rewrite Hc. apply C6.
  - intros i. rewrite Hk. apply C7.
  - destruct E5 as [->|[[-> E]| ->]]; [done| |by intros [|]]. intros _. apply C8. by left.
Qed.

(** What a step of a cutter does to the ropes. *)
Lemma cutter_move_ropes i s p p' s1 : counts s -> cutters s !! i = Some p -> counting (main s) = true -> cutter_move i s p p' s1 ->
  ropes_left s1 <= ropes_left s /\ (ropes_left s1 = ropes_left s \/ cutter_left p = true) /\ (cut s1 = cut s \/ exists r, p = CCut r /\ cut s1 = <[r := true]> (cut s)) /\
  ropes_left s1 - uncut (cut s1) - pending p' = ropes_left s - uncut (cut s) - pending p /\ cutter_knows (cut s1) p' /\ (forall r v, p' = CStore r v -> v = ropes_left s1) /\ (p' = CSignal \/ p' = CGone -> ropes_left s1 <= 0).
Proof.
  intros Ct Hp Hm C. pose proof (ct_cutters _ Ct i) as Hk. pose proof (ct_store _ Ct i) as Hst. pose proof (ct_cutters_end _ Ct i) as He. rewrite (cpc_Some _ _ _ Hp) in *.
  destruct C; cbn [cutter_knows pending cutter_left cut ropes_left set_rope_lock set_left_lock set_ropes_left set_cut set_done] in *; try (split_and!; (done || lia || by left || (by intros ? ? [=]) || (by intros [|]))).
  - destruct (0 <? ropes_left s) eqn:E; boolify; cbn [cutter_knows pending]; split_and!; (done || lia || by left || by intros [|]).
  - destruct b; cbn [cutter_knows pending]; split_and!; (done || lia || by left || by intros [|]).
  - split_and!; [lia|by left|right; by exists r|rewrite uncut_insert by done; lia|rewrite list_lookup_insert_eq; [done|by eapply lookup_lt_Some]|by intros ? ? [=]|by intros [|]].
  - destruct (Hst r v eq_refl) as [_ ->]. split_and!; [lia|by right|by left|lia|done|by intros ? ? [=]|by intros [|]].
  - split_and!; [lia|by left|by left|lia|done|by intros ? ? [=]|intros _; apply He; [by left|done]].
Qed.

Lemma counts_cutter i p p' s s1 : locks s -> counts s -> cutters s !! i = Some p -> counting (main s) = true -> cutter_move i s p p' s1 -> counts (set_cutter i p' s1).
Proof.
  intros L Ct Hp Hm C. destruct (cutter_move_ropes _ _ _ _ _ Ct Hp Hm C) as (R1 & R2 & R3 & R4 & R5 & R6 & R7). destruct (cutter_move_active _ _ _ _ _ C) as (_ & _ & Ec & Ek & Eb & Em & _).
  assert (forall j, cpc (set_cutter i p' s1) j = if decide (j = i) then p' else cpc s j) as Hc by (intros j; rewrite (cpc_set _ _ _ _ p) by (by rewrite Ec); unfold cpc; by rewrite Ec).
  assert (forall j, kpc (set_cutter i p' s1) j = kpc s j) as Hk by (intros j; unfold kpc; cbn; by rewrite Ek). pose proof (cpc_Some _ _ _ Hp) as Hi.
  assert (forall u, u <> Cutter i -> forall r q, p = CCut r -> q ∈ held u s -> q <> r) as Hx.
  { intros u Hu r q -> Hq ->. apply Hu, (exclusive s _ _ r L Hq). cbn. rewrite Hi. by left. }
  destruct Ct as [C1 C2 C3 C4 C5 C6 C7 C8]. split; cbn [cut ropes_left main balloon set_cutter]; rewrite ?Em, ?Eb.
  - destruct R3 as [->|(r & _ & ->)]; [done|]. by rewrite length_insert.
  - intros _. rewrite (pendings_set s s1 i p p') by (done || apply L). specialize (C2 Hm). lia.
  - intros j r v. rewrite Hc. case_decide as E; [intros ->; split; [done|by eapply R6]|]. intros Hj. split; [done|]. destruct (C3 j r v Hj) as [_ ->]. destruct R2 as [->|HL]; [done|]. exfalso.
    assert (Cutter j = Cutter i) as [=]; [|done]. apply (exclusive_left s); [done| |]; cbn; [by rewrite Hj|by rewrite Hi].
  - intros j. rewrite Hc. case_decide as E; [done|]. destruct R3 as [->|(r & E2 & ->)]; [apply C4|]. apply cutter_knows_cut; [|apply C4]. intros q Hq. apply (Hx (Cutter j) ltac:(congruence) r q E2). done.
  - intros j. rewrite Hk. destruct R3 as [->|(r & E2 & ->)]; [apply C5|]. apply killer_knows_cut; [|apply C5]. intros q Hq. by apply (Hx (Killer j) ltac:(congruence) r q E2).
  - intros j. rewrite Hc. case_decide as E; [by intros H _; apply R7|]. intros H _. specialize (C6 j H Hm). lia.
  - intros j. rewrite Hk. intros H _. specialize (C7 j H Hm). lia.
  - intros H _. specialize (C8 H Hm). lia.
Qed.

Lemma counts_killer k p p' s s1 : counts s -> killers s !! k = Some p -> killer_move k s p p' s1 -> counts (set_killer k p' s1).
Proof.
  intros Ct Hp C. destruct (killer_move_active _ _ _ _ _ C) as (_ & _ & Ec & Ek & Eb & Em & _). assert (cut s1 = cut s /\ ropes_left s1 = ropes_left s) as [E1 E2] by (by destruct C).
  assert (forall j, kpc (set_killer k p' s1) j = if decide (j = k) then p' else kpc s j) as Hk by (intros j; rewrite (kpc_set _ _ _ _ p) by (by rewrite Ek); unfold kpc; by rewrite Ek).
  assert (forall j, cpc (set_killer k p' s1) j = cpc s j) as Hc by (intros j; unfold cpc; cbn; by rewrite Ec). pose proof (kpc_Some _ _ _ Hp) as Hi.
  destruct Ct as [C1 C2 C3 C4 C5 C6 C7 C8]. pose proof (C5 k) as Hkn. pose proof (C7 k) as Hke. rewrite Hi in Hkn, Hke. split; cbn [cut ropes_left main balloon set_killer]; rewrite ?Em, ?Eb, ?E1, ?E2; try done.
  - intros Hm. unfold pendings. rewrite !Hc. by apply C2.
  - intros j r v. rewrite Hc. apply C3.
  - intros j. rewrite Hc. apply C4.
  - intros j. rewrite Hk. case_decide; [|apply C5]. destruct C; cbn [killer_knows] in *; try done; try (by destruct Hkn); try (destruct (1 <? ropes_left s); done); destruct x; done.
  - intros j. rewrite Hc. apply C6.
  - intros j. rewrite Hk. case_decide; [|apply C7]. intros Hend Hm. destruct C; try (by destruct Hend as [|]); try (destruct x; by destruct Hend as [|]).
    + destruct (1 <? ropes_left s) eqn:E; boolify; [by destruct Hend as [|]|lia].
    + apply Hke; [by left|done].
Qed.

(** ** Semaphores *)

Definition wait_count (m : main_pc) : nat := match m with MWait k => k | MReset | MDestroy | MDone => Datatypes.S last_thread | _ => 0 end.

Definition cutter_gone (p : cutter_pc) : Z := match p with CGone => 1 | _ => 0 end.
Definition killer_gone (p : killer_pc) : bool := match p with KGone => true | _ => false end.
Definition balloon_gone (p : balloon_pc) : Z := match p with BGone => 1 | _ => 0 end.
Definition lords_gone (l : list killer_pc) : Z := Z.of_nat (length (filter (fun p => killer_gone p = true) l)).

(** A semaphore counts the threads that signalled it and were not waited for. *)
Record signals (s : bst) : Prop := {
  sg_cutters : forall i, (i < 2)%nat -> cutter_done s !! i = Some (cutter_gone (cpc s i) - (if decide (i < wait_count (main s))%nat then 1 else 0)) /\ ((i < wait_count (main s))%nat -> cpc s i = CGone);
  sg_killers : flowerkiller_done s = lords_gone (killers s) - Z.of_nat (Nat.min N_LORD_FLOWERKILLER (wait_count (main s) - 2)) /\ 0 <= flowerkiller_done s;
  sg_balloon : balloon_done s = balloon_gone (balloon s) - (if decide (last_thread < wait_count (main s))%nat then 1 else 0) /\ ((last_thread < wait_count (main s))%nat -> balloon s = BGone);
  sg_destroyed : destroyed s = true <-> main s = MDone }.

Lemma lords_gone_all l : length l = N_LORD_FLOWERKILLER -> Z.of_nat N_LORD_FLOWERKILLER <= lords_gone l -> forall k, (k < N_LORD_FLOWERKILLER)%nat -> l !! k = Some KGone.
Proof.
  intros Hl Hg k Hk. destruct (lookup_lt_is_Some_2 l k) as [p Hp]; [lia|]. rewrite Hp. f_equal. unfold lords_gone in Hg.
  destruct (decide (killer_gone p = true)) as [E|E]; [by destruct p|]. exfalso.
  rewrite <- (take_drop_middle l k p Hp), filter_app, filter_cons, decide_False, length_app in Hg by done.
  pose proof (length_filter (fun p => killer_gone p = true) (take k l)). pose proof (length_filter (fun p => killer_gone p = true) (drop (S k) l)). rewrite length_take in H. rewrite length_drop in H0. lia.
Qed.

(** Everybody has been waited for. *)
Lemma all_gone s : started s -> signals s -> (last_thread < wait_count (main s))%nat ->
  (forall i, (i < 2)%nat -> cutters s !! i = Some CGone) /\ (forall k, (k < N_LORD_FLOWERKILLER)%nat -> killers s !! k = Some KGone) /\ balloon s = BGone.
Proof.
  intros [S1 S2 S3 _] [G1 [G2 G2'] [_ G3] _] Hw. assert (wait_count (main s) = Datatypes.S last_thread) as Ew by (destruct (main s); cbn in *; lia).
  unfold last_thread, N_LORD_FLOWERKILLER in *. split_and!; [| |by apply G3].
  - intros i Hi. rewrite cutter_at by done. f_equal. apply G1; lia.
  - apply lords_gone_all; [done|]. rewrite Ew in G2. unfold N_LORD_FLOWERKILLER. lia.
Qed.

Lemma lords_gone_insert l k p p' : l !! k = Some p -> lords_gone (<[k := p']> l) = lords_gone l - (if killer_gone p then 1 else 0) + (if killer_gone p' then 1 else 0).
Proof.
  intros Hk. unfold lords_gone. rewrite <- (take_drop_middle l k p Hk) at 2. rewrite insert_take_drop by (by eapply lookup_lt_Some). rewrite !filter_app, !length_app, !filter_cons.
  destruct (killer_gone p), (killer_gone p'); repeat case_decide; try done; cbn [length]; lia.
Qed.

Lemma cutter_gone_spec p : (cutter_gone p = 1 /\ p = CGone) \/ (cutter_gone p = 0 /\ p <> CGone).
Proof. destruct p; (by left) || (by right). Qed.

(** Nobody signalled or was waited for. *)
Lemma signals_frame s s' : signals s -> cutter_done s' = cutter_done s -> flowerkiller_done s' = flowerkiller_done s -> balloon_done s' = balloon_done s -> (forall i, (i < 2)%nat -> cpc s' i = CGone <-> cpc s i = CGone) -> lords_gone (killers s') = lords_gone (killers s) ->
  (balloon s' = BGone <-> balloon s = BGone) -> wait_count (main s') = wait_count (main s) -> (destroyed s' = true <-> main s' = MDone) -> signals s'.
Proof.
  intros [G1 G2 G3 G4] E1 E2 E3 E4 E5 E6 E7 E8. assert (forall i, (i < 2)%nat -> cutter_gone (cpc s' i) = cutter_gone (cpc s i)) as Hc.
  { intros i Hi. specialize (E4 i Hi). destruct (cutter_gone_spec (cpc s' i)) as [[-> ?]|[-> ?]], (cutter_gone_spec (cpc s i)) as [[-> ?]|[-> ?]]; tauto. }
  assert (balloon_gone (balloon s') = balloon_gone (balloon s)) as Hb by (destruct (balloon s'), (balloon s); cbn; try done; naive_solver).
  split; rewrite ?E1, ?E2, ?E3, ?E5, ?E7, ?Hb; try done.
  - intros i Hi. rewrite Hc, E4 by done. by apply G1.
  - by rewrite E6.
Qed.

Lemma cutter_move_signals i s p p' s1 : cutter_move i s p p' s1 -> p <> CGone /\ flowerkiller_done s1 = flowerkiller_done s /\ balloon_done s1 = balloon_done s /\
  ((p' <> CGone /\ cutter_done s1 = cutter_done s) \/ (p' = CGone /\ cutter_done s1 = alter (Z.add 1) i (cutter_done s))).
Proof. destruct 1; repeat case_match; split_and!; try done; (by left) || (by right). Qed.

Lemma killer_move_signals k s p p' s1 : killer_move k s p p' s1 -> p <> KGone /\ cutter_done s1 = cutter_done s /\ balloon_done s1 = balloon_done s /\
  ((p' <> KGone /\ flowerkiller_done s1 = flowerkiller_done s) \/ (p' = KGone /\ flowerkiller_done s1 = flowerkiller_done s + 1)).
Proof. destruct 1; repeat case_match; split_and!; try done; (by left) || (by right). Qed.

Lemma signals_cutter i p p' s s1 : length (cutters s) = 2%nat -> signals s -> cutters s !! i = Some p -> cutter_move i s p p' s1 -> signals (set_cutter i p' s1).
Proof.
  intros Hl Sg Hp C. destruct (cutter_move_active _ _ _ _ _ C) as (_ & _ & Ec & Ek & Eb & Em & Ed). destruct (cutter_move_signals _ _ _ _ _ C) as (Hg & Ef & Ebd & Hs). pose proof (cpc_Some _ _ _ Hp) as Hi.
  assert (forall j, cpc (set_cutter i p' s1) j = if decide (j = i) then p' else cpc s j) as Hc by (intros j; rewrite (cpc_set _ _ _ _ p) by (by rewrite Ec); unfold cpc; by rewrite Ec).
  assert (i < 2)%nat as Hi2 by (apply lookup_lt_Some in Hp; lia). destruct Hs as [[Hg' Es]|[-> Es]].
  - apply (signals_frame s); cbn [cutter_done flowerkiller_done balloon_done killers balloon main destroyed set_cutter]; rewrite ?Ek, ?Eb, ?Em, ?Ed; try done; [|apply Sg].
    intros j _. rewrite Hc. case_decide; [|done]. subst. naive_solver.
  - destruct Sg as [G1 G2 G3 G4]. split; cbn [cutter_done flowerkiller_done balloon_done killers balloon main destroyed set_cutter]; rewrite ?Ek, ?Eb, ?Em, ?Ed, ?Ef, ?Ebd, ?Es; try done.
    intros j Hj. destruct (G1 j Hj) as [H1 H2]. rewrite Hc. destruct (decide (j = i)) as [E|E].
    + subst j. rewrite list_lookup_alter_eq, H1, Hi. cbn [fmap option_fmap option_map]. destruct (decide (i < wait_count (main s))%nat) as [Hw|Hw]; [specialize (H2 Hw); congruence|]. split; [|done]. f_equal. destruct p; cbn [cutter_gone]; try done; lia.
    + by rewrite list_lookup_alter_ne by done.
Qed.

Lemma signals_killer k p p' s s1 : signals s -> killers s !! k = Some p -> killer_move k s p p' s1 -> signals (set_killer k p' s1).
Proof.
  intros Sg Hp C. destruct (killer_move_active _ _ _ _ _ C) as (_ & _ & Ec & Ek & Eb & Em & Ed). destruct (killer_move_signals _ _ _ _ _ C) as (Hg & Ef & Ebd & Hs).
  assert (lords_gone (<[k := p']> (killers s1)) = lords_gone (killers s) + (if killer_gone p' then 1 else 0)) as El. { rewrite Ek, (lords_gone_insert _ _ _ _ Hp). destruct p; try done; cbn [killer_gone]; lia. }
  destruct Hs as [[Hg' Es]|[-> Es]].
  - apply (signals_frame s); cbn [cutter_done flowerkiller_done balloon_done killers balloon main destroyed set_killer]; rewrite ?Eb, ?Em, ?Ed, ?El; try done; [|destruct p'; cbn; done || lia|apply Sg].
    intros j _. unfold cpc. cbn. by rewrite Ec.
  - destruct Sg as [G1 [G2 G2'] G3 G4]. cbn [killer_gone] in El. split; cbn [cutter_done flowerkiller_done balloon_done killers balloon main destroyed set_killer]; rewrite ?Eb, ?Em, ?Ed, ?Ef, ?Ebd, ?Es, ?El; try done; [|lia].
    intros j Hj. unfold cpc. cbn [cutters set_killer]. rewrite Ec. by apply G1.
Qed.

(** [P] on the semaphore of thread [k]. *)
Lemma signals_wait k s : signals s -> main s = MWait k -> (k <= last_thread)%nat -> 0 < semaphore_of k s ->
  signals (set_main (if (k <? last_thread)%nat then MWait (S k) else MReset) (semaphore_dec k s)).
Proof.
  intros [G1 [G2 G2'] [G3 G3'] G4] Hm Hk Hp. rewrite Hm in *. cbn [wait_count] in *. set (m' := if (k <? last_thread)%nat then MWait (S k) else MReset).
  assert (wait_count m' = S k /\ m' <> MDone) as [Ew Em]. { unfold m'. destruct (k <? last_thread)%nat eqn:E; [done|]. apply Nat.ltb_ge in E. split; [|done]. cbn [wait_count]. lia. }
  destruct (semaphore_dec_same k s) as (E1 & E2 & E3 & _ & _ & E6 & _). unfold last_thread, N_LORD_FLOWERKILLER in *.
  split; cbn [cutter_done flowerkiller_done balloon_done killers balloon main destroyed set_main]; rewrite ?E2, ?E3, ?E6, ?Ew.
  - intros i Hi. destruct (G1 i Hi) as [H1 H2]. assert (cpc (set_main m' (semaphore_dec k s)) i = cpc s i) as -> by (unfold cpc; cbn [cutters set_main]; by rewrite E1).
    unfold semaphore_of in Hp. destruct (k <? 2)%nat eqn:Ek; [apply Nat.ltb_lt in Ek|apply Nat.ltb_ge in Ek].
    2:{ assert (cutter_done (semaphore_dec k s) = cutter_done s) as -> by (unfold semaphore_dec; rewrite (proj2 (Nat.ltb_ge k 2)) by done; by destruct (k <? last_thread)%nat).
      destruct (decide (i < k)%nat); [|lia]. destruct (decide (i < S k)%nat); [|lia]. split; [done|intros _; by apply H2]. }
    unfold semaphore_dec. rewrite (proj2 (Nat.ltb_lt k 2)) by done.
    cbn [cutter_done set_done]. destruct (decide (i = k)) as [->|Hn].
    + rewrite list_lookup_alter_eq. rewrite H1 in *. cbn [fmap option_fmap option_map default] in *. rewrite decide_False in * by lia. rewrite decide_True by lia. destruct (cutter_gone_spec (cpc s k)) as [[E Eg]|[E Eg]]; rewrite E in *; [|cbn in Hp; lia]. done.
    + rewrite list_lookup_alter_ne, H1 by done. destruct (decide (i < k)%nat); [rewrite decide_True by lia|rewrite decide_False by lia]; (split; [done|]); intros; apply H2; lia.
  - unfold semaphore_of in Hp. unfold semaphore_dec, last_thread, N_LORD_FLOWERKILLER in *. destruct (k <? 2)%nat eqn:Ek; [apply Nat.ltb_lt in Ek|apply Nat.ltb_ge in Ek; destruct (k <? 2 + 8)%nat eqn:Ek2; [apply Nat.ltb_lt in Ek2|apply Nat.ltb_ge in Ek2]]; cbn [flowerkiller_done set_done]; split; lia.
  - unfold semaphore_of in Hp. unfold semaphore_dec, last_thread, N_LORD_FLOWERKILLER in *. destruct (k <? 2)%nat eqn:Ek; [apply Nat.ltb_lt in Ek|apply Nat.ltb_ge in Ek; destruct (k <? 2 + 8)%nat eqn:Ek2; [apply Nat.ltb_lt in Ek2|apply Nat.ltb_ge in Ek2]]; cbn [balloon_done set_done].
    + destruct (decide (2 + 8 < k)%nat); [lia|]. destruct (decide (2 + 8 < S k)%nat); [lia|]. split; [done|lia].
    + destruct (decide (2 + 8 < k)%nat); [lia|]. destruct (decide (2 + 8 < S k)%nat); [lia|]. split; [done|lia].
    + destruct (decide (2 + 8 < k)%nat); [lia|]. destruct (decide (2 + 8 < S k)%nat); [|lia]. destruct (balloon s); cbn [balloon_gone] in *; (split; [lia|]); done || lia.
  - rewrite G4. done.
Qed.

Lemma forked_signals k s : started s -> signals s -> main s = MFork k -> signals (set_main (if (k <? last_thread)%nat then MFork (S k) else MWait 0) (forked k s)).
Proof.
  intros St Sg Hm. assert (destroyed s <> true) as Hd by (rewrite (sg_destroyed _ Sg), Hm; done). assert (wait_count (main s) = 0%nat) as Ew by (by rewrite Hm).
  destruct (forked_cases k s St Hm) as [(i & _ & -> & Hi)|[(i & _ & -> & Hi)|[-> Hb]]]; (apply (signals_frame s); try done; cbn [main set_main wait_count]; [..|rewrite Ew; by case_match|split; [done|by case_match]]).
  - intros j _. assert (cpc (set_cutter i CTest s) j = if decide (j = i) then CTest else cpc s j) as E by (by eapply cpc_set). unfold cpc in *. cbn [cutters set_main]. rewrite E. case_decide; [|done]. subst. unfold cpc. by rewrite Hi.
  - cbn [killers set_main set_killer]. rewrite (lords_gone_insert _ _ _ _ Hi). cbn. lia.
  - cbn. by rewrite Hb.
Qed.

(** ** Stakes *)

(** The problem as it is told: a rope is cut once, the stakes of two ropes that
    are not cut are exchanged, each at one stroke. *)
Record garden := Garden { g_cut : list bool; g_stake : list Z }.

Inductive act : garden -> garden -> Prop :=
| act_none g : act g g
| act_cut r g : g_cut g !! r = Some false -> act g (Garden (<[r := true]> (g_cut g)) (g_stake g))
| act_exchange a b x y g : a <> b -> g_cut g !! a = Some false -> g_cut g !! b = Some false -> g_stake g !! a = Some x -> g_stake g !! b = Some y ->
    act g (Garden (g_cut g) (<[b := x]> (<[a := y]> (g_stake g)))).

(** [F] is where the stakes are once the exchanges under way are finished. *)
Record placed (F : list Z) (s : bst) : Prop := {
  pl_perm : F ≡ₚ seqZ 0 (Z.of_nat NROPES);
  pl_length : length (stake s) = NROPES;
  pl_rest : forall r, (forall k a t, kpc s k <> KStore a r t) -> stake s !! r = F !! r;
  pl_transit : forall k a b t, kpc s k = KStore a b t -> F !! b = Some t;
  pl_move : forall k a b t, kpc s k = KMove a b t -> stake s !! a = Some t }.

(** The lords that take no part in a step hold other ropes. *)
Lemma placed_killer k p p' s s1 : locks s -> killers s !! k = Some p -> killer_move k s p p' s1 -> killer_knows (cut s) p -> forall F, placed F s -> exists F', act (Garden (cut s) F) (Garden (cut s1) F') /\ placed F' (set_killer k p' s1).
Proof.
  intros L Hp C Hkn F [P1 P2 P3 P4 P5]. destruct (killer_move_active _ _ _ _ _ C) as (_ & _ & _ & Ek & _). pose proof (kpc_Some _ _ _ Hp) as Hi. pose proof (lk_killer_ok _ L k) as Hok. rewrite Hi in Hok.
  assert (forall j, kpc (set_killer k p' s1) j = if decide (j = k) then p' else kpc s j) as Hk by (intros j; rewrite (kpc_set _ _ _ _ p) by (by rewrite Ek); unfold kpc; by rewrite Ek).
  assert (forall j r, r ∈ killer_ropes p -> r ∈ killer_ropes (kpc s j) -> j = k) as Hx.
  { intros j r H1 H2. assert (Killer j = Killer k) as [=]; [|done]. apply (exclusive s _ _ r L); [done|]. cbn. by rewrite Hi. }
  assert ((forall a b t, p <> KStore a b t) -> (forall a b t, p' <> KStore a b t) -> stake s1 = stake s -> (forall a b t, p' = KMove a b t -> stake s !! a = Some t) -> placed F (set_killer k p' s1)) as Hsame.
  { intros Hn Hn' Es Hm. split; cbn [stake set_killer]; rewrite ?Es; try done.
    - intros r Hr. apply P3. intros j a t Hj. destruct (decide (j = k)) as [->|Hjk]; [rewrite Hi in Hj; by eapply Hn|]. apply (Hr j a t). by rewrite Hk, decide_False.
    - intros j a b t. rewrite Hk. case_decide; [by intros ?%Hn'|apply P4].
    - intros j a b t. rewrite Hk. case_decide; [apply Hm|apply P5]. }
  destruct C; try (by exists F; split; [constructor|apply Hsame]); try (by exists F; split; [constructor|apply Hsame; repeat case_match]).
  - exists F. split; [constructor|]. apply Hsame; try done. by intros ? ? ? [= -> _ ->].
  - cbn [killer_ok killer_ropes] in *. pose proof (P5 k a b temp Hi) as Ha. assert (forall q, q ∈ [a; b] -> stake s !! q = F !! q) as HF.
    { intros q Hq. apply P3. intros j a' t Hj. assert (j = k) as -> by (apply (Hx j q); [done|rewrite Hj; set_solver]). congruence. }
    assert (F !! a = Some temp) as HFa by (rewrite <- HF by set_solver; done). assert (F !! b = Some x) as HFb by (rewrite <- HF by set_solver; done).
    exists (<[b := temp]> (<[a := x]> F)). split; [apply (act_exchange a b temp x (Garden (cut s) F)); try done; [lia|apply Hkn|apply Hkn]|]. split; cbn [stake set_killer set_stake].
    + by rewrite Permutation_insert_swap.
    + by rewrite length_insert.
    + intros r Hr. assert (r <> b) as Hrb by (intros ->; apply (Hr k a temp); by rewrite Hk, decide_True). rewrite (list_lookup_insert_ne _ b r) by congruence. destruct (decide (r = a)) as [->|Hra].
      * rewrite !list_lookup_insert_eq; [done|by eapply lookup_lt_Some|by eapply lookup_lt_Some].
      * rewrite !list_lookup_insert_ne by congruence. apply P3. intros j a' t Hj. destruct (decide (j = k)) as [->|Hjk]; [congruence|]. apply (Hr j a' t). by rewrite Hk, decide_False.
    + intros j a' b' t. rewrite Hk. case_decide as E; [intros [= <- <- <-]; rewrite list_lookup_insert_eq; [done|rewrite length_insert; by eapply lookup_lt_Some]|]. intros Hj.
      assert (b' <> a /\ b' <> b) as [Hb1 Hb2] by (split; intros ->; apply E; [apply (Hx j a)|apply (Hx j b)]; rewrite ?Hj; cbn [killer_ropes]; set_solver). rewrite !list_lookup_insert_ne by congruence. by eapply P4.
    + intros j a' b' t. rewrite Hk. case_decide as E; [done|]. intros Hj. assert (a' <> a) as Hb1 by (intros ->; apply E, (Hx j a); rewrite ?Hj; cbn [killer_ropes]; set_solver). rewrite list_lookup_insert_ne by congruence. by eapply P5.
  - cbn [killer_ok killer_ropes] in *. exists F. split; [constructor|]. pose proof (P4 k a b temp Hi) as HFb. assert (b < length (stake s))%nat as Hbl by (rewrite P2; lia). split; cbn [stake set_killer set_stake]; try done.
    + by rewrite length_insert.
    + intros r Hr. destruct (decide (r = b)) as [->|Hrb]; [by rewrite list_lookup_insert_eq|]. rewrite list_lookup_insert_ne by congruence. apply P3. intros j a' t Hj. destruct (decide (j = k)) as [->|Hjk]; [congruence|]. apply (Hr j a' t). by rewrite Hk, decide_False.
    + intros j a' b' t. rewrite Hk. case_decide as E; [done|apply P4].
    + intros j a' b' t. rewrite Hk. case_decide as E; [done|]. intros Hj. assert (a' <> b) as Hb1 by (intros ->; apply E, (Hx j b); rewrite ?Hj; cbn [killer_ropes]; set_solver). rewrite list_lookup_insert_ne by congruence. by eapply P5.
Qed.
