(* ===== verification/BalloonProps.v ===== *)
(** The theorems of the balloon problem. *)
From S2P Require Import Prelude Balloon BalloonInv.

(** ** The invariant *)

Record inv (s : bst) : Prop := {
  iv_started : started s;
  iv_locks : locks s;
  iv_counts : counts s;
  iv_signals : signals s;
  iv_placed : exists F, placed F s }.

Lemma active_counting i p s : started s -> signals s -> cutters s !! i = Some p -> p <> CGone -> counting (main s) = true.
Proof.
  intros St Sg Hp Hn. destruct (counting (main s)) eqn:E; [done|]. assert (last_thread < wait_count (main s))%nat as Hw by (destruct (main s); done || (cbn; lia)).
  destruct (all_gone s St Sg Hw) as (Hg & _). pose proof (lookup_lt_Some _ _ _ Hp) as Hi. rewrite (sd_cutters _ St) in Hi. rewrite Hg in Hp by done. congruence.
Qed.

Lemma placed_frame F s s' : placed F s -> stake s' = stake s -> (forall k a b t, (kpc s' k = KStore a b t <-> kpc s k = KStore a b t) /\ (kpc s' k = KMove a b t <-> kpc s k = KMove a b t)) -> placed F s'.
Proof.
  intros [P1 P2 P3 P4 P5] Es Hk. split; rewrite ?Es; try done.
  - intros r Hr. apply P3. intros k a t Hx. by apply (Hr k a t), Hk.
  - intros k a b t Hx%Hk. by eapply P4.
  - intros k a b t Hx%Hk. by eapply P5.
Qed.

Lemma counts_fork k s : started s -> counts s -> main s = MFork k -> counts (set_main (if (k <? last_thread)%nat then MFork (S k) else MWait 0) (forked k s)).
Proof.
  intros St Ct Hm. assert (counting (if (k <? last_thread)%nat then MFork (S k) else MWait 0) = true) as Hc by (by case_match). assert (counting (main s) = true) as Hc' by (by rewrite Hm).
  destruct (forked_cases k s St Hm) as [(i & Hi2 & -> & Hi)|[(i & _ & -> & Hi)|[-> Hb]]].
  - assert (forall j, cpc (set_cutter i CTest s) j = if decide (j = i) then CTest else cpc s j) as Hj by (intros j; by eapply cpc_set). apply (counts_frame (set_cutter i CTest s)); try done; [|by left|cbn [main set_main set_cutter set_killer]; congruence].
    pose proof (cpc_Some _ _ _ Hi) as Ei. destruct Ct as [C1 C2 C3 C4 C5 C6 C7 C8]. split; try done.
    + intros _. rewrite (pendings_set s s i CIdle CTest) by (done || apply St). cbn [pending ropes_left cut set_cutter]. specialize (C2 Hc'). lia.
    + intros j r v. rewrite Hj. case_decide; [done|apply C3].
    + intros j. rewrite Hj. case_decide; [done|apply C4].
    + intros j. rewrite Hj. case_decide; [by intros [|]|apply C6].
  - assert (forall j, kpc (set_killer i KTest s) j = if decide (j = i) then KTest else kpc s j) as Hj by (intros j; by eapply kpc_set). apply (counts_frame (set_killer i KTest s)); try done; [|by left|cbn [main set_main set_cutter set_killer]; congruence].
    destruct Ct as [C1 C2 C3 C4 C5 C6 C7 C8]. split; try done.
    + intros j. rewrite Hj. case_decide; [done|apply C5].
    + intros j. rewrite Hj. case_decide; [by intros [|]|apply C7].
  - apply (counts_frame s); try done; [by right; right|cbn [main set_main set_balloon]; congruence].
Qed.

Lemma move_counts t s s' : started s -> locks s -> signals s -> counts s -> move t s s' -> counts s'.
Proof.
  intros St L Sg Ct M. destruct M as [i p p' s s1 Hp C|i p p' s s1 Hp C|s Hb|s Hb Hr|s Hb|k s Hm|k s Hm|k s Hm _|s Hm|s Hm _ _].
  - eapply counts_cutter; try done. eapply active_counting; try done. by apply (cutter_move_signals _ _ _ _ _ C).
  - by eapply counts_killer.
  - done.
  - destruct Ct as [C1 C2 C3 C4 C5 C6 C7 C8]. by split.
  - apply (counts_frame s); try done. by right; left.
  - by apply counts_fork.
  - apply (counts_frame s); try done; [by left|by rewrite Hm].
  - destruct (semaphore_dec_same k s) as (E1 & E2 & E3 & _ & _ & _ & E7 & E8 & _). apply (counts_frame s); try done; [by left|rewrite Hm; by case_match].
  - destruct (all_gone s St Sg) as (H1 & H2 & H3); [rewrite Hm; cbn [wait_count]; lia|]. assert (forall i r v, cpc s i <> CStore r v) as Hn.
    { intros i r v. unfold cpc. destruct (cutters s !! i) as [p|] eqn:E; cbn; [|done]. pose proof (lookup_lt_Some _ _ _ E) as Hi. rewrite (sd_cutters _ St) in Hi. rewrite H1 in E by done. by injection E as <-. }
    destruct Ct as [C1 C2 C3 C4 C5 C6 C7 C8]. split; try done. intros i r v Hx. by apply Hn in Hx.
  - apply (counts_frame s); try done; [by left|by rewrite Hm].
Qed.

Lemma move_signals t s s' : started s -> signals s -> move t s s' -> signals s'.
Proof.
  intros St Sg M. pose proof (sd_main _ St) as Hk. pose proof (sg_destroyed _ Sg) as Hd. destruct M as [i p p' s s1 Hp C|i p p' s s1 Hp C|s Hb|s Hb _|s Hb|k s Hm|k s Hm|k s Hm Hp|s Hm|s Hm _ _].
  - eapply signals_cutter; try done. apply St.
  - by eapply signals_killer.
  - done.
  - apply (signals_frame s); try done. cbn. by rewrite Hb.
  - destruct Sg as [G1 G2 [G3 G3'] G4]. split; try done. cbn [balloon_done balloon main set_balloon set_done]. rewrite G3, Hb. destruct (decide (last_thread < wait_count (main s))%nat) as [Hw|Hw]; [specialize (G3' Hw); congruence|]. split; [cbn; lia|done].
  - by apply forked_signals.
  - apply (signals_frame s); try done; [by rewrite Hm|]. cbn [destroyed main set_main]. rewrite Hd, Hm. done.
  - rewrite Hm in Hk. by apply signals_wait.
  - apply (signals_frame s); try done; [by rewrite Hm|]. cbn [destroyed main set_main set_ropes_left]. rewrite Hd, Hm. done.
  - apply (signals_frame s); try done. by rewrite Hm.
Qed.

Lemma move_placed t s s' F : started s -> locks s -> counts s -> placed F s -> move t s s' -> exists F', act (Garden (cut s) F) (Garden (cut s') F') /\ placed F' s'.
Proof.
  intros St L Ct Pl M. destruct M as [i p p' s s1 Hp C|i p p' s s1 Hp C|s Hb|s Hb _|s Hb|k s Hm|k s Hm|k s Hm _|s Hm|s Hm _ _]; try (by exists F; split; [constructor|apply (placed_frame F s)]).
  - exists F. destruct (cutter_move_active _ _ _ _ _ C) as (_ & _ & _ & Ek & _). split; [|apply (placed_frame F s); [done|by destruct C|]; intros j a b t; unfold kpc; cbn; by rewrite Ek].
    pose proof (ct_cutters _ Ct i) as Hkn. rewrite (cpc_Some _ _ _ Hp) in Hkn. destruct C; by constructor.
  - destruct (placed_killer i p p' s s1 L Hp C) with F as (F' & HA & Pl'); [|done|by exists F']. rewrite <- (kpc_Some _ _ _ Hp). apply Ct.
  - exists F. destruct (forked_cases k s St Hm) as [(i & _ & -> & Hi)|[(i & _ & -> & Hi)|[-> Hb]]]; (split; [constructor|]); apply (placed_frame F s); try done. intros j a b t.
    assert (kpc (set_killer i KTest s) j = if decide (j = i) then KTest else kpc s j) as E by (by eapply kpc_set). unfold kpc in *. cbn [killers set_main]. rewrite E. case_decide; [|done]. subst. rewrite Hi. done.
  - exists F. destruct (semaphore_dec_same k s) as (E1 & E2 & E3 & _ & _ & _ & E7 & E8 & E9). split; [cbn; rewrite E8; constructor|]. apply (placed_frame F s); [done|done|]. intros j a b t. unfold kpc. cbn. by rewrite E2.
Qed.

Lemma move_inv t s s' : inv s -> move t s s' -> inv s'.
Proof.
  intros [I1 I2 I3 I4 I5] M. split; [by eapply move_started|by eapply move_locks|by eapply move_counts|by eapply move_signals|]. destruct I5 as [F Pl]. destruct (move_placed t s s' F) as (F' & _ & Pl'); try done. by exists F'.
Qed.

Lemma init_cpc i : cpc init_mappings i = CIdle.
Proof. by destruct i as [|[|i]]. Qed.

Lemma init_kpc k : kpc init_mappings k = KIdle.
Proof. unfold kpc. cbn [killers init_mappings]. destruct (replicate N_LORD_FLOWERKILLER KIdle !! k) as [p|] eqn:E; [|done]. by apply lookup_replicate in E as [-> _]. Qed.

Lemma init_inv : inv init_mappings.
Proof.
  assert (forall t, held t init_mappings = [] /\ holds_left t init_mappings = false) as Hh by (intros [i|k| |]; cbn [held holds_left]; rewrite ?init_cpc, ?init_kpc; done). split.
  - split; try done; [cbn; lia|]. intros k Hk. split; [cbn; lia|]. intros _. unfold last_thread, N_LORD_FLOWERKILLER in Hk. do 11 (destruct k as [|k]; [done|]). lia.
  - split; try done.
    + intros r t. destruct (Hh t) as [-> _]. cbn [rope_lock init_mappings]. split; [|by intros ?%not_elem_of_nil]. intros H%lookup_replicate. by destruct H.
    + intros t. by destruct (Hh t) as [_ ->].
    + intros i. by rewrite init_cpc.
    + intros k. by rewrite init_kpc.
  - split; try done; first [intros i; rewrite init_cpc; (done || by intros [|])|intros i; rewrite init_kpc; (done || by intros [|])|by intros [|]].
  - split; [|done|split; [done|cbn; lia]|done]. intros i Hi. rewrite init_cpc. cbn [wait_count main init_mappings]. rewrite decide_False by lia. split; [|lia]. destruct i as [|[|i]]; [done|done|lia].
  - exists (seqZ 0 (Z.of_nat NROPES)). split; try done; intros k a b; rewrite init_kpc; done.
Qed.

Lemma reach_inv s : reach s -> inv s.
Proof. induction 1 as [|s t c1 c2 s' R IH Hs]; [apply init_inv|]. by eapply move_inv, step_move. Qed.

(** ** No crash *)

Lemma alive_cutter i p s : inv s -> cutters s !! i = Some p -> p <> CGone -> destroyed s = false.
Proof.
  intros [St L Ct Sg _] Hp Hn. apply not_true_is_false. intros Hd%(sg_destroyed _ Sg). pose proof (active_counting i p s St Sg Hp Hn) as H. by rewrite Hd in H.
Qed.

Lemma alive_killer k p s : inv s -> killers s !! k = Some p -> p <> KGone -> destroyed s = false.
Proof.
  intros [St L Ct Sg _] Hp Hn. apply not_true_is_false. intros Hd%(sg_destroyed _ Sg). destruct (all_gone s St Sg) as (_ & Hg & _); [rewrite Hd; cbn [wait_count]; lia|].
  pose proof (lookup_lt_Some _ _ _ Hp) as Hk. rewrite (sd_killers _ St) in Hk. rewrite Hg in Hp by done. congruence.
Qed.

Lemma alive_balloon s : inv s -> balloon s <> BGone -> destroyed s = false.
Proof.
  intros [St L Ct Sg _] Hn. apply not_true_is_false. intros Hd%(sg_destroyed _ Sg). destruct (all_gone s St Sg) as (_ & _ & Hg); [rewrite Hd; cbn [wait_count]; lia|]. done.
Qed.

Lemma rope_exists s r : inv s -> (r < NROPES)%nat -> is_Some (rope_lock s !! r) /\ is_Some (cut s !! r) /\ is_Some (stake s !! r).
Proof.
  intros [St L Ct Sg [F Pl]] Hr. split_and!; apply lookup_lt_is_Some_2; [by rewrite (lk_ropes _ L)|by rewrite (ct_length _ Ct)|by rewrite (pl_length _ _ Pl)].
Qed.

(** A lock that is not held by the thread can be asked for, one that is can
    be given back. *)
Lemma acquire_no_crash t r s f : inv s -> (r < NROPES)%nat -> destroyed s = false -> r ∉ held t s -> and_then (acquire_rope t r s) f <> Crash.
Proof.
  intros I Hr Hd Hn. destruct (rope_exists s r I Hr) as ([o Ho] & _). unfold acquire_rope, lock_take. rewrite Ho, Hd. destruct o as [u|]; [|done]. case_decide; [|done]. subst.
  exfalso. by apply Hn, (lk_rope _ (iv_locks _ I)).
Qed.

Lemma release_no_crash t r s f : inv s -> destroyed s = false -> r ∈ held t s -> and_then (release_rope t r s) f <> Crash.
Proof. intros I Hd Hr. apply (lk_rope _ (iv_locks _ I)) in Hr. unfold release_rope, lock_give. rewrite Hr, Hd, decide_True by done. done. Qed.

Lemma cutter_no_crash i c s : inv s -> cutter_step i c s <> Crash.
Proof.
  intros I. unfold cutter_step. destruct (cutters s !! i) as [p|] eqn:Ep; [|done]. pose proof (cpc_Some _ _ _ Ep) as Hi. pose proof (lk_cutter_ok _ (iv_locks _ I) i) as Hok. rewrite Hi in Hok.
  assert (p <> CGone -> destroyed s = false) as Hd by (by apply (alive_cutter i)). assert (held (Cutter i) s = cutter_ropes p) as Hh by (cbn; by rewrite Hi). assert (holds_left (Cutter i) s = cutter_left p) as Hl by (cbn; by rewrite Hi).
  destruct p; try done; cbn [cutter_ok cutter_ropes cutter_left] in *.
  - apply acquire_no_crash; [done|done|by apply Hd|rewrite Hh; set_solver].
  - destruct (rope_exists s r I Hok) as (_ & [b ->] & _). done.
  - unfold lock_take. rewrite Hd by done. destruct (ropes_left_lock s) as [u|] eqn:El; [|done]. case_decide as E; [|done]. subst. apply (lk_left _ (iv_locks _ I)) in El. congruence.
  - unfold lock_give. rewrite Hd by done. apply (lk_left _ (iv_locks _ I)) in Hl. rewrite Hl, decide_True by done. done.
  - apply release_no_crash; [done|by apply Hd|rewrite Hh; set_solver].
  - unfold signal. by rewrite Hd.
Qed.

Lemma killer_no_crash k c1 c2 s : inv s -> killer_step k c1 c2 s <> Crash.
Proof.
  intros I. unfold killer_step. destruct (killers s !! k) as [p|] eqn:Ep; [|done]. pose proof (kpc_Some _ _ _ Ep) as Hi. pose proof (lk_killer_ok _ (iv_locks _ I) k) as Hok. rewrite Hi in Hok.
  assert (p <> KGone -> destroyed s = false) as Hd by (by apply (alive_killer k)). assert (held (Killer k) s = killer_ropes p) as Hh by (cbn; by rewrite Hi).
  destruct p; try done; cbn [killer_ok killer_ropes] in *; try (destruct (rope_exists s rope1 I ltac:(lia)) as (_ & [? E1] & [? E2])); try (destruct (rope_exists s rope2 I ltac:(lia)) as (_ & [? E3] & [? E4])).
  - apply acquire_no_crash; [done|lia|by apply Hd|rewrite Hh; set_solver].
  - apply acquire_no_crash; [done|lia|by apply Hd|rewrite Hh, list_elem_of_singleton; lia].
  - by rewrite E1.
  - by rewrite E3.
  - by rewrite E2.
  - by rewrite E4.
  - apply release_no_crash; [done|by apply Hd|rewrite Hh; set_solver].
  - apply release_no_crash; [done|by apply Hd|rewrite Hh; set_solver].
  - unfold signal. by rewrite Hd.
Qed.

Lemma nothing_held s : inv s -> (last_thread < wait_count (main s))%nat -> Forall (fun o => o = None) (rope_lock s) /\ ropes_left_lock s = None.
Proof.
  intros [St L Ct Sg _] Hw. destruct (all_gone s St Sg Hw) as (H1 & H2 & H3). assert (forall t, held t s = [] /\ holds_left t s = false) as Hh.
  { intros [i|k| |]; cbn; try done; unfold cpc, kpc.
    - destruct (cutters s !! i) as [p|] eqn:E; [|done]. pose proof (lookup_lt_Some _ _ _ E) as Hi. rewrite (sd_cutters _ St) in Hi. rewrite H1 in E by done. by injection E as <-.
    - destruct (killers s !! k) as [p|] eqn:E; [|done]. pose proof (lookup_lt_Some _ _ _ E) as Hi. rewrite (sd_killers _ St) in Hi. rewrite H2 in E by done. by injection E as <-. }
  split.
  - apply Forall_lookup. intros r [t|] Hr; [|done]. apply (lk_rope _ L) in Hr. destruct (Hh t) as [Ht _]. rewrite Ht in Hr. by apply not_elem_of_nil in Hr.
  - destruct (ropes_left_lock s) as [t|] eqn:E; [|done]. apply (lk_left _ L) in E. destruct (Hh t) as [_ Ht]. congruence.
Qed.

Lemma step_no_crash t c1 c2 s : inv s -> step t c1 c2 s <> Crash.
Proof.
  intros I. destruct t as [i|k| |]; cbn [step]; [by apply cutter_no_crash|by apply killer_no_crash| |].
  - unfold balloon_step, signal. destruct (balloon s) eqn:E; try done; [by case_match|]. rewrite alive_balloon by (done || congruence). done.
  - unfold main_step. destruct (main s) eqn:E; try done; try (by case_match). unfold destroy_resources. destruct (nothing_held s I) as [H1 H2]; [rewrite E; cbn [wait_count]; lia|].
    rewrite !bool_decide_eq_true_2 by done. done.
Qed.

(** ** Progress *)

(** A thread that holds a lock can be followed, along the locks it waits for,
    to one that holds a lock and can go on: locks are taken in order. *)
Definition can_step (t : who) (s : bst) : Prop := exists s', step t 0 0 s = Step s'.

Lemma can_step_intro t s : inv s -> step t 0 0 s <> Blocked -> can_step t s.
Proof. intros I H. unfold can_step. pose proof (step_no_crash t 0 0 s I). destruct (step t 0 0 s); [by eexists|done|done]. Qed.

Lemma take_not_blocked t r s f : inv s -> (r < NROPES)%nat -> rope_lock s !! r = Some None -> and_then (acquire_rope t r s) f <> Blocked.
Proof. intros I Hr E. unfold acquire_rope, lock_take. rewrite E. by destruct (destroyed s). Qed.

Lemma release_not_blocked t r s f : and_then (release_rope t r s) f <> Blocked.
Proof. unfold release_rope, lock_give. by repeat case_match. Qed.

Lemma give_not_blocked s t o f g : and_then (lock_give s t o f) g <> Blocked.
Proof. unfold lock_give. by repeat case_match. Qed.

(** Who holds the counter's lock never waits. *)
Lemma left_holder_steps t s : inv s -> holds_left t s = true -> can_step t s /\ held t s <> [].
Proof.
  intros I Ht. destruct t as [i|k| |]; try done. cbn [holds_left] in Ht. assert (cutters s !! i = Some (cpc s i)) as Ei by (unfold cpc in *; by destruct (cutters s !! i)). split.
  - apply can_step_intro; [done|]. cbn [step]. unfold cutter_step. rewrite Ei. destruct (cpc s i); try done. apply give_not_blocked.
  - cbn [held]. by destruct (cpc s i).
Qed.

Lemma holder_steps n : forall r t s, inv s -> (NROPES - r <= n)%nat -> r ∈ held t s -> exists u, can_step u s /\ held u s <> [].
Proof.
  induction n as [|n IH]; intros r t s I Hn Hr.
  { exfalso. apply (lk_rope _ (iv_locks _ I)) in Hr. apply lookup_lt_Some in Hr. rewrite (lk_ropes _ (iv_locks _ I)) in Hr. lia. }
  destruct t as [i|k| |]; cbn [held] in Hr; try (by apply not_elem_of_nil in Hr).
  - assert (cutters s !! i = Some (cpc s i)) as Ei. { unfold cpc in *. destruct (cutters s !! i); [done|]. by apply not_elem_of_nil in Hr. }
    assert (held (Cutter i) s <> []) as Hh by (cbn; destruct (cutter_ropes (cpc s i)); [by apply not_elem_of_nil in Hr|done]).
    destruct (holds_left (Cutter i) s) eqn:El; [exists (Cutter i); by apply left_holder_steps|].
    destruct (cpc s i) eqn:Ep; cbn [cutter_ropes] in Hr; try (by apply not_elem_of_nil in Hr); try (cbn in El; rewrite Ep in El; done).
    + exists (Cutter i). split; [|done]. apply can_step_intro; [done|]. cbn [step]. unfold cutter_step. rewrite Ei. by case_match.
    + exists (Cutter i). split; [|done]. apply can_step_intro; [done|]. cbn [step]. unfold cutter_step. by rewrite Ei.
    + destruct (ropes_left_lock s) as [u|] eqn:Eo; [exists u; apply left_holder_steps; [done|by apply (lk_left _ (iv_locks _ I))]|].
      exists (Cutter i). split; [|done]. apply can_step_intro; [done|]. cbn [step]. unfold cutter_step, lock_take. rewrite Ei, Eo. by destruct (destroyed s).
    + exists (Cutter i). split; [|done]. apply can_step_intro; [done|]. cbn [step]. unfold cutter_step. rewrite Ei. apply release_not_blocked.
  - assert (killers s !! k = Some (kpc s k)) as Ei. { unfold kpc in *. destruct (killers s !! k); [done|]. by apply not_elem_of_nil in Hr. }
    assert (held (Killer k) s <> []) as Hh by (cbn; destruct (killer_ropes (kpc s k)); [by apply not_elem_of_nil in Hr|done]).
    pose proof (lk_killer_ok _ (iv_locks _ I) k) as Hok.
    assert (step (Killer k) 0 0 s <> Blocked -> exists u, can_step u s /\ held u s <> []) as Hdone by (intros Hb; exists (Killer k); split; [by apply can_step_intro|done]).
    cbn [step] in Hdone. unfold killer_step in Hdone. rewrite Ei in Hdone.
    destruct (kpc s k) eqn:Ep; cbn [killer_ropes killer_ok] in *; try (by apply not_elem_of_nil in Hr); try (by apply Hdone; case_match); try (apply Hdone, release_not_blocked); try (by apply Hdone).
    apply list_elem_of_singleton in Hr as ->. destruct (rope_exists s rope2 I) as ([[u|] Eo] & _); [lia| |].
    + eapply (IH rope2 u s); [done|lia|by apply (lk_rope _ (iv_locks _ I))].
    + apply Hdone, take_not_blocked; [done|lia|done].
Qed.

(** ** The way to the end *)

(** How far a thread is from its end, when the ropes that are left are the
    only ones picked: a round that cuts a rope is paid for by the rope. *)
Definition is_cut (l : list bool) (r : nat) : bool := default true (l !! r).

Definition cutter_weight (l : list bool) (p : cutter_pc) : Z :=
  match p with
  | CIdle | CGone => 0
  | CSignal => 1
  | CCut _ => 16
  | CCheck r => if is_cut l r then 29 else 17
  | CAcquire r => if is_cut l r then 30 else 18
  | CPick => if uncut l =? 0 then 31 else 19
  | CTest => 20
  | CRelease _ => 28
  | CLeftRelease _ => 32
  | CStore _ _ => 33
  | CLoad _ => 34
  | CLeftAcquire _ => 35
  end.

Definition killer_weight (p : killer_pc) : Z :=
  match p with
  | KIdle | KGone => 0
  | KSignal => 1
  | KTest => 2
  | KRelease2 _ => 16
  | KRelease1 _ _ => 17
  | KStore _ _ _ => 18
  | KMove _ _ _ => 19
  | KLoad _ _ => 20
  | KCheck2 _ _ => 21
  | KCheck1 _ _ => 22
  | KAcquire2 _ _ => 23
  | KAcquire1 _ _ => 24
  | KPick => 25
  end.

Definition balloon_weight (p : balloon_pc) : Z := match p with BIdle | BGone => 0 | BSignal => 1 | BTest => 2 end.

Definition main_weight (m : main_pc) : Z :=
  match m with
  | MFork k => 100 * (3 + 11 + 11 - Z.of_nat k)
  | MWait k => 100 * (2 + 11 - Z.of_nat k)
  | MReset => 200
  | MDestroy => 100
  | MDone | MPanic _ => 0
  end.

Fixpoint lords_weight (l : list killer_pc) : Z := match l with [] => 0 | p :: l => killer_weight p + lords_weight l end.

Definition total (s : bst) : Z :=
  100 * uncut (cut s) + (cutter_weight (cut s) (cpc s 0) + cutter_weight (cut s) (cpc s 1)) + lords_weight (killers s) + balloon_weight (balloon s) + main_weight (main s).

Lemma cutter_weight_range l p : 0 <= cutter_weight l p <= 35.
Proof. destruct p; cbn; repeat case_match; lia. Qed.

Lemma killer_weight_range p : 0 <= killer_weight p <= 25.
Proof. destruct p; cbn; lia. Qed.

Lemma lords_weight_nonneg l : 0 <= lords_weight l.
Proof. induction l as [|p l IH]; cbn [lords_weight]; [lia|]. pose proof (killer_weight_range p). lia. Qed.

Lemma lords_weight_insert l k p p' : l !! k = Some p -> lords_weight (<[k := p']> l) = lords_weight l - killer_weight p + killer_weight p'.
Proof.
  revert k. induction l as [|q l IH]; intros [|k] Hk; try done; [injection Hk as ->; cbn; lia|]. specialize (IH k Hk). change (<[S k := p']> (q :: l)) with (q :: <[k := p']> l). cbn [lords_weight]. lia.
Qed.

Lemma total_nonneg s : started s -> 0 <= total s.
Proof.
  intros St. unfold total. pose proof (uncut_nonneg (cut s)). pose proof (cutter_weight_range (cut s) (cpc s 0)). pose proof (cutter_weight_range (cut s) (cpc s 1)). pose proof (lords_weight_nonneg (killers s)).
  assert (0 <= balloon_weight (balloon s)) by (destruct (balloon s); cbn; lia). assert (0 <= main_weight (main s)). { pose proof (sd_main _ St) as Hm. destruct (main s); cbn [main_weight]; try lia; unfold last_thread, N_LORD_FLOWERKILLER in Hm; lia. } lia.
Qed.

Lemma total_cutter i p p' s s1 : length (cutters s) = 2%nat -> cutters s !! i = Some p -> cutters s1 = cutters s -> killers s1 = killers s -> balloon s1 = balloon s -> main s1 = main s -> cut s1 = cut s ->
  total (set_cutter i p' s1) = total s - cutter_weight (cut s) p + cutter_weight (cut s) p'.
Proof.
  intros Hl Hp Ec Ek Eb Em El. assert (forall j, cpc (set_cutter i p' s1) j = if decide (j = i) then p' else cpc s j) as Hc by (intros j; rewrite (cpc_set _ _ _ _ p) by (by rewrite Ec); unfold cpc; by rewrite Ec).
  unfold total. rewrite !Hc. cbn [cut killers balloon main set_cutter]. rewrite Ek, Eb, Em, El. pose proof (cpc_Some _ _ _ Hp) as Hi. apply lookup_lt_Some in Hp. destruct i as [|[|i]]; [| |lia]; rewrite Hi; repeat case_decide; lia.
Qed.

Lemma total_killer k p p' s s1 : killers s !! k = Some p -> cutters s1 = cutters s -> killers s1 = killers s -> balloon s1 = balloon s -> main s1 = main s -> cut s1 = cut s ->
  total (set_killer k p' s1) = total s - killer_weight p + killer_weight p'.
Proof.
  intros Hp Ec Ek Eb Em El. unfold total, cpc. cbn [cut cutters killers balloon main set_killer]. rewrite Ec, Ek, Eb, Em, El, (lords_weight_insert _ _ _ _ Hp). lia.
Qed.

(** Cutting a rope makes the other cutter's round longer at most. *)
Lemma cutter_weight_cut l r p : cutter_weight (<[r := true]> l) p <= cutter_weight l p + 12.
Proof.
  destruct p; cbn [cutter_weight]; try lia; repeat case_match; lia.
Qed.

Lemma total_cut i r s : inv s -> cutters s !! i = Some (CCut r) -> total (set_cutter i (CLeftAcquire r) (set_cut (<[r := true]> (cut s)) s)) < total s.
Proof.
  intros I Hp. set (s1 := set_cut (<[r := true]> (cut s)) s). pose proof (ct_cutters _ (iv_counts _ I) i) as Hk. rewrite (cpc_Some _ _ _ Hp) in Hk. cbn [cutter_knows] in Hk.
  rewrite (total_cutter i (CCut r) _ s1 s1) by (done || apply I). unfold total, s1, cpc. cbn [cut cutters killers balloon main set_cut cutter_weight]. rewrite (uncut_insert _ _ Hk).
  pose proof (cutter_weight_cut (cut s) r (default CIdle (cutters s !! 0%nat))). pose proof (cutter_weight_cut (cut s) r (default CIdle (cutters s !! 1%nat))). lia.
Qed.

Lemma cutter_decreases i p p' s s1 : inv s -> cutters s !! i = Some p -> cutter_move i s p p' s1 -> p <> CTest -> p <> CPick -> total (set_cutter i p' s1) < total s.
Proof.
  intros I Hp C H1 H2. pose proof (sd_cutters _ (iv_started _ I)) as Hl. destruct C; try done; try (erewrite total_cutter; [|done|exact Hp|done..]); cbn [cutter_weight]; try lia.
  - case_match; lia.
  - unfold is_cut. rewrite H. destruct b; cbn; lia.
  - by apply total_cut.
Qed.

Lemma killer_decreases k p p' s s1 : killers s !! k = Some p -> killer_move k s p p' s1 -> p <> KTest -> total (set_killer k p' s1) < total s.
Proof.
  intros Hp C H1. destruct C; try done; (erewrite total_killer; [|exact Hp|done..]); cbn [killer_weight]; try case_match; cbn; lia.
Qed.

Lemma holder_decreases t s s' : inv s -> held t s <> [] -> move t s s' -> total s' < total s /\ main s' = main s.
Proof.
  intros I Hh M. destruct M as [i p p' s s1 Hp C|i p p' s s1 Hp C| | | | | | | |]; try done; cbn [held] in Hh.
  - rewrite (cpc_Some _ _ _ Hp) in Hh. split; [apply (cutter_decreases i p p' s s1); try done; by intros ->|]. cbn. by apply (cutter_move_active _ _ _ _ _ C).
  - rewrite (kpc_Some _ _ _ Hp) in Hh. split; [apply (killer_decreases i p p' s s1); try done; by intros ->|]. cbn. by apply (killer_move_active _ _ _ _ _ C).
Qed.

(** A step towards the end. *)
Definition advances (s : bst) : Prop := exists t c1 c2 s', step t c1 c2 s = Step s' /\ total s' < total s /\ forall k, main s' <> MPanic k.

Definition running (m : main_pc) : Prop := match m with MDone | MPanic _ => False | _ => True end.

Lemma running_no_panic m k : running m -> m <> MPanic k.
Proof. by intros H ->. Qed.

Lemma held_advances t r s : inv s -> running (main s) -> r ∈ held t s -> advances s.
Proof.
  intros I Hm Hr. destruct (holder_steps NROPES r t s I) as (u & (s' & Hs) & Hu); [lia|done|]. destruct (holder_decreases u s s' I Hu (step_move _ _ _ _ _ Hs)) as [H1 H2].
  exists u, 0, 0, s'. split_and!; [done|done|]. intros k. rewrite H2. by apply running_no_panic.
Qed.

Lemma find_uncut l : uncut l <> 0 -> exists r, l !! r = Some false.
Proof.
  intros Hu. destruct (decide (Exists (fun b => b = false) l)) as [H|H]; [apply Exists_exists in H as (b & [r Hr]%list_elem_of_lookup & ->); by exists r|].
  exfalso. apply Hu. unfold uncut. destruct (filter (fun b => b = false) l) as [|b l'] eqn:E; [done|]. assert (b ∈ filter (fun b => b = false) l) as Hb by (rewrite E; left).
  apply list_elem_of_filter in Hb as [H1 H2]. exfalso. apply H, Exists_exists. by exists b.
Qed.

Lemma random_rope_of r : (r < NROPES)%nat -> random_rope (Z.of_nat r) = r.
Proof. intros Hr. unfold random_rope. rewrite Z.mod_small by lia. lia. Qed.

(** With no lock taken, a thread in the middle of its work goes on. *)
Definition unlocked (s : bst) : Prop := Forall (fun o => o = None) (rope_lock s).

Lemma unlocked_rope s r : inv s -> unlocked s -> (r < NROPES)%nat -> rope_lock s !! r = Some None.
Proof. intros I Hu Hr. destruct (rope_exists s r I Hr) as ([o Ho] & _). rewrite Ho. unfold unlocked in Hu. rewrite Forall_lookup in Hu. by rewrite (Hu r o Ho). Qed.

Lemma unlocked_held s t : inv s -> unlocked s -> held t s = [].
Proof.
  intros I Hu. destruct (held t s) as [|r l] eqn:E; [done|]. exfalso. assert (r ∈ held t s) as Hr by (rewrite E; left). apply (lk_rope _ (iv_locks _ I)) in Hr.
  pose proof (lookup_lt_Some _ _ _ Hr) as Hl. rewrite (lk_ropes _ (iv_locks _ I)) in Hl. rewrite (unlocked_rope s r I Hu Hl) in Hr. done.
Qed.

Lemma pick_advances i s : inv s -> running (main s) -> cutters s !! i = Some CPick -> advances s.
Proof.
  intros I Hm Hp. pose proof (sd_cutters _ (iv_started _ I)) as Hl. assert (forall r, (r < NROPES)%nat -> cutter_weight (cut s) (CAcquire r) < cutter_weight (cut s) CPick -> advances s) as Hgo.
  { intros r Hr Hw. exists (Cutter i), (Z.of_nat r), 0, (set_cutter i (CAcquire r) s). split_and!.
    - cbn [step]. unfold cutter_step. by rewrite Hp, random_rope_of.
    - erewrite total_cutter; [|done|exact Hp|done..]. lia.
    - intros k. by apply running_no_panic. }
  destruct (decide (uncut (cut s) = 0)) as [Hu|Hu].
  - apply (Hgo 0%nat); [unfold NROPES; lia|]. cbn [cutter_weight]. rewrite Hu. cbn. case_match; lia.
  - destruct (find_uncut _ Hu) as [r Hr]. apply (Hgo r); [rewrite <- (ct_length _ (iv_counts _ I)); by eapply lookup_lt_Some|]. cbn [cutter_weight]. unfold is_cut. rewrite Hr. cbn. case_match; boolify; lia.
Qed.

Lemma cutter_advances i p s : inv s -> running (main s) -> unlocked s -> cutters s !! i = Some p -> p <> CIdle -> p <> CTest -> p <> CGone -> advances s.
Proof.
  intros I Hm Hu Hp H1 H2 H3. pose proof (cpc_Some _ _ _ Hp) as Hi. pose proof (unlocked_held s (Cutter i) I Hu) as Hh. pose proof (lk_cutter_ok _ (iv_locks _ I) i) as Hok. cbn [held] in Hh. rewrite Hi in Hh, Hok.
  assert (p = CPick \/ p <> CPick) as [->|Hn] by (destruct p; auto); [by apply (pick_advances i)|]. destruct (can_step_intro (Cutter i) s I) as [s' Hs].
  - cbn [step]. unfold cutter_step. rewrite Hp. destruct p; try done; [apply take_not_blocked; [done|done|by apply unlocked_rope]|]. unfold signal. by destruct (destroyed s).
  - exists (Cutter i), 0, 0, s'. split; [done|]. apply step_move in Hs. clear Hi. inversion Hs as [? p0 p' ? s1 Hp0 C| | | | | | | | |]; subst. rewrite Hp in Hp0. injection Hp0 as <-.
    split; [by apply (cutter_decreases i p)|]. intros k. cbn. destruct (cutter_move_active _ _ _ _ _ C) as (_ & _ & _ & _ & _ & -> & _). by apply running_no_panic.
Qed.

Lemma killer_advances k p s : inv s -> running (main s) -> unlocked s -> killers s !! k = Some p -> p <> KIdle -> p <> KTest -> p <> KGone -> advances s.
Proof.
  intros I Hm Hu Hp H1 H2 H3. pose proof (kpc_Some _ _ _ Hp) as Hi. pose proof (unlocked_held s (Killer k) I Hu) as Hh. pose proof (lk_killer_ok _ (iv_locks _ I) k) as Hok. cbn [held] in Hh. rewrite Hi in Hh, Hok.
  destruct (can_step_intro (Killer k) s I) as [s' Hs].
  - cbn [step]. unfold killer_step. rewrite Hp. destruct p; try done; [apply take_not_blocked; [done|cbn in Hok; lia|apply unlocked_rope; cbn in Hok; done || lia]|]. unfold signal. by destruct (destroyed s).
  - exists (Killer k), 0, 0, s'. split; [done|]. apply step_move in Hs. clear Hi. inversion Hs as [|? p0 p' ? s1 Hp0 C| | | | | | | |]; subst. rewrite Hp in Hp0. injection Hp0 as <-.
    split; [by apply (killer_decreases k p)|]. intros j. cbn. destruct (killer_move_active _ _ _ _ _ C) as (_ & _ & _ & _ & _ & -> & _). by apply running_no_panic.
Qed.

Lemma signal_advances s : inv s -> running (main s) -> balloon s = BSignal -> advances s.
Proof.
  intros I Hm Hb. eexists TheBalloon, 0, 0, _. cbn [step]. unfold balloon_step, signal. rewrite Hb, alive_balloon by (done || congruence). split_and!; [done| |by intros k; apply running_no_panic].
  unfold total, cpc. cbn [cut cutters killers balloon main set_balloon set_done]. rewrite Hb. cbn [balloon_weight]. lia.
Qed.

Lemma total_main m s : total (set_main m s) = total s - main_weight (main s) + main_weight m.
Proof. unfold total, cpc. cbn [cut cutters killers balloon main set_main]. lia. Qed.

Lemma forked_total k s : inv s -> main s = MFork k -> total (forked k s) <= total s + 20.
Proof.
  intros I Hm. destruct (forked_cases k s (iv_started _ I) Hm) as [(i & _ & -> & Hi)|[(i & _ & -> & Hi)|[-> Hb]]].
  - rewrite (total_cutter i CIdle CTest s s) by (done || apply I). cbn [cutter_weight]. lia.
  - rewrite (total_killer i KIdle KTest s s) by done. cbn [killer_weight]. lia.
  - unfold total, cpc. cbn [cut cutters killers balloon main set_balloon]. rewrite Hb. cbn [balloon_weight]. lia.
Qed.

Lemma main_advances s : inv s -> (forall k, main s <> MWait k) -> running (main s) -> advances s.
Proof.
  intros I Hw Hr. destruct (main s) as [k|k| | | |] eqn:Hm; try done; [|by destruct (Hw k)|..].
  - exists Main, 0, 0, (set_main (if (k <? last_thread)%nat then MFork (S k) else MWait 0) (forked k s)). cbn [step]. unfold main_step. rewrite Hm. split_and!; [done| |by intros j; cbn; case_match].
    assert (main (forked k s) = MFork k) as Hf by (unfold forked; by repeat case_match). rewrite total_main, Hf. pose proof (forked_total k s I Hm). pose proof (sd_main _ (iv_started _ I)) as Hk. rewrite Hm in Hk. unfold last_thread, N_LORD_FLOWERKILLER in *.
    destruct (k <? 2 + 8)%nat; cbn [main_weight]; lia.
  - eexists Main, 0, 0, _. cbn [step]. unfold main_step. rewrite Hm. split_and!; [done| |done]. rewrite total_main. unfold total, cpc. cbn [cut cutters killers balloon main set_ropes_left]. rewrite Hm. cbn [main_weight]. lia.
  - destruct (nothing_held s I) as [H1 H2]; [rewrite Hm; cbn [wait_count]; lia|]. eexists Main, 0, 0, _. cbn [step]. unfold main_step, destroy_resources. rewrite Hm, !bool_decide_eq_true_2 by done. split_and!; [done| |done].
    rewrite total_main. unfold total, cpc. cbn [cut cutters killers balloon main set_destroyed]. rewrite Hm. cbn [main_weight]. lia.
Qed.

(** The ropes are counted when no lock is taken. *)
Lemma unlocked_left s : inv s -> unlocked s -> counting (main s) = true -> ropes_left s = uncut (cut s).
Proof.
  intros I Hu Hc. rewrite (ct_left _ (iv_counts _ I) Hc). unfold pendings. pose proof (unlocked_held s (Cutter 0) I Hu) as H0. pose proof (unlocked_held s (Cutter 1) I Hu) as H1. cbn [held] in H0, H1.
  destruct (cpc s 0), (cpc s 1); try done; cbn; lia.
Qed.

Lemma test_advances i s : inv s -> running (main s) -> unlocked s -> counting (main s) = true -> cutters s !! i = Some CTest -> advances s.
Proof.
  intros I Hm Hu Hc Hp. pose proof (unlocked_left s I Hu Hc) as Hl. eexists (Cutter i), 0, 0, _. cbn [step]. unfold cutter_step. rewrite Hp. split_and!; [done| |by intros k; apply running_no_panic].
  erewrite total_cutter; [|apply I|exact Hp|done..]. pose proof (uncut_nonneg (cut s)). rewrite Hl. case_match; boolify; cbn [cutter_weight]; [case_match; boolify|]; lia.
Qed.

Lemma killer_test_advances k s : running (main s) -> ropes_left s <= 1 -> killers s !! k = Some KTest -> advances s.
Proof.
  intros Hm Hl Hp. eexists (Killer k), 0, 0, _. cbn [step]. unfold killer_step. rewrite Hp. split_and!; [done| |by intros j; apply running_no_panic].
  erewrite total_killer; [|exact Hp|done..]. case_match; boolify; cbn [killer_weight]; lia.
Qed.

Lemma balloon_test_advances s : running (main s) -> ropes_left s <= 0 -> balloon s = BTest -> advances s.
Proof.
  intros Hm Hl Hp. eexists TheBalloon, 0, 0, _. cbn [step]. unfold balloon_step. rewrite Hp. destruct (0 <? ropes_left s) eqn:E; boolify; [lia|]. split_and!; [done| |by intros j; apply running_no_panic].
  unfold total, cpc. cbn [cut cutters killers balloon main set_balloon]. rewrite Hp. cbn [balloon_weight]. lia.
Qed.

Lemma waiting_not_idle k s : inv s -> main s = MWait k -> (forall i, (i < 2)%nat -> cpc s i <> CIdle) /\ (forall j, (j < N_LORD_FLOWERKILLER)%nat -> kpc s j <> KIdle) /\ balloon s <> BIdle.
Proof.
  intros I Hm. assert (forall n, (n <= last_thread)%nat -> ~ thread_idle n s) as Hn. { intros n Hl Hi%(sd_idle _ (iv_started _ I) n Hl). rewrite Hm in Hi. cbn [fork_count] in Hi. lia. } split_and!.
  - intros [|[|i]] Hi; [apply (Hn 1%nat)|apply (Hn 0%nat)|]; unfold last_thread; lia.
  - intros j Hj Hi. apply (Hn (S (S j))); [unfold last_thread; lia|]. unfold thread_idle. destruct (S (S j) <? last_thread)%nat eqn:E; [by replace (S (S j) - 2)%nat with j by lia|]. apply Nat.ltb_ge in E. unfold last_thread in E. lia.
  - apply (Hn last_thread). lia.
Qed.

Lemma cutter_gone_or i k s : inv s -> main s = MWait k -> unlocked s -> (i < 2)%nat -> advances s \/ cpc s i = CGone.
Proof.
  intros I Hm Hu Hi. destruct (waiting_not_idle k s I Hm) as (Hn & _). specialize (Hn i Hi). assert (running (main s)) as Hr by (by rewrite Hm). assert (cutters s !! i = Some (cpc s i)) as Hp by (unfold cpc in *; by destruct (cutters s !! i)).
  destruct (cpc s i) eqn:E; try done; [left; apply (test_advances i); (done || by rewrite Hm)|..]; try (by right); left; by eapply cutter_advances.
Qed.

Lemma killers_gone_or k s : inv s -> main s = MWait k -> unlocked s -> ropes_left s <= 1 -> advances s \/ lords_gone (killers s) = Z.of_nat N_LORD_FLOWERKILLER.
Proof.
  intros I Hm Hu Hl. destruct (waiting_not_idle k s I Hm) as (_ & Hn & _). assert (running (main s)) as Hr by (by rewrite Hm). pose proof (sd_killers _ (iv_started _ I)) as Hlen.
  destruct (decide (Forall (fun p => killer_gone p = true) (killers s))) as [Hf|Hf].
  - right. rewrite <- Hlen. clear -Hf. unfold lords_gone. f_equal. induction Hf as [|p l Hp _ IH]; [done|]. rewrite filter_cons, decide_True by done. cbn [length]. by rewrite IH.
  - left. apply (not_Forall_Exists _) in Hf. apply Exists_exists in Hf as (p & [j Hj]%list_elem_of_lookup & Hg). pose proof (lookup_lt_Some _ _ _ Hj) as Hjl. rewrite Hlen in Hjl. specialize (Hn j Hjl). rewrite (kpc_Some _ _ _ Hj) in Hn.
    destruct p; try done; try (by destruct Hg); [by apply (killer_test_advances j)|..]; by eapply killer_advances.
Qed.

Lemma wait_steps k s : main s = MWait k -> 0 < semaphore_of k s -> (k <= last_thread)%nat -> advances s.
Proof.
  intros Hm Hp Hk. eexists Main, 0, 0, _. cbn [step]. unfold main_step. rewrite Hm. destruct (0 <? semaphore_of k s) eqn:E; boolify; [|lia]. split_and!; [done| |by intros j; cbn; case_match].
  rewrite total_main. assert (main (semaphore_dec k s) = MWait k) as E0 by (unfold semaphore_dec; by repeat case_match). destruct (semaphore_dec_same k s) as (E1 & E2 & E3 & _ & _ & _ & _ & E8 & _). unfold total, cpc. rewrite E0, E1, E2, E3, E8, Hm. unfold last_thread, N_LORD_FLOWERKILLER in *. destruct (k <? 2 + 8)%nat; cbn [main_weight]; lia.
Qed.

Lemma wait_advances k s : inv s -> main s = MWait k -> unlocked s -> advances s.
Proof.
  intros I Hm Hu. assert (running (main s)) as Hr by (by rewrite Hm). pose proof (sd_main _ (iv_started _ I)) as Hk. rewrite Hm in Hk.
  destruct (cutter_gone_or 0 k s I Hm Hu) as [?|G0]; [lia|done|]. destruct (cutter_gone_or 1 k s I Hm Hu) as [?|G1]; [lia|done|].
  assert (ropes_left s <= 0) as Hl by (apply (ct_cutters_end _ (iv_counts _ I) 0%nat); [by right|by rewrite Hm]).
  destruct (killers_gone_or k s I Hm Hu) as [?|GK]; [lia|done|]. destruct (waiting_not_idle k s I Hm) as (_ & _ & Hb). destruct (balloon s) eqn:Eb; [done|by apply balloon_test_advances|by apply signal_advances|].
  apply (wait_steps k); [done| |done]. destruct (iv_signals _ I) as [S1 [S2 _] [S3 _] _]. unfold semaphore_of. rewrite Hm in S1, S2, S3. cbn [wait_count] in S1, S2, S3. destruct (k <? 2)%nat eqn:E1; [|destruct (k <? last_thread)%nat eqn:E2].
  - apply Nat.ltb_lt in E1. destruct (S1 k E1) as [-> _]. rewrite decide_False by lia. destruct k as [|[|k]]; [rewrite G0|rewrite G1|lia]; cbn; lia.
  - apply Nat.ltb_lt in E2. rewrite S2, GK. unfold last_thread, N_LORD_FLOWERKILLER in *. lia.
  - rewrite S3, decide_False by lia. rewrite Eb. cbn. lia.
Qed.

Lemma always_advances s : inv s -> running (main s) -> advances s.
Proof.
  intros I Hr. destruct (decide (Forall (fun o => o = None) (rope_lock s))) as [Hu|Hu].
  - destruct (main s) as [k|k| | | |] eqn:Hm; try done; [|by apply (wait_advances k)|..]; (apply main_advances; [done|intros j; by rewrite Hm|by rewrite Hm]).
  - apply (not_Forall_Exists _) in Hu. apply Exists_exists in Hu as (o & [r Hj]%list_elem_of_lookup & Ho). destruct o as [t|]; [|by destruct Ho]. apply (lk_rope _ (iv_locks _ I)) in Hj. by eapply held_advances.
Qed.

(** ** What is seen from outside *)

Definition one (s s' : bst) : Prop := exists t c1 c2, step t c1 c2 s = Step s'.

Lemma one_reach s s' : reach s -> rtc one s s' -> reach s'.
Proof. intros R H. induction H as [|s s1 s' (t & c1 & c2 & Hs) _ IH]; [done|]. apply IH. by eapply reach_step. Qed.

Lemma total_ind n : forall s, reach s -> running (main s) -> total s < Z.of_nat n -> exists s', rtc one s s' /\ main s' = MDone.
Proof.
  induction n as [|n IH]; intros s R Hm Ht. { pose proof (total_nonneg s (iv_started _ (reach_inv s R))). lia. }
  destruct (always_advances s (reach_inv s R) Hm) as (t & c1 & c2 & s1 & Hs & Hl & Hp). assert (one s s1) as Ho by (by exists t, c1, c2). assert (reach s1) as R1 by (by eapply reach_step).
  assert (main s1 = MDone \/ running (main s1)) as [Hd|Hr] by (destruct (main s1) as [| | | | |k]; [by right..|by left|by destruct (Hp k)]).
  - exists s1. split; [by apply rtc_once|done].
  - destruct (IH s1) as (s' & H1 & H2); [done|done|lia|]. exists s'. split; [by eapply rtc_l|done].
Qed.

(** What the two cutters and the balloon wait for, as long as the count is not
    put back. *)
Definition ended (s : bst) : Prop := (exists i, cpc s i = CSignal \/ cpc s i = CGone) \/ balloon s = BSignal \/ balloon s = BGone.

Lemma counting_cut s : inv s -> counting (main s) = true -> ended s -> uncut (cut s) = 0.
Proof.
  intros I Hc He. assert (ropes_left s <= 0) as Hl by (destruct He as [[i Hi]|Hb]; [by apply (ct_cutters_end _ (iv_counts _ I) i)|by apply (ct_balloon_end _ (iv_counts _ I))]).
  rewrite (ct_left _ (iv_counts _ I) Hc) in Hl. unfold pendings in Hl. pose proof (uncut_nonneg (cut s)). pose proof (pending_nonneg (cpc s 0)). pose proof (pending_nonneg (cpc s 1)). lia.
Qed.

Lemma act_uncut g g' : act g g' -> uncut (g_cut g') <= uncut (g_cut g).
Proof. intros [|r g0 Hr|]; cbn; [lia|rewrite uncut_insert by done; lia|lia]. Qed.

Lemma reset_cut s : reach s -> counting (main s) = false -> uncut (cut s) = 0.
Proof.
  induction 1 as [|s t c1 c2 s' R IH Hs]; [done|]. intros Hc. pose proof (reach_inv s R) as I. apply step_move in Hs. destruct (iv_placed _ I) as [F Pl]. destruct (move_placed t s s' F) as (F' & HA & _); try done; try apply I. apply act_uncut in HA. cbn in HA. pose proof (uncut_nonneg (cut s')).
  destruct (counting (main s)) eqn:Ec; [|specialize (IH eq_refl); lia]. assert (main s = MReset) as Hm.
  { inversion Hs as [i p p' ? s1 Hp C|i p p' ? s1 Hp C| | | |k ? Hm|k ? Hm|k ? Hm Hse| |]; subst; cbn in Hc; try congruence; repeat case_match; try done.
    - destruct (cutter_move_active _ _ _ _ _ C) as (_ & _ & _ & _ & _ & E & _). congruence.
    - destruct (killer_move_active _ _ _ _ _ C) as (_ & _ & _ & _ & _ & E & _). congruence.
    - rewrite H0 in Ec. done. }
  destruct (all_gone s (iv_started _ I) (iv_signals _ I)) as (_ & _ & Hb); [rewrite Hm; cbn [wait_count]; lia|]. pose proof (counting_cut s I Ec). unfold ended in *. rewrite H0 in HA by auto. lia.
Qed.

Lemma ended_cut s : reach s -> ended s -> uncut (cut s) = 0.
Proof. intros R He. destruct (counting (main s)) eqn:E; [by apply counting_cut; [apply reach_inv| |]|by apply reset_cut]. Qed.

Lemma uncut_zero l : uncut l = 0 -> Forall (fun b => b = true) l.
Proof.
  intros Hu. apply Forall_lookup. intros r [|] Hr; [done|]. exfalso. pose proof (uncut_insert l r Hr). pose proof (uncut_nonneg (<[r := true]> l)). lia.
Qed.

(** A schedule: who goes next, with what [random] returns. *)
Fixpoint run (l : list (who * Z * Z)) (s : bst) : option bst :=
  match l with
  | [] => Some s
  | (t, c1, c2) :: l => match step t c1 c2 s with Step s' => run l s' | _ => None end
  end.

Lemma run_reach l : forall s s', reach s -> run l s = Some s' -> reach s'.
Proof.
  induction l as [|[[t c1] c2] l IH]; cbn [run]; intros s s' R H; [congruence|]. destruct (step t c1 c2 s) as [s1| |] eqn:E; try done. eapply IH; [|exact H]. by eapply reach_step.
Qed.

(** Everybody runs; a lord is in the middle of an exchange of the stakes 2 and
    9, Marigold has cut the rope 3 and not counted it yet. *)
Definition to_the_middle : list (who * Z * Z) := replicate 11 (Main, 0, 0) ++ replicate 8 (Killer 5, 25, 2) ++ replicate 6 (Cutter 1, 3, 0).

Definition in_the_middle : bst := default init_mappings (run to_the_middle init_mappings).

Lemma in_the_middle_reach : reach in_the_middle.
Proof. apply (run_reach to_the_middle init_mappings); [apply reach_init|]. vm_compute. reflexivity. Qed.

(** ** The theorems *)

Definition all_cut (s : bst) : Prop := Forall (fun b => b = true) (cut s).

Definition simulates (g : garden) (s : bst) : Prop := g_cut g = cut s /\ placed (g_stake g) s.

Definition garden_start : garden := Garden (replicate NROPES false) (seqZ 0 (Z.of_nat NROPES)).

Lemma init_simulates : simulates garden_start init_mappings.
Proof. split; [done|]. split; try done; intros k a b; rewrite init_kpc; done. Qed.

Lemma step_simulates t c1 c2 g s s' : inv s -> simulates g s -> step t c1 c2 s = Step s' -> exists g', act g g' /\ simulates g' s'.
Proof.
  intros I [E Pl] Hs%step_move. destruct (move_placed t s s' (g_stake g)) as (F' & HA & Pl'); try done; try apply I. exists (Garden (cut s') F'). split; [|done]. rewrite <- E in HA. by destruct g.
Qed.

(** Only ropes that are not cut are written. *)
Lemma move_keeps t s s' r : inv s -> move t s s' -> cut s !! r = Some true -> cut s' !! r = Some true /\ stake s' !! r = stake s !! r.
Proof.
  intros I M Hr. destruct M as [i p p' s s1 Hp C|i p p' s s1 Hp C| | | |k s Hm| |k s Hm _| |]; try done.
  - destruct C; try done. cbn. destruct (decide (r = r0)) as [->|Hn]; [rewrite list_lookup_insert_eq; [done|by eapply lookup_lt_Some]|by rewrite list_lookup_insert_ne].
  - pose proof (ct_killers _ (iv_counts _ I) i) as Hkn. rewrite (kpc_Some _ _ _ Hp) in Hkn. destruct C; try done; cbn [killer_knows] in Hkn; cbn; rewrite list_lookup_insert_ne; (done || intros ->; destruct Hkn; congruence).
  - cbn. unfold forked. by repeat case_match.
  - cbn. destruct (semaphore_dec_same k s) as (_ & _ & _ & _ & _ & _ & _ & -> & ->). done.
Qed.

(** C20: whatever the schedule, what [random] returns and which forks fail, no
    thread of the balloon problem releases a lock it does not hold, takes one
    it holds, indexes outside the ropes or uses a lock or semaphore that was
    destroyed; a rope's lock has one holder; and when the locks are destroyed
    all the threads have signalled and nobody holds anything. *)
Theorem balloon_safe s : reach s ->
  (forall t c1 c2, step t c1 c2 s <> Crash) /\
  (forall t u r, r ∈ held t s -> r ∈ held u s -> t = u) /\
  (forall t u, holds_left t s = true -> holds_left u s = true -> t = u) /\
  (destroyed s = true -> (forall i, (i < 2)%nat -> cpc s i = CGone) /\ (forall k, (k < N_LORD_FLOWERKILLER)%nat -> kpc s k = KGone) /\ balloon s = BGone /\
    Forall (fun o => o = None) (rope_lock s) /\ ropes_left_lock s = None).
Proof.
  intros R. pose proof (reach_inv s R) as I. split_and!.
  - intros t c1 c2. by apply step_no_crash.
  - intros t u r Ht Hu. by apply (exclusive s t u r (iv_locks _ I)).
  - intros t u Ht Hu. by apply (exclusive_left s t u (iv_locks _ I)).
  - intros Hd%(sg_destroyed _ (iv_signals _ I)). assert (last_thread < wait_count (main s))%nat as Hw by (rewrite Hd; cbn [wait_count]; lia). destruct (all_gone s (iv_started _ I) (iv_signals _ I) Hw) as (H1 & H2 & H3). destruct (nothing_held s I Hw).
    split_and!; [intros i Hi; by apply cpc_Some, H1|intros k Hk; by apply kpc_Some, H2|done..].
Qed.

Lemma balloon_safe_witness : held (Killer 5) in_the_middle = [2; 9]%nat /\ step (Cutter 0) 0 0 in_the_middle <> Crash.
Proof. split; [vm_compute; reflexivity|]. apply (balloon_safe in_the_middle in_the_middle_reach). Defined.

(** C18: the interleaved threads implement the problem as it is told. Every
    step does nothing to the ropes, cuts one rope that was not cut, or
    exchanges the stakes of two ropes that are not cut; while no lord is
    between its two stores the stakes in memory are those of that account, a
    permutation of the stakes at the start. *)
Theorem balloon_refines s : reach s -> exists g, rtc act garden_start g /\ simulates g s /\
  (forall t c1 c2 s', step t c1 c2 s = Step s' -> exists g', act g g' /\ simulates g' s') /\
  g_stake g ≡ₚ seqZ 0 (Z.of_nat NROPES) /\
  ((forall k a b temp, kpc s k <> KStore a b temp) -> stake s = g_stake g).
Proof.
  intros R. assert (exists g, rtc act garden_start g /\ simulates g s) as (g & Hg & Hsim).
  { induction R as [|s t c1 c2 s' R (g & Hg & Hsim) Hs]; [exists garden_start; split; [done|apply init_simulates]|]. destruct (step_simulates t c1 c2 g s s' (reach_inv s R) Hsim Hs) as (g' & H1 & H2). exists g'. split; [by eapply rtc_r|done]. }
  exists g. split_and!; [done|done| |apply Hsim|].
  - intros t c1 c2 s' Hs. by eapply step_simulates; [apply reach_inv| |].
  - intros Hq. apply list_eq. intros r. apply (pl_rest _ _ (proj2 Hsim)). intros k a temp. apply Hq.
Qed.

Lemma balloon_refines_witness : kpc in_the_middle 5 = KStore 2 9 2 /\ exists g, simulates g in_the_middle /\ g_stake g ≡ₚ seqZ 0 (Z.of_nat NROPES).
Proof. split; [vm_compute; reflexivity|]. destruct (balloon_refines in_the_middle in_the_middle_reach) as (g & _ & H1 & _ & H2 & _). by exists g. Defined.

(** C25: [ropes_left] is the number of ropes that are not cut, and of those
    cut by a thread that has not counted them yet. So the cutters and the
    balloon leave only when all ropes are cut, and a lord only when at most
    one is left; a rope that is cut stays cut and keeps its stake. *)
Theorem balloon_ropes s : reach s ->
  (counting (main s) = true -> ropes_left s = uncut (cut s) + pendings s) /\
  (forall i, cpc s i = CSignal \/ cpc s i = CGone -> all_cut s) /\
  (balloon s = BSignal \/ balloon s = BGone -> all_cut s) /\
  (forall k, kpc s k = KSignal \/ kpc s k = KGone -> uncut (cut s) <= 1) /\
  (forall t c1 c2 s' r, step t c1 c2 s = Step s' -> cut s !! r = Some true -> cut s' !! r = Some true /\ stake s' !! r = stake s !! r).
Proof.
  intros R. pose proof (reach_inv s R) as I. split_and!.
  - apply (ct_left _ (iv_counts _ I)).
  - intros i Hi. apply uncut_zero, ended_cut; [done|]. left. by exists i.
  - intros Hb. apply uncut_zero, ended_cut; [done|]. by right.
  - intros k Hk. destruct (counting (main s)) eqn:E; [|rewrite (reset_cut s R E); lia]. pose proof (ct_killers_end _ (iv_counts _ I) k Hk E) as Hl. rewrite (ct_left _ (iv_counts _ I) E) in Hl. unfold pendings in Hl.
    pose proof (pending_nonneg (cpc s 0)). pose proof (pending_nonneg (cpc s 1)). lia.
  - intros t c1 c2 s' r Hs%step_move Hr. by eapply move_keeps.
Qed.

Lemma balloon_ropes_witness : ropes_left in_the_middle = 16 /\ uncut (cut in_the_middle) = 15 /\ ropes_left in_the_middle = uncut (cut in_the_middle) + pendings in_the_middle.
Proof. split_and!; [vm_compute; reflexivity|vm_compute; reflexivity|]. apply (balloon_ropes in_the_middle in_the_middle_reach). vm_compute. reflexivity. Defined.

(** C19: from every reachable state in which no fork failed the schedule can
    be continued so that all threads finish and the main thread destroys the
    locks: nothing the threads did so far locks the system up. The ropes are then all
    cut and the stakes where exchanges have put them. *)
Theorem balloon_completes s : reach s -> running (main s) -> exists s', rtc one s s' /\ main s' = MDone /\ destroyed s' = true /\ all_cut s' /\ stake s' ≡ₚ seqZ 0 (Z.of_nat NROPES).
Proof.
  intros R Hm. pose proof (total_nonneg s (iv_started _ (reach_inv s R))). destruct (total_ind (S (Z.to_nat (total s))) s R Hm) as (s' & Ho & Hd); [lia|]. pose proof (one_reach s s' R Ho) as R'. pose proof (reach_inv s' R') as I.
  exists s'. split_and!; [done|done|by apply (sg_destroyed _ (iv_signals _ I))|apply uncut_zero, reset_cut; [done|by rewrite Hd]|]. destruct (iv_placed _ I) as [F Pl]. replace (stake s') with F; [apply Pl|].
  destruct (all_gone s' (iv_started _ I) (iv_signals _ I)) as (_ & Hk & _); [rewrite Hd; cbn [wait_count]; lia|]. apply list_eq. intros r. symmetry. apply (pl_rest _ _ Pl). intros k a t E. unfold kpc in E. destruct (killers s' !! k) as [p|] eqn:Ep; [|done].
  pose proof (lookup_lt_Some _ _ _ Ep) as Hl. rewrite (sd_killers _ (iv_started _ I)) in Hl. rewrite Hk in Ep by done. injection Ep as <-. done.
Qed.

Lemma balloon_completes_witness : running (main in_the_middle) /\ exists s', rtc one in_the_middle s' /\ main s' = MDone.
Proof.
  assert (running (main in_the_middle)) as Hr by (vm_compute; exact I). split; [exact Hr|]. destruct (balloon_completes in_the_middle in_the_middle_reach Hr) as (s' & H1 & H2 & _). by exists s'.
Defined.
