(* ===== verification/KWorld.v ===== *)
(** * What processes and files are built on

    The operations the process and file system calls (kern/proc/proc.c,
    kern/syscall/*.c) use of the rest of the kernel, as an interface: the
    heap, sleep locks, address spaces, threads, the VFS layer
    (kern/include/vfs.h, kern/include/vnode.h) and the transfer of user
    memory (kern/include/copyinout.h).  [WorldOps] lists the operations,
    [World] what their headers promise. *)

From S2P Require Import Prelude KHeap.

(** ** Data the interface passes around *)

Inductive uio_rw := UIO_READ | UIO_WRITE.
Inductive uio_seg := UIO_USERISPACE | UIO_USERSPACE | UIO_SYSSPACE.

Record iovec := Iovec { iov_base : Z; iov_len : Z }.

Record uio := Uio {
  uio_iov : list iovec;      (* [uio_iovcnt] of them *)
  uio_offset : Z;
  uio_resid : Z;
  uio_segflg : uio_seg;
  uio_dir : uio_rw;
  uio_space : Z;
}.

Definition uio_kinit (kbuf len pos : Z) (rw : uio_rw) : uio :=
  Uio [Iovec kbuf len] pos len UIO_SYSSPACE rw 0.

(** ** The operations *)

Class WorldOps (W : Type) := {
  wo_heap :: KMalloc W;
  (* synch.h *)
  lock_create : M W Z;
  lock_destroy : Z -> M W unit;
  lock_acquire : Z -> M W unit;
  lock_release : Z -> M W unit;
  lock_do_i_hold : Z -> M W bool;
  cv_create : M W Z;
  (* vfs.h, vnode.h *)
  vfs_open : list Z -> Z -> M W (err Z);
  vfs_close : Z -> M W unit;
  vop_incref : Z -> M W unit;
  vop_decref : Z -> M W unit;
  vop_read : Z -> uio -> M W (Z * uio);
  vop_write : Z -> uio -> M W (Z * uio);
  vop_stat : Z -> M W (err Z);
  vop_isseekable : Z -> M W bool;
  vfs_lookup : list Z -> M W (err Z);
  vop_gettype : Z -> M W (err Z);
  vop_namefile : Z -> uio -> M W (Z * uio);
  (* FSOP_GETVOLNAME, or vfs_getdevname where the volume has no name, with
     vfs_getcwd's assertions that the directory is on a file system and that
     there is a name *)
  fs_name : Z -> M W (list Z);
  (* uio.h *)
  uiomove : list Z -> uio -> M W (Z * uio);
  (* copyinout.h: the string without its terminator; bytes *)
  copyinstr : Z -> Z -> M W (err (list Z));
  copyout : Z -> Z -> Z -> M W Z;
  (* addrspace.h *)
  as_copy : Z -> M W (err Z);
  as_destroy : Z -> M W unit;
  as_switch : Z -> M W unit;
  (* thread.c: a thread with its stack, its destruction, making it runnable
     and the switch away from one that exits *)
  thread_new : M W (err Z);
  thread_destroy : Z -> M W unit;
  thread_ready : Z -> M W unit;
  thread_zombie : Z -> M W unit;
}.

(** ** The promises *)

(** What a client can tell about the world besides its heap. *)
Record wview (SP : Type) := View {
  v_locks : gmap Z bool;       (* struct lock objects, held or free *)
  v_vrefs : gmap Z Z;          (* references to each vnode *)
  v_spaces : gmap Z SP;        (* the contents of each address space *)
  v_curas : Z;                 (* the address space in use *)
  v_threads : gset Z;          (* threads that exist and have not exited *)
}.
Arguments View {SP}.
Arguments v_locks {SP}.
Arguments v_vrefs {SP}.
Arguments v_spaces {SP}.
Arguments v_curas {SP}.
Arguments v_threads {SP}.

Definition v_set_locks {SP} (x : gmap Z bool) (v : wview SP) : wview SP := View x (v_vrefs v) (v_spaces v) (v_curas v) (v_threads v).
Definition v_set_vrefs {SP} (x : gmap Z Z) (v : wview SP) : wview SP := View (v_locks v) x (v_spaces v) (v_curas v) (v_threads v).
Definition v_set_spaces {SP} (x : gmap Z SP) (v : wview SP) : wview SP := View (v_locks v) (v_vrefs v) x (v_curas v) (v_threads v).
Definition v_set_curas {SP} (x : Z) (v : wview SP) : wview SP := View (v_locks v) (v_vrefs v) (v_spaces v) x (v_threads v).
Definition v_set_threads {SP} (x : gset Z) (v : wview SP) : wview SP := View (v_locks v) (v_vrefs v) (v_spaces v) (v_curas v) x.

(** References to vnode [n], one more and one less. *)
Definition v_refs {SP} (v : wview SP) (n : Z) : Z := default 0 (v_vrefs v !! n).
Definition v_ref {SP} (n d : Z) (v : wview SP) : wview SP := v_set_vrefs (<[n := v_refs v n + d]> (v_vrefs v)) v.

(** A finished transfer: the offset went up by what the residue went down. *)
Definition transferred (u u' : uio) : Prop :=
  0 <= uio_resid u' <= uio_resid u /\ uio_offset u' = uio_offset u + (uio_resid u - uio_resid u').

(** A transfer into the kernel buffer of [n] bytes at [b], under way. *)
Definition kbuf (b n : Z) (u : uio) : Prop :=
  uio_segflg u = UIO_SYSSPACE /\ uio_space u = 0 /\ uio_dir u = UIO_READ /\ 0 <= uio_offset u <= n /\
  uio_resid u = n - uio_offset u /\ uio_iov u = [Iovec (b + uio_offset u) (n - uio_offset u)].

(** [heap_live] counts the blocks handed out through this interface; the
    components behind it keep track of their own. *)
Class World (W : Type) `{WorldOps W} := {
  space_t : Type;
  wv : W -> wview space_t;
  wok : W -> Prop;
  w_heap_ok : forall w, heap_ok w <-> wok w;
  w_heap_view : forall w w', heap_side w w' -> wv w' = wv w;
  lock_create_law : forall w, wok w -> wp lock_create (fun l w' => wok w' /\ heap_live w' = heap_live w /\
    ((l = 0 /\ wv w' = wv w) \/ (0 < l /\ v_locks (wv w) !! l = None /\ wv w' = v_set_locks (<[l := false]> (v_locks (wv w))) (wv w)))) w;
  (* also of a lock that is held, as in [sys_dup2]: the code has no check,
     although kern/include/synch.h forbids it *)
  lock_destroy_law : forall l b w, wok w -> v_locks (wv w) !! l = Some b -> wp (lock_destroy l) (fun _ w' =>
    wok w' /\ heap_live w' = heap_live w /\ wv w' = v_set_locks (delete l (v_locks (wv w))) (wv w)) w;
  lock_acquire_law : forall l w, wok w -> v_locks (wv w) !! l = Some false -> wp (lock_acquire l) (fun _ w' =>
    wok w' /\ heap_live w' = heap_live w /\ wv w' = v_set_locks (<[l := true]> (v_locks (wv w))) (wv w)) w;
  lock_release_law : forall l w, wok w -> v_locks (wv w) !! l = Some true -> wp (lock_release l) (fun _ w' =>
    wok w' /\ heap_live w' = heap_live w /\ wv w' = v_set_locks (<[l := false]> (v_locks (wv w))) (wv w)) w;
  lock_do_i_hold_law : forall l b w, wok w -> v_locks (wv w) !! l = Some b -> wp (lock_do_i_hold l) (fun r w' => r = b /\ w' = w) w;
  vfs_open_law : forall path flags w, wok w -> wp (vfs_open path flags) (fun r w' => wok w' /\ heap_live w' = heap_live w /\
    match r with
    | inl e => e <> 0 /\ wv w' = wv w
    | inr v => v <> 0 /\ wv w' = v_ref v 1 (wv w)
    end) w;
  vfs_close_law : forall v w, wok w -> 0 < v_refs (wv w) v -> wp (vfs_close v) (fun _ w' =>
    wok w' /\ heap_live w' = heap_live w /\ wv w' = v_ref v (-1) (wv w)) w;
  vop_incref_law : forall v w, wok w -> 0 < v_refs (wv w) v -> wp (vop_incref v) (fun _ w' =>
    wok w' /\ heap_live w' = heap_live w /\ wv w' = v_ref v 1 (wv w)) w;
  vop_decref_law : forall v w, wok w -> 0 < v_refs (wv w) v -> wp (vop_decref v) (fun _ w' =>
    wok w' /\ heap_live w' = heap_live w /\ wv w' = v_ref v (-1) (wv w)) w;
  vop_read_law : forall v u w, wok w -> 0 < v_refs (wv w) v -> 0 <= uio_resid u -> wp (vop_read v u) (fun r w' =>
    wok w' /\ heap_live w' = heap_live w /\ wv w' = wv w /\ (r.1 = 0 -> transferred u r.2)) w;
  vop_write_law : forall v u w, wok w -> 0 < v_refs (wv w) v -> 0 <= uio_resid u -> wp (vop_write v u) (fun r w' =>
    wok w' /\ heap_live w' = heap_live w /\ wv w' = wv w /\ (r.1 = 0 -> transferred u r.2)) w;
  vop_stat_law : forall v w, wok w -> 0 < v_refs (wv w) v -> wp (vop_stat v) (fun r w' =>
    wok w' /\ heap_live w' = heap_live w /\ wv w' = wv w /\ match r with inl e => e <> 0 | inr n => 0 <= n < 2 ^ 63 end) w;
  vop_isseekable_law : forall v w, wok w -> 0 < v_refs (wv w) v -> wp (vop_isseekable v) (fun _ w' =>
    wok w' /\ heap_live w' = heap_live w /\ wv w' = wv w) w;
  vfs_lookup_law : forall path w, wok w -> wp (vfs_lookup path) (fun r w' => wok w' /\ heap_live w' = heap_live w /\
    match r with
    | inl e => e <> 0 /\ wv w' = wv w
    | inr v => v <> 0 /\ wv w' = v_ref v 1 (wv w)
    end) w;
  vop_gettype_law : forall v w, wok w -> 0 < v_refs (wv w) v -> wp (vop_gettype v) (fun r w' =>
    wok w' /\ heap_live w' = heap_live w /\ wv w' = wv w /\ match r with inl e => e <> 0 | inr _ => True end) w;
  vop_namefile_law : forall v b n u w, wok w -> 0 < v_refs (wv w) v -> b ∈ heap_live w -> kbuf b n u -> wp (vop_namefile v u) (fun r w' =>
    wok w' /\ heap_live w' = heap_live w /\ wv w' = wv w /\ (r.1 = 0 -> kbuf b n r.2)) w;
  fs_name_law : forall v w, wok w -> 0 < v_refs (wv w) v -> wp (fs_name v) (fun _ w' => wok w' /\ heap_live w' = heap_live w /\ wv w' = wv w) w;
  uiomove_law : forall l b n u w, wok w -> b ∈ heap_live w -> kbuf b n u -> wp (uiomove l u) (fun r w' =>
    wok w' /\ heap_live w' = heap_live w /\ wv w' = wv w /\ (r.1 = 0 -> kbuf b n r.2)) w;
  copyinstr_law : forall p n w, wok w -> wp (copyinstr p n) (fun r w' => wok w' /\ heap_live w' = heap_live w /\ wv w' = wv w /\
    match r with inl e => e <> 0 | inr l => Z.of_nat (length l) < n end) w;
  copyout_law : forall x p n w, wok w -> wp (copyout x p n) (fun _ w' => wok w' /\ heap_live w' = heap_live w /\ wv w' = wv w) w;
  as_copy_law : forall a x w, wok w -> v_spaces (wv w) !! a = Some x -> wp (as_copy a) (fun r w' => wok w' /\ heap_live w' = heap_live w /\
    match r with
    | inl e => e <> 0 /\ wv w' = wv w
    | inr n => n <> 0 /\ v_spaces (wv w) !! n = None /\ wv w' = v_set_spaces (<[n := x]> (v_spaces (wv w))) (wv w)
    end) w;
  as_destroy_law : forall a w, wok w -> is_Some (v_spaces (wv w) !! a) -> a <> v_curas (wv w) -> wp (as_destroy a) (fun _ w' =>
    wok w' /\ heap_live w' = heap_live w /\ wv w' = v_set_spaces (delete a (v_spaces (wv w))) (wv w)) w;
  as_switch_law : forall a w, wok w -> is_Some (v_spaces (wv w) !! a) -> wp (as_switch a) (fun _ w' =>
    wok w' /\ heap_live w' = heap_live w /\ wv w' = v_set_curas a (wv w)) w;
  cv_create_law : forall w, wok w -> wp cv_create (fun c w' => wok w' /\ heap_live w' = heap_live w /\ wv w' = wv w) w;
  thread_new_law : forall w, wok w -> wp thread_new (fun r w' => wok w' /\ heap_live w' = heap_live w /\
    match r with
    | inl e => e <> 0 /\ wv w' = wv w
    | inr t => t <> 0 /\ (t ∉ v_threads (wv w)) /\ wv w' = v_set_threads ({[t]} ∪ v_threads (wv w)) (wv w)
    end) w;
  thread_destroy_law : forall t w, wok w -> t ∈ v_threads (wv w) -> wp (thread_destroy t) (fun _ w' =>
    wok w' /\ heap_live w' = heap_live w /\ wv w' = v_set_threads (v_threads (wv w) ∖ {[t]}) (wv w)) w;
  thread_ready_law : forall t w, wok w -> t ∈ v_threads (wv w) -> wp (thread_ready t) (fun _ w' => wok w' /\ heap_live w' = heap_live w /\ wv w' = wv w) w;
  thread_zombie_law : forall t w, wok w -> t ∈ v_threads (wv w) -> wp (thread_zombie t) (fun _ w' =>
    wok w' /\ heap_live w' = heap_live w /\ wv w' = v_set_threads (v_threads (wv w) ∖ {[t]}) (wv w)) w;
}.
