(* ===== verification/Uio.v ===== *)
(** * Transfers between a kernel buffer and a uio (kern/lib/uio.c)

    A [uio] lists the blocks still to be filled or emptied.  [uiomove] returns
    the error number and the [uio] as it leaves it; [curas] is the address
    space of the running process. *)

From S2P Require Import Prelude CString CStringSpec KHeap KWorld CopyInOut CopyInOutSpec.

Definition set_uio_iov (l : list iovec) (u : uio) : uio := Uio l (uio_offset u) (uio_resid u) (uio_segflg u) (uio_dir u) (uio_space u).

(** [size] bytes of the first block are done. *)
Definition uio_advance (size : Z) (u : uio) : uio :=
  match uio_iov u with
  | [] => u
  | iov :: rest =>
      Uio (Iovec (u32 (iov_base iov + size)) (iov_len iov - size) :: rest) (s64 (uio_offset u + size)) (uio_resid u - size)
        (uio_segflg u) (uio_dir u) (uio_space u)
  end.

Definition kmemmove (dst src len : Z) : CM Z := zoom cmem set_cmem (memmove dst src len).

(** The [switch] on [uio_segflg]: [size] bytes between [ptr] and the block. *)
Definition move_piece (u : uio) (ptr base size : Z) : CM Z :=
  match uio_segflg u with
  | UIO_SYSSPACE =>
      (match uio_dir u with
       | UIO_READ => kmemmove base ptr size
       | UIO_WRITE => kmemmove ptr base size
       end) ;;;
      ret 0
  | _ =>
      match uio_dir u with
      | UIO_READ => copyout ptr base size
      | UIO_WRITE => copyin base ptr size
      end
  end.

Definition is_sysspace (g : uio_seg) : bool := match g with UIO_SYSSPACE => true | _ => false end.

Definition uio_fuel (u : uio) : nat := 2 * length (uio_iov u) + 2.

Definition uiomove (curas ptr n : Z) (u : uio) : CM (Z * uio) :=
  (if is_sysspace (uio_segflg u) then kassert (uio_space u =? 0) else kassert (uio_space u =? curas)) ;;;
  loop_ (uio_fuel u) (ptr, n, u) (fun '(ptr, n, u) =>
    if (0 <? n) && (0 <? uio_resid u) then
      match uio_iov u with
      | [] => fault
      | iov :: rest =>
          let size := if n <? iov_len iov then n else iov_len iov in
          if size =? 0 then
            match rest with
            | [] => panic
            | _ => ret (inl (ptr, n, set_uio_iov rest u))
            end
          else
            result <- move_piece u ptr (iov_base iov) size ;;
            if negb (result =? 0) then ret (inr (result, u))
            else ret (inl (u32 (ptr + size), n - size, uio_advance size u))
      end
    else ret (inr (0, u))).

(** [zeros] is where the static array of 16 zeros is. *)
Definition uiomovezeros (zeros curas n : Z) (u : uio) : CM (Z * uio) :=
  kassert (match uio_dir u with UIO_READ => true | UIO_WRITE => false end) ;;;
  loop_ (S (Z.to_nat n)) (n, u) (fun '(n, u) =>
    if 0 <? n then
      let amt := if n <? 16 then n else 16 in
      r <- uiomove curas zeros amt u ;;
      let '(result, u) := r in
      if negb (result =? 0) then ret (inr (result, u)) else ret (inl (n - amt, u))
    else ret (inr (0, u))).

(** * [uiomove] moves as many bytes as both sides have: between the kernel
    buffer and the addresses the blocks of the [uio] cover, in their order. *)

(** ** The addresses of a list of blocks *)

Definition block_addrs (v : iovec) : list Z := seqZ (iov_base v) (iov_len v).
Definition addrs (l : list iovec) : list Z := l ≫= block_addrs.

Definition total (l : list iovec) : Z := Z.of_nat (length (addrs l)).

(** A [uio] as its users set it up: the residue is the size of its blocks. *)
Record uio_ok (u : uio) : Prop := {
  uo_blocks : Forall (fun v => 0 <= iov_base v /\ 0 <= iov_len v /\ iov_base v + iov_len v <= 2 ^ 32) (uio_iov u);
  uo_resid : uio_resid u = total (uio_iov u);
  uo_offset : 0 <= uio_offset u /\ uio_offset u + uio_resid u < 2 ^ 63 }.

(** [j] bytes of [u] have been moved. *)
Record advanced (u : uio) (j : Z) (u' : uio) : Prop := {
  ad_ok : uio_ok u';
  ad_addrs : addrs (uio_iov u') = drop (Z.to_nat j) (addrs (uio_iov u));
  ad_resid : uio_resid u' = uio_resid u - j;
  ad_offset : uio_offset u' = uio_offset u + j;
  ad_kind : uio_segflg u' = uio_segflg u /\ uio_dir u' = uio_dir u /\ uio_space u' = uio_space u }.

Ltac uio_simpl := cbn [set_uio_iov uio_advance uio_iov uio_resid uio_offset uio_segflg uio_dir uio_space iov_base iov_len].

Lemma advanced_refl u : uio_ok u -> advanced u 0 u.
Proof. intros Hu. split; [done|by rewrite drop_0|lia|lia|done]. Qed.

Lemma advanced_skip u j u' v rest : advanced u j u' -> uio_iov u' = v :: rest -> iov_len v = 0 -> advanced u j (set_uio_iov rest u').
Proof.
  intros [[B R O] A1 A2 A3 A4] E E0. rewrite E in *. assert (block_addrs v = []) as Ev by (unfold block_addrs; by rewrite E0).
  assert (addrs (v :: rest) = addrs rest) as Ea by (unfold addrs; cbn; by rewrite Ev).
  split; uio_simpl; try done; [|by rewrite <- Ea]. split; uio_simpl; [by apply Forall_cons in B as [_ ?]|unfold total in *; by rewrite <- Ea|done].
Qed.

Lemma advanced_piece u j u' v rest size : advanced u j u' -> uio_iov u' = v :: rest -> 0 <= j -> 0 < size <= iov_len v ->
  advanced u (j + size) (uio_advance size u').
Proof.
  intros [[B R O] A1 A2 A3 A4] E Hj Hs. unfold uio_advance. rewrite E in *. apply Forall_cons in B as [Bv Br].
  assert (block_addrs v = seqZ (iov_base v) size ++ seqZ (iov_base v + size) (iov_len v - size)) as Ev.
  { unfold block_addrs. rewrite <- seqZ_app by lia. f_equal. lia. }
  assert (drop (Z.to_nat size) (addrs (v :: rest)) = seqZ (iov_base v + size) (iov_len v - size) ++ addrs rest) as Ed.
  { unfold addrs. cbn. rewrite Ev, <- app_assoc. apply drop_app_length'. rewrite length_seqZ. done. }
  assert (addrs (Iovec (u32 (iov_base v + size)) (iov_len v - size) :: rest) = seqZ (iov_base v + size) (iov_len v - size) ++ addrs rest) as Ea.
  { unfold addrs. cbn. f_equal. unfold block_addrs. cbn. destruct (decide (size = iov_len v)) as [->|]; [by rewrite Z.sub_diag|]. rewrite u32_id by lia. done. }
  assert (total (v :: rest) = size + total (Iovec (u32 (iov_base v + size)) (iov_len v - size) :: rest)) as Et.
  { unfold total. rewrite Ea, <- Ed, length_drop. unfold addrs. cbn. rewrite length_app, Ev, length_app, length_seqZ. lia. }
  assert (0 <= total (Iovec (u32 (iov_base v + size)) (iov_len v - size) :: rest)) by (unfold total; lia).
  split; uio_simpl.
  - split; uio_simpl; [|lia|].
    + constructor; [uio_simpl; unfold u32; destruct (decide (size = iov_len v)) as [->|]; [zlia|rewrite Z.mod_small by lia; lia]|done].
    + rewrite s64_id by lia. lia.
  - rewrite Ea, <- Ed, A1, drop_drop. f_equal. lia.
  - lia.
  - rewrite s64_id; lia.
  - done.
Qed.

(** ** The loop *)

Section loop.
Context (curas ptr n : Z) (u : uio) (s : cpu).
Hypothesis (Hu : uio_ok u) (Hp : 0 <= ptr) (Hn : 0 <= n) (Hpn : ptr + n < 2 ^ 32).
Hypothesis (Hspace : uio_space u = if is_sysspace (uio_segflg u) then 0 else curas).
Let k := Z.min n (uio_resid u).
Let A := addrs (uio_iov u).

(** What memory is like after [j] bytes, and after a failed transfer. *)
Context (T : Z -> cpu -> Prop) (E : cpu -> Prop).
Hypothesis (Hstart : T 0 s).
Hypothesis (Hpiece : forall j base size s1, T j s1 -> 0 <= j -> 0 < size -> j + size <= k -> seqZ base size = take (Z.to_nat size) (drop (Z.to_nat j) A) -> 0 <= base -> base + size <= 2 ^ 32 ->
  wp (move_piece u (ptr + j) base size) (fun r s2 => (r = 0 /\ T (j + size) s2) \/ (r = EFAULT /\ E s2)) s1).

Lemma piece_addrs j u' v rest size : advanced u j u' -> uio_iov u' = v :: rest -> 0 <= size <= iov_len v -> seqZ (iov_base v) size = take (Z.to_nat size) (drop (Z.to_nat j) A).
Proof.
  intros [_ A1 _ _ _] Ev Hs. unfold A. rewrite <- A1, Ev. unfold addrs. cbn. unfold block_addrs.
  replace (iov_len v) with (size + (iov_len v - size)) by lia. rewrite seqZ_app, <- app_assoc by lia. symmetry. apply take_app_length'. rewrite length_seqZ. done.
Qed.

Lemma move_piece_kind u' p base size : uio_segflg u' = uio_segflg u -> uio_dir u' = uio_dir u -> move_piece u' p base size = move_piece u p base size.
Proof. intros E1 E2. unfold move_piece. by rewrite E1, E2. Qed.

Lemma wp_uiomove_loop :
  wp (uiomove curas ptr n u) (fun r s' => exists j, 0 <= j <= k /\ advanced u j r.2 /\ ((r.1 = 0 /\ j = k /\ T k s') \/ (r.1 = EFAULT /\ j < k /\ E s'))) s.
Proof.
  unfold uiomove. wp_step. apply (wp_mono _ (fun _ s' => s' = s)).
  { rewrite Hspace. destruct (is_sysspace _); apply wp_kassert; try done; lia. }
  intros _ ? ->. assert (0 <= uio_resid u) as Hres by (rewrite (uo_resid u Hu); unfold total; lia).
  apply (wp_loop _ _ _ (fun l s' => exists j, 0 <= j <= k /\ l.1.1 = ptr + j /\ l.1.2 = n - j /\ advanced u j l.2 /\ T j s')
    (fun l _ => 2 * length (uio_iov l.2) + (if (0 <? l.1.2)%Z && match uio_iov l.2 with v :: _ => (0 <? iov_len v)%Z | [] => false end then 1 else 0))%nat).
  - exists 0. cbn [fst snd]. split_and!; try done; try lia. by apply advanced_refl.
  - unfold uio_fuel. cbn [fst snd]. destruct (_ && _); lia.
  - intros [[p n'] u'] s1 (j & Hj & Ep & En & Ha & HT). cbn [fst snd] in *. pose proof Ha as [Ho A1 A2 A3 (K1 & K2 & K3)]. subst p n'.
    destruct ((0 <? n - j) && (0 <? uio_resid u')) eqn:Eg; boolify.
    2: { wp_steps. exists j. assert (j = k) as -> by lia. cbn [fst snd]. split_and!; try done; try lia. by left. }
    pose proof (uo_resid _ Ho) as Er. pose proof (uo_blocks _ Ho) as Hbl. destruct (uio_iov u') as [|v rest] eqn:Ev; [unfold total in Er; cbn in Er; lia|].
    apply Forall_cons in Hbl as [Hv Hbl]. cbv zeta. set (size := if n - j <? iov_len v then n - j else iov_len v). assert (size = Z.min (n - j) (iov_len v)) as Es by (clear; unfold size; destruct (n - j <? iov_len v) eqn:Esz; boolify; lia).
    destruct (size =? 0) eqn:E0; boolify.
    + destruct rest as [|w rest]; [exfalso; unfold total, addrs, block_addrs in Er; cbn in Er; rewrite app_nil_r, length_seqZ in Er; lia|].
      wp_step. split; [exists j; cbn [fst snd]; do 3 (split; [done|]); split; [eapply advanced_skip; [done|exact Ev|lia]|done]|].
      cbn [set_uio_iov uio_iov length fst snd]. rewrite ?Ev. cbn [length]. repeat case_match; lia.
    + rewrite move_piece_kind by done. wp_step.
      assert (iov_len v <= uio_resid u') as Hle. { rewrite Er. unfold total, addrs. cbn. rewrite length_app. unfold block_addrs at 1. rewrite length_seqZ. lia. }
      eapply wp_mono; [apply (Hpiece j (iov_base v) size s1); try done; try lia; eapply piece_addrs; [done|exact Ev|lia]|].
      intros r s2 [[-> HT2]|[-> HE]]; [change (negb (0 =? 0)) with false|change (negb (EFAULT =? 0)) with true]; apply wp_ret.
      * split; [exists (j + size); cbn [fst snd]; split; [lia|]; split; [rewrite u32_id by lia; lia|]; split; [lia|]; split; [eapply advanced_piece; [done|exact Ev|lia|lia]|done]|].
        unfold uio_advance. rewrite Ev. cbn [uio_iov iov_len length fst snd]. rewrite ?Ev. cbn [length]. repeat case_match; boolify; lia.
      * exists j. cbn [fst snd]. split_and!; try done; try lia. right. split_and!; done || lia.
Qed.
End loop.

(** ** Scattering and gathering *)

(** The bytes [l] written to the addresses [A], in order. *)
Definition scatter (m : mem) (A l : list Z) : mem := foldl (fun m x => <[x.1 := x.2]> m) m (zip A l).

Lemma scatter_app m A1 A2 l1 l2 : length A1 = length l1 -> scatter m (A1 ++ A2) (l1 ++ l2) = scatter (scatter m A1 l1) A2 l2.
Proof. intros E. unfold scatter. by rewrite zip_with_app, foldl_app by done. Qed.

Lemma wr_scatter l : forall m p, wr m p l = scatter m (seqZ p (Z.of_nat (length l))) l.
Proof.
  induction l as [|c l IH]; intros m p; [done|]. cbn [wr length]. rewrite seqZ_cons by lia. replace (Z.pred (Z.of_nat (S (length l)))) with (Z.of_nat (length l)) by lia.
  rewrite IH. unfold scatter. cbn. f_equal; f_equal; lia.
Qed.

Lemma scatter_out A l : forall m a, a ∉ A -> scatter m A l !! a = m !! a.
Proof.
  revert l. induction A as [|b A IH]; intros l m a Ha; [done|]. destruct l as [|c l]; [done|]. unfold scatter in *. cbn. rewrite IH by set_solver. apply lookup_insert_ne. set_solver.
Qed.

Lemma scatter_is_Some A l : forall m a, is_Some (m !! a) -> is_Some (scatter m A l !! a).
Proof.
  revert l. induction A as [|b A IH]; intros l m a Ha; [done|]. destruct l as [|c l]; [done|]. apply (IH l (<[b := c]> m)). destruct (decide (a = b)) as [->|]; [rewrite lookup_insert_eq; by eexists|by rewrite lookup_insert_ne].
Qed.

Lemma take_add_drop {X} (l : list X) i j : take (i + j) l = take i l ++ take j (drop i l).
Proof. revert l. induction i as [|i IH]; intros [|x l]; cbn; [done|done|by rewrite take_nil|by rewrite IH]. Qed.

(** An address of the user's that the kernel can touch. *)
Definition user_ok (m : mem) (a : Z) : Prop := 0 <= a < USERSPACETOP /\ is_Some (m !! a).

Lemma block_reach m base size : 0 <= base -> 0 < size -> Forall (user_ok m) (seqZ base size) -> user_block base size /\ mapped m base size.
Proof.
  intros Hb Hs Hf. rewrite Forall_seqZ in Hf. split.
  - split_and!; [done|done|]. destruct (Hf (base + size - 1)) as [? _]; lia.
  - intros i Hi. apply Hf. lia.
Qed.

Lemma move_piece_user u p b z : is_sysspace (uio_segflg u) = false -> move_piece u p b z = match uio_dir u with UIO_READ => copyout p b z | UIO_WRITE => copyin b p z end.
Proof. unfold move_piece. by destruct (uio_segflg u). Qed.

Lemma move_piece_sys u p b z : is_sysspace (uio_segflg u) = true -> move_piece u p b z = (match uio_dir u with UIO_READ => kmemmove b p z | UIO_WRITE => kmemmove p b z end ;;; ret 0).
Proof. unfold move_piece. by destruct (uio_segflg u). Qed.

Lemma elem_of_take_le {X} (l : list X) i j x : (i <= j)%nat -> x ∈ take i l -> x ∈ take j l.
Proof. intros Hij Hx. replace j with (i + (j - i))%nat by lia. rewrite take_add_drop. apply elem_of_app. by left. Qed.

Lemma bytes_at_inj m p l l' : bytes_at m p l -> bytes_at m p l' -> length l = length l' -> l = l'.
Proof. intros H H' E. apply (list_eq_same_length _ _ (length l')); [done|done|]. intros i x y _ Hx Hy. apply H in Hx. apply H' in Hy. congruence. Qed.

Section moves.
Context (curas ptr n : Z) (u : uio) (s : cpu).
Hypothesis (Hf : badfault s = false) (Hu : uio_ok u) (Hp : USERSPACETOP <= ptr) (Hn : 0 <= n) (Hpn : ptr + n < 2 ^ 32).
Hypothesis (Hspace : uio_space u = if is_sysspace (uio_segflg u) then 0 else curas).
Let k := Z.min n (uio_resid u).
Let A := addrs (uio_iov u).
(** The blocks do not overlap the kernel buffer; blocks in the kernel are
    really there. *)
Hypothesis (Hapart : Forall (fun a => ~ ptr <= a < ptr + n) A).
Hypothesis (Hsys : is_sysspace (uio_segflg u) = true -> Forall (fun a => is_Some (cmem s !! a)) A).

(** The transfer met an address of the user's that cannot be touched. *)
Definition refused : Prop := is_sysspace (uio_segflg u) = false /\ ~ Forall (user_ok (cmem s)) (take (Z.to_nat k) A).

Lemma piece_in j size base : 0 <= j -> 0 < size -> j + size <= k -> seqZ base size = take (Z.to_nat size) (drop (Z.to_nat j) A) ->
  take (Z.to_nat (j + size)) A = take (Z.to_nat j) A ++ seqZ base size /\ Z.of_nat (length (take (Z.to_nat j) A)) = j /\
  (forall a, base <= a < base + size -> a ∈ take (Z.to_nat k) A /\ a ∈ A).
Proof.
  intros Hj Hs Hk E. assert (take (Z.to_nat (j + size)) A = take (Z.to_nat j) A ++ seqZ base size) as E1 by (rewrite Z2Nat.inj_add, take_add_drop by lia; by rewrite E).
  assert (uio_resid u = Z.of_nat (length A)) as Er by apply (uo_resid u Hu). split_and!; [done|rewrite length_take; lia|].
  intros a Ha. assert (a ∈ take (Z.to_nat (j + size)) A) as Hin by (rewrite E1; apply elem_of_app; right; by apply elem_of_seqZ).
  assert (a ∈ take (Z.to_nat k) A) as Hin'. { replace (Z.to_nat k) with (Z.to_nat (j + size) + Z.to_nat (k - j - size))%nat by lia. rewrite take_add_drop. apply elem_of_app. by left. }
  split; [done|]. eapply elem_of_take in Hin' as (i & Hi & _). by eapply list_elem_of_lookup_2.
Qed.

Lemma refused_piece j size base : 0 <= j -> 0 < size -> j + size <= k -> 0 <= base -> seqZ base size = take (Z.to_nat size) (drop (Z.to_nat j) A) ->
  ~ (user_block base size /\ mapped (cmem s) base size) -> ~ Forall (user_ok (cmem s)) (take (Z.to_nat k) A).
Proof.
  intros Hj Hs Hk Hb E Hno Hall. apply Hno, block_reach; [done|done|]. apply Forall_forall. intros a Ha%elem_of_seqZ.
  rewrite Forall_forall in Hall. apply Hall. by apply (piece_in j size base).
Qed.

(** From the buffer to the blocks. *)
Lemma wp_uiomove_read l : uio_dir u = UIO_READ -> bytes_at (cmem s) ptr l -> Z.of_nat (length l) = n ->
  wp (uiomove curas ptr n u) (fun r s' => badfault s' = false /\ (forall a, a ∉ take (Z.to_nat k) A -> cmem s' !! a = cmem s !! a) /\
    exists j, 0 <= j <= k /\ advanced u j r.2 /\
      ((r.1 = 0 /\ j = k /\ cmem s' = scatter (cmem s) (take (Z.to_nat k) A) (take (Z.to_nat k) l)) \/ (r.1 = EFAULT /\ j < k /\ refused))) s.
Proof.
  intros Hdir Hb Hl.
  eapply wp_mono; [apply (wp_uiomove_loop curas ptr n u s Hu ltac:(unfold USERSPACETOP in *; lia) Hn Hpn Hspace
    (fun j s1 => badfault s1 = false /\ cmem s1 = scatter (cmem s) (take (Z.to_nat j) A) (take (Z.to_nat j) l))
    (fun s1 => badfault s1 = false /\ refused /\ (forall a, a ∉ take (Z.to_nat k) A -> cmem s1 !! a = cmem s !! a)))|].
  - done.
  - intros j base size s1 [Hf1 Hm1] Hj Hs Hk E Hb0 Hb1. destruct (piece_in j size base Hj Hs Hk E) as (E1 & E2 & Hin).
    set (c := take (Z.to_nat size) (drop (Z.to_nat j) l)). assert (Z.of_nat (length c) = size) as Hlc by (unfold c; rewrite length_take, length_drop; lia).
    assert (forall a, ptr <= a < ptr + n -> cmem s1 !! a = cmem s !! a) as Hbuf.
    { intros a Ha. rewrite Hm1. apply scatter_out. intros Hx%elem_of_take. destruct Hx as (i & Hi & _). rewrite Forall_lookup in Hapart. by apply (Hapart _ _ Hi). }
    assert (bytes_at (cmem s1) (ptr + j) c) as Hc.
    { assert (bytes_at (cmem s1) (ptr + j) (drop (Z.to_nat j) l)) as Hd. { replace j with (Z.of_nat (Z.to_nat j)) at 1 by lia. apply bytes_at_drop. eapply bytes_at_ext; [|exact Hb]. intros a Ha. apply Hbuf. lia. }
      rewrite <- (take_drop (Z.to_nat size) (drop (Z.to_nat j) l)) in Hd. by apply bytes_at_app in Hd as [? _]. }
    assert (wr (cmem s1) base c = scatter (cmem s) (take (Z.to_nat (j + size)) A) (take (Z.to_nat (j + size)) l)) as Ew.
    { rewrite E1, (Z2Nat.inj_add j size), take_add_drop by lia. rewrite scatter_app by (rewrite !length_take in *; lia). fold c. by rewrite <- Hm1, wr_scatter, Hlc. }
    destruct (is_sysspace (uio_segflg u)) eqn:Eg.
    + rewrite move_piece_sys, Hdir by done. wp_step. unfold kmemmove. apply wp_zoom. rewrite <- Hlc. apply wp_memmove; [done| |].
      * rewrite Hlc. intros i Hi. rewrite Hm1. apply scatter_is_Some. specialize (Hsys eq_refl). rewrite Forall_forall in Hsys. apply Hsys, Hin. lia.
      * wp_step. left. rewrite Hlc. done.
    + rewrite move_piece_user, Hdir by done.
      eapply wp_mono; [apply (wp_copyout (ptr + j) base size); try done; try (unfold USERSPACETOP in *; lia); rewrite <- Hlc; by apply bytes_at_mapped|].
      intros r s2 (Hf2 & [_ Hfr] & H2). case_decide as Hd; destruct H2 as [-> H2]; [left|right].
      * destruct H2 as (l' & Hl' & Hb' & Em). split; [done|]. split; [done|]. rewrite Em, <- Ew. f_equal. eapply bytes_at_inj; [done|done|lia].
      * split; [done|]. split_and!; [done|split; [done|]|].
        -- eapply (refused_piece j size base); try done. intros [H3 H4]. apply Hd. split; [done|]. intros i Hi. rewrite Hm1. by apply scatter_is_Some, H4.
        -- intros a Ha. rewrite Hfr by (intros Hx; by apply Ha, Hin). rewrite Hm1. apply scatter_out. intros Hx. by apply Ha, (elem_of_take_le _ (Z.to_nat j)); [lia|].
  - intros r s1 (j & Hj & Ha & [(Er & -> & Hf1 & Em)|(Er & Hlt & Hf1 & Href & Ho)]); fold k in Hj |- *; split_and!; try done.
    + intros a Hx. rewrite Em. by apply scatter_out.
    + exists k. split_and!; try done; try lia. by left.
    + exists j. split_and!; try done; try lia. by right.
Qed.

(** From the blocks to the buffer. *)
Lemma wp_uiomove_write : uio_dir u = UIO_WRITE -> mapped (cmem s) ptr n ->
  wp (uiomove curas ptr n u) (fun r s' => badfault s' = false /\ framed ptr n (cmem s) (cmem s') /\
    exists j, 0 <= j <= k /\ advanced u j r.2 /\
      ((r.1 = 0 /\ j = k /\ exists g, Forall2 (fun a c => cmem s !! a = Some c) (take (Z.to_nat k) A) g /\ cmem s' = wr (cmem s) ptr g) \/ (r.1 = EFAULT /\ j < k /\ refused))) s.
Proof.
  intros Hdir Hmp.
  eapply wp_mono; [apply (wp_uiomove_loop curas ptr n u s Hu ltac:(unfold USERSPACETOP in *; lia) Hn Hpn Hspace
    (fun j s1 => badfault s1 = false /\ exists g, Forall2 (fun a c => cmem s !! a = Some c) (take (Z.to_nat j) A) g /\ cmem s1 = wr (cmem s) ptr g)
    (fun s1 => badfault s1 = false /\ refused /\ framed ptr n (cmem s) (cmem s1)))|].
  - split; [done|]. by exists [].
  - intros j base size s1 [Hf1 (g & Hg & Hm1)] Hj Hs Hk E Hb0 Hb1. destruct (piece_in j size base Hj Hs Hk E) as (E1 & E2 & Hin).
    assert (Z.of_nat (length g) = j) as Hlg by (rewrite <- (Forall2_length _ _ _ Hg); lia).
    assert (forall a, base <= a < base + size -> cmem s1 !! a = cmem s !! a) as Hblk.
    { intros a Ha. rewrite Hm1. apply wr_out. rewrite Forall_forall in Hapart. specialize (Hapart a). assert (a ∈ A) by (by apply Hin). specialize (Hapart ltac:(done)). lia. }
    assert (mapped (cmem s1) (ptr + j) size) as Hmp1. { intros i Hi. rewrite Hm1. apply wr_is_some. replace (ptr + j + i) with (ptr + (j + i)) by lia. apply Hmp. lia. }
    assert (forall c, bytes_at (cmem s1) base c -> Z.of_nat (length c) = size -> Forall2 (fun a c => cmem s !! a = Some c) (take (Z.to_nat (j + size)) A) (g ++ c)) as Happ.
    { intros c Hc Hlc. rewrite E1. apply Forall2_app; [done|]. assert (peek (cmem s) base (length c) = Some c) as Hpk. { apply peek_Some. split; [|done]. eapply bytes_at_ext; [|exact Hc]. intros a Ha. symmetry. apply Hblk. lia. }
      unfold peek in Hpk. rewrite Hlc in Hpk. by apply mapM_Some in Hpk. }
    assert (forall c, wr (cmem s1) (ptr + j) c = wr (cmem s) ptr (g ++ c)) as Ew by (intros c; by rewrite wr_app, <- Hm1, Hlg).
    assert (framed ptr n (cmem s) (cmem s1)) as Hfr1. { rewrite Hm1. apply framed_wr; [|lia]. intros i Hi. apply Hmp. lia. }
    destruct (is_sysspace (uio_segflg u)) eqn:Eg.
    + rewrite move_piece_sys, Hdir by done. wp_step. unfold kmemmove. apply wp_zoom.
      destruct (peek_mapped (cmem s1) base (Z.to_nat size)) as [c Hc]. { rewrite Z2Nat.id by lia. intros i Hi. rewrite Hblk by lia. specialize (Hsys eq_refl). rewrite Forall_forall in Hsys. apply Hsys, Hin. lia. }
      apply peek_Some in Hc as [Hc Hlc]. replace size with (Z.of_nat (length c)) at 1 by lia. apply wp_memmove; [done|by replace (Z.of_nat (length c)) with size by lia|].
      wp_step. left. split; [done|]. split; [done|]. exists (g ++ c). split; [apply Happ; [done|lia]|]. cbn. apply Ew.
    + rewrite move_piece_user, Hdir by done.
      eapply wp_mono; [apply (wp_copyin base (ptr + j) size); try done; unfold USERSPACETOP in *; lia|].
      intros r s2 (Hf2 & Hfr & H2). case_decide as Hd; destruct H2 as [-> H2]; [left|right].
      * destruct H2 as (c & Hlc & Hc & Em). split; [done|]. split; [done|]. exists (g ++ c). split; [by apply Happ|]. by rewrite Em.
      * split; [done|]. split_and!; [done|split; [done|]|].
        -- eapply (refused_piece j size base); try done. intros [H3 H4]. apply Hd. split; [done|]. intros i Hi. rewrite Hblk by lia. by apply H4.
        -- destruct Hfr as [F1 F2], Hfr1 as [G1 G2]. split; [by rewrite F1|]. intros a Ha. rewrite F2, G2 by lia. done.
  - intros r s1 (j & Hj & Ha & [(Er & -> & Hf1 & g & Hg & Em)|(Er & Hlt & Hf1 & Href & Ho)]); fold k in Hj |- *; (split; [done|]).
    + split.
      * rewrite Em. pose proof (Forall2_length _ _ _ Hg) as Hl. rewrite length_take in Hl. apply framed_wr; [|lia]. intros i Hi. apply Hmp. lia.
      * exists k. split_and!; try done; try lia. left. split_and!; try done. by exists g.
    + split; [done|]. exists j. split_and!; try done; try lia. by right.
Qed.
End moves.

(** ** Zeros *)

Lemma advanced_trans u j u1 i u2 : 0 <= j -> 0 <= i -> advanced u j u1 -> advanced u1 i u2 -> advanced u (j + i) u2.
Proof.
  intros Hj Hi [A0 A1 A2 A3 (K1 & K2 & K3)] [B0 B1 B2 B3 (L1 & L2 & L3)]. split; [done| |lia|lia|split_and!; congruence].
  rewrite B1, A1, drop_drop. f_equal. lia.
Qed.

Lemma advanced_resid u j u1 : uio_ok u -> advanced u j u1 -> 0 <= j -> j <= uio_resid u.
Proof. intros Hu [A0 A1 A2 A3 _] Hj. rewrite (uo_resid u1 A0) in A2. unfold total in A2. lia. Qed.

Lemma wp_uiomovezeros zeros curas n u s : badfault s = false -> uio_ok u -> USERSPACETOP <= zeros -> zeros + 16 < 2 ^ 32 -> 0 <= n ->
  uio_space u = (if is_sysspace (uio_segflg u) then 0 else curas) -> uio_dir u = UIO_READ ->
  Forall (fun a => ~ zeros <= a < zeros + 16) (addrs (uio_iov u)) ->
  (is_sysspace (uio_segflg u) = true -> Forall (fun a => is_Some (cmem s !! a)) (addrs (uio_iov u))) ->
  bytes_at (cmem s) zeros (replicate 16 0) ->
  let k := Z.min n (uio_resid u) in let A := addrs (uio_iov u) in
  wp (uiomovezeros zeros curas n u) (fun r s' => badfault s' = false /\ exists j, 0 <= j <= k /\ advanced u j r.2 /\
    ((r.1 = 0 /\ j = k /\ cmem s' = scatter (cmem s) (take (Z.to_nat k) A) (replicate (Z.to_nat k) 0)) \/
     (r.1 = EFAULT /\ is_sysspace (uio_segflg u) = false /\ ~ Forall (user_ok (cmem s)) A))) s.
Proof.
  intros Hf Hu Hz Hz' Hn Hsp Hdir Hap Hsys Hzb k A. unfold uiomovezeros. rewrite Hdir. wp_step. apply wp_kassert; [done|].
  assert (uio_resid u = Z.of_nat (length A)) as Er by apply (uo_resid u Hu).
  apply (wp_loop _ _ _ (fun l s' => exists t, 0 <= t <= n /\ l.1 = n - t /\ badfault s' = false /\ advanced u (Z.min t (uio_resid u)) l.2 /\
      cmem s' = scatter (cmem s) (take (Z.to_nat (Z.min t (uio_resid u))) A) (replicate (Z.to_nat (Z.min t (uio_resid u))) 0)) (fun l _ => Z.to_nat l.1)).
  - exists 0. cbn [fst snd]. replace (Z.min 0 (uio_resid u)) with 0 by lia. split_and!; try done; try lia. by apply advanced_refl.
  - cbn. lia.
  - intros [n' u1] s1 (t & Ht & En & Hf1 & Ha & Hm1). cbn [fst snd] in *. subst n'. destruct (0 <? n - t) eqn:E; boolify.
    2: { wp_steps. split; [done|]. assert (t = n) as -> by lia. exists k. split_and!; try done; try lia. by left. }
    cbv zeta. set (amt := if n - t <? 16 then n - t else 16). assert (amt = Z.min (n - t) 16) as Eamt by (clear; unfold amt; destruct (n - t <? 16) eqn:?; boolify; lia).
    pose proof Ha as [Ho A1 A2 A3 (K1 & K2 & K3)]. fold A in A1. clearbody amt. set (j := Z.min t (uio_resid u)) in *.
    assert (0 <= j /\ j = Z.min t (uio_resid u)) as [Hj0 Ej] by (unfold j; lia).
    assert (Forall (fun a => ~ zeros <= a < zeros + amt) (addrs (uio_iov u1))) as Hap1. { rewrite A1. apply Forall_drop. eapply Forall_impl; [exact Hap|]. intros a. cbv beta. lia. }
    assert (bytes_at (cmem s1) zeros (replicate (Z.to_nat amt) 0)) as Hb1.
    { rewrite Hm1. eapply bytes_at_ext; [|apply (bytes_at_app (cmem s) zeros _ (replicate (16 - Z.to_nat amt) 0)); rewrite <- replicate_add; by replace (Z.to_nat amt + (16 - Z.to_nat amt))%nat with 16%nat by lia].
      intros a Hx. rewrite length_replicate in Hx. apply scatter_out. intros Hin%elem_of_take. destruct Hin as (i & Hi & _). rewrite Forall_lookup in Hap. specialize (Hap _ _ Hi). cbv beta in Hap. lia. }
    wp_step. eapply wp_mono; [apply (wp_uiomove_read curas zeros amt u1 s1 Hf1 Ho Hz ltac:(lia) ltac:(lia)) with (l := replicate (Z.to_nat amt) 0); try done|].
    + by rewrite K1, K3.
    + rewrite K1, A1. intros Hy. specialize (Hsys Hy). apply Forall_drop. eapply Forall_impl; [exact Hsys|]. intros a Hx. rewrite Hm1. by apply scatter_is_Some.
    + by rewrite K2.
    + rewrite length_replicate. lia.
    + intros [r u2] s2 (Hf2 & Ho2 & i & Hi & Ha2 & H2). cbn [fst snd] in *. pose proof (advanced_trans u j u1 i u2 Hj0 (proj1 Hi) Ha Ha2) as Ha3.
      pose proof (advanced_resid _ _ _ Hu Ha3 ltac:(lia)) as Hr3.
      destruct H2 as [(-> & Ei & Em)|(-> & Hlt & [Hsf Hno])].
      * change (negb (0 =? 0)) with false. wp_steps. split; [|cbn; lia]. exists (t + amt). cbn [fst snd].
        assert (j + i = Z.min (t + amt) (uio_resid u)) as Eji by lia. rewrite <- Eji. split_and!; try done; try lia.
        rewrite Em, A1, Hm1, <- Ei, (Z2Nat.inj_add j i), take_add_drop, replicate_add by lia.
        rewrite scatter_app by (rewrite length_take, length_replicate; lia). f_equal. rewrite take_replicate. f_equal. lia.
      * change (negb (EFAULT =? 0)) with true. wp_steps. split; [done|]. exists (j + i). split; [lia|]. split; [done|]. right. rewrite K1 in Hsf. split_and!; [done|done|].
        intros Hall. apply Hno. apply Forall_take. rewrite A1. apply Forall_drop. eapply Forall_impl; [exact Hall|]. intros a [Hx1 Hx2]. split; [done|]. rewrite Hm1. by apply scatter_is_Some.
Qed.
