(* ===== verification/UserProps.v ===== *)
(** The properties of the transfers between the kernel and user memory. *)
From S2P Require Import Prelude CString CStringSpec KHeap KWorld CopyInOut CopyInOutSpec Uio.

(** C26: For every pointer [u] and length a user passes, [copyin] and [copyout]
    return (no fault escapes them) with the recovery switched off again:
    the block is copied, or the result is [EFAULT] exactly when the block is
    empty, reaches into the kernel, or is not all there.  [copyin] changes
    only the kernel's buffer, and [copyout] no byte of kernel memory. *)
Theorem user_copies_correct (s : cpu) (u k n : Z) :
  badfault s = false -> 0 <= u < 2 ^ 32 -> 0 <= n < 2 ^ 32 -> USERSPACETOP <= k -> mapped (cmem s) k n ->
  wp (copyin u k n) (fun r s' => block_copied u k u n s r s') s /\
  wp (copyout k u n) (fun r s' => block_copied u u k n s r s' /\ forall a, USERSPACETOP <= a -> cmem s' !! a = cmem s !! a) s.
Proof.
  intros Hf Hu Hn Hk Hm. split; [by apply wp_copyin|]. eapply wp_mono; [by apply wp_copyout|].
  intros r s' Hc. split; [done|]. intros a Ha. destruct Hc as (_ & [_ Hfr] & Hr). case_decide as Hd.
  - apply Hfr. destruct Hd as [(_ & _ & ?) _]. lia.
  - destruct Hr as [_ [(_ & _ & ?)| ->]]; [apply Hfr; lia|done].
Qed.

(** [copyinstr] hands over the user's string and its length with the
    terminator if there is one that ends within [len] bytes and below the
    kernel.  Otherwise it reports [ENAMETOOLONG] when [len] characters are
    there and [EFAULT] when they are not. *)
Theorem copyinstr_correct (s : cpu) (u k n : Z) :
  badfault s = false -> 0 <= u -> 0 < n -> u + n < 2 ^ 32 -> USERSPACETOP <= k -> mapped (cmem s) k n ->
  wp (copyinstr u k n) (instr_copied u k n s) s.
Proof. apply wp_copyinstr. Qed.

(** What [copyout] wrote to user memory, [copyin] reads back. *)
Theorem copyout_copyin_roundtrip (s : cpu) (u k k' : Z) (l : list Z) : let n := Z.of_nat (length l) in
  badfault s = false -> user_block u n -> mapped (cmem s) u n -> USERSPACETOP <= k -> bytes_at (cmem s) k l ->
  USERSPACETOP <= k' -> mapped (cmem s) k' n ->
  wp (copyout k u n ;;; copyin u k' n) (fun r s' => r = 0 /\ bytes_at (cmem s') k' l) s.
Proof.
  intros n Hf Hu Hm Hk Hb Hk' Hm'. assert (0 <= u < 2 ^ 32 /\ 0 <= n < 2 ^ 32) as [Hu32 Hn32] by (unfold user_block, USERSPACETOP in Hu; lia).
  apply wp_bind. eapply wp_mono; [apply wp_copyout; try done; by apply bytes_at_mapped|]. intros r s1 (Hf1 & Hfr1 & H1).
  rewrite decide_True in H1 by done. destruct H1 as (-> & l1 & Hl1 & Hb1 & Em1). assert (l1 = l) as -> by (eapply bytes_at_inj; [done|done|lia]).
  assert (mapped (cmem s1) k' n /\ mapped (cmem s1) u n) as [Hm1 Hm2] by (split; intros i Hi; apply (framed_is_Some _ _ _ _ _ Hfr1); auto).
  eapply wp_mono; [by apply wp_copyin|]. intros r s2 (Hf2 & Hfr2 & H2). rewrite decide_True in H2 by done. destruct H2 as (-> & l2 & Hl2 & Hb2 & Em2).
  split; [done|]. assert (l2 = l) as ->. { eapply bytes_at_inj; [exact Hb2|rewrite Em1; apply wr_bytes_at|lia]. } rewrite Em2. apply wr_bytes_at.
Qed.

(** C27: [uiomove] moves the lesser of the buffer's and the residue's number
    of bytes between the buffer and the blocks in their order, leaves the
    [uio] describing exactly the rest, and never runs out of blocks; it fails,
    with [EFAULT], only when one of these bytes of the user's cannot be
    touched, and then has written nowhere else either. *)
Theorem uiomove_correct (curas ptr n : Z) (u : uio) (s : cpu) (l : list Z) :
  badfault s = false -> uio_ok u -> USERSPACETOP <= ptr -> ptr + n < 2 ^ 32 -> Z.of_nat (length l) = n -> bytes_at (cmem s) ptr l ->
  uio_space u = (if is_sysspace (uio_segflg u) then 0 else curas) ->
  Forall (fun a => ~ ptr <= a < ptr + n) (addrs (uio_iov u)) ->
  (is_sysspace (uio_segflg u) = true -> Forall (fun a => is_Some (cmem s !! a)) (addrs (uio_iov u))) ->
  let k := Z.min n (uio_resid u) in let A := take (Z.to_nat k) (addrs (uio_iov u)) in
  wp (uiomove curas ptr n u) (fun r s' => badfault s' = false /\ exists j, 0 <= j <= k /\ advanced u j r.2 /\
    match uio_dir u with
    | UIO_READ => (forall a, a ∉ A -> cmem s' !! a = cmem s !! a) /\ (r.1 = 0 -> j = k /\ cmem s' = scatter (cmem s) A (take (Z.to_nat k) l))
    | UIO_WRITE => framed ptr n (cmem s) (cmem s') /\ (r.1 = 0 -> j = k /\ exists g, Forall2 (fun a c => cmem s !! a = Some c) A g /\ cmem s' = wr (cmem s) ptr g)
    end /\ (r.1 = 0 \/ r.1 = EFAULT /\ is_sysspace (uio_segflg u) = false /\ ~ Forall (user_ok (cmem s)) A)) s.
Proof.
  intros Hf Hu Hp Hpn Hl Hb Hsp Hap Hsys k A. destruct (uio_dir u) eqn:Ed.
  - eapply wp_mono; [apply (wp_uiomove_read curas ptr n u s Hf Hu Hp ltac:(lia) Hpn Hsp Hap Hsys l Ed Hb Hl)|].
    intros r s' (Hf' & Ho & j & Hj & Ha & Hr). split; [done|]. exists j. split; [done|]. split; [done|].
    destruct Hr as [(Er & Hk & Em)|(Er & Hlt & Hs & Hno)]; (split; [split; [done|]; rewrite Er; done|]); [by left|by right].
  - eapply wp_mono; [apply (wp_uiomove_write curas ptr n u s Hf Hu Hp ltac:(lia) Hpn Hsp Hap Hsys Ed)|].
    { rewrite <- Hl. by apply bytes_at_mapped. }
    intros r s' (Hf' & Ho & j & Hj & Ha & Hr). split; [done|]. exists j. split; [done|]. split; [done|].
    destruct Hr as [(Er & Hk & Em)|(Er & Hlt & Hs & Hno)]; (split; [split; [done|]; rewrite Er; done|]); [by left|by right].
Qed.

(** ** Witnesses *)

(** Four bytes of user memory at 100, a kernel buffer at 0x80001000 and one at
    0x80002000. *)
Definition ex_cpu : cpu := Cpu (wr (wr (wr ∅ 100 [104; 105; 0; 7]) 0x80001000 [1; 2; 3; 4]) 0x80002000 [0; 0; 0; 0]) false.

Ltac by_computation := apply (bool_decide_unpack _); vm_compute; exact I.

Lemma user_copies_correct_witness :
  wp (copyin 100 0x80001000 4) (fun r _ => r = 0) ex_cpu /\
  wp (copyout 0x80001000 102 4) (fun r s' => r = EFAULT /\ cmem s' !! 0x80001000 = Some 1) ex_cpu.
Proof.
  destruct (user_copies_correct ex_cpu 100 0x80001000 4) as [H1 _]; [reflexivity|by_computation|by_computation|by_computation|by_computation|].
  destruct (user_copies_correct ex_cpu 102 0x80001000 4) as [_ H2]; [reflexivity|by_computation|by_computation|by_computation|by_computation|].
  split.
  - eapply wp_mono; [exact H1|]. intros r s' (_ & _ & H). rewrite decide_True in H by by_computation. apply H.
  - eapply wp_mono; [exact H2|]. intros r s' [(_ & _ & H) Hk]. rewrite decide_False in H by by_computation. split; [apply H|]. rewrite Hk by by_computation. reflexivity.
Defined.

Lemma copyinstr_correct_witness : wp (copyinstr 100 0x80001000 4) (fun r _ => r = inr 3) ex_cpu.
Proof.
  eapply wp_mono; [apply (copyinstr_correct ex_cpu 100 0x80001000 4); [done|done|done|done|done|by_computation]|].
  intros r s' (_ & _ & H). destruct r as [e|g].
  - exfalso. destruct H as [H _]. apply (H [104; 105]). split; [|done]. split; [|by_computation]. apply (peek_Some _ _ 3). reflexivity.
  - destruct H as (k & ([Hk Hk0] & Hlen & _) & -> & _). f_equal.
    assert (cstr (cmem ex_cpu) 100 [104; 105]) as Hc. { split; [|by_computation]. apply (peek_Some _ _ 3). reflexivity. }
    pose proof Hc as [Hb Hb0]. apply bytes_at_app in Hb as [Hb _]. pose proof (cstr_prefix _ _ k [104; 105] (conj Hk Hk0) Hb Hb0) as L1.
    apply bytes_at_app in Hk as [Hk _]. pose proof (cstr_prefix _ _ _ k Hc Hk Hk0) as L2. cbn in *. lia.
Defined.

Lemma copyout_copyin_roundtrip_witness :
  wp (copyout 0x80001000 100 4 ;;; copyin 100 0x80002000 4) (fun r s' => r = 0 /\ bytes_at (cmem s') 0x80002000 [1; 2; 3; 4]) ex_cpu.
Proof.
  apply (copyout_copyin_roundtrip ex_cpu 100 0x80001000 0x80002000 [1; 2; 3; 4]); [done|by_computation|by_computation|done| |done|by_computation].
  apply (peek_Some _ _ 4). reflexivity.
Defined.

(** Two blocks of the user's, the second one longer than what is left. *)
Definition ex_uio : uio := Uio [Iovec 102 1; Iovec 100 2] 5 3 UIO_USERSPACE UIO_READ 9.

Lemma uiomove_correct_witness :
  wp (uiomove 9 0x80001000 2 ex_uio) (fun r s' => r.1 = 0 -> cmem s' !! 102 = Some 1 /\ cmem s' !! 100 = Some 2 /\ cmem s' !! 101 = Some 105) ex_cpu.
Proof.
  eapply wp_mono; [apply (uiomove_correct 9 0x80001000 2 ex_uio ex_cpu [1; 2]); [done| |done|done|done|apply (peek_Some _ _ 2); reflexivity|done|by_computation|done]|].
  - split; [repeat (constructor; [cbn; lia|]); constructor|reflexivity|done].
  - intros r s' (_ & j & _ & _ & [_ H] & _) Er. destruct (H Er) as [_ ->]. repeat split; reflexivity.
Defined.
