(* ===== verification/RefWorld.v ===== *)
(** * A reference world

    A small world that keeps the promises of [World]: they are consistent,
    and the kernel calls can be run on it.  Every file is a directory of 100
    bytes; the file named by a user address is that address. *)

From S2P Require Import Prelude KHeap KWorld.

Record rworld := RWorld { rw_heap : ref_heap; rw_view : wview Z }.

Definition rw_set_heap (h : ref_heap) (w : rworld) : rworld := RWorld h (rw_view w).
Definition rw_upd (f : wview Z -> wview Z) (w : rworld) : rworld := RWorld (rw_heap w) (f (rw_view w)).

Definition new_id (X : gset Z) : Z := 1 + foldr Z.max 0 (elements X).

Lemma new_id_spec X : 0 < new_id X /\ new_id X ∉ X.
Proof. apply (rh_fresh_spec (RefHeap X [])). Qed.

#[export, program] Instance rworld_heap : KMalloc rworld := {|
  kmalloc := fun n => zoom rw_heap rw_set_heap (rh_kmalloc n);
  kfree := fun p => zoom rw_heap rw_set_heap (rh_kfree p);
  heap_live := fun w => rh_live (rw_heap w);
  heap_ok := fun _ => True;
  heap_side := fun w w' => rw_view w' = rw_view w;
|}.
Next Obligation. split; [by intros ?|]. intros ? ? ? E1 E2. by rewrite E2. Qed.
Next Obligation. done. Qed.
Next Obligation. intros. apply wp_zoom. eapply wp_mono; [by apply (@kmalloc_spec ref_heap ref_heap_kmalloc)|]. intros p h [_ Hp]. by split. Qed.
Next Obligation. intros p s _ Hp HL. apply wp_zoom. eapply wp_mono; [by apply (@kfree_spec ref_heap ref_heap_kmalloc)|]. intros _ h [_ Hh]. by split. Qed.
Next Obligation. intros s _. apply wp_zoom. eapply wp_mono; [by apply (@kfree_null ref_heap ref_heap_kmalloc)|]. intros _ h [_ Hh]. by split. Qed.

(** ** The operations *)

Definition rw_lock_create : M rworld Z := fun w =>
  let l := new_id (dom (v_locks (rw_view w))) in
  Done l (rw_upd (fun v => v_set_locks (<[l := false]> (v_locks v)) v) w).

Definition rw_lock_set (l : Z) (b : bool) : M rworld unit := fun w =>
  match v_locks (rw_view w) !! l with
  | Some b' => if Bool.eqb b b' then Panic else Done tt (rw_upd (fun v => v_set_locks (<[l := b]> (v_locks v)) v) w)
  | None => Fault
  end.

Definition rw_lock_destroy (l : Z) : M rworld unit := fun w =>
  match v_locks (rw_view w) !! l with
  | Some _ => Done tt (rw_upd (fun v => v_set_locks (delete l (v_locks v)) v) w)
  | None => Fault
  end.

Definition rw_lock_do_i_hold (l : Z) : M rworld bool := fun w =>
  match v_locks (rw_view w) !! l with Some b => Done b w | None => Fault end.

Definition rw_open (path : list Z) : M rworld (err Z) := fun w =>
  let v := Z.abs (default 0 (head path)) in
  if v =? 0 then Done (inl ENOENT) w else Done (inr v) (rw_upd (v_ref v 1) w).

Definition rw_ref (v d : Z) : M rworld unit := fun w =>
  if 0 <? v_refs (rw_view w) v then Done tt (rw_upd (v_ref v d) w) else Panic.

Definition uio_move (n : Z) (u : uio) : uio :=
  Uio (match uio_iov u with Iovec b l :: r => Iovec (b + n) (l - n) :: r | [] => [] end)
      (uio_offset u + n) (uio_resid u - n) (uio_segflg u) (uio_dir u) (uio_space u).

Definition rw_read (u : uio) : M rworld (Z * uio) := ret (0, uio_move (Z.min (uio_resid u) (Z.max 0 (100 - uio_offset u))) u).
Definition rw_write (u : uio) : M rworld (Z * uio) := ret (0, uio_move (uio_resid u) u).
Definition rw_uiomove (l : list Z) (u : uio) : M rworld (Z * uio) := ret (0, uio_move (Z.min (Z.of_nat (length l)) (uio_resid u)) u).

Definition rw_copyinstr (p n : Z) : M rworld (err (list Z)) :=
  if p =? 0 then ret (inl EFAULT) else if n <=? 1 then ret (inl ENAMETOOLONG) else ret (inr [p]).

Definition rw_as_copy (a : Z) : M rworld (err Z) := fun w =>
  match v_spaces (rw_view w) !! a with
  | Some x => let n := new_id (dom (v_spaces (rw_view w))) in Done (inr n) (rw_upd (fun v => v_set_spaces (<[n := x]> (v_spaces v)) v) w)
  | None => Fault
  end.

Definition rw_as_destroy (a : Z) : M rworld unit := fun w =>
  match v_spaces (rw_view w) !! a with
  | Some _ => if a =? v_curas (rw_view w) then Fault else Done tt (rw_upd (fun v => v_set_spaces (delete a (v_spaces v)) v) w)
  | None => Fault
  end.

Definition rw_as_switch (a : Z) : M rworld unit := fun w =>
  match v_spaces (rw_view w) !! a with
  | Some _ => Done tt (rw_upd (v_set_curas a) w)
  | None => Fault
  end.

Definition rw_thread_new : M rworld (err Z) := fun w =>
  let t := new_id (v_threads (rw_view w)) in Done (inr t) (rw_upd (fun v => v_set_threads ({[t]} ∪ v_threads v) v) w).

Definition rw_thread_zombie (t : Z) : M rworld unit := modify (rw_upd (fun v => v_set_threads (v_threads v ∖ {[t]}) v)).

#[export] Instance rworld_ops : WorldOps rworld := {|
  wo_heap := rworld_heap;
  lock_create := rw_lock_create;
  lock_destroy := rw_lock_destroy;
  lock_acquire := fun l => rw_lock_set l true;
  lock_release := fun l => rw_lock_set l false;
  lock_do_i_hold := rw_lock_do_i_hold;
  vfs_open := fun path _ => rw_open path;
  vfs_close := fun v => rw_ref v (-1);
  vop_incref := fun v => rw_ref v 1;
  vop_decref := fun v => rw_ref v (-1);
  vop_read := fun _ => rw_read;
  vop_write := fun _ => rw_write;
  vop_stat := fun _ => ret (inr 100);
  vop_isseekable := fun _ => ret true;
  vfs_lookup := rw_open;
  vop_gettype := fun _ => ret (inr 8192);
  vop_namefile := fun _ => rw_uiomove [47];
  fs_name := fun _ => ret [101; 109; 117];
  uiomove := rw_uiomove;
  copyinstr := rw_copyinstr;
  copyout := fun _ _ _ => ret 0;
  as_copy := rw_as_copy;
  as_destroy := rw_as_destroy;
  as_switch := rw_as_switch;
  cv_create := ret 77;
  thread_new := rw_thread_new;
  thread_destroy := rw_thread_zombie;
  thread_ready := fun _ => ret tt;
  thread_zombie := rw_thread_zombie;
|}.

(** ** The promises *)

Lemma rw_open_spec path w : wp (rw_open path) (fun r w' => True /\ heap_live w' = heap_live w /\
  match r with inl e => e <> 0 /\ rw_view w' = rw_view w | inr v => v <> 0 /\ rw_view w' = v_ref v 1 (rw_view w) end) w.
Proof. unfold wp, rw_open. destruct (Z.abs _ =? 0) eqn:E; [done|]. boolify. by split_and!. Qed.

Lemma rw_ref_spec v d w : 0 < v_refs (rw_view w) v -> wp (rw_ref v d) (fun _ w' => True /\ heap_live w' = heap_live w /\ rw_view w' = v_ref v d (rw_view w)) w.
Proof. intros Hv. unfold wp, rw_ref. by replace (0 <? v_refs (rw_view w) v) with true by lia. Qed.

Lemma uio_move_transferred n u : 0 <= n <= uio_resid u -> transferred u (uio_move n u).
Proof. intros Hn. unfold transferred, uio_move. cbn. lia. Qed.

Lemma uio_move_kbuf b n (l : list Z) u : kbuf b n u -> kbuf b n (uio_move (Z.min (Z.of_nat (length l)) (uio_resid u)) u).
Proof.
  intros (E1 & E2 & E3 & Ho & Er & Ei). unfold kbuf, uio_move. cbn. rewrite Ei. split_and!; try done; try lia. do 2 f_equal; lia.
Qed.

Lemma not_dom_new {A} (m : gmap Z A) : m !! new_id (dom m) = None.
Proof. apply not_elem_of_dom, new_id_spec. Qed.

#[export, program] Instance rworld_world : World rworld := {|
  space_t := Z;
  wv := rw_view;
  wok := fun _ => True;
|}.
Next Obligation. done. Qed.
Next Obligation. done. Qed.
Next Obligation.
  intros w _. unfold wp, lock_create. cbn. destruct (new_id_spec (dom (v_locks (rw_view w)))). split_and!; [done|done|]. right. split_and!; [done|apply not_dom_new|done].
Qed.
Next Obligation. intros l b w _ E. unfold wp. cbn. unfold rw_lock_destroy. by rewrite E. Qed.
Next Obligation. intros l w _ E. unfold wp. cbn. unfold rw_lock_set. by rewrite E. Qed.
Next Obligation. intros l w _ E. unfold wp. cbn. unfold rw_lock_set. by rewrite E. Qed.
Next Obligation. intros l b w _ E. unfold wp. cbn. unfold rw_lock_do_i_hold. by rewrite E. Qed.
Next Obligation. intros path flags w _. apply rw_open_spec. Qed.
Next Obligation. intros v w _ Hv. by apply rw_ref_spec. Qed.
Next Obligation. intros v w _ Hv. by apply rw_ref_spec. Qed.
Next Obligation. intros v w _ Hv. by apply rw_ref_spec. Qed.
Next Obligation. intros v u w _ _ Hu. unfold wp. cbn. split_and!; try done. intros _. apply uio_move_transferred. lia. Qed.
Next Obligation. intros v u w _ _ Hu. unfold wp. cbn. split_and!; try done. intros _. apply uio_move_transferred. lia. Qed.
Next Obligation. by intros. Qed.
Next Obligation. by intros. Qed.
Next Obligation. intros path w _. apply rw_open_spec. Qed.
Next Obligation. by intros. Qed.
Next Obligation. intros v b n u w _ _ _ Hu. unfold wp. cbn. split_and!; try done. intros _. by apply (uio_move_kbuf b n [47]). Qed.
Next Obligation. by intros. Qed.
Next Obligation. intros l b n u w _ _ Hu. unfold wp. cbn. split_and!; try done. intros _. by apply uio_move_kbuf. Qed.
Next Obligation. intros p n w _. unfold wp. cbn. unfold rw_copyinstr. destruct (p =? 0); [done|]. destruct (n <=? 1) eqn:E; [done|]. boolify. cbn. split_and!; (done || lia). Qed.
Next Obligation. by intros. Qed.
Next Obligation.
  intros a x w _ E. unfold wp. cbn. unfold rw_as_copy. rewrite E. destruct (new_id_spec (dom (v_spaces (rw_view w)))). split_and!; [done|done|lia|apply not_dom_new|done].
Qed.
Next Obligation. intros a w _ [x E] Hne. unfold wp. cbn. unfold rw_as_destroy. rewrite E. by replace (a =? v_curas (rw_view w)) with false by lia. Qed.
Next Obligation. intros a w _ [x E]. unfold wp. cbn. unfold rw_as_switch. by rewrite E. Qed.
Next Obligation. by intros. Qed.
Next Obligation.
  intros w _. unfold wp. cbn. destruct (new_id_spec (v_threads (rw_view w))). split_and!; [done|done|lia|done|done].
Qed.
Next Obligation. by intros. Qed.
Next Obligation. by intros. Qed.
Next Obligation. by intros. Qed.
