(* ===== verification/PState.v ===== *)
(** * Processes, file handlers and the process table: data

    The structures of kern/include/proc.h, proc_table.h and file_handler.h
    over a world (KWorld) that holds the rest of the kernel.  Structures live
    in maps from their addresses, so a freed structure is gone and its use is
    undefined; the [file_table]s of all processes are one map by process and
    index, in which NULL entries are absent. *)

From S2P Require Import Prelude KHeap Array KWorld.

(** ** Constants (kern/limits.h, fcntl.h, stattypes.h, seek.h, proc_table.h) *)

Definition OPEN_MAX : Z := 32.
Definition PATH_MAX : Z := 1024.
Definition PID_MIN : Z := 2.
Definition PID_MAX : Z := 32767.
Definition O_RDONLY : Z := 0.
Definition O_WRONLY : Z := 1.
Definition O_APPEND : Z := 32.
Definition O_ACCMODE : Z := 3.
Definition S_IFDIR : Z := 8192.
Definition SEEK_SET : Z := 0.
Definition SEEK_CUR : Z := 1.
Definition SEEK_END : Z := 2.
Definition READY : Z := 0.
Definition RUNNING : Z := 1.
Definition ZOMBIE : Z := 2.
Definition ORPHAN : Z := 3.

(** ** Structures *)

Record file_handler := FileHandler {
  fh_vnode : Z;
  d_count : Z;
  fh_mode : Z;
  fh_offset : Z;
  fh_config : bool;
  fh_lock : Z;
}.

Record proc := Proc {
  p_name : Z;
  p_lock : bool;              (* the spinlock, held or free *)
  p_threads : array;
  p_addrspace : Z;            (* 0 for NULL *)
  p_cwd : Z;                  (* 0 for NULL *)
  pid : Z;
  children_ptr : Z;
  children : array;           (* what [children_ptr] points to *)
}.

(** The arrays have 33 cells; a cell never written is [None]. *)
Record proc_table := ProcTable {
  pt_proc : list (option Z);
  pt_status : list (option Z);
  pt_waitcode : list (option Z);
  pt_lock : Z;
  pt_cv : Z;
  pid_available : Z;
  pid_next : Z;
}.

(** The registers [syscall] and [sys_fork] look at; the others in one list. *)
Record trapframe := Trapframe {
  tf_v0 : Z;
  tf_v1 : Z;
  tf_a0 : Z;
  tf_a1 : Z;
  tf_a2 : Z;
  tf_a3 : Z;
  tf_sp : Z;
  tf_epc : Z;
  tf_rest : list Z;
}.

(** A thread inside [sys_waitpid]: the pid it waits for, its [retval]. *)
Definition waiter : Type := Z * (Z * Z).

Record pst (W : Type) := Pst {
  pw : W;                              (* the rest of the kernel *)
  procs : gmap Z proc;                 (* struct proc objects *)
  ftab : gmap (Z * Z) Z;               (* file_table[fd] of each process *)
  fhs : gmap Z file_handler;           (* struct file_handler objects *)
  tfs : gmap Z trapframe;              (* trapframes on the heap *)
  ptab : proc_table;                   (* *processes *)
  kproc : Z;
  tproc : gmap Z Z;                    (* t_proc of each thread *)
  tdata : gmap Z Z;                    (* the trapframe each new thread starts with *)
  curt : Z;                            (* curthread *)
  cv_queue : list waiter;              (* asleep on processes->cv *)
  cv_woken : list waiter;              (* woken up, still inside cv_wait *)
}.
Arguments Pst {W}.
Arguments pw {W}.
Arguments procs {W}.
Arguments ftab {W}.
Arguments fhs {W}.
Arguments tfs {W}.
Arguments ptab {W}.
Arguments kproc {W}.
Arguments tproc {W}.
Arguments tdata {W}.
Arguments curt {W}.
Arguments cv_queue {W}.
Arguments cv_woken {W}.

(** ** Updates *)

Section updates.
Context {W : Type}.
Definition set_pw (x : W) (s : pst W) : pst W :=
  Pst x (procs s) (ftab s) (fhs s) (tfs s) (ptab s) (kproc s) (tproc s) (tdata s) (curt s) (cv_queue s) (cv_woken s).
Definition set_procs (x : gmap Z proc) (s : pst W) : pst W :=
  Pst (pw s) x (ftab s) (fhs s) (tfs s) (ptab s) (kproc s) (tproc s) (tdata s) (curt s) (cv_queue s) (cv_woken s).
Definition set_ftab (x : gmap (Z * Z) Z) (s : pst W) : pst W :=
  Pst (pw s) (procs s) x (fhs s) (tfs s) (ptab s) (kproc s) (tproc s) (tdata s) (curt s) (cv_queue s) (cv_woken s).
Definition set_fhs (x : gmap Z file_handler) (s : pst W) : pst W :=
  Pst (pw s) (procs s) (ftab s) x (tfs s) (ptab s) (kproc s) (tproc s) (tdata s) (curt s) (cv_queue s) (cv_woken s).
Definition set_tfs (x : gmap Z trapframe) (s : pst W) : pst W :=
  Pst (pw s) (procs s) (ftab s) (fhs s) x (ptab s) (kproc s) (tproc s) (tdata s) (curt s) (cv_queue s) (cv_woken s).
Definition set_ptab (x : proc_table) (s : pst W) : pst W :=
  Pst (pw s) (procs s) (ftab s) (fhs s) (tfs s) x (kproc s) (tproc s) (tdata s) (curt s) (cv_queue s) (cv_woken s).
Definition set_kproc (x : Z) (s : pst W) : pst W :=
  Pst (pw s) (procs s) (ftab s) (fhs s) (tfs s) (ptab s) x (tproc s) (tdata s) (curt s) (cv_queue s) (cv_woken s).
Definition set_tproc (x : gmap Z Z) (s : pst W) : pst W :=
  Pst (pw s) (procs s) (ftab s) (fhs s) (tfs s) (ptab s) (kproc s) x (tdata s) (curt s) (cv_queue s) (cv_woken s).
Definition set_tdata (x : gmap Z Z) (s : pst W) : pst W :=
  Pst (pw s) (procs s) (ftab s) (fhs s) (tfs s) (ptab s) (kproc s) (tproc s) x (curt s) (cv_queue s) (cv_woken s).
Definition set_curt (x : Z) (s : pst W) : pst W :=
  Pst (pw s) (procs s) (ftab s) (fhs s) (tfs s) (ptab s) (kproc s) (tproc s) (tdata s) x (cv_queue s) (cv_woken s).
Definition set_cv_queue (x : list waiter) (s : pst W) : pst W :=
  Pst (pw s) (procs s) (ftab s) (fhs s) (tfs s) (ptab s) (kproc s) (tproc s) (tdata s) (curt s) x (cv_woken s).
Definition set_cv_woken (x : list waiter) (s : pst W) : pst W :=
  Pst (pw s) (procs s) (ftab s) (fhs s) (tfs s) (ptab s) (kproc s) (tproc s) (tdata s) (curt s) (cv_queue s) x.
End updates.

Definition set_p_lock (x : bool) (r : proc) : proc :=
  Proc (p_name r) x (p_threads r) (p_addrspace r) (p_cwd r) (pid r) (children_ptr r) (children r).
Definition set_p_threads (x : array) (r : proc) : proc :=
  Proc (p_name r) (p_lock r) x (p_addrspace r) (p_cwd r) (pid r) (children_ptr r) (children r).
Definition set_p_addrspace (x : Z) (r : proc) : proc :=
  Proc (p_name r) (p_lock r) (p_threads r) x (p_cwd r) (pid r) (children_ptr r) (children r).
Definition set_p_cwd (x : Z) (r : proc) : proc :=
  Proc (p_name r) (p_lock r) (p_threads r) (p_addrspace r) x (pid r) (children_ptr r) (children r).
Definition set_pid (x : Z) (r : proc) : proc :=
  Proc (p_name r) (p_lock r) (p_threads r) (p_addrspace r) (p_cwd r) x (children_ptr r) (children r).
Definition set_children (x : array) (r : proc) : proc :=
  Proc (p_name r) (p_lock r) (p_threads r) (p_addrspace r) (p_cwd r) (pid r) (children_ptr r) x.
Definition set_d_count (x : Z) (r : file_handler) : file_handler :=
  FileHandler (fh_vnode r) x (fh_mode r) (fh_offset r) (fh_config r) (fh_lock r).
Definition set_fh_offset (x : Z) (r : file_handler) : file_handler :=
  FileHandler (fh_vnode r) (d_count r) (fh_mode r) x (fh_config r) (fh_lock r).
Definition set_pt_proc (x : list (option Z)) (r : proc_table) : proc_table :=
  ProcTable x (pt_status r) (pt_waitcode r) (pt_lock r) (pt_cv r) (pid_available r) (pid_next r).
Definition set_pt_status (x : list (option Z)) (r : proc_table) : proc_table :=
  ProcTable (pt_proc r) x (pt_waitcode r) (pt_lock r) (pt_cv r) (pid_available r) (pid_next r).
Definition set_pt_waitcode (x : list (option Z)) (r : proc_table) : proc_table :=
  ProcTable (pt_proc r) (pt_status r) x (pt_lock r) (pt_cv r) (pid_available r) (pid_next r).
Definition set_pt_lock (x : Z) (r : proc_table) : proc_table :=
  ProcTable (pt_proc r) (pt_status r) (pt_waitcode r) x (pt_cv r) (pid_available r) (pid_next r).
Definition set_pt_cv (x : Z) (r : proc_table) : proc_table :=
  ProcTable (pt_proc r) (pt_status r) (pt_waitcode r) (pt_lock r) x (pid_available r) (pid_next r).
Definition set_pid_available (x : Z) (r : proc_table) : proc_table :=
  ProcTable (pt_proc r) (pt_status r) (pt_waitcode r) (pt_lock r) (pt_cv r) x (pid_next r).
Definition set_pid_next (x : Z) (r : proc_table) : proc_table :=
  ProcTable (pt_proc r) (pt_status r) (pt_waitcode r) (pt_lock r) (pt_cv r) (pid_available r) x.

(** Reduce projections of updated objects. *)
Ltac p_simpl := cbn [pw procs ftab fhs tfs ptab kproc tproc tdata curt cv_queue cv_woken set_pw set_procs set_ftab set_fhs set_tfs set_ptab set_kproc set_tproc set_tdata set_curt set_cv_queue set_cv_woken p_name p_lock p_threads p_addrspace p_cwd pid children_ptr children set_p_lock set_p_threads set_p_addrspace set_p_cwd set_pid set_children fh_vnode d_count fh_mode fh_offset fh_config fh_lock set_d_count set_fh_offset pt_proc pt_status pt_waitcode pt_lock pt_cv pid_available pid_next set_pt_proc set_pt_status set_pt_waitcode set_pt_lock set_pt_cv set_pid_available set_pid_next tf_v0 tf_v1 tf_a0 tf_a1 tf_a2 tf_a3 tf_sp tf_epc tf_rest] in *.

(** The same for the components of a state alone. *)
Ltac st_simpl := cbn [pw procs ftab fhs tfs ptab kproc tproc tdata curt cv_queue cv_woken set_pw set_procs set_ftab set_fhs set_tfs set_ptab set_kproc set_tproc set_tdata set_curt set_cv_queue set_cv_woken].

(** ** Access *)

Section access.
Context {W : Type} `{WorldOps W}.

(** An operation of the rest of the kernel. *)
Definition world {A} (m : M W A) : M (pst W) A := zoom pw set_pw m.

Definition proc_at (p : Z) : M (pst W) proc := s <- get ;; deref (procs s !! p).
Definition proc_put (p : Z) (x : proc) : M (pst W) unit := _ <- proc_at p ;; modify (fun s => set_procs (<[p := x]> (procs s)) s).
(** [spinlock_acquire] and [spinlock_release] on [p->p_lock]; taking a lock
    one holds is a deadlock, which the spinlock code turns into a panic. *)
Definition p_lock_acquire (p : Z) : M (pst W) unit := x <- proc_at p ;; kassert (negb (p_lock x)) ;;; proc_put p (set_p_lock true x).
Definition p_lock_release (p : Z) : M (pst W) unit := x <- proc_at p ;; kassert (p_lock x) ;;; proc_put p (set_p_lock false x).

Definition fh_at (h : Z) : M (pst W) file_handler := s <- get ;; deref (fhs s !! h).
Definition fh_put (h : Z) (x : file_handler) : M (pst W) unit := _ <- fh_at h ;; modify (fun s => set_fhs (<[h := x]> (fhs s)) s).

(** [curthread->t_proc], NULL when it has none. *)
Definition curproc : M (pst W) Z := s <- get ;; ret (default 0 (tproc s !! curt s)).

(** [p->file_table[fd]] of an existing process. *)
Definition ft_get (p fd : Z) : M (pst W) Z :=
  _ <- proc_at p ;;
  s <- get ;;
  if (0 <=? fd) && (fd <? OPEN_MAX) then ret (default 0 (ftab s !! (p, fd))) else fault.
Definition ft_set (p fd h : Z) : M (pst W) unit :=
  _ <- proc_at p ;;
  if (0 <=? fd) && (fd <? OPEN_MAX) then
    modify (fun s => set_ftab (if h =? 0 then delete (p, fd) (ftab s) else <[(p, fd) := h]> (ftab s)) s)
  else fault.

Definition free_fh (h : Z) : M (pst W) unit :=
  _ <- fh_at h ;; modify (fun s => set_fhs (delete h (fhs s)) s) ;;; world (kfree h).
End access.
