(* ===== verification/Files.v ===== *)
(** * File system calls (kern/syscall/file_syscalls.c)

    Each call runs in the current process; [inl e] is the error number it
    returns, [inr r] the value it stores through [retval] before it returns
    0. *)

From S2P Require Import Prelude KHeap Array KWorld PState.

Section files.
Context {W : Type} `{WorldOps W}.
Notation PM := (M (pst W)).

(** [while (i < OPEN_MAX && curproc->file_table[i] != NULL) i++]. *)
Definition find_slot (p : Z) : PM Z :=
  r <- for_ (Z.to_nat (OPEN_MAX - 3)) 3 (fun i =>
    h <- ft_get p i ;;
    if h =? 0 then ret (Some i) else ret None) ;;
  ret (default OPEN_MAX r).

(** The open file for entry [i], once one was found. *)
Definition open_file (p i : Z) (cin_filename : list Z) (flags : Z) : PM (err Z) :=
  fh <- world (kmalloc 32) ;;
  if fh =? 0 then ret (inl ENOMEM) else
  r <- world (vfs_open cin_filename flags) ;;
  match r with
  | inl e => world (kfree fh) ;;; ret (inl e)
  | inr vnode =>
  off <- (if negb (Z.land flags O_APPEND =? 0) then world (vop_stat vnode) else ret (inr 0)) ;;
  match off with
  | inl e => world (vfs_close vnode) ;;; world (kfree fh) ;;; ret (inl e)
  | inr offset =>
  lock <- world lock_create ;;
  if lock =? 0 then world (vfs_close vnode) ;;; world (kfree fh) ;;; ret (inl ENOMEM) else
  modify (fun s => set_fhs (<[fh := FileHandler vnode 1 (Z.land flags O_ACCMODE) offset false lock]> (fhs s)) s) ;;;
  ft_set p i fh ;;;
  ret (inr i)
  end end.

Definition sys_open (filename flags : Z) : PM (err Z) :=
  r <- world (copyinstr filename PATH_MAX) ;;
  match r with
  | inl e => ret (inl e)
  | inr cin_filename =>
  p <- curproc ;;
  i <- find_slot p ;;
  if i =? OPEN_MAX then ret (inl EMFILE) else
  open_file p i cin_filename flags
  end.

(** [fd < 0 || fd >= OPEN_MAX || curproc->file_table[fd] == NULL]. *)
Definition bad_fd (p fd : Z) : PM bool :=
  if (fd <? 0) || (OPEN_MAX <=? fd) then ret true else
  h <- ft_get p fd ;; ret (h =? 0).

Definition sys_read (fd buf bufflen : Z) : PM (err Z) :=
  p <- curproc ;;
  bad <- bad_fd p fd ;;
  if bad then ret (inl EBADF) else
  fh <- ft_get p fd ;;
  x <- fh_at fh ;;
  if fh_mode x =? O_WRONLY then ret (inl EBADF) else
  world (lock_acquire (fh_lock x)) ;;;
  x <- fh_at fh ;;
  pr <- proc_at p ;;
  let k := uio_kinit buf bufflen (fh_offset x) UIO_READ in
  let kuio := Uio [Iovec buf bufflen] (uio_offset k) (uio_resid k) UIO_USERSPACE (uio_dir k) (p_addrspace pr) in
  r <- world (vop_read (fh_vnode x) kuio) ;;
  let '(err, kuio) := r in
  if negb (err =? 0) then world (lock_release (fh_lock x)) ;;; ret (inl err) else
  let bytes := s64 (uio_offset kuio - fh_offset x) in
  fh_put fh (set_fh_offset (uio_offset kuio) x) ;;;
  world (lock_release (fh_lock x)) ;;;
  ret (inr (s32 bytes)).

Definition sys_write (fd buff bufflen : Z) : PM (err Z) :=
  p <- curproc ;;
  bad <- bad_fd p fd ;;
  if bad then ret (inl EBADF) else
  fh <- ft_get p fd ;;
  x <- fh_at fh ;;
  if fh_mode x =? O_RDONLY then ret (inl EBADF) else
  world (lock_acquire (fh_lock x)) ;;;
  x <- fh_at fh ;;
  pr <- proc_at p ;;
  let k := uio_kinit buff bufflen (fh_offset x) UIO_WRITE in
  let kuio := Uio [Iovec buff bufflen] (uio_offset k) (uio_resid k) UIO_USERSPACE (uio_dir k) (p_addrspace pr) in
  r <- world (vop_write (fh_vnode x) kuio) ;;
  let '(err, kuio) := r in
  if negb (err =? 0) then world (lock_release (fh_lock x)) ;;; ret (inl err) else
  let retval := s32 (uio_offset kuio - fh_offset x) in
  fh_put fh (set_fh_offset (uio_offset kuio) x) ;;;
  world (lock_release (fh_lock x)) ;;;
  ret (inr retval).

Definition sys_close (fd : Z) : PM (err Z) :=
  p <- curproc ;;
  bad <- bad_fd p fd ;;
  if bad then ret (inl EBADF) else
  fh <- ft_get p fd ;;
  x <- fh_at fh ;;
  world (lock_acquire (fh_lock x)) ;;;
  let d := s32 (d_count x - 1) in
  fh_put fh (set_d_count d x) ;;;
  if 0 <? d then
    world (lock_release (fh_lock x)) ;;; ret (inr 0)
  else
    world (lock_release (fh_lock x)) ;;;
    world (lock_destroy (fh_lock x)) ;;;
    world (vfs_close (fh_vnode x)) ;;;
    free_fh fh ;;;
    ft_set p fd 0 ;;;
    ret (inr 0).

Definition sys_lseek (fd offset whence : Z) : PM (err Z) :=
  p <- curproc ;;
  bad <- bad_fd p fd ;;
  if bad then ret (inl EBADF) else
  file <- ft_get p fd ;;
  x <- fh_at file ;;
  world (lock_acquire (fh_lock x)) ;;;
  if fh_config x then world (lock_release (fh_lock x)) ;;; ret (inl ESPIPE) else
  seekable <- world (vop_isseekable (fh_vnode x)) ;;
  if negb seekable then world (lock_release (fh_lock x)) ;;; ret (inl ESPIPE) else
  r <- (if whence =? SEEK_SET then
          if offset <? 0 then ret (inl EINVAL) else ret (inr offset)
        else if whence =? SEEK_CUR then
          if s64 (fh_offset x + offset) <? 0 then ret (inl EINVAL) else ret (inr (s64 (fh_offset x + offset)))
        else if whence =? SEEK_END then
          st <- world (vop_stat (fh_vnode x)) ;;
          match st with
          | inl e => ret (inl e)
          | inr st_size => if s64 (st_size + offset) <? 0 then ret (inl EINVAL) else ret (inr (s64 (st_size + offset)))
          end
        else ret (inl EINVAL)) ;;
  match r with
  | inl e => world (lock_release (fh_lock x)) ;;; ret (inl e)
  | inr retval =>
      fh_put file (set_fh_offset retval x) ;;;
      world (lock_release (fh_lock x)) ;;;
      ret (inr retval)
  end.

(** The handler [newfd] had, if any, loses a reference. *)
Definition dup2_close (newfh : Z) : PM unit :=
  if newfh =? 0 then ret tt else
  x <- fh_at newfh ;;
  world (lock_acquire (fh_lock x)) ;;;
  let d := s32 (d_count x - 1) in
  fh_put newfh (set_d_count d x) ;;;
  if d =? 0 then
    world (lock_destroy (fh_lock x)) ;;;
    world (vfs_close (fh_vnode x)) ;;;
    free_fh newfh
  else world (lock_release (fh_lock x)).

Definition sys_dup2 (oldfd newfd : Z) : PM (err Z) :=
  p <- curproc ;;
  if (oldfd <? 0) || (OPEN_MAX <=? oldfd) || (newfd <? 0) || (OPEN_MAX <=? newfd) then ret (inl EBADF) else
  h <- ft_get p oldfd ;;
  if h =? 0 then ret (inl EBADF) else
  if oldfd =? newfd then ret (inr newfd) else
  oldfh <- ft_get p oldfd ;;
  newfh <- ft_get p newfd ;;
  dup2_close newfh ;;;
  x <- fh_at oldfh ;;
  world (lock_acquire (fh_lock x)) ;;;
  ft_set p newfd oldfh ;;;
  fh_put oldfh (set_d_count (s32 (d_count x + 1)) x) ;;;
  world (lock_release (fh_lock x)) ;;;
  ret (inr newfd).

(** ** The current directory (kern/vfs/vfscwd.c) *)

Definition vfs_getcurdir : PM (err Z) :=
  p <- curproc ;;
  p_lock_acquire p ;;;
  x <- proc_at p ;;
  r <- (if negb (p_cwd x =? 0) then world (vop_incref (p_cwd x)) ;;; ret (inr (p_cwd x)) else ret (inl ENOENT)) ;;
  p_lock_release p ;;;
  ret r.

Definition vfs_setcurdir (dir : Z) : PM Z :=
  p <- curproc ;;
  r <- world (vop_gettype dir) ;;
  match r with
  | inl result => ret result
  | inr vtype =>
  if negb (vtype =? S_IFDIR) then ret ENOTDIR else
  world (vop_incref dir) ;;;
  p_lock_acquire p ;;;
  x <- proc_at p ;;
  let old := p_cwd x in
  proc_put p (set_p_cwd dir x) ;;;
  p_lock_release p ;;;
  (if negb (old =? 0) then world (vop_decref old) else ret tt) ;;;
  ret 0
  end.

Definition vfs_clearcurdir : PM Z :=
  p <- curproc ;;
  p_lock_acquire p ;;;
  x <- proc_at p ;;
  let old := p_cwd x in
  proc_put p (set_p_cwd 0 x) ;;;
  p_lock_release p ;;;
  (if negb (old =? 0) then world (vop_decref old) else ret tt) ;;;
  ret 0.

Definition vfs_chdir (path : list Z) : PM Z :=
  r <- world (vfs_lookup path) ;;
  match r with
  | inl result => ret result
  | inr vn => result <- vfs_setcurdir vn ;; world (vop_decref vn) ;;; ret result
  end.

(** The name of the volume, a colon and the path on it. *)
Definition vfs_getcwd (u : uio) : PM (Z * uio) :=
  kassert (match uio_dir u with UIO_READ => true | UIO_WRITE => false end) ;;;
  r <- vfs_getcurdir ;;
  match r with
  | inl result => ret (result, u)
  | inr cwd =>
  name <- world (fs_name cwd) ;;
  r <- world (uiomove name u) ;;
  if negb (r.1 =? 0) then world (vop_decref cwd) ;;; ret r else
  r <- world (uiomove [58] r.2) ;;
  if negb (r.1 =? 0) then world (vop_decref cwd) ;;; ret r else
  r <- world (vop_namefile cwd r.2) ;;
  world (vop_decref cwd) ;;; ret r
  end.

Definition sys__getcwd (buf buflen : Z) : PM (err Z) :=
  buffer <- world (kmalloc buflen) ;;
  r <- vfs_getcwd (uio_kinit buffer buflen 0 UIO_READ) ;;
  let '(err, kuio) := r in
  if negb (err =? 0) then ret (inl err) else
  let bytes := uio_offset kuio in
  let retval := s32 bytes in
  if negb (bytes =? 0) then
    err <- world (copyout buffer buf retval) ;;
    if negb (err =? 0) then world (kfree buffer) ;;; ret (inl err) else
    world (kfree buffer) ;;; ret (inr retval)
  else world (kfree buffer) ;;; ret (inr retval).

Definition sys_chdir (path : Z) : PM (err Z) :=
  r <- world (copyinstr path PATH_MAX) ;;
  match r with
  | inl e => ret (inl e)
  | inr kpath =>
      err <- vfs_chdir kpath ;;
      if negb (err =? 0) then ret (inl err) else ret (inr 0)
  end.
End files.
