(* ===== verification/FilesSpec.v ===== *)
(** * The file system calls keep the files in order

    Every table entry points to a live handler, a handler counts its table
    entries, owns its lock and a reference to its vnode; the calls keep this
    and do to offsets, tables and reference counts what they should. *)

From S2P Require Import Prelude KHeap Array KWorld PState Files.

Section inv.
Context {W : Type} `{World W}.
Implicit Types s : pst W.

(** ** The invariant *)

(** How many table entries of all processes point to handler [h]. *)
Definition refs (m : gmap (Z * Z) Z) (h : Z) : Z := count_val id h m.

(** The references to vnode [v] that handlers and working directories stand for. *)
Definition vneed (C : gmap Z Z) (F : gmap Z file_handler) (v : Z) : Z := count_val fh_vnode v F + count_val id v C.

(** The invariant on the blocks [L], the view [v] of the world, the working
    directories [P] of the processes, their tables [T] and the handlers [F]. *)
Record fpure (L : gset Z) (v : wview space_t) (P : gmap Z Z) (T : gmap (Z * Z) Z) (F : gmap Z file_handler) : Prop := {
  fp_slot : forall p fd h, T !! (p, fd) = Some h -> is_Some (P !! p) /\ 0 <= fd < OPEN_MAX /\ is_Some (F !! h);
  fp_fh : forall h x, F !! h = Some x -> 0 < h /\ h ∈ L /\ v_locks v !! fh_lock x = Some false /\ d_count x = refs T h /\ (refs T h < 2 ^ 31 /\ fh_vnode x <> 0);
  fp_lock : forall h1 x1 h2 x2, F !! h1 = Some x1 -> F !! h2 = Some x2 -> fh_lock x1 = fh_lock x2 -> h1 = h2;
  fp_vnode : forall n, n <> 0 -> vneed P F n <= v_refs v n;
}.

Definition cwds (P : gmap Z proc) : gmap Z Z := p_cwd <$> P.

Record finv (s : pst W) : Prop := {
  fi_ok : wok (pw s);
  fi_pure : fpure (heap_live (pw s)) (wv (pw s)) (cwds (procs s)) (ftab s) (fhs s);
  fi_plock : forall p x, procs s !! p = Some x -> p_lock x = false;
}.

Lemma fp_slot_pos L v P T F p fd h : fpure L v P T F -> T !! (p, fd) = Some h -> 0 < h /\ 0 < refs T h.
Proof.
  intros I Hs. destruct (fp_slot _ _ _ _ _ I p fd h Hs) as (_ & _ & x & Hx). destruct (fp_fh _ _ _ _ _ I h x Hx) as (Hp & _).
  split; [done|]. by eapply count_pos.
Qed.

Lemma fp_ref L v P T F h x : fpure L v P T F -> F !! h = Some x -> 0 < v_refs v (fh_vnode x).
Proof.
  intros I Hx. destruct (fp_fh _ _ _ _ _ I h x Hx) as (_ & _ & _ & _ & _ & Hv). pose proof (fp_vnode _ _ _ _ _ I _ Hv) as Hn.
  unfold vneed in Hn. pose proof (count_pos fh_vnode (fh_vnode x) F h x Hx eq_refl). pose proof (count_nonneg id (fh_vnode x) P). lia.
Qed.

(** ** Pure steps *)

Lemma v_ref_refs (v : wview space_t) n d m : v_refs (v_ref n d v) m = v_refs v m + if decide (m = n) then d else 0.
Proof.
  unfold v_refs, v_ref, v_set_vrefs. cbn [v_vrefs]. destruct (decide (m = n)) as [->|]; [by rewrite lookup_insert_eq|rewrite lookup_insert_ne by done; lia].
Qed.

(** A handler whose offset moved. *)
Lemma fpure_offset L v P T F h x o : fpure L v P T F -> F !! h = Some x -> fpure L v P T (<[h := set_fh_offset o x]> F).
Proof.
  intros [I1 I2 I3 I4] Hx. constructor.
  - intros p fd k Hk. destruct (I1 p fd k Hk) as (? & ? & ?). split_and!; [done|lia|lia|]. by apply lookup_insert_is_Some'; right.
  - intros k y [[<- <-]|[_ Hk]]%lookup_insert_Some; [by apply (I2 h x)|by apply I2].
  - assert (forall k y, <[h := set_fh_offset o x]> F !! k = Some y -> exists z, F !! k = Some z /\ fh_lock y = fh_lock z) as Hz.
    { intros k y [[<- <-]|[_ Hk]]%lookup_insert_Some; eauto. }
    intros h1 x1 h2 x2 H1 H2 E. destruct (Hz _ _ H1) as (z1 & Hz1 & E1), (Hz _ _ H2) as (z2 & Hz2 & E2). apply (I3 h1 z1 h2 z2 Hz1 Hz2). congruence.
  - intros n Hn. unfold vneed. rewrite (count_update _ _ _ _ _ _ Hx). p_simpl. pose proof (I4 n Hn) as I4n. unfold vneed in I4n. destruct (decide _); lia.
Qed.

(** Locks taken and given back, blocks that are nobody's. *)
Lemma fpure_world L v P T F L' v' : fpure L v P T F -> L ⊆ L' -> v_locks v' = v_locks v -> (forall n, n <> 0 -> v_refs v n <= v_refs v' n) -> fpure L' v' P T F.
Proof.
  intros [I1 I2 I3 I4] HL El Er. constructor; [done| |done|].
  - intros h x Hx. destruct (I2 h x Hx) as (? & ? & ? & ? & ?). rewrite El. split_and!; try done; [set_solver|lia|naive_solver].
  - intros n Hn. pose proof (I4 n Hn). pose proof (Er n Hn). lia.
Qed.

(** A new handler in a free entry. *)
Lemma fpure_open L v P T F p fd h n mode o l b : fpure L v P T F -> is_Some (P !! p) -> 0 <= fd < OPEN_MAX -> T !! (p, fd) = None ->
  0 < h -> h ∉ L -> v_locks v !! l = None -> n <> 0 ->
  fpure ({[h]} ∪ L) (v_set_locks (<[l := false]> (v_locks v)) (v_ref n 1 v)) P (<[(p, fd) := h]> T) (<[h := FileHandler n 1 mode o b l]> F).
Proof.
  intros [I1 I2 I3 I4] Hp Hfd Hs Hh HL Hl Hn. assert (F !! h = None) as HF.
  { destruct (F !! h) as [x|] eqn:E; [|done]. destruct (I2 h x E) as (_ & ? & _). set_solver. }
  assert (refs T h = 0) as Hr.
  { apply count_zero. intros [q gd] k Hk E. cbn in E. subst k. destruct (I1 q gd h Hk) as (_ & _ & []). congruence. }
  constructor.
  - intros q gd k [[[= <- <-] <-]|[_ Hk]]%lookup_insert_Some; [split_and!; [done|lia|lia|by rewrite lookup_insert_eq]|].
    destruct (I1 q gd k Hk) as (? & ? & ?). split_and!; [done|lia|lia|]. by apply lookup_insert_is_Some'; right.
  - intros k y [[<- <-]|[Hne Hk]]%lookup_insert_Some; p_simpl; cbn [v_set_locks v_locks].
    + unfold refs in *. rewrite count_insert, Hr by done. rewrite decide_True by done. split_and!; [done|set_solver|apply lookup_insert_eq|done|done|done].
    + destruct (I2 k y Hk) as (? & ? & Hyl & ? & ? & ?). unfold refs in *. rewrite count_insert by done. rewrite decide_False by done.
      split_and!; [done|set_solver| |lia|lia|done]. rewrite lookup_insert_ne; [done|]. congruence.
  - intros h1 x1 h2 x2 [[<- <-]|[Hn1 H1]]%lookup_insert_Some [[<- <-]|[Hn2 H2]]%lookup_insert_Some; p_simpl; [done| | |by apply (I3 h1 x1 h2 x2)].
    + intros E. destruct (I2 h2 x2 H2) as (_ & _ & Hyl & _). congruence.
    + intros E. destruct (I2 h1 x1 H1) as (_ & _ & Hyl & _). congruence.
  - intros m Hm. unfold vneed. rewrite count_insert by done. p_simpl. change (v_refs (v_set_locks _ (v_ref n 1 v)) m) with (v_refs (v_ref n 1 v) m). rewrite v_ref_refs. pose proof (I4 m Hm) as I4m. unfold vneed in I4m.
    destruct (decide (n = m)), (decide (m = n)); try congruence; lia.
Qed.

(** An entry more, an entry less. *)
Lemma fpure_dup L v P T F p fd h x : fpure L v P T F -> is_Some (P !! p) -> 0 <= fd < OPEN_MAX -> T !! (p, fd) = None -> F !! h = Some x -> refs T h < 2 ^ 31 - 1 ->
  fpure L v P (<[(p, fd) := h]> T) (<[h := set_d_count (d_count x + 1) x]> F).
Proof.
  intros [I1 I2 I3 I4] Hp Hfd Hs Hx Hlt. constructor.
  - intros q gd k [[[= <- <-] <-]|[_ Hk]]%lookup_insert_Some; [split_and!; [done|lia|lia|by rewrite lookup_insert_eq]|].
    destruct (I1 q gd k Hk) as (? & ? & ?). split_and!; [done|lia|lia|]. by apply lookup_insert_is_Some'; right.
  - intros k y Hk. apply lookup_insert_Some in Hk as [[<- <-]|[Hne Hk]]; p_simpl.
    + destruct (I2 h x Hx) as (? & ? & ? & Hd & ? & ?). unfold refs in *. rewrite count_insert by done. rewrite decide_True by done. split_and!; try done; lia.
    + destruct (I2 k y Hk) as (? & ? & ? & Hd & ? & ?). unfold refs in *. rewrite count_insert by done. rewrite decide_False by done. split_and!; try done; lia.
  - assert (forall k y, <[h := set_d_count (d_count x + 1) x]> F !! k = Some y -> exists z, F !! k = Some z /\ fh_lock y = fh_lock z) as Hz.
    { intros k y [[<- <-]|[_ Hk]]%lookup_insert_Some; eauto. }
    intros h1 x1 h2 x2 H1 H2 E. destruct (Hz _ _ H1) as (z1 & Hz1 & E1), (Hz _ _ H2) as (z2 & Hz2 & E2). apply (I3 h1 z1 h2 z2 Hz1 Hz2). congruence.
  - intros n Hn. unfold vneed. rewrite (count_update _ _ _ _ _ _ Hx). p_simpl. pose proof (I4 n Hn) as I4n. unfold vneed in I4n. destruct (decide _); lia.
Qed.

Lemma fpure_undup L v P T F p fd h x : fpure L v P T F -> T !! (p, fd) = Some h -> F !! h = Some x ->
  fpure L v P (delete (p, fd) T) (<[h := set_d_count (d_count x - 1) x]> F).
Proof.
  intros [I1 I2 I3 I4] Hs Hx. constructor.
  - intros q gd k [_ Hk]%lookup_delete_Some. destruct (I1 q gd k Hk) as (? & ? & ?). split_and!; [done|lia|lia|]. by apply lookup_insert_is_Some'; right.
  - intros k y Hk. apply lookup_insert_Some in Hk as [[<- <-]|[Hne Hk]]; p_simpl.
    + destruct (I2 h x Hx) as (? & ? & ? & Hd & ? & ?). unfold refs in *. rewrite (count_delete _ _ _ _ _ Hs). rewrite decide_True by done. split_and!; try done; lia.
    + destruct (I2 k y Hk) as (? & ? & ? & Hd & ? & ?). unfold refs in *. rewrite (count_delete _ _ _ _ _ Hs). rewrite decide_False by done. split_and!; try done; lia.
  - assert (forall k y, <[h := set_d_count (d_count x - 1) x]> F !! k = Some y -> exists z, F !! k = Some z /\ fh_lock y = fh_lock z) as Hz.
    { intros k y [[<- <-]|[_ Hk]]%lookup_insert_Some; eauto. }
    intros h1 x1 h2 x2 H1 H2 E. destruct (Hz _ _ H1) as (z1 & Hz1 & E1), (Hz _ _ H2) as (z2 & Hz2 & E2). apply (I3 h1 z1 h2 z2 Hz1 Hz2). congruence.
  - intros n Hn. unfold vneed. rewrite (count_update _ _ _ _ _ _ Hx). p_simpl. pose proof (I4 n Hn) as I4n. unfold vneed in I4n. destruct (decide _); lia.
Qed.

(** A handler without entries goes, with its lock and its vnode reference. *)
Lemma fpure_free L v P T F h x : fpure L v P T F -> F !! h = Some x -> d_count x = 0 ->
  fpure (L ∖ {[h]}) (v_ref (fh_vnode x) (-1) (v_set_locks (delete (fh_lock x) (v_locks v)) v)) P T (delete h F).
Proof.
  intros [I1 I2 I3 I4] Hx Hd. constructor.
  - intros q gd k Hk. destruct (I1 q gd k Hk) as (? & ? & ?). split_and!; [done|lia|lia|]. rewrite lookup_delete_ne; [done|]. intros <-.
    destruct (I2 h x Hx) as (_ & _ & _ & E & _). pose proof (count_pos id h T (q, gd) h Hk eq_refl). unfold refs in E. lia.
  - intros k y [Hne Hk]%lookup_delete_Some. destruct (I2 k y Hk) as (? & ? & ? & ? & ? & ?). cbn [v_ref v_set_vrefs v_set_locks v_locks].
    split_and!; [done|set_solver| |done|done|done]. rewrite lookup_delete_ne; [done|]. intros E. by apply Hne, (I3 h x k y).
  - intros h1 x1 h2 x2 [_ H1]%lookup_delete_Some [_ H2]%lookup_delete_Some. by apply (I3 h1 x1 h2 x2).
  - intros n Hn. rewrite v_ref_refs. change (v_refs (v_set_locks _ v) n) with (v_refs v n). unfold vneed. rewrite (count_delete _ _ _ _ _ Hx). pose proof (I4 n Hn) as I4n. unfold vneed in I4n.
    destruct (decide (fh_vnode x = n)), (decide (n = fh_vnode x)); try congruence; lia.
Qed.
(** Another working directory: its reference in, the old one's out. *)
Lemma fpure_cwd L v v' P T F p c n : fpure L v P T F -> P !! p = Some c -> v_locks v' = v_locks v ->
  (forall m, m <> 0 -> v_refs v' m = v_refs v m + (if decide (m = n) then 1 else 0) - if decide (m = c) then 1 else 0) ->
  fpure L v' (<[p := n]> P) T F.
Proof.
  intros [I1 I2 I3 I4] Hx El Er. constructor; [| |done|].
  - intros q gd k Hk. destruct (I1 q gd k Hk) as (? & ? & ?). split_and!; [|lia|lia|done]. by apply lookup_insert_is_Some'; right.
  - intros h y Hy. rewrite El. by apply I2.
  - intros m Hm. unfold vneed. rewrite (count_update _ _ _ _ _ _ Hx), Er by done. cbn [id]. pose proof (I4 m Hm) as I4m. unfold vneed in I4m.
    repeat destruct (decide _); try congruence; lia.
Qed.
End inv.

(** * What the file system calls do

    The specification of each call on the open-file tables alone: entries
    and the open files they point to, without locks, counts or references.
    Every call that is used within its limits returns, keeps the invariant
    and does what the specification says. *)

(** ** The specification *)

(** An open file as the calls show it. *)
Record fdesc := Fdesc { ds_vnode : Z; ds_mode : Z; ds_offset : Z }.

Definition desc_of (x : file_handler) : fdesc := Fdesc (fh_vnode x) (fh_mode x) (fh_offset x).

Inductive fcall :=
| FOpen (filename flags : Z)
| FRead (fd buf bufflen : Z)
| FWrite (fd buf bufflen : Z)
| FClose (fd : Z)
| FLseek (fd offset whence : Z)
| FDup2 (oldfd newfd : Z)
| FGetcwd (buf buflen : Z)
| FChdir (path : Z).

(** The tables: the entries of every process and the open files. *)
Definition ftables : Type := gmap (Z * Z) Z * gmap Z fdesc.

(** The entry a descriptor names, and its open file. *)
Definition open_at (p fd : Z) (a : ftables) : option (Z * fdesc) :=
  if (0 <=? fd) && (fd <? OPEN_MAX) then h ← a.1 !! (p, fd); d ← a.2 !! h; Some (h, d) else None.

(** Entry [i] is the first free one from 3 on. *)
Definition lowest_free (p i : Z) (a : ftables) : Prop :=
  3 <= i < OPEN_MAX /\ a.1 !! (p, i) = None /\ forall j, 3 <= j < i -> is_Some (a.1 !! (p, j)).

(** Nothing happens and the call reports [e]. *)
Definition fails (r : err Z) (a a' : ftables) : Prop := (exists e, r = inl e /\ e <> 0) /\ a' = a.

(** A transfer of at most [n] bytes moves the offset by what it returns. *)
Definition advances (h : Z) (d : fdesc) (n : Z) (r : err Z) (a a' : ftables) : Prop :=
  exists k, 0 <= k <= n /\ r = inr (s32 k) /\ a' = (a.1, <[h := Fdesc (ds_vnode d) (ds_mode d) (ds_offset d + k)]> a.2).

(** An entry of [p] taken away; the open file goes with its last entry. *)
Definition drop_fd (p fd h : Z) (a : ftables) : ftables :=
  (delete (p, fd) a.1, if decide (refs (delete (p, fd) a.1) h = 0) then delete h a.2 else a.2).

Definition fspec (p : Z) (c : fcall) (a : ftables) (r : err Z) (a' : ftables) : Prop :=
  match c with
  | FOpen filename flags =>
      fails r a a' \/
      exists i h v o, r = inr i /\ lowest_free p i a /\ a.2 !! h = None /\ h <> 0 /\ (Z.land flags O_APPEND = 0 -> o = 0) /\
        a' = (<[(p, i) := h]> a.1, <[h := Fdesc v (Z.land flags O_ACCMODE) o]> a.2)
  | FRead fd buf n =>
      match open_at p fd a with
      | Some (h, d) => if decide (ds_mode d = O_WRONLY) then r = inl EBADF /\ a' = a else fails r a a' \/ advances h d n r a a'
      | None => r = inl EBADF /\ a' = a
      end
  | FWrite fd buf n =>
      match open_at p fd a with
      | Some (h, d) => if decide (ds_mode d = O_RDONLY) then r = inl EBADF /\ a' = a else fails r a a' \/ advances h d n r a a'
      | None => r = inl EBADF /\ a' = a
      end
  | FClose fd =>
      match open_at p fd a with
      | Some (h, d) => r = inr 0 /\ a' = drop_fd p fd h a
      | None => r = inl EBADF /\ a' = a
      end
  | FLseek fd offset whence =>
      match open_at p fd a with
      | Some (h, d) =>
          fails r a a' \/
          exists base, (whence = SEEK_SET /\ base = 0 \/ whence = SEEK_CUR /\ base = ds_offset d \/ whence = SEEK_END /\ 0 <= base < 2 ^ 63) /\
            0 <= s64 (base + offset) /\ r = inr (s64 (base + offset)) /\
            a' = (a.1, <[h := Fdesc (ds_vnode d) (ds_mode d) (s64 (base + offset))]> a.2)
      | None => r = inl EBADF /\ a' = a
      end
  | FDup2 oldfd newfd =>
      match open_at p oldfd a with
      | Some (h, d) =>
          if decide (0 <= newfd < OPEN_MAX) then
            r = inr newfd /\
            if decide (oldfd = newfd) then a' = a else
            let b := match a.1 !! (p, newfd) with Some h' => drop_fd p newfd h' a | None => a end in
            a' = (<[(p, newfd) := h]> b.1, b.2)
          else r = inl EBADF /\ a' = a
      | None => r = inl EBADF /\ a' = a
      end
  | FGetcwd buf n => a' = a /\ (fails r a a' \/ exists k, 0 <= k <= n /\ r = inr (s32 k))
  | FChdir path => a' = a /\ (fails r a a' \/ r = inr 0)
  end.

Section spec.
Context {W : Type} `{World W}.
Implicit Types s : pst W.

Definition run_fcall (c : fcall) : M (pst W) (err Z) :=
  match c with
  | FOpen filename flags => sys_open filename flags
  | FRead fd buf n => sys_read fd buf n
  | FWrite fd buf n => sys_write fd buf n
  | FClose fd => sys_close fd
  | FLseek fd offset whence => sys_lseek fd offset whence
  | FDup2 oldfd newfd => sys_dup2 oldfd newfd
  | FGetcwd buf n => sys__getcwd buf n
  | FChdir path => sys_chdir path
  end.

(** The tables of a kernel state. *)
Definition ftables_of (s : pst W) : ftables := (ftab s, desc_of <$> fhs s).

(** The limits: argument types; an open file that is closed has one entry,
    one that is duplicated can count another; the buffer for the directory's
    name is not refused. *)
Definition permitted (c : fcall) (s : pst W) : Prop :=
  match c with
  | FOpen _ _ | FChdir _ => True
  | FRead _ _ n | FWrite _ _ n => 0 <= n < 2 ^ 32
  | FClose fd => forall p h, tproc s !! curt s = Some p -> ftab s !! (p, fd) = Some h -> refs (ftab s) h = 1
  | FLseek _ offset _ => - 2 ^ 63 <= offset < 2 ^ 63
  | FDup2 oldfd _ => forall p h, tproc s !! curt s = Some p -> ftab s !! (p, oldfd) = Some h -> refs (ftab s) h < 2 ^ 31 - 1
  | FGetcwd _ n => 0 <= n < 2 ^ 31 /\ wp (kmalloc n) (fun b _ => b <> 0) (pw s)
  end.

(** What no file system call changes: everything but the open files, their
    locks and blocks, the references to vnodes and the working directory. *)
Record fframe (s s' : pst W) : Prop := {
  ff_procs : set_p_cwd 0 <$> procs s' = set_p_cwd 0 <$> procs s;
  ff_rest : (tfs s', ptab s', kproc s', tproc s', tdata s') = (tfs s, ptab s, kproc s, tproc s, tdata s);
  ff_cv : (curt s', cv_queue s', cv_woken s') = (curt s, cv_queue s, cv_woken s);
  ff_view : (v_spaces (wv (pw s')), v_curas (wv (pw s')), v_threads (wv (pw s'))) = (v_spaces (wv (pw s)), v_curas (wv (pw s)), v_threads (wv (pw s)));
  ff_locks : forall l b, v_locks (wv (pw s)) !! l = Some b -> (forall h x, fhs s !! h = Some x -> fh_lock x <> l) -> v_locks (wv (pw s')) !! l = Some b;
  ff_live : forall b, b ∈ heap_live (pw s) -> fhs s !! b = None -> b ∈ heap_live (pw s');
  ff_fhs : forall h x, fhs s' !! h = Some x -> (h ∈ heap_live (pw s) -> is_Some (fhs s !! h)) /\
    (forall b, v_locks (wv (pw s)) !! fh_lock x = Some b -> exists k y, fhs s !! k = Some y /\ fh_lock y = fh_lock x);
}.

(** Process [p] runs. *)
Definition runs (p : Z) (s : pst W) : Prop := tproc s !! curt s = Some p /\ is_Some (procs s !! p).

(** ** The primitives *)

Lemma wp_world {A} (m : M W A) (Q : A -> pst W -> Prop) s : wp m (fun a w => Q a (set_pw w s)) (pw s) -> wp (world m) Q s.
Proof. apply wp_zoom. Qed.

Lemma wp_curproc p (Q : Z -> pst W -> Prop) s : tproc s !! curt s = Some p -> Q p s -> wp curproc Q s.
Proof. intros E HQ. unfold curproc. wp_steps. by rewrite E. Qed.

Lemma wp_proc_at p x (Q : proc -> pst W -> Prop) s : procs s !! p = Some x -> Q x s -> wp (proc_at p) Q s.
Proof. intros E HQ. unfold proc_at. wp_steps. by eapply wp_deref. Qed.

Lemma wp_proc_put p x y (Q : unit -> pst W -> Prop) s : procs s !! p = Some x -> Q tt (set_procs (<[p := y]> (procs s)) s) -> wp (proc_put p y) Q s.
Proof. intros E HQ. unfold proc_put. wp_step. eapply wp_proc_at; [done|]. by wp_step. Qed.

Lemma wp_fh_at h x (Q : file_handler -> pst W -> Prop) s : fhs s !! h = Some x -> Q x s -> wp (fh_at h) Q s.
Proof. intros E HQ. unfold fh_at. wp_steps. by eapply wp_deref. Qed.

Lemma wp_fh_put h x y (Q : unit -> pst W -> Prop) s : fhs s !! h = Some x -> Q tt (set_fhs (<[h := y]> (fhs s)) s) -> wp (fh_put h y) Q s.
Proof. intros E HQ. unfold fh_put. wp_step. eapply wp_fh_at; [done|]. by wp_step. Qed.

Lemma wp_ft_get p fd (Q : Z -> pst W -> Prop) s : is_Some (procs s !! p) -> 0 <= fd < OPEN_MAX -> Q (default 0 (ftab s !! (p, fd))) s -> wp (ft_get p fd) Q s.
Proof.
  intros [x E] Hfd HQ. unfold ft_get. wp_step. eapply wp_proc_at; [done|]. wp_steps. by replace ((0 <=? fd) && (fd <? OPEN_MAX)) with true by lia.
Qed.

Lemma wp_ft_set p fd h (Q : unit -> pst W -> Prop) s : is_Some (procs s !! p) -> 0 <= fd < OPEN_MAX ->
  Q tt (set_ftab (if h =? 0 then delete (p, fd) (ftab s) else <[(p, fd) := h]> (ftab s)) s) -> wp (ft_set p fd h) Q s.
Proof.
  intros [x E] Hfd HQ. unfold ft_set. wp_step. eapply wp_proc_at; [done|]. by replace ((0 <=? fd) && (fd <? OPEN_MAX)) with true by lia.
Qed.

Lemma wp_kmalloc n (Q : Z -> W -> Prop) w : wok w ->
  (forall w', wok w' -> wv w' = wv w -> heap_live w' = heap_live w -> Q 0 w') ->
  (forall b w', wok w' -> wv w' = wv w -> 0 < b -> b ∉ heap_live w -> heap_live w' = {[b]} ∪ heap_live w -> Q b w') -> wp (kmalloc n) Q w.
Proof.
  intros Hok Q0 Q1. wp_apply kmalloc_spec; [by apply w_heap_ok|]. intros b w' [Hs Hb]. assert (wok w').
  { apply w_heap_ok. eapply heap_side_ok; [|done]. by apply w_heap_ok. }
  pose proof (w_heap_view _ _ Hs). destruct Hb as [[-> ?]|(? & ? & ?)]; auto.
Qed.

Lemma wp_kfree b (Q : unit -> W -> Prop) w : wok w -> b <> 0 -> b ∈ heap_live w ->
  (forall w', wok w' -> wv w' = wv w -> heap_live w' = heap_live w ∖ {[b]} -> Q tt w') -> wp (kfree b) Q w.
Proof.
  intros Hok Hb HL HQ. wp_apply kfree_spec; [by apply w_heap_ok|done|done|]. intros [] w' [Hs EL].
  apply HQ; [|by apply w_heap_view|done]. apply w_heap_ok. eapply heap_side_ok; [|done]. by apply w_heap_ok.
Qed.

Lemma wp_free_fh h x (Q : unit -> pst W -> Prop) s : wok (pw s) -> fhs s !! h = Some x -> h <> 0 -> h ∈ heap_live (pw s) ->
  (forall w, wok w -> heap_live w = heap_live (pw s) ∖ {[h]} -> wv w = wv (pw s) -> Q tt (set_pw w (set_fhs (delete h (fhs s)) s))) ->
  wp (free_fh h) Q s.
Proof.
  intros Hok E Hh HL HQ. unfold free_fh. wp_step. eapply wp_fh_at; [done|]. wp_steps. apply wp_world. p_simpl.
  apply wp_kfree; [done|done|done|]. intros w ? ? ?. by apply HQ.
Qed.

(** What a descriptor names. *)
Lemma open_at_some s p fd h x : 0 <= fd < OPEN_MAX -> ftab s !! (p, fd) = Some h -> fhs s !! h = Some x -> open_at p fd (ftables_of s) = Some (h, desc_of x).
Proof.
  intros Hfd Hs Hx. unfold open_at, ftables_of. replace ((0 <=? fd) && (fd <? OPEN_MAX)) with true by lia. cbn [fst snd].
  rewrite Hs. cbn. by rewrite lookup_fmap, Hx.
Qed.

Lemma open_at_none s p fd : ftab s !! (p, fd) = None \/ ~ 0 <= fd < OPEN_MAX -> open_at p fd (ftables_of s) = None.
Proof. intros Hs. unfold open_at, ftables_of. destruct ((0 <=? fd) && (fd <? OPEN_MAX)) eqn:E; [|done]. cbn [fst snd]. destruct Hs as [->|Hs]; [done|]. boolify. lia. Qed.

Lemma wp_bad_fd p fd (Q : bool -> pst W -> Prop) s : finv s -> is_Some (procs s !! p) ->
  (open_at p fd (ftables_of s) = None -> Q true s) ->
  (forall h x, 0 <= fd < OPEN_MAX -> ftab s !! (p, fd) = Some h -> fhs s !! h = Some x -> 0 < h -> open_at p fd (ftables_of s) = Some (h, desc_of x) -> Q false s) ->
  wp (bad_fd p fd) Q s.
Proof.
  intros I Hp Q1 Q2. unfold bad_fd. wp_step; [wp_step; apply Q1, open_at_none; right; boolify; lia|]. boolify. wp_step. apply wp_ft_get; [done|lia|].
  wp_step. destruct (ftab s !! (p, fd)) as [h|] eqn:E; cbn; [|by apply Q1, open_at_none; left].
  destruct (fp_slot _ _ _ _ _ (fi_pure _ I) _ _ _ E) as (_ & _ & x & Hx). destruct (fp_slot_pos _ _ _ _ _ _ _ _ (fi_pure _ I) E) as [Hh _].
  replace (h =? 0) with false by lia. apply (Q2 h x); [lia|done|done|lia|]. apply open_at_some; [lia|done|done].
Qed.

(** A lock taken and given back. *)
Lemma v_lock_unlock {SP} l (v : wview SP) : v_locks v !! l = Some false ->
  v_set_locks (<[l := false]> (v_locks (v_set_locks (<[l := true]> (v_locks v)) v))) (v_set_locks (<[l := true]> (v_locks v)) v) = v.
Proof. intros E. destruct v as [L R S C T]. unfold v_set_locks. cbn in *. by rewrite insert_insert_eq, insert_id. Qed.
End spec.
