(* ===== verification/FilesCalls.v ===== *)
(** * Each file system call meets its specification *)

From S2P Require Import Prelude KHeap Array KWorld PState Files FilesSpec.

Section calls.
Context {W : Type} `{World W}.
Implicit Types s : pst W.

(** What is proved of each call. *)
Definition meets (p : Z) (c : fcall) (s : pst W) : Prop :=
  wp (run_fcall c) (fun r s' => finv s' /\ fframe s s' /\ fspec p c (ftables_of s) r (ftables_of s')) s.

Lemma cwds_lookup P p x : P !! p = Some x -> cwds P !! p = Some (p_cwd x).
Proof. intros E. unfold cwds. by rewrite lookup_fmap, E. Qed.

Lemma cwds_is_Some P p : is_Some (P !! p) -> is_Some (cwds P !! p).
Proof. intros [x E]. rewrite (cwds_lookup _ _ _ E). by eexists. Qed.

#[export] Instance fframe_preorder : PreOrder (@fframe W _ _).
Proof.
  split; [intros s; constructor; by eauto|]. intros s1 s2 s3 A B. constructor.
  - by rewrite (ff_procs _ _ B), (ff_procs _ _ A).
  - by rewrite (ff_rest _ _ B), (ff_rest _ _ A).
  - by rewrite (ff_cv _ _ B), (ff_cv _ _ A).
  - by rewrite (ff_view _ _ B), (ff_view _ _ A).
  - intros l b Hl Hn. apply (ff_locks _ _ B); [by apply (ff_locks _ _ A)|]. intros h x Hx E. subst l.
    destruct (ff_fhs _ _ A h x Hx) as [_ Hf]. destruct (Hf b Hl) as (k & y & Hy & E). by apply (Hn k y).
  - intros b Hb Hn. apply (ff_live _ _ B); [by apply (ff_live _ _ A)|]. destruct (fhs s2 !! b) as [x|] eqn:E; [|done].
    destruct (ff_fhs _ _ A b x E) as [Hf _]. destruct (Hf Hb). congruence.
  - intros h x Hx. destruct (ff_fhs _ _ B h x Hx) as [B1 B2]. split.
    + intros HL. destruct (fhs s1 !! h) as [y|] eqn:E; [by eexists|]. pose proof (ff_live _ _ A h HL E) as HL2. destruct (B1 HL2) as [y Hy].
      destruct (ff_fhs _ _ A h y Hy) as [A1 _]. rewrite <- E. auto.
    + intros b Hb. destruct (decide (map_Exists (fun _ y => fh_lock y = fh_lock x) (fhs s1))) as [(k & y & Hk)|Hn]; [by exists k, y|].
      assert (v_locks (wv (pw s2)) !! fh_lock x = Some b) as Hb2.
      { apply (ff_locks _ _ A); [done|]. intros k y Hy E. apply Hn. by exists k, y. }
      destruct (B2 b Hb2) as (k & y & Hy & E). destruct (ff_fhs _ _ A k y Hy) as [_ A2]. rewrite <- E. apply (A2 b). by rewrite E.
Qed.

(** States that differ in the world only. *)
Lemma fframe_world s w : heap_live (pw s) ⊆ heap_live w -> v_spaces (wv w) = v_spaces (wv (pw s)) -> v_curas (wv w) = v_curas (wv (pw s)) ->
  v_threads (wv w) = v_threads (wv (pw s)) -> v_locks (wv w) = v_locks (wv (pw s)) -> fframe s (set_pw w s).
Proof.
  intros HL Es Ec Et El. constructor; p_simpl; [done|done|done|by rewrite Es, Ec, Et|by rewrite El|by auto|by eauto].
Qed.

Lemma finv_world s w : finv s -> wok w -> heap_live (pw s) ⊆ heap_live w -> v_locks (wv w) = v_locks (wv (pw s)) ->
  (forall n, n <> 0 -> v_refs (wv (pw s)) n <= v_refs (wv w) n) -> finv (set_pw w s).
Proof. intros [I1 I2 I3] Hw HL El Er. split; [done|p_simpl; by eapply fpure_world|done]. Qed.

Lemma unchanged s r p c : finv s -> fspec p c (ftables_of s) r (ftables_of s) -> finv s /\ fframe s s /\ fspec p c (ftables_of s) r (ftables_of s).
Proof. intros I Hc. by split_and!. Qed.

(** The world as it was before, up to what the client cannot see. *)
Lemma same_world s w : finv s -> wok w -> heap_live w = heap_live (pw s) -> wv w = wv (pw s) ->
  finv (set_pw w s) /\ fframe s (set_pw w s) /\ ftables_of (set_pw w s) = ftables_of s.
Proof.
  intros I Hw HL Hv. split_and!; [|apply fframe_world; rewrite ?Hv; try done; by rewrite HL|done].
  apply finv_world; rewrite ?Hv; try done. by rewrite HL.
Qed.

(** A handler that got another offset, the world as before. *)
Lemma moved s w h x o : finv s -> fhs s !! h = Some x -> wok w -> heap_live w = heap_live (pw s) -> wv w = wv (pw s) ->
  finv (set_pw w (set_fhs (<[h := set_fh_offset o x]> (fhs s)) s)) /\ fframe s (set_pw w (set_fhs (<[h := set_fh_offset o x]> (fhs s)) s)) /\
  ftables_of (set_pw w (set_fhs (<[h := set_fh_offset o x]> (fhs s)) s)) = (ftab s, <[h := Fdesc (fh_vnode x) (fh_mode x) o]> (desc_of <$> fhs s)).
Proof.
  intros I Hx Hw HL Hv. split_and!.
  - split; [done| |apply I]. p_simpl. rewrite HL, Hv. apply fpure_offset; [apply I|done].
  - constructor; p_simpl; rewrite ?HL, ?Hv; try done. intros k y [[<- <-]|[_ Hk]]%lookup_insert_Some; by eauto.
  - unfold ftables_of. p_simpl. by rewrite fmap_insert.
Qed.

(** How the calls on a descriptor begin. *)
Lemma wp_with_fd p fd (k : Z -> Z -> file_handler -> M (pst W) (err Z)) (Q : err Z -> pst W -> Prop) s : finv s -> runs p s ->
  (open_at p fd (ftables_of s) = None -> Q (inl EBADF) s) ->
  (forall h x, 0 <= fd < OPEN_MAX -> ftab s !! (p, fd) = Some h -> fhs s !! h = Some x -> 0 < h -> open_at p fd (ftables_of s) = Some (h, desc_of x) -> wp (k p h x) Q s) ->
  wp (p <- curproc ;; bad <- bad_fd p fd ;; if bad then ret (inl EBADF) else fh <- ft_get p fd ;; x <- fh_at fh ;; k p fh x) Q s.
Proof.
  intros I [Ht Hp] Q1 Q2. wp_step. apply (wp_curproc p); [done|]. wp_step. apply wp_bad_fd; [done|done| |]; [intros E; wp_step; by apply Q1|].
  intros h x Hfd Hs Hx Hh Eo. cbv iota. wp_step. apply wp_ft_get; [done|done|]. rewrite Hs. cbn [default from_option id]. wp_step. apply (wp_fh_at h x); [done|]. by apply Q2.
Qed.

(** What reading and writing have in common, from the lock on. *)
Definition transfer (vop : Z -> uio -> M W (Z * uio)) (rw : uio_rw) (g : Z -> Z) (p fh buf n : Z) (x : file_handler) : M (pst W) (err Z) :=
  world (lock_acquire (fh_lock x)) ;;;
  x <- fh_at fh ;;
  pr <- proc_at p ;;
  let k := uio_kinit buf n (fh_offset x) rw in
  let kuio := Uio [Iovec buf n] (uio_offset k) (uio_resid k) UIO_USERSPACE (uio_dir k) (p_addrspace pr) in
  r <- world (vop (fh_vnode x) kuio) ;;
  let '(err, kuio) := r in
  if negb (err =? 0) then world (lock_release (fh_lock x)) ;;; ret (inl err) else
  let count := g (uio_offset kuio - fh_offset x) in
  fh_put fh (set_fh_offset (uio_offset kuio) x) ;;;
  world (lock_release (fh_lock x)) ;;;
  ret (inr count).

Lemma transfer_spec vop rw g p h buf n x s : finv s -> is_Some (procs s !! p) -> fhs s !! h = Some x -> 0 <= n < 2 ^ 32 ->
  (forall k, 0 <= k < 2 ^ 32 -> g k = s32 k) ->
  (forall v u w, wok w -> 0 < v_refs (wv w) v -> 0 <= uio_resid u -> wp (vop v u) (fun r w' => wok w' /\ heap_live w' = heap_live w /\ wv w' = wv w /\ (r.1 = 0 -> transferred u r.2)) w) ->
  wp (transfer vop rw g p h buf n x) (fun r s' => finv s' /\ fframe s s' /\
    (fails r (ftables_of s) (ftables_of s') \/ advances h (desc_of x) n r (ftables_of s) (ftables_of s'))) s.
Proof.
  intros I [pr Hp] Hx Hn Hg Hvop. destruct (fp_fh _ _ _ _ _ (fi_pure _ I) h x Hx) as (_ & HL & Hlk & _). pose proof (fp_ref _ _ _ _ _ _ _ (fi_pure _ I) Hx) as Hr.
  unfold transfer. wp_step. apply wp_world. wp_apply lock_acquire_law; [apply I|done|]. intros _ w1 (Hw1 & L1 & V1). wp_step. apply (wp_fh_at h x); [done|]. wp_step. apply (wp_proc_at p pr); [done|].
  cbv zeta. wp_step. apply wp_world. p_simpl.
  wp_apply Hvop; [done|by rewrite V1|cbn; lia|]. intros [e u] w2 (Hw2 & L2 & V2 & Hu). cbn [fst snd] in Hu. wp_step; boolify.
  - wp_step. apply wp_world. p_simpl. wp_apply lock_release_law; [done|rewrite V2, V1; apply lookup_insert_eq|]. intros _ w3 (Hw3 & L3 & V3).
    wp_step. destruct (same_world s w3) as (? & ? & E); [done|done|congruence| |].
    { rewrite V3, V2, V1. by apply v_lock_unlock. }
    split_and!; try done. left. split; [by eexists|]. exact E.
  - destruct (Hu Heqb) as [Hres Hoff]. cbn [uio_resid uio_offset uio_kinit] in *. wp_step. apply (wp_fh_put h x); [done|]. p_simpl. wp_step. apply wp_world. p_simpl.
    wp_apply lock_release_law; [done|rewrite V2, V1; apply lookup_insert_eq|]. intros _ w3 (Hw3 & L3 & V3). wp_step.
    destruct (moved s w3 h x (uio_offset u)) as (? & ? & E); [done|done|done|congruence| |].
    { rewrite V3, V2, V1. by apply v_lock_unlock. }
    split_and!; try done. right. exists (n - uio_resid u). cbn [desc_of ds_vnode ds_mode ds_offset]. rewrite <- Hoff. split_and!; [lia|lia| |exact E].
    f_equal. rewrite <- Hg by lia. f_equal. lia.
Qed.

Lemma read_meets p fd buf n s : finv s -> runs p s -> 0 <= n < 2 ^ 32 -> meets p (FRead fd buf n) s.
Proof.
  intros I Hp Hn. apply (wp_with_fd p); [done|done| |]; [intros E; apply unchanged; [done|]; cbn [fspec]; by rewrite E|].
  intros h x Hfd Hs Hx Hh Eo. cbn [fspec]. rewrite Eo. cbn [desc_of ds_mode]. destruct (decide (fh_mode x = O_WRONLY)) as [->|Hm].
  - cbn. by split_and!.
  - cbv beta. replace (fh_mode x =? O_WRONLY) with false by lia.
    change (wp (transfer vop_read UIO_READ (fun z => s32 (s64 z)) p h buf n x) (fun r s' => finv s' /\ fframe s s' /\ (fails r (ftables_of s) (ftables_of s') \/ advances h (desc_of x) n r (ftables_of s) (ftables_of s'))) s).
    apply transfer_spec; try done; try apply Hp; [|apply vop_read_law]. intros k Hk. f_equal. unfold s64. rewrite Z.mod_small; lia.
Qed.

Lemma write_meets p fd buf n s : finv s -> runs p s -> 0 <= n < 2 ^ 32 -> meets p (FWrite fd buf n) s.
Proof.
  intros I Hp Hn. apply (wp_with_fd p); [done|done| |]; [intros E; apply unchanged; [done|]; cbn [fspec]; by rewrite E|].
  intros h x Hfd Hs Hx Hh Eo. cbn [fspec]. rewrite Eo. cbn [desc_of ds_mode]. destruct (decide (fh_mode x = O_RDONLY)) as [->|Hm].
  - cbn. by split_and!.
  - cbv beta. replace (fh_mode x =? O_RDONLY) with false by lia.
    change (wp (transfer vop_write UIO_WRITE s32 p h buf n x) (fun r s' => finv s' /\ fframe s s' /\ (fails r (ftables_of s) (ftables_of s') \/ advances h (desc_of x) n r (ftables_of s) (ftables_of s'))) s).
    apply transfer_spec; try done; try apply Hp. apply vop_write_law.
Qed.

(** ** Seeking *)

Lemma seek_fail p fd offset whence s h x w e : finv s -> open_at p fd (ftables_of s) = Some (h, desc_of x) ->
  v_locks (wv (pw s)) !! fh_lock x = Some false -> e <> 0 -> wok w -> heap_live w = heap_live (pw s) ->
  wv w = v_set_locks (<[fh_lock x := true]> (v_locks (wv (pw s)))) (wv (pw s)) ->
  wp (world (lock_release (fh_lock x)) ;;; ret (inl e)) (fun r s' => finv s' /\ fframe s s' /\ fspec p (FLseek fd offset whence) (ftables_of s) r (ftables_of s')) (set_pw w s).
Proof.
  intros I Eo Hlk He Hw HL HV. wp_step. apply wp_world. p_simpl. wp_apply lock_release_law; [done|rewrite HV; apply lookup_insert_eq|]. intros _ w3 (Hw3 & L3 & V3).
  wp_step. destruct (same_world s w3) as (? & ? & E); [done|done|congruence| |].
  { rewrite V3, HV. by apply v_lock_unlock. }
  split_and!; [done|done|]. cbn [fspec]. rewrite Eo. left. split; [by eexists|]. exact E.
Qed.

(** The place [whence] and [offset] name. *)
Definition seek_to (x : file_handler) (offset whence : Z) (r : err Z) : Prop :=
  match r with
  | inl e => e <> 0
  | inr v => exists base, (whence = SEEK_SET /\ base = 0 \/ whence = SEEK_CUR /\ base = fh_offset x \/ whence = SEEK_END /\ 0 <= base < 2 ^ 63) /\
      0 <= s64 (base + offset) /\ v = s64 (base + offset)
  end.

Lemma lseek_meets p fd offset whence s : finv s -> runs p s -> - 2 ^ 63 <= offset < 2 ^ 63 -> meets p (FLseek fd offset whence) s.
Proof.
  intros I Hp Hoff. apply (wp_with_fd p); [done|done| |]; [intros E; apply unchanged; [done|]; cbn [fspec]; by rewrite E|].
  intros h x Hfd Hs Hx Hh Eo. cbv beta. destruct (fp_fh _ _ _ _ _ (fi_pure _ I) h x Hx) as (_ & HL & Hlk & _). pose proof (fp_ref _ _ _ _ _ _ _ (fi_pure _ I) Hx) as Hr.
  wp_step. apply wp_world. wp_apply lock_acquire_law; [apply I|done|]. intros _ w1 (Hw1 & L1 & V1).
  wp_step; [by apply (seek_fail p fd offset whence s h x w1 ESPIPE)|].
  wp_step. apply wp_world. p_simpl. wp_apply vop_isseekable_law; [done|by rewrite V1|]. intros seekable w2 (Hw2 & L2 & V2). p_simpl. rewrite V1 in V2. rewrite L1 in L2.
  wp_step; [by apply (seek_fail p fd offset whence s h x w2 ESPIPE)|]. clear Heqb Heqb0.
  wp_step. eapply (wp_mono _ (fun r s' => exists w, s' = set_pw w s /\ wok w /\ heap_live w = heap_live (pw s) /\
    wv w = v_set_locks (<[fh_lock x := true]> (v_locks (wv (pw s)))) (wv (pw s)) /\ seek_to x offset whence r)).
  - change (Pst w2 _ _ _ _ _ _ _ _ _ _ _) with (set_pw w2 s). wp_step; boolify; [wp_step; wp_step; exists w2; split_and!; try done; boolify|wp_step; boolify].
    + exists 0. rewrite Z.add_0_l, s64_id by lia. split_and!; [by left|lia|done].
    + wp_step; wp_step; exists w2; split_and!; try done; boolify. exists (fh_offset x). split_and!; [by right; left|lia|done].
    + wp_step; boolify; [|wp_step; by exists w2]. wp_step. apply wp_world. p_simpl. wp_apply vop_stat_law; [done|by rewrite V2|]. intros [e|n] w3 (Hw3 & L3 & V3 & Hn); p_simpl.
      * wp_step. exists w3. split_and!; try done; congruence.
      * wp_step; wp_step; exists w3; split_and!; try done; try congruence. boolify. exists n. split_and!; [by right; right|lia|done].
  - intros r s' (w & -> & Hw & Lw & Vw & Hto). destruct r as [e|v]; [by apply (seek_fail p fd offset whence s h x w e)|].
    destruct Hto as (base & Hb & Hpos & ->). wp_step. apply (wp_fh_put h x); [done|]. wp_step. apply wp_world. p_simpl.
    wp_apply lock_release_law; [done|rewrite Vw; apply lookup_insert_eq|]. intros _ w4 (Hw4 & L4 & V4). wp_step.
    destruct (moved s w4 h x (s64 (base + offset))) as (? & ? & E); [done|done|done|congruence| |].
    { rewrite V4, Vw. by apply v_lock_unlock. }
    split_and!; [done|done|]. cbn [fspec]. rewrite Eo. right. exists base. split_and!; [done|lia|done|exact E].
Qed.

(** ** Closing *)

(** The last entry of an open file goes, and the open file with it. *)
Lemma fpure_last L v P T F p fd h x : fpure L v P T F -> T !! (p, fd) = Some h -> F !! h = Some x -> d_count x = 1 ->
  fpure (L ∖ {[h]}) (v_ref (fh_vnode x) (-1) (v_set_locks (delete (fh_lock x) (v_locks v)) v)) P (delete (p, fd) T) (delete h F).
Proof.
  intros I Hs Hx Hd. pose proof (fpure_undup _ _ _ _ _ _ _ _ _ I Hs Hx) as I'. apply (fpure_free _ _ _ _ _ h (set_d_count (d_count x - 1) x)) in I'; [|apply lookup_insert_eq|p_simpl; lia].
  by rewrite delete_insert_eq in I'.
Qed.

Lemma fframe_freed s w T h x : fhs s !! h = Some x -> heap_live w = heap_live (pw s) ∖ {[h]} ->
  wv w = v_ref (fh_vnode x) (-1) (v_set_locks (delete (fh_lock x) (v_locks (wv (pw s)))) (wv (pw s))) ->
  fframe s (set_ftab T (set_pw w (set_fhs (delete h (fhs s)) s))).
Proof.
  intros Hx EL EV. constructor; p_simpl; rewrite ?EL, ?EV; cbn [v_ref v_set_vrefs v_set_locks v_locks v_spaces v_curas v_threads]; try done.
  - intros l b Hl Hn. rewrite lookup_delete_ne; [done|]. by apply (Hn h x).
  - intros b Hb Hn. apply elem_of_difference. split; [done|]. intros ->%elem_of_singleton. congruence.
  - intros k y [_ Hk]%lookup_delete_Some. split; by eauto.
Qed.

Lemma v_lock_delete {SP} l (v : wview SP) : v_locks v !! l = Some false -> forall v', v' = v_set_locks (delete l (v_locks v)) v ->
  v_set_locks (delete l (v_locks (v_set_locks (<[l := true]> (v_locks v)) v))) (v_set_locks (<[l := true]> (v_locks v)) v) = v'.
Proof. intros E v' ->. destruct v as [A B C D G]. unfold v_set_locks. cbn in *. by rewrite delete_insert_eq. Qed.

Lemma close_meets p fd s : finv s -> runs p s -> permitted (FClose fd) s -> meets p (FClose fd) s.
Proof.
  intros I Hp Hone. apply (wp_with_fd p); [done|done| |]; [intros E; apply unchanged; [done|]; cbn [fspec]; by rewrite E|].
  intros h x Hfd Hs Hx Hh Eo. cbv beta zeta. destruct (fp_fh _ _ _ _ _ (fi_pure _ I) h x Hx) as (_ & HL & Hlk & Hd & _). pose proof (fp_ref _ _ _ _ _ _ _ (fi_pure _ I) Hx) as Hr.
  cbn [permitted] in Hone. rewrite (Hone p h) in Hd; [|apply Hp|done]. rewrite Hd. change (s32 (1 - 1)) with 0. cbn [Z.ltb Z.compare].
  wp_step. apply wp_world. wp_apply lock_acquire_law; [apply I|done|]. intros _ w1 (Hw1 & L1 & V1).
  wp_step. apply (wp_fh_put h x); [done|]. p_simpl. wp_step. apply wp_world. p_simpl. wp_apply lock_release_law; [done|rewrite V1; apply lookup_insert_eq|]. intros _ w2 (Hw2 & L2 & V2).
  p_simpl. rewrite V1, v_lock_unlock in V2 by done. wp_step. apply wp_world. p_simpl. wp_apply lock_destroy_law; [done|by rewrite V2|]. intros _ w3 (Hw3 & L3 & V3).
  p_simpl. wp_step. apply wp_world. p_simpl. wp_apply vfs_close_law; [done|by rewrite V3, V2|]. intros _ w4 (Hw4 & L4 & V4). p_simpl.
  wp_step. eapply wp_free_fh; [done|apply lookup_insert_eq|lia|p_simpl; by rewrite L4, L3, L2, L1|]. intros w5 Hw5 L5 V5. p_simpl.
  wp_step. apply wp_ft_set; [by apply Hp|done|]. wp_step. p_simpl. change (0 =? 0) with true. cbv iota. rewrite delete_insert_eq.
  rewrite V4, V3, V2 in V5. rewrite L4, L3, L2, L1 in L5. split_and!.
  - split; [done| |apply I]. p_simpl. rewrite L5, V5. by apply fpure_last; [apply I|..].
  - by apply (fframe_freed s w5 _ h x).
  - cbn [fspec]. rewrite Eo. split; [done|]. unfold drop_fd, ftables_of. p_simpl. cbn [fst snd]. rewrite decide_True; [by rewrite fmap_delete|].
    unfold refs in *. rewrite (count_delete _ _ _ _ _ Hs), decide_True by done. rewrite (Hone p h) by (apply Hp || done). done.
Qed.

(** ** Duplicating *)

(** The entry [newfd] had is dropped, but for the table itself. *)
Lemma dup2_close_spec p newfd s : finv s -> wp (dup2_close (default 0 (ftab s !! (p, newfd)))) (fun _ s' => exists w F, s' = set_pw w (set_fhs F s) /\ wok w /\
    fpure (heap_live w) (wv w) (cwds (procs s)) (delete (p, newfd) (ftab s)) F /\ fframe s s' /\
    desc_of <$> F = (match ftab s !! (p, newfd) with Some h => drop_fd p newfd h (ftables_of s) | None => ftables_of s end).2) s.
Proof.
  intros I. unfold dup2_close. destruct (ftab s !! (p, newfd)) as [h|] eqn:Hs; cbn [default from_option id].
  2:{ change (0 =? 0) with true. cbv iota. wp_step. exists (pw s), (fhs s). rewrite delete_id by done. split_and!; [by destruct s|apply I|apply I|by destruct s|done]. }
  destruct (fp_slot _ _ _ _ _ (fi_pure _ I) _ _ _ Hs) as (_ & _ & x & Hx). destruct (fp_fh _ _ _ _ _ (fi_pure _ I) h x Hx) as (Hh & HL & Hlk & Hd & Hlt & _).
  pose proof (fp_ref _ _ _ _ _ _ _ (fi_pure _ I) Hx) as Hr. destruct (fp_slot_pos _ _ _ _ _ _ _ _ (fi_pure _ I) Hs) as [_ Hpos].
  assert (refs (delete (p, newfd) (ftab s)) h = d_count x - 1) as Hrest.
  { unfold refs in *. rewrite (count_delete _ _ _ _ _ Hs), decide_True by done. lia. }
  replace (h =? 0) with false by lia. wp_step. apply (wp_fh_at h x); [done|]. wp_step. apply wp_world. wp_apply lock_acquire_law; [apply I|done|]. intros _ w1 (Hw1 & L1 & V1).
  cbv zeta. wp_step. apply (wp_fh_put h x); [done|]. rewrite s32_id by lia. wp_step; boolify.
  - wp_step. apply wp_world. p_simpl. wp_apply lock_destroy_law; [done|rewrite V1; apply lookup_insert_eq|]. intros _ w3 (Hw3 & L3 & V3). p_simpl.
    rewrite V1, (v_lock_delete _ (wv (pw s)) Hlk _ eq_refl) in V3. wp_step. apply wp_world. p_simpl. wp_apply vfs_close_law; [done|by rewrite V3|]. intros _ w4 (Hw4 & L4 & V4). p_simpl.
    eapply wp_free_fh; [done|apply lookup_insert_eq|lia|p_simpl; by rewrite L4, L3, L1|]. intros w5 Hw5 L5 V5. p_simpl. rewrite delete_insert_eq.
    rewrite V4, V3 in V5. rewrite L4, L3, L1 in L5. exists w5, (delete h (fhs s)). split_and!; [done|done| | |].
    + rewrite L5, V5. apply fpure_last; [apply I|done|done|lia].
    + by apply (fframe_freed s w5 (ftab s) h x).
    + unfold drop_fd, ftables_of. cbn [fst snd]. rewrite decide_True by lia. by rewrite fmap_delete.
  - apply wp_world. p_simpl. wp_apply lock_release_law; [done|rewrite V1; apply lookup_insert_eq|]. intros _ w2 (Hw2 & L2 & V2).
    rewrite V1, v_lock_unlock in V2 by done. rewrite L1 in L2. exists w2, (<[h := set_d_count (d_count x - 1) x]> (fhs s)). split_and!; [done|done| | |].
    + rewrite L2, V2. apply fpure_undup; [apply I|done|done].
    + constructor; p_simpl; rewrite ?L2, ?V2; try done. intros k y [[<- <-]|[_ Hk]]%lookup_insert_Some; by eauto.
    + unfold drop_fd, ftables_of. cbn [fst snd]. rewrite decide_False by lia. rewrite fmap_insert. apply insert_id. by rewrite lookup_fmap, Hx.
Qed.

Lemma dup2_meets p oldfd newfd s : finv s -> runs p s -> permitted (FDup2 oldfd newfd) s -> meets p (FDup2 oldfd newfd) s.
Proof.
  intros I [Ht Hp] Hlt. unfold meets. cbn [run_fcall]. unfold sys_dup2. wp_step. apply (wp_curproc p); [done|]. wp_step; boolify.
  { wp_step. apply unchanged; [done|]. cbn [fspec]. destruct (open_at p oldfd _) as [[h d]|] eqn:E; [|done]. rewrite decide_False; [done|].
    intros Hn. unfold open_at in E. destruct ((0 <=? oldfd) && (oldfd <? OPEN_MAX)) eqn:E'; [|done]. boolify. destruct Heqb as [Hb|Hb]; boolify; [destruct Hb as [Hb|Hb]; boolify; [destruct Hb as [Hb|Hb]; boolify; lia|lia]|lia]. }
  wp_step. apply wp_ft_get; [done|lia|]. destruct (ftab s !! (p, oldfd)) as [h|] eqn:Hs; cbn [default from_option id].
  2:{ cbn. split_and!; [done..|]. rewrite open_at_none; [done|by left]. }
  destruct (fp_slot _ _ _ _ _ (fi_pure _ I) _ _ _ Hs) as (_ & _ & x & Hx). destruct (fp_fh _ _ _ _ _ (fi_pure _ I) h x Hx) as (Hh & HL & Hlk & Hd & Hlt' & _).
  replace (h =? 0) with false by lia. assert (open_at p oldfd (ftables_of s) = Some (h, desc_of x)) as Eo by (apply open_at_some; [lia|done|done]).
  wp_step; boolify.
  { wp_step. apply unchanged; [done|]. cbn [fspec]. rewrite Eo, decide_True by lia. by rewrite decide_True. }
  wp_step. apply wp_ft_get; [done|lia|]. rewrite Hs. cbn [default from_option id]. wp_step. apply wp_ft_get; [done|lia|]. wp_step. eapply wp_mono; [by apply dup2_close_spec|]. cbv beta.
  intros _ s1 (w & F & -> & Hw & IF & Fr & ED). assert (delete (p, newfd) (ftab s) !! (p, oldfd) = Some h) as Hs' by (rewrite lookup_delete_ne; [done|congruence]).
  destruct (fp_slot _ _ _ _ _ IF _ _ _ Hs') as (_ & _ & x' & Hx'). destruct (fp_fh _ _ _ _ _ IF h x' Hx') as (_ & HL1 & Hlk' & Hd' & _).
  wp_step. apply (wp_fh_at h x'); [done|]. wp_step. apply wp_world. p_simpl. wp_apply lock_acquire_law; [done|done|]. intros _ w1 (Hw1 & L1 & V1). p_simpl.
  wp_step. apply wp_ft_set; [done|lia|]. p_simpl. replace (h =? 0) with false by lia. cbv iota. wp_step. apply (wp_fh_put h x'); [done|]. p_simpl.
  wp_step. apply wp_world. p_simpl. wp_apply lock_release_law; [done|rewrite V1; apply lookup_insert_eq|]. intros _ w2 (Hw2 & L2 & V2). wp_step. p_simpl.
  rewrite V1, v_lock_unlock in V2 by done. rewrite L1 in L2.
  assert (refs (delete (p, newfd) (ftab s)) h < 2 ^ 31 - 1) as Hlt2.
  { pose proof (Hlt p h Ht Hs) as Hl. destruct (ftab s !! (p, newfd)) as [h'|] eqn:E; [|by rewrite delete_id].
    unfold refs in *. rewrite (count_delete _ _ _ _ _ E). destruct (decide _); lia. }
  pose proof (count_nonneg id h (delete (p, newfd) (ftab s))) as Hnn.
  rewrite s32_id by (unfold refs in *; lia). split_and!.
  - split; [done| |apply I]. p_simpl. rewrite L2, V2. rewrite <- (insert_delete_eq (ftab s)). apply fpure_dup; [done|by apply cwds_is_Some|lia|apply lookup_delete_eq|done|done].
  - etransitivity; [exact Fr|]. constructor; p_simpl; rewrite ?L2, ?V2; try done. intros k y [[<- <-]|[_ Hk]]%lookup_insert_Some; by eauto.
  - cbn [fspec]. rewrite Eo, decide_True, decide_False by lia. split; [done|]. change (ftables_of s).1 with (ftab s). unfold ftables_of at 1. p_simpl. f_equal.
    + destruct (ftab s !! (p, newfd)); [|done]. cbn [drop_fd fst ftables_of]. by rewrite insert_delete_eq.
    + etransitivity; [|exact ED]. rewrite fmap_insert. apply insert_id. by rewrite lookup_fmap, Hx'.
Qed.

(** ** Opening *)

Lemma find_slot_spec p s : finv s -> is_Some (procs s !! p) -> wp (find_slot p) (fun i s' => s' = s /\ (i = OPEN_MAX \/ lowest_free p i (ftables_of s))) s.
Proof.
  intros I Hp. unfold find_slot. wp_step. eapply (wp_for _ _ _ (fun j s' => s' = s /\ forall k, 3 <= k < j -> is_Some (ftab s !! (p, k)))); [split; [done|]; intros; lia| |].
  - intros i s' Hi [-> Hk]. change (3 + Z.of_nat (Z.to_nat (OPEN_MAX - 3))) with OPEN_MAX in Hi. wp_step. apply wp_ft_get; [done|lia|].
    destruct (ftab s !! (p, i)) as [h|] eqn:E; cbn [default from_option id].
    + destruct (fp_slot_pos _ _ _ _ _ _ _ _ (fi_pure _ I) E) as [Hh _]. replace (h =? 0) with false by lia. wp_step. split; [done|]. intros k Hk'.
      destruct (decide (k = i)) as [->|]; [by rewrite E|]. apply Hk. lia.
    + change (0 =? 0) with true. cbv iota. wp_step. wp_step. cbn [default from_option id]. split; [done|]. right. by split_and!; [lia|lia| |].
  - intros s' [-> _]. wp_step. by split; [|left].
Qed.

(** A call that gives up, the world as it was but for vnode references. *)
Lemma gave_up s w e : finv s -> e <> 0 -> wok w -> heap_live w = heap_live (pw s) -> v_locks (wv w) = v_locks (wv (pw s)) ->
  (v_spaces (wv w), v_curas (wv w), v_threads (wv w)) = (v_spaces (wv (pw s)), v_curas (wv (pw s)), v_threads (wv (pw s))) ->
  (forall n, v_refs (wv (pw s)) n <= v_refs (wv w) n) ->
  finv (set_pw w s) /\ fframe s (set_pw w s) /\ fails (inl e) (ftables_of s) (ftables_of (set_pw w s)).
Proof.
  intros I He Hw EL El [= Es Ec Et] Er. split_and!; [apply finv_world; auto; by rewrite EL|apply fframe_world; auto; by rewrite EL|]. split; [by eexists|done].
Qed.

Lemma v_ref_back n (v : wview space_t) m : v_refs v m <= v_refs (v_ref n (-1) (v_ref n 1 v)) m.
Proof. rewrite !v_ref_refs. destruct (decide _); lia. Qed.

(** The new handler in its entry. *)
Lemma opened s w p i h n mode o l : finv s -> is_Some (procs s !! p) -> lowest_free p i (ftables_of s) -> 0 < h -> h ∉ heap_live (pw s) -> n <> 0 ->
  v_locks (wv (pw s)) !! l = None -> wok w -> heap_live w = {[h]} ∪ heap_live (pw s) ->
  wv w = v_set_locks (<[l := false]> (v_locks (wv (pw s)))) (v_ref n 1 (wv (pw s))) ->
  let s' := set_ftab (<[(p, i) := h]> (ftab s)) (set_fhs (<[h := FileHandler n 1 mode o false l]> (fhs s)) (set_pw w s)) in
  finv s' /\ fframe s s' /\ fhs s !! h = None /\ ftables_of s' = (<[(p, i) := h]> (ftab s), <[h := Fdesc n mode o]> (desc_of <$> fhs s)).
Proof.
  intros I Hp (Hi & Hs & _) Hh HL Hn Hl Hw EL EV s'. assert (fhs s !! h = None) as HF.
  { destruct (fhs s !! h) as [x|] eqn:E; [|done]. by destruct (fp_fh _ _ _ _ _ (fi_pure _ I) h x E) as (_ & ? & _). }
  split_and!; [| |done|].
  - split; [done| |apply I]. subst s'. p_simpl. rewrite EL, EV. apply fpure_open; try done; [apply I|by apply cwds_is_Some|lia].
  - subst s'. constructor; p_simpl; rewrite ?EL, ?EV; cbn [v_set_locks v_ref v_set_vrefs v_locks]; try done.
    + intros l' b Hl' _. rewrite lookup_insert_ne; [done|congruence].
    + set_solver.
    + intros k y [[<- <-]|[_ Hk]]%lookup_insert_Some; [|by eauto]. p_simpl. split; [done|congruence].
  - subst s'. unfold ftables_of. p_simpl. by rewrite fmap_insert.
Qed.

Lemma refs_nonneg s n : finv s -> n <> 0 -> 0 <= v_refs (wv (pw s)) n.
Proof.
  intros I Hn. pose proof (fp_vnode _ _ _ _ _ (fi_pure _ I) n Hn) as Hv. unfold vneed in Hv. pose proof (count_nonneg fh_vnode n (fhs s)). pose proof (count_nonneg id n (cwds (procs s))). lia.
Qed.

(** The way back once the file is open. *)
Lemma open_undo s w n h e : finv s -> n <> 0 -> h <> 0 -> h ∉ heap_live (pw s) -> e <> 0 -> wok w -> heap_live w = {[h]} ∪ heap_live (pw s) -> wv w = v_ref n 1 (wv (pw s)) ->
  wp (world (vfs_close n) ;;; world (kfree h) ;;; ret (inl e))
     (fun r s' => finv s' /\ fframe s s' /\ fails r (ftables_of s) (ftables_of s')) (set_pw w s).
Proof.
  intros I Hn Hh HL He Hw Lw Vw. wp_step. apply wp_world. p_simpl. wp_apply vfs_close_law; [done| |].
  { rewrite Vw, v_ref_refs, decide_True by done. pose proof (refs_nonneg s n I Hn). lia. }
  intros _ w3 (Hw3 & L3 & V3). p_simpl. wp_step. apply wp_world. p_simpl. apply wp_kfree; [done|done|rewrite L3, Lw; set_solver|]. intros w4 Hw4 V4 L4. wp_step. p_simpl.
  apply (gave_up s w4 e); rewrite ?V4, ?V3, ?Vw; auto; [by rewrite L4, L3, Lw, live_alloc_free|]. intros m. apply v_ref_back.
Qed.

Lemma open_file_spec p i name flags s : finv s -> is_Some (procs s !! p) -> lowest_free p i (ftables_of s) ->
  wp (open_file p i name flags) (fun r s' => finv s' /\ fframe s s' /\ fspec p (FOpen 0 flags) (ftables_of s) r (ftables_of s')) s.
Proof.
  intros I Hp Hi. cbn [fspec]. unfold open_file. wp_step. apply wp_world. apply wp_kmalloc; [apply I| |].
  { intros w Hw Vw Lw. change (0 =? 0) with true. cbv iota. wp_step. destruct (gave_up s w ENOMEM) as (? & ? & ?); rewrite ?Vw; auto; done. }
  intros h w1 Hw1 V1 Hh HL L1. replace (h =? 0) with false by lia. wp_step. apply wp_world. p_simpl. wp_apply vfs_open_law; [done|]. intros r w2 (Hw2 & L2 & V2). p_simpl.
  rewrite L1 in L2. rewrite V1 in V2. destruct r as [e|n].
  { destruct V2 as [He V2]. wp_step. apply wp_world. p_simpl. apply wp_kfree; [done|lia|rewrite L2; set_solver|]. intros w3 Hw3 V3 L3. wp_step. p_simpl.
    destruct (gave_up s w3 e) as (? & ? & ?); rewrite ?V3, ?V2; auto; try done. by rewrite L3, L2, live_alloc_free. }
  destruct V2 as [Hn V2].
  wp_step. eapply (wp_mono _ (fun r s' => exists w, s' = set_pw w s /\ wok w /\ heap_live w = heap_live w2 /\ wv w = wv w2 /\
    match r with inl e => e <> 0 | inr o => Z.land flags O_APPEND = 0 -> o = 0 end)).
  { wp_step; boolify; [|wp_step; by exists w2]. apply wp_world. p_simpl. wp_apply vop_stat_law; [done| |].
    { rewrite V2, v_ref_refs, decide_True by done. pose proof (refs_nonneg s n I Hn). lia. }
    intros [e|o] w3 (Hw3 & L3 & V3 & Ho); p_simpl; exists w3; by split_and!. }
  intros r s' (w3 & -> & Hw3 & L3 & V3 & Ho). rewrite V2 in V3. rewrite L2 in L3.
  destruct r as [e|o]; [eapply wp_mono; [apply open_undo; try done; lia|]; cbv beta; naive_solver|].
  wp_step. apply wp_world. p_simpl. wp_apply lock_create_law; [done|]. intros l w4 (Hw4 & L4 & Hl). p_simpl. destruct Hl as [[-> V4]|(Hl & Hfresh & V4)].
  { change (0 =? 0) with true. cbv iota. eapply wp_mono; [apply (open_undo s w4 n h ENOMEM); try done; [lia|congruence|congruence]|]. cbv beta. naive_solver. }
  replace (l =? 0) with false by lia. wp_step. wp_step. p_simpl. wp_step. apply wp_ft_set; [done|destruct Hi; lia|]. p_simpl. replace (h =? 0) with false by lia. cbv iota. wp_step.
  rewrite V3 in Hfresh, V4. destruct (opened s w4 p i h n (Z.land flags O_ACCMODE) o l) as (? & ? & HF & E); try done; [by rewrite L4, L3|].
  split_and!; [done|done|]. right. exists i, h, n, o. split_and!; try done; [|lia]. unfold ftables_of. cbn [snd]. by rewrite lookup_fmap, HF.
Qed.

Lemma open_meets p filename flags s : finv s -> runs p s -> meets p (FOpen filename flags) s.
Proof.
  intros I [Ht Hp]. unfold meets. cbn [run_fcall]. unfold sys_open. wp_step. apply wp_world. wp_apply copyinstr_law; [apply I|]. intros r w1 (Hw1 & L1 & V1 & Hr).
  destruct (same_world s w1) as (I1 & F1 & E1); [done|done|done|done|].
  destruct r as [e|name]; [wp_step; split_and!; [done|done|]; left; split; [by eexists|done]|].
  wp_step. apply (wp_curproc p); [done|]. wp_step. eapply wp_mono; [by apply find_slot_spec|]. cbv beta. intros i s1 [-> Hi]. wp_step; boolify.
  { wp_step. split_and!; [done|done|]. left. by split; [eexists|]. }
  destruct Hi as [|Hi]; [done|]. eapply wp_mono; [by apply open_file_spec|]. cbv beta. intros r s' (? & ? & ?). split_and!; [done|by etransitivity|done].
Qed.

(** ** The current directory *)

Lemma wp_p_lock_acquire p x (Q : unit -> pst W -> Prop) s : procs s !! p = Some x -> p_lock x = false ->
  Q tt (set_procs (<[p := set_p_lock true x]> (procs s)) s) -> wp (p_lock_acquire p) Q s.
Proof. intros Hx Hl HQ. unfold p_lock_acquire. wp_step. apply (wp_proc_at p x); [done|]. wp_step. apply wp_kassert; [by rewrite Hl|]. by apply (wp_proc_put p x). Qed.

Lemma wp_p_lock_release p x (Q : unit -> pst W -> Prop) s : procs s !! p = Some x -> p_lock x = true ->
  Q tt (set_procs (<[p := set_p_lock false x]> (procs s)) s) -> wp (p_lock_release p) Q s.
Proof. intros Hx Hl HQ. unfold p_lock_release. wp_step. apply (wp_proc_at p x); [done|]. wp_step. apply wp_kassert; [by rewrite Hl|]. by apply (wp_proc_put p x). Qed.

Lemma unlock_lock x : p_lock x = false -> set_p_lock false (set_p_lock true x) = x.
Proof. by destruct x; cbn; intros ->. Qed.

(** The references a process holds through its working directory. *)
Lemma cwd_ref s p x : finv s -> procs s !! p = Some x -> p_cwd x <> 0 -> 0 < v_refs (wv (pw s)) (p_cwd x).
Proof.
  intros I Hx Hn. pose proof (fp_vnode _ _ _ _ _ (fi_pure _ I) _ Hn) as Hv. unfold vneed in Hv.
  pose proof (count_pos id (p_cwd x) (cwds (procs s)) p (p_cwd x) (cwds_lookup _ _ _ Hx) eq_refl). pose proof (count_nonneg fh_vnode (p_cwd x) (fhs s)). lia.
Qed.

Lemma fframe_cwd s w p x n : procs s !! p = Some x -> heap_live w = heap_live (pw s) -> (v_locks (wv w), v_spaces (wv w), v_curas (wv w), v_threads (wv w)) =
  (v_locks (wv (pw s)), v_spaces (wv (pw s)), v_curas (wv (pw s)), v_threads (wv (pw s))) -> fframe s (set_pw w (set_procs (<[p := set_p_cwd n x]> (procs s)) s)).
Proof.
  intros Hx EL [= E1 E2 E3 E4]. constructor; p_simpl; rewrite ?EL, ?E1, ?E2, ?E3, ?E4; try done; [|by eauto].
  rewrite fmap_insert. apply insert_id. by rewrite lookup_fmap, Hx.
Qed.

(** [p_cwd] goes from [x]'s to [dir], with the references. *)
Definition cwd_moved (dir : Z) (x : proc) (v : wview space_t) : wview space_t :=
  if p_cwd x =? 0 then v_ref dir 1 v else v_ref (p_cwd x) (-1) (v_ref dir 1 v).

Lemma cwd_moved_refs dir x v m : m <> 0 -> v_refs (cwd_moved dir x v) m = v_refs v m + (if decide (m = dir) then 1 else 0) - if decide (m = p_cwd x) then 1 else 0.
Proof. intros Hm. unfold cwd_moved. destruct (p_cwd x =? 0) eqn:E; boolify; rewrite !v_ref_refs; repeat destruct (decide _); lia. Qed.

Lemma cwd_moved_rest dir x v : (v_locks (cwd_moved dir x v), v_spaces (cwd_moved dir x v), v_curas (cwd_moved dir x v), v_threads (cwd_moved dir x v)) = (v_locks v, v_spaces v, v_curas v, v_threads v).
Proof. unfold cwd_moved. by destruct (p_cwd x =? 0). Qed.

Lemma vfs_setcurdir_spec p x dir s : finv s -> tproc s !! curt s = Some p -> procs s !! p = Some x -> 0 < v_refs (wv (pw s)) dir ->
  wp (vfs_setcurdir dir) (fun r s' => exists w, wok w /\ heap_live w = heap_live (pw s) /\
    ((r <> 0 /\ s' = set_pw w s /\ wv w = wv (pw s)) \/
     (r = 0 /\ s' = set_pw w (set_procs (<[p := set_p_cwd dir x]> (procs s)) s) /\ wv w = cwd_moved dir x (wv (pw s))))) s.
Proof.
  intros I Ht Hx Hr. unfold vfs_setcurdir. wp_step. apply (wp_curproc p); [done|]. wp_step. apply wp_world. wp_apply vop_gettype_law; [apply I|done|].
  intros [e|ty] w1 (Hw1 & L1 & V1 & He); p_simpl; [wp_step; exists w1; split_and!; auto|]. wp_step; boolify; [wp_step; exists w1; split_and!; auto; by left|].
  pose proof (fi_plock _ I p x Hx) as Hl. wp_step. apply wp_world. p_simpl. wp_apply vop_incref_law; [done|by rewrite V1|]. intros _ w2 (Hw2 & L2 & V2). p_simpl.
  wp_step. apply (wp_p_lock_acquire p x); [done|done|]. wp_step. apply (wp_proc_at p (set_p_lock true x)); [apply lookup_insert_eq|]. cbv zeta.
  wp_step. eapply wp_proc_put; [apply lookup_insert_eq|]. p_simpl. wp_step. eapply (wp_p_lock_release p); [apply lookup_insert_eq|done|]. p_simpl.
  replace (set_p_lock false _) with (set_p_cwd dir x) by (destruct x; cbn in *; by rewrite Hl). rewrite !insert_insert_eq. rewrite V1 in V2. rewrite L1 in L2. wp_step. wp_step; boolify.
  - apply wp_world. p_simpl. wp_apply vop_decref_law; [done| |].
    { rewrite V2, v_ref_refs. pose proof (cwd_ref s p x I Hx Heqb0). destruct (decide _); lia. }
    intros _ w3 (Hw3 & L3 & V3). wp_step. p_simpl. exists w3. split_and!; [done|congruence|]. right. split_and!; [done|done|]. rewrite V3, V2. unfold cwd_moved. by replace (p_cwd x =? 0) with false by lia.
  - wp_step. wp_step. exists w2. split_and!; [done|done|]. right. split_and!; [done|done|]. unfold cwd_moved. by replace (p_cwd x =? 0) with true by lia.
Qed.

Lemma chdir_meets p path s : finv s -> runs p s -> meets p (FChdir path) s.
Proof.
  intros I [Ht [x Hx]]. unfold meets. cbn [run_fcall fspec]. unfold sys_chdir. wp_step. apply wp_world. wp_apply copyinstr_law; [apply I|]. intros r w1 (Hw1 & L1 & V1 & Hr).
  destruct (same_world s w1) as (I1 & F1 & E1); [done|done|done|done|]. destruct r as [e|name]; [wp_step; split_and!; try done; left; by split; [eexists|]|].
  wp_step. unfold vfs_chdir. wp_step. apply wp_world. p_simpl. wp_apply vfs_lookup_law; [done|]. intros r w2 (Hw2 & L2 & V2). p_simpl. rewrite L1 in L2. destruct r as [e|vn].
  { destruct V2 as [He V2]. destruct (same_world s w2) as (? & ? & E2); [done|done|done|congruence|]. wp_step. replace (negb (e =? 0)) with true by lia. wp_step. split_and!; try done. left. by split; [eexists|]. }
  destruct V2 as [Hn V2]. rewrite V1 in V2. assert (finv (set_pw w2 s)) as I2.
  { apply finv_world; rewrite ?V2; try done; [by rewrite L2|]. intros m _. rewrite v_ref_refs. destruct (decide _); lia. }
  pose proof (refs_nonneg s vn I Hn) as Hpos. wp_step. eapply wp_mono; [apply (vfs_setcurdir_spec p x); [exact I2|done|done|]|]; p_simpl.
  { rewrite V2, v_ref_refs, decide_True by done. lia. }
  cbv beta. intros r s' (w3 & Hw3 & L3 & Hres). rewrite L2 in L3. wp_step. apply wp_world.
  destruct Hres as [(Hr0 & -> & V3)|(-> & -> & V3)]; p_simpl; rewrite V2 in V3.
  - wp_apply vop_decref_law; [done|rewrite V3, v_ref_refs, decide_True by done; lia|]. intros _ w4 (Hw4 & L4 & V4). wp_step. p_simpl. replace (negb (r =? 0)) with true by lia. wp_step.
    destruct (gave_up s w4 r) as (? & ? & ?); auto; rewrite ?V4, ?V3; try congruence; try done. intros m. apply v_ref_back.
  - wp_apply vop_decref_law; [done|rewrite V3, cwd_moved_refs, v_ref_refs by done; repeat destruct (decide _); try congruence; lia|]. intros _ w4 (Hw4 & L4 & V4). wp_step. p_simpl. change (negb (0 =? 0)) with false. cbv iota. wp_step.
    pose proof (cwd_moved_rest vn x (v_ref vn 1 (wv (pw s)))) as [= El Es Ec Eth]. split_and!; [| |done|by right].
    + split; [done| |].
      2:{ p_simpl. intros q y [[<- <-]|[_ Hq]]%lookup_insert_Some; [by apply (fi_plock _ I p x)|by eapply (fi_plock _ I)]. }
      p_simpl. rewrite L4, L3, V4, V3. unfold cwds. rewrite fmap_insert. apply (fpure_cwd _ (wv (pw s)) _ _ _ _ _ (p_cwd x)); [apply I|by apply cwds_lookup|exact El|]. intros m Hm. rewrite v_ref_refs, cwd_moved_refs, v_ref_refs by done. repeat destruct (decide _); try congruence; lia.
    + apply (fframe_cwd s w4 p x vn); [done|congruence|]. rewrite V4, V3. cbn [v_ref v_set_vrefs v_locks v_spaces v_curas v_threads]. by rewrite El, Es, Ec, Eth.
Qed.

Lemma vfs_getcurdir_spec p x s : finv s -> tproc s !! curt s = Some p -> procs s !! p = Some x ->
  wp vfs_getcurdir (fun r s' => exists w, s' = set_pw w s /\ wok w /\ heap_live w = heap_live (pw s) /\
    match r with
    | inl e => e <> 0 /\ wv w = wv (pw s)
    | inr d => d <> 0 /\ wv w = v_ref d 1 (wv (pw s))
    end) s.
Proof.
  intros I Ht Hx. unfold vfs_getcurdir. wp_step. apply (wp_curproc p); [done|]. pose proof (fi_plock _ I p x Hx) as Hl.
  wp_step. apply (wp_p_lock_acquire p x); [done|done|]. wp_step. apply (wp_proc_at p (set_p_lock true x)); [apply lookup_insert_eq|]. p_simpl. wp_step. wp_step; boolify.
  - wp_step. apply wp_world. p_simpl. wp_apply vop_incref_law; [apply I|by eapply cwd_ref|]. intros _ w (Hw & EL & EV). wp_step. p_simpl. wp_step.
    eapply (wp_p_lock_release p); [apply lookup_insert_eq|done|]. p_simpl. rewrite insert_insert_eq, unlock_lock, insert_id by done. wp_step. by exists w.
  - wp_step. wp_step. eapply (wp_p_lock_release p); [apply lookup_insert_eq|done|]. p_simpl. rewrite insert_insert_eq, unlock_lock, insert_id by done. wp_step. exists (pw s).
    split_and!; [done|apply I|done|done|done].
Qed.

(** The world after a look at the directory: nothing the client sees changed. *)
Definition looked (s s' : pst W) : Prop :=
  exists w, s' = set_pw w s /\ wok w /\ heap_live w = heap_live (pw s) /\ (forall m, v_refs (wv (pw s)) m <= v_refs (wv w) m) /\
    (v_locks (wv w), v_spaces (wv w), v_curas (wv w), v_threads (wv w)) = (v_locks (wv (pw s)), v_spaces (wv (pw s)), v_curas (wv (pw s)), v_threads (wv (pw s))).

Lemma vfs_getcwd_spec p b n u s : finv s -> runs p s -> b ∈ heap_live (pw s) -> kbuf b n u ->
  wp (vfs_getcwd u) (fun r s' => looked s s' /\ (r.1 = 0 -> kbuf b n r.2)) s.
Proof.
  intros I [Ht [x Hx]] Hb Hu. unfold vfs_getcwd. destruct Hu as (Hu1 & Hu2 & Hu3 & Hu). rewrite Hu3. wp_step. apply wp_kassert; [done|]. assert (kbuf b n u) as Hk by done. clear Hu1 Hu2 Hu3 Hu.
  wp_step. eapply wp_mono; [by apply (vfs_getcurdir_spec p x)|]. cbv beta. intros r s' (w & -> & Hw & EL & Hr). destruct r as [e|d].
  { destruct Hr as [He EV]. wp_step. split; [|done]. exists w. by rewrite EV. }
  destruct Hr as [Hd EV]. pose proof (refs_nonneg s d I Hd) as Hpos. assert (0 < v_refs (v_ref d 1 (wv (pw s))) d) as Href by (rewrite v_ref_refs, decide_True by done; lia).
  assert (forall (r : Z * uio) w, wok w -> heap_live w = heap_live (pw s) -> wv w = v_ref d 1 (wv (pw s)) -> (r.1 = 0 -> kbuf b n r.2) ->
    wp (world (vop_decref d) ;;; ret r) (fun r s' => looked s s' /\ (r.1 = 0 -> kbuf b n r.2)) (set_pw w s)) as Hend.
  { intros r w' Hw' EL' EV' Hr. wp_step. apply wp_world. p_simpl. wp_apply vop_decref_law; [done|by rewrite EV'|]. intros _ w2 (Hw2 & L2 & V2). wp_step. split; [|done].
    exists w2. split_and!; [done|done|congruence| |]; rewrite V2, EV'; [intros m; apply v_ref_back|done]. }
  wp_step. apply wp_world. p_simpl. wp_apply fs_name_law; [done|by rewrite EV|]. intros name w1 (Hw1 & L1 & V1). p_simpl.
  wp_step. apply wp_world. p_simpl. wp_apply (uiomove_law name b n u); [done|congruence|done|]. intros r1 w2 (Hw2 & L2 & V2 & Hr1). p_simpl.
  wp_step; boolify; [apply (Hend r1 w2); try done; congruence|].
  wp_step. apply wp_world. p_simpl. wp_apply (uiomove_law _ b n); [done|congruence|by apply Hr1|]. intros r2 w3 (Hw3 & L3 & V3 & Hr2). p_simpl.
  wp_step; boolify; [apply (Hend r2 w3); try done; congruence|].
  wp_step. apply wp_world. p_simpl. wp_apply (vop_namefile_law d b n); [done|by rewrite V3, V2, V1, EV|congruence|by apply Hr2|]. intros r3 w4 (Hw4 & L4 & V4 & Hr3). p_simpl.
  apply (Hend r3 w4); try done; congruence.
Qed.

Lemma looked_spec s s' : finv s -> looked s s' -> finv s' /\ fframe s s' /\ ftables_of s' = ftables_of s.
Proof.
  intros I (w & -> & Hw & EL & Er & [= El Es Ec Et]). split_and!; [apply finv_world; auto; by rewrite EL|apply fframe_world; auto; by rewrite EL|done].
Qed.

Lemma getcwd_meets p buf n s : finv s -> runs p s -> permitted (FGetcwd buf n) s -> meets p (FGetcwd buf n) s.
Proof.
  intros I Hp [Hn Hk]. unfold meets. cbn [run_fcall fspec]. unfold sys__getcwd. wp_step. apply wp_world.
  eapply wp_mono; [apply wp_and; [exact Hk|apply (wp_kmalloc _ (fun b w => b <> 0 -> wok w /\ wv w = wv (pw s) /\ (b ∉ heap_live (pw s)) /\ heap_live w = {[b]} ∪ heap_live (pw s)) _ (fi_ok _ I)); [done|]]|].
  { intros. by split_and!. }
  cbv beta. intros b w [Hb Hw]. destruct (Hw Hb) as (Hw' & EV & HL & EL). clear Hw. assert (finv (set_pw w s)) as I1.
  { apply finv_world; rewrite ?EV; try done. rewrite EL. set_solver. }
  assert (fframe s (set_pw w s)) as F1 by (apply fframe_world; rewrite ?EV; try done; rewrite EL; set_solver).
  wp_step. eapply wp_mono; [apply (vfs_getcwd_spec p b n); [done|done|p_simpl; set_solver|]|].
  { unfold kbuf, uio_kinit. cbn. rewrite Z.add_0_r, Z.sub_0_r. split_and!; (done || lia). }
  cbv beta. intros [e u] s' [Hlook Hu]. cbn [fst snd] in Hu. destruct (looked_spec _ _ I1 Hlook) as (I2 & F2 & E2). wp_step; boolify.
  { wp_step. split_and!; [done|by etransitivity|done|]. left. by split; [eexists|]. }
  specialize (Hu Heqb0). destruct Hu as (_ & _ & _ & Hoff & _). destruct Hlook as (w2 & -> & Hw2 & EL2 & Er2 & [= El2 Es2 Ec2 Et2]). p_simpl.
  assert (forall r w', wok w' -> wv w' = wv w2 -> heap_live w' = heap_live w2 -> (fails r (ftables_of s) (ftables_of s) \/ exists k, 0 <= k <= n /\ r = inr (s32 k)) ->
    wp (world (kfree b) ;;; ret r) (fun r s' => finv s' /\ fframe s s' /\ ftables_of s' = ftables_of s /\ (fails r (ftables_of s) (ftables_of s') \/ exists k, 0 <= k <= n /\ r = inr (s32 k))) (set_pw w' s)) as Hend.
  { intros r w' Hw3 V3 L3 Hr. wp_step. apply wp_world. p_simpl. apply wp_kfree; [done|done|rewrite L3, EL2, EL; set_solver|]. intros w4 Hw4 V4 L4. wp_step. p_simpl.
    assert (heap_live w4 = heap_live (pw s)) as EL4 by (by rewrite L4, L3, EL2, EL, live_alloc_free). rewrite V3 in V4. rewrite EV in *.
    change (set_pw w4 (set_pw w' s)) with (set_pw w4 s). split_and!; [apply finv_world; rewrite ?V4; auto; by rewrite EL4|apply fframe_world; rewrite ?V4; try done; by rewrite EL4|done|done]. }
  wp_step; boolify; [|apply (Hend (inr (s32 (uio_offset u))) w2); try done; right; by exists (uio_offset u)].
  wp_step. apply wp_world. p_simpl. wp_apply copyout_law; [done|]. intros e' w3 (Hw3 & L3 & V3). p_simpl. wp_step; boolify.
  - apply (Hend (inl e') w3); try done. left. by split; [eexists|].
  - apply (Hend (inr (s32 (uio_offset u))) w3); try done. right. by exists (uio_offset u).
Qed.

(** ** All calls *)

Lemma fcall_meets p c s : finv s -> runs p s -> permitted c s -> meets p c s.
Proof.
  intros I Hp Hc. destruct c; [by apply open_meets|by apply read_meets|by apply write_meets|by apply close_meets|by apply lseek_meets|by apply dup2_meets|by apply getcwd_meets|by apply chdir_meets].
Qed.
End calls.
