(* ===== verification/Proc.v ===== *)
(** * Processes (kern/proc/proc.c)

    The process structures and the process table.  A pointer result is 0
    where the code returns NULL; an access outside the 33 cells of a table
    array, or to a cell never written, is undefined. *)

From S2P Require Import Prelude KHeap Array KWorld PState.

Section proc.
Context {W : Type} `{WorldOps W}.
Notation PM := (M (pst W)).

(** ** The arrays inside a process structure *)

Definition on_array {A} (prj : proc -> array) (upd : array -> proc -> proc) (p : Z) (m : M (W * array) A) : PM A := fun s =>
  match procs s !! p with
  | None => Fault
  | Some x =>
      match m (pw s, prj x) with
      | Done a (w, arr) => Done a (set_procs (<[p := upd arr x]> (procs s)) (set_pw w s))
      | Panic => Panic
      | Fault => Fault
      | NoFuel => NoFuel
      end
  end.

Definition on_children {A} (p : Z) (m : M (W * array) A) : PM A := on_array children set_children p m.
Definition on_threads {A} (p : Z) (m : M (W * array) A) : PM A := on_array p_threads set_p_threads p m.

(** ** The table *)

Definition pt : PM proc_table := s <- get ;; ret (ptab s).
Definition pt_put (t : proc_table) : PM unit := modify (set_ptab t).

(** [processes->a[i]]. *)
Definition cell (a : proc_table -> list (option Z)) (i : Z) : PM Z :=
  t <- pt ;;
  if i <? 0 then fault else
  c <- deref (a t !! Z.to_nat i) ;;
  deref c.

(** [processes->a[i] = v]. *)
Definition store (a : proc_table -> list (option Z)) (upd : list (option Z) -> proc_table -> proc_table) (i v : Z) : PM unit :=
  t <- pt ;;
  if i <? 0 then fault else
  _ <- deref (a t !! Z.to_nat i) ;;
  pt_put (upd (<[Z.to_nat i := Some v]> (a t)) t).

Definition set_proc_cell : Z -> Z -> PM unit := store pt_proc set_pt_proc.
Definition set_status : Z -> Z -> PM unit := store pt_status set_pt_status.
Definition set_waitcode : Z -> Z -> PM unit := store pt_waitcode set_pt_waitcode.

Definition clear_pid (pid : Z) : PM unit :=
  kassert ((PID_MIN <=? pid) && (pid <=? PID_MAX)) ;;;
  t <- pt ;;
  pt_put (set_pid_available (s32 (pid_available t + 1)) t) ;;;
  set_proc_cell pid 0 ;;;
  set_status pid READY ;;;
  set_waitcode pid 0.

Definition add_pid (pid proc : Z) : PM unit :=
  kassert (negb (proc =? 0)) ;;;
  set_proc_cell pid proc ;;;
  set_status pid RUNNING ;;;
  set_waitcode pid 0 ;;;
  t <- pt ;;
  pt_put (set_pid_available (s32 (pid_available t - 1)) t).

(** The new pid goes to [proc->pid], where both callers want it; then the
    next free pid is looked for. *)
Definition take_pid (proc : Z) : PM unit :=
  t <- pt ;;
  let next := pid_next t in
  x <- proc_at proc ;;
  proc_put proc (set_pid next x) ;;;
  add_pid next proc ;;;
  t <- pt ;;
  (if 0 <? pid_available t then
     for_ (Z.to_nat (PID_MAX - next)) next (fun i =>
       status <- cell pt_status i ;;
       if status =? READY then pt_put (set_pid_next i t) ;;; ret (Some tt) else ret None)
   else pt_put (set_pid_next (PID_MAX + 1) t) ;;; ret (Some tt)) ;;;
  ret tt.

Definition proc_table_add (proc : Z) : PM Z :=
  kassert (negb (proc =? 0)) ;;;
  t <- pt ;;
  world (lock_acquire (pt_lock t)) ;;;
  t <- pt ;;
  if pid_available t <? 1 then world (lock_release (pt_lock t)) ;;; ret ENPROC else
  c <- curproc ;;
  _ <- on_children c (array_add proc) ;;
  take_pid proc ;;;
  world (lock_release (pt_lock t)) ;;;
  ret 0.

Definition get_pid (pid : Z) : PM Z :=
  kassert ((PID_MIN <=? pid) && (pid <=? PID_MAX)) ;;;
  t <- pt ;;
  acquired <- world (lock_do_i_hold (pt_lock t)) ;;
  (if negb acquired then world (lock_acquire (pt_lock t)) else ret tt) ;;;
  proc <- cell pt_proc pid ;;
  (if negb acquired then world (lock_release (pt_lock t)) else ret tt) ;;;
  ret proc.

Definition proc_table_freepid (pid : Z) : PM unit :=
  kassert ((PID_MIN <=? pid) && (pid <=? PID_MAX)) ;;;
  t <- pt ;;
  world (lock_acquire (pt_lock t)) ;;;
  clear_pid pid ;;;
  world (lock_release (pt_lock t)).

Definition proc_table_bootstrap : PM unit :=
  processes <- world (kmalloc 412) ;;
  if processes =? 0 then panic else
  lock <- world lock_create ;;
  if lock =? 0 then panic else
  cv <- world cv_create ;;
  if cv =? 0 then panic else
  pt_put (ProcTable (replicate 33 None) (replicate 33 None) (replicate 33 None) lock cv 1 PID_MIN) ;;;
  s <- get ;;
  x <- proc_at (kproc s) ;;
  add_pid (pid x) (kproc s) ;;;
  for_ (R := unit) (Z.to_nat (32 - PID_MIN)) PID_MIN (fun i => clear_pid i ;;; ret None) ;;;
  ret tt.

(** ** Creating and destroying *)

Definition proc_create (name : list Z) : PM Z :=
  proc <- world (kmalloc 168) ;;
  if proc =? 0 then ret 0 else
  p_name <- world (kstrdup name) ;;
  if p_name =? 0 then world (kfree proc) ;;; ret 0 else
  for_ (R := unit) (Z.to_nat OPEN_MAX) 0 (fun i => modify (fun s => set_ftab (delete (proc, i) (ftab s)) s) ;;; ret None) ;;;
  children <- world array_create ;;
  match children with
  | None => world (kfree p_name) ;;; world (kfree proc) ;;; ret 0
  | Some (ptr, arr) =>
      modify (fun s => set_procs (<[proc := Proc p_name false (Array [] 0 0 0) 0 0 1 ptr arr]> (procs s)) s) ;;;
      ret proc
  end.

(** An entry of the file table when its process goes: the count before the
    decrement decides. *)
Definition drop_entry (proc i : Z) : PM unit :=
  fh <- ft_get proc i ;;
  if fh =? 0 then ret tt else
  x <- fh_at fh ;;
  world (lock_acquire (fh_lock x)) ;;;
  let destroy_counter := d_count x in
  fh_put fh (set_d_count (s32 (d_count x - 1)) x) ;;;
  if 0 <? destroy_counter then
    world (lock_release (fh_lock x)) ;;;
    ft_set proc i 0
  else
    world (lock_release (fh_lock x)) ;;;
    world (lock_destroy (fh_lock x)) ;;;
    world (vfs_close (fh_vnode x)) ;;;
    free_fh fh ;;;
    ft_set proc i 0.

(** The lists of children and of threads, emptied from the front. *)
Definition clear_children (proc : Z) : PM unit :=
  children_size <- on_children proc array_num ;;
  for_ (R := unit) (Z.to_nat children_size) 0 (fun _ => on_children proc (array_remove 0) ;;; ret None) ;;;
  ret tt.

Definition clear_threads (proc : Z) : PM unit :=
  threadarray_size <- on_threads proc array_num ;;
  for_ (R := unit) (Z.to_nat threadarray_size) 0 (fun _ => on_threads proc (array_remove 0) ;;; ret None) ;;;
  on_threads proc array_cleanup.

Definition proc_destroy (proc : Z) : PM unit :=
  s <- get ;;
  kassert (negb (proc =? 0)) ;;;
  kassert (negb (proc =? kproc s)) ;;;
  x <- proc_at proc ;;
  (if negb (p_cwd x =? 0) then world (vop_decref (p_cwd x)) ;;; proc_put proc (set_p_cwd 0 x) else ret tt) ;;;
  clear_children proc ;;;
  (if negb (p_addrspace x =? 0) then world (as_destroy (p_addrspace x)) else ret tt) ;;;
  clear_threads proc ;;;
  kassert (negb (p_lock x)) ;;;
  for_ (R := unit) (Z.to_nat OPEN_MAX) 0 (fun i => drop_entry proc i ;;; ret None) ;;;
  on_children proc (array_destroy (children_ptr x)) ;;;
  world (kfree (p_name x)) ;;;
  modify (fun s => set_procs (delete proc (procs s)) s) ;;;
  world (kfree proc).

(** An entry of the current process's table shared with the new one. *)
Definition share_entry (c proc i : Z) : PM unit :=
  fh <- ft_get c i ;;
  if fh =? 0 then ret tt else
  x <- fh_at fh ;;
  fh_put fh (set_d_count (s32 (d_count x + 1)) x) ;;;
  ft_set proc i fh.

Definition inherit_cwd (c proc : Z) : PM unit :=
  p_lock_acquire c ;;;
  x <- proc_at c ;;
  (if negb (p_cwd x =? 0) then
     world (vop_incref (p_cwd x)) ;;;
     y <- proc_at proc ;;
     proc_put proc (set_p_cwd (p_cwd x) y)
   else ret tt) ;;;
  p_lock_release c.

Definition proc_create_fork (name : list Z) : PM (err Z) :=
  c <- curproc ;;
  proc <- proc_create name ;;
  if proc =? 0 then ret (inl ENOMEM) else
  r <- proc_table_add proc ;;
  if negb (r =? 0) then proc_destroy proc ;;; ret (inl r) else
  cx <- proc_at c ;;
  r <- world (as_copy (p_addrspace cx)) ;;
  match r with
  | inl e => proc_destroy proc ;;; ret (inl e)
  | inr as_ =>
  y <- proc_at proc ;;
  proc_put proc (set_p_addrspace as_ y) ;;;
  inherit_cwd c proc ;;;
  p_lock_acquire c ;;;
  for_ (R := unit) (Z.to_nat OPEN_MAX) 0 (fun i => share_entry c proc i ;;; ret None) ;;;
  p_lock_release c ;;;
  ret (inr proc)
  end.

(** The kernel's own process. *)
Definition proc_bootstrap (name : list Z) : PM unit :=
  p <- proc_create name ;;
  modify (set_kproc p) ;;;
  if p =? 0 then panic else ret tt.

(** ** Programs started from the menu *)

(** [config] is not assigned: what the block held before. *)
Definition initialize_console (con_name : list Z) (flags : Z) (junk : bool) : PM Z :=
  fh <- world (kmalloc 32) ;;
  if fh =? 0 then ret 0 else
  con <- world (kstrdup con_name) ;;
  if con =? 0 then world (kfree fh) ;;; ret 0 else
  r <- world (vfs_open con_name flags) ;;
  world (kfree con) ;;;
  match r with
  | inl _ => world (kfree fh) ;;; ret 0
  | inr vnode =>
  lock <- world lock_create ;;
  if lock =? 0 then world (vfs_close vnode) ;;; world (kfree fh) ;;; ret 0 else
  modify (fun s => set_fhs (<[fh := FileHandler vnode 1 (Z.land flags O_ACCMODE) 0 junk lock]> (fhs s)) s) ;;;
  ret fh
  end.

(** The handler of entry [i] goes, the entry stays. *)
Definition console_cleanup (proc i : Z) : PM unit :=
  fh <- ft_get proc i ;;
  if fh =? 0 then ret tt else
  x <- fh_at fh ;;
  world (lock_destroy (fh_lock x)) ;;;
  world (vfs_close (fh_vnode x)) ;;;
  free_fh fh.

Definition runprogram_cleanup (proc : Z) : PM Z :=
  console_cleanup proc 0 ;;;
  console_cleanup proc 1 ;;;
  console_cleanup proc 2 ;;;
  proc_destroy proc ;;;
  ret 0.

Definition proc_create_runprogram (name con : list Z) (junk : bool) : PM Z :=
  newproc <- proc_create name ;;
  if newproc =? 0 then ret 0 else
  y <- proc_at newproc ;;
  proc_put newproc (set_p_addrspace 0 y) ;;;
  c <- curproc ;;
  inherit_cwd c newproc ;;;
  r <- proc_table_add newproc ;;
  if negb (r =? 0) then proc_destroy newproc ;;; ret 0 else
  fh <- initialize_console con O_RDONLY junk ;;
  ft_set newproc 0 fh ;;;
  if fh =? 0 then runprogram_cleanup newproc else
  fh <- initialize_console con O_WRONLY junk ;;
  ft_set newproc 1 fh ;;;
  if fh =? 0 then runprogram_cleanup newproc else
  fh <- initialize_console con O_WRONLY junk ;;
  ft_set newproc 2 fh ;;;
  if fh =? 0 then runprogram_cleanup newproc else
  ret newproc.

(** ** Threads and address spaces of a process *)

Definition proc_addthread (proc t : Z) : PM Z :=
  s <- get ;;
  kassert (bool_decide (tproc s !! t = None)) ;;;
  p_lock_acquire proc ;;;
  result <- on_threads proc (array_add t) ;;
  p_lock_release proc ;;;
  match result with
  | inl e => ret e
  | inr _ => modify (fun s => set_tproc (<[t := proc]> (tproc s)) s) ;;; ret 0
  end.

Definition proc_remthread (t : Z) : PM unit :=
  s <- get ;;
  let proc := default 0 (tproc s !! t) in
  kassert (negb (proc =? 0)) ;;;
  p_lock_acquire proc ;;;
  num <- on_threads proc array_num ;;
  found <- for_ (Z.to_nat num) 0 (fun i =>
    u <- on_threads proc (array_get i) ;;
    if u =? t then
      on_threads proc (array_remove i) ;;;
      p_lock_release proc ;;;
      modify (fun s => set_tproc (delete t (tproc s)) s) ;;;
      ret (Some tt)
    else ret None) ;;
  match found with
  | Some _ => ret tt
  | None => p_lock_release proc ;;; panic
  end.

Definition proc_getas : PM Z :=
  proc <- curproc ;;
  if proc =? 0 then ret 0 else
  p_lock_acquire proc ;;;
  x <- proc_at proc ;;
  p_lock_release proc ;;;
  ret (p_addrspace x).

Definition proc_setas (newas : Z) : PM Z :=
  proc <- curproc ;;
  kassert (negb (proc =? 0)) ;;;
  p_lock_acquire proc ;;;
  x <- proc_at proc ;;
  proc_put proc (set_p_addrspace newas x) ;;;
  p_lock_release proc ;;;
  ret (p_addrspace x).
End proc.
