(* ===== verification/ProcCalls.v ===== *)
(** * Process system calls (kern/syscall/proc_syscalls.c)

    [sys_waitpid] may put the calling thread to sleep on the table's
    condition variable: it then returns [Asleep], and [waitpid_wakeup] is the
    rest of the call once a broadcast woke the thread up. *)

From S2P Require Import Prelude KHeap Array KWorld PState Proc.

Section calls.
Context {W : Type} `{WorldOps W}.
Notation PM := (M (pst W)).

Definition as_activate : PM unit :=
  a <- proc_getas ;;
  if a =? 0 then ret tt else world (as_switch a).

(** What a thread made by [sys_fork] does first; the result is the trapframe
    it goes to user mode with. *)
Definition enter_usermode (data1 : Z) : PM trapframe :=
  s <- get ;;
  tf <- deref (tfs s !! data1) ;;
  modify (fun s => set_tfs (delete data1 (tfs s)) s) ;;;
  world (kfree data1) ;;;
  as_activate ;;;
  ret tf.

(** [thread_fork(name, proc, enter_usermode, data1, 1)] (kern/thread/thread.c). *)
Definition thread_fork (proc data1 : Z) : PM Z :=
  r <- world thread_new ;;
  match r with
  | inl e => ret e
  | inr newthread =>
  result <- proc_addthread proc newthread ;;
  if negb (result =? 0) then world (thread_destroy newthread) ;;; ret result else
  modify (fun s => set_tdata (<[newthread := data1]> (tdata s)) s) ;;;
  world (thread_ready newthread) ;;;
  ret 0
  end.

(** What the child gets: the parent's registers, 0 as result, the instruction
    after the system call. *)
Definition child_trapframe (tf : trapframe) : trapframe :=
  Trapframe 0 0 (tf_a0 tf) (tf_a1 tf) (tf_a2 tf) 0 (tf_sp tf) (u32 (tf_epc tf + 4)) (tf_rest tf).

Definition sys_fork (name : list Z) (tf : trapframe) : PM (err Z) :=
  r <- proc_create_fork name ;;
  match r with
  | inl e => ret (inl e)
  | inr new_proc =>
  new_tf <- world (kmalloc 148) ;;
  if new_tf =? 0 then ret (inl ENOMEM) else
  modify (fun s => set_tfs (<[new_tf := child_trapframe tf]> (tfs s)) s) ;;;
  x <- proc_at new_proc ;;
  r <- thread_fork new_proc new_tf ;;
  if negb (r =? 0) then
    y <- proc_at new_proc ;;
    proc_destroy new_proc ;;;
    proc_table_freepid (pid y) ;;;
    modify (fun s => set_tfs (delete new_tf (tfs s)) s) ;;;
    world (kfree new_tf) ;;;
    ret (inl r)
  else ret (inr (pid x))
  end.

Definition sys_getpid : PM (err Z) :=
  t <- pt ;;
  world (lock_acquire (pt_lock t)) ;;;
  c <- curproc ;;
  x <- proc_at c ;;
  world (lock_release (pt_lock t)) ;;;
  ret (inr (pid x)).

(** ** Waiting *)

(** The number returned and the exit code copied out to the caller, if it was;
    or the thread sleeps. *)
Inductive wait_result := Returned (r : Z) (status : option Z) | Asleep.

(** [cv_wait] up to the point where the thread sleeps. *)
Definition cv_sleep (w : waiter) : PM unit :=
  t <- pt ;;
  held <- world (lock_do_i_hold (pt_lock t)) ;;
  kassert held ;;;
  world (lock_release (pt_lock t)) ;;;
  modify (fun s => set_cv_queue (cv_queue s ++ [w]) s).

Definition cv_broadcast : PM unit :=
  t <- pt ;;
  held <- world (lock_do_i_hold (pt_lock t)) ;;
  kassert held ;;;
  modify (fun s => set_cv_woken (cv_woken s ++ cv_queue s) (set_cv_queue [] s)).

(** The loop of [sys_waitpid] and what follows it, with the lock held. *)
Definition waitpid_loop (pid retval : Z) : PM wait_result :=
  status <- cell pt_status pid ;;
  if negb (status =? ZOMBIE) then
    s <- get ;;
    cv_sleep (curt s, (pid, retval)) ;;;
    ret Asleep
  else
    waitcode <- cell pt_waitcode pid ;;
    t <- pt ;;
    world (lock_release (pt_lock t)) ;;;
    if negb (retval =? 0) then
      r <- world (copyout waitcode retval 4) ;;
      if negb (r =? 0) then ret (Returned r None) else ret (Returned 0 (Some waitcode))
    else ret (Returned 0 None).

Definition sys_waitpid (pid retval options : Z) : PM wait_result :=
  invalid <- (if (pid <? PID_MIN) || (PID_MAX <? pid) then ret true else
              status <- cell pt_status pid ;; ret (status =? READY)) ;;
  if invalid then ret (Returned ESRCH None) else
  if negb (options =? 0) then ret (Returned EINVAL None) else
  child <- cell pt_proc pid ;;
  c <- curproc ;;
  size <- on_children c array_num ;;
  ischild <- for_ (Z.to_nat size) 0 (fun i =>
    u <- on_children c (array_get i) ;;
    if child =? u then ret (Some tt) else ret None) ;;
  match ischild with
  | None => ret (Returned ECHILD None)
  | Some _ =>
      t <- pt ;;
      world (lock_acquire (pt_lock t)) ;;;
      waitpid_loop pid retval
  end.

(** A woken thread takes the lock again and looks at the status. *)
Definition waitpid_wakeup (w : waiter) : PM wait_result :=
  modify (fun s => set_cv_woken (filter (fun u => u <> w) (cv_woken s)) s) ;;;
  t <- pt ;;
  world (lock_acquire (pt_lock t)) ;;;
  waitpid_loop w.2.1 w.2.2.

(** ** Exiting *)

Definition update_child (proc i : Z) : PM unit :=
  child <- on_children proc (array_get i) ;;
  x <- proc_at child ;;
  let child_pid := pid x in
  status <- cell pt_status child_pid ;;
  if status =? RUNNING then set_status child_pid ORPHAN
  else if status =? ZOMBIE then
    t <- pt ;;
    (if child_pid <? pid_next t then pt_put (set_pid_next child_pid t) else ret tt) ;;;
    proc_destroy child ;;;
    clear_pid child_pid
  else panic.

Definition proc_table_update_children (proc : Z) : PM unit :=
  t <- pt ;;
  held <- world (lock_do_i_hold (pt_lock t)) ;;
  kassert held ;;;
  kassert (negb (proc =? 0)) ;;;
  num_child <- on_children proc array_num ;;
  for_ (R := unit) (Z.to_nat num_child) 0 (fun k => update_child proc (num_child - 1 - k) ;;; ret None) ;;;
  ret tt.

(** [thread_exit] (kern/thread/thread.c), up to the final switch. *)
Definition thread_exit : PM unit :=
  s <- get ;;
  proc_remthread (curt s) ;;;
  s <- get ;;
  kassert (bool_decide (tproc s !! curt s = None)) ;;;
  world (thread_zombie (curt s)).

Definition sys__exit (waitcode : Z) : PM unit :=
  proc <- curproc ;;
  kassert (negb (proc =? 0)) ;;;
  t <- pt ;;
  world (lock_acquire (pt_lock t)) ;;;
  proc_table_update_children proc ;;;
  x <- proc_at proc ;;
  status <- cell pt_status (pid x) ;;
  (if status =? RUNNING then
     set_status (pid x) ZOMBIE ;;;
     set_waitcode (pid x) waitcode
   else if status =? ORPHAN then
     proc_destroy proc ;;;
     clear_pid (pid x)
   else panic) ;;;
  cv_broadcast ;;;
  world (lock_release (pt_lock t)) ;;;
  thread_exit.
End calls.
