(* ===== verification/ProcTable.v ===== *)
(** * Who owns which block

    The blocks that processes, handlers and trapframes are made of, as a
    partial map from blocks to what they are used for: two uses never share a
    block, and every block in use is allocated.  Blocks the code lost track
    of are allocated without a use. *)

From S2P Require Import Prelude KHeap Array KWorld PState FilesSpec Proc.

(** ** Uses *)

Inductive kind := KProc | KName (p : Z) | KArr (p : Z) | KVec (p : Z) | KThr (p : Z) | KFh | KTf.

#[export] Instance kind_eq_dec : EqDecision kind.
Proof. solve_decision. Defined.

Abbreviation uses := (gmap Z kind).

(** Two maps that agree on everything but the uses [k]. *)
Definition same_but (k : kind) (B B' : uses) : Prop := forall b k', k' <> k -> B !! b = Some k' <-> B' !! b = Some k'.

Lemma same_but_refl k B : same_but k B B.
Proof. done. Qed.

(** The pointers an array holds. *)
Definition alist (a : array) : list Z := omap id (take (Z.to_nat (arr_num a)) (arr_v a)).

Lemma holds_alist a l : holds a l -> alist a = l.
Proof. intros [_ E]. unfold alist. rewrite E. clear E. induction l as [|x l IH]; [done|]. cbn. by rewrite IH. Qed.

(** An array whose block, if it has one, is in use as [k]. *)
Definition aown (B : uses) (k : kind) (a : array) : Prop := holds a (alist a) /\ (arr_vptr a <> 0 -> B !! arr_vptr a = Some k).

Lemma aown_same B B' k k' a : aown B k a -> same_but k' B B' -> k <> k' -> aown B' k a.
Proof. intros [Hh Hb] HB Hk. split; [done|]. intros Hv. apply HB; auto. Qed.

Definition empty_array : array := Array [] 0 0 0.

Lemma aown_empty B k : aown B k empty_array.
Proof. split; [|done]. split; [constructor; cbn; lia|done]. Qed.

Section own.
Context {W : Type} `{World W}.
Implicit Types (s : pst W) (w : W) (B : uses).

(** The world's heap contains the blocks in use. *)
Record hown B w : Prop := {
  ho_ok : wok w;
  ho_live : forall b k, B !! b = Some k -> b ∈ heap_live w;
  ho_pos : forall b k, B !! b = Some k -> 0 < b;
}.

Lemma hown_world B w w' : hown B w -> wok w' -> heap_live w' = heap_live w -> hown B w'.
Proof. intros [H1 H2 H3] Hw E. split; [done|by rewrite E|done]. Qed.

Lemma wp_alloc B k n (Q : Z -> W -> Prop) w : hown B w ->
  (forall w', hown B w' -> wv w' = wv w -> Q 0 w') ->
  (forall b w', 0 < b -> B !! b = None -> hown (<[b := k]> B) w' -> wv w' = wv w -> Q b w') -> wp (kmalloc n) Q w.
Proof.
  intros [H1 H2 H3] Q0 Q1. apply wp_kmalloc; [done| |].
  - intros w' Hw EV EL. apply Q0; [|done]. split; [done|by rewrite EL|done].
  - intros b w' Hw EV Hb HL EL. assert (B !! b = None) as HB by (destruct (B !! b) eqn:E; [by apply H2 in E|done]). apply Q1; try done.
    split; [done| |]; intros b' k' [[<- <-]|[_ Hb']]%lookup_insert_Some; rewrite ?EL; try done; [set_solver| |by eapply H3].
    apply H2 in Hb'. set_solver.
Qed.

Lemma wp_release B k b (Q : unit -> W -> Prop) w : hown B w -> B !! b = Some k ->
  (forall w', hown (delete b B) w' -> wv w' = wv w -> Q tt w') -> wp (kfree b) Q w.
Proof.
  intros [H1 H2 H3] Hb HQ. pose proof (H3 _ _ Hb). apply wp_kfree; [done|lia|by eapply H2|]. intros w' Hw EV EL. apply HQ; [|done].
  split; [done| |]; intros b' k' [Hne Hb']%lookup_delete_Some; [|by eapply H3]. rewrite EL. apply H2 in Hb'. set_solver.
Qed.

(** ** Arrays inside processes *)

(** The rest of the heap, as the array operations see it. *)
Definition others (a : array) w : gset Z := if bool_decide (arr_vptr a = 0) then heap_live w else heap_live w ∖ {[arr_vptr a]}.

Lemma hown_owns B k a w : hown B w -> aown B k a -> owns w a (others a w).
Proof.
  intros [H1 H2 H3] [Hh Hv]. unfold owns, others. case_bool_decide as E.
  - split_and!; [by apply w_heap_ok|done|lia|done].
  - pose proof (H3 _ _ (Hv E)). split_and!; [by apply w_heap_ok|set_solver|lia|]. apply H2 in Hv; [|done]. apply set_eq. intros b. rewrite elem_of_union, elem_of_singleton, elem_of_difference, elem_of_singleton.
    destruct (decide (b = arr_vptr a)) as [->|]; naive_solver.
Qed.

(** The uses after an array got another block. *)
Lemma owns_hown B k a w a' w' : hown B w -> aown B k a -> wok w' -> holds a' (alist a') -> owns w' a' (others a w) ->
  exists B', hown B' w' /\ aown B' k a' /\ same_but k B B'.
Proof.
  intros [H1 H2 H3] [Hh Hv] Hw Hh' (_ & Hn & Hp & HL). set (B0 := if decide (arr_vptr a = 0) then B else delete (arr_vptr a) B).
  assert (forall b k', B0 !! b = Some k' -> b ∈ others a w /\ 0 < b) as HB1.
  { unfold B0, others. intros b k' Hb. destruct (decide (arr_vptr a = 0)) as [E|E].
    - rewrite bool_decide_eq_true_2 by done. split; [by eapply H2|by eapply H3].
    - rewrite bool_decide_eq_false_2 by done. apply lookup_delete_Some in Hb as [Hne Hb]. split; [|by eapply H3]. apply H2 in Hb. set_solver. }
  assert (same_but k B B0) as HB0.
  { unfold B0. destruct (decide _) as [|E]; [done|]. intros b k' Hk. rewrite lookup_delete_Some. split; [|by intros [_ ?]]. intros Hb. split; [|done].
    intros <-. specialize (Hv E). congruence. }
  exists (if decide (arr_vptr a' = 0) then B0 else <[arr_vptr a' := k]> B0). destruct (decide (arr_vptr a' = 0)) as [E|E].
  - rewrite bool_decide_eq_true_2 in HL by done. split_and!; [|by split|done]. split; [done| |]; intros b k' Hb; apply HB1 in Hb as [? ?]; [by rewrite HL|done].
  - rewrite bool_decide_eq_false_2 in HL by done. specialize (Hn E). split_and!.
    + split; [done| |]; intros b k' [[<- <-]|[_ Hb]]%lookup_insert_Some; rewrite ?HL; [set_solver|apply HB1 in Hb; set_solver|lia|apply HB1 in Hb; lia].
    + split; [done|]. intros _. apply lookup_insert_eq.
    + intros b k' Hk. rewrite (HB0 b k' Hk), lookup_insert_Some. split; [|naive_solver]. intros Hb. right. split; [|done]. intros <-. by destruct (HB1 _ _ Hb).
Qed.

Lemma wp_on_array {A} (prj : proc -> array) upd p x (m : M (W * array) A) (Q : A -> pst W -> Prop) s : procs s !! p = Some x ->
  wp m (fun a r => Q a (set_procs (<[p := upd r.2 x]> (procs s)) (set_pw r.1 s))) (pw s, prj x) -> wp (on_array prj upd p m) Q s.
Proof. intros Hx Hm. unfold wp, on_array in *. rewrite Hx. by destruct (m (pw s, prj x)) as [a [w arr]| | |]. Qed.

Lemma side_world w w' : wok w -> heap_side w w' -> wok w' /\ wv w' = wv w.
Proof. intros Hw Hs. split; [|by apply w_heap_view]. apply w_heap_ok. eapply heap_side_ok; [|done]. by apply w_heap_ok. Qed.

Lemma wp_array_add B k a v (Q : err Z -> W * array -> Prop) w : hown B w -> aown B k a -> Z.of_nat (length (alist a)) < 2 ^ 29 - 1 ->
  (forall w', hown B w' -> wv w' = wv w -> Q (inl ENOMEM) (w', a)) ->
  (forall w' B' a' i, hown B' w' -> wv w' = wv w -> aown B' k a' -> same_but k B B' -> alist a' = alist a ++ [v] -> Q (inr i) (w', a')) ->
  wp (array_add v) Q (w, a).
Proof.
  intros Hw Ha Hlen Q1 Q2. destruct (Ha) as [Hh Hv]. eapply wp_mono; [apply (array_add_spec w a (alist a) (others a w)); [done|by eapply hown_owns|]|].
  { rewrite (holds_num _ _ Hh). lia. }
  cbv beta. intros r [w' a'] [Hs Hr]. cbn [fst snd] in *. destruct (side_world w w') as [Hw' EV]; [apply Hw|done|].
  destruct Hr as [(-> & -> & Ho & _)|(-> & Hh' & Ho)].
  - apply Q1; [|done]. split; [done| |apply Hw]. intros b k' Hb. destruct Ho as (_ & _ & _ & ->). apply (ho_live _ _ Hw) in Hb. unfold others. case_bool_decide; [done|].
    apply elem_of_union. destruct (decide (b = arr_vptr a)); set_solver.
  - pose proof (holds_alist _ _ Hh') as E. rewrite <- E in Hh'. destruct (owns_hown B k a w a' w') as (B' & ? & ? & ?); try done. by eapply Q2.
Qed.

Lemma wp_array_get a v i (Q : Z -> W * array -> Prop) w : holds a (alist a) -> 0 <= i -> alist a !! Z.to_nat i = Some v -> Q v (w, a) -> wp (array_get i) Q (w, a).
Proof. intros Hh Hi Hv HQ. eapply wp_mono; [by eapply (array_get_spec w a (alist a))|]. by intros r s [-> ->]. Qed.

Lemma wp_array_num a (Q : Z -> W * array -> Prop) w : holds a (alist a) -> Q (Z.of_nat (length (alist a))) (w, a) -> wp array_num Q (w, a).
Proof. intros Hh HQ. unfold array_num, get_arr. wp_steps. cbn [snd]. by rewrite (holds_num _ _ Hh). Qed.

Lemma array_remove_vptr a i w : holds a (alist a) -> 0 <= i < Z.of_nat (length (alist a)) -> wp (array_remove i) (fun _ r => arr_vptr r.2 = arr_vptr a) (w, a).
Proof.
  intros Hh Hi. pose proof (holds_num _ _ Hh). destruct Hh as [[? ? ? ?] _]. unfold array_remove, get_arr, set_arr. wp_steps. apply wp_kassert; [cbn; lia|].
  wp_steps. apply wp_kassert; [cbn; lia|]. by wp_steps.
Qed.

Lemma wp_array_remove B k a i (Q : unit -> W * array -> Prop) w : hown B w -> aown B k a -> 0 <= i < Z.of_nat (length (alist a)) ->
  (forall a', aown B k a' -> alist a' = delete (Z.to_nat i) (alist a) -> Q tt (w, a')) -> wp (array_remove i) Q (w, a).
Proof.
  intros Hw Ha Hi HQ. destruct (Ha) as [Hh Hv]. eapply wp_mono; [apply wp_and; [apply (array_remove_spec w a (alist a) (others a w)); [done|by eapply hown_owns|done]|by apply array_remove_vptr]|].
  cbv beta. intros [] [w' a'] [(Hh' & _ & E) Ev]. cbn [fst snd] in *. subst w'. pose proof (holds_alist _ _ Hh') as El. rewrite <- El in Hh'. apply HQ; [|done]. split; [done|by rewrite Ev].
Qed.

(** The block of an empty array goes. *)
Lemma wp_array_cleanup B k a (Q : unit -> W * array -> Prop) w : hown B w -> aown B k a -> alist a = [] ->
  (forall w' B', hown B' w' -> wv w' = wv w -> same_but k B B' -> Q tt (w', Array [] 0 (arr_num a) (arr_max a))) -> wp array_cleanup Q (w, a).
Proof.
  intros Hw [Hh Hv] E HQ. pose proof (holds_num _ _ Hh) as Hnum. rewrite E in Hnum. unfold array_cleanup, get_arr, set_arr, heapM. wp_steps. apply wp_kassert; [cbn; by rewrite Hnum|]. wp_steps. cbn [fst snd].
  destruct (decide (arr_vptr a = 0)) as [E0|E0].
  - rewrite E0. wp_apply kfree_null; [apply w_heap_ok, Hw|]. intros [] w' [Hs EL]. wp_steps. cbn [fst snd]. destruct (side_world w w') as [Hw' EV]; [apply Hw|done|].
    apply (HQ w' B); [by apply (hown_world B w)|done|done].
  - apply (wp_release B k); [done|by apply Hv|]. intros w' Hw' EV. wp_steps. cbn [fst snd]. apply (HQ w' _ Hw' EV). intros b k' Hk. rewrite lookup_delete_Some. split; [|by intros [_ ?]].
    intros Hb. split; [|done]. intros <-. specialize (Hv E0). congruence.
Qed.
End own.

(** * The process table as a map

    The three arrays of the table, seen as a map from pids 1 to 31 to rows,
    and what the table's operations do to it. *)

Record row := Row { r_proc : Z; r_status : Z; r_code : Z }.

Definition free_row : row := Row 0 READY 0.

(** The table [t] holds the rows [m]. *)
Record trep (t : proc_table) (m : gmap Z row) : Prop := {
  tr_row : forall i r, m !! i = Some r -> 1 <= i < 32 /\
    pt_proc t !! Z.to_nat i = Some (Some (r_proc r)) /\ pt_status t !! Z.to_nat i = Some (Some (r_status r)) /\ pt_waitcode t !! Z.to_nat i = Some (Some (r_code r));
  tr_all : forall i, 1 <= i < 32 -> is_Some (m !! i);
  tr_out : forall k, (32 <= k)%nat -> pt_status t !! k = None \/ pt_status t !! k = Some None;   (* never written *)
}.

(** How many pids are free. *)
Definition free_pids (m : gmap Z row) : Z := count_val r_status READY m.

(** The counters of the table agree with its rows: how many pids are free
    and the least of them. *)
Record tcount (t : proc_table) (m : gmap Z row) : Prop := {
  tc_avail : pid_available t = free_pids m;
  tc_full : free_pids m = 0 -> pid_next t = PID_MAX + 1;
  tc_next : 0 < free_pids m -> exists r, m !! pid_next t = Some r /\ r_status r = READY;
  tc_min : forall i r, m !! i = Some r -> r_status r = READY -> pid_next t <= i;
}.

Lemma tr_lookup t m i r : trep t m -> m !! i = Some r -> 1 <= i < 32.
Proof. intros Ht Hi. by apply (tr_row _ _ Ht) in Hi as [? _]. Qed.

Lemma free_pids_bound t m : trep t m -> 0 <= free_pids m <= 31.
Proof.
  intros Ht. split; [apply count_nonneg|]. unfold free_pids, count_val.
  assert (dom m ⊆ list_to_set (seqZ 1 31)) as Hd.
  { intros i [r Hi]%elem_of_dom. apply elem_of_list_to_set, elem_of_seqZ. apply (tr_lookup _ _ _ _ Ht) in Hi. lia. }
  assert (size m <= 31)%nat as Hs.
  { rewrite <- (size_dom (D := gset Z)). etransitivity; [by apply subseteq_size|]. by rewrite size_list_to_set by apply NoDup_seqZ. }
  assert (size (filter (fun e => r_status e.2 = READY) m) <= size m)%nat; [|lia].
  rewrite <- !(size_dom (D := gset Z)). apply subseteq_size, dom_filter_subseteq.
Qed.

Lemma free_pids_set m i r r' : m !! i = Some r ->
  free_pids (<[i := r']> m) = free_pids m - (if decide (r_status r = READY) then 1 else 0) + if decide (r_status r' = READY) then 1 else 0.
Proof. apply count_update. Qed.

(** A free pid, the least of them. *)
Definition least_free (m : gmap Z row) (j : Z) : Prop := (exists r, m !! j = Some r /\ r_status r = READY) /\ forall i r, m !! i = Some r -> r_status r = READY -> j <= i.

Lemma least_free_exists m : (forall i r, m !! i = Some r -> 0 <= i) -> 0 < free_pids m -> exists j, least_free m j.
Proof.
  intros Hpos (i & r & Hi & Hr)%count_some. assert (forall n : nat, forall i r, m !! i = Some r -> r_status r = READY -> i < Z.of_nat n -> exists j, least_free m j) as Hn.
  { clear i r Hi Hr. induction n as [|n IH]; intros i r Hi Hr Hlt; [apply Hpos in Hi; lia|].
    destruct (decide (map_Exists (fun j r => r_status r = READY /\ j < Z.of_nat n) m)) as [(j & rj & Hj & Hrj & Hjn)|Hno]; [by eapply IH|].
    exists i. split; [by exists r|]. intros j rj Hj Hrj. destruct (Z.le_gt_cases i j); [done|]. exfalso. apply Hno. exists j, rj. split_and!; (done || lia). }
  eapply (Hn (Z.to_nat (i + 1)) i r); [done|done|]. apply Hpos in Hi. lia.
Qed.

(** The counters once [i] was taken. *)
Lemma tcount_taken t m i r p n t' : trep t m -> tcount t m -> m !! i = Some r -> r_status r = READY -> pid_available t' = pid_available t - 1 -> pid_next t' = n ->
  (free_pids (<[i := Row p RUNNING 0]> m) = 0 -> n = PID_MAX + 1) -> (0 < free_pids (<[i := Row p RUNNING 0]> m) -> least_free (<[i := Row p RUNNING 0]> m) n) ->
  tcount t' (<[i := Row p RUNNING 0]> m).
Proof.
  intros Ht Hc Hi Hr Ea En Hfull Hleast. pose proof (free_pids_set m i r (Row p RUNNING 0) Hi) as Hf. rewrite decide_True in Hf by done. rewrite decide_False in Hf by done.
  constructor.
  - rewrite Ea, (tc_avail _ _ Hc). lia.
  - intros E. rewrite En. auto.
  - intros Hp. rewrite En. apply (Hleast Hp).
  - intros a ra Ha Hra. rewrite En. destruct Hleast as [_ Hl]; [by eapply count_pos|]. by eapply Hl.
Qed.

Section table.
Context {W : Type} `{World W}.
Implicit Types s : pst W.

Lemma wp_pt (Q : proc_table -> pst W -> Prop) s : Q (ptab s) s -> wp pt Q s.
Proof. intros HQ. unfold pt. by wp_steps. Qed.

(** Reading and writing a row. *)
Lemma wp_cell_proc m i r (Q : Z -> pst W -> Prop) s : trep (ptab s) m -> m !! i = Some r -> Q (r_proc r) s -> wp (cell pt_proc i) Q s.
Proof.
  intros Ht Hi HQ. destruct (tr_row _ _ Ht i r Hi) as (? & E & _ & _). unfold cell. wp_step. apply wp_pt. replace (i <? 0) with false by lia. wp_step. by eapply wp_deref; [done|]; eapply wp_deref.
Qed.

Lemma wp_cell_status m i r (Q : Z -> pst W -> Prop) s : trep (ptab s) m -> m !! i = Some r -> Q (r_status r) s -> wp (cell pt_status i) Q s.
Proof.
  intros Ht Hi HQ. destruct (tr_row _ _ Ht i r Hi) as (? & _ & E & _). unfold cell. wp_step. apply wp_pt. replace (i <? 0) with false by lia. wp_step. by eapply wp_deref; [done|]; eapply wp_deref.
Qed.

Lemma wp_cell_code m i r (Q : Z -> pst W -> Prop) s : trep (ptab s) m -> m !! i = Some r -> Q (r_code r) s -> wp (cell pt_waitcode i) Q s.
Proof.
  intros Ht Hi HQ. destruct (tr_row _ _ Ht i r Hi) as (? & _ & _ & E). unfold cell. wp_step. apply wp_pt. replace (i <? 0) with false by lia. wp_step. by eapply wp_deref; [done|]; eapply wp_deref.
Qed.

(** Updates of the three arrays of a table. *)
Definition upd_row (i : Z) (r : row) (t : proc_table) : proc_table :=
  ProcTable (<[Z.to_nat i := Some (r_proc r)]> (pt_proc t)) (<[Z.to_nat i := Some (r_status r)]> (pt_status t)) (<[Z.to_nat i := Some (r_code r)]> (pt_waitcode t))
    (pt_lock t) (pt_cv t) (pid_available t) (pid_next t).

Lemma trep_upd t m i r r' : trep t m -> m !! i = Some r -> trep (upd_row i r' t) (<[i := r']> m).
Proof.
  intros [H1 H2 H3] Hi. destruct (H1 i r Hi) as (Hr & E1 & E2 & E3). apply lookup_lt_Some in E1, E2, E3. split.
  - intros j y [[<- <-]|[Hne Hj]]%lookup_insert_Some; cbn [upd_row pt_proc pt_status pt_waitcode].
    + split; [done|]. by rewrite !list_lookup_insert_eq.
    + destruct (H1 j y Hj) as (Hj' & ? & ? & ?). split; [done|]. rewrite !list_lookup_insert_ne by lia. done.
  - intros j Hj. apply lookup_insert_is_Some'. right. by apply H2.
  - intros k Hk. cbn [upd_row pt_status]. rewrite list_lookup_insert_ne by lia. by apply H3.
Qed.

(** The same table but for the counters. *)
Lemma trep_counters t m a n : trep t m -> trep (set_pid_next n (set_pid_available a t)) m.
Proof. by intros [H1 H2 H3]. Qed.

Lemma wp_set_status m i r v (Q : unit -> pst W -> Prop) s : trep (ptab s) m -> m !! i = Some r ->
  (forall t, trep t (<[i := Row (r_proc r) v (r_code r)]> m) -> (pt_lock t, pt_cv t, pid_available t, pid_next t) = (pt_lock (ptab s), pt_cv (ptab s), pid_available (ptab s), pid_next (ptab s)) ->
    Q tt (set_ptab t s)) -> wp (set_status i v) Q s.
Proof.
  intros Ht Hi HQ. destruct (tr_row _ _ Ht i r Hi) as (? & E1 & E2 & E3). unfold set_status, store. wp_step. apply wp_pt. replace (i <? 0) with false by lia. wp_step. eapply wp_deref; [done|].
  unfold pt_put. wp_step. apply HQ; [|done]. apply (trep_upd (ptab s) m i r (Row (r_proc r) v (r_code r))) in Hi; [|done].
  unfold upd_row in Hi. cbn [r_proc r_status r_code] in Hi. rewrite (list_insert_id (pt_proc (ptab s))) in Hi by done. by rewrite (list_insert_id (pt_waitcode (ptab s))) in Hi by done.
Qed.

Lemma wp_set_waitcode m i r v (Q : unit -> pst W -> Prop) s : trep (ptab s) m -> m !! i = Some r ->
  (forall t, trep t (<[i := Row (r_proc r) (r_status r) v]> m) -> (pt_lock t, pt_cv t, pid_available t, pid_next t) = (pt_lock (ptab s), pt_cv (ptab s), pid_available (ptab s), pid_next (ptab s)) ->
    Q tt (set_ptab t s)) -> wp (set_waitcode i v) Q s.
Proof.
  intros Ht Hi HQ. destruct (tr_row _ _ Ht i r Hi) as (? & E1 & E2 & E3). unfold set_waitcode, store. wp_step. apply wp_pt. replace (i <? 0) with false by lia. wp_step. eapply wp_deref; [done|].
  unfold pt_put. wp_step. apply HQ; [|done]. apply (trep_upd (ptab s) m i r (Row (r_proc r) (r_status r) v)) in Hi; [|done].
  unfold upd_row in Hi. cbn [r_proc r_status r_code] in Hi. rewrite (list_insert_id (pt_proc (ptab s))) in Hi by done. by rewrite (list_insert_id (pt_status (ptab s))) in Hi by done.
Qed.

Lemma wp_set_proc_cell m i r v (Q : unit -> pst W -> Prop) s : trep (ptab s) m -> m !! i = Some r ->
  (forall t, trep t (<[i := Row v (r_status r) (r_code r)]> m) -> (pt_lock t, pt_cv t, pid_available t, pid_next t) = (pt_lock (ptab s), pt_cv (ptab s), pid_available (ptab s), pid_next (ptab s)) ->
    Q tt (set_ptab t s)) -> wp (set_proc_cell i v) Q s.
Proof.
  intros Ht Hi HQ. destruct (tr_row _ _ Ht i r Hi) as (? & E1 & E2 & E3). unfold set_proc_cell, store. wp_step. apply wp_pt. replace (i <? 0) with false by lia. wp_step. eapply wp_deref; [done|].
  unfold pt_put. wp_step. apply HQ; [|done]. apply (trep_upd (ptab s) m i r (Row v (r_status r) (r_code r))) in Hi; [|done].
  unfold upd_row in Hi. cbn [r_proc r_status r_code] in Hi. rewrite (list_insert_id (pt_status (ptab s))) in Hi by done. by rewrite (list_insert_id (pt_waitcode (ptab s))) in Hi by done.
Qed.

(** Taking and giving back a pid. *)
Lemma wp_add_pid m i r p (Q : unit -> pst W -> Prop) s : trep (ptab s) m -> m !! i = Some r -> p <> 0 -> 0 <= pid_available (ptab s) <= 31 ->
  (forall t, trep t (<[i := Row p RUNNING 0]> m) -> (pt_lock t, pt_cv t, pid_available t, pid_next t) = (pt_lock (ptab s), pt_cv (ptab s), pid_available (ptab s) - 1, pid_next (ptab s)) ->
    Q tt (set_ptab t s)) -> wp (add_pid i p) Q s.
Proof.
  intros Ht Hi Hp Ha HQ. unfold add_pid. wp_step. apply wp_kassert; [by replace (p =? 0) with false by lia|]. wp_step. eapply wp_set_proc_cell; [done|done|]. intros t1 Ht1 [= L1 C1 A1 N1].
  wp_step. eapply wp_set_status; [p_simpl; done|apply lookup_insert_eq|]. intros t2 Ht2 [= L2 C2 A2 N2]. p_simpl. rewrite insert_insert_eq in Ht2.
  wp_step. eapply wp_set_waitcode; [p_simpl; done|apply lookup_insert_eq|]. intros t3 Ht3 [= L3 C3 A3 N3]. p_simpl. rewrite insert_insert_eq in Ht3. cbn [r_proc r_status] in Ht3.
  wp_step. apply wp_pt. unfold pt_put. wp_step. p_simpl. apply (HQ (set_pid_available (s32 (pid_available t3 - 1)) t3)); [by apply (trep_counters t3 _ _ (pid_next t3))|]. p_simpl.
  rewrite s32_id by lia. congruence.
Qed.

Lemma wp_clear_pid m i r (Q : unit -> pst W -> Prop) s : trep (ptab s) m -> m !! i = Some r -> 2 <= i -> 0 <= pid_available (ptab s) <= 31 ->
  (forall t, trep t (<[i := free_row]> m) -> (pt_lock t, pt_cv t, pid_available t, pid_next t) = (pt_lock (ptab s), pt_cv (ptab s), pid_available (ptab s) + 1, pid_next (ptab s)) ->
    Q tt (set_ptab t s)) -> wp (clear_pid i) Q s.
Proof.
  intros Ht Hi H2 Ha HQ. pose proof (tr_lookup _ _ _ _ Ht Hi) as Hr. unfold clear_pid. wp_step. apply wp_kassert; [unfold PID_MIN, PID_MAX; lia|]. wp_step. apply wp_pt. unfold pt_put. wp_step. wp_step.
  wp_step. eapply (wp_set_proc_cell m); [p_simpl; by apply (trep_counters _ _ _ (pid_next (ptab s)))|done|]. intros t1 Ht1 [= L1 C1 A1 N1]. p_simpl.
  wp_step. eapply wp_set_status; [p_simpl; done|apply lookup_insert_eq|]. intros t2 Ht2 [= L2 C2 A2 N2]. p_simpl. rewrite insert_insert_eq in Ht2.
  eapply wp_set_waitcode; [p_simpl; done|apply lookup_insert_eq|]. intros t3 Ht3 [= L3 C3 A3 N3]. p_simpl. rewrite insert_insert_eq in Ht3. cbn [r_proc r_status] in Ht3.
  apply HQ; [done|]. rewrite s32_id in * by lia. congruence.
Qed.

(** The search for the next free pid finds the least from [next] on. *)
Lemma wp_scan m next j r t0 (Q : option unit -> pst W -> Prop) s : trep (ptab s) m -> 1 <= next <= j -> m !! j = Some r -> r_status r = READY ->
  (forall i r', next <= i < j -> m !! i = Some r' -> r_status r' <> READY) ->
  Q (Some tt) (set_ptab (set_pid_next j t0) s) ->
  wp (for_ (Z.to_nat (PID_MAX - next)) next (fun i => status <- cell pt_status i ;; if status =? READY then pt_put (set_pid_next i t0) ;;; ret (Some tt) else ret None)) Q s.
Proof.
  intros Ht Hn Hj Hr Hmin HQ. pose proof (tr_lookup _ _ _ _ Ht Hj) as Hj'. eapply (wp_for _ _ _ (fun i s' => s' = s /\ i <= j)); [split; [done|lia]| |].
  - intros i s' Hi [-> Hij]. destruct (tr_all _ _ Ht i) as [ri Hri]; [lia|]. wp_step. eapply wp_cell_status; [done|done|]. wp_step; boolify.
    + assert (i = j) as ->; [|unfold pt_put; by wp_steps]. destruct (decide (i = j)); [done|]. exfalso. apply (Hmin i ri); [lia|done|done].
    + wp_step. split; [done|]. destruct (decide (i = j)); [congruence|lia].
  - intros s' [_ Hle]. unfold PID_MAX in *. lia.
Qed.
End table.
