(* ===== verification/ProcInv.v ===== *)
(** * The invariant of the process layer

    One group of conditions per concern: blocks, families, threads, address
    spaces, waiting threads, threads that have not started.  A group mentions
    only the fields of the processes it depends on, as a map. *)

From S2P Require Import Prelude KHeap Array KWorld PState Files FilesSpec FilesCalls Proc ProcCalls ProcTable.

(** ** Views of the process structures *)

Definition fam (P : gmap Z proc) : gmap Z (Z * list Z) := (fun x => (pid x, alist (children x))) <$> P.
Definition thr (P : gmap Z proc) : gmap Z (Z * list Z) := (fun x => (pid x, alist (p_threads x))) <$> P.
Definition spc (P : gmap Z proc) : gmap Z Z := p_addrspace <$> P.
Definition lck (P : gmap Z proc) : gmap Z bool := p_lock <$> P.
Definition blk (P : gmap Z proc) : gmap Z (Z * Z * array * array) := (fun x => (p_name x, children_ptr x, children x, p_threads x)) <$> P.

(** A process that is written back with the field of a view unchanged. *)
Lemma view_same {A} (f : proc -> A) (P : gmap Z proc) p x y : P !! p = Some x -> f y = f x -> f <$> <[p := y]> P = f <$> P.
Proof. intros Hx E. rewrite fmap_insert. apply insert_id. by rewrite lookup_fmap, Hx, E. Qed.

Lemma view_lookup {A} (f : proc -> A) (P : gmap Z proc) p x : P !! p = Some x -> (f <$> P) !! p = Some (f x).
Proof. intros E. by rewrite lookup_fmap, E. Qed.

Lemma view_inv {A} (f : proc -> A) (P : gmap Z proc) p a : (f <$> P) !! p = Some a -> exists x, P !! p = Some x /\ a = f x.
Proof. rewrite lookup_fmap_Some. naive_solver. Qed.

(** ** Blocks *)

Record mem (B : uses) (K : gmap Z (Z * Z * array * array)) (F : gmap Z file_handler) (TF : gmap Z trapframe) : Prop := {
  me_fh : forall h x, F !! h = Some x -> B !! h = Some KFh;
  me_tf : forall d x, TF !! d = Some x -> B !! d = Some KTf;
  me_proc : forall p n c a t, K !! p = Some (n, c, a, t) ->
    B !! p = Some KProc /\ B !! n = Some (KName p) /\ B !! c = Some (KArr p) /\ aown B (KVec p) a /\ aown B (KThr p) t;
}.

(** ** Families *)

Definition used (st : Z) : Prop := st = RUNNING \/ st = ZOMBIE \/ st = ORPHAN.
Definition lives (m : gmap Z row) (i : Z) : Prop := exists r, m !! i = Some r /\ (r_status r = RUNNING \/ r_status r = ORPHAN).

(** Rows and processes belong together, except for the processes [X] that
    have no row yet and the rows [Y] whose process is gone already; the
    children of a process that lives exist and can be waited for, except for
    processes [E] that are about to exit. *)
Record family (m : gmap Z row) (X Y E : gset Z) (k : Z) (A : gmap Z (Z * list Z)) : Prop := {
  fa_null : A !! 0 = None;
  fa_row : forall i r, m !! i = Some r -> i ∉ Y -> (r_status r = READY /\ r_proc r = 0) \/ (used (r_status r) /\ r_proc r ∉ X /\ exists l, A !! r_proc r = Some (i, l));
  fa_pid : forall p i l, A !! p = Some (i, l) -> p ∉ X -> exists r, m !! i = Some r /\ r_proc r = p /\ used (r_status r);
  fa_kproc : exists l r, A !! k = Some (1, l) /\ k ∉ X /\ m !! 1 = Some r /\ r_status r = RUNNING;
  fa_kids : forall p i l, A !! p = Some (i, l) -> p ∉ E -> lives m i -> NoDup l /\
    forall c, c ∈ l -> c <> p /\ c ∉ X /\ exists j l' r, A !! c = Some (j, l') /\ j <> 1 /\ m !! j = Some r /\ (r_status r = RUNNING \/ r_status r = ZOMBIE);
  fa_parent : forall p i l q j l' c, A !! p = Some (i, l) -> p ∉ E -> lives m i -> A !! q = Some (j, l') -> q ∉ E -> lives m j -> c ∈ l -> c ∈ l' -> p = q;
}.

(** ** Threads *)

(** Every thread is on the list of its process and the other way round; a
    zombie has none, unless it is one of the processes [E]. *)
Record threads (m : gmap Z row) (E : gset Z) (A : gmap Z (Z * list Z)) (tp : gmap Z Z) (V : gset Z) : Prop := {
  th_in : forall t p, tp !! t = Some p -> exists i l, A !! p = Some (i, l) /\ t ∈ l;
  th_out : forall p i l t, A !! p = Some (i, l) -> t ∈ l -> tp !! t = Some p /\ t ∈ V;
  th_one : forall p i l, A !! p = Some (i, l) -> NoDup l /\ (i <> 1 -> (length l <= 1)%nat);
  th_zombie : forall p i l r, A !! p = Some (i, l) -> p ∉ E -> m !! i = Some r -> r_status r = ZOMBIE -> l = [];
}.

(** ** Address spaces *)

Record spaces {SP} (A : gmap Z Z) (S : gmap Z SP) : Prop := {
  sp_some : forall p a, A !! p = Some a -> a <> 0 -> is_Some (S !! a);
  sp_inj : forall p q a, A !! p = Some a -> A !! q = Some a -> a <> 0 -> p = q;
}.

(** ** Threads inside waitpid *)

Record waits (m : gmap Z row) (A : gmap Z (Z * list Z)) (tp : gmap Z Z) (q wk : list waiter) : Prop := {
  wa_child : forall t i rv, (t, (i, rv)) ∈ q ++ wk -> exists p j l c l', tp !! t = Some p /\ A !! p = Some (j, l) /\ lives m j /\ c ∈ l /\ A !! c = Some (i, l');
  wa_sleep : forall t i rv r, (t, (i, rv)) ∈ q -> m !! i = Some r -> r_status r <> ZOMBIE;
  wa_nodup : NoDup (fst <$> q ++ wk);
}.

(** ** Threads that have not started *)

Record starts (td : gmap Z Z) (TF : gmap Z trapframe) : Prop := {
  st_some : forall t d, td !! t = Some d -> is_Some (TF !! d);
  st_inj : forall t u d, td !! t = Some d -> td !! u = Some d -> t = u;
}.

Section inv.
Context {W : Type} `{World W}.
Implicit Types s : pst W.

(** ** The whole *)

(** The table's lock, and that it is no handler's. *)
Definition tlock (b : bool) (v : wview space_t) (t : proc_table) (F : gmap Z file_handler) : Prop :=
  v_locks v !! pt_lock t = Some b /\ forall h x, F !! h = Some x -> fh_lock x <> pt_lock t.

(** In the middle of an operation: processes without a row, rows without a
    process, processes that exit, the table's lock, the [p_lock]s held. *)
Record pmid (B : uses) (m : gmap Z row) (X Y E : gset Z) (lk : bool) (PL : gset Z) s : Prop := {
  pv_own : hown B (pw s);
  pv_mem : mem B (blk (procs s)) (fhs s) (tfs s);
  pv_files : fpure (heap_live (pw s)) (wv (pw s)) (cwds (procs s)) (ftab s) (fhs s);
  pv_plocks : forall p b, lck (procs s) !! p = Some b -> b = bool_decide (p ∈ PL);
  pv_tab : trep (ptab s) m;
  pv_tlock : tlock lk (wv (pw s)) (ptab s) (fhs s);
  pv_family : family m X Y E (kproc s) (fam (procs s));
  pv_threads : threads m E (thr (procs s)) (tproc s) (v_threads (wv (pw s)));
  pv_spaces : spaces (spc (procs s)) (v_spaces (wv (pw s)));
  pv_starts : starts (tdata s) (tfs s);
}.

(** Between operations. *)
Record pinv (B : uses) (m : gmap Z row) s : Prop := {
  pv_mid : pmid B m ∅ ∅ ∅ false ∅ s;
  pv_count : tcount (ptab s) m;
  pv_waits : waits m (fam (procs s)) (tproc s) (cv_queue s) (cv_woken s);
}.

Lemma pmid_finv B m X Y E lk s : pmid B m X Y E lk ∅ s -> finv s.
Proof.
  intros I. split; [apply (pv_own _ _ _ _ _ _ _ _ I)|apply I|]. intros p x Hx. rewrite (pv_plocks _ _ _ _ _ _ _ _ I p (p_lock x)); [|by apply (view_lookup p_lock)].
  by apply bool_decide_eq_false_2, not_elem_of_empty.
Qed.

(** ** File system calls *)

Lemma view_cwd {A} (f : proc -> A) (P P' : gmap Z proc) : (forall x, f (set_p_cwd 0 x) = f x) ->
  set_p_cwd 0 <$> P' = set_p_cwd 0 <$> P -> f <$> P' = f <$> P.
Proof.
  intros Hf E. apply (f_equal (fmap f)) in E. rewrite <- !map_fmap_compose in E.
  rewrite (map_fmap_ext (f ∘ set_p_cwd 0) f P') in E by (intros; apply Hf). by rewrite (map_fmap_ext (f ∘ set_p_cwd 0) f P) in E by (intros; apply Hf).
Qed.

(** The uses after a file system call: the handlers anew, the rest as it was. *)
Definition reown (B : uses) (F : gmap Z file_handler) : uses := ((fun _ => KFh) <$> F) ∪ filter (fun e => e.2 <> KFh) B.

Lemma reown_fh B F h x : F !! h = Some x -> reown B F !! h = Some KFh.
Proof. intros E. unfold reown. apply lookup_union_Some_l. by rewrite lookup_fmap, E. Qed.

Lemma reown_other B F b k : F !! b = None -> B !! b = Some k -> k <> KFh -> reown B F !! b = Some k.
Proof. intros E Hb Hk. unfold reown. rewrite lookup_union_r by (by rewrite lookup_fmap, E). by apply map_lookup_filter_Some. Qed.

Lemma reown_inv B F b k : reown B F !! b = Some k -> (k = KFh /\ is_Some (F !! b)) \/ (k <> KFh /\ B !! b = Some k).
Proof.
  intros E. unfold reown in E. apply lookup_union_Some_raw in E as [E|[_ E]].
  - apply lookup_fmap_Some in E as (x & <- & E). left. by split; [|eexists].
  - apply map_lookup_filter_Some in E as [E ?]. by right.
Qed.

Lemma pmid_fframe B m X Y E lk s s' : pmid B m X Y E lk ∅ s -> finv s' -> fframe s s' -> pmid (reown B (fhs s')) m X Y E lk ∅ s'.
Proof.
  intros I I' Fr. pose proof (ff_procs _ _ Fr) as EP. injection (ff_rest _ _ Fr) as Etf Ept Ek Etp Etd. injection (ff_cv _ _ Fr) as Ec Eq Ew. injection (ff_view _ _ Fr) as Es Eca Et.
  assert (forall b k, B !! b = Some k -> k <> KFh -> fhs s' !! b = None) as Hno.
  { intros b k Hb Hk. destruct (fhs s' !! b) as [x|] eqn:Ex; [|done]. destruct (ff_fhs _ _ Fr b x Ex) as [Hold _].
    destruct (Hold (ho_live _ _ (pv_own _ _ _ _ _ _ _ _ I) b k Hb)) as [y Hy]. pose proof (me_fh _ _ _ _ (pv_mem _ _ _ _ _ _ _ _ I) b y Hy). congruence. }
  assert (forall b k, B !! b = Some k -> k <> KFh -> reown B (fhs s') !! b = Some k) as Hkeep by (intros; apply reown_other; eauto).
  assert (fam (procs s') = fam (procs s)) as Efam by (by apply view_cwd). assert (thr (procs s') = thr (procs s)) as Ethr by (by apply view_cwd).
  assert (blk (procs s') = blk (procs s)) as Eblk by (by apply view_cwd).
  constructor; rewrite ?Efam, ?Ethr, ?Eblk, ?Ept, ?Ek, ?Etp, ?Etd, ?Etf, ?Eq, ?Ew, ?Et, ?Es; try apply I; try apply I'.
  - split; [apply I'| |].
    + intros b k [(-> & x & Hx)|[Hk Hb]]%reown_inv; [by apply (fp_fh _ _ _ _ _ (fi_pure _ I')) in Hx as (_ & ? & _)|].
      apply (ff_live _ _ Fr); [by eapply (ho_live _ _ (pv_own _ _ _ _ _ _ _ _ I))|]. destruct (fhs s !! b) as [x|] eqn:Ex; [|done]. pose proof (me_fh _ _ _ _ (pv_mem _ _ _ _ _ _ _ _ I) b x Ex). congruence.
    + intros b k [(-> & x & Hx)|[Hk Hb]]%reown_inv; [by apply (fp_fh _ _ _ _ _ (fi_pure _ I')) in Hx as (? & _)|]. by eapply (ho_pos _ _ (pv_own _ _ _ _ _ _ _ _ I)).
  - destruct (pv_mem _ _ _ _ _ _ _ _ I) as [M1 M2 M3]. constructor.
    + intros h x Hx. by eapply reown_fh.
    + intros d x Hx. apply Hkeep; [by eapply M2|done].
    + intros p n c a t Hp. destruct (M3 p n c a t Hp) as (? & ? & ? & [? ?] & [? ?]). split_and!; auto; split; auto.
  - intros p b Hb. unfold lck in Hb. apply view_inv in Hb as (x & Hx & ->). rewrite (fi_plock _ I' p x Hx). symmetry. by apply bool_decide_eq_false_2, not_elem_of_empty.
  - destruct (pv_tlock _ _ _ _ _ _ _ _ I) as [T1 T2]. split; [by apply (ff_locks _ _ Fr)|]. intros h x Hx Ex. destruct (ff_fhs _ _ Fr h x Hx) as [_ Hf]. rewrite <- Ex in T1. destruct (Hf _ T1) as (k & y & Hy & Ey). apply (T2 k y Hy). congruence.
  - assert (spc (procs s') = spc (procs s)) as -> by (by apply view_cwd). apply I.
Qed.

Lemma pinv_fframe B m s s' : pinv B m s -> finv s' -> fframe s s' -> pinv (reown B (fhs s')) m s'.
Proof.
  intros [I C Wa] I' Fr. injection (ff_rest _ _ Fr) as Etf Ept Ek Etp Etd. injection (ff_cv _ _ Fr) as Ec Eq Ew.
  assert (fam (procs s') = fam (procs s)) as Efam by (apply view_cwd; [done|apply Fr]). constructor; [by eapply pmid_fframe|by rewrite Ept|by rewrite Efam, Etp, Eq, Ew].
Qed.
End inv.

Arguments pv_own {W _ _ B m X Y E lk PL s} _.
Arguments pv_mem {W _ _ B m X Y E lk PL s} _.
Arguments pv_files {W _ _ B m X Y E lk PL s} _.
Arguments pv_plocks {W _ _ B m X Y E lk PL s} _.
Arguments pv_tab {W _ _ B m X Y E lk PL s} _.
Arguments pv_tlock {W _ _ B m X Y E lk PL s} _.
Arguments pv_family {W _ _ B m X Y E lk PL s} _.
Arguments pv_threads {W _ _ B m X Y E lk PL s} _.
Arguments pv_spaces {W _ _ B m X Y E lk PL s} _.
Arguments pv_starts {W _ _ B m X Y E lk PL s} _.
Arguments pv_mid {W _ _ B m s} _.
Arguments pv_count {W _ _ B m s} _.
Arguments pv_waits {W _ _ B m s} _.
Arguments ho_ok {W _ _ B w} _.
Arguments ho_live {W _ _ B w} _.
Arguments ho_pos {W _ _ B w} _.
Arguments me_fh {B K F TF} _.
Arguments me_tf {B K F TF} _.
Arguments me_proc {B K F TF} _.
