(* ===== verification/ProcOps.v ===== *)
(** * The operations on processes keep the invariant *)

From S2P Require Import Prelude KHeap Array KWorld PState Files FilesSpec FilesCalls Proc ProcCalls ProcTable ProcInv.

(** ** Small changes *)

Section small.
Context {W : Type} `{World W}.
Implicit Types s : pst W.

Lemma fpure_weaken L v C T F L' v' : fpure L v C T F -> (forall h x, F !! h = Some x -> h ∈ L') ->
  (forall h x, F !! h = Some x -> v_locks v' !! fh_lock x = v_locks v !! fh_lock x) -> (forall n, n <> 0 -> v_refs v n <= v_refs v' n) -> fpure L' v' C T F.
Proof.
  intros [I1 I2 I3 I4] HL Hl Hr. constructor; [done| |done|].
  - intros h x Hx. destruct (I2 h x Hx) as (? & _ & ? & ? & ? & ?). rewrite (Hl h x Hx). split_and!; try done. by eapply HL.
  - intros n Hn. pose proof (I4 n Hn). pose proof (Hr n Hn). lia.
Qed.

(** Views of the world that differ in locks only. *)
Definition same_rest (v v' : wview space_t) : Prop := (v_vrefs v', v_spaces v', v_curas v', v_threads v') = (v_vrefs v, v_spaces v, v_curas v, v_threads v).

Lemma same_rest_refl v : same_rest v v.
Proof. done. Qed.

Lemma same_rest_trans v1 v2 v3 : same_rest v1 v2 -> same_rest v2 v3 -> same_rest v1 v3.
Proof. unfold same_rest. congruence. Qed.

(** The uses of a larger map. *)
Lemma mem_hown B K F TF h x (w : W) : mem B K F TF -> hown B w -> F !! h = Some x -> h ∈ heap_live w.
Proof. intros M Hw Hx. by apply (ho_live Hw h KFh), (me_fh M h x). Qed.

Lemma pmid_world B m X Y E lk PL s w : pmid B m X Y E lk PL s -> hown B w -> wv w = wv (pw s) -> pmid B m X Y E lk PL (set_pw w s).
Proof.
  intros I Hw EV. destruct I. constructor; p_simpl; rewrite ?EV; try done. eapply fpure_weaken; [done| |done|done]. intros h x Hx. by eapply mem_hown.
Qed.

(** The lock of the table. *)
Lemma pmid_tlock B m X Y E lk b PL s w : pmid B m X Y E lk PL s -> wok w -> heap_live w = heap_live (pw s) ->
  wv w = v_set_locks (<[pt_lock (ptab s) := b]> (v_locks (wv (pw s)))) (wv (pw s)) -> pmid B m X Y E b PL (set_pw w s).
Proof.
  intros I Hw EL EV. destruct I as [I1 I2 I3 I4 I5 [T1 T2] I7 I8 I9 I10]. constructor; p_simpl; rewrite ?EV, ?EL; try done.
  - by eapply hown_world.
  - eapply fpure_weaken; [done| | |done].
    + intros h x Hx. by eapply mem_hown.
    + intros h x Hx. cbn [v_set_locks v_locks]. apply lookup_insert_ne. by apply not_eq_sym, (T2 h).
  - split; [apply lookup_insert_eq|done].
Qed.

Lemma wp_tlock_acquire B m X Y E PL l (Q : unit -> pst W -> Prop) s : pmid B m X Y E false PL s -> l = pt_lock (ptab s) ->
  (forall w, pmid B m X Y E true PL (set_pw w s) -> same_rest (wv (pw s)) (wv w) -> Q tt (set_pw w s)) -> wp (world (lock_acquire l)) Q s.
Proof.
  intros I -> HQ. apply wp_world. wp_apply lock_acquire_law; [apply (ho_ok (pv_own I))|apply (pv_tlock I)|]. intros [] w (Hw & EL & EV). apply HQ; [by eapply pmid_tlock|]. by rewrite EV.
Qed.

Lemma wp_tlock_release B m X Y E PL l (Q : unit -> pst W -> Prop) s : pmid B m X Y E true PL s -> l = pt_lock (ptab s) ->
  (forall w, pmid B m X Y E false PL (set_pw w s) -> same_rest (wv (pw s)) (wv w) -> Q tt (set_pw w s)) -> wp (world (lock_release l)) Q s.
Proof.
  intros I -> HQ. apply wp_world. wp_apply lock_release_law; [apply (ho_ok (pv_own I))|apply (pv_tlock I)|]. intros [] w (Hw & EL & EV). apply HQ; [by eapply pmid_tlock|]. by rewrite EV.
Qed.

(** A process written back with the fields the invariant looks at unchanged,
    but for its [p_lock]. *)
Definition same_proc (x y : proc) : Prop :=
  (p_name y, p_addrspace y, p_cwd y, pid y, children_ptr y, children y, p_threads y) = (p_name x, p_addrspace x, p_cwd x, pid x, children_ptr x, children x, p_threads x).

Lemma same_proc_views (P : gmap Z proc) p x y : P !! p = Some x -> same_proc x y ->
  fam (<[p := y]> P) = fam P /\ thr (<[p := y]> P) = thr P /\ spc (<[p := y]> P) = spc P /\ blk (<[p := y]> P) = blk P /\ cwds (<[p := y]> P) = cwds P.
Proof. intros Hx [= E1 E2 E3 E4 E5 E6 E7]. split_and!; apply (view_same _ P p x); congruence. Qed.

Lemma pmid_relock B m X Y E lk PL PL' s p x y : pmid B m X Y E lk PL s -> procs s !! p = Some x -> same_proc x y ->
  p_lock y = bool_decide (p ∈ PL') -> (forall q, q <> p -> q ∈ PL <-> q ∈ PL') -> pmid B m X Y E lk PL' (set_procs (<[p := y]> (procs s)) s).
Proof.
  intros I Hx Hs Hl Hq. destruct (same_proc_views _ _ _ _ Hx Hs) as (E1 & E2 & E3 & E4 & E5). destruct I as [? ? ? Ipl ? ? ? ? ? ?]. constructor; p_simpl; rewrite ?E1, ?E2, ?E3, ?E4, ?E5; try done.
  unfold lck. rewrite fmap_insert. intros q b [[<- <-]|[Hne Hb]]%lookup_insert_Some; [done|]. rewrite (Ipl q b Hb). by apply bool_decide_ext, Hq.
Qed.

Lemma wp_plock_acquire B m X Y E lk PL p x (Q : unit -> pst W -> Prop) s : pmid B m X Y E lk PL s -> procs s !! p = Some x -> p ∉ PL ->
  (pmid B m X Y E lk (PL ∪ {[p]}) (set_procs (<[p := set_p_lock true x]> (procs s)) s) -> Q tt (set_procs (<[p := set_p_lock true x]> (procs s)) s)) -> wp (p_lock_acquire p) Q s.
Proof.
  intros I Hx Hp HQ. apply (wp_p_lock_acquire p x); [done| |].
  - rewrite (pv_plocks I p (p_lock x)) by (by apply (view_lookup p_lock)). by apply bool_decide_eq_false_2.
  - apply HQ. eapply pmid_relock; [done|done|done| |].
    + symmetry. apply bool_decide_eq_true_2. set_solver.
    + set_solver.
Qed.

Lemma wp_plock_release B m X Y E lk PL p x (Q : unit -> pst W -> Prop) s : pmid B m X Y E lk PL s -> procs s !! p = Some x -> p ∈ PL ->
  (pmid B m X Y E lk (PL ∖ {[p]}) (set_procs (<[p := set_p_lock false x]> (procs s)) s) -> Q tt (set_procs (<[p := set_p_lock false x]> (procs s)) s)) -> wp (p_lock_release p) Q s.
Proof.
  intros I Hx Hp HQ. apply (wp_p_lock_release p x); [done| |].
  - rewrite (pv_plocks I p (p_lock x)) by (by apply (view_lookup p_lock)). by apply bool_decide_eq_true_2.
  - apply HQ. eapply pmid_relock; [done|done|done| |].
    + symmetry. apply bool_decide_eq_false_2. set_solver.
    + set_solver.
Qed.
End small.

(** ** A new process *)

Lemma aown_mono B B' k a : aown B k a -> (forall b k, B !! b = Some k -> B' !! b = Some k) -> aown B' k a.
Proof. intros [Hh Hv] HB. split; [done|]. auto. Qed.

Lemma mem_mono B B' K F TF : mem B K F TF -> (forall b k, B !! b = Some k -> B' !! b = Some k) -> mem B' K F TF.
Proof.
  intros [M1 M2 M3] HB. constructor; [eauto|eauto|]. intros p n c a t Hp. destruct (M3 p n c a t Hp) as (? & ? & ? & ? & ?).
  split_and!; auto; by eapply aown_mono.
Qed.

Lemma mem_insert B K F TF p n c a t : mem B K F TF -> B !! p = Some KProc -> B !! n = Some (KName p) -> B !! c = Some (KArr p) -> aown B (KVec p) a -> aown B (KThr p) t ->
  mem B (<[p := (n, c, a, t)]> K) F TF.
Proof. intros [M1 M2 M3] H1 H2 H3 H4 H5. constructor; [done|done|]. intros q n' c' a' t' [[<- [= <- <- <- <-]]|[_ Hq]]%lookup_insert_Some; [done|by apply M3]. Qed.

Lemma family_new m k A p : family m ∅ ∅ ∅ k A -> A !! p = None -> p <> 0 -> family m {[p]} ∅ ∅ k (<[p := (1, [])]> A).
Proof.
  intros [F0 F1 F2 F3 F4 F5] Hp Hp0. assert (forall q a, A !! q = Some a -> <[p := (1, [])]> A !! q = Some a) as Hold.
  { intros q a Hq. rewrite lookup_insert_ne; [done|congruence]. }
  constructor.
  - by rewrite lookup_insert_ne.
  - intros i r Hr Hi. destruct (F1 i r Hr Hi) as [?|(? & _ & l & Hl)]; [by left|right]. split_and!; [done| |exists l; by apply Hold]. apply not_elem_of_singleton. intros Ep. congruence.
  - intros q i l [[<- _]|[Hne Hq]]%lookup_insert_Some Hx; [set_solver|]. apply (F2 q i l Hq). set_solver.
  - destruct F3 as (l & r & Hk & _ & H1 & H2). exists l, r. split_and!; [by apply Hold| |done|done]. apply not_elem_of_singleton. intros ->. congruence.
  - intros q i l [[<- [= <- <-]]|[Hne Hq]]%lookup_insert_Some He Hlv; [split; [constructor|by intros c ?%elem_of_nil]|].
    destruct (F4 q i l Hq He Hlv) as [Hn Hc]. split; [done|]. intros c Hin. destruct (Hc c Hin) as (Hcq & _ & j & l' & r & Hj & ? & ? & ?).
    split; [done|]. split; [apply not_elem_of_singleton; intros ->; congruence|]. exists j, l', r. auto.
  - intros q i l q' j l' c [[<- [= <- <-]]|[Hne Hq]]%lookup_insert_Some He Hlv [[<- [= <- <-]]|[Hne' Hq']]%lookup_insert_Some He' Hlv' Hc Hc'; try done; try (by apply elem_of_nil in Hc); try (by apply elem_of_nil in Hc').
    by apply (F5 q i l q' j l' c).
Qed.

Lemma threads_new m A tp V p : threads m ∅ A tp V -> A !! p = None -> threads m ∅ (<[p := (1, [])]> A) tp V.
Proof.
  intros [T1 T2 T3 T4] Hp. constructor.
  - intros t q Ht. destruct (T1 t q Ht) as (i & l & Hq & ?). exists i, l. split; [|done]. rewrite lookup_insert_ne; [done|congruence].
  - intros q i l t [[<- [= <- <-]]|[_ Hq]]%lookup_insert_Some Ht; [by apply elem_of_nil in Ht|by eapply T2].
  - intros q i l [[<- [= <- <-]]|[_ Hq]]%lookup_insert_Some; [split; [constructor|done]|by eapply T3].
  - intros q i l r [[<- [= <- <-]]|[_ Hq]]%lookup_insert_Some; [done|by eapply T4].
Qed.

Lemma spaces_new {SP} A (S : gmap Z SP) p : spaces A S -> A !! p = None -> spaces (<[p := 0]> A) S.
Proof.
  intros [S1 S2] Hp. constructor.
  - intros q a [[<- <-]|[_ Hq]]%lookup_insert_Some Ha; [done|by eapply S1].
  - intros q q' a [[<- <-]|[_ Hq]]%lookup_insert_Some [[<- E]|[_ Hq']]%lookup_insert_Some Ha; try congruence; by eapply S2.
Qed.

Section create.
Context {W : Type} `{World W}.
Implicit Types s : pst W.

Lemma fpure_new L v C T F p : fpure L v C T F -> C !! p = None -> fpure L v (<[p := 0]> C) T F.
Proof.
  intros [I1 I2 I3 I4] Hp. constructor; [|done|done|].
  - intros q fd h Hq. destruct (I1 q fd h Hq) as (? & ? & ?). split_and!; [|lia|lia|done]. by apply lookup_insert_is_Some'; right.
  - intros n Hn. unfold vneed. rewrite count_insert by done. cbn [id]. rewrite decide_False by done. pose proof (I4 n Hn) as I4n. unfold vneed in I4n. lia.
Qed.

Definition new_proc (n c : Z) : proc := Proc n false empty_array 0 0 1 c empty_array.

Lemma pmid_new B m s w p n c : pmid B m ∅ ∅ ∅ false ∅ s -> wv w = wv (pw s) -> p <> 0 -> B !! p = None -> n <> p -> B !! n = None -> c <> p -> c <> n -> B !! c = None ->
  hown (<[c := KArr p]> (<[n := KName p]> (<[p := KProc]> B))) w ->
  procs s !! p = None /\ pmid (<[c := KArr p]> (<[n := KName p]> (<[p := KProc]> B))) m {[p]} ∅ ∅ false ∅ (set_procs (<[p := new_proc n c]> (procs s)) (set_pw w s)).
Proof.
  intros I EV Hp HBp Hnp HBn Hcp Hcn HBc Hw. set (B' := <[c := _]> _) in *. assert (procs s !! p = None) as HP.
  { destruct (procs s !! p) as [x|] eqn:Ex; [|done]. destruct (me_proc (pv_mem I) p (p_name x) (children_ptr x) (children x) (p_threads x)) as (? & _); [by apply (view_lookup (fun x => (p_name x, children_ptr x, children x, p_threads x)))|congruence]. }
  assert (forall {A} (f : proc -> A), (f <$> procs s) !! p = None) as HPv by (intros; by rewrite lookup_fmap, HP).
  assert (mem B' (blk (procs s)) (fhs s) (tfs s)) as M.
  { eapply mem_mono; [apply I|]. intros b k Hb. unfold B'. rewrite !lookup_insert_ne; [done|congruence..]. }
  split; [done|]. destruct I as [I1 I2 I3 I4 I5 I6 I7 I8 I9 I10]. constructor; p_simpl; rewrite ?EV; try done.
  - unfold blk. rewrite fmap_insert. apply mem_insert; [exact M|..|apply aown_empty|apply aown_empty]; cbn [new_proc p_name children_ptr]; unfold B'.
    + do 2 rewrite lookup_insert_ne by done; apply lookup_insert_eq.
    + rewrite lookup_insert_ne by done; apply lookup_insert_eq.
    + apply lookup_insert_eq.
  - unfold cwds. rewrite fmap_insert. apply fpure_new; [|apply HPv]. eapply fpure_weaken; [done| |done|done]. intros h x Hx. by eapply mem_hown.
  - unfold lck. rewrite fmap_insert. intros q b [[<- <-]|[_ Hq]]%lookup_insert_Some; [symmetry; by apply bool_decide_eq_false_2, not_elem_of_empty|by apply I4].
  - unfold fam. rewrite fmap_insert. apply family_new; [done|apply HPv|done].
  - unfold thr. rewrite fmap_insert. apply threads_new; [done|apply HPv].
  - unfold spc. rewrite fmap_insert. apply spaces_new; [done|apply HPv].
Qed.

Lemma wp_proc_create B m name (Q : Z -> pst W -> Prop) s : pmid B m ∅ ∅ ∅ false ∅ s ->
  (forall w, pmid B m ∅ ∅ ∅ false ∅ (set_pw w s) -> wv w = wv (pw s) -> Q 0 (set_pw w s)) ->
  (forall w B' p n c, procs s !! p = None -> p <> 0 -> wv w = wv (pw s) -> pmid B' m {[p]} ∅ ∅ false ∅ (set_procs (<[p := new_proc n c]> (procs s)) (set_pw w s)) ->
    Q p (set_procs (<[p := new_proc n c]> (procs s)) (set_pw w s))) ->
  wp (proc_create name) Q s.
Proof.
  intros I Q0 Q1. unfold proc_create. wp_step. apply wp_world. apply (wp_alloc B KProc); [apply I|intros w Hw EV; cbn; apply Q0; [by apply pmid_world|done]|].
  intros p w1 Hp HBp Hw1 V1. replace (p =? 0) with false by lia. wp_step. apply wp_world. p_simpl. unfold kstrdup. apply (wp_alloc _ (KName p)  _ _ _ Hw1).
  { intros w2 Hw2 V2. change (0 =? 0) with true. cbv iota. wp_step. apply wp_world. p_simpl. apply (wp_release _ KProc p _ _ Hw2); [apply lookup_insert_eq|]. intros w3 Hw3 V3. wp_step. p_simpl.
    rewrite delete_insert_id in Hw3 by done. apply (Q0 w3); [apply pmid_world; [done|done|congruence]|congruence]. }
  intros n w2 Hn HBn Hw2 V2. replace (n =? 0) with false by lia. apply lookup_insert_None in HBn as [HBn Hnp].
  assert (forall i, ftab s !! (p, i) = None) as Hft.
  { intros i. destruct (ftab s !! (p, i)) as [h|] eqn:Eh; [|done]. destruct (fp_slot _ _ _ _ _ (pv_files I) p i h Eh) as ([x Hx] & _).
    apply (view_inv p_cwd) in Hx as (y & Hy & _). destruct (me_proc (pv_mem I) p (p_name y) (children_ptr y) (children y) (p_threads y)) as (? & _); [by apply (view_lookup (fun x => (p_name x, children_ptr x, children x, p_threads x)))|congruence]. }
  wp_step. eapply (wp_for _ _ _ (fun _ s' => s' = set_pw w2 s)); [done| |].
  { intros i s' _ ->. wp_steps. p_simpl. rewrite delete_id by apply Hft. done. }
  intros s' ->. wp_step. apply wp_world. p_simpl. unfold array_create. wp_step. apply (wp_alloc _ (KArr p) _ _ _ Hw2).
  { intros w3 Hw3 V3. change (0 =? 0) with true. cbv iota. wp_step. wp_step. apply wp_world. p_simpl. apply (wp_release _ (KName p) n _ _ Hw3); [apply lookup_insert_eq|]. intros w4 Hw4 V4. wp_step. apply wp_world. p_simpl.
    rewrite delete_insert_id in Hw4 by (by rewrite lookup_insert_ne). apply (wp_release _ KProc p _ _ Hw4); [apply lookup_insert_eq|]. intros w5 Hw5 V5. wp_step. p_simpl. rewrite delete_insert_id in Hw5 by done.
    apply (Q0 w5); [apply pmid_world; [done|done|congruence]|congruence]. }
  intros c w3 Hc HBc Hw3 V3. replace (c =? 0) with false by lia. apply lookup_insert_None in HBc as [[HBc Hcp]%lookup_insert_None Hcn]. wp_step. wp_steps. p_simpl.
  destruct (pmid_new B m s w3 p n c) as [HP I']; try done; try congruence; [lia|]. eapply (Q1 w3 _ p n c); [done|lia|congruence|exact I'].
Qed.
End create.

(** ** A process gets its pid *)

Lemma lives_other m i j r : j <> i -> lives (<[i := r]> m) j <-> lives m j.
Proof. intros Hne. unfold lives. by rewrite lookup_insert_ne. Qed.

(** A row that is free has no process. *)
Lemma family_free m X Y E k A i r q l : family m X Y E k A -> m !! i = Some r -> r_status r = READY -> A !! q = Some (i, l) -> q ∈ X.
Proof.
  intros F Hi Hr Hq. destruct (decide (q ∈ X)) as [|Hx]; [done|]. destruct (fa_pid _ _ _ _ _ _ F q i l Hq Hx) as (r' & Hr' & _ & Hu).
  rewrite Hi in Hr'. injection Hr' as <-. unfold used, READY, RUNNING, ZOMBIE, ORPHAN in *. lia.
Qed.

Lemma family_add m k A p i0 c j l l' i r : family m {[p]} ∅ ∅ k A -> A !! p = Some (i0, []) -> A !! c = Some (j, l) -> lives m j -> c <> p ->
  m !! i = Some r -> r_status r = READY -> 2 <= i -> (l' = l ++ [p] \/ l' = l) ->
  family (<[i := Row p RUNNING 0]> m) ∅ ∅ ∅ k (<[p := (i, [])]> (<[c := (j, l')]> A)).
Proof.
  intros F Hp Hc Hlv Hcp Hi Hr H2 Hl'. set (A' := <[p := _]> _). set (m' := <[i := _]> m).
  assert (forall q a lq, A !! q = Some (a, lq) -> q <> p -> a <> i) as Hni.
  { intros q a lq Hq Hne ->. pose proof (family_free _ _ _ _ _ _ _ _ _ _ F Hi Hr Hq). set_solver. }
  assert (A' !! p = Some (i, [])) as Ap by apply lookup_insert_eq. assert (A' !! c = Some (j, l')) as Ac by (unfold A'; rewrite lookup_insert_ne by done; apply lookup_insert_eq).
  assert (forall q, q <> p -> q <> c -> A' !! q = A !! q) as Ao by (intros q ? ?; unfold A'; by rewrite !lookup_insert_ne).
  assert (forall q a lq, A' !! q = Some (a, lq) -> (q = p /\ a = i /\ lq = []) \/ (q = c /\ a = j /\ lq = l') \/ (q <> p /\ q <> c /\ A !! q = Some (a, lq))) as Ainv.
  { intros q a lq Hq. destruct (decide (q = p)) as [->|]; [left; naive_solver|]. destruct (decide (q = c)) as [->|]; [right; left; naive_solver|]. right; right. by rewrite <- Ao. }
  assert (forall q a lq, A !! q = Some (a, lq) -> q <> p -> exists lq', A' !! q = Some (a, lq')) as Akeep.
  { intros q a lq Hq Hne. destruct (decide (q = c)) as [->|]; [|exists lq; by rewrite Ao]. exists l'. rewrite Ac. congruence. }
  assert (forall a, a <> i -> lives m' a <-> lives m a) as Hlives by (intros; by apply lives_other).
  destruct (fa_kids _ _ _ _ _ _ F c j l Hc (not_elem_of_empty _) Hlv) as [Hnd Hkids]. assert (p ∉ l) as Hpl.
  { intros Hin. destruct (Hkids p Hin) as (_ & ? & _). set_solver. }
  assert (forall q a lq, A !! q = Some (a, lq) -> q <> p -> lives m a -> NoDup lq /\ forall d, d ∈ lq -> d <> q /\ d <> p /\ d ∉ (∅ : gset Z) /\ exists b ld rd, A' !! d = Some (b, ld) /\ b <> 1 /\ m' !! b = Some rd /\ (r_status rd = RUNNING \/ r_status rd = ZOMBIE)) as Hold.
  { intros q a lq Hq Hne Hla. destruct (fa_kids _ _ _ _ _ _ F q a lq Hq (not_elem_of_empty _) Hla) as [Hn Hk]. split; [done|]. intros d Hd. destruct (Hk d Hd) as (Hdq & Hdp & b & ld & rd & Hb & Hb1 & Hrd & Hst).
    apply not_elem_of_singleton in Hdp. split_and!; [done|done|set_solver|]. destruct (Akeep d b ld Hb Hdp) as [ld' Hld']. exists b, ld', rd. split_and!; [done|done| |done].
    unfold m'. rewrite lookup_insert_ne; [done|]. intros <-. by eapply Hni. }
  constructor.
  - unfold A'. rewrite !lookup_insert_ne; [apply F|intros ->; rewrite (fa_null _ _ _ _ _ _ F) in Hc; done|intros ->; rewrite (fa_null _ _ _ _ _ _ F) in Hp; done].
  - intros a ra [[<- <-]|[Hne Ha]]%lookup_insert_Some _; [right; cbn; split_and!; [by left|apply not_elem_of_empty|by eexists]|].
    destruct (fa_row _ _ _ _ _ _ F a ra Ha (not_elem_of_empty _)) as [?|(Hu & Hpx & la & Hla)]; [by left|right]. apply not_elem_of_singleton in Hpx. split_and!; [done|set_solver|by eapply Akeep].
  - intros q a lq [(-> & -> & ->)|[(-> & -> & ->)|(Hq1 & Hq2 & Hq)]]%Ainv _.
    + exists (Row p RUNNING 0). split_and!; [apply lookup_insert_eq|done|by left].
    + destruct (fa_pid _ _ _ _ _ _ F c j l Hc) as (rc & Hrc & ? & ?); [set_solver|]. exists rc. unfold m'. rewrite lookup_insert_ne; [done|]. intros <-. by eapply Hni.
    + destruct (fa_pid _ _ _ _ _ _ F q a lq Hq) as (rc & Hrc & ? & ?); [set_solver|]. exists rc. unfold m'. rewrite lookup_insert_ne; [done|]. intros <-. by eapply Hni.
  - destruct (fa_kproc _ _ _ _ _ _ F) as (lk & rk & Hk & Hkx & Hrk & Hrs). apply not_elem_of_singleton in Hkx. destruct (Akeep k 1 lk Hk Hkx) as [lk' Hlk']. exists lk', rk. split_and!; [done|set_solver| |done].
    unfold m'. rewrite lookup_insert_ne; [done|lia].
  - intros q a lq [(-> & -> & ->)|[(-> & -> & ->)|(Hq1 & Hq2 & Hq)]]%Ainv _ Hla.
    + split; [constructor|by intros d ?%elem_of_nil].
    + destruct (Hold c j l Hc Hcp Hlv) as [_ Hk]. assert (forall d, d ∈ l' -> d ∈ l \/ d = p) as Hin by (destruct Hl' as [->| ->]; set_solver). split.
      * destruct Hl' as [->| ->]; [|done]. apply NoDup_app. split_and!; [done|set_solver|apply NoDup_singleton].
      * intros d [Hd| ->]%Hin; [destruct (Hk d Hd) as (? & ? & ? & ?); by split_and!|]. split_and!; [done|set_solver|]. exists i, [], (Row p RUNNING 0). split_and!; [done|lia|apply lookup_insert_eq|by left].
    + rewrite Hlives in Hla by (by eapply Hni). destruct (Hold q a lq Hq Hq1 Hla) as [Hn Hk]. split; [done|]. intros d Hd. destruct (Hk d Hd) as (? & ? & ? & ?). by split_and!.
  - assert (forall q a lq d, A' !! q = Some (a, lq) -> lives m' a -> d ∈ lq -> exists lq0, A !! q = Some (a, lq0) /\ q <> p /\ lives m a /\ (d ∈ lq0 \/ (d = p /\ q = c))) as Hback.
    { intros q a lq d [(-> & -> & ->)|[(-> & -> & ->)|(Hq1 & Hq2 & Hq)]]%Ainv Hla Hd; [by apply elem_of_nil in Hd| |].
      - exists l. split_and!; try done. destruct Hl' as [->| ->]; set_solver.
      - exists lq. rewrite Hlives in Hla by (by eapply Hni). split_and!; try done. by left. }
    intros q a lq q' a' lq' d Hq _ Hla Hq' _ Hla' Hd Hd'. destruct (Hback q a lq d Hq Hla Hd) as (l1 & Hl1 & Hn1 & Hlv1 & Hin1). destruct (Hback q' a' lq' d Hq' Hla' Hd') as (l2 & Hl2 & Hn2 & Hlv2 & Hin2).
    assert (forall q a lq, A !! q = Some (a, lq) -> lives m a -> p ∉ lq) as Hnp.
    { intros z az lz Hz Hlz Hin. destruct (fa_kids _ _ _ _ _ _ F z az lz Hz (not_elem_of_empty _) Hlz) as [_ Hk]. destruct (Hk p Hin) as (_ & ? & _). set_solver. }
    destruct Hin1 as [Hin1|[-> ->]], Hin2 as [Hin2|[E2 E2']]; subst; try done; [|by destruct (Hnp q a l1 Hl1 Hlv1)|by destruct (Hnp q' a' l2 Hl2 Hlv2)].
    by apply (fa_parent _ _ _ _ _ _ F q a l1 q' a' l2 d); try done; apply not_elem_of_empty.
Qed.

Lemma waits_add m k A tp Qu wk p i0 c j l l' i r : waits m A tp Qu wk -> family m {[p]} ∅ ∅ k A -> A !! p = Some (i0, []) -> A !! c = Some (j, l) -> c <> p ->
  m !! i = Some r -> r_status r = READY -> (l' = l ++ [p] \/ l' = l) ->
  waits (<[i := Row p RUNNING 0]> m) (<[p := (i, [])]> (<[c := (j, l')]> A)) tp Qu wk.
Proof.
  intros [W1 W2 W3] F Hp Hc Hcp Hi Hr Hl'. constructor; [| |done].
  - intros t a rv Hin. destruct (W1 t a rv Hin) as (q & b & lq & d & ld & Ht & Hq & Hlv & Hd & Hld). assert (q <> p) as Hqp.
    { intros ->. rewrite Hp in Hq. injection Hq as <- <-. by apply elem_of_nil in Hd. }
    assert (d <> p) as Hdp. { intros ->. destruct (fa_kids _ _ _ _ _ _ F q b lq Hq (not_elem_of_empty _) Hlv) as [_ Hk]. destruct (Hk p Hd) as (_ & ? & _). set_solver. }
    assert (b <> i) as Hbi. { intros ->. pose proof (family_free _ _ _ _ _ _ _ _ _ _ F Hi Hr Hq). set_solver. }
    exists q, b, (if decide (q = c) then l' else lq), d, (if decide (d = c) then l' else ld). split_and!; [done| |by apply lives_other| |].
    + rewrite lookup_insert_ne by done. destruct (decide (q = c)) as [->|]; [|by rewrite lookup_insert_ne]. rewrite lookup_insert_eq. congruence.
    + destruct (decide (q = c)) as [->|]; [|done]. rewrite Hc in Hq. injection Hq as <- <-. destruct Hl' as [->| ->]; set_solver.
    + rewrite lookup_insert_ne by done. destruct (decide (d = c)) as [->|]; [|by rewrite lookup_insert_ne]. rewrite lookup_insert_eq. congruence.
  - intros t a rv ra Hin [[<- <-]|[_ Ha]]%lookup_insert_Some; [done|by eapply W2].
Qed.

Lemma mem_children B B' K F TF c n cp a a' t : mem B K F TF -> same_but (KVec c) B B' -> K !! c = Some (n, cp, a, t) -> aown B' (KVec c) a' -> mem B' (<[c := (n, cp, a', t)]> K) F TF.
Proof.
  intros [M1 M2 M3] HB Hc Ha. constructor.
  - intros h x Hx. apply HB; [done|by eapply M1].
  - intros d x Hx. apply HB; [done|by eapply M2].
  - intros q nq cq aq tq [[<- [= <- <- <- <-]]|[Hne Hq]]%lookup_insert_Some.
    + destruct (M3 c n cp a t Hc) as (? & ? & ? & ? & ?). split_and!; [by apply HB|by apply HB|by apply HB|done|by eapply aown_same].
    + destruct (M3 q nq cq aq tq Hq) as (? & ? & ? & ? & ?). split_and!; [by apply HB|by apply HB|by apply HB| |by eapply aown_same]. eapply aown_same; [done|done|congruence].
Qed.

Lemma threads_add m A tp V p i0 i r q : threads m ∅ A tp V -> A !! p = Some (i0, []) -> m !! i = Some r -> r_status r = READY -> (forall q l, A !! q = Some (i, l) -> q = p) ->
  threads (<[i := Row q RUNNING 0]> m) ∅ (<[p := (i, [])]> A) tp V.
Proof.
  intros [T1 T2 T3 T4] Hp Hi Hr Hq. constructor.
  - intros t z Ht. destruct (T1 t z Ht) as (a & l & Hz & Hin). exists a, l. split; [|done]. rewrite lookup_insert_ne; [done|]. intros <-. rewrite Hp in Hz. injection Hz as <- <-. by apply elem_of_nil in Hin.
  - intros z a l t [[<- [= <- <-]]|[_ Hz]]%lookup_insert_Some Ht; [by apply elem_of_nil in Ht|by eapply T2].
  - intros z a l [[<- [= <- <-]]|[_ Hz]]%lookup_insert_Some; [split; [constructor|cbn; lia]|by eapply T3].
  - intros z a l rz [[<- [= <- <-]]|[_ Hz]]%lookup_insert_Some Hne; [done|]. intros [[<- <-]|[_ Ha]]%lookup_insert_Some; [done|by eapply T4].
Qed.

(** There are at most as many processes as there are pids. *)
Lemma procs_length t m X Y E k A l : trep t m -> family m X Y E k A -> NoDup l -> (forall c, c ∈ l -> c ∉ X /\ is_Some (A !! c)) -> (length l <= 31)%nat.
Proof.
  intros Ht F Hn Hk. set (f := fun c => default 0 (fst <$> A !! c)).
  assert (forall c, c ∈ l -> exists j lj r, A !! c = Some (j, lj) /\ m !! j = Some r /\ r_proc r = c) as Hrow.
  { intros c Hc. destruct (Hk c Hc) as (Hcx & [j lj] & Hj). destruct (fa_pid _ _ _ _ _ _ F c j lj Hj Hcx) as (r & ? & ? & _). by exists j, lj, r. }
  assert (NoDup (f <$> l)) as Hnf.
  { apply NoDup_fmap_2_strong; [|done]. intros c d Hc Hd. destruct (Hrow c Hc) as (j & lj & r & Hj & Hr & <-), (Hrow d Hd) as (j' & lj' & r' & Hj' & Hr' & <-).
    unfold f. rewrite Hj, Hj'. cbn. intros <-. congruence. }
  rewrite <- (length_fmap f). apply (submseteq_length _ (seqZ 1 31)), NoDup_submseteq; [done|]. intros j (c & -> & Hc)%list_elem_of_fmap.
  destruct (Hrow c Hc) as (j & lj & r & Hj & Hr & _). unfold f. rewrite Hj. cbn. apply elem_of_seqZ. pose proof (tr_lookup _ _ _ _ Ht Hr). lia.
Qed.

Lemma kids_length t m X Y E k A p i l : trep t m -> family m X Y E k A -> A !! p = Some (i, l) -> p ∉ E -> lives m i -> (length l <= 31)%nat.
Proof.
  intros Ht F Hp He Hlv. destruct (fa_kids _ _ _ _ _ _ F p i l Hp He Hlv) as [Hn Hk]. eapply procs_length; [done|done|done|]. intros c Hc. destruct (Hk c Hc) as (_ & Hcx & j & lj & r & Hj & _). by split; [|eexists].
Qed.

Lemma procs_size t m X Y E k A : trep t m -> family m X Y E k A -> (size A <= 31 + size X)%nat.
Proof.
  intros Ht F. rewrite <- (size_dom (D := gset Z)). assert (size (dom A ∖ X) <= 31)%nat as Hs.
  { apply (procs_length t m X Y E k A (elements (dom A ∖ X)) Ht F); [apply NoDup_elements|]. intros c [Hc Hx]%elem_of_elements%elem_of_difference. by split; [|apply elem_of_dom]. }
  assert (dom A ⊆ (dom A ∖ X) ∪ X) as Hsub.
  { intros c Hc. destruct (decide (c ∈ X)); set_solver. }
  apply subseteq_size in Hsub. rewrite size_union_alt in Hsub. assert (X ∖ (dom A ∖ X) ⊆ X) as Hx by set_solver. apply subseteq_size in Hx. lia.
Qed.

(** ... and the file tables have bounded size. *)
Lemma slots_length (l : list Z) : length (l ≫= (fun q => (q,.) <$> seqZ 0 32)) = (32 * length l)%nat.
Proof. induction l as [|q l IH]; [done|]. rewrite bind_cons, length_app, IH, length_fmap, length_seqZ. cbn [length]. change (Z.to_nat 32) with 32%nat. lia. Qed.

Lemma refs_le (C : gmap Z Z) (T : gmap (Z * Z) Z) h : (forall p fd k, T !! (p, fd) = Some k -> is_Some (C !! p) /\ 0 <= fd < OPEN_MAX) -> refs T h <= 32 * Z.of_nat (size C).
Proof.
  intros Hs. unfold refs, count_val. assert (size (filter (fun e => id e.2 = h) T) <= size T)%nat as H1.
  { rewrite <- !(size_dom (D := gset (Z * Z))). apply subseteq_size, dom_filter_subseteq. }
  assert (size T <= 32 * size C)%nat; [|lia]. assert (size C = length (elements (dom C))) as -> by (rewrite <- (size_dom (D := gset Z) C); done). rewrite <- slots_length, <- length_map_to_list, <- (length_fmap fst).
  apply submseteq_length, NoDup_submseteq; [apply NoDup_fst_map_to_list|]. intros [q fd] ([k' h'] & [= <-] & Hin%elem_of_map_to_list)%list_elem_of_fmap.
  destruct (Hs q fd h' Hin) as [[c Hc] Hfd]. apply list_elem_of_bind. exists q. split; [|apply elem_of_elements, elem_of_dom; by eexists].
  apply list_elem_of_fmap. exists fd. split; [done|]. apply elem_of_seqZ. unfold OPEN_MAX in Hfd. lia.
Qed.

Section add.
Context {W : Type} `{World W}.
Implicit Types s : pst W.

(** The table with the new process, its parent's list and its pid. *)
Lemma pinv_added B B' m s w t p x c cx a i r : pmid B m {[p]} ∅ ∅ true ∅ s -> waits m (fam (procs s)) (tproc s) (cv_queue s) (cv_woken s) ->
  procs s !! p = Some x -> alist (children x) = [] -> alist (p_threads x) = [] -> procs s !! c = Some cx -> c <> p -> lives m (pid cx) ->
  m !! i = Some r -> r_status r = READY -> 2 <= i -> hown B' w -> wv w = wv (pw s) -> same_but (KVec c) B B' -> aown B' (KVec c) a ->
  (alist a = alist (children cx) ++ [p] \/ alist a = alist (children cx)) -> trep t (<[i := Row p RUNNING 0]> m) -> pt_lock t = pt_lock (ptab s) ->
  let s' := set_procs (<[p := set_pid i x]> (<[c := set_children a cx]> (procs s))) (set_ptab t (set_pw w s)) in
  pmid B' (<[i := Row p RUNNING 0]> m) ∅ ∅ ∅ true ∅ s' /\ waits (<[i := Row p RUNNING 0]> m) (fam (procs s')) (tproc s') (cv_queue s') (cv_woken s').
Proof.
  intros I Wa Hx Hxc Hxt Hc Hcp Hlv Hi Hr H2 Hw EV HB Ha Hl Ht Elk s'. set (P := procs s) in *. set (P' := <[p := set_pid i x]> (<[c := set_children a cx]> P)).
  assert (fam P' = <[p := (i, [])]> (<[c := (pid cx, alist a)]> (fam P))) as Efam by (unfold P', fam; rewrite !fmap_insert; p_simpl; by rewrite Hxc).
  assert (thr P' = <[p := (i, [])]> (thr P)) as Ethr.
  { unfold P', thr. rewrite !fmap_insert. p_simpl. rewrite Hxt. f_equal. apply insert_id. by rewrite lookup_fmap, Hc. }
  assert (blk P' = <[c := (p_name cx, children_ptr cx, a, p_threads cx)]> (blk P)) as Eblk.
  { unfold P', blk. rewrite !fmap_insert. p_simpl. rewrite insert_insert_ne by done. f_equal. apply insert_id. by rewrite lookup_fmap, Hx. }
  assert (forall A (f : proc -> A), (forall j, f (set_pid j x) = f x) -> (forall b, f (set_children b cx) = f cx) -> f <$> P' = f <$> P) as Esame.
  { intros A f E1 E2. unfold P'. rewrite !fmap_insert, E1, E2. rewrite (insert_id (f <$> P) c) by (by rewrite lookup_fmap, Hc). apply insert_id. by rewrite lookup_fmap, Hx. }
  pose proof (view_lookup (fun x => (pid x, alist (children x))) P p x Hx) as Vp. cbv beta in Vp. rewrite Hxc in Vp. pose proof (view_lookup (fun x => (pid x, alist (children x))) P c cx Hc) as Vc.
  pose proof (view_lookup (fun x => (pid x, alist (p_threads x))) P p x Hx) as Vt. cbv beta in Vt. rewrite Hxt in Vt.
  assert (procs s' = P') as EP by done. assert (pw s' = w) as Ew by done.
  split; [|rewrite EP, Efam; apply (waits_add m (kproc s) (fam P) _ _ _ p (pid x) c (pid cx) (alist (children cx)) (alist a) i r); try done; apply I].
  assert (mem B' (blk P') (fhs s) (tfs s)) as M'.
  { rewrite Eblk. eapply mem_children; [apply I|done| |done]. by apply (view_lookup (fun x => (p_name x, children_ptr x, children x, p_threads x))). }
  destruct I as [I1 I2 I3 I4 I5 I6 I7 I8 I9 I10]. constructor; rewrite ?EP, ?Ew, ?EV; try done.
  - unfold cwds. rewrite Esame by done. eapply fpure_weaken; [exact I3| |done|done]. intros h y Hy. by eapply mem_hown.
  - unfold lck. by rewrite Esame.
  - destruct I6 as [L1 L2]. change (tlock true (wv (pw s)) t (fhs s)). unfold tlock. by rewrite Elk.
  - rewrite Efam. by apply (family_add m (kproc s) (fam P) p (pid x) c (pid cx) (alist (children cx)) (alist a) i r).
  - rewrite Ethr. apply (threads_add m (thr P) _ _ p (pid x) i r); [done|done|done|done|]. intros q l (y & Hy & [= Ei _])%view_inv. assert (q ∈ ({[p]} : gset Z)); [|set_solver].
    eapply (family_free _ _ _ _ _ _ _ _ _ _ I7 Hi Hr). unfold fam. rewrite (view_lookup _ _ _ _ Hy), Ei. done.
  - unfold spc. by rewrite Esame.
Qed.

Lemma wp_take_pid m p x (Q : unit -> pst W -> Prop) s : trep (ptab s) m -> tcount (ptab s) m -> 0 < free_pids m -> p <> 0 -> procs s !! p = Some x ->
  (forall t r, let i := pid_next (ptab s) in m !! i = Some r -> r_status r = READY -> trep t (<[i := Row p RUNNING 0]> m) -> tcount t (<[i := Row p RUNNING 0]> m) -> pt_lock t = pt_lock (ptab s) ->
    Q tt (set_ptab t (set_procs (<[p := set_pid i x]> (procs s)) s))) ->
  wp (take_pid p) Q s.
Proof.
  intros Tr Tc Hpos Hp0 Hx HQ. unfold take_pid. wp_step. apply wp_pt. wp_step. apply (wp_proc_at p x); [done|]. wp_step. apply (wp_proc_put p x); [done|].
  destruct (tc_next _ _ Tc Hpos) as (r & Hi & Hr). set (i := pid_next (ptab s)) in *. pose proof (tr_lookup _ _ _ _ Tr Hi) as Hi'. pose proof (free_pids_bound _ _ Tr) as Hfb.
  pose proof (free_pids_set m i r (Row p RUNNING 0) Hi) as Hf. rewrite decide_True in Hf by done. rewrite decide_False in Hf by done.
  wp_step. eapply (wp_add_pid m i r); [done|done|done|p_simpl; rewrite (tc_avail _ _ Tc); lia|]. p_simpl. intros t1 Tr1 [= El1 Ec1 Ea1 En1].
  wp_step. apply wp_pt. wp_step. p_simpl. rewrite Ea1, (tc_avail _ _ Tc). wp_step; boolify.
  - destruct (least_free_exists (<[i := Row p RUNNING 0]> m)) as [j Hj]; [intros b rb Hb; apply (tr_lookup _ _ _ _ Tr1) in Hb; lia|lia|]. destruct (Hj) as [(rj & Hrj & Hsj) Hmin].
    assert (i <= j) as Hij.
    { apply lookup_insert_Some in Hrj as [[<- <-]|[_ Hrj]]; [done|]. by apply (tc_min _ _ Tc j rj). }
    eapply (wp_scan (<[i := Row p RUNNING 0]> m) i j rj); [done|lia|done|done| |].
    + intros b rb Hb Hrb Hsb. pose proof (Hmin b rb Hrb Hsb). lia.
    + wp_step. p_simpl. apply (HQ (set_pid_next j t1) r); [done|done|by apply (trep_counters t1 _ (pid_available t1))| |done].
      eapply (tcount_taken (ptab s)); [done|done|done|done|p_simpl; by rewrite Ea1|done|lia|done].
  - unfold pt_put. wp_steps. p_simpl. apply (HQ (set_pid_next (PID_MAX + 1) t1) r); [done|done|by apply (trep_counters t1 _ (pid_available t1))| |done].
    eapply (tcount_taken (ptab s)); [done|done|done|done|p_simpl; by rewrite Ea1|done|done|lia].
Qed.

Lemma wp_proc_table_add B m c cx p x (Q : Z -> pst W -> Prop) s : pmid B m {[p]} ∅ ∅ false ∅ s -> tcount (ptab s) m -> waits m (fam (procs s)) (tproc s) (cv_queue s) (cv_woken s) ->
  tproc s !! curt s = Some c -> procs s !! c = Some cx -> c <> p -> lives m (pid cx) -> procs s !! p = Some x -> alist (children x) = [] -> alist (p_threads x) = [] ->
  (forall w, pmid B m {[p]} ∅ ∅ false ∅ (set_pw w s) -> same_rest (wv (pw s)) (wv w) -> free_pids m = 0 -> Q ENPROC (set_pw w s)) ->
  (forall w B' t a i r, m !! i = Some r -> r_status r = READY -> same_rest (wv (pw s)) (wv w) -> (alist a = alist (children cx) ++ [p] \/ alist a = alist (children cx)) ->
    let s' := set_procs (<[p := set_pid i x]> (<[c := set_children a cx]> (procs s))) (set_ptab t (set_pw w s)) in
    pinv B' (<[i := Row p RUNNING 0]> m) s' -> Q 0 s') ->
  wp (proc_table_add p) Q s.
Proof.
  intros I Tc Wa Ht Hc Hcp Hlv Hx Hxc Hxt Q0 Q1. pose proof (pv_tab I) as Tr. pose proof (free_pids_bound _ _ Tr) as Hfb. assert (p <> 0) as Hp0.
  { intros ->. pose proof (fa_null _ _ _ _ _ _ (pv_family I)) as Hn. unfold fam in Hn. by rewrite (view_lookup _ _ _ _ Hx) in Hn. }
  unfold proc_table_add. wp_step. apply wp_kassert; [by replace (p =? 0) with false by lia|]. wp_step. apply wp_pt. wp_step. eapply wp_tlock_acquire; [exact I|done|]. intros w1 I1 V1.
  wp_step. apply wp_pt. p_simpl. rewrite (tc_avail _ _ Tc). wp_step; boolify.
  { wp_step. eapply wp_tlock_release; [exact I1|done|]. intros w2 I2 V2. wp_step. apply (Q0 w2); [done|by eapply same_rest_trans|lia]. }
  wp_step. apply (wp_curproc c); [done|].
  pose proof (me_proc (pv_mem I1) c (p_name cx) (children_ptr cx) (children cx) (p_threads cx) (view_lookup _ _ _ _ Hc)) as (_ & _ & _ & Hown & _).
  assert (Z.of_nat (length (alist (children cx))) < 2 ^ 29 - 1) as Hlen.
  { pose proof (kids_length _ _ _ _ _ _ _ c (pid cx) (alist (children cx)) Tr (pv_family I)) as Hk. specialize (Hk (view_lookup _ _ _ _ Hc) (not_elem_of_empty _) Hlv). lia. }
  assert (forall w B' a, hown B' w -> wv w = wv w1 -> same_but (KVec c) B B' -> aown B' (KVec c) a -> (alist a = alist (children cx) ++ [p] \/ alist a = alist (children cx)) ->
    wp (take_pid p ;;; world (lock_release (pt_lock (ptab s))) ;;; ret 0) Q (set_procs (<[c := set_children a cx]> (procs s)) (set_pw w s))) as Hrest.
  { intros w B' a Hw EV HB Ha Hl. wp_step. eapply (wp_take_pid m p x); [done|done|lia|done|p_simpl; by rewrite lookup_insert_ne|]. p_simpl. intros t r Hi Hr Tr' Tc' Elk.
    assert (2 <= pid_next (ptab s)) as H2.
    { destruct (fa_kproc _ _ _ _ _ _ (pv_family I)) as (_ & r1 & _ & _ & H1 & Hs1). pose proof (tr_lookup _ _ _ _ Tr Hi). destruct (decide (pid_next (ptab s) = 1)) as [Ei|]; [|lia]. rewrite Ei, H1 in Hi. injection Hi as <-. by rewrite Hs1 in Hr. }
    destruct (pinv_added B B' m (set_pw w1 s) w t p x c cx a (pid_next (ptab s)) r) as [I2 Wa2]; try done.
    wp_step. eapply wp_tlock_release; [exact I2|p_simpl; congruence|]. intros w3 I3 V3. wp_step. p_simpl. eapply (Q1 w3 B' t a (pid_next (ptab s)) r); [done|done| |done|].
    - eapply same_rest_trans; [|exact V3]. by rewrite EV.
    - by constructor. }
  wp_step. apply (wp_on_array children set_children c cx); [done|]. p_simpl. eapply (wp_array_add B (KVec c)); [apply I1|done|done| |].
  - intros w Hw EV. cbn [fst snd]. apply (Hrest w B (children cx)); try done. by right.
  - intros w B' a j Hw EV Ha HB El. cbn [fst snd]. apply (Hrest w B' a); try done. by left.
Qed.
End add.
