(* ===== verification/ProcDestroy.v ===== *)
(** * Destroying a process *)

From S2P Require Import Prelude KHeap Array KWorld PState Files FilesSpec FilesCalls Proc ProcCalls ProcTable ProcInv ProcOps.

(** ** What is left without the process *)

Lemma family_delete m X Y E k A p i l : family m X Y E k A -> A !! p = Some (i, l) -> p <> k ->
  (forall q j lq, A !! q = Some (j, lq) -> q ∉ E -> lives m j -> p ∉ lq) ->
  family m (X ∖ {[p]}) (if decide (p ∈ X) then Y else Y ∪ {[i]}) E k (delete p A).
Proof.
  intros [F0 F1 F2 F3 F4 F5] Hp Hpk Hno. assert (forall q a, A !! q = Some a -> q <> p -> delete p A !! q = Some a) as Hkeep by (intros; by rewrite lookup_delete_ne). constructor.
  - apply lookup_delete_None. by right.
  - intros j r Hj HY. assert (j ∉ Y) as HY' by (destruct (decide (p ∈ X)); set_solver). destruct (F1 j r Hj HY') as [?|(Hu & Hx & lj & Hlj)]; [by left|right].
    assert (r_proc r <> p) as Hne.
    { intros Ep. rewrite Ep in *. rewrite decide_False in HY by done. rewrite Hp in Hlj. injection Hlj as <- <-. set_solver. }
    split_and!; [done|set_solver|]. exists lj. by apply Hkeep.
  - intros q j lq [Hne Hq]%lookup_delete_Some Hx. apply (F2 q j lq Hq). set_solver.
  - destruct F3 as (lk & r & Hk & Hkx & ? & ?). exists lk, r. split_and!; [by apply Hkeep|set_solver|done|done].
  - intros q j lq [Hne Hq]%lookup_delete_Some He Hlv. destruct (F4 q j lq Hq He Hlv) as [Hn Hk]. split; [done|]. intros c Hc. destruct (Hk c Hc) as (? & ? & b & lb & r & Hb & ? & ? & ?).
    split; [done|]. split; [set_solver|]. exists b, lb, r. split_and!; try done. apply Hkeep; [done|]. intros ->. by apply (Hno q j lq).
  - intros q j lq q' j' lq' c [_ Hq]%lookup_delete_Some He Hlv [_ Hq']%lookup_delete_Some. by apply (F5 q j lq q' j' lq' c).
Qed.

Lemma threads_delete m E A tp V p i : threads m E A tp V -> A !! p = Some (i, []) -> threads m E (delete p A) tp V.
Proof.
  intros [T1 T2 T3 T4] Hp. constructor.
  - intros t q Ht. destruct (T1 t q Ht) as (j & l & Hq & Hin). exists j, l. split; [|done]. rewrite lookup_delete_ne; [done|]. intros <-. rewrite Hp in Hq. injection Hq as <- <-. by apply elem_of_nil in Hin.
  - intros q j l t [_ Hq]%lookup_delete_Some. by eapply T2.
  - intros q j l [_ Hq]%lookup_delete_Some. by eapply T3.
  - intros q j l r [_ Hq]%lookup_delete_Some. by eapply T4.
Qed.

Lemma spaces_delete {SP} A (S : gmap Z SP) p a S' : spaces A S -> A !! p = Some a -> (S' = delete a S \/ (a = 0 /\ S' = S)) -> spaces (delete p A) S'.
Proof.
  intros [S1 S2] Hp HS. constructor.
  - intros q b [Hne Hq]%lookup_delete_Some Hb. destruct HS as [->|[_ ->]]; [|by eapply S1]. rewrite lookup_delete_ne; [by eapply S1|]. intros <-. by apply Hne, (S2 p q a).
  - intros q q' b [_ Hq]%lookup_delete_Some [_ Hq']%lookup_delete_Some. by apply S2.
Qed.

(** The uses left without those of process [p]. *)
Lemma mem_delete B B' K F F' TF p n c a t : mem B K F TF -> K !! p = Some (n, c, a, t) ->
  (forall b k, B !! b = Some k -> b <> p -> k <> KName p -> k <> KArr p -> k <> KVec p -> k <> KThr p -> B' !! b = Some k) ->
  (forall h, is_Some (F' !! h) -> is_Some (F !! h)) -> mem B' (delete p K) F' TF.
Proof.
  intros [M1 M2 M3] Hp HB HF. destruct (M3 p n c a t Hp) as (Bp & _). constructor.
  - intros h x Hx. destruct (HF h) as [y Hy]; [by eexists|]. apply HB; try done; [by eapply M1|]. intros ->. apply M1 in Hy. congruence.
  - intros d x Hx. apply HB; try done; [by eapply M2|]. intros ->. apply M2 in Hx. congruence.
  - intros q nq cq aq tq [Hne Hq]%lookup_delete_Some. destruct (M3 q nq cq aq tq Hq) as (B1 & B2 & B3 & [Ha1 Ha2] & [Ht1 Ht2]).
    split_and!; [apply HB; [done|congruence..]|apply HB; [done|congruence..]|apply HB; [done|congruence..]| |]; (split; [done|intros Hv]); [specialize (Ha2 Hv)|specialize (Ht2 Hv)]; (apply HB; [done|congruence..]).
Qed.

Section destroy.
Context {W : Type} `{World W}.
Implicit Types s : pst W.

Lemma fpure_gone L v C T F L' v' p c : fpure L v C T F -> C !! p = Some c -> (forall fd, T !! (p, fd) = None) -> (forall h x, F !! h = Some x -> h ∈ L') -> v_locks v' = v_locks v ->
  (forall n, n <> 0 -> v_refs v' n = v_refs v n - if decide (n = c) then 1 else 0) -> fpure L' v' (delete p C) T F.
Proof.
  intros [I1 I2 I3 I4] Hp HT HL El Er. constructor; [| |done|].
  - intros q fd h Hq. destruct (I1 q fd h Hq) as (? & ? & ?). split_and!; [|lia|lia|done]. rewrite lookup_delete_ne; [done|]. intros <-. by rewrite HT in Hq.
  - intros h x Hx. destruct (I2 h x Hx) as (? & _ & ? & ? & ? & ?). rewrite El. split_and!; try done. by eapply HL.
  - intros n Hn. unfold vneed. rewrite (count_delete _ _ _ _ _ Hp), Er by done. cbn [id]. pose proof (I4 n Hn) as I4n. unfold vneed in I4n. destruct (decide (c = n)), (decide (n = c)); try congruence; lia.
Qed.

(** ** The file table *)

(** The handlers [F] are those of [F0] but for counts. *)
Definition same_handlers (F0 F : gmap Z file_handler) : Prop := set_d_count 0 <$> F = set_d_count 0 <$> F0.

Lemma same_handlers_some F0 F h : same_handlers F0 F -> is_Some (F !! h) -> is_Some (F0 !! h).
Proof. unfold same_handlers. intros E [x Hx]. apply (f_equal (lookup h)) in E. rewrite !lookup_fmap, Hx in E. by destruct (F0 !! h). Qed.

Lemma same_handlers_lock F0 F h x : same_handlers F0 F -> F !! h = Some x -> exists y, F0 !! h = Some y /\ fh_lock x = fh_lock y.
Proof.
  unfold same_handlers. intros E Hx. apply (f_equal (lookup h)) in E. rewrite !lookup_fmap, Hx in E. destruct (F0 !! h) as [y|]; [|done]. exists y. split; [done|]. apply (f_equal (fmap fh_lock)) in E. cbn in E. congruence.
Qed.

(** The tables without the entries of [p] below [i]. *)
Definition dropped (p i : Z) (T0 T : gmap (Z * Z) Z) : Prop := forall q fd, T !! (q, fd) = if decide (q = p /\ fd < i) then None else T0 !! (q, fd).

Lemma drop_entry_spec B p i s : hown B (pw s) -> (forall h x, fhs s !! h = Some x -> B !! h = Some KFh) -> fpure (heap_live (pw s)) (wv (pw s)) (cwds (procs s)) (ftab s) (fhs s) ->
  is_Some (procs s !! p) -> 0 <= i < OPEN_MAX ->
  wp (drop_entry p i) (fun _ s' => exists w F, s' = set_ftab (delete (p, i) (ftab s)) (set_fhs F (set_pw w s)) /\ hown B w /\ heap_live w = heap_live (pw s) /\ wv w = wv (pw s) /\
    fpure (heap_live w) (wv w) (cwds (procs s)) (delete (p, i) (ftab s)) F /\ same_handlers (fhs s) F) s.
Proof.
  intros Hw HB I Hp Hi. unfold drop_entry. wp_step. apply wp_ft_get; [done|done|]. destruct (ftab s !! (p, i)) as [h|] eqn:Es; cbn [default from_option id].
  2:{ change (0 =? 0) with true. cbv iota. wp_step. exists (pw s), (fhs s). rewrite delete_id by done. split_and!; try done. by destruct s. }
  destruct (fp_slot _ _ _ _ _ I _ _ _ Es) as (_ & _ & x & Hx). destruct (fp_fh _ _ _ _ _ I h x Hx) as (Hh & HL & Hlk & Hd & Hlt & _). destruct (fp_slot_pos _ _ _ _ _ _ _ _ I Es) as [_ Hpos].
  replace (h =? 0) with false by lia. wp_step. apply (wp_fh_at h x); [done|]. wp_step. apply wp_world. wp_apply lock_acquire_law; [apply Hw|done|]. intros _ w1 (Hw1 & L1 & V1). cbv zeta.
  wp_step. apply (wp_fh_put h x); [done|]. p_simpl. rewrite s32_id by lia. replace (0 <? d_count x) with true by lia. wp_step. apply wp_world. p_simpl.
  wp_apply lock_release_law; [done|rewrite V1; apply lookup_insert_eq|]. intros _ w2 (Hw2 & L2 & V2). rewrite V1, v_lock_unlock in V2 by done. rewrite L1 in L2.
  apply wp_ft_set; [done|done|]. p_simpl. change (0 =? 0) with true. cbv iota. exists w2, (<[h := set_d_count (d_count x - 1) x]> (fhs s)). split_and!; try done.
  - by apply (hown_world B (pw s)).
  - rewrite L2, V2. by apply fpure_undup.
  - unfold same_handlers. rewrite fmap_insert. apply insert_id. by rewrite lookup_fmap, Hx.
Qed.

Lemma drop_entries_spec B p s : hown B (pw s) -> (forall h x, fhs s !! h = Some x -> B !! h = Some KFh) -> fpure (heap_live (pw s)) (wv (pw s)) (cwds (procs s)) (ftab s) (fhs s) ->
  is_Some (procs s !! p) ->
  wp (for_ (R := unit) (Z.to_nat OPEN_MAX) 0 (fun i => drop_entry p i ;;; ret None)) (fun _ s' => exists w T F, s' = set_ftab T (set_fhs F (set_pw w s)) /\ hown B w /\ wv w = wv (pw s) /\
    fpure (heap_live w) (wv w) (cwds (procs s)) T F /\ same_handlers (fhs s) F /\ (forall fd, T !! (p, fd) = None) /\ (forall q fd, q <> p -> T !! (q, fd) = ftab s !! (q, fd))) s.
Proof.
  intros Hw HB I Hp. eapply (wp_for _ _ _ (fun i s' => exists w T F, s' = set_ftab T (set_fhs F (set_pw w s)) /\ hown B w /\ wv w = wv (pw s) /\
    fpure (heap_live w) (wv w) (cwds (procs s)) T F /\ same_handlers (fhs s) F /\ dropped p i (ftab s) T)).
  - exists (pw s), (ftab s), (fhs s). split_and!; try done; [by destruct s|]. intros q fd. destruct (decide (q = p /\ fd < 0)) as [[-> Hfd]|]; [|done].
    destruct (ftab s !! (p, fd)) as [h|] eqn:Es; [|done]. destruct (fp_slot _ _ _ _ _ I _ _ _ Es) as (_ & ? & _). lia.
  - intros i s' Hi (w & T & F & -> & Hw' & EV & I' & HF & HT). change (0 + Z.of_nat (Z.to_nat OPEN_MAX)) with OPEN_MAX in Hi. wp_step. eapply wp_mono; [apply (drop_entry_spec B)|]; p_simpl; try done.
    + intros h x Hx. destruct (same_handlers_some _ _ h HF) as [y Hy]; [by eexists|]. by eapply HB.
    + cbv beta. intros _ s' (w' & F' & -> & Hw'' & EL & EV' & I'' & HF'). wp_step. p_simpl. exists w', (delete (p, i) T), F'. split_and!; try done; [congruence|unfold same_handlers in *; congruence|].
      intros q fd. destruct (decide ((q, fd) = (p, i))) as [[= -> ->]|Hne]; [rewrite lookup_delete_eq; by rewrite decide_True by lia|]. rewrite lookup_delete_ne by done. rewrite HT.
      destruct (decide (q = p /\ fd < i)) as [[-> ?]|]; [by rewrite decide_True by lia|]. rewrite decide_False; [done|]. intros [-> ?]. assert (fd <> i) by congruence. lia.
  - change (0 + Z.of_nat (Z.to_nat OPEN_MAX)) with OPEN_MAX. intros s' (w & T & F & -> & Hw' & EV & I' & HF & HT). exists w, T, F. split_and!; try done.
    + intros fd. rewrite HT. destruct (decide _); [done|]. destruct (ftab s !! (p, fd)) as [h|] eqn:Es; [|done]. destruct (fp_slot _ _ _ _ _ I _ _ _ Es) as (_ & ? & _). lia.
    + intros q fd Hq. rewrite HT. by rewrite decide_False by naive_solver.
Qed.

(** ** The whole *)

(** Removing the first element as often as there are elements. *)
Lemma clear_children_spec B p y s : procs s !! p = Some y -> hown B (pw s) -> aown B (KVec p) (children y) ->
  wp (clear_children p)
    (fun _ s' => exists a, s' = set_procs (<[p := set_children a y]> (procs s)) s /\ aown B (KVec p) a /\ alist a = []) s.
Proof.
  intros Hy Hw Ha. unfold clear_children. wp_step. apply (wp_on_array children set_children p y); [done|]. apply wp_array_num; [apply Ha|]. cbn [fst snd]. rewrite Nat2Z.id. set (l := alist (children y)).
  wp_step. eapply (wp_for _ _ _ (fun i s' => exists a, s' = set_procs (<[p := set_children a y]> (procs s)) s /\ aown B (KVec p) a /\ alist a = drop (Z.to_nat i) l)).
  - exists (children y). split_and!; [by destruct s|done|done].
  - intros i s' Hi (a & -> & Ha' & El). wp_step. apply (wp_on_array children set_children p (set_children a y)); [apply lookup_insert_eq|]. p_simpl.
    assert (Z.of_nat (length (alist a)) = Z.of_nat (length l) - i) as Hlen by (rewrite El, length_drop; lia).
    apply (wp_array_remove B (KVec p)); [done|done|lia|]. intros a' Ha'' El'. cbn [fst snd]. wp_step. exists a'. split_and!; [|done|].
    + p_simpl. by rewrite insert_insert_eq.
    + rewrite El', El. change (Z.to_nat 0) with 0%nat. destruct (drop (Z.to_nat i) l) as [|z l'] eqn:Ed; [apply (f_equal length) in Ed; rewrite length_drop in Ed; cbn in Ed; lia|].
      replace (Z.to_nat (i + 1)) with (Datatypes.S (Z.to_nat i)) by lia. cbn. rewrite <- Nat.add_1_r, <- drop_drop, Ed. done.
  - intros s' (a & -> & Ha' & El). wp_step. exists a. split_and!; [done|done|]. rewrite El. apply drop_ge. lia.
Qed.

Lemma clear_threads_spec B p y s : procs s !! p = Some y -> hown B (pw s) -> aown B (KThr p) (p_threads y) -> alist (p_threads y) = [] ->
  wp (clear_threads p)
    (fun _ s' => exists w B' a, s' = set_procs (<[p := set_p_threads a y]> (procs s)) (set_pw w s) /\ hown B' w /\ wv w = wv (pw s) /\ same_but (KThr p) B B') s.
Proof.
  intros Hy Hw Ha El. unfold clear_threads. wp_step. apply (wp_on_array p_threads set_p_threads p y); [done|]. apply wp_array_num; [apply Ha|]. cbn [fst snd]. rewrite El. change (Z.to_nat (Z.of_nat (length []))) with 0%nat. cbn [for_]. wp_step. wp_step.
  replace (set_p_threads (p_threads y) y) with y by (by destruct y). rewrite insert_id by done. apply (wp_on_array p_threads set_p_threads p y); [done|]. p_simpl.
  apply (wp_array_cleanup B (KThr p)); [done|done|done|]. intros w B' Hw' EV HB. cbn [fst snd]. by exists w, B', (Array [] 0 (arr_num (p_threads y)) (arr_max (p_threads y))).
Qed.

Lemma insert_cwds p y (P : gmap Z proc) : <[p := p_cwd y]> (cwds P) = cwds (<[p := y]> P).
Proof. unfold cwds. by rewrite fmap_insert. Qed.

Lemma set_p_cwd_id c x : p_cwd x = c -> set_p_cwd c x = x.
Proof. intros <-. by destruct x. Qed.

(** The blocks of process [p] go one after the other. *)
Lemma free_blocks_spec B p y c n (s : pst W) (Q : unit -> pst W -> Prop) : procs s !! p = Some y -> hown B (pw s) -> B !! p = Some KProc -> B !! n = Some (KName p) -> B !! c = Some (KArr p) ->
  aown B (KVec p) (children y) -> alist (children y) = [] ->
  (forall w B', hown B' w -> wv w = wv (pw s) -> (forall b k, B !! b = Some k -> b <> p -> k <> KName p -> k <> KArr p -> k <> KVec p -> B' !! b = Some k) ->
    Q tt (set_procs (delete p (procs s)) (set_pw w s))) ->
  wp (on_children p (array_destroy c) ;;; world (kfree n) ;;; modify (fun s => set_procs (delete p (procs s)) s) ;;; world (kfree p)) Q s.
Proof.
  intros Hy Hw Bp Bn Bc Ha El HQ. wp_step. apply (wp_on_array children set_children p y); [done|]. unfold array_destroy. wp_step. eapply (wp_array_cleanup B (KVec p)); [done|done|done|].
  intros w1 B1 Hw1 V1 HB1. unfold heapM. apply wp_zoom. cbn [fst snd]. apply (wp_release B1 (KArr p) c _ _ Hw1); [by apply HB1|]. intros w2 Hw2 V2. p_simpl. cbn [fst snd].
  assert (c <> n) as Hcn by congruence. assert (c <> p) as Hcp by congruence. assert (n <> p) as Hnp by congruence.
  wp_step. apply wp_world. p_simpl. apply (wp_release _ (KName p) n _ _ Hw2); [rewrite lookup_delete_ne by done; by apply HB1|]. intros w3 Hw3 V3. wp_step. wp_step. p_simpl.
  apply wp_world. p_simpl. apply (wp_release _ KProc p _ _ Hw3); [rewrite !lookup_delete_ne by done; by apply HB1|]. intros w4 Hw4 V4. p_simpl. rewrite delete_insert_eq.
  eapply (HQ w4 _ Hw4); [congruence|]. intros b k Hb H1 H2 H3 H4. rewrite !lookup_delete_ne; [by apply HB1|congruence..].
Qed.

(** The invariant of the state without the process. *)
Lemma pmid_gone B B' m X Y E lk s p x w v T F : pmid B m X Y E lk ∅ s -> procs s !! p = Some x -> p <> kproc s -> alist (p_threads x) = [] ->
  (forall q j lq, fam (procs s) !! q = Some (j, lq) -> q ∉ E -> lives m j -> p ∉ lq) ->
  hown B' w -> (forall b k, B !! b = Some k -> b <> p -> k <> KName p -> k <> KArr p -> k <> KVec p -> k <> KThr p -> B' !! b = Some k) ->
  fpure (heap_live w) v (<[p := 0]> (cwds (procs s))) T F -> wv w = v -> (forall fd, T !! (p, fd) = None) -> same_handlers (fhs s) F ->
  v_locks v = v_locks (wv (pw s)) -> v_threads v = v_threads (wv (pw s)) ->
  v_spaces v = (if decide (p_addrspace x = 0) then v_spaces (wv (pw s)) else delete (p_addrspace x) (v_spaces (wv (pw s)))) ->
  pmid B' m (X ∖ {[p]}) (if decide (p ∈ X) then Y else Y ∪ {[pid x]}) E lk ∅ (set_procs (delete p (procs s)) (set_ftab T (set_fhs F (set_pw w s)))).
Proof.
  intros I Hx Hk Hthr Hno Hw HB IF EV HT HF El Et Es. destruct I as [I1 I2 I3 I4 I5 [L1 L2] I7 I8 I9 I10]. constructor; p_simpl; try done.
  - unfold blk. rewrite fmap_delete. eapply mem_delete; [exact I2|by apply (view_lookup (fun x => (p_name x, children_ptr x, children x, p_threads x)))|done|]. intros h. by apply same_handlers_some.
  - unfold cwds in *. rewrite fmap_delete. rewrite <- (delete_insert_eq (p_cwd <$> procs s) p 0). eapply (fpure_gone (heap_live w) v); [done|apply lookup_insert_eq|done| |by rewrite EV|].
    + intros h z Hz. destruct (fp_fh _ _ _ _ _ IF h z Hz) as (_ & ? & _). done.
    + intros n Hn. rewrite EV, decide_False by done. lia.
  - unfold lck. rewrite fmap_delete. intros q b [_ Hq]%lookup_delete_Some. by apply I4.
  - unfold tlock. rewrite EV, El. split; [done|]. intros h z Hz. destruct (same_handlers_lock _ _ h z HF Hz) as (y & Hy & ->). by apply (L2 h).
  - unfold fam in *. rewrite fmap_delete. eapply family_delete; [done|by apply (view_lookup (fun x => (pid x, alist (children x))))|done|done].
  - unfold thr in *. rewrite fmap_delete, EV, Et. eapply (threads_delete _ _ _ _ _ _ (pid x)); [done|]. rewrite (view_lookup _ _ _ _ Hx). by rewrite Hthr.
  - unfold spc in *. rewrite fmap_delete, EV. eapply (spaces_delete _ _ _ (p_addrspace x)); [done|by apply (view_lookup p_addrspace)|]. rewrite Es. destruct (decide _); auto.
Qed.

Lemma wp_proc_destroy B m X Y E lk p x (Q : unit -> pst W -> Prop) s : pmid B m X Y E lk ∅ s -> procs s !! p = Some x -> p <> kproc s -> alist (p_threads x) = [] ->
  (p_addrspace x <> 0 -> p_addrspace x <> v_curas (wv (pw s))) -> (forall q j lq, fam (procs s) !! q = Some (j, lq) -> q ∉ E -> lives m j -> p ∉ lq) ->
  (forall w T F B', let s' := set_procs (delete p (procs s)) (set_ftab T (set_fhs F (set_pw w s))) in
    pmid B' m (X ∖ {[p]}) (if decide (p ∈ X) then Y else Y ∪ {[pid x]}) E lk ∅ s' -> v_curas (wv w) = v_curas (wv (pw s)) -> v_threads (wv w) = v_threads (wv (pw s)) ->
    v_spaces (wv w) = (if decide (p_addrspace x = 0) then v_spaces (wv (pw s)) else delete (p_addrspace x) (v_spaces (wv (pw s)))) ->
    same_handlers (fhs s) F -> (forall q fd, q <> p -> T !! (q, fd) = ftab s !! (q, fd)) -> Q tt s') ->
  wp (proc_destroy p) Q s.
Proof.
  intros I Hx Hk Hthr Hcur Hno HQ. pose proof (pmid_finv _ _ _ _ _ _ _ I) as If. pose proof (fi_plock _ If p x Hx) as Hl. assert (p <> 0) as Hp0.
  { intros ->. pose proof (fa_null _ _ _ _ _ _ (pv_family I)) as Hn. unfold fam in Hn. by rewrite (view_lookup _ _ _ _ Hx) in Hn. }
  destruct (me_proc (pv_mem I) p (p_name x) (children_ptr x) (children x) (p_threads x) (view_lookup _ _ _ _ Hx)) as (Bp & Bn & Bc & Ba & Bt).
  unfold proc_destroy. wp_step. wp_step. wp_step. apply wp_kassert; [by replace (p =? 0) with false by lia|]. wp_step. apply wp_kassert; [by replace (p =? kproc s) with false by lia|].
  wp_step. apply (wp_proc_at p x); [done|]. wp_step.
  eapply (wp_mono _ (fun _ s' => exists w, s' = set_procs (<[p := set_p_cwd 0 x]> (procs s)) (set_pw w s) /\ hown B w /\ heap_live w = heap_live (pw s) /\
    wv w = (if p_cwd x =? 0 then wv (pw s) else v_ref (p_cwd x) (-1) (wv (pw s))))).
  { wp_step; boolify.
    - wp_step. apply wp_world. wp_apply vop_decref_law; [apply If|by eapply cwd_ref|]. intros _ w (Hw & EL & EV). apply (wp_proc_put p x); [done|]. p_simpl. exists w. replace (p_cwd x =? 0) with false by lia.
      split_and!; [done|by apply (hown_world B (pw s)); [apply I|..]|done|done].
    - wp_step. exists (pw s). replace (p_cwd x =? 0) with true by lia. split_and!; [|apply I|done|done]. rewrite (set_p_cwd_id 0 x) by done. rewrite insert_id by done. by destruct s. }
  cbv beta. intros _ s1 (w1 & -> & Hw1 & L1 & V1). wp_step. eapply wp_mono; [apply (clear_children_spec B p (set_p_cwd 0 x)); [apply lookup_insert_eq|done|done]|]. cbv beta. intros _ s2 (a & -> & Ha & Ela). p_simpl. rewrite insert_insert_eq.
  wp_step. eapply (wp_mono _ (fun _ s' => exists w, s' = set_procs (<[p := set_children a (set_p_cwd 0 x)]> (procs s)) (set_pw w s) /\ hown B w /\ heap_live w = heap_live (pw s) /\
    v_locks (wv w) = v_locks (wv (pw s)) /\ v_vrefs (wv w) = v_vrefs (wv w1) /\ v_curas (wv w) = v_curas (wv (pw s)) /\ v_threads (wv w) = v_threads (wv (pw s)) /\
    v_spaces (wv w) = (if decide (p_addrspace x = 0) then v_spaces (wv (pw s)) else delete (p_addrspace x) (v_spaces (wv (pw s)))))).
  { assert (v_spaces (wv w1) = v_spaces (wv (pw s)) /\ v_curas (wv w1) = v_curas (wv (pw s)) /\ v_threads (wv w1) = v_threads (wv (pw s)) /\ v_locks (wv w1) = v_locks (wv (pw s))) as (Es1 & Ec1 & Et1 & El1) by (rewrite V1; by destruct (p_cwd x =? 0)).
    wp_step; boolify.
    - apply wp_world. p_simpl. wp_apply as_destroy_law; [apply Hw1| |rewrite Ec1; auto|]. { rewrite Es1. apply (sp_some _ _ (pv_spaces I) p); [by apply (view_lookup p_addrspace)|done]. }
      intros _ w2 (Hw2 & L2 & V2). p_simpl. exists w2. rewrite V2, decide_False by done. cbn [v_set_spaces v_locks v_vrefs v_curas v_threads v_spaces]. rewrite Es1. split_and!; try done; [by apply (hown_world B w1)|congruence].
    - wp_step. exists w1. rewrite decide_True by done. by split_and!. }
  cbv beta. intros _ s3 (w2 & -> & Hw2 & L2 & El2 & Ev2 & Ec2 & Et2 & Es2). wp_step. eapply wp_mono; [apply (clear_threads_spec B p (set_children a (set_p_cwd 0 x))); [apply lookup_insert_eq|done|done|done]|].
  cbv beta. intros _ s4 (w3 & B3 & a3 & -> & Hw3 & V3 & HB3). p_simpl. rewrite insert_insert_eq. wp_step. apply wp_kassert; [by rewrite Hl|]. wp_step.
  set (y := set_p_threads a3 (set_children a (set_p_cwd 0 x))). set (s4 := set_procs (<[p := y]> (procs s)) (set_pw w3 s)).
  change (wp (for_ (R := unit) (Z.to_nat OPEN_MAX) 0 (fun i => drop_entry p i ;;; ret None)) (fun _ s' => wp (on_children p (array_destroy (children_ptr x)) ;;; world (kfree (p_name x)) ;;;
    modify (fun s => set_procs (delete p (procs s)) s) ;;; world (kfree p)) Q s') s4).
  assert (cwds (procs s4) = <[p := 0]> (cwds (procs s))) as Ecw by (unfold cwds; cbn; by rewrite fmap_insert).
  assert (forall h z, fhs s !! h = Some z -> B3 !! h = Some KFh) as HBf by (intros h z Hz; apply HB3; [done|by eapply (me_fh (pv_mem I))]).
  eapply wp_mono; [apply (drop_entries_spec B3 p s4); [done|done| |cbn; by rewrite lookup_insert_eq]|].
  { rewrite Ecw. eapply (fpure_cwd _ (wv (pw s)) _ _ _ _ p (p_cwd x) 0); [|by apply cwds_lookup|cbn; congruence|].
    - eapply fpure_weaken; [apply I| |done|done]. intros h z Hz. apply (ho_live Hw3 h KFh). by eapply HBf.
    - cbn. intros n Hn. rewrite V3. unfold v_refs at 1. rewrite Ev2. change (default 0 (v_vrefs (wv w1) !! n)) with (v_refs (wv w1) n). rewrite V1.
      destruct (p_cwd x =? 0) eqn:Ez; boolify; rewrite ?v_ref_refs; repeat destruct (decide _); try congruence; lia. }
  cbv beta. intros _ s5 (w5 & T & F & -> & Hw5 & V5 & I5 & HF & HT & HT').
  eapply (free_blocks_spec B3 p y (children_ptr x) (p_name x)); p_simpl; [cbn; apply lookup_insert_eq|done|by apply HB3|by apply HB3|by apply HB3|by eapply aown_same|done|].
  intros w6 B6 Hw6 V6 HB6. cbn. rewrite delete_insert_eq. cbn in V5, V6. rewrite V5, V3 in V6.
  apply (HQ w6 T F B6); try done; try (by rewrite V6). eapply (pmid_gone B B6 m X Y E lk s p x w6 (wv w6) T F); try done; try (by rewrite V6).
  - intros b k Hb ? ? ? ? ?. apply HB6; try done. by apply HB3.
  - cbn in I5. rewrite V6. rewrite V5, V3, <- insert_cwds in I5.
    eapply fpure_weaken; [exact I5| |done|done]. intros h z Hz. apply (ho_live Hw6 h KFh). apply HB6; try done; [|].
    + destruct (same_handlers_some _ _ h HF) as [z' Hz']; [by eexists|]. by eapply HBf.
    + intros ->. destruct (same_handlers_some _ _ p HF) as [z' Hz']; [by eexists|]. apply (me_fh (pv_mem I)) in Hz'. congruence.
Qed.
End destroy.
