(* ===== verification/ProcFork.v ===== *)
(** * Forking *)

From S2P Require Import Prelude KHeap Array KWorld PState Files FilesSpec FilesCalls Proc ProcCalls ProcTable ProcInv ProcOps ProcDestroy.

(** ** Less is asked of the processes that exit *)

Lemma family_weaken m X Y E E' k A : family m X Y E k A -> E ⊆ E' -> family m X Y E' k A.
Proof.
  intros [F0 F1 F2 F3 F4 F5] HE. constructor; try done.
  - intros p i l Hp He. apply (F4 p i l Hp). set_solver.
  - intros p i l q j l' c Hp He Hl Hq He'. apply (F5 p i l q j l' c Hp); set_solver.
Qed.

Lemma threads_weaken m E E' A tp V : threads m E A tp V -> E ⊆ E' -> threads m E' A tp V.
Proof. intros [T1 T2 T3 T4] HE. constructor; try done. intros p i l r Hp He. apply (T4 p i l r Hp). set_solver. Qed.

Lemma spaces_insert {SP} A (S : gmap Z SP) p n c : spaces A S -> A !! p = Some 0 -> n <> 0 -> S !! n = None -> spaces (<[p := n]> A) (<[n := c]> S).
Proof.
  intros [S1 S2] Hp Hn Hs. constructor.
  - intros q a [[<- <-]|[Hne Hq]]%lookup_insert_Some Ha; apply lookup_insert_is_Some'; [by left|right; by eapply S1].
  - intros q q' a [[<- <-]|[Hne Hq]]%lookup_insert_Some [[<- E]|[Hne' Hq']]%lookup_insert_Some Ha; try done.
    + destruct (S1 q' n Hq' Hn). congruence.
    + subst a. destruct (S1 q n Hq Hn). congruence.
    + by apply (S2 q q' a).
Qed.

(** A row that is given back. *)
Lemma family_freed m X Y E k A i r : family m X Y E k A -> m !! i = Some r -> i ∈ Y -> i <> 1 -> (forall p l, A !! p = Some (i, l) -> p ∈ X) ->
  family (<[i := free_row]> m) X (Y ∖ {[i]}) E k A.
Proof.
  intros [F0 F1 F2 F3 F4 F5] Hi HY H1 Hno. assert (forall j, lives (<[i := free_row]> m) j -> lives m j) as Hlv.
  { intros j (rj & [[<- <-]|[_ Hj]]%lookup_insert_Some & Hst); [cbn in Hst; unfold READY, RUNNING, ORPHAN in Hst; lia|by exists rj]. }
  constructor; try done.
  - intros j rj [[<- <-]|[Hne Hj]]%lookup_insert_Some HYj; [by left|]. apply F1; [done|set_solver].
  - intros p j l Hp Hx. destruct (F2 p j l Hp Hx) as (rj & Hj & ?). exists rj. rewrite lookup_insert_ne; [done|]. intros <-. by apply Hx, (Hno p l).
  - destruct F3 as (lk & rk & ? & ? & ? & ?). exists lk, rk. by rewrite lookup_insert_ne.
  - intros p j l Hp He Hl%Hlv. destruct (F4 p j l Hp He Hl) as [Hn Hk]. split; [done|]. intros c Hc. destruct (Hk c Hc) as (? & Hcx & b & lb & rb & Hb & ? & ? & ?). split_and!; [done|done|].
    exists b, lb, rb. rewrite lookup_insert_ne; [done|]. intros <-. by apply Hcx, (Hno c lb).
  - intros p j l q j' l' c Hp He Hl%Hlv Hq He' Hl'%Hlv. by apply (F5 p j l q j' l' c).
Qed.

Lemma threads_freed m E A tp V i : threads m E A tp V -> threads (<[i := free_row]> m) E A tp V.
Proof. intros [T1 T2 T3 T4]. constructor; try done. intros p j l r Hp He [[<- <-]|[_ Hj]]%lookup_insert_Some; [done|by eapply T4]. Qed.

Section fork.
Context {W : Type} `{World W}.
Implicit Types s : pst W.

Lemma pmid_weaken B m X Y E E' lk PL s : pmid B m X Y E lk PL s -> E ⊆ E' -> pmid B m X Y E' lk PL s.
Proof. intros I HE. destruct I. constructor; try done; [by eapply family_weaken|by eapply threads_weaken]. Qed.

(** ** The address space *)

Lemma pmid_space B m X Y E lk PL s p x w n c : pmid B m X Y E lk PL s -> procs s !! p = Some x -> p_addrspace x = 0 -> n <> 0 -> v_spaces (wv (pw s)) !! n = None ->
  wok w -> heap_live w = heap_live (pw s) -> wv w = v_set_spaces (<[n := c]> (v_spaces (wv (pw s)))) (wv (pw s)) ->
  pmid B m X Y E lk PL (set_procs (<[p := set_p_addrspace n x]> (procs s)) (set_pw w s)).
Proof.
  intros I Hx Ha Hn Hs Hw EL EV. destruct I as [I1 I2 I3 I4 I5 I6 I7 I8 I9 I10].
  set (P' := <[p := _]> (procs s)). assert (blk P' = blk (procs s)) as E1 by (by apply (view_same _ _ p x)). assert (cwds P' = cwds (procs s)) as E2 by (by apply (view_same _ _ p x)).
  assert (lck P' = lck (procs s)) as E3 by (by apply (view_same _ _ p x)). assert (fam P' = fam (procs s)) as E4 by (by apply (view_same _ _ p x)). assert (thr P' = thr (procs s)) as E5 by (by apply (view_same _ _ p x)).
  constructor; st_simpl; rewrite ?E1, ?E2, ?E3, ?E4, ?E5, ?EV, ?EL; try done.
  - by apply (hown_world B (pw s)).
  - eapply fpure_weaken; [exact I3| |done|done]. intros h z Hz. by apply (fp_fh _ _ _ _ _ I3) in Hz as (_ & ? & _).
  - unfold P', spc. rewrite fmap_insert. apply spaces_insert; [done| |done|done]. rewrite (view_lookup _ _ _ _ Hx). by rewrite Ha.
Qed.

(** ** The working directory *)

Lemma fpure_cwd_new L v C T F p n : fpure L v C T F -> C !! p = Some 0 -> fpure L (v_ref n 1 v) (<[p := n]> C) T F.
Proof.
  intros I Hp. eapply (fpure_cwd L v _ C T F p 0 n); [done|done|done|]. intros m Hm. rewrite v_ref_refs. rewrite (decide_False (P := m = 0)) by done. lia.
Qed.

Lemma pmid_cwd B m X Y E lk PL s p x w n : pmid B m X Y E lk PL s -> procs s !! p = Some x -> p_cwd x = 0 -> wok w -> heap_live w = heap_live (pw s) -> wv w = v_ref n 1 (wv (pw s)) ->
  pmid B m X Y E lk PL (set_procs (<[p := set_p_cwd n x]> (procs s)) (set_pw w s)).
Proof.
  intros I Hx Ha Hw EL EV. destruct I as [I1 I2 I3 I4 I5 I6 I7 I8 I9 I10].
  set (P' := <[p := _]> (procs s)). assert (blk P' = blk (procs s)) as E1 by (by apply (view_same _ _ p x)). assert (spc P' = spc (procs s)) as E2 by (by apply (view_same _ _ p x)).
  assert (lck P' = lck (procs s)) as E3 by (by apply (view_same _ _ p x)). assert (fam P' = fam (procs s)) as E4 by (by apply (view_same _ _ p x)). assert (thr P' = thr (procs s)) as E5 by (by apply (view_same _ _ p x)).
  constructor; st_simpl; rewrite ?E1, ?E2, ?E3, ?E4, ?E5, ?EV, ?EL; try done.
  - by apply (hown_world B (pw s)).
  - unfold P', cwds. rewrite fmap_insert. apply fpure_cwd_new; [done|]. rewrite (view_lookup _ _ _ _ Hx). by rewrite Ha.
Qed.

(** Views of the world that differ in references to vnodes and locks only. *)
Definition same_as (v v' : wview space_t) : Prop := (v_spaces v', v_curas v', v_threads v') = (v_spaces v, v_curas v, v_threads v).

Lemma same_rest_as v v' : same_rest v v' -> same_as v v'.
Proof. unfold same_rest, same_as. congruence. Qed.

Lemma wp_inherit_cwd B m X Y E lk c p cx y (Q : unit -> pst W -> Prop) s : pmid B m X Y E lk ∅ s -> procs s !! c = Some cx -> procs s !! p = Some y -> c <> p -> p_cwd y = 0 ->
  (forall w, let s' := set_procs (<[p := set_p_cwd (p_cwd cx) y]> (procs s)) (set_pw w s) in pmid B m X Y E lk ∅ s' -> same_as (wv (pw s)) (wv w) -> Q tt s') ->
  wp (inherit_cwd c p) Q s.
Proof.
  intros I Hc Hp Hcp Hy HQ. pose proof (pmid_finv _ _ _ _ _ _ _ I) as If. pose proof (fi_plock _ If c cx Hc) as Hl. unfold inherit_cwd.
  wp_step. apply (wp_p_lock_acquire c cx); [done|done|]. wp_step. apply (wp_proc_at c (set_p_lock true cx)); [apply lookup_insert_eq|]. wp_step. p_simpl. wp_step; boolify.
  - wp_step. apply wp_world. p_simpl. wp_apply vop_incref_law; [apply If|by eapply cwd_ref|]. intros _ w (Hw & EL & EV). p_simpl. wp_step. apply (wp_proc_at p y); [p_simpl; by rewrite lookup_insert_ne|].
    apply (wp_proc_put p y); [p_simpl; by rewrite lookup_insert_ne|]. p_simpl. apply (wp_p_lock_release c (set_p_lock true cx)); [p_simpl; rewrite lookup_insert_ne by done; apply lookup_insert_eq|done|]. p_simpl.
    rewrite (insert_insert_ne _ c p) by done. rewrite insert_insert_eq, unlock_lock by done. rewrite (insert_id (procs s) c) by done. apply (HQ w); [by apply pmid_cwd|]. by rewrite EV.
  - wp_step. apply (wp_p_lock_release c (set_p_lock true cx)); [p_simpl; apply lookup_insert_eq|done|]. p_simpl. rewrite insert_insert_eq, unlock_lock, insert_id by done.
    assert (set_procs (<[p := set_p_cwd (p_cwd cx) y]> (procs s)) (set_pw (pw s) s) = s) as Es.
    { rewrite (set_p_cwd_id (p_cwd cx) y) by congruence. rewrite insert_id by done. by destruct s. }
    specialize (HQ (pw s)). cbn zeta in HQ. rewrite Es in HQ. match goal with |- Q tt ?z => replace z with s by (by destruct s) end. by apply HQ.
Qed.

(** ** The files *)

(** The tables with the entries of [c] below [i] copied to [p]. *)
Definition shared (c p i : Z) (T0 T : gmap (Z * Z) Z) : Prop := forall q fd, T !! (q, fd) = if decide (q = p) then if decide (fd < i) then T0 !! (c, fd) else None else T0 !! (q, fd).

Lemma share_entry_spec c p i s : fpure (heap_live (pw s)) (wv (pw s)) (cwds (procs s)) (ftab s) (fhs s) -> is_Some (procs s !! c) -> is_Some (procs s !! p) -> (size (procs s) <= 40)%nat ->
  ftab s !! (p, i) = None -> 0 <= i < OPEN_MAX ->
  wp (share_entry c p i) (fun _ s' => exists F T, s' = set_ftab T (set_fhs F s) /\ fpure (heap_live (pw s)) (wv (pw s)) (cwds (procs s)) T F /\ same_handlers (fhs s) F /\
    (forall q fd, T !! (q, fd) = if decide (q = p /\ fd = i) then ftab s !! (c, fd) else ftab s !! (q, fd))) s.
Proof.
  intros I Hc Hp Hsz Hno Hi. unfold share_entry. wp_step. apply wp_ft_get; [done|done|]. destruct (ftab s !! (c, i)) as [h|] eqn:Es; cbn [default from_option id].
  2:{ change (0 =? 0) with true. cbv iota. wp_step. exists (fhs s), (ftab s). split_and!; [by destruct s|done|done|]. intros q fd. destruct (decide _) as [[-> ->]|]; [by rewrite Es|done]. }
  destruct (fp_slot _ _ _ _ _ I _ _ _ Es) as (_ & _ & x & Hx). destruct (fp_fh _ _ _ _ _ I h x Hx) as (Hh & HL & Hlk & Hd & Hlt & _). destruct (fp_slot_pos _ _ _ _ _ _ _ _ I Es) as [_ Hpos].
  assert (refs (ftab s) h <= 32 * 40) as Hb.
  { etransitivity; [apply (refs_le (cwds (procs s)))|]. { intros q fd k Hk. destruct (fp_slot _ _ _ _ _ I _ _ _ Hk) as (? & ? & _). done. }
    unfold cwds. rewrite map_size_fmap. lia. }
  replace (h =? 0) with false by lia. wp_step. apply (wp_fh_at h x); [done|]. wp_step. apply (wp_fh_put h x); [done|]. p_simpl. rewrite s32_id by lia. apply wp_ft_set; [done|done|]. p_simpl.
  replace (h =? 0) with false by lia. cbv iota. exists (<[h := set_d_count (d_count x + 1) x]> (fhs s)), (<[(p, i) := h]> (ftab s)). split_and!; [done| | |].
  - apply fpure_dup; try done; [by apply cwds_is_Some|lia].
  - unfold same_handlers. rewrite fmap_insert. apply insert_id. by rewrite lookup_fmap, Hx.
  - intros q fd. destruct (decide (q = p /\ fd = i)) as [[-> ->]|Hne]; [by rewrite lookup_insert_eq|]. rewrite lookup_insert_ne; [done|]. intros [= -> ->]. by apply Hne.
Qed.

Lemma share_entries_spec c p s : fpure (heap_live (pw s)) (wv (pw s)) (cwds (procs s)) (ftab s) (fhs s) -> is_Some (procs s !! c) -> is_Some (procs s !! p) -> c <> p -> (size (procs s) <= 40)%nat ->
  (forall fd, ftab s !! (p, fd) = None) ->
  wp (for_ (R := unit) (Z.to_nat OPEN_MAX) 0 (fun i => share_entry c p i ;;; ret None)) (fun _ s' => exists F T, s' = set_ftab T (set_fhs F s) /\
    fpure (heap_live (pw s)) (wv (pw s)) (cwds (procs s)) T F /\ same_handlers (fhs s) F /\ (forall q fd, T !! (q, fd) = if decide (q = p) then ftab s !! (c, fd) else ftab s !! (q, fd))) s.
Proof.
  intros I Hc Hp Hcp Hsz Hno. eapply (wp_for _ _ _ (fun i s' => exists F T, s' = set_ftab T (set_fhs F s) /\ fpure (heap_live (pw s)) (wv (pw s)) (cwds (procs s)) T F /\ same_handlers (fhs s) F /\ shared c p i (ftab s) T)).
  - exists (fhs s), (ftab s). split_and!; [by destruct s|done|done|]. intros q fd. destruct (decide (q = p)) as [->|]; [|done]. rewrite Hno. destruct (decide (fd < 0)); [|done].
    destruct (ftab s !! (c, fd)) as [h|] eqn:Es; [|done]. destruct (fp_slot _ _ _ _ _ I _ _ _ Es) as (_ & ? & _). lia.
  - change (0 + Z.of_nat (Z.to_nat OPEN_MAX)) with OPEN_MAX. intros i s' Hi (F & T & -> & I' & HF & HT). wp_step. eapply wp_mono; [apply share_entry_spec|]; p_simpl; try done.
    + rewrite HT, decide_True by done. by rewrite decide_False by lia.
    + cbv beta. intros _ s' (F' & T' & -> & I'' & HF' & HT'). wp_step. p_simpl. exists F', T'. split_and!; [done|done|unfold same_handlers in *; congruence|]. intros q fd. rewrite HT'. rewrite !HT. rewrite (decide_False (P := c = p)) by done.
      destruct (decide (q = p)) as [->|]; [|by rewrite decide_False by naive_solver]. destruct (decide (fd = i)) as [->|]; [rewrite decide_True by done; by rewrite decide_True by lia|]. rewrite decide_False by naive_solver.
      destruct (decide (fd < i)); [by rewrite decide_True by lia|by rewrite decide_False by lia].
  - change (0 + Z.of_nat (Z.to_nat OPEN_MAX)) with OPEN_MAX. intros s' (F & T & -> & I' & HF & HT). exists F, T. split_and!; try done. intros q fd. rewrite HT. destruct (decide (q = p)); [|done]. destruct (decide (fd < OPEN_MAX)); [done|].
    destruct (ftab s !! (c, fd)) as [h|] eqn:Es; [|done]. destruct (fp_slot _ _ _ _ _ I _ _ _ Es) as (_ & ? & _). lia.
Qed.

(** New tables and counts, the rest as it was. *)
Lemma pmid_files B m X Y E lk PL s F T : pmid B m X Y E lk PL s -> fpure (heap_live (pw s)) (wv (pw s)) (cwds (procs s)) T F -> same_handlers (fhs s) F -> pmid B m X Y E lk PL (set_ftab T (set_fhs F s)).
Proof.
  intros I I' HF. destruct I as [I1 I2 I3 I4 I5 [L1 L2] I7 I8 I9 I10]. constructor; p_simpl; try done.
  - destruct I2 as [M1 M2 M3]. constructor; try done. intros h x Hx. destruct (same_handlers_some _ _ h HF) as [y Hy]; [by eexists|]. by eapply M1.
  - split; [done|]. intros h z Hz. destruct (same_handlers_lock _ _ h z HF Hz) as (y & Hy & ->). by apply (L2 h).
Qed.

Lemma pmid_procs_size B m X Y E lk PL s : pmid B m X Y E lk PL s -> (size X <= 1)%nat -> (size (procs s) <= 32)%nat.
Proof. intros I HX. pose proof (procs_size _ _ _ _ _ _ _ (pv_tab I) (pv_family I)) as Hs. unfold fam in Hs. rewrite map_size_fmap in Hs. lia. Qed.

(** The entries of a process that is not there. *)
Lemma no_entries L v C T F p fd : fpure L v C T F -> C !! p = None -> T !! (p, fd) = None.
Proof. intros I Hp. destruct (T !! (p, fd)) as [h|] eqn:Es; [|done]. destruct (fp_slot _ _ _ _ _ I _ _ _ Es) as ([c Hc] & _). congruence. Qed.

(** Copying the table with [p_lock] held. *)
Lemma wp_share_all {A} B m c p cx (Q : A -> pst W -> Prop) s k : pmid B m ∅ ∅ ∅ false ∅ s -> procs s !! c = Some cx -> is_Some (procs s !! p) -> c <> p -> (forall fd, ftab s !! (p, fd) = None) ->
  (forall F T, let s' := set_ftab T (set_fhs F s) in pmid B m ∅ ∅ ∅ false ∅ s' -> same_handlers (fhs s) F -> (forall q fd, T !! (q, fd) = if decide (q = p) then ftab s !! (c, fd) else ftab s !! (q, fd)) -> wp k Q s') ->
  wp (p_lock_acquire c ;;; for_ (R := unit) (Z.to_nat OPEN_MAX) 0 (fun i => share_entry c p i ;;; ret None) ;;; p_lock_release c ;;; k) Q s.
Proof.
  intros I Hc Hp Hcp Hno HQ. pose proof (pmid_finv _ _ _ _ _ _ _ I) as If. pose proof (fi_plock _ If c cx Hc) as Hl.
  wp_step. apply (wp_p_lock_acquire c cx); [done|done|]. wp_step. assert (cwds (<[c := set_p_lock true cx]> (procs s)) = cwds (procs s)) as Ecw by (by apply (view_same _ _ c cx)).
  eapply wp_mono; [apply (share_entries_spec c p)|]; st_simpl; rewrite ?Ecw; try done; [apply I|rewrite lookup_insert_eq; done|by rewrite lookup_insert_ne| |].
  { rewrite map_size_insert_Some by done. pose proof (pmid_procs_size _ _ _ _ _ _ _ _ I). rewrite size_empty in *. lia. }
  cbv beta. intros _ s' (F & T & -> & I' & HF & HT). wp_step. apply (wp_p_lock_release c (set_p_lock true cx)); [p_simpl; apply lookup_insert_eq|done|]. p_simpl. rewrite insert_insert_eq, unlock_lock, insert_id by done.
  apply (HQ F T); [by apply pmid_files|done|done].
Qed.

(** ** The new process *)

(** The processes, tables and files as before, up to reference counts. *)
Definition quiet (s s' : pst W) : Prop :=
  procs s' = procs s /\ ftab s' = ftab s /\ same_handlers (fhs s) (fhs s') /\ same_as (wv (pw s)) (wv (pw s')) /\
  (tfs s', ptab s', kproc s', tproc s', tdata s', curt s', cv_queue s', cv_woken s') = (tfs s, ptab s, kproc s, tproc s, tdata s, curt s, cv_queue s, cv_woken s).

Definition child_proc (n as_ cwd i c : Z) : proc := Proc n false empty_array as_ cwd i c empty_array.

(** The state once the child was set up: its structure, its parent's list of
    children, the table, the counts. *)
Definition forked (s : pst W) (c : Z) (cx : proc) (p : Z) (y : proc) (a : array) (t : proc_table) (w : W) (F : gmap Z file_handler) (T : gmap (Z * Z) Z) : pst W :=
  set_ftab T (set_fhs F (set_procs (<[p := y]> (<[c := set_children a cx]> (procs s))) (set_ptab t (set_pw w s)))).

(** A fork that fails once the child has its pid destroys the child, but
    leaves it among its parent's children; a row may be left without its
    process. *)
Definition half_forked (c : Z) (s' : pst W) : Prop := exists B m Y, pmid B m ∅ Y {[c]} false ∅ s'.

Lemma pinv_quiet B m s s' : pinv B m s -> pmid B m ∅ ∅ ∅ false ∅ s' -> quiet s s' -> pinv B m s'.
Proof. intros [I1 I2 I3] I' (EP & _ & _ & _ & [= E1 E2 E3 E4 E5 E6 E7 E8]). constructor; [done|by rewrite E2|by rewrite EP, E4, E7, E8]. Qed.

(** A process that was not there is nobody's child. *)
Lemma fresh_not_child B m s p n i ch c cx a r q j lq : pmid B m ∅ ∅ ∅ false ∅ s -> procs s !! p = None -> m !! i = Some r -> r_status r = READY ->
  fam (<[p := set_pid i (new_proc n ch)]> (<[c := set_children a cx]> (procs s))) !! q = Some (j, lq) -> q ∉ ({[c]} : gset Z) -> lives (<[i := Row p RUNNING 0]> m) j -> p ∉ lq.
Proof.
  intros I Hfresh Hi Hr Hq Hc Hlv Hin. apply not_elem_of_singleton in Hc. unfold fam in Hq. rewrite !fmap_insert in Hq. apply lookup_insert_Some in Hq as [[<- [= <- <-]]|[Hqp Hq]]; [by apply elem_of_nil in Hin|].
  rewrite lookup_insert_ne in Hq by done. assert (j <> i) as Hji by (intros ->; pose proof (family_free _ _ _ _ _ _ _ _ _ _ (pv_family I) Hi Hr Hq); set_solver).
  rewrite lives_other in Hlv by done. destruct (fa_kids _ _ _ _ _ _ (pv_family I) q j lq Hq (not_elem_of_empty _) Hlv) as [_ Hk]. destruct (Hk p Hin) as (_ & _ & b & lb & rb & Hb & _).
  unfold fam in Hb. by rewrite lookup_fmap, Hfresh in Hb.
Qed.

Lemma wp_proc_create_fork B m c cx sp name (Q : err Z -> pst W -> Prop) s : pinv B m s -> tproc s !! curt s = Some c -> procs s !! c = Some cx -> lives m (pid cx) ->
  v_spaces (wv (pw s)) !! p_addrspace cx = Some sp ->
  (forall e B' s', e <> 0 -> pinv B' m s' -> quiet s s' -> Q (inl e) s') ->
  (forall e s', e <> 0 -> half_forked c s' -> Q (inl e) s') ->
  (forall B' p n as_ i ch a t w F T r, procs s !! p = None -> p <> 0 -> m !! i = Some r -> r_status r = READY -> as_ <> 0 -> v_spaces (wv (pw s)) !! as_ = None -> v_spaces (wv w) !! as_ = Some sp ->
    v_curas (wv w) = v_curas (wv (pw s)) -> v_threads (wv w) = v_threads (wv (pw s)) -> (alist a = alist (children cx) ++ [p] \/ alist a = alist (children cx)) -> same_handlers (fhs s) F ->
    (forall q fd, T !! (q, fd) = if decide (q = p) then ftab s !! (c, fd) else ftab s !! (q, fd)) ->
    let s' := forked s c cx p (child_proc n as_ (p_cwd cx) i ch) a t w F T in pinv B' (<[i := Row p RUNNING 0]> m) s' -> Q (inr p) s') ->
  wp (proc_create_fork name) Q s.
Proof.
  intros I Ht Hc Hlv Hsp Q0 Q1 Q2. unfold proc_create_fork. wp_step. apply (wp_curproc c); [done|]. wp_step. apply (wp_proc_create B m); [apply I| |].
  { intros w I' EV. change (0 =? 0) with true. cbv iota. wp_step. assert (quiet s (set_pw w s)) as Hq by (unfold quiet, same_as; p_simpl; by rewrite EV). eapply Q0; [done| |done]. by eapply pinv_quiet. }
  intros w B1 p n ch Hfresh Hp0 EV I1. replace (p =? 0) with false by lia. assert (c <> p) as Hcp by congruence. wp_step.
  assert (fam (<[p := new_proc n ch]> (procs s)) = <[p := (1, [])]> (fam (procs s))) as Efam by (unfold fam; by rewrite fmap_insert).
  eapply (wp_proc_table_add B1 m c cx p (new_proc n ch)); st_simpl; try done; [apply I| |by rewrite lookup_insert_ne|apply lookup_insert_eq| |].
  { rewrite Efam. destruct (pv_waits I) as [W1 W2 W3]. constructor; try done. intros t i rv Hin. destruct (W1 t i rv Hin) as (q & j & l & d & l' & ? & Hq & ? & ? & Hd). exists q, j, l, d, l'.
    assert (fam (procs s) !! p = None) as Hn by (unfold fam; by rewrite lookup_fmap, Hfresh). split_and!; try done; rewrite lookup_insert_ne; congruence. }
  { intros w2 I2 V2 _. change (negb (ENPROC =? 0)) with true. cbv iota. wp_step. eapply (wp_proc_destroy B1 m {[p]} ∅ ∅ false p (new_proc n ch)); [exact I2|st_simpl; apply lookup_insert_eq| |done|done| |].
    - st_simpl. intros ->. destruct (fa_kproc _ _ _ _ _ _ (pv_family (pv_mid I))) as (l & r & Hk & _). unfold fam in Hk. by rewrite lookup_fmap, Hfresh in Hk.
    - st_simpl. intros q j lq Hq He Hlq Hin. destruct (fa_kids _ _ _ _ _ _ (pv_family I2) q j lq Hq He Hlq) as [_ Hk]. destruct (Hk p Hin) as (_ & ? & _). set_solver.
    - intros w3 T F B3 s' I3 Ec3 Et3 Es3 HF HT. wp_step. rewrite decide_True in I3 by set_solver. rewrite difference_diag_L in I3.
      assert (procs s' = procs s) as EP by (subst s'; st_simpl; by apply delete_insert_id).
      assert (T = ftab s) as ET.
      { apply map_eq. intros [q fd]. destruct (decide (q = p)) as [->|Hq]; [|by apply HT]. transitivity (@None Z).
        - apply (no_entries _ _ _ _ _ p fd (pv_files I3)). rewrite EP. unfold cwds. by rewrite lookup_fmap, Hfresh.
        - symmetry. apply (no_entries _ _ _ _ _ p fd (pv_files (pv_mid I))). unfold cwds. by rewrite lookup_fmap, Hfresh. }
      assert (quiet s s') as Hq.
      { split_and!; [done|by subst s'; st_simpl|done| |done]. subst s'. apply same_rest_as in V2. injection V2 as S2 C2 T2. p_simpl. rewrite decide_True in Es3 by done. unfold same_as. congruence. }
      eapply Q0; [done| |exact Hq]. destruct I as [I I' I'']. constructor; [exact I3|exact I'|]. rewrite EP. exact I''. }
  intros w2 B2 t a i r Hi Hr V2 Hl I2. change (negb (0 =? 0)) with false. cbv iota. injection V2 as R2 S2 C2 T2. rewrite EV in R2, S2, C2, T2.
  set (y0 := set_pid i (new_proc n ch)) in *.
  assert (<[p := y0]> (<[c := set_children a cx]> (<[p := new_proc n ch]> (procs s))) = <[p := y0]> (<[c := set_children a cx]> (procs s))) as EP.
  { by rewrite (insert_insert_ne _ c p), insert_insert_eq by done. }
  rewrite EP in *. set (s1 := set_procs (<[p := y0]> (<[c := set_children a cx]> (procs s))) (set_ptab t (set_pw w2 s))).
  change (pinv B2 (<[i := Row p RUNNING 0]> m) s1) in I2. match goal with |- wp ?k ?q ?z => change (wp k q s1) end.
  wp_step. apply (wp_proc_at c (set_children a cx)); [subst s1; st_simpl; rewrite lookup_insert_ne by done; apply lookup_insert_eq|].
  wp_step. apply wp_world. wp_apply (as_copy_law (p_addrspace cx) sp); [apply (ho_ok (pv_own (pv_mid I2)))|subst s1; st_simpl; by rewrite S2|]. intros [e|as_] w3 (Hw3 & L3 & Hres).
  - destruct Hres as [He V3]. assert (pmid B2 (<[i := Row p RUNNING 0]> m) ∅ ∅ {[c]} false ∅ (set_pw w3 s1)) as I3.
    { apply pmid_world; [by apply (pmid_weaken _ _ _ _ ∅); [apply I2|set_solver]|by eapply hown_world; [apply I2|..]|done]. }
    wp_step. eapply (wp_proc_destroy _ _ _ _ _ _ p y0); [exact I3|subst s1; st_simpl; apply lookup_insert_eq| |done|done| |].
    + subst s1. st_simpl. intros ->. destruct (fa_kproc _ _ _ _ _ _ (pv_family (pv_mid I))) as (l & rk & Hk & _). unfold fam in Hk. by rewrite lookup_fmap, Hfresh in Hk.
    + subst s1. st_simpl. intros q j lq Hq Hqc Hlq. by apply (fresh_not_child B m s p n i ch c cx a r q j lq (pv_mid I)).
    + intros w4 T F B4 s' I4 _ _ _ _ _. wp_step. apply Q1; [done|]. rewrite decide_False in I4 by set_solver. replace (∅ ∖ {[p]}) with (∅ : gset Z) in I4 by set_solver. by eexists _, _, _.
  - destruct Hres as (Has & Hfr & V3). p_simpl. wp_step. apply (wp_proc_at p y0); [subst s1; st_simpl; apply lookup_insert_eq|]. wp_step. apply (wp_proc_put p y0); [subst s1; st_simpl; apply lookup_insert_eq|].
    assert (pmid B2 (<[i := Row p RUNNING 0]> m) ∅ ∅ ∅ false ∅ (set_procs (<[p := set_p_addrspace as_ y0]> (procs s1)) (set_pw w3 s1))) as I3.
    { eapply (pmid_space _ _ _ _ _ _ _ s1 p y0); try done; [apply I2|subst s1; st_simpl; apply lookup_insert_eq]. }
    wp_step. eapply (wp_inherit_cwd _ _ _ _ _ _ c p (set_children a cx) (set_p_addrspace as_ y0)); [exact I3|subst s1; st_simpl; rewrite !lookup_insert_ne by done; apply lookup_insert_eq|st_simpl; apply lookup_insert_eq|done|done|].
    intros w4 s4 I4 V4. subst s4. eapply (wp_share_all _ _ c p (set_children a cx)); [exact I4|subst s1; st_simpl; rewrite !lookup_insert_ne by done; apply lookup_insert_eq|st_simpl; rewrite lookup_insert_eq; by eexists|done| |].
    { intros fd. apply (no_entries _ _ _ _ _ p fd (pv_files (pv_mid I))). unfold cwds. by rewrite lookup_fmap, Hfresh. }
    intros F T s5 I5 HF HT. subst s5. wp_step. injection V4 as S4 C4 T4. subst s1. p_simpl. rewrite !insert_insert_eq in *. rewrite V3 in S4, C4, T4. cbn in S4, C4, T4. p_simpl.
    eapply (Q2 B2 p n as_ i ch a t w4 F T r); try done; [congruence|rewrite S4; apply lookup_insert_eq|congruence|congruence|].
    constructor; [exact I5|apply I2|]. destruct I2 as [_ _ I2]. unfold forked. st_simpl.
    assert (fam (<[p := child_proc n as_ (p_cwd cx) i ch]> (<[c := set_children a cx]> (procs s))) = fam (<[p := y0]> (<[c := set_children a cx]> (procs s)))) as -> by (unfold fam; by rewrite !fmap_insert).
    exact I2.
Qed.

(** ** Its thread *)

Lemma mem_threads B B' K F TF c n cp a t t' : mem B K F TF -> same_but (KThr c) B B' -> K !! c = Some (n, cp, a, t) -> aown B' (KThr c) t' -> mem B' (<[c := (n, cp, a, t')]> K) F TF.
Proof.
  intros [M1 M2 M3] HB Hc Ha. constructor.
  - intros h x Hx. apply HB; [done|by eapply M1].
  - intros d x Hx. apply HB; [done|by eapply M2].
  - intros q nq cq aq tq [[<- [= <- <- <- <-]]|[Hne Hq]]%lookup_insert_Some.
    + destruct (M3 c n cp a t Hc) as (? & ? & ? & ? & ?). split_and!; [by apply HB|by apply HB|by apply HB|by eapply aown_same|done].
    + destruct (M3 q nq cq aq tq Hq) as (? & ? & ? & ? & ?). split_and!; [by apply HB|by apply HB|by apply HB|by eapply aown_same|]. eapply aown_same; [done|done|congruence].
Qed.

Lemma threads_insert m A tp V p i t : threads m ∅ A tp V -> A !! p = Some (i, []) -> lives m i -> t ∉ V -> threads m ∅ (<[p := (i, [t])]> A) (<[t := p]> tp) ({[t]} ∪ V).
Proof.
  intros [T1 T2 T3 T4] Hp (ri & Hri & Hst) Ht. assert (tp !! t = None) as Htp.
  { destruct (tp !! t) as [q|] eqn:E; [|done]. destruct (T1 t q E) as (j & l & Hq & Hin). by destruct (T2 q j l t Hq Hin). }
  constructor.
  - intros u q [[<- <-]|[Hne Hu]]%lookup_insert_Some; [exists i, [t]; split; [apply lookup_insert_eq|set_solver]|]. destruct (T1 u q Hu) as (j & l & Hq & Hin). exists j, l. split; [|done].
    rewrite lookup_insert_ne; [done|]. intros <-. rewrite Hp in Hq. injection Hq as <- <-. by apply elem_of_nil in Hin.
  - intros q j l u [[<- [= <- <-]]|[Hne Hq]]%lookup_insert_Some Hu.
    + apply list_elem_of_singleton in Hu as ->. split; [apply lookup_insert_eq|set_solver].
    + destruct (T2 q j l u Hq Hu) as [Hu' ?]. split; [|set_solver]. rewrite lookup_insert_ne; [done|congruence].
  - intros q j l [[<- [= <- <-]]|[Hne Hq]]%lookup_insert_Some; [split; [apply NoDup_singleton|done]|by eapply T3].
  - intros q j l r [[<- [= <- <-]]|[Hne Hq]]%lookup_insert_Some He; [|by eapply T4]. intros Hr. rewrite Hri in Hr. injection Hr as <-. unfold RUNNING, ORPHAN, ZOMBIE in *. lia.
Qed.

Lemma pmid_thread B B' m s w p y a t : pmid B m ∅ ∅ ∅ false ∅ s -> procs s !! p = Some y -> alist (p_threads y) = [] -> lives m (pid y) -> t ∉ v_threads (wv (pw s)) ->
  hown B' w -> same_but (KThr p) B B' -> aown B' (KThr p) a -> alist a = [t] -> wv w = v_set_threads ({[t]} ∪ v_threads (wv (pw s))) (wv (pw s)) ->
  pmid B' m ∅ ∅ ∅ false ∅ (set_tproc (<[t := p]> (tproc s)) (set_procs (<[p := set_p_threads a y]> (procs s)) (set_pw w s))).
Proof.
  intros I Hy Hthr Hlv Ht Hw HB Ha El EV. destruct I as [I1 I2 I3 I4 I5 I6 I7 I8 I9 I10].
  set (P' := <[p := _]> (procs s)). assert (spc P' = spc (procs s)) as E1 by (by apply (view_same _ _ p y)). assert (cwds P' = cwds (procs s)) as E2 by (by apply (view_same _ _ p y)).
  assert (lck P' = lck (procs s)) as E3 by (by apply (view_same _ _ p y)). assert (fam P' = fam (procs s)) as E4 by (by apply (view_same _ _ p y)).
  assert (mem B' (blk P') (fhs s) (tfs s)) as M'.
  { unfold P', blk. rewrite fmap_insert. eapply (mem_threads B B' _ _ _ p (p_name y) (children_ptr y) (children y) (p_threads y) a); [exact I2|done| |done]. by apply (view_lookup (fun x => (p_name x, children_ptr x, children x, p_threads x))). }
  constructor; st_simpl; rewrite ?E1, ?E2, ?E3, ?E4, ?EV; try done.
  - eapply fpure_weaken; [exact I3| |done|done]. intros h z Hz. by eapply mem_hown.
  - unfold P', thr. rewrite fmap_insert. p_simpl. rewrite El. apply threads_insert; try done. unfold thr in *. rewrite (view_lookup _ _ _ _ Hy). by rewrite Hthr.
Qed.

Lemma pmid_new_thread B m X Y E lk PL s w t : pmid B m X Y E lk PL s -> wok w -> heap_live w = heap_live (pw s) -> wv w = v_set_threads ({[t]} ∪ v_threads (wv (pw s))) (wv (pw s)) -> pmid B m X Y E lk PL (set_pw w s).
Proof.
  intros I Hw EL EV. destruct I as [I1 I2 I3 I4 I5 I6 I7 I8 I9 I10]. constructor; st_simpl; rewrite ?EV, ?EL; try done.
  - by apply (hown_world B (pw s)).
  - eapply fpure_weaken; [exact I3| |done|done]. intros h z Hz. by eapply mem_hown.
  - destruct I8 as [T1 T2 T3 T4]. constructor; try done. intros q j l u Hq Hu. destruct (T2 q j l u Hq Hu). split; [done|]. cbn. set_solver.
Qed.

Lemma relock_threads a y : p_lock y = false -> set_p_lock false (set_p_threads a (set_p_lock true y)) = set_p_threads a y.
Proof. intros El. destruct y. cbn in *. by rewrite El. Qed.

Lemma set_p_threads_id y : set_p_threads (p_threads y) y = y.
Proof. by destruct y. Qed.

Lemma wp_thread_fork B m p y d (Q : Z -> pst W -> Prop) s : pmid B m ∅ ∅ ∅ false ∅ s -> procs s !! p = Some y -> alist (p_threads y) = [] -> lives m (pid y) ->
  (forall e w, e <> 0 -> pmid B m ∅ ∅ ∅ false ∅ (set_pw w s) -> wv w = wv (pw s) -> Q e (set_pw w s)) ->
  (forall B' a t w, t ∉ v_threads (wv (pw s)) -> alist a = [t] -> wv w = v_set_threads ({[t]} ∪ v_threads (wv (pw s))) (wv (pw s)) ->
    let s' := set_tdata (<[t := d]> (tdata s)) (set_tproc (<[t := p]> (tproc s)) (set_procs (<[p := set_p_threads a y]> (procs s)) (set_pw w s))) in
    pmid B' m ∅ ∅ ∅ false ∅ (set_tdata (tdata s) s') -> Q 0 s') ->
  wp (thread_fork p d) Q s.
Proof.
  intros I Hy Hthr Hlv Q0 Q1. unfold thread_fork. wp_step. apply wp_world. wp_apply thread_new_law; [apply (pv_own I)|]. intros [e|t] w (Hw & EL & Hres).
  { destruct Hres as [He EV]. wp_step. apply Q0; [done| |done]. apply pmid_world; [done|by apply (hown_world B (pw s)); [apply I|..]|done]. }
  destruct Hres as (Ht0 & Ht & EV). pose proof (pmid_new_thread _ _ _ _ _ _ _ _ _ t I Hw EL EV) as I1. pose proof (pmid_finv _ _ _ _ _ _ _ I) as If. pose proof (fi_plock _ If p y Hy) as Hl.
  assert (tproc s !! t = None) as Htp.
  { destruct (tproc s !! t) as [q|] eqn:E; [|done]. destruct (th_in _ _ _ _ _ (pv_threads I) t q E) as (j & l & Hq & Hin). by destruct (th_out _ _ _ _ _ (pv_threads I) q j l t Hq Hin). }
  destruct (me_proc (pv_mem I) p (p_name y) (children_ptr y) (children y) (p_threads y) (view_lookup _ _ _ _ Hy)) as (_ & _ & _ & _ & Bt).
  wp_step. unfold proc_addthread. wp_step. wp_step. st_simpl. wp_step. apply wp_kassert; [by apply bool_decide_eq_true_2|]. wp_step. apply (wp_p_lock_acquire p y); [done|done|]. wp_step.
  apply (wp_on_array p_threads set_p_threads p (set_p_lock true y)); [st_simpl; apply lookup_insert_eq|]. st_simpl.
  eapply (wp_array_add B (KThr p)); [apply I1|done|p_simpl; rewrite Hthr; cbn; lia| |].
  - intros w2 Hw2 V2. cbn [fst snd]. wp_step. eapply (wp_p_lock_release p); [st_simpl; apply lookup_insert_eq|done|]. wp_step. change (negb (ENOMEM =? 0)) with true. cbv iota. p_simpl.
    rewrite !insert_insert_eq. rewrite (relock_threads (p_threads y) y Hl), set_p_threads_id, insert_id by done. wp_step. apply wp_world. p_simpl.
    wp_apply thread_destroy_law; [apply Hw2|rewrite V2, EV; cbn; set_solver|]. intros _ w3 (Hw3 & L3 & V3). wp_step. p_simpl.
    assert (wv w3 = wv (pw s)) as EV3.
    { rewrite V3, V2, EV. destruct (wv (pw s)) as [? ? ? ? V]. unfold v_set_threads. cbn in *. f_equal. set_solver. }
    apply (Q0 ENOMEM w3); [done| |done]. apply pmid_world; [done|by apply (hown_world B w2)|done].
  - intros w2 B2 a j Hw2 V2 Ha HB El. cbn [fst snd]. p_simpl. rewrite Hthr in El. cbn in El. wp_step. eapply (wp_p_lock_release p); [st_simpl; apply lookup_insert_eq|done|]. wp_step. wp_step. wp_step.
    change (negb (0 =? 0)) with false. cbv iota. p_simpl. rewrite !insert_insert_eq. rewrite (relock_threads a y Hl).
    wp_step. wp_step. wp_step. apply wp_world. p_simpl. wp_apply thread_ready_law; [apply Hw2|rewrite V2, EV; cbn; set_solver|]. intros _ w3 (Hw3 & L3 & V3). wp_step. p_simpl.
    apply (Q1 B2 a t w3); [done|done|congruence|]. eapply (pmid_thread B); try done; [by apply (hown_world B2 w2)|congruence].
Qed.

(** ** The call *)

(** The child [p] of [c]: a fresh pid, a copy of the address space, the same
    open files and directory, one thread that will resume with [tf]'s
    registers and result 0. *)
Record fork_done (m : gmap Z row) (s s' : pst W) (c : Z) (cx : proc) (sp : space_t) (tf : trapframe) (p : Z) (y : proc) : Prop := {
  fd_pid : exists r, m !! pid y = Some r /\ r_status r = READY;
  fd_new : procs s !! p = None;
  fd_proc : procs s' !! p = Some y;
  fd_cwd : p_cwd y = p_cwd cx;
  fd_space : v_spaces (wv (pw s)) !! p_addrspace y = None /\ v_spaces (wv (pw s')) !! p_addrspace y = Some sp;
  fd_others : forall q, q <> p -> q <> c -> procs s' !! q = procs s !! q;
  fd_files : forall q fd, ftab s' !! (q, fd) = if decide (q = p) then ftab s !! (c, fd) else ftab s !! (q, fd);
  fd_desc : desc_of <$> fhs s' = desc_of <$> fhs s;
  fd_thread : exists t d, alist (p_threads y) = [t] /\ tproc s !! t = None /\ tproc s' = <[t := p]> (tproc s) /\ tdata s' = <[t := d]> (tdata s) /\ tfs s' !! d = Some (child_trapframe tf);
}.

Lemma same_handlers_desc F0 F : same_handlers F0 F -> desc_of <$> F = desc_of <$> F0.
Proof.
  unfold same_handlers. intros E. apply (f_equal (fmap desc_of)) in E. rewrite <- !map_fmap_compose in E. rewrite (map_fmap_ext _ desc_of F) in E by done. by rewrite (map_fmap_ext _ desc_of F0) in E by done.
Qed.

Lemma wp_freepid B m Y E i r (Q : unit -> pst W -> Prop) s : pmid B m ∅ Y E false ∅ s -> m !! i = Some r -> r_status r <> READY -> 2 <= i -> i ∈ Y -> (forall p x, procs s !! p = Some x -> pid x <> i) -> 0 <= pid_available (ptab s) <= 31 ->
  (forall t w, pmid B (<[i := free_row]> m) ∅ (Y ∖ {[i]}) E false ∅ (set_ptab t (set_pw w s)) -> Q tt (set_ptab t (set_pw w s))) -> wp (proc_table_freepid i) Q s.
Proof.
  intros I Hi Hr H2 HY Hno Ha HQ. pose proof (tr_lookup _ _ _ _ (pv_tab I) Hi) as Hi'. unfold proc_table_freepid. wp_step. apply wp_kassert; [unfold PID_MIN, PID_MAX; lia|]. wp_step. apply wp_pt.
  wp_step. eapply wp_tlock_acquire; [exact I|done|]. intros w1 I1 V1. wp_step. eapply wp_clear_pid; [apply I1|done|done|done|]. intros t Tr [= El Ec Ea En]. p_simpl.
  assert (pmid B (<[i := free_row]> m) ∅ (Y ∖ {[i]}) E true ∅ (set_ptab t (set_pw w1 s))) as I2.
  { destruct I1 as [J1 J2 J3 J4 J5 J6 J7 J8 J9 J10]. constructor; st_simpl; try done.
    - destruct J6 as [L1 L2]. unfold tlock. by rewrite El.
    - apply family_freed with r; try done; [lia|]. intros p l (x & Hx & [= -> _])%view_inv. by destruct (Hno p x Hx).
    - by apply threads_freed. }
  eapply wp_tlock_release; [exact I2|st_simpl; congruence|]. intros w2 I3 _. by apply (HQ t w2).
Qed.

(** The block for the child's registers. *)
Lemma pmid_tf B m X Y E lk PL s w d f : pmid B m X Y E lk PL s -> B !! d = None -> hown (<[d := KTf]> B) w -> wv w = wv (pw s) ->
  pmid (<[d := KTf]> B) m X Y E lk PL (set_tfs (<[d := f]> (tfs s)) (set_pw w s)).
Proof.
  intros I Hd Hw EV. destruct I as [I1 I2 I3 I4 I5 I6 I7 I8 I9 I10].
  assert (mem (<[d := KTf]> B) (blk (procs s)) (fhs s) (tfs s)) as [M1 M2 M3].
  { eapply mem_mono; [exact I2|]. intros b k Hb. rewrite lookup_insert_ne; [done|congruence]. }
  constructor; st_simpl; rewrite ?EV; try done.
  - constructor; try done. intros b g [[<- <-]|[_ Hb]]%lookup_insert_Some; [apply lookup_insert_eq|by eapply M2].
  - eapply fpure_weaken; [exact I3| |done|done]. intros h z Hz. by apply (ho_live Hw h KFh), (M1 h z).
  - destruct I10 as [S1 S2]. constructor; [|done]. intros t b Hb. apply lookup_insert_is_Some'. right. by eapply S1.
Qed.

Lemma pmid_untf B m X Y E lk PL s w d : pmid B m X Y E lk PL s -> B !! d = Some KTf -> (forall t b, tdata s !! t = Some b -> b <> d) -> hown (delete d B) w -> wv w = wv (pw s) ->
  pmid (delete d B) m X Y E lk PL (set_tfs (delete d (tfs s)) (set_pw w s)).
Proof.
  intros I Hd Htd Hw EV. destruct I as [I1 [M1 M2 M3] I3 I4 I5 I6 I7 I8 I9 I10]. assert (forall b k, B !! b = Some k -> k <> KTf -> delete d B !! b = Some k) as HB.
  { intros b k Hb Hk. rewrite lookup_delete_ne; [done|congruence]. }
  constructor; st_simpl; rewrite ?EV; try done.
  - constructor.
    + intros h x Hx. apply HB; [by eapply M1|done].
    + intros b g [Hne Hb]%lookup_delete_Some. rewrite lookup_delete_ne by done. by eapply M2.
    + intros p n c a t Hp. destruct (M3 p n c a t Hp) as (? & ? & ? & [? ?] & [? ?]). split_and!; auto; split; auto.
  - eapply fpure_weaken; [exact I3| |done|done]. intros h z Hz. apply (ho_live Hw h KFh). apply HB; [by eapply M1|done].
  - destruct I10 as [S1 S2]. constructor; [|done]. intros t b Hb. rewrite lookup_delete_ne; [by eapply S1|]. intros <-. by destruct (Htd t d Hb).
Qed.

(** The state with the child's thread. *)
Lemma pinv_started B m s p t d f (s' : pst W) P' w : pinv B m s -> B !! d = None -> fam P' = fam (procs s) -> tproc s !! t = None ->
  s' = set_tdata (<[t := d]> (tdata s)) (set_tproc (<[t := p]> (tproc s)) (set_procs P' (set_tfs (<[d := f]> (tfs s)) (set_pw w s)))) ->
  (exists B', pmid B' m ∅ ∅ ∅ false ∅ (set_tdata (tdata s) s')) -> exists B', pinv B' m s'.
Proof.
  intros I Hd Efam Htp -> [B' I']. exists B'. destruct I as [I Tc Wa]. constructor; [|exact Tc|].
  - destruct I' as [I1 I2 I3 I4 I5 I6 I7 I8 I9 [S1 S2]]. constructor; try done. st_simpl. constructor.
    + intros u b [[<- <-]|[_ Hb]]%lookup_insert_Some; [by rewrite lookup_insert_eq|by eapply S1].
    + assert (forall u, tdata s !! u = Some d -> False) as Hno.
      { intros u Hu. destruct (st_some _ _ (pv_starts I) u d Hu) as [g Hg]. apply (me_tf (pv_mem I)) in Hg. congruence. }
      intros u v b [[<- <-]|[_ Hu]]%lookup_insert_Some [[<- E]|[_ Hv]]%lookup_insert_Some; [done|by destruct (Hno v)|subst b; by destruct (Hno u)|by eapply S2].
  - st_simpl. rewrite Efam. destruct Wa as [W1 W2 W3]. constructor; try done. intros u i rv Hin. destruct (W1 u i rv Hin) as (q & j & l & z & lz & Hu & ?). exists q, j, l, z, lz. rewrite lookup_insert_ne; [done|congruence].
Qed.

Lemma wp_sys_fork B m c cx sp name tf (Q : err Z -> pst W -> Prop) s : pinv B m s -> tproc s !! curt s = Some c -> procs s !! c = Some cx -> lives m (pid cx) ->
  v_spaces (wv (pw s)) !! p_addrspace cx = Some sp -> v_curas (wv (pw s)) = p_addrspace cx ->
  (forall e B' s', e <> 0 -> pinv B' m s' -> quiet s s' -> Q (inl e) s') ->
  (forall e s', e <> 0 -> half_forked c s' -> Q (inl e) s') ->
  (forall B' m' s', pinv B' m' s' -> Q (inl ENOMEM) s') ->
  (forall B' s' p y, fork_done m s s' c cx sp tf p y -> pinv B' (<[pid y := Row p RUNNING 0]> m) s' -> v_curas (wv (pw s')) = v_curas (wv (pw s)) -> Q (inr (pid y)) s') ->
  wp (sys_fork name tf) Q s.
Proof.
  intros I Ht Hc Hlv Hsp Hcur Q0 Q1 Q2 Q3. unfold sys_fork. wp_step. eapply (wp_proc_create_fork B m c cx sp); [done|done|done|done|done|exact Q0|exact Q1|].
  intros B1 p n as_ i ch a t w F T r Hfresh Hp0 Hi Hr Has Hasf Hass Ecur Ethr Hl HF HT s1 I1. pose proof (pv_mid I1) as I1'. set (m1 := <[i := Row p RUNNING 0]> m) in *. set (y := child_proc n as_ (p_cwd cx) i ch) in *.
  assert (c <> p) as Hcp by congruence. assert (procs s1 !! p = Some y) as Hy by (subst s1; unfold forked; st_simpl; apply lookup_insert_eq). assert (lives m1 i) as Hlvi by (exists (Row p RUNNING 0); split; [apply lookup_insert_eq|by left]).
  wp_step. apply wp_world. apply (wp_alloc B1 KTf); [apply I1'| |].
  { intros w2 Hw2 V2. change (0 =? 0) with true. cbv iota. wp_step. eapply (Q2 B1 m1). destruct I1 as [J1 J2 J3]. constructor; [by apply pmid_world|done|done]. }
  intros d w2 Hd HBd Hw2 V2. replace (d =? 0) with false by lia. wp_step. wp_step. st_simpl. pose proof (pmid_tf _ _ _ _ _ _ _ s1 w2 d (child_trapframe tf) I1' HBd Hw2 V2) as I2.
  wp_step. apply (wp_proc_at p y); [done|]. wp_step. eapply (wp_thread_fork _ m1 p y d); [exact I2|done|done|done| |].
  - intros e w3 He I3 V3. replace (negb (e =? 0)) with true by lia. wp_step. apply (wp_proc_at p y); [done|]. wp_step.
    eapply (wp_proc_destroy _ m1 ∅ ∅ {[c]} false p y); [apply (pmid_weaken _ _ _ _ ∅); [exact I3|set_solver]|done| |done| | |].
    + st_simpl. intros Ek. destruct (fa_kproc _ _ _ _ _ _ (pv_family (pv_mid I))) as (l & rk & Hk & _). unfold fam in Hk. rewrite lookup_fmap in Hk. change (kproc s1) with (kproc s) in Ek. by rewrite <- Ek, Hfresh in Hk.
    + intros _. st_simpl. rewrite V3. st_simpl. rewrite V2. change (pw s1) with w. rewrite Ecur, Hcur. change (p_addrspace y) with as_. congruence.
    + st_simpl. intros q j lq Hq Hqc Hlq. change (procs s1) with (<[p := y]> (<[c := set_children a cx]> (procs s))) in Hq.
      assert (fam (<[p := y]> (<[c := set_children a cx]> (procs s))) = fam (<[p := set_pid i (new_proc n ch)]> (<[c := set_children a cx]> (procs s)))) as Ef by (unfold fam; by rewrite !fmap_insert).
      rewrite Ef in Hq. by apply (fresh_not_child B m s p n i ch c cx a r q j lq (pv_mid I)).
    + intros w4 T4 F4 B4 s4 I4 _ _ _ HF4 _. rewrite decide_False in I4 by set_solver. replace (∅ ∖ {[p]}) with (∅ : gset Z) in I4 by set_solver. rewrite union_empty_l_L in I4. change (pid y) with i in *.
      wp_step. eapply (wp_freepid B4 m1 {[i]} {[c]} i (Row p RUNNING 0)); [exact I4|apply lookup_insert_eq|done| |set_solver| | |].
      * destruct (fa_kproc _ _ _ _ _ _ (pv_family (pv_mid I))) as (_ & r1 & _ & _ & H1 & Hs1). pose proof (tr_lookup _ _ _ _ (pv_tab (pv_mid I)) Hi). destruct (decide (i = 1)) as [Ei|]; [|lia]. rewrite Ei, H1 in Hi. injection Hi as <-. by rewrite Hs1 in Hr.
      * intros q x Hx Ei. destruct (fa_pid _ _ _ _ _ _ (pv_family I4) q i (alist (children x))) as (rq & Hrq & Hpq & _); [|set_solver|].
        { unfold fam. rewrite (view_lookup _ _ _ _ Hx). by rewrite Ei. }
        unfold m1 in Hrq. rewrite lookup_insert_eq in Hrq. injection Hrq as <-. cbn in Hpq. subst q. subst s4. st_simpl. cbn in Hx. by rewrite lookup_delete_eq in Hx.
      * change (ptab s4) with (ptab s1). rewrite (tc_avail _ _ (pv_count I1)). apply (free_pids_bound _ _ (pv_tab I1')).
      * intros t5 w5 I5. wp_step. wp_step. wp_step. apply wp_world. st_simpl.
        assert (tfs s1 !! d = None) as Hd0 by (destruct (tfs s1 !! d) as [g|] eqn:E; [apply (me_tf (pv_mem I1')) in E; congruence|done]).
        assert (B4 !! d = Some KTf) as HB4 by (apply (me_tf (pv_mem I5) d (child_trapframe tf)); subst s4; st_simpl; apply lookup_insert_eq).
        apply (wp_release B4 KTf d); [apply (pv_own I5)|done|]. intros w6 Hw6 V6. wp_step. apply Q1; [done|]. eexists _, _, _. eapply (pmid_untf _ _ _ _ _ _ _ _ w6 d I5); [done| |done|done].
        intros u b Hu ->. change (tdata s1 !! u = Some d) in Hu. destruct (st_some _ _ (pv_starts I1') u d Hu). congruence.
  - intros B3 a3 t3 w3 Ht3 El3 V3 s3 I3. change (negb (0 =? 0)) with false. cbv iota. wp_step. change (pid y) with (pid (set_p_threads a3 y)).
    assert (tproc s1 !! t3 = None) as Htp.
    { destruct (tproc s1 !! t3) as [q|] eqn:E; [|done]. destruct (th_in _ _ _ _ _ (pv_threads I2) t3 q E) as (j & l & Hq & Hin). destruct (th_out _ _ _ _ _ (pv_threads I2) q j l t3 Hq Hin). done. }
    assert (exists B', pinv B' m1 s3) as [B' I4].
    { eapply (pinv_started B1 m1 s1 p t3 d (child_trapframe tf) s3 (<[p := set_p_threads a3 y]> (procs s1)) w3); [done|done|by apply (view_same _ _ p y)|done|done|by eexists]. }
    apply (Q3 B' s3 p (set_p_threads a3 y)); [|exact I4|].
    + constructor; try done; [by exists r|subst s3; st_simpl; apply lookup_insert_eq| | |by apply same_handlers_desc|].
      * split; [done|]. subst s3. st_simpl. rewrite V3. st_simpl. cbn. rewrite V2. done.
      * intros q Hq Hqc. subst s3 s1. unfold forked. st_simpl. by rewrite !lookup_insert_ne.
      * exists t3, d. split_and!; [done|done|done|done|]. subst s3. st_simpl. apply lookup_insert_eq.
    + subst s3. st_simpl. rewrite V3. st_simpl. cbn. rewrite V2. done.
Qed.
End fork.
