(* ===== verification/ProcWait.v ===== *)
(** * Asking for the pid, waiting for a child, starting to run *)

From S2P Require Import Prelude KHeap Array KWorld PState Files FilesSpec FilesCalls Proc ProcCalls ProcTable ProcInv ProcOps ProcDestroy ProcFork.

Section wait.
Context {W : Type} `{World W}.
Implicit Types s : pst W.

(** Only the world changed, and nothing the client can see of it. *)
Lemma pinv_world B m s w : pinv B m s -> pmid B m ∅ ∅ ∅ false ∅ (set_pw w s) -> pinv B m (set_pw w s).
Proof. intros [I1 I2 I3] I'. by constructor. Qed.

Lemma wp_sys_getpid B m c cx (Q : err Z -> pst W -> Prop) s : pinv B m s -> tproc s !! curt s = Some c -> procs s !! c = Some cx ->
  (forall w, pinv B m (set_pw w s) -> same_rest (wv (pw s)) (wv w) -> Q (inr (pid cx)) (set_pw w s)) -> wp sys_getpid Q s.
Proof.
  intros I Ht Hc HQ. unfold sys_getpid. wp_step. apply wp_pt. wp_step. eapply wp_tlock_acquire; [apply I|done|]. intros w1 I1 V1. wp_step. apply (wp_curproc c); [done|]. wp_step. apply (wp_proc_at c cx); [done|].
  wp_step. eapply wp_tlock_release; [exact I1|done|]. intros w2 I2 V2. wp_step. apply (HQ w2); [by apply pinv_world|by eapply same_rest_trans].
Qed.

(** ** Reading the list of children *)

Lemma set_children_id x : set_children (children x) x = x.
Proof. by destruct x. Qed.

Lemma wp_children_num c cx (Q : Z -> pst W -> Prop) s : procs s !! c = Some cx -> holds (children cx) (alist (children cx)) -> Q (Z.of_nat (length (alist (children cx)))) s -> wp (on_children c array_num) Q s.
Proof.
  intros Hc Hh HQ. apply (wp_on_array children set_children c cx); [done|]. apply wp_array_num; [done|]. cbn [fst snd]. rewrite set_children_id, insert_id by done. by destruct s.
Qed.

Lemma wp_children_get c cx i v (Q : Z -> pst W -> Prop) s : procs s !! c = Some cx -> holds (children cx) (alist (children cx)) -> 0 <= i -> alist (children cx) !! Z.to_nat i = Some v -> Q v s -> wp (on_children c (array_get i)) Q s.
Proof.
  intros Hc Hh Hi Hv HQ. apply (wp_on_array children set_children c cx); [done|]. eapply wp_array_get; [done|done|done|]. cbn [fst snd]. rewrite set_children_id, insert_id by done. by destruct s.
Qed.

Lemma wp_is_child c cx child (Q : option unit -> pst W -> Prop) s : procs s !! c = Some cx -> holds (children cx) (alist (children cx)) ->
  (child ∈ alist (children cx) -> Q (Some tt) s) -> (child ∉ alist (children cx) -> Q None s) ->
  wp (for_ (Z.to_nat (Z.of_nat (length (alist (children cx))))) 0 (fun i => u <- on_children c (array_get i) ;; if child =? u then ret (Some tt) else ret None)) Q s.
Proof.
  intros Hc Hh Q1 Q2. rewrite Nat2Z.id. set (l := alist (children cx)) in *.
  eapply (wp_for _ _ _ (fun i s' => s' = s /\ forall k v, (k < Z.to_nat i)%nat -> l !! k = Some v -> v <> child)).
  - split; [done|]. intros k v Hk. lia.
  - intros i s' Hi [-> Hno]. destruct (lookup_lt_is_Some_2 l (Z.to_nat i)) as [v Hv]; [lia|]. wp_step. eapply (wp_children_get c cx i v); [done|done|lia|done|]. wp_step; boolify; wp_step.
    + subst v. apply Q1. by eapply list_elem_of_lookup_2.
    + split; [done|]. intros k u Hk Hu. destruct (decide (k = Z.to_nat i)) as [->|]; [congruence|]. apply (Hno k u); [lia|done].
  - intros s' [-> Hno]. apply Q2. intros (k & Hk)%list_elem_of_lookup_1. apply (Hno k child); [apply lookup_lt_Some in Hk; lia|done|done].
Qed.

(** ** Waiting *)

(** The threads inside [sys_waitpid]. *)
Definition waiting (s : pst W) : list Z := fst <$> cv_queue s ++ cv_woken s.

(** What a call that was not refused ends with. *)
Definition wait_ends (B : uses) (m : gmap Z row) (s : pst W) (i rv : Z) (r : row) (res : wait_result) (s' : pst W) : Prop :=
  pinv B m s' /\ exists w, same_rest (wv (pw s)) (wv w) /\
  ((r_status r = ZOMBIE /\ s' = set_pw w s /\ ((rv = 0 /\ res = Returned 0 None) \/ (rv <> 0 /\ (res = Returned 0 (Some (r_code r)) \/ exists e, e <> 0 /\ res = Returned e None)))) \/
   (r_status r <> ZOMBIE /\ s' = set_cv_queue (cv_queue s ++ [(curt s, (i, rv))]) (set_pw w s) /\ res = Asleep)).

(** Once the status was looked at: the exit code of a zombie, or sleep. *)
Lemma wp_waitpid_loop B m c cx i rv r (Q : wait_result -> pst W -> Prop) s : pmid B m ∅ ∅ ∅ true ∅ s -> tcount (ptab s) m -> waits m (fam (procs s)) (tproc s) (cv_queue s) (cv_woken s) ->
  tproc s !! curt s = Some c -> procs s !! c = Some cx -> lives m (pid cx) -> r_proc r ∈ alist (children cx) -> m !! i = Some r -> r_status r <> READY -> curt s ∉ waiting s ->
  (forall res s', wait_ends B m s i rv r res s' -> Q res s') -> wp (waitpid_loop i rv) Q s.
Proof.
  intros I Tc Wa Ht Hc Hlv Hd Hi Hst Hnw HQ. unfold waitpid_loop. wp_step. eapply (wp_cell_status m i r); [apply I|done|]. wp_step; boolify.
  - wp_step. wp_step. wp_step. unfold cv_sleep. wp_step. apply wp_pt. wp_step. apply wp_world. wp_apply lock_do_i_hold_law; [apply (pv_own I)|apply (pv_tlock I)|]. intros b w [-> ->]. wp_step. apply wp_kassert; [done|].
    replace (set_pw (pw s) s) with s by (by destruct s). wp_step. eapply wp_tlock_release; [exact I|done|]. intros w I1 V1. wp_step. wp_step. st_simpl. apply HQ. split; [|exists w; split; [done|]; by right].
    constructor; [destruct I1; by constructor|exact Tc|]. st_simpl. destruct Wa as [W1 W2 W3]. constructor.
    + intros t j rv' Hin. assert ((t, (j, rv')) ∈ cv_queue s ++ cv_woken s \/ (t, (j, rv')) = (curt s, (i, rv))) as [Hin'|[= -> -> ->]] by set_solver; [by eapply W1|].
      destruct (fa_row _ _ _ _ _ _ (pv_family I) i r Hi (not_elem_of_empty _)) as [[? _]|(_ & _ & l & Hl)]; [done|].
      exists c, (pid cx), (alist (children cx)), (r_proc r), l. split_and!; try done. unfold fam. by rewrite (view_lookup _ _ _ _ Hc).
    + intros t j rv' r' Hin Hj. apply elem_of_app in Hin as [Hin|[= -> -> ->]%list_elem_of_singleton]; [by eapply W2|]. congruence.
    + rewrite <- app_assoc, !fmap_app in *. cbn. apply NoDup_mid. unfold waiting in Hnw. rewrite fmap_app in Hnw. split_and!; [set_solver|set_solver|done].
  - wp_step. eapply (wp_cell_code m i r); [apply I|done|]. wp_step. apply wp_pt. wp_step. eapply wp_tlock_release; [exact I|done|]. intros w1 I1 V1. wp_step; boolify.
    + wp_step. apply wp_world. st_simpl. wp_apply copyout_law; [apply (pv_own I1)|]. intros e w2 (Hw2 & L2 & V2).
      assert (pinv B m (set_pw w2 s)) as I2.
      { constructor; [|done|done]. apply (pmid_world _ _ _ _ _ _ _ (set_pw w1 s)); [done|by apply (hown_world B w1); [apply I1|..]|done]. }
      assert (same_rest (wv (pw s)) (wv w2)) as V2' by (by rewrite V2). wp_step; boolify; wp_step; apply HQ; (split; [done|]); exists w2; (split; [done|]); left; split_and!; try done; (right; split; [done|]); [by right; exists e|by left].
    + wp_step. apply HQ. split; [by constructor|]. exists w1. split; [done|]. left. split_and!; [done|done|by left].
Qed.

(** What [sys_waitpid] refuses, and with which error. *)
Definition wait_check (m : gmap Z row) (cx : proc) (i options : Z) : option Z :=
  if (i <? PID_MIN) || (PID_MAX <? i) then Some ESRCH else
  match m !! i with
  | Some r => if r_status r =? READY then Some ESRCH else if negb (options =? 0) then Some EINVAL else
              if decide (r_proc r ∈ alist (children cx)) then None else Some ECHILD
  | None => None
  end.

Lemma wp_sys_waitpid B m c cx i rv options (Q : wait_result -> pst W -> Prop) s : pinv B m s -> tproc s !! curt s = Some c -> procs s !! c = Some cx -> lives m (pid cx) -> curt s ∉ waiting s ->
  (i < 32 \/ PID_MAX < i) ->
  (forall e, wait_check m cx i options = Some e -> Q (Returned e None) s) ->
  (forall r res s', wait_check m cx i options = None -> m !! i = Some r -> r_proc r ∈ alist (children cx) -> wait_ends B m s i rv r res s' -> Q res s') ->
  wp (sys_waitpid i rv options) Q s.
Proof.
  intros I Ht Hc Hlv Hnw Hi32 Q1 Q2. pose proof (pv_mid I) as I'. unfold sys_waitpid. wp_step. unfold wait_check in Q1, Q2. destruct ((i <? PID_MIN) || (PID_MAX <? i)) eqn:Ei.
  { wp_step. cbv iota. wp_step. by apply Q1. }
  boolify. unfold PID_MIN, PID_MAX in *. destruct (tr_all _ _ (pv_tab I') i) as [r Hr]; [lia|]. rewrite Hr in Q1, Q2. wp_step. eapply (wp_cell_status m i r); [apply I'|done|]. wp_step.
  destruct (r_status r =? READY) eqn:Er; [wp_step; by apply Q1|]. boolify. destruct (negb (options =? 0)) eqn:Eo; [wp_step; by apply Q1|].
  wp_step. eapply (wp_cell_proc m i r); [apply I'|done|]. wp_step. apply (wp_curproc c); [done|].
  destruct (me_proc (pv_mem I') c (p_name cx) (children_ptr cx) (children cx) (p_threads cx) (view_lookup _ _ _ _ Hc)) as (_ & _ & _ & [Hh _] & _).
  wp_step. apply (wp_children_num c cx); [done|done|]. wp_step. apply (wp_is_child c cx); [done|done| |]; intros Hin.
  - rewrite decide_True in Q1, Q2 by done. wp_step. apply wp_pt. wp_step. eapply wp_tlock_acquire; [exact I'|done|]. intros w I1 V1.
    eapply (wp_waitpid_loop B m c cx i rv r); try done; [apply I|apply I|]. intros res s' (I2 & w2 & V2 & Hres). apply (Q2 r); try done. split; [done|]. exists w2. split; [by eapply same_rest_trans|]. st_simpl. exact Hres.
  - rewrite decide_False in Q1, Q2 by done. wp_step. by apply Q1.
Qed.

(** A pid beyond the table is looked up all the same. *)
Lemma sys_waitpid_faults B m i rv options s : pinv B m s -> 32 <= i <= PID_MAX -> sys_waitpid i rv options s = Fault.
Proof.
  intros I Hi. unfold sys_waitpid. unfold PID_MIN, PID_MAX in *. replace ((i <? 2) || (32767 <? i)) with false by lia. apply bind_fault, bind_fault. unfold cell, pt, bind at 1, bind at 1, get at 1, ret at 1.
  replace (i <? 0) with false by lia. destruct (tr_out _ _ (pv_tab (pv_mid I)) (Z.to_nat i)) as [->| ->]; [lia|done|done].
Qed.

(** ** Waking up *)

Lemma nodup_fmap_eq {A B} (f : A -> B) (l : list A) x y : NoDup (f <$> l) -> x ∈ l -> y ∈ l -> f x = f y -> x = y.
Proof.
  intros Hnd (i & Hi)%list_elem_of_lookup_1 (j & Hj)%list_elem_of_lookup_1 E. assert (i = j) as ->; [|congruence].
  eapply NoDup_lookup; [exact Hnd|by rewrite list_lookup_fmap, Hi|rewrite list_lookup_fmap, Hj; cbn; by f_equal].
Qed.

Lemma waits_woken m A tp q wk w : waits m A tp q wk -> w ∈ wk -> waits m A tp q (filter (fun u => u <> w) wk) /\ w.1 ∉ (fst <$> q ++ filter (fun u => u <> w) wk).
Proof.
  intros [W1 W2 W3] Hw. assert (forall u, u ∈ q ++ filter (fun u => u <> w) wk -> u ∈ q ++ wk) as Hsub.
  { intros u [Hu|[_ Hu]%list_elem_of_filter]%elem_of_app; apply elem_of_app; auto. }
  split.
  - constructor; [|done|].
    + intros t i rv Hin%Hsub. by eapply W1.
    + eapply sublist_NoDup; [exact W3|]. apply fmap_sublist, sublist_app; [done|]. apply sublist_filter.
  - intros ([t b] & E & Hin)%list_elem_of_fmap. rewrite fmap_app in W3. apply elem_of_app in Hin as [Hin|[Hne Hin]%list_elem_of_filter].
    + apply NoDup_app in W3 as (_ & Hd & _). apply (Hd t); [by apply (list_elem_of_fmap_2 fst) in Hin|]. cbn in E. subst t. by apply (list_elem_of_fmap_2 fst) in Hw.
    + apply NoDup_app in W3 as (_ & _ & W3). apply Hne. by apply (nodup_fmap_eq fst wk).
Qed.

Lemma wp_waitpid_wakeup B m w (Q : wait_result -> pst W -> Prop) s : pinv B m s -> w ∈ cv_woken s -> curt s = w.1 ->
  (forall r res s', m !! w.2.1 = Some r -> wait_ends B m (set_cv_woken (filter (fun u => u <> w) (cv_woken s)) s) w.2.1 w.2.2 r res s' -> Q res s') -> wp (waitpid_wakeup w) Q s.
Proof.
  intros I Hw Hcur HQ. destruct w as [t [i rv]]. cbn [fst snd] in *. subst t. destruct (wa_child _ _ _ _ _ (pv_waits I) (curt s) i rv) as (c & j & l & d & l' & Ht & Hc & Hlv & Hd & Hdi); [set_solver|].
  apply view_inv in Hc as (cx & Hc & [= -> ->]). destruct (fa_pid _ _ _ _ _ _ (pv_family (pv_mid I)) d i l' Hdi (not_elem_of_empty _)) as (r & Hr & Hrd & Hu).
  destruct (waits_woken _ _ _ _ _ (curt s, (i, rv)) (pv_waits I) Hw) as [Wa Hnw]. unfold waitpid_wakeup. wp_step. wp_step. wp_step. apply wp_pt. set (s1 := set_cv_woken _ s) in *.
  assert (pmid B m ∅ ∅ ∅ false ∅ s1) as I1 by (destruct I as [[] _ _]; by constructor). wp_step. eapply wp_tlock_acquire; [exact I1|done|]. intros w1 I2 V1.
  eapply (wp_waitpid_loop B m c cx i rv r); [exact I2|apply I|done|done|done|done|by rewrite Hrd|done| |done|].
  - unfold used, READY, RUNNING, ZOMBIE, ORPHAN in *. lia.
  - intros res s' (I3 & w2 & V2 & Hres). apply (HQ r); [done|]. split; [done|]. exists w2. split; [by eapply same_rest_trans|]. exact Hres.
Qed.
End wait.
