(* ===== verification/ProcExit.v ===== *)
(** * Exiting: the children, the exit code, the waiting parent *)

From S2P Require Import Prelude KHeap Array KWorld PState Files FilesSpec FilesCalls Proc ProcCalls ProcTable ProcInv ProcOps ProcDestroy ProcFork ProcWait.

(** ** Rows of the children of a process that exits *)

(** A zombie's pid is free again, a child that runs is an orphan. *)
Definition disown_row (D : list Z) (r : row) : row :=
  if decide (r_proc r ∈ D) then if decide (r_status r = ZOMBIE) then free_row else Row (r_proc r) ORPHAN (r_code r) else r.

Definition disown (D : list Z) (m : gmap Z row) : gmap Z row := disown_row D <$> m.

Lemma disown_nil m : disown [] m = m.
Proof. unfold disown. rewrite <- (map_fmap_id m) at 2. apply map_fmap_ext. intros i r _. unfold disown_row. by rewrite decide_False by apply not_elem_of_nil. Qed.

Lemma disown_lookup D m i r : m !! i = Some r -> r_proc r ∉ D -> disown D m !! i = Some r.
Proof. intros Hi Hd. unfold disown, disown_row. rewrite lookup_fmap, Hi. cbn. by rewrite decide_False. Qed.

(** One more child, the process of row [i]. *)
Lemma disown_cons D m i r d : m !! i = Some r -> r_proc r = d -> d ∉ D -> (forall j rj, m !! j = Some rj -> r_proc rj = d -> j = i) ->
  disown (d :: D) m = <[i := disown_row [d] r]> (disown D m).
Proof.
  intros Hi Hr Hd Hone. apply map_eq. intros j. unfold disown. rewrite lookup_fmap. destruct (decide (j = i)) as [->|Hne].
  - rewrite lookup_insert_eq, Hi. cbn. f_equal. unfold disown_row. rewrite (decide_True (P := r_proc r ∈ d :: D)) by set_solver. by rewrite (decide_True (P := r_proc r ∈ [d])) by set_solver.
  - rewrite lookup_insert_ne, lookup_fmap by done. destruct (m !! j) as [rj|] eqn:Ej; [|done]. cbn. f_equal. unfold disown_row.
    destruct (decide (r_proc rj = d)) as [E|Hnd]; [by apply Hone in Ej|]. destruct (decide (r_proc rj ∈ D)); [by rewrite decide_True by set_solver|by rewrite decide_False by set_solver].
Qed.

(** ** The counters *)

Lemma tcount_used t t' m i r r' : tcount t m -> m !! i = Some r -> r_status r <> READY -> r_status r' <> READY -> pid_available t' = pid_available t -> pid_next t' = pid_next t -> tcount t' (<[i := r']> m).
Proof.
  intros [C1 C2 C3 C4] Hi Hr Hr' Ea En. pose proof (free_pids_set m i r r' Hi) as Hf. rewrite !decide_False in Hf by done. assert (free_pids (<[i := r']> m) = free_pids m) as Hf' by lia. constructor; rewrite ?Hf', ?Ea, ?En; [done|done| |].
  - intros Hp. destruct C3 as (rn & Hn & Hst); [lia|]. exists rn. split; [|done]. rewrite lookup_insert_ne; [done|congruence].
  - intros j rj [[<- <-]|[_ Hj]]%lookup_insert_Some Hst; [done|by eapply C4].
Qed.

Lemma tcount_freed t t' m i r : trep t m -> tcount t m -> m !! i = Some r -> r_status r <> READY -> pid_available t' = pid_available t + 1 -> pid_next t' = (if i <? pid_next t then i else pid_next t) ->
  tcount t' (<[i := free_row]> m).
Proof.
  intros Ht [C1 C2 C3 C4] Hi Hr Ea En. pose proof (tr_lookup _ _ _ _ Ht Hi) as Hir. pose proof (free_pids_set m i r free_row Hi) as Hf. rewrite decide_False in Hf by done. rewrite decide_True in Hf by done.
  pose proof (free_pids_bound _ _ Ht) as Hb. constructor; rewrite ?Ea, ?En, ?Hf.
  - lia.
  - lia.
  - intros _. destruct (Z.ltb_spec i (pid_next t)); [exists free_row; by rewrite lookup_insert_eq|]. destruct (decide (i = pid_next t)) as [<-|Hne]; [exists free_row; by rewrite lookup_insert_eq|].
    destruct C3 as (rn & Hn & Hst); [|exists rn; by rewrite lookup_insert_ne]. destruct (decide (free_pids m = 0)) as [E|]; [|lia]. apply C2 in E. unfold PID_MAX in E. lia.
  - intros j rj [[<- <-]|[Hne Hj]]%lookup_insert_Some Hst; [destruct (Z.ltb_spec i (pid_next t)); lia|]. pose proof (C4 j rj Hj Hst). destruct (Z.ltb_spec i (pid_next t)); lia.
Qed.

(** ** Families *)

Lemma lives_orphan m i j r c : m !! i = Some r -> r_status r = RUNNING -> lives (<[i := Row c ORPHAN (r_code r)]> m) j <-> lives m j.
Proof.
  intros Hi Hr. destruct (decide (j = i)) as [->|Hne]; [|by apply lives_other]. unfold lives. rewrite lookup_insert_eq, Hi. split; intros _; eexists; (split; [done|]); auto.
Qed.

Lemma family_orphan m X E k A i r d l : family m X ∅ E k A -> m !! i = Some r -> r_status r = RUNNING -> i <> 1 -> r_proc r = d -> A !! d = Some (i, l) -> d ∉ X ->
  (forall q j lq, A !! q = Some (j, lq) -> q ∉ E -> lives m j -> d ∉ lq) -> family (<[i := Row d ORPHAN (r_code r)]> m) X ∅ E k A.
Proof.
  intros F Hi Hr H1 Hd HA HX Hno. pose proof (lives_orphan m i) as Hlv. destruct F as [F0 F1 F2 F3 F4 F5]. constructor.
  - done.
  - intros j rj [[<- <-]|[Hne Hj]]%lookup_insert_Some HY; [right|by apply F1]. split_and!; [right; by right|done|by exists l].
  - intros p j lp Hp Hx. destruct (F2 p j lp Hp Hx) as (rj & Hj & Ep & Hu). destruct (decide (j = i)) as [->|Hne]; [|exists rj; by rewrite lookup_insert_ne].
    rewrite Hi in Hj. injection Hj as <-. eexists. rewrite lookup_insert_eq. split_and!; [done|cbn; congruence|right; by right].
  - destruct F3 as (l1 & r1 & ? & ? & ? & ?). exists l1, r1. by rewrite lookup_insert_ne.
  - intros p j lp Hp He Hl. apply (Hlv j r d Hi Hr) in Hl. destruct (F4 p j lp Hp He Hl) as [Hnd Hk]. split; [done|]. intros c Hc. destruct (Hk c Hc) as (? & ? & jc & lc & rc & Hjc & ? & Hmc & Hst). split_and!; [done|done|].
    exists jc, lc, rc. split_and!; [done|done| |done]. rewrite lookup_insert_ne; [done|]. intros <-. destruct (F2 c i lc Hjc) as (r' & Hr' & Ec & _); [done|]. assert (c = d) as -> by congruence. by apply (Hno p j lp Hp He Hl).
  - intros p j lp q jq lq c Hp He Hl Hq He' Hl'. apply (Hlv _ r d Hi Hr) in Hl, Hl'. by eapply F5.
Qed.

Lemma threads_row m E A tp V i r' : threads m E A tp V -> r_status r' <> ZOMBIE -> threads (<[i := r']> m) E A tp V.
Proof. intros [T1 T2 T3 T4] Hr. constructor; try done. intros p j l r Hp He [[<- <-]|[_ Hj]]%lookup_insert_Some Hst; [done|by eapply T4]. Qed.

(** The process that exits becomes a zombie: nothing depends on its children
    any more. *)
Lemma family_exit m k A c i l r code : family m ∅ ∅ {[c]} k A -> A !! c = Some (i, l) -> m !! i = Some r -> i <> 1 -> family (<[i := Row c ZOMBIE code]> m) ∅ ∅ ∅ k A.
Proof.
  intros [F0 F1 F2 F3 F4 F5] Hc Hi H1. assert (forall j lp p, A !! p = Some (j, lp) -> lives (<[i := Row c ZOMBIE code]> m) j -> p ∉ ({[c]} : gset Z) /\ lives m j) as Hlv.
  { intros j lp p Hp (rj & Hj & Hst). destruct (decide (j = i)) as [->|Hne].
    - rewrite lookup_insert_eq in Hj. injection Hj as <-. cbn in Hst. unfold ZOMBIE, RUNNING, ORPHAN in Hst. lia.
    - rewrite lookup_insert_ne in Hj by done. split; [|by exists rj]. apply not_elem_of_singleton. intros ->. congruence. }
  constructor.
  - done.
  - intros j rj [[<- <-]|[Hne Hj]]%lookup_insert_Some HY; [right|by apply F1]. split_and!; [right; by left|set_solver|by exists l].
  - intros p j lp Hp Hx. destruct (F2 p j lp Hp Hx) as (rj & Hj & Ep & Hu). destruct (decide (j = i)) as [->|Hne]; [|exists rj; by rewrite lookup_insert_ne].
    eexists. rewrite lookup_insert_eq. split_and!; [done| |right; by left]. cbn. destruct (F2 c i l Hc) as (r' & ? & ? & _); [set_solver|]. congruence.
  - destruct F3 as (l1 & r1 & ? & ? & ? & ?). exists l1, r1. by rewrite lookup_insert_ne.
  - intros p j lp Hp _ [He Hl]%(Hlv j lp p); [|done]. destruct (F4 p j lp Hp He Hl) as [Hnd Hk]. split; [done|]. intros d Hd. destruct (Hk d Hd) as (? & ? & jd & ld & rd & Hjd & ? & Hmd & Hst). split_and!; [done|done|].
    destruct (decide (jd = i)) as [->|Hne].
    + eexists i, ld, _. rewrite lookup_insert_eq. split_and!; [done|done|done|by right].
    + exists jd, ld, rd. by rewrite lookup_insert_ne.
  - intros p j lp q jq lq d Hp _ [He Hl]%(Hlv j lp p) Hq _ [He' Hl']%(Hlv jq lq q); [|done|done]. by eapply F5.
Qed.

(** ** Waiting threads *)

Lemma waits_orphan m A tp q wk i r d : waits m A tp q wk -> m !! i = Some r -> r_status r = RUNNING -> waits (<[i := Row d ORPHAN (r_code r)]> m) A tp q wk.
Proof.
  intros [W1 W2 W3] Hi Hr. constructor; [| |done].
  - intros t j rv Hin. destruct (W1 t j rv Hin) as (p & jp & l & c & l' & ? & ? & ? & ? & ?). exists p, jp, l, c, l'. split_and!; try done. by apply (lives_orphan m i).
  - intros t j rv rj Hin [[<- <-]|[_ Hj]]%lookup_insert_Some; [done|by eapply W2].
Qed.

Lemma waits_reaped m A tp q wk i r d l : waits m A tp q wk -> m !! i = Some r -> r_status r = ZOMBIE -> A !! d = Some (i, l) ->
  (forall t j rv l', (t, (j, rv)) ∈ q ++ wk -> A !! d <> Some (j, l')) -> waits (<[i := free_row]> m) (delete d A) tp q wk.
Proof.
  intros [W1 W2 W3] Hi Hr Hd Hno. constructor; [| |done].
  - intros t j rv Hin. destruct (W1 t j rv Hin) as (p & jp & lp & c & lc & Ht & Hp & Hl & Hc & Hj). assert (jp <> i) as Hne.
    { intros ->. destruct Hl as (r' & Hr' & Hst). rewrite Hi in Hr'. injection Hr' as <-. unfold ZOMBIE, RUNNING, ORPHAN in *. lia. }
    exists p, jp, lp, c, lc. split_and!; [done| |by apply lives_other|done|].
    + rewrite lookup_delete_ne; [done|]. intros <-. congruence.
    + rewrite lookup_delete_ne; [done|]. intros <-. by apply (Hno t j rv lc).
  - intros t j rv rj Hin [[<- <-]|[_ Hj]]%lookup_insert_Some; [done|by eapply W2].
Qed.

(** The exit code is there and everybody is woken up. *)
Lemma waits_exit m A tp q wk i c code : waits m A tp q wk -> (forall p l, A !! p = Some (i, l) -> p = c) -> (forall t, tp !! t = Some c -> t ∉ (fst <$> q ++ wk)) ->
  waits (<[i := Row c ZOMBIE code]> m) A tp [] (wk ++ q).
Proof.
  intros [W1 W2 W3] Hone Hno. constructor.
  - intros t j rv Hin. assert ((t, (j, rv)) ∈ q ++ wk) as Hin' by set_solver. destruct (W1 t j rv Hin') as (p & jp & lp & d & ld & Ht & Hp & Hl & Hd & Hj). exists p, jp, lp, d, ld. split_and!; try done.
    apply lives_other; [|done]. intros ->. apply Hone in Hp as ->. apply (Hno t Ht). by apply (list_elem_of_fmap_2 fst) in Hin'.
  - intros t j rv rj Hin. by apply elem_of_nil in Hin.
  - cbn. by rewrite Permutation_app_comm.
Qed.

Lemma waits_gone m A tp q wk t : waits m A tp q wk -> t ∉ (fst <$> q ++ wk) -> waits m A (delete t tp) q wk.
Proof.
  intros [W1 W2 W3] Ht. constructor; [|done|done]. intros u j rv Hin. destruct (W1 u j rv Hin) as (p & jp & lp & d & ld & Hu & ?). exists p, jp, lp, d, ld. split; [|done].
  rewrite lookup_delete_ne; [done|]. intros <-. apply Ht. by apply (list_elem_of_fmap_2 fst) in Hin.
Qed.

(** ** Threads *)

Lemma threads_exit m c A tp V t i l : threads m {[c]} A tp V -> A !! c = Some (i, l) -> l = [t] -> threads m ∅ (<[c := (i, [])]> A) (delete t tp) (V ∖ {[t]}).
Proof.
  intros [T1 T2 T3 T4] Hc ->. destruct (T2 c i [t] t Hc) as [Ht _]; [set_solver|]. constructor.
  - intros u p [Hne Hu]%lookup_delete_Some. destruct (T1 u p Hu) as (j & lp & Hp & Hin). exists j, lp. split; [|done]. rewrite lookup_insert_ne; [done|]. intros <-. rewrite Hc in Hp. injection Hp as <- <-. apply list_elem_of_singleton in Hin. congruence.
  - intros p j lp u [[<- [= <- <-]]|[Hne Hp]]%lookup_insert_Some Hu; [by apply elem_of_nil in Hu|]. destruct (T2 p j lp u Hp Hu) as [Hup HuV]. assert (u <> t) as Hut by congruence. rewrite lookup_delete_ne by done. split; [done|set_solver].
  - intros p j lp [[<- [= <- <-]]|[Hne Hp]]%lookup_insert_Some; [split; [constructor|cbn; lia]|by eapply T3].
  - intros p j lp r [[<- [= <- <-]]|[Hne Hp]]%lookup_insert_Some _; [done|]. apply (T4 p j lp r Hp). set_solver.
Qed.

(** ** The loop over the children *)

Section exit.
Context {W : Type} `{World W}.
Implicit Types s : pst W.

(** The state of an exit of process [c] from [s] once the children [D] were
    dealt with. *)
Record exiting (m : gmap Z row) (s : pst W) (c : Z) (D : list Z) s' : Prop := {
  ex_inv : exists B, pmid B (disown D m) ∅ ∅ {[c]} true ∅ s';
  ex_count : tcount (ptab s') (disown D m);
  ex_waits : waits (disown D m) (fam (procs s')) (tproc s') (cv_queue s') (cv_woken s');
  ex_procs : forall q, procs s' !! q = procs s !! q \/ (q ∈ D /\ procs s' !! q = None);
  ex_rest : (kproc s', tfs s', tproc s', tdata s', curt s', cv_queue s', cv_woken s') = (kproc s, tfs s, tproc s, tdata s, curt s, cv_queue s, cv_woken s);
  ex_lock : pt_lock (ptab s') = pt_lock (ptab s);
  ex_cur : v_curas (wv (pw s')) = v_curas (wv (pw s));
  ex_files : forall q fd, q ∉ D -> ftab s' !! (q, fd) = ftab s !! (q, fd);
  ex_fhs : same_handlers (fhs s) (fhs s');
}.

(** Processes that stay. *)
Lemma ex_stays m s c D s' q x : exiting m s c D s' -> procs s !! q = Some x -> q ∉ D -> procs s' !! q = Some x.
Proof. intros Ex Hq HD. destruct (ex_procs _ _ _ _ _ Ex q) as [->|[? _]]; done. Qed.

Lemma ex_was m s c D s' q a : exiting m s c D s' -> fam (procs s') !! q = Some a -> fam (procs s) !! q = Some a.
Proof. intros Ex (x & Hx & ->)%view_inv. destruct (ex_procs _ _ _ _ _ Ex q) as [E|[_ E]]; [|congruence]. apply (view_lookup (fun x => (pid x, alist (children x)))). congruence. Qed.

(** What is known of a child of the process that exits. *)
Lemma child_row m k A c i l d : family m ∅ ∅ ∅ k A -> A !! c = Some (i, l) -> lives m i -> d ∈ l ->
  d <> c /\ exists j l' r, A !! d = Some (j, l') /\ j <> 1 /\ m !! j = Some r /\ r_proc r = d /\ (r_status r = RUNNING \/ r_status r = ZOMBIE) /\ (forall n rn, m !! n = Some rn -> r_proc rn = d -> n = j).
Proof.
  intros F Hc Hl Hd. destruct (fa_kids _ _ _ _ _ _ F c i l Hc (not_elem_of_empty _) Hl) as [_ Hk]. destruct (Hk d Hd) as (Hdc & _ & j & l' & r & Hj & H1 & Hr & Hst). split; [done|].
  exists j, l', r. split_and!; try done.
  - destruct (fa_pid _ _ _ _ _ _ F d j l' Hj) as (r' & ? & ? & _); [set_solver|congruence].
  - intros n rn Hn En. destruct (fa_row _ _ _ _ _ _ F n rn Hn) as [[_ E0]|(_ & _ & ln & Hln)]; [set_solver| |].
    + pose proof (fa_null _ _ _ _ _ _ F). congruence.
    + rewrite En, Hj in Hln. by injection Hln.
Qed.

Lemma lives_disown m k A c i l D j : family m ∅ ∅ ∅ k A -> A !! c = Some (i, l) -> lives m i -> (forall d, d ∈ D -> d ∈ l) -> lives (disown D m) j -> lives m j.
Proof.
  intros F Hc Hl HD (r & Hr & Hst). unfold disown in Hr. apply lookup_fmap_Some in Hr as (r0 & <- & Hr0). exists r0. split; [done|]. unfold disown_row in Hst.
  destruct (decide (r_proc r0 ∈ D)) as [Hin|]; [|done]. destruct (child_row _ _ _ _ _ _ _ F Hc Hl (HD _ Hin)) as (_ & jd & ld & rd & _ & _ & Hrd & _ & Hsd & Hone).
  assert (j = jd) as -> by (by eapply Hone). rewrite Hr0 in Hrd. injection Hrd as <-. destruct Hsd as [|E]; [by left|]. rewrite decide_True in Hst by done. cbn in Hst. unfold READY, RUNNING, ORPHAN in Hst. lia.
Qed.

(** Nobody else that lives has it as its child, nobody waits for it. *)
Lemma child_of_no_other m s c cx D s' d q j lq : family m ∅ ∅ ∅ (kproc s) (fam (procs s)) -> procs s !! c = Some cx -> lives m (pid cx) -> (forall d, d ∈ D -> d ∈ alist (children cx)) -> exiting m s c D s' ->
  d ∈ alist (children cx) -> fam (procs s') !! q = Some (j, lq) -> q ∉ ({[c]} : gset Z) -> lives (disown D m) j -> d ∉ lq.
Proof.
  intros F Hc Hl HD Ex Hd Hq Hqc Hlj Hin. pose proof (view_lookup (fun x => (pid x, alist (children x))) _ _ _ Hc) as Hc'. apply (ex_was _ _ _ _ _ _ _ Ex) in Hq. eapply lives_disown in Hlj; [|done|exact Hc'|done|done].
  apply not_elem_of_singleton in Hqc. apply Hqc. by apply (fa_parent _ _ _ _ _ _ F q j lq c (pid cx) (alist (children cx)) d); try apply not_elem_of_empty.
Qed.

Lemma nobody_waits m s c cx d t j rv l' : family m ∅ ∅ ∅ (kproc s) (fam (procs s)) -> procs s !! c = Some cx -> lives m (pid cx) -> waits m (fam (procs s)) (tproc s) (cv_queue s) (cv_woken s) ->
  (forall t, tproc s !! t = Some c -> t ∉ waiting s) -> d ∈ alist (children cx) -> (t, (j, rv)) ∈ cv_queue s ++ cv_woken s -> fam (procs s) !! d <> Some (j, l').
Proof.
  intros F Hc Hl Wa Hno Hd Hin E. pose proof (view_lookup (fun x => (pid x, alist (children x))) _ _ _ Hc) as Hc'. destruct (wa_child _ _ _ _ _ Wa t j rv Hin) as (p & jp & lp & e & le & Ht & Hp & Hlp & He & Hej).
  destruct (fa_pid _ _ _ _ _ _ F d j l' E) as (r1 & Hr1 & Ed & _); [set_solver|]. destruct (fa_pid _ _ _ _ _ _ F e j le Hej) as (r2 & Hr2 & Ee & _); [set_solver|]. assert (e = d) as -> by congruence.
  assert (p = c) as -> by (by apply (fa_parent _ _ _ _ _ _ F p jp lp c (pid cx) (alist (children cx)) d); try apply not_elem_of_empty). apply (Hno t Ht). unfold waiting. by apply (list_elem_of_fmap_2 fst) in Hin.
Qed.

Lemma pmid_orphan B m E lk s i r d x t : pmid B m ∅ ∅ E lk ∅ s -> m !! i = Some r -> r_status r = RUNNING -> i <> 1 -> r_proc r = d -> procs s !! d = Some x -> pid x = i ->
  (forall q j lq, fam (procs s) !! q = Some (j, lq) -> q ∉ E -> lives m j -> d ∉ lq) -> trep t (<[i := Row d ORPHAN (r_code r)]> m) -> pt_lock t = pt_lock (ptab s) ->
  pmid B (<[i := Row d ORPHAN (r_code r)]> m) ∅ ∅ E lk ∅ (set_ptab t s).
Proof.
  intros I Hi Hr H1 Hd Hx Hp Hno Ht El. destruct I as [I1 I2 I3 I4 I5 I6 I7 I8 I9 I10]. constructor; st_simpl; try done.
  - unfold tlock. by rewrite El.
  - eapply family_orphan; try done. rewrite <- Hp. by apply (view_lookup (fun x => (pid x, alist (children x)))).
  - by apply threads_row.
Qed.

Lemma pmid_reaped B m Y E lk s i r t : pmid B m ∅ Y E lk ∅ s -> m !! i = Some r -> i ∈ Y -> i <> 1 -> (forall p x, procs s !! p = Some x -> pid x <> i) -> trep t (<[i := free_row]> m) -> pt_lock t = pt_lock (ptab s) ->
  pmid B (<[i := free_row]> m) ∅ (Y ∖ {[i]}) E lk ∅ (set_ptab t s).
Proof.
  intros I Hi HY H1 Hno Ht El. destruct I as [I1 I2 I3 I4 I5 I6 I7 I8 I9 I10]. constructor; st_simpl; try done.
  - unfold tlock. by rewrite El.
  - eapply family_freed; try done. intros p l (x & Hx & [= E1 _])%view_inv. exfalso. apply (Hno p x Hx). congruence.
  - by apply threads_freed.
Qed.

Lemma set_ptab_same s : set_ptab (ptab s) s = s.
Proof. by destruct s. Qed.

Lemma set_pid_next_same t : set_pid_next (pid_next t) t = t.
Proof. by destruct t. Qed.

(** A zombie child: its structure and its pid are free again. *)
Lemma wp_reap B m c s j x r (Q : unit -> pst W -> Prop) : pmid B m ∅ ∅ {[c]} true ∅ s -> tcount (ptab s) m -> m !! j = Some r -> r_status r = ZOMBIE -> j <> 1 -> procs s !! r_proc r = Some x -> pid x = j -> r_proc r <> c ->
  (p_addrspace x <> 0 -> p_addrspace x <> v_curas (wv (pw s))) -> (forall q j lq, fam (procs s) !! q = Some (j, lq) -> q ∉ ({[c]} : gset Z) -> lives m j -> r_proc r ∉ lq) ->
  (forall B' w T F t, let s' := set_ptab t (set_procs (delete (r_proc r) (procs s)) (set_ftab T (set_fhs F (set_pw w s)))) in
    pmid B' (<[j := free_row]> m) ∅ ∅ {[c]} true ∅ s' -> tcount t (<[j := free_row]> m) -> pt_lock t = pt_lock (ptab s) -> v_curas (wv w) = v_curas (wv (pw s)) ->
    same_handlers (fhs s) F -> (forall q fd, q <> r_proc r -> T !! (q, fd) = ftab s !! (q, fd)) -> Q tt s') ->
  wp (t <- pt ;; (if j <? pid_next t then pt_put (set_pid_next j t) else ret tt) ;;; proc_destroy (r_proc r) ;;; clear_pid j) Q s.
Proof.
  intros I Tc Hj Hz H1 Hx Hp Hdc Has Hno HQ. wp_step. apply wp_pt. set (n := if j <? pid_next (ptab s) then j else pid_next (ptab s)). set (s1 := set_ptab (set_pid_next n (ptab s)) s).
  assert (forall k, wp k Q s1 -> wp ((if j <? pid_next (ptab s) then pt_put (set_pid_next j (ptab s)) else ret tt) ;;; k) Q s) as Hput.
  { intros k Hk. subst n s1. unfold pt_put. destruct (j <? pid_next (ptab s)); wp_steps; [done|]. by rewrite set_pid_next_same, set_ptab_same in Hk. }
  apply Hput. clear Hput. assert (pmid B m ∅ ∅ {[c]} true ∅ s1) as I1.
  { destruct I as [I1 I2 I3 I4 I5 I6 I7 I8 I9 I10]. constructor; try done. apply (trep_counters (ptab s) m (pid_available (ptab s)) n) in I5. by destruct (ptab s). }
  assert (r_proc r <> kproc s) as Hk.
  { intros E. destruct (fa_kproc _ _ _ _ _ _ (pv_family I)) as (l & r1 & Hk & _). rewrite <- E in Hk. apply view_inv in Hk as (y & Hy & [= E1 _]). congruence. }
  wp_step. eapply (wp_proc_destroy B m ∅ ∅ {[c]} true (r_proc r) x); try done.
  { apply (th_zombie _ _ _ _ _ (pv_threads I) (r_proc r) j (alist (p_threads x)) r); try done; [|set_solver]. rewrite <- Hp. by apply (view_lookup (fun x => (pid x, alist (p_threads x)))). }
  intros w T F B' s2 I2 Ec Et Es Hsh HT. rewrite decide_False in I2 by set_solver. pose proof (free_pids_bound _ _ (pv_tab I)) as Hb. pose proof (tc_avail _ _ Tc) as Ha. pose proof (tr_lookup _ _ _ _ (pv_tab I) Hj) as Hj'.
  eapply wp_clear_pid; [apply I2|done|lia|change (0 <= pid_available (ptab s) <= 31); lia|]. intros t Tr [= El Ecv Ea En]. apply (HQ B' w T F t).
  - replace (∅ ∖ {[r_proc r]} : gset Z) with (∅ : gset Z) in I2 by set_solver. replace (∅ ∪ {[pid x]} : gset Z) with ({[j]} : gset Z) in I2 by set_solver.
    pose proof (pmid_reaped B' m {[j]} {[c]} true s2 j r t I2 Hj) as I3. replace ({[j]} ∖ {[j]} : gset Z) with (∅ : gset Z) in I3 by set_solver. apply I3; [set_solver|done| |exact Tr|exact El].
    intros p y Hy E. change (delete (r_proc r) (procs s) !! p = Some y) in Hy. apply lookup_delete_Some in Hy as [Hne Hy]. destruct (fa_pid _ _ _ _ _ _ (pv_family I) p (pid y) (alist (children y))) as (ry & Hry & Ery & _); [by apply (view_lookup (fun x => (pid x, alist (children x))))|set_solver|]. congruence.
  - apply (tcount_freed (ptab s) t m j r); try done; [apply I|by rewrite Hz].
  - done.
  - done.
  - done.
  - done.
Qed.

(** What is needed of the state the call starts from. *)
Record may_exit (m : gmap Z row) (s : pst W) (c : Z) (cx : proc) : Prop := {
  mx_family : family m ∅ ∅ ∅ (kproc s) (fam (procs s));
  mx_waits : waits m (fam (procs s)) (tproc s) (cv_queue s) (cv_woken s);
  mx_spaces : spaces (spc (procs s)) (v_spaces (wv (pw s)));
  mx_proc : procs s !! c = Some cx;
  mx_kids : holds (children cx) (alist (children cx));
  mx_lives : lives m (pid cx);
  mx_cur : v_curas (wv (pw s)) = p_addrspace cx;
  mx_quiet : forall t, tproc s !! t = Some c -> t ∉ waiting s;
}.

Lemma mx_fam m s c cx : may_exit m s c cx -> fam (procs s) !! c = Some (pid cx, alist (children cx)).
Proof. intros Mx. apply (view_lookup (fun x => (pid x, alist (children x)))), Mx. Qed.

Lemma mx_self m s c cx : may_exit m s c cx -> c ∉ alist (children cx).
Proof. intros Mx Hc. by destruct (child_row _ _ _ _ _ _ _ (mx_family _ _ _ _ Mx) (mx_fam _ _ _ _ Mx) (mx_lives _ _ _ _ Mx) Hc) as [? _]. Qed.

Lemma fam_delete (P : gmap Z proc) d : fam (delete d P) = delete d (fam P).
Proof. unfold fam. by rewrite fmap_delete. Qed.

Lemma update_child_spec m s c cx D i d s' : may_exit m s c cx -> (forall e, e ∈ D -> e ∈ alist (children cx)) -> d ∉ D -> exiting m s c D s' -> 0 <= i -> alist (children cx) !! Z.to_nat i = Some d ->
  wp (update_child c i) (fun _ s'' => exiting m s c (d :: D) s'') s'.
Proof.
  intros Mx HD HdD Ex Hi Hd. pose proof (list_elem_of_lookup_2 _ _ _ Hd) as HdK. pose proof Mx as [F Wa Sp Hc Hh Hl Hcur Hq]. pose proof (mx_fam _ _ _ _ Mx) as Hc'. destruct (child_row _ _ _ _ _ _ _ F Hc' Hl HdK) as (Hdc & j & l' & r & Hj & H1 & Hr & Hrd & Hst & Hone).
  apply view_inv in Hj as (x & Hx & [= -> ->]). pose proof (ex_stays _ _ _ _ _ _ _ Ex Hx HdD) as Hx'. assert (procs s' !! c = Some cx) as Hcs'.
  { apply (ex_stays _ _ _ _ _ _ _ Ex Hc). intros Hin. apply (mx_self _ _ _ _ Mx). auto. }
  pose proof Ex as [[B I] Tc Wa' EP ER EL EC EF EH]. assert (disown D m !! pid x = Some r) as Hr' by (apply disown_lookup; [done|congruence]).
  assert (forall q j lq, fam (procs s') !! q = Some (j, lq) -> q ∉ ({[c]} : gset Z) -> lives (disown D m) j -> r_proc r ∉ lq) as Hno.
  { intros q j lq. rewrite Hrd. by eapply child_of_no_other. }
  pose proof (disown_cons D m (pid x) r d Hr Hrd HdD Hone) as ED. unfold disown_row in ED. rewrite decide_True in ED by set_solver. rewrite Hrd in ED.
  unfold update_child. wp_step. eapply (wp_children_get c cx); [done|done|done|done|]. wp_step. eapply (wp_proc_at d x); [done|]. wp_step. eapply wp_cell_status; [apply I|done|]. wp_step; boolify.
  - rewrite decide_False in ED by (unfold RUNNING, ZOMBIE in *; lia). eapply wp_set_status; [apply I|done|]. intros t Ht [= L1 C1 A1 N1]. rewrite Hrd in Ht. rewrite Hrd in Hno. constructor; st_simpl; rewrite ?ED; try done.
    + exists B. by eapply pmid_orphan.
    + eapply tcount_used; [exact Tc|done|..]; try done. by unfold RUNNING, READY in *; lia.
    + by apply waits_orphan.
    + intros q. destruct (EP q) as [|[]]; [by left|right]. split; [set_solver|done].
    + congruence.
    + intros q fd Hqd. apply EF. set_solver.
  - destruct Hst as [|Hst]; [done|]. replace (r_status r =? ZOMBIE) with true by lia. cbv iota. rewrite decide_True in ED by done.
    assert (fam (procs s') !! d = Some (pid x, alist (children x))) as Hfd by (by apply (view_lookup (fun x => (pid x, alist (children x))))).
    rewrite <- Hrd. eapply (wp_reap B (disown D m) c s' (pid x) x r); try done; [by rewrite Hrd|congruence| |].
    { intros Ha Ea. rewrite EC, Hcur in Ea. apply Hdc. apply (sp_inj _ _ Sp d c (p_addrspace x)); [by apply (view_lookup p_addrspace)| |done]. rewrite Ea. by apply (view_lookup p_addrspace). }
    intros B' w T F' t s2 I2 Tc2 El2 Ec2 Hsh HT. subst s2. rewrite Hrd in *. constructor; rewrite ?ED.
    + by exists B'.
    + done.
    + st_simpl. rewrite fam_delete. eapply waits_reaped; [exact Wa'|exact Hr'|exact Hst|exact Hfd|]. injection ER as E1 E2 E3 E4 E5 E6 E7. rewrite E6, E7.
      intros u ju rv lu Hin Hfu. apply (ex_was _ _ _ _ _ _ _ Ex) in Hfu. revert Hfu. by apply (nobody_waits m s c cx d u ju rv lu).
    + st_simpl. intros q. destruct (decide (q = d)) as [->|Hne]; [right; split; [set_solver|apply lookup_delete_eq]|]. rewrite lookup_delete_ne by done. destruct (EP q) as [|[]]; [by left|right]. split; [set_solver|done].
    + done.
    + st_simpl. congruence.
    + st_simpl. congruence.
    + st_simpl. intros q fd Hqd. rewrite HT by set_solver. apply EF. set_solver.
    + st_simpl. unfold same_handlers in *. congruence.
Qed.

Lemma wp_update_children B m c cx (Q : unit -> pst W -> Prop) s : pmid B m ∅ ∅ ∅ true ∅ s -> tcount (ptab s) m -> may_exit m s c cx ->
  (forall s', exiting m s c (alist (children cx)) s' -> Q tt s') -> wp (proc_table_update_children c) Q s.
Proof.
  intros I Tc Mx HQ. unfold proc_table_update_children. wp_step. apply wp_pt. wp_step. apply wp_world. wp_apply lock_do_i_hold_law; [apply (pv_own I)|apply (pv_tlock I)|]. intros b w [-> ->].
  wp_step. apply wp_kassert; [done|]. replace (set_pw (pw s) s) with s by (by destruct s). pose proof Mx as [F Wa Sp Hc Hh Hl Hcur Hq]. pose proof (mx_fam _ _ _ _ Mx) as Hc'. wp_step. apply wp_kassert.
  { assert (c <> 0); [|by replace (c =? 0) with false by lia]. intros ->. pose proof (fa_null _ _ _ _ _ _ F). congruence. }
  wp_step. apply (wp_children_num c cx); [done|done|]. set (K := alist (children cx)) in *. destruct (fa_kids _ _ _ _ _ _ F c (pid cx) K Hc' (not_elem_of_empty _) Hl) as [Hnd _].
  wp_step. eapply (wp_for _ _ _ (fun k s' => exiting m s c (drop (length K - Z.to_nat k) K) s')).
  - rewrite Nat.sub_0_r, drop_all. constructor; rewrite ?disown_nil; try done; [|by left]. exists B. eapply pmid_weaken; [done|set_solver].
  - intros k s' Hk Ex. rewrite Nat2Z.id in Hk. destruct (lookup_lt_is_Some_2 K (length K - S (Z.to_nat k))) as [d Hd]; [lia|]. pose proof (drop_S _ _ _ Hd) as ES. replace (S (length K - S (Z.to_nat k))) with (length K - Z.to_nat k)%nat in ES by lia.
    wp_step. eapply wp_mono; [eapply (update_child_spec m s c cx); [done| | |exact Ex|lia|]|].
    + fold K. intros e He. rewrite <- (take_drop (length K - Z.to_nat k) K). apply elem_of_app. by right.
    + instantiate (1 := d). rewrite <- (take_drop (length K - S (Z.to_nat k)) K) in Hnd. apply NoDup_app in Hnd as (_ & _ & Hnd). rewrite ES in Hnd. by apply NoDup_cons in Hnd as [? _].
    + fold K. by replace (Z.to_nat (Z.of_nat (length K) - 1 - k)) with (length K - S (Z.to_nat k))%nat by lia.
    + intros [] s'' Ex'. wp_step. replace (Z.to_nat (k + 1)) with (S (Z.to_nat k)) by lia. by rewrite ES.
  - intros s' Ex. wp_step. apply HQ. rewrite Z.add_0_l, !Nat2Z.id, Nat.sub_diag in Ex. exact Ex.
Qed.

(** ** The thread leaves its process *)

Lemma wp_remthread B m c cx t (Q : unit -> pst W -> Prop) s : pmid B m ∅ ∅ {[c]} false ∅ s -> procs s !! c = Some cx -> tproc s !! t = Some c -> alist (p_threads cx) = [t] ->
  (forall B' a, alist a = [] -> aown B' (KThr c) a -> same_but (KThr c) B B' -> hown B' (pw s) -> Q tt (set_tproc (delete t (tproc s)) (set_procs (<[c := set_p_threads a cx]> (procs s)) s))) -> wp (proc_remthread t) Q s.
Proof.
  intros I Hc Ht Hl HQ. pose proof (pmid_finv _ _ _ _ _ _ _ I) as If. pose proof (fi_plock _ If c cx Hc) as Hlk. destruct (me_proc (pv_mem I) c (p_name cx) (children_ptr cx) (children cx) (p_threads cx) (view_lookup _ _ _ _ Hc)) as (_ & _ & _ & _ & Ha).
  unfold proc_remthread. wp_step. wp_step. rewrite Ht. cbn [default from_option id]. wp_step. apply wp_kassert.
  { assert (c <> 0); [|by replace (c =? 0) with false by lia]. intros ->. pose proof (fa_null _ _ _ _ _ _ (pv_family I)) as Hn. unfold fam in Hn. by rewrite (view_lookup _ _ _ _ Hc) in Hn. }
  wp_step. apply (wp_p_lock_acquire c cx); [done|done|]. wp_step. apply (wp_on_array p_threads set_p_threads c (set_p_lock true cx)); [apply lookup_insert_eq|]. apply wp_array_num; [apply Ha|]. cbn [fst snd]. p_simpl. rewrite Hl.
  change (Z.to_nat (Z.of_nat (length [t]))) with 1%nat. cbn [for_]. wp_step. wp_step. wp_step. apply (wp_on_array p_threads set_p_threads c (set_p_lock true cx)); [p_simpl; rewrite lookup_insert_eq; by destruct cx|].
  eapply (wp_array_get _ t); [apply Ha|lia|change (alist (p_threads cx) !! Z.to_nat 0 = Some t); by rewrite Hl|]. cbn [fst snd]. rewrite Z.eqb_refl. wp_step. apply (wp_on_array p_threads set_p_threads c (set_p_lock true cx)); [p_simpl; rewrite lookup_insert_eq; by destruct cx|].
  apply (wp_array_remove B (KThr c)); [apply I|done|change (0 <= 0 < Z.of_nat (length (alist (p_threads cx)))); rewrite Hl; cbn; lia|]. intros a' Ha' El. change (alist a' = delete (Z.to_nat 0) (alist (p_threads cx))) in El. rewrite Hl in El. cbn in El. cbn [fst snd]. wp_step. apply (wp_p_lock_release c (set_p_threads a' (set_p_lock true cx))); [p_simpl; by rewrite lookup_insert_eq|done|].
  wp_step. wp_step. wp_step. p_simpl. rewrite !insert_insert_eq, relock_threads by done. replace (set_pw (pw s) s) with s by (by destruct s). apply (HQ B a'); [done|done|done|apply I].
Qed.

(** ** The whole call *)

(** The exit of process [c] with code [code]: its pid holds the code, its
    children are orphans or gone, all waiting threads are awake, the thread is
    gone, and the rest is as it was. *)
Record exit_done (m : gmap Z row) (s s' : pst W) (c : Z) (cx : proc) (code : Z) : Prop := {
  xd_inv : exists B, pinv B (<[pid cx := Row c ZOMBIE code]> (disown (alist (children cx)) m)) s';
  xd_queue : cv_queue s' = [] /\ cv_woken s' = cv_woken s ++ cv_queue s;
  xd_thread : tproc s' = delete (curt s) (tproc s);
  xd_rest : (kproc s', tfs s', tdata s', curt s') = (kproc s, tfs s, tdata s, curt s);
  xd_self : exists a, procs s' !! c = Some (set_p_threads a cx) /\ alist a = [];
  xd_procs : forall q, q <> c -> procs s' !! q = procs s !! q \/ (q ∈ alist (children cx) /\ procs s' !! q = None);
  xd_files : forall q fd, q ∉ alist (children cx) -> ftab s' !! (q, fd) = ftab s !! (q, fd);
  xd_fhs : desc_of <$> fhs s' = desc_of <$> fhs s;
}.

(** The state with the exit code in place, before the thread leaves. *)
Lemma pmid_zombie B m s c cx r code t : pmid B m ∅ ∅ {[c]} true ∅ s -> procs s !! c = Some cx -> m !! pid cx = Some r -> pid cx <> 1 -> trep t (<[pid cx := Row c ZOMBIE code]> m) -> pt_lock t = pt_lock (ptab s) ->
  pmid B (<[pid cx := Row c ZOMBIE code]> m) ∅ ∅ {[c]} true ∅ (set_ptab t s).
Proof.
  intros I Hc Hr H1 Ht El. pose proof (view_lookup (fun x => (pid x, alist (children x))) _ _ _ Hc) as Hc'. destruct I as [I1 I2 I3 I4 I5 I6 I7 I8 I9 I10]. constructor; st_simpl; try done.
  - unfold tlock. by rewrite El.
  - eapply family_weaken; [by apply (family_exit m _ _ c (pid cx) (alist (children cx)) r)|set_solver].
  - destruct I8 as [T1 T2 T3 T4]. constructor; try done. intros p i l rp Hp He [[<- <-]|[_ Hi]]%lookup_insert_Some Hst; [|by eapply T4]. exfalso. apply He. apply elem_of_singleton.
    apply view_inv in Hp as (y & Hy & [= E1 _]). destruct (fa_pid _ _ _ _ _ _ I7 p (pid y) (alist (children y))) as (r1 & Hr1 & Ep & _); [by apply (view_lookup (fun x => (pid x, alist (children x))))|set_solver|].
    destruct (fa_pid _ _ _ _ _ _ I7 c (pid cx) (alist (children cx)) Hc') as (r2 & Hr2 & Ec & _); [set_solver|]. congruence.
Qed.

(** Once its thread left, the process is a zombie like any other. *)
Lemma pmid_left B B' m s c cx r a t w : pmid B m ∅ ∅ {[c]} false ∅ s -> procs s !! c = Some cx -> m !! pid cx = Some r -> r_status r = ZOMBIE -> pid cx <> 1 -> alist (p_threads cx) = [t] ->
  alist a = [] -> aown B' (KThr c) a -> same_but (KThr c) B B' -> hown B' w -> heap_live w = heap_live (pw s) -> wv w = v_set_threads (v_threads (wv (pw s)) ∖ {[t]}) (wv (pw s)) ->
  pmid B' m ∅ ∅ ∅ false ∅ (set_pw w (set_tproc (delete t (tproc s)) (set_procs (<[c := set_p_threads a cx]> (procs s)) s))).
Proof.
  intros I Hc Hr Hz H1 Hl El Ha HB Hw EL EV. destruct I as [I1 I2 I3 I4 I5 I6 I7 I8 I9 I10]. set (P' := <[c := _]> (procs s)).
  assert (spc P' = spc (procs s)) as E1 by (by apply (view_same _ _ c cx)). assert (cwds P' = cwds (procs s)) as E2 by (by apply (view_same _ _ c cx)). assert (lck P' = lck (procs s)) as E3 by (by apply (view_same _ _ c cx)). assert (fam P' = fam (procs s)) as E4 by (by apply (view_same _ _ c cx)).
  constructor; st_simpl; fold P'; rewrite ?E1, ?E2, ?E3, ?E4, ?EV, ?EL; try done.
  - unfold P', blk. rewrite fmap_insert. apply (mem_threads B B' _ _ _ c (p_name cx) (children_ptr cx) (children cx) (p_threads cx) a); [exact I2|done| |exact Ha]. by apply (view_lookup (fun x => (p_name x, children_ptr x, children x, p_threads x))).
  - eapply fpure_weaken; [exact I3| |done|done]. intros h z Hh. by eapply (mem_hown _ _ _ _ _ _ (pw s)).
  - pose proof (view_lookup (fun x => (pid x, alist (children x))) _ _ _ Hc) as Hc'. pose proof (family_exit _ _ _ _ _ _ _ (r_code r) I7 Hc' Hr H1) as F. cbv beta in F. rewrite insert_id in F; [exact F|].
    destruct (fa_pid _ _ _ _ _ _ I7 c _ _ Hc') as (r' & Hr' & Ep & _); [set_solver|]. cbn in Hr'. rewrite Hr in Hr'. injection Hr' as <-. rewrite Hr. destruct r. cbn in *. by subst.
  - unfold P', thr. rewrite fmap_insert. cbn [pid p_threads set_p_threads]. rewrite El. eapply threads_exit; [exact I8| |exact Hl]. by apply (view_lookup (fun x => (pid x, alist (p_threads x)))).
Qed.

(** A user process has one thread, the current one if it is current. *)
Lemma only_thread B m s c cx t : pinv B m s -> procs s !! c = Some cx -> pid cx <> 1 -> tproc s !! t = Some c -> alist (p_threads cx) = [t].
Proof.
  intros I Hc H1 Ht. pose proof (pv_threads (pv_mid I)) as T. destruct (th_in _ _ _ _ _ T t c Ht) as (i & l & Hl & Hin). apply view_inv in Hl as (x & Hx & [= -> ->]). rewrite Hc in Hx. injection Hx as <-.
  destruct (th_one _ _ _ _ _ T c (pid cx) (alist (p_threads cx))) as [_ Hlen]; [by apply (view_lookup (fun x => (pid x, alist (p_threads x))))|]. specialize (Hlen H1).
  destruct (alist (p_threads cx)) as [|u [|v l]]; [by apply elem_of_nil in Hin| |cbn in Hlen; lia]. apply list_elem_of_singleton in Hin. by subst.
Qed.

Lemma pinv_may_exit B m s c cx r w : pinv B m s -> tproc s !! curt s = Some c -> procs s !! c = Some cx -> m !! pid cx = Some r -> r_status r = RUNNING \/ r_status r = ORPHAN -> pid cx <> 1 -> v_curas (wv (pw s)) = p_addrspace cx -> curt s ∉ waiting s ->
  same_rest (wv (pw s)) (wv w) -> may_exit m (set_pw w s) c cx.
Proof.
  intros I Ht Hc Hr Hst H1 Hcur Hnw [= _ Es Ec _]. pose proof (pv_mid I) as I'. constructor; st_simpl; try done.
  - apply I'.
  - apply I.
  - rewrite Es. apply I'.
  - by destruct (me_proc (pv_mem I') c (p_name cx) (children_ptr cx) (children cx) (p_threads cx) (view_lookup _ _ _ _ Hc)) as (_ & _ & _ & [? _] & _).
  - by exists r.
  - by rewrite Ec.
  - intros t Htc. pose proof (only_thread _ _ _ _ _ _ I Hc H1 Ht) as E1. rewrite (only_thread _ _ _ _ _ _ I Hc H1 Htc) in E1. injection E1 as ->. done.
Qed.

Lemma wp_thread_exit B m s c cx r (Q : unit -> pst W -> Prop) : pmid B m ∅ ∅ {[c]} false ∅ s -> procs s !! c = Some cx -> tproc s !! curt s = Some c -> alist (p_threads cx) = [curt s] -> m !! pid cx = Some r -> r_status r = ZOMBIE -> pid cx <> 1 ->
  (forall B' a w, alist a = [] -> let s' := set_pw w (set_tproc (delete (curt s) (tproc s)) (set_procs (<[c := set_p_threads a cx]> (procs s)) s)) in pmid B' m ∅ ∅ ∅ false ∅ s' -> Q tt s') -> wp thread_exit Q s.
Proof.
  intros I Hc Ht Hl Hr Hz H1 HQ. unfold thread_exit. wp_step. wp_step. wp_step. eapply (wp_remthread B m c cx); [done|done|done|done|]. intros B' a El Ha HB Hw. wp_step. wp_step. wp_step. apply wp_kassert; [st_simpl; apply bool_decide_eq_true_2, lookup_delete_eq|].
  apply wp_world. st_simpl. wp_apply thread_zombie_law; [apply (pv_own I)| |].
  { destruct (th_out _ _ _ _ _ (pv_threads I) c (pid cx) (alist (p_threads cx)) (curt s)) as [_ HV]; [by apply (view_lookup (fun x => (pid x, alist (p_threads x))))|rewrite Hl; set_solver|done]. }
  intros [] w (Hok & EL & EV). apply (HQ B' a w El). eapply pmid_left; try done. by apply (hown_world B' (pw s)).
Qed.

Lemma wp_sys__exit B m c cx r code (Q : unit -> pst W -> Prop) s : pinv B m s -> tproc s !! curt s = Some c -> procs s !! c = Some cx -> m !! pid cx = Some r -> r_status r = RUNNING -> pid cx <> 1 ->
  v_curas (wv (pw s)) = p_addrspace cx -> curt s ∉ waiting s -> (forall s', exit_done m s s' c cx code -> Q tt s') -> wp (sys__exit code) Q s.
Proof.
  intros I Ht Hc Hr Hst H1 Hcur Hnw HQ. pose proof (pv_mid I) as I'. pose proof (view_lookup (fun x => (pid x, alist (children x))) _ _ _ Hc) as Hc'. destruct (fa_pid _ _ _ _ _ _ (pv_family I') c _ _ Hc') as (r0 & Hr0 & Erc & _); [set_solver|]. cbn in Hr0. rewrite Hr in Hr0. injection Hr0 as <-.
  unfold sys__exit. wp_step. apply (wp_curproc c); [done|]. wp_step. apply wp_kassert.
  { assert (c <> 0); [|by replace (c =? 0) with false by lia]. intros ->. pose proof (fa_null _ _ _ _ _ _ (pv_family I')) as Hn. unfold fam in Hn. by rewrite Hc' in Hn. }
  wp_step. apply wp_pt. wp_step. eapply wp_tlock_acquire; [exact I'|done|]. intros w I1 V1. pose proof (pinv_may_exit _ _ _ _ _ _ w I Ht Hc Hr (or_introl Hst) H1 Hcur Hnw V1) as Mx.
  wp_step. eapply (wp_update_children B m c cx); [exact I1|apply I|exact Mx|]. intros s1 Ex. pose proof (mx_self _ _ _ _ Mx) as Hself. pose proof Ex as [[B1 J1] Tc1 Wa1 EP ER EL EC EF EH]. injection ER as E1 E2 E3 E4 E5 E6 E7. set (K := alist (children cx)) in *. set (m1 := disown K m) in *.
  assert (procs s1 !! c = Some cx) as Hc1 by (by apply (ex_stays _ _ _ _ _ _ _ Ex)). assert (m1 !! pid cx = Some r) as Hr1 by (apply disown_lookup; [done|congruence]).
  wp_step. apply (wp_proc_at c cx); [done|]. wp_step. eapply (wp_cell_status m1 (pid cx) r); [apply J1|done|]. rewrite Hst. change (RUNNING =? RUNNING) with true. cbv iota.
  wp_step. wp_step. eapply (wp_set_status m1 (pid cx) r); [apply J1|done|]. intros t1 Tr1 [= L1 C1 A1 N1]. eapply wp_set_waitcode; [st_simpl; exact Tr1|apply lookup_insert_eq|]. intros t2 Tr2 [= L2 C2 A2 N2]. cbn [r_proc r_status] in Tr2. rewrite insert_insert_eq, Erc in Tr2. st_simpl.
  change (set_ptab t2 (set_ptab t1 s1)) with (set_ptab t2 s1). assert (pmid B1 (<[pid cx := Row c ZOMBIE code]> m1) ∅ ∅ {[c]} true ∅ (set_ptab t2 s1)) as J2 by (eapply pmid_zombie; try done; congruence).
  wp_step. unfold cv_broadcast. wp_step. apply wp_pt. wp_step. apply wp_world. wp_apply lock_do_i_hold_law; [apply (pv_own J2)|apply (pv_tlock J2)|]. intros b w1 [-> ->]. wp_step. apply wp_kassert; [done|]. wp_step. st_simpl.
  set (s2 := set_cv_woken (cv_woken s1 ++ cv_queue s1) (set_cv_queue [] (set_ptab t2 s1))). assert (pmid B1 (<[pid cx := Row c ZOMBIE code]> m1) ∅ ∅ {[c]} true ∅ s2) as J3 by (by destruct J2; constructor).
  replace (set_cv_woken _ _) with s2 by (by destruct s1). wp_step. eapply wp_tlock_release; [exact J3|subst s2; st_simpl; cbn in EL; congruence|]. intros w2 J4 V2. pose proof (only_thread _ _ _ _ _ _ I Hc H1 Ht) as Hthr.
  assert (curt s2 = curt s) as Ecu by done. assert (tproc s2 = tproc s) as Etp by done.
  eapply (wp_thread_exit B1 _ (set_pw w2 s2) c cx); [exact J4|done|st_simpl; by rewrite Ecu, Etp|st_simpl; by rewrite Ecu|apply lookup_insert_eq|done|done|]. intros B' a w3 El s3 J5. subst s3. st_simpl. change (curt (set_pw w2 s2)) with (curt s2) in J5. change (tproc (set_pw w2 s2)) with (tproc s2) in J5. rewrite Ecu, Etp in *. apply HQ.
  constructor; st_simpl; try done.
  - exists B'. constructor; [exact J5| |].
    + st_simpl. apply (tcount_used (ptab s1) t2 m1 (pid cx) r); try done; [by rewrite Hst| |]; congruence.
    + st_simpl. unfold fam at 1. rewrite (view_same _ _ c cx) by done. apply waits_gone; [|subst s2; st_simpl; rewrite E6, E7; intros Hin; apply Hnw; unfold waiting; cbn in Hin; rewrite fmap_app in *; set_solver].
      subst s2. st_simpl. rewrite <- E3. apply waits_exit; [exact Wa1| |].
      * intros p l (y & Hy & [= Ey _])%view_inv. destruct (fa_pid _ _ _ _ _ _ (pv_family J1) p (pid y) (alist (children y))) as (ry & Hry & Ery & _); [by apply (view_lookup (fun x => (pid x, alist (children x))))|set_solver|]. congruence.
      * intros t. rewrite E3, E6, E7. apply (mx_quiet _ _ _ _ Mx).
  - subst s2. st_simpl. split; [done|]. by rewrite E6, E7.
  - subst s2. st_simpl. rewrite E1, E2, E4, <- Ecu. cbn in E5 |- *. congruence.
  - exists a. by rewrite lookup_insert_eq.
  - intros q Hq. rewrite lookup_insert_ne by done. apply (EP q).
  - by apply same_handlers_desc.
Qed.

(** ** The exit of an orphan *)

(** Whatever the rest of the kernel does, [m] leaves the current thread and its
    process alone and makes no process. *)
Definition steady {A} (m : M (pst W) A) : Prop := forall s,
  wlp m (fun _ s' => tproc s' = tproc s /\ curt s' = curt s /\ forall q, procs s !! q = None -> procs s' !! q = None) s.

Lemma steady_ret {A} (a : A) : steady (ret a).
Proof. by intros s. Qed.
Lemma steady_bind {A B} (m : M (pst W) A) (f : A -> M (pst W) B) : steady m -> (forall a, steady (f a)) -> steady (bind m f).
Proof.
  intros Hm Hf s. apply wlp_bind. eapply wlp_mono; [apply Hm|]. cbv beta. intros a s1 (E1 & E2 & E3). eapply wlp_mono; [apply Hf|]. cbv beta. intros b s2 (-> & -> & E4). split_and!; [done..|]. intros q Hq. by apply E4, E3.
Qed.
Lemma steady_get : steady get.
Proof. by intros s. Qed.
Lemma steady_kassert b : steady (kassert b).
Proof. intros s. by destruct b. Qed.
Lemma steady_panic {A} : steady (@panic (pst W) A).
Proof. by intros s. Qed.
Lemma steady_fault {A} : steady (@fault (pst W) A).
Proof. by intros s. Qed.
Lemma steady_deref {A} (x : option A) : steady (deref x).
Proof. intros s. by destruct x. Qed.
Lemma steady_world {A} (m : M W A) : steady (world m).
Proof. intros s. unfold wlp, world, zoom. by destruct (m (pw s)). Qed.
Lemma steady_modify f : (forall s, tproc (f s) = tproc s /\ curt (f s) = curt s /\ procs (f s) = procs s) -> steady (modify f).
Proof. intros Hf s. unfold wlp, modify. cbn. destruct (Hf s) as (? & ? & E). split_and!; [done..|]. intros q. by rewrite E. Qed.
Lemma steady_on_array {A} prj upd p (m : M (W * array) A) : steady (on_array prj upd p m).
Proof.
  intros s. unfold wlp, on_array. destruct (procs s !! p) as [x|] eqn:E; [|done]. destruct (m (pw s, prj x)) as [a [w arr]| | |]; [|done..]. st_simpl. split_and!; [done..|].
  intros q Hq. rewrite lookup_insert_ne; [done|]. congruence.
Qed.
Lemma steady_proc_put p x : steady (proc_put p x).
Proof.
  intros s. unfold proc_put, proc_at. apply wlp_bind. unfold wlp, bind at 1, get. destruct (procs s !! p) as [y|] eqn:E; [|done]. cbn. st_simpl. split_and!; [done..|]. intros q Hq. rewrite lookup_insert_ne; [done|]. congruence.
Qed.
Lemma steady_for {R} n i (body : Z -> M (pst W) (option R)) : (forall j, steady (body j)) -> steady (for_ n i body).
Proof. intros Hb. revert i. induction n as [|n IH]; intros i; cbn [for_]; [apply steady_ret|]. apply steady_bind; [done|]. intros [r|]; [apply steady_ret|apply IH]. Qed.

Ltac steady_step :=
  first [ apply steady_proc_put | apply steady_on_array | apply steady_world | apply steady_bind; [|intros ?] | apply steady_ret | apply steady_get | apply steady_kassert | apply steady_panic
        | apply steady_fault | apply steady_deref | apply steady_for; intros ? | apply steady_modify; by intros []
        | match goal with |- steady (if ?b then _ else _) => destruct b end ].

Lemma steady_drop_entry p i : steady (drop_entry p i).
Proof. unfold drop_entry, ft_get, ft_set, proc_at, fh_at, fh_put, free_fh, fh_at. repeat steady_step. Qed.

Lemma steady_clear_pid i : steady (clear_pid i).
Proof. unfold clear_pid, set_proc_cell, set_status, set_waitcode, store, pt, pt_put. repeat steady_step. Qed.

Lemma steady_cv_broadcast : steady cv_broadcast.
Proof. unfold cv_broadcast, pt. repeat steady_step. Qed.

(** After [proc_destroy] the process is gone. *)
Lemma proc_destroy_gone p s : wlp (proc_destroy p) (fun _ s' => tproc s' = tproc s /\ curt s' = curt s /\ procs s' !! p = None) s.
Proof.
  unfold proc_destroy. assert (forall m k : M (pst W) unit, steady m -> (forall s', wlp k (fun _ s'' => tproc s'' = tproc s' /\ curt s'' = curt s' /\ procs s'' !! p = None) s') ->
    forall s', wlp (m ;;; k) (fun _ s'' => tproc s'' = tproc s' /\ curt s'' = curt s' /\ procs s'' !! p = None) s') as Hseq.
  { intros m k Hm Hk s'. apply wlp_bind. eapply wlp_mono; [apply Hm|]. cbv beta. intros [] s1 (<- & <- & _). apply Hk. }
  apply wlp_bind. change (wlp get ?Q s) with (Q s s). cbv beta. apply Hseq; [apply steady_kassert|]. intros s1. apply Hseq; [apply steady_kassert|]. intros s2. unfold proc_at at 1. apply wlp_bind, wlp_bind. change (wlp get ?Q s2) with (Q s2 s2). cbv beta.
  destruct (procs s2 !! p) as [x|]; [|done]. apply wlp_ret. apply Hseq; [repeat steady_step|]. intros s3. apply Hseq; [unfold clear_children, on_children; repeat steady_step|]. intros s4. apply Hseq; [repeat steady_step|]. intros s5.
  apply Hseq; [unfold clear_threads, on_threads; repeat steady_step|]. intros s6. apply Hseq; [apply steady_kassert|]. intros s7. apply wlp_bind. eapply wlp_mono; [apply steady_for; intros i; apply steady_bind; [apply steady_drop_entry|intros ?; apply steady_ret]|]. cbv beta. intros _ s8 (<- & <- & _).
  apply Hseq; [apply steady_on_array|]. intros s9. apply Hseq; [apply steady_world|]. intros s10. apply wlp_bind. change (wlp (modify ?f) ?Q s10) with (Q tt (f s10)). cbv beta. unfold wlp, world, zoom. destruct (kfree p _) as [[] w| | |]; [|done..]. st_simpl. split_and!; [done..|]. apply lookup_delete_eq.
Qed.

(** The thread of a process that is gone cannot leave it. *)
Lemma thread_exit_gone c s : tproc s !! curt s = Some c -> procs s !! c = None -> wlp thread_exit (fun _ _ => False) s.
Proof.
  intros Ht Hc. unfold thread_exit, proc_remthread, wlp, bind, get, kassert, p_lock_acquire, proc_at, deref. rewrite Ht. cbn [default from_option id]. destruct (negb (c =? 0)); [|done]. cbn. unfold bind, get, deref. by rewrite Hc.
Qed.

Lemma sys__exit_orphan B m c cx r code s : pinv B m s -> tproc s !! curt s = Some c -> procs s !! c = Some cx -> m !! pid cx = Some r -> r_status r = ORPHAN -> pid cx <> 1 ->
  v_curas (wv (pw s)) = p_addrspace cx -> curt s ∉ waiting s -> wlp (sys__exit code) (fun _ _ => False) s.
Proof.
  intros I Ht Hc Hr Hst H1 Hcur Hnw. pose proof (pv_mid I) as I'. pose proof (view_lookup (fun x => (pid x, alist (children x))) _ _ _ Hc) as Hc'. destruct (fa_pid _ _ _ _ _ _ (pv_family I') c _ _ Hc') as (r0 & Hr0 & Erc & _); [set_solver|]. cbn in Hr0. rewrite Hr in Hr0. injection Hr0 as <-.
  unfold sys__exit. apply wlp_bind, wp_wlp, (wp_curproc c); [done|]. apply wlp_bind, wp_wlp, wp_kassert.
  { assert (c <> 0); [|by replace (c =? 0) with false by lia]. intros ->. pose proof (fa_null _ _ _ _ _ _ (pv_family I')) as Hn. unfold fam in Hn. by rewrite Hc' in Hn. }
  apply wlp_bind, wp_wlp, wp_pt. apply wlp_bind, wp_wlp. eapply wp_tlock_acquire; [exact I'|done|]. intros w I1 V1. pose proof (pinv_may_exit _ _ _ _ _ _ w I Ht Hc Hr (or_intror Hst) H1 Hcur Hnw V1) as Mx.
  apply wlp_bind, wp_wlp. eapply (wp_update_children B m c cx); [exact I1|apply I|exact Mx|]. intros s1 Ex. pose proof (mx_self _ _ _ _ Mx) as Hself. pose proof Ex as [[B1 J1] _ _ _ ER _ _ _ _]. injection ER as _ _ E3 _ E5 _ _.
  assert (procs s1 !! c = Some cx) as Hc1 by (by apply (ex_stays _ _ _ _ _ _ _ Ex)). assert (disown (alist (children cx)) m !! pid cx = Some r) as Hr1 by (apply disown_lookup; [done|congruence]).
  apply wlp_bind, wp_wlp, (wp_proc_at c cx); [done|]. apply wlp_bind, wp_wlp. eapply (wp_cell_status _ (pid cx) r); [apply J1|done|]. rewrite Hst. change (ORPHAN =? RUNNING) with false. change (ORPHAN =? ORPHAN) with true. cbv iota.
  apply wlp_bind, wlp_bind. eapply wlp_mono; [apply proc_destroy_gone|]. cbv beta. intros [] s2 (T2 & C2 & P2). eapply wlp_mono; [apply steady_clear_pid|]. cbv beta. intros [] s3 (T3 & C3 & P3).
  apply wlp_bind. eapply wlp_mono; [apply steady_cv_broadcast|]. cbv beta. intros [] s4 (T4 & C4 & P4). apply wlp_bind. eapply wlp_mono; [apply steady_world|]. cbv beta. intros [] s5 (T5 & C5 & P5).
  apply (thread_exit_gone c); [|by apply P5, P4, P3]. cbn in E3, E5. by rewrite T5, C5, T4, C4, T3, C3, T2, C2, E3, E5.
Qed.
End exit.
