(* ===== verification/ProcSystem.v ===== *)
(** * The process system

    Threads of all processes take turns: a thread becomes current, its address
    space is switched to, and it makes a system call, starts running or wakes
    up inside [sys_waitpid].  Every step within the limits returns and keeps
    the invariant, unless it is a [fork] that fails half way; the exit of an
    orphan and the wait for a pid beyond the table do not return. *)

From S2P Require Import Prelude KHeap Array KWorld PState Files FilesSpec FilesCalls Proc ProcCalls ProcTable ProcInv ProcOps ProcDestroy ProcFork ProcWait ProcExit.

Section system.
Context {W : Type} `{World W}.
Implicit Types s : pst W.
Notation PM := (M (pst W)).

(** ** Becoming current *)

(** The end of [thread_switch] (kern/thread/thread.c) for the thread that is
    switched to. *)
Definition dispatch (t : Z) : PM unit := modify (set_curt t) ;;; as_activate.

Lemma pmid_curas B m X Y E lk PL s w a : pmid B m X Y E lk PL s -> wok w -> heap_live w = heap_live (pw s) -> wv w = v_set_curas a (wv (pw s)) -> pmid B m X Y E lk PL (set_pw w s).
Proof.
  intros I Hw EL EV. destruct I as [I1 I2 I3 I4 I5 I6 I7 I8 I9 I10]. constructor; st_simpl; rewrite ?EV, ?EL; try done.
  - by apply (hown_world B (pw s)).
  - eapply fpure_weaken; [exact I3| |done|done]. intros h z Hh. by eapply (mem_hown _ _ _ _ _ _ (pw s)).
Qed.

(** The address space of the current process is in use, unless it has none. *)
Definition active (c : Z) (cx : proc) s : Prop := tproc s !! curt s = Some c /\ procs s !! c = Some cx /\ (p_addrspace cx <> 0 -> v_curas (wv (pw s)) = p_addrspace cx).

Lemma wp_as_activate B m c cx (Q : unit -> pst W -> Prop) s : pmid B m ∅ ∅ ∅ false ∅ s -> tproc s !! curt s = Some c -> procs s !! c = Some cx ->
  (forall w, pmid B m ∅ ∅ ∅ false ∅ (set_pw w s) -> active c cx (set_pw w s) -> v_spaces (wv w) = v_spaces (wv (pw s)) -> Q tt (set_pw w s)) -> wp as_activate Q s.
Proof.
  intros I Ht Hc HQ. pose proof (fi_plock _ (pmid_finv _ _ _ _ _ _ _ I) c cx Hc) as Hl. assert (c <> 0) as Hc0.
  { intros ->. pose proof (fa_null _ _ _ _ _ _ (pv_family I)) as Hn. unfold fam in Hn. by rewrite (view_lookup _ _ _ _ Hc) in Hn. }
  unfold as_activate, proc_getas. wp_step. wp_step. apply (wp_curproc c); [done|]. replace (c =? 0) with false by lia. wp_step. apply (wp_p_lock_acquire c cx); [done|done|].
  wp_step. apply (wp_proc_at c (set_p_lock true cx)); [apply lookup_insert_eq|]. wp_step. apply (wp_p_lock_release c (set_p_lock true cx)); [apply lookup_insert_eq|done|]. wp_step. p_simpl.
  rewrite insert_insert_eq, unlock_lock, insert_id by done. replace (set_procs _ _) with s by (by destruct s). wp_step; boolify.
  - wp_step. specialize (HQ (pw s)). replace (set_pw (pw s) s) with s in HQ by (by destruct s). apply HQ; [done|by split_and!|done].
  - apply wp_world. wp_apply as_switch_law; [apply (pv_own I)|by apply (sp_some _ _ (pv_spaces I) c); [apply (view_lookup p_addrspace)|]|]. intros [] w (Hw & EL & EV).
    apply HQ; [by eapply pmid_curas|split_and!; [done|done|]; st_simpl; by rewrite EV|by rewrite EV].
Qed.

Lemma pinv_curt B m s t : pinv B m s -> pinv B m (set_curt t s).
Proof. intros [[] ? ?]. by constructor. Qed.

Lemma wp_dispatch B m t c cx (Q : unit -> pst W -> Prop) s : pinv B m s -> tproc s !! t = Some c -> procs s !! c = Some cx ->
  (forall w, let s' := set_pw w (set_curt t s) in pinv B m s' -> active c cx s' -> v_spaces (wv w) = v_spaces (wv (pw s)) -> Q tt s') -> wp (dispatch t) Q s.
Proof.
  intros I Ht Hc HQ. unfold dispatch. wp_step. wp_step. eapply wp_as_activate; [apply pinv_curt; exact I|exact Ht|exact Hc|]. intros w I' Ac Es. apply HQ; [|done|done]. by apply pinv_world; [apply pinv_curt|].
Qed.

(** ** A new thread *)

Lemma wp_enter_usermode B m c cx d (Q : trapframe -> pst W -> Prop) s : pinv B m s -> tproc s !! curt s = Some c -> procs s !! c = Some cx -> tdata s !! curt s = Some d ->
  (forall B' f w, tfs s !! d = Some f -> let s' := set_pw w (set_tfs (delete d (tfs s)) (set_tdata (delete (curt s) (tdata s)) s)) in pinv B' m s' -> active c cx s' -> Q f s') ->
  wp (modify (fun s => set_tdata (delete (curt s) (tdata s)) s) ;;; enter_usermode d) Q s.
Proof.
  intros I Ht Hc Hd HQ. pose proof (pv_mid I) as I'. destruct (st_some _ _ (pv_starts I') _ _ Hd) as [f Hf]. wp_step. wp_step. unfold enter_usermode. wp_step. wp_step. wp_step. eapply wp_deref; [exact Hf|]. wp_step. wp_step.
  wp_step. apply wp_world. st_simpl. pose proof (me_tf (pv_mem I') d f Hf) as Bd. apply (wp_release B KTf); [apply I'|done|]. intros w Hw EV.
  assert (pmid B m ∅ ∅ ∅ false ∅ (set_tdata (delete (curt s) (tdata s)) s)) as I1.
  { destruct I' as [I1 I2 I3 I4 I5 I6 I7 I8 I9 [S1 S2]]. constructor; try done. st_simpl. constructor.
    - intros t b [_ Hb]%lookup_delete_Some. by eapply S1.
    - intros t u b [_ Hb]%lookup_delete_Some [_ Hu]%lookup_delete_Some. by eapply S2. }
  assert (pmid (delete d B) m ∅ ∅ ∅ false ∅ (set_pw w (set_tfs (delete d (tfs s)) (set_tdata (delete (curt s) (tdata s)) s)))) as I2.
  { apply (pmid_untf B m ∅ ∅ ∅ false ∅ (set_tdata (delete (curt s) (tdata s)) s) w d); try done. st_simpl. intros t b [Hne Hb]%lookup_delete_Some ->. by apply Hne, (st_inj _ _ (pv_starts I') _ _ d). }
  wp_step. eapply wp_as_activate; [exact I2|done|done|]. intros w' I3 Ac _. wp_step. apply (HQ (delete d B) f w' Hf); [|exact Ac]. constructor; [exact I3|apply I|apply I].
Qed.

(** ** Steps *)

Inductive pcall :=
| PFork (name : list Z) (tf : trapframe)
| PGetpid
| PWaitpid (pid retval options : Z)
| PExit (code : Z)
| PFile (c : fcall)
| PStart
| PWake.

Inductive presult :=
| RValue (r : err Z)         (* back to user mode *)
| RWaited (r : Z) (status : option Z) (* out of [sys_waitpid] *)
| RAsleep                    (* inside [cv_wait] *)
| RUser (tf : trapframe)     (* to user mode for the first time *)
| RGone.                     (* does not return *)

Definition wait_value (r : wait_result) : presult := match r with Returned r status => RWaited r status | Asleep => RAsleep end.

Definition run_pcall (c : pcall) : PM presult :=
  match c with
  | PFork name tf => r <- sys_fork name tf ;; ret (RValue r)
  | PGetpid => r <- sys_getpid ;; ret (RValue r)
  | PWaitpid pid retval options => r <- sys_waitpid pid retval options ;; ret (wait_value r)
  | PExit code => sys__exit code ;;; ret RGone
  | PFile c => r <- run_fcall c ;; ret (RValue r)
  | PStart =>
      s <- get ;;
      d <- deref (tdata s !! curt s) ;;
      tf <- (modify (fun s => set_tdata (delete (curt s) (tdata s)) s) ;;; enter_usermode d) ;;
      ret (RUser tf)
  | PWake =>
      s <- get ;;
      w <- deref (list_find (fun w => w.1 = curt s) (cv_woken s)) ;;
      r <- waitpid_wakeup w.2 ;;
      ret (wait_value r)
  end.

Definition pstep (t : Z) (c : pcall) : PM presult := dispatch t ;;; run_pcall c.

(** ** The limits *)

(** Its parent exited before it. *)
Definition orphan (p : Z) s : Prop := exists x, procs s !! p = Some x /\ pt_status (ptab s) !! Z.to_nat (pid x) = Some (Some ORPHAN).

Definition user (p : Z) s : Prop := exists x, procs s !! p = Some x /\ p_addrspace x <> 0.

(** A process that runs a program, not the kernel's. *)
Definition program (p : Z) s : Prop := exists x, procs s !! p = Some x /\ p_addrspace x <> 0 /\ pid x <> 1.

(** What thread [t] of process [p] may do: a thread that sleeps or has not
    started does not call; the kernel's process neither exits nor forks; the
    file system calls have their own limits ([permitted]). *)
Definition may (t p : Z) (c : pcall) s : Prop :=
  match c with
  | PStart => is_Some (tdata s !! t)
  | PWake => t ∈ (fst <$> cv_woken s)
  | _ => tdata s !! t = None /\ (t ∉ waiting s) /\
      match c with
      | PFork _ _ => user p s
      | PExit _ => program p s
      | PFile c => wp (dispatch t) (fun _ => permitted c) s
      | _ => True
      end
  end.

(** The calls that do not come back: an orphan's exit destroys the process its
    thread is still in, and the table has no cell for a pid from 32 on. *)
Definition lost (p : Z) (c : pcall) s : Prop :=
  match c with
  | PExit _ => orphan p s
  | PWaitpid pid _ _ => 32 <= pid <= PID_MAX
  | _ => False
  end.

(** A failed fork. *)
Definition fork_failed (c : pcall) (r : presult) : Prop := exists name tf e, c = PFork name tf /\ r = RValue (inl e).

Lemma thread_lives B m t c cx s : pinv B m s -> tproc s !! t = Some c -> procs s !! c = Some cx -> lives m (pid cx).
Proof.
  intros I Ht Hc. pose proof (pv_threads (pv_mid I)) as T. destruct (th_in _ _ _ _ _ T t c Ht) as (i & l & Hl & Hin). pose proof (view_lookup (fun x => (pid x, alist (children x))) _ _ _ Hc) as Hc'.
  destruct (fa_pid _ _ _ _ _ _ (pv_family (pv_mid I)) c _ _ Hc') as (r & Hr & Erc & Hu); [set_solver|]. exists r. split; [done|]. destruct Hu as [|[Hz|]]; [by left| |by right]. exfalso.
  apply view_inv in Hl as (x & Hx & [= -> ->]). rewrite Hc in Hx. injection Hx as <-.
  rewrite (th_zombie _ _ _ _ _ T c (pid cx) (alist (p_threads cx)) r) in Hin; [by apply elem_of_nil in Hin| |set_solver|done|done]. by apply (view_lookup (fun x => (pid x, alist (p_threads x)))).
Qed.

Lemma thread_proc B m t c s : pinv B m s -> tproc s !! t = Some c -> exists cx, procs s !! c = Some cx.
Proof. intros I Ht. destruct (th_in _ _ _ _ _ (pv_threads (pv_mid I)) t c Ht) as (i & l & Hl & _). apply view_inv in Hl as (x & Hx & _). by exists x. Qed.

(** A thread that wakes up is the one waiter of that thread. *)
Lemma find_woken s t : t ∈ (fst <$> cv_woken s) -> exists i w, list_find (fun w => w.1 = t) (cv_woken s) = Some (i, w) /\ w ∈ cv_woken s /\ t = w.1.
Proof.
  intros (w & -> & Hw)%list_elem_of_fmap. destruct (list_find_elem_of (fun u => u.1 = w.1) (cv_woken s) w) as [[i u] Hu]; [done|done|]. exists i, u. split; [done|]. apply list_find_Some in Hu as (Hi & E & _). split; [by eapply list_elem_of_lookup_2|done].
Qed.

(** ** Every step returns *)

Definition sound s : Prop := exists B m, pinv B m s.

Definition after (p : Z) (c : pcall) (r : presult) s : Prop := sound s \/ (fork_failed c r /\ half_forked p s).

(** The limits once the thread is current. *)
Definition may_now (p : Z) (c : pcall) s : Prop := match c with PFile fc => permitted fc s | _ => may (curt s) p c s end.

(** The calls once the thread is current. *)
Lemma call_safe B m p px c s : pinv B m s -> active p px s -> may_now p c s -> ~ lost p c s -> wp (run_pcall c) (after p c) s.
Proof.
  intros I (Ht & Hp & Hcur) Hm Hlost. pose proof (thread_lives _ _ _ _ _ _ I Ht Hp) as Hl. destruct c as [name tf| |i rv o|code|fc| |]; cbn [run_pcall may may_now] in *.
  - destruct Hm as (_ & _ & (x & Hx & Ha)). assert (x = px) as -> by congruence. destruct (sp_some _ _ (pv_spaces (pv_mid I)) p (p_addrspace px)) as [sp Hsp]; [by apply (view_lookup p_addrspace)|done|].
    wp_step. eapply (wp_sys_fork B m p px sp); try done; [by apply Hcur|..].
    + intros e B' s' _ I' _. wp_step. left. by exists B', m.
    + intros e s' _ Hh. wp_step. right. split; [by exists name, tf, e|done].
    + intros B' m' s' I'. wp_step. left. by exists B', m'.
    + intros B' s' q y _ I' _. wp_step. left. by eexists B', _.
  - wp_step. eapply wp_sys_getpid; try done. intros w I' _. wp_step. left. by exists B, m.
  - destruct Hm as (_ & Hw & _). cbn [lost] in Hlost. wp_step. eapply wp_sys_waitpid; try done; [lia|..].
    + intros e _. wp_step. left. by exists B, m.
    + intros r res s' _ _ _ [I' _]. wp_step. left. by exists B, m.
  - destruct Hm as (_ & Hw & (x & Hx & Ha & H1)). assert (x = px) as -> by congruence. destruct Hl as (r & Hr & Hst). destruct (tr_row _ _ (pv_tab (pv_mid I)) _ _ Hr) as (_ & _ & Est & _).
    assert (r_status r = RUNNING) as Hrun by (destruct Hst as [|Ho]; [done|]; destruct Hlost; exists px; split; [done|]; by rewrite Est, Ho).
    wp_step. eapply (wp_sys__exit B m p px r code); try done; [by apply Hcur|]. intros s' [[B' I'] _ _ _ _ _ _ _]. wp_step. left. by eexists B', _.
  - wp_step. assert (finv s) as If by (eapply pmid_finv, I). eapply wp_mono; [apply (fcall_meets p fc s If); [by split; [|eexists]|done]|].
    cbv beta. intros r s' (I' & Fr & _). wp_step. left. eexists _, m. by eapply pinv_fframe.
  - destruct Hm as [d Hd]. wp_step. wp_step. wp_step. eapply wp_deref; [exact Hd|]. wp_step. eapply (wp_enter_usermode B m p px d); try done. intros B' f w Hf s' I' _. wp_step. left. by exists B', m.
  - destruct (find_woken _ _ Hm) as (k & w & Hf & Hw & E). wp_step. wp_step. wp_step. eapply wp_deref; [exact Hf|]. wp_step. cbn [snd]. eapply (wp_waitpid_wakeup B m w); try done. intros r res s' _ [I' _]. wp_step. left. by exists B, m.
Qed.

Lemma call_lost B m p px c s : pinv B m s -> active p px s -> may_now p c s -> lost p c s -> wlp (run_pcall c) (fun _ _ => False) s.
Proof.
  intros I (Ht & Hp & Hcur) Hm Hlost. destruct c as [name tf| |i rv o|code|fc| |]; try done; cbn [run_pcall may may_now lost] in *; apply wlp_bind.
  - unfold wlp. by rewrite (sys_waitpid_faults B m).
  - destruct Hm as (_ & Hw & (x & Hx & Ha & H1)), Hlost as (x' & Hx' & Hst). assert (x = px) as -> by congruence. assert (x' = px) as -> by congruence. destruct (thread_lives _ _ _ _ _ _ I Ht Hp) as (r & Hr & _). destruct (tr_row _ _ (pv_tab (pv_mid I)) _ _ Hr) as (_ & _ & Est & _).
    eapply wlp_mono; [eapply (sys__exit_orphan B m p px r); try done; [congruence|by apply Hcur]|done].
Qed.

Lemma may_dispatch t p c s : may t p c s -> tproc s !! t = Some p -> sound s -> wp (dispatch t) (fun _ s' => may_now p c s') s.
Proof.
  intros Hm Ht (B & m & I). destruct (thread_proc _ _ _ _ _ I Ht) as [px Hp]. destruct c as [| | | |fc| |].
  5:{ apply Hm. }
  all: by eapply (wp_dispatch B m t p px).
Qed.

Lemma pstep_safe t p c s : sound s -> tproc s !! t = Some p -> may t p c s -> ~ lost p c s -> wp (pstep t c) (after p c) s.
Proof.
  intros (B & m & I) Ht Hm Hlost. destruct (thread_proc _ _ _ _ _ I Ht) as [px Hp]. unfold pstep. wp_step.
  eapply wp_mono; [apply wp_and; [apply (may_dispatch t p c s Hm Ht); by exists B, m|apply (wp_dispatch B m t p px (fun _ s' => pinv B m s' /\ active p px s' /\ ~ lost p c s')); [done|done|done|]; by auto]|].
  cbv beta. intros [] s' (Hnow & I' & Ac & Hl'). by apply (call_safe B m p px).
Qed.

Lemma pstep_lost t p c s : sound s -> tproc s !! t = Some p -> may t p c s -> lost p c s -> forall r s', pstep t c s <> Done r s'.
Proof.
  intros (B & m & I) Ht Hm Hlost. destruct (thread_proc _ _ _ _ _ I Ht) as [px Hp]. apply wlp_never. unfold pstep. apply wlp_bind, wp_wlp.
  eapply wp_mono; [apply wp_and; [apply (may_dispatch t p c s Hm Ht); by exists B, m|apply (wp_dispatch B m t p px (fun _ s' => pinv B m s' /\ active p px s' /\ lost p c s')); [done|done|done|]; by auto]|].
  cbv beta. intros [] s' (Hnow & I' & Ac & Hl'). by apply (call_lost B m p px).
Qed.

(** ** Runs *)

(** The states steps within the limits lead to.  A run goes on after a fork
    that failed if the fork left the system sound. *)
Inductive preach (s0 : pst W) : pst W -> Prop :=
| preach_start : preach s0 s0
| preach_step s t p c r s' : preach s0 s -> tproc s !! t = Some p -> may t p c s -> pstep t c s = Done r s' -> ~ fork_failed c r \/ sound s' -> preach s0 s'.

Lemma preach_sound s0 s : sound s0 -> preach s0 s -> sound s.
Proof.
  intros H0' R. induction R as [|s t p c r s' R IH Ht Hm E Hf]; [done|]. assert (~ lost p c s) as Hl by (intros Hl; by eapply (pstep_lost t p c s)). pose proof (pstep_safe t p c s IH Ht Hm Hl) as Hs. unfold wp in Hs. rewrite E in Hs. destruct Hs as [|[]], Hf; done.
Qed.
End system.
