(* ===== verification/Trap.v ===== *)
(** * Traps and system calls (kern/arch/mips/locore/trap.c,
    kern/arch/mips/syscall/syscall.c)

    What happens in the kernel between a trap and the return from it, for the
    thread that trapped: [mips_trap] with the interrupt level of the thread,
    [kill_curthread] and [syscall], which takes the arguments of a system call
    from the saved registers, calls the handlers of [Files] and [ProcCalls]
    and puts the result into the registers.

    The handlers run on the state of the processes; they leave the interrupt
    level of the thread as they found it.  [sys_execv], [sys_sbrk],
    [sys_reboot], [sys___time], [vm_fault] and the bus's interrupt handler
    are an interface here. *)

From S2P Require Import Prelude KHeap Array KWorld PState Files Proc ProcCalls.

(** ** Constants *)

Definition SYS_fork : Z := 0.
Definition SYS_execv : Z := 2.
Definition SYS__exit : Z := 3.
Definition SYS_waitpid : Z := 4.
Definition SYS_getpid : Z := 5.
Definition SYS_sbrk : Z := 7.
Definition SYS_open : Z := 45.
Definition SYS_dup2 : Z := 48.
Definition SYS_close : Z := 49.
Definition SYS_read : Z := 50.
Definition SYS_write : Z := 55.
Definition SYS_lseek : Z := 59.
Definition SYS_chdir : Z := 74.
Definition SYS___getcwd : Z := 76.
Definition SYS___time : Z := 113.
Definition SYS_reboot : Z := 119.

Definition EX_IRQ : Z := 0.
Definition EX_MOD : Z := 1.
Definition EX_TLBL : Z := 2.
Definition EX_TLBS : Z := 3.
Definition EX_ADEL : Z := 4.
Definition EX_ADES : Z := 5.
Definition EX_IBE : Z := 6.
Definition EX_DBE : Z := 7.
Definition EX_SYS : Z := 8.
Definition EX_BP : Z := 9.
Definition EX_RI : Z := 10.
Definition EX_CPU : Z := 11.
Definition EX_OVF : Z := 12.
Definition NTRAPCODES : Z := 13.

Definition SIGILL : Z := 4.
Definition SIGTRAP : Z := 5.
Definition SIGABRT : Z := 6.
Definition SIGFPE : Z := 8.
Definition SIGBUS : Z := 10.
Definition SIGSEGV : Z := 11.

Definition IPL_NONE : Z := 0.
Definition IPL_HIGH : Z := 1.
Definition STACK_SIZE : Z := 4096.

(** ** Exit codes (kern/include/kern/wait.h) *)

Definition _MKWVAL (x : Z) : Z := u32 (Z.shiftl x 2).
Definition _MKWAIT_EXIT (x : Z) : Z := Z.lor (_MKWVAL x) 0.
Definition _MKWAIT_SIG (x : Z) : Z := Z.lor (_MKWVAL x) 1.
Definition _WWHAT (x : Z) : Z := Z.land x 3.
Definition _WVAL (x : Z) : Z := Z.shiftr x 2.
Definition WIFEXITED (x : Z) : bool := _WWHAT x =? 0.
Definition WIFSIGNALED (x : Z) : bool := (_WWHAT x =? 1) || (_WWHAT x =? 2).

(** ** The saved registers *)

(** The registers that [trapframe] does not name, in the order of the C
    structure, start with the ones of the trap. *)
Definition tf_vaddr (tf : trapframe) : Z := nth 0 (tf_rest tf) 0.
Definition tf_status (tf : trapframe) : Z := nth 1 (tf_rest tf) 0.
Definition tf_cause (tf : trapframe) : Z := nth 2 (tf_rest tf) 0.

Definition CST_IEp : Z := 0x4.
Definition CST_KUp : Z := 0x8.
Definition CST_IRQMASK : Z := 0xff00.
Definition CCA_CODE : Z := 0x3c.
Definition CCA_CODESHIFT : Z := 2.

Definition set_epc (epc : Z) (tf : trapframe) : trapframe :=
  Trapframe (tf_v0 tf) (tf_v1 tf) (tf_a0 tf) (tf_a1 tf) (tf_a2 tf) (tf_a3 tf) (tf_sp tf) epc (tf_rest tf).

(** ** The thread that trapped *)

Record tst (W : Type) := Tst {
  t_kernel : pst W;
  t_curspl : Z;
  t_iplhigh_count : Z;
  t_in_interrupt : Z;
  t_stack : Z;
  tm_badfaultfunc : Z;
}.
Arguments Tst {W}.
Arguments t_kernel {W}.
Arguments t_curspl {W}.
Arguments t_iplhigh_count {W}.
Arguments t_in_interrupt {W}.
Arguments t_stack {W}.
Arguments tm_badfaultfunc {W}.

Definition set_t_kernel {W} (x : pst W) (s : tst W) : tst W := Tst x (t_curspl s) (t_iplhigh_count s) (t_in_interrupt s) (t_stack s) (tm_badfaultfunc s).
Definition set_spl {W} (spl count : Z) (s : tst W) : tst W := Tst (t_kernel s) spl count (t_in_interrupt s) (t_stack s) (tm_badfaultfunc s).
Definition set_in_interrupt {W} (x : Z) (s : tst W) : tst W := Tst (t_kernel s) (t_curspl s) (t_iplhigh_count s) x (t_stack s) (tm_badfaultfunc s).

(** How a trap ends: back to where it happened, into a new program, asleep
    inside [sys_waitpid], or never. *)
Inductive trap_result :=
| Back (tf : trapframe)
| NewProgram (tf : trapframe)
| Sleeping
| Gone.

Class TrapOps (W : Type) := {
  sys_reboot : Z -> M W Z;
  sys___time : Z -> Z -> M W Z;
  copyin_word : Z -> M W (err Z);
  (* an error, or the registers [enter_new_process] goes to user mode with *)
  sys_execv : Z -> Z -> M (pst W) (Z + trapframe);
  sys_sbrk : Z -> M (pst W) (err Z);
  vm_fault : Z -> Z -> M W Z;
  mainbus_interrupt : M W unit;
}.

Section trap.
Context {W : Type} {WO : WorldOps W} {TO : TrapOps W}.
Notation TM := (M (tst W)).

Definition kern {A} (m : M (pst W) A) : TM A := zoom t_kernel set_t_kernel m.

(** ** System calls *)

Definition level_zero : TM unit :=
  s <- get ;; kassert (t_curspl s =? 0) ;;; kassert (t_iplhigh_count s =? 0).

(** From "Handle the return value" on: what [err] and [retval] become. *)
Definition return_value (callno : Z) (r : err Z) (tf : trapframe) : trapframe :=
  let err := match r with inl e => e | inr _ => 0 end in
  let retval := match r with inl _ => 0 | inr v => v end in
  if negb (err =? 0) then
    Trapframe (u32 err) (tf_v1 tf) (tf_a0 tf) (tf_a1 tf) (tf_a2 tf) 1 (tf_sp tf) (tf_epc tf) (tf_rest tf)
  else if negb (callno =? SYS_lseek) then
    Trapframe (u32 retval) (tf_v1 tf) (tf_a0 tf) (tf_a1 tf) (tf_a2 tf) 0 (tf_sp tf) (tf_epc tf) (tf_rest tf)
  else
    Trapframe (u32 (retval / 2 ^ 32)) (u32 retval) (tf_a0 tf) (tf_a1 tf) (tf_a2 tf) 0 (tf_sp tf) (tf_epc tf) (tf_rest tf).

Definition syscall_end (callno : Z) (r : err Z) (tf : trapframe) : TM trap_result :=
  let tf := return_value callno r tf in
  let tf := set_epc (u32 (tf_epc tf + 4)) tf in
  level_zero ;;;
  ret (Back tf).

Definition of_errno (e : Z) : err Z := if e =? 0 then inr 0 else inl e.

(** [sys_waitpid] returns no value but an error. *)
Definition waited (callno : Z) (tf : trapframe) (r : wait_result) : TM trap_result :=
  match r with
  | Returned e _ => syscall_end callno (of_errno e) tf
  | Asleep => ret Sleeping
  end.

(** The name [sys_fork] gives to the new process. *)
Definition new_proc : list Z := [110; 101; 119; 95; 112; 114; 111; 99].

Definition syscall (tf : trapframe) : TM trap_result :=
  level_zero ;;;
  let callno := s32 (tf_v0 tf) in
  let value m := r <- kern m ;; syscall_end callno r tf in
  let errno m := e <- kern (world m) ;; syscall_end callno (of_errno e) tf in
  if callno =? SYS_reboot then errno (sys_reboot (s32 (tf_a0 tf)))
  else if callno =? SYS___time then errno (sys___time (tf_a0 tf) (tf_a1 tf))
  else if callno =? SYS_open then value (sys_open (tf_a0 tf) (s32 (tf_a1 tf)))
  else if callno =? SYS_read then value (sys_read (s32 (tf_a0 tf)) (tf_a1 tf) (tf_a2 tf))
  else if callno =? SYS_write then value (sys_write (s32 (tf_a0 tf)) (tf_a1 tf) (tf_a2 tf))
  else if callno =? SYS_close then value (sys_close (s32 (tf_a0 tf)))
  else if callno =? SYS_lseek then
    let offset := s64 (Z.lor (Z.shiftl (tf_a2 tf) 32) (tf_a3 tf)) in
    r <- kern (world (copyin_word (u32 (tf_sp tf + 16)))) ;;
    match r with
    | inl e => syscall_end callno (inl e) tf
    | inr whence => value (sys_lseek (s32 (tf_a0 tf)) offset (s32 whence))
    end
  else if callno =? SYS_dup2 then value (sys_dup2 (s32 (tf_a0 tf)) (s32 (tf_a1 tf)))
  else if callno =? SYS___getcwd then value (sys__getcwd (tf_a0 tf) (tf_a1 tf))
  else if callno =? SYS_chdir then value (sys_chdir (tf_a0 tf))
  else if callno =? SYS_fork then value (sys_fork new_proc tf)
  else if callno =? SYS_getpid then value sys_getpid
  else if callno =? SYS_execv then
    r <- kern (sys_execv (tf_a0 tf) (tf_a1 tf)) ;;
    match r with
    | inl e => syscall_end callno (of_errno e) tf
    | inr tf' => ret (NewProgram tf')
    end
  else if callno =? SYS_waitpid then
    r <- kern (sys_waitpid (s32 (tf_a0 tf)) (tf_a1 tf) (s32 (tf_a2 tf))) ;;
    waited callno tf r
  else if callno =? SYS__exit then
    kern (sys__exit (s32 (_MKWAIT_EXIT (tf_a0 tf)))) ;;;
    ret Gone
  else if callno =? SYS_sbrk then value (sys_sbrk (s32 (tf_a0 tf)))
  else syscall_end callno (inl ENOSYS) tf.

(** The rest of a [waitpid] that slept. *)
Definition syscall_wakeup (w : waiter) (tf : trapframe) : TM trap_result :=
  r <- kern (waitpid_wakeup w) ;;
  waited (s32 (tf_v0 tf)) tf r.

(** ** Traps *)

Definition signal_of (code : Z) : option Z :=
  if (code =? EX_IRQ) || (code =? EX_IBE) || (code =? EX_DBE) || (code =? EX_SYS) then None
  else if (code =? EX_MOD) || (code =? EX_TLBL) || (code =? EX_TLBS) then Some SIGSEGV
  else if (code =? EX_ADEL) || (code =? EX_ADES) then Some SIGBUS
  else if code =? EX_BP then Some SIGTRAP
  else if code =? EX_RI then Some SIGILL
  else if code =? EX_CPU then Some SIGSEGV
  else if code =? EX_OVF then Some SIGFPE
  else Some 0.

Definition kill_curthread (code : Z) : TM trap_result :=
  kassert (code <? NTRAPCODES) ;;;
  match signal_of code with
  | None => panic
  | Some sig => kern (sys__exit (s32 (_MKWAIT_SIG sig))) ;;; ret Gone
  end.

Definition splx (spl : Z) : TM Z :=
  s <- get ;;
  if t_curspl s <? spl then
    kassert ((t_curspl s =? IPL_NONE) && (spl =? IPL_HIGH)) ;;;
    modify (set_spl spl (t_iplhigh_count s + 1)) ;;;
    ret (t_curspl s)
  else if spl <? t_curspl s then
    kassert ((t_curspl s =? IPL_HIGH) && (spl =? IPL_NONE)) ;;;
    modify (set_spl spl (t_iplhigh_count s - 1)) ;;;
    ret (t_curspl s)
  else ret spl.

(** An interrupt. *)
Definition interrupt_trap : TM unit :=
  s <- get ;;
  let old_in := t_in_interrupt s in
  modify (set_in_interrupt 1) ;;;
  doadjust <- (if t_curspl s =? 0 then
                 kassert (t_iplhigh_count s =? 0) ;;;
                 modify (set_spl IPL_HIGH (t_iplhigh_count s + 1)) ;;;
                 ret true
               else ret false) ;;
  kern (world mainbus_interrupt) ;;;
  (if doadjust : bool then
     s <- get ;;
     kassert (t_curspl s =? IPL_HIGH) ;;;
     kassert (t_iplhigh_count s =? 1) ;;;
     modify (set_spl 0 (t_iplhigh_count s - 1))
   else ret tt) ;;;
  modify (set_in_interrupt old_in).

Definition SAME_STACK (p1 p2 : Z) : bool := p1 / STACK_SIZE =? p2 / STACK_SIZE.

(** The end of the trap: the kernel stack is set up for the next one. *)
Definition trap_end (addr : Z) (r : trap_result) : TM trap_result :=
  match r with
  | Back _ =>
      s <- get ;;
      if t_stack s =? 0 then ret r else
      kassert (SAME_STACK (t_stack s + STACK_SIZE - 1) addr) ;;;
      ret r
  | _ => ret r
  end.

(** Whether the fault was dealt with. *)
Definition page_fault (code : Z) (tf : trapframe) : TM bool :=
  let fault type := r <- kern (world (vm_fault type (tf_vaddr tf))) ;; ret (r =? 0) in
  if code =? EX_MOD then fault 2
  else if code =? EX_TLBL then fault 0
  else if code =? EX_TLBS then fault 1
  else if (code =? EX_IBE) || (code =? EX_DBE) then panic
  else ret false.

(** [tf] is at the address [addr] of the thread's kernel stack. *)
Definition mips_trap (addr : Z) (tf : trapframe) : TM trap_result :=
  kassert (8 + Z.of_nat (length (tf_rest tf)) =? 37) ;;;
  let code := Z.shiftr (Z.land (tf_cause tf) CCA_CODE) CCA_CODESHIFT in
  let iskern := Z.land (tf_status tf) CST_KUp =? 0 in
  kassert (code <? NTRAPCODES) ;;;
  s <- get ;;
  (if negb (t_stack s =? 0) then
     kassert (t_stack s <? addr) ;;;
     kassert (addr <? t_stack s + STACK_SIZE)
   else ret tt) ;;;
  if code =? EX_IRQ then interrupt_trap ;;; trap_end addr (Back tf) else
  spl <- splx IPL_HIGH ;;
  splx spl ;;;
  if code =? EX_SYS then
    level_zero ;;;
    r <- syscall tf ;;
    trap_end addr r
  else
  handled <- page_fault code tf ;;
  if handled then trap_end addr (Back tf)
  else if negb iskern then r <- kill_curthread code ;; trap_end addr r
  else if negb (tm_badfaultfunc s =? 0) then trap_end addr (Back (set_epc (tm_badfaultfunc s) tf))
  else panic.

(** ** Entering user mode *)

(** The registers [asm_usermode] loads; [addr] is where they are. *)
Definition mips_usermode (addr : Z) (tf : trapframe) : TM trapframe :=
  splx IPL_NONE ;;;
  s <- get ;;
  kassert (SAME_STACK (t_stack s + STACK_SIZE - 1) addr) ;;;
  ret tf.

Definition enter_new_process (addr argc argv env stack entry : Z) : TM trapframe :=
  mips_usermode addr (Trapframe 0 0 (u32 argc) argv env 0 stack entry
    ([0; Z.lor (Z.lor CST_IRQMASK CST_IEp) CST_KUp; 0] ++ replicate 26 0)).

(** ** The user's side (userland/lib/libc/arch/mips/syscalls-mips.S) *)

(** [__syscall] after the trap: [errno] if it is set, the registers [v0] and
    [v1]. *)
Definition __syscall (tf : trapframe) : option Z * Z * Z :=
  if tf_a3 tf =? 0 then (None, tf_v0 tf, tf_v1 tf) else (Some (tf_v0 tf), u32 (-1), u32 (-1)).
End trap.
