(* ===== verification/ProcCheck.v ===== *)
(** * Checking the invariant of a given state

    A boolean version of the invariant of the process layer for states in
    which nobody waits, and the proof that it implies the invariant. *)

From S2P Require Import Prelude KHeap Array KWorld PState Files FilesSpec Proc ProcTable ProcInv RefWorld ProcCalls ProcWait ProcSystem.

(** ** Maps *)

Definition mforall `{Countable K} {A} (f : K -> A -> bool) (M : gmap K A) : bool := forallb (fun e => f e.1 e.2) (map_to_list M).

Lemma mforall_spec `{Countable K} {A} (f : K -> A -> bool) (M : gmap K A) k a : mforall f M = true -> M !! k = Some a -> f k a = true.
Proof. intros Hf Hk. unfold mforall in Hf. rewrite forallb_forall in Hf. apply (Hf (k, a)), list_elem_of_In, elem_of_map_to_list, Hk. Qed.

Definition is_some {A} (o : option A) : bool := match o with Some _ => true | None => false end.

Lemma is_some_spec {A} (o : option A) : is_some o = true -> is_Some o.
Proof. destruct o; [by eexists|done]. Qed.

(** ** The table *)

(** The rows a table holds. *)
Definition row_at (t : proc_table) (i : Z) : option row :=
  match pt_proc t !! Z.to_nat i, pt_status t !! Z.to_nat i, pt_waitcode t !! Z.to_nat i with
  | Some (Some p), Some (Some st), Some (Some c) => Some (Row p st c)
  | _, _, _ => None
  end.

Definition rows_of (t : proc_table) : gmap Z row := list_to_map (omap (fun i => (fun r => (i, r)) <$> row_at t i) (seqZ 1 31)).

Definition usedb (st : Z) : bool := (st =? RUNNING) || (st =? ZOMBIE) || (st =? ORPHAN).
Definition livesb (m : gmap Z row) (i : Z) : bool := match m !! i with Some r => (r_status r =? RUNNING) || (r_status r =? ORPHAN) | None => false end.

Lemma usedb_spec st : usedb st = true -> used st.
Proof. unfold usedb, used. intros Hu. boolify. lia. Qed.

Lemma livesb_spec m i : lives m i -> livesb m i = true.
Proof. intros (r & Hr & Hst). unfold livesb. rewrite Hr. destruct Hst as [-> | ->]; done. Qed.

Definition trepb (t : proc_table) (m : gmap Z row) : bool :=
  mforall (fun i r => (1 <=? i) && (i <? 32) && bool_decide (pt_proc t !! Z.to_nat i = Some (Some (r_proc r))) && bool_decide (pt_status t !! Z.to_nat i = Some (Some (r_status r))) &&
    bool_decide (pt_waitcode t !! Z.to_nat i = Some (Some (r_code r)))) m &&
  forallb (fun i => is_some (m !! i)) (seqZ 1 31) && forallb (fun c => negb (is_some c)) (drop 32 (pt_status t)).

(** Split a conjunction of checks. *)
Ltac checks Hb := cbv beta iota in Hb; repeat match type of Hb with _ && _ = true => let Hn := fresh "Hc" in apply andb_prop in Hb as [Hb Hn] end.

Lemma trepb_spec t m : trepb t m = true -> trep t m.
Proof.
  unfold trepb. intros [[H1 H2]%andb_prop H3]%andb_prop. constructor.
  - intros i r Hi. apply (mforall_spec _ _ i r) in H1; [|done]. checks H1. by apply bool_decide_eq_true in Hc, Hc0, Hc1; boolify.
  - intros i Hi. rewrite forallb_forall in H2. apply is_some_spec, H2, list_elem_of_In, elem_of_seqZ. lia.
  - intros k Hk. destruct (pt_status t !! k) as [c|] eqn:E; [right|by left]. rewrite forallb_forall in H3. specialize (H3 c). destruct c as [c|]; [|done].
    discriminate H3. apply list_elem_of_In, list_elem_of_lookup. exists (k - 32)%nat. rewrite lookup_drop. by replace (32 + (k - 32))%nat with k by lia.
Qed.

Definition tcountb (t : proc_table) (m : gmap Z row) : bool :=
  (pid_available t =? free_pids m) && (0 <? free_pids m) && match m !! pid_next t with Some r => r_status r =? READY | None => false end &&
  mforall (fun i r => negb (r_status r =? READY) || (pid_next t <=? i)) m.

Lemma tcountb_spec t m : tcountb t m = true -> tcount t m.
Proof.
  unfold tcountb. intros Hb. checks Hb. boolify. constructor; [done|lia| |].
  - intros _. destruct (m !! pid_next t) as [r|]; [|done]. exists r. split; [done|]. by boolify.
  - intros i r Hi Hr. apply (mforall_spec _ _ i r) in Hc; [|done]. cbv beta in Hc. rewrite Hr in Hc. cbn in Hc. boolify. lia.
Qed.

(** ** Blocks *)

Definition holdsb (a : array) : bool :=
  (Z.of_nat (length (arr_v a)) =? arr_max a) && (0 <=? arr_num a) && (arr_num a <=? arr_max a) && (arr_max a <? 2 ^ 30) && Bool.eqb (arr_vptr a =? 0) (arr_max a =? 0) &&
  bool_decide (take (Z.to_nat (arr_num a)) (arr_v a) = Some <$> alist a).

Lemma holdsb_spec a : holdsb a = true -> holds a (alist a).
Proof.
  unfold holdsb. intros Hb. checks Hb. apply bool_decide_eq_true in Hc. apply eqb_prop in Hc0. split; [|done]. boolify. constructor; [done|lia|done|].
  destruct (Z.eqb_spec (arr_vptr a) 0), (Z.eqb_spec (arr_max a) 0); (done || lia).
Qed.

Definition aownb (B : uses) (k : kind) (a : array) : bool := holdsb a && ((arr_vptr a =? 0) || bool_decide (B !! arr_vptr a = Some k)).

Lemma aownb_spec B k a : aownb B k a = true -> aown B k a.
Proof. intros [H1 H2]%andb_prop. split; [by apply holdsb_spec|]. intros Hv. apply orb_prop in H2 as [H2|H2]; [boolify; done|by apply bool_decide_eq_true in H2]. Qed.

Definition memb (B : uses) (K : gmap Z (Z * Z * array * array)) (F : gmap Z file_handler) (TF : gmap Z trapframe) : bool :=
  mforall (fun h _ => bool_decide (B !! h = Some KFh)) F && mforall (fun h _ => bool_decide (B !! h = Some KTf)) TF &&
  mforall (fun p e => let '(n, c, a, t) := e in bool_decide (B !! p = Some KProc) && bool_decide (B !! n = Some (KName p)) && bool_decide (B !! c = Some (KArr p)) && aownb B (KVec p) a && aownb B (KThr p) t) K.

Lemma memb_spec B K F TF : memb B K F TF = true -> mem B K F TF.
Proof.
  unfold memb. intros Hb. checks Hb. constructor.
  - intros h x Hx. apply (mforall_spec _ _ h x) in Hb; [|done]. by apply bool_decide_eq_true in Hb.
  - intros h x Hx. apply (mforall_spec _ _ h x) in Hc0; [|done]. by apply bool_decide_eq_true in Hc0.
  - intros p n c a t Hp. apply (mforall_spec _ _ p (n, c, a, t)) in Hc; [|done]. checks Hc. apply bool_decide_eq_true in Hc, Hc3, Hc4. apply aownb_spec in Hc1, Hc2. done.
Qed.

(** The uses of the blocks of a state. *)
Definition array_use (k : kind) (a : array) : uses := if arr_vptr a =? 0 then ∅ else {[arr_vptr a := k]}.

Definition uses_of (P : gmap Z proc) (F : gmap Z file_handler) (TF : gmap Z trapframe) : uses :=
  foldr (fun e B => array_use (KVec e.1) (children e.2) ∪ (array_use (KThr e.1) (p_threads e.2) ∪ (<[e.1 := KProc]> (<[p_name e.2 := KName e.1]> (<[children_ptr e.2 := KArr e.1]> B)))))
    (((fun _ => KFh) <$> F) ∪ ((fun _ => KTf) <$> TF)) (map_to_list P).

(** ** Families, threads, address spaces *)

Definition familyb (m : gmap Z row) (k : Z) (A : gmap Z (Z * list Z)) : bool :=
  negb (is_some (A !! 0)) &&
  mforall (fun i r => (r_status r =? READY) && (r_proc r =? 0) || usedb (r_status r) && bool_decide (fst <$> A !! r_proc r = Some i)) m &&
  mforall (fun p e => match m !! e.1 with Some r => (r_proc r =? p) && usedb (r_status r) | None => false end) A &&
  bool_decide (fst <$> A !! k = Some 1) && match m !! 1 with Some r => r_status r =? RUNNING | None => false end &&
  mforall (fun p e => negb (livesb m e.1) || bool_decide (NoDup e.2) && forallb (fun c => negb (c =? p) &&
    match A !! c with Some f => negb (f.1 =? 1) && match m !! f.1 with Some r => (r_status r =? RUNNING) || (r_status r =? ZOMBIE) | None => false end | None => false end) e.2) A &&
  mforall (fun p e => mforall (fun q f => (p =? q) || negb (livesb m e.1) || negb (livesb m f.1) || forallb (fun c => negb (bool_decide (c ∈ f.2))) e.2) A) A.

Lemma familyb_spec m k A : familyb m k A = true -> family m ∅ ∅ ∅ k A.
Proof.
  unfold familyb. intros Hb. checks Hb. constructor.
  - destruct (A !! 0); done.
  - intros i r Hi _. apply (mforall_spec _ _ i r) in Hc4; [|done]. apply orb_prop in Hc4 as [[E1 E2]%andb_prop|[E1 E2]%andb_prop]; [left; boolify; done|right].
    apply usedb_spec in E1. apply bool_decide_eq_true in E2. split_and!; [done|set_solver|]. destruct (A !! r_proc r) as [[j l]|]; [|done]. injection E2 as ->. by exists l.
  - intros p i l Hp _. apply (mforall_spec _ _ p (i, l)) in Hc3; [|done]. cbn in Hc3. destruct (m !! i) as [r|]; [|done]. apply andb_prop in Hc3 as [E1 E2%usedb_spec]. exists r. boolify. done.
  - apply bool_decide_eq_true in Hc2. destruct (A !! k) as [[j l]|] eqn:Ek; [|done]. injection Hc2 as ->. destruct (m !! 1) as [r|]; [|done]. exists l, r. boolify. split_and!; [done|set_solver|done|done].
  - intros p i l Hp _ Hl%livesb_spec. apply (mforall_spec _ _ p (i, l)) in Hc0; [|done]. cbn in Hc0. rewrite Hl in Hc0. cbn in Hc0. apply andb_prop in Hc0 as [E1%bool_decide_eq_true E2]. split; [done|].
    intros c Hin. rewrite forallb_forall in E2. specialize (E2 c (proj1 (list_elem_of_In _ _) Hin)). apply andb_prop in E2 as [E2 E3]. destruct (A !! c) as [[j l']|] eqn:Ec; [|done]. cbn in E3. apply andb_prop in E3 as [E3 E4].
    destruct (m !! j) as [r|] eqn:Ej; [|done]. boolify. split_and!; [done|set_solver|]. exists j, l', r. split_and!; try done. lia.
  - intros p i l q j l' c Hp _ Hl%livesb_spec Hq _ Hl'%livesb_spec Hin Hin'. apply (mforall_spec _ _ p (i, l)) in Hc; [|done]. apply (mforall_spec _ _ q (j, l')) in Hc; [|done]. cbn in Hc. rewrite Hl, Hl' in Hc. cbn in Hc.
    destruct (Z.eqb_spec p q) as [|Hne]; [done|]. cbn in Hc. rewrite forallb_forall in Hc. specialize (Hc c (proj1 (list_elem_of_In _ _) Hin)). by rewrite bool_decide_eq_true_2 in Hc.
Qed.

Definition threadsb (m : gmap Z row) (A : gmap Z (Z * list Z)) (tp : gmap Z Z) (V : gset Z) : bool :=
  mforall (fun t p => match A !! p with Some e => bool_decide (t ∈ e.2) | None => false end) tp &&
  mforall (fun p e => forallb (fun t => bool_decide (tp !! t = Some p) && bool_decide (t ∈ V)) e.2 && bool_decide (NoDup e.2) && ((e.1 =? 1) || (Z.of_nat (length e.2) <=? 1)) &&
    match m !! e.1 with Some r => negb (r_status r =? ZOMBIE) || bool_decide (e.2 = []) | None => true end) A.

Lemma threadsb_spec m A tp V : threadsb m A tp V = true -> threads m ∅ A tp V.
Proof.
  unfold threadsb. intros Hb. checks Hb. assert (forall p i l, A !! p = Some (i, l) -> forallb (fun t => bool_decide (tp !! t = Some p) && bool_decide (t ∈ V)) l = true /\ NoDup l /\ (i = 1 \/ Z.of_nat (length l) <= 1) /\
    (forall r, m !! i = Some r -> r_status r = ZOMBIE -> l = [])) as Hp.
  { intros p i l Hp. apply (mforall_spec _ _ p (i, l)) in Hc; [|done]. checks Hc. cbn in *. apply bool_decide_eq_true in Hc2. split_and!; [done|done|boolify; lia|].
    intros r Hr Hz. rewrite Hr, Hz in Hc0. cbn in Hc0. by apply bool_decide_eq_true in Hc0. }
  constructor.
  - intros t p Ht. apply (mforall_spec _ _ t p) in Hb; [|done]. cbn in Hb. destruct (A !! p) as [[i l]|]; [|done]. exists i, l. by apply bool_decide_eq_true in Hb.
  - intros p i l t Hl Hin. destruct (Hp p i l Hl) as (E & _). rewrite forallb_forall in E. specialize (E t (proj1 (list_elem_of_In _ _) Hin)). apply andb_prop in E as [E1 E2]. by apply bool_decide_eq_true in E1, E2.
  - intros p i l Hl. destruct (Hp p i l Hl) as (_ & ? & ? & _). split; [done|lia].
  - intros p i l r Hl _ Hr Hz. destruct (Hp p i l Hl) as (_ & _ & _ & Hr'). by apply (Hr' r).
Qed.

Definition spacesb {SP} (A : gmap Z Z) (S : gmap Z SP) : bool :=
  mforall (fun p a => (a =? 0) || is_some (S !! a)) A && mforall (fun p a => mforall (fun q b => (p =? q) || (a =? 0) || negb (a =? b)) A) A.

Lemma spacesb_spec {SP} A (S : gmap Z SP) : spacesb A S = true -> spaces A S.
Proof.
  unfold spacesb. intros Hb. checks Hb. constructor.
  - intros p a Hp Ha. apply (mforall_spec _ _ p a) in Hb; [|done]. cbv beta in Hb. replace (a =? 0) with false in Hb by lia. by apply is_some_spec.
  - intros p q a Hp Hq Ha. apply (mforall_spec _ _ p a) in Hc; [|done]. apply (mforall_spec _ _ q a) in Hc; [|done]. cbv beta in Hc. rewrite Z.eqb_refl in Hc. boolify. lia.
Qed.

Definition startsb (td : gmap Z Z) (TF : gmap Z trapframe) : bool :=
  mforall (fun t d => is_some (TF !! d)) td && mforall (fun t d => mforall (fun u e => (t =? u) || negb (d =? e)) td) td.

Lemma startsb_spec td TF : startsb td TF = true -> starts td TF.
Proof.
  unfold startsb. intros Hb. checks Hb. constructor.
  - intros t d Ht. apply (mforall_spec _ _ t d) in Hb; [|done]. by apply is_some_spec.
  - intros t u d Ht Hu. apply (mforall_spec _ _ t d) in Hc; [|done]. apply (mforall_spec _ _ u d) in Hc; [|done]. cbv beta in Hc. rewrite Z.eqb_refl in Hc. boolify. lia.
Qed.

Section check.
Context {W : Type} `{World W}.
Implicit Types s : pst W.

(** ** Files *)

Definition fpureb (L : gset Z) (v : wview space_t) (C : gmap Z Z) (T : gmap (Z * Z) Z) (F : gmap Z file_handler) : bool :=
  mforall (fun e h => is_some (C !! e.1) && (0 <=? e.2) && (e.2 <? OPEN_MAX) && is_some (F !! h)) T &&
  mforall (fun h x => (0 <? h) && bool_decide (h ∈ L) && bool_decide (v_locks v !! fh_lock x = Some false) && (d_count x =? refs T h) && (refs T h <? 2 ^ 31) && negb (fh_vnode x =? 0)) F &&
  mforall (fun h x => mforall (fun h' x' => (h =? h') || negb (fh_lock x =? fh_lock x')) F) F &&
  mforall (fun h x => vneed C F (fh_vnode x) <=? v_refs v (fh_vnode x)) F && mforall (fun p n => (n =? 0) || (vneed C F n <=? v_refs v n)) C && mforall (fun n r => 0 <=? r) (v_vrefs v).

Lemma fpureb_spec L v C T F : fpureb L v C T F = true -> fpure L v C T F.
Proof.
  unfold fpureb. intros Hb. checks Hb. constructor.
  - intros p fd h Hs. apply (mforall_spec _ _ (p, fd) h) in Hb; [|done]. checks Hb. cbn in *. apply is_some_spec in Hb, Hc4. boolify. split_and!; (done || lia).
  - intros h x Hx. apply (mforall_spec _ _ h x) in Hc3; [|done]. checks Hc3. apply bool_decide_eq_true in Hc7, Hc8. boolify. split_and!; (done || lia).
  - intros h x h' x' Hx Hx' E. apply (mforall_spec _ _ h x) in Hc2; [|done]. apply (mforall_spec _ _ h' x') in Hc2; [|done]. cbv beta in Hc2. rewrite E, Z.eqb_refl in Hc2. boolify. lia.
  - intros n Hn. destruct (decide (vneed C F n = 0)) as [->|Hne].
    { unfold v_refs. destruct (v_vrefs v !! n) as [r|] eqn:Er; [|cbn; lia]. apply (mforall_spec _ _ n r) in Hc; [|done]. cbv beta in Hc. cbn. boolify. lia. }
    unfold vneed in *. pose proof (count_nonneg fh_vnode n F). pose proof (count_nonneg id n C). destruct (decide (0 < count_val fh_vnode n F)) as [(h & x & Hx & <-)%count_some|].
    + apply (mforall_spec _ _ h x) in Hc1; [|done]. cbv beta in Hc1. boolify. lia.
    + assert (0 < count_val id n C) as (p & m & Hp & E)%count_some by lia. cbn in E. subst m. apply (mforall_spec _ _ p n) in Hc0; [|done]. cbv beta in Hc0. boolify. lia.
Qed.

(** ** The whole *)

Definition pinvb s : bool :=
  let B := uses_of (procs s) (fhs s) (tfs s) in
  let m := rows_of (ptab s) in
  let v := wv (pw s) in
  mforall (fun b k => bool_decide (b ∈ heap_live (pw s)) && (0 <? b)) B && memb B (blk (procs s)) (fhs s) (tfs s) && fpureb (heap_live (pw s)) v (cwds (procs s)) (ftab s) (fhs s) &&
  mforall (fun p b => negb b) (lck (procs s)) && trepb (ptab s) m && tcountb (ptab s) m &&
  bool_decide (v_locks v !! pt_lock (ptab s) = Some false) && mforall (fun h x => negb (fh_lock x =? pt_lock (ptab s))) (fhs s) &&
  familyb m (kproc s) (fam (procs s)) && threadsb m (thr (procs s)) (tproc s) (v_threads v) && spacesb (spc (procs s)) (v_spaces v) && startsb (tdata s) (tfs s) &&
  bool_decide (cv_queue s = []) && bool_decide (cv_woken s = []).

Lemma pinvb_spec s : wok (pw s) -> pinvb s = true -> pinv (uses_of (procs s) (fhs s) (tfs s)) (rows_of (ptab s)) s.
Proof.
  intros Hw Hb. unfold pinvb in Hb. checks Hb. set (B := uses_of _ _ _) in *. apply bool_decide_eq_true in Hc, Hc0, Hc6. constructor; [constructor| |].
  - constructor; [done|..]; intros b k Hk; (apply (mforall_spec _ _ b k) in Hb; [|done]); checks Hb; apply bool_decide_eq_true in Hb; [done|boolify; lia].
  - by apply memb_spec.
  - by apply fpureb_spec.
  - intros p b Hp. apply (mforall_spec _ _ p b) in Hc9; [|done]. rewrite bool_decide_eq_false_2 by apply not_elem_of_empty. by destruct b.
  - by apply trepb_spec.
  - split; [done|]. intros h x Hx. apply (mforall_spec _ _ h x) in Hc5; [|done]. cbv beta in Hc5. boolify. lia.
  - by apply familyb_spec.
  - by apply threadsb_spec.
  - by apply spacesb_spec.
  - by apply startsb_spec.
  - by apply tcountb_spec.
  - rewrite Hc, Hc0. constructor; [| |constructor]; intros t i rv; set_solver.
Qed.
End check.

(** * A system to run

    The kernel's process with the boot thread, a program started from it, and
    runs on the reference world. *)

Definition rst : Type := pst rworld.

(** Nothing there yet; [f] are the allocations that fail. *)
Definition start (f : list bool) : rst :=
  Pst (RWorld (RefHeap ∅ f) (View ∅ ∅ ∅ 0 ∅)) ∅ ∅ ∅ ∅ (ProcTable [] [] [] 0 0 0 0) 0 ∅ ∅ 0 [] [].

(** The process part of [boot] (kern/main/main.c). *)
Definition boot : M rst unit :=
  proc_bootstrap [107] ;;;
  r <- world thread_new ;;
  match r with
  | inl _ => panic
  | inr t =>
      s <- get ;;
      r <- proc_addthread (kproc s) t ;;
      modify (set_curt t) ;;;
      if negb (r =? 0) then panic else proc_table_bootstrap
  end.

(** A program with an address space and a thread. *)
Definition start_program : M rst unit :=
  p <- proc_create_runprogram [112] [9] false ;;
  modify (fun s => set_pw (rw_upd (fun v => v_set_spaces (<[50 := 7]> (v_spaces v)) v) (pw s)) s) ;;;
  x <- proc_at p ;;
  proc_put p (set_p_addrspace 50 x) ;;;
  r <- world thread_new ;;
  match r with
  | inl _ => panic
  | inr t => proc_addthread p t ;;; ret tt
  end.

Definition state_of {A} (m : M rst A) (s : rst) : rst := match m s with Done _ s' => s' | _ => s end.
Definition result_of {A} (m : M rst A) (s : rst) : option A := match m s with Done a _ => Some a | _ => None end.

Definition booted : rst := Eval vm_compute in state_of boot (start []).
Definition programmed : rst := Eval vm_compute in state_of (boot ;;; start_program) (start []).

Lemma booted_sound : sound booted.
Proof. eexists _, _. apply pinvb_spec; [done|vm_compute; reflexivity]. Qed.

Lemma programmed_sound : sound programmed.
Proof. eexists _, _. apply pinvb_spec; [done|vm_compute; reflexivity]. Qed.
