(* ===== verification/TrapProps.v ===== *)
(** The theorems of traps and system calls: what a user program that makes a
    system call gets, and that no trap from user mode harms the kernel. *)
From S2P Require Import Prelude KHeap Array KWorld RefWorld PState Files FilesSpec FilesCalls Proc ProcCalls ProcTable ProcInv ProcOps ProcExit ProcWait ProcSystem ProcCheck Trap.

(** A page fault may allocate; it frees nothing of anybody else's, and unless it
    runs out of memory it leaves the world in order.  Nothing is promised of
    one that returns [ENOMEM] (it can leave the page table broken). *)
Class TrapWorld (W : Type) {WO : WorldOps W} {WL : World W} {TO : TrapOps W} := {
  vm_fault_law : forall type a w, wok w -> wp (vm_fault type a) (fun r w' => r <> ENOMEM -> wok w' /\ heap_live w ⊆ heap_live w' /\ wv w' = wv w) w;
  mainbus_interrupt_law : forall w, wok w -> wp mainbus_interrupt (fun _ w' => wok w' /\ heap_live w ⊆ heap_live w' /\ wv w' = wv w) w;
}.

(** ** The calls of a user program *)

Inductive ucall :=
| UFork
| UGetpid
| UWaitpid (pid status options : Z)
| UExit (code : Z)
| UFile (c : fcall).

Definition int32 (z : Z) : Prop := - 2 ^ 31 <= z < 2 ^ 31.
Definition uint32 (z : Z) : Prop := 0 <= z < 2 ^ 32.

(** The types of the C prototypes. *)
Definition typed (u : ucall) : Prop :=
  match u with
  | UFork | UGetpid => True
  | UWaitpid pid status options => int32 pid /\ uint32 status /\ int32 options
  | UExit code => int32 code
  | UFile (FOpen filename flags) => uint32 filename /\ int32 flags
  | UFile (FRead fd buf n) | UFile (FWrite fd buf n) => int32 fd /\ uint32 buf /\ uint32 n
  | UFile (FClose fd) => int32 fd
  | UFile (FLseek fd offset whence) => int32 fd /\ - 2 ^ 63 <= offset < 2 ^ 63 /\ int32 whence
  | UFile (FDup2 oldfd newfd) => int32 oldfd /\ int32 newfd
  | UFile (FGetcwd buf n) => uint32 buf /\ uint32 n
  | UFile (FChdir path) => uint32 path
  end.

Definition number (u : ucall) : Z :=
  match u with
  | UFork => SYS_fork
  | UGetpid => SYS_getpid
  | UWaitpid _ _ _ => SYS_waitpid
  | UExit _ => SYS__exit
  | UFile (FOpen _ _) => SYS_open
  | UFile (FRead _ _ _) => SYS_read
  | UFile (FWrite _ _ _) => SYS_write
  | UFile (FClose _) => SYS_close
  | UFile (FLseek _ _ _) => SYS_lseek
  | UFile (FDup2 _ _) => SYS_dup2
  | UFile (FGetcwd _ _) => SYS___getcwd
  | UFile (FChdir _) => SYS_chdir
  end.

(** The argument registers by the calling convention: a 64-bit argument takes
    an aligned pair, and what does not fit is on the stack. *)
Definition arguments (u : ucall) (tf : trapframe) : Z * Z * Z * Z :=
  match u with
  | UFork | UGetpid => (tf_a0 tf, tf_a1 tf, tf_a2 tf, tf_a3 tf)
  | UWaitpid pid status options => (u32 pid, status, u32 options, tf_a3 tf)
  | UExit code => (u32 code, tf_a1 tf, tf_a2 tf, tf_a3 tf)
  | UFile (FOpen filename flags) => (filename, u32 flags, tf_a2 tf, tf_a3 tf)
  | UFile (FRead fd buf n) | UFile (FWrite fd buf n) => (u32 fd, buf, n, tf_a3 tf)
  | UFile (FClose fd) => (u32 fd, tf_a1 tf, tf_a2 tf, tf_a3 tf)
  | UFile (FLseek fd offset _) => (u32 fd, tf_a1 tf, u32 (offset / 2 ^ 32), u32 offset)
  | UFile (FDup2 oldfd newfd) => (u32 oldfd, u32 newfd, tf_a2 tf, tf_a3 tf)
  | UFile (FGetcwd buf n) => (buf, n, tf_a2 tf, tf_a3 tf)
  | UFile (FChdir path) => (path, tf_a1 tf, tf_a2 tf, tf_a3 tf)
  end.

(** The registers at the [syscall] instruction. *)
Definition call_frame (u : ucall) (tf : trapframe) : trapframe :=
  let '(a0, a1, a2, a3) := arguments u tf in
  Trapframe (number u) (tf_v1 tf) a0 a1 a2 a3 (tf_sp tf) (tf_epc tf) (tf_rest tf).

(** The call of the process system it stands for. *)
Definition pcall_of (tf : trapframe) (u : ucall) : pcall :=
  match u with
  | UFork => PFork new_proc tf
  | UGetpid => PGetpid
  | UWaitpid pid status options => PWaitpid pid status options
  | UExit code => PExit (s32 (_MKWAIT_EXIT (u32 code)))
  | UFile c => PFile c
  end.

(** The registers the program goes on with, and what its library makes of them. *)
Definition resumed (tf tf' : trapframe) : Prop :=
  tf_epc tf' = u32 (tf_epc tf + 4) /\ tf_sp tf' = tf_sp tf /\ tf_a0 tf' = tf_a0 tf /\ tf_a1 tf' = tf_a1 tf /\ tf_a2 tf' = tf_a2 tf /\ tf_rest tf' = tf_rest tf.

Definition sees_error (e : Z) (tf' : trapframe) : Prop := __syscall tf' = (Some (u32 e), u32 (-1), u32 (-1)).

Definition sees_value (u : ucall) (v : Z) (tf' : trapframe) : Prop := exists hi lo,
  __syscall tf' = (None, hi, lo) /\ match u with UFile (FLseek _ _ _) => s64 (hi * 2 ^ 32 + lo) = s64 v | _ => s32 hi = s32 v end.

(** What the program gets when the process system answers [r]. *)
Definition answered (u : ucall) (tf : trapframe) (r : presult) (o : trap_result) : Prop :=
  match r with
  | RValue (inl e) => exists tf', o = Back tf' /\ resumed tf tf' /\ (e <> 0 -> sees_error e tf')
  | RValue (inr v) => exists tf', o = Back tf' /\ resumed tf tf' /\ sees_value u v tf'
  | RWaited e _ => exists tf', o = Back tf' /\ resumed tf tf' /\ (if e =? 0 then sees_value u 0 tf' else sees_error e tf')
  | RAsleep => o = Sleeping
  | RUser _ => False
  | RGone => o = Gone
  end.

(** ** Lemmas *)

Lemma s32_u32_id z : int32 z -> s32 (u32 z) = z.
Proof. intros Hz. rewrite s32_u32. by apply s32_id. Qed.

Lemma u32_halves z : - 2 ^ 63 <= z < 2 ^ 63 -> s64 (u32 (z / 2 ^ 32) * 2 ^ 32 + u32 z) = z.
Proof.
  intros Hz. unfold s64, u32. change (2 ^ 63) with 9223372036854775808 in *. change (2 ^ 64) with 18446744073709551616. change (2 ^ 32) with 4294967296. zlia.
Qed.

Lemma s64_split v : s64 (u32 (v / 2 ^ 32) * 2 ^ 32 + u32 v) = s64 v.
Proof. unfold s64, u32. change (2 ^ 63) with 9223372036854775808 in *. change (2 ^ 64) with 18446744073709551616. change (2 ^ 32) with 4294967296. zlia. Qed.

Lemma return_error u e tf : resumed tf (set_epc (u32 (tf_epc tf + 4)) (return_value (number u) (inl e) tf)) /\
  (e <> 0 -> sees_error e (set_epc (u32 (tf_epc tf + 4)) (return_value (number u) (inl e) tf))).
Proof.
  unfold return_value, sees_error, __syscall, resumed. cbv zeta iota. destruct (e =? 0) eqn:E; boolify; cbn [negb].
  - split; [destruct (negb (number u =? SYS_lseek)); done|done].
  - done.
Qed.

Lemma return_ok u v tf : resumed tf (set_epc (u32 (tf_epc tf + 4)) (return_value (number u) (inr v) tf)) /\
  sees_value u v (set_epc (u32 (tf_epc tf + 4)) (return_value (number u) (inr v) tf)).
Proof.
  unfold return_value, sees_value, __syscall, resumed. cbv zeta iota. change (negb (0 =? 0)) with false. cbv iota.
  destruct (negb (number u =? SYS_lseek)) eqn:E; (split; [done|]); cbn [tf_a3 tf_v0 tf_v1 set_epc]; change (0 =? 0) with true; cbv iota; eexists _, _; (split; [reflexivity|]).
  - destruct u as [| | | |[]]; try (apply s32_u32). done.
  - destruct u as [| | | |[]]; try done. apply s64_split.
Qed.

(** The branch of the [switch]. *)
Ltac which_call :=
  repeat match goal with
  | |- context [if ?a =? ?b then _ else _] =>
      let v := eval vm_compute in (a =? b) in
      match v with true => idtac | false => idtac end;
      change (a =? b) with v; cbv iota
  end.

Section props.
Context {W : Type} {WO : WorldOps W} {WL : World W} {TO : TrapOps W} {TL : TrapWorld W}.
Implicit Types s : tst W.

Definition level s : Prop := t_curspl s = 0 /\ t_iplhigh_count s = 0.

Lemma wp_kern {A} (m : M (pst W) A) (Q : A -> tst W -> Prop) s : wp m (fun a k => Q a (set_t_kernel k s)) (t_kernel s) -> wp (kern m) Q s.
Proof. apply wp_zoom. Qed.

Lemma wp_level_zero (Q : unit -> tst W -> Prop) s : level s -> Q tt s -> wp level_zero Q s.
Proof. intros [E1 E2] HQ. unfold level_zero. wp_step. wp_step. rewrite E1, E2. wp_step. apply wp_kassert; [done|]. by apply wp_kassert. Qed.

Lemma wp_syscall_end callno r tf (Q : trap_result -> tst W -> Prop) s : level s -> Q (Back (set_epc (u32 (tf_epc tf + 4)) (return_value callno r tf))) s -> wp (syscall_end callno r tf) Q s.
Proof.
  intros Hl HQ. unfold syscall_end. wp_step. apply wp_level_zero; [done|]. wp_step. replace (tf_epc (return_value callno r tf)) with (tf_epc tf); [done|].
  unfold return_value. by repeat case_match.
Qed.

(** A handler that returns a value. *)
Lemma wp_value u tf m (Q : trap_result -> tst W -> Prop) s : level s ->
  wp (r <- m ;; ret (RValue r)) (fun r k => forall o, answered u tf r o -> Q o (set_t_kernel k s)) (t_kernel s) ->
  wp (r <- kern m ;; syscall_end (number u) r tf) Q s.
Proof.
  intros Hl Hm. apply wp_bind_inv in Hm. wp_step. apply wp_kern. eapply wp_mono; [exact Hm|]. intros r k Hk. apply wp_syscall_end; [done|]. apply Hk.
  destruct r as [e|v]; eexists; (split; [reflexivity|]); [apply return_error|apply return_ok].
Qed.

(** The word of the stack that holds the last argument of [lseek]. *)
Definition on_stack (u : ucall) (tf : trapframe) s : Prop :=
  match u with
  | UFile (FLseek _ _ whence) => wp (copyin_word (u32 (tf_sp tf + 16))) (fun r w' => r = inr (u32 whence) /\ w' = pw (t_kernel s)) (pw (t_kernel s))
  | _ => True
  end.

Lemma wp_syscall u tf0 (Q : trap_result -> tst W -> Prop) s : level s -> typed u -> on_stack u tf0 s -> let tf := call_frame u tf0 in
  wp (run_pcall (pcall_of tf u)) (fun r k => forall o, answered u tf r o -> Q o (set_t_kernel k s)) (t_kernel s) -> wp (syscall tf) Q s.
Proof.
  intros Hl Ht Hst tf Hr. unfold syscall. wp_step. apply wp_level_zero; [done|].
  assert (s32 (tf_v0 tf) = number u) as ->. { unfold tf, call_frame. destruct (arguments u tf0) as [[[]]]. by destruct u as [| | | |[]]. }
  destruct u as [| |pid status options|code|[filename flags|fd buf n|fd buf n|fd|fd offset whence|oldfd newfd|buf n|path]]; cbn [typed] in Ht; destruct_and?; cbn [pcall_of run_pcall run_fcall] in Hr;
    cbn [number]; cbv zeta; which_call; subst tf; cbn [call_frame arguments tf_a0 tf_a1 tf_a2 tf_a3 tf_sp]; rewrite ?s32_u32_id by done.
  - by apply (wp_value UFork).
  - by apply (wp_value UGetpid).
  - apply wp_bind_inv in Hr. wp_step. apply wp_kern. eapply wp_mono; [exact Hr|]. intros r k Hk. destruct r as [e st|]; cbn [waited]; [|wp_step; by apply Hk].
    apply wp_syscall_end; [done|]. apply Hk. eexists. split; [reflexivity|]. unfold of_errno. destruct (e =? 0) eqn:E; boolify.
    + apply (return_ok (UWaitpid pid status options)).
    + split; [apply (return_error (UWaitpid pid status options))|by apply (return_error (UWaitpid pid status options))].
  - apply wp_bind_inv in Hr. wp_step. apply wp_kern. eapply wp_mono; [exact Hr|]. intros [] k Hk. wp_step. by apply Hk.
  - by apply (wp_value (UFile (FOpen filename flags))).
  - by apply (wp_value (UFile (FRead fd buf n))).
  - by apply (wp_value (UFile (FWrite fd buf n))).
  - by apply (wp_value (UFile (FClose fd))).
  - wp_step. apply wp_kern, wp_zoom. eapply wp_mono; [exact Hst|]. intros r w [-> ->]. replace (set_pw (pw (t_kernel s)) (t_kernel s)) with (t_kernel s) by (by destruct (t_kernel s)).
    replace (set_t_kernel (t_kernel s) s) with s by (by destruct s). rewrite s32_u32_id by done. rewrite lor_shiftl_add by (try apply u32_range; lia). rewrite u32_halves by done.
    by apply (wp_value (UFile (FLseek fd offset whence))).
  - by apply (wp_value (UFile (FDup2 oldfd newfd))).
  - by apply (wp_value (UFile (FGetcwd buf n))).
  - by apply (wp_value (UFile (FChdir path))).
Qed.

(** ** Traps *)

Definition trap_code (tf : trapframe) : Z := Z.shiftr (Z.land (tf_cause tf) CCA_CODE) CCA_CODESHIFT.

(** The registers are saved on the thread's kernel stack. *)
Definition saved (addr : Z) (tf : trapframe) s : Prop :=
  length (tf_rest tf) = 29%nat /\ 0 <= trap_code tf < NTRAPCODES /\ t_stack s <> 0 /\ t_stack s mod STACK_SIZE = 0 /\ t_stack s < addr < t_stack s + STACK_SIZE.

Definition user_mode (tf : trapframe) : Prop := Z.land (tf_status tf) CST_KUp <> 0.

Lemma wp_trap_end addr tf r (Q : trap_result -> tst W -> Prop) s : saved addr tf s -> Q r s -> wp (trap_end addr r) Q s.
Proof.
  intros (_ & _ & H1 & H2 & H3) HQ. unfold trap_end. destruct r; try (by apply wp_ret). wp_step. wp_step. replace (t_stack s =? 0) with false by lia. wp_step. apply wp_kassert; [|by wp_step].
  unfold SAME_STACK, STACK_SIZE in *. zlia.
Qed.

Lemma trap_end_back addr tf tf' s : saved addr tf s -> trap_end addr (Back tf') s = Done (Back tf') s.
Proof. intros Hs. assert (wp (trap_end addr (Back tf')) (fun r s' => r = Back tf' /\ s' = s) s) as (r & s' & E & -> & ->)%wp_done by (by apply (wp_trap_end addr tf)). done. Qed.

(** Raising and restoring the level changes nothing. *)
Lemma spl_raise s : level s -> splx IPL_HIGH s = Done 0 (set_spl 1 1 s).
Proof. intros [E1 E2]. unfold splx, bind at 1, get. by rewrite E1, E2. Qed.

Lemma spl_restore s : level s -> exists r, splx 0 (set_spl 1 1 s) = Done r s.
Proof. intros [E1 E2]. exists 1. unfold splx, bind at 1, get. cbn. destruct s. cbn in *. by subst. Qed.

(** The dispatch on the code. *)
Definition trap_dispatch addr tf s : M (tst W) trap_result :=
  if trap_code tf =? EX_IRQ then interrupt_trap ;;; trap_end addr (Back tf) else
  if trap_code tf =? EX_SYS then level_zero ;;; r <- syscall tf ;; trap_end addr r
  else
  handled <- page_fault (trap_code tf) tf ;;
  if handled then trap_end addr (Back tf)
  else if negb (Z.land (tf_status tf) CST_KUp =? 0) then r <- kill_curthread (trap_code tf) ;; trap_end addr r
  else if negb (tm_badfaultfunc s =? 0) then trap_end addr (Back (set_epc (tm_badfaultfunc s) tf))
  else panic.

(** The trap gets there. *)
Lemma trap_start addr tf s (R : outcome (tst W) trap_result -> Prop) : saved addr tf s -> level s -> R (trap_dispatch addr tf s s) -> R (mips_trap addr tf s).
Proof.
  intros (H1 & H2 & H3 & H4 & H5) Hl Hk. unfold mips_trap. rewrite H1. apply run_bind, wp_kassert; [done|]. cbv zeta. fold (trap_code tf). apply run_bind, wp_kassert; [lia|]. apply run_bind. wp_step. apply run_bind.
  replace (t_stack s =? 0) with false by lia. cbn [negb]. wp_step. apply wp_kassert; [lia|]. apply wp_kassert; [lia|]. unfold trap_dispatch in Hk. destruct (trap_code tf =? EX_IRQ); [exact Hk|].
  unfold bind at 1. rewrite spl_raise by done. unfold bind at 1. destruct (spl_restore s Hl) as [r ->]. exact Hk.
Qed.

Lemma wp_trap_start addr tf s Q : saved addr tf s -> level s -> wp (trap_dispatch addr tf s) Q s -> wp (mips_trap addr tf) Q s.
Proof. intros H1 H2 H. exact (trap_start addr tf s (fun o => match o with Done a s' => Q a s' | _ => False end) H1 H2 H). Qed.

Lemma wlp_trap_start addr tf s Q : saved addr tf s -> level s -> wlp (trap_dispatch addr tf s) Q s -> wlp (mips_trap addr tf) Q s.
Proof. intros H1 H2 H. exact (trap_start addr tf s (fun o => match o with Done a s' => Q a s' | _ => True end) H1 H2 H). Qed.

Lemma trap_dispatch_sys addr tf s : trap_code tf = EX_SYS -> trap_dispatch addr tf s = (level_zero ;;; r <- syscall tf ;; trap_end addr r).
Proof. unfold trap_dispatch. by intros ->. Qed.

(** A call that does not return. *)
Lemma syscall_lost u tf0 p s : typed u -> let tf := call_frame u tf0 in lost p (pcall_of tf u) (t_kernel s) ->
  wlp (run_pcall (pcall_of tf u)) (fun _ _ => False) (t_kernel s) -> wlp (syscall tf) (fun _ _ => False) s.
Proof.
  assert (forall {A B} (m : M (pst W) A) (f : A -> M (pst W) B) (g : A -> M (tst W) trap_result), (forall a k, wlp (f a) (fun _ _ => False) k -> False) -> wlp (bind m f) (fun _ _ => False) (t_kernel s) -> wlp (bind (kern m) g) (fun _ _ => False) s) as Hk.
  { intros A B m f g Hf Hm. unfold wlp, bind, kern, zoom in *. destruct (m (t_kernel s)) as [a k| | |]; [|done..]. exfalso. by apply (Hf a k). }
  intros Ht tf Hlost Hr. unfold syscall. apply wlp_bind. unfold level_zero at 1. unfold wlp at 1, bind at 1 2, get, kassert. destruct (t_curspl s =? 0), (t_iplhigh_count s =? 0); [|done..]. cbv beta iota.
  assert (s32 (tf_v0 tf) = number u) as ->. { unfold tf, call_frame. destruct (arguments u tf0) as [[[]]]. by destruct u as [| | | |[]]. }
  destruct u as [| |pid status options|code|[]]; try done; cbn [typed] in Ht; destruct_and?; cbn [pcall_of run_pcall] in Hr; cbn [number]; cbv zeta; which_call; subst tf; cbn [call_frame arguments tf_a0 tf_a1 tf_a2 tf_a3] in *; rewrite ?s32_u32_id by done.
  - by eapply Hk; [|exact Hr].
  - by eapply Hk; [|exact Hr].
Qed.

(** C6: a user program that makes a system call, its arguments in the
    registers and on the stack as the calling convention says, gets the
    answer the process system gives to that call: the trap runs exactly that
    call, and the program goes on after the instruction with [errno] set and
    -1, or with the value, 64 bits wide for [lseek] (0 for [waitpid]), and with its other
    registers; or the thread sleeps inside [waitpid], or is gone.  The kernel's
    invariant holds afterwards, unless a [fork] failed half way, and the
    thread's interrupt level is what it was.  The trap is never done (the
    program is not back, nor its thread asleep or gone) where
    the call is not ([lost]: an orphan's [_exit], a [waitpid] beyond the
    table).  The limits of the calls are those of [may_now]: only processes
    that run a program fork and exit, no [close] of a shared open file, room
    for a count more in [dup2], a buffer for [__getcwd]. *)
Theorem trap_syscall_correct addr u tf0 p px s : let tf := call_frame u tf0 in let c := pcall_of tf u in
  sound (t_kernel s) -> active p px (t_kernel s) -> may_now p c (t_kernel s) -> level s -> saved addr tf s -> trap_code tf = EX_SYS -> typed u -> on_stack u tf0 s ->
  (~ lost p c (t_kernel s) ->
   wp (mips_trap addr tf) (fun o s' => exists r, run_pcall c (t_kernel s) = Done r (t_kernel s') /\ answered u tf r o /\ after p c r (t_kernel s') /\ s' = set_t_kernel (t_kernel s') s) s) /\
  (lost p c (t_kernel s) -> forall o s', mips_trap addr tf s <> Done o s').
Proof.
  intros tf c (B & m & I) Ac Hm Hl Hsv Hcode Ht Hst. split.
  - intros Hlost. apply wp_trap_start; [done|done|]. rewrite trap_dispatch_sys by done. wp_step. apply wp_level_zero; [done|]. wp_step. apply (wp_syscall u tf0); [done|done|done|].
    pose proof (call_safe B m p px c (t_kernel s) I Ac Hm Hlost) as Hc. unfold wp in Hc |- *. fold tf c. destruct (run_pcall c (t_kernel s)) as [r k| | |] eqn:E; try done.
    intros o Ho. apply (wp_trap_end addr tf); [done|]. by exists r.
  - intros Hlost. apply wlp_never. apply wlp_trap_start; [done|done|]. rewrite trap_dispatch_sys by done. apply wlp_bind, wp_wlp, wp_level_zero; [done|]. apply wlp_bind. eapply wlp_mono; [apply (syscall_lost u tf0 p); [done|done|]|done].
    by apply (call_lost B m p px).
Qed.

(** A new program starts in user mode, with its arguments and interrupts on. *)
Lemma wp_enter_new_process addr argc argv env stack entry s : t_stack s mod STACK_SIZE = 0 -> t_stack s < addr < t_stack s + STACK_SIZE -> level s ->
  wp (enter_new_process addr argc argv env stack entry) (fun tf s' => s' = s /\ user_mode tf /\ length (tf_rest tf) = 29%nat /\
    tf_a0 tf = u32 argc /\ tf_a1 tf = argv /\ tf_a2 tf = env /\ tf_sp tf = stack /\ tf_epc tf = entry) s.
Proof.
  intros H1 H2 [E1 _]. unfold enter_new_process, mips_usermode. wp_step. unfold splx. wp_step. wp_step. rewrite E1. change (0 <? IPL_NONE) with false. change (IPL_NONE <? 0) with false. cbv iota. wp_step. wp_step. wp_step. wp_step.
  apply wp_kassert; [unfold SAME_STACK, STACK_SIZE in *; zlia|]. wp_step. done.
Qed.

(** ** Faults and interrupts *)

(** Only the part of the kernel behind the interface changed, and nothing in view. *)
Lemma pinv_unseen B m k w : pinv B m k -> wok w -> heap_live (pw k) ⊆ heap_live w -> wv w = wv (pw k) -> pinv B m (set_pw w k).
Proof.
  intros I Hw EL EV. apply pinv_world; [done|]. apply pmid_world; [apply I| |done]. destruct (pv_own (pv_mid I)) as [O1 O2 O3]. split; [done| |done]. intros b kd Hb. by apply EL, (O2 b kd).
Qed.

Lemma active_unseen p px k w : active p px k -> wv w = wv (pw k) -> active p px (set_pw w k).
Proof. intros (A1 & A2 & A3) EV. split_and!; [done|done|]. cbn [pw set_pw]. by rewrite EV. Qed.

Lemma wp_unseen {A} (m : M W A) (Q : A -> tst W -> Prop) s : sound (t_kernel s) ->
  wp m (fun _ w' => wok w' /\ heap_live (pw (t_kernel s)) ⊆ heap_live w' /\ wv w' = wv (pw (t_kernel s))) (pw (t_kernel s)) ->
  (forall a w, sound (set_pw w (t_kernel s)) -> wv w = wv (pw (t_kernel s)) -> Q a (set_t_kernel (set_pw w (t_kernel s)) s)) -> wp (kern (world m)) Q s.
Proof.
  intros (B & mm & I) Hm HQ. apply wp_kern, wp_zoom. eapply wp_mono; [exact Hm|]. intros a w (Hw & EL & EV). apply HQ; [|done]. exists B, mm. by apply pinv_unseen.
Qed.

Lemma sound_wok (k : pst W) : sound k -> wok (pw k).
Proof. intros (B & m & I). apply (pv_own (pv_mid I)). Qed.

Lemma wp_interrupt_trap (Q : unit -> tst W -> Prop) s : level s -> sound (t_kernel s) ->
  (forall w, sound (set_pw w (t_kernel s)) -> Q tt (set_t_kernel (set_pw w (t_kernel s)) s)) -> wp interrupt_trap Q s.
Proof.
  intros [E1 E2] Hs HQ. unfold interrupt_trap. wp_step. wp_step. wp_step. apply wp_modify. rewrite E1, E2. change (0 =? 0) with true. cbv iota. wp_step. wp_step. apply wp_kassert; [done|]. wp_step. apply wp_modify.
  wp_step. wp_step. apply wp_unseen; [done|by apply mainbus_interrupt_law, sound_wok|]. intros [] w Hw _. wp_step. wp_step. wp_step. cbn [t_curspl t_iplhigh_count set_spl set_in_interrupt set_t_kernel].
  wp_step. apply wp_kassert; [done|]. wp_step. apply wp_kassert; [done|]. wp_step. apply wp_modify. apply wp_modify.
  specialize (HQ w Hw). destruct s; cbn in *. by subst.
Qed.

(** The page fault, if it is one, does not run out of memory. *)
Definition enough_memory (tf : trapframe) s : Prop :=
  EX_MOD <= trap_code tf <= EX_TLBS -> forall type, wp (vm_fault type (tf_vaddr tf)) (fun r _ => r <> ENOMEM) (pw (t_kernel s)).

Lemma wp_page_fault tf (Q : bool -> tst W -> Prop) s : let code := trap_code tf in sound (t_kernel s) -> enough_memory tf s -> code <> EX_IBE -> code <> EX_DBE ->
  (forall b w, sound (set_pw w (t_kernel s)) -> wv w = wv (pw (t_kernel s)) -> Q b (set_t_kernel (set_pw w (t_kernel s)) s)) -> wp (page_fault (trap_code tf) tf) Q s.
Proof.
  intros code Hs He H1 H2 HQ. unfold page_fault. assert (EX_MOD <= code <= EX_TLBS -> forall type, wp (r <- kern (world (vm_fault type (tf_vaddr tf))) ;; ret (r =? 0)) Q s) as Hf.
  { intros Hc type. wp_step. apply wp_unseen; [done| |].
    - eapply wp_mono; [apply wp_and; [apply (He Hc type)|apply vm_fault_law, sound_wok, Hs]|]. intros r w [Hr Hw]. by apply Hw.
    - intros r w Hw EV. wp_step. by apply HQ. }
  unfold EX_MOD, EX_TLBL, EX_TLBS in *. fold code.
  destruct (code =? 1) eqn:?; [boolify; apply Hf; lia|]. destruct (code =? 2) eqn:?; [boolify; apply Hf; lia|]. destruct (code =? 3) eqn:?; [boolify; apply Hf; lia|]. replace (code =? EX_IBE) with false by lia. replace (code =? EX_DBE) with false by lia. cbn [orb]. wp_step.
  specialize (HQ false (pw (t_kernel s))). replace (set_pw (pw (t_kernel s)) (t_kernel s)) with (t_kernel s) in HQ by (by destruct (t_kernel s)).
  replace (set_t_kernel (t_kernel s) s) with s in HQ by (by destruct s). by apply HQ.
Qed.

(** The thread runs a program. *)
Definition may_exit (p : Z) (k : pst W) : Prop := tdata k !! curt k = None /\ (curt k ∉ waiting k) /\ program p k.

Lemma signal_of_fatal code : 0 <= code < NTRAPCODES -> code <> EX_IRQ -> code <> EX_SYS -> code <> EX_IBE -> code <> EX_DBE -> exists sig, signal_of code = Some sig /\ 0 < sig < 32.
Proof.
  intros Hc H1 H2 H3 H4. unfold NTRAPCODES, EX_IRQ, EX_SYS, EX_IBE, EX_DBE in *.
  assert (code = 1 \/ code = 2 \/ code = 3 \/ code = 4 \/ code = 5 \/ code = 9 \/ code = 10 \/ code = 11 \/ code = 12) as Hx by lia. repeat destruct Hx as [->|Hx]; subst; eexists; split; done.
Qed.

(** A trap of a program in user mode comes back, or kills the process. *)
Lemma user_trap_cases addr tf s (R : outcome (tst W) trap_result -> Prop) :
  sound (t_kernel s) -> enough_memory tf s -> level s -> saved addr tf s -> user_mode tf -> trap_code tf <> EX_SYS -> trap_code tf <> EX_IBE -> trap_code tf <> EX_DBE ->
  (forall w, sound (set_pw w (t_kernel s)) -> R (Done (Back tf) (set_t_kernel (set_pw w (t_kernel s)) s))) ->
  (forall sig w, signal_of (trap_code tf) = Some sig -> 0 < sig < 32 -> sound (set_pw w (t_kernel s)) -> wv w = wv (pw (t_kernel s)) ->
    R ((kern (sys__exit (s32 (_MKWAIT_SIG sig))) ;;; ret Gone) (set_t_kernel (set_pw w (t_kernel s)) s))) -> R (mips_trap addr tf s).
Proof.
  intros Hs He Hl Hsv Hu N1 N2 N3 HB HG. apply trap_start; [done|done|]. unfold trap_dispatch. destruct (trap_code tf =? EX_IRQ) eqn:E0; boolify.
  { apply run_bind, wp_interrupt_trap; [done|done|]. intros w Hw. rewrite (trap_end_back addr tf) by done. by apply HB. }
  replace (trap_code tf =? EX_SYS) with false by lia. apply run_bind, wp_page_fault; [done|done|done|done|]. intros b w Hw EV. destruct b; [rewrite (trap_end_back addr tf) by done; by apply HB|].
  unfold user_mode in Hu. replace (Z.land (tf_status tf) CST_KUp =? 0) with false by lia. cbn [negb]. pose proof Hsv as (_ & Hc & _).
  destruct (signal_of_fatal (trap_code tf)) as (sig & Esig & Hsig); [done..|]. specialize (HG sig w Esig Hsig Hw EV). unfold kill_curthread. rewrite Esig. unfold bind, kern, zoom, kassert, ret in *.
  replace (trap_code tf <? NTRAPCODES) with true by lia. cbv beta iota. destruct (sys__exit _ _) as [[] k| | |]; exact HG.
Qed.

(** C9: an interrupt, a page fault or any other exception but a bus error, of
    a program in user mode, does not panic the kernel and leaves its
    invariant and the thread's interrupt level as they were, provided that a
    page fault does not run out of memory.  Either the program goes on with its registers unchanged,
    and nothing in view of the processes changed; or the process exits, its
    exit code telling the signal that stands for the exception.  For a process whose parent exited before it only the first can happen: an
    exception that would kill it never gets to the end of its thread. *)
Theorem user_trap_safe addr tf p px s :
  sound (t_kernel s) -> active p px (t_kernel s) -> may_exit p (t_kernel s) -> enough_memory tf s -> level s -> saved addr tf s -> user_mode tf ->
  trap_code tf <> EX_SYS -> trap_code tf <> EX_IBE -> trap_code tf <> EX_DBE ->
  (~ orphan p (t_kernel s) ->
   wp (mips_trap addr tf) (fun o s' => s' = set_t_kernel (t_kernel s') s /\ sound (t_kernel s') /\
    match o with
    | Back tf' => tf' = tf /\ exists w, t_kernel s' = set_pw w (t_kernel s)
    | Gone => exists sig w, signal_of (trap_code tf) = Some sig /\ 0 < sig < 32 /\ wv w = wv (pw (t_kernel s)) /\
        run_pcall (PExit (s32 (_MKWAIT_SIG sig))) (set_pw w (t_kernel s)) = Done RGone (t_kernel s')
    | _ => False
    end) s) /\
  (orphan p (t_kernel s) -> forall o s', mips_trap addr tf s = Done o s' ->
     o = Back tf /\ s' = set_t_kernel (t_kernel s') s /\ sound (t_kernel s') /\ exists w, t_kernel s' = set_pw w (t_kernel s)).
Proof.
  intros Hs Ac Hx He Hl Hsv Hu N1 N2 N3. split; intros Ho.
  - unfold wp. apply user_trap_cases; try done; [intros w Hw; split_and!; [done|done|done|by exists w]|]. intros sig w Esig Hsig (B & m & I) EV.
    pose proof (call_safe B m p px (PExit (s32 (_MKWAIT_SIG sig))) _ I (active_unseen _ _ _ _ Ac EV) Hx Ho) as Hc. cbn [run_pcall] in *. unfold wp, bind, kern, zoom in *. cbn [t_kernel set_t_kernel].
    destruct (sys__exit _ _) as [[] k'| | |] eqn:E; try done. unfold ret in *. cbn [t_kernel set_t_kernel]. split; [done|]. split; [by destruct Hc as [?|[(? & ? & ? & [=] & _) _]]|]. exists sig, w. split_and!; [done|lia|lia|done|]. cbn [run_pcall]. cbn [t_kernel set_t_kernel] in E. by rewrite E.
  - intros o s'. apply (user_trap_cases addr tf s (fun r => r = Done o s' -> _)); try done; [intros w Hw [= <- <-]; split_and!; [done|done|done|by exists w]|]. intros sig w Esig Hsig (B & m & I) EV.
    pose proof (call_lost B m p px (PExit (s32 (_MKWAIT_SIG sig))) _ I (active_unseen _ _ _ _ Ac EV) Hx Ho) as Hc. cbn [run_pcall] in Hc. unfold wlp, bind, kern, zoom in *. cbn [t_kernel set_t_kernel]. by destruct (sys__exit _ _) as [[] k'| | |].
Qed.
End props.

(** ** Exit codes *)

(** C28: what [waitpid] hands out can be taken apart again: an exit code of up
    to 30 bits given to [_exit] is reported as an exit with that code, and a
    process killed by an exception as signalled, with the signal. *)
Theorem wait_status_roundtrip :
  (forall code, - 2 ^ 29 <= code < 2 ^ 29 -> let x := s32 (_MKWAIT_EXIT (u32 code)) in WIFEXITED x = true /\ WIFSIGNALED x = false /\ _WVAL x = code) /\
  (forall code sig, signal_of code = Some sig -> let x := s32 (_MKWAIT_SIG sig) in WIFEXITED x = false /\ WIFSIGNALED x = true /\ _WVAL x = sig).
Proof.
  split.
  - intros code Hc x. assert (x = 4 * code) as ->.
    { unfold x, _MKWAIT_EXIT, _MKWVAL. rewrite Z.lor_0_r, Z.shiftl_mul_pow2 by lia. unfold u32. rewrite Z.mul_mod_idemp_l by lia. fold (u32 (code * 2 ^ 2)). rewrite s32_u32, s32_id; lia. }
    unfold WIFEXITED, WIFSIGNALED, _WWHAT, _WVAL. change 3 with (Z.ones 2). rewrite Z.land_ones, Z.shiftr_div_pow2 by lia. split_and!; zlia.
  - intros code sig. unfold signal_of. repeat case_match; intros [=]; subst; vm_compute; done.
Qed.

(** ** Examples *)

(** A machine on which addresses below 4096 cannot be touched, and the stack
    holds zeros. *)
#[export] Instance rworld_trap : TrapOps rworld := {|
  sys_reboot _ := ret 0;
  sys___time _ _ := ret 0;
  copyin_word _ := ret (inr 0);
  sys_execv _ _ := ret (inl ENOEXEC);
  sys_sbrk _ := ret (inl ENOMEM);
  vm_fault _ a := ret (if a <? 4096 then EFAULT else 0);
  mainbus_interrupt := ret tt;
|}.

#[export] Instance rworld_trap_world : TrapWorld rworld.
Proof. split; intros; by apply wp_ret. Qed.

(** The program has just made a call and is about to trap again. *)
Definition calling : rst := Eval vm_compute in state_of (pstep 2 PGetpid) programmed.
Definition calling_proc : proc := Eval vm_compute in default (Proc 0 false empty_array 0 0 0 0 empty_array) (procs calling !! 6).
Definition trapping : tst rworld := Tst calling 0 0 0 0x80010000 0.

Definition trap_regs (code : Z) : trapframe := Trapframe 0 0 0 0 0 0 0x7fff0000 0x400000 ([0; 8; 4 * code] ++ replicate 26 0).

Lemma calling_sound : sound calling.
Proof.
  apply (preach_sound programmed); [apply programmed_sound|]. apply (preach_step programmed programmed 2 6 PGetpid (RValue (inr 2)) calling); [constructor|reflexivity| |vm_compute; reflexivity|].
  - split; [reflexivity|]. split; [apply not_elem_of_nil|done].
  - left. by intros (? & ? & ? & ? & _).
Qed.

Lemma calling_active : active 6 calling_proc calling.
Proof. split; [reflexivity|]. split; [reflexivity|]. intros _. reflexivity. Qed.

Lemma trap_syscall_correct_witness : let u := UFile (FLseek 0 (-5) 0) in let tf := call_frame u (trap_regs EX_SYS) in
  wp (mips_trap 0x80010800 tf) (fun o s' => exists r, run_pcall (PFile (FLseek 0 (-5) 0)) calling = Done r (t_kernel s') /\ answered u tf r o) trapping.
Proof.
  intros u tf. destruct (trap_syscall_correct 0x80010800 u (trap_regs EX_SYS) 6 calling_proc trapping) as [Hw _]; [apply calling_sound|apply calling_active|done|done|done|done|done|done|].
  eapply wp_mono; [apply Hw; intros []|]. intros o s' (r & H1 & H2 & _). by exists r.
Defined.

Lemma user_trap_safe_witness : wp (mips_trap 0x80010800 (trap_regs EX_TLBL)) (fun o s' => sound (t_kernel s') /\ match o with Back _ | Gone => True | _ => False end) trapping.
Proof.
  destruct (user_trap_safe 0x80010800 (trap_regs EX_TLBL) 6 calling_proc trapping) as [Hw _]; [apply calling_sound|apply calling_active| | |done|done|done|done|done|done|].
  - split; [reflexivity|]. split; [apply not_elem_of_nil|]. exists calling_proc. split_and!; done.
  - intros _ type. done.
  - eapply wp_mono; [apply Hw; intros (x & Hx & Ho); injection Hx as <-; vm_compute in Ho; discriminate Ho|]. intros o s' (_ & H1 & H2). split; [done|]. destruct o; done.
Defined.
