(* ===== verification/FilesProps.v ===== *)
(** * Properties of the file system calls *)

From S2P Require Import Prelude KHeap Array KWorld RefWorld PState Files FilesSpec FilesCalls Proc ProcCalls ProcTable ProcInv ProcWait ProcSystem ProcCheck.

Section files.
Context {W : Type} `{World W}.
Implicit Types s : pst W.

(** C3: open, read, write, close, lseek, dup2, __getcwd and chdir, called by
    process [p] within their limits, return, keep the invariant of handlers,
    counts, locks and vnode references, change nothing that belongs to other
    parts of the kernel, and do to the open-file tables exactly what the
    specification [fspec] says, errors included. *)
Theorem file_calls_refine p c s (HI : finv s) (Hp : runs p s) (Hc : permitted c s) :
  wp (run_fcall c) (fun r s' => finv s' /\ fframe s s' /\ fspec p c (ftables_of s) r (ftables_of s')) s.
Proof. by apply fcall_meets. Qed.

(** Closing a descriptor whose open file has another descriptor returns
    success and takes one from the count, but leaves the descriptor open: the
    count is then too low by one. *)
Theorem close_shared_stays p fd h s (HI : finv s) (Hp : runs p s) (Hs : ftab s !! (p, fd) = Some h) (Hr : 2 <= refs (ftab s) h) :
  wp (sys_close fd) (fun r s' => r = inr 0 /\ ftab s' = ftab s /\ exists x, fhs s' !! h = Some x /\ d_count x = refs (ftab s') h - 1) s.
Proof.
  destruct (fp_slot _ _ _ _ _ (fi_pure _ HI) _ _ _ Hs) as (_ & Hfd & _). apply (wp_with_fd p); [done|done| |].
  { intros E. exfalso. destruct (fp_slot _ _ _ _ _ (fi_pure _ HI) _ _ _ Hs) as (_ & _ & x & Hx). by rewrite (open_at_some s p fd h x) in E by (done || lia). }
  intros h' x _ Hs' Hx Hh _. cbv beta zeta. assert (h' = h) as -> by congruence. destruct (fp_fh _ _ _ _ _ (fi_pure _ HI) h x Hx) as (_ & _ & Hlk & Hd & Hlt & _).
  wp_step. apply wp_world. wp_apply lock_acquire_law; [apply HI|done|]. intros _ w1 (Hw1 & L1 & V1). wp_step. apply (wp_fh_put h x); [done|]. p_simpl. rewrite s32_id by lia. replace (0 <? d_count x - 1) with true by lia.
  wp_step. apply wp_world. p_simpl. wp_apply lock_release_law; [done|rewrite V1; apply lookup_insert_eq|]. intros _ w2 _. wp_step. p_simpl. split_and!; [done|done|]. eexists. split; [apply lookup_insert_eq|]. p_simpl. lia.
Qed.

(** ** Closing a shared open file again and again *)

Fixpoint closes (n : nat) (fd : Z) : M (pst W) (list (err Z)) :=
  match n with
  | O => ret []
  | S n => r <- sys_close fd ;; l <- closes n fd ;; ret (r :: l)
  end.

(** Open file [h] with count [d], which entry [fd] of process [p] names. *)
Record counts (p fd h : Z) (x : file_handler) (d : Z) (T : gmap (Z * Z) Z) s : Prop := {
  cn_ok : wok (pw s);
  cn_runs : runs p s;
  cn_fd : 0 <= fd < OPEN_MAX /\ 0 < h;
  cn_tab : ftab s = T /\ T !! (p, fd) = Some h;
  cn_fh : fhs s !! h = Some (set_d_count d x);
  cn_lock : v_locks (wv (pw s)) !! fh_lock x = Some false;
  cn_ref : 0 < v_refs (wv (pw s)) (fh_vnode x);
  cn_live : h ∈ heap_live (pw s);
}.

Lemma wp_close_begin p fd h x d T s (Q : err Z -> pst W -> Prop) : counts p fd h x d T s -> 0 < d < 2 ^ 31 ->
  (forall w, wok w -> heap_live w = heap_live (pw s) -> wv w = v_set_locks (<[fh_lock x := true]> (v_locks (wv (pw s)))) (wv (pw s)) ->
    wp (if 0 <? d - 1 then world (lock_release (fh_lock x)) ;;; ret (inr 0)
        else world (lock_release (fh_lock x)) ;;; world (lock_destroy (fh_lock x)) ;;; world (vfs_close (fh_vnode x)) ;;; free_fh h ;;; ft_set p fd 0 ;;; ret (inr 0))
      Q (set_fhs (<[h := set_d_count (d - 1) x]> (fhs s)) (set_pw w s))) ->
  wp (sys_close fd) Q s.
Proof.
  intros [Cok [Ct Cp] [Cf Ch] [ET CT] Cx Cl Cr CL] Hd HQ. unfold sys_close, bad_fd. wp_step. apply (wp_curproc p); [done|]. wp_step. replace ((fd <? 0) || (OPEN_MAX <=? fd)) with false by lia. wp_step. apply wp_ft_get; [done|done|].
  rewrite ET, CT. cbn [default from_option id]. replace (h =? 0) with false by lia. wp_steps. apply wp_ft_get; [done|done|]. rewrite ET, CT. cbn [default from_option id]. wp_step. apply (wp_fh_at h (set_d_count d x)); [done|].
  wp_step. apply wp_world. p_simpl. wp_apply lock_acquire_law; [done|done|]. intros _ w (Hw & L & V). wp_step. apply (wp_fh_put h (set_d_count d x)); [done|]. rewrite s32_id by lia. by apply HQ.
Qed.

Lemma close_counts p fd h x d T s : counts p fd h x d T s -> 1 < d < 2 ^ 31 -> wp (sys_close fd) (fun r s' => r = inr 0 /\ counts p fd h x (d - 1) T s') s.
Proof.
  intros C Hd. apply (wp_close_begin p fd h x d T); [done|lia|]. intros w Hw L V. replace (0 <? d - 1) with true by lia. wp_step. apply wp_world. p_simpl.
  destruct C as [Cok Cr0 Cf CT Cx Cl Cr CL]. wp_apply lock_release_law; [done|rewrite V; apply lookup_insert_eq|]. intros _ w2 (Hw2 & L2 & V2). rewrite V, v_lock_unlock in V2 by done. rewrite L in L2. wp_step. split; [done|].
  constructor; p_simpl; rewrite ?V2, ?L2; try done. apply lookup_insert_eq.
Qed.

Lemma close_last p fd h x T s : counts p fd h x 1 T s ->
  wp (sys_close fd) (fun r s' => r = inr 0 /\ runs p s' /\ ftab s' = delete (p, fd) T /\ fhs s' !! h = None) s.
Proof.
  intros C. apply (wp_close_begin p fd h x 1 T); [done|lia|]. intros w Hw L V. change (0 <? 1 - 1) with false. cbv iota. destruct C as [Cok [Ct Cp] [Cf Ch] [ET CT] Cx Cl Cr CL].
  wp_step. apply wp_world. p_simpl. wp_apply lock_release_law; [done|rewrite V; apply lookup_insert_eq|]. intros _ w2 (Hw2 & L2 & V2). rewrite V, v_lock_unlock in V2 by done. rewrite L in L2.
  wp_step. apply wp_world. p_simpl. wp_apply lock_destroy_law; [done|by rewrite V2|]. intros _ w3 (Hw3 & L3 & V3). wp_step. apply wp_world. p_simpl. wp_apply vfs_close_law; [done|by rewrite V3, V2|]. intros _ w4 (Hw4 & L4 & V4).
  wp_step. p_simpl. eapply wp_free_fh; [done|apply lookup_insert_eq|lia|p_simpl; by rewrite L4, L3, L2|]. intros w5 Hw5 L5 V5. p_simpl. wp_step. apply wp_ft_set; [done|done|]. wp_step. p_simpl. change (0 =? 0) with true. cbv iota.
  split_and!; [done|by split|by rewrite ET|]. apply lookup_delete_eq.
Qed.

Lemma closes_free p fd h x T n s : counts p fd h x (Z.of_nat n + 1) T s -> Z.of_nat n + 1 < 2 ^ 31 ->
  wp (closes (S n) fd) (fun rs s' => rs = replicate (S n) (inr 0) /\ runs p s' /\ ftab s' = delete (p, fd) T /\ fhs s' !! h = None) s.
Proof.
  revert s. induction n as [|n IH]; intros s C Hn.
  - cbn [closes]. wp_step. wp_apply close_last; [done|]. intros r s' (-> & HR). wp_steps. done.
  - change (closes (S (S n)) fd) with (r <- sys_close fd ;; l <- closes (S n) fd ;; ret (r :: l)). wp_step. wp_apply close_counts; [done|lia|]. intros r s' [-> C'].
    wp_step. wp_apply IH; [by replace (Z.of_nat n + 1) with (Z.of_nat (S n) + 1 - 1) by lia|lia|]. intros l s2 (-> & HR). wp_step. done.
Qed.

(** An entry that names a freed open file. *)
Lemma freed_faults p fd h s : runs p s -> 0 <= fd < OPEN_MAX -> h <> 0 -> ftab s !! (p, fd) = Some h -> fhs s !! h = None ->
  forall k : Z -> Z -> file_handler -> M (pst W) (err Z),
  (p <- curproc ;; bad <- bad_fd p fd ;; if bad then ret (inl EBADF) else fh <- ft_get p fd ;; x <- fh_at fh ;; k p fh x) s = Fault.
Proof.
  intros [Ht Hp] Hfd Hh HT HF k. apply run_bind. apply (wp_curproc p); [done|]. apply run_bind. unfold bad_fd. replace ((fd <? 0) || (OPEN_MAX <=? fd)) with false by lia. wp_step. apply wp_ft_get; [done|done|].
  rewrite HT. cbn [default from_option id]. replace (h =? 0) with false by lia. wp_step. apply run_bind. apply wp_ft_get; [done|done|]. rewrite HT. cbn [default from_option id]. apply bind_fault. unfold fh_at, bind, get. by rewrite HF.
Qed.

(** C37: closing a descriptor of an open file that has others, as often as
    the file has descriptors, succeeds every time and frees the open file,
    although every other entry (of this process, or of one forked from it)
    still names it; reading, writing and closing through such a descriptor
    then use freed memory.  A descriptor that was closed should be refused
    with [EBADF]. *)
Theorem close_twice_dangles p fd h s (HI : finv s) (Hp : runs p s) (Hs : ftab s !! (p, fd) = Some h) :
  wp (closes (Z.to_nat (refs (ftab s) h)) fd) (fun rs s' =>
    rs = replicate (Z.to_nat (refs (ftab s) h)) (inr 0) /\ fhs s' !! h = None /\ ftab s' = delete (p, fd) (ftab s) /\
    forall fd', fd' <> fd -> ftab s !! (p, fd') = Some h ->
      sys_close fd' s' = Fault /\ forall buf n, sys_read fd' buf n s' = Fault /\ sys_write fd' buf n s' = Fault) s.
Proof.
  destruct (fp_slot _ _ _ _ _ (fi_pure _ HI) _ _ _ Hs) as (_ & Hfd & x & Hx). destruct (fp_fh _ _ _ _ _ (fi_pure _ HI) h x Hx) as (Hh & HL & Hlk & Hd & Hlt & _).
  destruct (fp_slot_pos _ _ _ _ _ _ _ _ (fi_pure _ HI) Hs) as [_ Hpos]. pose proof (fp_ref _ _ _ _ _ _ _ (fi_pure _ HI) Hx) as Hr.
  assert (exists n, Z.to_nat (refs (ftab s) h) = S n /\ Z.of_nat n + 1 = refs (ftab s) h) as (n & -> & En) by (exists (Z.to_nat (refs (ftab s) h - 1)); lia).
  wp_apply (closes_free p fd h x (ftab s)); [|lia|].
  { rewrite En, <- Hd. constructor; try done; [apply HI|]. by destruct x. }
  intros rs s' (-> & Hp' & ET & EF). split_and!; [done|done|done|]. intros fd' Hne Hs'. destruct (fp_slot _ _ _ _ _ (fi_pure _ HI) _ _ _ Hs') as (_ & Hfd' & _).
  assert (ftab s' !! (p, fd') = Some h) as HT by (rewrite ET, lookup_delete_ne; [done|congruence]).
  split; [|intros buf k; split]; by apply (freed_faults p fd' h s' Hp' Hfd' ltac:(lia) HT EF).
Qed.
End files.

(** ** Examples *)

(** The program of [programmed] runs. *)
Definition at_work : rst := Eval vm_compute in state_of (dispatch 2) programmed.

Lemma at_work_sound : sound at_work.
Proof. eexists _, _. apply pinvb_spec; [done|vm_compute; reflexivity]. Qed.

Lemma sound_finv {W} `{World W} (s : pst W) : sound s -> finv s.
Proof. intros (B & m & I). eapply pmid_finv, I. Qed.

Lemma file_calls_refine_witness : permitted (FWrite 1 1000 10) at_work /\
  wp (run_fcall (FWrite 1 1000 10)) (fun r s' => finv s' /\ fframe at_work s' /\ fspec 6 (FWrite 1 1000 10) (ftables_of at_work) r (ftables_of s')) at_work.
Proof. split; [done|]. apply (file_calls_refine 6 (FWrite 1 1000 10) at_work); [apply sound_finv, at_work_sound|split; [reflexivity|by eexists]|done]. Defined.

(** Standard output has two descriptors. *)
Definition duplicated : rst := Eval vm_compute in state_of (sys_dup2 1 5) at_work.

Lemma duplicated_sound : sound duplicated.
Proof. eexists _, _. apply pinvb_spec; [done|vm_compute; reflexivity]. Qed.

Lemma close_shared_stays_witness : 2 <= refs (ftab duplicated) 11 /\
  wp (sys_close 1) (fun r s' => r = inr 0 /\ ftab s' = ftab duplicated /\ exists x, fhs s' !! 11 = Some x /\ d_count x = refs (ftab s') 11 - 1) duplicated.
Proof. split; [by vm_compute|]. apply (close_shared_stays 6 1 11 duplicated); [apply sound_finv, duplicated_sound|split; [reflexivity|by eexists]|reflexivity|by vm_compute]. Defined.

Lemma close_twice_dangles_witness :
  result_of (sys_dup2 1 5) at_work = Some (inr 5) /\
  wp (closes 2 1) (fun rs s' => rs = [inr 0; inr 0] /\ sys_write 5 1000 10 s' = Fault) duplicated.
Proof.
  split; [vm_compute; reflexivity|]. eapply wp_mono; [apply (close_twice_dangles 6 1 11 duplicated); [apply sound_finv, duplicated_sound|split; [reflexivity|by eexists]|reflexivity]|].
  intros rs s' (Hrs & _ & _ & Hf). split; [exact Hrs|]. destruct (Hf 5) as [_ Hrw]; [discriminate|reflexivity|]. apply Hrw.
Defined.
