(* ===== verification/ProcProps.v ===== *)
(** * Properties of the process system calls *)

From S2P Require Import Prelude KHeap Array KWorld RefWorld PState Files FilesSpec Proc ProcCalls ProcTable ProcInv ProcOps ProcDestroy ProcFork ProcWait ProcExit ProcSystem ProcCheck FilesProps.

Section props.
Context {W : Type} `{World W}.
Implicit Types s : pst W.

(** C5: In every run of threads that fork, ask for their pid, wait, exit,
    start, wake up and use files, the next step of any thread comes to one
    of two ends.  The exit of an orphan and a wait for a pid from 32 to
    [PID_MAX] are never done: the thread is neither back nor gone.  Every other step is done:
    no panic, no access to freed or unset memory, no endless loop; the
    invariant of the process layer holds after it, except after a fork that
    reports an error half way, where the run ends.  The limits ([may]): only processes that
    run a program fork and exit, and the file system calls are those of
    [permitted] (no [close] of a shared open file, room for a count more in
    [dup2], a buffer for [__getcwd]). *)
Theorem process_runs_safe s0 s t p c (H0' : sound s0) (HR : preach s0 s) (Ht : tproc s !! t = Some p) (Hm : may t p c s) :
  (~ lost p c s -> wp (pstep t c) (after p c) s) /\ (lost p c s -> forall r s', pstep t c s <> Done r s').
Proof. pose proof (preach_sound _ _ H0' HR) as HS. split; [by apply pstep_safe|by apply pstep_lost]. Qed.

(** C11: [sys_fork] either reports an error, or makes a child with a pid that
    was free, a copy of the parent's address space in a space of its own, the
    parent's open files and directory, and one thread that will go to user mode
    with the parent's registers and result 0; no other process changes. *)
Theorem fork_correct B m c cx sp name tf s (HI : pinv B m s) (Ht : tproc s !! curt s = Some c) (Hc : procs s !! c = Some cx)
    (Hs : v_spaces (wv (pw s)) !! p_addrspace cx = Some sp) (Hcur : v_curas (wv (pw s)) = p_addrspace cx) :
  wp (sys_fork name tf) (fun r s' => match r with
    | inl e => e <> 0 /\ (sound s' \/ half_forked c s')
    | inr i => exists p y, fork_done m s s' c cx sp tf p y /\ pid y = i /\ exists B', pinv B' (<[i := Row p RUNNING 0]> m) s'
    end) s.
Proof.
  eapply (wp_sys_fork B m c cx sp); try done; [by eapply thread_lives|..].
  - intros e B' s' He I' _. split; [done|]. left. by exists B', m.
  - intros e s' He Hh. split; [done|by right].
  - intros B' m' s' I'. split; [done|]. left. by exists B', m'.
  - intros B' s' p y Hd I' _. exists p, y. split_and!; [done|done|by exists B'].
Qed.

(** C13: [sys__exit] of a process whose parent lives leaves its exit code in
    the table, frees the pids of its dead children and makes the others
    orphans, wakes up every thread inside [sys_waitpid], ends its thread, and
    touches no other process, descriptor or thread. *)
Theorem exit_correct B m c cx r code s (HI : pinv B m s) (Ht : tproc s !! curt s = Some c) (Hc : procs s !! c = Some cx) (Hr : m !! pid cx = Some r) (Hst : r_status r = RUNNING) (H1 : pid cx <> 1)
    (Hcur : v_curas (wv (pw s)) = p_addrspace cx) (Hnw : curt s ∉ waiting s) : wp (sys__exit code) (fun _ s' => exit_done m s s' c cx code) s.
Proof. by eapply wp_sys__exit. Qed.

(** C23: [sys_waitpid] reads beyond the process table for the pids from 32 to
    [PID_MAX].  Of the others it refuses exactly those that name no process or no
    child, and other options than 0, without an effect; for a child that
    exited it hands out the child's exit code; otherwise the thread sleeps. *)
Theorem waitpid_correct B m c cx i rv options s (HI : pinv B m s) (Ht : tproc s !! curt s = Some c) (Hc : procs s !! c = Some cx) (Hnw : curt s ∉ waiting s) :
  if decide (32 <= i <= PID_MAX) then sys_waitpid i rv options s = Fault else
  wp (sys_waitpid i rv options) (fun res s' => match wait_check m cx i options with
    | Some e => res = Returned e None /\ s' = s
    | None => exists r, m !! i = Some r /\ r_proc r ∈ alist (children cx) /\ wait_ends B m s i rv r res s'
    end) s.
Proof.
  destruct (decide (32 <= i <= PID_MAX)) as [Hi|Hi]; [by apply (sys_waitpid_faults B m)|]. assert (i < 32 \/ PID_MAX < i) by lia.
  eapply (wp_sys_waitpid B m c cx); try done; [by eapply thread_lives|..].
  - intros e ->. done.
  - intros r res s' -> Hr Hin Hend. by exists r.
Qed.

(** C24: In every run within the limits of [may] (one that goes on after
    failed forks, if they left the system sound), a thread that sleeps in [sys_waitpid] waits for a child
    of its process that exists and has not exited: no exit is missed. *)
Theorem wait_no_lost_exit s0 s t i rv (H0' : sound s0) (HR : preach s0 s) (Hq : (t, (i, rv)) ∈ cv_queue s) :
  exists p x c y, tproc s !! t = Some p /\ procs s !! p = Some x /\ c ∈ alist (children x) /\ procs s !! c = Some y /\ pid y = i /\ pt_status (ptab s) !! Z.to_nat i = Some (Some RUNNING).
Proof.
  destruct (preach_sound _ _ H0' HR) as (B & m & I). destruct (wa_child _ _ _ _ _ (pv_waits I) t i rv) as (p & j & l & c & l' & Ht & Hp & Hl & Hc & Hi); [set_solver|].
  pose proof (pv_family (pv_mid I)) as F. destruct (fa_kids _ _ _ _ _ _ F p j l Hp (not_elem_of_empty _) Hl) as [_ Hk]. destruct (Hk c Hc) as (_ & _ & i' & l'' & r & Hi' & _ & Hr & Hst).
  rewrite Hi in Hi'. injection Hi' as <- <-. pose proof (wa_sleep _ _ _ _ _ (pv_waits I) t i rv r Hq Hr) as Hz. destruct Hst as [Hst|]; [|done]. destruct (tr_row _ _ (pv_tab (pv_mid I)) i r Hr) as (_ & _ & E & _).
  apply view_inv in Hp as (x & Hx & [= -> ->]). apply view_inv in Hi as (y & Hy & [= -> ->]). exists p, x, c, y. split_and!; try done. congruence.
Qed.

(** C14: When a process exits while a thread of its parent sleeps in
    [sys_waitpid] for it, that thread can run next, and its call returns with
    the exit code (or the error of copying it out). *)
Theorem exit_wakes_parent s u c cx t rv code (HS : sound s) (Hu : tproc s !! u = Some c) (Hc : procs s !! c = Some cx) (Hm : may u c (PExit code) s) (Hq : (t, (pid cx, rv)) ∈ cv_queue s) :
  wp (pstep u (PExit code) ;;; pstep t PWake) (fun r s' => sound s' /\ if decide (rv = 0) then r = RWaited 0 None else r = RWaited 0 (Some code) \/ exists e, e <> 0 /\ r = RWaited e None) s.
Proof.
  destruct HS as (B & m & I). cbn in Hm. destruct Hm as (_ & Hw & (x & Hx & Ha & H1)). assert (x = cx) as -> by congruence. pose proof (thread_lives _ _ _ _ _ _ I Hu Hc) as (r & Hr & _).
  destruct (wa_child _ _ _ _ _ (pv_waits I) t (pid cx) rv) as (p & j & l & d & l' & Ht & Hpj & Hlj & Hdl & Hdi); [set_solver|]. assert (r_status r = RUNNING) as Hst.
  { destruct (fa_kids _ _ _ _ _ _ (pv_family (pv_mid I)) p j l Hpj (not_elem_of_empty _) Hlj) as [_ Hk]. destruct (Hk d Hdl) as (_ & _ & i' & l'' & r' & Hi' & _ & Hr' & Hst'). rewrite Hdi in Hi'. injection Hi' as <- <-. assert (r' = r) as -> by congruence.
    pose proof (wa_sleep _ _ _ _ _ (pv_waits I) t _ rv r Hq Hr) as Hz. by destruct Hst'. } wp_step. unfold pstep at 1. wp_step.
  eapply (wp_dispatch B m u c cx); [done|done|done|]. intros w1 s1 I1 (_ & _ & Hcur) _. subst s1. cbn [run_pcall]. wp_step. eapply (wp_sys__exit B m c cx r code); try done; [by apply Hcur|].
  intros s2 [[B2 I2] [_ Ewk] Etp _ _ _ _ _]. st_simpl. cbn in Ewk, Etp. assert (t <> u) as Htu. { intros ->. apply Hw. unfold waiting. apply (list_elem_of_fmap_2' _ _ (u, (pid cx, rv))); [set_solver|done]. }
  assert (tproc s2 !! t = Some p) as Ht2 by (by rewrite Etp, lookup_delete_ne). destruct (thread_proc _ _ _ _ _ I2 Ht2) as [px Hp2]. wp_step. unfold pstep. wp_step. eapply (wp_dispatch B2 _ t p px); [done|done|done|]. intros w3 s3 I3 _ _. subst s3.
  assert ((t, (pid cx, rv)) ∈ cv_woken s2) as Hin by (rewrite Ewk; set_solver). destruct (find_woken s2 t) as (k & w & Hf & Hw2 & Ew); [by apply (list_elem_of_fmap_2 fst) in Hin|].
  assert (w = (t, (pid cx, rv))) as ->. { pose proof (wa_nodup _ _ _ _ _ (pv_waits I2)) as Hnd. rewrite fmap_app in Hnd. apply NoDup_app in Hnd as (_ & _ & Hnd). by eapply (nodup_fmap_eq fst). }
  cbn [run_pcall]. wp_step. wp_step. wp_step. eapply wp_deref; [exact Hf|]. wp_step. cbn [snd]. eapply (wp_waitpid_wakeup B2 _ (t, (pid cx, rv))); try done. intros r2 res s4 Hr2 (I4 & w4 & _ & Hend). cbn [fst snd] in *.
  rewrite lookup_insert_eq in Hr2. injection Hr2 as <-. wp_step. split; [by eexists B2, _|]. destruct Hend as [(_ & _ & Hres)|(Hno & _)]; [|done]. destruct (decide (rv = 0)); destruct Hres as [[? ->]|[? Hres]]; try done. destruct Hres as [->|(e & ? & ->)]; [by left|right; by exists e].
Qed.

(** C38: A process whose parent exited before it cannot exit: in every sound
    state, whatever its exit code, its call of [sys__exit] never gets to the
    end of its thread, which is how the call of any other process ends.
    It destroys its own process structure and then looks for its thread in
    it. *)
Theorem orphan_exit_faults s t p code (HS : sound s) (Ht : tproc s !! t = Some p) (Hm : may t p (PExit code) s) (Ho : orphan p s) :
  forall r s', pstep t (PExit code) s <> Done r s'.
Proof. by apply (pstep_lost t p (PExit code) s). Qed.

(** In every run, pids are those of cells of the table and no two
    processes share one; the table's cell of a pid names its process, the
    count of free pids is right, and the next pid to hand out is a free cell
    of the table. *)
Theorem pids_in_bounds s0 s (H0' : sound s0) (HR : preach s0 s) :
  (forall p x, procs s !! p = Some x -> 1 <= pid x < 32 /\ pt_proc (ptab s) !! Z.to_nat (pid x) = Some (Some p)) /\
  (forall p q x y, procs s !! p = Some x -> procs s !! q = Some y -> pid x = pid y -> p = q) /\
  0 <= pid_available (ptab s) <= 31 /\ (0 < pid_available (ptab s) -> 1 <= pid_next (ptab s) < 32 /\ pt_status (ptab s) !! Z.to_nat (pid_next (ptab s)) = Some (Some READY)).
Proof.
  destruct (preach_sound _ _ H0' HR) as (B & m & I). pose proof (pv_tab (pv_mid I)) as Tr. pose proof (pv_count I) as Tc. assert (forall p x, procs s !! p = Some x -> exists r, m !! pid x = Some r /\ r_proc r = p) as Hrow.
  { intros p x Hx. destruct (fa_pid _ _ _ _ _ _ (pv_family (pv_mid I)) p (pid x) (alist (children x))) as (r & Hr & E & _); [by apply (view_lookup (fun x => (pid x, alist (children x))))|set_solver|]. by exists r. }
  split_and!.
  - intros p x (r & Hr & <-)%Hrow. by destruct (tr_row _ _ Tr _ _ Hr) as (? & ? & _).
  - intros p q x y (r & Hr & <-)%Hrow (r' & Hr' & <-)%Hrow E. congruence.
  - rewrite (tc_avail _ _ Tc). by eapply free_pids_bound.
  - rewrite (tc_avail _ _ Tc). by eapply free_pids_bound.
  - rewrite (tc_avail _ _ Tc). intros (r & Hr & Hst)%(tc_next _ _ Tc). destruct (tr_row _ _ Tr _ _ Hr) as (? & _ & E & _). by rewrite E, Hst.
Qed.
End props.

(** ** Examples *)

Definition user_frame : trapframe := Trapframe 7 8 1 2 3 4 1000 256 [].
Definition the_proc (p : Z) (s : rst) : proc := default (Proc 0 false empty_array 0 0 0 0 empty_array) (procs s !! p).

(** The program forks; its child starts; it waits for the child. *)
Definition forked_st : rst := Eval vm_compute in state_of (pstep 2 (PFork [99] user_frame)) programmed.
Definition started_st : rst := Eval vm_compute in state_of (pstep 3 PStart) forked_st.
Definition waiting_st : rst := Eval vm_compute in state_of (pstep 2 (PWaitpid 3 500 0)) started_st.

Lemma nobody {W} (s : pst W) t : waiting s = [] -> t ∉ waiting s.
Proof. intros ->. apply not_elem_of_nil. Qed.

Lemma reach_forked : preach programmed forked_st.
Proof.
  apply (preach_step programmed programmed 2 6 (PFork [99] user_frame) (RValue (inr 3)) forked_st); [constructor|reflexivity| |vm_compute; reflexivity|].
  - split; [reflexivity|]. split; [by apply nobody|]. eexists. split; [reflexivity|done].
  - left. by intros (? & ? & ? & _ & ?).
Qed.

Lemma reach_started : preach programmed started_st.
Proof.
  apply (preach_step programmed forked_st 3 14 PStart (RUser (child_trapframe user_frame)) started_st); [apply reach_forked|reflexivity| |vm_compute; reflexivity|].
  - by eexists.
  - left. by intros (? & ? & ? & ? & _).
Qed.

Lemma reach_waiting : preach programmed waiting_st.
Proof.
  apply (preach_step programmed started_st 2 6 (PWaitpid 3 500 0) RAsleep waiting_st); [apply reach_started|reflexivity| |vm_compute; reflexivity|].
  - split; [reflexivity|]. split; [by apply nobody|done].
  - left. by intros (? & ? & ? & ? & _).
Qed.

Lemma process_runs_safe_witness : preach programmed started_st /\ wp (pstep 2 (PWaitpid 3 500 0)) (after 6 (PWaitpid 3 500 0)) started_st /\
  forall r s', pstep 2 (PWaitpid 100 500 0) started_st <> Done r s'.
Proof.
  split; [apply reach_started|]. assert (forall i, may 2 6 (PWaitpid i 500 0) started_st) as Hm by (intros i; split; [reflexivity|]; split; [by apply nobody|exact Logic.I]). split.
  - destruct (process_runs_safe programmed started_st 2 6 (PWaitpid 3 500 0) programmed_sound reach_started eq_refl (Hm 3)) as [Hs _]. apply Hs. cbn. lia.
  - destruct (process_runs_safe programmed started_st 2 6 (PWaitpid 100 500 0) programmed_sound reach_started eq_refl (Hm 100)) as [_ Hs]. apply Hs. cbn. unfold PID_MAX. lia.
Defined.

Lemma wait_no_lost_exit_witness : (2, (3, 500)) ∈ cv_queue waiting_st /\
  exists p x c y, tproc waiting_st !! 2 = Some p /\ procs waiting_st !! p = Some x /\ c ∈ alist (children x) /\ procs waiting_st !! c = Some y /\ pid y = 3 /\ pt_status (ptab waiting_st) !! Z.to_nat 3 = Some (Some RUNNING).
Proof.
  assert ((2, (3, 500)) ∈ cv_queue waiting_st) as Hq by (apply list_elem_of_singleton; reflexivity). split; [exact Hq|].
  apply (wait_no_lost_exit programmed waiting_st 2 3 500); [apply programmed_sound|apply reach_waiting|exact Hq].
Defined.

Definition child_cx : proc := Eval vm_compute in the_proc 14 waiting_st.

Lemma exit_wakes_parent_witness : (2, (pid child_cx, 500)) ∈ cv_queue waiting_st /\
  wp (pstep 3 (PExit 42) ;;; pstep 2 PWake) (fun r s' => sound s' /\ if decide (500 = 0) then r = RWaited 0 None else r = RWaited 0 (Some 42) \/ exists e, e <> 0 /\ r = RWaited e None) waiting_st.
Proof.
  assert ((2, (pid child_cx, 500)) ∈ cv_queue waiting_st) as Hq by (apply list_elem_of_singleton; reflexivity). split; [exact Hq|].
  apply (exit_wakes_parent waiting_st 3 14 child_cx 2 500 42); [apply (preach_sound _ _ programmed_sound reach_waiting)|reflexivity|reflexivity| |exact Hq].
  split; [reflexivity|]. split; [apply (bool_decide_unpack _); vm_compute; exact Logic.I|]. eexists. split; [reflexivity|done].
Defined.

Definition prog_cx : proc := Eval vm_compute in the_proc 6 at_work.

Lemma fork_correct_witness : exists m, tproc at_work !! curt at_work = Some 6 /\
  wp (sys_fork [99] user_frame) (fun r s' => match r with
    | inl e => e <> 0 /\ (sound s' \/ half_forked 6 s')
    | inr i => exists p y, fork_done m at_work s' 6 prog_cx 7 user_frame p y /\ pid y = i /\ exists B', pinv B' (<[i := Row p RUNNING 0]> m) s'
    end) at_work.
Proof.
  exists (rows_of (ptab at_work)). split; [reflexivity|].
  apply (fork_correct (W := rworld) (H0 := rworld_world) (uses_of (procs at_work) (fhs at_work) (tfs at_work)) _ 6 prog_cx 7 [99] user_frame at_work); [apply pinvb_spec; [done|vm_compute; reflexivity]|reflexivity|reflexivity|reflexivity|reflexivity].
Defined.

(** The child of [started_st] runs. *)
Definition child_st : rst := Eval vm_compute in state_of (dispatch 3) started_st.

Lemma exit_correct_witness : let m := rows_of (ptab child_st) in m !! 3 = Some (Row 14 RUNNING 0) /\
  wp (sys__exit 42) (fun _ s' => exit_done m child_st s' 14 (the_proc 14 child_st) 42) child_st.
Proof.
  cbv zeta. split; [vm_compute; reflexivity|].
  apply (exit_correct (uses_of (procs child_st) (fhs child_st) (tfs child_st)) (rows_of (ptab child_st)) 14 (the_proc 14 child_st) (Row 14 RUNNING 0) 42 child_st);
    [apply pinvb_spec; [done|vm_compute; reflexivity]|reflexivity|reflexivity|vm_compute; reflexivity|reflexivity|done|reflexivity|by apply nobody].
Defined.

Definition parent_st : rst := Eval vm_compute in state_of (dispatch 2) started_st.

Lemma waitpid_correct_witness : let m := rows_of (ptab parent_st) in let B := uses_of (procs parent_st) (fhs parent_st) (tfs parent_st) in wait_check m (the_proc 6 parent_st) 3 0 = None /\
  wp (sys_waitpid 3 500 0) (fun res s' => match wait_check m (the_proc 6 parent_st) 3 0 with
    | Some e => res = Returned e None /\ s' = parent_st
    | None => exists r, m !! 3 = Some r /\ r_proc r ∈ alist (children (the_proc 6 parent_st)) /\ wait_ends B m parent_st 3 500 r res s'
    end) parent_st.
Proof.
  cbv zeta. split; [vm_compute; reflexivity|].
  pose proof (waitpid_correct (uses_of (procs parent_st) (fhs parent_st) (tfs parent_st)) (rows_of (ptab parent_st)) 6 (the_proc 6 parent_st) 3 500 0 parent_st) as Hw.
  rewrite decide_False in Hw by (unfold PID_MAX; lia). apply Hw; [apply pinvb_spec; [done|vm_compute; reflexivity]|reflexivity|reflexivity|by apply nobody].
Defined.

Lemma pids_in_bounds_witness : preach programmed waiting_st /\
  (forall p x, procs waiting_st !! p = Some x -> 1 <= pid x < 32 /\ pt_proc (ptab waiting_st) !! Z.to_nat (pid x) = Some (Some p)) /\
  (forall p q x y, procs waiting_st !! p = Some x -> procs waiting_st !! q = Some y -> pid x = pid y -> p = q) /\
  0 <= pid_available (ptab waiting_st) <= 31 /\ (0 < pid_available (ptab waiting_st) -> 1 <= pid_next (ptab waiting_st) < 32 /\ pt_status (ptab waiting_st) !! Z.to_nat (pid_next (ptab waiting_st)) = Some (Some READY)).
Proof. split; [apply reach_waiting|]. apply (pids_in_bounds programmed waiting_st); [apply programmed_sound|apply reach_waiting]. Defined.

(** The parent exits first; its child is an orphan then. *)
Definition orphaned_st : rst := Eval vm_compute in state_of (pstep 2 (PExit 42)) started_st.

Lemma orphan_exit_faults_witness : (forall r s', pstep 3 (PExit 7) orphaned_st <> Done r s') /\ pstep 3 (PExit 7) orphaned_st = Fault.
Proof.
  split; [|vm_compute; reflexivity]. apply (orphan_exit_faults orphaned_st 3 14 7).
  - eexists _, _. apply pinvb_spec; [done|vm_compute; reflexivity].
  - reflexivity.
  - split; [reflexivity|]. split; [by apply nobody|]. eexists. split; [reflexivity|done].
  - eexists. split; [reflexivity|]. vm_compute. reflexivity.
Defined.
